(* ===== verification/_CoqProject ===== *)
-Q . S2P
Prelude.v
GoText.v
GoTime.v
GoDecode.v
Effects.v
Refine.v
JobsTypes.v
JobsStore.v
JobsFacts.v
JobsRefine.v
JobsCorrect.v
JobsWorker.v
SchedCalc.v
SchedStore.v
SchedRefine.v
SchedCorrect.v
RedactFilter.v
RedactTrie.v
RedactCorrect.v
IdentPassword.v
IdentService.v
IdentFacts.v
IdentCorrect.v
DotenvScan.v
DotenvEdit.v
DotenvLayout.v
DotenvCorrect.v
WsTypes.v
WsJournal.v
WsDisk.v
WsAudit.v
WsYaml.v
WsInspect.v
WsEdit.v
WsSelect.v
WsStore.v
WsCommit.v
WsBootstrap.v
WsRecovery.v
WsRun.v
WsFacts.v
WsSafety.v
WsLooking.v
WsCommitSafe.v
WsRecoverySafe.v
WsExample.v
WsCorrect.v
WsRecoveryCorrect.v
WsExternal.v
WsLease.v
BrokerRun.v
BrokerCorrect.v
OpTypes.v
Tokens.v
OpExecutor.v
OpSafe.v
OpCorrect.v
OpService.v
OpReview.v
IntegTypes.v
IntegFields.v
RunIdentity.v
Compat.v
CompatCorrect.v
IntegCorrect.v
ConfTypes.v
ConfDotenv.v
ConfService.v
ConfExecution.v
ConfCorrect.v
NativeYaml.v
NativeClassify.v
NativeSemantic.v
NativeEngine.v
NativeCorrect.v
