(* ===== verification/Prelude.v ===== *)
(** * A verification of the AcmeMux service core

    AcmeMux is a Go service that operates the ACME client lego on a host: it
    adopts a working directory with a native lego configuration, edits its
    configuration and credential files, runs lego by hand or on a schedule and
    shows the results without showing secrets.  This library translates the
    packages that carry its own state and decisions and proves what makes them
    correct.  Go code becomes Gallina functions over explicit state; a Go
    [(value, error)] pair is a [result]; every definition that translates code
    keeps the name the code has, or says in a comment which part of a function
    it is.

    ** Layers

    [Prelude] holds results, text ordering, sorting, byte strings and the
    tactics shared by all files.  [GoText], [GoTime] and [GoDecode] define what
    the code uses of Go's standard library: UTF-8 and Unicode classes, the
    calendar with RFC 3339 text, decimal and base64 decoding, with their round
    trips.  [Effects] is the monad of stateful code with errors and of SQLite
    transactions: a transaction works on a copy, every database call consults
    a schedule of faults, and only [commit] makes the copy durable.  [Refine]
    is the general theorem that a transactional store which implements a
    specification step without faults does under faults the same step or
    nothing.  [WsDisk] is the file system, with entries and bytes a power loss
    may take, and the computations on it that may be stopped at any call;
    [WsRun] is the weakest precondition with a crash condition in which they
    are reasoned about.  [Tokens] holds the length-prefixed digests by which a
    preview is bound to what is done later.

    ** The parts of the program

    - Durable operations, src/internal/jobs.  [JobsTypes] (types.go, errors.go)
      and [JobsStore] (store.go, migrations 008 to 010): the singleton row of
      the latest operation with its requested and resulting items, each SQL
      statement a function on the tables that is undefined where a constraint
      rejects the row.  [JobsFacts] is the store as a machine on at most one
      operation, [JobsRefine] the refinement, [JobsCorrect] the properties
      along histories of calls.  [JobsWorker] (worker.go) is the worker over any store
      that keeps the specification, with other goroutines enqueueing between
      its calls, and its properties.
    - The daily scheduler, src/internal/scheduler.  [SchedCalc] (types.go,
      calculate.go), [SchedStore] (store.go, service.go, migration 009),
      [SchedRefine] (specification and refinement), [SchedCorrect].  An
      accepted trigger is an enqueued operation.
    - Redaction, src/internal/redaction.  [RedactFilter] is the pattern automaton
      with its node and edge tables and the reference (remove the longest
      secret the output ends with); [RedactTrie] follows the construction;
      [RedactCorrect].
    - The administrator's identity, src/internal/identity.  [IdentPassword]
      (options.go, password.go), [IdentService] (service.go, session.go, migration
      002); [IdentFacts] holds the invariants under arbitrary calls of other
      goroutines; [IdentCorrect].
    - Credential files, src/internal/dotenv.  [DotenvScan], [DotenvEdit]
      (dotenv.go); [DotenvLayout]; [DotenvCorrect].
    - The workspace, src/internal/workspace.  [WsTypes] and [WsJournal]
      (transaction_types.go, journal.go, migrations 006 and 007); [WsAudit]
      (audit_linux.go), [WsYaml] (yaml.go), [WsInspect] (inspector.go,
      fingerprint.go); [WsSelect] and [WsStore] (store.go, migration 005);
      [WsEdit] and [WsCommit] (transaction_manager_linux.go,
      transaction_commit_linux.go); [WsBootstrap] (bootstrap_linux.go);
      [WsRecovery] (recovery_linux.go); [WsExternal] (external_linux.go);
      [WsLease] (coordinator_linux.go) with its properties.  [WsFacts],
      [WsLooking], [WsSafety], [WsCommitSafe] and [WsRecoverySafe] hold the
      lemmas, [WsExample] a concrete edit, [WsCorrect] and [WsRecoveryCorrect]
      the properties.
    - Native runs, src/internal/broker.  [BrokerRun] (output.go, types.go,
      errors.go, runner_linux.go): the bounded output of a child, its
      environment, the outcome of a run; [BrokerCorrect].
    - Operations, src/internal/operation.  [OpTypes] has the data of plans and
      inventories; [OpExecutor] (executor.go) is the executor as a process over
      the calls of its dependencies, [OpSafe] its runs under arbitrary
      answers, [OpCorrect] the properties; [OpService] (service.go) previews
      and enqueues, [OpReview] its property.
    - Curated integrations, src/internal/integrations.  [IntegTypes] (types.go,
      manifest.go), [IntegFields] (base.go, core.go, core_dns.go,
      cloud_dns.go), [IntegCorrect].
    - Runtime identity and compatibility, src/internal/runtime (types.go,
      version.go, review.go) in [RunIdentity]; src/internal/compatibility in
      [Compat] with its catalogs, [CompatCorrect].
    - The configuration service, src/internal/configuration.  [ConfTypes]
      (token.go and the data shared with the engine), [ConfDotenv] (dotenv.go),
      [ConfService] (service.go, operations.go, creation.go), [ConfExecution]
      (execution.go, cloud_access.go), [ConfCorrect].
    - The native configuration engine, src/internal/nativeconfig.  [NativeYaml]
      (yaml.go), [NativeClassify] (classify.go, secrets.go), [NativeSemantic]
      (semantic.go, core_semantic.go), [NativeEngine] (engine.go, api.go),
      [NativeCorrect].

    They meet as in the program: the worker drives the executor, which is
    proved to keep the contract the worker's properties ask of an executor
    ([OpCorrect]); the executor takes plans from the configuration service and
    leases from the coordinator and hands a run to the broker; the
    configuration service calls the engine for candidates and the workspace
    for journaled writes; the engine reads the curated manifests.

    ** What the theorems show

    - An edit of native files is crash safe ([WsCorrect]): whatever calls fail,
      wherever the process stops and whatever a power loss takes, every file
      has its old or its new bytes, without a journal all files are old or
      all are new and nothing is left behind, and success means all new.  The
      same holds of the creation of a first configuration, and resolving an
      interrupted edit keeps its files, provided that the directories of the
      edit had been synchronized ([WsRecoveryCorrect]); the
      same file shows that this proviso is needed.
    - What an inspection declares adoptable, and what an audit declares safe,
      has been checked component by component ([WsCorrect]).
    - Leases of one lock file exclude each other over any number of processes
      and goroutines, and a free workspace is leased ([WsLease]).
    - The operation store and the schedule store implement their machines along
      every history, also under faults ([JobsCorrect], [SchedCorrect]); a
      schedule triggers at most once per local date, and the next evaluation
      is the first admissible minute ([SchedCorrect]).
    - An operation is recorded under its own identity with the result of the
      run it got ([JobsWorker]); the executor runs the broker at most once, only
      under the lease and with the reviewed evidence, gives everything back,
      and classifies each certificate by what was observed ([OpCorrect]); what is
      enqueued is what was shown ([OpReview]).
    - The output of a run is bounded, displayable and free of secrets
      ([BrokerCorrect]); the automaton behind it computes the reference
      redaction and its output holds no form of a secret ([RedactCorrect]).
    - Tokens, logins and resets behave under interleaving ([IdentCorrect]).
    - Only observations of qualified executables are admitted, and version
      lines are read exactly ([CompatCorrect]); curated fields are well formed
      and native paths name at most one of them ([IntegCorrect]).
    - What a save or a creation writes is what was previewed, plans with the same
      evidence were prepared from the same sources with the same intent, and
      the challenges of an executable configuration can be prepared
      ([ConfCorrect]).
    - A preview edits the named fields and nothing else, an executable
      configuration is managed throughout, every confidential value is found,
      and a written secret does not show the old one ([NativeCorrect]).
    - An edit of a credential file changes exactly the named bytes, and scanning
      ends ([DotenvCorrect]).

    Some theorems state where the code reports success and does not keep it,
    or depends on an order it should not depend on.

    ** Fuel and bounds

    Recursion is structural wherever the code's loop is over a list.  The
    automaton's loops have fuel of the number of states, the scanner's of the
    bytes left, the YAML validation's of the nodes, decimal printing of the digits; running
    out is an error of its own, and theorems show that it does not happen for
    any input ([RedactCorrect], [scanEntries_layout],
    [validation_accepts_bounded_plain_trees], [itoa_spec]).  Machine integers
    are [Z]; where the code narrows or stores them ([uint32], the decimal
    columns, int64 sizes) the narrowing is written out.

    ** What is assumed

    Code that is not in the repository is a parameter: Argon2id, SHA-256, SHA-1
    and HMAC, random bytes, the clock at each reading, the time-zone database,
    the parsers of URLs, mail and IP addresses, the upstream dotenv parser, the
    YAML decoder and encoder, JSON schemas, and the answers of the kernel and of
    the database engine.  Embedded assets and the order in which a Go map is
    visited are parameters too.  Properties that need a law of a parameter name
    it as a hypothesis, with a witness on concrete functions; a binding by a
    digest is stated as a binding short of a clash of the digest.  Other
    processes and goroutines are schedules of calls between the modelled ones;
    the crash safety of an edit assumes that no other process writes the same
    disk meanwhile.  Contexts appear only as points where a computation may be
    cut short.  The inventory of certificates, the runtime store and the process
    control of the broker are seen by the operations only through the answers
    they give, which are arbitrary.

    ** Not modelled

    - src/internal/httpapi: requests, JSON, cookies and the login limiter around
      the services; src/cmd, appconfig, webassets and supervisor: entry points,
      settings, files and notifications; reporting: text for presentation; the
      TypeScript frontend.
    - src/internal/state: opening the database and running migrations; the
      schema of the tables is modelled with the stores that use them.
    - src/internal/inventory and the audit, the probe and the store of
      src/internal/runtime: walks of the certificate tree and of the
      executable's path, and running the executable for its version.
    - The process tree of src/internal/broker (process_linux.go,
      subreaper_linux.go): pipes, signals, pidfds and reaping.
    - src/internal/compatibility/evidence_generate.go: a build-time tool. *)
From Stdlib Require Export ZArith Lia Ascii String.
From stdpp Require Export base option list strings sorting sets relations.

#[global] Open Scope Z_scope.

(** ** Results: Go's [(value, error)] pairs *)

Inductive result (E A : Type) : Type :=
| Ok (a : A)
| Err (e : E).
Arguments Ok {E A} a.
Arguments Err {E A} e.

Declare Scope go_scope.
Delimit Scope go_scope with go.

#[export] Instance result_ret {E} : MRet (result E) := fun A a => Ok a.
#[export] Instance result_bind {E} : MBind (result E) := fun A B f m =>
  match m with Ok a => f a | Err e => Err e end.

(** [reject_if cond e] is the guard [if cond { return e }]. *)
Definition reject_if {E} (cond : bool) (e : E) : result E unit :=
  if cond then Err e else Ok tt.

Definition is_ok {E A} (r : result E A) : bool :=
  match r with Ok _ => true | Err _ => false end.

(** [err != nil] *)
Definition is_err {E A} (r : result E A) : bool := negb (is_ok r).

Definition map_err {E F A} (f : E -> F) (r : result E A) : result F A :=
  match r with Ok a => Ok a | Err e => Err (f e) end.

(** A loop over a list that stops at the first error. *)
Fixpoint for_each {E A} (f : A -> result E unit) (l : list A) : result E unit :=
  match l with
  | [] => Ok tt
  | a :: l' => match f a with Ok _ => for_each f l' | Err e => Err e end
  end.

Lemma bind_Ok {E A B} (m : result E A) (f : A -> result E B) b :
  m ≫= f = Ok b <-> exists a, m = Ok a /\ f a = Ok b.
Proof. destruct m; cbn; naive_solver. Qed.

Lemma reject_if_Ok {E} (c : bool) (e : E) u : reject_if c e = Ok u <-> c = false.
Proof. destruct c, u; cbn; naive_solver. Qed.

Lemma map_err_Ok {E F A} (f : E -> F) (r : result E A) a : map_err f r = Ok a <-> r = Ok a.
Proof. destruct r; cbn; naive_solver. Qed.

Lemma is_ok_true {E A} (r : result E A) : is_ok r = true <-> exists a, r = Ok a.
Proof. destruct r; cbn; naive_solver. Qed.

Lemma is_err_false {E A} (r : result E A) : is_err r = false <-> exists a, r = Ok a.
Proof. destruct r; cbn; naive_solver. Qed.

Lemma for_each_Ok {E A} (f : A -> result E unit) (l : list A) u :
  for_each f l = Ok u <-> Forall (fun a => f a = Ok tt) l.
Proof.
  destruct u. induction l as [|a l IH]; cbn; [by split|].
  rewrite Forall_cons, <- IH. destruct (f a) as [[]|]; naive_solver.
Qed.

(** ** Tactics *)

(** Case split on the first [match] scrutinee of a hypothesis. *)
Ltac case_in H :=
  match type of H with
  | context [match ?x with _ => _ end] =>
      lazymatch x with
      | context [match _ with _ => _ end] => fail
      | _ => destruct x eqn:?
      end
  end.
(** Run through the guards of a successful computation. *)
Ltac break_ok H := repeat (case_in H; cbn in H; simplify_eq); cbn in H; simplify_eq.

Ltac case_goal :=
  match goal with
  | |- context [match ?x with _ => _ end] =>
      lazymatch x with
      | context [match _ with _ => _ end] => fail
      | _ => destruct x eqn:?
      end
  end.

(** Boolean connectives and comparisons in the context become propositions. *)
Ltac bool_prop :=
  repeat match goal with
  | H : (_ && _)%bool = true |- _ => apply andb_true_iff in H as [? ?]
  | H : (_ || _)%bool = false |- _ => apply orb_false_iff in H as [? ?]
  | H : negb _ = true |- _ => apply negb_true_iff in H
  | H : negb _ = false |- _ => apply negb_false_iff in H
  | H : (_ <=? _) = true |- _ => apply Z.leb_le in H
  | H : (_ <=? _) = false |- _ => apply Z.leb_gt in H
  | H : (_ <? _) = true |- _ => apply Z.ltb_lt in H
  | H : (_ <? _) = false |- _ => apply Z.ltb_ge in H
  | H : (_ =? _) = true |- _ => apply Z.eqb_eq in H
  | H : (_ =? _) = false |- _ => apply Z.eqb_neq in H
  | H : bool_decide _ = true |- _ => apply bool_decide_eq_true in H
  | H : bool_decide _ = false |- _ => apply bool_decide_eq_false in H
  | H : String.eqb _ _ = true |- _ => apply String.eqb_eq in H
  | H : String.eqb _ _ = false |- _ => apply String.eqb_neq in H
  end.

Create HintDb go.
Create Rewrite HintDb go_rw.
#[export] Hint Rewrite @bind_Ok @reject_if_Ok @map_err_Ok : go_rw.

(** ** Bytes and characters *)

(** The numeric value of a byte. *)
Definition b2z (c : ascii) : Z := Z.of_N (N_of_ascii c).
Definition z2b (z : Z) : ascii := ascii_of_N (Z.to_N z).

Lemma b2z_range c : 0 <= b2z c < 256.
Proof. unfold b2z. pose proof (N_ascii_bounded c). lia. Qed.

Lemma b2z_z2b z : 0 <= z < 256 -> b2z (z2b z) = z.
Proof. intros. unfold b2z, z2b. rewrite N_ascii_embedding; lia. Qed.

Lemma z2b_b2z c : z2b (b2z c) = c.
Proof. unfold b2z, z2b. rewrite N2Z.id. apply ascii_N_embedding. Qed.

Lemma b2z_inj c d : b2z c = b2z d -> c = d.
Proof. intros H. rewrite <- (z2b_b2z c), <- (z2b_b2z d). by rewrite H. Qed.

(** [lo <= c && c <= hi] on bytes. *)
Definition in_range (lo hi c : ascii) : bool := (b2z lo <=? b2z c) && (b2z c <=? b2z hi).

Abbreviation bytes := (list ascii).
(** [[]byte(s)] and [string(b)] *)
Abbreviation to_bytes := list_ascii_of_string.
Abbreviation of_bytes := string_of_list_ascii.

Definition slen (s : string) : Z := Z.of_nat (String.length s).
Definition blen {A} (l : list A) : Z := Z.of_nat (List.length l).

Lemma to_bytes_length s : List.length (to_bytes s) = String.length s.
Proof. induction s; cbn; congruence. Qed.

Lemma to_bytes_app s t : to_bytes (s +:+ t) = to_bytes s ++ to_bytes t.
Proof. induction s as [|c s IH]; [done|]. change (c :: to_bytes (s +:+ t) = c :: (to_bytes s ++ to_bytes t)). by rewrite IH. Qed.

Lemma of_bytes_app s t : of_bytes (s ++ t) = of_bytes s +:+ of_bytes t.
Proof. induction s as [|c s IH]; [done|]. change (String c (of_bytes (s ++ t)) = String c (of_bytes s +:+ of_bytes t)). by rewrite IH. Qed.

Lemma of_to_bytes s : of_bytes (to_bytes s) = s.
Proof. apply string_of_list_ascii_of_string. Qed.

Lemma to_of_bytes l : to_bytes (of_bytes l) = l.
Proof. apply list_ascii_of_string_of_list_ascii. Qed.
Lemma slen_app s t : slen (s +:+ t) = slen s + slen t.
Proof. unfold slen. rewrite <- !to_bytes_length, to_bytes_app, length_app. lia. Qed.

(** ** Insertion sort

    The stable sort the models use for [ORDER BY] and [sort.Slice]. *)
Section Sort.
Context {A : Type} (leb : A -> A -> bool).

Fixpoint insert_sorted (x : A) (l : list A) : list A :=
  match l with
  | [] => [x]
  | y :: l' => if leb x y then x :: l else y :: insert_sorted x l'
  end.
Definition sort_by (l : list A) : list A := foldr insert_sorted [] l.

Lemma insert_sorted_perm x l : insert_sorted x l ≡ₚ x :: l.
Proof.
  induction l as [|y l IH]; cbn; [done|]. destruct (leb x y); [done|].
  rewrite IH. apply Permutation_swap.
Qed.

Lemma sort_by_perm l : sort_by l ≡ₚ l.
Proof.
  induction l as [|x l IH]; [done|].
  change (insert_sorted x (sort_by l) ≡ₚ x :: l). by rewrite insert_sorted_perm, IH.
Qed.

(** A list that is in order already is left alone. *)
Lemma sort_by_sorted l : StronglySorted (fun x y => leb x y = true) l -> sort_by l = l.
Proof.
  induction 1 as [|x l _ IH Hx]; [done|].
  change (insert_sorted x (sort_by l) = x :: l). rewrite IH.
  destruct Hx as [|y l Hy]; cbn; [done|]. by rewrite Hy.
Qed.

Context (leb_total : forall x y, leb x y = true \/ leb y x = true)
        (leb_trans : forall x y z, leb x y = true -> leb y z = true -> leb x z = true).

Lemma insert_sorted_ordered x l :
  StronglySorted (fun x y => leb x y = true) l ->
  StronglySorted (fun x y => leb x y = true) (insert_sorted x l).
Proof.
  induction 1 as [|y l Hl IH Hy]; cbn; [by repeat constructor|].
  destruct (leb x y) eqn:E.
  - constructor; [by constructor|]. constructor; [done|].
    eapply Forall_impl; [exact Hy|]. cbn. eauto.
  - constructor; [done|]. rewrite insert_sorted_perm. constructor; [|done].
    destruct (leb_total x y); congruence.
Qed.

Lemma sort_by_ordered l : StronglySorted (fun x y => leb x y = true) (sort_by l).
Proof. induction l; cbn; [constructor|]. by apply insert_sorted_ordered. Qed.
End Sort.

Lemma sort_by_fmap {A B} (leb : B -> B -> bool) (f : A -> B) (l : list A) :
  sort_by leb (f <$> l) = f <$> sort_by (fun a b => leb (f a) (f b)) l.
Proof.
  induction l as [|a l IH]; [done|]. cbn. unfold sort_by in IH. rewrite IH.
  generalize (foldr (insert_sorted (fun a b => leb (f a) (f b))) [] l). intros r.
  induction r as [|b r IHr]; [done|]. cbn. destruct (leb (f a) (f b)); [done|]. cbn. by rewrite IHr.
Qed.

(** ** The order of [sort.Strings] *)

Fixpoint text_le (a b : bytes) : bool :=
  match a, b with
  | [], _ => true
  | _ :: _, [] => false
  | x :: a, y :: b => if b2z x =? b2z y then text_le a b else b2z x <? b2z y
  end.

Lemma text_le_total a b : text_le a b = true \/ text_le b a = true.
Proof.
  revert b. induction a as [|x a IH]; intros [|y b]; cbn; [auto..|].
  destruct (Z.eqb_spec (b2z x) (b2z y)) as [->|Hne]; [rewrite Z.eqb_refl; auto|].
  destruct (Z.eqb_spec (b2z y) (b2z x)); [lia|]. rewrite !Z.ltb_lt. lia.
Qed.

Lemma text_le_trans a b c : text_le a b = true -> text_le b c = true -> text_le a c = true.
Proof.
  revert b c. induction a as [|x a IH]; intros [|y b] [|z c]; cbn; try done.
  destruct (Z.eqb_spec (b2z x) (b2z y)), (Z.eqb_spec (b2z y) (b2z z)), (Z.eqb_spec (b2z x) (b2z z));
    rewrite ?Z.ltb_lt; try lia. apply IH.
Qed.

Lemma text_le_antisym a b : text_le a b = true -> text_le b a = true -> a = b.
Proof.
  revert b. induction a as [|x a IH]; intros [|y b]; cbn; [done..|].
  destruct (Z.eqb_spec (b2z x) (b2z y)) as [Hxy|Hne].
  - rewrite Hxy, Z.eqb_refl. intros H1 H2. f_equal; [by apply b2z_inj|by apply IH].
  - destruct (Z.eqb_spec (b2z y) (b2z x)); [lia|]. rewrite !Z.ltb_lt. lia.
Qed.

Abbreviation text_ordered := (StronglySorted (fun a b => text_le a b = true)).

Lemma sort_text_ordered l : text_ordered (sort_by text_le l).
Proof. apply sort_by_ordered; [apply text_le_total|apply text_le_trans]. Qed.

Lemma sort_text_perm l l' : l ≡ₚ l' -> sort_by text_le l = sort_by text_le l'.
Proof.
  intros Hp. assert (AntiSymm eq (fun a b => text_le a b = true)) by (intros a b; apply text_le_antisym).
  apply (StronglySorted_unique (fun a b => text_le a b = true)); [apply sort_text_ordered..|].
  by rewrite !sort_by_perm.
Qed.

(** Elements of a list with their positions. *)
Definition indexed {A} (l : list A) : list (Z * A) := imap (fun i a => (Z.of_nat i, a)) l.

Lemma indexed_snd {A} (l : list A) : snd <$> indexed l = l.
Proof.
  apply list_eq. intros i. unfold indexed. rewrite list_lookup_fmap, list_lookup_imap.
  by destruct (l !! i).
Qed.

Lemma indexed_lookup {A} (l : list A) i a :
  indexed l !! i = Some a <-> exists x, l !! i = Some x /\ a = (Z.of_nat i, x).
Proof. unfold indexed. rewrite list_lookup_imap. destruct (l !! i); cbn; naive_solver. Qed.

Lemma elem_of_indexed {A} (l : list A) p :
  p ∈ indexed l <-> exists i, l !! i = Some p.2 /\ p.1 = Z.of_nat i.
Proof.
  rewrite list_elem_of_lookup. setoid_rewrite indexed_lookup. destruct p; naive_solver.
Qed.

Lemma indexed_length {A} (l : list A) : List.length (indexed l) = List.length l.
Proof. apply length_imap. Qed.

Lemma indexed_app {A} (l : list A) x : indexed (l ++ [x]) = indexed l ++ [(blen l, x)].
Proof. unfold indexed, blen. rewrite imap_app. cbn. by rewrite Nat.add_0_r. Qed.

(** Rows numbered in order are what an [ORDER BY ordinal] returns. *)
Lemma sort_indexed {A B} (f : Z * A -> B) (ordinal : B -> Z) (l : list A) :
  (forall p, ordinal (f p) = p.1) ->
  sort_by (fun a b => ordinal a <=? ordinal b) (f <$> indexed l) = f <$> indexed l.
Proof.
  intros Hf. apply sort_by_sorted.
  induction l as [|x l IH] using rev_ind; [constructor|].
  rewrite indexed_app, fmap_app. cbn. apply StronglySorted_app; split_and!; [|done|repeat constructor].
  intros b1 b2 (p & -> & Hp)%list_elem_of_fmap ->%list_elem_of_singleton.
  apply elem_of_indexed in Hp as (i & Hi & E). apply lookup_lt_Some in Hi.
  rewrite !Hf. apply Z.leb_le. unfold blen. cbn. lia.
Qed.

Lemma filter_all {A} (f : A -> bool) (l : list A) :
  (forall x, x ∈ l -> f x = true) -> List.filter f l = l.
Proof.
  intros H. induction l as [|a l IH]; [done|]. cbn.
  rewrite H by left. f_equal. apply IH. intros. apply H. by right.
Qed.

Lemma filter_none {A} (f : A -> bool) (l : list A) :
  (forall x, x ∈ l -> f x = false) -> List.filter f l = [].
Proof.
  intros H. induction l as [|a l IH]; [done|]. cbn.
  rewrite H by left. apply IH. intros. apply H. by right.
Qed.

Lemma existsb_false {A} (f : A -> bool) (l : list A) :
  existsb f l = false <-> forall x, x ∈ l -> f x = false.
Proof.
  induction l as [|a l IH]; cbn; [split; [intros _ x Hx; by apply not_elem_of_nil in Hx|done]|].
  rewrite orb_false_iff, IH. setoid_rewrite elem_of_cons. naive_solver.
Qed.

Lemma forallb_elem_of {A} (f : A -> bool) (l : list A) :
  forallb f l = true <-> forall x, x ∈ l -> f x = true.
Proof.
  induction l as [|a l IH]; cbn; [split; [intros _ x Hx; by apply not_elem_of_nil in Hx|done]|].
  rewrite andb_true_iff, IH. setoid_rewrite elem_of_cons. naive_solver.
Qed.

Lemma indexed_split {A K} (key : A -> K) (l : list A) pre p post : indexed l = pre ++ p :: post ->
  p.1 = blen pre /\ blen pre < blen l /\ p.2 ∈ l /\
  (forall q, q ∈ pre -> 0 <= q.1 < p.1 /\ (NoDup (key <$> l) -> key q.2 <> key p.2)).
Proof.
  intros E.
  assert (Hat : forall i q, (pre ++ p :: post) !! i = Some q -> l !! i = Some q.2 /\ q.1 = Z.of_nat i).
  { intros i q Hi. rewrite <- E in Hi. apply indexed_lookup in Hi as (x & Hx & ->). done. }
  destruct (Hat (List.length pre) p) as [Hp1 Hp2]; [by rewrite list_lookup_middle|].
  pose proof (lookup_lt_Some _ _ _ Hp1). unfold blen. split_and!; [done|lia| |].
  - eapply list_elem_of_lookup. eauto.
  - intros q [i Hi]%list_elem_of_lookup. pose proof (lookup_lt_Some _ _ _ Hi).
    destruct (Hat i q) as [Hq1 Hq2]; [by rewrite lookup_app_l|].
    split; [lia|]. intros Hd Hne.
    assert (i = List.length pre); [|lia].
    eapply (NoDup_lookup _ _ _ (key p.2) Hd); rewrite list_lookup_fmap; [by rewrite Hq1, <- Hne|by rewrite Hp1].
Qed.
