(* ===== verification/GoText.v ===== *)
(** Go strings and UTF-8 text, as the sources use them: [utf8.DecodeRune],
    [utf8.AppendRune], [utf8.Valid], [range] over a string, the Unicode
    control and format classes, [hex.DecodeString], [strings.ToLower] on
    ASCII.  Everything here is Go's standard library; the components above
    build on it. *)
From S2P Require Import Prelude.



(** ** UTF-8 *)

Definition rune_error : Z := 65533.
Definition max_rune : Z := 1114111.

(** Size of the sequence a lead byte opens, and the range its second byte
    must fall in (the [first] and [acceptRanges] tables of unicode/utf8). *)
Definition lead (p0 : Z) : option (nat * Z * Z) :=
  if p0 <? 194 then None
  else if p0 <? 224 then Some (2%nat, 128, 191)
  else if p0 =? 224 then Some (3%nat, 160, 191)
  else if p0 =? 237 then Some (3%nat, 128, 159)
  else if p0 <? 240 then Some (3%nat, 128, 191)
  else if p0 =? 240 then Some (4%nat, 144, 191)
  else if p0 <? 244 then Some (4%nat, 128, 191)
  else if p0 =? 244 then Some (4%nat, 128, 143)
  else None.

Definition between (lo hi : Z) (c : ascii) : bool := (lo <=? b2z c) && (b2z c <=? hi).
Definition cont (c : ascii) : bool := between 128 191 c.

(** [utf8.DecodeRune]: the first rune and its width; an invalid encoding
    yields [(RuneError, 1)] and the empty input [(RuneError, 0)]. *)
Definition decode_rune (l : bytes) : Z * nat :=
  match l with
  | [] => (rune_error, 0%nat)
  | c0 :: t =>
      let p0 := b2z c0 in
      if p0 <? 128 then (p0, 1%nat)
      else match lead p0 with
      | None => (rune_error, 1%nat)
      | Some (size, lo, hi) =>
          match size, t with
          | 2%nat, c1 :: _ =>
              if between lo hi c1 then ((p0 - 192) * 64 + (b2z c1 - 128), 2%nat)
              else (rune_error, 1%nat)
          | 3%nat, c1 :: c2 :: _ =>
              if between lo hi c1 && cont c2
              then ((p0 - 224) * 4096 + (b2z c1 - 128) * 64 + (b2z c2 - 128), 3%nat)
              else (rune_error, 1%nat)
          | 4%nat, c1 :: c2 :: c3 :: _ =>
              if between lo hi c1 && cont c2 && cont c3
              then ((p0 - 240) * 262144 + (b2z c1 - 128) * 4096
                    + (b2z c2 - 128) * 64 + (b2z c3 - 128), 4%nat)
              else (rune_error, 1%nat)
          | _, _ => (rune_error, 1%nat)
          end
      end
  end.

(** A Unicode scalar value. *)
Definition scalar (r : Z) : bool :=
  ((0 <=? r) && (r <? 55296)) || ((57344 <=? r) && (r <=? max_rune)).

(** The encoding of a scalar value. *)
Definition encode_scalar (r : Z) : bytes :=
  if r <? 128 then [z2b r]
  else if r <? 2048 then [z2b (192 + r / 64); z2b (128 + r mod 64)]
  else if r <? 65536
  then [z2b (224 + r / 4096); z2b (128 + (r / 64) mod 64); z2b (128 + r mod 64)]
  else [z2b (240 + r / 262144); z2b (128 + (r / 4096) mod 64);
        z2b (128 + (r / 64) mod 64); z2b (128 + r mod 64)].

(** [utf8.AppendRune]: surrogates and out-of-range values become [RuneError]. *)
Definition append_rune (l : bytes) (r : Z) : bytes :=
  l ++ encode_scalar (if scalar r then r else rune_error).

(** The runes a [for range] over the string visits, each with its width. *)
Fixpoint scan_fuel (fuel : nat) (l : bytes) : list (Z * nat) :=
  match fuel, l with
  | S fuel', _ :: _ =>
      let '(r, n) := decode_rune l in (r, n) :: scan_fuel fuel' (drop n l)
  | _, _ => []
  end.
Definition scan (l : bytes) : list (Z * nat) := scan_fuel (List.length l) l.
Definition runes (l : bytes) : list Z := fst <$> scan l.

Definition bad_rune (p : Z * nat) : bool := (p.1 =? rune_error) && (p.2 =? 1)%nat.
(** [utf8.Valid] *)
Definition utf8_valid (l : bytes) : bool := forallb (fun p => negb (bad_rune p)) (scan l).
(** [utf8.RuneCount] *)
Definition rune_count (l : bytes) : Z := blen (scan l).

(** ** Character classes *)

(** [unicode.IsControl]: the category Cc. *)
Definition is_control (r : Z) : bool :=
  ((0 <=? r) && (r <=? 31)) || ((127 <=? r) && (r <=? 159)).

(** The category Cf ([unicode.Cf]), as inclusive ranges. *)
Definition cf_ranges : list (Z * Z) :=
  [(173, 173); (1536, 1541); (1564, 1564); (1757, 1757); (1807, 1807);
   (2192, 2193); (2274, 2274); (6158, 6158); (8203, 8207); (8234, 8238);
   (8288, 8292); (8294, 8303); (65279, 65279); (65529, 65531);
   (69821, 69821); (69837, 69837); (78896, 78911); (113824, 113827);
   (119155, 119162); (917505, 917505); (917536, 917631)].
Definition is_format (r : Z) : bool :=
  existsb (fun '(lo, hi) => (lo <=? r) && (r <=? hi)) cf_ranges.

Definition is_lower_ascii (c : ascii) : bool := in_range "a" "z" c.
Definition is_upper_ascii (c : ascii) : bool := in_range "A" "Z" c.
Definition is_digit (c : ascii) : bool := in_range "0" "9" c.

(** [strings.ToLower(s) == s] for text in which no other letters occur. *)
Definition no_upper (s : string) : bool :=
  forallb (fun c => negb (is_upper_ascii c)) (to_bytes s).

Definition is_hex (c : ascii) : bool :=
  is_digit c || in_range "a" "f" c || in_range "A" "F" c.
(** [hex.DecodeString] succeeds, and the number of bytes it returns. *)
Definition hex_decode_len (s : string) : option Z :=
  if forallb is_hex (to_bytes s) && Z.even (slen s) then Some (slen s / 2) else None.

(** [strings.IndexFunc(s, unicode.IsControl) < 0] *)
Definition no_control (s : string) : bool :=
  forallb (fun r => negb (is_control r)) (runes (to_bytes s)).

(** ** Facts about UTF-8 *)

Lemma decode_rune_width l : l <> [] -> (1 <= (decode_rune l).2 <= List.length l)%nat.
Proof.
  destruct l as [|c0 t]; [done|intros _]. unfold decode_rune.
  destruct (b2z c0 <? 128); [cbn; lia|].
  destruct (lead (b2z c0)) as [[[size lo] hi]|]; [|cbn; lia].
  destruct size as [|[|[|[|[|n]]]]]; try (cbn; lia);
    destruct t as [|c1 [|c2 [|c3 t]]]; try (cbn; lia); case_match; cbn; lia.
Qed.

Lemma scan_fuel_more n m l :
  (List.length l <= n)%nat -> (n <= m)%nat -> scan_fuel m l = scan_fuel n l.
Proof.
  revert m l. induction n as [|n IH]; intros m l Hl Hm.
  - destruct l; [|cbn in Hl; lia]. by destruct m.
  - destruct m as [|m]; [lia|]. destruct l as [|c l]; [done|].
    cbn [scan_fuel]. pose proof (decode_rune_width (c :: l) ltac:(done)) as W.
    destruct (decode_rune (c :: l)) as [r w]. cbn in W, Hl. f_equal. apply IH; [|lia].
    rewrite length_drop. cbn. lia.
Qed.

Lemma scan_cons l : l <> [] ->
  scan l = decode_rune l :: scan (drop (decode_rune l).2 l).
Proof.
  intros Hl. unfold scan. destruct l as [|c l]; [done|].
  pose proof (decode_rune_width (c :: l) Hl) as W.
  cbn [List.length scan_fuel]. destruct (decode_rune (c :: l)) as [r w]; cbn in *.
  f_equal. apply scan_fuel_more; rewrite length_drop; cbn; lia.
Qed.

(** Induction over the runes of a text. *)
Lemma scan_ind (P : bytes -> Prop) :
  P [] -> (forall l, l <> [] -> P (drop (decode_rune l).2 l) -> P l) -> forall l, P l.
Proof.
  intros Hn Hc l. remember (List.length l) as n eqn:E. revert l E.
  induction n as [n IH] using lt_wf_ind. intros l ->.
  destruct l as [|c l]; [done|]. apply Hc; [done|].
  pose proof (decode_rune_width (c :: l) ltac:(done)).
  eapply IH; [|reflexivity]. rewrite length_drop. lia.
Qed.

Ltac byte_arith :=
  bool_prop;
  repeat match goal with
  | H : between _ _ _ = true |- _ => unfold between in H
  | H : cont _ = true |- _ => unfold cont, between in H
  end; bool_prop;
  repeat match goal with
  | c : ascii |- _ =>
      lazymatch goal with
      | _ : 0 <= b2z c < 256 |- _ => fail
      | _ => pose proof (b2z_range c)
      end
  end.

Lemma lead_spec p0 s lo hi : lead p0 = Some (s, lo, hi) ->
  (s = 2%nat /\ 194 <= p0 < 224 /\ lo = 128 /\ hi = 191) \/
  (s = 3%nat /\ 224 <= p0 < 240 /\
     (p0 = 224 /\ lo = 160 /\ hi = 191 \/ p0 = 237 /\ lo = 128 /\ hi = 159 \/
      p0 <> 224 /\ p0 <> 237 /\ lo = 128 /\ hi = 191)) \/
  (s = 4%nat /\ 240 <= p0 <= 244 /\
     (p0 = 240 /\ lo = 144 /\ hi = 191 \/ p0 = 244 /\ lo = 128 /\ hi = 143 \/
      240 < p0 < 244 /\ lo = 128 /\ hi = 191)).
Proof. unfold lead. intros H. repeat case_match; simplify_eq; bool_prop; lia. Qed.

(** A decoded rune is a scalar value, and the bytes consumed are its
    encoding, unless the decoder reports an invalid byte. *)
Lemma decode_rune_spec l : l <> [] ->
  decode_rune l = (rune_error, 1%nat) \/
  (scalar (decode_rune l).1 = true /\
   take (decode_rune l).2 l = encode_scalar (decode_rune l).1 /\
   List.length (encode_scalar (decode_rune l).1) = (decode_rune l).2).
Proof.
  destruct l as [|c0 t]; [done|intros _]. unfold decode_rune.
  destruct (b2z c0 <? 128) eqn:E0.
  { right. byte_arith. unfold scalar, encode_scalar; cbn.
    rewrite (proj2 (Z.ltb_lt _ _) E0), z2b_b2z. split_and!; [|done..].
    apply orb_true_iff; left. apply andb_true_iff; split; [apply Z.leb_le|apply Z.ltb_lt]; lia. }
  destruct (lead (b2z c0)) as [[[size lo] hi]|] eqn:L; [|by left].
  apply lead_spec in L.
  assert (scalar_ok : forall r, 0 <= r < 55296 \/ 57344 <= r <= max_rune -> scalar r = true).
  { intros r Hr. unfold scalar. destruct Hr; [apply orb_true_iff; left|apply orb_true_iff; right];
      apply andb_true_iff; rewrite ?Z.leb_le, ?Z.ltb_lt; lia. }
  assert (by_value : forall c z, z = b2z c -> c = z2b z) by (intros; subst; by rewrite z2b_b2z).
  destruct L as [(->&?&->&->)|[(->&?&L)|(->&?&L)]].
  - destruct t as [|c1 t]; [by left|]. case_match eqn:B; [|by left]. right; cbn. byte_arith.
    unfold encode_scalar. repeat case_match; bool_prop; try (exfalso; lia).
    split_and!; [apply scalar_ok; lia| |done].
    cbn [take]. repeat f_equal; apply by_value; Z.to_euclidean_division_equations; lia.
  - destruct t as [|c1 [|c2 t]]; try by left. case_match eqn:B; [|by left]. right; cbn. byte_arith.
    unfold encode_scalar. repeat case_match; bool_prop; try (exfalso; unfold max_rune in *; lia).
    split_and!; [apply scalar_ok; unfold max_rune; lia| |done].
    cbn [take]. repeat f_equal; apply by_value; Z.to_euclidean_division_equations; lia.
  - destruct t as [|c1 [|c2 [|c3 t]]]; try by left. case_match eqn:B; [|by left]. right; cbn. byte_arith.
    unfold encode_scalar. repeat case_match; bool_prop; try (exfalso; unfold max_rune in *; lia).
    split_and!; [apply scalar_ok; unfold max_rune; lia| |done].
    cbn [take]. repeat f_equal; apply by_value; Z.to_euclidean_division_equations; lia.
Qed.

Lemma scalar_range r : scalar r = true -> 0 <= r < 55296 \/ 57344 <= r <= 1114111.
Proof.
  unfold scalar, max_rune. intros H. apply orb_true_iff in H as [H|H]; bool_prop; lia.
Qed.

Lemma lead_2 p : 194 <= p < 224 -> lead p = Some (2%nat, 128, 191).
Proof. intros. unfold lead. repeat case_match; bool_prop; try lia; done. Qed.

Lemma between_intro lo hi z : 0 <= z < 256 -> lo <= z <= hi -> between lo hi (z2b z) = true.
Proof. intros. unfold between. rewrite b2z_z2b by done. apply andb_true_iff. lia. Qed.

(** Decoding reads back exactly the scalar that was encoded. *)
Lemma decode_encode r t : scalar r = true ->
  decode_rune (encode_scalar r ++ t) = (r, List.length (encode_scalar r)).
Proof.
  intros Hs%scalar_range. unfold encode_scalar.
  repeat case_match; bool_prop; cbn [app decode_rune List.length];
    rewrite !b2z_z2b by (Z.to_euclidean_division_equations; lia).
  - by destruct (Z.ltb_spec r 128); [|lia].
  - destruct (Z.ltb_spec (192 + r / 64) 128); [Z.to_euclidean_division_equations; lia|].
    rewrite lead_2 by (Z.to_euclidean_division_equations; lia).
    rewrite between_intro by (Z.to_euclidean_division_equations; lia).
    f_equal. Z.to_euclidean_division_equations; lia.
  - destruct (Z.ltb_spec (224 + r / 4096) 128); [Z.to_euclidean_division_equations; lia|].
    unfold lead. repeat case_match; bool_prop; simplify_eq;
      try (exfalso; Z.to_euclidean_division_equations; lia);
      unfold cont in *; repeat rewrite between_intro in * by (Z.to_euclidean_division_equations; lia);
      cbn; try discriminate; f_equal; Z.to_euclidean_division_equations; lia.
  - destruct (Z.ltb_spec (240 + r / 262144) 128); [Z.to_euclidean_division_equations; lia|].
    unfold lead. repeat case_match; bool_prop; simplify_eq;
      try (exfalso; Z.to_euclidean_division_equations; lia);
      unfold cont in *; repeat rewrite between_intro in * by (Z.to_euclidean_division_equations; lia);
      cbn; try discriminate; f_equal; Z.to_euclidean_division_equations; lia.
Qed.

Lemma encode_scalar_nonempty r : encode_scalar r <> [].
Proof. unfold encode_scalar. by repeat case_match. Qed.

(** Scanning the concatenated encodings visits exactly the encoded scalars. *)
Lemma scan_encode rs l : Forall (fun r => scalar r = true) rs ->
  scan (concat (encode_scalar <$> rs) ++ l)
  = ((fun r => (r, List.length (encode_scalar r))) <$> rs) ++ scan l.
Proof.
  induction 1 as [|r rs Hr _ IH]; [done|].
  cbn [fmap list_fmap concat]. rewrite <- app_assoc, scan_cons.
  - rewrite decode_encode by done. cbn [snd]. rewrite drop_app_length. cbn. by f_equal.
  - pose proof (encode_scalar_nonempty r). by destruct (encode_scalar r).
Qed.

Lemma utf8_valid_cons l : l <> [] ->
  utf8_valid l = negb (bad_rune (decode_rune l)) && utf8_valid (drop (decode_rune l).2 l).
Proof. intros. unfold utf8_valid. by rewrite scan_cons. Qed.

(** Valid text is the concatenation of the encodings of its runes. *)
Lemma utf8_valid_runes l : utf8_valid l = true ->
  Forall (fun r => scalar r = true) (runes l) /\ concat (encode_scalar <$> runes l) = l.
Proof.
  induction l as [|l Hl IH] using scan_ind; [done|].
  rewrite utf8_valid_cons by done. intros [Hb Hv]%andb_true_iff.
  destruct (IH Hv) as [Hf Hc]. unfold runes in *. rewrite scan_cons by done. cbn.
  destruct (decode_rune_spec l Hl) as [E|(Hs & Ht & _)].
  { rewrite E in Hb. by cbn in Hb. }
  split; [by constructor|]. rewrite Hc, <- Ht. apply take_drop.
Qed.

Lemma utf8_valid_encode rs : Forall (fun r => scalar r = true) rs ->
  utf8_valid (concat (encode_scalar <$> rs)) = true /\ runes (concat (encode_scalar <$> rs)) = rs.
Proof.
  intros H. pose proof (scan_encode rs [] H) as E. rewrite app_nil_r in E.
  unfold utf8_valid, runes. rewrite E. change (scan []) with (@nil (Z * nat)). rewrite app_nil_r.
  clear E. split.
  - apply forallb_forall. intros [r n] Hin%list_elem_of_In%list_elem_of_fmap.
    destruct Hin as (r' & [= -> ->] & _). unfold bad_rune; cbn [fst snd].
    destruct (Z.eqb_spec r' rune_error) as [->|]; [reflexivity|done].
  - rewrite <- list_fmap_compose. apply list_fmap_id.
Qed.

(** Text containing only printable ASCII bytes. *)
Definition ascii_byte (c : ascii) : bool := b2z c <? 128.

Lemma decode_rune_ascii c l : ascii_byte c = true -> decode_rune (c :: l) = (b2z c, 1%nat).
Proof. unfold ascii_byte. intros H. cbn. by rewrite H. Qed.

Lemma scan_ascii l : forallb ascii_byte l = true -> scan l = (fun c => (b2z c, 1%nat)) <$> l.
Proof.
  induction l as [|c l IH]; [done|]. cbn [forallb]. intros [Hc Hl]%andb_true_iff.
  rewrite scan_cons by done. rewrite decode_rune_ascii by done.
  change (drop (b2z c, 1%nat).2 (c :: l)) with l. by rewrite IH.
Qed.

(** ** Splitting and paths *)

(** [strings.Split] on a one-byte separator. *)
Fixpoint split_on (sep : ascii) (l : bytes) : list bytes :=
  match l with
  | [] => [[]]
  | c :: l' =>
      let parts := split_on sep l' in
      if ascii_dec c sep then [] :: parts
      else match parts with p :: ps => (c :: p) :: ps | [] => [[c]] end
  end.

(** [strings.Join] with a one-byte separator. *)
Fixpoint join_with (sep : ascii) (parts : list bytes) : bytes :=
  match parts with
  | [] => []
  | [p] => p
  | p :: ps => p ++ sep :: join_with sep ps
  end.

(** One element of a rooted path, as [filepath.Clean] treats it; the stack
    holds the elements kept so far, last first. *)
Definition clean_step (stack : list bytes) (part : bytes) : list bytes :=
  if decide (part = []) then stack
  else if decide (part = ["."%char]) then stack
  else if decide (part = ["."%char; "."%char]) then tail stack
  else part :: stack.

(** [filepath.Clean] of a path that starts with a slash. *)
Definition clean_rooted (l : bytes) : bytes :=
  "/"%char :: join_with "/" (rev (fold_left clean_step (split_on "/" l) [])).

(** [filepath.IsAbs] on Unix. *)
Definition is_abs (l : bytes) : bool :=
  match l with c :: _ => if ascii_dec c "/" then true else false | [] => false end.

(** Text whose runes are all ASCII is its own sequence of bytes. *)
Lemma runes_ascii l : forallb (fun r => r <? 128) (runes l) = true -> runes l = b2z <$> l.
Proof.
  induction l as [|l Hl IH] using scan_ind; [done|].
  unfold runes in *. rewrite scan_cons by done. cbn [fmap list_fmap forallb].
  intros [Hr Hrest]%andb_true_iff. specialize (IH Hrest).
  destruct (decode_rune_spec l Hl) as [E|(Hs & Ht & Hn)]; [by rewrite E in Hr|].
  destruct (decode_rune l) as [r n]; cbn [fst snd] in *.
  unfold encode_scalar in Ht, Hn. rewrite Hr in Ht, Hn. cbn in Hn. subst n.
  destruct l as [|c l]; [done|]. change (take 1 (c :: l)) with [c] in Ht.
  injection Ht as ->. change (drop 1 (z2b r :: l)) with l in *.
  apply scalar_range in Hs. cbn. rewrite b2z_z2b by (bool_prop; lia). by f_equal.
Qed.

(** ** Splitting what was joined *)

Definition free_of (sep : ascii) (l : bytes) : Prop := sep ∉ l.

Lemma split_on_free sep l : free_of sep l -> split_on sep l = [l].
Proof.
  induction l as [|c l IH]; [done|]. intros H. cbn.
  rewrite (IH ltac:(unfold free_of in *; set_solver)). destruct (ascii_dec c sep) as [->|_]; [unfold free_of in H; set_solver|done].
Qed.

Lemma split_on_app sep l r : free_of sep l -> split_on sep (l ++ sep :: r) = l :: split_on sep r.
Proof.
  induction l as [|c l IH]; intros H; cbn.
  - by destruct (ascii_dec sep sep).
  - rewrite IH by (unfold free_of in *; set_solver). destruct (ascii_dec c sep) as [->|_]; [unfold free_of in H; set_solver|done].
Qed.

Lemma split_join sep parts : parts <> [] -> Forall (free_of sep) parts -> split_on sep (join_with sep parts) = parts.
Proof.
  intros Hne Hf. induction Hf as [|p parts Hp Hf IH]; [done|]. cbn [join_with].
  destruct parts as [|q parts]; [by apply split_on_free|]. rewrite split_on_app by done. by rewrite IH.
Qed.

Lemma join_split sep l : join_with sep (split_on sep l) = l.
Proof.
  induction l as [|c l IH]; [done|]. cbn. destruct (ascii_dec c sep) as [->|_].
  - destruct (split_on sep l) as [|p ps] eqn:E; [by destruct l; cbn in E; [|case_match; [|case_match]]|]. cbn in *. by rewrite IH.
  - destruct (split_on sep l) as [|p ps] eqn:E; [cbn in IH; by subst|]. destruct ps; cbn in *; congruence.
Qed.

Lemma split_elem sep l q c : q ∈ split_on sep l -> c ∈ q -> c ∈ l.
Proof.
  revert q. induction l as [|d l IH]; intros q Hq Hc; cbn in Hq.
  - apply list_elem_of_singleton in Hq as ->. by apply not_elem_of_nil in Hc.
  - destruct (ascii_dec d sep).
    + apply elem_of_cons in Hq as [->|Hq]; [by apply not_elem_of_nil in Hc|]. right. by eapply IH.
    + destruct (split_on sep l) as [|p ps] eqn:E.
      * apply list_elem_of_singleton in Hq as ->. apply list_elem_of_singleton in Hc as ->. by left.
      * apply elem_of_cons in Hq as [->|Hq].
        -- apply elem_of_cons in Hc as [->|Hc]; [by left|]. right. apply (IH p); [by left|done].
        -- right. apply (IH q); [by right|done].
Qed.

(** No part holds the separator. *)
Lemma split_on_parts sep l : Forall (free_of sep) (split_on sep l).
Proof.
  induction l as [|c l IH]; cbn; [repeat constructor; by intros ?%not_elem_of_nil|].
  destruct (ascii_dec c sep) as [->|Hc]; [constructor; [by intros ?%not_elem_of_nil|done]|].
  destruct (split_on sep l) as [|p ps]; [repeat constructor|]; [intros ?%list_elem_of_singleton; congruence|].
  inversion_clear IH as [|? ? Hp]. constructor; [|done]. intros [?|?]%elem_of_cons; [congruence|by apply Hp].
Qed.
Lemma split_on_two sep l a b : split_on sep l = [a; b] <-> l = a ++ sep :: b /\ free_of sep a /\ free_of sep b.
Proof.
  split.
  - intros E. pose proof (split_on_parts sep l) as H. pose proof (join_split sep l) as J. rewrite E in H, J. cbn in J.
    apply Forall_cons in H as [? [? _]%Forall_cons]. done.
  - intros (-> & Ha & Hb). by rewrite split_on_app, split_on_free.
Qed.

(** Text encodings of Go's standard library that the sources call:
    [url.QueryEscape], [url.PathEscape], [base64] with its four alphabets, and
    the escaping [json.Marshal] gives a string. *)

(** A digit of the hexadecimal alphabets. *)
Definition upper_hex (n : Z) : ascii := z2b (if n <? 10 then 48 + n else 55 + n).
Definition lower_hex (n : Z) : ascii := z2b (if n <? 10 then 48 + n else 87 + n).

(** ** [net/url] *)

Inductive UrlMode := EncodePathSegment | EncodeQueryComponent.

Definition is_alnum (c : ascii) : bool := is_lower_ascii c || is_upper_ascii c || is_digit c.
Definition one_of (s : string) (c : ascii) : bool := existsb (Ascii.eqb c) (to_bytes s).

Definition should_escape (mode : UrlMode) (c : ascii) : bool :=
  if is_alnum c || one_of "-_.~" c then false
  else if one_of "$&+,/:;=?@" c
  then match mode with
       | EncodePathSegment => one_of "/;,?" c
       | EncodeQueryComponent => true
       end
  else true.

Definition escape_byte (mode : UrlMode) (c : ascii) : bytes :=
  match mode, Ascii.eqb c " " with
  | EncodeQueryComponent, true => ["+"%char]
  | _, _ => if should_escape mode c
            then ["%"%char; upper_hex (Z.shiftr (b2z c) 4); upper_hex (Z.land (b2z c) 15)]
            else [c]
  end.

Definition url_escape (mode : UrlMode) (text : bytes) : bytes := mjoin (escape_byte mode <$> text).
Definition query_escape : bytes -> bytes := url_escape EncodeQueryComponent.
Definition path_escape : bytes -> bytes := url_escape EncodePathSegment.

(** ** [encoding/base64] *)

Record Base64 := { plus_char : ascii; slash_char : ascii; padded : bool }.
Definition std_encoding : Base64 := {| plus_char := "+"; slash_char := "/"; padded := true |}.
Definition raw_std_encoding : Base64 := {| plus_char := "+"; slash_char := "/"; padded := false |}.
Definition url_encoding : Base64 := {| plus_char := "-"; slash_char := "_"; padded := true |}.
Definition raw_url_encoding : Base64 := {| plus_char := "-"; slash_char := "_"; padded := false |}.

Definition sextet (e : Base64) (n : Z) : ascii :=
  if n <? 26 then z2b (65 + n)
  else if n <? 52 then z2b (71 + n)
  else if n <? 62 then z2b (n - 4)
  else if n =? 62 then plus_char e else slash_char e.

Fixpoint base64_encode (e : Base64) (l : bytes) : bytes :=
  let pad n := if padded e then replicate n "="%char else [] in
  match l with
  | [] => []
  | [a] => let v := b2z a * 65536 in
           sextet e (v / 262144) :: sextet e (v / 4096 mod 64) :: pad 2%nat
  | [a; b] => let v := b2z a * 65536 + b2z b * 256 in
              sextet e (v / 262144) :: sextet e (v / 4096 mod 64) :: sextet e (v / 64 mod 64) :: pad 1%nat
  | a :: b :: c :: rest =>
      let v := b2z a * 65536 + b2z b * 256 + b2z c in
      sextet e (v / 262144) :: sextet e (v / 4096 mod 64) :: sextet e (v / 64 mod 64) ::
      sextet e (v mod 64) :: base64_encode e rest
  end.

(** ** [encoding/json] *)

Definition json_hex4 (r : Z) : bytes :=
  [lower_hex (r / 4096 mod 16); lower_hex (r / 256 mod 16); lower_hex (r / 16 mod 16); lower_hex (r mod 16)].

(** A byte below 128: [htmlSafeSet] or its escape. *)
Definition json_escape_ascii (r : Z) : bytes :=
  let back c := ["\"%char; c] in
  if (r =? 92) || (r =? 34) then back (z2b r)
  else if r =? 8 then back "b"%char
  else if r =? 12 then back "f"%char
  else if r =? 10 then back "n"%char
  else if r =? 13 then back "r"%char
  else if r =? 9 then back "t"%char
  else if (r <? 32) || (r =? 60) || (r =? 62) || (r =? 38) then "\"%char :: "u"%char :: json_hex4 r
  else [z2b r].

Definition json_escape_rune (p : Z * nat) : bytes :=
  if bad_rune p then to_bytes "\ufffd"
  else if p.1 <? 128 then json_escape_ascii p.1
  else if (p.1 =? 8232) || (p.1 =? 8233) then "\"%char :: "u"%char :: json_hex4 p.1
  else encode_scalar p.1.

Definition quote_byte : ascii := z2b 34.

(** [json.Marshal] of a string *)
Definition json_marshal_string (text : bytes) : bytes :=
  quote_byte :: mjoin (json_escape_rune <$> scan text) ++ [quote_byte].

(** [bytes.ReplaceAll] of a single byte. *)
Definition replace_byte (c : ascii) (by_ : bytes) (l : bytes) : bytes :=
  mjoin ((fun d => if Ascii.eqb d c then by_ else [d]) <$> l).

Lemma escape_byte_nonempty mode c : escape_byte mode c <> [].
Proof. unfold escape_byte. destruct mode, (Ascii.eqb c " "); repeat case_match; done. Qed.

Lemma url_escape_nil mode l : url_escape mode l = [] -> l = [].
Proof.
  destruct l as [|c l]; [done|]. unfold url_escape. cbn. intros H.
  apply app_nil in H as [H _]. by apply escape_byte_nonempty in H.
Qed.

Example query_escape_sample : query_escape (to_bytes "a b/c~") = to_bytes "a+b%2Fc~".
Proof. reflexivity. Qed.
Example path_escape_sample : path_escape (to_bytes "a b/c=") = to_bytes "a%20b%2Fc=".
Proof. reflexivity. Qed.
Example base64_sample : base64_encode std_encoding (to_bytes "any carnal pleas") = to_bytes "YW55IGNhcm5hbCBwbGVhcw==".
Proof. reflexivity. Qed.
Example base64_url_sample : base64_encode raw_url_encoding [z2b 251; z2b 255] = to_bytes "-_8".
Proof. reflexivity. Qed.
Example json_sample : json_marshal_string (to_bytes "a<b\c") = quote_byte :: to_bytes "a\u003cb\\c" ++ [quote_byte].
Proof. reflexivity. Qed.
