(* ===== verification/GoTime.v ===== *)
(** Go's [time] package as the sources use it: instants, the proleptic
    Gregorian calendar, and the RFC 3339 text the stores persist.

    A [time] is an instant in nanoseconds since the Unix epoch together with
    the two facts the validators look at: whether its location is [time.UTC]
    and whether it still carries a monotonic clock reading.  Instants are kept
    in [Z]; the sources only persist years 1 to 9999, far inside the range of
    Go's representation. *)
From Stdlib Require Import SpecFloat.
From S2P Require Import Prelude.
From S2P Require Import GoText.



Record time := mk_time { t_ns : Z; t_utc : bool; t_mono : bool }.

#[export] Instance time_eq_dec : EqDecision time.
Proof. solve_decision. Defined.

Definition ns_per_second : Z := 1000000000.
Definition second_ns (n : Z) : Z := n * ns_per_second.
Definition minute_ns : Z := 60 * ns_per_second.
Definition hour_ns : Z := 3600 * ns_per_second.
Definition seconds_per_day : Z := 86400.
Definition day_ns : Z := seconds_per_day * ns_per_second.

(** The zero time: 1 January of year 1, 00:00 UTC. *)
Definition zero_ns : Z := -62135596800 * ns_per_second.
Definition zero_time : time := mk_time zero_ns true false.
Definition is_zero (t : time) : bool := t_ns t =? zero_ns.

(** [t.UTC().Round(0)], the canonical form of a wall clock reading. *)
Definition canonical (t : time) : time := mk_time (t_ns t) true false.
(** [t.Round(0)] strips the monotonic reading only. *)
Definition round0 (t : time) : time := mk_time (t_ns t) (t_utc t) false.

Definition before (a b : time) : bool := t_ns a <? t_ns b.
Definition after (a b : time) : bool := t_ns b <? t_ns a.
(** [time.Unix(seconds, nanoseconds).UTC()] and its inverse on whole seconds. *)
Definition unix_utc (ns : Z) : time := mk_time ns true false.
Definition t_unix (t : time) : Z := t_ns t / ns_per_second.

(** ** The calendar *)

Record date := mk_date { d_year : Z; d_month : Z; d_day : Z }.

#[export] Instance date_eq_dec : EqDecision date.
Proof. solve_decision. Defined.

Definition is_leap (y : Z) : bool :=
  (y mod 4 =? 0) && (negb (y mod 100 =? 0) || (y mod 400 =? 0)).

Definition days_in (m y : Z) : Z :=
  if m =? 2 then if is_leap y then 29 else 28
  else if (m =? 4) || (m =? 6) || (m =? 9) || (m =? 11) then 30 else 31.

(** Days since 1970-01-01, counting years from March. *)
Definition days_from_civil (c : date) : Z :=
  let y := if d_month c <=? 2 then d_year c - 1 else d_year c in
  let era := y / 400 in
  let yoe := y mod 400 in
  let mp := if d_month c <=? 2 then d_month c + 9 else d_month c - 3 in
  let doy := (153 * mp + 2) / 5 + d_day c - 1 in
  era * 146097 + (yoe * 365 + yoe / 4 - yoe / 100 + doy) - 719468.

Definition yoe_of (doe : Z) : Z := (doe - doe / 1460 + doe / 36524 - doe / 146096) / 365.
Definition doy_of (doe : Z) : Z :=
  let yoe := yoe_of doe in doe - (365 * yoe + yoe / 4 - yoe / 100).

Definition civil_from_days (days : Z) : date :=
  let z := days + 719468 in
  let era := z / 146097 in
  let doe := z mod 146097 in
  let yoe := yoe_of doe in
  let doy := doy_of doe in
  let mp := (5 * doy + 2) / 153 in
  let d := doy - (153 * mp + 2) / 5 + 1 in
  let m := if mp <? 10 then mp + 3 else mp - 9 in
  mk_date (yoe + era * 400 + (if m <=? 2 then 1 else 0)) m d.

Definition valid_date (c : date) : bool :=
  (1 <=? d_month c) && (d_month c <=? 12) && (1 <=? d_day c)
  && (d_day c <=? days_in (d_month c) (d_year c)).

(** Calendar fields of an instant given as seconds since the epoch (in UTC, or
    after adding a zone offset). *)
Definition date_of_seconds (s : Z) : date := civil_from_days (s / seconds_per_day).
Definition second_of_day (s : Z) : Z := s mod seconds_per_day.
Definition year_of (t : time) : Z := d_year (date_of_seconds (t_unix t)).

(** [time.Date(year, month, day, 0, 0, 0, 0, time.UTC)], in nanoseconds. *)
Definition midnight_ns (c : date) : Z := days_from_civil c * day_ns.

(** ** Text *)

Definition digit (n : Z) : ascii := z2b (48 + n).

(** [w] decimal digits of [n], most significant first. *)
Fixpoint digits (w : nat) (n : Z) : bytes :=
  match w with
  | O => []
  | S w' => digits w' (n / 10) ++ [digit (n mod 10)]
  end.

(** Value of a run of decimal digits; [None] when some byte is not a digit. *)
Fixpoint undigits_from (acc : Z) (l : bytes) : option Z :=
  match l with
  | [] => Some acc
  | c :: l' => if is_digit c then undigits_from (acc * 10 + (b2z c - 48)) l' else None
  end.
Definition undigits (l : bytes) : option Z := undigits_from 0 l.

(** The fraction [.999999999]: nine digits with trailing zeros removed, and
    nothing at all for zero. *)
Fixpoint strip_zeros (l : bytes) : bytes :=
  match l with
  | [] => []
  | c :: l' => match strip_zeros l' with
               | [] => if ascii_dec c "0" then [] else [c]
               | r => c :: r
               end
  end.
Definition format_fraction (nsec : Z) : bytes :=
  match strip_zeros (digits 9 nsec) with
  | [] => []
  | f => "."%char :: f
  end.

(** [t.Format("2006-01-02")] of a calendar date with a four-digit year. *)
Definition format_date (c : date) : bytes :=
  digits 4 (d_year c) ++ ["-"%char] ++ digits 2 (d_month c) ++ ["-"%char] ++ digits 2 (d_day c).

(** [value.Format(time.RFC3339Nano)] of a UTC instant with a year in 0..9999. *)
Definition format_rfc3339 (t : time) : bytes :=
  let s := t_unix t in
  let sod := second_of_day s in
  format_date (date_of_seconds s) ++ ["T"%char]
  ++ digits 2 (sod / 3600) ++ [":"%char] ++ digits 2 (sod / 60 mod 60)
  ++ [":"%char] ++ digits 2 (sod mod 60)
  ++ format_fraction (t_ns t mod ns_per_second) ++ ["Z"%char].

(** [parseUint(s, min, max)] of time.parseRFC3339. *)
Definition parse_field (l : bytes) (lo hi : Z) : option Z :=
  match undigits l with
  | Some n => if (lo <=? n) && (n <=? hi) then Some n else None
  | None => None
  end.

Fixpoint span_digits (l : bytes) : bytes * bytes :=
  match l with
  | c :: l' => if is_digit c then let '(a, b) := span_digits l' in (c :: a, b) else ([], l)
  | [] => ([], [])
  end.

(** Nanoseconds denoted by a digit string after the point: the first nine
    digits count ([parseNanoseconds] truncates the rest). *)
Definition nanoseconds (f : bytes) : Z :=
  match undigits (take 9 (f ++ replicate 9 "0"%char)) with Some n => n | None => 0 end.

Definition parse_fraction (l : bytes) : Z * bytes :=
  match l with
  | c :: l' =>
      if ascii_dec c "." then
        match span_digits l' with
        | ([], _) => (0, l)
        | (f, rest) => (nanoseconds f, rest)
        end
      else (0, l)
  | [] => (0, [])
  end.

Definition at_is (l : bytes) (n : nat) (c : ascii) : bool :=
  match l !! n with Some d => if ascii_dec c d then true else false | None => false end.

(** [time.Parse(time.RFC3339Nano, value)] restricted to values in zone [Z]
    (the fast path [parseRFC3339]).  Values with a numeric offset or in one of
    the lenient forms of the general parser either are not in [time.UTC] or do
    not format back to themselves, so the stores reject them in any case. *)
Definition parse_rfc3339 (l : bytes) : option time :=
  year ← parse_field (take 4 l) 0 9999;
  month ← parse_field (take 2 (drop 5 l)) 1 12;
  day ← parse_field (take 2 (drop 8 l)) 1 (days_in month year);
  hour ← parse_field (take 2 (drop 11 l)) 0 23;
  minute ← parse_field (take 2 (drop 14 l)) 0 59;
  sec ← parse_field (take 2 (drop 17 l)) 0 59;
  if (19 <=? blen l) && at_is l 4 "-" && at_is l 7 "-" && at_is l 10 "T"
     && at_is l 13 ":" && at_is l 16 ":"
  then let '(nsec, rest) := parse_fraction (drop 19 l) in
       if decide (rest = ["Z"%char])
       then Some (unix_utc ((days_from_civil (mk_date year month day) * seconds_per_day
                             + hour * 3600 + minute * 60 + sec) * ns_per_second + nsec))
       else None
  else None.

(** ** Calendar lemmas *)

Ltac div_lia := Z.to_euclidean_division_equations; lia.

Lemma yoe_doy_range doe : 0 <= doe < 146097 -> 0 <= yoe_of doe < 400 /\ 0 <= doy_of doe <= 365.
Proof. intros. unfold doy_of, yoe_of. div_lia. Qed.

(** The 366th day of a March year exists only when that year ends in a leap
    February. *)
Lemma doy_leap doe : 0 <= doe < 146097 -> doy_of doe = 365 ->
  (yoe_of doe + 1) mod 4 = 0 /\ ((yoe_of doe + 1) mod 100 <> 0 \/ yoe_of doe + 1 = 400).
Proof. intros H. unfold doy_of, yoe_of. div_lia. Qed.

(** Splitting a day number into a date and back is the identity. *)
Lemma days_civil days : days_from_civil (civil_from_days days) = days.
Proof.
  unfold civil_from_days, days_from_civil; cbn.
  set (z := days + 719468).
  assert (Hd : 0 <= z mod 146097 < 146097) by (apply Z.mod_pos_bound; lia).
  pose proof (yoe_doy_range _ Hd) as [Hy Hr].
  set (doe := z mod 146097) in *. set (yoe := yoe_of doe) in *.
  assert (Edoe : doe = 365 * yoe + yoe / 4 - yoe / 100 + doy_of doe)
    by (unfold doy_of; fold yoe; lia).
  set (doy := doy_of doe) in *.
  assert (Hmp : 0 <= (5 * doy + 2) / 153 <= 11) by div_lia.
  set (mp := (5 * doy + 2) / 153) in *.
  assert (Ez : z = z / 146097 * 146097 + doe) by (unfold doe; div_lia).
  destruct (Z.ltb_spec mp 10).
  - destruct (Z.leb_spec (mp + 3) 2); [lia|].
    replace (yoe + z / 146097 * 400 + 0) with (yoe + z / 146097 * 400) by lia.
    rewrite Z.div_add, Z.mod_add, Z.div_small, Z.mod_small by lia.
    replace (mp + 3 - 3) with mp by lia. lia.
  - destruct (Z.leb_spec (mp - 9) 2); [|lia].
    replace (yoe + z / 146097 * 400 + 1 - 1) with (yoe + z / 146097 * 400) by lia.
    rewrite Z.div_add, Z.mod_add, Z.div_small, Z.mod_small by lia.
    replace (mp - 9 + 9) with mp by lia. lia.
Qed.

Lemma civil_valid days : valid_date (civil_from_days days) = true.
Proof.
  unfold civil_from_days, valid_date; cbn.
  set (z := days + 719468).
  assert (Hd : 0 <= z mod 146097 < 146097) by (apply Z.mod_pos_bound; lia).
  pose proof (yoe_doy_range _ Hd) as [Hy Hr]. pose proof (doy_leap _ Hd) as Hl.
  set (doe := z mod 146097) in *. set (yoe := yoe_of doe) in *. set (doy := doy_of doe) in *.
  set (era := z / 146097).
  assert (Hmp : 0 <= (5 * doy + 2) / 153 <= 11) by div_lia.
  set (mp := (5 * doy + 2) / 153) in *.
  assert (Hday : 1 <= doy - (153 * mp + 2) / 5 + 1 /\
    doy - (153 * mp + 2) / 5 + 1 <= (if mp =? 11 then 29
       else if (mp =? 1) || (mp =? 3) || (mp =? 6) || (mp =? 8) then 30 else 31)
    /\ (mp = 11 -> doy - (153 * mp + 2) / 5 + 1 = 29 -> doy = 365)).
  { assert (Hm : 153 * mp <= 5 * doy + 2 < 153 * mp + 153) by (unfold mp; div_lia).
    clearbody mp. split_and!; [div_lia| |div_lia].
    repeat case_match; bool_prop; div_lia. }
  clearbody mp.
  destruct Hday as (Hd1 & Hd2 & Hd3).
  repeat (apply andb_true_intro; split); apply Z.leb_le;
    [destruct (Z.ltb_spec mp 10); lia..|lia|].
  destruct (Z.ltb_spec mp 10).
  { unfold days_in. repeat case_match; bool_prop; lia. }
  destruct (Z.eqb_spec mp 11) as [->|].
  - change (days_in (11 - 9) (yoe + era * 400 + (if 11 - 9 <=? 2 then 1 else 0)))
      with (if is_leap (yoe + era * 400 + 1) then 29 else 28).
    destruct (is_leap (yoe + era * 400 + 1)) eqn:L; [done|].
    destruct (Z.eq_dec (doy - (153 * 11 + 2) / 5 + 1) 29) as [E|]; [|lia]. exfalso.
    specialize (Hl (Hd3 eq_refl E)). clear - L Hl Hy.
    unfold is_leap in L. apply andb_false_iff in L as [L|L]; bool_prop; div_lia.
  - unfold days_in. repeat case_match; bool_prop; lia.
Qed.

Lemma days_in_range m y : 28 <= days_in m y <= 31.
Proof. unfold days_in. repeat case_match; lia. Qed.

(** ** Text lemmas *)

Lemma digits_length w n : List.length (digits w n) = w.
Proof. revert n. induction w as [|w IH]; intros n; [done|]. cbn. rewrite length_app, IH. cbn. lia. Qed.

Lemma b2z_digit n : 0 <= n < 10 -> b2z (digit n) = 48 + n.
Proof. intros. apply b2z_z2b. lia. Qed.

Lemma is_digit_digit n : 0 <= n < 10 -> is_digit (digit n) = true.
Proof.
  intros. unfold is_digit, in_range. rewrite b2z_digit by done.
  change (b2z "0") with 48. change (b2z "9") with 57. apply andb_true_iff. lia.
Qed.

Lemma digits_are_digits w n : forallb is_digit (digits w n) = true.
Proof.
  revert n. induction w as [|w IH]; intros n; [done|]. cbn. rewrite forallb_app, IH. cbn.
  rewrite is_digit_digit by (apply Z.mod_pos_bound; lia). done.
Qed.

Lemma undigits_from_app acc l c : undigits_from acc (l ++ [c])
  = (n ← undigits_from acc l; if is_digit c then Some (n * 10 + (b2z c - 48)) else None).
Proof.
  revert acc. induction l as [|d l IH]; intros acc; cbn; [by destruct (is_digit c)|].
  destruct (is_digit d); [apply IH|done].
Qed.

Lemma undigits_digits w n : 0 <= n < 10 ^ Z.of_nat w -> undigits (digits w n) = Some n.
Proof.
  unfold undigits. revert n. induction w as [|w IH]; intros n Hn.
  { cbn in *. f_equal. lia. }
  cbn [digits]. rewrite undigits_from_app, IH.
  - cbn. rewrite is_digit_digit, b2z_digit by (apply Z.mod_pos_bound; lia).
    f_equal. div_lia.
  - replace (Z.of_nat (S w)) with (Z.of_nat w + 1) in Hn by lia.
    rewrite Z.pow_add_r in Hn by lia. div_lia.
Qed.

Lemma parse_field_digits w n lo hi :
  0 <= n < 10 ^ Z.of_nat w -> lo <= n <= hi -> parse_field (digits w n) lo hi = Some n.
Proof.
  intros Hn Hr. unfold parse_field. rewrite undigits_digits by done.
  destruct (Z.leb_spec lo n), (Z.leb_spec n hi); cbn; try lia; done.
Qed.

Lemma strip_zeros_spec l : exists k, l = strip_zeros l ++ replicate k "0"%char.
Proof.
  induction l as [|c l [k IH]]; [by exists 0%nat|]. cbn.
  destruct (strip_zeros l) as [|d r] eqn:E.
  - destruct (ascii_dec c "0") as [->|]; [exists (S k)|exists k]; cbn in *; congruence.
  - exists k. cbn. by rewrite IH at 1.
Qed.

Lemma strip_zeros_digits l : forallb is_digit l = true -> forallb is_digit (strip_zeros l) = true.
Proof.
  destruct (strip_zeros_spec l) as [k E]. intros H. rewrite E in H.
  rewrite forallb_app in H. by apply andb_true_iff in H as [H _].
Qed.

Lemma strip_zeros_length l : (List.length (strip_zeros l) <= List.length l)%nat.
Proof. destruct (strip_zeros_spec l) as [k E]. rewrite E at 2. rewrite length_app. lia. Qed.

Lemma span_digits_app l c r : forallb is_digit l = true -> is_digit c = false ->
  span_digits (l ++ c :: r) = (l, c :: r).
Proof.
  intros Hl Hc. induction l as [|d l IH]; cbn in *; [by rewrite Hc|].
  apply andb_true_iff in Hl as [-> Hl]. by rewrite IH.
Qed.

Lemma nanoseconds_strip n : 0 <= n < ns_per_second -> nanoseconds (strip_zeros (digits 9 n)) = n.
Proof.
  intros Hn. unfold nanoseconds.
  destruct (strip_zeros_spec (digits 9 n)) as [k E].
  set (f := strip_zeros (digits 9 n)) in *. clearbody f.
  pose proof (f_equal List.length E) as L. rewrite digits_length, length_app, length_replicate in L.
  assert (T : take 9 (f ++ replicate 9 "0"%char) = digits 9 n).
  { rewrite E, take_app, take_ge, take_replicate by lia. do 2 f_equal. lia. }
  by rewrite T, undigits_digits.
Qed.

Lemma parse_format_fraction n : 0 <= n < ns_per_second ->
  parse_fraction (format_fraction n ++ ["Z"%char]) = (n, ["Z"%char]).
Proof.
  intros Hn. unfold format_fraction.
  pose proof (strip_zeros_digits _ (digits_are_digits 9 n)) as Hd.
  pose proof (nanoseconds_strip n Hn) as Hs.
  destruct (strip_zeros (digits 9 n)) as [|c f] eqn:E; [cbn in *; by rewrite <- Hs|].
  rewrite <- app_comm_cons. cbn [parse_fraction]. destruct (ascii_dec "." ".") as [_|]; [|done].
  rewrite span_digits_app by done. by rewrite <- Hs.
Qed.

Lemma format_fraction_length n : 0 <= blen (format_fraction n) <= 10.
Proof.
  unfold format_fraction, blen. pose proof (strip_zeros_length (digits 9 n)) as H.
  rewrite digits_length in H. destruct (strip_zeros _); cbn in *; lia.
Qed.

(** The text of an instant has between 20 and 30 bytes, the bound the schema
    states for every timestamp column. *)
Lemma format_length t : 20 <= blen (format_rfc3339 t) <= 30.
Proof.
  unfold format_rfc3339, format_date, blen. repeat (rewrite length_app || rewrite digits_length).
  cbn [List.length]. pose proof (format_fraction_length (t_ns t mod ns_per_second)) as H.
  unfold blen in H. lia.
Qed.

Lemma format_prefix t : exists rest,
  format_rfc3339 t =
    digits 4 (d_year (date_of_seconds (t_unix t))) ++ "-"%char
    :: digits 2 (d_month (date_of_seconds (t_unix t))) ++ "-"%char
    :: digits 2 (d_day (date_of_seconds (t_unix t))) ++ rest.
Proof. eexists. unfold format_rfc3339, format_date. by rewrite <- !app_assoc. Qed.

Definition persistable_year (t : time) : Prop := 0 <= year_of t <= 9999.

(** Formatting an instant and parsing the text gives the instant back. *)
Lemma parse_format t : persistable_year t ->
  parse_rfc3339 (format_rfc3339 t) = Some (canonical t).
Proof.
  intros Hy. unfold persistable_year, year_of in Hy. pose proof (civil_valid (t_unix t / seconds_per_day)) as Hv.
  pose proof (days_civil (t_unix t / seconds_per_day)) as Hc.
  unfold format_rfc3339, date_of_seconds in *.
  destruct (civil_from_days (t_unix t / seconds_per_day)) as [y m d]; cbn [d_year d_month d_day] in *.
  unfold valid_date in Hv; cbn in Hv. bool_prop. pose proof (days_in_range m y).
  assert (Hsod : 0 <= second_of_day (t_unix t) < 86400) by (apply Z.mod_pos_bound; done).
  assert (Hs : t_unix t = t_unix t / seconds_per_day * 86400 + second_of_day (t_unix t))
    by (unfold second_of_day, seconds_per_day; div_lia).
  set (sod := second_of_day (t_unix t)) in *.
  assert (Hns : 0 <= t_ns t mod ns_per_second < ns_per_second) by (apply Z.mod_pos_bound; done).
  pose proof (parse_format_fraction _ Hns) as Hf.
  pose proof (format_fraction_length (t_ns t mod ns_per_second)) as Hl.
  set (frac := format_fraction (t_ns t mod ns_per_second)) in *.
  unfold format_date; cbn [d_year d_month d_day].
  assert (Hlen : 19 <= blen (digits 4 y ++ ["-"%char] ++ digits 2 m ++ ["-"%char] ++ digits 2 d
    ++ ["T"%char] ++ digits 2 (sod / 3600) ++ [":"%char] ++ digits 2 (sod / 60 mod 60)
    ++ [":"%char] ++ digits 2 (sod mod 60) ++ frac ++ ["Z"%char])).
  { unfold blen. repeat (rewrite length_app || rewrite digits_length). cbn. lia. }
  rewrite <- !app_assoc. unfold parse_rfc3339.
  set (text := digits 4 y ++ _) in *.
  replace (take 4 text) with (digits 4 y) by reflexivity.
  replace (take 2 (drop 5 text)) with (digits 2 m) by reflexivity.
  replace (take 2 (drop 8 text)) with (digits 2 d) by reflexivity.
  replace (take 2 (drop 11 text)) with (digits 2 (sod / 3600)) by reflexivity.
  replace (take 2 (drop 14 text)) with (digits 2 (sod / 60 mod 60)) by reflexivity.
  replace (take 2 (drop 17 text)) with (digits 2 (sod mod 60)) by reflexivity.
  replace (drop 19 text) with (frac ++ ["Z"%char]) by reflexivity.
  repeat (rewrite parse_field_digits by (cbn; div_lia); cbn [mbind option_bind]).
  rewrite (proj2 (Z.leb_le _ _) Hlen). cbn [andb].
  replace (at_is text 4 "-" && at_is text 7 "-" && at_is text 10 "T"
    && at_is text 13 ":" && at_is text 16 ":") with true by reflexivity.
  rewrite Hf. cbv beta iota. rewrite decide_True by done. rewrite Hc. f_equal. unfold unix_utc, canonical. f_equal.
  unfold t_unix, seconds_per_day, ns_per_second in *. div_lia.
Qed.

(** ** Order of dates and of their text *)

(** Go compares strings byte by byte. *)
Fixpoint bytes_cmp (a b : bytes) : comparison :=
  match a, b with
  | [], [] => Eq
  | [], _ :: _ => Lt
  | _ :: _, [] => Gt
  | c :: a', d :: b' => match b2z c ?= b2z d with Eq => bytes_cmp a' b' | o => o end
  end.
Definition bytes_leb (a b : bytes) : bool := match bytes_cmp a b with Gt => false | _ => true end.

Lemma bytes_cmp_app a b x y : List.length a = List.length b ->
  bytes_cmp (a ++ x) (b ++ y) = match bytes_cmp a b with Eq => bytes_cmp x y | o => o end.
Proof.
  revert b. induction a as [|c a IH]; intros [|d b] L; try done. cbn in *.
  destruct (b2z c ?= b2z d); try done. apply IH. lia.
Qed.

Lemma bytes_cmp_refl a : bytes_cmp a a = Eq.
Proof. induction a as [|c a IH]; [done|]. cbn. by rewrite Z.compare_refl. Qed.

Lemma digits_cmp w n m : 0 <= n < 10 ^ Z.of_nat w -> 0 <= m < 10 ^ Z.of_nat w ->
  bytes_cmp (digits w n) (digits w m) = (n ?= m).
Proof.
  revert n m. induction w as [|w IH]; intros n m Hn Hm.
  - cbn in *. replace n with 0 by lia. by replace m with 0 by lia.
  - cbn [digits]. rewrite Nat2Z.inj_succ, Z.pow_succ_r in Hn, Hm by lia.
    rewrite bytes_cmp_app by by rewrite !digits_length. rewrite IH by div_lia. cbn [bytes_cmp].
    rewrite !b2z_digit by div_lia.
    destruct (Z.compare_spec (n / 10) (m / 10)) as [E| |].
    + replace (match 48 + n mod 10 ?= 48 + m mod 10 with Eq => Eq | o => o end)
        with (48 + n mod 10 ?= 48 + m mod 10) by by destruct (_ ?= _).
      destruct (Z.compare_spec (48 + n mod 10) (48 + m mod 10)); symmetry;
        rewrite ?Z.compare_eq_iff, ?Z.compare_lt_iff, ?Z.compare_gt_iff; div_lia.
    + symmetry. rewrite Z.compare_lt_iff. div_lia.
    + symmetry. rewrite Z.compare_gt_iff. div_lia.
Qed.

(** Calendar order, as one comparison. *)
Definition date_cmp (a b : date) : comparison :=
  match d_year a ?= d_year b with
  | Eq => match d_month a ?= d_month b with Eq => d_day a ?= d_day b | o => o end
  | o => o
  end.

Definition four_digit_year (c : date) : Prop := 0 <= d_year c <= 9999.

Lemma format_date_cmp a b : four_digit_year a -> four_digit_year b -> valid_date a = true -> valid_date b = true ->
  bytes_cmp (format_date a) (format_date b) = date_cmp a b.
Proof.
  unfold four_digit_year, valid_date, format_date, date_cmp. intros Ya Yb Va Vb. bool_prop.
  assert (Hd : forall c m, days_in m c <= 31) by (intros; unfold days_in; repeat case_match; lia).
  pose proof (Hd (d_year a) (d_month a)). pose proof (Hd (d_year b) (d_month b)).
  assert (P4 : 10 ^ Z.of_nat 4 = 10000) by done. assert (P2 : 10 ^ Z.of_nat 2 = 100) by done.
  rewrite !bytes_cmp_app by (rewrite ?digits_length; done). rewrite !digits_cmp by lia.
  cbn [bytes_cmp]. rewrite !Z.compare_refl.
  done.
Qed.

(** Days before the March year [y]. *)
Definition march_days (y : Z) : Z := 365 * y + y / 4 - y / 100 + y / 400.

Lemma march_days_step y k : 0 < k -> march_days y + 365 * k <= march_days (y + k).
Proof. unfold march_days. intros. div_lia. Qed.
Lemma march_days_leap y : is_leap (y + 1) = true -> march_days (y + 1) = march_days y + 366.
Proof.
  unfold march_days, is_leap. intros H. bool_prop. apply orb_true_iff in H0 as [H0|H0]; bool_prop; div_lia.
Qed.

Definition march_year (c : date) : Z := if d_month c <=? 2 then d_year c - 1 else d_year c.
Definition march_month (c : date) : Z := if d_month c <=? 2 then d_month c + 9 else d_month c - 3.
Definition march_day (c : date) : Z := (153 * march_month c + 2) / 5 + d_day c - 1.

Lemma days_march c : days_from_civil c = march_days (march_year c) + march_day c - 719468.
Proof. unfold days_from_civil, march_days, march_day. fold (march_year c) (march_month c). div_lia. Qed.

Lemma march_day_range c : valid_date c = true ->
  0 <= march_month c <= 11 /\ (153 * march_month c + 2) / 5 <= march_day c /\
  (march_day c < (153 * (march_month c + 1) + 2) / 5 \/ march_month c = 11) /\
  (march_day c <= 364 \/ march_day c = 365 /\ is_leap (march_year c + 1) = true).
Proof.
  unfold valid_date, march_day, march_year, march_month. intros V. bool_prop.
  assert (M : d_month c = 1 \/ d_month c = 2 \/ d_month c = 3 \/ d_month c = 4 \/ d_month c = 5 \/ d_month c = 6 \/
    d_month c = 7 \/ d_month c = 8 \/ d_month c = 9 \/ d_month c = 10 \/ d_month c = 11 \/ d_month c = 12) by lia.
  unfold days_in in *.
  destruct_or! M; rewrite M in *; cbn in *; try solve [split_and!; first [div_lia|left; div_lia]].
  replace (d_year c - 1 + 1) with (d_year c) by lia.
  destruct (is_leap (d_year c)); split_and!; try first [div_lia|left; div_lia].
Qed.

Lemma days_lt a b : valid_date a = true -> valid_date b = true -> date_cmp a b = Lt ->
  days_from_civil a < days_from_civil b.
Proof.
  intros Va Vb C. rewrite !days_march.
  pose proof (march_day_range a Va) as (Ma & La & Ua & Ra). pose proof (march_day_range b Vb) as (Mb & Lb & Ub & Rb).
  assert (Hpos : 0 <= march_day b) by div_lia.
  assert (Cm : march_year a * 12 + march_month a < march_year b * 12 + march_month b \/
    march_year a * 12 + march_month a = march_year b * 12 + march_month b /\ d_day a < d_day b).
  { unfold date_cmp in C. unfold valid_date in *. bool_prop. unfold march_year, march_month.
    destruct (Z.compare_spec (d_year a) (d_year b)); try done;
      [destruct (Z.compare_spec (d_month a) (d_month b)); try done|];
      rewrite ?Z.compare_lt_iff in C; repeat case_match; bool_prop; lia. }
  destruct (Z.eq_dec (march_year a) (march_year b)) as [E|E].
  - rewrite E. destruct Cm as [Cm|[Cm Cd]].
    + assert (march_month a < march_month b) by lia. destruct Ua as [Ua|Ua]; [|lia].
      assert ((153 * (march_month a + 1) + 2) / 5 <= (153 * march_month b + 2) / 5) by div_lia. lia.
    + unfold march_day. replace (march_month a) with (march_month b) by lia. lia.
  - assert (Hlt : march_year a < march_year b) by lia.
    pose proof (march_days_step (march_year a) (march_year b - march_year a) ltac:(lia)) as S1.
    replace (march_year a + (march_year b - march_year a)) with (march_year b) in S1 by lia.
    destruct Ra as [Ra|[Ra Lp]]; [lia|]. apply march_days_leap in Lp.
    destruct (Z.eq_dec (march_year b) (march_year a + 1)) as [Eb|Eb]; [rewrite Eb; lia|].
    pose proof (march_days_step (march_year a + 1) (march_year b - march_year a - 1) ltac:(lia)) as S2.
    replace (march_year a + 1 + (march_year b - march_year a - 1)) with (march_year b) in S2 by lia. lia.
Qed.

Lemma date_cmp_eq a b : date_cmp a b = Eq -> a = b.
Proof.
  unfold date_cmp. destruct a as [y m d], b as [y' m' d']; cbn.
  destruct (Z.compare_spec y y'); try done. destruct (Z.compare_spec m m'); try done.
  rewrite Z.compare_eq_iff. congruence.
Qed.
Lemma date_cmp_antisym a b : date_cmp b a = CompOpp (date_cmp a b).
Proof.
  unfold date_cmp. rewrite (Z.compare_antisym (d_year a)), (Z.compare_antisym (d_month a)), (Z.compare_antisym (d_day a)).
  destruct (d_year a ?= d_year b); try done. by destruct (d_month a ?= d_month b).
Qed.

(** Calendar order is the order of day numbers. *)
Lemma date_cmp_days a b : valid_date a = true -> valid_date b = true ->
  date_cmp a b = (days_from_civil a ?= days_from_civil b).
Proof.
  intros Va Vb. destruct (date_cmp a b) eqn:C.
  - apply date_cmp_eq in C as ->. by rewrite Z.compare_refl.
  - symmetry. apply Z.compare_lt_iff. by apply days_lt.
  - symmetry. apply Z.compare_gt_iff. apply days_lt; [done..|]. by rewrite date_cmp_antisym, C.
Qed.

Lemma civil_year_mono a b : a <= b -> d_year (civil_from_days a) <= d_year (civil_from_days b).
Proof.
  intros H. pose proof (date_cmp_days (civil_from_days b) (civil_from_days a) (civil_valid b) (civil_valid a)) as C.
  rewrite !days_civil in C. unfold date_cmp in C.
  destruct (Z.compare_spec (d_year (civil_from_days b)) (d_year (civil_from_days a))); [lia| |lia].
  symmetry in C. change (b < a) in C. lia.
Qed.

(** What the sources use of Go's standard library to read a log line:
    [strings.Fields], [time.ParseDuration] and whether [time.Parse] accepts a
    value in the layout [time.RFC3339Nano]. *)

(** ** [strings.Fields] *)

(** [unicode.IsSpace] *)
Definition is_space (r : Z) : bool :=
  ((9 <=? r) && (r <=? 13)) || existsb (Z.eqb r) [32; 133; 160; 5760; 8232; 8233; 8239; 8287; 12288]
  || ((8192 <=? r) && (r <=? 8202)).

(** The fields of what is left, [field] being the one under way. *)
Fixpoint fields_loop (fuel : nat) (field l : bytes) : list bytes :=
  let flush := if bool_decide (field = []) then [] else [field] in
  match fuel, l with
  | S fuel, _ :: _ =>
      let '(r, n) := decode_rune l in
      if is_space r then flush ++ fields_loop fuel [] (drop n l) else fields_loop fuel (field ++ take n l) (drop n l)
  | _, _ => flush
  end.
Definition Fields (l : bytes) : list bytes := fields_loop (List.length l) [] l.

(** ** [time.ParseDuration] *)

Definition two63 : Z := Z.shiftl 1 63.

(** Digits as an integer up to 2^63; [None] on overflow. *)
Fixpoint leadingInt (x : Z) (l : bytes) : option (Z * bytes) :=
  match l with
  | c :: l' =>
      if is_digit c then
        if two63 / 10 <? x then None
        else let x := x * 10 + (b2z c - 48) in if two63 <? x then None else leadingInt x l'
      else Some (x, l)
  | [] => Some (x, [])
  end.

(** Digits after the point; those that would overflow are dropped. *)
Fixpoint leadingFraction (x scale : Z) (overflow : bool) (l : bytes) : Z * Z * bytes :=
  match l with
  | c :: l' =>
      if is_digit c then
        if overflow then leadingFraction x scale true l'
        else if (two63 - 1) / 10 <? x then leadingFraction x scale true l'
        else let y := x * 10 + (b2z c - 48) in
             if two63 <? y then leadingFraction x scale true l' else leadingFraction y (scale * 10) false l'
      else (x, scale, l)
  | [] => (x, scale, [])
  end.

(** [float64] of an integer and the integer part of a non-negative [float64]. *)
Definition float64 (n : Z) : spec_float := binary_normalize 53 1024 n 0 false.
Definition truncate (x : spec_float) : Z :=
  match x with
  | S754_finite false m e => Z.shiftl (Zpos m) e
  | _ => 0
  end.
(** [uint64(float64(f) * (float64(unit) / scale))] *)
Definition fraction_of (f unit scale : Z) : Z :=
  truncate (SFmul 53 1024 (float64 f) (SFdiv 53 1024 (float64 unit) (float64 scale))).

Definition unitMap (u : bytes) : option Z :=
  if bool_decide (u = to_bytes "ns") then Some 1
  else if bool_decide (u = to_bytes "us") || bool_decide (u = [z2b 194; z2b 181; "s"%char]) || bool_decide (u = [z2b 206; z2b 188; "s"%char])
  then Some 1000
  else if bool_decide (u = to_bytes "ms") then Some 1000000
  else if bool_decide (u = to_bytes "s") then Some ns_per_second
  else if bool_decide (u = to_bytes "m") then Some minute_ns
  else if bool_decide (u = to_bytes "h") then Some hour_ns
  else None.

Definition number_char (c : ascii) : bool := Ascii.eqb c "." || is_digit c.
Fixpoint span_unit (l : bytes) : bytes * bytes :=
  match l with
  | c :: l' => if number_char c then ([], l) else let '(u, rest) := span_unit l' in (c :: u, rest)
  | [] => ([], [])
  end.

(** One number with its unit: nanoseconds and the rest. *)
Definition duration_term (l : bytes) : option (Z * bytes) :=
  match l with
  | [] => None
  | c :: _ =>
      if negb (number_char c) then None
      else
        '(v, s) ← leadingInt 0 l;
        let pre := negb (List.length s =? List.length l)%nat in
        let '(f, scale, post, s) :=
          match s with
          | c :: s' => if Ascii.eqb c "."
                       then let '(f, scale, s'') := leadingFraction 0 1 false s' in (f, scale, negb (List.length s'' =? List.length s')%nat, s'')
                       else (0, 1, false, s)
          | [] => (0, 1, false, [])
          end in
        if negb pre && negb post then None
        else
          let '(u, rest) := span_unit s in
          if bool_decide (u = []) then None
          else
            unit ← unitMap u;
            if two63 / unit <? v then None
            else
              let v := v * unit + (if 0 <? f then fraction_of f unit scale else 0) in
              if two63 <? v then None else Some (v, rest)
  end.
Fixpoint duration_loop (fuel : nat) (d : Z) (l : bytes) : option Z :=
  match fuel, l with
  | S fuel, _ :: _ =>
      '(v, rest) ← duration_term l;
      if two63 <? d + v then None else duration_loop fuel (d + v) rest
  | _, _ => Some d
  end.
Definition ParseDuration (l : bytes) : option Z :=
  let '(neg, s) := match l with
                   | c :: l' => if Ascii.eqb c "-" then (true, l') else if Ascii.eqb c "+" then (false, l') else (false, l)
                   | [] => (false, [])
                   end in
  if bool_decide (s = to_bytes "0") then Some 0
  else if bool_decide (s = []) then None
  else
    d ← duration_loop (List.length s) 0 s;
    if neg then Some (- d) else if two63 - 1 <? d then None else Some d.

(** ** [time.Parse(time.RFC3339Nano, value)] *)

(** [getnum]: two digits, or one when that is allowed. *)
Definition getnum (fixed : bool) (l : bytes) : option (Z * bytes) :=
  match l with
  | a :: b :: rest =>
      if negb (is_digit a) then None
      else if is_digit b then Some ((b2z a - 48) * 10 + (b2z b - 48), rest)
      else if fixed then None else Some (b2z a - 48, b :: rest)
  | [a] => if is_digit a && negb fixed then Some (b2z a - 48, []) else None
  | [] => None
  end.
Definition skip (c : ascii) (l : bytes) : option bytes :=
  match l with d :: l' => if Ascii.eqb d c then Some l' else None | [] => None end.
Definition in_bounds (lo hi n : Z) : option unit := if (lo <=? n) && (n <=? hi) then Some tt else None.

Definition comma_or_period (c : ascii) : bool := Ascii.eqb c "." || Ascii.eqb c ",".
(** A fraction of a second may be missing. *)
Definition skip_fraction (l : bytes) : bytes :=
  match l with
  | c :: d :: _ => if comma_or_period c && is_digit d then (span_digits (drop 1 l)).2 else l
  | _ => l
  end.
(** [Z], or an offset of at most 24 hours and 60 minutes. *)
Definition parse_offset (l : bytes) : option bytes :=
  match l with
  | c :: l' =>
      if Ascii.eqb c "Z" then Some l'
      else if blen l <? 6 then None
      else
        '(hours, rest) ← getnum true l'; rest ← skip ":" rest; '(minutes, rest) ← getnum true rest;
        _ ← in_bounds 0 24 hours; _ ← in_bounds 0 60 minutes;
        if Ascii.eqb c "+" || Ascii.eqb c "-" then Some rest else None
  | [] => None
  end.

Definition accepts_rfc3339_nano (l : bytes) : bool :=
  match
    (year ← (if 4 <=? blen l then undigits (take 4 l) else None); l ← skip "-" (drop 4 l);
     '(month, l) ← getnum true l; _ ← in_bounds 1 12 month; l ← skip "-" l;
     '(day, l) ← getnum true l; l ← skip "T" l;
     '(hour, l) ← getnum false l; _ ← in_bounds 0 23 hour; l ← skip ":" l;
     '(minute, l) ← getnum true l; _ ← in_bounds 0 59 minute; l ← skip ":" l;
     '(sec, l) ← getnum true l; _ ← in_bounds 0 59 sec;
     rest ← parse_offset (skip_fraction l);
     if bool_decide (rest = []) then in_bounds 1 (days_in month year) day else None : option unit)
  with Some _ => true | None => false end.

Example fields_sample : Fields (to_bytes " a  bc" ++ z2b 9 :: to_bytes "d ") = [to_bytes "a"; to_bytes "bc"; to_bytes "d"].
Proof. reflexivity. Qed.
Example duration_sample : ParseDuration (to_bytes "-1h15m30.918273645s") = Some (- (hour_ns + 15 * minute_ns + 30918273645)).
Proof. vm_compute. reflexivity. Qed.
Example duration_bad : ParseDuration (to_bytes "3000000h") = None /\ ParseDuration (to_bytes "1.5") = None /\ ParseDuration (to_bytes "+.s") = None.
Proof. vm_compute. done. Qed.
Example timestamp_sample : accepts_rfc3339_nano (to_bytes "2025-02-28T9:08:07,5+01:00") = true.
Proof. reflexivity. Qed.
Example timestamp_bad : accepts_rfc3339_nano (to_bytes "2025-02-29T09:08:07Z") = false.
Proof. reflexivity. Qed.
