(* ===== verification/GoDecode.v ===== *)
(** Decoders of Go's standard library that the sources call, with their round
    trips: strict unpadded base64 ([base64.RawStdEncoding.Strict()] and its
    URL variant) and decimal integers ([strconv.Itoa], [strconv.ParseUint]). *)
From S2P Require Import Prelude.
From S2P Require Import GoText.
From S2P Require Import GoTime.

#[local] Open Scope Z_scope.

(** ** Base64 *)

Definition base64_value (e : Base64) (c : ascii) : option Z :=
  if is_upper_ascii c then Some (b2z c - 65)
  else if is_lower_ascii c then Some (b2z c - 71)
  else if is_digit c then Some (b2z c + 4)
  else if Ascii.eqb c (plus_char e) then Some 62
  else if Ascii.eqb c (slash_char e) then Some 63
  else None.

(** The bytes of a sequence of 6-bit values; the unused bits must be zero. *)
Fixpoint base64_pack (l : list Z) : option bytes :=
  match l with
  | [] => Some []
  | [_] => None
  | [a; b] => if Z.land b 15 =? 0 then Some [z2b (a * 4 + b / 16)] else None
  | [a; b; c] =>
      if Z.land c 3 =? 0 then Some [z2b (a * 4 + b / 16); z2b ((b mod 16) * 16 + c / 4)] else None
  | a :: b :: c :: d :: rest =>
      match base64_pack rest with
      | Some out => Some (z2b (a * 4 + b / 16) :: z2b ((b mod 16) * 16 + c / 4) :: z2b ((c mod 4) * 64 + d) :: out)
      | None => None
      end
  end.

Definition newline (c : ascii) : bool := (b2z c =? 10) || (b2z c =? 13).

(** [e.Strict().DecodeString] without padding: line breaks are skipped. *)
Definition base64_decode (e : Base64) (l : bytes) : option bytes :=
  values ← mapM (base64_value e) (List.filter (fun c => negb (newline c)) l); base64_pack values.

(** The 6-bit values of a byte string. *)
Fixpoint sextets (l : bytes) : list Z :=
  match l with
  | [] => []
  | [a] => [b2z a / 4; (b2z a mod 4) * 16]
  | [a; b] => [b2z a / 4; (b2z a mod 4) * 16 + b2z b / 16; (b2z b mod 16) * 4]
  | a :: b :: c :: rest =>
      b2z a / 4 :: (b2z a mod 4) * 16 + b2z b / 16 :: (b2z b mod 16) * 4 + b2z c / 64 :: b2z c mod 64 :: sextets rest
  end.

(** Induction by groups of three. *)
Lemma bytes_ind3 (P : bytes -> Prop) : P [] -> (forall a, P [a]) -> (forall a b, P [a; b]) ->
  (forall a b c l, P l -> P (a :: b :: c :: l)) -> forall l, P l.
Proof.
  intros H0 H1 H2 H3 l. cut (P l /\ (forall a, P (a :: l)) /\ (forall a b, P (a :: b :: l))); [tauto|].
  induction l as [|x l (IH1 & IH2 & IH3)]; [auto|]. split_and!; auto.
Qed.

Lemma values_ind4 (P : list Z -> Prop) : P [] -> (forall a, P [a]) -> (forall a b, P [a; b]) -> (forall a b c, P [a; b; c]) ->
  (forall a b c d l, P l -> P (a :: b :: c :: d :: l)) -> forall l, P l.
Proof.
  intros H0 H1 H2 H3 H4 l.
  cut (P l /\ (forall a, P (a :: l)) /\ (forall a b, P (a :: b :: l)) /\ (forall a b c, P (a :: b :: c :: l))); [tauto|].
  induction l as [|x l (IH1 & IH2 & IH3 & IH4)]; [auto|]. split_and!; auto.
Qed.

Ltac euclid := Z.to_euclidean_division_equations; lia.

Ltac byte_ranges := repeat match goal with
  | a : ascii |- _ =>
      lazymatch goal with H : 0 <= b2z a < 256 |- _ => fail | _ => pose proof (b2z_range a) end
  end.

Lemma base64_encode_sextets e l : padded e = false -> base64_encode e l = sextet e <$> sextets l.
Proof.
  intros He. induction l as [|a|a b|a b c l IH] using bytes_ind3; [done| | |]; cbn [base64_encode sextets fmap list_fmap]; rewrite ?He;
    byte_ranges; cbv zeta;
    repeat (apply (f_equal2 cons); [apply (f_equal (sextet e)); euclid|]); done.
Qed.

Lemma sextets_range l : Forall (fun n => 0 <= n < 64) (sextets l).
Proof.
  induction l as [|a|a b|a b c l IH] using bytes_ind3; cbn [sextets]; [constructor|..]; byte_ranges;
    repeat (constructor; [euclid|]); done || constructor.
Qed.

Lemma land15 b : Z.land b 15 = b mod 16.
Proof. apply (Z.land_ones b 4). lia. Qed.
Lemma land3 b : Z.land b 3 = b mod 4.
Proof. apply (Z.land_ones b 2). lia. Qed.

Lemma z2b_of z a : z = b2z a -> z2b z = a.
Proof. intros ->. apply z2b_b2z. Qed.

Lemma pack_sextets l : base64_pack (sextets l) = Some l.
Proof.
  induction l as [|a|a b|a b c l IH] using bytes_ind3; cbn [sextets base64_pack]; [done|..]; byte_ranges.
  - rewrite land15. replace (_ =? 0) with true by (symmetry; apply Z.eqb_eq; euclid). do 2 f_equal. apply z2b_of. euclid.
  - rewrite land3. replace (_ =? 0) with true by (symmetry; apply Z.eqb_eq; euclid).
    do 2 f_equal; [|f_equal]; apply z2b_of; euclid.
  - rewrite IH. do 2 f_equal; [|f_equal; [|f_equal]]; apply z2b_of; euclid.
Qed.

Lemma sextets_pack values out : Forall (fun n => 0 <= n < 64) values -> base64_pack values = Some out -> sextets out = values.
Proof.
  revert out. induction values as [|a|a b|a b c|a b c d l IH] using values_ind4; intros out Hf H; cbn [base64_pack] in H.
  - by simplify_eq.
  - done.
  - rewrite land15 in H. destruct (_ =? 0) eqn:E; [|done]. simplify_eq. apply Z.eqb_eq in E.
    rewrite !Forall_cons in Hf. destruct Hf as (? & ? & _). cbn [sextets].
    rewrite !b2z_z2b by euclid. f_equal; [euclid|f_equal; euclid].
  - rewrite land3 in H. destruct (_ =? 0) eqn:E; [|done]. simplify_eq. apply Z.eqb_eq in E.
    rewrite !Forall_cons in Hf. destruct Hf as (? & ? & ? & _). cbn [sextets].
    rewrite !b2z_z2b by euclid. f_equal; [euclid|f_equal; [euclid|f_equal; euclid]].
  - destruct (base64_pack l) as [o|]; [|done]. simplify_eq. rewrite !Forall_cons in Hf. destruct Hf as (? & ? & ? & ? & Hl).
    cbn [sextets]. rewrite !b2z_z2b by euclid. rewrite (IH o Hl eq_refl).
    f_equal; [euclid|f_equal; [euclid|f_equal; [euclid|f_equal; euclid]]].
Qed.

(** The two unpadded alphabets. *)
Definition raw_alphabet (e : Base64) : Prop := e = raw_std_encoding \/ e = raw_url_encoding.

Definition all_sextets : list Z := Z.of_nat <$> seq 0 64.
Definition all_bytes : bytes := (fun n => z2b (Z.of_nat n)) <$> seq 0 256.

Lemma elem_of_all_sextets n : 0 <= n < 64 -> n ∈ all_sextets.
Proof. intros H. apply list_elem_of_fmap. exists (Z.to_nat n). split; [lia|]. apply elem_of_seq. lia. Qed.
Lemma elem_of_all_bytes c : c ∈ all_bytes.
Proof.
  apply list_elem_of_fmap. exists (Z.to_nat (b2z c)). pose proof (b2z_range c). split; [|apply elem_of_seq; lia].
  rewrite Z2Nat.id by lia. by rewrite z2b_b2z.
Qed.

Lemma value_sextet e n : raw_alphabet e -> 0 <= n < 64 -> base64_value e (sextet e n) = Some n /\ newline (sextet e n) = false.
Proof.
  intros He H.
  assert (G : forallb (fun n => bool_decide (base64_value e (sextet e n) = Some n) && negb (newline (sextet e n))) all_sextets = true)
    by (destruct He as [-> | ->]; vm_compute; reflexivity).
  rewrite forallb_elem_of in G. specialize (G n (elem_of_all_sextets n H)). apply andb_true_iff in G as [G1 G2].
  split; [by bool_prop|by apply negb_true_iff].
Qed.

Lemma sextet_value e c n : raw_alphabet e -> base64_value e c = Some n -> sextet e n = c /\ 0 <= n < 64.
Proof.
  intros He H.
  assert (G : forallb (fun c => match base64_value e c with
     | Some n => Ascii.eqb (sextet e n) c && (0 <=? n) && (n <? 64) | None => true end) all_bytes = true)
    by (destruct He as [-> | ->]; vm_compute; reflexivity).
  rewrite forallb_elem_of in G. specialize (G c (elem_of_all_bytes c)). rewrite H in G.
  apply andb_true_iff in G as [[G1 G2]%andb_true_iff G3]. apply Ascii.eqb_eq in G1. bool_prop. done.
Qed.

Lemma decode_encode_base64 e l : raw_alphabet e -> base64_decode e (base64_encode e l) = Some l.
Proof.
  intros He. rewrite base64_encode_sextets by (by destruct He as [-> | ->]). unfold base64_decode.
  pose proof (sextets_range l) as Hr. rewrite Forall_forall in Hr.
  rewrite filter_all.
  - assert (E : mapM (base64_value e) (sextet e <$> sextets l) = Some (sextets l)).
    { apply mapM_Some_2, Forall2_fmap_l, Forall_Forall2_diag, Forall_forall. intros n Hn. by apply value_sextet, Hr. }
    rewrite E. cbn. apply pack_sextets.
  - intros c (n & -> & Hn)%list_elem_of_fmap. apply negb_true_iff. by apply value_sextet, Hr.
Qed.

(** Accepted text without line breaks is canonical. *)
Lemma encode_decode_base64 e l out : raw_alphabet e -> base64_decode e l = Some out ->
  base64_encode e out = List.filter (fun c => negb (newline c)) l.
Proof.
  intros He. unfold base64_decode. set (k := List.filter _ l). intros (values & Hv & Hp)%bind_Some.
  apply mapM_Some_1 in Hv. rewrite base64_encode_sextets by (by destruct He as [-> | ->]).
  assert (Hr : Forall (fun n => 0 <= n < 64) values /\ sextet e <$> values = k).
  { clear Hp. induction Hv as [|c n k' vs Hc _ [IH1 IH2]]; [done|]. apply sextet_value in Hc as [E R]; [|done].
    split; [by constructor|]. cbn. by rewrite E, IH2. }
  destruct Hr as [Hr1 Hr2]. by rewrite (sextets_pack _ _ Hr1 Hp).
Qed.

Lemma raw_base64_length e l : raw_alphabet e -> blen (base64_encode e l) = (blen l * 4 + 2) / 3.
Proof.
  intros He. rewrite base64_encode_sextets by (by destruct He as [-> | ->]). unfold blen. rewrite length_fmap.
  induction l as [|a|a b|a b c l IH] using bytes_ind3; [done..|]. cbn [sextets List.length].
  rewrite !Nat2Z.inj_succ, IH. euclid.
Qed.

Lemma filter_length_le {A} (g : A -> bool) l : blen (List.filter g l) <= blen l.
Proof. unfold blen. induction l as [|x l IH]; cbn; [lia|]. destruct (g x); cbn [List.length]; lia. Qed.

Lemma filter_length_all {A} (g : A -> bool) l : blen (List.filter g l) = blen l -> List.filter g l = l.
Proof.
  induction l as [|x l IH]; cbn [List.filter]; [done|]. pose proof (filter_length_le g l) as L.
  unfold blen in *. destruct (g x); cbn [List.length]; intros H; [f_equal; apply IH; lia|lia].
Qed.

(** ** Decimal integers *)

Fixpoint itoa_fuel (fuel : nat) (n : Z) : bytes :=
  match fuel with
  | O => []
  | S fuel => if n <? 10 then [digit n] else itoa_fuel fuel (n / 10) ++ [digit (n mod 10)]
  end.
(** [strconv.Itoa] of a natural number; the fuel covers numbers below 2^64. *)
Definition itoa (n : Z) : bytes := itoa_fuel 20 n.

(** [strconv.ParseUint(s, 10, bits)] *)
Definition parse_uint (bits : Z) (l : bytes) : option Z :=
  match l with
  | [] => None
  | _ => n ← undigits l; if n <? 2 ^ bits then Some n else None
  end.

Lemma itoa_fuel_spec fuel n : 0 <= n < 10 ^ Z.of_nat fuel -> (0 < fuel)%nat ->
  undigits (itoa_fuel fuel n) = Some n /\ itoa_fuel fuel n <> [] /\
  forallb is_digit (itoa_fuel fuel n) = true /\
  (1 <= List.length (itoa_fuel fuel n) <= fuel)%nat /\
  (forall c l, itoa_fuel fuel n = c :: l -> l <> [] -> c <> "0"%char).
Proof.
  revert n. induction fuel as [|fuel IH]; intros n Hn Hf; [lia|]. cbn [itoa_fuel].
  destruct (Z.ltb_spec n 10) as [L|L].
  - split_and!; [|done| |cbn; lia..|].
    + change [digit n] with ([] ++ [digit n]). unfold undigits. rewrite undigits_from_app. cbn [undigits_from].
      cbn [mbind option_bind]. rewrite is_digit_digit, b2z_digit by lia. f_equal. lia.
    + cbn [forallb]. by rewrite is_digit_digit by lia.
    + by intros c l [= <- <-].
  - assert (Hd : 0 <= n / 10 < 10 ^ Z.of_nat fuel).
    { rewrite Nat2Z.inj_succ, Z.pow_succ_r in Hn by lia. split; [euclid|]. apply Z.div_lt_upper_bound; lia. }
    destruct fuel as [|fuel]; [cbn in Hd; euclid|].
    destruct (IH (n / 10) Hd) as (H1 & H2 & H3 & H4 & H5); [lia|]. set (k := itoa_fuel (S fuel) (n / 10)) in *.
    assert (0 <= n mod 10 < 10) by euclid.
    split_and!.
    + unfold undigits in *. rewrite undigits_from_app, H1. cbn [mbind option_bind]. rewrite is_digit_digit, b2z_digit by lia. f_equal. euclid.
    + by destruct k.
    + rewrite forallb_app, H3. cbn [forallb]. by rewrite is_digit_digit.
    + rewrite length_app. cbn [List.length]. lia.
    + rewrite length_app. cbn [List.length]. lia.
    + intros c l E Hl. destruct k as [|c' k'] eqn:Ek; [done|]. injection E as <- E.
      destruct k' as [|d k'']; [|by eapply H5].
      (* a single digit: the quotient, which is at least 1 *)
      intros ->. change (undigits ["0"%char]) with (Some 0) in H1. injection H1 as H1. euclid.
Qed.

Lemma itoa_spec n : 0 <= n < 2 ^ 64 ->
  undigits (itoa n) = Some n /\ itoa n <> [] /\ forallb is_digit (itoa n) = true /\
  1 <= blen (itoa n) <= 20 /\ (forall c l, itoa n = c :: l -> l <> [] -> c <> "0"%char).
Proof.
  intros H. destruct (itoa_fuel_spec 20 n) as (H1 & H2 & H3 & H4 & H5); [lia|lia|].
  unfold itoa, blen. split_and!; try done; lia.
Qed.

Lemma parse_itoa bits n : 0 <= n < 2 ^ bits -> bits <= 64 -> parse_uint bits (itoa n) = Some n.
Proof.
  intros H Hb. assert (2 ^ bits <= 2 ^ 64) by (apply Z.pow_le_mono_r; lia).
  destruct (itoa_spec n) as (H1 & H2 & _); [lia|]. unfold parse_uint. destruct (itoa n) as [|c l] eqn:E; [done|].
  rewrite H1. cbn [mbind option_bind]. by rewrite (proj2 (Z.ltb_lt _ _)) by lia.
Qed.

(** Decimal text without a leading zero is what [Itoa] prints. *)
Lemma undigits_bounds l n : undigits l = Some n -> 0 <= n < 10 ^ blen l.
Proof.
  revert n. induction l as [|c l IH] using rev_ind; intros n; [intros [= <-]; unfold blen; cbn; lia|].
  unfold undigits in *. rewrite undigits_from_app. destruct (undigits_from 0 l) as [k|]; [|done].
  cbn [mbind option_bind]. destruct (is_digit c) eqn:E; [|done]. intros [= <-]. specialize (IH _ eq_refl).
  unfold is_digit, in_range in E. change (b2z "0") with 48 in E. change (b2z "9") with 57 in E. bool_prop.
  unfold blen in *. rewrite length_app, Nat2Z.inj_add, Z.pow_add_r by lia. change (10 ^ Z.of_nat (List.length [c])) with 10. nia.
Qed.

Lemma digit_of c : is_digit c = true -> digit (b2z c - 48) = c /\ 0 <= b2z c - 48 < 10.
Proof.
  unfold is_digit, in_range. change (b2z "0") with 48. change (b2z "9") with 57. intros H. bool_prop.
  split; [|lia]. unfold digit. replace (48 + (b2z c - 48)) with (b2z c) by lia. apply z2b_b2z.
Qed.

Lemma itoa_undigits fuel l n : (List.length l <= fuel)%nat -> l <> [] -> undigits l = Some n ->
  (forall c k, l = c :: k -> k <> [] -> c <> "0"%char) -> itoa_fuel fuel n = l.
Proof.
  revert l n. induction fuel as [|fuel IH]; intros l n Hl Hne Hn Hz; [by destruct l; [|cbn in Hl; lia]|].
  destruct l as [|c l _] using rev_ind; [done|]. rewrite length_app in Hl. cbn in Hl.
  unfold undigits in Hn. rewrite undigits_from_app in Hn. destruct (undigits_from 0 l) as [m|] eqn:Em; [|done].
  cbn [mbind option_bind] in Hn. destruct (is_digit c) eqn:Ec; [|done]. injection Hn as <-.
  destruct (digit_of c Ec) as [Hc Rc]. pose proof (undigits_bounds l m Em) as Bm. cbn [itoa_fuel].
  destruct l as [|d l'].
  - cbn in Em. injection Em as <-. rewrite (proj2 (Z.ltb_lt _ _)) by lia.
    replace (0 * 10 + (b2z c - 48)) with (b2z c - 48) by lia. by rewrite Hc.
  - assert (Hm : 1 <= m).
    { destruct (Z.eq_dec m 0) as [->|]; [exfalso|lia].
      assert (G : forall k acc, 0 < acc -> forall r, undigits_from acc k = Some r -> 0 < r).
      { induction k as [|x k IHk]; intros acc Ha r Hr; cbn in Hr; [by simplify_eq|].
        destruct (is_digit x) eqn:Ex; [|done]. destruct (digit_of x Ex). eapply IHk; [|done]. lia. }
      cbn in Em. destruct (is_digit d) eqn:Ed; [|done]. destruct (digit_of d Ed) as [Hd Rd].
      destruct (Z.eq_dec (b2z d - 48) 0) as [E0|Hne0].
      - apply (Hz d (l' ++ [c])); [done|by destruct l'|]. rewrite <- Hd, E0. done.
      - specialize (G l' (0 * 10 + (b2z d - 48)) ltac:(lia) 0 Em). lia. }
    rewrite (proj2 (Z.ltb_ge _ _)) by lia.
    replace ((m * 10 + (b2z c - 48)) / 10) with m by euclid.
    replace ((m * 10 + (b2z c - 48)) mod 10) with (b2z c - 48) by euclid.
    rewrite (IH (d :: l') m), Hc; [done|lia|done|done|].
    intros x k [= <- <-] Hk. by apply (Hz d (l' ++ [c])); [|destruct l'].
Qed.

Lemma itoa_fuel_more k fuel n : 0 <= n < 10 ^ Z.of_nat fuel -> (0 < fuel)%nat -> itoa_fuel (fuel + k) n = itoa_fuel fuel n.
Proof.
  revert n. induction fuel as [|fuel IH]; intros n Hn Hf; [lia|]. cbn [Nat.add itoa_fuel].
  destruct (Z.ltb_spec n 10) as [?|L]; [done|]. f_equal. destruct fuel as [|fuel]; [cbn in Hn; lia|].
  apply IH; [|lia]. rewrite Nat2Z.inj_succ, Z.pow_succ_r in Hn by lia. split; [euclid|]. apply Z.div_lt_upper_bound; lia.
Qed.

(** Decimal text of a 64-bit number without a leading zero is canonical. *)
Lemma undigits_canonical l n : l <> [] -> undigits l = Some n -> n < 2 ^ 64 ->
  (forall c k, l = c :: k -> k <> [] -> c <> "0"%char) -> itoa n = l.
Proof.
  intros Hne Hn Hb Hz. pose proof (undigits_bounds l n Hn) as Bn.
  destruct (decide (List.length l <= 20)%nat) as [?|Hlong]; [by apply itoa_undigits|].
  assert (E : itoa_fuel (List.length l) n = l) by by apply itoa_undigits.
  replace (List.length l) with (20 + (List.length l - 20))%nat in E by lia.
  rewrite itoa_fuel_more in E by lia. done.
Qed.
