(* ===== verification/Effects.v ===== *)
(** State-passing computations with errors, and SQLite transactions on top.

    [M S E A] is Go code that reads and writes a state [S] and returns
    [(A, error)]; as in Go, the effects performed before an error remain.
    A transaction ([*sql.Tx]) is such a computation over a [txn]: the durable
    database, the working copy the statements act on, and a schedule of faults
    that says which of the following database calls report an error.  Leaving
    a transaction without [commit] discards the working copy, which is what
    the [defer tx.Rollback()] of every store method does. *)
From S2P Require Import Prelude.

Definition M (S E A : Type) : Type := S -> result E A * S.

#[export] Instance M_ret {S E} : MRet (M S E) := fun A a s => (Ok a, s).
#[export] Instance M_bind {S E} : MBind (M S E) := fun A B f m s =>
  match m s with
  | (Ok a, s') => f a s'
  | (Err e, s') => (Err e, s')
  end.

Definition fail {S E A} (e : E) : M S E A := fun s => (Err e, s).
Definition lift {S E A} (r : result E A) : M S E A := fun s => (r, s).
(** Run a call and hand its [(value, error)] pair to the code that follows. *)
Definition attempt {S E A} (m : M S E A) : M S E (result E A) :=
  fun s => let '(r, s') := m s in (Ok r, s').

(** A loop over a list in the state monad. *)
Fixpoint for_each_m {S E A} (f : A -> M S E unit) (l : list A) : M S E unit :=
  match l with
  | [] => mret tt
  | a :: l' => f a ≫= fun _ => for_each_m f l'
  end.

(** ** What a computation preserves *)

Section Preservation.
Context {S E : Type} (R : S -> S -> Prop) `{!PreOrder R}.

(** [m] relates the state before to the state after, error or not. *)
Definition preserves {A} (m : M S E A) : Prop := forall s, R s (m s).2.
(** [m] relates the two states whenever it returns an error. *)
Definition preserves_on_error {A} (m : M S E A) : Prop :=
  forall s e s', m s = (Err e, s') -> R s s'.
Definition never_fails {A} (m : M S E A) : Prop := forall s, exists a s', m s = (Ok a, s').

Lemma preserves_ret {A} (a : A) : preserves (mret a).
Proof. intros s. reflexivity. Qed.
Lemma preserves_fail {A} (e : E) : preserves (A:=A) (fail e).
Proof. intros s. reflexivity. Qed.
Lemma preserves_lift {A} (r : result E A) : preserves (lift r).
Proof. intros s. reflexivity. Qed.
Lemma preserves_bind {A B} (m : M S E A) (f : A -> M S E B) :
  preserves m -> (forall a, preserves (f a)) -> preserves (m ≫= f).
Proof.
  intros Hm Hf s. unfold mbind, M_bind. specialize (Hm s).
  destruct (m s) as [[a|e] s'] eqn:Em; cbn in *; [|done]. etransitivity; [done|apply Hf].
Qed.
Lemma preserves_if {A} (b : bool) (m n : M S E A) :
  preserves m -> preserves n -> preserves (if b then m else n).
Proof. by destruct b. Qed.
Lemma preserves_attempt {A} (m : M S E A) : preserves m -> preserves (attempt m).
Proof. intros Hm s. specialize (Hm s). unfold attempt. by destruct (m s). Qed.
Lemma preserves_for_each {A} (f : A -> M S E unit) l :
  (forall a, preserves (f a)) -> preserves (for_each_m f l).
Proof.
  intros Hf. induction l as [|a l IH]; [apply preserves_ret|].
  apply preserves_bind; [apply Hf|done].
Qed.

Lemma on_error_of_preserves {A} (m : M S E A) : preserves m -> preserves_on_error m.
Proof. intros Hm s e s' Es. specialize (Hm s). by rewrite Es in Hm. Qed.
Lemma on_error_bind {A B} (m : M S E A) (f : A -> M S E B) :
  preserves m -> (forall a, preserves_on_error (f a)) -> preserves_on_error (m ≫= f).
Proof.
  intros Hm Hf s e s' Es. unfold mbind, M_bind in Es. specialize (Hm s).
  destruct (m s) as [[a|e1] s1] eqn:Em; cbn in *; simplify_eq; [|done].
  etransitivity; [done|by eapply Hf].
Qed.
Lemma on_error_then {A B} (m : M S E A) (f : A -> M S E B) :
  preserves_on_error m -> (forall a, never_fails (f a)) -> preserves_on_error (m ≫= f).
Proof.
  intros Hm Hf s e s' Es. unfold mbind, M_bind in Es.
  destruct (m s) as [[a|e1] s1] eqn:Em; simplify_eq; [|by eapply Hm].
  destruct (Hf a s1) as (b & s2 & Ef). congruence.
Qed.
Lemma on_error_if {A} (b : bool) (m n : M S E A) :
  preserves_on_error m -> preserves_on_error n -> preserves_on_error (if b then m else n).
Proof. by destruct b. Qed.
End Preservation.

Lemma never_fails_ret {S E A} (a : A) : never_fails (S:=S) (E:=E) (mret a).
Proof. intros s. by exists a, s. Qed.

#[export] Hint Resolve preserves_ret preserves_fail preserves_lift preserves_bind preserves_if
  preserves_attempt preserves_for_each never_fails_ret on_error_if : go.

(** Inversion of a successful bind in the state monad. *)
Lemma M_bind_Ok {S E A B} (m : M S E A) (f : A -> M S E B) s b s' :
  (m ≫= f) s = (Ok b, s') <-> exists a s1, m s = (Ok a, s1) /\ f a s1 = (Ok b, s').
Proof.
  unfold mbind, M_bind. split.
  - destruct (m s) as [[a|e] s1] eqn:Em; [|done]. eauto.
  - intros (a & s1 & -> & H). done.
Qed.

Lemma M_bind_split {S E A B} (m : M S E A) (f : A -> M S E B) s x s' :
  (m ≫= f) s = (x, s') ->
  (exists e, m s = (Err e, s') /\ x = Err e) \/ (exists a s1, m s = (Ok a, s1) /\ f a s1 = (x, s')).
Proof.
  unfold mbind, M_bind. destruct (m s) as [[a|e] s1]; intros H; [right|left]; simplify_eq; eauto.
Qed.

Lemma M_bind_ext {S E A B} (m : M S E A) (f g : A -> M S E B) t :
  (forall a s, f a s = g a s) -> (m ≫= f) t = (m ≫= g) t.
Proof. intros H. unfold mbind, M_bind. by destruct (m t) as [[a|e] s']. Qed.

(** ** Transactions *)

(** How the engine's own errors appear in a component's error type; the text
    is the prefix the source wraps them with. *)
Class DbError (E : Type) := db_error : string -> E.

Section Transactions.
Context {Db E : Type} `{!DbError E}.

(** A store's view of the outside: the durable database and the faults to
    come ([true]: the next call reports an error). *)
Record world := mk_world { w_db : Db; w_faults : list bool }.
Record txn := mk_txn { tx_durable : Db; tx_working : Db; tx_faults : list bool }.

Definition next_fault (fl : list bool) : bool * list bool :=
  match fl with [] => (false, []) | b :: fl' => (b, fl') end.

(** One SQL statement: it may report a fault, it may violate a constraint of
    the schema ([None]), and otherwise acts on the working copy. *)
Definition statement {A} (what : string) (f : Db -> option (A * Db)) : M txn E A := fun t =>
  let '(fault, fl) := next_fault (tx_faults t) in
  let t' := mk_txn (tx_durable t) (tx_working t) fl in
  if fault then (Err (db_error what), t')
  else match f (tx_working t) with
       | Some (a, w) => (Ok a, mk_txn (tx_durable t) w fl)
       | None => (Err (db_error what), t')
       end.

(** [QueryRowContext]/[QueryContext] *)
Definition query {A} (what : string) (f : Db -> A) : M txn E A :=
  statement what (fun d => Some (f d, d)).

Definition commit (what : string) : M txn E unit := fun t =>
  let '(fault, fl) := next_fault (tx_faults t) in
  if fault then (Err (db_error what), mk_txn (tx_durable t) (tx_working t) fl)
  else (Ok tt, mk_txn (tx_working t) (tx_working t) fl).

(** [BeginTx] ... [defer Rollback]. *)
Definition transaction {A} (what : string) (body : M txn E A) : M world E A := fun w =>
  let '(fault, fl) := next_fault (w_faults w) in
  if fault then (Err (db_error what), mk_world (w_db w) fl)
  else let '(r, t) := body (mk_txn (w_db w) (w_db w) fl) in
       (r, mk_world (tx_durable t) (tx_faults t)).

(** A statement outside any transaction commits by itself. *)
Definition autocommit {A} (what : string) (f : Db -> option (A * Db)) : M world E A :=
  transaction what (fun t =>
    match statement what f t with
    | (Ok a, t') => (Ok a, mk_txn (tx_working t') (tx_working t') (tx_faults t'))
    | (Err e, t') => (Err e, t')
    end).

Definition same_durable (t t' : txn) : Prop := tx_durable t = tx_durable t'.
Definition same_db (w w' : world) : Prop := w_db w = w_db w'.

#[export] Instance same_durable_preorder : PreOrder same_durable.
Proof. split; unfold same_durable; [done|intros ???; congruence]. Qed.
#[export] Instance same_db_preorder : PreOrder same_db.
Proof. split; unfold same_db; [done|intros ???; congruence]. Qed.

Lemma statement_quiet {A} what (f : Db -> option (A * Db)) : preserves same_durable (statement what f).
Proof.
  intros t. unfold statement, same_durable. destruct (next_fault _) as [[] fl]; [done|].
  by destruct (f _) as [[]|].
Qed.
Lemma query_quiet {A} what (f : Db -> A) : preserves same_durable (query what f).
Proof. apply statement_quiet. Qed.
Lemma commit_quiet_on_error what : preserves_on_error same_durable (commit what).
Proof.
  intros t e t'. unfold commit, same_durable. destruct (next_fault _) as [[] fl]; naive_solver.
Qed.

(** A transaction body that changes the durable database only by a final
    successful commit leaves it untouched whenever an error is returned. *)
Lemma transaction_atomic {A} what (body : M txn E A) :
  preserves_on_error same_durable body -> preserves_on_error same_db (transaction what body).
Proof.
  intros Hb w e w'. unfold transaction, same_db.
  destruct (next_fault _) as [[] fl]; [naive_solver|].
  destruct (body _) as [r t] eqn:Eb. intros [= -> <-]. by apply Hb in Eb.
Qed.

Lemma transaction_quiet {A} what (body : M txn E A) :
  preserves same_durable body -> preserves same_db (transaction what body).
Proof.
  intros Hb w. unfold transaction, same_db.
  destruct (next_fault _) as [[] fl]; [done|].
  specialize (Hb (mk_txn (w_db w) (w_db w) fl)). by destruct (body _).
Qed.

(** ** Running without faults *)

Lemma statement_run {A} what (f : Db -> option (A * Db)) d w a w' :
  f w = Some (a, w') -> statement what f (mk_txn d w []) = (Ok a, mk_txn d w' []).
Proof. intros H. unfold statement. cbn. by rewrite H. Qed.

Lemma query_run {A} what (f : Db -> A) d w :
  query what f (mk_txn d w []) = (Ok (f w), mk_txn d w []).
Proof. by apply statement_run. Qed.

Lemma commit_run what d w : commit what (mk_txn d w []) = (Ok tt, mk_txn w w []).
Proof. done. Qed.

Lemma statement_Ok {A} what (f : Db -> option (A * Db)) t a t' :
  statement what f t = (Ok a, t') ->
  f (tx_working t) = Some (a, tx_working t') /\ tx_durable t' = tx_durable t.
Proof.
  unfold statement. destruct (next_fault _) as [[] fl]; [done|].
  destruct (f _) as [[b w]|] eqn:Ef; [|done]. by intros [= -> <-].
Qed.

Lemma query_Ok {A} what (f : Db -> A) t a t' :
  query what f t = (Ok a, t') ->
  a = f (tx_working t) /\ tx_working t' = tx_working t /\ tx_durable t' = tx_durable t.
Proof. intros [H ?]%statement_Ok. by simplify_eq. Qed.

Lemma commit_Ok what t u t' :
  commit what t = (Ok u, t') -> tx_working t' = tx_working t /\ tx_durable t' = tx_working t.
Proof. unfold commit. destruct (next_fault _) as [[] fl]; [done|]. by intros [= <- <-]. Qed.

Lemma transaction_Ok {A} what (body : M txn E A) w a w' :
  transaction what body w = (Ok a, w') ->
  exists t t', tx_durable t = w_db w /\ tx_working t = w_db w /\
    body t = (Ok a, t') /\ w_db w' = tx_durable t'.
Proof.
  unfold transaction. destruct (next_fault _) as [[] fl]; [done|].
  destruct (body _) as [r t] eqn:Eb. intros [= -> <-].
  eexists (mk_txn (w_db w) (w_db w) fl), t. by rewrite Eb.
Qed.
End Transactions.
Arguments world : clear implicits.
Arguments txn : clear implicits.

#[export] Hint Resolve statement_quiet query_quiet commit_quiet_on_error : go.
#[export] Hint Extern 0 (PreOrder _) => apply _ : go.

(** Discharges "the durable database is not changed". *)
Ltac quiet := repeat first
  [ apply preserves_bind | apply preserves_if | lazymatch goal with |- PreOrder _ => apply _ end
  | progress intros | solve [eauto with go]
  | case_match ].
(** A loop of statements, as a fold over the working copy. *)
Fixpoint fold_statements {Db A} (f : A -> Db -> option (unit * Db)) (l : list A) (d : Db) : option Db :=
  match l with
  | [] => Some d
  | a :: l' => match f a d with Some (_, d') => fold_statements f l' d' | None => None end
  end.

Lemma for_each_statement_run {Db E A} `{!DbError E} what (f : A -> Db -> option (unit * Db)) l d w w' :
  fold_statements f l w = Some w' ->
  for_each_m (E:=E) (fun a => statement what (f a)) l (mk_txn d w []) = (Ok tt, mk_txn d w' []).
Proof.
  revert w. induction l as [|a l IH]; intros w H; cbn in *; [by simplify_eq|].
  destruct (f a w) as [[[] w1]|] eqn:Ef; [|done].
  unfold mbind, M_bind. erewrite statement_run by done. by apply IH.
Qed.

(** The working copy after each prefix of the loop determines its result. *)
Lemma fold_statements_prefix {Db A} (f : A -> Db -> option (unit * Db)) (state : list A -> Db) l :
  (forall pre x post, l = pre ++ x :: post -> f x (state pre) = Some (tt, state (pre ++ [x]))) ->
  fold_statements f l (state []) = Some (state l).
Proof.
  intros H. cut (forall post pre, l = pre ++ post -> fold_statements f post (state pre) = Some (state l)).
  { intros H'. by apply (H' l []). }
  induction post as [|x post IH]; intros pre El; cbn; [by rewrite El, app_nil_r|].
  rewrite (H pre x post El). apply IH. by rewrite <- app_assoc.
Qed.
