(* ===== verification/Refine.v ===== *)
(** Refinement of transactional stores, for any database, error type and
    specification state: a store method implements a specification method, and
    database faults only ever turn it into a failure without effect. *)
From S2P Require Import Prelude.
From S2P Require Import Effects.

#[local] Open Scope Z_scope.

Section Refinement.
Context {Db E V : Type} `{!DbError E} (represents : Db -> V -> Prop).

(** Run without faults, a store method returns what the specification method
    returns and leaves tables that represent its new state. *)
Definition implements {A} (m : M (world Db) E A) (spec : M V E A) : Prop :=
  forall d s, represents d s ->
    exists d', m (mk_world d []) = ((spec s).1, mk_world d' []) /\ represents d' (spec s).2.

Lemma implements_lift {A B} (r : result E A) (m : A -> M (world Db) E B) (spec : A -> M V E B) :
  (forall a, r = Ok a -> implements (m a) (spec a)) ->
  implements (lift r ≫= m) (lift r ≫= spec).
Proof.
  intros H d s Hr. unfold mbind, M_bind, lift. destruct r as [a|e].
  - by apply (H a eq_refl).
  - by exists d.
Qed.

Lemma implements_ext {A} (m m' : M (world Db) E A) (spec spec' : M V E A) :
  (forall w, m w = m' w) -> (forall s, spec s = spec' s) -> implements m' spec' -> implements m spec.
Proof.
  intros Hm Hs H d s Hr. destruct (H d s Hr) as (d' & E' & R). exists d'. by rewrite Hm, Hs.
Qed.

Lemma implements_then {A B} (m : M (world Db) E A) (spec : M V E A) (f : A -> B) :
  implements m spec -> implements (a ← m; mret (f a)) (a ← spec; mret (f a)).
Proof.
  intros H d s Hr. destruct (H d s Hr) as (d' & E' & R). unfold mbind, M_bind. rewrite E'.
  destruct (spec s) as [[a|e] s'] eqn:Es; by exists d'.
Qed.

Lemma transaction_run {A} what (body : M (txn Db) E A) d :
  transaction what body (mk_world d [])
  = let '(r, t) := body (mk_txn d d []) in (r, mk_world (tx_durable t) (tx_faults t)).
Proof. done. Qed.

(** A body whose run is known leads to the state the specification says. *)
Lemma transaction_implements {A} what (body : M (txn Db) E A) d s r d' (spec : M V E A) :
  (exists w, body (mk_txn d d []) = (r, mk_txn d' w [])) ->
  (spec s).1 = r -> represents d' (spec s).2 ->
  exists d', transaction what body (mk_world d []) = ((spec s).1, mk_world d' []) /\
             represents d' (spec s).2.
Proof. intros [w E'] <- Hr. exists d'. by rewrite transaction_run, E'. Qed.
End Refinement.
Arguments implements_lift {Db E V represents A B}.
Arguments implements_ext {Db E V represents A}.
Arguments implements_then {Db E V represents A B}.
Arguments transaction_implements {Db E V _ represents A}.

(** Runs the next statement of a body. *)
Ltac run_statement :=
  cbv beta iota; unfold mbind at 1, M_bind at 1;
  first [rewrite query_run | erewrite statement_run by done | rewrite commit_run]; cbv beta iota.

(** ** Database faults *)

Section Faults.
Context {Db E : Type} `{!DbError E}.

(** [m] succeeds under faults only in the way it succeeds without them. *)
Definition fault_sound {A} (m : M (txn Db) E A) : Prop := forall d w fl a t,
  m (mk_txn d w fl) = (Ok a, t) -> m (mk_txn d w []) = (Ok a, mk_txn (tx_durable t) (tx_working t) []).

Lemma sound_ret {A} (a : A) : fault_sound (mret a).
Proof. intros d w fl b t [= -> <-]. done. Qed.
Lemma sound_fail {A} e : fault_sound (A:=A) (fail e).
Proof. done. Qed.
Lemma sound_lift {A} (r : result E A) : fault_sound (lift r).
Proof. intros d w fl b t [= -> <-]. done. Qed.
Lemma sound_bind {A B} (m : M (txn Db) E A) (f : A -> M (txn Db) E B) :
  fault_sound m -> (forall a, fault_sound (f a)) -> fault_sound (m ≫= f).
Proof.
  intros Hm Hf d w fl b t (a & [d1 w1 fl1] & E1 & E2)%M_bind_Ok.
  unfold mbind, M_bind. rewrite (Hm _ _ _ _ _ E1). by apply (Hf _ _ _ _ _ _ E2).
Qed.
Lemma sound_statement {A} what (f : Db -> option (A * Db)) : fault_sound (statement what f).
Proof.
  intros d w fl a t. unfold statement. cbn. destruct (next_fault fl) as [[] fl']; [done|].
  destruct (f w) as [[b w']|]; [|done]. by intros [= -> <-].
Qed.
Lemma sound_query {A} what (f : Db -> A) : fault_sound (query what f).
Proof. apply sound_statement. Qed.
Lemma sound_commit what : fault_sound (commit what).
Proof. intros d w fl a t. unfold commit. cbn. destruct (next_fault fl) as [[] fl']; naive_solver. Qed.
Lemma sound_for_each {A} (f : A -> M (txn Db) E unit) l :
  (forall a, fault_sound (f a)) -> fault_sound (for_each_m f l).
Proof. intros Hf. induction l as [|a l IH]; [apply sound_ret|]. by apply sound_bind. Qed.
(** A guard that maps both a failed query and an unexpected row to an error. *)
Lemma sound_guard {A B} (m : M (txn Db) E (option A)) (test : A -> bool) (k : M (txn Db) E B) e :
  fault_sound m -> fault_sound k ->
  fault_sound (row ← attempt m; match row with
                                | Ok (Some a) => if test a then k else fail e
                                | _ => fail e
                                end).
Proof.
  intros Hm Hk d w fl b t. unfold mbind, M_bind, attempt.
  destruct (m (mk_txn d w fl)) as [[[a|]|e1] [d1 w1 fl1]] eqn:E'; try done.
  rewrite (Hm _ _ _ _ _ E'). cbn. destruct (test a); [|done]. apply Hk.
Qed.
Lemma sound_ext {A} (m m' : M (txn Db) E A) : (forall t, m t = m' t) -> fault_sound m' -> fault_sound m.
Proof. intros E' H d w fl a t. rewrite !E'. apply H. Qed.

(** A call under faults either fails and changes nothing, or does what it does
    without faults. *)
Definition fault_safe {A} (m : M (world Db) E A) : Prop := forall d fl r w,
  m (mk_world d fl) = (r, w) -> (is_err r = true /\ w_db w = d) \/
  m (mk_world d []) = (r, mk_world (w_db w) []).

Lemma safe_lift {A B} (r : result E A) (m : A -> M (world Db) E B) :
  (forall a, fault_safe (m a)) -> fault_safe (lift r ≫= m).
Proof.
  intros H d fl b w. unfold mbind, M_bind, lift. destruct r as [a|e]; [apply H|].
  intros [= <- <-]. by left.
Qed.
Lemma safe_then {A B} (m : M (world Db) E A) (f : A -> result E B) :
  fault_safe m -> fault_safe (a ← m; lift (f a)).
Proof.
  intros Hm d fl b w. unfold mbind, M_bind. destruct (m (mk_world d fl)) as [[a|e] w1] eqn:E';
    intros [= <- <-]; destruct (Hm _ _ _ _ E') as [[H1 H2]|E2]; try done.
  - rewrite E2. unfold lift. by right.
  - by left.
  - rewrite E2. by right.
Qed.
Lemma safe_reply {A B} (m : M (world Db) E A) (f : A -> B) : fault_safe m -> fault_safe (a ← m; mret (f a)).
Proof. intros Hm. by apply (safe_then m (fun a => Ok (f a))). Qed.

Lemma safe_transaction {A} what (body : M (txn Db) E A) :
  fault_sound body -> preserves_on_error same_durable body -> fault_safe (transaction what body).
Proof.
  intros Hs Hq d fl r w. unfold transaction. cbn.
  destruct (next_fault fl) as [[] fl']; [intros [= <- <-]; by left|].
  destruct (body (mk_txn d d fl')) as [[a|e] t] eqn:E'; intros [= <- <-].
  - right. by rewrite (Hs _ _ _ _ _ E').
  - left. split; [done|]. by apply Hq in E'.
Qed.

(** Errors before the final commit leave the durable database alone. *)
Lemma quiet_then_commit {A} what (m : M (txn Db) E A) :
  preserves same_durable m -> preserves_on_error same_durable (a ← m; _ ← commit what; mret a).
Proof.
  intros Hm. apply on_error_bind; [apply _|done|]. intros a.
  apply on_error_then; [apply commit_quiet_on_error|]. intros []. apply never_fails_ret.
Qed.

(** A refined call under faults either fails with the tables untouched, or
    returns the specification's result and represents its new state. *)
Lemma refined_under_faults {V A} (represents : Db -> V -> Prop) (m : M (world Db) E A) (spec : M V E A) d s fl r w :
  implements represents m spec -> fault_safe m -> represents d s -> m (mk_world d fl) = (r, w) ->
  (is_err r = true /\ w_db w = d) \/ (r = (spec s).1 /\ represents (w_db w) (spec s).2).
Proof.
  intros Hi Hf Hr E'. destruct (Hf d fl r w E') as [H|H]; [by left|right].
  destruct (Hi d s Hr) as (d' & E2 & R). rewrite E2 in H. by simplify_eq/=.
Qed.
End Faults.

Create HintDb sound.
#[export] Hint Resolve sound_ret sound_fail sound_lift sound_statement sound_query sound_commit : sound.
Ltac sound := repeat first
  [ apply sound_bind | apply sound_for_each | progress intros | solve [eauto with sound] | case_match ].

(** Sequencing in front of a body that commits at its end. *)
Ltac commits_last := repeat first
  [ apply quiet_then_commit; solve [eauto with go]
  | apply on_error_of_preserves; solve [eauto with go]
  | apply commit_quiet_on_error
  | apply on_error_then; [apply commit_quiet_on_error|intros []; apply never_fails_ret]
  | apply on_error_bind; [apply _|solve [quiet]|intros]
  | case_match ].

(** ** Histories of calls *)

Section Histories.
Context {C R E : Type}.

(** A history: the calls in order, each with its result; an error does not
    stop the callers from calling again. *)
Fixpoint history {S} (run : C -> M S E R) (cs : list C) (s : S) : list (result E R) * S :=
  match cs with
  | [] => ([], s)
  | c :: cs' => let '(r, s1) := run c s in let '(rs, s2) := history run cs' s1 in (r :: rs, s2)
  end.

Context {Db V : Type} `{!DbError E} (represents : Db -> V -> Prop)
  (run : C -> M (world Db) E R) (spec : C -> M V E R).
Context (admissible : C -> Prop)
  (refines : forall c, admissible c -> implements represents (run c) (spec c)) (safe : forall c, fault_safe (run c)).

Lemma history_implements cs d s : Forall admissible cs -> represents d s ->
  exists d', history run cs (mk_world d []) = ((history spec cs s).1, mk_world d' []) /\
             represents d' (history spec cs s).2.
Proof using refines.
  intros Hc. revert d s. induction Hc as [|c cs Hc _ IH]; intros d s Hr; [by exists d|]. cbn.
  destruct (refines c Hc d s Hr) as (d1 & E' & R1). rewrite E'.
  destruct (spec c s) as [r s1]; cbn in *.
  destruct (IH d1 s1 R1) as (d2 & E2 & R2). rewrite E2.
  destruct (history spec cs s1) as [rs s2]; cbn in *. by exists d2.
Qed.

(** Each call runs with its own schedule of faults. *)
Fixpoint faulty_history (calls : list (C * list bool)) (d : Db) : list (result E R) * Db :=
  match calls with
  | [] => ([], d)
  | (c, fl) :: calls' =>
      let '(r, w) := run c (mk_world d fl) in
      let '(rs, d') := faulty_history calls' (w_db w) in (r :: rs, d')
  end.

Definition succeeded (p : C * result E R) : bool := is_ok p.2.

(** The successful calls of a faulty history, with some that failed, are a
    fault-free history of the specification. *)
Definition effective_history (calls : list (C * list bool)) (rs : list (result E R)) (s : V) (d' : Db)
    (effective : list (C * result E R)) : Prop :=
  sublist effective (zip calls.*1 rs) /\
  List.filter succeeded effective = List.filter succeeded (zip calls.*1 rs) /\
  (history spec effective.*1 s).1 = effective.*2 /\
  represents d' (history spec effective.*1 s).2.

Lemma faulty_history_effective calls d s rs d' :
  Forall admissible calls.*1 -> represents d s -> faulty_history calls d = (rs, d') ->
  exists effective, effective_history calls rs s d' effective.
Proof using refines safe.
  unfold effective_history. revert d s rs.
  induction calls as [|[c fl] calls IH]; intros d s rs Hc Hr E'; cbn in E'.
  { simplify_eq. by exists []. }
  cbn in Hc. apply Forall_cons in Hc as [Hc0 Hc].
  destruct (run c (mk_world d fl)) as [r w] eqn:Ec.
  destruct (faulty_history calls (w_db w)) as [rs1 d1] eqn:E1. simplify_eq. cbn.
  destruct (refined_under_faults _ _ _ _ _ _ _ _ (refines c Hc0) (safe c) Hr Ec) as [[Herr Hw]|[Hres Hr']].
  - rewrite Hw in E1. destruct (IH _ _ _ Hc Hr E1) as (ef & H1 & H2 & H3 & H4).
    exists ef. split_and!; try done; [by apply sublist_cons|].
    unfold succeeded at 2; cbn. unfold is_err in Herr. apply negb_true_iff in Herr. by rewrite Herr.
  - destruct (IH _ _ _ Hc Hr' E1) as (ef & H1 & H2 & H3 & H4).
    exists ((c, r) :: ef). cbn. destruct (spec c s) as [r' s1] eqn:Es; cbn in *. subst r'.
    destruct (history spec ef.*1 s1) as [rs2 s2]; cbn in *.
    split_and!; [by apply sublist_skip|by rewrite H2|by rewrite H3|done].
Qed.
End Histories.

(** Calls counted by a test that only successful calls pass. *)
Definition count {A} (f : A -> bool) (l : list A) : Z := blen (List.filter f l).

Lemma count_cons {A} (f : A -> bool) a l : count f (a :: l) = (if f a then 1 else 0) + count f l.
Proof. unfold count, blen. cbn. destruct (f a); cbn; lia. Qed.

Lemma filter_through {A} (f g : A -> bool) l l' : (forall a, f a = true -> g a = true) ->
  List.filter g l = List.filter g l' -> List.filter f l = List.filter f l'.
Proof.
  intros Hs Hl. assert (Hff : forall k, List.filter f k = List.filter f (List.filter g k)).
  { induction k as [|p k IH]; [done|]. cbn. destruct (f p) eqn:Ep.
    - rewrite (Hs p Ep). cbn. by rewrite Ep, IH.
    - destruct (g p); cbn; [by rewrite Ep|done]. }
  by rewrite (Hff l), (Hff l'), Hl.
Qed.
