(* ===== verification/JobsTypes.v ===== *)
(** The data of durable operations and the validators that guard the store
    and the worker (internal/jobs/types.go, internal/jobs/errors.go). *)
From S2P Require Import Prelude.
From S2P Require Import GoText.
From S2P Require Import GoTime.

#[local] Open Scope string_scope.
#[local] Open Scope Z_scope.

Definition maximumOutputBytes : Z := 262144.
Definition maximumItemResults : Z := 256.
Definition maximumItemNameBytes : Z := 255.
Definition maximumCertificateCount : Z := 10000.
Definition maximumCodeBytes : Z := 64.
Definition sha256HexBytes : Z := 64.

(** Each enumeration is a Go string type: the named constants, and any other
    text a conversion from the database could produce. *)
Inductive Kind := KindManual | KindScheduled | KindOther (text : string).

Inductive State :=
| StateQueued | StateRunning | StateSucceeded | StateFailed | StatePartial
| StateNotAttempted | StateTimedOut | StateInterrupted | StateIncompatible
| StateAmbiguous | StateOther (text : string).

(** The empty phase is the one terminal rows carry. *)
Inductive Phase :=
| PhaseQueued | PhaseRevalidating | PhaseExecuting | PhaseRefreshingInventory
| PhaseNone | PhaseOther (text : string).

Inductive InventoryState :=
| InventoryPending | InventoryRefreshed | InventoryUnavailable | InventoryOther (text : string).

Inductive ItemState :=
| ItemCompleted | ItemFailed | ItemNotAttempted | ItemAmbiguous | ItemOther (text : string).

#[export] Instance Kind_eq_dec : EqDecision Kind.
Proof. solve_decision. Defined.
#[export] Instance State_eq_dec : EqDecision State.
Proof. solve_decision. Defined.
#[export] Instance Phase_eq_dec : EqDecision Phase.
Proof. solve_decision. Defined.
#[export] Instance InventoryState_eq_dec : EqDecision InventoryState.
Proof. solve_decision. Defined.
#[export] Instance ItemState_eq_dec : EqDecision ItemState.
Proof. solve_decision. Defined.

Record RequestContext := mk_RequestContext {
  RuntimeIdentity : string;
  RuntimeManifestID : string;
  ConfigurationPath : string;
  StoragePath : string
}.

Record RequestItem := mk_RequestItem {
  ri_Name : string;
  ri_Account : string;
  ri_CA : string;
  ri_ChallengeKind : string;
  ri_ChallengeMode : string
}.

Record Request := mk_Request {
  ReviewedEvidenceSHA256 : string;
  req_Items : list string;
  req_Context : RequestContext;
  req_Details : list RequestItem
}.

(** [CertificateCount] is a pointer: [None] is [nil]. *)
Record InventoryResult := mk_InventoryResult {
  inv_State : InventoryState;
  inv_Code : string;
  CertificateCount : option Z
}.

Record ItemResult := mk_ItemResult {
  item_Name : string;
  item_State : ItemState;
  item_Code : string
}.

Record Result := mk_Result {
  res_State : State;
  res_Code : string;
  res_MayHaveChanged : bool;
  res_Inventory : InventoryResult;
  res_Output : string;
  res_OutputTruncated : bool;
  res_Items : list ItemResult
}.

Record Operation := mk_Operation {
  op_ID : string;
  op_Kind : Kind;
  op_State : State;
  op_Phase : Phase;
  RequestedAt : time;
  StartedAt : time;
  FinishedAt : time;
  UpdatedAt : time;
  op_Code : string;
  op_MayHaveChanged : bool;
  op_Inventory : InventoryResult;
  op_Output : string;
  op_OutputTruncated : bool;
  op_Items : list ItemResult;
  op_Request : Request
}.

#[export] Instance RequestContext_eq_dec : EqDecision RequestContext.
Proof. solve_decision. Defined.
#[export] Instance RequestItem_eq_dec : EqDecision RequestItem.
Proof. solve_decision. Defined.
#[export] Instance ItemResult_eq_dec : EqDecision ItemResult.
Proof. solve_decision. Defined.
#[export] Instance InventoryResult_eq_dec : EqDecision InventoryResult.
Proof. solve_decision. Defined.

Definition empty_context : RequestContext := mk_RequestContext "" "" "" "".

(** The sentinel errors; [ErrOther] stands for any other error, by its text. *)
Inductive Error :=
| ErrActive | ErrNotFound | ErrNoQueued | ErrInvalid (detail : string)
| ErrStateChanged | ErrWorkerRunning | ErrOther (text : string).

(** ** Validators *)

Abbreviation check := (result string unit).

Definition validateItemName (value : string) : check :=
  _ ← reject_if (String.eqb value "" || (maximumItemNameBytes <? slen value)
                 || negb (utf8_valid (to_bytes value))) "operation item name is invalid";
  reject_if (negb (no_control value)) "operation item name contains a control character".

Definition validRequestText (value : string) (maximum : Z) : bool :=
  negb (String.eqb value "") && (slen value <=? maximum)
  && utf8_valid (to_bytes value) && no_control value.

Definition validRequestPath (value : string) : bool :=
  validRequestText value 4095 && is_abs (to_bytes value)
  && bool_decide (clean_rooted (to_bytes value) = to_bytes value).

(** The loop over the reviewed items: each name is checked before the
    duplicate test of that same name. *)
Fixpoint validate_request_items (seen : list string) (items : list string) : check :=
  match items with
  | [] => Ok tt
  | item :: items' =>
      _ ← validateItemName item;
      _ ← reject_if (bool_decide (item ∈ seen)) "reviewed operation item is duplicated";
      validate_request_items (item :: seen) items'
  end.

Definition valid_request_detail (p : RequestItem * string) : bool :=
  let '(detail, item) := p in
  String.eqb (ri_Name detail) item && validRequestText (ri_Account detail) 64
  && validRequestText (ri_CA detail) 255 && validRequestText (ri_ChallengeKind detail) 32
  && validRequestText (ri_ChallengeMode detail) 64.

Definition validateRequest (request : Request) : check :=
  _ ← reject_if (negb (slen (ReviewedEvidenceSHA256 request) =? sha256HexBytes))
        "reviewed evidence digest is invalid";
  _ ← reject_if (negb (bool_decide (hex_decode_len (ReviewedEvidenceSHA256 request)
                                    = Some (sha256HexBytes / 2))
                       && no_upper (ReviewedEvidenceSHA256 request)))
        "reviewed evidence digest is invalid";
  _ ← reject_if ((blen (req_Items request) =? 0) || (maximumItemResults <? blen (req_Items request)))
        "reviewed operation items exceed their bound";
  _ ← validate_request_items [] (req_Items request);
  if bool_decide (req_Context request = empty_context) && (blen (req_Details request) =? 0)
  then Ok tt
  else
    let ctx := req_Context request in
    _ ← reject_if (negb (validRequestText (RuntimeIdentity ctx) 64)
                   || negb (validRequestText (RuntimeManifestID ctx) 128)
                   || negb (validRequestPath (ConfigurationPath ctx))
                   || negb (validRequestPath (StoragePath ctx))
                   || negb (blen (req_Details request) =? blen (req_Items request)))
          "reviewed operation context is invalid";
    reject_if (negb (forallb valid_request_detail (zip (req_Details request) (req_Items request))))
      "reviewed operation integration is invalid".

Definition State_active (state : State) : bool :=
  match state with StateQueued | StateRunning => true | _ => false end.

Definition State_terminal (state : State) : bool :=
  match state with
  | StateSucceeded | StateFailed | StatePartial | StateNotAttempted
  | StateTimedOut | StateInterrupted | StateIncompatible | StateAmbiguous => true
  | _ => false
  end.

Definition Operation_Active (operation : Operation) : bool := State_active (op_State operation).
Definition Operation_Terminal (operation : Operation) : bool := State_terminal (op_State operation).

Definition validPhaseTransition (from to : Phase) : bool :=
  match from with
  | PhaseRevalidating =>
      bool_decide (to = PhaseExecuting) || bool_decide (to = PhaseRefreshingInventory)
  | PhaseExecuting => bool_decide (to = PhaseRefreshingInventory)
  | _ => false
  end.

Definition validateID (value : string) : check :=
  _ ← reject_if (negb (slen value =? 32) || negb (no_upper value))
        "operation ID is not canonical lowercase hexadecimal";
  reject_if (negb (bool_decide (hex_decode_len value = Some 16)))
    "operation ID is not canonical lowercase hexadecimal".

Definition code_rune (r : Z) : bool :=
  ((97 <=? r) && (r <=? 122)) || ((48 <=? r) && (r <=? 57)) || (r =? 95).

Definition validateCode (value : string) (required : bool) : check :=
  match to_bytes value with
  | [] => reject_if required "stable code is required"
  | c :: _ =>
      _ ← reject_if ((maximumCodeBytes <? slen value) || negb (is_lower_ascii c))
            "stable code is invalid";
      reject_if (negb (forallb code_rune (runes (to_bytes value)))) "stable code is invalid"
  end.

Definition validateTime (value : time) (required : bool) : check :=
  if is_zero value then reject_if required "timestamp is required"
  else reject_if (negb (t_utc value) || negb (bool_decide (value = round0 value))
                  || (year_of value <? 1) || (9999 <? year_of value))
         "timestamp is not a persistable UTC instant".

Definition validateOutput (value : string) : check :=
  _ ← reject_if ((maximumOutputBytes <? slen value) || negb (utf8_valid (to_bytes value)))
        "redacted output exceeds its text bound";
  reject_if (negb (forallb (fun r => (r =? 10) || (r =? 13) || (r =? 9) || negb (is_control r))
                           (runes (to_bytes value))))
    "redacted output contains an unsafe control character".

Definition validateInventory (value : InventoryResult) (allowPending : bool) : check :=
  match inv_State value with
  | InventoryPending =>
      reject_if (negb allowPending || negb (String.eqb (inv_Code value) "")
                 || bool_decide (is_Some (CertificateCount value)))
        "pending inventory result is inconsistent"
  | InventoryRefreshed =>
      _ ← map_err (append "inventory code: ") (validateCode (inv_Code value) true);
      reject_if (match CertificateCount value with
                 | None => true
                 | Some n => (n <? 0) || (maximumCertificateCount <? n)
                 end) "refreshed inventory count is invalid"
  | InventoryUnavailable =>
      _ ← map_err (append "inventory code: ") (validateCode (inv_Code value) true);
      reject_if (bool_decide (is_Some (CertificateCount value)))
        "unavailable inventory cannot contain a certificate count"
  | InventoryOther _ => Err "inventory state is invalid"
  end.

Definition known_item_state (s : ItemState) : bool :=
  match s with ItemOther _ => false | _ => true end.

Fixpoint validate_items_loop (seen : list string) (items : list ItemResult) : check :=
  match items with
  | [] => Ok tt
  | item :: items' =>
      _ ← validateItemName (item_Name item);
      _ ← reject_if (bool_decide (item_Name item ∈ seen)) "operation item name is duplicated";
      _ ← reject_if (negb (known_item_state (item_State item))) "operation item state is invalid";
      _ ← map_err (append "operation item code: ") (validateCode (item_Code item) true);
      validate_items_loop (item_Name item :: seen) items'
  end.

Definition validateItems (items : list ItemResult) : check :=
  _ ← reject_if (maximumItemResults <? blen items) "operation item results exceed their bound";
  validate_items_loop [] items.

Definition validateExecutorResult (r : Result) : check :=
  _ ← reject_if (negb (State_terminal (res_State r))) "executor result is not terminal";
  _ ← map_err (append "operation code: ") (validateCode (res_Code r) true);
  _ ← validateInventory (res_Inventory r) false;
  _ ← validateOutput (res_Output r);
  validateItems (res_Items r).
