(* ===== verification/JobsStore.v ===== *)
(** The durable store of the one latest operation (internal/jobs/store.go)
    over the SQLite tables of migrations 008, 009 and 010.

    Each table is a list of rows (the singleton table an option); each SQL
    statement of the source is one function on the tables, which returns
    [None] where the schema's constraints reject the row.  The store methods
    are transactions (Effects) whose database calls may fail. *)
From S2P Require Import Prelude.
From S2P Require Import GoText.
From S2P Require Import GoTime.
From S2P Require Import Effects.
From S2P Require Import JobsTypes.

#[local] Open Scope string_scope.
#[local] Open Scope Z_scope.

#[export] Instance jobs_db_error : DbError Error := ErrOther.

(** ** Tables *)

Record LatestRow := mk_LatestRow {
  c_operation_id : string;
  c_reviewed_evidence_sha256 : string;
  c_kind : string;
  c_state : State;
  c_phase : Phase;
  c_requested_at_utc : bytes;
  c_started_at_utc : bytes;
  c_finished_at_utc : bytes;
  c_updated_at_utc : bytes;
  c_reason_code : string;
  c_may_have_changed : Z;
  c_inventory_state : InventoryState;
  c_inventory_code : string;
  c_redacted_output : string;
  c_output_truncated : Z;
  c_inventory_certificate_count : option Z;
  c_request_kind : Kind;
  c_report_context : RequestContext
}.

Record RequestedRow := mk_RequestedRow {
  q_operation_id : string; q_item_ordinal : Z; q_detail : RequestItem }.

Record ResultRow := mk_ResultRow {
  r_operation_id : string; r_item_ordinal : Z; r_item : ItemResult }.

Record Db := mk_Db {
  operation_latest : option LatestRow;
  operation_requested_item : list RequestedRow;
  operation_item_result : list ResultRow
}.

Definition empty_db : Db := mk_Db None [] [].

(** ** Constraints of the schema *)

Definition hex_lower (c : ascii) : bool := is_digit c || in_range "a" "f" c.
Definition code_char (c : ascii) : bool :=
  in_range "a" "z" c || is_digit c || Ascii.eqb c "_".
(** [column NOT GLOB '*[^class]*'] *)
Definition all_chars (class : ascii -> bool) (s : string) : bool := forallb class (to_bytes s).
Definition len_in (lo hi : Z) (l : bytes) : bool := (lo <=? blen l) && (blen l <=? hi).
Definition optional_stamp (l : bytes) : bool := (blen l =? 0) || len_in 20 30 l.
Definition is_bit (n : Z) : bool := (n =? 0) || (n =? 1).
Definition empty (l : bytes) : bool := (blen l =? 0).

Definition known_state (s : State) : bool := match s with StateOther _ => false | _ => true end.
Definition known_phase (p : Phase) : bool := match p with PhaseOther _ => false | _ => true end.
Definition known_inventory (s : InventoryState) : bool :=
  match s with InventoryOther _ => false | _ => true end.

Definition context_check (c : RequestContext) : bool :=
  (slen (RuntimeIdentity c) <=? 64) && (slen (RuntimeManifestID c) <=? 128)
  && (slen (ConfigurationPath c) <=? 4095) && (slen (StoragePath c) <=? 4095).

Definition nothing_reported (r : LatestRow) : bool :=
  String.eqb (c_reason_code r) "" && bool_decide (c_inventory_state r = InventoryPending)
  && String.eqb (c_inventory_code r) "" && String.eqb (c_redacted_output r) ""
  && (c_output_truncated r =? 0) && bool_decide (c_inventory_certificate_count r = None).

(** The last table constraint: which columns go together in which state. *)
Definition lifecycle_check (r : LatestRow) : bool :=
  match c_state r with
  | StateQueued =>
      bool_decide (c_phase r = PhaseQueued) && empty (c_started_at_utc r)
      && empty (c_finished_at_utc r) && (c_may_have_changed r =? 0) && nothing_reported r
  | StateRunning =>
      match c_phase r with
      | PhaseRevalidating | PhaseExecuting | PhaseRefreshingInventory => true
      | _ => false
      end && negb (empty (c_started_at_utc r)) && empty (c_finished_at_utc r) && nothing_reported r
  | _ =>
      bool_decide (c_phase r = PhaseNone) && negb (empty (c_started_at_utc r))
      && negb (empty (c_finished_at_utc r)) && negb (String.eqb (c_reason_code r) "")
      && match c_inventory_state r with
         | InventoryPending =>
             String.eqb (c_inventory_code r) ""
             && bool_decide (c_inventory_certificate_count r = None)
             && (bool_decide (c_state r = StateInterrupted) || bool_decide (c_state r = StateAmbiguous))
         | InventoryRefreshed =>
             negb (String.eqb (c_inventory_code r) "")
             && bool_decide (is_Some (c_inventory_certificate_count r))
         | InventoryUnavailable =>
             negb (String.eqb (c_inventory_code r) "")
             && bool_decide (c_inventory_certificate_count r = None)
         | InventoryOther _ => false
         end
  end.

Definition row_check (r : LatestRow) : bool :=
  (slen (c_operation_id r) =? 32) && all_chars hex_lower (c_operation_id r)
  && (slen (c_reviewed_evidence_sha256 r) =? 64) && all_chars hex_lower (c_reviewed_evidence_sha256 r)
  && String.eqb (c_kind r) "manual"
  && known_state (c_state r) && known_phase (c_phase r)
  && len_in 20 30 (c_requested_at_utc r) && optional_stamp (c_started_at_utc r)
  && optional_stamp (c_finished_at_utc r) && len_in 20 30 (c_updated_at_utc r)
  && (slen (c_reason_code r) <=? 64) && all_chars code_char (c_reason_code r)
  && is_bit (c_may_have_changed r) && known_inventory (c_inventory_state r)
  && (slen (c_inventory_code r) <=? 64) && all_chars code_char (c_inventory_code r)
  && (slen (c_redacted_output r) <=? 262144) && is_bit (c_output_truncated r)
  && match c_inventory_certificate_count r with
     | None => true
     | Some n => (0 <=? n) && (n <=? 10000)
     end
  && match c_request_kind r with KindOther _ => false | _ => true end
  && context_check (c_report_context r) && lifecycle_check r.

Definition requested_check (q : RequestedRow) : bool :=
  (0 <=? q_item_ordinal q) && (q_item_ordinal q <=? 255)
  && (1 <=? slen (ri_Name (q_detail q))) && (slen (ri_Name (q_detail q)) <=? 255)
  && (slen (ri_Account (q_detail q)) <=? 64) && (slen (ri_CA (q_detail q)) <=? 255)
  && (slen (ri_ChallengeKind (q_detail q)) <=? 32) && (slen (ri_ChallengeMode (q_detail q)) <=? 64).

Definition result_check (r : ResultRow) : bool :=
  (0 <=? r_item_ordinal r) && (r_item_ordinal r <=? 255)
  && (1 <=? slen (item_Name (r_item r))) && (slen (item_Name (r_item r)) <=? 255)
  && known_item_state (item_State (r_item r))
  && (1 <=? slen (item_Code (r_item r))) && (slen (item_Code (r_item r)) <=? 64)
  && all_chars code_char (item_Code (r_item r)).

(** ** Statements *)

(** [INSERT INTO operation_latest] *)
Definition insert_latest (row : LatestRow) (d : Db) : option (unit * Db) :=
  match operation_latest d with
  | Some _ => None
  | None =>
      if row_check row
      then Some (tt, mk_Db (Some row) (operation_requested_item d) (operation_item_result d))
      else None
  end.

(** [DELETE FROM operation_latest WHERE singleton_id = 1], with the cascades. *)
Definition delete_latest (d : Db) : option (unit * Db) :=
  match operation_latest d with
  | None => Some (tt, d)
  | Some r =>
      Some (tt, mk_Db None
        (List.filter (fun q => negb (String.eqb (q_operation_id q) (c_operation_id r)))
           (operation_requested_item d))
        (List.filter (fun q => negb (String.eqb (r_operation_id q) (c_operation_id r)))
           (operation_item_result d)))
  end.

Definition references (d : Db) (id : string) : bool :=
  match operation_latest d with Some r => String.eqb (c_operation_id r) id | None => false end.

(** [INSERT INTO operation_requested_item] *)
Definition insert_requested (row : RequestedRow) (d : Db) : option (unit * Db) :=
  let clash q := String.eqb (q_operation_id q) (q_operation_id row)
    && ((q_item_ordinal q =? q_item_ordinal row)
        || String.eqb (ri_Name (q_detail q)) (ri_Name (q_detail row))) in
  if references d (q_operation_id row) && requested_check row
     && negb (existsb clash (operation_requested_item d))
  then Some (tt, mk_Db (operation_latest d) (operation_requested_item d ++ [row])
                   (operation_item_result d))
  else None.

(** [INSERT INTO operation_item_result] *)
Definition insert_result (row : ResultRow) (d : Db) : option (unit * Db) :=
  let clash q := String.eqb (r_operation_id q) (r_operation_id row)
    && ((r_item_ordinal q =? r_item_ordinal row)
        || String.eqb (item_Name (r_item q)) (item_Name (r_item row))) in
  if references d (r_operation_id row) && result_check row
     && negb (existsb clash (operation_item_result d))
  then Some (tt, mk_Db (operation_latest d) (operation_requested_item d)
                   (operation_item_result d ++ [row]))
  else None.

(** [UPDATE operation_latest SET ... WHERE singleton_id = 1 AND ...]: the
    number of rows affected. *)
Definition update_latest (where_ : LatestRow -> bool) (set_ : LatestRow -> LatestRow) (d : Db)
  : option (Z * Db) :=
  match operation_latest d with
  | Some r =>
      if where_ r then
        if row_check (set_ r)
        then Some (1, mk_Db (Some (set_ r)) (operation_requested_item d) (operation_item_result d))
        else None
      else Some (0, d)
  | None => Some (0, d)
  end.

(** [SELECT ... FROM operation_requested_item WHERE operation_id = ? ORDER BY item_ordinal] *)
Definition select_requested (id : string) (d : Db) : list RequestItem :=
  q_detail <$> sort_by (fun a b => q_item_ordinal a <=? q_item_ordinal b)
    (List.filter (fun q => String.eqb (q_operation_id q) id) (operation_requested_item d)).

(** [SELECT ... FROM operation_item_result WHERE operation_id = ? ORDER BY item_ordinal] *)
Definition select_results (id : string) (d : Db) : list ItemResult :=
  r_item <$> sort_by (fun a b => r_item_ordinal a <=? r_item_ordinal b)
    (List.filter (fun r => String.eqb (r_operation_id r) id) (operation_item_result d)).

(** ** Reading the stored operation *)

Definition formatTime (value : time) : bytes := format_rfc3339 value.

Definition parseTime (value : bytes) (required : bool) : result string time :=
  match value with
  | [] => if required then Err "timestamp is not canonical UTC RFC 3339 text" else Ok zero_time
  | _ =>
      match parse_rfc3339 value with
      | None => Err "timestamp is not canonical UTC RFC 3339 text"
      | Some parsed =>
          if negb (t_utc parsed) || negb (bool_decide (format_rfc3339 parsed = value))
          then Err "timestamp is not canonical UTC RFC 3339 text"
          else _ ← validateTime parsed true; Ok parsed
      end
  end.

Definition storedBoolean (value : Z) : result string bool :=
  if value =? 0 then Ok false else if value =? 1 then Ok true else Err "stored Boolean is invalid".

Fixpoint validateResultScope_loop (requested : list string) (results : list ItemResult) : check :=
  match requested, results with
  | name :: requested', item :: results' =>
      if String.eqb (item_Name item) name then validateResultScope_loop requested' results'
      else Err "operation result item differs from reviewed scope"
  | _, _ => Ok tt
  end.
Definition validateResultScope (requested : list string) (results : list ItemResult) : check :=
  _ ← reject_if (negb (blen requested =? blen results)) "operation result does not cover reviewed items";
  validateResultScope_loop requested results.

Definition validate_queued (o : Operation) : check :=
  reject_if (negb (bool_decide (op_Phase o = PhaseQueued)) || negb (is_zero (StartedAt o))
             || negb (is_zero (FinishedAt o)) || negb (String.eqb (op_Code o) "")
             || op_MayHaveChanged o || negb (String.eqb (op_Output o) "") || op_OutputTruncated o
             || negb (blen (op_Items o) =? 0)
             || negb (bool_decide (inv_State (op_Inventory o) = InventoryPending))
             || is_err (validateInventory (op_Inventory o) true))
    "queued operation is inconsistent".

Definition validate_running (o : Operation) : check :=
  _ ← reject_if (negb (bool_decide (op_Phase o = PhaseRevalidating))
                 && negb (bool_decide (op_Phase o = PhaseExecuting))
                 && negb (bool_decide (op_Phase o = PhaseRefreshingInventory)))
        "running operation phase is invalid";
  reject_if (is_err (validateTime (StartedAt o) true) || negb (is_zero (FinishedAt o))
             || negb (String.eqb (op_Code o) "") || negb (String.eqb (op_Output o) "")
             || op_OutputTruncated o || negb (blen (op_Items o) =? 0)
             || negb (bool_decide (inv_State (op_Inventory o) = InventoryPending))
             || is_err (validateInventory (op_Inventory o) true))
    "running operation is inconsistent".

Definition may_stay_pending (s : State) : bool :=
  match s with StateInterrupted | StateAmbiguous => true | _ => false end.

Definition validate_terminal (o : Operation) : check :=
  _ ← reject_if (negb (bool_decide (op_Phase o = PhaseNone)) || is_err (validateTime (StartedAt o) true)
                 || is_err (validateTime (FinishedAt o) true) || is_err (validateCode (op_Code o) true)
                 || is_err (validateOutput (op_Output o)) || is_err (validateItems (op_Items o)))
        "terminal operation is inconsistent";
  let allowPending := may_stay_pending (op_State o) in
  _ ← validateInventory (op_Inventory o) allowPending;
  _ ← reject_if (bool_decide (inv_State (op_Inventory o) = InventoryPending) && negb allowPending)
        "terminal operation has invalid pending inventory";
  validateResultScope (req_Items (op_Request o)) (op_Items o).

Definition validate_order (o : Operation) : check :=
  _ ← reject_if (negb (is_zero (StartedAt o)) && before (StartedAt o) (RequestedAt o))
        "operation start precedes request";
  _ ← reject_if (negb (is_zero (FinishedAt o)) && before (FinishedAt o) (StartedAt o))
        "operation finish precedes start";
  reject_if (negb (is_zero (FinishedAt o)) && before (UpdatedAt o) (FinishedAt o))
    "operation update precedes finish".

Definition validateOperation (o : Operation) : check :=
  _ ← validateID (op_ID o);
  _ ← reject_if (negb (bool_decide (op_Kind o = KindManual)) && negb (bool_decide (op_Kind o = KindScheduled)))
        "operation kind is invalid";
  _ ← validateRequest (op_Request o);
  _ ← validateTime (RequestedAt o) true;
  _ ← validateTime (UpdatedAt o) true;
  _ ← reject_if (before (UpdatedAt o) (RequestedAt o)) "operation update precedes request";
  _ ← match op_State o with
      | StateQueued => validate_queued o
      | StateRunning => validate_running o
      | StateOther _ => Err "operation state is invalid"
      | _ => validate_terminal o
      end;
  validate_order o.

(** [persistedOperation.operation]: the columns of the singleton row and the
    two item tables, converted and validated. *)
Definition persisted_operation (r : LatestRow) (items : list string) (details : list RequestItem)
    (results : list ItemResult) : result string Operation :=
  requestedAt ← map_err (append "request time: ") (parseTime (c_requested_at_utc r) true);
  startedAt ← map_err (append "start time: ") (parseTime (c_started_at_utc r) false);
  finishedAt ← map_err (append "finish time: ") (parseTime (c_finished_at_utc r) false);
  updatedAt ← map_err (append "update time: ") (parseTime (c_updated_at_utc r) true);
  mayHaveChanged ← map_err (append "may-have-changed: ") (storedBoolean (c_may_have_changed r));
  outputTruncated ← map_err (append "output-truncated: ") (storedBoolean (c_output_truncated r));
  _ ← reject_if (match c_inventory_certificate_count r with
                 | Some n => (n <? 0) || (maximumCertificateCount <? n)
                 | None => false
                 end) "inventory certificate count is invalid";
  let operation := mk_Operation (c_operation_id r) (c_request_kind r) (c_state r) (c_phase r)
    requestedAt startedAt finishedAt updatedAt (c_reason_code r) mayHaveChanged
    (mk_InventoryResult (c_inventory_state r) (c_inventory_code r) (c_inventory_certificate_count r))
    (c_redacted_output r) outputTruncated results
    (mk_Request (c_reviewed_evidence_sha256 r) items (c_report_context r) details) in
  _ ← validateOperation operation;
  Ok operation.

Abbreviation Tx := (M (txn Db) Error).
Abbreviation Store := (M (world Db) Error).

Definition has_detail (d : RequestItem) : bool :=
  negb (String.eqb (ri_Account d) "") || negb (String.eqb (ri_CA d) "")
  || negb (String.eqb (ri_ChallengeKind d) "") || negb (String.eqb (ri_ChallengeMode d) "").

Definition requested_of (rows : list RequestItem) : list string * list RequestItem :=
  (ri_Name <$> rows, if existsb has_detail rows then rows else []).

Definition loadRequestedItems (id : string) : Tx (list string * list RequestItem) :=
  rows ← query "load reviewed operation items" (select_requested id);
  mret (requested_of rows).

Definition loadOperation : Tx Operation :=
  row ← query "load latest operation" operation_latest;
  match row with
  | None => fail ErrNotFound
  | Some r =>
      '(items, details) ← loadRequestedItems (c_operation_id r);
      results ← query "load operation item results" (select_results (c_operation_id r));
      lift (map_err (fun e => ErrInvalid ("persisted operation: " +:+ e))
              (persisted_operation r items details results))
  end.

(** ** Store operations *)

Definition invalid_if (c : check) : result Error unit := map_err ErrInvalid c.

Definition requireOneChanged (changed : Z) : Tx unit :=
  lift (reject_if (negb (changed =? 1)) ErrStateChanged).

Definition queued_row (id : string) (kind : Kind) (request : Request) (now : time) : LatestRow :=
  mk_LatestRow id (ReviewedEvidenceSHA256 request) "manual" StateQueued PhaseQueued
    (formatTime now) [] [] (formatTime now) "" 0 InventoryPending "" "" 0 None kind
    (req_Context request).

Definition blank_detail : RequestItem := mk_RequestItem "" "" "" "" "".
(** The row persisted for the reviewed item at an ordinal. *)
Definition requested_row (id : string) (request : Request) (p : Z * string) : RequestedRow :=
  let '(ordinal, item) := p in
  let detail := if blen (req_Details request) =? 0 then blank_detail
                else nth (Z.to_nat ordinal) (req_Details request) blank_detail in
  mk_RequestedRow id ordinal (mk_RequestItem item (ri_Account detail) (ri_CA detail)
    (ri_ChallengeKind detail) (ri_ChallengeMode detail)).

Definition EnqueueKind (id : string) (kind : Kind) (request : Request) (now : time) : Store Operation :=
  _ ← lift (invalid_if (validateID id));
  _ ← lift (reject_if (negb (bool_decide (kind = KindManual)) && negb (bool_decide (kind = KindScheduled)))
              (ErrInvalid "operation kind is invalid"));
  _ ← lift (invalid_if (validateRequest request));
  _ ← lift (invalid_if (validateTime now true));
  transaction "begin operation enqueue" (
    current ← query "inspect current operation" operation_latest;
    _ ← match current with
        | Some r =>
            if State_active (c_state r) || bool_decide (c_inventory_state r = InventoryPending)
            then fail ErrActive
            else statement "replace completed operation" delete_latest
        | None => mret tt
        end;
    _ ← statement "persist queued operation" (insert_latest (queued_row id kind request now));
    _ ← for_each_m (fun p => statement "persist reviewed operation item"
                              (insert_requested (requested_row id request p)))
          (indexed (req_Items request));
    operation ← loadOperation;
    _ ← commit "commit operation enqueue";
    mret operation).

Definition Enqueue (id : string) (request : Request) (now : time) : Store Operation :=
  EnqueueKind id KindManual request now.

Definition Latest : Store Operation :=
  transaction "begin latest operation read" (
    operation ← loadOperation;
    _ ← commit "finish latest operation read";
    mret operation).

Definition set_claimed (now : bytes) (r : LatestRow) : LatestRow :=
  mk_LatestRow (c_operation_id r) (c_reviewed_evidence_sha256 r) (c_kind r) StateRunning
    PhaseRevalidating (c_requested_at_utc r) now (c_finished_at_utc r) now (c_reason_code r)
    (c_may_have_changed r) (c_inventory_state r) (c_inventory_code r) (c_redacted_output r)
    (c_output_truncated r) (c_inventory_certificate_count r) (c_request_kind r) (c_report_context r).

Definition Claim (now : time) : Store Operation :=
  _ ← lift (invalid_if (validateTime now true));
  transaction "begin operation claim" (
    row ← query "inspect queued operation" operation_latest;
    match row with
    | Some r =>
        if bool_decide (c_state r = StateQueued) then
          let id := c_operation_id r in
          changed ← statement "claim queued operation"
            (update_latest (fun r => String.eqb (c_operation_id r) id
                                     && bool_decide (c_state r = StateQueued)
                                     && bool_decide (c_phase r = PhaseQueued))
               (set_claimed (formatTime now)));
          _ ← requireOneChanged changed;
          operation ← loadOperation;
          _ ← commit "commit operation claim";
          mret operation
        else fail ErrNoQueued
    | None => fail ErrNoQueued
    end).

Definition set_phase (phase : Phase) (now : bytes) (r : LatestRow) : LatestRow :=
  mk_LatestRow (c_operation_id r) (c_reviewed_evidence_sha256 r) (c_kind r) (c_state r) phase
    (c_requested_at_utc r) (c_started_at_utc r) (c_finished_at_utc r) now (c_reason_code r)
    (c_may_have_changed r) (c_inventory_state r) (c_inventory_code r) (c_redacted_output r)
    (c_output_truncated r) (c_inventory_certificate_count r) (c_request_kind r) (c_report_context r).

Definition UpdatePhase (id : string) (phase : Phase) (now : time) : Store unit :=
  _ ← lift (invalid_if (validateID id));
  _ ← lift (invalid_if (validateTime now true));
  transaction "begin operation phase update" (
    row ← query "inspect operation phase" (fun d =>
      match operation_latest d with
      | Some r => if String.eqb (c_operation_id r) id then Some (c_state r, c_phase r) else None
      | None => None
      end);
    match row with
    | None => fail ErrStateChanged
    | Some (currentState, currentPhase) =>
        if negb (bool_decide (currentState = StateRunning)) || negb (validPhaseTransition currentPhase phase)
        then fail ErrStateChanged
        else
          changed ← statement "persist operation phase"
            (update_latest (fun r => String.eqb (c_operation_id r) id
                                     && bool_decide (c_state r = StateRunning)
                                     && bool_decide (c_phase r = currentPhase))
               (set_phase phase (formatTime now)));
          _ ← requireOneChanged changed;
          commit "commit operation phase"
    end).

Definition set_finished (r0 : Result) (now : bytes) (r : LatestRow) : LatestRow :=
  mk_LatestRow (c_operation_id r) (c_reviewed_evidence_sha256 r) (c_kind r) (res_State r0) PhaseNone
    (c_requested_at_utc r) (c_started_at_utc r) now now (res_Code r0)
    (if res_MayHaveChanged r0 then 1 else 0) (inv_State (res_Inventory r0)) (inv_Code (res_Inventory r0))
    (res_Output r0) (if res_OutputTruncated r0 then 1 else 0) (CertificateCount (res_Inventory r0))
    (c_request_kind r) (c_report_context r).

Definition ambiguous_items (code : string) (requested : list string) : list ItemResult :=
  (fun name => mk_ItemResult name ItemAmbiguous code) <$> requested.

Definition result_row (id : string) (p : Z * ItemResult) : ResultRow := mk_ResultRow id p.1 p.2.

Definition insert_results (what id : string) (items : list ItemResult) : Tx unit :=
  for_each_m (fun p => statement what (insert_result (result_row id p)))
    (indexed items).

(** [SELECT state FROM operation_latest WHERE singleton_id = 1 AND operation_id = ?] *)
Definition state_of (id : string) (d : Db) : option State :=
  match operation_latest d with
  | Some r => if String.eqb (c_operation_id r) id then Some (c_state r) else None
  | None => None
  end.

Definition finish (id : string) (r0 : Result) (now : time) (allowPending : bool) : Store Operation :=
  _ ← lift (invalid_if (validateID id));
  _ ← lift (invalid_if (validateTime now true));
  _ ← lift (reject_if (allowPending &&
              (negb (State_terminal (res_State r0)) || is_err (validateCode (res_Code r0) true)
               || is_err (validateInventory (res_Inventory r0) true)
               || is_err (validateOutput (res_Output r0)) || is_err (validateItems (res_Items r0))))
              (ErrInvalid ""));
  transaction "begin operation finish" (
    (* the guard is evaluated before [err]: a failed query leaves the scanned
       state empty, so it too is reported as a changed state *)
    row ← attempt (query "inspect running operation" (state_of id));
    match row with
    | Ok (Some StateRunning) =>
        '(requested, _) ← loadRequestedItems id;
        let items := if allowPending && (blen (res_Items r0) =? 0)
                     then ambiguous_items (res_Code r0) requested else res_Items r0 in
        _ ← lift (invalid_if (validateResultScope requested items));
        changed ← statement "persist terminal operation"
          (update_latest (fun r => String.eqb (c_operation_id r) id
                                   && bool_decide (c_state r = StateRunning))
             (set_finished r0 (formatTime now)));
        _ ← requireOneChanged changed;
        _ ← insert_results "persist operation item result" id items;
        operation ← loadOperation;
        _ ← commit "commit terminal operation";
        mret operation
    | _ => fail ErrStateChanged
    end).

Definition Finish (id : string) (r0 : Result) (now : time) : Store Operation :=
  _ ← lift (invalid_if (validateExecutorResult r0));
  finish id r0 now false.

Definition pending_inventory : InventoryResult := mk_InventoryResult InventoryPending "" None.
Definition uncertain_result (state : State) (code : string) : Result :=
  mk_Result state code true pending_inventory "" false [].

Definition FinishUncertain (id : string) (state : State) (code : string) (now : time) : Store Operation :=
  _ ← lift (reject_if (negb (bool_decide (state = StateInterrupted))
                       && negb (bool_decide (state = StateAmbiguous))) (ErrInvalid ""));
  finish id (uncertain_result state code) now true.

Definition set_interrupted (now : bytes) (r : LatestRow) : LatestRow :=
  mk_LatestRow (c_operation_id r) (c_reviewed_evidence_sha256 r) (c_kind r) StateInterrupted PhaseNone
    (c_requested_at_utc r) (c_started_at_utc r) now now "service_restarted" 1 InventoryPending "" "" 0
    None (c_request_kind r) (c_report_context r).

(** The interrupted operation, or [None] when nothing was running. *)
Definition InterruptRunning (now : time) : Store (option Operation) :=
  _ ← lift (invalid_if (validateTime now true));
  transaction "begin interrupted operation recovery" (
    row ← query "inspect interrupted operation" operation_latest;
    match row with
    | Some r =>
        if bool_decide (c_state r = StateRunning) then
          let id := c_operation_id r in
          '(requested, _) ← loadRequestedItems id;
          changed ← statement "persist interrupted operation"
            (update_latest (fun r => String.eqb (c_operation_id r) id
                                     && bool_decide (c_state r = StateRunning))
               (set_interrupted (formatTime now)));
          _ ← requireOneChanged changed;
          _ ← insert_results "persist interrupted operation item" id
                (ambiguous_items "service_restarted" requested);
          operation ← loadOperation;
          _ ← commit "commit interrupted operation";
          mret (Some operation)
        else _ ← commit "finish interrupted operation inspection"; mret None
    | None => _ ← commit "finish interrupted operation inspection"; mret None
    end).

Definition PendingReconciliation : Store Operation :=
  operation ← Latest;
  lift (if negb (bool_decide (inv_State (op_Inventory operation) = InventoryPending))
           || (negb (bool_decide (op_State operation = StateInterrupted))
               && negb (bool_decide (op_State operation = StateAmbiguous)))
        then Err ErrNotFound else Ok operation).

Definition set_reconciled (inventory : InventoryResult) (now : bytes) (r : LatestRow) : LatestRow :=
  mk_LatestRow (c_operation_id r) (c_reviewed_evidence_sha256 r) (c_kind r) (c_state r) (c_phase r)
    (c_requested_at_utc r) (c_started_at_utc r) (c_finished_at_utc r) now (c_reason_code r)
    (c_may_have_changed r) (inv_State inventory) (inv_Code inventory) (c_redacted_output r)
    (c_output_truncated r) (CertificateCount inventory) (c_request_kind r) (c_report_context r).

Definition CompleteReconciliation (id : string) (inventory : InventoryResult) (now : time) : Store Operation :=
  _ ← lift (invalid_if (validateID id));
  _ ← lift (invalid_if (validateInventory inventory false));
  _ ← lift (invalid_if (validateTime now true));
  transaction "begin operation reconciliation" (
    changed ← statement "persist operation reconciliation"
      (update_latest (fun r => String.eqb (c_operation_id r) id
                               && (bool_decide (c_state r = StateInterrupted)
                                   || bool_decide (c_state r = StateAmbiguous))
                               && bool_decide (c_inventory_state r = InventoryPending))
         (set_reconciled inventory (formatTime now)));
    _ ← requireOneChanged changed;
    operation ← loadOperation;
    _ ← commit "commit operation reconciliation";
    mret operation).
