(* ===== verification/JobsFacts.v ===== *)
(** What the operation store promises, and the proof that its transactions
    keep the promise.

    The specification state is an [option Operation]: the store is a state
    machine on the one latest operation.  [represents] relates it to the three
    tables; every store method, run without database faults, returns what the
    specification returns and leaves tables that represent the specification's
    new state, on every branch, errors included. *)
From S2P Require Import Prelude.
From S2P Require Import GoText.
From S2P Require Import GoTime.
From S2P Require Import Effects.
From S2P Require Import Refine.
From S2P Require Import JobsTypes.
From S2P Require Import JobsStore.

#[local] Open Scope string_scope.
#[local] Open Scope Z_scope.

(** ** Specification *)

(** What loading an operation whose columns are well formed returns. *)
Definition admit_operation (o : Operation) : result Error Operation :=
  match validateOperation o with
  | Ok _ => Ok o
  | Err e => Err (ErrInvalid ("persisted operation: " +:+ e))
  end.

Definition queued_operation (id : string) (kind : Kind) (request : Request) (now : time) : Operation :=
  mk_Operation id kind StateQueued PhaseQueued now zero_time zero_time now "" false
    pending_inventory "" false [] request.

Definition claimed (now : time) (o : Operation) : Operation :=
  mk_Operation (op_ID o) (op_Kind o) StateRunning PhaseRevalidating (RequestedAt o) now (FinishedAt o)
    now (op_Code o) (op_MayHaveChanged o) (op_Inventory o) (op_Output o) (op_OutputTruncated o)
    (op_Items o) (op_Request o).

Definition advanced (phase : Phase) (now : time) (o : Operation) : Operation :=
  mk_Operation (op_ID o) (op_Kind o) (op_State o) phase (RequestedAt o) (StartedAt o) (FinishedAt o)
    now (op_Code o) (op_MayHaveChanged o) (op_Inventory o) (op_Output o) (op_OutputTruncated o)
    (op_Items o) (op_Request o).

Definition finished (r0 : Result) (items : list ItemResult) (now : time) (o : Operation) : Operation :=
  mk_Operation (op_ID o) (op_Kind o) (res_State r0) PhaseNone (RequestedAt o) (StartedAt o) now now
    (res_Code r0) (res_MayHaveChanged r0) (res_Inventory r0) (res_Output r0) (res_OutputTruncated r0)
    items (op_Request o).

Definition reconciled (inventory : InventoryResult) (now : time) (o : Operation) : Operation :=
  mk_Operation (op_ID o) (op_Kind o) (op_State o) (op_Phase o) (RequestedAt o) (StartedAt o)
    (FinishedAt o) now (op_Code o) (op_MayHaveChanged o) inventory (op_Output o)
    (op_OutputTruncated o) (op_Items o) (op_Request o).

(** A specification method: from the current state to a result and a state. *)
Abbreviation Spec := (M (option Operation) Error).

(** A transition given as a function on states. *)
Definition transition {A} (f : option Operation -> result Error A * option Operation) : Spec A := f.

(** Replace the state by [o] if it can be loaded back, else change nothing. *)
Definition install (o : Operation) : Spec Operation := fun s =>
  match admit_operation o with
  | Ok o => (Ok o, Some o)
  | Err e => (Err e, s)
  end.

Definition blocks_enqueue (s : option Operation) : bool :=
  match s with
  | Some o => State_active (op_State o) || bool_decide (inv_State (op_Inventory o) = InventoryPending)
  | None => false
  end.

Definition spec_EnqueueKind (id : string) (kind : Kind) (request : Request) (now : time) : Spec Operation :=
  _ ← lift (invalid_if (validateID id));
  _ ← lift (reject_if (negb (bool_decide (kind = KindManual)) && negb (bool_decide (kind = KindScheduled)))
              (ErrInvalid "operation kind is invalid"));
  _ ← lift (invalid_if (validateRequest request));
  _ ← lift (invalid_if (validateTime now true));
  transition (fun s => if blocks_enqueue s then (Err ErrActive, s) else install (queued_operation id kind request now) s).

Definition spec_Latest : Spec Operation := fun s =>
  match s with
  | Some o => (admit_operation o, s)
  | None => (Err ErrNotFound, s)
  end.

Definition spec_Claim (now : time) : Spec Operation :=
  _ ← lift (invalid_if (validateTime now true));
  transition (fun s => match s with
           | Some o => if bool_decide (op_State o = StateQueued) then install (claimed now o) s
                       else (Err ErrNoQueued, s)
           | None => (Err ErrNoQueued, s)
           end).

(** Unlike the other methods, a phase update is not read back. *)
Definition spec_UpdatePhase (id : string) (phase : Phase) (now : time) : Spec unit :=
  _ ← lift (invalid_if (validateID id));
  _ ← lift (invalid_if (validateTime now true));
  transition (fun s => match s with
           | Some o =>
               if String.eqb (op_ID o) id && bool_decide (op_State o = StateRunning)
                  && validPhaseTransition (op_Phase o) phase
               then (Ok tt, Some (advanced phase now o))
               else (Err ErrStateChanged, s)
           | None => (Err ErrStateChanged, s)
           end).

Definition spec_finish (id : string) (r0 : Result) (now : time) (allowPending : bool) : Spec Operation :=
  _ ← lift (invalid_if (validateID id));
  _ ← lift (invalid_if (validateTime now true));
  transition (fun s => match s with
           | Some o =>
               if String.eqb (op_ID o) id && bool_decide (op_State o = StateRunning) then
                 let items := if allowPending && (blen (res_Items r0) =? 0)
                              then ambiguous_items (res_Code r0) (req_Items (op_Request o))
                              else res_Items r0 in
                 match invalid_if (validateResultScope (req_Items (op_Request o)) items) with
                 | Ok _ => install (finished r0 items now o) s
                 | Err e => (Err e, s)
                 end
               else (Err ErrStateChanged, s)
           | None => (Err ErrStateChanged, s)
           end).

Definition spec_Finish (id : string) (r0 : Result) (now : time) : Spec Operation :=
  _ ← lift (invalid_if (validateExecutorResult r0)); spec_finish id r0 now false.

Definition spec_FinishUncertain (id : string) (state : State) (code : string) (now : time) : Spec Operation :=
  _ ← lift (reject_if (negb (bool_decide (state = StateInterrupted))
                       && negb (bool_decide (state = StateAmbiguous))) (ErrInvalid ""));
  _ ← lift (invalid_if (validateID id));
  _ ← lift (invalid_if (validateTime now true));
  _ ← lift (reject_if (is_err (validateCode code true)) (ErrInvalid ""));
  spec_finish id (uncertain_result state code) now true.

Definition spec_InterruptRunning (now : time) : Spec (option Operation) :=
  _ ← lift (invalid_if (validateTime now true));
  transition (fun s => match s with
           | Some o =>
               if bool_decide (op_State o = StateRunning) then
                 (operation ← install (finished (uncertain_result StateInterrupted "service_restarted")
                                 (ambiguous_items "service_restarted" (req_Items (op_Request o))) now o);
                  mret (Some operation)) s
               else (Ok None, s)
           | None => (Ok None, s)
           end).

Definition spec_PendingReconciliation : Spec Operation :=
  operation ← spec_Latest;
  lift (if negb (bool_decide (inv_State (op_Inventory operation) = InventoryPending))
           || negb (may_stay_pending (op_State operation))
        then Err ErrNotFound else Ok operation).

Definition spec_CompleteReconciliation (id : string) (inventory : InventoryResult) (now : time)
  : Spec Operation :=
  _ ← lift (invalid_if (validateID id));
  _ ← lift (invalid_if (validateInventory inventory false));
  _ ← lift (invalid_if (validateTime now true));
  transition (fun s => match s with
           | Some o =>
               if String.eqb (op_ID o) id && may_stay_pending (op_State o)
                  && bool_decide (inv_State (op_Inventory o) = InventoryPending)
               then install (reconciled inventory now o) s
               else (Err ErrStateChanged, s)
           | None => (Err ErrStateChanged, s)
           end).

(** ** The tables that hold an operation *)

(** Timestamps that are not set are stored as empty text. *)
Definition stamp (t : time) : bytes := if is_zero t then [] else formatTime t.
Definition bit (b : bool) : Z := if b then 1 else 0.

Definition row_of (o : Operation) : LatestRow :=
  mk_LatestRow (op_ID o) (ReviewedEvidenceSHA256 (op_Request o)) "manual" (op_State o) (op_Phase o)
    (formatTime (RequestedAt o)) (stamp (StartedAt o)) (stamp (FinishedAt o)) (formatTime (UpdatedAt o))
    (op_Code o) (bit (op_MayHaveChanged o)) (inv_State (op_Inventory o)) (inv_Code (op_Inventory o))
    (op_Output o) (bit (op_OutputTruncated o)) (CertificateCount (op_Inventory o)) (op_Kind o)
    (req_Context (op_Request o)).

Definition requested_rows (id : string) (request : Request) : list RequestedRow :=
  requested_row id request <$> indexed (req_Items request).
Definition result_rows (id : string) (items : list ItemResult) : list ResultRow :=
  result_row id <$> indexed items.

Definition tables_of (o : Operation) : Db :=
  mk_Db (Some (row_of o)) (requested_rows (op_ID o) (op_Request o)) (result_rows (op_ID o) (op_Items o)).

(** All that [validateOperation] checks, except the order of the timestamps. *)
Definition validate_shape (o : Operation) : check :=
  _ ← validateID (op_ID o);
  _ ← reject_if (negb (bool_decide (op_Kind o = KindManual)) && negb (bool_decide (op_Kind o = KindScheduled)))
        "operation kind is invalid";
  _ ← validateRequest (op_Request o);
  _ ← validateTime (RequestedAt o) true;
  _ ← validateTime (UpdatedAt o) true;
  match op_State o with
  | StateQueued => validate_queued o
  | StateRunning => validate_running o
  | StateOther _ => Err "operation state is invalid"
  | _ => validate_terminal o
  end.

(** Unset timestamps are the zero [time.Time], not merely its instant. *)
Definition plain_zeros (o : Operation) : Prop :=
  (is_zero (StartedAt o) = true -> StartedAt o = zero_time) /\
  (is_zero (FinishedAt o) = true -> FinishedAt o = zero_time).

Definition well_shaped (o : Operation) : Prop := validate_shape o = Ok tt /\ plain_zeros o.

Definition represents (d : Db) (s : option Operation) : Prop :=
  match s with
  | None => d = empty_db
  | Some o => d = tables_of o /\ well_shaped o
  end.

Abbreviation implements := (Refine.implements represents).

(** Facts about the validators of the operation store and about the rows an
    operation is stored as: what validated data satisfies, that the schema
    accepts it, and that it loads back unchanged. *)

(** Splits a successful chain of checks in a hypothesis. *)
Ltac split_checks H :=
  repeat (apply bind_Ok in H as (? & ?%reject_if_Ok & H));
  try (apply reject_if_Ok in H); bool_prop.

Lemma validateTime_Ok t : validateTime t true = Ok tt ->
  is_zero t = false /\ t = canonical t /\ 1 <= year_of t <= 9999.
Proof.
  unfold validateTime. destruct (is_zero t) eqn:Z; [done|].
  intros H%reject_if_Ok. bool_prop. split_and!; [done| |lia..].
  destruct t as [ns u m]. unfold round0, canonical in *. cbn in *. by simplify_eq.
Qed.

Lemma parse_formatTime t b : validateTime t true = Ok tt -> parseTime (formatTime t) b = Ok t.
Proof.
  intros H. destruct (validateTime_Ok t H) as (_ & Hc & Hy).
  unfold parseTime, formatTime. pose proof (format_length t) as L.
  rewrite parse_format by (unfold persistable_year; lia). rewrite <- Hc.
  destruct (format_rfc3339 t) eqn:E; [unfold blen in L; cbn in L; lia|]. rewrite <- E.
  rewrite bool_decide_true by done. rewrite Hc at 1. cbn. by rewrite H.
Qed.

Lemma parse_stamp t : t = zero_time \/ validateTime t true = Ok tt -> parseTime (stamp t) false = Ok t.
Proof.
  intros [->|H]; [done|]. unfold stamp. destruct (validateTime_Ok t H) as (-> & _).
  by apply parse_formatTime.
Qed.

Lemma stamp_valid t : validateTime t true = Ok tt -> stamp t = formatTime t.
Proof. intros H. unfold stamp. by destruct (validateTime_Ok t H) as (-> & _). Qed.

Lemma formatTime_length t : len_in 20 30 (formatTime t) = true.
Proof.
  unfold len_in, formatTime. pose proof (format_length t). apply andb_true_iff. lia.
Qed.

(** ** Text validators and the schema's classes *)

Lemma code_rune_char c : code_rune (b2z c) = code_char c.
Proof.
  unfold code_rune, code_char, is_digit, in_range.
  destruct (Ascii.eqb_spec c "_") as [->|]; [done|].
  destruct (Z.eqb_spec (b2z c) 95) as [E|]; [|done].
  destruct n. apply b2z_inj. done.
Qed.

Lemma code_runes_chars l : forallb code_rune (runes l) = true -> forallb code_char l = true.
Proof.
  intros H. assert (A : forallb (fun r => r <? 128) (runes l) = true).
  { rewrite !forallb_elem_of in *. intros r Hr. specialize (H r Hr).
    unfold code_rune in H. lia. }
  rewrite (runes_ascii l A) in H. rewrite !forallb_elem_of in *. intros c Hc.
  rewrite <- code_rune_char. apply H. by apply list_elem_of_fmap_2.
Qed.

Lemma to_bytes_nil s : to_bytes s = [] <-> s = "".
Proof. by destruct s. Qed.

Lemma slen_bytes s : slen s = blen (to_bytes s).
Proof. unfold slen, blen. by rewrite to_bytes_length. Qed.

Lemma slen_pos s : s <> "" -> 1 <= slen s.
Proof. destruct s; [done|]. unfold slen. cbn. lia. Qed.

Lemma validateCode_Ok s : validateCode s true = Ok tt ->
  s <> "" /\ slen s <= 64 /\ all_chars code_char s = true.
Proof.
  unfold validateCode, all_chars. destruct (to_bytes s) as [|c l] eqn:E; [done|].
  intros H. split_checks H. split_and!.
  - intros ->. done.
  - unfold maximumCodeBytes in *. lia.
  - by apply code_runes_chars.
Qed.

Lemma hex_lower_of s n : hex_decode_len s = Some n -> no_upper s = true -> all_chars hex_lower s = true.
Proof.
  unfold hex_decode_len, no_upper, all_chars. case_match eqn:E; [|done]. intros _ Hu.
  apply andb_true_iff in E as [E _]. rewrite !forallb_elem_of in *. intros c Hc.
  specialize (E c Hc). specialize (Hu c Hc). unfold is_hex, hex_lower in *.
  apply orb_true_iff in E as [E|E]; [done|]. exfalso.
  unfold is_upper_ascii, in_range in *. change (b2z "A") with 65 in *.
  change (b2z "F") with 70 in *. change (b2z "Z") with 90 in *. lia.
Qed.

Lemma validateID_Ok s : validateID s = Ok tt ->
  slen s = 32 /\ all_chars hex_lower s = true.
Proof.
  unfold validateID. intros H. split_checks H. split; [done|]. by eapply hex_lower_of.
Qed.

Lemma validateItemName_Ok s : validateItemName s = Ok tt -> 1 <= slen s <= 255.
Proof.
  unfold validateItemName. intros H. split_checks H.
  unfold maximumItemNameBytes in *. split; [by apply slen_pos|lia].
Qed.

Lemma validRequestText_le s n : validRequestText s n = true -> s <> "" /\ slen s <= n.
Proof. unfold validRequestText. intros H. bool_prop. done. Qed.

Lemma validate_request_items_Ok seen items :
  validate_request_items seen items = Ok tt ->
  Forall (fun s => validateItemName s = Ok tt) items /\ NoDup items /\
  Forall (fun s => s ∉ seen) items.
Proof.
  revert seen. induction items as [|s items IH]; intros seen H; cbn in H; [by split_and!; constructor|].
  apply bind_Ok in H as ([] & Hn & H). split_checks H. apply IH in H as (Hf & Hd & Hs).
  split_and!; constructor; try done.
  - intros Hin. rewrite Forall_forall in Hs. specialize (Hs s Hin). set_solver.
  - eapply Forall_impl; [exact Hs|]. cbn. set_solver.
Qed.

(** What a validated request satisfies. *)
Record request_facts (r : Request) : Prop := mk_request_facts {
  rf_digest : slen (ReviewedEvidenceSHA256 r) = 64
              /\ all_chars hex_lower (ReviewedEvidenceSHA256 r) = true;
  rf_count : 1 <= blen (req_Items r) <= 256;
  rf_names : Forall (fun s => validateItemName s = Ok tt) (req_Items r);
  rf_distinct : NoDup (req_Items r);
  rf_context : context_check (req_Context r) = true;
  rf_details : req_Details r = [] \/
    (List.length (req_Details r) = List.length (req_Items r) /\
     forall i d, req_Details r !! i = Some d ->
       req_Items r !! i = Some (ri_Name d) /\ has_detail d = true /\
       slen (ri_Account d) <= 64 /\ slen (ri_CA d) <= 255 /\
       slen (ri_ChallengeKind d) <= 32 /\ slen (ri_ChallengeMode d) <= 64)
}.

Lemma valid_request_detail_Ok d s : valid_request_detail (d, s) = true ->
  s = ri_Name d /\ has_detail d = true /\ slen (ri_Account d) <= 64 /\ slen (ri_CA d) <= 255 /\
  slen (ri_ChallengeKind d) <= 32 /\ slen (ri_ChallengeMode d) <= 64.
Proof.
  unfold valid_request_detail. intros H. bool_prop.
  repeat match goal with H : validRequestText _ _ = true |- _ => apply validRequestText_le in H as [? ?] end.
  split_and!; try done. unfold has_detail.
  destruct (String.eqb_spec (ri_Account d) ""); done.
Qed.

Lemma validateRequest_facts r : validateRequest r = Ok tt -> request_facts r.
Proof.
  unfold validateRequest. intros H.
  do 3 apply bind_Ok in H as (? & ?%reject_if_Ok & H).
  apply bind_Ok in H as ([] & Hi & H). apply validate_request_items_Ok in Hi as (Hn & Hd & _).
  unfold maximumItemResults, sha256HexBytes in *. bool_prop.
  assert (1 <= blen (req_Items r) <= 256) by (unfold blen in *; lia).
  assert (slen (ReviewedEvidenceSHA256 r) = 64
          /\ all_chars hex_lower (ReviewedEvidenceSHA256 r) = true)
    by (split; [done|by eapply hex_lower_of]).
  case_in H.
  - bool_prop. constructor; try done.
    + match goal with H : req_Context r = _ |- _ => by rewrite H end.
    + left. destruct (req_Details r); [done|]. unfold blen in *. cbn in *. lia.
  - split_checks H. constructor; try done.
    + repeat match goal with H : validRequestPath _ = true |- _ =>
        unfold validRequestPath in H; bool_prop end.
      repeat match goal with H : validRequestText _ _ = true |- _ =>
        apply validRequestText_le in H as [? ?] end.
      unfold context_check. repeat (apply andb_true_iff; split); by apply Z.leb_le.
    + right. unfold blen in *. split; [lia|]. intros i d Hi.
      destruct (req_Items r !! i) as [s|] eqn:E;
        [|apply lookup_lt_Some in Hi; apply lookup_ge_None in E; lia].
      assert (V : valid_request_detail (d, s) = true).
      { rewrite forallb_elem_of in H. apply H. apply list_elem_of_lookup. exists i.
        by rewrite lookup_zip_with, Hi, E. }
      apply valid_request_detail_Ok in V as (-> & ?). done.
Qed.

(** ** The shape of a stored operation, state by state *)

Record base_ok (o : Operation) : Prop := mk_base_ok {
  b_id : validateID (op_ID o) = Ok tt;
  b_kind : op_Kind o = KindManual \/ op_Kind o = KindScheduled;
  b_request : validateRequest (op_Request o) = Ok tt;
  b_requested : validateTime (RequestedAt o) true = Ok tt;
  b_updated : validateTime (UpdatedAt o) true = Ok tt
}.

Definition blank_result (o : Operation) : Prop :=
  op_Code o = "" /\ op_Output o = "" /\ op_OutputTruncated o = false /\ op_Items o = [] /\
  op_Inventory o = pending_inventory.

Definition queued_ok (o : Operation) : Prop :=
  op_Phase o = PhaseQueued /\ is_zero (StartedAt o) = true /\ is_zero (FinishedAt o) = true /\
  op_MayHaveChanged o = false /\ blank_result o.

Definition running_ok (o : Operation) : Prop :=
  (op_Phase o = PhaseRevalidating \/ op_Phase o = PhaseExecuting \/ op_Phase o = PhaseRefreshingInventory) /\
  validateTime (StartedAt o) true = Ok tt /\ is_zero (FinishedAt o) = true /\ blank_result o.

Definition terminal_ok (o : Operation) : Prop :=
  op_Phase o = PhaseNone /\ validateTime (StartedAt o) true = Ok tt /\
  validateTime (FinishedAt o) true = Ok tt /\ validateCode (op_Code o) true = Ok tt /\
  validateOutput (op_Output o) = Ok tt /\ validateItems (op_Items o) = Ok tt /\
  validateInventory (op_Inventory o) (may_stay_pending (op_State o)) = Ok tt /\
  validateResultScope (req_Items (op_Request o)) (op_Items o) = Ok tt.

Lemma is_err_false_unit {E} (r : result E unit) : is_err r = false <-> r = Ok tt.
Proof. destruct r as [[]|]; cbn; naive_solver. Qed.

Lemma pending_inventory_iff v :
  inv_State v = InventoryPending /\ validateInventory v true = Ok tt <-> v = pending_inventory.
Proof.
  split; [|by intros ->]. intros [Hs H]. unfold validateInventory in H. rewrite Hs in H.
  split_checks H. destruct v as [s c n]; cbn in *; subst.
  match goal with H : ~ is_Some _ |- _ => apply eq_None_not_Some in H; subst end. done.
Qed.

Lemma blen_nil {A} (l : list A) : (blen l =? 0) = true <-> l = [].
Proof. unfold blen. destruct l; cbn; rewrite Z.eqb_eq; split; try done; lia. Qed.

(** Reads a conjunction of negated guards as the facts that make it pass. *)
Ltac guards :=
  rewrite ?reject_if_Ok, ?orb_false_iff, ?negb_false_iff, ?is_err_false_unit, ?bool_decide_eq_true,
    ?String.eqb_eq, ?blen_nil.

Lemma validate_queued_iff o : validate_queued o = Ok tt <-> queued_ok o.
Proof.
  unfold validate_queued, queued_ok, blank_result. guards.
  rewrite <- (pending_inventory_iff (op_Inventory o)). naive_solver.
Qed.

Lemma validate_running_iff o : validate_running o = Ok tt <-> running_ok o.
Proof.
  unfold validate_running, running_ok, blank_result. rewrite bind_Ok. guards.
  rewrite <- (pending_inventory_iff (op_Inventory o)).
  split.
  - intros (? & Hp & H). revert Hp H. guards. intros Hp H. rewrite !andb_false_iff, !negb_false_iff, !bool_decide_eq_true in Hp.
    naive_solver.
  - intros (Hp & H). exists tt. guards. rewrite !andb_false_iff, !negb_false_iff, !bool_decide_eq_true.
    naive_solver.
Qed.

Lemma pending_needs_permission v b :
  validateInventory v b = Ok tt -> bool_decide (inv_State v = InventoryPending) && negb b = false.
Proof.
  unfold validateInventory. by destruct (inv_State v), b.
Qed.

Lemma validate_terminal_iff o : validate_terminal o = Ok tt <-> terminal_ok o.
Proof.
  unfold validate_terminal, terminal_ok. split.
  - intros H. apply bind_Ok in H as (? & Hg & H). apply bind_Ok in H as ([] & Hi & H).
    apply bind_Ok in H as (? & _ & Hs). revert Hg. guards. naive_solver.
  - intros (? & ? & ? & ? & ? & ? & Hi & Hs). apply bind_Ok. exists tt. guards. split; [naive_solver|].
    apply bind_Ok. exists tt. split; [done|]. apply bind_Ok. exists tt.
    split; [|done]. apply reject_if_Ok. by apply pending_needs_permission.
Qed.

Definition state_ok (o : Operation) : Prop :=
  match op_State o with
  | StateQueued => queued_ok o
  | StateRunning => running_ok o
  | StateOther _ => False
  | _ => terminal_ok o
  end.

Lemma validate_shape_iff o : validate_shape o = Ok tt <-> base_ok o /\ state_ok o.
Proof.
  unfold validate_shape, state_ok. split.
  - intros H. apply bind_Ok in H as ([] & ? & H). apply bind_Ok in H as (? & Hk%reject_if_Ok & H).
    do 3 apply bind_Ok in H as ([] & ? & H).
    rewrite andb_false_iff, !negb_false_iff, !bool_decide_eq_true in Hk.
    split; [by constructor|].
    destruct (op_State o); rewrite <- ?validate_queued_iff, <- ?validate_running_iff,
      <- ?validate_terminal_iff; done.
  - intros [[Hid Hk Hr H1 H2] H]. rewrite Hid, Hr, H1, H2. cbn.
    replace (negb (bool_decide (op_Kind o = KindManual)) && negb (bool_decide (op_Kind o = KindScheduled)))
      with false by (symmetry; apply andb_false_iff; rewrite !negb_false_iff, !bool_decide_eq_true; done).
    cbn. destruct (op_State o); rewrite ?validate_queued_iff, ?validate_running_iff,
      ?validate_terminal_iff; done.
Qed.

Lemma state_cases o : state_ok o ->
  (op_State o = StateQueued /\ queued_ok o) \/ (op_State o = StateRunning /\ running_ok o) \/
  (State_terminal (op_State o) = true /\ terminal_ok o).
Proof. unfold state_ok. destruct (op_State o); cbn; naive_solver. Qed.

(** What remains of [validateOperation] once the shape is right: the order of
    the timestamps. *)
Lemma validateOperation_shape o : validate_shape o = Ok tt ->
  validateOperation o
  = (_ ← reject_if (before (UpdatedAt o) (RequestedAt o)) "operation update precedes request";
     validate_order o).
Proof.
  intros H. pose proof H as [[Hid Hk Hr H1 H2] _]%validate_shape_iff.
  unfold validateOperation. rewrite Hid, Hr, H1, H2. cbn.
  replace (negb (bool_decide (op_Kind o = KindManual)) && negb (bool_decide (op_Kind o = KindScheduled)))
    with false by (symmetry; apply andb_false_iff; rewrite !negb_false_iff, !bool_decide_eq_true; done).
  cbn. destruct (before _ _); [done|]. cbn.
  unfold validate_shape in H. rewrite Hid, Hr, H1, H2 in H. cbn in H.
  apply bind_Ok in H as (_ & _ & H). by rewrite H.
Qed.

Lemma validateOperation_is_shaped o : validateOperation o = Ok tt -> validate_shape o = Ok tt.
Proof.
  unfold validateOperation, validate_shape. intros H.
  apply bind_Ok in H as ([] & -> & H). cbn. apply bind_Ok in H as ([] & -> & H). cbn.
  apply bind_Ok in H as ([] & -> & H). cbn. apply bind_Ok in H as ([] & -> & H). cbn.
  apply bind_Ok in H as ([] & -> & H). cbn. apply bind_Ok in H as ([] & _ & H). cbn.
  by apply bind_Ok in H as ([] & -> & H).
Qed.

(** ** The schema accepts every well-shaped operation *)

Lemma stamp_optional t : optional_stamp (stamp t) = true.
Proof. unfold optional_stamp, stamp. destruct (is_zero t); [done|]. by rewrite formatTime_length, orb_true_r. Qed.

Lemma formatTime_not_empty t : empty (formatTime t) = false.
Proof. unfold empty, formatTime. pose proof (format_length t). apply Z.eqb_neq. lia. Qed.

Lemma stamp_set t : validateTime t true = Ok tt -> empty (stamp t) = false.
Proof. intros H. rewrite stamp_valid by done. apply formatTime_not_empty. Qed.

Lemma stamp_zero t : is_zero t = true -> empty (stamp t) = true.
Proof. unfold stamp. by intros ->. Qed.

Lemma validateInventory_cases v b : validateInventory v b = Ok tt ->
  (v = pending_inventory /\ b = true) \/
  (inv_State v = InventoryRefreshed /\ validateCode (inv_Code v) true = Ok tt /\
     exists n, CertificateCount v = Some n /\ 0 <= n <= 10000) \/
  (inv_State v = InventoryUnavailable /\ validateCode (inv_Code v) true = Ok tt /\
     CertificateCount v = None).
Proof.
  intros H. pose proof H as H0. unfold validateInventory in H.
  destruct (inv_State v) eqn:S; [| | |done].
  - left. split_checks H. destruct b; [|done]. split; [|done]. by apply pending_inventory_iff.
  - right; left. apply bind_Ok in H as ([] & Hc%map_err_Ok & H). split_checks H.
    destruct (CertificateCount v) as [n|]; [|done]. unfold maximumCertificateCount in *. bool_prop.
    split_and!; [done..|]. exists n. split; [done|lia].
  - right; right. apply bind_Ok in H as ([] & Hc%map_err_Ok & H). split_checks H.
    by rewrite <- eq_None_not_Some in H.
Qed.

Lemma well_shaped_inventory o : state_ok o ->
  validateInventory (op_Inventory o) (negb (State_terminal (op_State o)) || may_stay_pending (op_State o))
  = Ok tt.
Proof.
  intros [(-> & Hq)|[(-> & Hq)|(Ht & Hq)]]%state_cases.
  - destruct Hq as (_ & _ & _ & _ & _ & _ & _ & _ & ->). done.
  - destruct Hq as (_ & _ & _ & _ & _ & _ & _ & ->). done.
  - rewrite Ht. apply Hq.
Qed.

Lemma state_ok_code o : state_ok o ->
  slen (op_Code o) <= 64 /\ all_chars code_char (op_Code o) = true /\ slen (op_Output o) <= 262144.
Proof.
  intros [(_ & Hq)|[(_ & Hq)|(_ & Hq)]]%state_cases.
  - destruct Hq as (_ & _ & _ & _ & -> & -> & _). done.
  - destruct Hq as (_ & _ & _ & -> & -> & _). done.
  - destruct Hq as (_ & _ & _ & Hc & Ho & _). apply validateCode_Ok in Hc as (_ & ? & ?).
    split_and!; [done..|]. unfold validateOutput in Ho. split_checks Ho.
    unfold maximumOutputBytes in *. lia.
Qed.

Lemma lifecycle_ok o : state_ok o -> lifecycle_check (row_of o) = true.
Proof.
  intros H. pose proof (well_shaped_inventory o H) as Hi.
  unfold lifecycle_check, nothing_reported; cbn.
  destruct (state_cases o H) as [(-> & Hq)|[(-> & Hq)|(Ht & Hq)]].
  - destruct Hq as (-> & Hs & Hf & -> & -> & -> & -> & _ & ->).
    by rewrite !stamp_zero by done.
  - destruct Hq as ([-> | [-> | ->]] & Hs & Hf & -> & -> & -> & _ & ->);
      rewrite stamp_set, stamp_zero by done; done.
  - destruct Hq as (Hp & Hs & Hf & Hc & _).
    apply validateCode_Ok in Hc as (Hc & _).
    transitivity (match inv_State (op_Inventory o) with
      | InventoryPending => String.eqb (inv_Code (op_Inventory o)) ""
          && bool_decide (CertificateCount (op_Inventory o) = None)
          && (bool_decide (op_State o = StateInterrupted) || bool_decide (op_State o = StateAmbiguous))
      | InventoryRefreshed => negb (String.eqb (inv_Code (op_Inventory o)) "")
          && bool_decide (is_Some (CertificateCount (op_Inventory o)))
      | InventoryUnavailable => negb (String.eqb (inv_Code (op_Inventory o)) "")
          && bool_decide (CertificateCount (op_Inventory o) = None)
      | InventoryOther _ => false end).
    { rewrite Hp, !stamp_set, (proj2 (String.eqb_neq _ _) Hc) by done.
      by destruct (op_State o). }
    apply validateInventory_cases in Hi as [(-> & Hb)|[(-> & Hcode & n & -> & _)|(-> & Hcode & ->)]].
    + rewrite Ht in Hb. by destruct (op_State o).
    + apply validateCode_Ok in Hcode as (Hcode & _). by rewrite (proj2 (String.eqb_neq _ _) Hcode).
    + apply validateCode_Ok in Hcode as (Hcode & _). by rewrite (proj2 (String.eqb_neq _ _) Hcode).
Qed.

(** Reduces the projections of explicit rows and operations, and nothing else. *)
Ltac row_fields :=
  cbn [c_operation_id c_reviewed_evidence_sha256 c_kind c_state c_phase c_requested_at_utc
       c_started_at_utc c_finished_at_utc c_updated_at_utc c_reason_code c_may_have_changed
       c_inventory_state c_inventory_code c_redacted_output c_output_truncated
       c_inventory_certificate_count c_request_kind c_report_context
       op_ID op_Kind op_State op_Phase RequestedAt StartedAt FinishedAt UpdatedAt op_Code
       op_MayHaveChanged op_Inventory op_Output op_OutputTruncated op_Items op_Request].

(** Every operation the validators admit satisfies the CHECK constraints. *)
Lemma row_check_ok o : base_ok o -> state_ok o -> row_check (row_of o) = true.
Proof.
  intros Hb Hs. pose proof (lifecycle_ok o Hs) as Hl. pose proof (state_ok_code o Hs) as (Hc1 & Hc2 & Ho).
  pose proof (well_shaped_inventory o Hs) as Hi%validateInventory_cases.
  destruct Hb as [[Hid1 Hid2]%validateID_Ok Hk [[Hd1 Hd2] _ _ _ Hctx _]%validateRequest_facts Hr Hu].
  unfold row_check. rewrite Hl. unfold row_of. row_fields.
  rewrite Hid1, Hid2, Hd1, Hd2, Hctx, !formatTime_length, !stamp_optional, Hc2.
  rewrite (proj2 (Z.leb_le _ _) Hc1), (proj2 (Z.leb_le _ _) Ho).
  replace (known_state (op_State o)) with true
    by (unfold state_ok in Hs; destruct (op_State o); try done; by destruct Hs).
  replace (known_phase (op_Phase o)) with true
    by (apply state_cases in Hs as [(_ & -> & _)|[(_ & [-> | [-> | ->]] & _)|(_ & -> & _)]]; done).
  replace (match op_Kind o with KindOther _ => false | _ => true end) with true
    by (destruct Hk as [-> | ->]; done).
  replace (is_bit (bit (op_MayHaveChanged o))) with true by (by destruct (op_MayHaveChanged o)).
  replace (is_bit (bit (op_OutputTruncated o))) with true by (by destruct (op_OutputTruncated o)).
  destruct Hi as [(-> & _)|[(-> & Hcode & n & -> & Hn)|(-> & Hcode & ->)]]; [done| |];
    apply validateCode_Ok in Hcode as (_ & Hl1 & ->); rewrite (proj2 (Z.leb_le _ _) Hl1); [|done].
  cbn. by rewrite (proj2 (Z.leb_le 0 n)), (proj2 (Z.leb_le n 10000)) by lia.
Qed.

(** ** Loading back what was stored *)

Lemma select_requested_rows id request d :
  operation_requested_item d = requested_rows id request ->
  select_requested id d = (fun p => q_detail (requested_row id request p)) <$> indexed (req_Items request).
Proof.
  intros E. unfold select_requested. rewrite E. unfold requested_rows. rewrite filter_all.
  - rewrite (sort_indexed (requested_row id request) q_item_ordinal) by (by intros []).
    by rewrite <- list_fmap_compose.
  - intros q ([i s] & -> & _)%list_elem_of_fmap. apply String.eqb_refl.
Qed.

Lemma requested_of_rows id request : request_facts request ->
  requested_of ((fun p => q_detail (requested_row id request p)) <$> indexed (req_Items request))
  = (req_Items request, req_Details request).
Proof.
  intros [_ Hcount _ _ _ Hdet]. unfold requested_of. f_equal.
  { rewrite <- list_fmap_compose. rewrite <- (indexed_snd (req_Items request)) at 2.
    apply list_fmap_ext. by intros _ [i s] _. }
  destruct Hdet as [Hnil|[Hlen Hdet]].
  - rewrite Hnil. rewrite (proj2 (existsb_false _ _)); [done|].
    intros q ([i s] & -> & _)%list_elem_of_fmap. unfold requested_row. by rewrite Hnil.
  - assert (E : (fun p => q_detail (requested_row id request p)) <$> indexed (req_Items request)
                = req_Details request).
    { apply list_eq. intros i. rewrite list_lookup_fmap. unfold indexed. rewrite list_lookup_imap.
      destruct (req_Details request !! i) as [d|] eqn:Ed.
      - destruct (Hdet i d Ed) as (Ei & _). rewrite Ei. cbn. unfold requested_row.
        destruct (Z.eqb_spec (blen (req_Details request)) 0);
          [unfold blen in *; apply lookup_lt_Some in Ed; lia|].
        rewrite Nat2Z.id. erewrite nth_lookup_Some by done. by destruct d.
      - apply lookup_ge_None in Ed. rewrite (proj2 (lookup_ge_None (req_Items request) i)) by lia.
        done. }
    rewrite E. destruct (req_Details request) as [|d ds] eqn:Ed; [unfold blen in *; cbn in *; lia|].
    destruct (Hdet 0%nat d eq_refl) as (_ & Hd & _). cbn. by rewrite Hd.
Qed.

Lemma select_result_rows id items d :
  operation_item_result d = result_rows id items -> select_results id d = items.
Proof.
  intros E. unfold select_results. rewrite E. unfold result_rows. rewrite filter_all.
  - rewrite (sort_indexed (result_row id) r_item_ordinal)
      by (by intros []).
    rewrite <- list_fmap_compose. rewrite <- (indexed_snd items) at 2.
    apply list_fmap_ext. by intros _ [i s] _.
  - intros q ([i s] & -> & _)%list_elem_of_fmap. apply String.eqb_refl.
Qed.

Lemma well_shaped_times o : well_shaped o ->
  (StartedAt o = zero_time \/ validateTime (StartedAt o) true = Ok tt) /\
  (FinishedAt o = zero_time \/ validateTime (FinishedAt o) true = Ok tt).
Proof.
  intros [[_ Hs]%validate_shape_iff [Hz1 Hz2]].
  destruct (state_cases o Hs) as [(_ & _ & ? & ? & _)|[(_ & _ & ? & ? & _)|(_ & _ & ? & ? & _)]]; auto.
Qed.

Lemma storedBoolean_bit b : storedBoolean (bit b) = Ok b.
Proof. by destruct b. Qed.

Lemma persisted_row_of o : well_shaped o ->
  persisted_operation (row_of o) (req_Items (op_Request o)) (req_Details (op_Request o)) (op_Items o)
  = (_ ← validateOperation o; Ok o).
Proof.
  intros H. destruct (well_shaped_times o H) as [Hs Hf]. destruct H as [[Hb Hst]%validate_shape_iff _].
  pose proof (well_shaped_inventory o Hst) as Hi%validateInventory_cases.
  unfold persisted_operation, row_of. row_fields.
  rewrite !parse_formatTime by apply Hb. rewrite !parse_stamp by done. rewrite !storedBoolean_bit.
  replace (reject_if _ _) with (Ok (E:=string) tt).
  - destruct o as [? ? ? ? ? ? ? ? ? ? [] ? ? ? [? ? [] ?]]. done.
  - symmetry. apply reject_if_Ok. unfold maximumCertificateCount.
    destruct Hi as [(-> & _)|[(_ & _ & n & -> & Hn)|(_ & _ & ->)]]; [done| |done]. lia.
Qed.

(** Loading the tables of a well-shaped operation returns that operation, or
    the validation error that its timestamps cause. *)
Lemma load_tables o d w : well_shaped o -> w = tables_of o ->
  loadOperation (mk_txn d w []) = (admit_operation o, mk_txn d w []).
Proof.
  intros H ->. pose proof H as [[Hb _]%validate_shape_iff _].
  pose proof (validateRequest_facts _ (b_request _ Hb)) as Hf.
  unfold loadOperation, loadRequestedItems, mbind, M_bind. rewrite query_run. cbn [operation_latest tables_of].
  rewrite query_run. change (c_operation_id (row_of o)) with (op_ID o).
  rewrite (select_requested_rows _ (op_Request o)) by done.
  unfold mret, M_ret. rewrite requested_of_rows by done. cbv beta iota.
  rewrite query_run, (select_result_rows _ (op_Items o)) by done. cbv beta iota.
  unfold lift. rewrite persisted_row_of by done. unfold admit_operation.
  by destruct (validateOperation o) as [[]|].
Qed.

Lemma load_requested_tables o d : base_ok o ->
  loadRequestedItems (op_ID o) (mk_txn d (tables_of o) [])
  = (Ok (req_Items (op_Request o), req_Details (op_Request o)), mk_txn d (tables_of o) []).
Proof.
  intros Hb. unfold loadRequestedItems, mbind, M_bind, mret, M_ret. rewrite query_run.
  rewrite (select_requested_rows _ (op_Request o)) by done.
  by rewrite requested_of_rows by (apply validateRequest_facts, Hb).
Qed.
