(* ===== verification/JobsRefine.v ===== *)
(** The store methods implement their specifications (internal/jobs/store.go). *)
From S2P Require Import Prelude.
From S2P Require Import GoText.
From S2P Require Import GoTime.
From S2P Require Import Effects.
From S2P Require Import Refine.
From S2P Require Import JobsTypes.
From S2P Require Import JobsStore.
From S2P Require Import JobsFacts.

#[local] Open Scope string_scope.
#[local] Open Scope Z_scope.

(** ** Inserting the item rows *)

Lemma requested_row_check id request i s : request_facts request ->
  s ∈ req_Items request -> 0 <= i <= 255 -> requested_check (requested_row id request (i, s)) = true.
Proof.
  intros [_ _ Hn _ _ Hd] Hs Hi. unfold requested_check, requested_row. cbn [q_item_ordinal q_detail].
  cbn [ri_Name ri_Account ri_CA ri_ChallengeKind ri_ChallengeMode].
  rewrite Forall_forall in Hn. pose proof (validateItemName_Ok _ (Hn s Hs)).
  assert (Hlen : let d := if blen (req_Details request) =? 0 then blank_detail
                          else nth (Z.to_nat i) (req_Details request) blank_detail in
    slen (ri_Account d) <= 64 /\ slen (ri_CA d) <= 255 /\ slen (ri_ChallengeKind d) <= 32
    /\ slen (ri_ChallengeMode d) <= 64).
  { cbn. destruct (_ =? 0); [done|]. destruct Hd as [->|[_ Hd]]; [by destruct (Z.to_nat i)|].
    destruct (nth_in_or_default (Z.to_nat i) (req_Details request) blank_detail) as [Hin| ->]; [|done].
    apply list_elem_of_In, list_elem_of_lookup in Hin as [k Hk]. apply Hd in Hk. naive_solver. }
  cbn in Hlen. repeat (apply andb_true_iff; split); apply Z.leb_le; lia.
Qed.

Lemma insert_requested_fresh row r rows results :
  c_operation_id r = q_operation_id row -> requested_check row = true ->
  (forall q, q ∈ rows -> q_item_ordinal q <> q_item_ordinal row
                         /\ ri_Name (q_detail q) <> ri_Name (q_detail row)) ->
  insert_requested row (mk_Db (Some r) rows results)
  = Some (tt, mk_Db (Some r) (rows ++ [row]) results).
Proof.
  intros Hid Hc Hq. unfold insert_requested, references. cbn [operation_latest operation_requested_item].
  rewrite Hid, String.eqb_refl, Hc, (proj2 (existsb_false _ _)); [done|].
  intros q Hin. destruct (Hq q Hin) as [H1 H2].
  rewrite (proj2 (String.eqb_neq _ _) H2), (proj2 (Z.eqb_neq _ _) H1). apply andb_false_r.
Qed.

Lemma insert_requested_all id request r results :
  c_operation_id r = id -> request_facts request ->
  fold_statements (fun p => insert_requested (requested_row id request p)) (indexed (req_Items request))
    (mk_Db (Some r) [] results)
  = Some (mk_Db (Some r) (requested_rows id request) results).
Proof.
  intros Hid Hf.
  refine (fold_statements_prefix _
    (fun pre => mk_Db (Some r) (requested_row id request <$> pre) results) _ _).
  intros pre [i s] post E. apply (indexed_split (fun s => s)) in E as (Hi & Hlt & Hs & Hpre).
  pose proof Hf as [_ Hcount _ Hd _ _]. cbn [fst snd] in *. rewrite fmap_app.
  apply (insert_requested_fresh (requested_row id request (i, s))); [done| |].
  - apply requested_row_check; [done..|]. unfold blen in *; lia.
  - intros q ([j t] & -> & Hq)%list_elem_of_fmap. apply Hpre in Hq as [Hq1 Hq2].
    rewrite list_fmap_id in Hq2. cbn in *. split; [lia|by apply Hq2].
Qed.

Lemma insert_result_fresh row r requested rows :
  c_operation_id r = r_operation_id row -> result_check row = true ->
  (forall q, q ∈ rows -> r_item_ordinal q <> r_item_ordinal row
                         /\ item_Name (r_item q) <> item_Name (r_item row)) ->
  insert_result row (mk_Db (Some r) requested rows)
  = Some (tt, mk_Db (Some r) requested (rows ++ [row])).
Proof.
  intros Hid Hc Hq. unfold insert_result, references. cbn [operation_latest operation_item_result].
  rewrite Hid, String.eqb_refl, Hc, (proj2 (existsb_false _ _)); [done|].
  intros q Hin. destruct (Hq q Hin) as [H1 H2].
  rewrite (proj2 (String.eqb_neq _ _) H2), (proj2 (Z.eqb_neq _ _) H1). apply andb_false_r.
Qed.

Lemma validate_items_loop_Ok seen items :
  validate_items_loop seen items = Ok tt ->
  Forall (fun it => validateItemName (item_Name it) = Ok tt /\ known_item_state (item_State it) = true
                    /\ validateCode (item_Code it) true = Ok tt) items /\
  NoDup (item_Name <$> items) /\ Forall (fun it => item_Name it ∉ seen) items.
Proof.
  revert seen. induction items as [|it items IH]; intros seen H; cbn in H; [by split_and!; constructor|].
  apply bind_Ok in H as ([] & Hn & H). do 2 apply bind_Ok in H as (? & ?%reject_if_Ok & H).
  apply bind_Ok in H as ([] & Hc%map_err_Ok & H). bool_prop.
  apply IH in H as (Hf & Hd & Hs). cbn. split_and!; constructor; try done.
  - intros (it' & E & Hin)%list_elem_of_fmap. rewrite Forall_forall in Hs. specialize (Hs it' Hin).
    set_solver.
  - eapply Forall_impl; [exact Hs|]. cbn. set_solver.
Qed.

Lemma validateItems_Ok items : validateItems items = Ok tt ->
  blen items <= 256 /\
  (forall it, it ∈ items -> result_check (mk_ResultRow "" 0 it) = true) /\ NoDup (item_Name <$> items).
Proof.
  unfold validateItems. intros H. apply bind_Ok in H as (? & Hl%reject_if_Ok & H).
  apply validate_items_loop_Ok in H as (Hf & Hd & _). unfold maximumItemResults in *. bool_prop.
  split_and!; [lia| |done]. intros it Hit. rewrite Forall_forall in Hf.
  destruct (Hf it Hit) as (Hn%validateItemName_Ok & Hk & (Hc1 & Hc2 & Hc3)%validateCode_Ok).
  apply slen_pos in Hc1. unfold result_check; cbn [r_item_ordinal r_item]. rewrite Hk, Hc3.
  repeat (apply andb_true_iff; split); try done; apply Z.leb_le; lia.
Qed.

Lemma insert_results_all what id items r requested d :
  c_operation_id r = id -> validateItems items = Ok tt ->
  insert_results what id items (mk_txn d (mk_Db (Some r) requested []) [])
  = (Ok tt, mk_txn d (mk_Db (Some r) requested (result_rows id items)) []).
Proof.
  intros Hid (Hlen & Hchk & Hd)%validateItems_Ok. unfold insert_results.
  apply for_each_statement_run.
  refine (fold_statements_prefix _ (fun pre => mk_Db (Some r) requested (result_row id <$> pre)) _ _).
  intros pre [i it] post E. apply (indexed_split item_Name) in E as (Hi & Hlt & Hs & Hpre).
  cbn [fst snd] in *. rewrite fmap_app.
  apply (insert_result_fresh (result_row id (i, it))); [done| |].
  - specialize (Hchk it Hs). unfold result_check in *; cbn [result_row fst snd r_item_ordinal r_item] in *.
    bool_prop. repeat (apply andb_true_iff; split); try done; apply Z.leb_le; unfold blen in *; lia.
  - intros q ([j it'] & -> & Hq)%list_elem_of_fmap. apply Hpre in Hq as [Hj Hne]. cbn in *.
    split; [lia|by apply Hne].
Qed.

(** ** Shape of the specification's new states *)

Lemma queued_shape id kind request now :
  validateID id = Ok tt -> (kind = KindManual \/ kind = KindScheduled) ->
  validateRequest request = Ok tt -> validateTime now true = Ok tt ->
  well_shaped (queued_operation id kind request now).
Proof.
  intros. split; [|by split]. apply validate_shape_iff. split; [by constructor|]. done.
Qed.

Lemma claimed_shape now o : well_shaped o -> op_State o = StateQueued -> validateTime now true = Ok tt ->
  well_shaped (claimed now o).
Proof.
  intros [[[] Hs]%validate_shape_iff [Hz1 Hz2]] Hq Hn. unfold state_ok in Hs. rewrite Hq in Hs.
  destruct Hs as (_ & _ & Hf & _ & Hb). destruct (validateTime_Ok now Hn) as (Hnz & _).
  split; [|split; [by cbn; rewrite Hnz|done]]. apply validate_shape_iff. split; [by constructor|].
  split_and!; [by left|done..].
Qed.

Lemma advanced_shape phase now o : well_shaped o -> op_State o = StateRunning ->
  validPhaseTransition (op_Phase o) phase = true -> validateTime now true = Ok tt ->
  well_shaped (advanced phase now o).
Proof.
  intros [[[] Hs]%validate_shape_iff [Hz1 Hz2]] Hq Hp Hn. unfold state_ok in Hs. rewrite Hq in Hs.
  destruct Hs as (_ & Hst & Hf & Hb). split; [|done]. apply validate_shape_iff.
  split; [by constructor|]. unfold state_ok; cbn. rewrite Hq. split_and!; [|done..]. cbn.
  unfold validPhaseTransition in Hp. destruct (op_Phase o); try done; bool_prop; [|tauto].
  apply orb_true_iff in Hp as [Hp|Hp]; bool_prop; tauto.
Qed.

Lemma finished_shape r0 items now o : well_shaped o -> op_State o = StateRunning ->
  validateTime now true = Ok tt -> State_terminal (res_State r0) = true ->
  validateCode (res_Code r0) true = Ok tt ->
  validateInventory (res_Inventory r0) (may_stay_pending (res_State r0)) = Ok tt ->
  validateOutput (res_Output r0) = Ok tt -> validateItems items = Ok tt ->
  validateResultScope (req_Items (op_Request o)) items = Ok tt ->
  well_shaped (finished r0 items now o).
Proof.
  intros [[[] Hs]%validate_shape_iff [Hz1 Hz2]] Hq Hn Ht ? ? ? ? ?. unfold state_ok in Hs. rewrite Hq in Hs.
  destruct Hs as (_ & Hst & _). destruct (validateTime_Ok now Hn) as (Hnz & _).
  split; [|split; [done|by cbn; rewrite Hnz]]. apply validate_shape_iff. split; [by constructor|].
  unfold state_ok; cbn. assert (terminal_ok (finished r0 items now o)) by by split_and!.
  by destruct (res_State r0).
Qed.

Lemma reconciled_shape inventory now o : well_shaped o -> may_stay_pending (op_State o) = true ->
  validateInventory inventory false = Ok tt -> validateTime now true = Ok tt ->
  well_shaped (reconciled inventory now o).
Proof.
  intros [[[] Hs]%validate_shape_iff [Hz1 Hz2]] Hq Hi Hn.
  assert (Ht : terminal_ok o) by (unfold state_ok in Hs; by destruct (op_State o)).
  destruct Ht as (? & ? & ? & ? & ? & ? & _ & ?).
  split; [|done]. apply validate_shape_iff. split; [by constructor|].
  assert (terminal_ok (reconciled inventory now o)).
  { split_and!; try done. cbn. rewrite Hq. destruct (validateInventory_cases _ _ Hi) as [[_ ?]|[(E & ? & n & E2 & ?)|(E & ? & E2)]];
      [done| |]; unfold validateInventory; rewrite E; cbn; rewrite E2; match goal with H : validateCode _ _ = _ |- _ => rewrite H end;
      cbn; [|done]. apply reject_if_Ok. unfold maximumCertificateCount. lia. }
  unfold state_ok; cbn. by destruct (op_State o).
Qed.

(** ** Composing refinements *)

Lemma load_commit what o d w : well_shaped o -> w = tables_of o ->
  (operation ← loadOperation; _ ← commit what; mret operation) (mk_txn d w [])
  = match admit_operation o with
    | Ok o => (Ok o, mk_txn w w [])
    | Err e => (Err e, mk_txn d w [])
    end.
Proof.
  intros Hw Ew. unfold mbind, M_bind. erewrite load_tables by done. by destruct (admit_operation o).
Qed.

(** The end of every method that installs a new operation. *)
Lemma represents_install o d s : well_shaped o -> represents d s ->
  represents (match admit_operation o with Ok _ => tables_of o | Err _ => d end) (install o s).2.
Proof.
  intros Hw Hr. unfold install. destruct (admit_operation o) as [o'|] eqn:E; [|done].
  unfold admit_operation in E. destruct (validateOperation o); by simplify_eq.
Qed.

Lemma admit_Ok o o' : admit_operation o = Ok o' -> o' = o.
Proof. unfold admit_operation. destruct (validateOperation o); naive_solver. Qed.

Lemma update_latest_tables where_ set_ o row :
  where_ (row_of o) = true -> set_ (row_of o) = row -> row_check row = true ->
  update_latest where_ set_ (tables_of o)
  = Some (1, mk_Db (Some row) (requested_rows (op_ID o) (op_Request o)) (result_rows (op_ID o) (op_Items o))).
Proof. intros Hw <- Hc. unfold update_latest. cbn. by rewrite Hw, Hc. Qed.

Lemma row_check_shaped o : well_shaped o -> row_check (row_of o) = true.
Proof. intros [[Hb Hs]%validate_shape_iff _]. by apply row_check_ok. Qed.

(** A body that ends by installing [o]. *)
Lemma install_implements what msg (body : Tx Operation) d o s (spec : Spec Operation) :
  represents d s -> well_shaped o ->
  body (mk_txn d d []) = (operation ← loadOperation; _ ← commit msg; mret operation)
                           (mk_txn d (tables_of o) []) ->
  spec s = install o s ->
  exists d', transaction what body (mk_world d []) = ((spec s).1, mk_world d' []) /\
             represents d' (spec s).2.
Proof.
  intros Hr Hw Hbody ->. pose proof (represents_install o d s Hw Hr) as R.
  rewrite transaction_run, Hbody. erewrite load_commit by done. unfold install in *.
  destruct (admit_operation o) as [o'|e] eqn:E; [|by exists d].
  apply admit_Ok in E as ->. by exists (tables_of o).
Qed.

Lemma delete_latest_tables o : delete_latest (tables_of o) = Some (tt, empty_db).
Proof.
  unfold delete_latest, empty_db. cbn. do 3 f_equal; apply filter_none.
  - intros q ([i s] & -> & _)%list_elem_of_fmap. cbn. by rewrite String.eqb_refl.
  - intros q ([i s] & -> & _)%list_elem_of_fmap. cbn. by rewrite String.eqb_refl.
Qed.

Lemma enqueue_body id kind request now d :
  well_shaped (queued_operation id kind request now) ->
  (_ ← statement "persist queued operation" (insert_latest (queued_row id kind request now));
   _ ← for_each_m (fun p => statement "persist reviewed operation item"
                             (insert_requested (requested_row id request p)))
         (indexed (req_Items request));
   operation ← loadOperation; _ ← commit "commit operation enqueue"; mret operation)
    (mk_txn d empty_db [])
  = (operation ← loadOperation; _ ← commit "commit operation enqueue"; mret operation)
      (mk_txn d (tables_of (queued_operation id kind request now)) []).
Proof.
  intros Hw. pose proof Hw as [[Hb _]%validate_shape_iff _].
  pose proof (row_check_shaped _ Hw) as Hc.
  change (row_of (queued_operation id kind request now)) with (queued_row id kind request now) in Hc.
  unfold mbind at 1, M_bind at 1. erewrite statement_run
    by (unfold insert_latest; cbn [operation_latest empty_db]; by rewrite Hc).
  cbv beta iota. unfold mbind at 1, M_bind at 1.
  rewrite (for_each_statement_run _ _ _ _ _ (tables_of (queued_operation id kind request now))); [done|].
  apply (insert_requested_all id request (queued_row id kind request now)); [done|].
  apply validateRequest_facts, Hb.
Qed.

Theorem EnqueueKind_implements id kind request now :
  implements (EnqueueKind id kind request now) (spec_EnqueueKind id kind request now).
Proof.
  unfold EnqueueKind, spec_EnqueueKind.
  apply implements_lift; intros [] Hid%map_err_Ok. apply implements_lift; intros ? Hk%reject_if_Ok.
  apply implements_lift; intros [] Hr%map_err_Ok. apply implements_lift; intros [] Hn%map_err_Ok.
  rewrite andb_false_iff, !negb_false_iff, !bool_decide_eq_true in Hk.
  pose proof (queued_shape id kind request now Hid Hk Hr Hn) as Hw.
  intros d s Hrep. destruct (blocks_enqueue s) eqn:B.
  - eapply (transaction_implements _ _ _ _ (Err ErrActive) d); unfold transition; rewrite ?B; try done.
    destruct s as [o|]; [|done]. destruct Hrep as [-> _]. eexists. run_statement.
    change (blocks_enqueue (Some o)) with
      (State_active (c_state (row_of o)) || bool_decide (c_inventory_state (row_of o) = InventoryPending)) in B.
    cbn [operation_latest tables_of]. unfold mbind at 1, M_bind at 1. rewrite B.
    reflexivity.
  - eapply install_implements; [done|exact Hw| |unfold transition; by rewrite B].
    rewrite <- enqueue_body by done. run_statement. destruct s as [o|].
    + destruct Hrep as [-> _].
      change (blocks_enqueue (Some o)) with
        (State_active (c_state (row_of o)) || bool_decide (c_inventory_state (row_of o) = InventoryPending)) in B.
      cbn [operation_latest tables_of]. unfold mbind at 1, M_bind at 1. rewrite B.
      erewrite statement_run by apply delete_latest_tables. done.
    + by rewrite Hrep.
Qed.

Lemma load_empty d : loadOperation (mk_txn d empty_db []) = (Err ErrNotFound, mk_txn d empty_db []).
Proof. done. Qed.

Theorem Latest_implements : implements Latest spec_Latest.
Proof.
  intros d [o|] Hr; cbn in Hr.
  - destruct Hr as [-> Hw]. exists (tables_of o). split; [|by cbn].
    unfold Latest. rewrite transaction_run. erewrite load_commit by done.
    unfold spec_Latest. by destruct (admit_operation o) as [o'|] eqn:E; [apply admit_Ok in E as ->|].
  - subst d. by exists empty_db.
Qed.

Lemma PendingReconciliation_implements : implements PendingReconciliation spec_PendingReconciliation.
Proof.
  intros d s Hr. destruct (Latest_implements d s Hr) as (d' & E & R).
  unfold PendingReconciliation, spec_PendingReconciliation, mbind, M_bind. rewrite E.
  destruct (spec_Latest s) as [[o|e] s']; cbn in *; [|by exists d'].
  unfold lift, may_stay_pending.
  exists d'. split; [|done]. f_equal. destruct (op_State o); cbn; rewrite ?orb_true_r, ?orb_false_r; done.
Qed.

Theorem Claim_implements now : implements (Claim now) (spec_Claim now).
Proof.
  unfold Claim, spec_Claim. apply implements_lift; intros [] Hn%map_err_Ok.
  intros d [o|] Hr; cbn in Hr.
  2: { subst d. by exists empty_db. }
  destruct Hr as [-> Hw]. destruct (decide (op_State o = StateQueued)) as [Q|Q].
  - eapply (install_implements _ "commit operation claim"); [by split|by apply (claimed_shape now o)| |].
    2: { unfold transition; cbv beta iota. by rewrite bool_decide_true. }
    run_statement. cbn [operation_latest tables_of].
    change (c_state (row_of o)) with (op_State o). rewrite bool_decide_true by done.
    unfold mbind at 1, M_bind at 1. erewrite statement_run.
    2: { apply (update_latest_tables _ _ o (row_of (claimed now o))).
         - cbn. rewrite String.eqb_refl, bool_decide_true by done.
           destruct Hw as [[_ Hs]%validate_shape_iff _]. unfold state_ok in Hs. rewrite Q in Hs.
           destruct Hs as (-> & _). done.
         - unfold set_claimed, row_of, claimed. row_fields. by rewrite (stamp_valid now).
         - by apply row_check_shaped, claimed_shape. }
    done.
  - eapply (transaction_implements _ _ _ _ (Err ErrNoQueued) (tables_of o)); unfold transition; cbv beta iota;
      rewrite ?bool_decide_false by done; try done.
    eexists. run_statement. cbn [operation_latest tables_of].
    change (c_state (row_of o)) with (op_State o). by rewrite bool_decide_false.
Qed.

Theorem UpdatePhase_implements id phase now :
  implements (UpdatePhase id phase now) (spec_UpdatePhase id phase now).
Proof.
  unfold UpdatePhase, spec_UpdatePhase. apply implements_lift; intros [] Hid%map_err_Ok.
  apply implements_lift; intros [] Hn%map_err_Ok.
  intros d [o|] Hr; cbn in Hr.
  2: { subst d. by exists empty_db. }
  destruct Hr as [-> Hw].
  destruct (String.eqb (op_ID o) id && bool_decide (op_State o = StateRunning)
            && validPhaseTransition (op_Phase o) phase) eqn:B.
  - assert (op_ID o = id /\ op_State o = StateRunning /\ validPhaseTransition (op_Phase o) phase = true)
      as (Eid & Est & Eph) by (clear - B; bool_prop; done).
    pose proof (advanced_shape phase now o Hw ltac:(done) ltac:(done) Hn) as Hw'.
    eapply (transaction_implements _ _ _ _ (Ok tt) (tables_of (advanced phase now o)));
      unfold transition; cbv beta iota; rewrite ?B; [|done|done].
    eexists. run_statement. cbn [operation_latest tables_of].
    change (c_operation_id (row_of o)) with (op_ID o).
    rewrite (proj2 (String.eqb_eq (op_ID o) id)) by done.
    change (c_state (row_of o)) with (op_State o). change (c_phase (row_of o)) with (op_Phase o).
    rewrite bool_decide_true by done.
    rewrite Eph. cbn [negb orb].
    unfold mbind at 1, M_bind at 1. erewrite statement_run.
    2: { apply (update_latest_tables _ _ o (row_of (advanced phase now o))); [|done|by apply row_check_shaped].
         change (String.eqb (op_ID o) id && bool_decide (op_State o = StateRunning)
                 && bool_decide (op_Phase o = op_Phase o) = true).
         by rewrite (proj2 (String.eqb_eq (op_ID o) id)), !bool_decide_true. }
    reflexivity.
  - eapply (transaction_implements _ _ _ _ (Err ErrStateChanged) (tables_of o)); unfold transition; cbv beta iota; rewrite ?B; try done.
    eexists. run_statement. cbn [operation_latest tables_of].
    change (c_operation_id (row_of o)) with (op_ID o).
    destruct (String.eqb (op_ID o) id); [|done]. cbn [andb] in B.
    change (c_state (row_of o)) with (op_State o). change (c_phase (row_of o)) with (op_Phase o).
    apply andb_false_iff in B as [-> | ->]; [done|]. by rewrite orb_true_r.
Qed.

(** ** Terminal results *)

Lemma validate_items_loop_intro seen items :
  Forall (fun it => validateItemName (item_Name it) = Ok tt /\ known_item_state (item_State it) = true
                    /\ validateCode (item_Code it) true = Ok tt) items ->
  NoDup (item_Name <$> items) -> Forall (fun it => item_Name it ∉ seen) items ->
  validate_items_loop seen items = Ok tt.
Proof.
  revert seen. induction items as [|it items IH]; intros seen Hf Hd Hs; [done|].
  apply Forall_cons in Hf as [(Hn & Hk & Hc) Hf]. apply Forall_cons in Hs as [Hs1 Hs].
  cbn in Hd. apply NoDup_cons in Hd as [Hd1 Hd]. cbn. rewrite Hn, Hk, Hc. cbn.
  rewrite bool_decide_false by done. cbn. apply IH; [done..|].
  apply Forall_forall. intros it' Hin. rewrite Forall_forall in Hs. specialize (Hs it' Hin).
  apply not_elem_of_cons. split; [|done]. intros E. destruct Hd1. rewrite <- E.
  by apply list_elem_of_fmap_2.
Qed.

Lemma ambiguous_items_valid code request :
  validateRequest request = Ok tt -> validateCode code true = Ok tt ->
  validateItems (ambiguous_items code (req_Items request)) = Ok tt.
Proof.
  intros [_ Hc Hn Hd _ _]%validateRequest_facts Hcode. unfold validateItems, ambiguous_items.
  rewrite (proj2 (reject_if_Ok _ _ tt)).
  - cbn. apply validate_items_loop_intro.
    + apply Forall_fmap. eapply Forall_impl; [exact Hn|]. by intros s Hs.
    + rewrite <- list_fmap_compose. unfold compose; cbn. by rewrite list_fmap_id.
    + apply Forall_forall. intros it _. apply not_elem_of_nil.
  - unfold maximumItemResults, blen in *. rewrite length_fmap. lia.
Qed.

Lemma ambiguous_items_scope code names : validateResultScope names (ambiguous_items code names) = Ok tt.
Proof.
  unfold validateResultScope, ambiguous_items. rewrite (proj2 (reject_if_Ok _ _ tt)).
  - cbn. induction names as [|n names IH]; [done|]. cbn. by rewrite String.eqb_refl.
  - unfold blen. rewrite length_fmap. apply negb_false_iff. lia.
Qed.

(** Updating the row, inserting the item results and reading back. *)
Lemma terminal_tail {A} msg1 msg2 (rest : Tx A) id r0 items now o d set_ :
  op_ID o = id -> op_State o = StateRunning -> well_shaped o -> well_shaped (finished r0 items now o) ->
  validateItems items = Ok tt -> set_ (row_of o) = row_of (finished r0 items now o) ->
  (changed ← statement msg1
     (update_latest (fun r => String.eqb (c_operation_id r) id
                              && bool_decide (c_state r = StateRunning)) set_);
   _ ← requireOneChanged changed; _ ← insert_results msg2 id items; rest)
    (mk_txn d (tables_of o) [])
  = rest (mk_txn d (tables_of (finished r0 items now o)) []).
Proof.
  intros Hid Hst Hw Hw' Hitems Hset. unfold mbind at 1, M_bind at 1. erewrite statement_run.
  2: { apply (update_latest_tables _ _ o (row_of (finished r0 items now o))); [|done|by apply row_check_shaped].
       change (String.eqb (op_ID o) id && bool_decide (op_State o = StateRunning) = true).
       by rewrite (proj2 (String.eqb_eq (op_ID o) id)), bool_decide_true. }
  cbv beta iota. unfold requireOneChanged at 1, lift at 1, mbind at 1, M_bind at 1. cbv beta iota.
  unfold mbind at 1, M_bind at 1. destruct Hw as [[Hb Hs]%validate_shape_iff _].
  unfold state_ok in Hs. rewrite Hst in Hs. destruct Hs as (_ & _ & _ & _ & _ & _ & -> & _).
  change (result_rows (op_ID o) []) with (@nil ResultRow).
  rewrite insert_results_all by done. by rewrite <- Hid.
Qed.

(** The result the source passes to the private [finish] by either route. *)
Record finishable (r0 : Result) (allowPending : bool) : Prop := mk_finishable {
  fb_terminal : State_terminal (res_State r0) = true;
  fb_code : validateCode (res_Code r0) true = Ok tt;
  fb_inventory : validateInventory (res_Inventory r0) (may_stay_pending (res_State r0)) = Ok tt;
  fb_pending : allowPending = true -> validateInventory (res_Inventory r0) true = Ok tt;
  fb_output : validateOutput (res_Output r0) = Ok tt;
  fb_items : validateItems (res_Items r0) = Ok tt
}.

Lemma inventory_more v b : validateInventory v false = Ok tt -> validateInventory v b = Ok tt.
Proof. unfold validateInventory. by destruct (inv_State v), b. Qed.

Lemma executor_finishable r0 : validateExecutorResult r0 = Ok tt -> finishable r0 false.
Proof.
  unfold validateExecutorResult. intros H. apply bind_Ok in H as (? & Ht%reject_if_Ok & H).
  apply bind_Ok in H as ([] & Hc%map_err_Ok & H). apply bind_Ok in H as ([] & Hi & H).
  apply bind_Ok in H as ([] & Ho & H). bool_prop. constructor; try done. by apply inventory_more.
Qed.

Lemma uncertain_finishable state code : may_stay_pending state = true -> validateCode code true = Ok tt ->
  finishable (uncertain_result state code) true.
Proof. intros Hs Hc. constructor; cbn; try done; [by destruct state|by rewrite Hs]. Qed.

Lemma finish_implements id r0 now allowPending : finishable r0 allowPending ->
  implements (finish id r0 now allowPending) (spec_finish id r0 now allowPending).
Proof.
  intros [Ht Hc Hi Hp Ho Hit]. unfold finish, spec_finish.
  apply implements_lift; intros [] Hid%map_err_Ok. apply implements_lift; intros [] Hn%map_err_Ok.
  replace (reject_if (allowPending && _) (ErrInvalid "")) with (Ok (E:=Error) tt).
  2: { symmetry. apply reject_if_Ok. destruct allowPending; [|done].
       rewrite Ht, Hc, Hp, Ho, Hit by done. done. }
  intros d [o|] Hr; cbn in Hr; [|subst d; by exists empty_db].
  destruct Hr as [-> Hw].
  destruct (String.eqb (op_ID o) id && bool_decide (op_State o = StateRunning)) eqn:B.
  2: { eapply (transaction_implements _ _ _ _ (Err ErrStateChanged) (tables_of o)); unfold transition;
         cbv beta iota; rewrite ?B; try done.
       eexists. unfold mbind at 1, M_bind at 1, attempt. rewrite query_run. unfold state_of.
       cbn [operation_latest tables_of]. change (c_operation_id (row_of o)) with (op_ID o).
       change (c_state (row_of o)) with (op_State o). destruct (String.eqb (op_ID o) id); [|done].
       apply bool_decide_eq_false in B. by destruct (op_State o). }
  assert (op_ID o = id /\ op_State o = StateRunning) as [Eid Est] by (clear - B; bool_prop; done).
  pose proof Hw as [[Hb _]%validate_shape_iff _].
  set (items := if allowPending && (blen (res_Items r0) =? 0)
                then ambiguous_items (res_Code r0) (req_Items (op_Request o)) else res_Items r0).
  assert (Hitems : validateItems items = Ok tt).
  { unfold items. case_match; [|done]. by apply ambiguous_items_valid; [apply Hb|]. }
  assert (Hbody : forall k,
    (row ← attempt (query "inspect running operation" (state_of id));
      match row with
      | Ok (Some StateRunning) => '(requested, _) ← loadRequestedItems id; k requested
      | _ => fail ErrStateChanged
      end) (mk_txn (tables_of o) (tables_of o) [])
    = (k (req_Items (op_Request o)) : Tx Operation) (mk_txn (tables_of o) (tables_of o) [])).
  { intros k. unfold mbind at 1, M_bind at 1, attempt. rewrite query_run. unfold state_of.
    cbn [operation_latest tables_of]. change (c_operation_id (row_of o)) with (op_ID o).
    change (c_state (row_of o)) with (op_State o). rewrite Est, Eid, String.eqb_refl.
    unfold mbind at 1, M_bind at 1. rewrite <- Eid, load_requested_tables by done. done. }
  destruct (validateResultScope (req_Items (op_Request o)) items) as [[]|e] eqn:S.
  - assert (Hw' : well_shaped (finished r0 items now o)) by by apply finished_shape.
    eapply (install_implements _ "commit terminal operation"); [by split|exact Hw'| |].
    + rewrite Hbody. cbv beta zeta. fold items.
      rewrite S. unfold mbind at 1, M_bind at 1, lift at 1. cbv beta iota. cbn [invalid_if map_err].
      apply terminal_tail; [done..|]. unfold set_finished, row_of, finished. row_fields.
      by rewrite (stamp_valid now).
    + unfold transition; cbv beta iota. rewrite B. fold items. by rewrite S.
  - eapply (transaction_implements _ _ _ _ (Err (ErrInvalid e)) (tables_of o)); unfold transition;
      cbv beta iota; rewrite ?B; fold items; rewrite ?S; try done.
    eexists. rewrite Hbody. cbv beta zeta. fold items. rewrite S. reflexivity.
Qed.

Theorem Finish_implements id r0 now : implements (Finish id r0 now) (spec_Finish id r0 now).
Proof.
  unfold Finish, spec_Finish. apply implements_lift; intros [] H%map_err_Ok.
  by apply finish_implements, executor_finishable.
Qed.

Theorem FinishUncertain_implements id state code now :
  implements (FinishUncertain id state code now) (spec_FinishUncertain id state code now).
Proof.
  unfold FinishUncertain, spec_FinishUncertain.
  apply implements_lift; intros ? Hs%reject_if_Ok.
  assert (Hp : may_stay_pending state = true).
  { rewrite andb_false_iff, !negb_false_iff, !bool_decide_eq_true in Hs. by destruct Hs as [-> | ->]. }
  destruct (validateCode code true) as [[]|e] eqn:Hc.
  - eapply implements_ext; [done| |apply (finish_implements id _ now true), uncertain_finishable; done].
    intros s. unfold spec_finish, invalid_if, mbind, M_bind, lift.
    destruct (map_err ErrInvalid (validateID id)) as [[]|], (map_err ErrInvalid (validateTime now true)) as [[]|]; done.
  - intros d s Hr. exists d. unfold finish, invalid_if, mbind, M_bind, lift.
    destruct (map_err ErrInvalid (validateID id)) as [[]|], (map_err ErrInvalid (validateTime now true)) as [[]|];
      try done. cbn [uncertain_result res_State res_Code]. rewrite Hc. cbn. by rewrite orb_true_r.
Qed.

Theorem InterruptRunning_implements now : implements (InterruptRunning now) (spec_InterruptRunning now).
Proof.
  unfold InterruptRunning, spec_InterruptRunning. apply implements_lift; intros [] Hn%map_err_Ok.
  intros d [o|] Hr; cbn in Hr; [|subst d; by exists empty_db].
  destruct Hr as [-> Hw]. rewrite transaction_run. unfold transition; cbv beta iota.
  unfold mbind at 1, M_bind at 1. rewrite query_run. cbn [operation_latest tables_of].
  change (c_state (row_of o)) with (op_State o). change (c_operation_id (row_of o)) with (op_ID o).
  destruct (bool_decide (op_State o = StateRunning)) eqn:Est; [|by exists (tables_of o)].
  apply bool_decide_eq_true in Est. pose proof Hw as [[Hb _]%validate_shape_iff _].
  unfold mbind at 1, M_bind at 1. rewrite load_requested_tables by done. cbv beta iota.
  set (items := ambiguous_items "service_restarted" (req_Items (op_Request o))).
  set (o' := finished (uncertain_result StateInterrupted "service_restarted") items now o).
  assert (Hit : validateItems items = Ok tt) by by apply ambiguous_items_valid; [apply Hb|].
  assert (Hw' : well_shaped o') by (apply finished_shape; try done; apply ambiguous_items_scope).
  pose proof (represents_install o' (tables_of o) (Some o) Hw' (conj eq_refl Hw)) as R.
  assert (Hset : set_interrupted (formatTime now) (row_of o) = row_of o').
  { unfold set_interrupted, row_of, o', finished. row_fields. by rewrite (stamp_valid now). }
  rewrite (terminal_tail _ _ _ _ (uncertain_result StateInterrupted "service_restarted") items now o) by done.
  unfold mbind at 1, M_bind at 1. erewrite load_tables by done.
  unfold install, mbind, M_bind in *. destruct (admit_operation o') as [o1|e] eqn:E.
  - apply admit_Ok in E as ->. by exists (tables_of o').
  - by exists (tables_of o).
Qed.

Theorem CompleteReconciliation_implements id inventory now :
  implements (CompleteReconciliation id inventory now) (spec_CompleteReconciliation id inventory now).
Proof.
  unfold CompleteReconciliation, spec_CompleteReconciliation.
  apply implements_lift; intros [] Hid%map_err_Ok. apply implements_lift; intros [] Hi%map_err_Ok.
  apply implements_lift; intros [] Hn%map_err_Ok.
  intros d [o|] Hr; cbn in Hr; [|subst d; by exists empty_db].
  destruct Hr as [-> Hw].
  set (applies := fun r : LatestRow => String.eqb (c_operation_id r) id
         && (bool_decide (c_state r = StateInterrupted) || bool_decide (c_state r = StateAmbiguous))
         && bool_decide (c_inventory_state r = InventoryPending)).
  assert (Ha : applies (row_of o) = String.eqb (op_ID o) id && may_stay_pending (op_State o)
                 && bool_decide (inv_State (op_Inventory o) = InventoryPending)).
  { unfold applies, row_of. row_fields. do 2 f_equal. by destruct (op_State o). }
  destruct (String.eqb (op_ID o) id && may_stay_pending (op_State o)
            && bool_decide (inv_State (op_Inventory o) = InventoryPending)) eqn:B.
  - assert (Hw' : well_shaped (reconciled inventory now o)).
    { apply reconciled_shape; try done. bool_prop. done. }
    eapply (install_implements _ "commit operation reconciliation"); [by split|exact Hw'| |].
    2: { unfold transition; cbv beta iota. by rewrite B. }
    unfold mbind at 1, M_bind at 1. erewrite statement_run.
    2: { apply (update_latest_tables applies _ o (row_of (reconciled inventory now o)));
           [done|done|by apply row_check_shaped]. }
    done.
  - eapply (transaction_implements _ _ _ _ (Err ErrStateChanged) (tables_of o)); unfold transition;
      cbv beta iota; rewrite ?B; try done.
    eexists. unfold mbind at 1, M_bind at 1. erewrite statement_run.
    2: { unfold update_latest. cbn [operation_latest tables_of]. fold applies. by rewrite Ha. }
    done.
Qed.

(** The operation store as a machine driven by commands: refinement along
    whole histories, with and without database faults, and the lifecycle the
    histories follow. *)

(** One call of a store method. *)
Inductive Command :=
| CEnqueue (id : string) (kind : Kind) (request : Request) (now : time)
| CLatest
| CClaim (now : time)
| CUpdatePhase (id : string) (phase : Phase) (now : time)
| CFinish (id : string) (r : Result) (now : time)
| CFinishUncertain (id : string) (state : State) (code : string) (now : time)
| CInterruptRunning (now : time)
| CPendingReconciliation
| CCompleteReconciliation (id : string) (inventory : InventoryResult) (now : time).

(** What a call returns besides its error. *)
Inductive Reply := ROperation (o : Operation) | RNothing.

Definition reply_operation {S} (m : M S Error Operation) : M S Error Reply :=
  o ← m; mret (ROperation o).
Definition reply_unit {S} (m : M S Error unit) : M S Error Reply := _ ← m; mret RNothing.
Definition reply_option {S} (m : M S Error (option Operation)) : M S Error Reply :=
  o ← m; mret (match o with Some o => ROperation o | None => RNothing end).

Definition run_command (c : Command) : Store Reply :=
  match c with
  | CEnqueue id kind request now => reply_operation (EnqueueKind id kind request now)
  | CLatest => reply_operation Latest
  | CClaim now => reply_operation (Claim now)
  | CUpdatePhase id phase now => reply_unit (UpdatePhase id phase now)
  | CFinish id r now => reply_operation (Finish id r now)
  | CFinishUncertain id state code now => reply_operation (FinishUncertain id state code now)
  | CInterruptRunning now => reply_option (InterruptRunning now)
  | CPendingReconciliation => reply_operation PendingReconciliation
  | CCompleteReconciliation id inventory now => reply_operation (CompleteReconciliation id inventory now)
  end.

Definition spec_command (c : Command) : Spec Reply :=
  match c with
  | CEnqueue id kind request now => reply_operation (spec_EnqueueKind id kind request now)
  | CLatest => reply_operation spec_Latest
  | CClaim now => reply_operation (spec_Claim now)
  | CUpdatePhase id phase now => reply_unit (spec_UpdatePhase id phase now)
  | CFinish id r now => reply_operation (spec_Finish id r now)
  | CFinishUncertain id state code now => reply_operation (spec_FinishUncertain id state code now)
  | CInterruptRunning now => reply_option (spec_InterruptRunning now)
  | CPendingReconciliation => reply_operation spec_PendingReconciliation
  | CCompleteReconciliation id inventory now => reply_operation (spec_CompleteReconciliation id inventory now)
  end.

Lemma command_implements c : implements (run_command c) (spec_command c).
Proof.
  destruct c; apply implements_then; auto using EnqueueKind_implements, Latest_implements,
    Claim_implements, UpdatePhase_implements, Finish_implements, FinishUncertain_implements,
    InterruptRunning_implements, PendingReconciliation_implements, CompleteReconciliation_implements.
Qed.

(** ** Database faults *)

Lemma load_sound : fault_sound loadOperation.
Proof. unfold loadOperation, loadRequestedItems. sound. Qed.
Lemma insert_results_sound what id items : fault_sound (insert_results what id items).
Proof. unfold insert_results. sound. Qed.
#[local] Hint Resolve load_sound insert_results_sound : sound.

Lemma load_quiet : preserves same_durable loadOperation.
Proof. unfold loadOperation, loadRequestedItems. quiet. Qed.
Lemma load_requested_quiet id : preserves same_durable (loadRequestedItems id).
Proof. unfold loadRequestedItems. quiet. Qed.
Lemma require_quiet n : preserves same_durable (requireOneChanged n).
Proof. unfold requireOneChanged. quiet. Qed.
Lemma insert_results_quiet what id items : preserves same_durable (insert_results what id items).
Proof. unfold insert_results. apply preserves_for_each; [apply _|]. intros. apply statement_quiet. Qed.
#[local] Hint Resolve load_quiet load_requested_quiet require_quiet insert_results_quiet : go.

Lemma EnqueueKind_safe id kind request now : fault_safe (EnqueueKind id kind request now).
Proof.
  unfold EnqueueKind. do 4 (apply safe_lift; intros _).
  apply safe_transaction; [sound|]. commits_last.
Qed.

Lemma Latest_safe : fault_safe Latest.
Proof. apply safe_transaction; [sound|commits_last]. Qed.

Lemma Claim_safe now : fault_safe (Claim now).
Proof. unfold Claim. apply safe_lift; intros _. apply safe_transaction; [sound|commits_last]. Qed.

Lemma UpdatePhase_safe id phase now : fault_safe (UpdatePhase id phase now).
Proof. unfold UpdatePhase. do 2 (apply safe_lift; intros _). apply safe_transaction; [sound|commits_last]. Qed.

Lemma finish_safe id r0 now allowPending : fault_safe (finish id r0 now allowPending).
Proof.
  unfold finish. do 3 (apply safe_lift; intros _). apply safe_transaction.
  - eapply sound_ext; [|apply (sound_guard (query "inspect running operation" (state_of id)) (fun s => bool_decide (s = StateRunning))
      ('(requested, _) ← loadRequestedItems id;
       let items := if allowPending && (blen (res_Items r0) =? 0)
                    then ambiguous_items (res_Code r0) requested else res_Items r0 in
       _ ← lift (invalid_if (validateResultScope requested items));
       changed ← statement "persist terminal operation"
          (update_latest (fun r => String.eqb (c_operation_id r) id
                                   && bool_decide (c_state r = StateRunning))
             (set_finished r0 (formatTime now)));
       _ ← requireOneChanged changed;
       _ ← insert_results "persist operation item result" id items;
       operation ← loadOperation;
       _ ← commit "commit terminal operation";
       mret operation) ErrStateChanged); [apply sound_query|]].
    + intros t. apply M_bind_ext. by intros [[[]|]|] s.
    + unfold loadRequestedItems. sound.
  - apply on_error_bind; [apply _| |intros row].
    { apply preserves_attempt, query_quiet. }
    destruct row as [[[]|]|]; try (apply on_error_of_preserves; solve [eauto with go]).
    commits_last.
Qed.

Lemma Finish_safe id r0 now : fault_safe (Finish id r0 now).
Proof. unfold Finish. apply safe_lift; intros _. apply finish_safe. Qed.

Lemma FinishUncertain_safe id state code now : fault_safe (FinishUncertain id state code now).
Proof. unfold FinishUncertain. apply safe_lift; intros _. apply finish_safe. Qed.

Lemma InterruptRunning_safe now : fault_safe (InterruptRunning now).
Proof.
  unfold InterruptRunning. apply safe_lift; intros _.
  apply safe_transaction; [unfold loadRequestedItems; sound|]. commits_last.
Qed.

Lemma PendingReconciliation_safe : fault_safe PendingReconciliation.
Proof.
  apply safe_then, Latest_safe.
Qed.

Lemma CompleteReconciliation_safe id inventory now : fault_safe (CompleteReconciliation id inventory now).
Proof.
  unfold CompleteReconciliation. do 3 (apply safe_lift; intros _).
  apply safe_transaction; [sound|commits_last].
Qed.

Lemma command_safe c : fault_safe (run_command c).
Proof.
  destruct c; apply safe_reply; auto using EnqueueKind_safe, Latest_safe, Claim_safe, UpdatePhase_safe,
    Finish_safe, FinishUncertain_safe, InterruptRunning_safe, PendingReconciliation_safe,
    CompleteReconciliation_safe.
Qed.

(** ** Lifecycle *)

(** The state of the latest operation, as callers can observe it. *)
Definition phase_rank (p : Phase) : Z :=
  match p with
  | PhaseQueued => 0 | PhaseRevalidating => 1 | PhaseExecuting => 2 | PhaseRefreshingInventory => 3
  | PhaseNone => 4 | PhaseOther _ => 5
  end.

(** How one call may change the latest operation: a labelled transition
    system over calls and their results. *)
Inductive evolves : Command -> result Error Reply -> option Operation -> option Operation -> Prop :=
| evolves_error c e s : evolves c (Err e) s s
| evolves_read c o :
    c = CLatest \/ c = CPendingReconciliation -> evolves c (Ok (ROperation o)) (Some o) (Some o)
| evolves_idle now s :
    (forall o, s = Some o -> op_State o <> StateRunning) -> evolves (CInterruptRunning now) (Ok RNothing) s s
| evolves_accept id kind request now s o :
    blocks_enqueue s = false -> op_State o = StateQueued -> op_ID o = id -> op_Request o = request ->
    evolves (CEnqueue id kind request now) (Ok (ROperation o)) s (Some o)
| evolves_claim now o o' :
    op_State o = StateQueued -> op_State o' = StateRunning -> op_ID o' = op_ID o ->
    op_Request o' = op_Request o -> op_Phase o' = PhaseRevalidating ->
    evolves (CClaim now) (Ok (ROperation o')) (Some o) (Some o')
| evolves_phase id phase now o o' :
    op_State o = StateRunning -> op_State o' = StateRunning -> op_ID o = id -> op_ID o' = id ->
    op_Request o' = op_Request o -> op_Phase o' = phase -> phase_rank (op_Phase o) < phase_rank phase ->
    evolves (CUpdatePhase id phase now) (Ok RNothing) (Some o) (Some o')
| evolves_finish c o o' :
    (exists now, c = CInterruptRunning now) \/ (exists r now, c = CFinish (op_ID o) r now) \/
      (exists state code now, c = CFinishUncertain (op_ID o) state code now) ->
    op_State o = StateRunning -> State_terminal (op_State o') = true -> op_ID o' = op_ID o ->
    op_Request o' = op_Request o -> validateOperation o' = Ok tt ->
    evolves c (Ok (ROperation o')) (Some o) (Some o')
| evolves_reconcile id inventory now o o' :
    inv_State (op_Inventory o) = InventoryPending -> op_Inventory o' = inventory ->
    inv_State inventory <> InventoryPending -> may_stay_pending (op_State o) = true ->
    op_State o' = op_State o -> op_ID o = id -> op_ID o' = id ->
    op_Code o' = op_Code o -> op_Items o' = op_Items o ->
    evolves (CCompleteReconciliation id inventory now) (Ok (ROperation o')) (Some o) (Some o').

Lemma install_state (o : Operation) s r s' : install o s = (r, s') ->
  (r = Ok o /\ s' = Some o /\ validateOperation o = Ok tt) \/ (is_err r = true /\ s' = s).
Proof.
  unfold install, admit_operation. destruct (validateOperation o) as [[]|]; intros [= <- <-]; [left|right]; done.
Qed.

(** A lifted check either ends the call with the state unchanged or passes. *)
Lemma lift_step {S A B} (r : result Error A) (f : A -> M S Error B) s x s' :
  (lift r ≫= f) s = (x, s') ->
  (exists e, x = Err e /\ s' = s) \/ (exists a, r = Ok a /\ f a s = (x, s')).
Proof. destruct r as [a|e]; [right; by exists a|]. intros [= <- <-]. left. by exists e. Qed.

Lemma reply_step {S A B} (m : M S Error A) (f : A -> B) s x s' :
  (a ← m; mret (f a)) s = (x, s') ->
  (exists e, m s = (Err e, s') /\ x = Err e) \/ (exists a, m s = (Ok a, s') /\ x = Ok (f a)).
Proof.
  unfold mbind, M_bind. destruct (m s) as [[a|e] s1]; intros [= <- <-]; [right|left]; eauto.
Qed.

Lemma validPhaseTransition_rank p q : validPhaseTransition p q = true -> phase_rank p < phase_rank q.
Proof.
  unfold validPhaseTransition. destruct p; try done; intros H; bool_prop; subst; try done.
  apply orb_true_iff in H as [H|H]; bool_prop; by subst.
Qed.

Lemma terminal_scope o : validate_shape o = Ok tt -> State_terminal (op_State o) = true ->
  item_Name <$> op_Items o = req_Items (op_Request o).
Proof.
  intros [_ Hs]%validate_shape_iff Ht.
  assert (H : validateResultScope (req_Items (op_Request o)) (op_Items o) = Ok tt).
  { unfold state_ok in Hs. destruct (op_State o); try done; apply Hs. }
  unfold validateResultScope in H. apply bind_Ok in H as (? & Hl%reject_if_Ok & H).
  apply negb_false_iff, Z.eqb_eq in Hl. unfold blen in Hl.
  revert Hl H. generalize (op_Items o) as items. generalize (req_Items (op_Request o)) as names.
  induction names as [|n names IH]; intros [|it items] Hl H; try done.
  cbn in *. destruct (String.eqb_spec (item_Name it) n); [|done]. f_equal; [done|]. apply IH; [lia|done].
Qed.

(** Passes the next check of a call, or closes the goal when it fails. *)
Ltac pass H := apply lift_step in H as [(? & ? & ?)|(? & ? & H)]; [left; eexists; split; eassumption|].

(** Shape of a specification method: an error with no change, or success. *)
Definition fails_quietly {A} (x : result Error A) (s s' : option Operation) : Prop :=
  exists e, x = Err e /\ s' = s.

Lemma install_step o s x s' : install o s = (x, s') ->
  fails_quietly x s s' \/ (x = Ok o /\ s' = Some o /\ validateOperation o = Ok tt).
Proof.
  unfold install, admit_operation. destruct (validateOperation o) as [[]|]; intros [= <- <-];
    [right|left]; [done|by eexists].
Qed.

Lemma spec_finish_step id r0 now allowPending s x s' :
  spec_finish id r0 now allowPending s = (x, s') ->
  fails_quietly x s s' \/
  (exists o items, s = Some o /\ op_ID o = id /\ op_State o = StateRunning /\
     x = Ok (finished r0 items now o) /\ s' = Some (finished r0 items now o) /\
     validateOperation (finished r0 items now o) = Ok tt).
Proof.
  unfold spec_finish. intros H. do 2 pass H. unfold transition in H.
  destruct s as [o|]; [|simplify_eq; by left; eexists].
  destruct (_ && _)%bool eqn:B; [|simplify_eq; by left; eexists]. bool_prop.
  case_match; [|simplify_eq; by left; eexists].
  apply install_step in H as [?|(-> & -> & ?)]; [by left|right]. eauto 10.
Qed.

Lemma evolves_quiet {A} c (m : Spec A) (f : A -> Reply) s x s' :
  (a ← m; mret (f a)) s = (x, s') ->
  (forall y, m s = (y, s') -> fails_quietly y s s' \/ (exists a, y = Ok a /\ evolves c (Ok (f a)) s s')) ->
  evolves c x s s'.
Proof.
  intros [(e & E & ->)|(a & E & ->)]%reply_step H.
  - destruct (H _ E) as [(e' & _ & ->)|(a & ? & _)]; [constructor|done].
  - destruct (H _ E) as [(e' & ? & _)|(a' & [= ->] & ?)]; done.
Qed.

Lemma spec_command_evolves c s r s' : spec_command c s = (r, s') -> evolves c r s s'.
Proof.
  intros E. destruct c; cbn [spec_command] in E; unfold reply_operation, reply_unit, reply_option in E;
    (eapply evolves_quiet; [exact E|]); clear E r; intros y E.
  - unfold spec_EnqueueKind in E. do 4 pass E. unfold transition in E.
    destruct (blocks_enqueue s) eqn:B; [simplify_eq; by left; eexists|].
    apply install_step in E as [?|(-> & -> & _)]; [by left|right]. eexists; split; [done|].
    by apply evolves_accept.
  - unfold spec_Latest in E. destruct s as [o|]; simplify_eq; [|by left; eexists].
    destruct (admit_operation o) as [o'|e] eqn:A; [right|left; by eexists].
    apply admit_Ok in A as ->. eexists; split; [done|]. constructor. by left.
  - unfold spec_Claim in E. pass E. unfold transition in E.
    destruct s as [o|]; [|simplify_eq; by left; eexists].
    case_bool_decide; [|simplify_eq; by left; eexists].
    apply install_step in E as [?|(-> & -> & _)]; [by left|right]. eexists; split; [done|].
    by apply evolves_claim.
  - unfold spec_UpdatePhase in E. do 2 pass E. unfold transition in E.
    destruct s as [o|]; [|simplify_eq; by left; eexists].
    destruct (_ && _)%bool eqn:B; simplify_eq; [|by left; eexists]. bool_prop.
    right. eexists; split; [done|]. apply evolves_phase; try done. by apply validPhaseTransition_rank.
  - unfold spec_Finish in E. apply lift_step in E as [(e & -> & ->)|([] & V%map_err_Ok & E)]; [by left; eexists|].
    apply spec_finish_step in E as [?|(o & items & -> & <- & Hst & -> & -> & Hv)]; [by left|right].
    eexists; split; [done|]. apply evolves_finish; try done; [eauto 6|].
    apply (executor_finishable _ V).
  - unfold spec_FinishUncertain in E.
    apply lift_step in E as [(e & -> & ->)|(? & V%reject_if_Ok & E)]; [by left; eexists|].
    do 3 pass E. apply spec_finish_step in E as [?|(o & items & -> & <- & Hst & -> & -> & Hv)]; [by left|right].
    eexists; split; [done|]. apply evolves_finish; try done; [eauto 8|].
    rewrite andb_false_iff, !negb_false_iff, !bool_decide_eq_true in V. by destruct V as [-> | ->].
  - unfold spec_InterruptRunning in E. pass E. unfold transition in E.
    destruct s as [o|]; [|simplify_eq; right; eexists; split; [done|]; by constructor].
    case_bool_decide; [|simplify_eq; right; eexists; split; [done|]; constructor; naive_solver].
    apply reply_step in E as [(e & E & ->)|(o' & E & ->)]; apply install_step in E as [(e1 & ? & ->)|(E & -> & Hv)];
      simplify_eq; [by left; eexists|right]. eexists; split; [done|]. apply evolves_finish; eauto.
  - unfold spec_PendingReconciliation in E. apply M_bind_split in E.
    destruct E as [(e & E & ->)|(o & s1 & E & E2)].
    + left. unfold spec_Latest in E. destruct s as [o|]; simplify_eq; by eexists.
    + unfold spec_Latest in E. destruct s as [o0|]; [|done]. injection E as A <-.
      apply admit_Ok in A as ->. unfold lift in E2. injection E2 as <- <-.
      case_match; [by left; eexists|right]. eexists; split; [done|]. constructor. by right.
  - unfold spec_CompleteReconciliation in E. pass E.
    apply lift_step in E as [(e & -> & ->)|([] & V%map_err_Ok & E)]; [by left; eexists|].
    pass E. unfold transition in E. destruct s as [o|]; [|simplify_eq; by left; eexists].
    destruct (_ && _)%bool eqn:B; [|simplify_eq; by left; eexists]. bool_prop.
    apply install_step in E as [?|(-> & -> & _)]; [by left|right]. eexists; split; [done|].
    apply evolves_reconcile; try done. intros E. unfold validateInventory in V. by rewrite E in V.
Qed.

(** ** Accepted and claimed operations *)

(** Successful calls of a history, by kind. *)
Definition accepts (p : Command * result Error Reply) : bool :=
  match p with (CEnqueue _ _ _ _, Ok _) => true | _ => false end.
Definition claims (p : Command * result Error Reply) : bool :=
  match p with (CClaim _, Ok _) => true | _ => false end.
Definition queued_now (s : option Operation) : Z :=
  match s with Some o => if bool_decide (op_State o = StateQueued) then 1 else 0 | None => 0 end.

Lemma queued_now_range s : 0 <= queued_now s <= 1.
Proof. destruct s; cbn; [case_bool_decide|]; lia. Qed.

(** A claim uses up the queued operation; only an acceptance queues one. *)
Lemma claim_potential c s r s' : evolves c r s s' ->
  (if claims (c, r) then 1 else 0) + queued_now s' <= (if accepts (c, r) then 1 else 0) + queued_now s.
Proof.
  intros H. pose proof (queued_now_range s) as R0. pose proof (queued_now_range s') as R1.
  destruct H as [c0 e s|c0 o [-> | ->]|now s Hi|id kind req now s o|now o o' H1 H2|id ph now o o' H1 H2
    |c o o' [(n & ->)|[(x & n & ->)|(x & y & n & ->)]] H1 H2|]; cbn; try lia.
  - case_bool_decide; lia.
  - rewrite (bool_decide_true _ H1), bool_decide_false by congruence. cbn. lia.
  - rewrite (bool_decide_false (op_State o' = _)) by congruence. case_bool_decide; lia.
  - rewrite (bool_decide_false (op_State o' = _)); [case_bool_decide; lia|]. by intros E; rewrite E in H2.
  - rewrite (bool_decide_false (op_State o' = _)); [case_bool_decide; lia|]. by intros E; rewrite E in H2.
  - rewrite (bool_decide_false (op_State o' = _)); [case_bool_decide; lia|]. by intros E; rewrite E in H2.
  - rewrite (bool_decide_false (op_State o' = _)); [case_bool_decide; lia|]. intros E.
    match goal with H : may_stay_pending (op_State o) = true, H' : op_State o' = op_State o |- _ =>
      rewrite <- H', E in H; done end.
Qed.

Lemma claims_potential cs s :
  let '(rs, s') := history spec_command cs s in
  count claims (zip cs rs) + queued_now s' <= count accepts (zip cs rs) + queued_now s.
Proof.
  revert s. induction cs as [|c cs IH]; intros s; [unfold count; cbn; lia|]. cbn [history].
  destruct (spec_command c s) as [r s1] eqn:E. pose proof (claim_potential _ _ _ _ (spec_command_evolves _ _ _ _ E)).
  specialize (IH s1). destruct (history spec_command cs s1) as [rs s2].
  change (zip (c :: cs) (r :: rs)) with ((c, r) :: zip cs rs). rewrite !count_cons. lia.
Qed.

(** ** Clocks *)

Definition clock (c : Command) : option time :=
  match c with
  | CLatest | CPendingReconciliation => None
  | CEnqueue _ _ _ now | CClaim now | CUpdatePhase _ _ now | CFinish _ _ now
  | CFinishUncertain _ _ _ now | CInterruptRunning now | CCompleteReconciliation _ _ now => Some now
  end.

(** The call's clock reading does not precede the operation's last update. *)
Definition clock_advances (c : Command) (s : option Operation) : Prop :=
  match clock c, s with
  | Some now, Some o => t_ns (UpdatedAt o) <= t_ns now
  | _, _ => True
  end.

Definition in_order (o : Operation) : Prop :=
  t_ns (RequestedAt o) <= t_ns (UpdatedAt o) /\
  (is_zero (StartedAt o) = false -> t_ns (RequestedAt o) <= t_ns (StartedAt o) <= t_ns (UpdatedAt o)) /\
  (is_zero (FinishedAt o) = false -> t_ns (StartedAt o) <= t_ns (FinishedAt o) <= t_ns (UpdatedAt o)).

Local Ltac ltb_false :=
  repeat match goal with |- context [?a <? ?b] => rewrite (proj2 (Z.ltb_ge a b)) by lia end.

Lemma in_order_valid o : well_shaped o -> in_order o -> validateOperation o = Ok tt.
Proof.
  intros [Hs _] (H1 & H2 & H3). rewrite validateOperation_shape by done.
  unfold before, validate_order, before. ltb_false. cbn.
  destruct (is_zero (StartedAt o)) eqn:E1, (is_zero (FinishedAt o)) eqn:E2; cbn; try done;
    try specialize (H2 eq_refl); try specialize (H3 eq_refl); by ltb_false.
Qed.

Definition sound_state (s : option Operation) : Prop :=
  match s with Some o => well_shaped o /\ in_order o | None => True end.

Lemma sound_valid o : sound_state (Some o) -> validateOperation o = Ok tt.
Proof. intros [Hw Ho]. by apply in_order_valid. Qed.

Lemma represents_shaped d o : represents d (Some o) -> well_shaped o.
Proof. by intros [_ ?]. Qed.

(** A stored operation is well shaped after any call. *)
Lemma shape_preserved c s r s' : spec_command c s = (r, s') ->
  (forall o, s = Some o -> well_shaped o) -> forall o, s' = Some o -> well_shaped o.
Proof.
  intros E Hs o ->. set (d := match s with Some o => tables_of o | None => empty_db end).
  assert (Hr : represents d s) by (subst d; destruct s; cbn; auto).
  destruct (command_implements c d s Hr) as (d' & _ & R). rewrite E in R. by apply represents_shaped in R.
Qed.

(** The timestamps a call may write. *)
Inductive retimed (now : time) : option Operation -> Operation -> Prop :=
| retimed_new s id kind request : retimed now s (queued_operation id kind request now)
| retimed_claim o : op_State o = StateQueued -> retimed now (Some o) (claimed now o)
| retimed_phase phase o : op_State o = StateRunning -> retimed now (Some o) (advanced phase now o)
| retimed_finish r items o : op_State o = StateRunning -> retimed now (Some o) (finished r items now o)
| retimed_inventory inventory o : retimed now (Some o) (reconciled inventory now o).

Definition timed_step (now : time) (s s' : option Operation) : Prop :=
  s' = s \/ exists o, s' = Some o /\ retimed now s o.

Lemma timed_install now o s r s' : install o s = (r, s') -> retimed now s o -> timed_step now s s'.
Proof. intros [(_ & -> & _)|[_ ->]]%install_state H; [right; eauto|by left]. Qed.

Lemma timed_lift {A B} now (r : result Error A) (f : A -> Spec B) s x s' :
  (lift r ≫= f) s = (x, s') -> (forall a, f a s = (x, s') -> timed_step now s s') -> timed_step now s s'.
Proof. intros [(e & _ & ->)|(a & _ & E)]%lift_step H; [by left|eauto]. Qed.

Ltac timed := repeat match goal with
  | E : (lift _ ≫= _) _ = _ |- _ => apply (timed_lift _ _ _ _ _ _ E); clear E; intros ? E
  | E : transition _ _ = _ |- _ => unfold transition in E
  | E : (_, _) = (_, _) |- _ => first [discriminate E | simplify_eq; by left]
  | E : match ?b with _ => _ end = _ |- _ => destruct b eqn:?
  end; bool_prop.

Lemma spec_command_timed c s r s' now : spec_command c s = (r, s') ->
  clock c = Some now -> timed_step now s s'.
Proof.
  destruct c; cbn; intros E [= <-]; unfold reply_operation, reply_unit, reply_option in E;
    apply reply_step in E as [(e & E & _)|(a & E & _)]; revert E.
  all: unfold spec_EnqueueKind, spec_Claim, spec_UpdatePhase, spec_Finish, spec_FinishUncertain,
    spec_finish, spec_InterruptRunning, spec_CompleteReconciliation; intros E; timed.
  all: try (eapply timed_install; [exact E|constructor; done]).
  all: try (simplify_eq; right; eexists; split; [done|constructor; done]).
  all: apply reply_step in E as [(? & E & _)|(? & E & _)]; (eapply timed_install; [exact E|by apply retimed_finish]).
Qed.

(** Calls whose clock never precedes the last update keep the timestamps of
    the operation in order. *)
Lemma retimed_in_order now s o : retimed now s o -> sound_state s ->
  (forall o0, s = Some o0 -> t_ns (UpdatedAt o0) <= t_ns now) -> in_order o /\ UpdatedAt o = now.
Proof.
  intros Ht Hs Hc. unfold in_order.
  destruct Ht as [s id kind request|o Q|phase o R|r items o R|inventory o]; cbn;
    [split_and!; try done; lia|..]; destruct Hs as [[[_ Hst]%validate_shape_iff _] (H1 & H2 & H3)];
    specialize (Hc o eq_refl); unfold state_ok in Hst; rewrite ?Q, ?R in Hst.
  - destruct Hst as (_ & _ & Hf & _). rewrite Hf. split_and!; try done; naive_solver lia.
  - split_and!; try done; naive_solver lia.
  - destruct Hst as (_ & [Hz _]%validateTime_Ok & _). specialize (H2 Hz). split_and!; try done; naive_solver lia.
  - split_and!; try done; naive_solver lia.
Qed.

(** ** Histories under a clock that does not run backwards *)

(** Every reading is at least [lo] and at least every earlier reading. *)
Fixpoint forward (lo : Z) (cs : list Command) : Prop :=
  match cs with
  | [] => True
  | c :: cs' => match clock c with
                | Some now => lo <= t_ns now /\ forward (t_ns now) cs'
                | None => forward lo cs'
                end
  end.

Lemma command_sound c s r s' lo : spec_command c s = (r, s') -> sound_state s ->
  (forall o, s = Some o -> t_ns (UpdatedAt o) <= lo) ->
  (forall now, clock c = Some now -> lo <= t_ns now) ->
  sound_state s' /\
  (forall o, s' = Some o -> t_ns (UpdatedAt o) <= match clock c with Some now => t_ns now | None => lo end).
Proof.
  intros E Hs Hlo Hc. pose proof (shape_preserved c s r s' E) as Hw.
  destruct (clock c) as [now|] eqn:Ec.
  - destruct (spec_command_timed _ _ _ _ _ E Ec) as [->|(o & -> & Ht)].
    + split; [done|]. intros o Eo. specialize (Hlo o Eo). specialize (Hc now eq_refl). lia.
    + destruct (retimed_in_order _ _ _ Ht Hs) as [Ho Hu].
      { intros o0 Eo. specialize (Hlo o0 Eo). specialize (Hc now eq_refl). lia. }
      split; [split; [|done]|intros o0 [= <-]; rewrite Hu; lia].
      apply Hw; [|done]. intros o0 ->. apply Hs.
  - assert (s' = s) as ->; [|done].
    apply spec_command_evolves in E. destruct E; try done; destruct c; try done.
    all: destruct_or!; destruct_and?; naive_solver.
Qed.

Lemma history_sound cs s lo : sound_state s -> (forall o, s = Some o -> t_ns (UpdatedAt o) <= lo) ->
  forward lo cs -> sound_state (history spec_command cs s).2.
Proof.
  revert s lo. induction cs as [|c cs IH]; intros s lo Hs Hlo Hf; [done|]. cbn in *.
  destruct (spec_command c s) as [r s1] eqn:E.
  assert (forall now, clock c = Some now -> lo <= t_ns now).
  { intros now Ec. rewrite Ec in Hf. apply Hf. }
  destruct (command_sound _ _ _ _ lo E Hs Hlo H) as [Hs1 Hlo1].
  specialize (IH s1 _ Hs1 Hlo1). destruct (history spec_command cs s1) as [rs s2]. apply IH.
  by destruct (clock c) as [now|]; [apply Hf|].
Qed.

(** An accepted operation is never forgotten, only replaced. *)
Lemma history_accepted cs s rs s' : history spec_command cs s = (rs, s') ->
  existsb accepts (zip cs rs) = true \/ is_Some s -> is_Some s'.
Proof.
  revert s rs. induction cs as [|c cs IH]; intros s rs E H; cbn in E; [simplify_eq/=; naive_solver|].
  destruct (spec_command c s) as [r s1] eqn:E1. destruct (history spec_command cs s1) as [rs1 s2] eqn:E2.
  simplify_eq. apply (IH _ _ E2). cbn in H. rewrite orb_true_iff in H.
  apply spec_command_evolves in E1. destruct H as [[H|H]|[o ->]]; [right|by left|right].
  - destruct c; try done. destruct r; try done. inversion E1; subst; by eauto.
  - inversion E1; subst; eauto.
Qed.

(** A running operation can be finished: the executor's valid result for the
    reviewed items is recorded, whenever the clock has not run backwards. *)
Lemma finish_succeeds id r0 now o : sound_state (Some o) -> op_State o = StateRunning -> op_ID o = id ->
  validateExecutorResult r0 = Ok tt -> item_Name <$> res_Items r0 = req_Items (op_Request o) ->
  validateTime now true = Ok tt -> t_ns (UpdatedAt o) <= t_ns now ->
  spec_Finish id r0 now (Some o)
  = (Ok (finished r0 (res_Items r0) now o), Some (finished r0 (res_Items r0) now o)).
Proof.
  intros [Hw Ho] Hst <- Hv Hn Ht Hc.
  assert (Hscope : validateResultScope (req_Items (op_Request o)) (res_Items r0) = Ok tt).
  { rewrite <- Hn. unfold validateResultScope. rewrite (proj2 (reject_if_Ok _ _ tt)).
    - cbn. generalize (res_Items r0). intros l. induction l as [|it l IH]; [done|]. cbn. by rewrite String.eqb_refl.
    - unfold blen. rewrite length_fmap. apply negb_false_iff. lia. }
  pose proof (executor_finishable _ Hv) as [? ? ? ? ? ?].
  assert (Hw' : well_shaped (finished r0 (res_Items r0) now o)).
  { by apply finished_shape. }
  assert (Hin : in_order (finished r0 (res_Items r0) now o)).
  { apply (retimed_in_order now (Some o)); [by constructor|by split|]. by intros o0 [= <-]. }
  assert (Hid : validateID (op_ID o) = Ok tt).
  { destruct Hw as [[[] _]%validate_shape_iff _]. done. }
  unfold spec_Finish, spec_finish. rewrite Hv, Hid, Ht. cbn. unfold mbind, M_bind, lift, transition; cbn.
  rewrite String.eqb_refl, bool_decide_true by done. cbn. rewrite Hscope. cbn.
  unfold install, admit_operation. by rewrite (in_order_valid _ Hw' Hin).
Qed.
