(* ===== verification/JobsCorrect.v ===== *)
(** The properties of the operation store. *)
From S2P Require Import Prelude.
From S2P Require Import GoText.
From S2P Require Import GoTime.
From S2P Require Import Effects.
From S2P Require Import Refine.
From S2P Require Import JobsTypes.
From S2P Require Import JobsStore.
From S2P Require Import JobsFacts.
From S2P Require Import JobsRefine.

#[local] Open Scope string_scope.
#[local] Open Scope Z_scope.

(** ** Calls under database faults *)

Abbreviation store_history := (faulty_history run_command).
Abbreviation machine_history := (history spec_command).

Lemma store_history_effective calls d s rs d' :
  represents d s -> store_history calls d = (rs, d') ->
  exists effective, effective_history represents spec_command calls rs s d' effective.
Proof.
  apply (faulty_history_effective _ _ _ (fun _ => True)); [intros; apply command_implements|apply command_safe|].
  by apply Forall_true.
Qed.

Lemma store_history_implements cs d s : represents d s ->
  exists d', history run_command cs (mk_world d []) = ((machine_history cs s).1, mk_world d' []) /\
             represents d' (machine_history cs s).2.
Proof.
  apply (history_implements _ _ _ (fun _ => True)); [intros; apply command_implements|by apply Forall_true].
Qed.

(** C15: every history of store calls on an initially empty database returns,
    call by call, what the state machine on the one latest operation returns,
    and leaves tables that represent the machine's state; the tables, their
    constraints, the read-backs and the text encodings never show. *)
Theorem store_implements_machine (cs : list Command) :
  exists d', history run_command cs (mk_world empty_db []) = ((history spec_command cs None).1, mk_world d' []) /\
             represents d' (history spec_command cs None).2.
Proof. by apply store_history_implements. Qed.

(** C16: whatever database calls fail along a history, the calls that report
    success (with some of those that report an error) are exactly a fault-free
    history of the state machine with the same results, and the tables are its
    final state: a call that fails otherwise leaves nothing behind. *)
Theorem store_atomic_under_faults (calls : list (Command * list bool)) :
  let '(rs, d') := store_history calls empty_db in
  exists effective, effective_history represents spec_command calls rs None d' effective.
Proof.
  destruct (store_history calls empty_db) as [rs d'] eqn:E. by apply (store_history_effective _ empty_db None).
Qed.

(** at most one operation is admitted at a time: in any history, faults
    included, the claims that succeed never exceed the enqueues that
    succeeded, so no accepted operation is handed to an executor twice. *)
Theorem claims_never_exceed_accepts (calls : list (Command * list bool)) :
  let '(rs, _) := store_history calls empty_db in
  count claims (zip calls.*1 rs) <= count accepts (zip calls.*1 rs).
Proof.
  destruct (store_history calls empty_db) as [rs d'] eqn:E.
  destruct (store_history_effective _ empty_db None _ _ eq_refl E) as (ef & _ & Hf & Hr & _).
  pose proof (claims_potential ef.*1 None) as P. revert Hr P.
  destruct (machine_history ef.*1 None) as [rs' s'] eqn:Eh. cbn. intros -> P.
  rewrite zip_fst_snd in P. pose proof (queued_now_range s').
  assert (Hc : forall f : Command * result Error Reply -> bool,
             (forall p, f p = true -> succeeded p = true) -> count f ef = count f (zip calls.*1 rs)).
  { intros f Hs. unfold count. f_equal. by apply (filter_through _ succeeded). }
  rewrite <- (Hc claims), <- (Hc accepts); try done; [lia|..]; intros [[] []]; done.
Qed.

(** every call of the machine is a step of the operation lifecycle: an
    error changes nothing; an enqueue replaces only an operation that is not
    active and whose inventory is reconciled; a claim starts a queued
    operation; a phase moves forward under the running operation's own ID; a
    running operation ends terminal and valid; a reconciliation settles a
    pending inventory once and leaves the outcome alone. *)
Theorem machine_follows_lifecycle (c : Command) (s : option Operation) :
  evolves c (spec_command c s).1 s (spec_command c s).2.
Proof. by apply spec_command_evolves, surjective_pairing. Qed.

Lemma faulty_history_shaped calls rs d' o fl w :
  store_history calls empty_db = (rs, d') -> Latest (mk_world d' fl) = (Ok o, w) ->
  validateOperation o = Ok tt /\ well_shaped o.
Proof.
  intros E L. destruct (store_history_effective _ empty_db None _ _ eq_refl E) as (ef & _ & _ & _ & R).
  assert (L' : run_command CLatest (mk_world d' fl) = (Ok (ROperation o), w)).
  { cbn. unfold reply_operation, mbind, M_bind. by rewrite L. }
  destruct (refined_under_faults _ _ _ _ _ _ _ _ (command_implements CLatest) (command_safe CLatest) R L') as [[? _]|[H _]]; [done|].
  destruct (history spec_command ef.*1 None).2 as [o1|] eqn:Es; [|done].
  cbn in H. unfold reply_operation, mbind, M_bind, spec_Latest in H. cbn in H.
  unfold admit_operation in H. destruct (validateOperation o1) as [[]|] eqn:V; [|done].
  cbn in H. simplify_eq. split; [done|]. by apply represents_shaped in R.
Qed.

(** an operation that any history of calls and faults leaves terminal
    records one result for each reviewed item, in the order reviewed. *)
Theorem terminal_results_cover_review calls fl o w :
  Latest (mk_world (store_history calls empty_db).2 fl) = (Ok o, w) ->
  State_terminal (op_State o) = true ->
  item_Name <$> op_Items o = req_Items (op_Request o).
Proof.
  intros L Ht. destruct (store_history calls empty_db) as [rs d'] eqn:E.
  destruct (faulty_history_shaped _ _ _ _ _ _ E L) as [_ [Hs _]]. by apply terminal_scope.
Qed.

(** as long as the clock does not run backwards, the store stays
    readable: after any history that accepted an operation the latest
    operation loads and validates. *)
Theorem latest_readable_under_forward_clock cs lo :
  forward lo cs ->
  let '(rs, w) := history run_command cs (mk_world empty_db []) in
  existsb accepts (zip cs rs) = true -> is_ok (Latest w).1 = true.
Proof.
  intros Hf. destruct (store_history_implements cs empty_db None eq_refl) as (d' & -> & R).
  intros Ha. destruct (history spec_command cs None) as [rs s'] eqn:E. cbn [fst snd] in *.
  destruct (history_accepted _ _ _ _ E (or_introl Ha)) as [o ->].
  assert (Hs : sound_state (Some o)).
  { pose proof (history_sound cs None lo I) as H. rewrite E in H. apply H; done. }
  destruct (Latest_implements d' (Some o) R) as (d2 & E2 & _). rewrite E2. cbn.
  unfold admit_operation. by rewrite (sound_valid _ Hs).
Qed.

(** a valid executor result for the reviewed items is always recorded:
    while the operation runs and the clock has not run backwards, [Finish]
    succeeds, on the tables, and what it returns is what [Latest] then
    returns. *)
Theorem finish_records_result d o r0 now :
  represents d (Some o) -> in_order o -> op_State o = StateRunning ->
  validateExecutorResult r0 = Ok tt -> item_Name <$> res_Items r0 = req_Items (op_Request o) ->
  validateTime now true = Ok tt -> t_ns (UpdatedAt o) <= t_ns now ->
  exists d', Finish (op_ID o) r0 now (mk_world d []) = (Ok (finished r0 (res_Items r0) now o), mk_world d' []) /\
             Latest (mk_world d' []) = (Ok (finished r0 (res_Items r0) now o), mk_world d' []).
Proof.
  intros R Ho Hst Hv Hn Ht Hc. pose proof (represents_shaped _ _ R) as Hw.
  pose proof (finish_succeeds _ r0 now o (conj Hw Ho) Hst eq_refl Hv Hn Ht Hc) as E.
  destruct (Finish_implements (op_ID o) r0 now d (Some o) R) as (d' & E1 & R'). rewrite E in E1, R'.
  exists d'. split; [done|]. destruct (Latest_implements d' _ R') as (d2 & E2 & R2).
  unfold spec_Latest in E2, R2. cbn [fst snd] in E2, R2. destruct R' as [-> Hw'], R2 as [-> _]. rewrite E2. f_equal.
  assert (Hin : in_order (finished r0 (res_Items r0) now o)).
  { apply (retimed_in_order now (Some o)); [by constructor|by split|]. by intros o0 [= <-]. }
  unfold admit_operation. by rewrite (in_order_valid _ Hw' Hin).
Qed.

(** a valid operation survives storage: the schema accepts its row and
    loading its rows returns it, timestamps to the nanosecond. *)
Theorem operation_round_trips_tables o :
  validateOperation o = Ok tt -> plain_zeros o ->
  row_check (row_of o) = true /\
  loadOperation (mk_txn empty_db (tables_of o) []) = (Ok o, mk_txn empty_db (tables_of o) []).
Proof.
  intros V Hz. assert (Hw : well_shaped o) by (split; [by apply validateOperation_is_shaped|done]).
  split; [by apply row_check_shaped|]. rewrite (load_tables o) by done.
  unfold admit_operation. by rewrite V.
Qed.

(** ** Concrete instances *)

Definition sample_time (ns : Z) : time := unix_utc (1700000000000000000 + ns).
Definition sample_id : string := "00112233445566778899aabbccddeeff".
Definition sample_request : Request :=
  mk_Request "0123456789abcdef0123456789abcdef0123456789abcdef0123456789abcdef" ["cert.example"; "second"]
    empty_context [].
Definition sample_result : Result :=
  mk_Result StateSucceeded "renewed" true (mk_InventoryResult InventoryRefreshed "refreshed" (Some 2))
    "ok" false [mk_ItemResult "cert.example" ItemCompleted "done"; mk_ItemResult "second" ItemFailed "rejected"].
(** Enqueue and claim, then further calls. *)
Definition sample_start (calls : list Command) : list Command :=
  CEnqueue sample_id KindManual sample_request (sample_time 0) :: CClaim (sample_time 5) :: calls.
Definition sample_running : Operation :=
  claimed (sample_time 5) (queued_operation sample_id KindManual sample_request (sample_time 0)).

(** a clock that runs backwards between a claim and a phase update: the update
    is committed, and the store's own read-back then rejects the row. *)
Example phase_update_ignores_clock :
  history run_command (sample_start [CUpdatePhase sample_id PhaseExecuting (sample_time (-1)); CLatest])
    (mk_world empty_db [])
  = ([Ok (ROperation (queued_operation sample_id KindManual sample_request (sample_time 0)));
      Ok (ROperation sample_running);
      Ok RNothing;
      Err (ErrInvalid "persisted operation: operation update precedes request")],
     mk_world (tables_of (advanced PhaseExecuting (sample_time (-1)) sample_running)) []).
Proof. vm_compute. reflexivity. Qed.

Lemma terminal_results_cover_review_witness :
  let '(o, w) := (finished sample_result (res_Items sample_result) (sample_time 9) sample_running,
                  mk_world (tables_of (finished sample_result (res_Items sample_result) (sample_time 9) sample_running)) []) in
  item_Name <$> op_Items o = req_Items (op_Request o).
Proof.
  apply (terminal_results_cover_review
    ((fun c => (c, [])) <$> sample_start [CFinish sample_id sample_result (sample_time 9)]) [] _
    (mk_world (tables_of (finished sample_result (res_Items sample_result) (sample_time 9) sample_running)) [])).
  - vm_compute. reflexivity.
  - reflexivity.
Defined.

Lemma latest_readable_under_forward_clock_witness :
  is_ok (Latest (history run_command (sample_start []) (mk_world empty_db [])).2).1 = true.
Proof.
  assert (H : forward 0 (sample_start [])) by (cbn; unfold unix_utc; cbn; lia).
  pose proof (latest_readable_under_forward_clock (sample_start []) 0 H) as R.
  destruct (history run_command (sample_start []) (mk_world empty_db [])) as [rs w] eqn:E.
  apply R. vm_compute in E. simplify_eq. reflexivity.
Defined.

Lemma sample_running_shaped : well_shaped sample_running.
Proof. split; [reflexivity|split]; intros; [done|reflexivity]. Qed.

Lemma finish_records_result_witness :
  exists d', Finish sample_id sample_result (sample_time 9) (mk_world (tables_of sample_running) [])
    = (Ok (finished sample_result (res_Items sample_result) (sample_time 9) sample_running), mk_world d' []) /\
    Latest (mk_world d' []) = (Ok (finished sample_result (res_Items sample_result) (sample_time 9) sample_running), mk_world d' []).
Proof.
  apply (finish_records_result (tables_of sample_running) sample_running sample_result (sample_time 9)).
  - split; [done|apply sample_running_shaped].
  - unfold in_order; cbn; split_and!; intros; try lia; done.
  - reflexivity.
  - vm_compute. reflexivity.
  - reflexivity.
  - vm_compute. reflexivity.
  - cbn. lia.
Defined.

Lemma operation_round_trips_tables_witness :
  loadOperation (mk_txn empty_db (tables_of sample_running) [])
  = (Ok sample_running, mk_txn empty_db (tables_of sample_running) []).
Proof.
  apply (operation_round_trips_tables sample_running); [vm_compute; reflexivity|apply sample_running_shaped].
Defined.
