(* ===== verification/JobsWorker.v ===== *)
(** The durable worker (internal/jobs/worker.go) over any store that keeps
    the promises of JobsFacts.

    [OperationStore] is the interface the worker calls; its laws say that each
    method does what the specification machine does.  The tables are one
    instance.  Between the worker's store calls other goroutines may enqueue;
    [others n] are the enqueues that commit just before the worker's [n]-th
    call, after the worker has read its clock for that call. *)
From S2P Require Import Prelude.
From S2P Require Import GoText.
From S2P Require Import GoTime.
From S2P Require Import Effects.
From S2P Require Import Refine.
From S2P Require Import JobsTypes.
From S2P Require Import JobsStore.
From S2P Require Import JobsFacts.
From S2P Require Import JobsRefine.
From S2P Require Import JobsCorrect.

#[local] Open Scope string_scope.
#[local] Open Scope Z_scope.

(** ** The store the worker is written against *)

Class OperationStore (S : Type) := {
  so_EnqueueKind : string -> Kind -> Request -> time -> M S Error Operation;
  so_Latest : M S Error Operation;
  so_Claim : time -> M S Error Operation;
  so_UpdatePhase : string -> Phase -> time -> M S Error unit;
  so_Finish : string -> Result -> time -> M S Error Operation;
  so_FinishUncertain : string -> State -> string -> time -> M S Error Operation;
  so_InterruptRunning : time -> M S Error (option Operation);
  so_PendingReconciliation : M S Error Operation;
  so_CompleteReconciliation : string -> InventoryResult -> time -> M S Error Operation
}.

Section Promises.
Context {S : Type} (denotes : S -> option Operation -> Prop).

(** A method does to the store what the specification does to the state. *)
Definition agrees {A} (m : M S Error A) (spec : Spec A) : Prop := forall s v,
  denotes s v -> (m s).1 = (spec v).1 /\ denotes (m s).2 (spec v).2.
End Promises.

Class OperationStoreLaws (S : Type) `{OperationStore S} := {
  denotes : S -> option Operation -> Prop;
  law_shaped s o : denotes s (Some o) -> well_shaped o;
  law_EnqueueKind id kind request now :
    agrees denotes (so_EnqueueKind id kind request now) (spec_EnqueueKind id kind request now);
  law_Latest : agrees denotes so_Latest spec_Latest;
  law_Claim now : agrees denotes (so_Claim now) (spec_Claim now);
  law_UpdatePhase id phase now : agrees denotes (so_UpdatePhase id phase now) (spec_UpdatePhase id phase now);
  law_Finish id r now : agrees denotes (so_Finish id r now) (spec_Finish id r now);
  law_FinishUncertain id state code now :
    agrees denotes (so_FinishUncertain id state code now) (spec_FinishUncertain id state code now);
  law_InterruptRunning now : agrees denotes (so_InterruptRunning now) (spec_InterruptRunning now);
  law_PendingReconciliation : agrees denotes so_PendingReconciliation spec_PendingReconciliation;
  law_CompleteReconciliation id inventory now :
    agrees denotes (so_CompleteReconciliation id inventory now) (spec_CompleteReconciliation id inventory now)
}.

(** The tables, without database faults, keep the promises. *)
#[export] Instance table_store : OperationStore (world Db) := {|
  so_EnqueueKind := EnqueueKind; so_Latest := Latest; so_Claim := Claim; so_UpdatePhase := UpdatePhase;
  so_Finish := Finish; so_FinishUncertain := FinishUncertain; so_InterruptRunning := InterruptRunning;
  so_PendingReconciliation := PendingReconciliation; so_CompleteReconciliation := CompleteReconciliation
|}.

Definition table_denotes (w : world Db) (v : option Operation) : Prop :=
  w_faults w = [] /\ represents (w_db w) v.

Lemma implements_agrees {A} (m : Store A) (spec : Spec A) : implements m spec -> agrees table_denotes m spec.
Proof.
  intros H [d fl] v [Hf R]. cbn in *. subst fl. destruct (H d v R) as (d' & E & R').
  rewrite E. done.
Qed.

#[export] Program Instance table_store_laws : OperationStoreLaws (world Db) := {| denotes := table_denotes |}.
Next Obligation. intros w o [_ R]. by apply represents_shaped in R. Qed.
Solve All Obligations with intros; apply implements_agrees; auto using EnqueueKind_implements,
  Latest_implements, Claim_implements, UpdatePhase_implements, Finish_implements, FinishUncertain_implements,
  InterruptRunning_implements, PendingReconciliation_implements, CompleteReconciliation_implements.

(** ** The executor *)

(** A run of [Executor.Execute]: it reports phases, seeing the error each
    report returns, and ends with a result or a panic ([None]). *)
Inductive execution :=
| Returns (r : option Result)
| Reports (next : Phase) (continue : result Error unit -> execution).

Record Executor := mk_Executor {
  Execute : string -> Request -> execution;
  Reconcile : string -> option InventoryResult
}.

(** An enqueue another goroutine commits. *)
Record Submission := mk_Submission {
  sub_id : string; sub_kind : Kind; sub_request : Request; sub_now : time }.

Section Worker.
Context {S : Type} `{OperationStore S}.
Context (executor : Executor) (clock : nat -> time) (others : nat -> list Submission).

(** The service: the shared store and how many store calls were made. *)
Record service := mk_service { sv_store : S; sv_calls : nat }.
Abbreviation W := (M service Error).

(** [service.now().UTC().Round(0)] *)
Definition instant (n : nat) : time := canonical (clock n).

Definition submit (l : list Submission) (s : S) : S :=
  fold_left (fun s u => (so_EnqueueKind (sub_id u) (sub_kind u) (sub_request u) (sub_now u) s).2) l s.

(** A store call of the worker, with the clock reading it passes. *)
Definition call {A} (m : time -> M S Error A) : W A := fun s =>
  let '(r, st) := m (instant (sv_calls s)) (submit (others (sv_calls s)) (sv_store s)) in
  (r, mk_service st (Datatypes.S (sv_calls s))).

(** The phase last recorded, and the failure that stopped the reports. *)
Definition progress : Type := Phase * option Error.

Definition reportPhase (id : string) (p : progress) (next : Phase) : W (result Error unit * progress) :=
  let '(currentPhase, phaseFailure) := p in
  match phaseFailure with
  | Some e => mret (Err e, p)
  | None =>
      if negb (validPhaseTransition currentPhase next)
      then mret (Err ErrStateChanged, (currentPhase, Some ErrStateChanged))
      else
        r ← attempt (call (so_UpdatePhase id next));
        match r with
        | Err e => mret (Err e, (currentPhase, Some e))
        | Ok _ => mret (Ok tt, (next, None))
        end
  end.

Fixpoint callExecute (id : string) (e : execution) (p : progress) : W (option Result * progress) :=
  match e with
  | Returns r => mret (r, p)
  | Reports next continue =>
      '(reply, p') ← reportPhase id p next;
      callExecute id (continue reply) p'
  end.

Definition reconciliation_failed : InventoryResult :=
  mk_InventoryResult InventoryUnavailable "inventory_reconciliation_failed" None.

Definition reconciled_inventory (id : string) : InventoryResult :=
  match Reconcile executor id with
  | Some inventory => if is_err (validateInventory inventory false) then reconciliation_failed else inventory
  | None => reconciliation_failed
  end.

Definition reconcile (operation : Operation) : W unit :=
  _ ← call (so_CompleteReconciliation (op_ID operation) (reconciled_inventory (op_ID operation)));
  mret tt.

Definition uncertain_code (outcome : option Result) (transitionErr : option Error) : string :=
  match outcome, transitionErr with
  | None, _ => "worker_panicked"
  | _, Some _ => "worker_phase_failed"
  | _, None => "worker_result_invalid"
  end.

(** The result to record, when the run gives one. *)
Definition trusted (outcome : option Result) (p : progress) : option Result :=
  match outcome, p with
  | Some r, (PhaseRefreshingInventory, None) => if is_err (validateExecutorResult r) then None else Some r
  | _, _ => None
  end.

Definition execute (operation : Operation) : W unit :=
  '(outcome, p) ← callExecute (op_ID operation) (Execute executor (op_ID operation) (op_Request operation))
                    (PhaseRevalidating, None);
  match trusted outcome p with
  | None =>
      uncertain ← call (so_FinishUncertain (op_ID operation) StateAmbiguous (uncertain_code outcome p.2));
      reconcile uncertain
  | Some r => _ ← call (so_Finish (op_ID operation) r); mret tt
  end.

(** Whether a running operation was interrupted. *)
Definition recover : W bool :=
  interrupted ← call so_InterruptRunning;
  let flag := bool_decide (is_Some interrupted) in
  pending ← attempt (call (fun _ => so_PendingReconciliation));
  match pending with
  | Err ErrNotFound => mret flag
  | Err e => fail e
  | Ok operation => _ ← reconcile operation; mret flag
  end.

(** The worker loop until it is cancelled before its [turns]-th iteration.
    Waiting for a wake or a tick between claims changes no state. *)
Fixpoint loop (turns : nat) : W unit :=
  match turns with
  | O => mret tt
  | Datatypes.S turns' =>
      claimed ← attempt (call so_Claim);
      match claimed with
      | Ok operation => _ ← execute operation; loop turns'
      | Err ErrNoQueued => loop turns'
      | Err e => fail e
      end
  end.

Definition Run (turns : nat) : W bool := interrupted ← recover; _ ← loop turns; mret interrupted.

(** ** The service methods the transport calls *)

Definition status_projection (operation : Operation) : Operation :=
  mk_Operation (op_ID operation) (op_Kind operation) StateRunning PhaseRefreshingInventory
    (RequestedAt operation) (StartedAt operation) zero_time (UpdatedAt operation) "" false
    pending_inventory "" false [] (mk_Request "" [] empty_context []).

Definition Service_Status : M S Error Operation :=
  operation ← so_Latest;
  lift (if Operation_Active operation then Ok operation
        else if Operation_Terminal operation && bool_decide (inv_State (op_Inventory operation) = InventoryPending)
             then Ok (status_projection operation) else Err ErrNotFound).

Definition Service_Latest : M S Error Operation :=
  operation ← so_Latest;
  lift (if negb (Operation_Terminal operation) || bool_decide (inv_State (op_Inventory operation) = InventoryPending)
        then Err ErrNotFound else Ok operation).

(** [hex.EncodeToString] of the sixteen random bytes. *)
Definition hex_digit (n : Z) : ascii := if n <? 10 then z2b (48 + n) else z2b (87 + n).
Definition hex_encode (raw : bytes) : string :=
  of_bytes (raw ≫= fun c => [hex_digit (b2z c / 16); hex_digit (b2z c mod 16)]).

(** [raw]: what [io.ReadFull(service.random, raw[:])] yields. *)
Definition enqueue (raw : option bytes) (kind : Kind) (request : Request) (now : time) : M S Error Operation :=
  match raw with
  | None => fail (ErrOther "generate operation identifier")
  | Some raw => so_EnqueueKind (hex_encode raw) kind request (canonical now)
  end.
End Worker.
Arguments service : clear implicits.

(** ** Reasoning about the worker *)

(** What the other goroutines' enqueues do to the specification state. *)
Definition submitted (l : list Submission) (v : option Operation) : option Operation :=
  fold_left (fun v u => (spec_EnqueueKind (sub_id u) (sub_kind u) (sub_request u) (sub_now u) v).2) l v.

Lemma enqueue_busy id kind request now o : blocks_enqueue (Some o) = true ->
  (spec_EnqueueKind id kind request now (Some o)).2 = Some o.
Proof.
  intros B. destruct (spec_EnqueueKind id kind request now (Some o)) as [r s'] eqn:E.
  unfold spec_EnqueueKind in E. apply lift_step in E as [(? & _ & ->)|(? & _ & E)]; [done|].
  do 3 (apply lift_step in E as [(? & _ & ->)|(? & _ & E)]; [done|]).
  unfold transition in E. rewrite B in E. by simplify_eq.
Qed.

(** Nobody replaces an operation that is active or not yet reconciled. *)
Lemma submitted_busy l o : blocks_enqueue (Some o) = true -> submitted l (Some o) = Some o.
Proof.
  intros B. unfold submitted. induction l as [|u l IH]; [done|]. cbn [fold_left].
  by rewrite enqueue_busy.
Qed.

Lemma running_busy o : op_State o = StateRunning -> blocks_enqueue (Some o) = true.
Proof. intros E. cbn. by rewrite E. Qed.
Lemma pending_busy o : inv_State (op_Inventory o) = InventoryPending -> blocks_enqueue (Some o) = true.
Proof. intros E. cbn. rewrite E. apply orb_true_r. Qed.

(** Settled: nothing left for a worker or a restart to clean up. *)
Definition settled (o : Operation) : Prop :=
  State_terminal (op_State o) = true /\ inv_State (op_Inventory o) <> InventoryPending.

Lemma inventory_settled v : validateInventory v false = Ok tt -> inv_State v <> InventoryPending.
Proof. unfold validateInventory. by destruct (inv_State v). Qed.

Lemma executor_inventory r : validateExecutorResult r = Ok tt -> inv_State (res_Inventory r) <> InventoryPending.
Proof.
  unfold validateExecutorResult. intros H. apply bind_Ok in H as (? & _ & H).
  apply bind_Ok in H as (? & _ & H). apply bind_Ok in H as ([] & H & _). by apply inventory_settled.
Qed.

Lemma reconciled_inventory_valid executor id : validateInventory (reconciled_inventory executor id) false = Ok tt.
Proof.
  unfold reconciled_inventory. destruct (Reconcile executor id) as [v|]; [|done].
  destruct (is_err _) eqn:E; [done|]. by apply is_err_false_unit.
Qed.

Lemma spec_Finish_step id r now v x v' : spec_Finish id r now v = (x, v') ->
  fails_quietly x v v' \/
  (exists o, v = Some o /\ op_ID o = id /\ x = Ok (finished r (res_Items r) now o) /\
     v' = Some (finished r (res_Items r) now o) /\ validateExecutorResult r = Ok tt).
Proof.
  unfold spec_Finish. intros H. apply lift_step in H as [(e & -> & ->)|([] & V%map_err_Ok & H)]; [by left; eexists|].
  unfold spec_finish in H. do 2 pass H. unfold transition in H.
  destruct v as [o|]; [|simplify_eq; by left; eexists].
  destruct (_ && _)%bool eqn:B; [|simplify_eq; by left; eexists]. bool_prop. cbn [andb] in H.
  case_match; [|simplify_eq; by left; eexists].
  apply install_step in H as [?|(-> & -> & ?)]; [by left|right]. eauto 10.
Qed.

Lemma spec_FinishUncertain_step id state code now v x v' : spec_FinishUncertain id state code now v = (x, v') ->
  fails_quietly x v v' \/
  (exists o, let o' := finished (uncertain_result state code) (ambiguous_items code (req_Items (op_Request o))) now o in
     v = Some o /\ op_ID o = id /\ x = Ok o' /\ v' = Some o').
Proof.
  unfold spec_FinishUncertain, spec_finish. intros H. do 6 pass H. unfold transition in H.
  destruct v as [o|]; [|simplify_eq; by left; eexists].
  destruct (String.eqb _ _ && _)%bool eqn:B; [|simplify_eq; by left; eexists]. bool_prop. cbn [andb res_Items res_Code uncertain_result] in H.
  change (blen [] =? 0) with true in H. cbv iota zeta in H. case_match; [|simplify_eq; by left; eexists].
  apply install_step in H as [?|(-> & -> & ?)]; [by left|right]. by exists o.
Qed.

Lemma spec_CompleteReconciliation_step id inventory now v x v' :
  spec_CompleteReconciliation id inventory now v = (x, v') ->
  fails_quietly x v v' \/
  (exists o, v = Some o /\ op_ID o = id /\ inv_State (op_Inventory o) = InventoryPending /\
     may_stay_pending (op_State o) = true /\
     x = Ok (reconciled inventory now o) /\ v' = Some (reconciled inventory now o)).
Proof.
  unfold spec_CompleteReconciliation. intros H. do 3 pass H. unfold transition in H.
  destruct v as [o|]; [|simplify_eq; by left; eexists].
  destruct (_ && _)%bool eqn:B; [|simplify_eq; by left; eexists]. bool_prop.
  apply install_step in H as [?|(-> & -> & ?)]; [by left|right]. eauto 10.
Qed.

(** A phase report keeps the operation, except for its phase and clock. *)
Definition same_run (o o' : Operation) : Prop := exists phase now, o' = advanced phase now o.

Lemma same_run_trans o o1 phase now : same_run o o1 -> same_run o (advanced phase now o1).
Proof. intros (ph & t & ->). by exists phase, now. Qed.
Lemma same_run_refl o : same_run o o.
Proof. exists (op_Phase o), (UpdatedAt o). by destruct o. Qed.
Lemma same_run_state o o' : same_run o o' ->
  op_State o' = op_State o /\ op_ID o' = op_ID o /\ op_Request o' = op_Request o.
Proof. by intros (ph & t & ->). Qed.

(** ** What a run of the executor is, apart from the worker

    The executor of operation [o] is served from the [n]-th store call on: a
    report is accepted when the phase follows the recorded one and the clock
    can be stored; the first refusal is the answer to every later report. *)
Fixpoint after_refusal (e : Error) (x : execution) : option Result :=
  match x with
  | Returns r => r
  | Reports _ k => after_refusal e (k (Err e))
  end.

(** [runs clock n o x m o' failure outcome]: the run [x] ends with [outcome]
    ([None] is a panic) after store call [m], the operation then being [o'];
    [failure] is the refusal it met. *)
Inductive runs (clock : nat -> time) : nat -> Operation -> execution -> nat -> Operation -> option Error -> option Result -> Prop :=
| runs_returns n o r : runs clock n o (Returns r) n o None r
| runs_accepted n o next k m o' failure r :
    validPhaseTransition (op_Phase o) next = true -> validateTime (instant clock n) true = Ok tt ->
    runs clock (S n) (advanced next (instant clock n) o) (k (Ok tt)) m o' failure r ->
    runs clock n o (Reports next k) m o' failure r
| runs_out_of_order n o next k : validPhaseTransition (op_Phase o) next = false ->
    runs clock n o (Reports next k) n o (Some ErrStateChanged) (after_refusal ErrStateChanged (k (Err ErrStateChanged)))
| runs_refused n o next k e : validPhaseTransition (op_Phase o) next = true -> is_ok (validateTime (instant clock n) true) = false ->
    runs clock n o (Reports next k) (S n) o (Some e) (after_refusal e (k (Err e))).

(** Why a run that ended as [outcome], after [failure] and in phase [phase],
    is not to be believed. *)
Inductive distrusted : option Result -> option Error -> Phase -> string -> Prop :=
| distrusted_panic failure phase : distrusted None failure phase "worker_panicked"
| distrusted_phases r e phase : distrusted (Some r) (Some e) phase "worker_phase_failed"
| distrusted_result r phase : phase <> PhaseRefreshingInventory \/ is_ok (validateExecutorResult r) = false ->
    distrusted (Some r) None phase "worker_result_invalid".

(** The inventory a reconciliation may record: the reconciler's, or that there is none. *)
Definition reconciles (answer : option InventoryResult) (inventory : InventoryResult) : Prop :=
  (answer = Some inventory /\ validateInventory inventory false = Ok tt) \/
  (inventory = mk_InventoryResult InventoryUnavailable "inventory_reconciliation_failed" None
   /\ forall v, answer = Some v -> is_ok (validateInventory v false) = false).

(** What operation [o], executed from store call [n] on, is recorded as. *)
Inductive recorded (executor : Executor) (clock : nat -> time) (n : nat) (o : Operation) : Operation -> Prop :=
| recorded_result r m o1 :
    runs clock n o (Execute executor (op_ID o) (op_Request o)) m o1 None (Some r) ->
    op_Phase o1 = PhaseRefreshingInventory -> validateExecutorResult r = Ok tt ->
    recorded executor clock n o (finished r (res_Items r) (instant clock m) o1)
| recorded_ambiguous outcome failure code inventory m o1 :
    runs clock n o (Execute executor (op_ID o) (op_Request o)) m o1 failure outcome ->
    distrusted outcome failure (op_Phase o1) code -> reconciles (Reconcile executor (op_ID o)) inventory ->
    recorded executor clock n o (reconciled inventory (instant clock (S m))
      (finished (uncertain_result StateAmbiguous code) (ambiguous_items code (req_Items (op_Request o))) (instant clock m) o1)).

(** What the accepted phase reports of a run do, with the call counter. *)
Inductive phase_step (clock : nat -> time) : nat * Operation -> nat * Operation -> Prop :=
| phase_quiet n m o : (n <= m)%nat -> phase_step clock (n, o) (m, o)
| phase_advance n o next : op_State o = StateRunning -> validPhaseTransition (op_Phase o) next = true ->
    validateTime (instant clock n) true = Ok tt ->
    phase_step clock (n, o) (S n, advanced next (instant clock n) o).

Lemma phase_steps_same_run clock x y : rtc (phase_step clock) x y -> same_run x.2 y.2.
Proof.
  apply (rtc_ind_r (fun y => same_run x.2 y.2)); [apply same_run_refl|].
  intros y' z _ Hs Hr. destruct Hs as [n m o _|n o next _ _ _]; [done|]. by apply same_run_trans.
Qed.
Lemma runs_steps clock n o x m o' failure r : runs clock n o x m o' failure r -> op_State o = StateRunning ->
  rtc (phase_step clock) (n, o) (m, o').
Proof.
  induction 1 as [n o r|n o next k m o' failure r Hv Ht _ IH|n o next k Hv|n o next k e Hv Ht]; intros Hs; [done| |done|].
  - eapply rtc_l; [by apply phase_advance|]. by apply IH.
  - apply rtc_once, phase_quiet. lia.
Qed.
Lemma runs_same_run clock n o x m o' failure r : runs clock n o x m o' failure r -> op_State o = StateRunning -> same_run o o'.
Proof. intros H Hs. exact (phase_steps_same_run _ _ _ (runs_steps _ _ _ _ _ _ _ _ H Hs)). Qed.

(** A trusted result is the one the run returned, and an untrusted run has a reason. *)
Lemma trusted_Some outcome p r : trusted outcome p = Some r ->
  outcome = Some r /\ p = (PhaseRefreshingInventory, None) /\ validateExecutorResult r = Ok tt.
Proof.
  unfold trusted. destruct outcome as [r0|], p as [[] [e|]]; try done. intros T.
  destruct (is_err (validateExecutorResult r0)) eqn:V; [done|]. simplify_eq. split_and!; try done. by apply is_err_false_unit.
Qed.
Lemma trusted_None outcome p : trusted outcome p = None -> distrusted outcome p.2 p.1 (uncertain_code outcome p.2).
Proof.
  unfold trusted. destruct outcome as [r|], p as [phase [e|]]; cbn; [constructor| |constructor..].
  intros T. apply distrusted_result. destruct (decide (phase = PhaseRefreshingInventory)) as [->|]; [right|by left].
  unfold is_err in T. by destruct (is_ok _).
Qed.

Section WorkerFacts.
Context {S : Type} `{OperationStoreLaws S}.
Context (executor : Executor) (clock : nat -> time) (others : nat -> list Submission).

Lemma denotes_submit l s v : denotes s v -> denotes (submit l s) (submitted l v).
Proof.
  unfold submit, submitted. revert s v. induction l as [|u l IH]; intros s v D; [done|].
  apply IH. by apply (law_EnqueueKind (sub_id u) (sub_kind u) (sub_request u) (sub_now u)).
Qed.

Lemma call_spec {A} (m : time -> M S Error A) (spec : time -> Spec A) s v r s' :
  (forall now, agrees denotes (m now) (spec now)) -> denotes (sv_store s) v ->
  call clock others m s = (r, s') ->
  exists v', spec (instant clock (sv_calls s)) (submitted (others (sv_calls s)) v) = (r, v') /\
    denotes (sv_store s') v' /\ sv_calls s' = Datatypes.S (sv_calls s).
Proof.
  intros Ha D. unfold call.
  destruct (Ha (instant clock (sv_calls s)) _ _ (denotes_submit (others (sv_calls s)) _ _ D)) as [E1 E2].
  destruct (m _ _) as [r1 st]. intros [= -> <-]. cbn in *. exists (spec (instant clock (sv_calls s))
    (submitted (others (sv_calls s)) v)).2. rewrite E1. split; [|done]. apply surjective_pairing.
Qed.

(** The same, while the stored operation cannot be replaced. *)
Lemma call_busy {A} (m : time -> M S Error A) (spec : time -> Spec A) s o r s' :
  (forall now, agrees denotes (m now) (spec now)) -> denotes (sv_store s) (Some o) ->
  blocks_enqueue (Some o) = true -> call clock others m s = (r, s') ->
  exists v', spec (instant clock (sv_calls s)) (Some o) = (r, v') /\ denotes (sv_store s') v' /\
    sv_calls s' = Datatypes.S (sv_calls s).
Proof.
  intros Ha D B E. destruct (call_spec m spec _ _ _ _ Ha D E) as (v' & E' & D').
  rewrite submitted_busy in E' by done. eauto.
Qed.

Lemma reportPhase_spec next s o x s' : denotes (sv_store s) (Some o) -> op_State o = StateRunning ->
  reportPhase clock others (op_ID o) (op_Phase o, None) next s = (x, s') ->
  (validPhaseTransition (op_Phase o) next = true /\ validateTime (instant clock (sv_calls s)) true = Ok tt /\ x = Ok (Ok tt, (next, None))
     /\ denotes (sv_store s') (Some (advanced next (instant clock (sv_calls s)) o)) /\ sv_calls s' = Datatypes.S (sv_calls s))
  \/ exists e, x = Ok (Err e, (op_Phase o, Some e)) /\ denotes (sv_store s') (Some o)
     /\ forall k, runs clock (sv_calls s) o (Reports next k) (sv_calls s') o (Some e) (after_refusal e (k (Err e))).
Proof.
  intros D Hst E. cbn in E. destruct (validPhaseTransition (op_Phase o) next) eqn:V; cbn [negb] in E.
  2:{ injection E as <- <-. right. exists ErrStateChanged. split_and!; [done..|]. intros k. by apply runs_out_of_order. }
  apply M_bind_split in E as [(e & E & _)|(r & s1 & E & E2)]; unfold attempt in E; [by destruct (call _ _ _ _)|].
  destruct (call clock others (so_UpdatePhase (op_ID o) next) s) as [r1 s2] eqn:Ec. injection E as <- <-.
  destruct (call_busy _ (spec_UpdatePhase (op_ID o) next) _ _ _ _ (law_UpdatePhase (op_ID o) next) D
              (running_busy o Hst) Ec) as (v' & E' & D' & Hn).
  assert (Hid : validateID (op_ID o) = Ok tt).
  { destruct (law_shaped _ _ D) as [[[] _]%validate_shape_iff _]. done. }
  unfold spec_UpdatePhase, mbind, M_bind, lift in E'. rewrite Hid in E'. cbn in E'.
  destruct (validateTime (instant clock (sv_calls s)) true) as [[]|te] eqn:Ht.
  - left. unfold transition in E'. rewrite String.eqb_refl, (bool_decide_true (op_State o = StateRunning)), V in E' by done.
    injection E' as <- <-. injection E2 as <- <-. done.
  - right. injection E' as <- <-. injection E2 as <- <-. eexists. split_and!; [done..|]. intros k. rewrite Hn. apply runs_refused; [done|by rewrite Ht].
Qed.

(** After a refusal the reports change nothing. *)
Lemma callExecute_refused id x : forall phase e s,
  callExecute clock others id x (phase, Some e) s = (Ok (after_refusal e x, (phase, Some e)), s).
Proof. induction x as [r|next k IH]; intros phase e s; [done|]. cbn. unfold mbind, M_bind. cbn. apply IH. Qed.

(** The executor runs to the end whatever it reports, and leaves the
    operation running, in the phase of its last accepted report. *)
Lemma callExecute_spec x : forall o s y s', denotes (sv_store s) (Some o) -> op_State o = StateRunning ->
  callExecute clock others (op_ID o) x (op_Phase o, None) s = (y, s') ->
  exists outcome failure o', y = Ok (outcome, (op_Phase o', failure)) /\ denotes (sv_store s') (Some o') /\
    runs clock (sv_calls s) o x (sv_calls s') o' failure outcome.
Proof.
  induction x as [r|next k IH]; intros o s y s' D Hst E; cbn [callExecute] in E.
  { injection E as <- <-. exists r, None, o. split; [done|]. split; [done|]. constructor. }
  unfold mbind, M_bind in E. destruct (reportPhase _ _ _ _ _ s) as [z s1] eqn:Er.
  destruct (reportPhase_spec _ _ _ _ _ D Hst Er) as [(V & T & -> & D1 & Hn)|(e & -> & D1 & Hr)].
  - destruct (IH (Ok tt) (advanced next (instant clock (sv_calls s)) o) s1 y s' D1 Hst E) as (outcome & failure & o' & -> & D' & R).
    rewrite Hn in R. eexists _, _, o'. split_and!; try done. by apply runs_accepted.
  - rewrite callExecute_refused in E. injection E as <- <-. eexists _, _, o. by split_and!.
Qed.

Lemma reconcile_spec uncertain s o r s' : denotes (sv_store s) (Some o) ->
  inv_State (op_Inventory o) = InventoryPending -> may_stay_pending (op_State o) = true ->
  reconcile executor clock others uncertain s = (r, s') ->
  (exists e, r = Err e /\ denotes (sv_store s') (Some o)) \/
  (r = Ok tt /\ op_ID uncertain = op_ID o /\
   denotes (sv_store s') (Some (reconciled (reconciled_inventory executor (op_ID o))
                                 (instant clock (sv_calls s)) o))).
Proof.
  intros D Hp Hm E. unfold reconcile in E. set (inv := reconciled_inventory executor (op_ID uncertain)) in E.
  pose proof (call_busy (so_CompleteReconciliation (op_ID uncertain) inv) (spec_CompleteReconciliation (op_ID uncertain) inv)) as C.
  apply M_bind_split in E as [(e & E & ->)|(u & s1 & E & E2)];
    destruct (C _ _ _ _ (law_CompleteReconciliation _ _) D (pending_busy o Hp) E) as (v' & E' & D' & _);
    apply spec_CompleteReconciliation_step in E' as [(e' & ? & ->)|(o1 & [= <-] & Hid & _ & _ & ? & ->)];
    simplify_eq; [left; eauto|right].
  injection E2 as <- <-. split_and!; try done. rewrite Hid. exact D'.
Qed.

Lemma reconciled_inventory_reconciles id : reconciles (Reconcile executor id) (reconciled_inventory executor id).
Proof.
  unfold reconciled_inventory, reconciles, is_err. destruct (Reconcile executor id) as [v|]; [|right; by split].
  destruct (validateInventory v false) as [[]|e] eqn:E; cbn; [by left|right].
  split; [done|]. intros v' [= <-]. by rewrite E.
Qed.

Lemma recorded_settled n o o' : op_State o = StateRunning -> recorded executor clock n o o' ->
  op_ID o' = op_ID o /\ op_Request o' = op_Request o /\ settled o'.
Proof.
  intros Hst [r m o1 R _ V|outcome failure code inventory m o1 R _ I];
    destruct (same_run_state _ _ (runs_same_run _ _ _ _ _ _ _ _ R Hst)) as (_ & Id & Rq); (split_and!; [done..|]).
  - split; [apply (executor_finishable _ V)|by apply executor_inventory].
  - split; [done|]. cbn. destruct I as [[_ Hv]|[-> _]]; [by apply inventory_settled|done].
Qed.

Lemma execute_spec o s r s' : denotes (sv_store s) (Some o) -> op_State o = StateRunning ->
  op_Phase o = PhaseRevalidating -> execute executor clock others o s = (r, s') ->
  exists o', denotes (sv_store s') (Some o') /\ op_ID o' = op_ID o /\
    (r = Ok tt -> recorded executor clock (sv_calls s) o o') /\ (is_err r = true -> blocks_enqueue (Some o') = true).
Proof.
  intros D Hst Hp E. unfold execute in E. rewrite <- Hp in E. unfold mbind at 1, M_bind at 1 in E.
  destruct (callExecute _ _ _ _ _ s) as [y s1] eqn:Ec.
  destruct (callExecute_spec _ _ _ _ _ D Hst Ec) as (out & failure & o1 & -> & D1 & R1).
  destruct (same_run_state _ _ (runs_same_run _ _ _ _ _ _ _ _ R1 Hst)) as (St & Id & Rq). rewrite Hst in St.
  pose proof (running_busy o1 St) as B1.
  destruct (trusted out (op_Phase o1, failure)) as [res|] eqn:T.
  - apply trusted_Some in T as (-> & [= Hph ->] & Hv).
    apply M_bind_split in E as [(e & E2 & ->)|(u & s2 & E2 & E3)];
      destruct (call_busy (so_Finish (op_ID o) res) (spec_Finish (op_ID o) res) _ _ _ _ (law_Finish _ _) D1 B1 E2) as (v' & E' & D' & _);
      apply spec_Finish_step in E' as [(e' & ? & ->)|(o2 & [= <-] & Hid & ? & -> & _)]; simplify_eq.
    + exists o1. done.
    + injection E3 as <- <-. eexists. split; [exact D'|]. split; [done|]. split; [|done]. intros _. by apply recorded_result.
  - apply trusted_None in T. cbn [fst snd] in T.
    apply M_bind_split in E as [(e & E2 & ->)|(u & s2 & E2 & E3)];
      destruct (call_busy (so_FinishUncertain (op_ID o) StateAmbiguous (uncertain_code out failure))
        (spec_FinishUncertain (op_ID o) StateAmbiguous (uncertain_code out failure)) _ _ _ _
        (law_FinishUncertain _ _ _) D1 B1 E2) as (v' & E' & D' & Hn);
      apply spec_FinishUncertain_step in E' as [(e' & ? & ->)|(o2 & [= <-] & Hid & ? & ->)]; simplify_eq.
    + exists o1. done.
    + destruct (reconcile_spec _ _ _ _ _ D' eq_refl eq_refl E3) as [(e & -> & D2)|(-> & _ & D2)];
        (eexists; split; [exact D2|split; [done|split; [|done]]]); [done|]. intros _.
      rewrite Hn, Rq. cbn [op_ID finished]. rewrite Id. eapply recorded_ambiguous; [done..|]. apply reconciled_inventory_reconciles.
Qed.

(** Between turns of the worker nothing is half done. *)
Definition quiescent (v : option Operation) : Prop :=
  match v with None => True | Some o => op_State o = StateQueued \/ settled o end.

Lemma submitted_quiescent l v : quiescent v -> quiescent (submitted l v).
Proof.
  unfold submitted. revert v. induction l as [|u l IH]; intros v Q; [done|]. apply IH.
  destruct (spec_EnqueueKind _ _ _ _ v) as [r v'] eqn:E. unfold spec_EnqueueKind in E. cbn.
  do 4 (apply lift_step in E as [(? & _ & ->)|(? & _ & E)]; [done|]).
  unfold transition in E. destruct (blocks_enqueue v); [by simplify_eq|].
  apply install_state in E as [(_ & -> & _)|[_ ->]]; [by left|done].
Qed.

Lemma recover_spec s v b s' : denotes (sv_store s) v -> recover executor clock others s = (Ok b, s') ->
  exists v', denotes (sv_store s') v' /\ quiescent v'.
Proof.
  intros D E. unfold recover in E. apply M_bind_Ok in E as (i & s1 & E1 & E).
  destruct (call_spec _ _ _ _ _ _ law_InterruptRunning D E1) as (v1 & I & D1 & _).
  assert (Q1 : quiescent v1 \/ exists o, v1 = Some o /\ inv_State (op_Inventory o) = InventoryPending /\
                 may_stay_pending (op_State o) = true).
  { unfold spec_InterruptRunning in I. apply lift_step in I as [(? & ? & _)|(? & _ & I)]; [done|].
    unfold transition in I. destruct (submitted _ v) as [o|] eqn:Es; [|simplify_eq; by left].
    destruct (bool_decide (op_State o = StateRunning)) eqn:Hr.
    - apply reply_step in I as [(? & _ & ?)|(o' & I & _)]; [done|].
      apply install_state in I as [(_ & -> & _)|[? _]]; [right; by eexists|done].
    - injection I as _ <-. bool_prop.
      assert (Hw : well_shaped o).
      { eapply law_shaped. rewrite <- Es. exact (denotes_submit _ _ _ D). }
      destruct Hw as [[_ Hs]%validate_shape_iff _].
      apply state_cases in Hs as [[Hq _]|[[Hq _]|[Ht (_ & _ & _ & _ & _ & _ & Hi & _)]]];
        [by left; left|done|].
      destruct (decide (inv_State (op_Inventory o) = InventoryPending)) as [P|P]; [right|left; right; by split].
      exists o. split_and!; try done. unfold validateInventory in Hi. rewrite P in Hi.
      by destruct (may_stay_pending (op_State o)). }
  cbv zeta in E. apply M_bind_Ok in E as (pend & s2 & E2 & E). unfold attempt in E2.
  destruct (call clock others (fun _ => so_PendingReconciliation) s1) as [r2 s3] eqn:Ec.
  injection E2 as <- <-.
  destruct (call_spec (fun _ => so_PendingReconciliation) (fun _ => spec_PendingReconciliation) _ _ _ _
              (fun _ => law_PendingReconciliation) D1 Ec) as (v2 & P & D2 & _).
  assert (Hread : v2 = submitted (others (sv_calls s1)) v1 /\
    match v2 with
    | Some o => r2 = Ok o -> inv_State (op_Inventory o) = InventoryPending /\ may_stay_pending (op_State o) = true
    | None => r2 = Err ErrNotFound
    end /\ (r2 = Err ErrNotFound -> forall o, v2 = Some o ->
       inv_State (op_Inventory o) <> InventoryPending \/ may_stay_pending (op_State o) = false) /\
    (forall o, r2 = Ok o -> v2 = Some o)).
  { unfold spec_PendingReconciliation, spec_Latest, mbind, M_bind, lift in P.
    destruct (submitted _ v1) as [o|] eqn:Es; [|simplify_eq; done].
    unfold admit_operation in P. destruct (validateOperation o) as [[]|]; [|simplify_eq; split_and!; naive_solver].
    destruct (_ || _)%bool eqn:C; simplify_eq; split_and!; try done.
    - intros _ o' [= <-]. apply orb_true_iff in C as [C|C]; bool_prop; auto.
    - intros _. by bool_prop.
    - by intros o' [= <-]. }
  destruct Hread as (-> & Hr & Hnf & Hok).
  destruct r2 as [op|[]]; try done.
  - destruct (submitted _ v1) as [o|] eqn:Es; [|done]. specialize (Hok op eq_refl). simplify_eq.
    destruct (Hr eq_refl) as [Hp Hm].
    apply M_bind_Ok in E as ([] & s4 & E4 & E5). injection E5 as _ <-.
    destruct (reconcile_spec _ _ _ _ _ D2 Hp Hm E4) as [(? & ? & _)|(_ & _ & D4)]; [done|].
    eexists; split; [exact D4|]. right. split; [|apply inventory_settled, reconciled_inventory_valid].
    cbn. by destruct (op_State op).
  - injection E as _ <-. eexists; split; [exact D2|].
    destruct Q1 as [Q1|(o & -> & Hp & Hm)]; [by apply submitted_quiescent|].
    rewrite submitted_busy in Hnf by by apply pending_busy.
    destruct (Hnf eq_refl o eq_refl); congruence.
Qed.
Lemma spec_Claim_step now v x v' : spec_Claim now v = (x, v') ->
  fails_quietly x v v' \/
  (exists o, v = Some o /\ x = Ok (claimed now o) /\ v' = Some (claimed now o)).
Proof.
  unfold spec_Claim. intros E. pass E. unfold transition in E.
  destruct v as [o|]; [|simplify_eq; by left; eexists].
  case_bool_decide; [|simplify_eq; by left; eexists].
  apply install_step in E as [?|(-> & -> & _)]; [by left|right; by exists o].
Qed.

Lemma loop_spec turns s v u s' : denotes (sv_store s) v -> quiescent v ->
  loop executor clock others turns s = (Ok u, s') ->
  exists v', denotes (sv_store s') v' /\ quiescent v'.
Proof.
  revert s v. induction turns as [|turns IH]; intros s v D Q E; cbn [loop] in E.
  { injection E as _ <-. by exists v. }
  apply M_bind_Ok in E as (c & s1 & E1 & E). unfold attempt in E1.
  destruct (call clock others so_Claim s) as [r s2] eqn:Ec. injection E1 as <- <-.
  destruct (call_spec _ _ _ _ _ _ law_Claim D Ec) as (v1 & C & D1 & _).
  apply submitted_quiescent with (l := others (sv_calls s)) in Q.
  apply spec_Claim_step in C as [(e & -> & ->)|(o & _ & -> & ->)].
  - destruct e; try done. by apply (IH _ _ D1 Q E).
  - apply M_bind_Ok in E as ([] & s3 & E2 & E3).
    destruct (execute_spec _ _ _ _ D1 eq_refl eq_refl E2) as (o' & D' & _ & R & _).
    destruct (recorded_settled _ (claimed (instant clock (sv_calls s)) o) _ eq_refl (R eq_refl)) as (_ & _ & S'). apply (IH _ _ D'); [by right|done].
Qed.

(** ** Completion *)

Definition clock_ok : Prop := forall n,
  validateTime (instant clock n) true = Ok tt /\ t_ns (clock n) <= t_ns (clock (Datatypes.S n)).

Definition paced (x : nat * Operation) : Prop :=
  sound_state (Some x.2) /\ t_ns (UpdatedAt x.2) <= t_ns (clock x.1).

Lemma clock_le n m : clock_ok -> (n <= m)%nat -> t_ns (clock n) <= t_ns (clock m).
Proof. intros C. induction 1 as [|m _ IH]; [done|]. destruct (C m). lia. Qed.

Lemma paced_retimed n o o' : clock_ok -> paced (n, o) -> retimed (instant clock n) (Some o) o' ->
  well_shaped o' -> paced (Datatypes.S n, o').
Proof.
  intros C [Hs Hu] R Hw. cbn in *. destruct (retimed_in_order _ _ _ R Hs) as [Ho Eu]; [by intros o0 [= <-]|].
  split; [done|]. cbn. rewrite Eu. apply C.
Qed.

Lemma phase_steps_paced x y : clock_ok -> rtc (phase_step clock) x y -> paced x -> paced y.
Proof.
  intros C. induction 1 as [|x y z Hs _ IH]; [done|]. intros P. apply IH. destruct Hs as [n m o L|n o next Q V T].
  - destruct P as [? P]. split; [done|]. cbn in *. pose proof (clock_le _ _ C L). lia.
  - apply (paced_retimed n o); try done; [by constructor|]. apply advanced_shape; try done. apply P.
Qed.

(** Every valid result the executor can return names the reviewed items. *)
Fixpoint covers (request : Request) (e : execution) : Prop :=
  match e with
  | Returns (Some r) => validateExecutorResult r = Ok tt -> item_Name <$> res_Items r = req_Items request
  | Returns None => True
  | Reports _ k => forall reply, covers request (k reply)
  end.

Lemma callExecute_covers id e p s out p' s' request : covers request e ->
  callExecute clock others id e p s = (Ok (out, p'), s') ->
  forall r, out = Some r -> validateExecutorResult r = Ok tt -> item_Name <$> res_Items r = req_Items request.
Proof.
  revert p s. induction e as [r0|next k IH]; intros p s Hc E; cbn in E.
  { injection E as <- <- <-. cbn in Hc. intros r ->. done. }
  apply M_bind_Ok in E as ([reply p1] & s1 & _ & E). by apply (IH reply _ _ (Hc reply) E).
Qed.

Lemma installs o v : validateOperation o = Ok tt -> install o v = (Ok o, Some o).
Proof. intros V. unfold install, admit_operation. by rewrite V. Qed.

Lemma paced_valid x : paced x -> validateOperation x.2 = Ok tt.
Proof. intros [H1 _]. by apply sound_valid. Qed.

Lemma uncertain_succeeds n o code : clock_ok -> paced (n, o) -> op_State o = StateRunning ->
  validateCode code true = Ok tt ->
  let o' := finished (uncertain_result StateAmbiguous code) (ambiguous_items code (req_Items (op_Request o)))
              (instant clock n) o in
  spec_FinishUncertain (op_ID o) StateAmbiguous code (instant clock n) (Some o) = (Ok o', Some o') /\
  paced (Datatypes.S n, o').
Proof.
  intros C P St Hc o'. destruct P as [[Hw Ho] Hu] eqn:EP. clear EP.
  destruct (C n) as [T _]. destruct Hw as [Hs Hz] eqn:EW. clear EW.
  pose proof Hs as [[Hid _ Hr _ _] _]%validate_shape_iff.
  assert (Hw' : well_shaped o').
  { apply finished_shape; try done; [by apply ambiguous_items_valid|apply ambiguous_items_scope]. }
  assert (P' : paced (Datatypes.S n, o')) by (apply (paced_retimed n o); try done; by constructor).
  split; [|done]. unfold spec_FinishUncertain, spec_finish. cbn in Hid. rewrite Hid, T, Hc. cbn.
  unfold mbind, M_bind, lift, transition; cbn. rewrite String.eqb_refl, (bool_decide_true (StateAmbiguous = StateAmbiguous)),
    (bool_decide_true (op_State o = StateRunning)), andb_false_r by done.
  cbn. change (blen [] =? 0) with true. cbv iota. rewrite ambiguous_items_scope. cbn. apply installs. by apply (paced_valid _ P').
Qed.

Lemma reconcile_succeeds n o inventory : clock_ok -> paced (n, o) -> may_stay_pending (op_State o) = true ->
  inv_State (op_Inventory o) = InventoryPending -> validateInventory inventory false = Ok tt ->
  spec_CompleteReconciliation (op_ID o) inventory (instant clock n) (Some o)
  = (Ok (reconciled inventory (instant clock n) o), Some (reconciled inventory (instant clock n) o)).
Proof.
  intros C P Hm Hp Hv. destruct (C n) as [T _].
  assert (P' : paced (Datatypes.S n, reconciled inventory (instant clock n) o)).
  { apply (paced_retimed n o); try done; [by constructor|]. apply reconciled_shape; try done. apply P. }
  assert (Hid : validateID (op_ID o) = Ok tt).
  { destruct P as [[[[[] _]%validate_shape_iff _] _] _]. done. }
  unfold spec_CompleteReconciliation. rewrite Hid, Hv, T. cbn.
  unfold mbind, M_bind, lift, transition; cbn. rewrite String.eqb_refl, Hm, (bool_decide_true (inv_State (op_Inventory o) = InventoryPending)) by done. cbn.
  apply installs. by apply (paced_valid _ P').
Qed.

Lemma call_result {A} (m : time -> M S Error A) (spec : time -> Spec A) s o a v' :
  (forall now, agrees denotes (m now) (spec now)) -> denotes (sv_store s) (Some o) ->
  blocks_enqueue (Some o) = true -> spec (instant clock (sv_calls s)) (Some o) = (Ok a, v') ->
  exists s', call clock others m s = (Ok a, s') /\ denotes (sv_store s') v' /\
    sv_calls s' = Datatypes.S (sv_calls s).
Proof.
  intros Ha D B E. destruct (call clock others m s) as [r s'] eqn:Ec.
  destruct (call_busy _ _ _ _ _ _ Ha D B Ec) as (v1 & E1 & D1 & N1). rewrite E in E1. simplify_eq. eauto.
Qed.

Lemma uncertain_code_valid out e : validateCode (uncertain_code out e) true = Ok tt.
Proof. by destruct out, e. Qed.

(** With a clock that does not run backwards, the worker always records an
    outcome for the operation it claimed. *)
Lemma execute_completes o s : clock_ok -> denotes (sv_store s) (Some o) -> op_State o = StateRunning ->
  op_Phase o = PhaseRevalidating -> paced (sv_calls s, o) ->
  covers (op_Request o) (Execute executor (op_ID o) (op_Request o)) ->
  (execute executor clock others o s).1 = Ok tt.
Proof.
  intros C D Hst Hp P Hcov. unfold execute. rewrite <- Hp. unfold mbind at 1, M_bind at 1.
  destruct (callExecute clock others _ _ _ s) as [x s1] eqn:E.
  destruct (callExecute_spec _ _ _ _ _ D Hst E) as (out & failure & o1 & -> & D1 & R1).
  pose proof (runs_steps _ _ _ _ _ _ _ _ R1 Hst) as Rt.
  pose proof (phase_steps_paced _ _ C Rt P) as P2. pose proof (phase_steps_same_run _ _ _ Rt) as SR. cbn in SR.
  destruct (same_run_state _ _ SR) as (St & Id & Rq). rewrite Hst in St.
  pose proof (running_busy o1 St) as B1. rewrite <- Id.
  destruct (trusted out (op_Phase o1, failure)) as [r|] eqn:T.
  - destruct (trusted_Some _ _ _ T) as (Ho & _ & Hv).
    pose proof (callExecute_covers _ _ _ _ _ _ _ _ Hcov E r Ho Hv) as Hn. rewrite <- Rq in Hn.
    destruct P2 as [P2 U2]. destruct (C (sv_calls s1)) as [T1 _].
    pose proof (finish_succeeds _ r (instant clock (sv_calls s1)) o1 P2 St eq_refl Hv Hn T1 U2) as F.
    destruct (call_result _ _ _ _ _ _ (law_Finish (op_ID o1) r) D1 B1 F) as (s2 & E2 & _).
    unfold mbind, M_bind. by rewrite E2.
  - destruct (uncertain_succeeds (sv_calls s1) o1 (uncertain_code out failure) C P2 St (uncertain_code_valid _ _)) as [F P3].
    destruct (call_result _ _ _ _ _ _ (law_FinishUncertain (op_ID o1) StateAmbiguous _) D1 B1 F) as (s2 & E2 & D2 & N2).
    unfold mbind, M_bind. cbn [snd]. rewrite E2. unfold reconcile, mbind, M_bind. cbn [op_ID finished].
    rewrite <- N2 in P3.
    pose proof (reconcile_succeeds (sv_calls s2) _ (reconciled_inventory executor (op_ID o1)) C P3
      eq_refl eq_refl (reconciled_inventory_valid _ _)) as F2.
    destruct (call_result _ _ _ _ _ _ (law_CompleteReconciliation (op_ID o1) _) D2 ltac:(by apply pending_busy) F2)
      as (s3 & E3 & _). cbn [op_ID finished] in E3. by rewrite E3.
Qed.
End WorkerFacts.

(** The properties of the durable worker and of the service methods the
    transport calls. *)

Section Correct.
Context {S : Type} `{OperationStoreLaws S}.
Context (executor : Executor) (clock : nat -> time) (others : nat -> list Submission).

(** C28: an operation the worker executes without error is recorded under its
    own identity and request, terminal and with its inventory reconciled, and
    what is recorded is determined by the executor's run: if every phase it
    reported was in order and stored, the last one was refreshing-inventory and
    the result it returned is valid, then exactly that result; otherwise as
    ambiguous and possibly changed, with every reviewed item ambiguous, the code
    that says whether the executor panicked, broke the phases or returned
    garbage, and the reconciler's inventory if that is valid.  Enqueues by other
    goroutines at any point do not disturb it. *)
Theorem execute_records_outcome o s s' :
  denotes (sv_store s) (Some o) -> op_State o = StateRunning -> op_Phase o = PhaseRevalidating ->
  execute executor clock others o s = (Ok tt, s') ->
  exists o', denotes (sv_store s') (Some o') /\ recorded executor clock (sv_calls s) o o'
    /\ op_ID o' = op_ID o /\ op_Request o' = op_Request o /\ settled o'.
Proof.
  intros D Hs Hp E. destruct (execute_spec _ _ _ _ _ _ _ D Hs Hp E) as (o' & D' & _ & R & _).
  exists o'. split; [done|]. split; [by apply R|]. eapply recorded_settled; [done|by apply R].
Qed.

(** whatever state a previous process left behind, once the worker has
    run any number of turns without error no operation is left running and
    no inventory reconciliation is pending. *)
Theorem run_leaves_nothing_half_done turns s v b s' :
  denotes (sv_store s) v -> Run executor clock others turns s = (Ok b, s') ->
  exists v', denotes (sv_store s') v' /\ quiescent v'.
Proof.
  intros D E. unfold Run in E. apply M_bind_Ok in E as (i & s1 & E1 & E).
  destruct (recover_spec _ _ _ _ _ _ _ D E1) as (v1 & D1 & Q1).
  apply M_bind_Ok in E as (u & s2 & E2 & E). injection E as _ <-.
  by apply (loop_spec _ _ _ _ _ _ _ _ D1 Q1 E2).
Qed.

(** the worker is never stuck on the operation it claimed: while its
    clock does not run backwards and the executor's valid results name the
    reviewed items, executing it ends without error, however the executor
    misbehaves otherwise. *)
Theorem execute_never_stuck o s :
  clock_ok clock -> denotes (sv_store s) (Some o) -> op_State o = StateRunning ->
  op_Phase o = PhaseRevalidating -> sound_state (Some o) -> t_ns (UpdatedAt o) <= t_ns (clock (sv_calls s)) ->
  covers (op_Request o) (Execute executor (op_ID o) (op_Request o)) ->
  (execute executor clock others o s).1 = Ok tt.
Proof. intros C D Hs Hp Hso Hu Hc. by apply execute_completes. Qed.

Lemma latest_denotes s o : denotes s (Some o) -> validateOperation o = Ok tt ->
  exists st, so_Latest s = (Ok o, st).
Proof.
  intros D V. destruct (law_Latest s (Some o) D) as [E _]. destruct (so_Latest s) as [r st].
  cbn in E. unfold admit_operation in E. rewrite V in E. subst r. eauto.
Qed.

(** a stored operation is visible through exactly one of [Status] and
    [Latest]: [Latest] shows it, unchanged, once it is settled, and until
    then [Status] shows an active operation and none of the stored outcome. *)
Theorem status_latest_partition s o :
  denotes s (Some o) -> validateOperation o = Ok tt ->
  (settled o /\ (Service_Latest s).1 = Ok o /\ (Service_Status s).1 = Err ErrNotFound) \/
  (~ settled o /\ (Service_Latest s).1 = Err ErrNotFound /\
   exists p, (Service_Status s).1 = Ok p /\ Operation_Active p = true /\ op_ID p = op_ID o /\
     blank_result p).
Proof.
  intros D V. destruct (latest_denotes s o D V) as [st E].
  unfold Service_Latest, Service_Status, mbind, M_bind, lift. rewrite E. cbn.
  apply validateOperation_is_shaped in V as [_ Hs]%validate_shape_iff.
  unfold settled, Operation_Terminal, Operation_Active.
  apply state_cases in Hs as [[Q Hq]|[[Q Hq]|[Q Hq]]].
  - right. rewrite Q. cbn. split_and!; [by intros []|done|]. exists o. rewrite Q. do 3 (split; [done|]). apply Hq.
  - right. rewrite Q. cbn. split_and!; [by intros []|done|]. exists o. rewrite Q. do 3 (split; [done|]). apply Hq.
  - rewrite Q. destruct (decide (inv_State (op_Inventory o) = InventoryPending)) as [P|P].
    + right. rewrite bool_decide_true by done. split_and!; [by intros []|done|].
      exists (status_projection o). split_and!; try done. by destruct (op_State o).
    + left. rewrite bool_decide_false by done. by destruct (op_State o).
Qed.
End Correct.

(** ** Generated identifiers *)

Lemma hex_digit_classes : forallb (fun n => is_hex (hex_digit (Z.of_nat n))
  && negb (is_upper_ascii (hex_digit (Z.of_nat n)))) (seq 0 16) = true.
Proof. vm_compute. reflexivity. Qed.

Lemma hex_digit_class n : 0 <= n < 16 ->
  is_hex (hex_digit n) = true /\ negb (is_upper_ascii (hex_digit n)) = true.
Proof.
  intros Hn. pose proof hex_digit_classes as F. rewrite forallb_elem_of in F.
  specialize (F (Z.to_nat n)). rewrite Z2Nat.id in F by lia.
  apply andb_true_iff, F, elem_of_seq. lia.
Qed.

Lemma hex_encode_bytes raw :
  to_bytes (hex_encode raw) = raw ≫= fun c => [hex_digit (b2z c / 16); hex_digit (b2z c mod 16)].
Proof. unfold hex_encode. apply list_ascii_of_string_of_list_ascii. Qed.

Lemma hex_encode_forall (f : ascii -> bool) raw :
  (forall n, 0 <= n < 16 -> f (hex_digit n) = true) -> forallb f (to_bytes (hex_encode raw)) = true.
Proof.
  intros Hf. rewrite hex_encode_bytes. induction raw as [|c raw IH]; [done|]. cbn [mbind list_bind].
  cbn. pose proof (b2z_range c). rewrite !Hf; [done|div_lia|div_lia].
Qed.

Lemma hex_encode_length raw : slen (hex_encode raw) = 2 * blen raw.
Proof.
  rewrite slen_bytes, hex_encode_bytes. unfold blen. induction raw as [|c raw IH]; [done|]. cbn in *. lia.
Qed.

(** the identifier the service draws for a new operation is always one
    the store accepts, and determines the sixteen random bytes. *)
Theorem generated_identifier_valid raw :
  blen raw = 16 -> validateID (hex_encode raw) = Ok tt /\
  forall raw', hex_encode raw' = hex_encode raw -> raw' = raw.
Proof.
  intros L. split.
  - unfold validateID, hex_decode_len, no_upper. rewrite hex_encode_length, L.
    rewrite (hex_encode_forall is_hex) by apply hex_digit_class.
    rewrite (hex_encode_forall (fun c => negb (is_upper_ascii c))) by apply hex_digit_class. done.
  - intros raw' E. apply (f_equal to_bytes) in E. rewrite !hex_encode_bytes in E. clear L.
    revert raw' E. induction raw as [|c raw IH]; intros [|c' raw'] E; cbn in E; try done.
    injection E as E1 E2 E. f_equal; [|by apply IH].
    assert (D : forall n m, 0 <= n < 16 -> 0 <= m < 16 -> hex_digit n = hex_digit m -> n = m).
    { intros n m Hn Hm Eq. apply (f_equal b2z) in Eq. unfold hex_digit in Eq.
      destruct (n <? 10) eqn:?, (m <? 10) eqn:?; bool_prop; rewrite !b2z_z2b in Eq; lia. }
    pose proof (b2z_range c). pose proof (b2z_range c').
    apply D in E1; [|div_lia|div_lia]. apply D in E2; [|div_lia|div_lia].
    apply b2z_inj. rewrite (Z.div_mod (b2z c) 16), (Z.div_mod (b2z c') 16) by lia. congruence.
Qed.

(** ** Concrete instances *)

(** An executor that reports its phases and returns [sample_result]. *)
Definition sample_executor : Executor := mk_Executor
  (fun _ _ => Reports PhaseExecuting (fun _ => Reports PhaseRefreshingInventory (fun _ => Returns (Some sample_result))))
  (fun _ => None).
Definition sample_clock (n : nat) : time := sample_time (10 * Z.of_nat n).
Definition nobody (n : nat) : list Submission := [].
Definition empty_service : service (world Db) := mk_service (mk_world empty_db []) 0.
Definition running_service : service (world Db) := mk_service (mk_world (tables_of sample_running) []) 1.

(** the worker reads its clock, another goroutine then reads a later clock and
    commits its enqueue, and only then the worker's claim runs: the claim would
    start the operation before it was requested, its read-back rejects that,
    and the error ends the worker. *)
Example claim_race :
  (Run sample_executor sample_clock
     (fun n => if Nat.eqb n 2 then [mk_Submission sample_id KindManual sample_request (sample_time 27)] else [])
     1 empty_service).1
  = Err (ErrInvalid "persisted operation: operation update precedes request").
Proof. vm_compute. reflexivity. Qed.

Lemma sample_running_denoted : denotes (mk_world (tables_of sample_running) []) (Some sample_running).
Proof. split; [done|split; [done|apply sample_running_shaped]]. Qed.

Lemma execute_records_outcome_witness :
  exists s' o', execute sample_executor sample_clock nobody sample_running running_service = (Ok tt, s') /\
    table_denotes (sv_store s') (Some o') /\ recorded sample_executor sample_clock 1 sample_running o'.
Proof.
  destruct (execute sample_executor sample_clock nobody sample_running running_service) as [r s'] eqn:E.
  assert (r = Ok tt) as ->.
  { change r with (r, s').1. rewrite <- E. vm_compute. reflexivity. }
  destruct (execute_records_outcome sample_executor sample_clock nobody sample_running running_service s'
    sample_running_denoted eq_refl eq_refl E) as (o' & D & R & _).
  exists s', o'. split; [reflexivity|split; [exact D|exact R]].
Defined.

Lemma run_leaves_nothing_half_done_witness :
  exists s' v', Run sample_executor sample_clock nobody 2 running_service = (Ok true, s') /\
    table_denotes (sv_store s') v' /\ quiescent v'.
Proof.
  destruct (Run sample_executor sample_clock nobody 2 running_service) as [r s'] eqn:E.
  assert (r = Ok true) as ->.
  { change r with (r, s').1. rewrite <- E. vm_compute. reflexivity. }
  destruct (run_leaves_nothing_half_done sample_executor sample_clock nobody 2 running_service
    (Some sample_running) true s' sample_running_denoted E) as (v' & D & Q).
  exists s', v'. split; [reflexivity|split; [exact D|exact Q]].
Defined.

(** The sample clock stays below the year 10000 for the calls it serves; past
    them it stands still. *)
Definition bounded_clock (n : nat) : time := sample_time (10 * Z.of_nat (n `min` 100)).

Lemma bounded_clock_ok : clock_ok bounded_clock.
Proof.
  intros n. split; [|cbn; lia]. unfold bounded_clock.
  assert (H : forall k, (k <= 100)%nat -> validateTime (canonical (sample_time (10 * Z.of_nat k))) true = Ok tt).
  { intros k Hk. do 101 (destruct k as [|k]; [vm_compute; reflexivity|]). lia. }
  apply H. lia.
Qed.

Lemma execute_never_stuck_witness :
  (execute sample_executor bounded_clock nobody sample_running running_service).1 = Ok tt.
Proof.
  apply (execute_never_stuck sample_executor bounded_clock nobody sample_running running_service).
  - apply bounded_clock_ok.
  - apply sample_running_denoted.
  - reflexivity.
  - reflexivity.
  - split; [apply sample_running_shaped|]. unfold in_order; cbn; split_and!; intros; try lia; done.
  - cbn. lia.
  - cbn. intros _ _. reflexivity.
Defined.

Lemma status_latest_partition_witness :
  (Service_Latest (mk_world (tables_of sample_running) [])).1 = Err ErrNotFound.
Proof.
  destruct (status_latest_partition (mk_world (tables_of sample_running) []) sample_running
    sample_running_denoted ltac:(vm_compute; reflexivity)) as [[[? _] _]|(_ & E & _)]; [done|exact E].
Defined.

Lemma generated_identifier_valid_witness :
  validateID (hex_encode (replicate 16 "A"%char)) = Ok tt.
Proof. apply (generated_identifier_valid (replicate 16 "A"%char)). reflexivity. Defined.
