(* ===== verification/SchedCalc.v ===== *)
(** The daily schedule calculation (internal/scheduler/types.go and
    internal/scheduler/calculate.go).

    A [zone] stands for a loaded [*time.Location]: its name and the offset from
    UTC in force at each second.  The time-zone database is not under src/; how
    a name is loaded is an argument of the code that loads one. *)
From S2P Require Import Prelude.
From S2P Require Import GoText.
From S2P Require Import GoTime.

#[local] Open Scope string_scope.
#[local] Open Scope Z_scope.

Definition maximumZoneBytes : Z := 128.
Definition minutesPerDay : Z := 1440.

Record zone := mk_zone { zone_name : string; zone_offset : Z -> Z }.

(** [ErrInvalid] carries the text it was wrapped with. *)
Inductive SchedError := SErrInvalid (detail : string) | SErrNotDue | SErrOther (text : string).

(** Seconds of the local wall clock: [instant.In(location)]. *)
Definition local_seconds (z : zone) (s : Z) : Z := s + zone_offset z s.
Definition local_date (z : zone) (s : Z) : date := date_of_seconds (local_seconds z s).
Definition local_second (z : zone) (s : Z) : Z := second_of_day (local_seconds z s) mod 60.
(** [local.Hour()*60 + local.Minute()] *)
Definition local_minute (z : zone) (s : Z) : Z := second_of_day (local_seconds z s) / 60.

Definition canonicalInstant (value : time) (required : bool) : result string unit :=
  if is_zero value then reject_if required "UTC instant is required"
  else reject_if (negb (t_utc value) || negb (bool_decide (value = round0 value))
                  || (year_of value <? 1) || (9999 <? year_of value)) "instant is not canonical UTC".

(** The test of one candidate minute. *)
Definition is_occurrence (d : date) (z : zone) (localMinute s : Z) : bool :=
  bool_decide (local_date z s = d) && (local_second z s =? 0) && (localMinute <=? local_minute z s).

(** The first candidate among [n] minutes from [s] on. *)
Fixpoint scan_minutes (n : nat) (d : date) (z : zone) (localMinute s : Z) : option Z :=
  match n with
  | O => None
  | S n' => if is_occurrence d z localMinute s then Some s else scan_minutes n' d z localMinute (s + 60)
  end.

(** Three days, minute by minute, from a day before the civil day. *)
Definition window_start (d : date) : Z := days_from_civil d * seconds_per_day - seconds_per_day.
Definition window_minutes : nat := 4320.

Definition occurrenceOnDate (d : date) (z : zone) (localMinute : Z) : result string time :=
  match scan_minutes window_minutes d z localMinute (window_start d) with
  | Some s => Ok (unix_utc (s * ns_per_second))
  | None => Err "IANA time zone has no valid instant"
  end.

(** [n] days from day number [days] on. *)
Fixpoint search_days (n : nat) (start : time) (z : zone) (localMinute days : Z) : result string time :=
  match n with
  | O => Err "daily schedule has no bounded next occurrence"
  | S n' =>
      candidate ← occurrenceOnDate (civil_from_days days) z localMinute;
      if after candidate start then Ok candidate else search_days n' start z localMinute (days + 1)
  end.

(** The bound of the day search. *)
Definition search_limit : nat := 370.

Definition first_day (start : time) (z : zone) : Z := days_from_civil (local_date z (t_unix start)).

Definition nextOccurrence (start : time) (z : zone) (localMinute : Z) : result string time :=
  _ ← reject_if (is_err (canonicalInstant start true) || (localMinute <? 0) || (minutesPerDay <=? localMinute))
        "daily schedule calculation is invalid";
  search_days search_limit start z localMinute (first_day start z).

(** [occurrence.In(location).Format("2006-01-02")]: a year past 9999 takes the
    digits it needs. *)
Definition format_local_date (c : date) : bytes :=
  if d_year c <=? 9999 then format_date c else digits 5 (d_year c) ++ drop 4 (format_date c).
Definition occurrenceLocalDate (occurrence : time) (z : zone) : bytes :=
  format_local_date (local_date z (t_unix occurrence)).

(** ** The search is right *)

Lemma scan_minutes_some n d z m s r : scan_minutes n d z m s = Some r ->
  exists k, 0 <= k < Z.of_nat n /\ r = s + 60 * k /\ is_occurrence d z m r = true /\
    forall j, 0 <= j < k -> is_occurrence d z m (s + 60 * j) = false.
Proof.
  revert s. induction n as [|n IH]; intros s H; [done|]. cbn [scan_minutes] in H.
  destruct (is_occurrence d z m s) eqn:E.
  - injection H as <-. exists 0. split_and!; [lia|lia|lia|done|lia].
  - destruct (IH _ H) as (k & Hk & -> & Ho & Hb). exists (k + 1). split_and!; [lia|lia|lia| |].
    + by replace (s + 60 + 60 * k) with (s + 60 * (k + 1)) in * by lia.
    + intros j Hj. destruct (Z.eq_dec j 0) as [->|]; [by replace (s + 60 * 0) with s by lia|].
      replace (s + 60 * j) with (s + 60 + 60 * (j - 1)) by lia. apply Hb. lia.
Qed.

Lemma scan_minutes_none n d z m s : scan_minutes n d z m s = None ->
  forall j, 0 <= j < Z.of_nat n -> is_occurrence d z m (s + 60 * j) = false.
Proof.
  revert s. induction n as [|n IH]; intros s H j Hj; [lia|]. cbn [scan_minutes] in H.
  destruct (is_occurrence d z m s) eqn:E; [done|].
  destruct (Z.eq_dec j 0) as [->|]; [by replace (s + 60 * 0) with s by lia|].
  replace (s + 60 * j) with (s + 60 + 60 * (j - 1)) by lia. apply (IH _ H). lia.
Qed.

Lemma scan_minutes_first n d z m s k : 0 <= k < Z.of_nat n -> is_occurrence d z m (s + 60 * k) = true ->
  (forall j, 0 <= j < k -> is_occurrence d z m (s + 60 * j) = false) ->
  scan_minutes n d z m s = Some (s + 60 * k).
Proof.
  revert s k. induction n as [|n IH]; intros s k Hk Ho Hb; [lia|]. cbn [scan_minutes].
  destruct (Z.eq_dec k 0) as [->|].
  - replace (s + 60 * 0) with s in * by lia. by rewrite Ho.
  - pose proof (Hb 0 ltac:(lia)) as H0. replace (s + 60 * 0) with s in H0 by lia. rewrite H0.
    replace (s + 60 * k) with (s + 60 + 60 * (k - 1)) by lia. apply IH; [lia| |].
    + by replace (s + 60 + 60 * (k - 1)) with (s + 60 * k) by lia.
    + intros j Hj. replace (s + 60 + 60 * j) with (s + 60 * (j + 1)) by lia. apply Hb. lia.
Qed.

(** Offsets stay under a day, as those of every zone do. *)
Definition bounded_zone (z : zone) : Prop := forall s, - seconds_per_day < zone_offset z s < seconds_per_day.

(** An instant on a whole UTC minute. *)
Definition whole_minute (s : Z) : Prop := s mod 60 = 0.

Lemma window_covers d z s : bounded_zone z -> whole_minute s -> local_date z s = d ->
  exists j, 0 <= j < Z.of_nat window_minutes /\ s = window_start d + 60 * j.
Proof.
  intros Hb Hm <-. specialize (Hb s). unfold whole_minute, window_start, local_date, date_of_seconds in *.
  rewrite days_civil. unfold local_seconds, seconds_per_day, window_minutes in *.
  set (o := zone_offset z s) in *. clearbody o.
  exists ((s - ((s + o) / 86400 * 86400 - 86400)) / 60). div_lia.
Qed.

(** The specification of an occurrence: the first whole minute of the local
    date at or after the wall-clock minute. *)
Definition first_on_date (d : date) (z : zone) (localMinute s : Z) : Prop :=
  whole_minute s /\ is_occurrence d z localMinute s = true /\
  forall s', whole_minute s' -> is_occurrence d z localMinute s' = true -> s <= s'.

Lemma window_start_whole d : whole_minute (window_start d).
Proof. unfold whole_minute, window_start, seconds_per_day. div_lia. Qed.

Lemma occurrence_date d z m s : is_occurrence d z m s = true -> local_date z s = d.
Proof. unfold is_occurrence. intros H. by bool_prop. Qed.

Lemma occurrenceOnDate_Ok d z m t : bounded_zone z -> occurrenceOnDate d z m = Ok t ->
  exists s, t = unix_utc (s * ns_per_second) /\ first_on_date d z m s.
Proof.
  intros Hb. unfold occurrenceOnDate. destruct (scan_minutes _ _ _ _ _) as [s|] eqn:E; [|done].
  intros [= <-]. exists s. split; [done|]. apply scan_minutes_some in E as (k & Hk & -> & Ho & Hf).
  pose proof (window_start_whole d) as Hw. unfold whole_minute in Hw.
  split_and!; [unfold whole_minute; div_lia|done|]. intros s' Hs' Ho'.
  destruct (window_covers _ _ _ Hb Hs' (occurrence_date _ _ _ _ Ho')) as (j & Hj & ->).
  destruct (Z_lt_ge_dec j k); [|lia]. rewrite Hf in Ho' by lia. done.
Qed.

Lemma occurrenceOnDate_Err d z m e : bounded_zone z -> occurrenceOnDate d z m = Err e ->
  forall s, whole_minute s -> is_occurrence d z m s = false.
Proof.
  intros Hb. unfold occurrenceOnDate. destruct (scan_minutes _ _ _ _ _) as [s|] eqn:E; [done|].
  intros _ s Hs. destruct (is_occurrence d z m s) eqn:Ho; [|done].
  destruct (window_covers _ _ _ Hb Hs (occurrence_date _ _ _ _ Ho)) as (j & Hj & ->).
  by rewrite (scan_minutes_none _ _ _ _ _ E j Hj) in Ho.
Qed.

Lemma occurrenceOnDate_first d z m s : bounded_zone z -> first_on_date d z m s ->
  occurrenceOnDate d z m = Ok (unix_utc (s * ns_per_second)).
Proof.
  intros Hb (Hw & Ho & Hf). destruct (window_covers _ _ _ Hb Hw (occurrence_date _ _ _ _ Ho)) as (k & Hk & ->).
  unfold occurrenceOnDate. rewrite (scan_minutes_first _ _ _ _ _ k); [done|done|done|].
  intros j Hj. destruct (is_occurrence d z m (window_start d + 60 * j)) eqn:Hj2; [|done].
  apply Hf in Hj2; [lia|]. pose proof (window_start_whole d). unfold whole_minute in *. div_lia.
Qed.

#[local] Strategy opaque [occurrenceOnDate].

Lemma search_days_Ok n start z m days t : search_days n start z m days = Ok t ->
  exists k, 0 <= k < Z.of_nat n /\ occurrenceOnDate (civil_from_days (days + k)) z m = Ok t /\
    t_ns start < t_ns t /\
    forall j, 0 <= j < k -> exists t', occurrenceOnDate (civil_from_days (days + j)) z m = Ok t' /\ t_ns t' <= t_ns start.
Proof.
  revert days. induction n as [|n IH]; intros days H; [done|]. cbn [search_days] in H.
  apply bind_Ok in H as (c & Hc & H). unfold after in H. destruct (t_ns start <? t_ns c) eqn:E; bool_prop.
  - injection H as <-. exists 0. rewrite Z.add_0_r. split_and!; [lia|lia|done|done|lia].
  - destruct (IH _ H) as (k & Hk & Ho & Hl & Hb). exists (k + 1).
    replace (days + (k + 1)) with (days + 1 + k) by lia. split_and!; [lia|lia|done|done|].
    intros j Hj. destruct (Z.eq_dec j 0) as [->|]; [rewrite Z.add_0_r; eauto|].
    replace (days + j) with (days + 1 + (j - 1)) by lia. apply Hb. lia.
Qed.

(** A failed calculation is a civil date without the wall-clock time. *)
Lemma search_days_missing n start z m days e : bounded_zone z -> search_days n start z m days = Err e ->
  (exists k, 0 <= k < Z.of_nat n /\
     forall s, whole_minute s -> is_occurrence (civil_from_days (days + k)) z m s = false) \/
  (forall k, 0 <= k < Z.of_nat n -> exists t, occurrenceOnDate (civil_from_days (days + k)) z m = Ok t /\ t_ns t <= t_ns start).
Proof.
  intros Hb. revert days. induction n as [|n IH]; intros days H; [right; lia|]. cbn [search_days] in H.
  destruct (occurrenceOnDate (civil_from_days days) z m) as [c|e0] eqn:Ec.
  - cbn [mbind result_bind] in H. unfold after in H. destruct (t_ns start <? t_ns c) eqn:E; [done|]. bool_prop.
    destruct (IH _ H) as [(k & Hk & Hno)|Hall].
    + left. exists (k + 1). split; [lia|]. by replace (days + (k + 1)) with (days + 1 + k) by lia.
    + right. intros k Hk. destruct (Z.eq_dec k 0) as [->|]; [rewrite Z.add_0_r; eauto|].
      replace (days + k) with (days + 1 + (k - 1)) by lia. apply Hall. lia.
  - left. exists 0. split; [lia|]. rewrite Z.add_0_r. by eapply occurrenceOnDate_Err.
Qed.

Lemma search_limit_Z : Z.of_nat search_limit = 370.
Proof. reflexivity. Qed.

Lemma nextOccurrence_Ok start z m t : nextOccurrence start z m = Ok t ->
  0 <= m < 1440 /\ canonicalInstant start true = Ok tt /\
  exists k, 0 <= k < 370 /\ occurrenceOnDate (civil_from_days (first_day start z + k)) z m = Ok t /\
    t_ns start < t_ns t /\
    forall j, 0 <= j < k -> exists t', occurrenceOnDate (civil_from_days (first_day start z + j)) z m = Ok t' /\
      t_ns t' <= t_ns start.
Proof.
  unfold nextOccurrence. intros H. apply bind_Ok in H as (u & Hg%reject_if_Ok & H). bool_prop.
  apply search_days_Ok in H. rewrite search_limit_Z in H. unfold minutesPerDay in *.
  split; [lia|]. split; [|exact H]. unfold is_err in *. bool_prop. by apply is_ok_true in H0 as [[] ->].
Qed.

(** ** Zones with a fixed offset *)

Definition fixed_zone (name : string) (offset : Z) : zone := mk_zone name (fun _ => offset).

(** The wall-clock minute of a local day, as a second in UTC. *)
Definition fixed_instant (offset m days : Z) : Z := days * seconds_per_day - offset + m * 60.

Lemma fixed_first name offset m days : offset mod 60 = 0 -> 0 <= m < 1440 ->
  first_on_date (civil_from_days days) (fixed_zone name offset) m (fixed_instant offset m days).
Proof.
  intros Ho Hm. unfold first_on_date, whole_minute, fixed_instant, seconds_per_day. split; [div_lia|].
  assert (Hiff : forall s, is_occurrence (civil_from_days days) (fixed_zone name offset) m s = true <->
    (s + offset) / 86400 = days /\ (s + offset) mod 86400 mod 60 = 0 /\ m <= (s + offset) mod 86400 / 60).
  { intros s. unfold is_occurrence, local_date, local_second, local_minute, local_seconds, date_of_seconds,
      second_of_day, seconds_per_day. cbn [zone_offset fixed_zone].
    rewrite !andb_true_iff, bool_decide_eq_true, Z.eqb_eq, Z.leb_le. split; [intros [[H ?] ?]|intros (-> & ? & ?); done].
    split; [|done]. by rewrite <- (days_civil days), <- H, days_civil. }
  split; [apply Hiff; split_and!; div_lia|]. intros s Hs (H1 & H2 & H3)%Hiff. div_lia.
Qed.

Lemma fixed_occurrence name offset m days : offset mod 60 = 0 -> - seconds_per_day < offset < seconds_per_day ->
  0 <= m < 1440 ->
  occurrenceOnDate (civil_from_days days) (fixed_zone name offset) m
  = Ok (unix_utc (fixed_instant offset m days * ns_per_second)).
Proof. intros Ho Hb Hm. apply occurrenceOnDate_first; [by intros s|by apply fixed_first]. Qed.

Lemma search_days_step n start z m days t : occurrenceOnDate (civil_from_days days) z m = Ok t ->
  search_days (S n) start z m days = if after t start then Ok t else search_days n start z m (days + 1).
Proof. intros E. cbn [search_days]. by rewrite E. Qed.

Lemma nextOccurrence_search start z m : canonicalInstant start true = Ok tt -> 0 <= m < 1440 ->
  nextOccurrence start z m = search_days search_limit start z m (first_day start z).
Proof.
  intros Hc Hm. unfold nextOccurrence. rewrite Hc.
  assert (E : is_err (Ok tt : result string unit) || (m <? 0) || (minutesPerDay <=? m) = false).
  { unfold minutesPerDay. cbn. apply orb_false_iff. lia. }
  rewrite E. generalize search_limit. intros n. reflexivity.
Qed.

(** The daily instants of a fixed zone: one of the first two is next. *)
Lemma fixed_search n name offset start m : offset mod 60 = 0 -> - seconds_per_day < offset < seconds_per_day ->
  0 <= m < 1440 ->
  exists days, search_days (S (S n)) start (fixed_zone name offset) m (first_day start (fixed_zone name offset))
    = Ok (unix_utc (fixed_instant offset m days * ns_per_second)) /\
    t_ns start < fixed_instant offset m days * ns_per_second <= t_ns start + day_ns.
Proof.
  intros Ho Hb Hm. set (z := fixed_zone name offset). set (days := first_day start z).
  assert (Hd : days = (t_unix start + offset) / 86400).
  { unfold days, first_day, local_date, date_of_seconds. by rewrite days_civil. }
  rewrite (search_days_step _ _ _ _ _ _ (fixed_occurrence name offset m days Ho Hb Hm)).
  rewrite (search_days_step _ _ _ _ _ _ (fixed_occurrence name offset m (days + 1) Ho Hb Hm)).
  unfold after. cbn [t_ns unix_utc]. clearbody days.
  unfold fixed_instant, seconds_per_day, day_ns, t_unix, ns_per_second, seconds_per_day in *.
  destruct (Z.ltb_spec (t_ns start) ((days * 86400 - offset + m * 60) * 1000000000)).
  - exists days. split; [done|]. div_lia.
  - destruct (Z.ltb_spec (t_ns start) (((days + 1) * 86400 - offset + m * 60) * 1000000000)).
    + exists (days + 1). split; [done|]. div_lia.
    + exfalso. div_lia.
Qed.

Lemma fixed_local_minute name offset m days : offset mod 60 = 0 -> 0 <= m < 1440 ->
  local_minute (fixed_zone name offset) (t_unix (unix_utc (fixed_instant offset m days * ns_per_second))) = m.
Proof.
  intros Ho Hm. unfold t_unix. cbn [t_ns unix_utc]. rewrite Z.div_mul by done.
  unfold local_minute, local_seconds, second_of_day, fixed_instant, seconds_per_day. cbn [zone_offset fixed_zone].
  div_lia.
Qed.

(** In a zone with a fixed offset the schedule recurs every day. *)
Lemma fixed_next name offset start m : offset mod 60 = 0 -> - seconds_per_day < offset < seconds_per_day ->
  0 <= m < 1440 -> canonicalInstant start true = Ok tt ->
  exists t, nextOccurrence start (fixed_zone name offset) m = Ok t /\
    t_ns start < t_ns t <= t_ns start + day_ns /\
    local_minute (fixed_zone name offset) (t_unix t) = m.
Proof.
  intros Ho Hb Hm Hc. rewrite nextOccurrence_search by done.
  replace search_limit with (S (S 368)) by reflexivity.
  destruct (fixed_search 368 name offset start m Ho Hb Hm) as (days & -> & Hr).
  eexists. split; [reflexivity|]. split; [exact Hr|by apply fixed_local_minute].
Qed.
