(* ===== verification/SchedStore.v ===== *)
(** The durable schedule (internal/scheduler/store.go) over the singleton table
    of migration 009, and the evaluation service (internal/scheduler/service.go).

    The row keeps what the columns keep: integers, text, and instants as
    RFC 3339 text.  [LoadLocation] is [time.LoadLocation] over the embedded
    time-zone database. *)
From S2P Require Import Prelude.
From S2P Require Import GoText.
From S2P Require Import GoTime.
From S2P Require Import Effects.
From S2P Require Import Refine.
From S2P Require Import SchedCalc.

#[local] Open Scope string_scope.
#[local] Open Scope Z_scope.

#[export] Instance sched_db_error : DbError SchedError := SErrOther.

(** ** Data *)

Inductive SchedState := StateDisabled | StateScheduled | StateDue | StateDeferred | StateBlocked.

#[export] Instance SchedState_eq_dec : EqDecision SchedState.
Proof. solve_decision. Defined.

Record Schedule := mk_Schedule {
  Configured : bool;
  Enabled : bool;
  TimeZone : string;
  LocalMinute : Z;
  NextEvaluation : time;
  LastTriggeredAt : time;
  LastTriggerDate : bytes;
  ReasonCode : string;
  sc_UpdatedAt : time;
  sc_State : SchedState;
  Claiming : bool;
  ClaimedOccurrence : time
}.

Record Update := mk_Update { up_Enabled : bool; up_TimeZone : string; up_LocalMinute : Z }.
Record Claim := mk_Claim { Occurrence : time }.

(** [trigger_state] *)
Inductive Trigger := TriggerIdle | TriggerClaiming.

#[export] Instance Trigger_eq_dec : EqDecision Trigger.
Proof. solve_decision. Defined.

Record Row := mk_Row {
  c_enabled : Z;
  c_time_zone : string;
  c_local_minute : Z;
  c_next_evaluation_utc : bytes;
  c_last_triggered_at_utc : bytes;
  c_last_trigger_local_date : bytes;
  c_trigger_state : Trigger;
  c_claimed_occurrence_utc : bytes;
  c_reason_code : string;
  c_updated_at_utc : bytes
}.

(** The table: the singleton row, if any. *)
Abbreviation Table := (option Row).

(** ** Constraints *)

Definition stamp_length (required : bool) (l : bytes) : bool :=
  (negb required && (blen l =? 0)) || ((20 <=? blen l) && (blen l <=? 30)).
Definition date_char (c : ascii) : bool := is_digit c || Ascii.eqb c "-".
Definition reason_char (c : ascii) : bool := in_range "a" "z" c || is_digit c || Ascii.eqb c "_".
Definition is_empty (l : bytes) : bool := blen l =? 0.

Definition row_ok (r : Row) : bool :=
  ((c_enabled r =? 0) || (c_enabled r =? 1))
  && (1 <=? rune_count (to_bytes (c_time_zone r))) && (rune_count (to_bytes (c_time_zone r)) <=? 128)
  && (0 <=? c_local_minute r) && (c_local_minute r <=? 1439)
  && stamp_length false (c_next_evaluation_utc r) && stamp_length false (c_last_triggered_at_utc r)
  && ((blen (c_last_trigger_local_date r) =? 0) || (blen (c_last_trigger_local_date r) =? 10))
  && forallb date_char (c_last_trigger_local_date r)
  && stamp_length false (c_claimed_occurrence_utc r)
  && (1 <=? slen (c_reason_code r)) && (slen (c_reason_code r) <=? 64)
  && forallb reason_char (to_bytes (c_reason_code r))
  && stamp_length true (c_updated_at_utc r)
  && if c_enabled r =? 0
     then is_empty (c_next_evaluation_utc r) && bool_decide (c_trigger_state r = TriggerIdle)
          && is_empty (c_claimed_occurrence_utc r)
     else negb (is_empty (c_next_evaluation_utc r))
          && match c_trigger_state r with
             | TriggerIdle => is_empty (c_claimed_occurrence_utc r)
             | TriggerClaiming => negb (is_empty (c_claimed_occurrence_utc r))
             end.

(** ** Statements *)

(** [UPDATE automatic_schedule SET ... WHERE singleton_id = 1 AND ...] *)
Definition update_row (where_ : Row -> bool) (set_ : Row -> Row) (d : Table) : option (Z * Table) :=
  match d with
  | Some r => if where_ r then if row_ok (set_ r) then Some (1, Some (set_ r)) else None else Some (0, d)
  | None => Some (0, d)
  end.

(** [INSERT ... ON CONFLICT(singleton_id) DO UPDATE]: the last trigger columns
    keep their values, or take the column defaults in a new row. *)
Definition upsert_row (enabled : Z) (zone : string) (minute : Z) (next : bytes) (reason : string)
    (now : bytes) (d : Table) : option (unit * Table) :=
  let '(last, last_date) := match d with
                            | Some r => (c_last_triggered_at_utc r, c_last_trigger_local_date r)
                            | None => ([], [])
                            end in
  let row := mk_Row enabled zone minute next last last_date TriggerIdle [] reason now in
  if row_ok row then Some (tt, Some row) else None.

(** ** Text *)

(** [value.Format(time.RFC3339Nano)] of a UTC instant; a year past 9999 takes
    the digits it needs. *)
Definition formatInstant (value : time) : bytes :=
  if year_of value <=? 9999 then format_rfc3339 value
  else digits 5 (year_of value) ++ drop 4 (format_rfc3339 value).

Definition parseInstant (value : bytes) (required : bool) : result string time :=
  if is_empty value && negb required then Ok zero_time
  else match parse_rfc3339 value with
       | None => Err "instant is not canonical UTC RFC 3339 text"
       | Some parsed =>
           if negb (t_utc parsed) || negb (bool_decide (formatInstant parsed = value))
           then Err "instant is not canonical UTC RFC 3339 text"
           else _ ← canonicalInstant parsed true; Ok parsed
       end.

Definition validReason (value : string) : bool :=
  match to_bytes value with
  | [] => false
  | c :: _ => (slen value <=? 64) && is_lower_ascii c
              && forallb (fun r => ((97 <=? r) && (r <=? 122)) || ((48 <=? r) && (r <=? 57)) || (r =? 95))
                   (runes (to_bytes value))
  end.

(** The name pattern: ["UTC"], or slash-separated segments of which there are
    at least two. *)
Definition zone_alpha (c : ascii) : bool := in_range "A" "Z" c || in_range "a" "z" c.
Definition zone_char (c : ascii) : bool :=
  zone_alpha c || is_digit c || Ascii.eqb c "." || Ascii.eqb c "_" || Ascii.eqb c "+" || Ascii.eqb c "-".
Definition zone_segment (first : ascii -> bool) (l : bytes) : bool :=
  match l with c :: l' => first c && forallb zone_char l' | [] => false end.
Definition zoneName (name : string) : bool :=
  String.eqb name "UTC" ||
  match split_on "/" (to_bytes name) with
  | area :: (_ :: _) as rest =>
      zone_segment zone_alpha area
      && forallb (zone_segment (fun c => zone_alpha c || is_digit c)) (tl (split_on "/" (to_bytes name)))
  | _ => false
  end.

(** [time.Month] and clock fields printed as [%02d:%02d]. *)
Definition localTimeText (minute : Z) : bytes := digits 2 (minute / 60) ++ [":"%char] ++ digits 2 (minute mod 60).
Definition LocalTime (schedule : Schedule) : bytes :=
  if negb (Configured schedule) then [] else localTimeText (LocalMinute schedule).

Definition deriveState (schedule : Schedule) (now : time) : SchedState :=
  if negb (Configured schedule) || negb (Enabled schedule) then StateDisabled
  else if Claiming schedule || negb (after (NextEvaluation schedule) now) then
    if String.eqb (ReasonCode schedule) "operation_active" || String.eqb (ReasonCode schedule) "workspace_busy"
    then StateDeferred else StateDue
  else if String.eqb (ReasonCode schedule) "configuration_invalid"
       || String.eqb (ReasonCode schedule) "workspace_invalid"
       || String.eqb (ReasonCode schedule) "recovery_required"
       || String.eqb (ReasonCode schedule) "operation_unavailable"
  then StateBlocked else StateScheduled.

Definition unconfigured : Schedule :=
  mk_Schedule false false "" 0 zero_time zero_time [] "not_configured" zero_time StateDisabled false zero_time.

(** ** Store operations *)

Abbreviation STx := (M (txn Table) SchedError).
Abbreviation SStore := (M (world Table) SchedError).

Definition plain_error (r : result string unit) : result SchedError unit := map_err SErrOther r.
(** [store.ready(ctx, now)] *)
Definition ready (now : time) : result SchedError unit := plain_error (canonicalInstant now true).

Definition requireOne (changed : Z) : STx unit :=
  lift (reject_if (negb (changed =? 1)) (SErrOther "automatic schedule changed concurrently")).

Section Store.
Context (LoadLocation : string -> option zone).

Definition validateUpdate (update : Update) : result SchedError zone :=
  _ ← reject_if ((slen (up_TimeZone update) =? 0) || (maximumZoneBytes <? slen (up_TimeZone update))
                 || negb (zoneName (up_TimeZone update))) (SErrInvalid "IANA time zone is invalid");
  match LoadLocation (up_TimeZone update) with
  | None => Err (SErrInvalid "IANA time zone is unavailable")
  | Some location =>
      _ ← reject_if (negb (String.eqb (zone_name location) (up_TimeZone update)))
            (SErrInvalid "IANA time zone is unavailable");
      _ ← reject_if ((up_LocalMinute update <? 0) || (minutesPerDay <=? up_LocalMinute update))
            (SErrInvalid "local evaluation time is invalid");
      Ok location
  end.

Definition persisted_schedule (r : Row) (now : time) : result SchedError Schedule :=
  let enabled := c_enabled r =? 1 in
  next ← map_err SErrOther (map_err (append "persisted next evaluation: ") (parseInstant (c_next_evaluation_utc r) enabled));
  last ← map_err SErrOther (map_err (append "persisted last trigger: ") (parseInstant (c_last_triggered_at_utc r) false));
  claimed ← map_err SErrOther (map_err (append "persisted claimed occurrence: ") (parseInstant (c_claimed_occurrence_utc r) false));
  updated ← map_err SErrOther (map_err (append "persisted schedule update: ") (parseInstant (c_updated_at_utc r) true));
  _ ← validateUpdate (mk_Update enabled (c_time_zone r) (c_local_minute r));
  let schedule state := mk_Schedule true enabled (c_time_zone r) (c_local_minute r) next last
    (c_last_trigger_local_date r) (c_reason_code r) updated state
    (bool_decide (c_trigger_state r = TriggerClaiming)) claimed in
  Ok (schedule (deriveState (schedule StateDisabled) now)).

Definition loadSchedule (now : time) : STx Schedule :=
  row ← query "load automatic schedule" (fun d : Table => d);
  match row with
  | None => mret unconfigured
  | Some r => lift (persisted_schedule r now)
  end.

Definition Get (now : time) : SStore Schedule :=
  _ ← lift (ready now);
  transaction "begin schedule read" (
    schedule ← loadSchedule now;
    _ ← commit "finish schedule read";
    mret schedule).

Definition next_or_invalid (r : result string time) : result SchedError time := map_err SErrInvalid r.
Definition next_or_error (r : result string time) : result SchedError time := map_err SErrOther r.

Definition Save (update : Update) (now : time) : SStore Schedule :=
  _ ← lift (ready now);
  location ← lift (validateUpdate update);
  '(next, reason) ← lift (if up_Enabled update
      then calculated ← next_or_invalid (nextOccurrence now location (up_LocalMinute update));
           Ok (formatInstant calculated, "schedule_saved")
      else Ok ([], "schedule_disabled"));
  transaction "begin schedule save" (
    _ ← statement "persist schedule" (upsert_row (if up_Enabled update then 1 else 0) (up_TimeZone update)
          (up_LocalMinute update) next reason (formatInstant now));
    schedule ← loadSchedule now;
    _ ← commit "commit schedule save";
    mret schedule).

Definition set_coalesced (next now : bytes) (r : Row) : Row :=
  mk_Row (c_enabled r) (c_time_zone r) (c_local_minute r) next (c_last_triggered_at_utc r)
    (c_last_trigger_local_date r) (c_trigger_state r) (c_claimed_occurrence_utc r)
    "clock_rollback_coalesced" now.
Definition set_claiming (next occurrence now : bytes) (r : Row) : Row :=
  mk_Row (c_enabled r) (c_time_zone r) (c_local_minute r) next (c_last_triggered_at_utc r)
    (c_last_trigger_local_date r) TriggerClaiming occurrence "trigger_claimed" now.

Definition zone_error : SchedError := SErrInvalid "persisted schedule time zone".

Definition ClaimDue (now : time) : SStore Claim :=
  _ ← lift (ready now);
  transaction "begin schedule claim" (
    schedule ← loadSchedule now;
    if negb (Configured schedule) || negb (Enabled schedule) || Claiming schedule
       || after (NextEvaluation schedule) now
    then fail SErrNotDue
    else match LoadLocation (TimeZone schedule) with
    | None => fail zone_error
    | Some location =>
        let occurrenceDate := occurrenceLocalDate (NextEvaluation schedule) location in
        if negb (is_empty (LastTriggerDate schedule)) && bytes_leb occurrenceDate (LastTriggerDate schedule) then
          next ← lift (next_or_error (nextOccurrence now location (LocalMinute schedule)));
          _ ← statement "coalesce repeated local date"
                (update_row (fun _ => true) (set_coalesced (formatInstant next) (formatInstant now)));
          _ ← commit "commit repeated local date";
          fail SErrNotDue
        else
          next ← lift (next_or_error (nextOccurrence now location (LocalMinute schedule)));
          changed ← statement "claim due schedule"
            (update_row (fun r => (c_enabled r =? 1) && bool_decide (c_trigger_state r = TriggerIdle)
                                  && bool_decide (c_next_evaluation_utc r = formatInstant (NextEvaluation schedule)))
               (set_claiming (formatInstant next) (formatInstant (NextEvaluation schedule)) (formatInstant now)));
          _ ← requireOne changed;
          _ ← commit "commit schedule claim";
          mret (mk_Claim (NextEvaluation schedule))
    end).

(** The row guard shared by completing and releasing a claim. *)
Definition holds_claim (claim : Claim) (r : Row) : bool :=
  bool_decide (c_trigger_state r = TriggerClaiming)
  && bool_decide (c_claimed_occurrence_utc r = formatInstant (Occurrence claim)).

Definition set_triggered (date now : bytes) (r : Row) : Row :=
  mk_Row (c_enabled r) (c_time_zone r) (c_local_minute r) (c_next_evaluation_utc r) now date
    TriggerIdle [] "triggered" now.

Definition CompleteClaim (claim : Claim) (now : time) : SStore unit :=
  _ ← lift (ready now);
  _ ← lift (reject_if (is_err (canonicalInstant (Occurrence claim) true)) (SErrInvalid ""));
  transaction "begin schedule completion" (
    zone ← query "load claimed schedule zone" (fun d : Table => c_time_zone <$> d);
    match zone with
    | None => fail (SErrOther "load claimed schedule zone")
    | Some zone =>
        match LoadLocation zone with
        | None => fail zone_error
        | Some location =>
            changed ← statement "complete schedule claim"
              (update_row (holds_claim claim)
                 (set_triggered (occurrenceLocalDate (Occurrence claim) location) (formatInstant now)));
            _ ← requireOne changed;
            commit "commit schedule completion"
        end
    end).

Definition set_released (deferred : bool) (claim : Claim) (reason : string) (now : bytes) (r : Row) : Row :=
  mk_Row (c_enabled r) (c_time_zone r) (c_local_minute r)
    (if deferred then formatInstant (Occurrence claim) else c_next_evaluation_utc r)
    (c_last_triggered_at_utc r) (c_last_trigger_local_date r) TriggerIdle [] reason now.

Definition ReleaseClaim (claim : Claim) (reason : string) (deferred : bool) (now : time) : SStore unit :=
  _ ← lift (ready now);
  _ ← lift (reject_if (is_err (canonicalInstant (Occurrence claim) true) || negb (validReason reason))
              (SErrInvalid ""));
  transaction "begin schedule release" (
    changed ← statement "release schedule claim"
      (update_row (holds_claim claim) (set_released deferred claim reason (formatInstant now)));
    _ ← requireOne changed;
    commit "commit schedule release").

Definition set_recovered (next : bytes) (reason : string) (now : bytes) (r : Row) : Row :=
  mk_Row (c_enabled r) (c_time_zone r) (c_local_minute r) next (c_last_triggered_at_utc r)
    (c_last_trigger_local_date r) TriggerIdle [] reason now.

Definition Recover (now : time) (interruptedOperation : bool) : SStore unit :=
  _ ← lift (ready now);
  transaction "begin schedule recovery" (
    schedule ← loadSchedule now;
    if negb (Configured schedule) || negb (Enabled schedule) || (negb (Claiming schedule) && negb interruptedOperation)
    then commit "finish schedule recovery"
    else match LoadLocation (TimeZone schedule) with
    | None => fail zone_error
    | Some location =>
        next ← lift (next_or_error (nextOccurrence now location (LocalMinute schedule)));
        _ ← statement "recover automatic schedule"
              (update_row (fun _ => true) (set_recovered (formatInstant next)
                 (if interruptedOperation then "operation_interrupted" else "trigger_recovered") (formatInstant now)));
        commit "commit schedule recovery"
    end).

(** ** The evaluation service *)

(** What [EnqueueScheduled] reports, as the service tells errors apart. *)
Inductive Outcome :=
| OutcomeAccepted | OutcomeActive | OutcomeBusy | OutcomeRecovery | OutcomeWorkspace | OutcomeChanged
| OutcomeConfiguration | OutcomeOther.

Definition settle (outcome : Outcome) (claim : Claim) (now : time) : SStore unit :=
  match outcome with
  | OutcomeAccepted => CompleteClaim claim now
  | OutcomeActive => ReleaseClaim claim "operation_active" true now
  | OutcomeBusy => ReleaseClaim claim "workspace_busy" true now
  | OutcomeRecovery => ReleaseClaim claim "recovery_required" false now
  | OutcomeWorkspace | OutcomeChanged => ReleaseClaim claim "workspace_invalid" false now
  | OutcomeConfiguration => ReleaseClaim claim "configuration_invalid" false now
  | OutcomeOther => ReleaseClaim claim "operation_unavailable" false now
  end.

(** One evaluation; the mutex makes it atomic with respect to the other
    service methods.  [claimed_at] and [settled_at] are its clock readings. *)
Definition evaluate (outcome : Outcome) (claimed_at settled_at : time) : SStore unit :=
  claim ← attempt (ClaimDue claimed_at);
  match claim with
  | Err SErrNotDue => mret tt
  | Err e => fail e
  | Ok claim => settle outcome claim settled_at
  end.

Definition defaultWakeInterval : Z := minute_ns.
Definition deferredRetry : Z := ns_per_second.

(** The wait before the next evaluation, in nanoseconds. *)
Definition delay (read_at measured_at : time) : SStore Z :=
  schedule ← Get read_at;
  mret (if negb (Enabled schedule) then defaultWakeInterval
        else if bool_decide (sc_State schedule = StateDue) || bool_decide (sc_State schedule = StateDeferred)
        then deferredRetry
        else let d := t_ns (NextEvaluation schedule) - t_ns measured_at in
             if d <=? 0 then deferredRetry
             else if defaultWakeInterval <? d then defaultWakeInterval else d).
End Store.
