(* ===== verification/SchedRefine.v ===== *)
(** The schedule as a state machine, and the proof that the store implements
    it.  The specification state is an [option Stored], with instants instead
    of text; clocks before the horizon (the year 9990) keep every instant the
    store computes inside the persistable years. *)
From S2P Require Import Prelude.
From S2P Require Import GoText.
From S2P Require Import GoTime.
From S2P Require Import Effects.
From S2P Require Import Refine.
From S2P Require Import SchedCalc.
From S2P Require Import SchedStore.

#[local] Open Scope string_scope.
#[local] Open Scope Z_scope.

(** ** Specification *)

Record Stored := mk_Stored {
  st_enabled : bool;
  st_zone : string;
  st_minute : Z;
  st_next : time;
  st_last : time;
  st_date : bytes;
  st_claim : option time;
  st_reason : string;
  st_updated : time
}.

(** The schedule a caller sees. *)
Definition view (now : time) (st : Stored) : Schedule :=
  let schedule state := mk_Schedule true (st_enabled st) (st_zone st) (st_minute st) (st_next st) (st_last st)
    (st_date st) (st_reason st) (st_updated st) state (bool_decide (is_Some (st_claim st)))
    (default zero_time (st_claim st)) in
  schedule (deriveState (schedule StateDisabled) now).

Definition view_option (now : time) (s : option Stored) : Schedule :=
  match s with Some st => view now st | None => unconfigured end.

Abbreviation SSpec := (M (option Stored) SchedError).

(** A transition given as a function on states. *)
Definition step {A} (f : option Stored -> result SchedError A * option Stored) : SSpec A := f.

Definition saved (update : Update) (next : time) (now : time) (s : option Stored) : Stored :=
  mk_Stored (up_Enabled update) (up_TimeZone update) (up_LocalMinute update) next
    (match s with Some st => st_last st | None => zero_time end)
    (match s with Some st => st_date st | None => [] end)
    None (if up_Enabled update then "schedule_saved" else "schedule_disabled") now.
Definition coalesced (next now : time) (st : Stored) : Stored :=
  mk_Stored (st_enabled st) (st_zone st) (st_minute st) next (st_last st) (st_date st) (st_claim st)
    "clock_rollback_coalesced" now.
Definition claiming (next now : time) (st : Stored) : Stored :=
  mk_Stored (st_enabled st) (st_zone st) (st_minute st) next (st_last st) (st_date st) (Some (st_next st))
    "trigger_claimed" now.
Definition triggered (date : bytes) (now : time) (st : Stored) : Stored :=
  mk_Stored (st_enabled st) (st_zone st) (st_minute st) (st_next st) now date None "triggered" now.
Definition released (deferred : bool) (occurrence : time) (reason : string) (now : time) (st : Stored) : Stored :=
  mk_Stored (st_enabled st) (st_zone st) (st_minute st) (if deferred then occurrence else st_next st)
    (st_last st) (st_date st) None reason now.
Definition recovered (next : time) (reason : string) (now : time) (st : Stored) : Stored :=
  mk_Stored (st_enabled st) (st_zone st) (st_minute st) next (st_last st) (st_date st) None reason now.

Definition holds (claim : Claim) (st : Stored) : bool := bool_decide (st_claim st = Some (Occurrence claim)).
Definition changed_concurrently : SchedError := SErrOther "automatic schedule changed concurrently".

Section Spec.
Context (LoadLocation : string -> option zone).

Definition spec_Get (now : time) : SSpec Schedule :=
  _ ← lift (ready now); step (fun s => (Ok (view_option now s), s)).

Definition spec_Save (update : Update) (now : time) : SSpec Schedule :=
  _ ← lift (ready now);
  location ← lift (validateUpdate LoadLocation update);
  next ← lift (if up_Enabled update
               then next_or_invalid (nextOccurrence now location (up_LocalMinute update)) else Ok zero_time);
  step (fun s => (Ok (view now (saved update next now s)), Some (saved update next now s))).

(** Nothing is due: no schedule, disabled, already claimed, or not yet time. *)
Definition not_due (now : time) (st : Stored) : bool :=
  negb (st_enabled st) || bool_decide (is_Some (st_claim st)) || after (st_next st) now.

(** The local date of the due occurrence was triggered before. *)
Definition repeated (location : zone) (st : Stored) : bool :=
  negb (is_empty (st_date st)) && bytes_leb (occurrenceLocalDate (st_next st) location) (st_date st).

Definition spec_ClaimDue (now : time) : SSpec Claim :=
  _ ← lift (ready now);
  step (fun s => match s with
            | None => (Err SErrNotDue, s)
            | Some st =>
                if not_due now st then (Err SErrNotDue, s)
                else match LoadLocation (st_zone st) with
                     | None => (Err zone_error, s)
                     | Some location =>
                         match nextOccurrence now location (st_minute st) with
                         | Err e => (Err (SErrOther e), s)
                         | Ok next =>
                             if repeated location st then (Err SErrNotDue, Some (coalesced next now st))
                             else (Ok (mk_Claim (st_next st)), Some (claiming next now st))
                         end
                     end
            end).

Definition valid_claim (claim : Claim) : bool := is_ok (canonicalInstant (Occurrence claim) true).

Definition spec_CompleteClaim (claim : Claim) (now : time) : SSpec unit :=
  _ ← lift (ready now);
  _ ← lift (reject_if (negb (valid_claim claim)) (SErrInvalid ""));
  step (fun s => match s with
            | None => (Err (SErrOther "load claimed schedule zone"), s)
            | Some st =>
                match LoadLocation (st_zone st) with
                | None => (Err zone_error, s)
                | Some location =>
                    if holds claim st
                    then (Ok tt, Some (triggered (occurrenceLocalDate (Occurrence claim) location) now st))
                    else (Err changed_concurrently, s)
                end
            end).

Definition spec_ReleaseClaim (claim : Claim) (reason : string) (deferred : bool) (now : time) : SSpec unit :=
  _ ← lift (ready now);
  _ ← lift (reject_if (negb (valid_claim claim) || negb (validReason reason)) (SErrInvalid ""));
  step (fun s => match s with
            | Some st => if holds claim st then (Ok tt, Some (released deferred (Occurrence claim) reason now st))
                         else (Err changed_concurrently, s)
            | None => (Err changed_concurrently, s)
            end).

Definition spec_Recover (now : time) (interruptedOperation : bool) : SSpec unit :=
  _ ← lift (ready now);
  step (fun s => match s with
            | Some st =>
                if negb (st_enabled st) || (negb (bool_decide (is_Some (st_claim st))) && negb interruptedOperation)
                then (Ok tt, s)
                else match LoadLocation (st_zone st) with
                     | None => (Err zone_error, s)
                     | Some location =>
                         match nextOccurrence now location (st_minute st) with
                         | Err e => (Err (SErrOther e), s)
                         | Ok next =>
                             (Ok tt, Some (recovered next
                                (if interruptedOperation then "operation_interrupted" else "trigger_recovered") now st))
                         end
                     end
            | None => (Ok tt, s)
            end).
End Spec.

(** ** Instants the store can keep *)

Definition horizon_ns : Z := midnight_ns (mk_date 9990 1 1).
Definition limit_ns : Z := midnight_ns (mk_date 9999 1 1).

(** A clock reading before the horizon. *)
Definition early (now : time) : Prop := t_ns now < horizon_ns.
Definition storable (t : time) : Prop := canonicalInstant t true = Ok tt /\ t_ns t < limit_ns.

Lemma canonicalInstant_iff t :
  canonicalInstant t true = Ok tt <-> is_zero t = false /\ t = unix_utc (t_ns t) /\ 1 <= year_of t <= 9999.
Proof.
  unfold canonicalInstant. destruct (is_zero t) eqn:Z; [cbn; naive_solver|]. rewrite reject_if_Ok.
  rewrite !orb_false_iff, !negb_false_iff, bool_decide_eq_true.
  destruct t as [ns u m]. unfold round0, unix_utc. cbn. split.
  - intros (((-> & [= ->]) & ?) & ?). bool_prop. split_and!; [done..|lia|lia].
  - intros (_ & [= -> ->] & H). split_and!; try done; [apply Z.ltb_ge|apply Z.ltb_ge]; lia.
Qed.

(** Years by instants: the first and the last persistable day. *)
Lemma year_bounds t : zero_ns <= t_ns t < limit_ns -> 1 <= year_of t <= 9999.
Proof.
  unfold zero_ns, limit_ns, midnight_ns, day_ns, year_of, date_of_seconds, t_unix. intros H.
  change (days_from_civil (mk_date 9999 1 1)) with 2932532 in H. unfold seconds_per_day, ns_per_second in *.
  pose proof (civil_year_mono (-719162) (t_ns t / 1000000000 / 86400) ltac:(div_lia)) as H1.
  pose proof (civil_year_mono (t_ns t / 1000000000 / 86400) 2932532 ltac:(div_lia)) as H2.
  change (d_year (civil_from_days (-719162))) with 1 in H1. change (d_year (civil_from_days 2932532)) with 9999 in H2.
  done.
Qed.

Lemma year_of_zero t : t_ns t < zero_ns -> year_of t <= 0.
Proof.
  unfold zero_ns, year_of, date_of_seconds, t_unix, seconds_per_day, ns_per_second. intros H.
  pose proof (civil_year_mono (t_ns t / 1000000000 / 86400) (-719163) ltac:(div_lia)) as H2.
  by change (d_year (civil_from_days (-719163))) with 0 in H2.
Qed.

Lemma canonical_after_zero t : canonicalInstant t true = Ok tt -> zero_ns < t_ns t.
Proof.
  intros (Z & _ & Y)%canonicalInstant_iff. unfold is_zero in Z. bool_prop.
  destruct (Z_lt_ge_dec (t_ns t) zero_ns) as [L|L]; [apply year_of_zero in L; lia|lia].
Qed.

Lemma storable_intro ns : zero_ns < ns < limit_ns -> storable (unix_utc ns).
Proof.
  intros H. split; [|apply H]. apply canonicalInstant_iff. unfold is_zero. cbn [t_ns unix_utc].
  split_and!; [apply Z.eqb_neq; lia|done| |]; apply year_bounds; cbn; lia.
Qed.

(** The next occurrence of an early clock is storable. *)
Lemma nextOccurrence_storable now z m t : bounded_zone z -> early now -> nextOccurrence now z m = Ok t ->
  storable t /\ t_ns now < t_ns t.
Proof.
  intros Hb He (Hm & Hc & k & Hk & Ho & Hl & _)%nextOccurrence_Ok.
  pose proof (canonical_after_zero _ Hc) as Hz.
  apply occurrenceOnDate_Ok in Ho as (s & -> & _ & Hocc & _); [|done]. split; [|done].
  apply storable_intro. cbn [t_ns unix_utc] in *. split; [lia|].
  apply occurrence_date in Hocc. pose proof (f_equal days_from_civil Hocc) as Hd.
  rewrite days_civil in Hd. unfold first_day, local_date, date_of_seconds, local_seconds in Hd.
  rewrite !days_civil in Hd. pose proof (Hb s). pose proof (Hb (t_unix now)).
  unfold early, horizon_ns, limit_ns, midnight_ns, t_unix in *.
  change (days_from_civil (mk_date 9999 1 1)) with 2932532. change (days_from_civil (mk_date 9990 1 1)) with 2929245 in He.
  unfold day_ns, seconds_per_day, ns_per_second in *. clear Hocc. div_lia.
Qed.

Lemma early_storable now : early now -> canonicalInstant now true = Ok tt -> storable now.
Proof.
  intros H Hc. split; [done|]. unfold early, horizon_ns, limit_ns, midnight_ns in *.
  change (days_from_civil (mk_date 9999 1 1)) with 2932532. change (days_from_civil (mk_date 9990 1 1)) with 2929245 in H.
  unfold day_ns, seconds_per_day, ns_per_second in *. lia.
Qed.

(** ** Text of instants *)

Lemma formatInstant_canonical t : canonicalInstant t true = Ok tt -> formatInstant t = format_rfc3339 t.
Proof. intros (_ & _ & Y)%canonicalInstant_iff. unfold formatInstant. by rewrite (proj2 (Z.leb_le _ _)) by lia. Qed.

Lemma parse_formatInstant t b : canonicalInstant t true = Ok tt -> parseInstant (formatInstant t) b = Ok t.
Proof.
  intros H. pose proof H as (_ & Hc & Y)%canonicalInstant_iff. pose proof (format_length t) as L.
  unfold parseInstant, is_empty. rewrite formatInstant_canonical by done.
  rewrite (proj2 (Z.eqb_neq _ _)) by lia. cbn [andb].
  rewrite parse_format by (unfold persistable_year; lia).
  assert (Ec : GoTime.canonical t = t) by (rewrite Hc; done). rewrite Ec.
  rewrite Hc at 1. cbn [t_utc unix_utc negb orb].
  rewrite formatInstant_canonical, bool_decide_true by done. cbn. by rewrite H.
Qed.

Lemma formatInstant_inj t u : canonicalInstant t true = Ok tt -> canonicalInstant u true = Ok tt ->
  formatInstant t = formatInstant u -> t = u.
Proof.
  intros Ht Hu E. pose proof (parse_formatInstant t true Ht) as P. rewrite E, (parse_formatInstant u true Hu) in P.
  by simplify_eq.
Qed.

Lemma formatInstant_length t b : canonicalInstant t true = Ok tt -> stamp_length b (formatInstant t) = true.
Proof.
  intros H. rewrite formatInstant_canonical by done. pose proof (format_length t). unfold stamp_length.
  apply orb_true_iff. right. lia.
Qed.

Lemma formatInstant_nonempty t : canonicalInstant t true = Ok tt -> is_empty (formatInstant t) = false.
Proof.
  intros H. rewrite formatInstant_canonical by done. pose proof (format_length t). unfold is_empty.
  apply Z.eqb_neq. lia.
Qed.

(** The schedule table implements the schedule state machine. *)

Definition stamp (t : time) : bytes := if is_zero t then [] else formatInstant t.

Definition row_of (st : Stored) : Row :=
  mk_Row (if st_enabled st then 1 else 0) (st_zone st) (st_minute st) (stamp (st_next st)) (stamp (st_last st))
    (st_date st) (if st_claim st then TriggerClaiming else TriggerIdle)
    (match st_claim st with Some t => formatInstant t | None => [] end) (st_reason st) (formatInstant (st_updated st)).

(** Projections of the rows of the model. *)
Ltac row_fields := cbn [c_enabled c_time_zone c_local_minute c_next_evaluation_utc c_last_triggered_at_utc
  c_last_trigger_local_date c_trigger_state c_claimed_occurrence_utc c_reason_code c_updated_at_utc row_of
  st_enabled st_zone st_minute st_next st_last st_date st_claim st_reason st_updated].

(** A last trigger date: none, or the text of a date with a four-digit year. *)
Definition date_text (l : bytes) : Prop :=
  l = [] \/ exists c, valid_date c = true /\ four_digit_year c /\ l = format_date c.

Definition reason_text (s : string) : bool :=
  (1 <=? slen s) && (slen s <=? 64) && forallb reason_char (to_bytes s).

Section SchedRefine.
Context (LoadLocation : string -> option zone).
Context (zones_bounded : forall name z, LoadLocation name = Some z -> bounded_zone z).

Record well_stored (st : Stored) : Prop := mk_well_stored {
  ws_update : is_ok (validateUpdate LoadLocation (mk_Update (st_enabled st) (st_zone st) (st_minute st))) = true;
  ws_next : if st_enabled st then storable (st_next st) else st_next st = zero_time;
  ws_last : st_last st = zero_time \/ canonicalInstant (st_last st) true = Ok tt;
  ws_date : date_text (st_date st);
  ws_claim : forall t, st_claim st = Some t -> st_enabled st = true /\ storable t;
  ws_reason : reason_text (st_reason st) = true;
  ws_updated : canonicalInstant (st_updated st) true = Ok tt
}.

Definition represents (d : Table) (s : option Stored) : Prop :=
  match s with
  | None => d = None
  | Some st => d = Some (row_of st) /\ well_stored st
  end.

(** ** The schema accepts what the store computes *)

Lemma validateUpdate_Ok u z : validateUpdate LoadLocation u = Ok z ->
  LoadLocation (up_TimeZone u) = Some z /\ zoneName (up_TimeZone u) = true /\ zone_name z = up_TimeZone u /\
  1 <= slen (up_TimeZone u) <= 128 /\ 0 <= up_LocalMinute u < 1440.
Proof.
  unfold validateUpdate, maximumZoneBytes, minutesPerDay. intros H.
  apply bind_Ok in H as (? & H1%reject_if_Ok & H). destruct (LoadLocation (up_TimeZone u)) as [l|] eqn:L; [|done].
  apply bind_Ok in H as (? & H2%reject_if_Ok & H). apply bind_Ok in H as (? & H3%reject_if_Ok & H).
  injection H as <-. bool_prop. unfold slen in *. split_and!; try done; lia.
Qed.

Lemma split_on_chars sep l (f : ascii -> bool) : f sep = true ->
  (forall part, part ∈ split_on sep l -> forallb f part = true) -> forallb f l = true.
Proof.
  intros Hs. induction l as [|c l IH]; intros H; [done|]. cbn in *. destruct (ascii_dec c sep) as [->|].
  - rewrite Hs. apply IH. intros. apply H. by right.
  - destruct (split_on sep l) as [|p ps] eqn:E.
    + destruct l as [|c' l]; cbn in E; [done|]. destruct (ascii_dec c' sep); [done|]. by destruct (split_on sep l).
    + pose proof (H (c :: p) ltac:(by left)) as Hc. cbn in Hc. apply andb_true_iff in Hc as [-> Hp].
      apply IH. intros part [->|Hin]%elem_of_cons; [done|]. apply H. by right.
Qed.

Lemma in_range_ascii lo hi c : b2z hi < 128 -> in_range lo hi c = true -> ascii_byte c = true.
Proof. unfold in_range, ascii_byte. intros. bool_prop. lia. Qed.

Lemma zone_char_ascii c : zone_char c = true -> ascii_byte c = true.
Proof.
  unfold zone_char, zone_alpha, is_digit. rewrite !orb_true_iff, !Ascii.eqb_eq.
  intros [[[[[[H|H]|H]|H]|H]|H]|H]; try (subst c; done); revert H; by apply in_range_ascii.
Qed.

Lemma zoneName_ascii name : zoneName name = true -> forallb ascii_byte (to_bytes name) = true.
Proof.
  unfold zoneName. intros [H|H]%orb_true_iff; [apply String.eqb_eq in H; by subst|].
  destruct (split_on "/" (to_bytes name)) as [|area [|r rest]] eqn:E; try done.
  apply (split_on_chars "/"); [done|]. rewrite E. cbn [tl] in H. apply andb_true_iff in H as [Ha Hr].
  assert (Hseg : forall first part, zone_segment first part = true ->
            (forall c, first c = true -> ascii_byte c = true) -> forallb ascii_byte part = true).
  { intros first [|c part] Hs Hf; [done|]. cbn in *. apply andb_true_iff in Hs as [H1 H2].
    rewrite (Hf _ H1). cbn. rewrite forallb_elem_of in *. intros c' Hc'. by apply zone_char_ascii, H2. }
  intros part [->|Hin]%elem_of_cons.
  - apply (Hseg _ _ Ha). intros c Hc. apply zone_char_ascii. unfold zone_char. by rewrite Hc.
  - rewrite forallb_elem_of in Hr. apply (Hseg _ _ (Hr _ Hin)). intros c Hc. apply zone_char_ascii.
    unfold zone_char. by rewrite Hc.
Qed.

Lemma zone_rune_count name : zoneName name = true -> rune_count (to_bytes name) = slen name.
Proof.
  intros H%zoneName_ascii. unfold rune_count, blen, slen. rewrite scan_ascii, length_fmap by done.
  by rewrite to_bytes_length.
Qed.

Lemma date_text_ok l : date_text l -> ((blen l =? 0) || (blen l =? 10)) && forallb date_char l = true.
Proof.
  intros [->|(c & _ & _ & ->)]; [done|]. unfold format_date, blen.
  rewrite !length_app, !digits_length, !forallb_app. cbn [Nat.add List.length].
  assert (Hd : forall w n, forallb date_char (digits w n) = true).
  { intros w n. rewrite forallb_elem_of. intros x Hx. unfold date_char.
    pose proof (digits_are_digits w n) as D. rewrite forallb_elem_of in D. by rewrite (D x Hx). }
  by rewrite !Hd.
Qed.

Lemma stamp_ok t : t = zero_time \/ canonicalInstant t true = Ok tt -> stamp_length false (stamp t) = true.
Proof.
  intros [->|H]; [done|]. unfold stamp. destruct (is_zero t); [done|]. by apply formatInstant_length.
Qed.

Lemma stamp_canonical t : canonicalInstant t true = Ok tt -> stamp t = formatInstant t.
Proof. intros H. unfold stamp. by apply canonicalInstant_iff in H as (-> & _). Qed.

Lemma row_ok_of st : well_stored st -> row_ok (row_of st) = true.
Proof.
  intros [Hu Hn Hl Hd Hc Hr Hup]. apply is_ok_true in Hu as [z (_ & Hz & _ & Hlen & Hmin)%validateUpdate_Ok].
  cbn in Hz, Hlen, Hmin. unfold row_ok. row_fields. rewrite zone_rune_count by done.
  unfold reason_text in Hr. bool_prop. apply date_text_ok in Hd. rewrite !andb_true_iff in Hd. destruct Hd as [Hd1 Hd2].
  rewrite (stamp_ok (st_last st)), (formatInstant_length (st_updated st)), Hd1, Hd2 by done.
  rewrite H0, (proj2 (Z.leb_le _ _) (proj1 Hlen)), (proj2 (Z.leb_le _ _) (proj2 Hlen)).
  rewrite (proj2 (Z.leb_le 0 (st_minute st))), (proj2 (Z.leb_le (st_minute st) 1439)) by lia.
  rewrite (proj2 (Z.leb_le _ _) H), (proj2 (Z.leb_le _ _) H1).
  destruct (st_enabled st); cbn [Z.eqb orb andb].
  - destruct Hn as [Hn _]. rewrite stamp_canonical, formatInstant_length, formatInstant_nonempty by done.
    destruct (st_claim st) as [t|]; [|done]. destruct (Hc t eq_refl) as [_ [Ht _]].
    by rewrite formatInstant_length, formatInstant_nonempty.
  - rewrite Hn. cbn. destruct (st_claim st) as [t|]; [|done]. by destruct (Hc t eq_refl).
Qed.

(** ** Loading *)

Lemma parse_stamp_instant t : t = zero_time \/ canonicalInstant t true = Ok tt -> parseInstant (stamp t) false = Ok t.
Proof. intros [->|H]; [done|]. rewrite stamp_canonical by done. by apply parse_formatInstant. Qed.

Lemma load_of st now : well_stored st -> persisted_schedule LoadLocation (row_of st) now = Ok (view now st).
Proof.
  intros [Hu Hn Hl Hd Hc Hr Hup]. apply is_ok_true in Hu as [z Hz].
  unfold persisted_schedule. row_fields.
  assert (E1 : (if st_enabled st then 1 else 0) =? 1 = st_enabled st) by by destruct (st_enabled st).
  rewrite E1. assert (E2 : parseInstant (stamp (st_next st)) (st_enabled st) = Ok (st_next st)).
  { destruct (st_enabled st); [|by rewrite Hn]. destruct Hn as [Hn _]. rewrite stamp_canonical by done.
    by apply parse_formatInstant. }
  rewrite E2. cbn. rewrite (parse_stamp_instant (st_last st)) by done. cbn.
  assert (E3 : parseInstant (match st_claim st with Some t => formatInstant t | None => [] end) false
               = Ok (default zero_time (st_claim st))).
  { destruct (st_claim st) as [t|]; [|done]. cbn. destruct (Hc t eq_refl) as [_ [Ht _]]. by apply parse_formatInstant. }
  rewrite E3. cbn. rewrite parse_formatInstant by done. cbn. rewrite Hz. cbn.
  unfold view. f_equal. assert (E4 : bool_decide ((if st_claim st then TriggerClaiming else TriggerIdle) = TriggerClaiming)
    = bool_decide (is_Some (st_claim st))) by (by destruct (st_claim st)).
  by rewrite E4.
Qed.

Lemma loadSchedule_run s d0 d now : represents d s ->
  loadSchedule LoadLocation now (mk_txn d0 d []) = (Ok (view_option now s), mk_txn d0 d []).
Proof.
  unfold loadSchedule. intros H. run_statement. destruct s as [st|]; cbn in H; [|by subst].
  destruct H as [-> Hw]. unfold lift. by rewrite load_of.
Qed.

(** ** The transitions keep the stored schedule well formed *)

Lemma local_date_text t z : storable t -> bounded_zone z ->
  valid_date (local_date z (t_unix t)) = true /\ four_digit_year (local_date z (t_unix t)) /\
  occurrenceLocalDate t z = format_date (local_date z (t_unix t)).
Proof.
  intros [Hc Hlt] Hb. pose proof (canonical_after_zero _ Hc) as Hz. specialize (Hb (t_unix t)).
  assert (Hy : four_digit_year (local_date z (t_unix t))).
  { unfold four_digit_year, local_date, date_of_seconds, local_seconds.
    unfold zero_ns, limit_ns, midnight_ns, t_unix in *. change (days_from_civil (mk_date 9999 1 1)) with 2932532 in Hlt.
    unfold day_ns, seconds_per_day, ns_per_second in *. set (o := zone_offset z _) in *. clearbody o.
    pose proof (civil_year_mono (-719163) ((t_ns t / 1000000000 + o) / 86400) ltac:(div_lia)) as H1.
    pose proof (civil_year_mono ((t_ns t / 1000000000 + o) / 86400) 2932533 ltac:(div_lia)) as H2.
    change (d_year (civil_from_days (-719163))) with 0 in H1.
    by change (d_year (civil_from_days 2932533)) with 9999 in H2. }
  split_and!; [apply civil_valid|done|]. unfold occurrenceLocalDate, format_local_date.
  by rewrite (proj2 (Z.leb_le _ _)) by apply Hy.
Qed.

Lemma local_date_stored t z : storable t -> bounded_zone z -> date_text (occurrenceLocalDate t z).
Proof. intros Ht Hb. destruct (local_date_text t z Ht Hb) as (V & Y & ->). right. eauto. Qed.

Definition stored_option (s : option Stored) : Prop := match s with Some st => well_stored st | None => True end.

Lemma saved_stored u z next now s : stored_option s -> validateUpdate LoadLocation u = Ok z ->
  (if up_Enabled u then storable next else next = zero_time) -> canonicalInstant now true = Ok tt ->
  well_stored (saved u next now s).
Proof.
  intros Hs Hu Hn Hc. destruct u as [en zone minute]; cbn in *.
  constructor; cbn; try done.
  - by rewrite Hu.
  - destruct s as [st|]; [apply Hs|by left].
  - destruct s as [st|]; [apply Hs|by left].
  - by destruct en.
Qed.

Lemma coalesced_stored next now st : well_stored st -> st_enabled st = true -> storable next ->
  canonicalInstant now true = Ok tt -> well_stored (coalesced next now st).
Proof. intros [] He Hn Hc. constructor; cbn; try done. by rewrite He. Qed.

Lemma claiming_stored next now st : well_stored st -> st_enabled st = true -> storable next ->
  canonicalInstant now true = Ok tt -> well_stored (claiming next now st).
Proof.
  intros [] He Hn Hc. rewrite He in *. constructor; cbn; rewrite ?He; try done.
  intros t [= <-]. done.
Qed.

Lemma triggered_stored date now st : well_stored st -> date_text date -> canonicalInstant now true = Ok tt ->
  well_stored (triggered date now st).
Proof. intros [] Hd Hc. constructor; cbn; try done. by right. Qed.

Lemma released_stored deferred t reason now st : well_stored st -> st_claim st = Some t ->
  reason_text reason = true -> canonicalInstant now true = Ok tt ->
  well_stored (released deferred t reason now st).
Proof.
  intros [? ? ? ? Hcl] Hs Hr Hc. destruct (Hcl t Hs) as [He Ht]. rewrite He in *.
  constructor; cbn; rewrite ?He; try done. by destruct deferred.
Qed.

Lemma recovered_stored next reason now st : well_stored st -> st_enabled st = true -> storable next ->
  reason_text reason = true -> canonicalInstant now true = Ok tt -> well_stored (recovered next reason now st).
Proof. intros [] He Hn Hr Hc. rewrite He in *. constructor; cbn; rewrite ?He; done. Qed.

Lemma validReason_text s : validReason s = true -> reason_text s = true.
Proof.
  unfold validReason, reason_text. destruct (to_bytes s) as [|c l] eqn:E; [done|]. rewrite <- E.
  intros [[H1 H2]%andb_true_iff H3]%andb_true_iff. bool_prop.
  assert (A : forallb (fun r => r <? 128) (runes (to_bytes s)) = true).
  { rewrite !forallb_elem_of in *. intros r Hr. specialize (H3 r Hr). lia. }
  rewrite (runes_ascii _ A) in H3. rewrite (proj2 (Z.leb_le _ _) H1).
  assert (L : 1 <= slen s). { unfold slen. rewrite <- to_bytes_length, E. cbn. lia. }
  rewrite (proj2 (Z.leb_le _ _) L). cbn [andb]. rewrite forallb_elem_of. rewrite forallb_elem_of in H3. intros x Hx.
  specialize (H3 (b2z x) (list_elem_of_fmap_2 _ _ _ Hx)). unfold reason_char, is_digit, in_range.
  destruct (Ascii.eqb_spec x "_") as [->|]; [done|].
  destruct (Z.eqb_spec (b2z x) 95) as [Ex|]; [|done]. destruct n. by apply b2z_inj.
Qed.

(** ** Refinement *)

Lemma ready_Ok now u : ready now = Ok u -> canonicalInstant now true = Ok tt.
Proof. unfold ready, plain_error. rewrite map_err_Ok. by destruct u. Qed.

Lemma stored_represents d s : represents d s -> stored_option s.
Proof. destruct s; [by intros [_ ?]|done]. Qed.

Lemma update_represents where_ set_ st st' : where_ (row_of st) = true -> set_ (row_of st) = row_of st' ->
  well_stored st' -> update_row where_ set_ (Some (row_of st)) = Some (1, Some (row_of st')).
Proof. intros Hw E Hs. unfold update_row. by rewrite Hw, E, row_ok_of. Qed.

Lemma Get_implements now : implements represents (Get LoadLocation now) (spec_Get now).
Proof.
  unfold Get, spec_Get. apply implements_lift; intros u _ d s R.
  apply (transaction_implements _ _ _ _ (Ok (view_option now s)) d); [|done|done].
  eexists. unfold mbind, M_bind. by erewrite loadSchedule_run by done.
Qed.

Lemma upsert_represents d s u next now reason st : represents d s -> st = saved u next now s ->
  reason = st_reason st -> canonicalInstant now true = Ok tt -> well_stored st ->
  upsert_row (if up_Enabled u then 1 else 0) (up_TimeZone u) (up_LocalMinute u) (stamp next) reason (formatInstant now) d
  = Some (tt, Some (row_of st)).
Proof.
  intros R -> -> Hc Hw. pose proof (row_ok_of _ Hw) as K. unfold upsert_row.
  destruct s as [st0|]; cbn in R; [destruct R as [-> _]|subst d]; cbv zeta beta iota;
    match type of K with row_ok ?r = _ => match goal with |- context [row_ok ?r'] => change r' with r end end;
    by rewrite K.
Qed.

Lemma Save_implements u now : early now -> implements represents (Save LoadLocation u now) (spec_Save LoadLocation u now).
Proof.
  intros He. unfold Save, spec_Save. apply implements_lift; intros [] Hc%ready_Ok.
  apply implements_lift; intros z Hz.
  assert (Hb : bounded_zone z) by (apply validateUpdate_Ok in Hz as [L _]; by eapply zones_bounded).
  destruct (up_Enabled u) eqn:En.
  - destruct (next_or_invalid (nextOccurrence now z (up_LocalMinute u))) as [next|e] eqn:N; [|by intros d s R; exists d].
    unfold next_or_invalid in N. apply map_err_Ok in N.
    destruct (nextOccurrence_storable _ _ _ _ Hb He N) as [Hn _]. intros d s R.
    assert (Hw : well_stored (saved u next now s)).
    { apply (saved_stored u z); try done; [by eapply stored_represents|by rewrite En]. }
    apply (transaction_implements _ _ _ _ (Ok (view now (saved u next now s))) (Some (row_of (saved u next now s))));
      [|done|done].
    eexists. unfold mbind at 1, M_bind at 1. erewrite statement_run.
    2: { rewrite <- (stamp_canonical next) by apply Hn.
         pose proof (upsert_represents d s u next now "schedule_saved" _ R eq_refl) as U. rewrite En in U.
         apply U; try done. unfold saved. cbn. by rewrite En. }
    unfold mbind, M_bind. erewrite (loadSchedule_run (Some _)) by done. done.
  - intros d s R.
    assert (Hw : well_stored (saved u zero_time now s)).
    { apply (saved_stored u z); try done; [by eapply stored_represents|by rewrite En]. }
    apply (transaction_implements _ _ _ _ (Ok (view now (saved u zero_time now s)))
      (Some (row_of (saved u zero_time now s)))); [|done|done].
    eexists. unfold mbind at 1, M_bind at 1. erewrite statement_run.
    2: { pose proof (upsert_represents d s u zero_time now "schedule_disabled" _ R eq_refl) as U. rewrite En in U.
         apply U; try done. unfold saved. cbn. by rewrite En. }
    unfold mbind, M_bind. erewrite (loadSchedule_run (Some _)) by done. done.
Qed.

Lemma ClaimDue_implements now : early now -> implements represents (ClaimDue LoadLocation now) (spec_ClaimDue LoadLocation now).
Proof.
  intros He. unfold ClaimDue, spec_ClaimDue. apply implements_lift; intros [] Hc%ready_Ok.
  intros d s R. pose proof (stored_represents _ _ R) as Hs.
  destruct s as [st|]; cbn in R.
  2: { subst d. apply (transaction_implements _ _ _ _ (Err SErrNotDue) None); [|done|done]. by eexists. }
  destruct R as [-> Hw]. unfold step.
  assert (Hload : forall (k : Schedule -> STx Claim) d0,
    (loadSchedule LoadLocation now ≫= k) (mk_txn d0 (Some (row_of st)) []) = k (view now st) (mk_txn d0 (Some (row_of st)) [])).
  { intros k d0. unfold mbind at 1, M_bind at 1. by rewrite (loadSchedule_run (Some st)). }
  assert (Hguard : negb (Configured (view now st)) || negb (Enabled (view now st)) || Claiming (view now st)
    || after (NextEvaluation (view now st)) now = not_due now st) by done.
  assert (Hrepeat : forall z, negb (is_empty (LastTriggerDate (view now st))) &&
    bytes_leb (occurrenceLocalDate (NextEvaluation (view now st)) z) (LastTriggerDate (view now st)) = repeated z st) by done.
  destruct (not_due now st) eqn:Nd.
  { apply (transaction_implements _ _ _ _ (Err SErrNotDue) (Some (row_of st))); unfold step; rewrite ?Nd; [|done|done].
    eexists. by rewrite Hload, Hguard. }
  destruct (LoadLocation (st_zone st)) as [z|] eqn:L.
  2: { apply (transaction_implements _ _ _ _ (Err zone_error) (Some (row_of st))); unfold step; rewrite ?Nd, ?L; [|done|done].
       eexists. rewrite Hload, Hguard. change (TimeZone (view now st)) with (st_zone st). by rewrite L. }
  pose proof (zones_bounded _ _ L) as Hb.
  destruct (nextOccurrence now z (st_minute st)) as [next|e] eqn:N.
  2: { apply (transaction_implements _ _ _ _ (Err (SErrOther e)) (Some (row_of st))); unfold step; rewrite ?Nd, ?L, ?N; [|done|done].
       eexists. rewrite Hload, Hguard. change (TimeZone (view now st)) with (st_zone st). rewrite L, Hrepeat.
       change (LocalMinute (view now st)) with (st_minute st). rewrite N. by destruct (repeated z st). }
  destruct (nextOccurrence_storable _ _ _ _ Hb He N) as [Hn _].
  assert (Hst : st_enabled st = true /\ st_claim st = None).
  { unfold not_due in Nd. destruct (st_enabled st); [|done]. by destruct (st_claim st). }
  destruct Hst as [En Cl].
  destruct (repeated z st) eqn:Rp.
  - apply (transaction_implements _ _ _ _ (Err SErrNotDue) (Some (row_of (coalesced next now st))));
      unfold step; rewrite ?Nd, ?L, ?N, ?Rp; [|done|].
    2: { split; [done|]. by apply coalesced_stored. }
    eexists. rewrite Hload, Hguard. change (TimeZone (view now st)) with (st_zone st). rewrite L, Hrepeat, Rp.
    change (LocalMinute (view now st)) with (st_minute st). rewrite N.
    cbn [next_or_error map_err]. unfold lift at 1, mbind at 1, M_bind at 1. unfold mbind at 1, M_bind at 1.
    erewrite statement_run.
    2: { apply (update_represents _ _ st (coalesced next now st)); [done| |by apply coalesced_stored].
         unfold set_coalesced, row_of, coalesced. row_fields. by rewrite (stamp_canonical next) by apply Hn. }
    reflexivity.
  - apply (transaction_implements _ _ _ _ (Ok (mk_Claim (st_next st))) (Some (row_of (claiming next now st))));
      unfold step; rewrite ?Nd, ?L, ?N, ?Rp; [|done|].
    2: { split; [done|]. by apply claiming_stored. }
    eexists. rewrite Hload, Hguard. change (TimeZone (view now st)) with (st_zone st). rewrite L, Hrepeat, Rp.
    change (LocalMinute (view now st)) with (st_minute st). rewrite N.
    cbn [next_or_error map_err]. unfold lift at 1, mbind at 1, M_bind at 1. unfold mbind at 1, M_bind at 1.
    destruct Hw as [Hu Hnx Hl Hd Hcl Hr Hup] eqn:Ew. clear Ew. rewrite En in Hnx.
    erewrite statement_run.
    2: { apply (update_represents _ _ st (claiming next now st)); [| |by apply claiming_stored].
         - unfold row_of. row_fields. rewrite En, Cl. cbn [Z.eqb andb]. rewrite bool_decide_true by done.
           apply bool_decide_eq_true. change (NextEvaluation (view now st)) with (st_next st).
           by apply stamp_canonical, Hnx.
         - unfold set_claiming, row_of, claiming. row_fields. rewrite En.
           by rewrite (stamp_canonical next) by apply Hn. }
    reflexivity.
Qed.

Lemma holds_claim_row claim st : well_stored st -> canonicalInstant (Occurrence claim) true = Ok tt ->
  holds_claim claim (row_of st) = holds claim st.
Proof.
  intros [_ _ _ _ Hcl _ _] Hc. unfold holds_claim, holds. row_fields. destruct (st_claim st) as [t|] eqn:E; [|done].
  destruct (Hcl t eq_refl) as [_ [Ht _]]. rewrite bool_decide_true by done. cbn [andb].
  apply bool_decide_ext. split; [|by intros [= ->]]. intros F. f_equal. by apply formatInstant_inj.
Qed.

Lemma valid_claim_Ok claim : is_err (canonicalInstant (Occurrence claim) true) = negb (valid_claim claim).
Proof. done. Qed.
Lemma valid_claim_canonical claim : valid_claim claim = true -> canonicalInstant (Occurrence claim) true = Ok tt.
Proof. unfold valid_claim. intros [[] ?]%is_ok_true. done. Qed.

(** A guarded update of the row that changes nothing when the guard fails. *)
Lemma update_refused where_ set_ st : where_ (row_of st) = false ->
  update_row where_ set_ (Some (row_of st)) = Some (0, Some (row_of st)).
Proof. intros H. unfold update_row. by rewrite H. Qed.

Lemma CompleteClaim_implements claim now :
  implements represents (CompleteClaim LoadLocation claim now) (spec_CompleteClaim LoadLocation claim now).
Proof.
  unfold CompleteClaim, spec_CompleteClaim. apply implements_lift; intros [] Hc%ready_Ok.
  rewrite valid_claim_Ok. apply implements_lift; intros [] Hv%reject_if_Ok. bool_prop.
  apply valid_claim_canonical in Hv. intros d s R. unfold step.
  destruct s as [st|]; cbn in R.
  2: { subst d. by apply (transaction_implements _ _ _ _ (Err (SErrOther "load claimed schedule zone")) None); [eexists|..]. }
  destruct R as [-> Hw].
  destruct (LoadLocation (st_zone st)) as [z|] eqn:L.
  2: { apply (transaction_implements _ _ _ _ (Err zone_error) (Some (row_of st))); rewrite ?L; [|done|done].
       eexists. run_statement. cbn [fmap option_fmap option_map]. row_fields. by rewrite L. }
  pose proof (zones_bounded _ _ L) as Hb. pose proof (holds_claim_row claim st Hw Hv) as Hh.
  destruct (holds claim st) eqn:Hd.
  - assert (Hst : storable (Occurrence claim)).
    { unfold holds in Hd. bool_prop. by apply (ws_claim _ Hw). }
    assert (Hw' : well_stored (triggered (occurrenceLocalDate (Occurrence claim) z) now st)).
    { apply triggered_stored; try done. by apply local_date_stored. }
    apply (transaction_implements _ _ _ _ (Ok tt) (Some (row_of (triggered (occurrenceLocalDate (Occurrence claim) z) now st))));
      rewrite ?L, ?Hd; [|done|done].
    eexists. run_statement. cbn [fmap option_fmap option_map]. row_fields. rewrite L.
    unfold mbind at 1, M_bind at 1. erewrite statement_run.
    2: { apply (update_represents _ _ st (triggered (occurrenceLocalDate (Occurrence claim) z) now st)); [done| |done].
         unfold set_triggered, row_of, triggered. row_fields. by rewrite (stamp_canonical now). }
    reflexivity.
  - apply (transaction_implements _ _ _ _ (Err changed_concurrently) (Some (row_of st))); rewrite ?L, ?Hd; [|done|done].
    eexists. run_statement. cbn [fmap option_fmap option_map]. row_fields. rewrite L.
    unfold mbind at 1, M_bind at 1. erewrite statement_run by (by apply update_refused). reflexivity.
Qed.

Lemma ReleaseClaim_implements claim reason deferred now :
  implements represents (ReleaseClaim claim reason deferred now) (spec_ReleaseClaim claim reason deferred now).
Proof.
  unfold ReleaseClaim, spec_ReleaseClaim. apply implements_lift; intros [] Hc%ready_Ok.
  rewrite valid_claim_Ok. apply implements_lift; intros [] Hv%reject_if_Ok. bool_prop.
  apply valid_claim_canonical in H. rename H into Hv. rename H0 into Hr. intros d s R. unfold step.
  destruct s as [st|]; cbn in R.
  2: { subst d. by apply (transaction_implements _ _ _ _ (Err changed_concurrently) None); [eexists|..]. }
  destruct R as [-> Hw]. pose proof (holds_claim_row claim st Hw Hv) as Hh.
  destruct (holds claim st) eqn:Hd.
  - pose proof Hd as Hcl. unfold holds in Hcl. bool_prop.
    assert (Hw' : well_stored (released deferred (Occurrence claim) reason now st)).
    { apply released_stored; try done. by apply validReason_text. }
    apply (transaction_implements _ _ _ _ (Ok tt) (Some (row_of (released deferred (Occurrence claim) reason now st))));
      rewrite ?Hd; [|done|done].
    eexists. unfold mbind at 1, M_bind at 1. erewrite statement_run.
    2: { apply (update_represents _ _ st (released deferred (Occurrence claim) reason now st)); [done| |done].
         unfold set_released, row_of, released. row_fields. destruct deferred; [|done].
         by rewrite (stamp_canonical (Occurrence claim)). }
    reflexivity.
  - apply (transaction_implements _ _ _ _ (Err changed_concurrently) (Some (row_of st))); rewrite ?Hd; [|done|done].
    eexists. unfold mbind at 1, M_bind at 1. erewrite statement_run by (by apply update_refused). reflexivity.
Qed.

Lemma Recover_implements now interrupted : early now ->
  implements represents (Recover LoadLocation now interrupted) (spec_Recover LoadLocation now interrupted).
Proof.
  intros He. unfold Recover, spec_Recover. apply implements_lift; intros [] Hc%ready_Ok. intros d s R. unfold step.
  destruct s as [st|]; cbn in R.
  2: { subst d. by apply (transaction_implements _ _ _ _ (Ok tt) None); [eexists|..]. }
  destruct R as [-> Hw].
  assert (Hload : forall (k : Schedule -> STx unit) d0,
    (loadSchedule LoadLocation now ≫= k) (mk_txn d0 (Some (row_of st)) []) = k (view now st) (mk_txn d0 (Some (row_of st)) [])).
  { intros k d0. unfold mbind at 1, M_bind at 1. by rewrite (loadSchedule_run (Some st)). }
  assert (Hguard : negb (Configured (view now st)) || negb (Enabled (view now st)) ||
     (negb (Claiming (view now st)) && negb interrupted)
     = negb (st_enabled st) || (negb (bool_decide (is_Some (st_claim st))) && negb interrupted)) by done.
  destruct (negb (st_enabled st) || _) eqn:G.
  { apply (transaction_implements _ _ _ _ (Ok tt) (Some (row_of st))); rewrite ?G; [|done|done].
    eexists. by rewrite Hload, Hguard. }
  destruct (LoadLocation (st_zone st)) as [z|] eqn:L.
  2: { apply (transaction_implements _ _ _ _ (Err zone_error) (Some (row_of st))); rewrite ?G, ?L; [|done|done].
       eexists. rewrite Hload, Hguard. change (TimeZone (view now st)) with (st_zone st). by rewrite L. }
  pose proof (zones_bounded _ _ L) as Hb.
  destruct (nextOccurrence now z (st_minute st)) as [next|e] eqn:N.
  2: { apply (transaction_implements _ _ _ _ (Err (SErrOther e)) (Some (row_of st))); rewrite ?G, ?L, ?N; [|done|done].
       eexists. rewrite Hload, Hguard. change (TimeZone (view now st)) with (st_zone st). rewrite L.
       change (LocalMinute (view now st)) with (st_minute st). by rewrite N. }
  destruct (nextOccurrence_storable _ _ _ _ Hb He N) as [Hn _].
  assert (En : st_enabled st = true) by (apply orb_false_iff in G as [G _]; by bool_prop).
  set (reason := if interrupted then "operation_interrupted" else "trigger_recovered").
  assert (Hw' : well_stored (recovered next reason now st)) by (apply recovered_stored; try done; by destruct interrupted).
  apply (transaction_implements _ _ _ _ (Ok tt) (Some (row_of (recovered next reason now st))));
    rewrite ?G, ?L, ?N; [|done|done].
  eexists. rewrite Hload, Hguard. change (TimeZone (view now st)) with (st_zone st). rewrite L.
  change (LocalMinute (view now st)) with (st_minute st). rewrite N.
  cbn [next_or_error map_err]. unfold lift at 1, mbind at 1, M_bind at 1. unfold mbind at 1, M_bind at 1.
  erewrite statement_run.
  2: { apply (update_represents _ _ st (recovered next reason now st)); [done| |done].
       unfold set_recovered, row_of, recovered. row_fields. by rewrite (stamp_canonical next) by apply Hn. }
  reflexivity.
Qed.
End SchedRefine.

(** The schedule store as a machine driven by calls: refinement of its
    commands, database faults, and the dates its triggers record. *)

(** One call of a store method. *)
Inductive SchedCommand :=
| SGet (now : time)
| SSave (update : Update) (now : time)
| SClaimDue (now : time)
| SCompleteClaim (claim : Claim) (now : time)
| SReleaseClaim (claim : Claim) (reason : string) (deferred : bool) (now : time)
| SRecover (now : time) (interrupted : bool).

Inductive SchedReply := RSchedule (s : Schedule) | RClaim (c : Claim) | RDone.

Definition sched_now (c : SchedCommand) : time :=
  match c with
  | SGet now | SSave _ now | SClaimDue now | SCompleteClaim _ now | SReleaseClaim _ _ _ now | SRecover now _ => now
  end.
(** The call's clock reads a time before the horizon. *)
Definition early_call (c : SchedCommand) : Prop := early (sched_now c).

Section Machine.
Context (LoadLocation : string -> option zone).
Context (zones_bounded : forall name z, LoadLocation name = Some z -> bounded_zone z).

Definition replies {S A} (f : A -> SchedReply) (m : M S SchedError A) : M S SchedError SchedReply :=
  a ← m; mret (f a).

Definition run_sched (c : SchedCommand) : SStore SchedReply :=
  match c with
  | SGet now => replies RSchedule (Get LoadLocation now)
  | SSave update now => replies RSchedule (Save LoadLocation update now)
  | SClaimDue now => replies RClaim (ClaimDue LoadLocation now)
  | SCompleteClaim claim now => replies (fun _ => RDone) (CompleteClaim LoadLocation claim now)
  | SReleaseClaim claim reason deferred now => replies (fun _ => RDone) (ReleaseClaim claim reason deferred now)
  | SRecover now interrupted => replies (fun _ => RDone) (Recover LoadLocation now interrupted)
  end.

Definition spec_sched (c : SchedCommand) : SSpec SchedReply :=
  match c with
  | SGet now => replies RSchedule (spec_Get now)
  | SSave update now => replies RSchedule (spec_Save LoadLocation update now)
  | SClaimDue now => replies RClaim (spec_ClaimDue LoadLocation now)
  | SCompleteClaim claim now => replies (fun _ => RDone) (spec_CompleteClaim LoadLocation claim now)
  | SReleaseClaim claim reason deferred now => replies (fun _ => RDone) (spec_ReleaseClaim claim reason deferred now)
  | SRecover now interrupted => replies (fun _ => RDone) (spec_Recover LoadLocation now interrupted)
  end.

Abbreviation represented := (represents LoadLocation).

Lemma sched_implements c : early_call c -> implements represented (run_sched c) (spec_sched c).
Proof using zones_bounded.
  intros He. destruct c; apply implements_then; auto using Get_implements, Save_implements, ClaimDue_implements,
    CompleteClaim_implements, ReleaseClaim_implements, Recover_implements.
Qed.

(** ** Database faults *)

Lemma load_schedule_sound now : fault_sound (loadSchedule LoadLocation now).
Proof. unfold loadSchedule. sound. Qed.
Lemma load_schedule_quiet now : preserves same_durable (loadSchedule LoadLocation now).
Proof. unfold loadSchedule. quiet. Qed.
Lemma require_one_quiet n : preserves same_durable (requireOne n).
Proof. unfold requireOne. quiet. Qed.
#[local] Hint Resolve load_schedule_sound : sound.
#[local] Hint Resolve load_schedule_quiet require_one_quiet : go.

(** [ClaimDue] commits on one of its error paths; as a transaction it returns
    the claim or the error, and the call then returns what it returned. *)
Definition claim_body (now : time) : STx (result SchedError Claim) :=
  schedule ← loadSchedule LoadLocation now;
  if negb (Configured schedule) || negb (Enabled schedule) || Claiming schedule
     || after (NextEvaluation schedule) now
  then fail SErrNotDue
  else match LoadLocation (TimeZone schedule) with
  | None => fail zone_error
  | Some location =>
      let occurrenceDate := occurrenceLocalDate (NextEvaluation schedule) location in
      if negb (is_empty (LastTriggerDate schedule)) && bytes_leb occurrenceDate (LastTriggerDate schedule) then
        next ← lift (next_or_error (nextOccurrence now location (LocalMinute schedule)));
        _ ← statement "coalesce repeated local date"
              (update_row (fun _ => true) (set_coalesced (formatInstant next) (formatInstant now)));
        _ ← commit "commit repeated local date";
        mret (Err SErrNotDue)
      else
        next ← lift (next_or_error (nextOccurrence now location (LocalMinute schedule)));
        changed ← statement "claim due schedule"
          (update_row (fun r => (c_enabled r =? 1) && bool_decide (c_trigger_state r = TriggerIdle)
                                && bool_decide (c_next_evaluation_utc r = formatInstant (NextEvaluation schedule)))
             (set_claiming (formatInstant next) (formatInstant (NextEvaluation schedule)) (formatInstant now)));
        _ ← requireOne changed;
        _ ← commit "commit schedule claim";
        mret (Ok (mk_Claim (NextEvaluation schedule)))
  end.

Lemma ClaimDue_body now w : ClaimDue LoadLocation now w
  = (_ ← lift (ready now); x ← transaction "begin schedule claim" (claim_body now); lift x) w.
Proof.
  unfold ClaimDue. apply M_bind_ext. intros _ s. unfold transaction, mbind, M_bind.
  destruct (next_fault (w_faults s)) as [[] fl]; [done|]. unfold claim_body, mbind, M_bind.
  destruct (loadSchedule LoadLocation now _) as [[schedule|e] t1]; [|done].
  destruct (negb (Configured schedule) || _ || _ || _); [done|].
  destruct (LoadLocation (TimeZone schedule)) as [z|]; [|done].
  destruct (negb _ && _); (destruct (lift _ t1) as [[next|e] t2]; [|done]);
    (destruct (statement _ _ t2) as [[x|e] t3]; [|done]).
  - by destruct (commit _ t3) as [[y|e] t4].
  - destruct (requireOne x t3) as [[y|e] t4]; [|done]. by destruct (commit _ t4) as [[v|e] t5].
Qed.

Lemma fault_safe_ext {A} (m m' : SStore A) : (forall w, m w = m' w) -> fault_safe m' -> fault_safe m.
Proof. intros E H d fl r w. rewrite !E. apply H. Qed.

Lemma ClaimDue_safe now : fault_safe (ClaimDue LoadLocation now).
Proof.
  eapply fault_safe_ext; [apply ClaimDue_body|]. apply safe_lift; intros _.
  apply (safe_then _ (fun x => x)). apply safe_transaction; [unfold claim_body, requireOne; sound|].
  unfold claim_body. commits_last.
Qed.

Lemma sched_safe c : fault_safe (run_sched c).
Proof.
  destruct c; apply safe_reply; [| |apply ClaimDue_safe|..].
  - unfold Get. apply safe_lift; intros _. apply safe_transaction; [sound|commits_last].
  - unfold Save. do 2 (apply safe_lift; intros ?). apply safe_lift; intros [next reason].
    apply safe_transaction; [sound|commits_last].
  - unfold CompleteClaim. do 2 (apply safe_lift; intros ?).
    apply safe_transaction; [unfold requireOne; sound|commits_last].
  - unfold ReleaseClaim. do 2 (apply safe_lift; intros ?).
    apply safe_transaction; [unfold requireOne; sound|commits_last].
  - unfold Recover. apply safe_lift; intros ?. apply safe_transaction; [sound|commits_last].
Qed.

Lemma sched_under_faults c d s fl r w : early_call c -> represented d s -> run_sched c (mk_world d fl) = (r, w) ->
  (is_err r = true /\ w_db w = d) \/ (r = (spec_sched c s).1 /\ represented (w_db w) (spec_sched c s).2).
Proof using zones_bounded.
  intros He R E. exact (refined_under_faults _ _ _ _ _ _ _ _ (sched_implements c He) (sched_safe c) R E).
Qed.

(** ** Trigger dates *)

(** Text of a calendar day before the day of another text. *)
Definition earlier_day (a b : bytes) : Prop := exists x y,
  valid_date x = true /\ valid_date y = true /\ four_digit_year x /\ four_digit_year y /\
  a = format_date x /\ b = format_date y /\ days_from_civil x < days_from_civil y.

Lemma format_date_inj x y : valid_date x = true -> valid_date y = true -> four_digit_year x -> four_digit_year y ->
  format_date x = format_date y -> x = y.
Proof.
  intros Vx Vy Yx Yy E. apply date_cmp_eq. rewrite <- format_date_cmp by done. by rewrite E, bytes_cmp_refl.
Qed.

Lemma earlier_day_trans a b c : earlier_day a b -> earlier_day b c -> earlier_day a c.
Proof.
  intros (x & y & Vx & Vy & Yx & Yy & -> & -> & L) (y' & z & Vy' & Vz & Yy' & Yz & E & -> & L').
  apply format_date_inj in E; [subst y'|done..]. exists x, z. split_and!; try done. lia.
Qed.

(** The recorded date is empty or earlier than [b]. *)
Definition date_before (a b : bytes) : Prop := a = [] \/ earlier_day a b.

(** A held claim is for a later local day than the last trigger. *)
Definition fresh_claim (s : option Stored) : Prop :=
  match s with
  | Some st => forall t z, st_claim st = Some t -> LoadLocation (st_zone st) = Some z ->
      date_before (st_date st) (occurrenceLocalDate t z)
  | None => True
  end.

Lemma not_repeated z st : well_stored LoadLocation st -> st_enabled st = true -> bounded_zone z ->
  repeated z st = false -> date_before (st_date st) (occurrenceLocalDate (st_next st) z).
Proof.
  intros [_ Hn _ Hd _ _ _] En Hb Hr. rewrite En in Hn. destruct Hd as [->|(c & Vc & Yc & Ed)]; [by left|right].
  destruct (local_date_text _ _ Hn Hb) as (V & Y & E). exists c, (local_date z (t_unix (st_next st))).
  split_and!; try done. unfold repeated, bytes_leb in Hr. rewrite E, Ed in Hr.
  assert (is_empty (format_date c) = false) as En'.
  { unfold is_empty, format_date, blen. rewrite !length_app, !digits_length. reflexivity. }
  rewrite En' in Hr. cbn [negb andb] in Hr. rewrite format_date_cmp, date_cmp_days in Hr by done.
  destruct (Z.compare_spec (days_from_civil (local_date z (t_unix (st_next st)))) (days_from_civil c)); done.
Qed.

(** A state change either keeps the recorded date or completes a claim. *)
Definition date_step (c : SchedCommand) (r : result SchedError SchedReply) (s s' : option Stored) : Prop :=
  (match s' with Some st' => st_date st' | None => [] end = match s with Some st => st_date st | None => [] end /\
   match c with SCompleteClaim _ _ => is_ok r = false | _ => True end) \/
  (exists claim now st z, c = SCompleteClaim claim now /\ r = Ok RDone /\ s = Some st /\
     st_claim st = Some (Occurrence claim) /\ LoadLocation (st_zone st) = Some z /\
     s' = Some (triggered (occurrenceLocalDate (Occurrence claim) z) now st)).

Lemma spec_lift_step {A B} (x : result SchedError A) (f : A -> SSpec B) s r s' :
  (lift x ≫= f) s = (r, s') -> (is_err r = true /\ s' = s) \/ exists a, x = Ok a /\ f a s = (r, s').
Proof. destruct x as [a|e]; [right; by exists a|]. intros [= <- <-]. by left. Qed.

Lemma replies_step {S A} (f : A -> SchedReply) (m : M S SchedError A) s r s' : replies f m s = (r, s') ->
  (exists e, m s = (Err e, s') /\ r = Err e) \/ (exists a, m s = (Ok a, s') /\ r = Ok (f a)).
Proof.
  unfold replies, mbind, M_bind. destruct (m s) as [[a|e] s1]; intros [= <- <-]; [right|left]; eauto.
Qed.

Lemma spec_ClaimDue_cases now s r s' : spec_ClaimDue LoadLocation now s = (r, s') ->
  (s' = s /\ is_err r = true) \/
  exists st z next, s = Some st /\ not_due now st = false /\ LoadLocation (st_zone st) = Some z /\
    nextOccurrence now z (st_minute st) = Ok next /\
    ((repeated z st = true /\ r = Err SErrNotDue /\ s' = Some (coalesced next now st)) \/
     (repeated z st = false /\ r = Ok (mk_Claim (st_next st)) /\ s' = Some (claiming next now st))).
Proof.
  unfold spec_ClaimDue. intros [[? ->]|(? & _ & E)]%spec_lift_step; [by left|]. unfold step in E.
  destruct s as [st|]; [|simplify_eq; by left].
  destruct (not_due now st) eqn:Nd; [simplify_eq; by left|].
  destruct (LoadLocation (st_zone st)) as [z|] eqn:L; [|simplify_eq; by left].
  destruct (nextOccurrence now z (st_minute st)) as [next|e] eqn:N; [|simplify_eq; by left].
  right. exists st, z, next. destruct (repeated z st); simplify_eq; naive_solver.
Qed.

Lemma spec_CompleteClaim_cases claim now s r s' : spec_CompleteClaim LoadLocation claim now s = (r, s') ->
  (s' = s /\ is_err r = true) \/
  exists st z, s = Some st /\ st_claim st = Some (Occurrence claim) /\ LoadLocation (st_zone st) = Some z /\
    r = Ok tt /\ s' = Some (triggered (occurrenceLocalDate (Occurrence claim) z) now st).
Proof.
  unfold spec_CompleteClaim. intros [[? ->]|(? & _ & E)]%spec_lift_step; [by left|].
  apply spec_lift_step in E as [[? ->]|(? & _ & E)]; [by left|]. unfold step in E.
  destruct s as [st|]; [|simplify_eq; by left].
  destruct (LoadLocation (st_zone st)) as [z|] eqn:L; [|simplify_eq; by left].
  destruct (holds claim st) eqn:Hh; simplify_eq; [|by left].
  right. exists st, z. unfold holds in Hh. by bool_prop.
Qed.

Lemma spec_ReleaseClaim_cases claim reason deferred now s r s' : spec_ReleaseClaim claim reason deferred now s = (r, s') ->
  (s' = s /\ is_err r = true) \/
  exists st, s = Some st /\ st_claim st = Some (Occurrence claim) /\ r = Ok tt /\
    s' = Some (released deferred (Occurrence claim) reason now st).
Proof.
  unfold spec_ReleaseClaim. intros [[? ->]|(? & _ & E)]%spec_lift_step; [by left|].
  apply spec_lift_step in E as [[? ->]|(? & _ & E)]; [by left|]. unfold step in E.
  destruct s as [st|]; [|simplify_eq; by left]. destruct (holds claim st) eqn:Hh; simplify_eq; [|by left].
  right. exists st. unfold holds in Hh. by bool_prop.
Qed.

Lemma spec_Recover_cases now interrupted s r s' : spec_Recover LoadLocation now interrupted s = (r, s') ->
  s' = s \/ exists st z next reason, s = Some st /\ LoadLocation (st_zone st) = Some z /\
    nextOccurrence now z (st_minute st) = Ok next /\ r = Ok tt /\ s' = Some (recovered next reason now st).
Proof.
  unfold spec_Recover. intros [[? ->]|(? & _ & E)]%spec_lift_step; [by left|]. unfold step in E.
  destruct s as [st|]; [|simplify_eq; by left]. destruct (_ || _); [simplify_eq; by left|].
  destruct (LoadLocation (st_zone st)) as [z|] eqn:L; [|simplify_eq; by left].
  destruct (nextOccurrence now z (st_minute st)) as [next|e] eqn:N; simplify_eq; [right|by left].
  by eexists st, z, next, _.
Qed.

Lemma spec_Save_cases u now s r s' : spec_Save LoadLocation u now s = (r, s') ->
  (s' = s /\ is_err r = true) \/ exists next, s' = Some (saved u next now s) /\ r = Ok (view now (saved u next now s)).
Proof.
  unfold spec_Save. intros [[? ->]|(? & _ & E)]%spec_lift_step; [by left|].
  apply spec_lift_step in E as [[? ->]|(z & _ & E)]; [by left|].
  apply spec_lift_step in E as [[? ->]|(next & _ & E)]; [by left|]. unfold step in E. simplify_eq. right. by exists next.
Qed.

Lemma spec_Get_cases now s r s' : spec_Get now s = (r, s') -> s' = s.
Proof. unfold spec_Get. intros [[? ->]|(? & _ & E)]%spec_lift_step; [done|]. unfold step in E. by simplify_eq. Qed.

Lemma spec_sched_dates c s r s' : stored_option LoadLocation s -> fresh_claim s -> spec_sched c s = (r, s') ->
  date_step c r s s' /\ fresh_claim s'.
Proof using zones_bounded.
  intros Hw Hf E. destruct c; cbn [spec_sched] in E;
    apply replies_step in E as [(e & E & ->)|(a & E & ->)].
  - apply spec_Get_cases in E as ->. split; [by left|done].
  - apply spec_Get_cases in E as ->. split; [by left|done].
  - apply spec_Save_cases in E as [[-> _]|(next & -> & ?)]; [split; [by left|done]|done].
  - apply spec_Save_cases in E as [[_ ?]|(next & -> & _)]; [done|]. split; [left|by intros ??].
    split; [|done]. by destruct s.
  - apply spec_ClaimDue_cases in E as [[-> _]|(st & z & next & -> & Nd & L & N & [(_ & _ & ->)|(_ & ? & _)])];
      [split; [by left|done]| |done]. split; [by left|]. exact Hf.
  - apply spec_ClaimDue_cases in E as [[_ ?]|(st & z & next & -> & Nd & L & N & [(_ & ? & _)|(Rp & _ & ->)])]; [done..|].
    split; [by left|]. intros t z' [= <-] L'. cbn in L'. simplify_eq.
    change (st_date (claiming next now st)) with (st_date st).
    apply not_repeated; [done| |by eapply zones_bounded|done]. unfold not_due in Nd. by destruct (st_enabled st).
  - apply spec_CompleteClaim_cases in E as [[-> _]|(st & z & _ & _ & _ & ? & _)]; [split; [by left|done]|done].
  - apply spec_CompleteClaim_cases in E as [[_ ?]|(st & z & -> & Hc & L & _ & ->)]; [done|].
    split; [right; by eexists _, _, st, z|]. by intros ??.
  - apply spec_ReleaseClaim_cases in E as [[-> _]|(st & _ & _ & ? & _)]; [split; [by left|done]|done].
  - apply spec_ReleaseClaim_cases in E as [[_ ?]|(st & -> & _ & _ & ->)]; [done|]. split; [by left|by intros ??].
  - apply spec_Recover_cases in E as [->|(st & z & next & reason & _ & _ & _ & ? & _)]; [split; [by left|done]|done].
  - apply spec_Recover_cases in E as [->|(st & z & next & reason & -> & _ & _ & _ & ->)];
      (split; [by left|]); [done|by intros ??].
Qed.
End Machine.
