(* ===== verification/SchedCorrect.v ===== *)
(** The properties of the automatic scheduler. *)
From S2P Require Import Prelude.
From S2P Require Import GoText.
From S2P Require Import GoTime.
From S2P Require Import Effects.
From S2P Require Import Refine.
From S2P Require Import SchedCalc.
From S2P Require Import SchedStore.
From S2P Require Import SchedRefine.

#[local] Open Scope string_scope.
#[local] Open Scope Z_scope.
#[local] Strategy opaque [occurrenceOnDate search_days].

(** ** The calculation *)

(** C30: the next evaluation is the right one in any time zone: it lies
    strictly after the given instant, it is the first whole minute of its local
    date whose wall clock has reached the configured time, and the occurrence
    of every earlier local date, from the present one on, has passed. *)
Theorem next_occurrence_is_first start z m t :
  bounded_zone z -> nextOccurrence start z m = Ok t ->
  t_ns start < t_ns t /\
  exists k s, 0 <= k < 370 /\ t = unix_utc (s * ns_per_second) /\
    first_on_date (civil_from_days (first_day start z + k)) z m s /\
    forall j, 0 <= j < k -> exists s', first_on_date (civil_from_days (first_day start z + j)) z m s' /\
      s' * ns_per_second <= t_ns start.
Proof.
  intros Hb (_ & _ & k & Hk & Ho & Hl & Hj)%nextOccurrence_Ok. split; [done|].
  apply occurrenceOnDate_Ok in Ho as (s & -> & Hf); [|done]. exists k, s. split_and!; try done; try lia.
  intros j Hjk. destruct (Hj j Hjk) as (t' & E & Hle). apply occurrenceOnDate_Ok in E as (s' & -> & Hf'); [|done].
  exists s'. split; [done|]. exact Hle.
Qed.

(** in a zone with a fixed offset the calculation always succeeds, within
    a day, at the configured wall-clock minute. *)
Theorem fixed_zone_recurs_daily name offset start m :
  offset mod 60 = 0 -> - seconds_per_day < offset < seconds_per_day -> 0 <= m < 1440 ->
  canonicalInstant start true = Ok tt ->
  exists t, nextOccurrence start (fixed_zone name offset) m = Ok t /\
    t_ns start < t_ns t <= t_ns start + day_ns /\ local_minute (fixed_zone name offset) (t_unix t) = m.
Proof. intros Ho Hb Hm Hc. by apply fixed_next. Qed.

(** the calculation fails only for an instant or minute out of range or
    for a zone with a local date, within the next 370 days, that has no whole
    minute at or after the configured time. *)
Theorem next_occurrence_fails_on_gap start z m e :
  bounded_zone z -> canonicalInstant start true = Ok tt -> 0 <= m < 1440 ->
  nextOccurrence start z m = Err e ->
  exists k, 0 <= k < 370 /\
    forall s, whole_minute s -> is_occurrence (civil_from_days (first_day start z + k)) z m s = false.
Proof.
  intros Hb Hc Hm H. rewrite nextOccurrence_search in H by done.
  destruct (search_days_missing _ _ _ _ _ _ Hb H) as [G|Hall]; rewrite search_limit_Z in *; [done|]. exfalso.
  (* the occurrence of the fourth day is after the instant *)
  destruct (Hall 3 ltac:(lia)) as (t & Ho & Hle).
  apply occurrenceOnDate_Ok in Ho as (s & -> & _ & Hocc & _); [|done]. cbn [t_ns unix_utc] in Hle.
  apply occurrence_date in Hocc. pose proof (f_equal days_from_civil Hocc) as Hd.
  rewrite days_civil in Hd. unfold first_day, local_date, date_of_seconds, local_seconds in Hd.
  rewrite !days_civil in Hd. pose proof (Hb s) as B1. pose proof (Hb (t_unix start)) as B2.
  unfold t_unix, seconds_per_day, ns_per_second in *. clear Hocc H. div_lia.
Qed.

(** ** The store *)

Section Store.
Context (LoadLocation : string -> option zone).

(** C32: every history of store calls whose clocks read times before the
    horizon does, call by call, what the schedule state machine does, whatever
    database calls fail: the calls that report success form a fault-free
    history of the machine with the same results, and the table holds its
    state. *)
Theorem schedule_store_implements_machine (calls : list (SchedCommand * list bool)) :
  (forall name z, LoadLocation name = Some z -> bounded_zone z) -> Forall early_call calls.*1 ->
  let '(rs, d') := faulty_history (run_sched LoadLocation) calls None in
  exists effective, effective_history (represents LoadLocation) (spec_sched LoadLocation) calls rs None d' effective.
Proof.
  intros Hz He. destruct (faulty_history (run_sched LoadLocation) calls None) as [rs d'] eqn:E.
  apply (faulty_history_effective _ (run_sched LoadLocation) (spec_sched LoadLocation) early_call
    (sched_implements _ Hz) (sched_safe _) calls None None); done.
Qed.

(** The dates recorded by the successful completions of a faulty history. *)
Fixpoint trigger_log (calls : list (SchedCommand * list bool)) (d : Table) : list bytes :=
  match calls with
  | [] => []
  | (c, fl) :: calls' =>
      let '(r, w) := run_sched LoadLocation c (mk_world d fl) in
      match c, r, w_db w with
      | SCompleteClaim _ _, Ok _, Some row => [c_last_trigger_local_date row]
      | _, _, _ => []
      end ++ trigger_log calls' (w_db w)
  end.

Lemma trigger_log_sorted calls d s : (forall name z, LoadLocation name = Some z -> bounded_zone z) ->
  Forall early_call calls.*1 -> represents LoadLocation d s -> fresh_claim LoadLocation s ->
  StronglySorted earlier_day (trigger_log calls d) /\
  Forall (date_before (match s with Some st => st_date st | None => [] end)) (trigger_log calls d).
Proof.
  intros Hz. revert d s. induction calls as [|[c fl] calls IH]; intros d s He R Hf; [by repeat constructor|].
  cbn in He. apply Forall_cons in He as [Hc He]. cbn [trigger_log].
  destruct (run_sched LoadLocation c (mk_world d fl)) as [r w] eqn:E.
  destruct (sched_under_faults _ Hz _ _ _ _ _ _ Hc R E) as [[Hr Hw]|[Hr Hw]].
  - rewrite Hw. destruct (IH d s He R Hf). destruct c, r; done.
  - destruct (spec_sched LoadLocation c s) as [r' s'] eqn:Es. cbn in Hr, Hw. subst r'.
    pose proof (stored_represents _ _ _ R) as Hs.
    destruct (spec_sched_dates _ Hz c s r s' Hs Hf Es) as [D Hf'].
    destruct (IH (w_db w) s' He Hw Hf') as [IH1 IH2].
    destruct D as [[Ed Hn]|(claim & now & st & z & -> & -> & -> & Hcl & L & ->)].
    + rewrite Ed in IH2. destruct c, r; try done.
    + cbn in Hw. destruct Hw as [Ew Hw']. rewrite Ew in IH1, IH2 |- *. cbn [c_last_trigger_local_date row_of st_date triggered].
      cbn [st_date triggered] in IH2. cbn in Hs.
      assert (Hb : date_before (st_date st) (occurrenceLocalDate (Occurrence claim) z)) by by apply Hf.
      destruct (ws_claim _ _ Hs _ Hcl) as [_ Hsto].
      destruct (local_date_text _ _ Hsto (Hz _ _ L)) as (_ & _ & Et).
      assert (Hlog : forall b, date_before (occurrenceLocalDate (Occurrence claim) z) b ->
                earlier_day (occurrenceLocalDate (Occurrence claim) z) b).
      { intros b [Hb'|Hb']; [|done]. rewrite Et in Hb'. apply (f_equal (@List.length _)) in Hb'.
        unfold format_date in Hb'. rewrite !length_app, !digits_length in Hb'. done. }
      split; cbn [app].
      * constructor; [done|]. by eapply Forall_impl.
      * constructor; [exact Hb|]. eapply Forall_impl; [exact IH2|]. intros b Hbb%Hlog.
        destruct Hb as [Hb|Hb]; [by left|right; by eapply earlier_day_trans].
Qed.

(** C31: at most one trigger per local day: along any history of calls, faults,
    schedule edits (other time zones included), clock readings and restarts,
    the local dates that completed triggers record are strictly increasing. *)
Theorem at_most_one_trigger_per_day (calls : list (SchedCommand * list bool)) :
  (forall name z, LoadLocation name = Some z -> bounded_zone z) -> Forall early_call calls.*1 ->
  StronglySorted earlier_day (trigger_log calls None).
Proof. intros Hz He. by apply (trigger_log_sorted calls None None). Qed.

(** What one evaluation of a due schedule leaves. *)
Definition evaluated (outcome : Outcome) (z : zone) (next claimed_at settled_at : time) (st : Stored) : Stored :=
  let claimed := claiming next claimed_at st in
  let give_back deferred reason := released deferred (st_next st) reason settled_at claimed in
  match outcome with
  | OutcomeAccepted => triggered (occurrenceLocalDate (st_next st) z) settled_at claimed
  | OutcomeActive => give_back true "operation_active"
  | OutcomeBusy => give_back true "workspace_busy"
  | OutcomeRecovery => give_back false "recovery_required"
  | OutcomeWorkspace | OutcomeChanged => give_back false "workspace_invalid"
  | OutcomeConfiguration => give_back false "configuration_invalid"
  | OutcomeOther => give_back false "operation_unavailable"
  end.

Lemma settle_spec outcome z next t1 t2 st d :
  (forall name z, LoadLocation name = Some z -> bounded_zone z) -> ready t2 = Ok tt ->
  represents LoadLocation d (Some (claiming next t1 st)) -> LoadLocation (st_zone st) = Some z ->
  canonicalInstant (st_next st) true = Ok tt ->
  exists d', settle LoadLocation outcome (mk_Claim (st_next st)) t2 (mk_world d []) = (Ok tt, mk_world d' []) /\
    represents LoadLocation d' (Some (evaluated outcome z next t1 t2 st)).
Proof.
  intros Hz Hr R L Hc. assert (Hh : holds (mk_Claim (st_next st)) (claiming next t1 st) = true).
  { unfold holds. by rewrite bool_decide_true. }
  assert (Hv : valid_claim (mk_Claim (st_next st)) = true) by (unfold valid_claim; cbn; by rewrite Hc).
  assert (Rel : forall reason deferred, validReason reason = true ->
    exists d', ReleaseClaim (mk_Claim (st_next st)) reason deferred t2 (mk_world d []) = (Ok tt, mk_world d' []) /\
      represents LoadLocation d' (Some (released deferred (st_next st) reason t2 (claiming next t1 st)))).
  { intros reason deferred Hre.
    destruct (ReleaseClaim_implements _ (mk_Claim (st_next st)) reason deferred t2 d _ R) as (d' & E & R').
    assert (Es : spec_ReleaseClaim (mk_Claim (st_next st)) reason deferred t2 (Some (claiming next t1 st))
      = (Ok tt, Some (released deferred (st_next st) reason t2 (claiming next t1 st)))).
    { unfold spec_ReleaseClaim. rewrite Hr, Hv, Hre. cbn [negb orb reject_if]. unfold lift, mbind, M_bind, step.
      by rewrite Hh. }
    rewrite Es in E, R'. by exists d'. }
  destruct outcome; try (by apply Rel).
  destruct (CompleteClaim_implements _ Hz (mk_Claim (st_next st)) t2 d _ R) as (d' & E & R').
  assert (Es : spec_CompleteClaim LoadLocation (mk_Claim (st_next st)) t2 (Some (claiming next t1 st))
    = (Ok tt, Some (triggered (occurrenceLocalDate (st_next st) z) t2 (claiming next t1 st)))).
  { unfold spec_CompleteClaim. rewrite Hr, Hv. cbn [negb orb reject_if]. unfold lift, mbind, M_bind, step.
    change (st_zone (claiming next t1 st)) with (st_zone st). by rewrite L, Hh. }
  rewrite Es in E, R'. by exists d'.
Qed.

(** an evaluation of a due schedule always settles its claim: accepted
    work records the trigger's local date, contention keeps the occurrence for
    a retry, any other refusal waits for the next occurrence, and the reason
    recorded tells them apart. *)
Theorem evaluate_settles_due_schedule outcome z next t1 t2 st d :
  (forall name z, LoadLocation name = Some z -> bounded_zone z) -> early t1 -> early t2 ->
  ready t1 = Ok tt -> ready t2 = Ok tt -> represents LoadLocation d (Some st) ->
  not_due t1 st = false -> LoadLocation (st_zone st) = Some z ->
  nextOccurrence t1 z (st_minute st) = Ok next -> repeated z st = false ->
  (exists d', evaluate LoadLocation outcome t1 t2 (mk_world d []) = (Ok tt, mk_world d' []) /\
     represents LoadLocation d' (Some (evaluated outcome z next t1 t2 st))) /\
  st_claim (evaluated outcome z next t1 t2 st) = None /\ t_ns t1 < t_ns next.
Proof.
  intros Hz He1 He2 Hr1 Hr2 R Nd L N Rp.
  destruct (nextOccurrence_storable _ _ _ _ (Hz _ _ L) He1 N) as [_ Hlt]. split; [|split; [by destruct outcome|done]].
  destruct (ClaimDue_implements _ Hz t1 He1 d _ R) as (d1 & E1 & R1).
  assert (Es : spec_ClaimDue LoadLocation t1 (Some st) = (Ok (mk_Claim (st_next st)), Some (claiming next t1 st))).
  { unfold spec_ClaimDue. rewrite Hr1. unfold lift, mbind, M_bind, step. by rewrite Nd, L, N, Rp. }
  rewrite Es in E1, R1. cbn [fst snd] in E1, R1.
  assert (Hc : canonicalInstant (st_next st) true = Ok tt).
  { destruct R as [_ [_ Hn _ _ _ _ _]]. unfold not_due in Nd. destruct (st_enabled st); [apply Hn|done]. }
  unfold evaluate, attempt, mbind, M_bind. rewrite E1. by apply settle_spec.
Qed.

(** recovery closes a claim the previous process left open, and after an
    interrupted operation or an open claim the schedule moves on to an
    occurrence in the future instead of retrying at once. *)
Theorem recover_closes_open_claim now interrupted d s w :
  (forall name z, LoadLocation name = Some z -> bounded_zone z) -> early now -> represents LoadLocation d s ->
  Recover LoadLocation now interrupted (mk_world d []) = (Ok tt, w) ->
  exists s', represents LoadLocation (w_db w) s' /\
    match s', s with
    | Some st', Some st =>
        st_claim st' = None /\ st_date st' = st_date st /\
        (st_enabled st = true -> interrupted = true \/ is_Some (st_claim st) -> t_ns now < t_ns (st_next st'))
    | None, None => True
    | _, _ => False
    end.
Proof.
  intros Hz He R E. destruct (Recover_implements _ Hz now interrupted He d s R) as (d' & E' & R').
  rewrite E in E'. injection E' as Er ->. exists (spec_Recover LoadLocation now interrupted s).2. split; [done|].
  pose proof (stored_represents _ _ _ R) as Hs. revert Er R'. unfold spec_Recover.
  unfold ready, plain_error. destruct (canonicalInstant now true) as [[]|]; [|done]. cbn [map_err].
  unfold lift, mbind, M_bind, step. destruct s as [st|]; [|done].
  destruct (negb (st_enabled st) || _) eqn:G.
  - intros _ R'. cbn. apply orb_true_iff in G as [G|G]; bool_prop.
    + destruct (st_claim st) as [t|] eqn:Ec; [|split_and!; try done; congruence].
      destruct (ws_claim _ _ Hs t Ec). congruence.
    + destruct (st_claim st) as [t|] eqn:Ec; [by destruct H; eexists|]. split_and!; try done.
      intros _ [->|[? ?]]; done.
  - destruct (LoadLocation (st_zone st)) as [z|] eqn:L; [|done].
    destruct (nextOccurrence now z (st_minute st)) as [next|] eqn:N; [|done]. intros _ _. cbn.
    split_and!; try done. intros _ _. by apply (nextOccurrence_storable _ _ _ _ (Hz _ _ L) He N).
Qed.

(** the service never sleeps longer than a minute, nor spins: the wait
    before the next evaluation is positive and at most the wake interval, and
    a schedule that is not due yet is looked at again by its next occurrence,
    or after a second when the clock passed it meanwhile. *)
Theorem delay_is_bounded read_at measured_at w r w' :
  delay LoadLocation read_at measured_at w = (Ok r, w') ->
  0 < r <= defaultWakeInterval /\
  exists schedule, Get LoadLocation read_at w = (Ok schedule, w') /\
    (sc_State schedule = StateScheduled \/ sc_State schedule = StateBlocked -> Enabled schedule = true ->
     r <= Z.max deferredRetry (t_ns (NextEvaluation schedule) - t_ns measured_at)).
Proof.
  unfold delay. intros (schedule & w1 & Eg & E)%M_bind_Ok. injection E as <- <-.
  unfold defaultWakeInterval, deferredRetry, minute_ns, ns_per_second.
  split.
  - destruct (Enabled schedule); cbn [negb]; [|lia]. destruct (_ || _); [lia|].
    destruct (Z.leb_spec (t_ns (NextEvaluation schedule) - t_ns measured_at) 0); [lia|].
    destruct (Z.ltb_spec (60 * 1000000000) (t_ns (NextEvaluation schedule) - t_ns measured_at)); lia.
  - exists schedule. split; [done|]. intros Hst ->. cbn [negb].
    replace (bool_decide (sc_State schedule = StateDue) || bool_decide (sc_State schedule = StateDeferred)) with false
      by (destruct Hst as [-> | ->]; done).
    destruct (Z.leb_spec (t_ns (NextEvaluation schedule) - t_ns measured_at) 0); [lia|].
    destruct (Z.ltb_spec (60 * 1000000000) (t_ns (NextEvaluation schedule) - t_ns measured_at)); lia.
Qed.
End Store.

(** ** Concrete instances *)

(** A zone 23 hours ahead of UTC, and America/Nuuk around 31 March 2024, 01:00 UTC, when its clocks went from
    23:00 on the 30th to midnight. *)
Definition nuuk : zone := mk_zone "America/Nuuk" (fun s => if s <? 1711846800 then -7200 else -3600).
Definition sample_zones (name : string) : option zone :=
  if String.eqb name "Test/East" then Some (fixed_zone "Test/East" 82800)
  else if String.eqb name "America/Nuuk" then Some nuuk else None.
(** 29 March 2024, 12:00 UTC, and seconds after it. *)
Definition sample_now (seconds : Z) : time := unix_utc ((1711713600 + seconds) * ns_per_second).

Lemma sample_zones_bounded name z : sample_zones name = Some z -> bounded_zone z.
Proof.
  unfold sample_zones. intros H s. unfold seconds_per_day.
  destruct (String.eqb name "Test/East"); [injection H as <-; cbn; lia|].
  destruct (String.eqb name "America/Nuuk"); [|done]. injection H as <-. cbn. destruct (s <? 1711846800); lia.
Qed.

(** A schedule saved for 23:30 in Nuuk whose occurrence of 29 March 2024 is due. *)
Definition nuuk_evening : Stored :=
  mk_Stored true "America/Nuuk" 1410 (sample_now 48600) zero_time [] None "schedule_saved" (sample_now 0).

(** a zone whose clocks skip the end of a day stops the scheduler: the
    evaluation due on the evening of 29 March 2024 looks for the next
    occurrence, finds no 23:30 or later on the 30th and reports an error, with
    which the service loop ends, whatever the operations service would say. *)
Example skipped_evening_stops_scheduler outcome :
  (evaluate sample_zones outcome (sample_now 48660) (sample_now 48661) (mk_world (Some (row_of nuuk_evening)) [])).1
  = Err (SErrOther "IANA time zone has no valid instant").
Proof. vm_compute. reflexivity. Qed.

Lemma nuuk_bounded : bounded_zone nuuk.
Proof. apply (sample_zones_bounded "America/Nuuk"). reflexivity. Qed.

Lemma next_occurrence_is_first_witness :
  t_ns (sample_now 0) < t_ns (sample_now 50400).
Proof.
  apply (next_occurrence_is_first (sample_now 0) nuuk 0 (sample_now 50400) nuuk_bounded).
  vm_compute. reflexivity.
Defined.

Lemma fixed_zone_recurs_daily_witness :
  exists t, nextOccurrence (sample_now 0) (fixed_zone "Asia/Kolkata" 19800) 90 = Ok t /\
    t_ns (sample_now 0) < t_ns t <= t_ns (sample_now 0) + day_ns /\
    local_minute (fixed_zone "Asia/Kolkata" 19800) (t_unix t) = 90.
Proof.
  apply (fixed_zone_recurs_daily "Asia/Kolkata" 19800 (sample_now 0) 90);
    [reflexivity|unfold seconds_per_day; lia|lia|vm_compute; reflexivity].
Defined.

Lemma next_occurrence_fails_on_gap_witness :
  exists k, 0 <= k < 370 /\ forall s, whole_minute s ->
    is_occurrence (civil_from_days (first_day (sample_now 86400) nuuk + k)) nuuk 1410 s = false.
Proof.
  apply (next_occurrence_fails_on_gap (sample_now 86400) nuuk 1410 "IANA time zone has no valid instant" nuuk_bounded);
    [vm_compute; reflexivity|lia|vm_compute; reflexivity].
Defined.

(** A claim and its completion, twice. *)
Definition sample_day (n : Z) : list (SchedCommand * list bool) :=
  [(SClaimDue (sample_now (n + 60)), []);
   (SCompleteClaim (mk_Claim (sample_now n)) (sample_now (n + 61)), [])].
Definition sample_calls : list (SchedCommand * list bool) :=
  (SSave (mk_Update true "Test/East" 0) (sample_now 0), []) :: sample_day 46800 ++ sample_day 133200.

Lemma sample_now_early n : n <= 200000 -> early (sample_now n).
Proof.
  intros H. unfold early, horizon_ns, midnight_ns, sample_now. change (days_from_civil (mk_date 9990 1 1)) with 2929245.
  cbn [t_ns unix_utc]. unfold day_ns, seconds_per_day, ns_per_second. lia.
Qed.

Lemma sample_calls_early : Forall early_call sample_calls.*1.
Proof.
  unfold sample_calls, sample_day. cbn.
  repeat constructor; unfold early_call; cbn [sched_now]; apply sample_now_early; lia.
Qed.

Lemma schedule_store_implements_machine_witness :
  exists effective, effective_history (represents sample_zones) (spec_sched sample_zones) sample_calls
    (faulty_history (run_sched sample_zones) sample_calls None).1 None
    (faulty_history (run_sched sample_zones) sample_calls None).2 effective.
Proof.
  pose proof (schedule_store_implements_machine sample_zones sample_calls sample_zones_bounded sample_calls_early) as H.
  destruct (faulty_history (run_sched sample_zones) sample_calls None) as [rs d']. exact H.
Defined.

Lemma at_most_one_trigger_per_day_witness :
  trigger_log sample_zones sample_calls None = [format_date (mk_date 2024 3 31); format_date (mk_date 2024 4 1)] /\
  StronglySorted earlier_day (trigger_log sample_zones sample_calls None).
Proof.
  split; [vm_compute; reflexivity|].
  apply (at_most_one_trigger_per_day sample_zones sample_calls sample_zones_bounded sample_calls_early).
Defined.

Definition sample_stored : Stored :=
  mk_Stored true "Test/East" 0 (sample_now 46800) zero_time [] None "schedule_saved" (sample_now 0).

Lemma sample_stored_represented : represents sample_zones (Some (row_of sample_stored)) (Some sample_stored).
Proof.
  split; [done|]. constructor; cbn.
  - vm_compute. reflexivity.
  - apply (storable_intro ((1711713600 + 46800) * ns_per_second)). unfold zero_ns, limit_ns, midnight_ns.
    change (days_from_civil (mk_date 9999 1 1)) with 2932532. unfold day_ns, seconds_per_day, ns_per_second. lia.
  - by left.
  - by left.
  - done.
  - reflexivity.
  - vm_compute. reflexivity.
Qed.

Lemma evaluate_settles_due_schedule_witness :
  exists d', evaluate sample_zones OutcomeActive (sample_now 46860) (sample_now 46861)
      (mk_world (Some (row_of sample_stored)) []) = (Ok tt, mk_world d' []) /\
    represents sample_zones d' (Some (evaluated OutcomeActive (fixed_zone "Test/East" 82800) (sample_now 133200)
      (sample_now 46860) (sample_now 46861) sample_stored)).
Proof.
  apply (evaluate_settles_due_schedule sample_zones OutcomeActive (fixed_zone "Test/East" 82800) (sample_now 133200)
    (sample_now 46860) (sample_now 46861) sample_stored (Some (row_of sample_stored)) sample_zones_bounded).
  - apply sample_now_early. lia.
  - apply sample_now_early. lia.
  - vm_compute. reflexivity.
  - vm_compute. reflexivity.
  - apply sample_stored_represented.
  - vm_compute. reflexivity.
  - reflexivity.
  - vm_compute. reflexivity.
  - vm_compute. reflexivity.
Defined.

Lemma recover_closes_open_claim_witness :
  exists w s', Recover sample_zones (sample_now 46860) true (mk_world (Some (row_of sample_stored)) []) = (Ok tt, w) /\
    represents sample_zones (w_db w) s'.
Proof.
  destruct (Recover sample_zones (sample_now 46860) true (mk_world (Some (row_of sample_stored)) [])) as [r w] eqn:E.
  assert (r = Ok tt) as ->.
  { change r with (r, w).1. rewrite <- E. vm_compute. reflexivity. }
  destruct (recover_closes_open_claim sample_zones (sample_now 46860) true _ (Some sample_stored) w
    sample_zones_bounded (sample_now_early 46860 ltac:(lia)) sample_stored_represented E) as (s' & R & _).
  exists w, s'. split; [reflexivity|exact R].
Defined.

Lemma delay_is_bounded_witness :
  0 < 60 * ns_per_second <= defaultWakeInterval.
Proof.
  apply (delay_is_bounded sample_zones (sample_now 0) (sample_now 0) (mk_world (Some (row_of sample_stored)) [])
    (60 * ns_per_second) (mk_world (Some (row_of sample_stored)) [])).
  vm_compute. reflexivity.
Defined.
