(* ===== verification/RedactFilter.v ===== *)
(** The redaction filter (internal/redaction/redaction.go): the automaton with
    its node and edge tables, and exact redaction as a reference: appending the
    input byte by byte and, whenever the result ends with a pattern, removing
    the longest pattern it ends with.  Also the theory of longest suffixes in a
    prefix-closed set of words that the automaton rests on. *)
From stdpp Require Import gmap.
From S2P Require Import Prelude.
From S2P Require Import GoText.

#[local] Open Scope Z_scope.

(** ** Patterns at the end of a word *)

Section Patterns.
Context (patterns : list bytes).

Definition ends_with (w p : bytes) : bool := bool_decide (p `suffix_of` w).

(** Length of the longest pattern that is a suffix of [w]; 0 without one. *)
Definition match_length (w : bytes) : nat :=
  foldr Nat.max 0%nat (List.length <$> List.filter (ends_with w) patterns).

(** One byte of the reference redaction. *)
Definition redact_byte (result : bytes) (c : ascii) : bytes :=
  let result := result ++ [c] in take (List.length result - match_length result) result.

Definition redact (input : bytes) : bytes := fold_left redact_byte input [].

Lemma max_list_spec (l : list nat) n : foldr Nat.max 0%nat l = n ->
  (forall m, m ∈ l -> (m <= n)%nat) /\ (n = 0%nat \/ n ∈ l).
Proof.
  revert n. induction l as [|a l IH]; intros n <-; cbn; [split; [intros m H; by apply not_elem_of_nil in H|by left]|].
  destruct (IH _ eq_refl) as [H1 H2]. split.
  - intros m [->|H]%elem_of_cons; [lia|]. specialize (H1 m H). lia.
  - destruct (Nat.max_spec a (foldr Nat.max 0%nat l)) as [[_ ->]|[_ ->]]; [|right; by left].
    destruct H2 as [H2|H2]; [by left|right; by right].
Qed.

Lemma match_length_spec w :
  (forall p, p ∈ patterns -> p `suffix_of` w -> (List.length p <= match_length w)%nat) /\
  (match_length w = 0%nat \/ exists p, p ∈ patterns /\ p `suffix_of` w /\ List.length p = match_length w).
Proof.
  destruct (max_list_spec _ (match_length w) eq_refl) as [H1 H2].
  assert (Hin : forall p, p ∈ List.filter (ends_with w) patterns <-> p ∈ patterns /\ p `suffix_of` w).
  { intros p. rewrite !list_elem_of_In, List.filter_In. unfold ends_with. by rewrite bool_decide_eq_true. }
  split.
  - intros p Hp Hs. apply H1. by apply list_elem_of_fmap_2, Hin.
  - destruct H2 as [H2|(p & Hl & Hp)%list_elem_of_fmap]; [by left|right]. apply Hin in Hp as [? ?]. by exists p.
Qed.

Lemma match_length_unique w n :
  (forall p, p ∈ patterns -> p `suffix_of` w -> (List.length p <= n)%nat) ->
  (n = 0%nat \/ exists p, p ∈ patterns /\ p `suffix_of` w /\ List.length p = n) -> match_length w = n.
Proof.
  intros H1 H2. destruct (match_length_spec w) as [G1 G2].
  destruct H2 as [->|(p & Hp & Hs & Hl)], G2 as [G2|(q & Hq & Gs & Gl)].
  - done.
  - specialize (H1 q Hq Gs). lia.
  - specialize (G1 p Hp Hs). lia.
  - specialize (H1 q Hq Gs). specialize (G1 p Hp Hs). lia.
Qed.

Lemma match_length_le w : (match_length w <= List.length w)%nat.
Proof.
  destruct (match_length_spec w) as [_ [->|(p & _ & Hs & <-)]]; [lia|]. by apply suffix_length.
Qed.

(** ** The reference leaves no pattern behind *)

(** [p] occurs somewhere in [w]. *)
Definition occurs (p w : bytes) : Prop := exists l r, w = l ++ p ++ r.

Lemma occurs_snoc p w c : occurs p (w ++ [c]) -> occurs p w \/ p `suffix_of` w ++ [c].
Proof.
  intros (l & r & E). destruct r as [|x r _] using rev_ind.
  - right. exists l. by rewrite app_nil_r in E.
  - left. rewrite !app_assoc in E. apply app_inj_tail in E as [-> _]. exists l, r. by rewrite app_assoc.
Qed.

Lemma occurs_take p w n : occurs p (take n w) -> occurs p w.
Proof. intros (l & r & E). exists l, (r ++ drop n w). by rewrite <- (take_drop n w), E, <- !app_assoc at 1. Qed.

Lemma redact_byte_clean result c : (forall p, p ∈ patterns -> p <> []) ->
  (forall p, p ∈ patterns -> ~ occurs p result) -> forall p, p ∈ patterns -> ~ occurs p (redact_byte result c).
Proof.
  intros Hne Hc p Hp Ho. unfold redact_byte in Ho.
  destruct (match_length_spec (result ++ [c])) as [M1 M2].
  destruct (match_length (result ++ [c])) as [|n] eqn:En.
  - rewrite Nat.sub_0_r, firstn_all in Ho. apply occurs_snoc in Ho as [Ho|Hs]; [by apply (Hc p)|].
    specialize (M1 p Hp Hs). specialize (Hne p Hp). destruct p; [done|cbn in M1; lia].
  - rewrite length_app in Ho. cbn [List.length] in Ho.
    replace (List.length result + 1 - S n)%nat with (List.length result - n)%nat in Ho by lia.
    rewrite take_app_le in Ho by lia. by apply occurs_take, Hc in Ho.
Qed.

Lemma redact_clean input : (forall p, p ∈ patterns -> p <> []) ->
  forall p, p ∈ patterns -> ~ occurs p (redact input).
Proof.
  intros Hne. unfold redact.
  assert (H0 : forall p, p ∈ patterns -> ~ occurs p []).
  { intros p Hp (l & r & E). symmetry in E. apply app_nil in E as [_ E]. apply app_nil in E as [-> _]. by apply (Hne []). }
  revert H0. generalize (@nil ascii) as result. induction input as [|c input IH]; intros result H0; [done|].
  cbn [fold_left]. apply IH. by apply redact_byte_clean.
Qed.

(** Text without a pattern is left alone. *)
Lemma redact_id input : (forall p, p ∈ patterns -> p <> []) -> (forall p, p ∈ patterns -> ~ occurs p input) -> redact input = input.
Proof.
  intros Hne. unfold redact.
  cut (forall result, (forall p, p ∈ patterns -> ~ occurs p (result ++ input)) -> fold_left redact_byte input result = result ++ input).
  { intros H Hn. by apply (H []). }
  induction input as [|c input IH]; intros result Hn; cbn [fold_left]; [by rewrite app_nil_r|].
  assert (E : redact_byte result c = result ++ [c]).
  { unfold redact_byte. destruct (match_length_spec (result ++ [c])) as [_ [->|(p & Hp & [l Hs] & Hl)]];
      [by rewrite Nat.sub_0_r, firstn_all|]. exfalso. apply (Hn p Hp). exists l, input.
    by rewrite app_assoc, <- Hs, <- app_assoc. }
  rewrite E. replace (result ++ c :: input) with ((result ++ [c]) ++ input) in * by by rewrite <- app_assoc.
  by apply IH.
Qed.
End Patterns.

(** ** Longest suffixes in a prefix-closed set *)

Section Words.
Context (P : bytes -> Prop) (P_nil : P []) (P_prefix : forall u v, P (u ++ v) -> P u).

(** [s] is the longest suffix of [w] in [P]. *)
Definition longest (w s : bytes) : Prop := s `suffix_of` w /\ P s /\ forall t, t `suffix_of` w -> P t -> t `suffix_of` s.

Lemma suffix_of_both (a b w : bytes) : a `suffix_of` w -> b `suffix_of` w ->
  (List.length a <= List.length b)%nat -> a `suffix_of` b.
Proof.
  intros [x Ex] [y Ey] L.
  assert (Ll : (List.length y <= List.length x)%nat).
  { apply (f_equal (@List.length _)) in Ex, Ey. rewrite length_app in Ex, Ey. lia. }
  exists (take (List.length x - List.length y) b).
  assert (Ea : a = drop (List.length x) w) by by rewrite Ex, drop_app_length.
  assert (Eb : b = drop (List.length y) w) by by rewrite Ey, drop_app_length.
  rewrite Ea at 1. replace (List.length x) with (List.length y + (List.length x - List.length y))%nat at 2 by lia.
  rewrite <- drop_drop, <- Eb. by rewrite take_drop.
Qed.

Lemma longest_unique w s t : longest w s -> longest w t -> s = t.
Proof.
  intros (S1 & S2 & S3) (T1 & T2 & T3). pose proof (T3 _ S1 S2) as H1. pose proof (S3 _ T1 T2) as H2.
  apply suffix_length in H1 as L1. apply suffix_length in H2 as L2. destruct H1 as [x ->].
  rewrite length_app in L2. destruct x; [done|cbn in L2; lia].
Qed.

Lemma longest_self w : P w -> longest w w.
Proof. intros H. by repeat split. Qed.

(** Appending a byte: only the longest suffix in the set matters. *)
Lemma longest_snoc w s t c : longest w s -> longest (s ++ [c]) t -> longest (w ++ [c]) t.
Proof using P_prefix.
  intros (S1 & S2 & S3) (T1 & T2 & T3). split_and!; [|done|].
  - etransitivity; [done|]. destruct S1 as [x ->]. exists x. by rewrite app_assoc.
  - intros u Hu HP. apply T3; [|done]. destruct u as [|d u _] using rev_ind; [apply suffix_nil|].
    assert (Hd : d = c /\ u `suffix_of` w).
    { destruct Hu as [x Ex]. rewrite app_assoc in Ex. apply app_inj_tail in Ex as [-> ->]. split; [done|by exists x]. }
    destruct Hd as [-> Hs]. destruct (S3 u Hs (P_prefix _ _ HP)) as [x ->]. exists x. by rewrite app_assoc.
Qed.

(** The longest proper suffix in the set. *)
Definition longest_proper (w s : bytes) : Prop :=
  s `suffix_of` w /\ s <> w /\ P s /\ forall t, t `suffix_of` w -> t <> w -> P t -> t `suffix_of` s.

Lemma longest_proper_unique w s t : longest_proper w s -> longest_proper w t -> s = t.
Proof.
  intros (S1 & S2 & S3 & S4) (T1 & T2 & T3 & T4). pose proof (T4 _ S1 S2 S3) as H1. pose proof (S4 _ T1 T2 T3) as H2.
  apply suffix_length in H1 as L1. apply suffix_length in H2 as L2. destruct H1 as [x ->].
  rewrite length_app in L2. destruct x; [done|cbn in L2; lia].
Qed.

Lemma longest_proper_length w s : longest_proper w s -> (List.length s < List.length w)%nat.
Proof.
  intros ([x ->] & Hne & _). rewrite length_app. destruct x; [done|cbn; lia].
Qed.

(** When the set does not extend [w] by [c], fall back to the longest proper
    suffix of [w]. *)
Lemma longest_fallback w s t c : ~ P (w ++ [c]) -> longest_proper w s -> longest (s ++ [c]) t -> longest (w ++ [c]) t.
Proof using P_prefix.
  intros Hn (S1 & S2 & S3 & S4) (T1 & T2 & T3). split_and!; [|done|].
  - etransitivity; [done|]. destruct S1 as [x ->]. exists x. by rewrite app_assoc.
  - intros u Hu HP. apply T3; [|done]. destruct u as [|d u _] using rev_ind; [apply suffix_nil|].
    assert (Hd : d = c /\ u `suffix_of` w).
    { destruct Hu as [x Ex]. rewrite app_assoc in Ex. apply app_inj_tail in Ex as [-> ->]. split; [done|by exists x]. }
    destruct Hd as [-> Hs]. assert (u <> w) by by intros ->.
    destruct (S4 u Hs H (P_prefix _ _ HP)) as [x ->]. exists x. by rewrite app_assoc.
Qed.

(** The longest proper suffix of [w ++ [c]] comes from that of [w]. *)
Lemma longest_proper_snoc w s t c : longest_proper w s -> longest (s ++ [c]) t -> longest_proper (w ++ [c]) t.
Proof using P_prefix.
  intros Hs0 Ht0. pose proof (longest_proper_length _ _ Hs0) as Lt.
  destruct Hs0 as (S1 & S2 & S3 & S4). destruct Ht0 as (T1 & T2 & T3). split_and!; [| |done|].
  - etransitivity; [done|]. destruct S1 as [x ->]. exists x. by rewrite app_assoc.
  - intros ->. apply suffix_length in T1. rewrite !length_app in T1. cbn in T1. lia.
  - intros u Hu Hne HP. apply T3; [|done]. destruct u as [|d u _] using rev_ind; [apply suffix_nil|].
    assert (Hd : d = c /\ u `suffix_of` w).
    { destruct Hu as [x Ex]. rewrite app_assoc in Ex. apply app_inj_tail in Ex as [-> ->]. split; [done|by exists x]. }
    destruct Hd as [-> Hs]. assert (u <> w) by (intros ->; done).
    destruct (S4 u Hs H (P_prefix _ _ HP)) as [x ->]. exists x. by rewrite app_assoc.
Qed.

Lemma longest_nil_of s c : s = [] -> ~ P [c] -> longest (s ++ [c]) [].
Proof using P_nil.
  intros -> Hn. split_and!; [apply suffix_nil|done|]. intros t [x E] HP.
  destruct x as [|d x]; cbn in E.
  - subst t. done.
  - injection E as _ E. symmetry in E. apply app_nil in E as [_ ->]. done.
Qed.

Lemma longest_proper_single c : longest_proper [c] [].
Proof using P_nil.
  split_and!; [apply suffix_nil|done|done|]. intros t [x E] Hne _.
  destruct x as [|d x]; cbn in E; [done|]. injection E as _ E. symmetry in E. by apply app_nil in E as [_ ->].
Qed.
End Words.

(** A pattern at the end of a word is at the end of its longest suffix. *)
Lemma match_length_longest patterns P w s : (forall p, p ∈ patterns -> P p) -> longest P w s ->
  match_length patterns s = match_length patterns w.
Proof.
  intros HP (S1 & _ & S3). apply match_length_unique.
  - intros p Hp Hs. apply match_length_spec; [done|]. by etransitivity.
  - destruct (match_length_spec patterns w) as [_ [->|(p & Hp & Hs & Hl)]]; [by left|right].
    exists p. split_and!; [done| |done]. by apply S3, HP.
Qed.

(** The matches of a word: the word itself, or those of its longest proper
    suffix. *)
Lemma match_length_fallback patterns P w s : (forall p, p ∈ patterns -> P p) -> longest_proper P w s ->
  match_length patterns w = if bool_decide (w ∈ patterns) then List.length w else match_length patterns s.
Proof.
  intros HP Hlp. destruct Hlp as (S1 & S2 & S3 & S4). case_bool_decide as Hw.
  - apply match_length_unique; [intros p _ Hs; by apply suffix_length|right]. by exists w.
  - apply match_length_unique.
    + intros p Hp Hs. apply match_length_spec; [done|]. apply S4; [done| |by apply HP]. by intros ->.
    + destruct (match_length_spec patterns s) as [_ [->|(p & Hp & Hs & Hl)]]; [by left|right].
      exists p. split_and!; [done| |done]. by etransitivity.
Qed.

(** The secret filter of internal/redaction/redaction.go: the pattern
    automaton with its node and edge tables, its construction, the redaction
    of a byte string, and [New] with its policy.  Table indexes are [nat], and
    the source's index -1 is [None].  An index outside its table is the error
    [Panic], as is a loop that runs out of fuel. *)

Inductive RedactError :=
| ErrPolicy | ErrTooMany | ErrValueTooLarge | ErrVariantsTooLarge | ErrAutomatonTooLarge | Panic.
#[export] Instance RedactError_eq_dec : EqDecision RedactError.
Proof. solve_decision. Defined.

Definition replacement_text : bytes := to_bytes "[REDACTED]".
Definition defaultMaximumValues : Z := 128.
Definition maximumAllowedValues : Z := 1024.
Definition defaultMaximumValueBytes : Z := Z.shiftl 64 10.
Definition maximumAllowedValueBytes : Z := Z.shiftl 1 20.
Definition defaultMaximumAggregate : Z := Z.shiftl 1 20.
Definition maximumAllowedAggregate : Z := Z.shiftl 4 20.
Definition maximumAutomatonStates : Z := Z.shiftl 2 20.

Record Policy := {
  MaximumValues : Z;
  MaximumValueBytes : Z;
  MaximumAggregateBytes : Z;
}.

Definition DefaultPolicy : Policy :=
  {| MaximumValues := defaultMaximumValues; MaximumValueBytes := defaultMaximumValueBytes;
     MaximumAggregateBytes := defaultMaximumAggregate |}.

Record automatonNode := Node {
  firstEdge : option nat;
  failure : nat;
  matchLen : nat;
}.

Record automatonEdge := Edge {
  next : nat;
  sibling : option nat;
  value : ascii;
}.

Record Filter := {
  nodes : list automatonNode;
  edges : list automatonEdge;
  root : list (option nat);
  replacement : bytes;
}.

(** [l[i]] *)
Definition at_index {A} (l : list A) (i : nat) : result RedactError A :=
  match l !! i with Some a => Ok a | None => Err Panic end.

(** [filter.nodes[i] = g(filter.nodes[i])] *)
Definition update_node (i : nat) (g : automatonNode -> automatonNode) (f : Filter) : result RedactError Filter :=
  nd ← at_index (nodes f) i;
  Ok {| nodes := <[i := g nd]> (nodes f); edges := edges f; root := root f; replacement := replacement f |}.

Definition set_failure (n : nat) (nd : automatonNode) : automatonNode := Node (firstEdge nd) n (matchLen nd).
Definition set_matchLen (n : nat) (nd : automatonNode) : automatonNode := Node (firstEdge nd) (failure nd) n.
Definition set_firstEdge (e : nat) (nd : automatonNode) : automatonNode := Node (Some e) (failure nd) (matchLen nd).

Definition byte_index (c : ascii) : nat := Z.to_nat (b2z c).

(** ** [Filter.transition] *)

(** The loop along the sibling links for the edge labelled [c]. *)
Fixpoint find_edge (fuel : nat) (es : list automatonEdge) (edge : option nat) (c : ascii) : result RedactError (option nat) :=
  match edge with
  | None => Ok None
  | Some e =>
      match fuel with
      | O => Err Panic
      | S fuel =>
          ed ← at_index es e;
          if Ascii.eqb (value ed) c then Ok (Some (next ed)) else find_edge fuel es (sibling ed) c
      end
  end.

Definition transition (f : Filter) (state : nat) (c : ascii) : result RedactError (option nat) :=
  if (state =? 0)%nat then at_index (root f) (byte_index c)
  else nd ← at_index (nodes f) state; find_edge (List.length (edges f)) (edges f) (firstEdge nd) c.

(** ** [Filter.advance] *)

Fixpoint advance_loop (fuel : nat) (f : Filter) (state : nat) (c : ascii) : result RedactError nat :=
  match fuel with
  | O => Err Panic
  | S fuel =>
      found ← transition f state c;
      match found with
      | Some n => Ok n
      | None =>
          if (state =? 0)%nat then Ok 0%nat
          else nd ← at_index (nodes f) state; advance_loop fuel f (failure nd) c
      end
  end.

Definition advance (f : Filter) (state : nat) (c : ascii) : result RedactError nat :=
  advance_loop (List.length (nodes f)) f state c.

(** ** [buildAutomaton] *)

Definition empty_node : automatonNode := Node None 0 0.

Definition empty_filter : Filter :=
  {| nodes := [empty_node]; edges := []; root := replicate 256 None; replacement := [] |}.

(** One byte of a pattern: follow the edge, or add a node and an edge. *)
Definition insert_byte (f : Filter) (state : nat) (c : ascii) : result RedactError (Filter * nat) :=
  found ← transition f state c;
  match found with
  | Some n => Ok (f, n)
  | None =>
      if (maximumAutomatonStates <=? blen (nodes f)) || (maximumAutomatonStates <=? blen (edges f))
      then Err ErrAutomatonTooLarge
      else
        let n := List.length (nodes f) in
        let grown := nodes f ++ [empty_node] in
        nd ← at_index grown state;
        let es := edges f ++ [Edge n (firstEdge nd) c] in
        Ok ({| nodes := <[state := set_firstEdge (List.length es - 1) nd]> grown;
               edges := es;
               root := if (state =? 0)%nat then <[byte_index c := Some n]> (root f) else root f;
               replacement := replacement f |}, n)
  end.

Fixpoint insert_bytes (f : Filter) (state : nat) (pattern : bytes) : result RedactError (Filter * nat) :=
  match pattern with
  | [] => Ok (f, state)
  | c :: rest => '(f', n) ← insert_byte f state c; insert_bytes f' n rest
  end.

Definition insert_pattern (f : Filter) (pattern : bytes) : result RedactError Filter :=
  '(f', state) ← insert_bytes f 0 pattern;
  nd ← at_index (nodes f') state;
  if (matchLen nd <? List.length pattern)%nat then update_node state (set_matchLen (List.length pattern)) f' else Ok f'.

Fixpoint insert_patterns (f : Filter) (patterns : list bytes) : result RedactError Filter :=
  match patterns with
  | [] => Ok f
  | p :: rest => f' ← insert_pattern f p; insert_patterns f' rest
  end.

(** The loop that queues the children of the root. *)
Fixpoint queue_root_children (fuel : nat) (f : Filter) (edge : option nat) (queue : list nat) : result RedactError (Filter * list nat) :=
  match edge with
  | None => Ok (f, queue)
  | Some e =>
      match fuel with
      | O => Err Panic
      | S fuel =>
          ed ← at_index (edges f) e;
          f' ← update_node (next ed) (set_failure 0) f;
          queue_root_children fuel f' (sibling ed) (queue ++ [next ed])
      end
  end.

(** [for failure != 0 && filter.transition(failure, value) < 0] *)
Fixpoint failure_loop (fuel : nat) (f : Filter) (state : nat) (c : ascii) : result RedactError nat :=
  match fuel with
  | O => Err Panic
  | S fuel =>
      if (state =? 0)%nat then Ok 0%nat
      else
        found ← transition f state c;
        match found with
        | Some _ => Ok state
        | None => nd ← at_index (nodes f) state; failure_loop fuel f (failure nd) c
        end
  end.

(** The body of the inner loop: failure link and inherited match of a child. *)
Definition link_child (f : Filter) (parent : nat) (c : ascii) (child : nat) : result RedactError Filter :=
  pn ← at_index (nodes f) parent;
  state ← failure_loop (List.length (nodes f)) f (failure pn) c;
  fallback ← transition f state c;
  f1 ← match fallback with
       | Some n => if (n =? child)%nat then Ok f else update_node child (set_failure n) f
       | None => Ok f
       end;
  cn ← at_index (nodes f1) child;
  fn ← at_index (nodes f1) (failure cn);
  if (matchLen cn <? matchLen fn)%nat then update_node child (set_matchLen (matchLen fn)) f1 else Ok f1.

Fixpoint link_children (fuel : nat) (f : Filter) (parent : nat) (edge : option nat) (queue : list nat) : result RedactError (Filter * list nat) :=
  match edge with
  | None => Ok (f, queue)
  | Some e =>
      match fuel with
      | O => Err Panic
      | S fuel =>
          ed ← at_index (edges f) e;
          f' ← link_child f parent (value ed) (next ed);
          link_children fuel f' parent (sibling ed) (queue ++ [next ed])
      end
  end.

(** The breadth-first loop; [queue] is the part from [position] on. *)
Fixpoint link_loop (fuel : nat) (f : Filter) (queue : list nat) : result RedactError Filter :=
  match queue with
  | [] => Ok f
  | parent :: rest =>
      match fuel with
      | O => Err Panic
      | S fuel =>
          nd ← at_index (nodes f) parent;
          '(f', queue') ← link_children (List.length (edges f)) f parent (firstEdge nd) rest;
          link_loop fuel f' queue'
      end
  end.

Definition buildAutomaton (patterns : list bytes) : result RedactError Filter :=
  f ← insert_patterns empty_filter patterns;
  nd ← at_index (nodes f) 0;
  '(f1, queue) ← queue_root_children (List.length (edges f)) f (firstEdge nd) [];
  link_loop (List.length (nodes f)) f1 queue.

(** ** [Filter.Bytes] *)

(** [l[:len(l)-n]] *)
Definition cut_tail {A} (n : nat) (l : list A) : result RedactError (list A) :=
  if (List.length l <? n)%nat then Err Panic else Ok (take (List.length l - n) l).

Fixpoint redact_loop (f : Filter) (res : bytes) (states : list nat) (state : nat) (input : bytes) : result RedactError bytes :=
  match input with
  | [] => Ok res
  | c :: rest =>
      state ← advance f state c;
      let res := res ++ [c] in
      let states := states ++ [state] in
      nd ← at_index (nodes f) state;
      if (matchLen nd =? 0)%nat then redact_loop f res states state rest
      else
        res ← cut_tail (matchLen nd) res;
        states ← cut_tail (matchLen nd) states;
        redact_loop f res states (default 0%nat (last states)) rest
  end.

(** A nil filter is [None]. *)
Definition Filter_Bytes (filter : option Filter) (input : bytes) : result RedactError bytes :=
  match filter with
  | None => Ok input
  | Some f => if (List.length (nodes f) =? 0)%nat then Ok input else redact_loop f [] [] 0 input
  end.

#[export] Instance result_fmap {E} : FMap (result E) := fun A B g r => match r with Ok a => Ok (g a) | Err e => Err e end.

Definition Filter_String (filter : option Filter) (input : string) : result RedactError string :=
  of_bytes <$> Filter_Bytes filter (to_bytes input).

(** [Filter.Fields]; a nil filter panics on [filter.replacement]. *)
Definition redact_field (f : Filter) (keys : list string) (key value : string) : result RedactError string :=
  if bool_decide (key ∈ keys) then Filter_String (Some f) (of_bytes (replacement f))
  else Filter_String (Some f) value.

Definition Filter_Fields (f : Filter) (input : gmap string string) (sensitiveKeys : list string) : result RedactError (gmap string string) :=
  foldr (fun kv (acc : result RedactError (gmap string string)) =>
           m ← acc; v ← redact_field f sensitiveKeys kv.1 kv.2; Ok (<[kv.1 := v]> m))
        (Ok ∅) (map_to_list input).

Definition Filter_Clear (filter : option Filter) : option Filter :=
  match filter with
  | None => None
  | Some _ => Some {| nodes := []; edges := []; root := replicate 256 (Some 0%nat); replacement := [] |}
  end.

(** ** [encodedVariants] and [New] *)

Definition json_text (v : bytes) : bytes :=
  let encoded := json_marshal_string v in take (List.length encoded - 2) (drop 1 encoded).

Definition encodedVariants (v : bytes) : list bytes :=
  let jsonText := json_text v in
  [v; query_escape v; path_escape v; base64_encode std_encoding v; base64_encode raw_std_encoding v;
   base64_encode url_encoding v; base64_encode raw_url_encoding v; jsonText]
  ++ (if existsb (Ascii.eqb "/") jsonText then [replace_byte "/" (to_bytes "\/") jsonText] else [])
  ++ [replace_byte "+" (to_bytes "%20") (query_escape v)].

Definition policy_valid (p : Policy) : bool :=
  negb ((MaximumValues p <=? 0) || (maximumAllowedValues <? MaximumValues p)
        || (MaximumValueBytes p <=? 0) || (maximumAllowedValueBytes <? MaximumValueBytes p)
        || (MaximumAggregateBytes p <=? 0) || (maximumAllowedAggregate <? MaximumAggregateBytes p)).

(** [sort.Slice]: longest first, then in byte order. *)
Fixpoint bytes_le (a b : bytes) : bool :=
  match a, b with
  | [], _ => true
  | _ :: _, [] => false
  | x :: a, y :: b => if b2z x =? b2z y then bytes_le a b else b2z x <? b2z y
  end.

Definition variant_le (a b : bytes) : bool :=
  if (List.length a =? List.length b)%nat then bytes_le a b else (List.length b <? List.length a)%nat.

Section New.
(** [sha256.Sum256] *)
Context (digest_of : bytes -> bytes).

(** [variants], [byDigest] and [aggregateBytes] of the loop. *)
Record Collected := {
  variants : list bytes;
  byDigest : gmap bytes (list nat);
  aggregateBytes : Z;
}.

Definition nothing_collected : Collected := {| variants := []; byDigest := ∅; aggregateBytes := 0 |}.

(** [for _, index := range byDigest[digest]] *)
Fixpoint has_duplicate (vs : list bytes) (bucket : list nat) (variant : bytes) : result RedactError bool :=
  match bucket with
  | [] => Ok false
  | i :: rest =>
      owned ← at_index vs i;
      if bool_decide (owned = variant) then Ok true else has_duplicate vs rest variant
  end.

Definition collect_variant (p : Policy) (s : Collected) (variant : bytes) : result RedactError Collected :=
  if (List.length variant =? 0)%nat then Ok s
  else
    let bucket := default [] (byDigest s !! digest_of variant) in
    duplicate ← has_duplicate (variants s) bucket variant;
    if (duplicate : bool) then Ok s
    else if MaximumAggregateBytes p <? aggregateBytes s + blen variant then Err ErrVariantsTooLarge
    else
      let vs := variants s ++ [variant] in
      Ok {| variants := vs;
            byDigest := <[digest_of variant := bucket ++ [(List.length vs - 1)%nat]]> (byDigest s);
            aggregateBytes := aggregateBytes s + blen variant |}.

Fixpoint collect_variants (p : Policy) (s : Collected) (encoded : list bytes) : result RedactError Collected :=
  match encoded with
  | [] => Ok s
  | v :: rest => s' ← collect_variant p s v; collect_variants p s' rest
  end.

Fixpoint collect_values (p : Policy) (s : Collected) (values : list bytes) : result RedactError Collected :=
  match values with
  | [] => Ok s
  | v :: rest =>
      if (List.length v =? 0)%nat then collect_values p s rest
      else if MaximumValueBytes p <? blen v then Err ErrValueTooLarge
      else s' ← collect_variants p s (encodedVariants v); collect_values p s' rest
  end.

Definition New (values : list bytes) (p : Policy) : result RedactError Filter :=
  _ ← reject_if (negb (policy_valid p)) ErrPolicy;
  _ ← reject_if (MaximumValues p <? blen values) ErrTooMany;
  s ← collect_values p nothing_collected values;
  f ← buildAutomaton (sort_by variant_le (variants s));
  Ok {| nodes := nodes f; edges := edges f; root := root f; replacement := replacement_text |}.
End New.
