(* ===== verification/RedactTrie.v ===== *)
(** The trie the automaton is built on: every node is labelled by the word that
    leads to it, [transition] computes on the labels, and the insertion of the
    patterns keeps the labelling. *)
From stdpp Require Import gmap.
From S2P Require Import Prelude.
From S2P Require Import GoText.
From S2P Require Import RedactFilter.

#[local] Open Scope Z_scope.

(** ** Words as labels *)

Definition index_of (ws : list bytes) (w : bytes) : option nat := fst <$> list_find (eq w) ws.

Lemma index_of_Some ws w j : NoDup ws -> index_of ws w = Some j <-> ws !! j = Some w.
Proof.
  intros Hd. unfold index_of. split.
  - destruct (list_find (eq w) ws) as [[i x]|] eqn:E; [|done]. cbn. intros [= ->].
    by apply list_find_Some in E as (? & <- & _).
  - intros H. destruct (list_find (eq w) ws) as [[i x]|] eqn:E.
    + apply list_find_Some in E as (Hi & <- & _). cbn. f_equal. by eapply NoDup_lookup.
    + exfalso. apply list_find_None in E. rewrite Forall_forall in E.
      eapply E; [|reflexivity]. eapply list_elem_of_lookup_2; eauto.
Qed.

Lemma index_of_None ws w : index_of ws w = None <-> w ∉ ws.
Proof.
  unfold index_of. rewrite fmap_None, list_find_None, Forall_forall. split; [|by intros H x Hx ->].
  intros H Hw. by apply (H w).
Qed.

Lemma index_of_app ws w x : w <> x -> index_of (ws ++ [x]) w = index_of ws w.
Proof.
  intros Hne. unfold index_of. destruct (list_find (eq w) ws) as [[i y]|] eqn:E.
  - by rewrite (list_find_app_l _ _ _ _ _ E).
  - rewrite list_find_app_r by done. cbn. by rewrite decide_False.
Qed.

Lemma index_of_app_new ws x : x ∉ ws -> index_of (ws ++ [x]) x = Some (List.length ws).
Proof.
  intros Hx. unfold index_of. rewrite list_find_app_r.
  - cbn. by rewrite decide_True by done.
  - by apply index_of_None in Hx; unfold index_of in Hx; apply fmap_None in Hx.
Qed.

(** ** The sibling chain of a node *)

Inductive chain (es : list automatonEdge) : option nat -> list (ascii * nat) -> Prop :=
| chain_nil : chain es None []
| chain_cons e ed l : es !! e = Some ed -> (forall e', sibling ed = Some e' -> (e' < e)%nat) ->
    chain es (sibling ed) l -> chain es (Some e) ((value ed, next ed) :: l).

Lemma chain_app es es' start l : chain es start l -> chain (es ++ es') start l.
Proof. induction 1; [constructor|]. apply chain_cons; [|done..]. by apply lookup_app_l_Some. Qed.

Lemma chain_length es start l e : chain es start l -> start = Some e -> (List.length l <= S e)%nat.
Proof.
  intros H. revert e. induction H as [|e ed l He Hs Hc IH]; intros e' E; [done|]. simplify_eq. cbn.
  destruct (sibling ed) as [s|] eqn:E.
  - specialize (Hs _ eq_refl). specialize (IH _ eq_refl). lia.
  - inversion Hc; subst. cbn. lia.
Qed.

Lemma chain_bound es start l : chain es start l -> (List.length l <= List.length es)%nat.
Proof.
  intros H. destruct start as [e|]; [|by inversion H; subst; cbn; lia].
  pose proof (chain_length _ _ _ _ H eq_refl). inversion H as [|? ? ? He]; subst. apply lookup_lt_Some in He. lia.
Qed.


(** Fuel for a walk along a chain: its length, hence the number of edges. *)
Lemma find_edge_chain fuel es start l c : chain es start l -> (List.length l <= fuel)%nat ->
  exists o, find_edge fuel es start c = Ok o /\
    match o with Some j => (c, j) ∈ l | None => forall j, (c, j) ∉ l end.
Proof.
  intros H. revert fuel. induction H as [|e ed l He Hs Hc IH]; intros fuel Hf.
  - exists None. split; [by destruct fuel|]. intros j Hj. by apply elem_of_nil in Hj.
  - cbn in Hf. destruct fuel as [|fuel]; [lia|]. cbn [find_edge]. unfold at_index. rewrite He. cbn.
    destruct (Ascii.eqb (value ed) c) eqn:E.
    + apply Ascii.eqb_eq in E as <-. exists (Some (next ed)). split; [done|]. by left.
    + destruct (IH fuel ltac:(lia)) as (o & -> & Ho). exists o. split; [done|].
      apply Ascii.eqb_neq in E. destruct o; [by right|].
      intros j [?|?]%elem_of_cons; [congruence|]. by apply (Ho j).
Qed.

(** ** Labelled tries *)

Record trie (f : Filter) (ws : list bytes) : Prop := {
  t_len : List.length ws = List.length (nodes f);
  t_root : ws !! 0%nat = Some [];
  t_nodup : NoDup ws;
  t_parent : forall j w c, ws !! j = Some (w ++ [c]) -> exists i, (i < j)%nat /\ ws !! i = Some w;
  t_table : List.length (root f) = 256%nat;
  t_first : forall c, root f !! byte_index c = Some (index_of ws [c]);
  t_chain : forall i nd w, nodes f !! i = Some nd -> ws !! i = Some w ->
    exists l, chain (edges f) (firstEdge nd) l /\ NoDup (snd <$> l) /\
      forall c j, (c, j) ∈ l <-> ws !! j = Some (w ++ [c]);
}.

Lemma byte_index_lt c : (byte_index c < 256)%nat.
Proof. unfold byte_index. pose proof (b2z_range c). lia. Qed.

Lemma byte_index_inj c d : byte_index c = byte_index d -> c = d.
Proof. unfold byte_index. intros H. apply b2z_inj. pose proof (b2z_range c). pose proof (b2z_range d). lia. Qed.

Section Trie.
Context (f : Filter) (ws : list bytes) (Ht : trie f ws).

Lemma trie_node i w : ws !! i = Some w -> exists nd, nodes f !! i = Some nd.
Proof using Ht.
  intros H%lookup_lt_Some. rewrite (t_len _ _ Ht) in H. by apply lookup_lt_is_Some in H.
Qed.

Lemma trie_label i nd : nodes f !! i = Some nd -> exists w, ws !! i = Some w.
Proof using Ht.
  intros H%lookup_lt_Some. rewrite <- (t_len _ _ Ht) in H. by apply lookup_lt_is_Some in H.
Qed.

Lemma trie_unique i j w : ws !! i = Some w -> ws !! j = Some w -> i = j.
Proof using Ht. intros. eapply NoDup_lookup; [apply Ht|done|done]. Qed.

Lemma trie_zero i : ws !! i = Some [] <-> i = 0%nat.
Proof using Ht.
  split; [|intros ->; apply Ht]. intros H. eapply trie_unique; [done|apply Ht].
Qed.

(** The label of a node is no longer than its index. *)
Lemma trie_depth i w : ws !! i = Some w -> (List.length w <= i)%nat.
Proof using Ht.
  revert i. induction w as [|c w IH] using rev_ind; intros i H; [cbn; lia|].
  apply (t_parent _ _ Ht) in H as (k & Hk & H). apply IH in H. rewrite length_app. cbn. lia.
Qed.

Lemma trie_depth_lt i w : ws !! i = Some w -> (List.length w < List.length (nodes f))%nat.
Proof using Ht.
  intros H. apply trie_depth in H as L. apply lookup_lt_Some in H. rewrite (t_len _ _ Ht) in H. lia.
Qed.

Lemma trie_prefix u v : u ++ v ∈ ws -> u ∈ ws.
Proof using Ht.
  induction v as [|c v IH] using rev_ind; [by rewrite app_nil_r|].
  intros [j H]%list_elem_of_lookup_1. rewrite app_assoc in H. apply (t_parent _ _ Ht) in H as (i & _ & H).
  apply IH. by eapply list_elem_of_lookup_2.
Qed.

Lemma trie_nil : [] ∈ ws.
Proof using Ht. eapply list_elem_of_lookup_2. apply Ht. Qed.

Lemma transition_spec i w c : ws !! i = Some w -> transition f i c = Ok (index_of ws (w ++ [c])).
Proof using Ht.
  intros Hi. unfold transition. destruct (i =? 0)%nat eqn:E.
  - apply Nat.eqb_eq in E as ->. rewrite (t_root _ _ Ht) in Hi. injection Hi as <-.
    unfold at_index. by rewrite (t_first _ _ Ht).
  - destruct (trie_node _ _ Hi) as [nd Hn]. unfold at_index. rewrite Hn. cbn.
    destruct (t_chain _ _ Ht _ _ _ Hn Hi) as (l & Hc & _ & Hl).
    destruct (find_edge_chain (List.length (edges f)) _ _ _ c Hc (chain_bound _ _ _ Hc)) as (o & -> & Ho).
    f_equal. symmetry. destruct o as [j|].
    + apply index_of_Some; [apply Ht|]. by apply Hl.
    + apply index_of_None. intros [j Hj]%list_elem_of_lookup_1. apply (Ho j). by apply Hl.
Qed.
End Trie.

(** ** Adding a node *)

Definition add_child (f : Filter) (i : nat) (nd : automatonNode) (c : ascii) : Filter :=
  {| nodes := <[i := set_firstEdge (List.length (edges f)) nd]> (nodes f ++ [empty_node]);
     edges := edges f ++ [Edge (List.length (nodes f)) (firstEdge nd) c];
     root := if (i =? 0)%nat then <[byte_index c := Some (List.length (nodes f))]> (root f) else root f;
     replacement := replacement f |}.

Lemma add_child_lookup f i nd c k : nodes f !! i = Some nd -> nodes (add_child f i nd c) !! k =
  if (k =? i)%nat then Some (set_firstEdge (List.length (edges f)) nd)
  else if (k =? List.length (nodes f))%nat then Some empty_node else nodes f !! k.
Proof.
  intros Hi%lookup_lt_Some. cbn. destruct (Nat.eqb_spec k i) as [->|Hne].
  - apply list_lookup_insert_eq. rewrite length_app. cbn. lia.
  - rewrite list_lookup_insert_ne by done. destruct (Nat.eqb_spec k (List.length (nodes f))) as [->|Hk].
    + by apply list_lookup_middle.
    + destruct (decide (k < List.length (nodes f))%nat) as [L|L]; [by apply lookup_app_l|].
      rewrite (lookup_ge_None_2 (nodes f)) by lia. apply lookup_ge_None_2. rewrite length_app. cbn. lia.
Qed.

Lemma lookup_snoc {A} (l : list A) x j y : (l ++ [x]) !! j = Some y <->
  l !! j = Some y \/ j = List.length l /\ x = y.
Proof.
  rewrite lookup_app_Some, list_lookup_singleton_Some. split.
  - intros [?|(? & ? & ->)]; [by left|right]. split; [lia|done].
  - intros [?|[-> ->]]; [by left|right]. split; [lia|]. split; [lia|done].
Qed.

Section Add.
Context (f : Filter) (ws : list bytes) (Ht : trie f ws).
Context (i : nat) (w : bytes) (nd : automatonNode) (c : ascii).
Context (Hw : ws !! i = Some w) (Hi : nodes f !! i = Some nd) (Hnew : w ++ [c] ∉ ws).

Lemma added_chain_self : exists l, chain (edges (add_child f i nd c)) (Some (List.length (edges f))) l /\
  NoDup (snd <$> l) /\ forall d j, (d, j) ∈ l <-> (ws ++ [w ++ [c]]) !! j = Some (w ++ [d]).
Proof using Ht Hw Hi Hnew.
  destruct (t_chain _ _ Ht _ _ _ Hi Hw) as (l & Hc & Hd & Hl).
  exists ((c, List.length (nodes f)) :: l). split_and!.
  - apply (chain_cons _ _ (Edge (List.length (nodes f)) (firstEdge nd) c)); cbn.
    + by apply list_lookup_middle.
    + intros e' E. inversion Hc as [|e ? ? He]; subst; [congruence|]. apply lookup_lt_Some in He. congruence.
    + by apply chain_app.
  - cbn. constructor; [|done]. intros ([d j] & E & Hj)%list_elem_of_fmap. cbn in E. subst j.
    apply Hl, lookup_lt_Some in Hj. rewrite (t_len _ _ Ht) in Hj. lia.
  - intros d j. rewrite elem_of_cons, lookup_snoc, Hl, (t_len _ _ Ht). split.
    + intros [[= -> ->]|H]; [by right|by left].
    + intros [H|[-> [= ->]%app_inv_head]]; [by right|by left].
Qed.

Lemma added_chain_other k u start l : ws !! k = Some u -> k <> i -> chain (edges f) start l ->
  (forall d j, (d, j) ∈ l <-> ws !! j = Some (u ++ [d])) ->
  chain (edges (add_child f i nd c)) start l /\
  forall d j, (d, j) ∈ l <-> (ws ++ [w ++ [c]]) !! j = Some (u ++ [d]).
Proof using Ht Hw Hnew.
  intros Hk Hne Hc Hl. split; [by apply chain_app|]. intros d j. rewrite lookup_snoc, Hl.
  split; [by left|]. intros [H|[_ E]]; [done|]. apply app_inj_tail in E as [-> _].
  destruct Hne. by eapply trie_unique.
Qed.

Lemma add_child_trie : trie (add_child f i nd c) (ws ++ [w ++ [c]]).
Proof using Ht Hw Hi Hnew.
  pose proof (t_len _ _ Ht) as Hlen. split.
  - cbn. rewrite length_insert, !length_app. cbn. lia.
  - apply lookup_app_l_Some, Ht.
  - apply NoDup_app. split_and!; [apply Ht| |apply NoDup_singleton].
    intros x Hx ->%list_elem_of_singleton. done.
  - intros j u d [H|[-> E]]%lookup_snoc.
    + destruct (t_parent _ _ Ht _ _ _ H) as (k & L & Hk). exists k. split; [done|]. by apply lookup_app_l_Some.
    + apply app_inj_tail in E as [-> ->]. exists i. split; [by eapply lookup_lt_Some|]. by apply lookup_app_l_Some.
  - cbn. destruct (i =? 0)%nat; [rewrite length_insert|]; apply Ht.
  - intros d. cbn. destruct (Nat.eqb_spec i 0) as [->|Hne].
    + rewrite (t_root _ _ Ht) in Hw. injection Hw as <-. cbn in *. destruct (decide (d = c)) as [->|Hd].
      * rewrite list_lookup_insert_eq by (rewrite (t_table _ _ Ht); apply byte_index_lt).
        by rewrite index_of_app_new, Hlen.
      * rewrite list_lookup_insert_ne by (by intros E%byte_index_inj). rewrite (t_first _ _ Ht), index_of_app; [done|congruence].
    + rewrite (t_first _ _ Ht), index_of_app; [done|]. intros E. destruct w as [|x w']; cbn in E.
      * by apply (trie_zero _ _ Ht) in Hw.
      * injection E as _ E. symmetry in E. by apply app_nil in E as [_ ?].
  - intros k nk u Hk Hu. rewrite add_child_lookup in Hk by done.
    destruct (Nat.eqb_spec k i) as [->|Hki]; [|destruct (Nat.eqb_spec k (List.length (nodes f))) as [->|Hkn]].
    + injection Hk as <-. apply lookup_snoc in Hu as [Hu|[-> _]].
      * assert (u = w) as -> by congruence. apply added_chain_self.
      * apply lookup_lt_Some in Hw. lia.
    + injection Hk as <-. apply lookup_snoc in Hu as [Hu|[_ <-]]; [apply lookup_lt_Some in Hu; lia|].
      exists []. split_and!; [constructor|constructor|]. intros d j. rewrite lookup_snoc. split; [by intros ?%not_elem_of_nil|].
      intros [H%list_elem_of_lookup_2|[_ E]].
      * by apply (trie_prefix _ _ Ht) in H.
      * symmetry in E. apply (f_equal (@List.length _)) in E. rewrite !length_app in E. cbn in E. lia.
    + apply lookup_snoc in Hu as [Hu|[-> _]]; [|congruence].
      destruct (t_chain _ _ Ht _ _ _ Hk Hu) as (l & Hc & Hd & Hl).
      destruct (added_chain_other _ _ _ _ Hu Hki Hc Hl) as [G1 G2]. by exists l.
Qed.
End Add.

(** Insertion of the patterns: [insert_patterns] yields a labelled trie whose
    words are the prefixes of the patterns and whose marked nodes are the
    patterns; it fails only past [maximumAutomatonStates]. *)

(** A change of the failure links and match lengths. *)
Record same_shape (f f' : Filter) : Prop := {
  ss_nodes : firstEdge <$> nodes f' = firstEdge <$> nodes f;
  ss_edges : edges f' = edges f;
  ss_root : root f' = root f;
}.

#[export] Instance same_shape_preorder : PreOrder same_shape.
Proof.
  split; [by split|]. intros f g h [A1 A2 A3] [B1 B2 B3]. split; congruence.
Qed.

Lemma same_shape_trie f f' ws : same_shape f f' -> trie f ws -> trie f' ws.
Proof.
  intros [N E R] []. split; rewrite ?R, ?E; try done.
  - by rewrite <- (length_fmap firstEdge (nodes f')), N, length_fmap.
  - intros i nd w Hi. apply (f_equal (fun l => l !! i)) in N. rewrite !list_lookup_fmap, Hi in N.
    destruct (nodes f !! i) as [nd0|] eqn:E0; [|done]. cbn in N. injection N as N. rewrite N. eauto.
Qed.

Lemma same_shape_length f f' : same_shape f f' -> List.length (nodes f') = List.length (nodes f).
Proof. intros [N _ _]. by rewrite <- (length_fmap firstEdge (nodes f')), N, length_fmap. Qed.

Lemma update_node_spec f i g nd : nodes f !! i = Some nd -> (forall n, firstEdge (g n) = firstEdge n) ->
  exists f', update_node i g f = Ok f' /\ same_shape f f' /\ nodes f' = <[i := g nd]> (nodes f).
Proof.
  intros Hi Hg. unfold update_node, at_index. rewrite Hi. cbn. eexists. split; [done|]. split; [|done].
  split; [|done..]. cbn. rewrite list_fmap_insert. apply list_insert_id. by rewrite list_lookup_fmap, Hi, Hg.
Qed.

(** ** The state while patterns are inserted *)

Record inserted (ps : list bytes) (budget : nat) (f : Filter) (ws : list bytes) : Prop := {
  i_trie : trie f ws;
  i_edges : S (List.length (edges f)) = List.length (nodes f);
  i_marks : forall i nd w, nodes f !! i = Some nd -> ws !! i = Some w ->
    failure nd = 0%nat /\ matchLen nd = if bool_decide (w ∈ ps) then List.length w else 0%nat;
  i_patterns : forall p, p ∈ ps -> p ∈ ws;
  i_size : (List.length ws <= S budget)%nat;
}.

Lemma inserted_nothing : inserted [] 0 empty_filter [[]].
Proof.
  split; [|done| | |cbn; lia].
  - split; try done.
    + apply NoDup_singleton.
    + intros j w c H. destruct j as [|[|]]; cbn in H; [|done..]. injection H as H. by destruct w.
    + intros c. cbn [root empty_filter]. rewrite lookup_replicate_2 by apply byte_index_lt. done.
    + intros i nd w Hi Hw. destruct i as [|[|]]; cbn in Hi, Hw; [|done..]. simplify_eq. exists [].
      split_and!; [constructor|constructor|]. intros c j. split; [by intros ?%not_elem_of_nil|].
      destruct j as [|[|]]; done.
  - intros i nd w Hi Hw. destruct i as [|[|]]; cbn in Hi, Hw; [|done..]. simplify_eq. split; [done|]. by case_bool_decide.
  - by intros p ?%not_elem_of_nil.
Qed.

Definition overflows (budget : nat) : Prop := maximumAutomatonStates <= Z.of_nat (S budget).

Lemma insert_byte_spec ps n f ws i w c : inserted ps n f ws -> ws !! i = Some w ->
  (exists f' ws' j, insert_byte f i c = Ok (f', j) /\ inserted ps (S n) f' ws' /\ ws' !! j = Some (w ++ [c])) \/
  (insert_byte f i c = Err ErrAutomatonTooLarge /\ overflows n).
Proof.
  intros [Ht He Hm Hp Hs] Hw. unfold insert_byte. rewrite (transition_spec _ _ Ht _ _ _ Hw). cbn [mbind result_bind].
  destruct (index_of ws (w ++ [c])) as [j|] eqn:Ej.
  - left. apply index_of_Some in Ej; [|apply Ht]. exists f, ws, j. split; [done|]. split; [|done]. split; [done..|lia].
  - apply index_of_None in Ej. pose proof (t_len _ _ Ht) as Hl.
    destruct ((_ <=? _) || _) eqn:Eo.
    + right. split; [done|]. unfold overflows, blen in *. apply orb_true_iff in Eo as [Eo|Eo]; apply Z.leb_le in Eo; lia.
    + left. destruct (trie_node _ _ Ht _ _ Hw) as [nd Hi]. unfold at_index at 1.
      rewrite (lookup_app_l_Some _ _ _ _ Hi). cbn [mbind result_bind].
      exists (add_child f i nd c), (ws ++ [w ++ [c]]), (List.length (nodes f)). split_and!.
      * unfold add_child. rewrite length_app. cbn [List.length]. by rewrite Nat.add_sub.
      * pose proof (add_child_trie f ws Ht i w nd c Hw Hi Ej) as Ht'. split; [done| | | |].
        -- rewrite <- (t_len _ _ Ht'). cbn. rewrite !length_app. cbn. lia.
        -- intros k nk u Hk Hu. rewrite add_child_lookup in Hk by done.
           destruct (Nat.eqb_spec k i) as [->|Hki]; [|destruct (Nat.eqb_spec k (List.length (nodes f))) as [->|Hkn]].
           ++ injection Hk as <-. cbn. apply (Hm i); [done|]. rewrite (lookup_app_l_Some _ _ _ _ Hw) in Hu. congruence.
           ++ injection Hk as <-. apply lookup_snoc in Hu as [Hu|[_ <-]]; [apply lookup_lt_Some in Hu; lia|].
              split; [done|]. case_bool_decide as Hin; [by apply Hp in Hin|done].
           ++ apply (Hm k); [done|]. apply lookup_snoc in Hu as [Hu|[-> _]]; [done|congruence].
        -- intros p H. apply elem_of_app. left. by apply Hp.
        -- rewrite length_app. cbn. lia.
      * rewrite <- Hl. by apply list_lookup_middle.
Qed.

Lemma insert_bytes_spec ps n f ws i w p : inserted ps n f ws -> ws !! i = Some w ->
  (exists f' ws' j, insert_bytes f i p = Ok (f', j) /\ inserted ps (n + List.length p) f' ws' /\ ws' !! j = Some (w ++ p)) \/
  (insert_bytes f i p = Err ErrAutomatonTooLarge /\ overflows (n + List.length p)).
Proof.
  revert n f ws i w. induction p as [|c p IH]; intros n f ws i w Hin Hw; cbn [insert_bytes List.length].
  - left. exists f, ws, i. rewrite app_nil_r, Nat.add_0_r. done.
  - destruct (insert_byte_spec _ _ _ _ _ _ c Hin Hw) as [(f1 & ws1 & j & -> & H1 & Hj)|[-> Ho]]; cbn [mbind result_bind].
    + destruct (IH _ _ _ _ _ H1 Hj) as [(f2 & ws2 & k & -> & H2 & Hk)|[-> Ho]].
      * left. exists f2, ws2, k. rewrite <- app_assoc in Hk. replace (n + S (List.length p))%nat with (S n + List.length p)%nat by lia. done.
      * right. split; [done|]. clear - Ho. unfold overflows in *. lia.
    + right. split; [done|]. clear - Ho. unfold overflows in *. lia.
Qed.

Lemma insert_pattern_spec ps n f ws p : inserted ps n f ws ->
  (exists f' ws', insert_pattern f p = Ok f' /\ inserted (ps ++ [p]) (n + List.length p) f' ws') \/
  (insert_pattern f p = Err ErrAutomatonTooLarge /\ overflows (n + List.length p)).
Proof.
  intros Hin. unfold insert_pattern.
  destruct (insert_bytes_spec ps n f ws 0 [] p Hin) as [(f1 & ws1 & j & -> & H1 & Hj)|[-> Ho]];
    [apply Hin| |by right]. cbn [mbind result_bind app] in *. left.
  destruct H1 as [Ht He Hm Hp Hs]. destruct (trie_node _ _ Ht _ _ Hj) as [nd Hn].
  destruct (Hm _ _ _ Hn Hj) as [Hf Hmark]. unfold at_index at 1. rewrite Hn. cbn [mbind result_bind].
  destruct (_ <? _)%nat eqn:El.
  - destruct (update_node_spec f1 j (set_matchLen (List.length p)) nd Hn) as (f2 & -> & Hss & Hn2); [done|].
    exists f2, ws1. split; [done|]. split; [by eapply same_shape_trie| | | |done].
    + rewrite (same_shape_length _ _ Hss). by destruct Hss as [_ -> _].
    + intros i ni w Hi Hw. rewrite Hn2 in Hi. destruct (decide (i = j)) as [->|Hne].
      * rewrite list_lookup_insert_eq in Hi by (by eapply lookup_lt_Some). injection Hi as <-. cbn.
        assert (w = p) as -> by congruence. by rewrite bool_decide_eq_true_2 by set_solver.
      * rewrite list_lookup_insert_ne in Hi by done. destruct (Hm _ _ _ Hi Hw) as [? ->]. split; [done|].
        assert (w <> p) by (intros ->; apply Hne; by eapply trie_unique). by rewrite (bool_decide_ext (w ∈ ps ++ [p]) (w ∈ ps)) by set_solver.
    + intros q [?| ->%list_elem_of_singleton]%elem_of_app; [by apply Hp|by eapply list_elem_of_lookup_2].
  - apply Nat.ltb_ge in El. exists f1, ws1. split; [done|]. split; [done|done| | |done].
    + intros i ni w Hi Hw. destruct (Hm _ _ _ Hi Hw) as [? ->]. split; [done|].
      destruct (decide (w = p)) as [->|Hne]; [|by rewrite (bool_decide_ext (w ∈ ps ++ [p]) (w ∈ ps)) by set_solver].
      rewrite (bool_decide_eq_true_2 (p ∈ ps ++ [p])) by set_solver. case_bool_decide as Hps; [done|].
      lia.
    + intros q [?| ->%list_elem_of_singleton]%elem_of_app; [by apply Hp|by eapply list_elem_of_lookup_2].
Qed.

Definition total_length (ps : list bytes) : nat := sum_list (List.length <$> ps).

Lemma total_length_cons q qs : total_length (q :: qs) = (List.length q + total_length qs)%nat.
Proof. done. Qed.

Lemma insert_patterns_spec ps qs n f ws : inserted ps n f ws ->
  (exists f' ws', insert_patterns f qs = Ok f' /\ inserted (ps ++ qs) (n + total_length qs) f' ws') \/
  (insert_patterns f qs = Err ErrAutomatonTooLarge /\ overflows (n + total_length qs)).
Proof.
  revert ps n f ws. induction qs as [|q qs IH]; intros ps n f ws Hin; cbn [insert_patterns].
  - left. exists f, ws. rewrite app_nil_r, Nat.add_0_r. done.
  - rewrite total_length_cons.
    destruct (insert_pattern_spec _ _ _ _ q Hin) as [(f1 & ws1 & -> & H1)|[-> Ho]]; cbn [mbind result_bind].
    + replace (n + (List.length q + total_length qs))%nat with (n + List.length q + total_length qs)%nat by lia.
      destruct (IH _ _ _ _ H1) as [(f2 & ws2 & -> & H2)|[-> Ho]]; [|by right]. left. exists f2, ws2. by rewrite <- app_assoc in H2.
    + right. split; [done|]. clear - Ho. unfold overflows in *. lia.
Qed.

(** The breadth-first construction of the failure links: every node ends with
    the link to its longest proper suffix and the length of the longest pattern
    its word ends with. *)

Lemma at_index_ok {A} (l : list A) i a : l !! i = Some a -> at_index l i = Ok a.
Proof. unfold at_index. by intros ->. Qed.

Section Links.
Context (ps ws : list bytes).

Definition word (w : bytes) : Prop := w ∈ ws.

(** A node whose match length and failure link are final. *)
Definition settled (f : Filter) (i : nat) : Prop :=
  forall nd w, nodes f !! i = Some nd -> ws !! i = Some w ->
    matchLen nd = match_length ps w /\
    (w <> [] -> exists s, longest_proper word w s /\ ws !! failure nd = Some s).

(** A node as the insertion left it. *)
Definition raw (f : Filter) (i : nat) : Prop :=
  forall nd w, nodes f !! i = Some nd -> ws !! i = Some w ->
    failure nd = 0%nat /\ matchLen nd = if bool_decide (w ∈ ps) then List.length w else 0%nat.

(** All words up to length [n] are settled. *)
Definition settled_upto (f : Filter) (n : nat) : Prop :=
  forall k u, ws !! k = Some u -> (List.length u <= n)%nat -> settled f k.

Lemma settled_ext f f' i : nodes f' !! i = nodes f !! i -> settled f i -> settled f' i.
Proof. unfold settled. by intros ->. Qed.

Lemma raw_ext f f' i : nodes f' !! i = nodes f !! i -> raw f i -> raw f' i.
Proof. unfold raw. by intros ->. Qed.

Lemma match_length_nil : match_length ps [] = 0%nat.
Proof. pose proof (match_length_le ps []) as H. cbn in H. lia. Qed.

(** ** Following the failure links *)

Lemma advance_failure fuel f i c :
  advance_loop fuel f i c = (t ← failure_loop fuel f i c; o ← transition f t c; Ok (default 0%nat o)).
Proof.
  revert i. induction fuel as [|fuel IH]; intros i; [done|]. cbn [advance_loop failure_loop].
  destruct (Nat.eqb_spec i 0) as [->|Hi].
  - cbn [mbind result_bind]. by destruct (transition f 0 c) as [[|]|].
  - destruct (transition f i c) as [[n|]|e] eqn:E; cbn [mbind result_bind].
    + by rewrite E.
    + destruct (at_index (nodes f) i) as [nd|]; [|done]. apply IH.
    + done.
Qed.

Section Follow.
Context (f : Filter) (Ht : trie f ws) (Hps : forall p, p ∈ ps -> p ∈ ws).

Lemma word_prefix u v : word (u ++ v) -> word u.
Proof using Ht. by eapply trie_prefix. Qed.

Lemma word_nil : word [].
Proof using Ht. by eapply trie_nil. Qed.

Lemma failure_loop_spec fuel i w c : ws !! i = Some w -> (List.length w < fuel)%nat -> settled_upto f (List.length w) ->
  exists t wt, failure_loop fuel f i c = Ok t /\ ws !! t = Some wt /\ (List.length wt <= List.length w)%nat /\
    longest word (w ++ [c]) (if index_of ws (wt ++ [c]) then wt ++ [c] else []).
Proof using Ht.
  revert i w. induction fuel as [|fuel IH]; intros i w Hi Hf Hs; [lia|]. cbn [failure_loop].
  destruct (Nat.eqb_spec i 0) as [->|Hne].
  - exists 0%nat, []. rewrite (t_root _ _ Ht) in Hi. injection Hi as <-. split_and!; [done|apply Ht|done|].
    destruct (index_of ws ([] ++ [c])) as [j|] eqn:E.
    + apply index_of_Some in E; [|apply Ht]. apply longest_self. by eapply list_elem_of_lookup_2.
    + apply index_of_None in E. by apply longest_nil_of; [apply word_nil|..].
  - rewrite (transition_spec _ _ Ht _ _ _ Hi). cbn [mbind result_bind].
    destruct (index_of ws (w ++ [c])) as [j|] eqn:E.
    + exists i, w. rewrite E. apply index_of_Some in E; [|apply Ht]. split_and!; [done..|].
      apply longest_self. by eapply list_elem_of_lookup_2.
    + destruct (trie_node _ _ Ht _ _ Hi) as [nd Hn]. rewrite (at_index_ok _ _ _ Hn). cbn [mbind result_bind].
      assert (w <> []) as Hw by (intros ->; by apply Hne, (trie_zero _ _ Ht)).
      destruct (Hs i w Hi ltac:(lia) nd w Hn Hi) as [_ (s & Hlp & Hfs)]; [done|].
      pose proof (longest_proper_length _ _ _ Hlp) as Ls.
      destruct (IH (failure nd) s Hfs) as (t & wt & -> & Hwt & Lt & Hl); [lia| |].
      * intros k u Hk Lu. apply (Hs k u Hk). lia.
      * exists t, wt. split_and!; [done..|lia|]. apply index_of_None in E.
        eapply longest_fallback; [apply word_prefix|done|done|done].
Qed.

(** ** One child *)

Lemma link_child_spec p w c ch : ws !! p = Some w -> w <> [] -> ws !! ch = Some (w ++ [c]) ->
  settled_upto f (List.length w) -> raw f ch ->
  exists f', link_child f p c ch = Ok f' /\ same_shape f f' /\
    (forall k, k <> ch -> nodes f' !! k = nodes f !! k) /\ settled f' ch.
Proof using Ht Hps.
  intros Hp Hw Hc Hs Hr. unfold link_child.
  destruct (trie_node _ _ Ht _ _ Hp) as [pn Hpn]. rewrite (at_index_ok _ _ _ Hpn). cbn [mbind result_bind].
  destruct (Hs p w Hp ltac:(lia) pn w Hpn Hp) as [_ (s & Hlp & Hfs)]; [done|].
  pose proof (longest_proper_length _ _ _ Hlp) as Ls.
  destruct (failure_loop_spec (List.length (nodes f)) _ s c Hfs) as (t & wt & -> & Hwt & Lt & Hl).
  { by eapply trie_depth_lt. } { intros k u Hk Lu. apply (Hs k u Hk). lia. }
  cbn [mbind result_bind]. rewrite (transition_spec _ _ Ht _ _ _ Hwt). cbn [mbind result_bind].
  destruct (trie_node _ _ Ht _ _ Hc) as [cn Hcn]. destruct (Hr _ _ Hcn Hc) as [Hf0 Hm0].
  set (x := if index_of ws (wt ++ [c]) then wt ++ [c] else []) in *.
  assert (Hlx : longest_proper word (w ++ [c]) x) by (eapply longest_proper_snoc; [apply word_prefix|done|done]).
  assert (Hf1 : exists f1 n, (match index_of ws (wt ++ [c]) with
       | Some n => if (n =? ch)%nat then Ok f else update_node ch (set_failure n) f
       | None => Ok f end) = Ok f1 /\ same_shape f f1 /\ ws !! n = Some x /\ n <> ch /\
       nodes f1 = <[ch := set_failure n cn]> (nodes f)).
  { assert (Lx : forall n, ws !! n = Some x -> n <> ch).
    { intros n Hn ->. pose proof (longest_proper_length _ _ _ Hlx). replace x with (w ++ [c]) in * by congruence. lia. }
    unfold x in *. destruct (index_of ws (wt ++ [c])) as [n|] eqn:E.
    - apply index_of_Some in E; [|apply Ht]. pose proof (Lx _ E) as Hne. rewrite (proj2 (Nat.eqb_neq n ch) Hne).
      destruct (update_node_spec f ch (set_failure n) cn Hcn) as (f1 & E1 & H1 & H2); [done|]. by exists f1, n.
    - exists f, 0%nat. split_and!; [done..|apply Ht|apply Lx, Ht|]. symmetry. apply list_insert_id.
      rewrite Hcn. destruct cn. cbn in *. by subst. }
  destruct Hf1 as (f1 & n & -> & Hss & Hnx & Hne & Hn1). cbn [mbind result_bind].
  assert (Hlch : (ch < List.length (nodes f))%nat) by (by eapply lookup_lt_Some).
  rewrite (at_index_ok _ ch (set_failure n cn)) by by rewrite Hn1, list_lookup_insert_eq.
  cbn [mbind result_bind set_failure failure matchLen]. destruct (trie_node _ _ Ht _ _ Hnx) as [fn Hfn].
  rewrite (at_index_ok _ n fn) by by rewrite Hn1, list_lookup_insert_ne. cbn [mbind result_bind].
  pose proof (longest_proper_length _ _ _ Hlx) as Lx. rewrite length_app in Lx. cbn in Lx.
  destruct (Hs n x Hnx ltac:(lia) fn x Hfn Hnx) as [Hmx _].
  pose proof (match_length_le ps x) as Mx.
  assert (Hml : match_length ps (w ++ [c]) = Nat.max (matchLen cn) (matchLen fn)).
  { rewrite (match_length_fallback ps word _ x) by done.
    rewrite Hm0, Hmx. case_bool_decide; rewrite ?length_app; cbn; lia. }
  assert (Hend : forall f' m, nodes f' !! ch = Some (Node (firstEdge cn) n m) -> m = match_length ps (w ++ [c]) -> settled f' ch).
  { intros f' m Hf' -> nd u Hnd Hu. assert (u = w ++ [c]) as -> by congruence. rewrite Hnd in Hf'. injection Hf' as ->.
    split; [done|]. intros _. by exists x. }
  assert (Hc1 : nodes f1 !! ch = Some (set_failure n cn)) by by rewrite Hn1, list_lookup_insert_eq.
  assert (Ho1 : forall k, k <> ch -> nodes f1 !! k = nodes f !! k) by (intros k Hk; by rewrite Hn1, list_lookup_insert_ne).
  destruct (Nat.ltb_spec (matchLen cn) (matchLen fn)) as [L|L].
  - destruct (update_node_spec f1 ch (set_matchLen (matchLen fn)) _ Hc1) as (f2 & -> & H1 & H2); [done|].
    exists f2. split_and!; [done|by etransitivity| |].
    + intros k Hk. rewrite H2, list_lookup_insert_ne by done. by apply Ho1.
    + apply (Hend f2 (matchLen fn)); [|lia]. rewrite H2, list_lookup_insert_eq; [done|by eapply lookup_lt_Some].
  - exists f1. split_and!; [done..|]. apply (Hend f1 (matchLen cn)); [done|lia].
Qed.
End Follow.

(** ** The children of a node *)

(** The queue grows by the children, which become settled; nothing else changes. *)
Definition linked (f f' : Filter) (l : list (ascii * nat)) : Prop :=
  same_shape f f' /\ (forall k, k ∉ snd <$> l -> nodes f' !! k = nodes f !! k) /\ (forall k, k ∈ snd <$> l -> settled f' k).

Lemma linked_cons f f1 f2 c j l : same_shape f f1 -> (forall k, k <> j -> nodes f1 !! k = nodes f !! k) -> settled f1 j ->
  j ∉ snd <$> l -> linked f1 f2 l -> linked f f2 ((c, j) :: l).
Proof.
  intros H1 H2 H3 Hj (L1 & L2 & L3). split_and!; [by etransitivity| |].
  - intros k Hk. cbn in Hk. rewrite L2, H2; set_solver.
  - intros k Hk. cbn in Hk. apply elem_of_cons in Hk as [->|Hk]; [|by apply L3].
    eapply settled_ext; [by apply L2|done].
Qed.

Lemma link_children_spec fuel f p w edge l queue : trie f ws -> (forall q, q ∈ ps -> q ∈ ws) ->
  ws !! p = Some w -> w <> [] -> chain (edges f) edge l -> (List.length l <= fuel)%nat -> NoDup (snd <$> l) ->
  (forall c j, (c, j) ∈ l -> ws !! j = Some (w ++ [c]) /\ raw f j) -> settled_upto f (List.length w) ->
  exists f', link_children fuel f p edge queue = Ok (f', queue ++ (snd <$> l)) /\ linked f f' l.
Proof.
  intros Ht Hps Hp Hw Hch. remember (edges f) as es eqn:Ees.
  revert fuel f queue Ht Ees. induction Hch as [|e ed l He _ Hc IH]; intros fuel f queue Ht Ees Hf Hd Hl Hs.
  - exists f. rewrite app_nil_r. split; [by destruct fuel|]. split_and!; [done..|]. by intros k ?%not_elem_of_nil.
  - cbn in Hf. destruct fuel as [|fuel]; [lia|]. cbn [link_children]. rewrite <- Ees, (at_index_ok _ _ _ He). cbn [mbind result_bind].
    apply NoDup_cons in Hd as [Hj Hd]. destruct (Hl (value ed) (next ed)) as [Hwj Hrj]; [by left|].
    destruct (link_child_spec f Ht Hps p w (value ed) (next ed)) as (f1 & -> & Hss & Ho & Hset); [done..|]. cbn [mbind result_bind].
    assert (Hlong : forall k u, ws !! k = Some u -> (List.length u <= List.length w)%nat -> k <> next ed).
    { intros k u Hk Lu ->. assert (u = w ++ [value ed]) as -> by congruence. rewrite length_app in Lu. cbn in Lu. lia. }
    destruct (IH fuel f1 (queue ++ [next ed])) as (f2 & -> & Hf2).
    + by eapply same_shape_trie.
    + rewrite Ees. symmetry. apply Hss.
    + lia.
    + done.
    + intros c j Hcj. destruct (Hl c j) as [? ?]; [by right|]. split; [done|]. eapply raw_ext; [|done]. apply Ho.
      intros ->. apply Hj. apply list_elem_of_fmap. by exists (c, next ed).
    + intros k u Hk Lu. eapply settled_ext; [|by eapply Hs]. apply Ho. by eapply Hlong.
    + exists f2. rewrite <- app_assoc. split; [done|]. by eapply linked_cons.
Qed.

Lemma queue_root_children_spec fuel f edge l queue : trie f ws -> (forall q, q ∈ ps -> q ∈ ws) ->
  chain (edges f) edge l -> (List.length l <= fuel)%nat -> NoDup (snd <$> l) ->
  (forall c j, (c, j) ∈ l -> ws !! j = Some [c] /\ raw f j) ->
  exists f', queue_root_children fuel f edge queue = Ok (f', queue ++ (snd <$> l)) /\ linked f f' l.
Proof.
  intros Ht Hps Hch. remember (edges f) as es eqn:Ees.
  revert fuel f queue Ht Ees. induction Hch as [|e ed l He _ Hc IH]; intros fuel f queue Ht Ees Hf Hd Hl.
  - exists f. rewrite app_nil_r. split; [by destruct fuel|]. split_and!; [done..|]. by intros k ?%not_elem_of_nil.
  - cbn in Hf. destruct fuel as [|fuel]; [lia|]. cbn [queue_root_children]. rewrite <- Ees, (at_index_ok _ _ _ He). cbn [mbind result_bind].
    apply NoDup_cons in Hd as [Hj Hd]. destruct (Hl (value ed) (next ed)) as [Hwj Hrj]; [by left|].
    destruct (trie_node _ _ Ht _ _ Hwj) as [nd Hn]. destruct (Hrj _ _ Hn Hwj) as [Hf0 Hm0].
    destruct (update_node_spec f (next ed) (set_failure 0) nd Hn) as (f1 & -> & Hss & Hn1); [done|]. cbn [mbind result_bind].
    assert (Ho : forall k, k <> next ed -> nodes f1 !! k = nodes f !! k) by (intros k Hk; by rewrite Hn1, list_lookup_insert_ne).
    destruct (IH fuel f1 (queue ++ [next ed])) as (f2 & -> & Hf2).
    + by eapply same_shape_trie.
    + rewrite Ees. symmetry. apply Hss.
    + lia.
    + done.
    + intros c j Hcj. destruct (Hl c j) as [? ?]; [by right|]. split; [done|]. eapply raw_ext; [|done]. apply Ho.
      intros ->. apply Hj. apply list_elem_of_fmap. by exists (c, next ed).
    + exists f2. rewrite <- app_assoc. split; [done|]. eapply linked_cons; [done|done| |done|done].
      intros n u Hu Hwu. assert (u = [value ed]) as -> by congruence.
      rewrite Hn1, list_lookup_insert_eq in Hu by (by eapply lookup_lt_Some). injection Hu as <-. cbn.
      assert (Hlp : longest_proper word [value ed] []) by (apply longest_proper_single; by eapply word_nil).
      rewrite Hm0, (match_length_fallback ps word _ _ Hps Hlp), match_length_nil.
      split; [done|]. intros _. exists []. split; [done|apply Ht].
Qed.

(** ** The queue *)

(** [D] are the nodes taken from the queue, [Q] those in it. *)
Record bfs (f : Filter) (D Q : list nat) : Prop := {
  b_trie : trie f ws;
  b_settled : forall k, k = 0%nat \/ k ∈ D ++ Q -> settled f k;
  b_raw : forall k, k <> 0%nat -> k ∉ D ++ Q -> raw f k;
  b_closed : forall i j w c, ws !! i = Some w -> ws !! j = Some (w ++ [c]) -> j ∈ D ++ Q <-> i = 0%nat \/ i ∈ D;
  b_words : forall k, k ∈ D ++ Q -> exists w c, ws !! k = Some (w ++ [c]);
  b_nodup : NoDup (D ++ Q);
  b_levels : exists A B L, Q = A ++ B /\
    (forall k w, k ∈ A -> ws !! k = Some w -> List.length w = L) /\
    (forall k w, k ∈ B -> ws !! k = Some w -> List.length w = S L) /\
    (forall k w, ws !! k = Some w -> (List.length w <= L)%nat -> k = 0%nat \/ k ∈ D ++ Q);
}.

(** The first level of a nonempty queue can be taken nonempty. *)
Lemma b_first f D p Q : bfs f D (p :: Q) -> exists A B L,
  Q = A ++ B /\ (forall k w, k ∈ p :: A -> ws !! k = Some w -> List.length w = L) /\
  (forall k w, k ∈ B -> ws !! k = Some w -> List.length w = S L) /\
  (forall k w, ws !! k = Some w -> (List.length w <= L)%nat -> k = 0%nat \/ k ∈ D ++ p :: Q).
Proof.
  intros Hb. destruct (b_levels _ _ _ Hb) as (A & B & L & E & HA & HB & HL).
  destruct A as [|a A]; cbn in E.
  - exists Q, [], (S L). subst B. split_and!; [by rewrite app_nil_r|done| |].
    + by intros k w ?%not_elem_of_nil.
    + intros k w Hk Lw. destruct (decide (List.length w <= L)%nat) as [?|Hgt]; [by eapply HL|].
      destruct w as [|c w _] using rev_ind; [cbn in Hgt; lia|]. rewrite length_app in Lw, Hgt. cbn in Lw, Hgt.
      destruct (t_parent _ _ (b_trie _ _ _ Hb) _ _ _ Hk) as (i & _ & Hi). right.
      apply (b_closed _ _ _ Hb i k w c Hi Hk).
      destruct (HL i w Hi) as [?|[?|Hq]%elem_of_app]; [lia|by left|by right|].
      specialize (HB i w Hq Hi). lia.
  - injection E as <- ->. by exists A, B, L.
Qed.

(** The queue the root's children start. *)
Lemma bfs_start f f1 l : trie f ws -> (forall k, raw f k) -> (forall c j, (c, j) ∈ l <-> ws !! j = Some [c]) ->
  NoDup (snd <$> l) -> linked f f1 l -> bfs f1 [] (snd <$> l).
Proof.
  intros Ht Hm Hl Hd Hlk.
  destruct Hlk as (Hss & Hold & Hset). pose proof (same_shape_trie _ _ _ Hss Ht) as Ht1.
  assert (Hin : forall k, k ∈ snd <$> l <-> exists c, ws !! k = Some [c]).
  { intros k. rewrite list_elem_of_fmap. split.
    - intros ([c j] & -> & Hj%Hl). by exists c.
    - intros [c Hk]. exists (c, k). split; [done|by apply Hl]. }
  pose proof (t_root _ _ Ht) as H0.
  assert (Hz : 0%nat ∉ snd <$> l) by (intros [c Hc]%Hin; congruence).
  split; cbn [app].
  - done.
  - intros k [->|Hk]; [|by apply Hset]. intros n w Hnw Hw. rewrite (Hold _ Hz) in Hnw.
    destruct (Hm _ _ _ Hnw Hw) as [_ ->]. assert (w = []) as -> by congruence. rewrite match_length_nil. split; [|done].
    by case_bool_decide.
  - intros k _ Hk. eapply raw_ext; [by apply Hold|]. apply Hm.
  - intros i j w c Hi Hj. rewrite Hin. split.
    + intros [d Hd']. left. rewrite Hj in Hd'. injection Hd' as Hd'. apply (trie_zero _ _ Ht). rewrite Hi.
      destruct w as [|x w]; [done|]. injection Hd' as _ Hd'. by apply app_nil in Hd' as [_ ?].
    + intros [->|Hx]; [|by apply not_elem_of_nil in Hx]. assert (w = []) as -> by congruence. by exists c.
  - intros k [c Hk]%Hin. by exists [], c.
  - done.
  - exists (snd <$> l), [], 1%nat. split_and!.
    + by rewrite app_nil_r.
    + intros k w [c Hk]%Hin Hw. by assert (w = [c]) as -> by congruence.
    + by intros k w ?%not_elem_of_nil.
    + intros k w Hw Lw. destruct w as [|c [|]]; cbn in Lw; [|right|lia].
      * left. by apply (trie_zero _ _ Ht).
      * apply Hin. by exists c.
Qed.

(** A nonempty queue: everything up to the first word's length is settled. *)
Lemma b_below f D p Q w : bfs f D (p :: Q) -> ws !! p = Some w -> settled_upto f (List.length w).
Proof.
  intros Hb Hp k u Hk Lu. destruct (b_first _ _ _ _ Hb) as (A & B & L & -> & HA & HB & HL).
  apply (b_settled _ _ _ Hb). rewrite (HA p w) in Lu; [|by left|done]. by eapply HL.
Qed.

(** Taking [p] from the queue and adding its children. *)
Lemma bfs_push f f' D p Q w l : bfs f D (p :: Q) -> linked f f' l -> ws !! p = Some w -> NoDup (snd <$> l) ->
  (forall c j, (c, j) ∈ l <-> ws !! j = Some (w ++ [c])) -> bfs f' (D ++ [p]) (Q ++ (snd <$> l)).
Proof.
  intros Hb (Hss & Ho & Hset) Hp Hd Hl.
  assert (Hin : forall k, k ∈ snd <$> l <-> exists c, ws !! k = Some (w ++ [c])).
  { intros k. rewrite list_elem_of_fmap. split.
    - intros ([c j] & -> & Hj%Hl). by exists c.
    - intros [c Hk]. exists (c, k). split; [done|by apply Hl]. }
  assert (E : (D ++ [p]) ++ Q ++ (snd <$> l) = (D ++ p :: Q) ++ (snd <$> l)) by by rewrite <- !app_assoc.
  assert (Hp0 : p <> 0%nat).
  { intros ->. destruct (b_words _ _ _ Hb 0%nat) as (u & c & H); [set_solver|].
    rewrite (t_root _ _ (b_trie _ _ _ Hb)) in H. injection H as H. by destruct u. }
  assert (HpD : p ∉ D).
  { pose proof (b_nodup _ _ _ Hb) as Hn. apply NoDup_app in Hn as (_ & Hn & _). intros Hx. apply (Hn p Hx). by left. }
  assert (Hfresh : forall k, k ∈ snd <$> l -> k ∉ D ++ p :: Q).
  { intros k [c Hk]%Hin Hx. apply (b_closed _ _ _ Hb p k w c Hp Hk) in Hx. naive_solver. }
  split.
  - eapply same_shape_trie; [done|apply Hb].
  - rewrite E. intros k Hk. destruct (decide (k ∈ snd <$> l)) as [Hkl|Hkl]; [by apply Hset|].
    eapply settled_ext; [by apply Ho|]. apply (b_settled _ _ _ Hb). set_solver.
  - rewrite E. intros k H0 Hk. eapply raw_ext; [apply Ho; set_solver|]. apply (b_raw _ _ _ Hb); [done|set_solver].
  - rewrite E. intros i j u c Hi Hj. rewrite elem_of_app, (b_closed _ _ _ Hb i j u c Hi Hj), Hin, elem_of_app, list_elem_of_singleton.
    split; [|intros [?|[?| ->]]; [by left; left|by left; right|right]].
    + intros [[?|?]|[d Hd']]; [by left|by right; left|right; right].
      rewrite Hj in Hd'. injection Hd' as [-> _]%app_inj_tail. by eapply trie_unique; [apply Hb|..].
    + assert (u = w) as -> by congruence. by exists c.
  - rewrite E. intros k [Hk|Hk]%elem_of_app; [by apply (b_words _ _ _ Hb)|]. apply Hin in Hk as [c Hk]. by exists w, c.
  - rewrite E. apply NoDup_app. split_and!; [apply Hb| |done]. intros k H1 H2. by apply (Hfresh k).
  - destruct (b_first _ _ _ _ Hb) as (A & B & L & -> & HA & HB & HL). exists A, (B ++ (snd <$> l)), L.
    split_and!.
    + by rewrite <- app_assoc.
    + intros k u Hk. apply HA. by right.
    + intros k u [Hk|Hk]%elem_of_app Hu; [by eapply HB|]. apply Hin in Hk as [c Hk].
      assert (u = w ++ [c]) as -> by congruence. rewrite length_app, (HA p w); [cbn; lia|by left|done].
    + intros k u Hk Lu. rewrite E. destruct (HL k u Hk Lu) as [?|?]; [by left|right; set_solver].
Qed.

(** The popped and queued nodes fit in the table. *)
Lemma bfs_count f D Q : bfs f D Q -> (S (List.length D + List.length Q) <= List.length ws)%nat.
Proof.
  intros Hb. rewrite <- length_app. change (List.length (0%nat :: D ++ Q) <= List.length ws)%nat.
  rewrite <- (length_seq (List.length ws) 0). apply submseteq_length, NoDup_submseteq.
  - constructor; [|apply Hb]. intros H0. destruct (b_words _ _ _ Hb 0%nat H0) as (w & c & H).
    rewrite (t_root _ _ (b_trie _ _ _ Hb)) in H. injection H as H. by destruct w.
  - intros k Hk. apply elem_of_seq. split; [lia|]. apply elem_of_cons in Hk as [->|Hk].
    + eapply lookup_lt_Some, (t_root _ _ (b_trie _ _ _ Hb)).
    + destruct (b_words _ _ _ Hb k Hk) as (w & c & H). by eapply lookup_lt_Some.
Qed.

Lemma link_loop_spec fuel f D Q : (forall q, q ∈ ps -> q ∈ ws) -> bfs f D Q -> (List.length ws <= fuel + S (List.length D))%nat ->
  exists f' D', link_loop fuel f Q = Ok f' /\ bfs f' D' [] /\ same_shape f f'.
Proof.
  intros Hps. revert f D Q. induction fuel as [|fuel IH]; intros f D Q Hb Hf.
  - apply bfs_count in Hb as Hc. destruct Q as [|p Q]; [by exists f, D|cbn in Hc; lia].
  - destruct Q as [|p Q]; [by exists f, D|]. cbn [link_loop].
    destruct (b_words _ _ _ Hb p) as (u & c & Hp); [set_solver|].
    destruct (trie_node _ _ (b_trie _ _ _ Hb) _ _ Hp) as [nd Hn]. rewrite (at_index_ok _ _ _ Hn). cbn [mbind result_bind].
    destruct (t_chain _ _ (b_trie _ _ _ Hb) _ _ _ Hn Hp) as (l & Hch & Hd & Hl).
    assert (Hfresh : forall d j, (d, j) ∈ l -> ws !! j = Some ((u ++ [c]) ++ [d]) /\ raw f j).
    { intros d j Hj%Hl. split; [done|]. apply (b_raw _ _ _ Hb).
      - intros ->. rewrite (t_root _ _ (b_trie _ _ _ Hb)) in Hj. injection Hj as Hj. by destruct u.
      - intros [->|Hx]%(b_closed _ _ _ Hb p j _ _ Hp Hj).
        + rewrite (t_root _ _ (b_trie _ _ _ Hb)) in Hp. injection Hp as Hp. by destruct u.
        + pose proof (b_nodup _ _ _ Hb) as Hnd. apply NoDup_app in Hnd as (_ & Hnd & _). apply (Hnd p Hx). by left. }
    destruct (link_children_spec (List.length (edges f)) f p (u ++ [c]) (firstEdge nd) l Q) as (f1 & -> & Hlk);
      [apply Hb|done|done|by destruct u|done|by eapply chain_bound|done|done|by eapply b_below|].
    cbn [mbind result_bind].
    destruct (IH f1 (D ++ [p]) (Q ++ (snd <$> l))) as (f2 & D2 & -> & Hb2 & Hss2).
    + by eapply bfs_push.
    + rewrite length_app. cbn. lia.
    + exists f2, D2. split_and!; [done..|]. etransitivity; [apply Hlk|done].
Qed.

(** Every node is settled once the queue is empty. *)
Lemma bfs_finished f D : bfs f D [] -> forall k w, ws !! k = Some w -> settled f k.
Proof.
  intros Hb k w Hk. apply (b_settled _ _ _ Hb). revert k Hk.
  induction w as [|c w IH] using rev_ind; intros k Hk.
  - left. by eapply trie_zero; [apply Hb|].
  - right. destruct (t_parent _ _ (b_trie _ _ _ Hb) _ _ _ Hk) as (i & _ & Hi).
    apply (b_closed _ _ _ Hb i k w c Hi Hk). specialize (IH i Hi). rewrite app_nil_r in IH. tauto.
Qed.
End Links.

(** ** The automaton *)

(** What [buildAutomaton] promises: a trie of the patterns with every node settled. *)
Record automaton (ps ws : list bytes) (f : Filter) : Prop := {
  a_trie : trie f ws;
  a_patterns : forall p, p ∈ ps -> p ∈ ws;
  a_settled : forall k w, ws !! k = Some w -> settled ps ws f k;
}.

Lemma buildAutomaton_spec ps :
  (exists f ws, buildAutomaton ps = Ok f /\ automaton ps ws f) \/
  (buildAutomaton ps = Err ErrAutomatonTooLarge /\ overflows (total_length ps)).
Proof.
  unfold buildAutomaton.
  destruct (insert_patterns_spec [] ps 0 _ _ inserted_nothing) as [(f & ws & -> & Hin)|[-> Ho]]; [|by right].
  left. cbn [mbind result_bind app] in *. destruct Hin as [Ht He Hm Hp _].
  pose proof (t_root _ _ Ht) as H0. destruct (trie_node _ _ Ht _ _ H0) as [nd Hn].
  rewrite (at_index_ok _ _ _ Hn). cbn [mbind result_bind].
  destruct (t_chain _ _ Ht _ _ _ Hn H0) as (l & Hch & Hd & Hl). cbn [app] in Hl.
  destruct (queue_root_children_spec ps ws (List.length (edges f)) f (firstEdge nd) l []) as (f1 & -> & Hlk);
    [done|done|done|by eapply chain_bound|done| |].
  { intros c j Hj%Hl. split; [done|]. intros n w. apply Hm. }
  cbn [mbind result_bind app].
  pose proof (bfs_start ps ws f f1 l Ht Hm Hl Hd Hlk) as Hb.
  destruct (link_loop_spec ps ws (List.length (nodes f)) f1 [] (snd <$> l) Hp Hb) as (f2 & D & -> & Hb2 & _).
  { rewrite (t_len _ _ Ht). cbn. lia. }
  exists f2, ws. split; [done|]. split; [apply Hb2|done|by eapply bfs_finished].
Qed.

(** Redaction with a built automaton, and [New]: the loop of [Filter.Bytes]
    computes the reference redaction, and the collection of variants gathers
    every nonempty encoding of every nonempty value exactly once. *)

(** ** [Filter.Bytes] on an automaton *)

Section Run.
Context (ps ws : list bytes) (f : Filter) (Ha : automaton ps ws f).

Lemma advance_spec i w c : ws !! i = Some w ->
  exists j x, advance f i c = Ok j /\ ws !! j = Some x /\ longest (word ws) (w ++ [c]) x.
Proof using Ha.
  intros Hi. unfold advance. rewrite advance_failure. pose proof (a_trie _ _ _ Ha) as Ht.
  destruct (failure_loop_spec ps ws f Ht (List.length (nodes f)) i w c Hi) as (t & wt & -> & Hwt & _ & Hl).
  { by eapply trie_depth_lt. } { intros k u Hk _. by eapply a_settled. }
  cbn [mbind result_bind]. rewrite (transition_spec _ _ Ht _ _ _ Hwt). cbn [mbind result_bind].
  destruct (index_of ws (wt ++ [c])) as [j|] eqn:E.
  - exists j, (wt ++ [c]). split_and!; [done| |done]. by apply index_of_Some in E; [|apply Ht].
  - exists 0%nat, []. split_and!; [done|apply Ht|done].
Qed.

(** [s] is the node of the longest word that ends [w]. *)
Definition tracks (w : bytes) (s : nat) : Prop := exists x, ws !! s = Some x /\ longest (word ws) w x.

Record run_state (res : bytes) (states : list nat) (state : nat) : Prop := {
  rs_length : List.length states = List.length res;
  rs_states : forall k s, states !! k = Some s -> tracks (take (S k) res) s;
  rs_state : tracks res state;
}.

Lemma tracks_nil : tracks [] 0.
Proof using Ha.
  exists []. split; [apply Ha|]. apply longest_self. eapply trie_nil, Ha.
Qed.

Lemma run_state_take n res states : (forall k s, states !! k = Some s -> tracks (take (S k) res) s) ->
  List.length states = List.length res -> (n <= List.length res)%nat ->
  run_state (take n res) (take n states) (default 0%nat (last (take n states))).
Proof using Ha.
  intros Hs Hl Hn. assert (Hlt : List.length (take n states) = n) by (rewrite length_take; lia). split.
  - rewrite !length_take. lia.
  - intros k s [Hk L]%lookup_take_Some. rewrite take_take, Nat.min_l by lia. by apply Hs.
  - rewrite last_lookup, Hlt. destruct n as [|n]; [apply tracks_nil|]. cbn [pred].
    destruct (lookup_lt_is_Some_2 states n) as [s E]; [lia|].
    rewrite lookup_take_lt, E by lia. cbn. by apply Hs.
Qed.

Lemma redact_loop_spec input res states state : run_state res states state ->
  redact_loop f res states state input = Ok (fold_left (redact_byte ps) input res).
Proof using Ha.
  revert res states state. induction input as [|c input IH]; intros res states state [Hl Hs (w & Hw & Hlw)]; [done|].
  cbn [redact_loop fold_left]. destruct (advance_spec state w c Hw) as (j & x & -> & Hx & Hlx). cbn [mbind result_bind].
  assert (Hlong : longest (word ws) (res ++ [c]) x) by (eapply longest_snoc; [intros u v; eapply trie_prefix, Ha|done|done]).
  pose proof (a_trie _ _ _ Ha) as Ht. destruct (trie_node _ _ Ht _ _ Hx) as [nd Hn].
  rewrite (at_index_ok _ _ _ Hn). cbn [mbind result_bind].
  destruct (a_settled _ _ _ Ha _ _ Hx nd x Hn Hx) as [Hm _].
  rewrite (match_length_longest ps (word ws) (res ++ [c])) in Hm by (done || apply Ha).
  pose proof (match_length_le ps (res ++ [c])) as Lm. unfold redact_byte at 2. rewrite <- Hm in *.
  assert (Hall : forall k s, (states ++ [j]) !! k = Some s -> tracks (take (S k) (res ++ [c])) s).
  { intros k s [Hk|[-> <-]]%lookup_snoc.
    - rewrite take_app_le by (apply lookup_lt_Some in Hk; lia). by apply Hs.
    - rewrite Hl, take_ge by (rewrite length_app; cbn; lia). by exists x. }
  assert (Hll : List.length (states ++ [j]) = List.length (res ++ [c])) by (rewrite !length_app; cbn; lia).
  destruct (Nat.eqb_spec (matchLen nd) 0) as [E|E].
  - rewrite E, Nat.sub_0_r, firstn_all. apply IH. split; [done..|]. by exists x.
  - unfold cut_tail. rewrite (proj2 (Nat.ltb_ge _ _) Lm), Hll, (proj2 (Nat.ltb_ge _ _) Lm). cbn [mbind result_bind].
    apply IH. apply run_state_take; [done..|lia].
Qed.

Lemma Filter_Bytes_spec input : Filter_Bytes (Some f) input = Ok (redact ps input).
Proof using Ha.
  unfold Filter_Bytes. pose proof (trie_depth_lt _ _ (a_trie _ _ _ Ha) _ _ (t_root _ _ (a_trie _ _ _ Ha))) as L.
  destruct (Nat.eqb_spec (List.length (nodes f)) 0) as [E|_]; [rewrite E in L; lia|].
  apply redact_loop_spec. split; [done| |apply tracks_nil]. done.
Qed.
End Run.

(** Redaction depends on the set of patterns only. *)
Lemma redact_ext ps qs input : (forall p, p ∈ ps <-> p ∈ qs) -> redact ps input = redact qs input.
Proof.
  intros H. assert (Hm : forall w, match_length ps w = match_length qs w).
  { intros w. apply match_length_unique.
    - intros p Hp. by apply match_length_spec, H.
    - destruct (match_length_spec qs w) as [_ [->|(p & Hp & ?)]]; [by left|right]. exists p. by rewrite H. }
  unfold redact. generalize (@nil ascii) as res. induction input as [|c input IH]; intros res; [done|]. cbn.
  unfold redact_byte at 2 4. rewrite Hm. apply IH.
Qed.

(** ** Collecting the variants *)

(** Every nonempty encoding of every nonempty value. *)
Definition nonempty (b : bytes) : bool := negb (List.length b =? 0)%nat.
Definition secret_forms (values : list bytes) : list bytes :=
  List.filter nonempty (List.filter nonempty values ≫= encodedVariants).

Lemma nonempty_true b : nonempty b = true <-> b <> [].
Proof. by destruct b. Qed.

Lemma elem_of_lfilter (g : bytes -> bool) l x : x ∈ List.filter g l <-> x ∈ l /\ g x = true.
Proof. by rewrite !list_elem_of_In, List.filter_In. Qed.

Lemma elem_of_secret_forms values q : q ∈ secret_forms values <->
  q <> [] /\ exists v, v ∈ values /\ v <> [] /\ q ∈ encodedVariants v.
Proof.
  unfold secret_forms. rewrite elem_of_lfilter, list_elem_of_bind, nonempty_true.
  setoid_rewrite elem_of_lfilter. setoid_rewrite nonempty_true. naive_solver.
Qed.

Lemma total_length_app l k : total_length (l ++ k) = (total_length l + total_length k)%nat.
Proof. induction l as [|x l IH]; [done|]. cbn [app]. rewrite !total_length_cons, IH. lia. Qed.

#[export] Instance total_length_perm : Proper ((≡ₚ) ==> eq) total_length.
Proof. unfold total_length. intros l k ->. done. Qed.

Lemma total_length_subset l k : NoDup l -> l ⊆ k -> (total_length l <= total_length (remove_dups k))%nat.
Proof.
  intros Hd Hs. assert (Hsub : l ⊆+ remove_dups k) by (apply NoDup_submseteq; [done|]; intros x Hx; by apply elem_of_remove_dups, Hs).
  apply submseteq_Permutation in Hsub as [r ->]. rewrite total_length_app. lia.
Qed.

Section Collect.
Context (digest_of : bytes -> bytes) (p : Policy).

Record collected (s : Collected) : Prop := {
  cl_nodup : NoDup (variants s);
  cl_sum : aggregateBytes s = Z.of_nat (total_length (variants s));
  cl_range : forall d b i, byDigest s !! d = Some b -> i ∈ b -> (i < List.length (variants s))%nat;
  cl_found : forall i v, variants s !! i = Some v -> exists b, byDigest s !! digest_of v = Some b /\ i ∈ b;
}.

Lemma collected_nothing : collected nothing_collected.
Proof. split; try done. constructor. Qed.

Lemma has_duplicate_spec vs bucket v : (forall i, i ∈ bucket -> (i < List.length vs)%nat) ->
  (forall i, vs !! i = Some v -> i ∈ bucket) -> has_duplicate vs bucket v = Ok (bool_decide (v ∈ vs)).
Proof.
  intros Hb Hf.
  assert (G : forall b, b ⊆ bucket -> (forall i, vs !! i = Some v -> i ∈ bucket -> i ∈ b) ->
    has_duplicate vs b v = Ok (bool_decide (v ∈ vs))).
  { induction b as [|i b IH]; intros Hsub Hall; cbn [has_duplicate].
    - rewrite bool_decide_eq_false_2; [done|]. intros [i Hi]%list_elem_of_lookup_1. by apply (Hall i), not_elem_of_nil in Hi; [|apply Hf].
    - destruct (lookup_lt_is_Some_2 vs i) as [u Hu]; [apply Hb, Hsub; by left|]. rewrite (at_index_ok _ _ _ Hu). cbn [mbind result_bind].
      destruct (bool_decide_reflect (u = v)) as [E|E].
      + subst u. rewrite bool_decide_eq_true_2; [done|]. by eapply list_elem_of_lookup_2.
      + apply IH; [set_solver|]. intros k Hk Hk2. specialize (Hall k Hk Hk2). apply elem_of_cons in Hall as [->|?]; [congruence|done]. }
  by apply G.
Qed.

Lemma collect_variant_spec s v : collected s ->
  (collect_variant digest_of p s v = Ok s /\ (v = [] \/ v ∈ variants s)) \/
  (v <> [] /\ v ∉ variants s /\
   ((exists s', collect_variant digest_of p s v = Ok s' /\ collected s' /\ variants s' = variants s ++ [v] /\
       Z.of_nat (total_length (variants s')) <= MaximumAggregateBytes p) \/
    (collect_variant digest_of p s v = Err ErrVariantsTooLarge /\
     MaximumAggregateBytes p < Z.of_nat (total_length (variants s ++ [v]))))).
Proof.
  intros [Hd Hs Hr Hf]. unfold collect_variant. destruct v as [|c v']; [by left; split; [|left]|].
  set (v := c :: v') in *. change (List.length v =? 0)%nat with false. cbv iota.
  rewrite has_duplicate_spec; cycle 1.
  { intros i Hi. destruct (byDigest s !! digest_of v) as [b|] eqn:E; [by eapply Hr|by apply not_elem_of_nil in Hi]. }
  { intros i Hi. destruct (Hf _ _ Hi) as (b & -> & Hb). done. }
  cbn [mbind result_bind]. case_bool_decide as Hv; [left; split; [done|by right]|right]. split_and!; [done..|].
  assert (Et : Z.of_nat (total_length (variants s ++ [v])) = aggregateBytes s + blen v).
  { rewrite total_length_app, total_length_cons. unfold blen, total_length at 2. cbn. lia. }
  destruct (Z.ltb_spec (MaximumAggregateBytes p) (aggregateBytes s + blen v)) as [L|L]; [right; split; [done|lia]|left].
  eexists. split; [done|]. cbn [variants]. split_and!; [|done|lia].
  set (bucket := default [] (byDigest s !! digest_of v)).
  split; cbn [variants byDigest aggregateBytes]; [|done| |].
  - apply NoDup_app. split_and!; [done| |apply NoDup_singleton]. by intros x Hx ->%list_elem_of_singleton.
  - intros d b i Hb Hi. rewrite length_app. cbn. destruct (decide (d = digest_of v)) as [->|Hne].
    + rewrite lookup_insert_eq in Hb. injection Hb as <-. apply elem_of_app in Hi as [Hi| ->%list_elem_of_singleton].
      * unfold bucket in Hi. destruct (byDigest s !! digest_of v) as [b|] eqn:E; [|by apply not_elem_of_nil in Hi].
        specialize (Hr _ _ _ E Hi). lia.
      * rewrite length_app. cbn. lia.
    + rewrite lookup_insert_ne in Hb by done. specialize (Hr _ _ _ Hb Hi). lia.
  - intros i u Hu. destruct (decide (digest_of u = digest_of v)) as [E|Hne].
    + rewrite E, lookup_insert_eq. eexists. split; [done|]. apply elem_of_app.
      apply lookup_snoc in Hu as [Hu|[-> <-]]; [left|right].
      * destruct (Hf _ _ Hu) as (b & Hb & Hi). unfold bucket. by rewrite <- E, Hb.
      * apply list_elem_of_singleton. rewrite length_app. cbn. lia.
    + rewrite lookup_insert_ne by done. apply lookup_snoc in Hu as [Hu|[_ <-]]; [by apply Hf|done].
Qed.

(** The outcome of the collection of [forms] after [s]. *)
Definition gathered (s : Collected) (forms : list bytes) (r : result RedactError Collected) : Prop :=
  match r with
  | Ok s' => collected s' /\ (forall q, q ∈ variants s' <-> q ∈ variants s \/ q <> [] /\ q ∈ forms) /\
             (Z.of_nat (total_length (variants s)) <= MaximumAggregateBytes p -> Z.of_nat (total_length (variants s')) <= MaximumAggregateBytes p)
  | Err e => e = ErrVariantsTooLarge /\ exists l, NoDup l /\ (forall q, q ∈ l -> q ∈ variants s \/ q <> [] /\ q ∈ forms) /\
             MaximumAggregateBytes p < Z.of_nat (total_length l)
  end.

Lemma collect_variants_spec s forms : collected s -> gathered s forms (collect_variants digest_of p s forms).
Proof.
  revert s. induction forms as [|v forms IH]; intros s Hs; cbn [collect_variants].
  - split_and!; [done| |done]. intros q. split; [by left|]. intros [?|[_ ?%not_elem_of_nil]]; done.
  - destruct (collect_variant_spec s v Hs) as [[-> Hv]|(Hne & Hv & [(s1 & -> & H1 & E1 & L1)|[-> L1]])]; cbn [mbind result_bind].
    + specialize (IH s Hs). destruct (collect_variants digest_of p s forms) as [s2|e]; cbn in *.
      * destruct IH as (G1 & G2 & G3). split_and!; [done| |done]. intros q. rewrite G2, elem_of_cons.
        split; [naive_solver|]. intros [?|[Hq [->|?]]]; [by left| |by right]. destruct Hv; [done|by left].
      * destruct IH as (-> & l & G1 & G2 & G3). split; [done|]. exists l. split_and!; [done| |done].
        intros q Hq. destruct (G2 q Hq) as [?|[? ?]]; [by left|right; split; [done|by right]].
    + specialize (IH s1 H1). destruct (collect_variants digest_of p s1 forms) as [s2|e]; cbn in *; rewrite E1 in *.
      * destruct IH as (G1 & G2 & G3). split_and!; [done| |auto]. intros q. rewrite G2, elem_of_cons, elem_of_app, list_elem_of_singleton.
        naive_solver.
      * destruct IH as (-> & l & G1 & G2 & G3). split; [done|]. exists l. split_and!; [done| |done].
        intros q Hq. specialize (G2 q Hq). rewrite elem_of_app, list_elem_of_singleton in G2. rewrite elem_of_cons. naive_solver.
    + cbn. split; [done|]. exists (variants s ++ [v]). split_and!; [| |done].
      * apply NoDup_app. split_and!; [apply Hs| |apply NoDup_singleton]. by intros x Hx ->%list_elem_of_singleton.
      * intros q. rewrite elem_of_app, list_elem_of_singleton, elem_of_cons. naive_solver.
Qed.
End Collect.
