(* ===== verification/RedactCorrect.v ===== *)
(** What the secret filter promises: [New] either names the limit that was
    exceeded or builds a filter that computes the reference redaction, whose
    output holds no secret and no encoding of one. *)
From stdpp Require Import gmap.
From S2P Require Import Prelude.
From S2P Require Import GoText.
From S2P Require Import RedactFilter.
From S2P Require Import RedactTrie.

#[local] Open Scope Z_scope.

Section Values.
Context (digest_of : bytes -> bytes) (p : Policy).

Definition values_gathered (s : Collected) (values : list bytes) (r : result RedactError Collected) : Prop :=
  match r with
  | Err ErrValueTooLarge => exists v, v ∈ values /\ MaximumValueBytes p < blen v
  | _ => gathered digest_of p s (secret_forms values) r /\
         (is_ok r = true -> forall v, v ∈ values -> v <> [] -> blen v <= MaximumValueBytes p)
  end.

Lemma secret_forms_cons v values : v <> [] ->
  secret_forms (v :: values) = List.filter nonempty (encodedVariants v) ++ secret_forms values.
Proof.
  intros Hv. unfold secret_forms. cbn [List.filter]. rewrite (proj2 (nonempty_true v) Hv). cbn [mbind list_bind]. by rewrite List.filter_app.
Qed.

Lemma secret_forms_skip values : secret_forms ([] :: values) = secret_forms values.
Proof. done. Qed.

Lemma elem_of_forms_cons v values q : v <> [] ->
  (q <> [] /\ q ∈ secret_forms (v :: values)) <-> (q <> [] /\ q ∈ encodedVariants v) \/ (q <> [] /\ q ∈ secret_forms values).
Proof.
  intros Hv. rewrite (secret_forms_cons _ _ Hv), elem_of_app, elem_of_lfilter, nonempty_true. tauto.
Qed.

Lemma collect_values_spec s values : collected digest_of s -> values_gathered s values (collect_values digest_of p s values).
Proof.
  revert s. induction values as [|v values IH]; intros s Hs; cbn [collect_values].
  - cbn. split; [|by intros _ v ?%not_elem_of_nil]. split_and!; [done| |done]. intros q.
    split; [by left|]. intros [?|[_ ?%not_elem_of_nil]]; done.
  - destruct (Nat.eqb_spec (List.length v) 0) as [E|E].
    + destruct v; [|done]. specialize (IH s Hs). unfold values_gathered in *. rewrite secret_forms_skip.
      destruct (collect_values digest_of p s values) as [s'|[]]; try (by destruct IH as [[? _] _]).
      * destruct IH as [G1 G2]. split; [done|]. intros H u [->|Hu]%elem_of_cons Hne; [done|by apply G2].
      * destruct IH as (u & ? & ?). exists u. split; [by right|done].
      * by destruct IH as [G _].
    + assert (Hv : v <> []) by by destruct v. destruct (Z.ltb_spec (MaximumValueBytes p) (blen v)) as [L|L].
      { exists v. split; [by left|done]. }
      pose proof (collect_variants_spec digest_of p s (encodedVariants v) Hs) as Hg.
      destruct (collect_variants digest_of p s (encodedVariants v)) as [s1|e]; cbn [mbind result_bind].
      * destruct Hg as (G1 & G2 & G3). specialize (IH s1 G1). unfold values_gathered in *.
        destruct (collect_values digest_of p s1 values) as [s2|[]]; try (by destruct IH as [[? _] _]).
        -- destruct IH as [(I1 & I2 & I3) I4]. split.
           ++ split_and!; [done| |auto]. intros q. rewrite I2, G2, (elem_of_forms_cons v values q Hv). tauto.
           ++ intros H u [->|Hu]%elem_of_cons Hne; [done|by apply I4].
        -- destruct IH as (u & ? & ?). exists u. split; [by right|done].
        -- destruct IH as [(_ & l & I1 & I2 & I3) _]. split; [|done]. split; [done|]. exists l. split_and!; [done| |done].
           intros q Hq. rewrite (elem_of_forms_cons v values q Hv). specialize (I2 q Hq). rewrite G2 in I2. tauto.
      * destruct Hg as (-> & l & G1 & G2 & G3). cbn. split; [|done]. split; [done|]. exists l. split_and!; [done| |done].
        intros q Hq. rewrite (elem_of_forms_cons v values q Hv). specialize (G2 q Hq). tauto.
Qed.

Definition distinct_forms (values : list bytes) : list bytes := remove_dups (secret_forms values).

(** The limits [New] checks, in its order. *)
Definition new_outcome (values : list bytes) (r : result RedactError Filter) : Prop :=
  match r with
  | Ok f =>
      policy_valid p = true /\ blen values <= MaximumValues p /\
      (forall v, v ∈ values -> v <> [] -> blen v <= MaximumValueBytes p) /\
      Z.of_nat (total_length (distinct_forms values)) <= MaximumAggregateBytes p /\
      forall input, Filter_Bytes (Some f) input = Ok (redact (secret_forms values) input)
  | Err ErrPolicy => policy_valid p = false
  | Err ErrTooMany => policy_valid p = true /\ MaximumValues p < blen values
  | Err ErrValueTooLarge => exists v, v ∈ values /\ MaximumValueBytes p < blen v
  | Err ErrVariantsTooLarge => MaximumAggregateBytes p < Z.of_nat (total_length (distinct_forms values))
  | Err ErrAutomatonTooLarge => maximumAutomatonStates <= 1 + MaximumAggregateBytes p
  | Err Panic => False
  end.

Lemma elem_of_forms_nonempty values q : q <> [] /\ q ∈ secret_forms values <-> q ∈ secret_forms values.
Proof. unfold secret_forms. rewrite elem_of_lfilter, nonempty_true. tauto. Qed.

Lemma policy_limits : policy_valid p = true -> 0 < MaximumAggregateBytes p.
Proof. unfold policy_valid. intros H%negb_true_iff. bool_prop. lia. Qed.

Lemma automaton_replacement ps ws f r : automaton ps ws f ->
  automaton ps ws {| nodes := nodes f; edges := edges f; root := root f; replacement := r |}.
Proof. intros [[] H2 H3]. by split. Qed.

Lemma New_outcome values : new_outcome values (New digest_of values p).
Proof.
  unfold New. destruct (policy_valid p) eqn:Ep; [|done]. cbn [negb reject_if mbind result_bind].
  destruct (Z.ltb_spec (MaximumValues p) (blen values)) as [Lv|Lv]; [done|]. cbn [reject_if mbind result_bind].
  pose proof (collect_values_spec nothing_collected values (collected_nothing digest_of)) as Hg.
  unfold values_gathered in Hg. destruct (collect_values digest_of p nothing_collected values) as [s|[]]; cbn [mbind result_bind];
    try (by destruct Hg as [[? _] _]); [|done|].
  - destruct Hg as [(G1 & G2 & G3) G4]. specialize (G4 eq_refl).
    assert (Hin : forall q, q ∈ variants s <-> q ∈ secret_forms values).
    { intros q. rewrite G2, <- elem_of_forms_nonempty. split; [|tauto]. intros [H|H]; [by apply not_elem_of_nil in H|tauto]. }
    assert (Lt : Z.of_nat (total_length (variants s)) <= MaximumAggregateBytes p).
    { apply G3. cbn. pose proof (policy_limits Ep). unfold total_length. cbn. lia. }
    pose proof (sort_by_perm variant_le (variants s)) as Hperm.
    destruct (buildAutomaton_spec (sort_by variant_le (variants s))) as [(f & ws & -> & Ha)|[-> Ho]]; cbn [mbind result_bind].
    + unfold new_outcome. split_and!; [done..| |].
      * assert (Hpe : distinct_forms values ≡ₚ variants s).
        { apply NoDup_Permutation; [apply NoDup_remove_dups|apply G1|]. intros q. unfold distinct_forms. by rewrite Hin, elem_of_remove_dups. }
        by rewrite Hpe.
      * intros input. erewrite Filter_Bytes_spec by by apply automaton_replacement. f_equal. apply redact_ext.
        intros q. by rewrite Hperm.
    + cbn. unfold overflows in Ho. rewrite Hperm in Ho. lia.
  - destruct Hg as [(_ & l & G1 & G2 & G3) _]. cbn. pose proof (total_length_subset l (secret_forms values) G1) as L.
    assert (Hs : l ⊆ secret_forms values).
    { intros q [H|H]%G2; [by apply not_elem_of_nil in H|]. by destruct H. }
    specialize (L Hs). unfold distinct_forms. lia.
Qed.

(** A filter redacts the nonempty encodings of the nonempty values. *)
Lemma New_redacts values f : New digest_of values p = Ok f ->
  forall input, Filter_Bytes (Some f) input = Ok (redact (secret_forms values) input).
Proof. intros H. pose proof (New_outcome values) as Ho. rewrite H in Ho. apply Ho. Qed.
End Values.

Lemma secret_forms_nonempty values q : q ∈ secret_forms values -> q <> [].
Proof. by intros [? _]%elem_of_secret_forms. Qed.

(** ** Fields *)

Lemma Filter_Fields_spec f (g : bytes -> bytes) (input : gmap string string) keys :
  (forall b, Filter_Bytes (Some f) b = Ok (g b)) ->
  Filter_Fields f input keys =
    Ok (map_imap (fun k v => Some (of_bytes (g (if bool_decide (k ∈ keys) then replacement f else to_bytes v)))) input).
Proof.
  intros Hg. unfold Filter_Fields.
  set (h := fun (k v : string) => of_bytes (g (if bool_decide (k ∈ keys) then replacement f else to_bytes v))).
  assert (Hfield : forall k v, redact_field f keys k v = Ok (h k v)).
  { intros k v. unfold redact_field, Filter_String, h. case_bool_decide; rewrite Hg; cbn; [by rewrite to_of_bytes|done]. }
  assert (G : forall l, foldr (fun kv (acc : result RedactError (gmap string string)) =>
             m ← acc; v ← redact_field f keys kv.1 kv.2; Ok (<[kv.1 := v]> m)) (Ok ∅) l
           = Ok (list_to_map ((fun kv => (kv.1, h kv.1 kv.2)) <$> l))).
  { induction l as [|[k v] l IH]; [done|]. cbn [foldr]. rewrite IH. cbn [mbind result_bind fst snd]. rewrite Hfield. done. }
  rewrite G. f_equal. apply map_eq. intros k. rewrite map_lookup_imap.
  destruct (input !! k) as [v|] eqn:E; cbn.
  - apply elem_of_list_to_map_1.
    + rewrite <- list_fmap_compose. apply NoDup_fst_map_to_list.
    + apply list_elem_of_fmap. exists (k, v). split; [done|]. by apply elem_of_map_to_list.
  - apply not_elem_of_list_to_map_1. rewrite <- list_fmap_compose. intros ([k' v] & -> & Hk)%list_elem_of_fmap.
    apply elem_of_map_to_list in Hk. cbn in E. congruence.
Qed.

(** ** Properties *)

(** C33: a filter built from the secrets never panics and never lets one
    through: in the output of [Bytes] no nonempty secret occurs, nor any of
    its URL, base64 and JSON encodings. *)
Theorem output_holds_no_secret digest_of policy values f v q input :
  New digest_of values policy = Ok f -> v ∈ values -> v <> [] -> q ∈ encodedVariants v -> q <> [] ->
  exists out, Filter_Bytes (Some f) input = Ok out /\ ~ occurs q out.
Proof.
  intros Hn Hv Hve Hq Hqe. exists (redact (secret_forms values) input).
  split; [by eapply New_redacts|]. apply redact_clean; [apply secret_forms_nonempty|].
  apply elem_of_secret_forms. naive_solver.
Qed.

(** C34: the automaton is an optimisation: [Bytes] computes the quadratic
    reference, which appends the input byte by byte and removes the longest
    secret form its result ends with; text without a secret form comes back
    unchanged. *)
Theorem automaton_is_redaction digest_of policy values f : New digest_of values policy = Ok f ->
  forall input, Filter_Bytes (Some f) input = Ok (redact (secret_forms values) input) /\
    ((forall q, q ∈ secret_forms values -> ~ occurs q input) -> Filter_Bytes (Some f) input = Ok input).
Proof.
  intros Hn input. rewrite (New_redacts _ _ _ _ Hn). split; [done|]. intros Hc.
  by rewrite (redact_id _ _ (secret_forms_nonempty values) Hc).
Qed.

(** [New] returns a filter exactly within the policy: each error names
    the limit that was exceeded (the distinct encodings counted once each),
    no index of the tables is out of range, no loop runs on, and the limit on
    automaton states cannot be reached below 2 MiB of variants. *)
Theorem New_names_the_limit digest_of values policy :
  match New digest_of values policy with
  | Ok _ =>
      policy_valid policy = true /\ blen values <= MaximumValues policy /\
      (forall v, v ∈ values -> v <> [] -> blen v <= MaximumValueBytes policy) /\
      Z.of_nat (total_length (distinct_forms values)) <= MaximumAggregateBytes policy
  | Err ErrPolicy => policy_valid policy = false
  | Err ErrTooMany => policy_valid policy = true /\ MaximumValues policy < blen values
  | Err ErrValueTooLarge => exists v, v ∈ values /\ MaximumValueBytes policy < blen v
  | Err ErrVariantsTooLarge => MaximumAggregateBytes policy < Z.of_nat (total_length (distinct_forms values))
  | Err ErrAutomatonTooLarge => maximumAutomatonStates <= 1 + MaximumAggregateBytes policy
  | Err Panic => False
  end.
Proof.
  pose proof (New_outcome digest_of policy values) as H. destruct (New digest_of values policy) as [f|[]]; try done.
  unfold new_outcome in H. tauto.
Qed.

(** [Fields] replaces the value under a listed key and redacts every
    other value; it adds and loses no key. *)
Theorem Fields_redacts_every_value digest_of policy values f (input : gmap string string) keys :
  New digest_of values policy = Ok f ->
  exists out, Filter_Fields f input keys = Ok out /\
    forall k, out !! k =
      (fun v => of_bytes (redact (secret_forms values)
         (if bool_decide (k ∈ keys) then replacement_text else to_bytes v))) <$> input !! k.
Proof.
  intros Hn. pose proof (New_redacts _ _ _ _ Hn) as Hb. rewrite (Filter_Fields_spec f _ input keys Hb).
  eexists. split; [done|]. intros k. rewrite map_lookup_imap.
  assert (Er : replacement f = replacement_text).
  { unfold New in Hn. repeat (apply bind_Ok in Hn as (? & _ & Hn)). by simplify_eq. }
  rewrite Er. by destruct (input !! k).
Qed.

(** the filter is not longest-first across overlapping secrets: of two
    secrets where one begins with the other, the shorter is removed as soon as
    it is complete, and the rest of the longer one stays in the output. *)
Theorem longer_secret_keeps_its_tail digest_of :
  exists f, New digest_of [to_bytes "token"; to_bytes "token-long"] DefaultPolicy = Ok f /\
    Filter_String (Some f) "token-long token" = Ok "-long ".
Proof.
  pose proof (New_outcome digest_of DefaultPolicy [to_bytes "token"; to_bytes "token-long"]) as Ho.
  destruct (New digest_of [to_bytes "token"; to_bytes "token-long"] DefaultPolicy) as [f|e].
  - exists f. split; [done|]. destruct Ho as (_ & _ & _ & _ & Hb). unfold Filter_String. rewrite Hb. vm_compute. reflexivity.
  - exfalso. destruct e; cbn [new_outcome] in Ho; try (vm_compute in Ho; done).
    + by destruct Ho.
    + destruct Ho as (v & Hv & L). revert L. apply Z.nlt_ge.
      apply elem_of_cons in Hv as [->|[->|Hv]%elem_of_cons]; [vm_compute; done..|by apply not_elem_of_nil in Hv].
Qed.

(** ** Witnesses *)

Definition sample_digest (b : bytes) : bytes := take 1 b.
Definition sample_secrets : list bytes := [to_bytes "k/"].
Definition sample_filter : result RedactError Filter := New sample_digest sample_secrets DefaultPolicy.
Definition sample_built : Filter := match sample_filter with Ok f => f | Err _ => empty_filter end.

Lemma sample_filter_ok : New sample_digest sample_secrets DefaultPolicy = Ok sample_built.
Proof. vm_compute. reflexivity. Qed.

Example sample_redaction : Filter_String (Some sample_built) "a k/ kk/%2F k%2f ay8= zkk//" = Ok "a   k%2f = z".
Proof. vm_compute. reflexivity. Qed.

Lemma output_holds_no_secret_witness :
  exists out, Filter_Bytes (Some sample_built) (to_bytes "x ay8= y") = Ok out /\ ~ occurs (to_bytes "ay8=") out.
Proof.
  apply (output_holds_no_secret sample_digest DefaultPolicy sample_secrets sample_built (to_bytes "k/")).
  - exact sample_filter_ok.
  - by left.
  - done.
  - vm_compute. do 3 right. by left.
  - done.
Defined.

Lemma automaton_is_redaction_witness :
  Filter_Bytes (Some sample_built) (to_bytes "kk//") = Ok (redact (secret_forms sample_secrets) (to_bytes "kk//")).
Proof.
  apply (automaton_is_redaction sample_digest DefaultPolicy sample_secrets sample_built).
  exact sample_filter_ok.
Defined.

Lemma Fields_redacts_every_value_witness :
  exists out, Filter_Fields sample_built {["token" := "k/"]} ["token"] = Ok out /\
    out !! "token" = Some (of_bytes (redact (secret_forms sample_secrets) replacement_text)).
Proof.
  destruct (Fields_redacts_every_value sample_digest DefaultPolicy sample_secrets sample_built {["token" := "k/"]} ["token"])
    as (out & E & H); [exact sample_filter_ok|].
  exists out. split; [exact E|]. rewrite H. reflexivity.
Defined.
