(* ===== verification/IdentPassword.v ===== *)
(** Password verifiers of internal/identity (options.go, password.go): the
    Argon2id parameters with their accepted ranges, the PHC text of a verifier
    with its parser, and the upgrade of weaker verifiers.  The key derivation
    is a parameter: package argon2 is not part of the repository. *)
From S2P Require Import Prelude.
From S2P Require Import GoText.
From S2P Require Import GoTime.
From S2P Require Import GoDecode.

#[local] Open Scope Z_scope.

Inductive IdentError :=
| ErrUninitialized | ErrAlreadyInitialized | ErrInvalidCredentials | ErrInvalidSession
| ErrSessionExpired | ErrPasswordRejected | ErrVerifierUnsupported
| ErrInternal (what : string).

(** ** Options and policy *)

Record passwordParameters := mk_parameters {
  memory : Z;
  iterations : Z;
  parallelism : Z;
  saltLength : Z;
  keyLength : Z;
}.
#[export] Instance passwordParameters_eq_dec : EqDecision passwordParameters.
Proof. solve_decision. Defined.

Definition defaultPasswordParameters : passwordParameters := mk_parameters (64 * 1024) 3 2 16 32.

(** Durations in nanoseconds. *)
Record sessionPolicy := mk_policy {
  idleLifetime : Z;
  absoluteLifetime : Z;
  rotationAfter : Z;
  previousGrace : Z;
  maximumSessions : Z;
}.

Definition defaultSessionPolicy : sessionPolicy :=
  mk_policy (30 * minute_ns) (12 * hour_ns) (15 * minute_ns) (second_ns 30) 8.

Definition minimumPasswordRunes : Z := 12.
Definition maximumPasswordBytes : Z := 1024.
Definition maximumVerifierBytes : Z := 1024.

Definition outside (lo hi n : Z) : bool := (n <? lo) || (hi <? n).

Definition validatePasswordParameters (p : passwordParameters) : result string unit :=
  _ ← reject_if (outside (8 * 1024) (256 * 1024) (memory p)) "Argon2id memory is outside supported bounds"%string;
  _ ← reject_if (outside 1 10 (iterations p)) "Argon2id iterations are outside supported bounds"%string;
  _ ← reject_if (outside 1 16 (parallelism p)) "Argon2id parallelism is outside supported bounds"%string;
  _ ← reject_if (outside 16 64 (saltLength p)) "Argon2id salt length is outside supported bounds"%string;
  reject_if (outside 16 64 (keyLength p)) "Argon2id key length is outside supported bounds"%string.

(** The parts of [configuration] that validation looks at. *)
Record configuration := mk_configuration {
  cf_passwordParameters : passwordParameters;
  cf_sessionPolicy : sessionPolicy;
  cf_kdfConcurrency : Z;
}.

Definition defaultConfiguration : configuration := mk_configuration defaultPasswordParameters defaultSessionPolicy 2.

Definition withPasswordParameters (p : passwordParameters) (c : configuration) : configuration :=
  mk_configuration p (cf_sessionPolicy c) (cf_kdfConcurrency c).
Definition withSessionPolicy (p : sessionPolicy) (c : configuration) : configuration :=
  mk_configuration (cf_passwordParameters c) p (cf_kdfConcurrency c).
Definition withKDFConcurrency (limit : Z) (c : configuration) : configuration :=
  mk_configuration (cf_passwordParameters c) (cf_sessionPolicy c) limit.

Definition configuration_validate (c : configuration) : result string unit :=
  _ ← validatePasswordParameters (cf_passwordParameters c);
  _ ← reject_if ((cf_kdfConcurrency c <? 1) || (16 <? cf_kdfConcurrency c)) "identity KDF concurrency must be between 1 and 16"%string;
  let policy := cf_sessionPolicy c in
  let second := second_ns 1 in
  _ ← reject_if ((idleLifetime policy <? second) || (absoluteLifetime policy <? second)
                 || (rotationAfter policy <? second) || (previousGrace policy <? second))
        "identity session durations must be at least one second"%string;
  _ ← reject_if (absoluteLifetime policy <? idleLifetime policy) "identity idle lifetime cannot exceed absolute lifetime"%string;
  _ ← reject_if (absoluteLifetime policy <=? rotationAfter policy) "identity rotation must precede absolute expiry"%string;
  reject_if ((maximumSessions policy <? 1) || (64 <? maximumSessions policy)) "identity maximum sessions must be between 1 and 64"%string.

Definition validateNewPassword (password : bytes) : result IdentError unit :=
  reject_if ((maximumPasswordBytes <? blen password) || negb (utf8_valid password) || (rune_count password <? minimumPasswordRunes))
    ErrPasswordRejected.

(** ** The key derivation, from golang.org/x/crypto/argon2 *)

Class Argon2 := {
  argon2_Version : Z;
  (** password, salt, time, memory, threads, key length *)
  argon2_IDKey : bytes -> bytes -> Z -> Z -> Z -> Z -> bytes;
}.

(** Documented behaviour: the version is a small number and the derived key
    has the length that was asked for. *)
Class Argon2Laws `{Argon2} := {
  argon2_version_range : 0 <= argon2_Version < 2 ^ 32;
  argon2_key_length : forall password salt t m p n, 0 <= n -> blen (argon2_IDKey password salt t m p n) = n;
}.

(** ** Verifier text *)

Record parsedVerifier := mk_parsed {
  pv_parameters : passwordParameters;
  pv_salt : bytes;
  pv_hash : bytes;
}.

Section Verifier.
Context `{Argon2}.

Definition formatVerifier (p : passwordParameters) (salt hash : bytes) : bytes :=
  join_with "$" [[]; to_bytes "argon2id"; to_bytes "v=" ++ itoa argon2_Version;
    join_with "," [to_bytes "m=" ++ itoa (memory p); to_bytes "t=" ++ itoa (iterations p); to_bytes "p=" ++ itoa (parallelism p)];
    base64_encode raw_std_encoding salt; base64_encode raw_std_encoding hash].

(** [strings.TrimPrefix] behind [strings.HasPrefix]. *)
Fixpoint strip_prefix (prefix l : bytes) : option bytes :=
  match prefix, l with
  | [], _ => Some l
  | c :: prefix, d :: l => if Ascii.eqb c d then strip_prefix prefix l else None
  | _ :: _, [] => None
  end.

Definition parsePHCInteger (value prefix : bytes) (bits : Z) : result IdentError Z :=
  match strip_prefix prefix value with
  | None | Some [] => Err ErrVerifierUnsupported
  | Some (c :: rest) =>
      if Ascii.eqb c "0" && (0 <? blen rest) then Err ErrVerifierUnsupported
      else match parse_uint bits (c :: rest) with Some n => Ok n | None => Err ErrVerifierUnsupported end
  end.

Definition decode_part (part : bytes) : result IdentError bytes :=
  match base64_decode raw_std_encoding part with Some b => Ok b | None => Err ErrVerifierUnsupported end.

Definition parseVerifier (encoded : bytes) : result IdentError parsedVerifier :=
  _ ← reject_if ((blen encoded =? 0) || (maximumVerifierBytes <? blen encoded)) ErrVerifierUnsupported;
  match split_on "$" encoded with
  | [p0; p1; p2; p3; p4; p5] =>
      _ ← reject_if (negb (bool_decide (p0 = [])) || negb (bool_decide (p1 = to_bytes "argon2id"))
                     || negb (bool_decide (p2 = to_bytes "v=" ++ itoa argon2_Version))) ErrVerifierUnsupported;
      match split_on "," p3 with
      | [q0; q1; q2] =>
          m ← parsePHCInteger q0 (to_bytes "m=") 32;
          t ← parsePHCInteger q1 (to_bytes "t=") 32;
          p ← parsePHCInteger q2 (to_bytes "p=") 8;
          salt ← decode_part p4;
          hash ← decode_part p5;
          let parameters := mk_parameters m t p (blen salt) (blen hash) in
          _ ← map_err (fun _ => ErrVerifierUnsupported) (validatePasswordParameters parameters);
          Ok (mk_parsed parameters salt hash)
      | _ => Err ErrVerifierUnsupported
      end
  | _ => Err ErrVerifierUnsupported
  end.

(** [capacity] is false when the context ends while waiting for a slot. *)
Definition derivePassword (capacity : bool) (password salt : bytes) (p : passwordParameters) : result IdentError bytes :=
  if capacity then Ok (argon2_IDKey password salt (iterations p) (memory p) (parallelism p) (keyLength p))
  else Err (ErrInternal "wait for password verifier capacity").

(** [salt] is what the randomness source delivers, [None] when it fails. *)
Definition encodePassword (p : passwordParameters) (salt : option bytes) (capacity : bool) (password : bytes) : result IdentError bytes :=
  match salt with
  | None => Err (ErrInternal "generate password salt")
  | Some salt => hash ← derivePassword capacity password salt p; Ok (formatVerifier p salt hash)
  end.

Definition verifyPassword (capacity : bool) (password encoded : bytes) : result IdentError (bool * parsedVerifier) :=
  verifier ← parseVerifier encoded;
  actual ← derivePassword capacity password (pv_salt verifier) (pv_parameters verifier);
  Ok (bool_decide (actual = pv_hash verifier), verifier).

Definition shouldUpgradePassword (stored : parsedVerifier) (current : passwordParameters) : bool :=
  let s := pv_parameters stored in
  if negb ((memory s <=? memory current) && (iterations s <=? iterations current) && (parallelism s <=? parallelism current)
           && (saltLength s <=? saltLength current) && (keyLength s <=? keyLength current)) then false
  else (memory s <? memory current) || (iterations s <? iterations current) || (parallelism s <? parallelism current)
       || (saltLength s <? saltLength current) || (keyLength s <? keyLength current).
End Verifier.

Lemma strip_prefix_app p l : strip_prefix p (p ++ l) = Some l.
Proof. induction p as [|c p IH]; [done|]. cbn. by rewrite Ascii.eqb_refl. Qed.

Lemma strip_prefix_Some p l r : strip_prefix p l = Some r -> l = p ++ r.
Proof.
  revert l. induction p as [|c p IH]; intros l E; cbn in *; [congruence|]. destruct l as [|d l]; [done|].
  destruct (Ascii.eqb c d) eqn:Ec; [|done]. apply Ascii.eqb_eq in Ec as ->. by rewrite (IH _ E).
Qed.

(** ** Round trip of verifiers *)

Lemma outside_false lo hi n : outside lo hi n = false <-> lo <= n <= hi.
Proof. unfold outside. rewrite orb_false_iff, Z.ltb_ge, Z.ltb_ge. done. Qed.

Lemma validatePasswordParameters_Ok p u : validatePasswordParameters p = Ok u <->
  8192 <= memory p <= 262144 /\ 1 <= iterations p <= 10 /\ 1 <= parallelism p <= 16 /\
  16 <= saltLength p <= 64 /\ 16 <= keyLength p <= 64.
Proof.
  unfold validatePasswordParameters. repeat setoid_rewrite bind_Ok. repeat setoid_rewrite reject_if_Ok.
  repeat setoid_rewrite outside_false. change (8 * 1024) with 8192. change (256 * 1024) with 262144.
  split; [naive_solver|]. intros (? & ? & ? & ? & ?). exists tt. split; [done|]. exists tt. split; [done|].
  exists tt. split; [done|]. exists tt. done.
Qed.

Lemma digits_free c l : is_digit c = false -> forallb is_digit l = true -> free_of c l.
Proof. intros Hc Hl Hin. rewrite forallb_elem_of in Hl. rewrite Hl in Hc by done. done. Qed.

Lemma base64_free c l : base64_value raw_std_encoding c = None -> free_of c (base64_encode raw_std_encoding l).
Proof.
  intros Hc Hin. rewrite base64_encode_sextets in Hin by done. apply list_elem_of_fmap in Hin as (n & -> & Hn).
  pose proof (sextets_range l) as Hr. rewrite Forall_forall in Hr.
  destruct (value_sextet raw_std_encoding n) as [E _]; [by left|by apply Hr|]. congruence.
Qed.

Lemma free_app sep l r : free_of sep l -> free_of sep r -> free_of sep (l ++ r).
Proof. unfold free_of. set_solver. Qed.

Lemma parsePHCInteger_itoa prefix bits n : 0 <= n < 2 ^ bits -> bits <= 64 ->
  parsePHCInteger (prefix ++ itoa n) prefix bits = Ok n.
Proof.
  intros Hn Hb. unfold parsePHCInteger. rewrite strip_prefix_app.
  assert (2 ^ bits <= 2 ^ 64) by (apply Z.pow_le_mono_r; lia).
  destruct (itoa_spec n) as (_ & Hne & _ & _ & Hz); [lia|]. pose proof (parse_itoa bits n Hn Hb) as Hp.
  destruct (itoa n) as [|c rest]; [done|]. rewrite Hp.
  destruct (Ascii.eqb c "0" && _) eqn:E; [|done]. apply andb_true_iff in E as [Ec El]. apply Ascii.eqb_eq in Ec.
  bool_prop. exfalso. apply (Hz c rest eq_refl); [|done]. intros ->. unfold blen in El. cbn in El. lia.
Qed.

Lemma decode_part_encode l : decode_part (base64_encode raw_std_encoding l) = Ok l.
Proof. unfold decode_part. rewrite decode_encode_base64; [done|by left]. Qed.

Section RoundTrip.
Context `{Argon2Laws}.

(** Salt and hash have the lengths the parameters name. *)
Definition sized (p : passwordParameters) (salt hash : bytes) : Prop :=
  blen salt = saltLength p /\ blen hash = keyLength p.

Definition verifier_fields (p : passwordParameters) (salt hash : bytes) : list bytes :=
  [[]; to_bytes "argon2id"; to_bytes "v=" ++ itoa argon2_Version;
   join_with "," [to_bytes "m=" ++ itoa (memory p); to_bytes "t=" ++ itoa (iterations p); to_bytes "p=" ++ itoa (parallelism p)];
   base64_encode raw_std_encoding salt; base64_encode raw_std_encoding hash].

Lemma itoa_free c n : is_digit c = false -> 0 <= n < 2 ^ 64 -> free_of c (itoa n).
Proof. intros Hc Hn. apply digits_free; [done|]. by apply itoa_spec. Qed.

Lemma field_free c prefix n : is_digit c = false -> free_of c prefix -> 0 <= n < 2 ^ 64 -> free_of c (prefix ++ itoa n).
Proof. intros. by apply free_app, itoa_free. Qed.

Lemma text_free c s : existsb (Ascii.eqb c) (to_bytes s) = false -> free_of c (to_bytes s).
Proof. intros H1 H2. rewrite existsb_false in H1. specialize (H1 c H2). by rewrite Ascii.eqb_refl in H1. Qed.

Lemma blen_app {A} (l r : list A) : blen (l ++ r) = blen l + blen r.
Proof. unfold blen. rewrite length_app. lia. Qed.

Lemma blen_cons {A} (x : A) l : blen (x :: l) = 1 + blen l.
Proof. unfold blen. cbn [List.length]. lia. Qed.

Context (p : passwordParameters) (salt hash : bytes).
Context (Hp : validatePasswordParameters p = Ok tt) (Hs : sized p salt hash).

Lemma parameters_range : 0 <= memory p < 2 ^ 32 /\ 0 <= iterations p < 2 ^ 32 /\ 0 <= parallelism p < 2 ^ 8.
Proof using Hp. apply validatePasswordParameters_Ok in Hp. lia. Qed.

Lemma verifier_fields_free : Forall (free_of "$"%char) (verifier_fields p salt hash).
Proof using All.
  pose proof parameters_range. pose proof argon2_version_range.
  unfold verifier_fields, join_with.
  repeat constructor; repeat first [apply free_app | apply itoa_free; [reflexivity|lia] | apply text_free; reflexivity
    | apply base64_free; reflexivity | (intros Hin; apply elem_of_cons in Hin as [?|Hin]; [done|revert Hin]; fold (free_of "$"%char))].
  all: by apply not_elem_of_nil.
Qed.

Lemma parameter_fields_free :
  Forall (free_of ","%char) [to_bytes "m=" ++ itoa (memory p); to_bytes "t=" ++ itoa (iterations p); to_bytes "p=" ++ itoa (parallelism p)].
Proof using All.
  pose proof parameters_range. repeat constructor; apply field_free; first [reflexivity | apply text_free; reflexivity | lia].
Qed.

Lemma itoa_length n : 0 <= n < 2 ^ 64 -> 1 <= blen (itoa n) <= 20.
Proof. intros Hn. by apply itoa_spec. Qed.

Lemma formatVerifier_length : 1 <= blen (formatVerifier p salt hash) <= maximumVerifierBytes.
Proof using All.
  pose proof parameters_range. pose proof argon2_version_range. destruct Hs as [Hs1 Hs2].
  apply validatePasswordParameters_Ok in Hp.
  unfold formatVerifier, join_with. repeat rewrite ?blen_app, ?blen_cons.
  rewrite !raw_base64_length by by left. rewrite Hs1, Hs2.
  pose proof (itoa_length argon2_Version). pose proof (itoa_length (memory p)).
  pose proof (itoa_length (iterations p)). pose proof (itoa_length (parallelism p)).
  assert (E1 : blen (to_bytes "argon2id") = 8) by reflexivity. assert (E2 : blen (to_bytes "v=") = 2) by reflexivity.
  assert (E3 : blen (to_bytes "m=") = 2) by reflexivity. assert (E4 : blen (to_bytes "t=") = 2) by reflexivity.
  assert (E5 : blen (to_bytes "p=") = 2) by reflexivity. assert (E6 : blen (@nil ascii) = 0) by reflexivity.
  rewrite E1, E2, E3, E4, E5, E6. unfold maximumVerifierBytes.
  assert ((saltLength p * 4 + 2) / 3 <= 86) by euclid. assert ((keyLength p * 4 + 2) / 3 <= 86) by euclid.
  assert (0 <= (saltLength p * 4 + 2) / 3) by euclid. assert (0 <= (keyLength p * 4 + 2) / 3) by euclid. lia.
Qed.

(** A stored verifier parses back to what it was made of. *)
Lemma parse_formatVerifier : parseVerifier (formatVerifier p salt hash) = Ok (mk_parsed p salt hash).
Proof using All.
  pose proof formatVerifier_length as Hl. pose proof parameters_range as (? & ? & ?). unfold parseVerifier.
  rewrite (proj2 (Z.eqb_neq _ 0)) by lia. rewrite (proj2 (Z.ltb_ge maximumVerifierBytes _)) by lia. cbn [orb reject_if mbind result_bind].
  unfold formatVerifier. fold (verifier_fields p salt hash). rewrite split_join by (done || apply verifier_fields_free).
  unfold verifier_fields. rewrite !bool_decide_eq_true_2 by done. cbn [negb orb reject_if mbind result_bind].
  rewrite split_join by (done || apply parameter_fields_free).
  rewrite !parsePHCInteger_itoa by lia. cbn [mbind result_bind]. rewrite !decode_part_encode. cbn [mbind result_bind].
  destruct Hs as [-> ->]. replace (mk_parameters _ _ _ _ _) with p by by destruct p. rewrite Hp. done.
Qed.
End RoundTrip.

(** Accepted text is canonical: without line breaks, which the base64 decoder
    skips, it is exactly what [formatVerifier] prints. *)
Lemma parsePHCInteger_Ok value prefix bits n : 0 <= bits <= 64 -> parsePHCInteger value prefix bits = Ok n ->
  value = prefix ++ itoa n /\ 0 <= n < 2 ^ bits.
Proof.
  intros Hb. unfold parsePHCInteger. destruct (strip_prefix prefix value) as [[|c rest]|] eqn:Es; try done.
  apply strip_prefix_Some in Es as ->. destruct (Ascii.eqb c "0" && (0 <? blen rest)) eqn:Ez; [done|].
  destruct (parse_uint bits (c :: rest)) as [m|] eqn:Ep; [|done]. intros [= ->].
  unfold parse_uint in Ep. destruct (undigits (c :: rest)) as [m|] eqn:Eu; [|done]. cbn [mbind option_bind] in Ep.
  destruct (m <? 2 ^ bits) eqn:Em; [|done]. injection Ep as ->. bool_prop. pose proof (undigits_bounds _ _ Eu) as Bm.
  split; [|lia]. f_equal. symmetry. assert (L64 : 2 ^ bits <= 2 ^ 64) by (apply Z.pow_le_mono_r; lia).
  assert (Hz : forall d k, c :: rest = d :: k -> k <> [] -> d <> "0"%char).
  { intros d k [= <- <-] Hk ->. rewrite Ascii.eqb_refl in Ez. cbn in Ez. apply Z.ltb_ge in Ez. destruct rest; [done|].
    unfold blen in Ez. cbn in Ez. lia. }
  apply undigits_canonical; [done|done|lia|done].
Qed.

Definition unbroken (l : bytes) : Prop := forall c, c ∈ l -> newline c = false.

Lemma decode_part_Ok part b : unbroken part -> decode_part part = Ok b -> part = base64_encode raw_std_encoding b.
Proof.
  intros Hu. unfold decode_part. destruct (base64_decode raw_std_encoding part) as [d|] eqn:E; [|done]. intros [= ->].
  apply encode_decode_base64 in E; [|by left]. rewrite filter_all in E; [done|]. intros c Hc. apply negb_true_iff. by apply Hu.
Qed.

Lemma parseVerifier_Ok `{Argon2} encoded v : parseVerifier encoded = Ok v ->
  validatePasswordParameters (pv_parameters v) = Ok tt /\ sized (pv_parameters v) (pv_salt v) (pv_hash v) /\
  (unbroken encoded -> formatVerifier (pv_parameters v) (pv_salt v) (pv_hash v) = encoded).
Proof.
  unfold parseVerifier. intros (_ & _ & E)%bind_Ok.
  destruct (split_on "$" encoded) as [|p0 [|p1 [|p2 [|p3 [|p4 [|p5 [|]]]]]]] eqn:Es; try done.
  apply bind_Ok in E as (? & Hr%reject_if_Ok & E). bool_prop. subst p0 p1 p2.
  destruct (split_on "," p3) as [|q0 [|q1 [|q2 [|]]]] eqn:Eq; try done.
  apply bind_Ok in E as (m & Hm & E). apply bind_Ok in E as (t & Ht & E). apply bind_Ok in E as (p & Hp & E).
  apply bind_Ok in E as (salt & Hsalt & E). apply bind_Ok in E as (hash & Hhash & E).
  apply bind_Ok in E as ([] & Hv%map_err_Ok & E). injection E as <-. cbn [pv_parameters pv_salt pv_hash].
  split_and!; [done|by split|]. intros Hu.
  apply parsePHCInteger_Ok in Hm as [-> _]; [|lia]. apply parsePHCInteger_Ok in Ht as [-> _]; [|lia].
  apply parsePHCInteger_Ok in Hp as [-> _]; [|lia].
  assert (Hpart : forall q, q ∈ split_on "$" encoded -> unbroken q) by (intros q Hq c Hc; apply Hu; by eapply split_elem).
  rewrite Es in Hpart.
  apply decode_part_Ok in Hsalt as ->; [|apply Hpart; do 4 right; by left].
  apply decode_part_Ok in Hhash as ->; [|apply Hpart; do 5 right; by left].
  unfold formatVerifier. cbn [memory iterations parallelism]. rewrite <- Eq, join_split, <- Es. apply join_split.
Qed.

(** Upgrading never repeats: the current parameters are not upgraded, and an
    upgrade makes no factor smaller and one larger. *)
Definition strictly_stronger (current stored : passwordParameters) : Prop :=
  (memory stored <= memory current /\ iterations stored <= iterations current /\ parallelism stored <= parallelism current /\
   saltLength stored <= saltLength current /\ keyLength stored <= keyLength current) /\ stored <> current.

Lemma shouldUpgradePassword_spec v current : shouldUpgradePassword v current = true <-> strictly_stronger current (pv_parameters v).
Proof.
  unfold shouldUpgradePassword, strictly_stronger. destruct (pv_parameters v) as [m t p s k], current as [m' t' p' s' k']. cbn.
  destruct (negb _) eqn:E.
  - split; [done|]. intros [(? & ? & ? & ? & ?) _]. apply negb_true_iff in E.
    rewrite !andb_false_iff, !Z.leb_gt in E. lia.
  - bool_prop. rewrite !orb_true_iff, !Z.ltb_lt. split.
    + intros G. split; [done|]. intros [= -> -> -> -> ->]. lia.
    + intros [_ Hne]. destruct (decide (m = m')), (decide (t = t')), (decide (p = p')), (decide (s = s')), (decide (k = k')); try lia.
      by subst.
Qed.
