(* ===== verification/IdentService.v ===== *)
(** The identity service of internal/identity (service.go, session.go): the
    administrator row and the session table with their constraints, every
    statement and transaction on them, and the service methods.  Other
    goroutines act on the shared database between the calls of a method:
    [others n] are the database calls that commit just before its [n]-th one.
    SHA-256 and the random bytes are parameters. *)
From S2P Require Import Prelude.
From S2P Require Import GoText.
From S2P Require Import GoTime.
From S2P Require Import GoDecode.
From S2P Require Import Effects.
From S2P Require Import IdentPassword.

#[local] Open Scope Z_scope.

(** ** Tables *)

Record Administrator := mk_admin {
  password_verifier : bytes;
  auth_epoch : Z;
  a_created_at_unix : Z;
  password_changed_at_unix : Z;
}.

(** The column administrator_id is 1 in every row and is left out. *)
Record SessionRow := mk_session {
  s_id : Z;
  s_auth_epoch : Z;
  current_token_hash : bytes;
  previous_token_hash : option bytes;
  previous_valid_until_unix : option Z;
  csrf_token_hash : bytes;
  created_at_unix : Z;
  last_seen_at_unix : Z;
  idle_expires_at_unix : Z;
  absolute_expires_at_unix : Z;
  rotate_after_unix : Z;
}.

Record Db := mk_db {
  administrator : option Administrator;
  identity_sessions : list SessionRow;
}.

#[export] Instance ident_db_error : DbError IdentError := ErrInternal.

Definition digest_size : Z := 32.

Definition administrator_check (a : Administrator) : bool :=
  (0 <? auth_epoch a) && (1 <=? blen (password_verifier a)) && (blen (password_verifier a) <=? 1024).

Definition session_check (r : SessionRow) : bool :=
  (0 <? s_auth_epoch r) && (blen (current_token_hash r) =? digest_size)
  && match previous_token_hash r with Some h => blen h =? digest_size | None => true end
  && (blen (csrf_token_hash r) =? digest_size)
  && Bool.eqb (bool_decide (previous_token_hash r = None)) (bool_decide (previous_valid_until_unix r = None))
  && (created_at_unix r <=? last_seen_at_unix r)
  && (last_seen_at_unix r <=? idle_expires_at_unix r)
  && (idle_expires_at_unix r <=? absolute_expires_at_unix r).

(** The constraints of the session table: the row checks and the two UNIQUE
    columns, of which the second ignores NULL. *)
Definition sessions_check (rows : list SessionRow) : bool :=
  forallb session_check rows
  && bool_decide (NoDup (current_token_hash <$> rows))
  && bool_decide (NoDup (omap previous_token_hash rows)).

(** ** Statements *)

Definition epoch_of (d : Db) : Z := match administrator d with Some a => auth_epoch a | None => -1 end.

(** [auth_epoch = (SELECT auth_epoch FROM administrator ...)]; comparing with
    NULL is not true. *)
Definition current_epoch (d : Db) (r : SessionRow) : bool :=
  match administrator d with Some a => s_auth_epoch r =? auth_epoch a | None => false end.

Definition delete_sessions (where_ : SessionRow -> bool) (d : Db) : option (Z * Db) :=
  let rest := List.filter (fun r => negb (where_ r)) (identity_sessions d) in
  Some (blen (identity_sessions d) - blen rest, mk_db (administrator d) rest).

Definition update_sessions (where_ : SessionRow -> bool) (set_ : SessionRow -> SessionRow) (d : Db) : option (Z * Db) :=
  let rows := (fun r => if where_ r then set_ r else r) <$> identity_sessions d in
  if sessions_check rows
  then Some (blen (List.filter where_ (identity_sessions d)), mk_db (administrator d) rows)
  else None.

Definition update_administrator (where_ : Administrator -> bool) (set_ : Administrator -> Administrator) (d : Db) : option (Z * Db) :=
  match administrator d with
  | Some a => if where_ a then if administrator_check (set_ a) then Some (1, mk_db (Some (set_ a)) (identity_sessions d)) else None
              else Some (0, d)
  | None => Some (0, d)
  end.

(** [INSERT OR IGNORE INTO administrator] *)
Definition insert_administrator (a : Administrator) (d : Db) : option (Z * Db) :=
  match administrator d with
  | Some _ => Some (0, d)
  | None => if administrator_check a then Some (1, mk_db (Some a) (identity_sessions d)) else Some (0, d)
  end.

(** SQLite gives a new row of an INTEGER PRIMARY KEY one more than the largest id. *)
Definition next_id (rows : list SessionRow) : Z := 1 + foldr Z.max 0 (s_id <$> rows).

(** [INSERT INTO identity_sessions ... SELECT ... FROM administrator WHERE auth_epoch = ?] *)
Definition insert_session (epoch : Z) (token csrf : bytes) (now idle absolute rotate : Z) (d : Db) : option (Z * Db) :=
  match administrator d with
  | Some a =>
      if auth_epoch a =? epoch then
        let row := mk_session (next_id (identity_sessions d)) (auth_epoch a) token None None csrf now now idle absolute rotate in
        let rows := identity_sessions d ++ [row] in
        if sessions_check rows then Some (1, mk_db (administrator d) rows) else None
      else Some (0, d)
  | None => Some (0, d)
  end.

(** [ORDER BY last_seen_at_unix DESC, id DESC] *)
Definition recent_first (a b : SessionRow) : bool :=
  (last_seen_at_unix b <? last_seen_at_unix a)
  || ((last_seen_at_unix a =? last_seen_at_unix b) && (s_id b <=? s_id a)).

(** [DELETE ... WHERE id NOT IN (SELECT id ... LIMIT ?)] *)
Definition trim_sessions (limit : Z) (d : Db) : option (Z * Db) :=
  let kept := s_id <$> take (Z.to_nat limit) (sort_by recent_first (identity_sessions d)) in
  delete_sessions (fun r => negb (bool_decide (s_id r ∈ kept))) d.

(** ** Database calls *)

Record administratorRecord := mk_administratorRecord { ar_verifier : bytes; ar_epoch : Z }.

Abbreviation Store := (M (world Db) IdentError).

Definition ident_query {A} (what : string) (f : Db -> A) : Store A := autocommit what (fun d => Some (f d, d)).

Definition select_administrator : Store (option administratorRecord) :=
  ident_query "load administrator verifier" (fun d =>
    (fun a => mk_administratorRecord (password_verifier a) (auth_epoch a)) <$> administrator d).

(** The JOIN with the administrator keeps rows of the current epoch only. *)
Definition find_session (hash : bytes) (d : Db) : option SessionRow :=
  List.find (fun r => current_epoch d r
    && (bool_decide (current_token_hash r = hash) || bool_decide (previous_token_hash r = Some hash)))
    (identity_sessions d).

Definition loadSession (hash : bytes) : Store (option SessionRow) := ident_query "load session" (find_session hash).

Definition db_initialized : Store bool :=
  ident_query "inspect administrator initialization" (fun d => bool_decide (administrator d <> None)).

Definition db_bootstrap (verifier : bytes) (now : Z) : Store unit :=
  transaction "begin administrator bootstrap" (
    created ← statement "create administrator" (insert_administrator (mk_admin verifier 1 now now));
    _ ← lift (reject_if (negb (created =? 1)) ErrAlreadyInitialized);
    commit "commit administrator bootstrap").

Definition bump_epoch (replacementVerifier : bytes) (now : Z) (a : Administrator) : Administrator :=
  match replacementVerifier with
  | [] => mk_admin (password_verifier a) (auth_epoch a + 1) (a_created_at_unix a) (password_changed_at_unix a)
  | _ => mk_admin replacementVerifier (auth_epoch a + 1) (a_created_at_unix a) now
  end.

Definition db_advance (replacementVerifier : bytes) (now : Z) : Store unit :=
  transaction "begin administrator security change" (
    updated ← statement "update administrator security state" (update_administrator (fun _ => true) (bump_epoch replacementVerifier now));
    _ ← lift (reject_if (negb (updated =? 1)) ErrUninitialized);
    _ ← statement "revoke administrator sessions" (delete_sessions (fun _ => true));
    commit "commit administrator security change").

Definition stale_session (nowUnix epoch : Z) (r : SessionRow) : bool :=
  (idle_expires_at_unix r <=? nowUnix) || (absolute_expires_at_unix r <=? nowUnix) || negb (s_auth_epoch r =? epoch).

Definition upgrade_verifier (a : administratorRecord) (replacement : bytes) : Db -> option (Z * Db) :=
  update_administrator (fun row => (auth_epoch row =? ar_epoch a) && bool_decide (password_verifier row = ar_verifier a))
    (fun row => mk_admin replacement (auth_epoch row) (a_created_at_unix row) (password_changed_at_unix row)).

(** Expiry instants of a new session, in nanoseconds. *)
Definition absolute_expiry (policy : sessionPolicy) (now : Z) : Z := now + absoluteLifetime policy.
Definition idle_expiry (policy : sessionPolicy) (now : Z) : Z :=
  if absolute_expiry policy now <? now + idleLifetime policy then absolute_expiry policy now else now + idleLifetime policy.
Definition seconds (ns : Z) : Z := ns / ns_per_second.

Definition db_create (policy : sessionPolicy) (a : administratorRecord) (replacementVerifier token csrf : bytes) (now : Z) : Store unit :=
  transaction "begin session creation" (
    _ ← statement "remove expired sessions" (fun d => delete_sessions (stale_session (seconds now) (epoch_of d)) d);
    _ ← match replacementVerifier with
        | [] => mret 0
        | _ => statement "upgrade password verifier" (upgrade_verifier a replacementVerifier)
        end;
    created ← statement "store session" (insert_session (ar_epoch a) token csrf (seconds now)
      (seconds (idle_expiry policy now)) (seconds (absolute_expiry policy now)) (seconds (now + rotationAfter policy)));
    _ ← lift (reject_if (negb (created =? 1)) ErrInvalidCredentials);
    _ ← statement "bound administrator sessions" (trim_sessions (maximumSessions policy));
    commit "commit session creation").

Definition db_expire (record : SessionRow) (hash : bytes) : Store Z :=
  autocommit "delete expired session" (delete_sessions (fun r =>
    (s_id r =? s_id record) && (s_auth_epoch r =? s_auth_epoch record)
    && (bool_decide (current_token_hash r = hash) || bool_decide (previous_token_hash r = Some hash)))).

Definition forget_previous (r : SessionRow) : SessionRow :=
  mk_session (s_id r) (s_auth_epoch r) (current_token_hash r) None None (csrf_token_hash r) (created_at_unix r)
    (last_seen_at_unix r) (idle_expires_at_unix r) (absolute_expires_at_unix r) (rotate_after_unix r).

Definition db_forget (id : Z) (hash : bytes) : Store Z :=
  autocommit "forget previous token" (update_sessions
    (fun r => (s_id r =? id) && bool_decide (previous_token_hash r = Some hash)) forget_previous).

Definition rotate_row (policy : sessionPolicy) (replacement : bytes) (effectiveNow idle : Z) (r : SessionRow) : SessionRow :=
  mk_session (s_id r) (s_auth_epoch r) replacement (Some (current_token_hash r))
    (Some (effectiveNow + seconds (previousGrace policy))) (csrf_token_hash r) (created_at_unix r)
    effectiveNow idle (absolute_expires_at_unix r) (effectiveNow + seconds (rotationAfter policy)).

Definition db_rotate (policy : sessionPolicy) (id : Z) (hash replacement : bytes) (effectiveNow idle : Z) : Store Z :=
  autocommit "persist session rotation" (fun d => update_sessions
    (fun r => (s_id r =? id) && bool_decide (current_token_hash r = hash) && (rotate_after_unix r <=? effectiveNow) && current_epoch d r)
    (rotate_row policy replacement effectiveNow idle) d).

Definition touch_row (effectiveNow idle : Z) (r : SessionRow) : SessionRow :=
  mk_session (s_id r) (s_auth_epoch r) (current_token_hash r) (previous_token_hash r) (previous_valid_until_unix r)
    (csrf_token_hash r) (created_at_unix r) effectiveNow idle (absolute_expires_at_unix r) (rotate_after_unix r).

Definition accepts_token (hash : bytes) (effectiveNow : Z) (r : SessionRow) : bool :=
  bool_decide (current_token_hash r = hash)
  || (bool_decide (previous_token_hash r = Some hash)
      && match previous_valid_until_unix r with Some until => effectiveNow <? until | None => false end).

Definition db_touch (id : Z) (hash : bytes) (effectiveNow idle : Z) : Store Z :=
  autocommit "advance session activity" (fun d => update_sessions
    (fun r => (s_id r =? id) && current_epoch d r && accepts_token hash effectiveNow r) (touch_row effectiveNow idle) d).

Definition db_logout (hash : bytes) : Store Z :=
  autocommit "delete session" (delete_sessions (fun r =>
    bool_decide (current_token_hash r = hash) || bool_decide (previous_token_hash r = Some hash))).

(** A database call of some goroutine that may change the tables. *)
Inductive Action :=
| ABootstrap (verifier : bytes) (now : Z)
| AAdvance (replacementVerifier : bytes) (now : Z)
| ACreate (a : administratorRecord) (replacementVerifier token csrf : bytes) (now : Z)
| AExpire (record : SessionRow) (hash : bytes)
| AForget (id : Z) (hash : bytes)
| ARotate (id : Z) (hash replacement : bytes) (effectiveNow idle : Z)
| ATouch (id : Z) (hash : bytes) (effectiveNow idle : Z)
| ALogout (hash : bytes).

Definition act (policy : sessionPolicy) (a : Action) : Store unit :=
  match a with
  | ABootstrap v now => db_bootstrap v now
  | AAdvance v now => db_advance v now
  | ACreate r v t c now => db_create policy r v t c now
  | AExpire r h => _ ← db_expire r h; mret tt
  | AForget i h => _ ← db_forget i h; mret tt
  | ARotate i h h' e idle => _ ← db_rotate policy i h h' e idle; mret tt
  | ATouch i h e idle => _ ← db_touch i h e idle; mret tt
  | ALogout h => _ ← db_logout h; mret tt
  end.

(** Calls of other goroutines; their errors are theirs. *)
Definition act_all (policy : sessionPolicy) (l : list Action) (w : world Db) : world Db :=
  fold_left (fun w a => (act policy a w).2) l w.

(** The methods of internal/identity.Service over the calls of IdentService. *)

Record SessionGrant := mk_grant {
  g_Token : bytes;
  g_CSRFToken : bytes;
  g_IdleExpiresAt : Z;
  g_AbsoluteExpiresAt : Z;
}.

(** Instants are Unix nanoseconds; no replacement is the empty token. *)
Record ActiveSession := mk_active {
  ReplacementToken : bytes;
  as_IdleExpiresAt : Z;
  as_AbsoluteExpiresAt : Z;
  csrfTokenHash : bytes;
}.

Definition tokenByteLength : Z := 32.
Definition dummyPassword : bytes := to_bytes "AcmeMux timing equalization password".

(** The service's own fields. *)
Record Service := mk_service {
  passwordParameters_ : passwordParameters;
  sessionPolicy_ : sessionPolicy;
  dummyVerifier : bytes;
}.

(** The shared database, the number of database calls this method made and
    the number of times it read the randomness source. *)
Record run := mk_run { r_db : world Db; r_calls : nat; r_draws : nat }.
Abbreviation W := (M run IdentError).

Section Identity.
Context `{Argon2}.
(** [sha256.Sum256]; the wall clock in nanoseconds, read before the [n]-th
    database call; the [k]-th read of the randomness source; whether the [k]-th
    key derivation gets a slot; the calls of other goroutines. *)
Context (sha256 : bytes -> bytes) (service : Service).
Context (clock : nat -> Z) (random : nat -> Z -> option bytes) (capacity : bool) (others : nat -> list Action).

Definition call {A} (m : Store A) : W A := fun s =>
  let '(r, w) := m (act_all (sessionPolicy_ service) (others (r_calls s)) (r_db s)) in
  (r, mk_run w (S (r_calls s)) (r_draws s)).

Definition utcNow : W Z := fun s => (Ok (clock (r_calls s)), s).

Definition readRandom (n : Z) : W (option bytes) := fun s =>
  (Ok (random (r_draws s) n), mk_run (r_db s) (r_calls s) (S (r_draws s))).

(** ** Tokens *)

Definition newToken (what : string) : W (bytes * bytes) :=
  contents ← readRandom tokenByteLength;
  match contents with
  | None => fail (ErrInternal what)
  | Some c => let raw := base64_encode raw_url_encoding c in mret (raw, sha256 raw)
  end.

Definition decodeToken (raw : bytes) : result IdentError (bytes * bytes) :=
  if negb (blen raw =? (tokenByteLength * 8 + 5) / 6) then Err ErrInvalidSession
  else match base64_decode raw_url_encoding raw with
       | None => Err ErrInvalidSession
       | Some decoded => if negb (blen decoded =? tokenByteLength) then Err ErrInvalidSession else Ok (decoded, sha256 raw)
       end.

Definition fixedDigest (value : bytes) : result IdentError bytes :=
  if negb (blen value =? digest_size) then Err (ErrInternal "persisted identity token hash has invalid length") else Ok value.

Definition ValidCSRF (session : ActiveSession) (rawToken : bytes) : bool :=
  match decodeToken rawToken with
  | Err _ => false
  | Ok (_, digest) => bool_decide (digest = csrfTokenHash session)
  end.

(** ** Administrator *)

Definition Initialized : W bool := call db_initialized.

Definition encode (password : bytes) : W bytes :=
  salt ← readRandom (saltLength (passwordParameters_ service));
  lift (encodePassword (passwordParameters_ service) salt capacity password).

Definition Bootstrap (password : bytes) : W unit :=
  _ ← lift (validateNewPassword password);
  verifier ← encode password;
  now ← utcNow;
  call (db_bootstrap verifier (seconds now)).

Definition advanceEpoch (replacementVerifier : bytes) : W unit :=
  now ← utcNow; call (db_advance replacementVerifier (seconds now)).

Definition ResetPassword (password : bytes) : W unit :=
  _ ← lift (validateNewPassword password);
  verifier ← encode password;
  advanceEpoch verifier.

Definition RevokeSessions : W unit := advanceEpoch [].

Definition loadAdministrator : W administratorRecord :=
  row ← call select_administrator;
  match row with None => fail ErrUninitialized | Some a => mret a end.

(** ** Sessions *)

Definition createSession (a : administratorRecord) (replacementVerifier : bytes) : W SessionGrant :=
  '(rawToken, tokenHash) ← newToken "generate session token";
  '(rawCSRFToken, csrfHash) ← newToken "generate CSRF token";
  now ← utcNow;
  let policy := sessionPolicy_ service in
  _ ← call (db_create policy a replacementVerifier tokenHash csrfHash now);
  mret (mk_grant rawToken rawCSRFToken (idle_expiry policy now) (absolute_expiry policy now)).

Definition upgrade (password : bytes) (parsed : parsedVerifier) : W bytes :=
  if shouldUpgradePassword parsed (passwordParameters_ service) then encode password else mret [].

Definition Authenticate (password : bytes) : W SessionGrant :=
  let forceInvalid := (maximumPasswordBytes <? blen password) || negb (utf8_valid password) in
  let candidate := if forceInvalid then dummyPassword else password in
  loaded ← attempt loadAdministrator;
  match loaded with
  | Err ErrUninitialized =>
      _ ← lift (verifyPassword capacity candidate (dummyVerifier service));
      fail ErrInvalidCredentials
  | Err e => fail e
  | Ok a =>
      '(verified, parsed) ← lift (verifyPassword capacity candidate (ar_verifier a));
      if negb verified || forceInvalid then fail ErrInvalidCredentials
      else
        replacementVerifier ← upgrade password parsed;
        createSession a replacementVerifier
  end.

Definition active (replacement : bytes) (idle : Z) (record : SessionRow) : W ActiveSession :=
  csrf ← lift (fixedDigest (csrf_token_hash record));
  mret (mk_active replacement (second_ns idle) (second_ns (absolute_expires_at_unix record)) csrf).

(** Advance the idle window of a session that need not rotate. *)
Definition touch (hash : bytes) (record : SessionRow) (effectiveNow idle : Z) : W ActiveSession :=
  updated ← call (db_touch (s_id record) hash effectiveNow idle);
  if negb (updated =? 1) then fail ErrInvalidSession else active [] idle record.

(** Replace a due current token; [again] is the second validation for the
    loser of a race. *)
Definition rotate (again : W ActiveSession) (hash : bytes) (record : SessionRow) (effectiveNow idle : Z) : W ActiveSession :=
  '(replacementToken, replacementHash) ← newToken "rotate session token";
  rotated ← call (db_rotate (sessionPolicy_ service) (s_id record) hash replacementHash effectiveNow idle);
  if rotated =? 1 then active replacementToken idle record else again.

(** The clock reading, never before the session was last seen. *)
Definition effective_now (now : Z) (record : SessionRow) : Z :=
  let nowUnix := seconds now in
  if nowUnix <? last_seen_at_unix record then last_seen_at_unix record else nowUnix.

Definition expired (record : SessionRow) (effectiveNow : Z) : bool :=
  (idle_expires_at_unix record <=? effectiveNow) || (absolute_expires_at_unix record <=? effectiveNow).

Definition matches_current (hash : bytes) (record : SessionRow) : bool := bool_decide (hash = current_token_hash record).
Definition matches_previous (hash : bytes) (record : SessionRow) : bool :=
  bool_decide (previous_token_hash record = Some hash) && (blen hash =? digest_size).

(** The grace period of the previous token is over. *)
Definition grace_over (record : SessionRow) (effectiveNow : Z) : bool :=
  match previous_valid_until_unix record with Some until => until <=? effectiveNow | None => true end.

Definition next_idle (record : SessionRow) (effectiveNow : Z) : Z :=
  let wanted := effectiveNow + idleLifetime (sessionPolicy_ service) / ns_per_second in
  if absolute_expires_at_unix record <? wanted then absolute_expires_at_unix record else wanted.

(** [validateSessionHash] after its query found [record]; [again] is present
    when rotation is allowed. *)
Definition validate_record (again : option (W ActiveSession)) (hash : bytes) (record : SessionRow) : W ActiveSession :=
  now ← utcNow;
  let effectiveNow := effective_now now record in
  if expired record effectiveNow then
    _ ← attempt (call (db_expire record hash)); fail ErrSessionExpired
  else if negb (matches_current hash record) && negb (matches_previous hash record) then fail ErrInvalidSession
  else if matches_previous hash record && grace_over record effectiveNow then
    _ ← attempt (call (db_forget (s_id record) hash)); fail ErrInvalidSession
  else
    let idle := next_idle record effectiveNow in
    match again with
    | Some again =>
        if matches_current hash record && (rotate_after_unix record <=? effectiveNow)
        then rotate again hash record effectiveNow idle
        else touch hash record effectiveNow idle
    | None => touch hash record effectiveNow idle
    end.

Definition validate_with (again : option (W ActiveSession)) (hash : bytes) : W ActiveSession :=
  found ← call (loadSession hash);
  match found with None => fail ErrInvalidSession | Some record => validate_record again hash record end.

Definition validateSessionHash (hash : bytes) (allowRotation : bool) : W ActiveSession :=
  validate_with (if allowRotation then Some (validate_with None hash) else None) hash.

Definition ValidateSession (rawToken : bytes) : W ActiveSession :=
  match decodeToken rawToken with
  | Err _ => fail ErrInvalidSession
  | Ok (_, hash) => validateSessionHash hash true
  end.

Definition Logout (rawToken : bytes) : W unit :=
  match decodeToken rawToken with
  | Err _ => mret tt
  | Ok (_, hash) => _ ← call (db_logout hash); mret tt
  end.
End Identity.

(** ** [New] *)

Definition dummy_salt (n : Z) : bytes :=
  (fun i => z2b ((Z.of_nat i * 17 + 29) mod 256)) <$> seq 0 (Z.to_nat n).

Definition New `{Argon2} (c : configuration) : result IdentError Service :=
  _ ← map_err ErrInternal (configuration_validate c);
  let p := cf_passwordParameters c in
  let salt := dummy_salt (saltLength p) in
  hash ← derivePassword true dummyPassword salt p;
  Ok (mk_service p (cf_sessionPolicy c) (formatVerifier p salt hash)).
