(* ===== verification/IdentFacts.v ===== *)
(** What every database call keeps true of the identity tables, whatever
    goroutine makes it and whatever faults the engine reports. *)
From S2P Require Import Prelude.
From S2P Require Import GoText.
From S2P Require Import GoTime.
From S2P Require Import GoDecode.
From S2P Require Import Effects.
From S2P Require Import Refine.
From S2P Require Import IdentPassword.
From S2P Require Import IdentService.

#[local] Open Scope Z_scope.

(** ** Calls and the tables *)

Section Keeps.
Context {Db E : Type} `{!DbError E}.

(** The tables after a call, whether it succeeded or not, are related to those before. *)
Definition moves {A} (R : Db -> Db -> Prop) (m : M (world Db) E A) : Prop := forall w, R (w_db w) (w_db (m w).2).

Lemma autocommit_cases {A} what (f : Db -> option (A * Db)) w :
  (exists e w', autocommit what f w = (Err e, w') /\ w_db w' = w_db w) \/
  (exists a w', autocommit what f w = (Ok a, w') /\ f (w_db w) = Some (a, w_db w')).
Proof.
  unfold autocommit, transaction, statement. destruct (next_fault (w_faults w)) as [[] fl]; [left; eauto|].
  cbn. destruct (next_fault fl) as [[] fl2]; [left; eauto|]. destruct (f (w_db w)) as [[a d]|]; [right|left]; eauto.
Qed.

Lemma moves_autocommit {A} (R : Db -> Db -> Prop) `{!Reflexive R} what (f : Db -> option (A * Db)) :
  (forall d a d', f d = Some (a, d') -> R d d') -> moves R (autocommit what f).
Proof.
  intros H w. destruct (autocommit_cases what f w) as [(e & w' & -> & E')|(a & w' & -> & E')]; cbn; [by rewrite E'|by eapply H].
Qed.

Lemma moves_transaction {A} (R : Db -> Db -> Prop) `{!Reflexive R} what (body : M (txn Db) E A) :
  preserves_on_error same_durable body ->
  (forall t a t', tx_working t = tx_durable t -> body t = (Ok a, t') -> R (tx_durable t) (tx_durable t')) ->
  moves R (transaction what body).
Proof.
  intros Hq H w. destruct (transaction what body w) as [[a|e] w'] eqn:E'; cbn.
  - apply transaction_Ok in E' as (t & t' & E1 & E2 & E3 & ->). rewrite <- E1. apply (H t a t'); [congruence|done].
  - apply transaction_atomic in E'; [|done]. unfold same_db in E'. by rewrite E'.
Qed.

Lemma moves_then {A B} (R : Db -> Db -> Prop) (m : M (world Db) E A) (f : A -> B) : moves R m -> moves R (a ← m; mret (f a)).
Proof. intros H w. specialize (H w). unfold mbind, M_bind. by destruct (m w) as [[a|e] w']. Qed.
End Keeps.

(** ** Filtering and updating rows *)

Lemma lfilter_sublist {A} (g : A -> bool) l : List.filter g l `sublist_of` l.
Proof. induction l as [|x l IH]; cbn; [done|]. destruct (g x); by constructor. Qed.

Lemma sublist_omap {A B} (g : A -> option B) l k : l `sublist_of` k -> omap g l `sublist_of` omap g k.
Proof. induction 1; cbn; [done|..]; case_match; try done; by constructor. Qed.

Lemma fmap_sublist {A B} (g : A -> B) l k : l `sublist_of` k -> g <$> l `sublist_of` g <$> k.
Proof. induction 1; cbn; by constructor. Qed.

Lemma lfilter_elem {A} (g : A -> bool) l x : x ∈ List.filter g l -> x ∈ l /\ g x = true.
Proof. by rewrite !list_elem_of_In, List.filter_In. Qed.

Lemma NoDup_sublist {A} (l k : list A) : l `sublist_of` k -> NoDup k -> NoDup l.
Proof. intros. by eapply sublist_NoDup. Qed.

Lemma sessions_check_sublist l k : l `sublist_of` k -> sessions_check k = true -> sessions_check l = true.
Proof.
  unfold sessions_check. intros Hs H. bool_prop. rewrite !andb_true_iff, !bool_decide_eq_true. split_and!.
  - apply forallb_elem_of. intros x Hx. rewrite forallb_elem_of in H. apply H. by eapply elem_of_sublist.
  - eapply NoDup_sublist; [by apply fmap_sublist|done].
  - eapply NoDup_sublist; [by apply sublist_omap|done].
Qed.

(** ** The invariant *)

Section Invariant.
Context (policy : sessionPolicy).

(** Whole seconds a session may last, rounded up. *)
Definition lifetime_seconds : Z := (absoluteLifetime policy + (ns_per_second - 1)) / ns_per_second.

(** Everything but the bound on the number of sessions. *)
Record rows_ok (d : Db) : Prop := {
  ro_check : sessions_check (identity_sessions d) = true;
  ro_ids : NoDup (s_id <$> identity_sessions d);
  ro_epoch : forall r, r ∈ identity_sessions d -> current_epoch d r = true;
  ro_life : forall r, r ∈ identity_sessions d -> absolute_expires_at_unix r <= created_at_unix r + lifetime_seconds;
}.

Record tables_ok (d : Db) : Prop := {
  to_rows : rows_ok d;
  to_count : blen (identity_sessions d) <= maximumSessions policy;
}.

Definition keeps {A} (I : Db -> Prop) (m : Store A) : Prop := moves (fun d d' => I d -> I d') m.

Lemma keeps_autocommit {A} (I : Db -> Prop) what (f : Db -> option (A * Db)) :
  (forall d a d', I d -> f d = Some (a, d') -> I d') -> keeps I (autocommit what f).
Proof. intros H. apply moves_autocommit; [by intros d|]. intros d a d' Hf Hi. by eapply H. Qed.

Lemma rows_ok_delete where_ d n d' : rows_ok d -> delete_sessions where_ d = Some (n, d') ->
  rows_ok d' /\ administrator d' = administrator d /\ identity_sessions d' `sublist_of` identity_sessions d.
Proof.
  unfold delete_sessions. intros [H1 H2 H3 H4] [= _ <-]. cbn.
  pose proof (lfilter_sublist (fun r => negb (where_ r)) (identity_sessions d)) as Hs.
  split_and!; [split; cbn|done|done].
  - by eapply sessions_check_sublist.
  - eapply NoDup_sublist; [by apply fmap_sublist|done].
  - intros r [Hr _]%lfilter_elem. by apply H3.
  - intros r [Hr _]%lfilter_elem. by apply H4.
Qed.

Lemma tables_ok_delete where_ d n d' : tables_ok d -> delete_sessions where_ d = Some (n, d') -> tables_ok d'.
Proof.
  intros [Hr Hc] Hd. destruct (rows_ok_delete _ _ _ _ Hr Hd) as (H1 & _ & H3). split; [done|].
  apply sublist_length in H3. unfold blen in *. lia.
Qed.

(** Updates keep identity, epoch, creation and absolute expiry of a row. *)
Definition keeps_session (set_ : SessionRow -> SessionRow) : Prop := forall r,
  s_id (set_ r) = s_id r /\ s_auth_epoch (set_ r) = s_auth_epoch r /\
  created_at_unix (set_ r) = created_at_unix r /\ absolute_expires_at_unix (set_ r) = absolute_expires_at_unix r.

Lemma tables_ok_update where_ set_ d n d' : keeps_session set_ -> tables_ok d -> update_sessions where_ set_ d = Some (n, d') -> tables_ok d'.
Proof.
  intros Hset [[H1 H2 H3 H4] Hc]. unfold update_sessions.
  set (rows := (fun r => if where_ r then set_ r else r) <$> identity_sessions d).
  destruct (sessions_check rows) eqn:E; [|done]. intros [= _ <-].
  assert (Hrow : forall r, r ∈ rows -> exists r0, r0 ∈ identity_sessions d /\ s_id r = s_id r0 /\ s_auth_epoch r = s_auth_epoch r0 /\
            created_at_unix r = created_at_unix r0 /\ absolute_expires_at_unix r = absolute_expires_at_unix r0).
  { intros r (r0 & -> & Hr0)%list_elem_of_fmap. exists r0. split; [done|]. destruct (where_ r0); [apply Hset|done]. }
  assert (Eid : s_id <$> rows = s_id <$> identity_sessions d).
  { unfold rows. rewrite <- list_fmap_compose. apply list_fmap_ext. intros i r _. cbn. destruct (where_ r); [apply Hset|done]. }
  split; [split; cbn|cbn; unfold blen, rows in *; by rewrite length_fmap].
  - done.
  - by rewrite Eid.
  - intros r (r0 & Hr0 & _ & Ee & _)%Hrow. specialize (H3 r0 Hr0). unfold current_epoch in *. cbn. by rewrite Ee.
  - intros r (r0 & Hr0 & _ & _ & Ec & Ea)%Hrow. rewrite Ec, Ea. by apply H4.
Qed.

Lemma next_id_fresh rows : next_id rows ∉ s_id <$> rows.
Proof.
  unfold next_id. intros H. assert (G : forall l (x : Z), x ∈ l -> x <= foldr Z.max 0 l).
  { induction l as [|y l IH]; intros x Hx; [by apply not_elem_of_nil in Hx|]. cbn. apply elem_of_cons in Hx as [->|Hx]; [lia|].
    specialize (IH x Hx). lia. }
  specialize (G _ _ H). lia.
Qed.

Lemma rows_ok_insert epoch token csrf now idle absolute rotate d n d' :
  rows_ok d -> absolute <= now + lifetime_seconds ->
  insert_session epoch token csrf now idle absolute rotate d = Some (n, d') ->
  rows_ok d' /\ administrator d' = administrator d.
Proof.
  intros H0 Hl. pose proof H0 as [H1 H2 H3 H4]. unfold insert_session. destruct (administrator d) as [a|] eqn:Ea; [|by intros; simplify_eq].
  destruct (auth_epoch a =? epoch); [|by intros; simplify_eq].
  set (row := mk_session _ _ _ _ _ _ _ _ _ _ _). destruct (sessions_check (identity_sessions d ++ [row])) eqn:E; [|done]. intros [= _ <-]. split; [|done].
  split; cbn; [done| | |].
  - rewrite fmap_app. apply NoDup_app. split_and!; [done| |apply NoDup_singleton].
    intros x Hx ->%list_elem_of_singleton. by apply (next_id_fresh (identity_sessions d)).
  - intros r [Hr| ->%list_elem_of_singleton]%elem_of_app; unfold current_epoch; cbn.
    + specialize (H3 r Hr). unfold current_epoch in H3. by rewrite Ea in H3.
    + apply Z.eqb_refl.
  - intros r [Hr| ->%list_elem_of_singleton]%elem_of_app; [by apply H4|]. done.
Qed.

Lemma trim_count limit d n d' : 0 <= limit -> NoDup (s_id <$> identity_sessions d) -> trim_sessions limit d = Some (n, d') ->
  blen (identity_sessions d') <= limit.
Proof.
  intros Hl Hd. unfold trim_sessions, delete_sessions. set (kept := s_id <$> take _ _). intros [= _ <-]. cbn.
  set (rest := List.filter _ _).
  assert (Hsub : s_id <$> rest ⊆+ kept).
  { apply NoDup_submseteq.
    - eapply NoDup_sublist; [apply fmap_sublist, lfilter_sublist|done].
    - intros i (r & -> & [_ Hr]%lfilter_elem)%list_elem_of_fmap. rewrite negb_involutive in Hr. by apply bool_decide_eq_true in Hr. }
  apply submseteq_length in Hsub. unfold kept in Hsub. rewrite !length_fmap, length_take in Hsub. unfold blen. lia.
Qed.

Lemma absolute_seconds now : seconds (absolute_expiry policy now) <= seconds now + lifetime_seconds.
Proof.
  unfold seconds, absolute_expiry, lifetime_seconds, ns_per_second. euclid.
Qed.

(** ** What the transactions do when they succeed *)

Lemma db_bootstrap_Ok verifier now w w' : db_bootstrap verifier now w = (Ok tt, w') ->
  insert_administrator (mk_admin verifier 1 now now) (w_db w) = Some (1, w_db w').
Proof.
  unfold db_bootstrap. intros (t & t' & E1 & E2 & Hb & ->)%transaction_Ok.
  apply M_bind_Ok in Hb as (n & t1 & [Hs Hd1]%statement_Ok & Hb).
  apply M_bind_Ok in Hb as (u & t2 & Hl & Hb). unfold lift in Hl. injection Hl as Hl <-.
  apply reject_if_Ok, negb_false_iff, Z.eqb_eq in Hl as ->. apply commit_Ok in Hb as [_ ->]. by rewrite <- E2.
Qed.

Lemma db_advance_Ok v now w w' : db_advance v now w = (Ok tt, w') ->
  exists a, administrator (w_db w) = Some a /\ administrator_check (bump_epoch v now a) = true /\
    w_db w' = mk_db (Some (bump_epoch v now a)) [].
Proof.
  unfold db_advance. intros (t & t' & E1 & E2 & Hb & ->)%transaction_Ok.
  apply M_bind_Ok in Hb as (n & t1 & [Hs Hd1]%statement_Ok & Hb).
  apply M_bind_Ok in Hb as (u & t2 & Hl & Hb). unfold lift in Hl. injection Hl as Hl <-.
  apply reject_if_Ok, negb_false_iff, Z.eqb_eq in Hl as ->.
  apply M_bind_Ok in Hb as (m & t3 & [Hdel Hd3]%statement_Ok & Hb). apply commit_Ok in Hb as [_ ->].
  unfold update_administrator in Hs. rewrite E2 in Hs. destruct (administrator (w_db w)) as [a|]; [|by simplify_eq].
  destruct (administrator_check (bump_epoch v now a)) eqn:Ec; [|done]. injection Hs as Hs.
  exists a. split_and!; [done..|]. unfold delete_sessions in Hdel. rewrite <- Hs in Hdel. cbn in Hdel.
  injection Hdel as _ <-. f_equal. by apply filter_none.
Qed.

(** The administrator row after the optional upgrade of the verifier. *)
Definition upgraded (a : administratorRecord) (replacement : bytes) (d d' : Db) : Prop :=
  match replacement with
  | [] => d' = d
  | _ => exists n, upgrade_verifier a replacement d = Some (n, d')
  end.

Lemma db_create_Ok a replacement token csrf now w w' : db_create policy a replacement token csrf now w = (Ok tt, w') ->
  exists n1 n2 d1 d2 d3,
    delete_sessions (stale_session (seconds now) (epoch_of (w_db w))) (w_db w) = Some (n1, d1) /\
    upgraded a replacement d1 d2 /\
    insert_session (ar_epoch a) token csrf (seconds now) (seconds (idle_expiry policy now))
      (seconds (absolute_expiry policy now)) (seconds (now + rotationAfter policy)) d2 = Some (1, d3) /\
    trim_sessions (maximumSessions policy) d3 = Some (n2, w_db w').
Proof.
  unfold db_create. intros (t & t' & E1 & E2 & Hb & ->)%transaction_Ok.
  apply M_bind_Ok in Hb as (n1 & t1 & [Hs1 _]%statement_Ok & Hb). rewrite E2 in Hs1.
  apply M_bind_Ok in Hb as (u & t2 & Hu & Hb).
  apply M_bind_Ok in Hb as (n & t3 & [Hs3 _]%statement_Ok & Hb).
  apply M_bind_Ok in Hb as (u2 & t4 & Hl & Hb). unfold lift in Hl. injection Hl as Hl <-.
  apply reject_if_Ok, negb_false_iff, Z.eqb_eq in Hl as ->.
  apply M_bind_Ok in Hb as (n2 & t5 & [Hs5 _]%statement_Ok & Hb). apply commit_Ok in Hb as [_ ->].
  exists n1, n2, (tx_working t1), (tx_working t2), (tx_working t3). split_and!; [done| |done|done].
  unfold upgraded. destruct replacement as [|c r].
  - unfold mret, M_ret in Hu. by simplify_eq.
  - apply statement_Ok in Hu as [Hu _]. by eexists.
Qed.

Lemma upgraded_spec a replacement d d' : upgraded a replacement d d' ->
  identity_sessions d' = identity_sessions d /\ auth_epoch <$> administrator d' = auth_epoch <$> administrator d.
Proof.
  unfold upgraded. destruct replacement as [|c r]; [by intros ->|]. unfold upgrade_verifier, update_administrator. intros [n H].
  destruct (administrator d) as [x|] eqn:E; [|by simplify_eq; rewrite E].
  destruct (_ && _); [|by simplify_eq; rewrite E]. destruct (administrator_check _); [|done]. by simplify_eq.
Qed.

Lemma current_epoch_ext d d' r : auth_epoch <$> administrator d' = auth_epoch <$> administrator d -> current_epoch d' r = current_epoch d r.
Proof. unfold current_epoch. destruct (administrator d), (administrator d'); cbn; intros; simplify_eq; congruence. Qed.

Lemma rows_ok_ext d d' : identity_sessions d' = identity_sessions d -> auth_epoch <$> administrator d' = auth_epoch <$> administrator d ->
  rows_ok d -> rows_ok d'.
Proof.
  intros E1 E2 [H1 H2 H3 H4]. split; rewrite ?E1; try done. intros r Hr. rewrite (current_epoch_ext _ _ _ E2). by apply H3.
Qed.

(** ** Every call keeps the invariant *)

Context (Hmax : 0 <= maximumSessions policy).

Lemma keeps_transaction {A} (I : Db -> Prop) what (body : M (txn Db) IdentError A) :
  preserves_on_error same_durable body ->
  (forall w a w', transaction what body w = (Ok a, w') -> I (w_db w) -> I (w_db w')) -> keeps I (transaction what body).
Proof.
  intros Hq H w. destruct (transaction what body w) as [[a|e] w'] eqn:E; cbn; [by eapply H|].
  apply transaction_atomic in E; [|done]. unfold same_db in E. by rewrite <- E.
Qed.

Lemma keeps_bootstrap (I : Db -> Prop) verifier now :
  (forall d d', I d -> insert_administrator (mk_admin verifier 1 now now) d = Some (1, d') -> I d') -> keeps I (db_bootstrap verifier now).
Proof.
  intros H. apply keeps_transaction; [commits_last|]. intros w [] w' E Hi. apply db_bootstrap_Ok in E. by eapply H.
Qed.

Lemma keeps_advance (I : Db -> Prop) v now :
  (forall d a, I d -> administrator d = Some a -> I (mk_db (Some (bump_epoch v now a)) [])) -> keeps I (db_advance v now).
Proof.
  intros H. apply keeps_transaction; [commits_last|]. intros w [] w' E Hi. apply db_advance_Ok in E as (a & Ha & _ & ->). by eapply H.
Qed.

Lemma keeps_create (I : Db -> Prop) a replacement token csrf now :
  (forall w w', db_create policy a replacement token csrf now w = (Ok tt, w') -> I (w_db w) -> I (w_db w')) ->
  keeps I (db_create policy a replacement token csrf now).
Proof.
  intros H. apply keeps_transaction; [commits_last|]. intros w [] w'. apply H.
Qed.

Lemma tables_ok_create a replacement token csrf now w w' : db_create policy a replacement token csrf now w = (Ok tt, w') ->
  tables_ok (w_db w) -> tables_ok (w_db w').
Proof using Hmax.
  intros (n1 & n2 & d1 & d2 & d3 & H1 & H2 & H3 & H4)%db_create_Ok [Hr _].
  destruct (rows_ok_delete _ _ _ _ Hr H1) as (Hr1 & _ & _). apply upgraded_spec in H2 as [E1 E2].
  pose proof (rows_ok_ext _ _ E1 E2 Hr1) as Hr2.
  destruct (rows_ok_insert _ _ _ _ _ _ _ _ _ _ Hr2 (absolute_seconds now) H3) as [Hr3 _].
  split; [|by eapply trim_count; [|apply Hr3|]].
  unfold trim_sessions in H4. by apply rows_ok_delete in H4 as (? & _ & _).
Qed.

Lemma tables_ok_empty a : tables_ok (mk_db a []).
Proof using Hmax. split; [split; cbn; try constructor; by intros r ?%not_elem_of_nil|done]. Qed.

Lemma act_tables_ok a : keeps tables_ok (act policy a).
Proof using Hmax.
  destruct a; cbn [act]; try apply moves_then.
  - apply keeps_bootstrap. intros d d' Ht. unfold insert_administrator. destruct (administrator d) as [x|] eqn:E; [by intros; simplify_eq|].
    destruct (administrator_check _); [|by intros; simplify_eq]. intros [= <-].
    assert (En : identity_sessions d = []).
    { destruct (identity_sessions d) as [|r rows] eqn:Er; [done|]. pose proof (ro_epoch _ (to_rows _ Ht) r) as H.
      unfold current_epoch in H. rewrite E, Er in H. specialize (H ltac:(by left)). done. }
    rewrite En. by apply tables_ok_empty.
  - apply keeps_advance. intros. by apply tables_ok_empty.
  - apply keeps_create. intros w w'. by apply tables_ok_create.
  - apply keeps_autocommit. intros d n d'. apply tables_ok_delete.
  - apply keeps_autocommit. intros d n d'. by apply tables_ok_update.
  - apply keeps_autocommit. intros d n d'. by apply tables_ok_update.
  - apply keeps_autocommit. intros d n d'. by apply tables_ok_update.
  - apply keeps_autocommit. intros d n d'. apply tables_ok_delete.
Qed.

Lemma act_all_keeps (I : Db -> Prop) l : (forall a, a ∈ l -> keeps I (act policy a)) -> forall w, I (w_db w) -> I (w_db (act_all policy l w)).
Proof.
  unfold act_all. induction l as [|a l IH]; intros H w Hi; [done|]. cbn. apply IH.
  - intros b Hb. apply H. by right.
  - apply (H a); [by left|done].
Qed.
End Invariant.

(** Methods of the identity service with other goroutines in between: what a
    whole method keeps true, tokens that are not stored are refused, and what
    an accepted token implies. *)

(** ** Tokens that are not stored *)

(** No session answers to the token with this hash. *)
Definition absent (hash : bytes) (d : Db) : Prop := forall r, r ∈ identity_sessions d ->
  current_token_hash r <> hash /\ previous_token_hash r <> Some hash.

(** The calls that may store a new token. *)
Definition mints (hash : bytes) (a : Action) : Prop :=
  match a with
  | ACreate _ _ token _ _ => token = hash
  | ARotate _ _ replacement _ _ => replacement = hash
  | _ => False
  end.

Lemma absent_delete hash where_ d n d' : absent hash d -> delete_sessions where_ d = Some (n, d') -> absent hash d'.
Proof. unfold delete_sessions, absent. intros H [= _ <-] r [Hr _]%lfilter_elem. by apply H. Qed.

Lemma absent_update hash where_ set_ d n d' :
  (forall r, r ∈ identity_sessions d -> where_ r = true -> current_token_hash r <> hash -> previous_token_hash r <> Some hash ->
     current_token_hash (set_ r) <> hash /\ previous_token_hash (set_ r) <> Some hash) ->
  absent hash d -> update_sessions where_ set_ d = Some (n, d') -> absent hash d'.
Proof.
  unfold update_sessions, absent. intros Hset H. destruct (sessions_check _); [|done]. intros [= _ <-] r.
  intros (r0 & -> & Hr0)%list_elem_of_fmap. destruct (H r0 Hr0). destruct (where_ r0) eqn:E; [by apply Hset|done].
Qed.

(** An update for this token finds nothing to change. *)
Lemma absent_update_none hash where_ set_ d n d' :
  (forall r, where_ r = true -> current_token_hash r = hash \/ previous_token_hash r = Some hash) ->
  absent hash d -> update_sessions where_ set_ d = Some (n, d') -> n = 0 /\ absent hash d'.
Proof.
  intros Hw Ha Hu. split.
  - unfold update_sessions in Hu. destruct (sessions_check _); [|done]. injection Hu as <- _.
    rewrite filter_none; [done|]. intros r Hr. destruct (where_ r) eqn:E; [|done]. destruct (Ha r Hr). naive_solver.
  - eapply absent_update; [|done|done]. intros r _ E. naive_solver.
Qed.

Section Absent.
Context (policy : sessionPolicy) (hash : bytes).

Lemma absent_create a replacement token csrf now w w' : token <> hash ->
  db_create policy a replacement token csrf now w = (Ok tt, w') -> absent hash (w_db w) -> absent hash (w_db w').
Proof.
  intros Hne (n1 & n2 & d1 & d2 & d3 & H1 & H2 & H3 & H4)%db_create_Ok Ha.
  apply (absent_delete _ _ _ _ _ Ha) in H1 as Ha1. apply upgraded_spec in H2 as [E1 _].
  unfold trim_sessions in H4. eapply absent_delete; [|exact H4]. unfold insert_session in H3.
  destruct (administrator d2) as [x|]; [|done]. destruct (_ =? _); [|done].
  destruct (sessions_check (identity_sessions d2 ++ _)); [|done]. injection H3 as <-.
  intros r [Hr| ->%list_elem_of_singleton]%elem_of_app; [|done]. rewrite E1 in Hr. by apply Ha1.
Qed.

Lemma act_absent a : ~ mints hash a -> keeps (absent hash) (act policy a).
Proof.
  intros Hm. destruct a; cbn [act mints] in *; try apply moves_then.
  - apply keeps_bootstrap. intros d d' Ha. unfold insert_administrator. destruct (administrator d); [by intros; simplify_eq|].
    destruct (administrator_check _); by intros; simplify_eq.
  - apply keeps_advance. intros d a _ _ r Hr. by apply not_elem_of_nil in Hr.
  - apply keeps_create. intros w w'. by apply absent_create.
  - apply keeps_autocommit. intros d n d'. by apply absent_delete.
  - apply keeps_autocommit. intros d n d'. apply absent_update. by intros r _ _ ? _.
  - apply keeps_autocommit. intros d n d'. apply absent_update. intros r _ _ ? _. split; [done|]. cbn. congruence.
  - apply keeps_autocommit. intros d n d'. apply absent_update. by intros r _ _ ? ?.
  - apply keeps_autocommit. intros d n d'. by apply absent_delete.
Qed.
End Absent.

(** ** Methods *)

Section Methods.
Context `{Argon2}.
Context (sha256 : bytes -> bytes) (service : Service).
Context (clock : nat -> Z) (random : nat -> Z -> option bytes) (capacity : bool) (others : nat -> list Action).
Abbreviation policy := (sessionPolicy_ service).
Abbreviation call := (call service others).

Definition tables (s : run) : Db := w_db (r_db s).

(** The tables the [n]-th call acts on. *)
Definition before_call (s : run) : world Db := act_all policy (others (r_calls s)) (r_db s).

(** A property of the tables that a method keeps. *)
Definition inv_rel (I : Db -> Prop) (s s' : run) : Prop := I (tables s) -> I (tables s').
#[export] Instance inv_rel_preorder I : PreOrder (inv_rel I).
Proof. split; unfold inv_rel; [by intros s|]. intros s1 s2 s3 H1 H2 Hi. by apply H2, H1. Qed.

Section KeepsMethods.
Context (I : Db -> Prop) (Hothers : forall n a, a ∈ others n -> keeps I (act policy a)).

Lemma before_call_keeps s : I (tables s) -> I (w_db (before_call s)).
Proof using Hothers. intros Hi. unfold before_call; apply (act_all_keeps policy I); [|done]. intros a Ha. by eapply Hothers. Qed.

Lemma call_keeps {A} (m : Store A) : keeps I m -> preserves (inv_rel I) (call m).
Proof using Hothers.
  intros Hm s Hi. unfold IdentService.call. specialize (Hm (before_call s)). unfold tables, before_call in *.
  destruct (m _) as [r w] eqn:E. cbn in *. apply Hm. by apply before_call_keeps.
Qed.

Lemma utcNow_keeps : preserves (inv_rel I) (utcNow clock).
Proof. intros s Hi. exact Hi. Qed.
Lemma readRandom_keeps n : preserves (inv_rel I) (readRandom random n).
Proof. intros s Hi. exact Hi. Qed.
Lemma newToken_keeps what : preserves (inv_rel I) (newToken sha256 random what).
Proof.
  unfold newToken. apply preserves_bind; [apply _|apply readRandom_keeps|]. intros [c|]; [apply preserves_ret|apply preserves_fail]; apply _.
Qed.
Lemma active_keeps replacement idle record : preserves (inv_rel I) (active replacement idle record).
Proof. unfold active. apply preserves_bind; [apply _|apply preserves_lift; apply _|]. intros c. apply preserves_ret, _. Qed.
Lemma ident_query_keeps {A} what (f : Db -> A) : keeps I (ident_query what f).
Proof. apply keeps_autocommit. by intros d a d' Hi [= _ <-]. Qed.
End KeepsMethods.

(** ** A token that is not stored is refused *)

Section Refused.
Context (hash : bytes) (Hothers : forall n a, a ∈ others n -> ~ mints hash a).

Definition refuses {A} (m : M run IdentError A) : Prop := forall s, absent hash (tables s) ->
  is_err (m s).1 = true /\ absent hash (tables (m s).2).

Lemma refuses_fail {A} e : refuses (A:=A) (fail e).
Proof. by intros s. Qed.

Lemma refuses_then {A B} (m : M run IdentError A) (f : A -> M run IdentError B) :
  preserves (inv_rel (absent hash)) m -> (forall a, refuses (f a)) -> refuses (m ≫= f).
Proof.
  intros Hm Hf s Ha. specialize (Hm s Ha). unfold mbind, M_bind. destruct (m s) as [[a|e] s']; [by apply Hf|done].
Qed.

Lemma others_keep n a : a ∈ others n -> keeps (absent hash) (act policy a).
Proof using Hothers. intros Ha. by eapply act_absent, Hothers. Qed.

Lemma refuses_call {A B} what (f : Db -> option (A * Db)) (k : A -> M run IdentError B) :
  (forall d a d', absent hash d -> f d = Some (a, d') -> absent hash d' /\ refuses (k a)) ->
  refuses (a ← call (autocommit what f); k a).
Proof using Hothers.
  intros Hf s Ha. unfold mbind, M_bind, IdentService.call.
  pose proof (before_call_keeps (absent hash) others_keep s Ha) as Hb. unfold before_call in Hb.
  destruct (autocommit_cases what f (act_all policy (others (r_calls s)) (r_db s))) as [(e & w & -> & E)|(a & w & -> & E)]; cbn.
  - unfold tables. cbn. by rewrite E.
  - destruct (Hf _ _ _ Hb E) as [H1 H2]. apply H2. done.
Qed.

Lemma refuses_touch record effectiveNow idle : refuses (touch service others hash record effectiveNow idle).
Proof using Hothers.
  unfold touch, db_touch. apply refuses_call. intros d n d' Ha Hu.
  apply (absent_update_none hash) in Hu as [-> Ha']; [split; [done|apply refuses_fail]| |done].
  intros r Hr. unfold accepts_token in Hr. bool_prop. apply orb_true_iff in H1 as [H1|H1]; bool_prop; auto.
Qed.

Lemma refuses_rotate again record effectiveNow idle : refuses again ->
  refuses (rotate sha256 service random others again hash record effectiveNow idle).
Proof using Hothers.
  intros Hag. unfold rotate. apply refuses_then; [apply newToken_keeps|]. intros [token newHash].
  unfold db_rotate. apply refuses_call. intros d n d' Ha Hu.
  apply (absent_update_none hash) in Hu as [-> Ha']; [by split| |done].
  intros r Hr. bool_prop. auto.
Qed.

Lemma refuses_record again record : match again with Some m => refuses m | None => True end ->
  refuses (validate_record sha256 service clock random others again hash record).
Proof using Hothers.
  intros Hag. unfold validate_record. apply refuses_then; [apply utcNow_keeps|]. intros now. cbv zeta.
  destruct (expired _ _).
  { apply refuses_then; [|intros; apply refuses_fail]. apply preserves_attempt, call_keeps; [apply others_keep|].
    apply keeps_autocommit. intros d n d'. by apply absent_delete. }
  destruct (negb _ && _); [apply refuses_fail|]. destruct (_ && grace_over _ _).
  { apply refuses_then; [|intros; apply refuses_fail]. apply preserves_attempt, call_keeps; [apply others_keep|].
    apply keeps_autocommit. intros d n d'. apply absent_update. by intros r _ _ ? _. }
  destruct again; [destruct (_ && _); [by apply refuses_rotate|]|]; apply refuses_touch.
Qed.

Lemma refuses_validate again : match again with Some m => refuses m | None => True end ->
  refuses (validate_with sha256 service clock random others again hash).
Proof using Hothers.
  intros Hag. unfold validate_with, loadSession, ident_query. apply refuses_call.
  intros d found d' Ha [= <- <-]. split; [done|]. destruct (find_session hash d); [by apply refuses_record|apply refuses_fail].
Qed.

Lemma refuses_session_hash b : refuses (validateSessionHash sha256 service clock random others hash b).
Proof using Hothers.
  unfold validateSessionHash. apply refuses_validate. destruct b; [|done]. by apply refuses_validate.
Qed.
End Refused.

(** ** What an accepted token implies *)

(** The row as the accepting call left it. *)
Record accepted (hash : bytes) (record : SessionRow) (effectiveNow : Z) (a : ActiveSession) (d : Db) (r : SessionRow) : Prop := {
  ac_stored : r ∈ identity_sessions d;
  ac_id : s_id r = s_id record;
  ac_epoch : current_epoch d r = true;
  ac_seen : last_seen_at_unix r = effectiveNow;
  ac_idle : as_IdleExpiresAt a = second_ns (idle_expires_at_unix r);
  ac_absolute : as_AbsoluteExpiresAt a = second_ns (absolute_expires_at_unix record);
  ac_csrf : csrfTokenHash a = csrf_token_hash record;
  ac_token : (ReplacementToken a = [] /\ (current_token_hash r = hash \/
      exists until, previous_token_hash r = Some hash /\ previous_valid_until_unix r = Some until /\ effectiveNow < until)) \/
    (previous_token_hash r = Some hash /\ current_token_hash r = sha256 (ReplacementToken a) /\
     previous_valid_until_unix r = Some (effectiveNow + seconds (previousGrace policy)));
}.

Lemma update_one where_ set_ d d' : update_sessions where_ set_ d = Some (1, d') ->
  exists r0, r0 ∈ identity_sessions d /\ where_ r0 = true /\ set_ r0 ∈ identity_sessions d' /\ administrator d' = administrator d.
Proof.
  unfold update_sessions. destruct (sessions_check _); [|done]. intros [= Hn <-].
  destruct (List.filter where_ (identity_sessions d)) as [|r0 l] eqn:E; [done|].
  assert (Hr : r0 ∈ List.filter where_ (identity_sessions d)) by (rewrite E; by left).
  apply lfilter_elem in Hr as [H1 H2]. exists r0. split_and!; [done..| |done]. cbn.
  apply list_elem_of_fmap. exists r0. by rewrite H2.
Qed.

Lemma active_Ok replacement idle record s a s' : active replacement idle record s = (Ok a, s') ->
  s' = s /\ a = mk_active replacement (second_ns idle) (second_ns (absolute_expires_at_unix record)) (csrf_token_hash record).
Proof.
  unfold active, fixedDigest. intros (c & s1 & Hl & Hr)%M_bind_Ok. unfold lift in Hl. unfold mret, M_ret in Hr.
  destruct (negb _); [done|]. by simplify_eq.
Qed.

Lemma call_autocommit_Ok {A} what (f : Db -> option (A * Db)) s a s' : call (autocommit what f) s = (Ok a, s') ->
  f (w_db (before_call s)) = Some (a, tables s') /\ r_calls s' = S (r_calls s).
Proof.
  unfold IdentService.call, before_call. destruct (autocommit_cases what f (act_all policy (others (r_calls s)) (r_db s)))
    as [(e & w & -> & E)|(x & w & -> & E)]; [done|]. by intros [= -> <-].
Qed.

Lemma accepts_token_spec hash now r : accepts_token hash now r = true ->
  current_token_hash r = hash \/
  exists until, previous_token_hash r = Some hash /\ previous_valid_until_unix r = Some until /\ now < until.
Proof.
  unfold accepts_token. rewrite orb_true_iff, andb_true_iff, !bool_decide_eq_true. intros [?|[? H2]]; [by left|right].
  destruct (previous_valid_until_unix r) as [until|]; [|done]. apply Z.ltb_lt in H2. eauto.
Qed.

Lemma touch_Ok hash record effectiveNow idle s a s' : touch service others hash record effectiveNow idle s = (Ok a, s') ->
  exists r, accepted hash record effectiveNow a (tables s') r.
Proof.
  unfold touch, db_touch. intros (n & s1 & [Hu _]%call_autocommit_Ok & Hk)%M_bind_Ok.
  destruct (Z.eqb_spec n 1) as [->|]; [|done]. cbn [negb] in Hk. apply active_Ok in Hk as [-> ->].
  apply update_one in Hu as (r0 & H1 & H2 & H3 & H4). bool_prop.
  exists (touch_row effectiveNow idle r0). split; try done; cbn.
  - unfold current_epoch in *. cbn. by rewrite H4.
  - left. split; [done|]. by apply (accepts_token_spec hash effectiveNow r0).
Qed.

Lemma rotate_Ok again hash record effectiveNow idle s a s' :
  rotate sha256 service random others again hash record effectiveNow idle s = (Ok a, s') ->
  (exists r, accepted hash record effectiveNow a (tables s') r) \/
  exists s1, again s1 = (Ok a, s') /\ (r_calls s <= r_calls s1)%nat.
Proof.
  unfold rotate, db_rotate. intros ([token newHash] & s1 & Ht & Hk)%M_bind_Ok.
  assert (Htok : newHash = sha256 token /\ r_calls s1 = r_calls s).
  { unfold newToken in Ht. apply M_bind_Ok in Ht as ([c|] & s2 & Hr & Ht); unfold readRandom in Hr; [|done].
    unfold mret, M_ret in Ht. by simplify_eq. }
  destruct Htok as [-> Ecalls].
  apply M_bind_Ok in Hk as (n & s2 & [Hu Hc]%call_autocommit_Ok & Hk).
  destruct (Z.eqb_spec n 1) as [->|]; [left|right; exists s2; split; [done|lia]].
  apply active_Ok in Hk as [-> ->]. apply update_one in Hu as (r0 & H1 & H2 & H3 & H4). bool_prop.
  exists (rotate_row policy (sha256 token) effectiveNow idle r0). split; try done; cbn.
  - unfold current_epoch in *. cbn. by rewrite H4.
  - right. split_and!; [congruence|done|done].
Qed.

(** An acceptance: the session was loaded alive after [s], and the accepting
    call found it still stored, under the current epoch, with this token. *)
Definition live_acceptance (hash : bytes) (s : run) (a : ActiveSession) (s' : run) : Prop :=
  exists sk record effectiveNow r,
    (r_calls s <= r_calls sk)%nat /\ (call (loadSession hash) sk).1 = Ok (Some record) /\
    effectiveNow = Z.max (seconds (clock (S (r_calls sk)))) (last_seen_at_unix record) /\
    effectiveNow < idle_expires_at_unix record /\ effectiveNow < absolute_expires_at_unix record /\
    accepted hash record effectiveNow a (tables s') r.

Lemma live_acceptance_later hash s1 s2 a s' : (r_calls s1 <= r_calls s2)%nat -> live_acceptance hash s2 a s' -> live_acceptance hash s1 a s'.
Proof. intros L (sk & record & e & r & ? & ?). exists sk, record, e, r. split; [lia|done]. Qed.

Lemma validate_Ok again hash s a s' :
  match again with Some m => forall s1, m s1 = (Ok a, s') -> live_acceptance hash s1 a s' | None => True end ->
  validate_with sha256 service clock random others again hash s = (Ok a, s') -> live_acceptance hash s a s'.
Proof.
  intros Hag. unfold validate_with. intros (found & s1 & Hl & Hk)%M_bind_Ok.
  assert (Hload : (call (loadSession hash) s).1 = Ok found) by by rewrite Hl.
  unfold loadSession, ident_query in Hl. apply call_autocommit_Ok in Hl as [_ Hc].
  destruct found as [record|]; [|done]. unfold validate_record in Hk.
  apply M_bind_Ok in Hk as (now & s2 & Hn & Hk). unfold utcNow in Hn. injection Hn as <- <-. cbv zeta in Hk.
  rewrite Hc in Hk. set (e := effective_now _ record) in Hk.
  assert (He : e = Z.max (seconds (clock (S (r_calls s)))) (last_seen_at_unix record)).
  { unfold e, effective_now. destruct (Z.ltb_spec (seconds (clock (S (r_calls s)))) (last_seen_at_unix record)); lia. }
  destruct (expired _ _) eqn:Ee in Hk; [by apply M_bind_Ok in Hk as (? & ? & _ & ?)|]. unfold expired in Ee. bool_prop.
  destruct (negb _ && _) in Hk; [done|]. destruct (_ && grace_over _ _) in Hk; [by apply M_bind_Ok in Hk as (? & ? & _ & ?)|].
  assert (Hfin : forall r, accepted hash record e a (tables s') r -> live_acceptance hash s a s').
  { intros r Hr. exists s, record, e, r. split_and!; try done; lia. }
  destruct again as [again|]; [destruct (_ && _) in Hk|].
  - apply rotate_Ok in Hk as [[r Hr]|(s3 & Ha & L)]; [by eapply Hfin|].
    apply (live_acceptance_later _ _ s3); [lia|]. by apply Hag.
  - apply touch_Ok in Hk as [r Hr]. by eapply Hfin.
  - apply touch_Ok in Hk as [r Hr]. by eapply Hfin.
Qed.

Lemma session_hash_Ok hash b s a s' : validateSessionHash sha256 service clock random others hash b s = (Ok a, s') ->
  live_acceptance hash s a s'.
Proof.
  unfold validateSessionHash. apply validate_Ok. destruct b; [|done]. intros s1. by apply validate_Ok.
Qed.
End Methods.

(** A login: the new session survives the bound on sessions when the clock
    does not run behind the stored ones, and its token then validates. *)

(** ** The bound keeps the most recent session *)

(** A row that comes strictly first stays first. *)
Lemma sort_first {A} (leb : A -> A -> bool) (l : list A) x : (forall y, y ∈ l -> leb y x = false) ->
  exists rest, sort_by leb (l ++ [x]) = x :: rest.
Proof.
  induction l as [|y l IH]; intros H; [by exists []|].
  destruct IH as [rest E]; [intros z Hz; apply H; by right|].
  change (sort_by leb ((y :: l) ++ [x])) with (insert_sorted leb y (sort_by leb (l ++ [x]))). rewrite E. cbn.
  rewrite H by by left. by eexists.
Qed.

Lemma next_id_above rows r : r ∈ rows -> s_id r < next_id rows.
Proof.
  unfold next_id. induction rows as [|y rows IH]; intros H; [by apply not_elem_of_nil in H|]. cbn.
  apply elem_of_cons in H as [->|H]; [lia|]. specialize (IH H). lia.
Qed.

Definition new_row (policy : sessionPolicy) (d : Db) (epoch : Z) (token csrf : bytes) (now : Z) : SessionRow :=
  mk_session (next_id (identity_sessions d)) epoch token None None csrf (seconds now) (seconds now)
    (seconds (idle_expiry policy now)) (seconds (absolute_expiry policy now)) (seconds (now + rotationAfter policy)).

(** No stored session was seen after this instant. *)
Definition seen_before (now : Z) (d : Db) : Prop := forall r, r ∈ identity_sessions d -> last_seen_at_unix r <= seconds now.

Section Survival.
Context (policy : sessionPolicy) (a : administratorRecord) (replacement token csrf : bytes) (now : Z).
Context (Hmax : 1 <= maximumSessions policy).

Lemma insert_session_row epoch d d' : insert_session epoch token csrf (seconds now) (seconds (idle_expiry policy now))
    (seconds (absolute_expiry policy now)) (seconds (now + rotationAfter policy)) d = Some (1, d') ->
  administrator d' = administrator d /\ (auth_epoch <$> administrator d) = Some epoch /\
  identity_sessions d' = identity_sessions d ++ [new_row policy d epoch token csrf now] /\
  sessions_check (identity_sessions d') = true.
Proof.
  unfold insert_session. destruct (administrator d) as [x|] eqn:Ex; [|done]. destruct (Z.eqb_spec (auth_epoch x) epoch) as [<-|]; [|done].
  destruct (sessions_check (identity_sessions d ++ _)) eqn:E; [|done]. intros [= <-]. cbn. done.
Qed.

Lemma create_survives w w' : db_create policy a replacement token csrf now w = (Ok tt, w') -> seen_before now (w_db w) ->
  exists r, r ∈ identity_sessions (w_db w') /\ current_token_hash r = token /\ previous_token_hash r = None /\
    csrf_token_hash r = csrf /\ last_seen_at_unix r = seconds now /\ created_at_unix r = seconds now /\
    idle_expires_at_unix r = seconds (idle_expiry policy now) /\
    absolute_expires_at_unix r = seconds (absolute_expiry policy now) /\
    rotate_after_unix r = seconds (now + rotationAfter policy) /\
    (absent token (w_db w) -> forall y, y ∈ identity_sessions (w_db w') ->
       current_token_hash y = token \/ previous_token_hash y = Some token -> y = r).
Proof using Hmax.
  intros (n1 & n2 & d1 & d2 & d3 & H1 & H2 & H3 & H4)%db_create_Ok Hseen.
  apply upgraded_spec in H2 as [E1 E2]. apply insert_session_row in H3 as (Ea & Ee & Es & _).
  set (r := new_row policy d2 (ar_epoch a) token csrf now) in *.
  assert (Hold : forall y, y ∈ identity_sessions d2 -> recent_first y r = false).
  { intros y Hy. unfold recent_first. pose proof (next_id_above _ _ Hy) as Hid.
    assert (last_seen_at_unix y <= seconds now).
    { apply Hseen. rewrite E1 in Hy. unfold delete_sessions in H1. injection H1 as _ <-. by apply lfilter_elem in Hy as [? _]. }
    apply orb_false_iff. split; [apply Z.ltb_ge; cbn; lia|]. apply andb_false_iff. right. apply Z.leb_gt. cbn. lia. }
  destruct (sort_first recent_first _ _ Hold) as [rest Esort].
  unfold trim_sessions, delete_sessions in H4. rewrite Es, Esort in H4. injection H4 as _ Ed.
  exists r. split_and!; try done.
  - rewrite <- Ed. cbn. apply list_elem_of_In, List.filter_In. split; [apply list_elem_of_In, elem_of_app; right; by left|].
    rewrite negb_involutive. apply bool_decide_eq_true. destruct (Z.to_nat (maximumSessions policy)) eqn:En; [lia|]. by left.
  - intros Habs y Hy Hh. rewrite <- Ed in Hy. cbn in Hy. apply lfilter_elem in Hy as [Hy _].
    apply elem_of_app in Hy as [Hy|Hy]; [|by apply list_elem_of_singleton in Hy].
    rewrite E1 in Hy. unfold delete_sessions in H1. injection H1 as _ E5. rewrite <- E5 in Hy. cbn in Hy. apply lfilter_elem in Hy as [Hy _].
    destruct (Habs y Hy). naive_solver.
Qed.
End Survival.

(** ** The new token validates *)

Lemma find_filter_elem {A} (g : A -> bool) (l : list A) x : x ∈ l -> g x = true -> (forall y, y ∈ l -> g y = true -> y = x) ->
  List.find g l = Some x.
Proof.
  intros Hx Hg Hu. destruct (List.find g l) as [y|] eqn:E.
  - apply find_some in E as [E1 E2]. f_equal. apply Hu; [by apply list_elem_of_In|done].
  - exfalso. apply find_none with (x := x) in E; [congruence|]. by apply list_elem_of_In.
Qed.

Lemma decode_new_token sha256 c : blen c = tokenByteLength -> decodeToken sha256 (base64_encode raw_url_encoding c) =
  Ok (c, sha256 (base64_encode raw_url_encoding c)).
Proof.
  intros Hc. unfold decodeToken. rewrite raw_base64_length, Hc by by right. change ((tokenByteLength * 4 + 2) / 3) with 43.
  change ((tokenByteLength * 8 + 5) / 6) with 43. cbn [negb Z.eqb Pos.eqb].
  rewrite decode_encode_base64 by by right. by rewrite Hc.
Qed.

Lemma omap_fmap_same {A B} (g : A -> option B) (h : A -> A) (l : list A) : (forall y, g (h y) = g y) -> omap g (h <$> l) = omap g l.
Proof. intros H. induction l as [|y l IH]; [done|]. cbn. by rewrite H, IH. Qed.

(** Touching the session with one token changes only that row's times. *)
Lemma touch_update rows_d hash id effectiveNow idle r :
  sessions_check (identity_sessions rows_d) = true -> NoDup (s_id <$> identity_sessions rows_d) ->
  r ∈ identity_sessions rows_d -> s_id r = id -> current_epoch rows_d r = true -> current_token_hash r = hash ->
  created_at_unix r <= effectiveNow -> effectiveNow <= idle -> idle <= absolute_expires_at_unix r ->
  exists d', update_sessions (fun r => (s_id r =? id) && current_epoch rows_d r && accepts_token hash effectiveNow r)
    (touch_row effectiveNow idle) rows_d = Some (1, d').
Proof.
  intros Hc Hd Hr Hid He Hh L1 L2 L3. unfold update_sessions.
  set (where_ := fun r : SessionRow => (s_id r =? id) && current_epoch rows_d r && accepts_token hash effectiveNow r).
  assert (Hw : forall y, y ∈ identity_sessions rows_d -> where_ y = true -> y = r).
  { intros y Hy Hwy. unfold where_ in Hwy. bool_prop.
    apply list_elem_of_lookup in Hy as [i Hi], Hr as [j Hj].
    assert (i = j) as ->; [|congruence].
    eapply (NoDup_lookup _ _ _ (s_id r) Hd); rewrite list_lookup_fmap, ?Hi, ?Hj; cbn; congruence. }
  assert (Hwr : where_ r = true).
  { unfold where_, accepts_token. rewrite He, Hid, Z.eqb_refl. by rewrite bool_decide_eq_true_2. }
  replace (sessions_check _) with true.
  - eexists. f_equal. f_equal. clear - Hd Hr Hw Hwr. unfold blen.
    assert (E : List.filter where_ (identity_sessions rows_d) = [r]); [|by rewrite E].
    assert (Hnd : NoDup (identity_sessions rows_d)) by by eapply NoDup_fmap_1.
    assert (Hsub : List.filter where_ (identity_sessions rows_d) ≡ₚ [r]).
    { apply NoDup_Permutation; [eapply NoDup_sublist; [apply lfilter_sublist|done]|apply NoDup_singleton|].
      intros y. rewrite list_elem_of_singleton. split; [by intros [? ?]%lfilter_elem; apply Hw|].
      intros ->. apply list_elem_of_In, List.filter_In. split; [by apply list_elem_of_In|done]. }
    by apply Permutation_singleton_r in Hsub.
  - symmetry. unfold sessions_check in *. bool_prop. rewrite !andb_true_iff, !bool_decide_eq_true. split_and!.
    + apply forallb_elem_of. intros y (y0 & -> & Hy0)%list_elem_of_fmap. rewrite forallb_elem_of in H. specialize (H y0 Hy0).
      change (session_check (if where_ y0 then touch_row effectiveNow idle y0 else y0) = true). destruct (where_ y0) eqn:Ey; [|done]. rewrite (Hw y0 Hy0 Ey) in *. unfold session_check in *. cbn. bool_prop.
      rewrite !andb_true_iff. rewrite !Z.leb_le, !Z.ltb_lt, !Z.eqb_eq. split_and!; done || lia.
    + replace (current_token_hash <$> _) with (current_token_hash <$> identity_sessions rows_d); [done|].
      rewrite <- list_fmap_compose. apply list_fmap_ext. intros i y _. cbn. by case_match.
    + replace (omap previous_token_hash _) with (omap previous_token_hash (identity_sessions rows_d)); [done|].
      symmetry. apply omap_fmap_same. intros y. by case_match.
Qed.

(** A run without other goroutines and without faults. *)
Definition quiet_world (d : Db) : world Db := mk_world d [].
Definition nobody : nat -> list Action := fun _ => [].

Lemma autocommit_quiet {A} what (f : Db -> option (A * Db)) d a d' : f d = Some (a, d') ->
  autocommit what f (quiet_world d) = (Ok a, quiet_world d').
Proof. intros H. unfold autocommit, transaction, statement. cbn. by rewrite H. Qed.

Section Validate.
Context `{Argon2}.
Context (sha256 : bytes -> bytes) (service : Service) (clock : nat -> Z) (random : nat -> Z -> option bytes).
Abbreviation policy := (sessionPolicy_ service).

(** A session row with its current token, loaded, not yet due for rotation:
    validation succeeds and reports the stored CSRF digest. *)
Lemma validate_current d r hash n k : tables_ok policy d -> r ∈ identity_sessions d -> current_token_hash r = hash ->
  (forall y, y ∈ identity_sessions d -> current_token_hash y = hash \/ previous_token_hash y = Some hash -> y = r) ->
  previous_token_hash r <> Some hash ->
  let now := seconds (clock (S n)) in
  last_seen_at_unix r <= now -> now < idle_expires_at_unix r -> now < absolute_expires_at_unix r -> now < rotate_after_unix r ->
  0 <= idleLifetime policy ->
  exists a s', validateSessionHash sha256 service clock random nobody hash true (mk_run (quiet_world d) n k) = (Ok a, s') /\
    csrfTokenHash a = csrf_token_hash r /\ ReplacementToken a = [].
Proof.
  intros [Hro _] Hr Hh Hu Hp now L1 L2 L3 L4 L5.
  unfold validateSessionHash, validate_with, loadSession, ident_query, call. cbn [r_calls r_db nobody act_all fold_left].
  unfold mbind at 1, M_bind at 1. cbn [r_calls r_db nobody act_all fold_left].
  assert (Hfind : find_session hash d = Some r).
  { unfold find_session. apply find_filter_elem; [done| |].
    - rewrite (ro_epoch _ _ Hro r Hr). by rewrite bool_decide_eq_true_2.
    - intros y Hy Hc. bool_prop. apply orb_true_iff in H1 as [H1|H1]; bool_prop; apply Hu; auto. }
  rewrite (autocommit_quiet _ _ d (find_session hash d) d) by done. rewrite Hfind.
  unfold validate_record, utcNow. unfold mbind at 1, M_bind at 1. cbn [r_calls r_db r_draws]. cbv zeta.
  assert (He : effective_now (clock (S n)) r = now).
  { unfold effective_now. fold now. by rewrite (proj2 (Z.ltb_ge _ _)) by lia. }
  rewrite He. unfold expired, matches_current, matches_previous.
  rewrite (proj2 (Z.leb_gt _ _)) by lia. rewrite (proj2 (Z.leb_gt (absolute_expires_at_unix r) now)) by lia. cbn [orb].
  rewrite (bool_decide_eq_true_2 (hash = _)) by done. rewrite (bool_decide_eq_false_2 (previous_token_hash r = _)) by done.
  cbn [negb andb]. rewrite (proj2 (Z.leb_gt (rotate_after_unix r) now)) by lia.
  unfold touch, db_touch, call. unfold mbind at 1, M_bind at 1. cbn [r_calls r_db r_draws nobody act_all fold_left].
  assert (Hck : session_check r = true).
  { pose proof (ro_check _ _ Hro) as Hc. unfold sessions_check in Hc. bool_prop. rewrite forallb_elem_of in H0. by apply H0. }
  assert (Hi : now <= next_idle service r now <= absolute_expires_at_unix r).
  { unfold next_idle. assert (0 <= idleLifetime policy / ns_per_second) by (apply Z.div_pos; [done|unfold ns_per_second; lia]).
    destruct (Z.ltb_spec (absolute_expires_at_unix r) (now + idleLifetime policy / ns_per_second)); lia. }
  assert (Hcreated : created_at_unix r <= now) by (unfold session_check in Hck; bool_prop; lia).
  destruct (touch_update d hash (s_id r) now (next_idle service r now) r) as [d' Hd'];
    [apply Hro|apply Hro|done|done|by apply (ro_epoch _ _ Hro)|done|done|lia|lia|].
  erewrite autocommit_quiet by exact Hd'. cbn [negb Z.eqb Pos.eqb]. unfold active, fixedDigest, lift, mbind, M_bind.
  assert (Hcl : blen (csrf_token_hash r) =? digest_size = true) by (apply Z.eqb_eq; unfold session_check in Hck; bool_prop; done).
  rewrite Hcl. cbn [negb]. eexists _, _. split; [done|]. done.
Qed.
End Validate.
