(* ===== verification/IdentCorrect.v ===== *)
(** What the identity service promises: the tables stay well formed under any
    interleaving, an accepted token belongs to a live session, a reset revokes
    every token, a login needs the password and its session validates. *)
From S2P Require Import Prelude.
From S2P Require Import GoText.
From S2P Require Import GoTime.
From S2P Require Import GoDecode.
From S2P Require Import Effects.
From S2P Require Import Refine.
From S2P Require Import IdentPassword.
From S2P Require Import IdentService.
From S2P Require Import IdentFacts.

#[local] Open Scope Z_scope.

(** ** Methods as a whole *)

(** A call of a method of the service. *)
Inductive Method :=
| MInitialized
| MBootstrap (password : bytes)
| MResetPassword (password : bytes)
| MRevokeSessions
| MAuthenticate (password : bytes)
| MValidateSession (rawToken : bytes)
| MLogout (rawToken : bytes).

Section Methods.
Context `{Argon2}.
Context (sha256 : bytes -> bytes) (service : Service) (clock : nat -> Z) (random : nat -> Z -> option bytes)
  (capacity : bool) (others : nat -> list Action).
Abbreviation policy := (sessionPolicy_ service).

Definition run_method (m : Method) : M run IdentError unit :=
  match m with
  | MInitialized => _ ← Initialized service others; mret tt
  | MBootstrap p => Bootstrap service clock random capacity others p
  | MResetPassword p => ResetPassword service clock random capacity others p
  | MRevokeSessions => RevokeSessions service clock others
  | MAuthenticate p => _ ← Authenticate sha256 service clock random capacity others p; mret tt
  | MValidateSession t => _ ← ValidateSession sha256 service clock random others t; mret tt
  | MLogout t => Logout sha256 service others t
  end.

Context (Hmax : 0 <= maximumSessions policy).
Abbreviation kept := (inv_rel (tables_ok policy)).

Lemma moves_then_inv {A} (R : Db -> Db -> Prop) (m : Store A) : moves R (_ ← m; mret tt) -> moves R m.
Proof. intros Hm w. specialize (Hm w). unfold mbind, M_bind in Hm. by destruct (m w) as [[a|e] w']. Qed.

Lemma call_kept {A} (m : Store A) : keeps (tables_ok policy) m -> preserves kept (call service others m).
Proof using Hmax. intros Hm. apply call_keeps; [|done]. intros n a _. by apply act_tables_ok. Qed.

Lemma act_kept {A} (m : Store A) a : act policy a = (_ ← m; mret tt) -> preserves kept (call service others m).
Proof using Hmax. intros E. apply call_kept, moves_then_inv. rewrite <- E. by apply act_tables_ok. Qed.

Lemma query_kept {A} what (f : Db -> A) : preserves kept (call service others (ident_query what f)).
Proof using Hmax. apply call_kept, ident_query_keeps. Qed.

Lemma encode_kept p : preserves kept (encode service random capacity p).
Proof.
  unfold encode. apply preserves_bind; [apply _|apply readRandom_keeps|]. intros salt. apply preserves_lift, _.
Qed.

Lemma touch_kept hash record e idle : preserves kept (touch service others hash record e idle).
Proof using Hmax.
  unfold touch. apply preserves_bind; [apply _|by apply (act_kept _ (ATouch (s_id record) hash e idle))|].
  intros n. destruct (negb _); [apply preserves_fail, _|apply active_keeps].
Qed.

Lemma rotate_kept again hash record e idle : preserves kept again ->
  preserves kept (rotate sha256 service random others again hash record e idle).
Proof using Hmax.
  intros Hag. unfold rotate. apply preserves_bind; [apply _|apply newToken_keeps|]. intros [token h].
  apply preserves_bind; [apply _|by apply (act_kept _ (ARotate (s_id record) hash h e idle))|].
  intros n. destruct (n =? 1); [apply active_keeps|done].
Qed.

Lemma validate_kept again hash : match again with Some m => preserves kept m | None => True end ->
  preserves kept (validate_with sha256 service clock random others again hash).
Proof using Hmax.
  intros Hag. unfold validate_with, loadSession. apply preserves_bind; [apply _|apply query_kept|].
  intros [record|]; [|apply preserves_fail, _]. unfold validate_record.
  apply preserves_bind; [apply _|apply utcNow_keeps|]. intros now. cbv zeta. destruct (expired _ _).
  { apply preserves_bind; [apply _| |intros; apply preserves_fail, _].
    apply preserves_attempt. by apply (act_kept _ (AExpire record hash)). }
  destruct (negb _ && _); [apply preserves_fail, _|]. destruct (_ && grace_over _ _).
  { apply preserves_bind; [apply _| |intros; apply preserves_fail, _].
    apply preserves_attempt. by apply (act_kept _ (AForget (s_id record) hash)). }
  destruct again; [destruct (_ && _); [by apply rotate_kept|]|]; apply touch_kept.
Qed.

Lemma advanceEpoch_kept v : preserves kept (advanceEpoch service clock others v).
Proof using Hmax.
  unfold advanceEpoch. apply preserves_bind; [apply _|apply utcNow_keeps|]. intros now.
  apply call_kept. by apply (act_tables_ok policy Hmax (AAdvance v (seconds now))).
Qed.

Lemma createSession_kept a v : preserves kept (createSession sha256 service clock random others a v).
Proof using Hmax.
  unfold createSession. apply preserves_bind; [apply _|apply newToken_keeps|]. intros [token h].
  apply preserves_bind; [apply _|apply newToken_keeps|]. intros [csrf c].
  apply preserves_bind; [apply _|apply utcNow_keeps|]. intros now. cbv zeta.
  apply preserves_bind; [apply _| |intros; apply preserves_ret, _].
  apply call_kept. by apply (act_tables_ok policy Hmax (ACreate a v h c now)).
Qed.

Lemma loadAdministrator_kept : preserves kept (loadAdministrator service others).
Proof using Hmax.
  unfold loadAdministrator, select_administrator. apply preserves_bind; [apply _|apply query_kept|].
  intros [a|]; [apply preserves_ret, _|apply preserves_fail, _].
Qed.

Lemma Authenticate_kept p : preserves kept (Authenticate sha256 service clock random capacity others p).
Proof using Hmax.
  unfold Authenticate. cbv zeta. apply preserves_bind; [apply _|apply preserves_attempt, loadAdministrator_kept|].
  intros [a|[]]; try apply preserves_fail, _.
  - apply preserves_bind; [apply _|apply preserves_lift, _|]. intros [verified parsed].
    destruct (_ || _); [apply preserves_fail, _|]. apply preserves_bind; [apply _| |intros; apply createSession_kept].
    unfold upgrade. destruct (shouldUpgradePassword _ _); [apply encode_kept|apply preserves_ret, _].
  - apply preserves_bind; [apply _|apply preserves_lift, _|intros; apply preserves_fail, _].
Qed.

Lemma run_method_kept m : preserves kept (run_method m).
Proof using Hmax.
  destruct m; cbn [run_method].
  - apply preserves_bind; [apply _|apply query_kept|intros; apply preserves_ret, _].
  - unfold Bootstrap. apply preserves_bind; [apply _|apply preserves_lift, _|]. intros _.
    apply preserves_bind; [apply _|apply encode_kept|]. intros v.
    apply preserves_bind; [apply _|apply utcNow_keeps|]. intros now.
    apply call_kept. by apply (act_tables_ok policy Hmax (ABootstrap v (seconds now))).
  - unfold ResetPassword. apply preserves_bind; [apply _|apply preserves_lift, _|]. intros _.
    apply preserves_bind; [apply _|apply encode_kept|]. intros v. apply advanceEpoch_kept.
  - apply advanceEpoch_kept.
  - apply preserves_bind; [apply _|apply Authenticate_kept|intros; apply preserves_ret, _].
  - apply preserves_bind; [apply _| |intros; apply preserves_ret, _]. unfold ValidateSession.
    destruct (decodeToken _ _) as [[d h]|]; [|apply preserves_fail, _].
    apply validate_kept. by apply validate_kept.
  - unfold Logout. destruct (decodeToken _ _) as [[d h]|]; [|apply preserves_ret, _].
    apply preserves_bind; [apply _|by apply (act_kept _ (ALogout h))|intros; apply preserves_ret, _].
Qed.
End Methods.

(** ** Logins *)

Section Login.
Context `{Argon2}.
Context (sha256 : bytes -> bytes) (service : Service) (clock : nat -> Z) (random : nat -> Z -> option bytes)
  (capacity : bool) (others : nat -> list Action).
Abbreviation policy := (sessionPolicy_ service).

(** The tables the next call of a method acts on. *)
Definition seen (s : run) : Db := w_db (before_call service others s).

Lemma create_epoch a v token csrf now w w' : db_create policy a v token csrf now w = (Ok tt, w') ->
  auth_epoch <$> administrator (w_db w') = Some (ar_epoch a).
Proof.
  intros (n1 & n2 & d1 & d2 & d3 & H1 & H2 & H3 & H4)%db_create_Ok.
  apply insert_session_row in H3 as (Ea & Ee & _ & _).
  unfold trim_sessions, delete_sessions in H4. injection H4 as _ <-. cbn. by rewrite Ea.
Qed.

Lemma newToken_Ok what s raw h s' : newToken sha256 random what s = (Ok (raw, h), s') ->
  exists c, random (r_draws s) tokenByteLength = Some c /\ raw = base64_encode raw_url_encoding c /\ h = sha256 raw /\
    r_db s' = r_db s /\ r_calls s' = r_calls s /\ r_draws s' = S (r_draws s).
Proof.
  unfold newToken. intros (c & s1 & Hr & Ht)%M_bind_Ok. unfold readRandom in Hr. injection Hr as Hc <-.
  destruct c as [c|]; [|done]. unfold mret, M_ret in Ht. injection Ht as <- <- <-. exists c. done.
Qed.

Lemma createSession_Ok a v s g s' : createSession sha256 service clock random others a v s = (Ok g, s') ->
  exists c1 c2 w,
    random (r_draws s) tokenByteLength = Some c1 /\ random (S (r_draws s)) tokenByteLength = Some c2 /\
    let now := clock (r_calls s) in
    g = mk_grant (base64_encode raw_url_encoding c1) (base64_encode raw_url_encoding c2) (idle_expiry policy now) (absolute_expiry policy now) /\
    db_create policy a v (sha256 (g_Token g)) (sha256 (g_CSRFToken g)) now (before_call service others s) = (Ok tt, w) /\
    r_db s' = w /\ r_calls s' = S (r_calls s).
Proof.
  unfold createSession. intros ([t h] & s1 & (c1 & R1 & -> & -> & D1 & C1 & N1)%newToken_Ok & Hk)%M_bind_Ok.
  apply M_bind_Ok in Hk as ([t2 h2] & s2 & (c2 & R2 & -> & -> & D2 & C2 & N2)%newToken_Ok & Hk).
  apply M_bind_Ok in Hk as (now & s3 & Hn & Hk). unfold utcNow in Hn. injection Hn as <- <-. cbv zeta in Hk.
  apply M_bind_Ok in Hk as (u & s4 & Hc & Hk). unfold mret, M_ret in Hk. injection Hk as <- <-.
  unfold call in Hc. destruct (db_create _ _ _ _ _ _ _) as [r w] eqn:Ec. injection Hc as -> <-. destruct u.
  exists c1, c2, w. rewrite N1 in R2. rewrite C2, C1 in *. unfold before_call. rewrite D2, D1 in Ec. done.
Qed.

Lemma loadAdministrator_Ok s r s' : attempt (loadAdministrator service others) s = (Ok r, s') ->
  r_calls s' = S (r_calls s) /\ r_draws s' = r_draws s /\
  match r with
  | Ok a => tables s' = seen s /\ exists row, administrator (seen s) = Some row /\ a = mk_administratorRecord (password_verifier row) (auth_epoch row)
  | Err _ => True
  end.
Proof.
  unfold attempt, loadAdministrator, select_administrator, ident_query, seen, before_call, call, mbind, M_bind.
  set (w := act_all _ _ _). destruct (autocommit_cases "load administrator verifier" (fun d => Some ((fun a =>
     mk_administratorRecord (password_verifier a) (auth_epoch a)) <$> administrator d, d)) w)
    as [(e & w' & -> & E)|(x & w' & -> & E)]; cbn.
  - by intros [= <- <-].
  - injection E as Ex Ew. subst x. destruct (administrator (w_db w)) as [row|] eqn:Ea; cbn; intros [= <- <-]; [|done].
    unfold tables. cbn. rewrite Ew. split_and!; [done..|]. exists row. done.
Qed.

(** A successful login presented the password of the verifier it loaded, and
    the security epoch it loaded still holds when its session is stored. *)
Lemma Authenticate_Ok password s g s' : Authenticate sha256 service clock random capacity others password s = (Ok g, s') ->
  exists row parsed v sk, administrator (seen s) = Some row /\
    verifyPassword capacity password (password_verifier row) = Ok (true, parsed) /\
    auth_epoch <$> administrator (tables s') = Some (auth_epoch row) /\
    r_calls sk = S (r_calls s) /\ tables sk = seen s /\
    createSession sha256 service clock random others (mk_administratorRecord (password_verifier row) (auth_epoch row)) v sk = (Ok g, s').
Proof.
  unfold Authenticate. cbv zeta. intros (r & s1 & Hload & Hk)%M_bind_Ok.
  apply loadAdministrator_Ok in Hload as (Hcalls & _ & Hload).
  destruct r as [a|[]]; try done; [|by apply M_bind_Ok in Hk as (? & ? & _ & ?)].
  destruct Hload as (Ht & row & Hrow & ->).
  apply M_bind_Ok in Hk as ([verified parsed] & s2 & Hv & Hk). unfold lift in Hv. injection Hv as Hv <-.
  destruct (_ || _) eqn:Eforce in Hk at 1; [done|]. apply orb_false_iff in Eforce as [E1 E2].
  apply negb_false_iff in E1 as ->. rewrite E2 in Hv.
  apply M_bind_Ok in Hk as (v & s3 & Hu & Hk).
  assert (Hs3 : tables s3 = tables s1 /\ r_calls s3 = r_calls s1).
  { unfold upgrade, encode in Hu. destruct (shouldUpgradePassword _ _).
    - apply M_bind_Ok in Hu as (salt & s4 & Hr & Hu). unfold readRandom in Hr. injection Hr as _ <-.
      unfold lift in Hu. by injection Hu as _ <-.
    - unfold mret, M_ret in Hu. by injection Hu as _ <-. }
  destruct Hs3 as [E3 C3]. exists row, parsed, v, s3.
  pose proof Hk as (c1 & c2 & w & _ & _ & _ & Hc & Hw & _)%createSession_Ok.
  split_and!; [done|done| |congruence|congruence|done].
  apply create_epoch in Hc. unfold tables. by rewrite Hw.
Qed.
End Login.

(** ** Properties *)

(** C37: whatever other goroutines commit between its database calls and
    whatever faults the engine reports, a method of the service keeps the
    tables well formed: every constraint of the schema, every session under
    the administrator's current security epoch, no session older than its
    absolute lifetime allows, and never more sessions than the policy's
    maximum. *)
Theorem methods_keep_tables `{Argon2} sha256 service clock random capacity others m s :
  0 <= maximumSessions (sessionPolicy_ service) -> tables_ok (sessionPolicy_ service) (tables s) ->
  tables_ok (sessionPolicy_ service) (tables (run_method sha256 service clock random capacity others m s).2).
Proof. intros Hmax. by apply run_method_kept. Qed.

(** C35: a token is accepted only for a live session: its row was loaded
    neither idle nor past its absolute expiry at the clock reading (nor before
    the time it was last seen), and the accepting update found the row still
    stored, under the current epoch, with the token as its current one or as a
    previous one inside its grace period; the new idle expiry never passes the
    absolute one, which never passes creation plus the absolute lifetime. *)
Theorem accepted_token_is_live `{Argon2} sha256 service clock random others hash b s a s' :
  0 <= maximumSessions (sessionPolicy_ service) -> tables_ok (sessionPolicy_ service) (tables s) ->
  validateSessionHash sha256 service clock random others hash b s = (Ok a, s') ->
  live_acceptance sha256 service clock others hash s a s' /\
  forall r, r ∈ identity_sessions (tables s') ->
    idle_expires_at_unix r <= absolute_expires_at_unix r <= created_at_unix r + lifetime_seconds (sessionPolicy_ service).
Proof.
  intros Hmax Hok Hv. split; [by eapply session_hash_Ok|].
  assert (Hk : tables_ok (sessionPolicy_ service) (tables s')).
  { assert (Hp : preserves (inv_rel (tables_ok (sessionPolicy_ service))) (validateSessionHash sha256 service clock random others hash b)).
    { apply validate_kept; [done|]. destruct b; [|done]. by apply validate_kept. }
    specialize (Hp s Hok). by rewrite Hv in Hp. }
  intros r Hr. pose proof (ro_life _ _ (to_rows _ _ Hk) r Hr). pose proof (ro_check _ _ (to_rows _ _ Hk)) as Hc.
  unfold sessions_check in Hc. bool_prop. rewrite forallb_elem_of in H1. specialize (H1 r Hr). unfold session_check in H1. bool_prop. lia.
Qed.

(** C36: a committed password reset or revocation ends every session: as long
    as no call stores that token anew, it is refused afterwards, also by a
    validation that loaded its session before the reset and resumes after it,
    at whatever point, and although other goroutines keep calling. *)
Theorem reset_revokes_every_token `{Argon2} sha256 service clock random others verifier now w w' hash b s record :
  db_advance verifier now w = (Ok tt, w') -> r_db s = w' -> (forall n a, a ∈ others n -> ~ mints hash a) ->
  is_err (validateSessionHash sha256 service clock random others hash b s).1 = true /\
  is_err (validate_record sha256 service clock random others
            (if b then Some (validateSessionHash sha256 service clock random others hash false) else None) hash record s).1 = true.
Proof.
  intros (a & _ & _ & E)%db_advance_Ok Hs Ho.
  assert (Ha : absent hash (tables s)).
  { unfold tables. rewrite Hs, E. intros r Hr. by apply not_elem_of_nil in Hr. }
  split; [by apply (refuses_session_hash _ _ _ _ _ hash Ho b s Ha)|].
  apply (refuses_record _ _ _ _ _ hash Ho); [|done]. destruct b; [|done]. by apply refuses_session_hash.
Qed.

(** C38: a login succeeds only with the password: the verifier loaded from the
    database is the text of Argon2id parameters, a salt and the key derived
    from the presented password, and the security epoch of that load still
    holds when the session is stored, so a login that races a reset or a
    revocation fails. *)
Theorem login_needs_password `{Argon2} sha256 service clock random capacity others password s g s' :
  Authenticate sha256 service clock random capacity others password s = (Ok g, s') ->
  exists row parsed, administrator (seen service others s) = Some row /\
    parseVerifier (password_verifier row) = Ok parsed /\
    (let p := pv_parameters parsed in
     argon2_IDKey password (pv_salt parsed) (iterations p) (memory p) (parallelism p) (keyLength p) = pv_hash parsed) /\
    auth_epoch <$> administrator (tables s') = Some (auth_epoch row).
Proof.
  intros (row & parsed & v & sk & H1 & H2 & H3 & _)%Authenticate_Ok. exists row, parsed.
  unfold verifyPassword in H2. apply bind_Ok in H2 as (pv & Hp & H2). apply bind_Ok in H2 as (key & Hd & H2).
  injection H2 as Hb ->. apply bool_decide_eq_true in Hb. unfold derivePassword in Hd. destruct capacity; [|done].
  injection Hd as Hd. split_and!; [done|done|cbv zeta; by rewrite Hd|done].
Qed.

Lemma policy_of_configuration c : configuration_validate c = Ok tt -> let p := cf_sessionPolicy c in
  second_ns 1 <= idleLifetime p <= absoluteLifetime p /\ second_ns 1 <= rotationAfter p < absoluteLifetime p /\ 1 <= maximumSessions p <= 64.
Proof.
  unfold configuration_validate. cbv zeta. intros (? & _ & E)%bind_Ok.
  repeat (apply bind_Ok in E as (? & ?%reject_if_Ok & E)). apply reject_if_Ok in E. bool_prop. lia.
Qed.

(** a login's session is usable: under a service [New] accepted, with
    fresh token digests and a clock not behind the stored sessions, the new
    session is never the one the session bound evicts, its token validates
    until the idle or rotation time, and the CSRF token belongs to it. *)
Theorem login_session_validates `{Argon2} c service sha256 clock random capacity password s g s' n k :
  New c = Ok service -> tables_ok (sessionPolicy_ service) (tables s) ->
  (forall i contents, random i tokenByteLength = Some contents -> blen contents = tokenByteLength) ->
  Authenticate sha256 service clock random capacity nobody password s = (Ok g, s') ->
  let now := clock (S (r_calls s)) in
  seen_before now (tables s) ->
  absent (sha256 (g_Token g)) (tables s) ->
  seconds now <= seconds (clock (S n)) ->
  seconds (clock (S n)) < seconds (idle_expiry (sessionPolicy_ service) now) ->
  seconds (clock (S n)) < seconds (now + rotationAfter (sessionPolicy_ service)) ->
  exists a s2, ValidateSession sha256 service clock random nobody (g_Token g) (mk_run (quiet_world (tables s')) n k) = (Ok a, s2) /\
    ValidCSRF sha256 a (g_CSRFToken g) = true /\ ReplacementToken a = [].
Proof.
  intros Hnew Hok Hrandom Hauth now Hseen Habs L1 L2 L3.
  unfold New in Hnew. apply bind_Ok in Hnew as ([] & Hc%map_err_Ok & Hnew).
  cbv zeta in Hnew. unfold derivePassword in Hnew. cbn [mbind result_bind] in Hnew.
  apply policy_of_configuration in Hc as (P1 & P2 & P3). injection Hnew as <-. cbn [sessionPolicy_] in *.
  set (service := mk_service _ _ _) in *. set (policy := cf_sessionPolicy c) in *.
  assert (Hok' : tables_ok policy (tables s')).
  { assert (Hmax : 0 <= maximumSessions (sessionPolicy_ service)) by (cbn; lia).
    pose proof (Authenticate_kept sha256 service clock random capacity nobody Hmax password s Hok) as Hk. by rewrite Hauth in Hk. }
  apply Authenticate_Ok in Hauth as (row & parsed & v & sk & _ & _ & _ & Hcalls & Ht & Hk).
  apply createSession_Ok in Hk as (c1 & c2 & w & R1 & R2 & Eg & Hcr & Ew & _). cbv zeta in Eg, Hcr.
  rewrite Hcalls in Eg, Hcr. fold now in Eg, Hcr.
  assert (Hbefore : w_db (before_call service nobody sk) = tables s).
  { unfold before_call, nobody. cbn. fold (tables sk). rewrite Ht. done. }
  rewrite <- Hbefore in Hseen, Habs.
  destruct (create_survives policy _ _ _ _ _ (proj1 P3) _ _ Hcr Hseen) as (r & Hr & Hcur & Hprev & Hcsrf & Hls & _ & Hidle & Habsl & Hrot & Huniq).
  specialize (Huniq Habs).
  assert (Etab : tables s' = w_db w) by (unfold tables; by rewrite Ew). rewrite Etab in *.
  assert (Eabs : idle_expiry policy now <= absolute_expiry policy now) by (unfold idle_expiry; destruct (Z.ltb_spec (absolute_expiry policy now) (now + idleLifetime policy)); lia).
  assert (Etok : g_Token g = base64_encode raw_url_encoding c1) by by rewrite Eg.
  assert (Ecsrf : g_CSRFToken g = base64_encode raw_url_encoding c2) by by rewrite Eg.
  assert (Edec : decodeToken sha256 (g_Token g) = Ok (c1, sha256 (g_Token g))).
  { rewrite Etok. apply decode_new_token. by eapply Hrandom. }
  unfold ValidateSession. rewrite Edec.
  assert (E1s : second_ns 1 = 1000000000) by reflexivity.
  destruct (validate_current sha256 service clock random (w_db w) r (sha256 (g_Token g)) n k) as (a & s2 & Ha & Hac & Har); try done.
  - congruence.
  - rewrite Hls. done.
  - rewrite Hidle. done.
  - rewrite Habsl. eapply Z.lt_le_trans; [exact L2|]. apply Z.div_le_mono; [unfold ns_per_second; lia|]. exact Eabs.
  - rewrite Hrot. done.
  - cbn. lia.
  - exists a, s2. split_and!; [done| |done]. unfold ValidCSRF.
    rewrite Ecsrf, decode_new_token by by eapply Hrandom. rewrite Hac, Hcsrf. apply bool_decide_eq_true. by rewrite Ecsrf.
Qed.

(** verifiers round trip: the text [encodePassword] stores fits the
    column's limit, parses back, accepts exactly the passwords that derive the
    same key, and is not due for an upgrade; and text without line breaks that
    [parseVerifier] accepts is what [formatVerifier] prints. *)
Theorem verifier_round_trip `{Argon2Laws} p salt capacity password verifier :
  validatePasswordParameters p = Ok tt -> blen salt = saltLength p ->
  encodePassword p (Some salt) capacity password = Ok verifier ->
  1 <= blen verifier <= maximumVerifierBytes /\
  (exists parsed, parseVerifier verifier = Ok parsed /\ pv_parameters parsed = p /\ shouldUpgradePassword parsed p = false /\
    forall candidate, verifyPassword true candidate verifier = Ok
      (bool_decide (argon2_IDKey candidate salt (iterations p) (memory p) (parallelism p) (keyLength p)
                    = argon2_IDKey password salt (iterations p) (memory p) (parallelism p) (keyLength p)), parsed)) /\
  forall text parsed, unbroken text -> parseVerifier text = Ok parsed ->
    formatVerifier (pv_parameters parsed) (pv_salt parsed) (pv_hash parsed) = text.
Proof.
  intros Hp Hs He. unfold encodePassword, derivePassword in He. destruct capacity; [|done].
  cbn [mbind result_bind] in He. injection He as <-.
  set (key := argon2_IDKey password salt _ _ _ _).
  assert (Hsized : sized p salt key).
  { split; [done|]. apply argon2_key_length. apply validatePasswordParameters_Ok in Hp. lia. }
  split; [by apply formatVerifier_length|]. split.
  - exists (mk_parsed p salt key). pose proof (parse_formatVerifier p salt key Hp Hsized) as Hparse. split_and!; [done|done| |].
    + destruct (shouldUpgradePassword _ p) eqn:E; [|done]. apply shouldUpgradePassword_spec in E as [_ Hne]. done.
    + intros candidate. unfold verifyPassword. rewrite Hparse. done.
  - intros text parsed Hu Hparse. by apply parseVerifier_Ok in Hparse as (_ & _ & E); apply E.
Qed.

(** ** Samples *)

#[local] Instance sample_argon2 : Argon2 := {|
  argon2_Version := 19;
  argon2_IDKey password salt _ _ _ n := take (Z.to_nat n) (password ++ replicate (Z.to_nat n) "0"%char)
|}.

#[local] Instance sample_argon2_laws : Argon2Laws.
Proof.
  split; [cbn; lia|]. intros password salt t m p n Hn. cbn. unfold blen. rewrite length_take, length_app, length_replicate. lia.
Qed.

Definition sample_sha256 (b : bytes) : bytes := take 32 (b ++ replicate 32 "0"%char).
Definition sample_random (i : nat) (n : Z) : option bytes := Some (replicate (Z.to_nat n) (z2b (Z.of_nat i mod 256))).
Definition sample_configuration : configuration := mk_configuration (mk_parameters 8192 1 1 16 16) defaultSessionPolicy 1.
Definition sample_service : Service :=
  match New sample_configuration with Ok s => s | Err _ => mk_service defaultPasswordParameters defaultSessionPolicy [] end.
Definition sample_password : bytes := to_bytes "correct horse".
Definition sample_salt : bytes := replicate 16 "s"%char.
Definition sample_verifier : bytes :=
  match encodePassword (cf_passwordParameters sample_configuration) (Some sample_salt) true sample_password with Ok v => v | Err _ => [] end.
Definition sample_hash (n : Z) : bytes := replicate 32 (z2b n).
Definition sample_row (id seen : Z) : SessionRow :=
  mk_session id 1 (sample_hash (2 * id)) None None (sample_hash (2 * id + 1)) 100 seen (seen + 1800) 43200 1000.
Definition sample_db (rows : list SessionRow) : Db := mk_db (Some (mk_admin sample_verifier 1 0 0)) rows.
Definition sample_run (rows : list SessionRow) : run := mk_run (quiet_world (sample_db rows)) 0 0.
(** 150 seconds after the epoch. *)
Definition sample_clock (_ : nat) : Z := second_ns 150.

Lemma sample_tables_ok : tables_ok defaultSessionPolicy (tables (sample_run [sample_row 1 120])).
Proof.
  split; [split|]; cbn [tables sample_run r_db quiet_world w_db sample_db identity_sessions].
  - vm_compute. reflexivity.
  - apply NoDup_singleton.
  - intros r ->%list_elem_of_singleton. vm_compute. reflexivity.
  - intros r ->%list_elem_of_singleton. vm_compute. discriminate.
  - vm_compute. discriminate.
Qed.

Lemma methods_keep_tables_witness :
  tables_ok defaultSessionPolicy (tables (run_method sample_sha256 sample_service sample_clock sample_random true
    (fun _ => [AAdvance [] 0; ALogout (sample_hash 2)]) (MValidateSession []) (sample_run [sample_row 1 120])).2).
Proof. apply (methods_keep_tables sample_sha256 sample_service); [vm_compute; discriminate|exact sample_tables_ok]. Defined.

Definition sample_accepted : result IdentError ActiveSession * run :=
  validateSessionHash sample_sha256 sample_service sample_clock sample_random nobody (sample_hash 2) true (sample_run [sample_row 1 120]).

Lemma accepted_token_is_live_witness : exists a s', sample_accepted = (Ok a, s') /\
  live_acceptance sample_sha256 sample_service sample_clock nobody (sample_hash 2) (sample_run [sample_row 1 120]) a s'.
Proof.
  destruct sample_accepted as [[a|e] s'] eqn:E; [|exfalso; vm_compute in E; discriminate].
  exists a, s'. split; [reflexivity|].
  eapply (accepted_token_is_live sample_sha256 sample_service sample_clock sample_random nobody (sample_hash 2) true
    (sample_run [sample_row 1 120]) a s'); [vm_compute; discriminate|exact sample_tables_ok|exact E].
Defined.

Definition sample_reset : world Db := (db_advance [] 0 (quiet_world (sample_db [sample_row 1 120]))).2.

Lemma reset_revokes_every_token_witness :
  is_err (validateSessionHash sample_sha256 sample_service sample_clock sample_random nobody (sample_hash 2) true (mk_run sample_reset 0 0)).1 = true.
Proof.
  apply (reset_revokes_every_token sample_sha256 sample_service sample_clock sample_random nobody [] 0
    (quiet_world (sample_db [sample_row 1 120])) sample_reset (sample_hash 2) true (mk_run sample_reset 0 0) (sample_row 1 120)).
  - vm_compute. reflexivity.
  - reflexivity.
  - intros n a Ha. apply not_elem_of_nil in Ha. destruct Ha.
Defined.

Definition sample_login : result IdentError SessionGrant * run :=
  Authenticate sample_sha256 sample_service sample_clock sample_random true nobody sample_password (sample_run [sample_row 1 120]).

Lemma login_needs_password_witness : exists row, administrator (seen sample_service nobody (sample_run [sample_row 1 120])) = Some row /\
  is_ok (parseVerifier (password_verifier row)) = true.
Proof.
  destruct sample_login as [[g|e] s'] eqn:E; [|exfalso; vm_compute in E; discriminate].
  destruct (login_needs_password sample_sha256 sample_service sample_clock sample_random true nobody sample_password
    (sample_run [sample_row 1 120]) g s' E) as (row & parsed & H1 & H2 & _).
  exists row. split; [exact H1|]. rewrite H2. reflexivity.
Defined.

Lemma login_session_validates_witness : exists g s' a s2, sample_login = (Ok g, s') /\
  ValidateSession sample_sha256 sample_service sample_clock sample_random nobody (g_Token g) (mk_run (quiet_world (tables s')) 0 0) = (Ok a, s2) /\
  ValidCSRF sample_sha256 a (g_CSRFToken g) = true.
Proof.
  destruct sample_login as [[g|e] s'] eqn:E; [|exfalso; vm_compute in E; discriminate].
  destruct (login_session_validates sample_configuration sample_service sample_sha256 sample_clock sample_random true sample_password
    (sample_run [sample_row 1 120]) g s' 0 0) as (a & s2 & H1 & H2 & _).
  - vm_compute. reflexivity.
  - exact sample_tables_ok.
  - intros i contents [= <-]. reflexivity.
  - exact E.
  - intros r ->%list_elem_of_singleton. vm_compute. discriminate.
  - intros r ->%list_elem_of_singleton. split; [|discriminate].
    assert (Hg : g_Token g = base64_encode raw_url_encoding (replicate 32 (z2b 0))) by (vm_compute in E; injection E as <- _; reflexivity).
    rewrite Hg. vm_compute. discriminate.
  - vm_compute. discriminate.
  - vm_compute. reflexivity.
  - vm_compute. reflexivity.
  - exists g, s', a, s2. split; [reflexivity|]. split; [exact H1|exact H2].
Defined.

Lemma verifier_round_trip_witness : 1 <= blen sample_verifier <= maximumVerifierBytes.
Proof.
  eapply (verifier_round_trip (cf_passwordParameters sample_configuration) sample_salt true sample_password sample_verifier);
    vm_compute; reflexivity.
Defined.

(** Eight sessions seen half a minute ahead of the clock. *)
Definition ahead : list SessionRow := (fun i => sample_row (Z.of_nat i) 180) <$> seq 1 8.

(** with a wall clock that was set back, a login can report success for a
    session it has already evicted: the session bound keeps the most recently
    seen rows, and the new row counts as the oldest. *)
Theorem late_clock_login_is_lost :
  exists g s', Authenticate sample_sha256 sample_service sample_clock sample_random true nobody sample_password (sample_run ahead) = (Ok g, s') /\
    (ValidateSession sample_sha256 sample_service sample_clock sample_random nobody (g_Token g) s').1 = Err ErrInvalidSession.
Proof.
  destruct (Authenticate _ _ _ _ _ _ _ _) as [[g|e] s'] eqn:E; [|exfalso; vm_compute in E; discriminate].
  exists g, s'. split; [reflexivity|]. vm_compute in E. injection E as <- <-. vm_compute. reflexivity.
Qed.
