(* ===== verification/DotenvScan.v ===== *)
(** The credential file scanner of internal/dotenv/dotenv.go: keys, values,
    comments and quotes with their byte spans.  A position is a [nat]; the
    loops over [data] from a position are recursions over the bytes from there
    on.  Running out of fuel is an error of its own, which never happens. *)
From stdpp Require Import gmap.
From S2P Require Import Prelude.
From S2P Require Import GoText.

#[local] Open Scope Z_scope.

Inductive Code :=
| CodeInvalidPolicy | CodeInvalidUTF8 | CodeTooLarge | CodeTooManyLines | CodeMalformed | CodeKeyNotAllowed
| CodeDuplicateKey | CodeExpansionNotAllowed | CodeInvalidChange | CodeValueTooLarge
| OutOfFuel.
#[export] Instance Code_eq_dec : EqDecision Code.
Proof. solve_decision. Defined.

(** The failure category and the key it names, if any. *)
Record Error := mk_error { e_code : Code; e_key : bytes }.
Definition err {A} (c : Code) : result Error A := Err (mk_error c []).
Definition err_for {A} (c : Code) (key : bytes) : result Error A := Err (mk_error c key).

Record Policy := mk_dotenv_policy {
  MaximumBytes : Z;
  MaximumLines : Z;
  MaximumValueBytes : Z;
}.
Definition maximumAllowedBytes : Z := Z.shiftl 8 20.
Definition maximumAllowedLines : Z := 32768.
Definition maximumAllowedValueBytes : Z := Z.shiftl 1 20.
Definition DefaultPolicy : Policy := mk_dotenv_policy (Z.shiftl 1 20) 8192 (Z.shiftl 64 10).

Definition validatePolicy (p : Policy) : result Error unit :=
  if (MaximumBytes p <=? 0) || (maximumAllowedBytes <? MaximumBytes p)
     || (MaximumLines p <=? 0) || (maximumAllowedLines <? MaximumLines p)
     || (MaximumValueBytes p <=? 0) || (maximumAllowedValueBytes <? MaximumValueBytes p)
  then err CodeInvalidPolicy else Ok tt.

(** ** Characters *)

Definition tab : ascii := z2b 9.
Definition lf : ascii := z2b 10.
Definition vt : ascii := z2b 11.
Definition ff : ascii := z2b 12.
Definition cr : ascii := z2b 13.
Definition double_quote : ascii := z2b 34.
Definition single_quote : ascii := z2b 39.

Definition isHorizontalSpace (c : ascii) : bool :=
  Ascii.eqb c " " || Ascii.eqb c tab || Ascii.eqb c vt || Ascii.eqb c ff.
Definition is_newline (c : ascii) : bool := Ascii.eqb c lf || Ascii.eqb c cr.
Definition is_space (c : ascii) : bool := isHorizontalSpace c || is_newline c.

(** ** Keys *)

Fixpoint valid_key_from (first : bool) (key : bytes) : bool :=
  match key with
  | [] => true
  | c :: key => (in_range "A" "Z" c || Ascii.eqb c "_" || (negb first && is_digit c)) && valid_key_from false key
  end.
Definition validKey (key : bytes) : bool :=
  if (blen key =? 0) || (128 <? blen key) then false else valid_key_from true key.

Definition validSourceKey (key : bytes) : bool :=
  if (blen key =? 0) || (256 <? blen key) then false
  else forallb (fun c => in_range "A" "Z" c || in_range "a" "z" c || is_digit c || Ascii.eqb c "_" || Ascii.eqb c ".") key.

Fixpoint adjacent_equal (l : list bytes) : bool :=
  match l with
  | a :: ((b :: _) as rest) => bool_decide (a = b) || adjacent_equal rest
  | _ => false
  end.

Definition validateAllowedKeys (keys : list bytes) : result Error (list bytes) :=
  if existsb (fun k => negb (validKey k)) keys then err CodeInvalidPolicy
  else let sorted := sort_by text_le keys in
       if adjacent_equal sorted then err CodeInvalidPolicy else Ok sorted.

(** ** Positions *)

(** The first position from [pos] on whose byte does not satisfy [p]. *)
Fixpoint skip_while (p : ascii -> bool) (rest : bytes) (pos : nat) : nat :=
  match rest with
  | c :: rest => if p c then skip_while p rest (S pos) else pos
  | [] => pos
  end.

Definition skipWhitespace (data : bytes) (position : nat) : nat := skip_while is_space (drop position data) position.
Definition skipHorizontal (data : bytes) (position : nat) : nat := skip_while isHorizontalSpace (drop position data) position.
Definition line_end (data : bytes) (position : nat) : nat :=
  skip_while (fun c => negb (is_newline c)) (drop position data) position.

(** The byte at a position, if there is one. *)
Definition at_is (data : bytes) (position : nat) (c : ascii) : bool :=
  match data !! position with Some d => Ascii.eqb d c | None => false end.

Definition consumeLine (data : bytes) (position : nat) : nat :=
  let position := line_end data position in
  if at_is data position cr then
    let position := S position in if at_is data position lf then S position else position
  else if at_is data position lf then S position else position.

Fixpoint currentLineStart (data : bytes) (position : nat) : nat :=
  match position with
  | O => O
  | S p => if at_is data p lf || at_is data p cr then position else currentLineStart data p
  end.

Definition slice (data : bytes) (start stop : nat) : bytes := take (stop - start) (drop start data).

(** [unicode.IsSpace] *)
Definition unicode_space (r : Z) : bool :=
  ((9 <=? r) && (r <=? 13)) || (r =? 32) || (r =? 133) || (r =? 160) || (r =? 5760)
  || ((8192 <=? r) && (r <=? 8202)) || (r =? 8232) || (r =? 8233) || (r =? 8239) || (r =? 8287) || (r =? 12288).

(** The bytes that the leading white space of scanned text takes. *)
Fixpoint space_width (scanned : list (Z * nat)) : nat :=
  match scanned with
  | (r, width) :: rest => if unicode_space r then (width + space_width rest)%nat else O
  | [] => O
  end.

(** [strings.TrimSpace] *)
Definition TrimSpace (l : bytes) : bytes :=
  let l := drop (space_width (scan l)) l in
  take (List.length l - space_width (rev (scan l))) l.

(** ** Values *)

(** Backslashes at the head of the reversed text before a byte. *)
Fixpoint backslashes (before : bytes) : nat :=
  match before with
  | c :: before => if Ascii.eqb c "\" then S (backslashes before) else O
  | [] => O
  end.

Fixpoint contains_expansion (before value : bytes) : bool :=
  match value with
  | [] => false
  | c :: value =>
      if Ascii.eqb c "$" && Nat.even (backslashes before) then true else contains_expansion (c :: before) value
  end.
Definition containsExpansion (value : bytes) : bool := contains_expansion [] value.

(** The position of the closing quote: one not preceded by a backslash. *)
Fixpoint find_quote (quote prev : ascii) (rest : bytes) (pos : nat) : option nat :=
  match rest with
  | [] => None
  | c :: rest => if Ascii.eqb c quote && negb (Ascii.eqb prev "\") then Some pos else find_quote quote c rest (S pos)
  end.

(** The position of a comment: a hash after a horizontal space. *)
Fixpoint find_comment (prev : ascii) (rest : bytes) (pos : nat) : option nat :=
  match rest with
  | [] => None
  | c :: rest => if Ascii.eqb c "#" && isHorizontalSpace prev then Some pos else find_comment c rest (S pos)
  end.

(** [valueEnd] moved left over horizontal space, not past [start]. *)
Fixpoint trim_back (data : bytes) (start valueEnd : nat) : nat :=
  match valueEnd with
  | O => O
  | S p => if (start <? valueEnd)%nat && match data !! p with Some c => isHorizontalSpace c | None => false end
           then trim_back data start p else valueEnd
  end.

Definition scan_quoted (data : bytes) (start : nat) (quote : ascii) : result Error (nat * nat * bool) :=
  match find_quote quote quote (drop (S start) data) (S start) with
  | None => err CodeMalformed
  | Some position =>
      let valueEnd := S position in
      let trailer := skipHorizontal data valueEnd in
      if match data !! trailer with Some c => negb (Ascii.eqb c "#") && negb (is_newline c) | None => false end
      then err CodeMalformed
      else
        let expansion := if Ascii.eqb quote double_quote then containsExpansion (slice data (S start) position) else false in
        Ok (valueEnd, consumeLine data trailer, expansion)
  end.

Definition scan_bare (data : bytes) (start : nat) : nat * nat * bool :=
  let lineEnd := line_end data start in
  let line := slice data start lineEnd in
  let valueEnd := match line with
                  | [] => lineEnd
                  | c :: rest => default lineEnd (find_comment c rest (S start))
                  end in
  let valueEnd := trim_back data start valueEnd in
  (valueEnd, consumeLine data lineEnd, containsExpansion (slice data start valueEnd)).

(** End of the value, end of the statement, and whether it expands variables. *)
Definition scanValue (data : bytes) (start : nat) : result Error (nat * nat * bool) :=
  match data !! start with
  | None => Ok (start, consumeLine data start, false)
  | Some c =>
      if is_newline c then Ok (start, consumeLine data start, false)
      else if Ascii.eqb c single_quote || Ascii.eqb c double_quote then scan_quoted data start c
      else Ok (scan_bare data start)
  end.

(** ** Statements *)

Record entry := mk_entry {
  key : bytes;
  statementStart : nat;
  statementEnd : nat;
  valueStart : nat;
  valueEnd : nat;
}.

(** The separator of a statement, before the end of the line. *)
Fixpoint find_separator (rest : bytes) (pos : nat) : option nat :=
  match rest with
  | [] => None
  | c :: rest =>
      if Ascii.eqb c "=" || Ascii.eqb c ":" then Some pos
      else if is_newline c then None else find_separator rest (S pos)
  end.

Definition export_text : bytes := to_bytes "export".

(** Where the key begins: after an [export] followed by horizontal space. *)
Definition key_start (data : bytes) (position : nat) : nat :=
  let after := (position + 6)%nat in
  if bool_decide (take 6 (drop position data) = export_text)
     && match data !! after with Some c => isHorizontalSpace c | None => false end
  then skipHorizontal data after else position.

Record scanned := mk_scanned {
  sc_entries : gmap bytes entry;
  sc_seen : gset bytes;
  sc_unsupported : gset bytes;
}.
Definition nothing_scanned : scanned := mk_scanned ∅ ∅ ∅.

(** One statement that begins at [position], a byte that is neither white
    space nor a hash: the updated maps and the position after it. *)
Definition scan_statement (data : bytes) (allowed : list bytes) (s : scanned) (position : nat) : result Error (scanned * nat) :=
  let statementStart := currentLineStart data position in
  let keyStart := key_start data position in
  match find_separator (drop keyStart data) keyStart with
  | None => err CodeMalformed
  | Some separator =>
      let key := TrimSpace (slice data keyStart separator) in
      if negb (validSourceKey key) then err CodeMalformed
      else if bool_decide (key ∈ sc_seen s) then err_for CodeDuplicateKey key
      else
        let valueStart := skipHorizontal data (S separator) in
        '(valueEnd, statementEnd, expansion) ← scanValue data valueStart;
        let managed := bool_decide (key ∈ allowed) in
        if managed && expansion then err_for CodeExpansionNotAllowed key
        else
          Ok (if managed
              then mk_scanned (<[key := mk_entry key statementStart statementEnd valueStart valueEnd]> (sc_entries s))
                     ({[key]} ∪ sc_seen s) (sc_unsupported s)
              else mk_scanned (sc_entries s) ({[key]} ∪ sc_seen s) ({[key]} ∪ sc_unsupported s),
              statementEnd)
  end.

Fixpoint scan_loop (fuel : nat) (data : bytes) (allowed : list bytes) (s : scanned) (position : nat) : result Error scanned :=
  let position := skipWhitespace data position in
  match data !! position with
  | None => Ok s
  | Some c =>
      match fuel with
      | O => err OutOfFuel
      | S fuel =>
          if Ascii.eqb c "#" then scan_loop fuel data allowed s (consumeLine data position)
          else '(s', next) ← scan_statement data allowed s position; scan_loop fuel data allowed s' next
      end
  end.

Definition scanEntries (data : bytes) (allowed : list bytes) : result Error (gmap bytes entry * list bytes) :=
  s ← scan_loop (List.length data) data allowed nothing_scanned 0;
  Ok (sc_entries s, sort_by text_le (elements (sc_unsupported s))).

(** ** Lines *)

Definition hasFinalNewline (data : bytes) : bool :=
  match last data with Some c => is_newline c | None => false end.

(** Line separators; a carriage return and a line feed count once. *)
Fixpoint separators (after_cr : bool) (data : bytes) : Z :=
  match data with
  | [] => 0
  | c :: data =>
      if Ascii.eqb c lf then (if after_cr then 0 else 1) + separators false data
      else if Ascii.eqb c cr then 1 + separators true data
      else separators false data
  end.

Definition lineCount (data : bytes) : Z :=
  if blen data =? 0 then 0 else 1 + separators false data - (if hasFinalNewline data then 1 else 0).

Definition detectNewline (data : bytes) : bytes :=
  match list_find (eq lf) data with
  | Some (S i, _) => if at_is data i cr then [cr; lf] else [lf]
  | Some (O, _) => [lf]
  | None => if existsb (Ascii.eqb cr) data then [cr] else [lf]
  end.
