(* ===== verification/DotenvEdit.v ===== *)
(** Documents of internal/dotenv/dotenv.go: parsing with the upstream dotenv
    package as a parameter, the read projections, value encoding and the
    surgical edits of [Apply].  Byte slices are values; overwriting a cleared
    slice is not observable here, a cleared document has no raw text. *)
From stdpp Require Import gmap.
From S2P Require Import Prelude.
From S2P Require Import GoText.
From S2P Require Import DotenvScan.

#[local] Open Scope Z_scope.

Inductive Action := ActionReplace | ActionRemove | ActionOther (text : string).

Record Presence := mk_presence { p_key : bytes; p_present : bool }.
Record Change := mk_change { c_key : bytes; c_action : Action; c_value : bytes }.
Record Summary := mk_summary { s_key : bytes; s_action : Action }.

(** [raw] is nil once the document was cleared. *)
Record Document := mk_document {
  raw : option bytes;
  allowed : list bytes;
  entries : gmap bytes entry;
  values : gmap bytes bytes;
  unsupported : list bytes;
  policy : Policy;
  newline : bytes;
  finalNewline : bool;
}.

(** An edit of the text: the bytes from [ed_start] to [ed_end] become the
    replacement. *)
Record edit := mk_edit { ed_start : nat; ed_end : nat; ed_replacement : bytes }.

(** What the code takes from elsewhere: the upstream parser, the order in
    which a map is visited, and a sort that need not be stable. *)
Class DotenvEnv := {
  godotenv_Parse : bytes -> option (gmap bytes bytes);
  map_order : gmap bytes entry -> list (bytes * entry);
  sort_edits : list edit -> list edit;
}.
Class DotenvLaws `{DotenvEnv} := {
  map_order_perm m : map_order m ≡ₚ map_to_list m;
  sort_edits_perm l : sort_edits l ≡ₚ l;
  sort_edits_ordered l : StronglySorted (fun a b => (ed_start a <= ed_start b)%nat) (sort_edits l);
}.

(** ** Reading a document *)

Section Parse.
Context `{DotenvEnv}.

Definition has_nul (data : bytes) : bool := existsb (Ascii.eqb zero) data.

(** The decoded value of one managed statement. *)
Definition parse_value (data : bytes) (p : Policy) (key : bytes) (current : entry) : result Error bytes :=
  match godotenv_Parse (slice data (statementStart current) (statementEnd current)) with
  | None => err_for CodeMalformed key
  | Some parsed =>
      match parsed !! key with
      | None => err_for CodeMalformed key
      | Some value => if MaximumValueBytes p <? blen value then err_for CodeValueTooLarge key else Ok value
      end
  end.

Fixpoint parse_values (data : bytes) (p : Policy) (l : list (bytes * entry)) (values : gmap bytes bytes)
    : result Error (gmap bytes bytes) :=
  match l with
  | [] => Ok values
  | (key, current) :: l => value ← parse_value data p key current; parse_values data p l (<[key := value]> values)
  end.

Definition Parse (data : bytes) (allowedKeys : list bytes) (p : Policy) : result Error Document :=
  _ ← validatePolicy p;
  allowed ← validateAllowedKeys allowedKeys;
  if MaximumBytes p <? blen data then err CodeTooLarge
  else if negb (utf8_valid data) || has_nul data then err CodeInvalidUTF8
  else if MaximumLines p <? lineCount data then err CodeTooManyLines
  else
    '(entries, unsupported) ← scanEntries data allowed;
    values ← parse_values data p (map_order entries) ∅;
    Ok (mk_document (Some data) allowed entries values unsupported p (detectNewline data) (hasFinalNewline data)).
End Parse.

Definition UnsupportedKeys (document : option Document) : list bytes :=
  match document with None => [] | Some d => unsupported d end.

Definition Document_Presence (document : option Document) : list Presence :=
  match document with
  | None => []
  | Some d => (fun key => mk_presence key (bool_decide (is_Some (entries d !! key)))) <$> allowed d
  end.

(** Whether the value is present, and whether it is acceptable. *)
Definition ValidatePresence (document : option Document) (key : bytes) (validate : option (bytes -> bool)) : bool * bool :=
  match document, validate with
  | Some d, Some f => match values d !! key with None => (false, true) | Some value => (true, f value) end
  | _, _ => (false, false)
  end.

Definition ValueCopy (document : option Document) (key : bytes) : option bytes :=
  d ← document; values d !! key.

Definition Clear (d : Document) : Document :=
  mk_document None (allowed d) ∅ ∅ [] (policy d) (newline d) (finalNewline d).

(** ** Values *)

Section Encode.
Context `{DotenvEnv}.

Definition encodedValueRoundTrips (value encoded : bytes) : bool :=
  match godotenv_Parse (to_bytes "ACMEMUX_VALUE=" ++ encoded) with
  | None => false
  | Some parsed => bool_decide (parsed !! to_bytes "ACMEMUX_VALUE" = Some value)
  end.

Definition escape (c : ascii) : bytes :=
  if Ascii.eqb c "\" then ["\"; "\"]%char
  else if Ascii.eqb c double_quote then ["\"%char; double_quote]
  else if Ascii.eqb c "$" then ["\"; "$"]%char
  else if Ascii.eqb c lf then ["\"; "n"]%char
  else if Ascii.eqb c cr then ["\"; "r"]%char
  else [c].

Definition encodeValue (value : bytes) : option bytes :=
  let single := [single_quote] ++ value ++ [single_quote] in
  if negb (existsb (Ascii.eqb single_quote) value) && encodedValueRoundTrips value single then Some single
  else
    let double := [double_quote] ++ concat (escape <$> value) ++ [double_quote] in
    if encodedValueRoundTrips value double then Some double else None.
End Encode.

(** ** Editing *)

Definition precedingLineSeparator (data : bytes) (position : nat) : nat :=
  if (position =? 0)%nat || (List.length data <? position)%nat then position
  else if at_is data (position - 1) lf then
    if (1 <? position)%nat && at_is data (position - 2) cr then (position - 2)%nat else (position - 1)%nat
  else if at_is data (position - 1) cr then (position - 1)%nat
  else position.

(** The local variables of the loop over the changes. *)
Record pending := mk_pending {
  seen : gset bytes;
  edits : list edit;
  newValues : gmap bytes bytes;
  summaries : list Summary;
}.
Definition nothing_pending : pending := mk_pending ∅ [] ∅ [].

Section Apply.
Context `{DotenvEnv}.

Definition replace_change (d : Document) (st : pending) (change : Change) : result Error pending :=
  let key := c_key change in
  if MaximumValueBytes (policy d) <? blen (c_value change) then err_for CodeValueTooLarge key
  else if negb (utf8_valid (c_value change)) || has_nul (c_value change) then err_for CodeInvalidChange key
  else
    match encodeValue (c_value change) with
    | None => err_for CodeInvalidChange key
    | Some encoded =>
        let summaries := summaries st ++ [mk_summary key ActionReplace] in
        Ok (match entries d !! key with
            | Some current =>
                mk_pending (seen st) (edits st ++ [mk_edit (valueStart current) (valueEnd current) encoded]) (newValues st) summaries
            | None => mk_pending (seen st) (edits st) (<[key := encoded]> (newValues st)) summaries
            end)
    end.

(** The bytes a removal deletes: the statement, and the separator before it
    when it ends the text without one. *)
Definition removal (data : bytes) (final : bool) (current : entry) : edit :=
  let start := statementStart current in
  mk_edit (if (statementEnd current =? List.length data)%nat && negb final then precedingLineSeparator data start else start)
    (statementEnd current) [].

Definition remove_change (d : Document) (data : bytes) (st : pending) (change : Change) : pending :=
  match entries d !! c_key change with
  | None => st
  | Some current =>
      mk_pending (seen st) (edits st ++ [removal data (finalNewline d) current]) (newValues st)
        (summaries st ++ [mk_summary (c_key change) ActionRemove])
  end.

Definition apply_change (d : Document) (data : bytes) (st : pending) (change : Change) : result Error pending :=
  let key := c_key change in
  if negb (bool_decide (key ∈ allowed d)) then err CodeKeyNotAllowed
  else if bool_decide (key ∈ seen st) then err_for CodeInvalidChange key
  else
    let st := mk_pending ({[key]} ∪ seen st) (edits st) (newValues st) (summaries st) in
    match c_action change with
    | ActionReplace => replace_change d st change
    | ActionRemove => Ok (remove_change d data st change)
    | ActionOther _ => err_for CodeInvalidChange key
    end.

Fixpoint apply_changes (d : Document) (data : bytes) (st : pending) (changes : list Change) : result Error pending :=
  match changes with
  | [] => Ok st
  | change :: changes => st ← apply_change d data st change; apply_changes d data st changes
  end.

(** The merged edits, last first. *)
Fixpoint merge_edits (merged : list edit) (l : list edit) : result Error (list edit) :=
  match l with
  | [] => Ok (rev merged)
  | current :: l =>
      match merged with
      | previous :: rest =>
          if (ed_start current <? ed_end previous)%nat then
            if negb (blen (ed_replacement previous) =? 0) || negb (blen (ed_replacement current) =? 0) then err CodeInvalidChange
            else merge_edits (mk_edit (ed_start previous) (Nat.max (ed_end previous) (ed_end current)) (ed_replacement previous) :: rest) l
          else merge_edits (current :: merged) l
      | [] => merge_edits [current] l
      end
  end.

(** The text from position [last] on with the edits made. *)
Fixpoint splice (data : bytes) (last : nat) (l : list edit) : result Error bytes :=
  match l with
  | [] => Ok (drop last data)
  | current :: l =>
      if (ed_start current <? last)%nat || (ed_end current <? ed_start current)%nat || (List.length data <? ed_end current)%nat
      then err CodeInvalidChange
      else rest ← splice data (ed_end current) l;
           Ok (slice data last (ed_start current) ++ ed_replacement current ++ rest)
  end.

Fixpoint new_lines (d : Document) (newValues : gmap bytes bytes) (keys : list bytes) : bytes :=
  match keys with
  | [] => []
  | key :: rest =>
      key ++ ["="%char] ++ default [] (newValues !! key)
      ++ (if match rest with [] => finalNewline d | _ :: _ => true end then newline d else []) ++ new_lines d newValues rest
  end.

Definition append_new (d : Document) (newValues : gmap bytes bytes) (candidate : bytes) : bytes :=
  match sort_by text_le (map_to_list newValues).*1 with
  | [] => candidate
  | newKeys =>
      candidate ++ (if (0 <? blen candidate) && negb (hasFinalNewline candidate) then newline d else [])
      ++ new_lines d newValues newKeys
  end.

Definition summary_le (a b : Summary) : bool := text_le (s_key a) (s_key b).

Definition Apply (document : option Document) (changes : list Change) : result Error (bytes * list Summary) :=
  match document with
  | None => err CodeInvalidChange
  | Some d =>
      match raw d with
      | None => err CodeInvalidChange
      | Some data =>
          st ← apply_changes d data nothing_pending changes;
          merged ← merge_edits [] (sort_edits (edits st));
          candidate ← splice data 0 merged;
          let text := append_new d (newValues st) candidate in
          if MaximumBytes (policy d) <? blen text then err CodeTooLarge
          else
            _ ← Parse text (allowed d) (policy d);
            Ok (text, sort_by summary_le (summaries st))
      end
  end.
End Apply.
