(* ===== verification/DotenvLayout.v ===== *)
(** What the scanner of DotenvScan promises: it ends, and the spans of the
    entries it returns lie in the text, in order and without overlap. *)
From stdpp Require Import gmap.
From S2P Require Import Prelude.
From S2P Require Import GoText.
From S2P Require Import DotenvScan.
From S2P Require Import DotenvEdit.

#[local] Open Scope nat_scope.

(** ** Positions *)

Lemma at_is_true data p c : at_is data p c = true <-> data !! p = Some c.
Proof.
  unfold at_is. destruct (data !! p) as [d|]; [|naive_solver].
  rewrite Ascii.eqb_eq. naive_solver.
Qed.

Lemma skip_while_spec p rest pos :
  pos <= skip_while p rest pos <= pos + List.length rest /\
  (forall c, rest !! (skip_while p rest pos - pos) = Some c -> p c = false).
Proof.
  revert pos. induction rest as [|c rest IH]; intros pos; cbn; [split; [lia|done]|].
  destruct (p c) eqn:E.
  - destruct (IH (S pos)) as [Hr Hs]. split; [lia|]. intros d.
    destruct (skip_while p rest (S pos) - pos) as [|n] eqn:En; [lia|]. cbn.
    replace n with (skip_while p rest (S pos) - S pos) by lia. apply Hs.
  - rewrite Nat.sub_diag. cbn. split; [lia|naive_solver].
Qed.

Lemma skip_from p data pos :
  pos <= skip_while p (drop pos data) pos /\
  (pos <= List.length data -> skip_while p (drop pos data) pos <= List.length data) /\
  (forall c, data !! skip_while p (drop pos data) pos = Some c -> p c = false).
Proof.
  destruct (skip_while_spec p (drop pos data) pos) as [Hr Hs].
  rewrite length_drop in Hr. split_and!; [lia..|].
  intros c Hc. apply Hs. rewrite lookup_drop, <- Hc. f_equal. lia.
Qed.

(** A byte that satisfies the predicate is passed. *)
Lemma skip_passes p data pos c : data !! pos = Some c -> p c = true -> pos < skip_while p (drop pos data) pos.
Proof.
  intros Hc Hp. rewrite (drop_S _ _ _ Hc). cbn. rewrite Hp.
  destruct (skip_while_spec p (drop (S pos) data) (S pos)). lia.
Qed.

Definition ends_line (data : bytes) (p : nat) : Prop := exists c, data !! p = Some c /\ is_newline c = true.
(** A line begins at [p], or the text is over. *)
Definition line_begin (data : bytes) (p : nat) : Prop :=
  p = 0 \/ ends_line data (p - 1) \/ List.length data <= p.

Lemma newline_cases c : is_newline c = true -> c = lf \/ c = cr.
Proof. unfold is_newline. rewrite orb_true_iff, !Ascii.eqb_eq. naive_solver. Qed.

Lemma consumeLine_spec data p :
  p <= consumeLine data p /\ (p < List.length data -> p < consumeLine data p) /\
  (p <= List.length data -> consumeLine data p <= List.length data) /\
  line_begin data (consumeLine data p).
Proof.
  unfold consumeLine, line_end.
  destruct (skip_from (fun c => negb (is_newline c)) data p) as (Hle & Hlen & Hstop).
  assert (Hpass : p < List.length data -> p < skip_while (fun c => negb (is_newline c)) (drop p data) p \/
                    exists c, data !! p = Some c /\ is_newline c = true).
  { intros [c Hc]%lookup_lt_is_Some. destruct (is_newline c) eqn:E; [eauto|].
    left. eapply skip_passes; [done|]. by rewrite E. }
  set (r := skip_while _ _ _) in *.
  destruct (at_is data r cr) eqn:Ecr.
  - apply at_is_true in Ecr as Hcr. pose proof (lookup_lt_Some _ _ _ Hcr).
    destruct (at_is data (S r) lf) eqn:Elf.
    + apply at_is_true in Elf as Hlf. pose proof (lookup_lt_Some _ _ _ Hlf).
      split_and!; [lia..|]. right. left. exists lf. by rewrite Nat.sub_1_r.
    + split_and!; [lia..|]. right. left. exists cr. by rewrite Nat.sub_1_r.
  - destruct (at_is data r lf) eqn:Elf.
    + apply at_is_true in Elf as Hlf. pose proof (lookup_lt_Some _ _ _ Hlf).
      split_and!; [lia..|]. right. left. exists lf. by rewrite Nat.sub_1_r.
    + assert (Hend : List.length data <= r).
      { destruct (data !! r) as [c|] eqn:Ec; [|by apply lookup_ge_None in Ec].
        specialize (Hstop c eq_refl). apply negb_false_iff in Hstop.
        destruct (newline_cases c Hstop) as [->| ->];
          [rewrite (proj2 (at_is_true _ _ _) Ec) in Elf|rewrite (proj2 (at_is_true _ _ _) Ec) in Ecr]; done. }
      split_and!; [lia..|]. right. right. done.
Qed.

(** The start of the line is the last line beginning up to the position. *)
Lemma currentLineStart_spec data p :
  currentLineStart data p <= p /\
  (forall q, q <= p -> q = 0 \/ ends_line data (q - 1) -> q <= currentLineStart data p).
Proof.
  induction p as [|p [IHle IH]]; cbn [currentLineStart]; [split; [lia|intros; lia]|].
  destruct (at_is data p lf || at_is data p cr) eqn:E; [split; [lia|intros; lia]|].
  split; [lia|]. intros q Hq Hb. destruct (decide (q = S p)) as [->|]; [|apply IH; [lia|done]].
  exfalso. destruct Hb as [|(c & Hc & Hn)]; [lia|]. cbn in Hc. rewrite Nat.sub_0_r in Hc.
  apply orb_false_iff in E as [E1 E2].
  destruct (newline_cases c Hn) as [->| ->]; apply at_is_true in Hc; congruence.
Qed.

Lemma find_separator_spec rest pos s : find_separator rest pos = Some s -> pos <= s < pos + List.length rest.
Proof.
  revert pos. induction rest as [|c rest IH]; intros pos; cbn; [done|].
  destruct (_ || _); [intros [= ->]; lia|]. destruct (is_newline c); [done|]. intros ?%IH. lia.
Qed.

Lemma find_quote_spec q prev rest pos s : find_quote q prev rest pos = Some s -> pos <= s < pos + List.length rest.
Proof.
  revert prev pos. induction rest as [|c rest IH]; intros prev pos; cbn; [done|].
  destruct (_ && _); [intros [= ->]; lia|]. intros ?%IH. lia.
Qed.

Lemma find_comment_spec prev rest pos s : find_comment prev rest pos = Some s -> pos <= s < pos + List.length rest.
Proof.
  revert prev pos. induction rest as [|c rest IH]; intros prev pos; cbn; [done|].
  destruct (_ && _); [intros [= ->]; lia|]. intros ?%IH. lia.
Qed.

Lemma trim_back_spec data start p : start <= p -> start <= trim_back data start p <= p.
Proof.
  induction p as [|p IH]; intros Hp; [cbn; lia|]. cbn [trim_back].
  destruct (Nat.ltb_spec start (S p)); cbn [andb]; [|lia]. case_match; [|lia]. specialize (IH ltac:(lia)). lia.
Qed.

Lemma key_start_spec data p : p < List.length data -> p <= key_start data p <= List.length data.
Proof.
  intros Hp. unfold key_start. case_match eqn:E; [|lia].
  apply andb_true_iff in E as [_ E]. destruct (data !! (p + 6)) eqn:E6; [|done].
  apply lookup_lt_Some in E6. unfold skipHorizontal.
  destruct (skip_from isHorizontalSpace data (p + 6)) as (? & Hl & _). specialize (Hl ltac:(lia)). lia.
Qed.

(** ** Statements *)

Lemma currentLineStart_begin data p : p <= List.length data -> line_begin data (currentLineStart data p).
Proof.
  induction p as [|p IH]; intros Hp; [by left|]. cbn [currentLineStart].
  destruct (at_is data p lf || at_is data p cr) eqn:E; [|apply IH; lia].
  right. left. unfold ends_line. rewrite Nat.sub_1_r. cbn.
  apply orb_true_iff in E as [E|E]; apply at_is_true in E; eauto.
Qed.

(** A value from [start] and its statement: the value is in the statement,
    which ends its line. *)
Record value_span (data : bytes) (start valueEnd statementEnd : nat) : Prop := {
  vs_start : start <= valueEnd;
  vs_end : valueEnd <= statementEnd;
  vs_bound : statementEnd <= List.length data;
  vs_ends : valueEnd < statementEnd \/ statementEnd = List.length data;
  vs_line : line_begin data statementEnd;
}.

Lemma value_span_intro data start ve p : start <= ve <= p -> p <= List.length data ->
  value_span data start ve (consumeLine data p).
Proof.
  intros Hve Hp. destruct (consumeLine_spec data p) as (? & ? & Hb & ?). specialize (Hb Hp).
  split; [lia..| |done]. destruct (decide (p < List.length data)); [left|right]; lia.
Qed.

Lemma scan_bare_span data start ve se x : start <= List.length data ->
  scan_bare data start = (ve, se, x) -> value_span data start ve se.
Proof.
  intros Hs [= <- <- _]. destruct (skip_from (fun c => negb (is_newline c)) data start) as (Hle & Hlen & _).
  specialize (Hlen Hs). fold (line_end data start) in *.
  assert (Hv : start <= match slice data start (line_end data start) with
                        | [] => line_end data start
                        | c :: rest => default (line_end data start) (find_comment c rest (S start)) end
               <= line_end data start).
  { assert (Hsl : List.length (slice data start (line_end data start)) = line_end data start - start).
    { unfold slice. rewrite length_take, length_drop. lia. }
    destruct (slice data start (line_end data start)) as [|c rest]; [lia|]. cbn in Hsl.
    destruct (find_comment c rest (S start)) eqn:E; cbn; [apply find_comment_spec in E; lia|lia]. }
  pose proof (trim_back_spec data start _ (proj1 Hv)). apply value_span_intro; lia.
Qed.

Lemma scanValue_span data start ve se x : start <= List.length data ->
  scanValue data start = Ok (ve, se, x) -> value_span data start ve se.
Proof.
  intros Hs. unfold scanValue. destruct (data !! start) as [c|].
  2:{ intros [= <- <- _]. apply value_span_intro; lia. }
  destruct (is_newline c). { intros [= <- <- _]. apply value_span_intro; lia. }
  destruct (_ || _); [|intros E; apply (scan_bare_span _ _ _ _ x); [done|congruence]].
  unfold scan_quoted. destruct (find_quote _ _ _ _) as [p|] eqn:E; [|done].
  apply find_quote_spec in E. rewrite length_drop in E.
  destruct (skip_from isHorizontalSpace data (S p)) as (Hle & Hlen & _). specialize (Hlen ltac:(lia)).
  case_match; [done|]. intros [= <- <- _]. apply value_span_intro; unfold skipHorizontal; lia.
Qed.

(** An entry's statement lies in the text, begins before its value and ends
    after it. *)
Record entry_ok (data : bytes) (e : entry) : Prop := {
  eo_start : statementStart e < valueStart e;
  eo_line : line_begin data (statementStart e);
  eo_value : value_span data (valueStart e) (valueEnd e) (statementEnd e);
}.

Lemma entry_order data e : entry_ok data e ->
  statementStart e < valueStart e <= valueEnd e /\ valueEnd e <= statementEnd e <= List.length data.
Proof. intros [Hs _ [? ? ? ? ?]]. lia. Qed.

Definition apart (e1 e2 : entry) : Prop :=
  statementEnd e1 <= statementStart e2 \/ statementEnd e2 <= statementStart e1.

(** What holds of the maps once the text before [p] has been scanned. *)
Record scanned_ok (data : bytes) (allowed : list bytes) (p : nat) (s : scanned) : Prop := {
  so_line : line_begin data p;
  so_entry : forall k e, sc_entries s !! k = Some e ->
    key e = k /\ k ∈ allowed /\ k ∈ sc_seen s /\ entry_ok data e /\ statementEnd e <= p;
  so_apart : forall k1 e1 k2 e2, sc_entries s !! k1 = Some e1 -> sc_entries s !! k2 = Some e2 -> k1 <> k2 -> apart e1 e2;
  so_unsupported : forall k, k ∈ sc_unsupported s -> k ∉ allowed /\ k ∈ sc_seen s;
  so_seen : forall k, k ∈ sc_seen s -> validSourceKey k = true /\ (is_Some (sc_entries s !! k) \/ k ∈ sc_unsupported s);
}.

Lemma nothing_scanned_ok data allowed : scanned_ok data allowed 0 nothing_scanned.
Proof. split; cbn; try (intros *; rewrite ?lookup_empty; done); [by left|set_solver..]. Qed.

Lemma line_begin_le data p q : line_begin data p -> p <= q -> q < List.length data -> p <= currentLineStart data q.
Proof.
  intros [Hb|[Hb|Hb]] Hpq Hq; [| |lia]; destruct (currentLineStart_spec data q) as [_ Hs];
    apply Hs; auto.
Qed.

(** One statement: the position moves on and the invariant is kept. *)
Lemma scan_statement_ok data allowed p q s s' next :
  scanned_ok data allowed p s -> p <= q < List.length data -> scan_statement data allowed s q = Ok (s', next) ->
  q < next <= List.length data /\ scanned_ok data allowed next s'.
Proof.
  intros [Hl He Ha Hu Hs] Hq. unfold scan_statement.
  pose proof (key_start_spec data q ltac:(lia)) as Hk.
  destruct (find_separator _ _) as [sep|] eqn:Esep; [|done].
  apply find_separator_spec in Esep. rewrite length_drop in Esep.
  set (k := TrimSpace _). destruct (validSourceKey k) eqn:Ek; cbn [negb]; [|done].
  case_bool_decide as Hseen; [done|].
  destruct (skip_from isHorizontalSpace data (S sep)) as (Hv & Hvl & _). specialize (Hvl ltac:(lia)).
  fold (skipHorizontal data (S sep)) in *. set (vs := skipHorizontal data (S sep)) in *.
  destruct (scanValue data vs) as [[[ve se] x]|] eqn:Ev; cbn; [|done].
  apply scanValue_span in Ev; [|done]. pose proof Ev as [? ? ? ? ?].
  pose proof (currentLineStart_spec data q) as [Hcl _].
  pose proof (line_begin_le data p q Hl ltac:(lia) ltac:(lia)) as Hbegin.
  case_bool_decide as Hal; cbn [andb].
  - destruct x; [done|]. intros [= <- <-]. split; [lia|]. split; cbn; [done| | |set_solver|].
    + intros k' e. rewrite lookup_insert_Some. intros [[<- <-]|[Hne Hk']]; cbn.
      * split_and!; [done|done|set_solver| |done]. split; cbn; [lia|apply currentLineStart_begin; lia|done].
      * destruct (He _ _ Hk') as (? & ? & ? & ? & ?). split_and!; [done|done|set_solver|done|lia].
    + assert (Hnew : forall k' e', sc_entries s !! k' = Some e' -> statementEnd e' <= currentLineStart data q).
      { intros k' e' Hk'. destruct (He _ _ Hk') as (_ & _ & _ & _ & ?). lia. }
      intros k1 e1 k2 e2. rewrite !lookup_insert_Some.
      intros [[<- <-]|[Hn1 H1]] [[<- <-]|[Hn2 H2]] Hne; unfold apart; cbn; [done|right; eauto|left; eauto|by eapply Ha].
    + intros k'. rewrite elem_of_union, elem_of_singleton. intros [->|Hin].
      * split; [done|]. left. by rewrite lookup_insert_eq.
      * destruct (Hs k' Hin) as [? [?|?]]; (split; [done|]); [|by right].
        left. apply lookup_insert_is_Some'. by right.
  - intros [= <- <-]. split; [lia|]. split; cbn; [done| |done| |].
    + intros k' e Hk'. destruct (He _ _ Hk') as (? & ? & ? & ? & ?). split_and!; [done|done|set_solver|done|lia].
    + set_solver.
    + intros k'. rewrite elem_of_union, elem_of_singleton. intros [->|Hin]; [split; [done|right; set_solver]|].
      destruct (Hs k' Hin) as [? [?|?]]; (split; [done|]); [by left|right; set_solver].
Qed.

(** ** The loop *)

Lemma scan_statement_error data allowed s q e : scan_statement data allowed s q = Err e -> e_code e <> OutOfFuel.
Proof.
  unfold scan_statement, err, err_for. intros H.
  destruct (find_separator _ _) as [sep|]; [|by simplify_eq].
  repeat (case_in H; [by simplify_eq|]).
  destruct (scanValue _ _) as [[[ve se] x]|] eqn:Ev; cbn in H.
  - case_in H; by simplify_eq.
  - simplify_eq. unfold scanValue, scan_quoted, err in Ev. repeat case_in Ev; by simplify_eq.
Qed.

(** Only a successful statement continues the loop, further on. *)
Lemma scan_loop_ok data allowed fuel p s :
  scanned_ok data allowed p s -> p <= List.length data -> List.length data - p <= fuel ->
  match scan_loop fuel data allowed s p with
  | Ok s' => exists p', scanned_ok data allowed p' s'
  | Err e => e_code e <> OutOfFuel
  end.
Proof.
  revert p s. induction fuel as [|fuel IH]; intros p s Hok Hp Hf; cbn [scan_loop];
    destruct (skip_from is_space data p) as (Hle & _ & _); fold (skipWhitespace data p) in Hle;
    destruct (data !! skipWhitespace data p) as [c|] eqn:Ec; try (by exists p);
    pose proof (lookup_lt_Some _ _ _ Ec); [lia|].
  destruct (Ascii.eqb c "#").
  - destruct (consumeLine_spec data (skipWhitespace data p)) as (Hc & Hlt & Hb & Hline).
    specialize (Hlt ltac:(done)). apply IH; [|lia..]. destruct Hok. split; [done| |done..].
    intros k e Hk. destruct (so_entry0 k e Hk) as (? & ? & ? & ? & ?). split_and!; [done..|lia].
  - destruct (scan_statement data allowed s (skipWhitespace data p)) as [[s' next]|e] eqn:Es; cbn.
    + destruct (scan_statement_ok _ _ _ _ _ _ _ Hok (conj Hle H) Es) as [? ?]. apply IH; [done|lia..].
    + by eapply scan_statement_error.
Qed.

(** More fuel than there are bytes left makes no difference. *)
Lemma scan_loop_fuel data allowed n m p s :
  scanned_ok data allowed p s -> p <= List.length data -> List.length data - p <= n -> n <= m ->
  scan_loop m data allowed s p = scan_loop n data allowed s p.
Proof.
  revert m p s. induction n as [|n IH]; intros m p s Hok Hp Hn Hm;
    destruct (skip_from is_space data p) as (Hle & _ & _); fold (skipWhitespace data p) in Hle;
    (destruct (data !! skipWhitespace data p) as [c|] eqn:Ec; [pose proof (lookup_lt_Some _ _ _ Ec)|by destruct m; cbn [scan_loop]; rewrite Ec]);
    [lia|].
  destruct m as [|m]; [lia|]. cbn [scan_loop]. rewrite Ec. destruct (Ascii.eqb c "#").
  - destruct (consumeLine_spec data (skipWhitespace data p)) as (Hc & Hlt & Hb & Hline).
    specialize (Hlt ltac:(done)). apply IH; [|lia..]. destruct Hok. split; [done| |done..].
    intros k e Hk. destruct (so_entry0 k e Hk) as (? & ? & ? & ? & ?). split_and!; [done..|lia].
  - destruct (scan_statement data allowed s (skipWhitespace data p)) as [[s' next]|e] eqn:Es; cbn; [|done].
    destruct (scan_statement_ok _ _ _ _ _ _ _ Hok (conj Hle H) Es) as [? ?]. apply IH; [done|lia..].
Qed.

(** ** The managed keys *)

(** Among sorted keys equal ones are neighbours. *)
Lemma adjacent_equal_sorted l : text_ordered l -> adjacent_equal l = false -> NoDup l.
Proof.
  induction 1 as [|a l Hl IH Ha]; [constructor|]. intros Hadj.
  destruct l as [|b l]; [apply NoDup_singleton|].
  cbn in Hadj. apply orb_false_iff in Hadj as [Hab Hadj]. apply bool_decide_eq_false in Hab.
  constructor; [|by apply IH]. intros [?|Hin]%elem_of_cons; [done|]. apply Hab.
  rewrite Forall_forall in Ha. inversion Hl as [|? ? _ Hb]; subst. rewrite Forall_forall in Hb.
  apply text_le_antisym; [apply Ha; by left|by apply Hb].
Qed.

Lemma validateAllowedKeys_Ok keys sorted : validateAllowedKeys keys = Ok sorted ->
  sorted ≡ₚ keys /\ text_ordered sorted /\ NoDup sorted /\ Forall (fun k => validKey k = true) keys.
Proof.
  unfold validateAllowedKeys. destruct (existsb _ keys) eqn:E; [done|].
  destruct (adjacent_equal _) eqn:Ea; [done|]. intros [= <-].
  pose proof (sort_text_ordered keys). split_and!; [apply sort_by_perm|done|by apply adjacent_equal_sorted|].
  rewrite Forall_forall. intros k Hk. rewrite existsb_false in E. specialize (E k Hk). by apply negb_false_iff in E.
Qed.

(** Edits of a text, position by position: a reference for the sorted,
    merged and spliced edits of [Apply] in DotenvEdit. *)

(** ** The reference *)

(** What the edits put before position [i], and whether they delete it. *)
Definition inserted (l : list edit) (i : nat) : bytes :=
  concat ((fun e => if ed_start e =? i then ed_replacement e else []) <$> l).
Definition covered (l : list edit) (i : nat) : bool :=
  existsb (fun e => (ed_start e <=? i) && (i <? ed_end e)) l.

(** The bytes [rest] from position [pos] on, edited: every position yields
    what is inserted there and its own byte unless that is deleted. *)
Fixpoint edited (l : list edit) (rest : bytes) (pos : nat) : bytes :=
  inserted l pos ++
  match rest with
  | [] => []
  | c :: rest => (if covered l pos then [] else [c]) ++ edited l rest (S pos)
  end.

Lemma inserted_cons e l i : inserted (e :: l) i = (if ed_start e =? i then ed_replacement e else []) ++ inserted l i.
Proof. done. Qed.
Lemma covered_cons e l i : covered (e :: l) i = ((ed_start e <=? i) && (i <? ed_end e)) || covered l i.
Proof. done. Qed.

Lemma inserted_app l l' i : inserted (l ++ l') i = inserted l i ++ inserted l' i.
Proof. unfold inserted. by rewrite fmap_app, concat_app. Qed.
Lemma covered_app l l' i : covered (l ++ l') i = covered l i || covered l' i.
Proof. apply existsb_app. Qed.

Lemma inserted_none l i : (forall e, e ∈ l -> ed_start e <> i) -> inserted l i = [].
Proof.
  intros H. induction l as [|e l IH]; [done|]. rewrite inserted_cons, IH by (intros; apply H; by right).
  by rewrite (proj2 (Nat.eqb_neq _ _) (H e ltac:(by left))).
Qed.

Lemma covered_none l i : (forall e, e ∈ l -> i < ed_start e \/ ed_end e <= i) -> covered l i = false.
Proof.
  intros H. apply existsb_false. intros e He. destruct (H e He); apply andb_false_iff;
    rewrite Nat.leb_gt, Nat.ltb_ge; lia.
Qed.

Lemma covered_true l i : covered l i = true <-> exists e, e ∈ l /\ ed_start e <= i < ed_end e.
Proof.
  unfold covered. rewrite existsb_exists. split; intros (e & Hin & He); exists e; revert Hin He;
    rewrite list_elem_of_In, ?andb_true_iff, ?Nat.leb_le, ?Nat.ltb_lt; intros; split; auto; lia.
Qed.

Lemma edited_ext l l' rest pos :
  (forall i, pos <= i -> inserted l i = inserted l' i /\ covered l i = covered l' i) ->
  edited l rest pos = edited l' rest pos.
Proof.
  revert pos. induction rest as [|c rest IH]; intros pos H; cbn; destruct (H pos) as [H1 H2]; [lia| |lia|]; rewrite H1; [done|].
  rewrite H2, IH; [done|]. intros. apply H. lia.
Qed.

Lemma edited_copy l rest pos n : n <= List.length rest ->
  (forall i, pos <= i < pos + n -> inserted l i = [] /\ covered l i = false) ->
  edited l rest pos = take n rest ++ edited l (drop n rest) (pos + n).
Proof.
  revert rest pos. induction n as [|n IH]; intros rest pos Hn H; [by rewrite Nat.add_0_r|].
  destruct rest as [|c rest]; [cbn in Hn; lia|]. cbn. destruct (H pos ltac:(lia)) as [-> ->]. cbn.
  rewrite (IH rest (S pos)); [by rewrite Nat.add_succ_r|cbn in Hn; lia|intros; apply H; lia].
Qed.

Lemma edited_skip l rest pos n : n <= List.length rest ->
  (forall i, pos <= i < pos + n -> inserted l i = [] /\ covered l i = true) ->
  edited l rest pos = edited l (drop n rest) (pos + n).
Proof.
  revert rest pos. induction n as [|n IH]; intros rest pos Hn H; [by rewrite Nat.add_0_r|].
  destruct rest as [|c rest]; [cbn in Hn; lia|]. cbn. destruct (H pos ltac:(lia)) as [-> ->]. cbn.
  rewrite (IH rest (S pos)); [by rewrite Nat.add_succ_r|cbn in Hn; lia|intros; apply H; lia].
Qed.

(** ** Splicing a chain of edits *)

(** Edits from [last] on, in order and within [len]. *)
Fixpoint chain (len last : nat) (l : list edit) : Prop :=
  match l with
  | [] => last <= len
  | e :: l => last <= ed_start e /\ ed_start e <= ed_end e /\ chain len (ed_end e) l
  end.

Lemma edits_chain_bound len last l : chain len last l -> last <= len.
Proof. revert last. induction l as [|e l IH]; cbn; [done|]. intros last (? & ? & ?%IH). lia. Qed.

Lemma chain_starts len last l e : chain len last l -> e ∈ l -> last <= ed_start e <= ed_end e.
Proof.
  revert last. induction l as [|e' l IH]; cbn; [intros ? _ ?%not_elem_of_nil; done|].
  intros last (? & ? & Hc) [->|Hin]%elem_of_cons; [lia|]. specialize (IH _ Hc Hin). lia.
Qed.

Lemma chain_before len last l i : chain len last l -> i < last -> inserted l i = [] /\ covered l i = false.
Proof.
  intros Hc Hi. split; [apply inserted_none|apply covered_none];
    intros e He; pose proof (chain_starts _ _ _ _ Hc He); lia.
Qed.

Lemma edited_at_edit e l data :
  ed_start e <= ed_end e -> chain (List.length data) (ed_end e) l ->
  edited (e :: l) (drop (ed_start e) data) (ed_start e)
  = ed_replacement e ++ edited l (drop (ed_end e) data) (ed_end e).
Proof.
  intros Hse Hc. pose proof (edits_chain_bound _ _ _ Hc) as Hb.
  assert (Hafter : forall i, ed_end e <= i -> ed_start e < i -> inserted (e :: l) i = inserted l i /\ covered (e :: l) i = covered l i).
  { intros i H1 H2. rewrite inserted_cons, covered_cons. rewrite (proj2 (Nat.eqb_neq (ed_start e) i)) by lia.
    rewrite (proj2 (Nat.ltb_ge i (ed_end e))) by lia. by rewrite andb_false_r. }
  destruct (decide (ed_start e = ed_end e)) as [Heq|Hne].
  - rewrite <- Heq. assert (Hhere : inserted (e :: l) (ed_start e) = ed_replacement e ++ inserted l (ed_start e)
                     /\ covered (e :: l) (ed_start e) = covered l (ed_start e)).
    { rewrite inserted_cons, covered_cons, Nat.eqb_refl, <- Heq, Nat.ltb_irrefl, andb_false_r. done. }
    destruct Hhere as [Hi Hv]. destruct (drop (ed_start e) data) as [|c rest]; cbn [edited]; rewrite Hi, <- app_assoc; [done|].
    rewrite Hv, (edited_ext (e :: l) l); [done|]. intros. apply Hafter; lia.
  - destruct (lookup_lt_is_Some_2 data (ed_start e) ltac:(lia)) as [c Hc'].
    rewrite (drop_S _ _ _ Hc'). cbn [edited]. rewrite inserted_cons, covered_cons, Nat.eqb_refl.
    rewrite (proj2 (Nat.leb_le _ _) (Nat.le_refl _)), (proj2 (Nat.ltb_lt (ed_start e) (ed_end e))) by lia. cbn [andb orb].
    rewrite (proj1 (chain_before _ _ _ (ed_start e) Hc ltac:(lia))), app_nil_r. cbn [app]. f_equal.
    rewrite (edited_skip _ _ _ (ed_end e - S (ed_start e))); [|rewrite length_drop; lia|].
    2:{ intros i Hi. rewrite inserted_cons, covered_cons.
        rewrite (proj2 (Nat.eqb_neq (ed_start e) i)), (proj2 (Nat.leb_le (ed_start e) i)), (proj2 (Nat.ltb_lt i (ed_end e))) by lia.
        split; [apply (chain_before _ _ _ i Hc); lia|done]. }
    rewrite drop_drop. replace (S (ed_start e) + (ed_end e - S (ed_start e))) with (ed_end e) by lia.
    apply edited_ext. intros. apply Hafter; lia.
Qed.

(** Splicing a chain never fails and edits the text. *)
Lemma splice_edited data last l : chain (List.length data) last l ->
  splice data last l = Ok (edited l (drop last data) last).
Proof.
  revert last. induction l as [|e l IH]; intros last Hc.
  - cbn in *. f_equal. rewrite (edited_copy [] _ _ (List.length data - last)); [|rewrite length_drop; lia|done].
    rewrite take_ge by (rewrite length_drop; lia). rewrite drop_drop, (drop_ge data (last + _)) by lia. cbn. by rewrite app_nil_r.
  - cbn [splice]. destruct Hc as (Hl & Hse & Hc). pose proof (edits_chain_bound _ _ _ Hc).
    rewrite (proj2 (Nat.ltb_ge _ _) Hl), (proj2 (Nat.ltb_ge _ _) Hse), (proj2 (Nat.ltb_ge (List.length data) _)) by lia.
    cbn [orb]. rewrite (IH _ Hc). cbn. f_equal.
    rewrite (edited_copy (e :: l) _ _ (ed_start e - last)); [|rewrite length_drop; lia|].
    + rewrite drop_drop. replace (last + (ed_start e - last)) with (ed_start e) by lia.
      by rewrite edited_at_edit.
    + intros i Hi. rewrite inserted_cons, covered_cons.
      rewrite (proj2 (Nat.eqb_neq (ed_start e) i)), (proj2 (Nat.leb_gt (ed_start e) i)) by lia.
      cbn. apply (chain_before _ _ _ i Hc). lia.
Qed.

(** ** Merging *)

Definition edit_ok (len : nat) (e : edit) : Prop := ed_start e <= ed_end e <= len.
Abbreviation by_start := (StronglySorted (fun a b => ed_start a <= ed_start b)).

Lemma chain_snoc len last l e :
  chain len last (l ++ [e]) <-> chain (ed_start e) last l /\ edit_ok len e.
Proof.
  unfold edit_ok. revert last. induction l as [|e' l IH]; intros last; cbn; [lia|]. rewrite IH. tauto.
Qed.

Lemma chain_mono len len' last l : chain len last l -> len <= len' -> chain len' last l.
Proof. revert last. induction l as [|e l IH]; cbn; intros; [lia|naive_solver]. Qed.

(** A step of the loop: the merged edits stay a chain. *)
Lemma chain_extend len acc e : chain len 0 (rev acc) -> edit_ok len e ->
  (forall p, head acc = Some p -> ed_end p <= ed_start e) -> chain len 0 (rev (e :: acc)).
Proof.
  intros Hc He Hp. cbn. apply chain_snoc. split; [|done].
  destruct acc as [|p acc]; [cbn; lia|]. cbn in *. apply chain_snoc in Hc as [? ?]. apply chain_snoc.
  unfold edit_ok in *. specialize (Hp p eq_refl). split; [done|lia].
Qed.

Lemma merge_spec len acc l m :
  chain len 0 (rev acc) -> Forall (edit_ok len) l -> by_start l ->
  (forall p e, head acc = Some p -> e ∈ l -> ed_start p <= ed_start e) ->
  merge_edits acc l = Ok m ->
  chain len 0 m /\ forall i, inserted m i = inserted (rev acc ++ l) i /\ covered m i = covered (rev acc ++ l) i.
Proof.
  intros Hc Hok Hs. revert acc Hc. induction Hs as [|e l Hs IH He]; intros acc Hc Hh.
  { cbn. intros [= <-]. by rewrite app_nil_r. }
  apply Forall_cons in Hok as [Hoe Hok]. rewrite Forall_forall in He.
  assert (Hkeep : merge_edits (e :: acc) l = Ok m -> (forall p, head acc = Some p -> ed_end p <= ed_start e) ->
    chain len 0 m /\ forall i, inserted m i = inserted (rev acc ++ e :: l) i /\ covered m i = covered (rev acc ++ e :: l) i).
  { intros Hm Hp. rewrite cons_middle, app_assoc. apply (IH Hok (e :: acc)); [by apply chain_extend| |done].
    intros p e' [= <-] ?. by apply He. }
  destruct acc as [|p acc]; cbn [merge_edits]; [intros Hm; by apply Hkeep|].
  destruct (Nat.ltb_spec (ed_start e) (ed_end p)) as [Hover|Hover].
  2:{ intros Hm. apply Hkeep; [done|]. by intros ? [= <-]. }
  destruct (_ || _) eqn:Eempty; [done|]. bool_prop. clear Hkeep. intros Hm.
  cbn in Hc. apply chain_snoc in Hc as [Hc Hop]. unfold edit_ok in *. specialize (Hh p e eq_refl ltac:(by left)) as Hpe.
  apply IH in Hm as [Hm Hspec]; [|done| |].
  - split; [done|]. intros i. destruct (Hspec i) as [-> ->]. cbn [rev]. rewrite <- !app_assoc. cbn [app].
    rewrite !inserted_app, !covered_app, !inserted_cons, !covered_cons. cbn [ed_start ed_end ed_replacement app]. unfold blen in *.
    assert (Hp0 : ed_replacement p = []) by (apply length_zero_iff_nil; lia).
    assert (He0 : ed_replacement e = []) by (apply length_zero_iff_nil; lia). rewrite Hp0, He0.
    split; [by repeat case_match|]. f_equal. rewrite orb_assoc. f_equal. apply eq_true_iff_eq.
    rewrite orb_true_iff, !andb_true_iff, !Nat.leb_le, !Nat.ltb_lt. lia.
  - cbn. apply chain_snoc. cbn. split; [done|]. unfold edit_ok. cbn. lia.
  - intros ? e' [= <-] Hin. cbn. apply Hh; [done|]. by right.
Qed.

Lemma merge_chain len acc l : chain len 0 (rev acc ++ l) -> merge_edits acc l = Ok (rev acc ++ l).
Proof.
  revert acc. induction l as [|e l IH]; intros acc Hc; [cbn; by rewrite app_nil_r|].
  assert (Hgo : merge_edits (e :: acc) l = Ok (rev acc ++ e :: l)).
  { rewrite cons_middle, app_assoc in *. by apply (IH (e :: acc)). }
  destruct acc as [|p acc]; cbn [merge_edits]; [done|].
  destruct (Nat.ltb_spec (ed_start e) (ed_end p)) as [Hover|]; [|done]. exfalso. cbn in Hc.
  rewrite <- app_assoc in Hc. cbn in Hc. clear -Hc Hover. revert Hc. generalize 0. induction (rev acc) as [|e' r IH]; cbn; [lia|].
  intros n (_ & _ & Hc). by eapply IH.
Qed.

(** ** Sorting *)

(** Edits that do not touch each other's bytes. *)
Definition disjoint_edits (e1 e2 : edit) : Prop := ed_end e1 <= ed_start e2 \/ ed_end e2 <= ed_start e1.

Lemma sorted_chain len last l :
  by_start l -> NoDup (ed_start <$> l) -> (forall e1 e2, e1 ∈ l -> e2 ∈ l -> e1 = e2 \/ disjoint_edits e1 e2) ->
  Forall (edit_ok len) l -> (forall e, e ∈ l -> last <= ed_start e) -> last <= len -> chain len last l.
Proof.
  intros Hs. revert last. induction Hs as [|e l Hs IH He]; intros last Hd Hp Hok Hl Hlen; [done|].
  apply Forall_cons in Hok as [Hoe Hok]. rewrite Forall_forall in He, Hok.
  cbn in Hd. apply NoDup_cons in Hd as [Hne Hd]. unfold edit_ok in *.
  cbn. split_and!; [apply Hl; by left|lia|]. apply IH; [done| |by apply Forall_forall| |lia].
  - intros. apply Hp; by right.
  - intros e' He'. specialize (He _ He'). specialize (Hok _ He').
    assert (ed_start e <> ed_start e').
    { intros E. apply Hne. apply list_elem_of_fmap. eauto. }
    destruct (Hp e e' ltac:(by left) ltac:(by right)) as [->|[?|?]]; lia.
Qed.

(** Only one edit puts text before a position: the order does not matter. *)
Definition inserting (e : edit) : bool := match ed_replacement e with [] => false | _ => true end.

Lemma inserted_perm l l' i : l ≡ₚ l' -> NoDup (ed_start <$> List.filter inserting l) -> inserted l i = inserted l' i.
Proof.
  induction 1 as [|e l l' _ IH|e e' l|l l' l'' H1 IH1 H2 IH2]; intros Hd; [done| | |].
  - rewrite !inserted_cons, IH; [done|]. cbn in Hd. destruct (inserting e); [by inversion Hd|done].
  - rewrite !inserted_cons, !app_assoc. f_equal. cbn in Hd. unfold inserting in Hd.
    destruct (Nat.eqb_spec (ed_start e) i) as [Ei|], (Nat.eqb_spec (ed_start e') i) as [Ej|]; rewrite ?app_nil_r; try done.
    destruct (ed_replacement e), (ed_replacement e'); rewrite ?app_nil_r; try done. exfalso.
    cbn in Hd. apply NoDup_cons in Hd as [Hd _]. apply Hd. rewrite Ei, Ej. by left.
  - rewrite IH1, IH2; [done| |done]. assert (Hp : List.filter inserting l ≡ₚ List.filter inserting l').
    { clear -H1. induction H1; cbn; repeat case_match; eauto using perm_swap, Permutation_trans. }
    by rewrite <- Hp.
Qed.

Lemma covered_perm l l' i : l ≡ₚ l' -> covered l i = covered l' i.
Proof.
  intros Hp. apply eq_true_iff_eq. rewrite !covered_true. by setoid_rewrite Hp.
Qed.

Section Pipeline.
Context `{DotenvLaws}.

(** Sort, merge and splice make the edits, wherever they succeed. *)
Lemma pipeline_edits data l m candidate :
  Forall (edit_ok (List.length data)) l -> NoDup (ed_start <$> List.filter inserting l) ->
  merge_edits [] (sort_edits l) = Ok m -> splice data 0 m = Ok candidate -> candidate = edited l data 0.
Proof.
  intros Hok Hd Hm Hsp. pose proof (sort_edits_perm l) as Hp.
  apply (merge_spec (List.length data)) in Hm as [Hc Hspec]; [|cbn; lia| |apply sort_edits_ordered|done].
  2:{ by rewrite Hp. }
  rewrite (splice_edited _ _ _ Hc) in Hsp. simplify_eq. cbn. apply edited_ext. intros i _.
  destruct (Hspec i) as [-> ->]. cbn. split; [symmetry; by apply inserted_perm|by apply covered_perm].
Qed.

Lemma pipeline_succeeds data l :
  Forall (edit_ok (List.length data)) l -> NoDup (ed_start <$> l) ->
  (forall e1 e2, e1 ∈ l -> e2 ∈ l -> e1 = e2 \/ disjoint_edits e1 e2) ->
  exists m, merge_edits [] (sort_edits l) = Ok m /\ exists candidate, splice data 0 m = Ok candidate.
Proof.
  intros Hok Hd Hp. pose proof (sort_edits_perm l) as Hperm.
  assert (Hc : chain (List.length data) 0 (sort_edits l)).
  { apply sorted_chain; [apply sort_edits_ordered|by rewrite Hperm| |by rewrite Hperm|intros; lia|lia].
    intros e1 e2. rewrite Hperm. apply Hp. }
  exists (sort_edits l). split; [by apply (merge_chain (List.length data))|]. eexists. by apply splice_edited.
Qed.
End Pipeline.

(** The changes of [Apply] one by one: which are accepted and what each
    contributes to the edits, the new lines and the summaries; what a parsed
    document holds. *)

#[local] Open Scope Z_scope.

Section Reference.
Context `{DotenvEnv}.

(** ** The reference result *)

Definition encoding (value : bytes) : bytes := default [] (encodeValue value).

Definition change_edits (d : Document) (data : bytes) (c : Change) : list edit :=
  match c_action c, entries d !! c_key c with
  | ActionReplace, Some e => [mk_edit (valueStart e) (valueEnd e) (encoding (c_value c))]
  | ActionRemove, Some e => [removal data (finalNewline d) e]
  | _, _ => []
  end.

Definition change_lines (d : Document) (c : Change) : list (bytes * bytes) :=
  match c_action c, entries d !! c_key c with
  | ActionReplace, None => [(c_key c, encoding (c_value c))]
  | _, _ => []
  end.

Definition change_summaries (d : Document) (c : Change) : list Summary :=
  match c_action c, entries d !! c_key c with
  | ActionReplace, _ | ActionRemove, Some _ => [mk_summary (c_key c) (c_action c)]
  | _, _ => []
  end.

(** A change that [Apply] accepts. *)
Definition accepted (d : Document) (c : Change) : Prop :=
  c_key c ∈ allowed d /\
  match c_action c with
  | ActionReplace => blen (c_value c) <= MaximumValueBytes (policy d) /\ utf8_valid (c_value c) = true
                     /\ has_nul (c_value c) = false /\ is_Some (encodeValue (c_value c))
  | ActionRemove => True
  | ActionOther _ => False
  end.

Fixpoint join_lines (separator : bytes) (lines : list bytes) : bytes :=
  match lines with
  | [] => []
  | [line] => line
  | line :: lines => line ++ separator ++ join_lines separator lines
  end.

Definition assignment (kv : bytes * bytes) : bytes := kv.1 ++ ["="%char] ++ kv.2.

(** Every position of the text edited; then the new assignments in key order,
    on lines of their own. *)
Definition candidate_text (d : Document) (data : bytes) (changes : list Change) : bytes :=
  let body := edited (changes ≫= change_edits d data) data 0 in
  match sort_by (fun a b => text_le a.1 b.1) (changes ≫= change_lines d) with
  | [] => body
  | lines =>
      body ++ (if (0 <? blen body) && negb (hasFinalNewline body) then newline d else [])
      ++ join_lines (newline d) (assignment <$> lines) ++ (if finalNewline d then newline d else [])
  end.

(** ** The loop over the changes *)

Definition insert_all (m : gmap bytes bytes) (l : list (bytes * bytes)) : gmap bytes bytes :=
  fold_left (fun m kv => <[kv.1 := kv.2]> m) l m.

Lemma apply_change_Ok d data st c st' : apply_change d data st c = Ok st' <->
  accepted d c /\ c_key c ∉ seen st /\
  st' = mk_pending ({[c_key c]} ∪ seen st) (edits st ++ change_edits d data c)
          (insert_all (newValues st) (change_lines d c)) (summaries st ++ change_summaries d c).
Proof.
  unfold apply_change, accepted. case_bool_decide as Hal; cbn [negb]; [|split; [done|naive_solver]].
  case_bool_decide as Hs; [split; [done|naive_solver]|].
  unfold change_edits, change_lines, change_summaries, encoding.
  destruct (c_action c) eqn:Ea.
  - unfold replace_change. destruct (Z.ltb_spec (MaximumValueBytes (policy d)) (blen (c_value c)));
      [split; [done|intros ([_ ?] & _); lia]|].
    destruct (utf8_valid (c_value c)), (has_nul (c_value c)); cbn [negb orb]; try (split; [done|naive_solver]).
    destruct (encodeValue (c_value c)) as [enc|] eqn:Ee.
    + split; [intros [= <-]|intros (_ & _ & ->)].
      * split_and!; try done; try by eexists.
        destruct (entries d !! c_key c); cbn; by rewrite ?app_nil_r.
      * destruct (entries d !! c_key c); cbn; by rewrite ?app_nil_r.
    + split; [done|]. intros ([_ (_ & _ & _ & [? ?])] & _). done.
  - unfold remove_change. split; [intros [= <-]|intros (_ & _ & ->)]; split_and?; try done;
      destruct (entries d !! c_key c); cbn; by rewrite ?app_nil_r.
  - split; [done|naive_solver].
Qed.

Lemma apply_changes_Ok d data st changes st' : apply_changes d data st changes = Ok st' ->
  Forall (accepted d) changes /\ NoDup (c_key <$> changes) /\ (forall c, c ∈ changes -> c_key c ∉ seen st) /\
  edits st' = edits st ++ (changes ≫= change_edits d data) /\
  newValues st' = insert_all (newValues st) (changes ≫= change_lines d) /\
  summaries st' = summaries st ++ (changes ≫= change_summaries d).
Proof.
  revert st. induction changes as [|c changes IH]; intros st; cbn [apply_changes].
  { intros [= <-]. cbn. rewrite !app_nil_r. split_and!; try done; [constructor|]. by intros c ?%not_elem_of_nil. }
  intros (st1 & (Hacc & Hseen & ->)%apply_change_Ok & Hrest)%bind_Ok.
  apply IH in Hrest as (Hall & Hnd & Hfresh & He & Hn & Hs). cbn [seen edits newValues summaries] in *.
  rewrite He, Hn, Hs. cbn. split_and!; [by constructor| | |by rewrite app_assoc| |by rewrite app_assoc].
  - constructor; [|done]. intros (c' & Heq & Hin)%list_elem_of_fmap. specialize (Hfresh c' Hin). set_solver.
  - intros c' [->|Hin]%elem_of_cons; [done|]. specialize (Hfresh c' Hin). set_solver.
  - unfold insert_all. by rewrite fold_left_app.
Qed.

Lemma apply_changes_succeeds d data st changes :
  Forall (accepted d) changes -> NoDup (c_key <$> changes) -> (forall c, c ∈ changes -> c_key c ∉ seen st) ->
  exists st', apply_changes d data st changes = Ok st'.
Proof.
  intros Hall. revert st. induction Hall as [|c changes Hc Hall IH]; intros st Hnd Hfresh; [by eexists|].
  cbn in Hnd. apply NoDup_cons in Hnd as [Hne Hnd].
  assert (exists st1, apply_change d data st c = Ok st1 /\ seen st1 = {[c_key c]} ∪ seen st) as (st1 & E1 & E2).
  { eexists. split; [apply apply_change_Ok; split_and!; [done|apply Hfresh; by left|reflexivity]|done]. }
  cbn [apply_changes]. rewrite E1. cbn. apply IH; [done|]. rewrite E2. intros c' Hin. apply not_elem_of_union. split; [|apply Hfresh; by right].
  rewrite elem_of_singleton. intros E. apply Hne. apply list_elem_of_fmap. eauto.
Qed.

(** ** The new lines *)

Lemma insert_all_perm l : NoDup l.*1 -> map_to_list (insert_all ∅ l) ≡ₚ l.
Proof.
  intros Hd. unfold insert_all. rewrite <- fold_left_rev_right.
  replace (fold_right _ ∅ (rev l)) with (list_to_map (M := gmap bytes bytes) (rev l)).
  2:{ clear. induction (rev l) as [|[k v] r IH]; [done|]. cbn. by rewrite IH. }
  assert (Hr : rev l ≡ₚ l) by (symmetry; apply Permutation_rev).
  rewrite map_to_list_to_map; [done|]. by rewrite Hr.
Qed.

Lemma insert_all_lookup l k v : NoDup l.*1 -> (k, v) ∈ l -> insert_all ∅ l !! k = Some v.
Proof. intros Hd Hin. apply elem_of_map_to_list. by rewrite insert_all_perm. Qed.

Lemma new_lines_join d m l : l <> [] -> (forall k v, (k, v) ∈ l -> m !! k = Some v) ->
  new_lines d m l.*1 = join_lines (newline d) (assignment <$> l) ++ (if finalNewline d then newline d else []).
Proof.
  induction l as [|[k v] l IH]; [done|]. intros _ Hm. cbn [fmap list_fmap new_lines fst].
  rewrite (Hm k v) by (by left). cbn [default]. unfold assignment at 1. cbn [fst snd].
  destruct l as [|kv l].
  - cbn. rewrite app_nil_r, <- app_assoc. done.
  - rewrite IH; [|done|intros; apply Hm; by right]. cbn [fmap list_fmap join_lines]. by rewrite <- !app_assoc.
Qed.

Lemma append_new_text d l body : NoDup l.*1 ->
  append_new d (insert_all ∅ l) body
  = match sort_by (fun a b => text_le a.1 b.1) l with
    | [] => body
    | lines => body ++ (if (0 <? blen body) && negb (hasFinalNewline body) then newline d else [])
               ++ join_lines (newline d) (assignment <$> lines) ++ (if finalNewline d then newline d else [])
    end.
Proof.
  intros Hd. unfold append_new.
  rewrite (sort_text_perm _ l.*1) by (by rewrite insert_all_perm). rewrite (sort_by_fmap text_le fst).
  pose proof (sort_by_perm (fun a b : bytes * bytes => text_le a.1 b.1) l) as Hp.
  destruct (sort_by _ l) as [|kv lines] eqn:E; [done|].
  rewrite <- (new_lines_join d (insert_all ∅ l) (kv :: lines)); [done|done|].
  intros k v Hin. apply insert_all_lookup; [done|]. by rewrite <- Hp.
Qed.

Lemma change_lines_keys d changes : NoDup (c_key <$> changes) -> NoDup (changes ≫= change_lines d).*1.
Proof.
  induction changes as [|c changes IH]; [constructor|]. cbn. intros [Hne Hd]%NoDup_cons.
  specialize (IH Hd). unfold change_lines at 1. destruct (c_action c); [|exact IH..].
  destruct (entries d !! c_key c); [exact IH|]. cbn. constructor; [|exact IH].
  intros (kv & Heq & (c' & Hkv & Hin)%list_elem_of_bind)%list_elem_of_fmap. apply Hne. apply list_elem_of_fmap.
  exists c'. split; [|done]. unfold change_lines in Hkv. destruct (c_action c'), (entries d !! c_key c'); try set_solver.
Qed.
End Reference.
