(* ===== verification/DotenvCorrect.v ===== *)
(** Properties of the credential files: the scanner ends and lays out the
    entries, a document shows values only to its trusted readers, and [Apply]
    changes exactly the bytes its changes name. *)
From stdpp Require Import gmap.
From S2P Require Import Prelude.
From S2P Require Import GoText.
From S2P Require Import DotenvScan.
From S2P Require Import DotenvEdit.
From S2P Require Import DotenvLayout.

#[local] Open Scope Z_scope.

(** ** What a parsed document holds *)

Section Documents.
Context `{DotenvLaws}.

Lemma parse_values_Ok data p l vals vals' : NoDup l.*1 -> parse_values data p l vals = Ok vals' ->
  forall k, (k ∉ l.*1 -> vals' !! k = vals !! k) /\
            (forall e, (k, e) ∈ l -> exists v, parse_value data p k e = Ok v /\ vals' !! k = Some v).
Proof.
  revert vals. induction l as [|[k0 e0] l IH]; intros vals Hd; cbn [parse_values].
  { intros [= <-] k. split; [done|]. by intros e ?%not_elem_of_nil. }
  cbn in Hd. apply NoDup_cons in Hd as [Hne Hd].
  intros (v0 & Hv0 & Hrest)%bind_Ok k. destruct (IH _ Hd Hrest k) as [Hout Hin]. split.
  - cbn. intros [Hk ?]%not_elem_of_cons. rewrite Hout by done. by rewrite lookup_insert_ne by congruence.
  - intros e [[= -> ->]|He]%elem_of_cons; [|by apply Hin].
    exists v0. split; [done|]. by rewrite Hout, lookup_insert_eq.
Qed.

Record document_ok (data : bytes) (p : Policy) (d : Document) : Prop := {
  do_raw : raw d = Some data;
  do_policy : policy d = p;
  do_final : finalNewline d = hasFinalNewline data;
  do_size : blen data <= MaximumBytes p;
  do_scanned : exists pos seen unsup, scanned_ok data (allowed d) pos (mk_scanned (entries d) seen unsup)
               /\ unsupported d = sort_by text_le (elements unsup);
  do_values : forall k, values d !! k = None <-> entries d !! k = None;
  do_decoded : forall k e, entries d !! k = Some e -> exists v, values d !! k = Some v /\ parse_value data p k e = Ok v;
}.

Lemma scanEntries_ok data allowed es un : scanEntries data allowed = Ok (es, un) ->
  exists pos seen unsup, scanned_ok data allowed pos (mk_scanned es seen unsup) /\ un = sort_by text_le (elements unsup).
Proof.
  unfold scanEntries. intros (s & Hs & Hr)%bind_Ok. injection Hr as <- <-.
  pose proof (scan_loop_ok data allowed (List.length data) 0 nothing_scanned (nothing_scanned_ok _ _) ltac:(lia) ltac:(lia)) as Hok.
  rewrite Hs in Hok. destruct Hok as [pos Hok]. exists pos, (sc_seen s), (sc_unsupported s). by destruct s.
Qed.

Lemma Parse_Ok data keys p d : Parse data keys p = Ok d ->
  validateAllowedKeys keys = Ok (allowed d) /\ document_ok data p d.
Proof.
  unfold Parse. intros (_ & _ & (al & Hal & H1)%bind_Ok)%bind_Ok.
  destruct (Z.ltb_spec (MaximumBytes p) (blen data)); [done|].
  repeat (case_in H1; [done|]). apply bind_Ok in H1 as ([es un] & Hscan & (vals & Hv & Hr)%bind_Ok).
  injection Hr as <-. split; [done|].
  assert (Hperm : map_order es ≡ₚ map_to_list es) by apply map_order_perm.
  pose proof (fun Hd => parse_values_Ok _ _ _ _ _ Hd Hv) as Hvals. specialize (Hvals ltac:(rewrite Hperm; apply NoDup_fst_map_to_list)).
  assert (Hdec : forall k e, es !! k = Some e -> exists v, parse_value data p k e = Ok v /\ vals !! k = Some v).
  { intros k e Hk. apply (Hvals k). rewrite Hperm. by apply elem_of_map_to_list. }
  split; cbn; [done..|lia| |intros k|].
  - by apply scanEntries_ok.
  - split; intros Hnone.
    + destruct (es !! k) as [e|] eqn:E; [|done]. destruct (Hdec k e E) as (v & _ & Hv'). congruence.
    + destruct (Hvals k) as [Hout _]. rewrite Hout, lookup_empty; [done|]. rewrite Hperm.
      intros ([k' e'] & Hk' & Hin)%list_elem_of_fmap. cbn in Hk'. subst. apply elem_of_map_to_list in Hin. congruence.
  - intros k e He. destruct (Hdec k e He) as (v & ? & ?). eauto.
Qed.

(** ** The spans of the edits *)

Lemma precedingLineSeparator_le data p : (precedingLineSeparator data p <= p)%nat.
Proof. unfold precedingLineSeparator. repeat case_match; lia. Qed.

(** An edit belongs to the entry of a change. *)
Lemma change_edit_cases d data c e : e ∈ change_edits d data c ->
  exists en, entries d !! c_key c = Some en /\
    (e = mk_edit (valueStart en) (valueEnd en) (encoding (c_value c)) \/ e = removal data (finalNewline d) en).
Proof.
  unfold change_edits. destruct (c_action c), (entries d !! c_key c) as [en|];
    intros Hin; try (by apply not_elem_of_nil in Hin); apply list_elem_of_singleton in Hin; eauto.
Qed.

Lemma bind_NoDup {A B K C} (f : A -> K) (g : A -> list B) (h : B -> C) (l : list A) :
  NoDup (f <$> l) -> (forall a, NoDup (h <$> g a)) ->
  (forall a a' b b', f a <> f a' -> b ∈ g a -> b' ∈ g a' -> h b <> h b') -> NoDup (h <$> (l ≫= g)).
Proof.
  intros Hd Hg Hne. induction l as [|a l IH]; [constructor|]. cbn in *. apply NoDup_cons in Hd as [Ha Hd].
  rewrite fmap_app. apply NoDup_app. split_and!; [done| |by apply IH].
  intros c (b & -> & Hb)%list_elem_of_fmap (b' & E & (a' & Hb' & Ha')%list_elem_of_bind)%list_elem_of_fmap.
  eapply (Hne a a'); [|done..]. intros E'. apply Ha. apply list_elem_of_fmap. eauto.
Qed.

Section Spans.
Context (data : bytes) (d : Document) (pos : nat) (seen unsup : gset bytes)
        (Hok : scanned_ok data (allowed d) pos (mk_scanned (entries d) seen unsup)).

Lemma entry_facts k e : entries d !! k = Some e ->
  (statementStart e < valueStart e <= valueEnd e)%nat /\ (valueEnd e <= statementEnd e <= List.length data)%nat /\
  ((valueEnd e < statementEnd e)%nat \/ statementEnd e = List.length data).
Proof.
  intros He. destruct (so_entry _ _ _ _ Hok k e He) as (_ & _ & _ & [? ? [? ? ? ? ?]] & _).
  split_and!; lia.
Qed.

Lemma change_edits_ok c : Forall (edit_ok (List.length data)) (change_edits d data c).
Proof.
  apply Forall_forall. intros e (en & Hen & He)%change_edit_cases.
  pose proof (entry_facts _ _ Hen). unfold edit_ok. destruct He as [->| ->]; cbn; [lia|].
  pose proof (precedingLineSeparator_le data (statementStart en)). case_match; lia.
Qed.

Lemma change_edits_small {A} (f : edit -> A) c : NoDup (f <$> change_edits d data c).
Proof. unfold change_edits. repeat case_match; cbn; apply NoDup_singleton || constructor. Qed.

(** Entries of different keys: one statement ends before the other begins. *)
Lemma entries_apart k1 k2 e1 e2 : entries d !! k1 = Some e1 -> entries d !! k2 = Some e2 -> k1 <> k2 -> apart e1 e2.
Proof. apply (so_apart _ _ _ _ Hok). Qed.

Lemma replacements_start_apart changes : NoDup (c_key <$> changes) ->
  NoDup (ed_start <$> List.filter inserting (changes ≫= change_edits d data)).
Proof.
  intros Hd. replace (List.filter inserting _) with (changes ≫= (fun c => List.filter inserting (change_edits d data c))).
  2:{ induction changes as [|c l IH]; [done|]. cbn in *. inversion Hd; subst. by rewrite IH, List.filter_app. }
  apply (bind_NoDup c_key); [done| |].
  - intros c. unfold change_edits. repeat case_match; cbn; repeat case_match; cbn; apply NoDup_singleton || constructor.
  - intros c c' e e' Hne [He Hi]%list_elem_of_In%List.filter_In [He' Hi']%list_elem_of_In%List.filter_In.
    apply list_elem_of_In, change_edit_cases in He as (en & Hen & [->| ->]); [|done].
    apply list_elem_of_In, change_edit_cases in He' as (en' & Hen' & [->| ->]); [|done].
    cbn. pose proof (entry_facts _ _ Hen). pose proof (entry_facts _ _ Hen').
    destruct (entries_apart _ _ _ _ Hen Hen' Hne); lia.
Qed.

(** In a text that ends its last line, edits of different keys never meet. *)
Lemma terminated_edits_apart c c' e e' : finalNewline d = true -> c_key c <> c_key c' ->
  e ∈ change_edits d data c -> e' ∈ change_edits d data c' -> ed_start e <> ed_start e' /\ disjoint_edits e e'.
Proof.
  intros Hf Hne (en & Hen & He)%change_edit_cases (en' & Hen' & He')%change_edit_cases.
  pose proof (entry_facts _ _ Hen). pose proof (entry_facts _ _ Hen').
  pose proof (entries_apart _ _ _ _ Hen Hen' Hne) as Ha. unfold apart in Ha.
  unfold removal, disjoint_edits in *. rewrite Hf, andb_false_r in *.
  destruct He as [->| ->], He' as [->| ->]; cbn; lia.
Qed.
End Spans.
End Documents.

(** ** The scanner *)

(** C40: scanning always ends.  The fuel, one step per byte, is never used
    up, and more of it changes nothing.  An entry is filed under its own
    managed key; its statement consists of whole lines of the text with the
    value inside, and statements of different keys never overlap.  The
    unsupported keys are in order, once each, and not managed. *)
Theorem scanEntries_layout (data : bytes) (allowed : list bytes) :
  (forall fuel, (List.length data <= fuel)%nat ->
     scan_loop fuel data allowed nothing_scanned 0 = scan_loop (List.length data) data allowed nothing_scanned 0) /\
  match scanEntries data allowed with
  | Err e => e_code e <> OutOfFuel
  | Ok (entries, unsupported) =>
      (forall k e, entries !! k = Some e ->
         key e = k /\ k ∈ allowed /\ validSourceKey k = true /\
         (statementStart e < valueStart e <= valueEnd e)%nat /\ (valueEnd e <= statementEnd e <= List.length data)%nat /\
         line_begin data (statementStart e) /\ line_begin data (statementEnd e)) /\
      (forall k1 k2 e1 e2, entries !! k1 = Some e1 -> entries !! k2 = Some e2 -> k1 <> k2 -> apart e1 e2) /\
      text_ordered unsupported /\ NoDup unsupported /\ (forall k, k ∈ unsupported -> k ∉ allowed)
  end.
Proof.
  split. { intros fuel Hf. apply scan_loop_fuel; [apply nothing_scanned_ok|lia..]. }
  destruct (scanEntries data allowed) as [[es un]|e] eqn:E.
  - destruct (scanEntries_ok _ _ _ _ E) as (pos & seen & unsup & Hok & ->). split_and!.
    + intros k e He. destruct (so_entry _ _ _ _ Hok k e He) as (? & ? & Hs & [? ? [? ? ? ? ?]] & _).
      destruct (so_seen _ _ _ _ Hok k Hs) as [? _]. split_and!; try lia; done.
    + intros k1 k2 e1 e2. apply (so_apart _ _ _ _ Hok).
    + apply sort_text_ordered.
    + rewrite sort_by_perm. apply NoDup_elements.
    + intros k Hk. rewrite sort_by_perm, elem_of_elements in Hk. by apply (so_unsupported _ _ _ _ Hok k).
  - pose proof (scan_loop_ok data allowed (List.length data) 0 nothing_scanned (nothing_scanned_ok _ _) ltac:(lia) ltac:(lia)) as Hok.
    unfold scanEntries in E. destruct (scan_loop _ _ _ _ _); cbn in E; by simplify_eq.
Qed.

(** ** Documents *)

Section Properties.
Context `{DotenvLaws}.

(** a parsed document lists exactly the managed keys, in order, and
    shows of each only whether it is present; presence, validation and copy
    agree.  A copied value belongs to a managed key, is within the bound and
    is what the upstream parser reads in that key's own statement.  A cleared
    document has no values left and cannot be edited. *)
Theorem document_shows_presence data keys p d changes : Parse data keys p = Ok d ->
  p_key <$> Document_Presence (Some d) = sort_by text_le keys /\
  (forall pr, pr ∈ Document_Presence (Some d) -> p_present pr = true <-> is_Some (ValueCopy (Some d) (p_key pr))) /\
  (forall k f, ValidatePresence (Some d) k (Some f)
     = match ValueCopy (Some d) k with Some v => (true, f v) | None => (false, true) end) /\
  (forall k v, ValueCopy (Some d) k = Some v ->
     k ∈ keys /\ blen v <= MaximumValueBytes p /\
     exists e parsed, entries d !! k = Some e /\ key e = k /\
       godotenv_Parse (slice data (statementStart e) (statementEnd e)) = Some parsed /\ parsed !! k = Some v) /\
  (forall k, k ∈ UnsupportedKeys (Some d) -> k ∉ keys) /\
  (forall pr, pr ∈ Document_Presence (Some (Clear d)) -> p_present pr = false) /\
  (forall k, ValueCopy (Some (Clear d)) k = None) /\
  Apply (Some (Clear d)) changes = Err (mk_error CodeInvalidChange []).
Proof.
  intros [Hk [Hraw Hpol Hfin Hsize (pos & seen & unsup & Hok & Hun) Hvals Hdec]]%Parse_Ok.
  apply validateAllowedKeys_Ok in Hk as Hkeys. destruct Hkeys as (Hperm & _ & _ & _).
  assert (Hsorted : allowed d = sort_by text_le keys).
  { unfold validateAllowedKeys in Hk. repeat (case_in Hk; [done|]). by injection Hk as <-. }
  assert (Hsome : forall k, is_Some (entries d !! k) <-> is_Some (values d !! k)).
  { intros k. rewrite <- !not_eq_None_Some. by rewrite Hvals. }
  split_and!.
  - rewrite <- Hsorted. cbn. rewrite <- list_fmap_compose. apply list_fmap_id.
  - intros pr (k & -> & _)%list_elem_of_fmap. cbn. by rewrite bool_decide_eq_true.
  - intros k f. cbn. by destruct (values d !! k).
  - cbn. intros k v Hv. destruct (entries d !! k) as [e|] eqn:He; [|apply Hvals in He; congruence].
    destruct (Hdec k e He) as (v' & Hv' & Hpv). rewrite Hv in Hv'. injection Hv' as <-.
    destruct (so_entry _ _ _ _ Hok k e He) as (? & ? & _). split; [by rewrite <- Hperm|].
    unfold parse_value in Hpv. destruct (godotenv_Parse _) as [parsed|] eqn:Eg; [|done].
    destruct (parsed !! k) as [v'|] eqn:Ek; [|done]. case_in Hpv; [done|]. injection Hpv as ->. bool_prop.
    split; [done|]. exists e, parsed. done.
  - cbn. rewrite Hun. intros k. rewrite sort_by_perm, elem_of_elements, <- Hperm.
    intros Hin. by apply (so_unsupported _ _ _ _ Hok k).
  - intros pr (k & -> & _)%list_elem_of_fmap. cbn. apply bool_decide_eq_false. rewrite lookup_empty. by intros [? ?].
  - intros k. cbn. apply lookup_empty.
  - done.
Qed.

Lemma Parse_again data keys p d : Parse data keys p = Ok d -> Parse data (allowed d) p = Ok d.
Proof.
  intros Hp. destruct (Parse_Ok _ _ _ _ Hp) as [Hk _].
  enough (Hsame : validateAllowedKeys (allowed d) = Ok (allowed d)).
  { revert Hp. unfold Parse. by rewrite Hk, Hsame. }
  apply validateAllowedKeys_Ok in Hk as Hkeys. destruct Hkeys as (Hperm & Hs & Hd & Hall).
  unfold validateAllowedKeys in *. rewrite (sort_by_sorted text_le) by done.
  rewrite (proj2 (existsb_false _ (allowed d))).
  - destruct (existsb _ keys); [done|]. by destruct (adjacent_equal (sort_by text_le keys)) eqn:E; [|injection Hk as <-; rewrite E].
  - intros k Hin. rewrite Hperm in Hin. rewrite Forall_forall in Hall. by rewrite (Hall k Hin).
Qed.

(** Everything after the loop over the changes. *)
Lemma Apply_after_changes data d pos seen unsup st changes :
  scanned_ok data (allowed d) pos (mk_scanned (entries d) seen unsup) ->
  apply_changes d data nothing_pending changes = Ok st -> forall m candidate,
  merge_edits [] (sort_edits (edits st)) = Ok m -> splice data 0 m = Ok candidate ->
  append_new d (newValues st) candidate = candidate_text d data changes.
Proof.
  intros Hok Hst m candidate Hm Hc. apply apply_changes_Ok in Hst as (_ & Hnd & _ & He & Hn & _).
  cbn in He, Hn. rewrite Hn, append_new_text by (by apply change_lines_keys).
  rewrite He in Hm. assert (candidate = edited (changes ≫= change_edits d data) data 0) as ->; [|done].
  eapply pipeline_edits; [|by eapply replacements_start_apart|done..].
  apply Forall_forall. intros e (c & Hin & _)%list_elem_of_bind.
  pose proof (change_edits_ok data d pos seen unsup Hok c) as Hf. rewrite Forall_forall in Hf. by apply Hf.
Qed.

(** C39: a successful edit of a document changes the text position by
    position: every byte outside the named values and removed statements stays,
    each replaced value stands where the old one was, and new keys are
    appended in order on lines of their own.  The result is within the size
    bound and parses again.  No changes change nothing.  A text that ends its
    last line can take every list of acceptable changes to different keys
    whose result is within the bounds. *)
Theorem Apply_edits_text data keys p d changes : Parse data keys p = Ok d ->
  (forall text sums, Apply (Some d) changes = Ok (text, sums) ->
     Forall (accepted d) changes /\ NoDup (c_key <$> changes) /\ text = candidate_text d data changes /\
     blen text <= MaximumBytes p /\ is_ok (Parse text (allowed d) p) = true /\
     sums ≡ₚ (changes ≫= change_summaries d) /\ text_ordered (s_key <$> sums)) /\
  Apply (Some d) [] = Ok (data, []) /\
  (hasFinalNewline data = true -> Forall (accepted d) changes -> NoDup (c_key <$> changes) ->
   blen (candidate_text d data changes) <= MaximumBytes p ->
   is_ok (Parse (candidate_text d data changes) (allowed d) p) = true ->
   exists sums, Apply (Some d) changes = Ok (candidate_text d data changes, sums)).
Proof.
  intros Hp. pose proof (Parse_again _ _ _ _ Hp) as Hagain.
  apply Parse_Ok in Hp as [_ [Hraw Hpol Hfin Hsize (pos & seen & unsup & Hok & _) _ _]].
  unfold Apply. rewrite Hraw, Hpol. split_and!.
  - intros text sums (st & Hst & (m & Hm & (candidate & Hc & Hr)%bind_Ok)%bind_Ok)%bind_Ok.
    rewrite (Apply_after_changes _ _ _ _ _ _ _ Hok Hst _ _ Hm Hc) in Hr.
    destruct (Z.ltb_spec (MaximumBytes p) (blen (candidate_text d data changes))); [done|].
    apply bind_Ok in Hr as (d' & Hd' & Hr). injection Hr as <- <-.
    apply apply_changes_Ok in Hst as (Hall & Hnd & _ & _ & _ & Hs). cbn in Hs.
    split_and!; [done..|by rewrite Hd'|by rewrite sort_by_perm, Hs|].
    rewrite <- (sort_by_fmap text_le s_key). apply sort_text_ordered.
  - assert (Hs : sort_edits [] = []) by (apply Permutation_nil_r, sort_edits_perm).
    assert (Hnew : append_new d ∅ data = data) by (unfold append_new; by rewrite map_to_list_empty).
    cbn -[append_new]. rewrite Hs. cbn -[append_new]. rewrite drop_0, Hnew.
    destruct (Z.ltb_spec (MaximumBytes p) (blen data)); [lia|]. by rewrite Hagain.
  - intros Hnl Hall Hnd Hlen Hparse.
    destruct (apply_changes_succeeds d data nothing_pending changes Hall Hnd) as [st Hst]; [intros; apply not_elem_of_empty|].
    apply apply_changes_Ok in Hst as Hst'. destruct Hst' as (_ & _ & _ & He & _ & _). cbn in He.
    destruct (pipeline_succeeds data (edits st)) as (m & Hm & candidate & Hc).
    + rewrite He. apply Forall_forall. intros e (c & Hin & _)%list_elem_of_bind.
      pose proof (change_edits_ok data d pos seen unsup Hok c) as Hf. rewrite Forall_forall in Hf. by apply Hf.
    + rewrite He. apply (bind_NoDup c_key); [done|apply change_edits_small|].
      intros c c' e e' Hne H1 H2. by eapply (terminated_edits_apart data d _ _ _ Hok c c'); [congruence|..].
    + rewrite He. intros e1 e2 (c1 & H1 & Hc1)%list_elem_of_bind (c2 & H2 & Hc2)%list_elem_of_bind.
      destruct (decide (c_key c1 = c_key c2)) as [E|Hne].
      * left. unfold change_edits in H1, H2.
        assert (c1 = c2) as ->; [|repeat case_match; set_solver].
        apply list_elem_of_lookup in Hc1 as [i Hi], Hc2 as [j Hj].
        assert (i = j) as ->; [|congruence]. eapply (NoDup_lookup _ i j (c_key c1) Hnd);
          rewrite list_lookup_fmap; [by rewrite Hi|by rewrite Hj, E].
      * right. by eapply (terminated_edits_apart data d _ _ _ Hok c1 c2); [congruence|..].
    + rewrite Hst. cbn. rewrite Hm. cbn. rewrite Hc. cbn. rewrite (Apply_after_changes _ _ _ _ _ _ _ Hok Hst _ _ Hm Hc).
      destruct (Z.ltb_spec (MaximumBytes p) (blen (candidate_text d data changes))); [lia|].
      apply is_ok_true in Hparse as [d' ->]. cbn. by eexists.
Qed.
End Properties.

(** ** Samples *)

(** A small upstream parser: one assignment, its value in quotes or bare. *)
Definition sample_unquote (v : bytes) : bytes :=
  let v := List.filter (fun c => negb (is_newline c)) v in
  match v with
  | q :: rest => if (Ascii.eqb q single_quote || Ascii.eqb q double_quote) && bool_decide (last rest = Some q)
                 then take (List.length rest - 1) rest else v
  | [] => []
  end.
Definition sample_parse (l : bytes) : option (gmap bytes bytes) :=
  '(i, _) ← list_find (eq "="%char) l; Some {[ take i l := sample_unquote (drop (S i) l) ]}.

Definition start_le (a b : edit) : bool := (ed_start a <=? ed_start b)%nat.

#[export] Instance sample_env : DotenvEnv := {|
  godotenv_Parse := sample_parse;
  map_order := map_to_list;
  sort_edits := sort_by start_le;
|}.
#[export] Instance sample_laws : DotenvLaws.
Proof.
  split; cbn; [done|apply sort_by_perm|]. intros l.
  assert (Hs : StronglySorted (fun a b => start_le a b = true) (sort_by start_le l)).
  { apply sort_by_ordered; unfold start_le; intros *; rewrite ?Nat.leb_le; lia. }
  induction Hs as [|a r _ IH Ha]; constructor; [done|]. eapply Forall_impl; [exact Ha|].
  cbn. intros b. unfold start_le. by rewrite Nat.leb_le.
Qed.

Definition text (lines : list string) : bytes := concat ((fun l => to_bytes l ++ [lf]) <$> lines).
Definition sample_data : bytes := text ["# keys"; "A=x # old"; "OTHER=y"; "B='z'"]%string.
Definition sample_keys : list bytes := [to_bytes "B"; to_bytes "A"; to_bytes "C"].
Definition replace (k v : string) : Change := mk_change (to_bytes k) ActionReplace (to_bytes v).
Definition remove (k : string) : Change := mk_change (to_bytes k) ActionRemove [].
Definition sample_changes : list Change := [replace "C" "new"; remove "B"; replace "A" "w"].

Definition sample_document : Document :=
  match Parse sample_data sample_keys DefaultPolicy with Ok d => d | Err _ => mk_document None [] ∅ ∅ [] DefaultPolicy [] false end.

Lemma sample_parses : Parse sample_data sample_keys DefaultPolicy = Ok sample_document.
Proof. vm_compute. reflexivity. Qed.

Lemma sample_apply :
  Apply (Some sample_document) sample_changes
  = Ok (text ["# keys"; "A='w' # old"; "OTHER=y"; "C='new'"]%string,
        [mk_summary (to_bytes "A") ActionReplace; mk_summary (to_bytes "B") ActionRemove; mk_summary (to_bytes "C") ActionReplace]).
Proof. vm_compute. reflexivity. Qed.

Lemma document_shows_presence_witness :
  Document_Presence (Some sample_document)
  = [mk_presence (to_bytes "A") true; mk_presence (to_bytes "B") true; mk_presence (to_bytes "C") false] /\
  p_key <$> Document_Presence (Some sample_document) = sort_by text_le sample_keys.
Proof.
  split; [vm_compute; reflexivity|].
  exact (proj1 (document_shows_presence sample_data sample_keys DefaultPolicy sample_document [] sample_parses)).
Defined.

Lemma Apply_edits_text_witness :
  text ["# keys"; "A='w' # old"; "OTHER=y"; "C='new'"]%string = candidate_text sample_document sample_data sample_changes /\
  Apply (Some sample_document) [] = Ok (sample_data, []).
Proof.
  destruct (Apply_edits_text sample_data sample_keys DefaultPolicy sample_document sample_changes sample_parses) as (H1 & H2 & _).
  split; [|exact H2]. exact (proj1 (proj2 (proj2 (H1 _ _ sample_apply)))).
Defined.

(** ** A text that does not end its last line *)

Definition unterminated_data : bytes := to_bytes "A=" ++ [lf] ++ to_bytes "B=x".
Definition unterminated_document : option Document :=
  match Parse unterminated_data sample_keys DefaultPolicy with Ok d => Some d | Err _ => None end.

(** without a final line end the outcome can depend on the order of
    the changes.  Removing the last key also deletes the separator before it,
    where the empty value of the key above stands; the two edits begin at the
    same position and are sorted by it alone, so the same two changes succeed
    in one order and are rejected as an invalid change in the other. *)
Theorem Apply_depends_on_order :
  (exists sums, Apply unterminated_document [replace "A" "v"; remove "B"] = Ok (to_bytes "A='v'", sums)) /\
  Apply unterminated_document [remove "B"; replace "A" "v"] = Err (mk_error CodeInvalidChange []).
Proof. split; [eexists|]; vm_compute; reflexivity. Qed.
