(* ===== verification/WsTypes.v ===== *)
(** Native file edits, data: the types and the pure checks of
    internal/workspace/transaction_types.go, journal.go, errors.go and the
    identity comparisons of the transaction files.  Device, inode and mode
    numbers are the unsigned integers of the stat structure. *)
From S2P Require Import Prelude.
From S2P Require Import GoText.
From S2P Require Import GoTime.

#[local] Open Scope Z_scope.

(** ** Errors

    The sentinel errors of the package; [Failure] is any other error and
    [Joined] an error that wraps two. *)
Inductive WsError :=
| ErrWorkspaceBusy | ErrRecoveryRequired | ErrSourceChanged | ErrInvalidEdit | ErrNoEditJournal
| ErrNoSelection | ErrInvalidSelection
| Failure (what : string)
| Joined (outer inner : WsError).
#[export] Instance WsError_eq_dec : EqDecision WsError.
Proof. solve_decision. Defined.

(** [errors.Is] *)
Fixpoint is_error (target e : WsError) : bool :=
  bool_decide (e = target) ||
  match e with Joined a b => is_error target a || is_error target b | _ => false end.

(** ** File identities *)

Record FileIdentity := mk_identity {
  Exists : bool;
  Device : Z;
  Inode : Z;
  Mode : Z;
  UID : Z;
  GID : Z;
  NLink : Z;
  Size : Z;
  ModifiedAt : time;
  ChangedAt : time;
}.
Definition no_identity : FileIdentity := mk_identity false 0 0 0 0 0 0 0 zero_time zero_time.

Definition S_IFMT : Z := 61440.
Definition S_IFREG : Z := 32768.
Definition S_IFDIR : Z := 16384.
Definition S_IFLNK : Z := 40960.
Definition is_regular (mode : Z) : bool := Z.land mode S_IFMT =? S_IFREG.

(** [time.Time.Equal]: the same instant. *)
Definition time_equal (a b : time) : bool := t_ns a =? t_ns b.

Definition sameFileIdentity (left right : FileIdentity) (compareTimes : bool) : bool :=
  if negb (Bool.eqb (Exists left) (Exists right)) || negb (Device left =? Device right) || negb (Inode left =? Inode right)
     || negb (Mode left =? Mode right) || negb (UID left =? UID right) || negb (GID left =? GID right)
     || negb (NLink left =? NLink right) || negb (Size left =? Size right)
  then false
  else negb compareTimes
       || (time_equal (ModifiedAt left) (ModifiedAt right) && time_equal (ChangedAt left) (ChangedAt right)).

Definition samePlacement (expected current : FileIdentity) : bool :=
  Exists expected && Exists current && (Device expected =? Device current) && (Inode expected =? Inode current)
  && (Mode expected =? Mode current) && (UID expected =? UID current) && (GID expected =? GID current)
  && (NLink expected =? NLink current) && (Size expected =? Size current)
  && time_equal (ModifiedAt expected) (ModifiedAt current) && time_equal (ChangedAt expected) (ChangedAt current).

Definition originalPlacement (original current : FileIdentity) (currentExists : bool) : bool :=
  if negb (Exists original) then negb currentExists else currentExists && samePlacement original current.

Definition sameDirectoryIdentity (expected current : FileIdentity) : bool :=
  Exists expected && Exists current && (Device expected =? Device current) && (Inode expected =? Inode current)
  && (Mode expected =? Mode current) && (UID expected =? UID current) && (GID expected =? GID current)
  && (NLink expected =? NLink current).

Definition validOriginalIdentity (i : FileIdentity) : bool :=
  Exists i && negb (Device i =? 0) && negb (Inode i =? 0) && (NLink i =? 1) && (0 <=? Size i)
  && negb (is_zero (ModifiedAt i)) && negb (is_zero (ChangedAt i)).

(** [euid] is the effective user of the service. *)
Definition validCandidateIdentity (euid : Z) (i : FileIdentity) : bool :=
  Exists i && negb (Device i =? 0) && negb (Inode i =? 0) && (NLink i =? 1) && (0 <=? Size i)
  && is_regular (Mode i) && (Z.land (Mode i) 4095 =? 384) && (UID i =? euid)
  && negb (is_zero (ModifiedAt i)) && negb (is_zero (ChangedAt i)).

Definition zeroMissingIdentity (i : FileIdentity) : bool :=
  negb (Exists i) && (Device i =? 0) && (Inode i =? 0) && (Mode i =? 0) && (UID i =? 0) && (GID i =? 0)
  && (NLink i =? 0) && (Size i =? 0) && is_zero (ModifiedAt i) && is_zero (ChangedAt i).

(** Identity and content digest of a file. *)
Record SourceFingerprint := mk_fingerprint {
  fp_Path : bytes;
  fp_Identity : FileIdentity;
  fp_SHA256 : bytes;
}.
Definition no_fingerprint : SourceFingerprint := mk_fingerprint [] no_identity [].

Definition sameFingerprintContent (expected current : SourceFingerprint) (compareTimes : bool) : bool :=
  sameFileIdentity (fp_Identity expected) (fp_Identity current) compareTimes
  && bool_decide (fp_SHA256 expected = fp_SHA256 current).
Definition sameSourceFingerprint (left right : SourceFingerprint) : bool :=
  bool_decide (fp_Path left = fp_Path right) && sameFileIdentity (fp_Identity left) (fp_Identity right) true
  && bool_decide (fp_SHA256 left = fp_SHA256 right).

(** ** Paths *)

Definition slash : ascii := "/"%char.

(** The text after the last slash, and the text before it. *)
Fixpoint after_slash (l : bytes) : bytes :=
  match l with
  | [] => []
  | c :: rest => if existsb (Ascii.eqb slash) l then after_slash rest else l
  end.
Definition before_last (l : bytes) : bytes := take (List.length l - List.length (after_slash l) - 1) l.

Fixpoint strip_slashes (l : bytes) : bytes :=
  match l with c :: rest => if Ascii.eqb c slash then strip_slashes rest else l | [] => [] end.

(** [filepath.Base] *)
Definition Base (path : bytes) : bytes :=
  match path with
  | [] => ["."%char]
  | _ => match rev (strip_slashes (rev path)) with [] => [slash] | l => after_slash l end
  end.
(** [filepath.Dir] of a canonical absolute path. *)
Definition Dir (path : bytes) : bytes := match before_last path with [] => [slash] | l => l end.
(** [filepath.Join] of a canonical directory and a name. *)
Definition Join (directory name : bytes) : bytes :=
  if bool_decide (directory = [slash]) then slash :: name else directory ++ slash :: name.

Definition maximumPathBytes : Z := 4095.
Definition invalidPathRune (r : Z) : bool := (r <? 32) || (r =? 127).

Definition validateCanonicalStorePath (value : bytes) : bool :=
  negb (blen value =? 0) && (blen value <=? maximumPathBytes) && utf8_valid value
  && negb (existsb invalidPathRune (runes value)) && is_abs value && bool_decide (clean_rooted value = value).

(** ** The journal *)

Inductive PathRole :=
| RoleWorkingDirectory | RoleConfiguration | RoleStorage | RoleDotenv | RoleWebroot | RoleWorkspace
| RoleCloudCredential | RoleCloudHelper | RoleCloudDirectory.
#[export] Instance PathRole_eq_dec : EqDecision PathRole.
Proof. solve_decision. Defined.

(** [NoSource] is the empty text. *)
Inductive ConfigurationSource := ConfigurationExplicit | ConfigurationConventionalYML | ConfigurationConventionalYAML | NoSource.
#[export] Instance ConfigurationSource_eq_dec : EqDecision ConfigurationSource.
Proof. solve_decision. Defined.

Inductive JournalPhase := JournalStaging | JournalPrepared | JournalReplacing | JournalFinalizing.
#[export] Instance JournalPhase_eq_dec : EqDecision JournalPhase.
Proof. solve_decision. Defined.
Definition journalPhaseOrder (phase : JournalPhase) : Z :=
  match phase with JournalStaging => 0 | JournalPrepared => 1 | JournalReplacing => 2 | JournalFinalizing => 3 end.

Record JournalFile := mk_journal_file {
  Ordinal : Z;
  jf_Role : PathRole;
  TargetPath : bytes;
  ParentPath : bytes;
  StageBasename : bytes;
  Original : FileIdentity;
  Parent : FileIdentity;
  CandidateReady : bool;
  Candidate : FileIdentity;
  Applied : bool;
}.

Record Journal := mk_journal {
  TransactionID : bytes;
  Phase : JournalPhase;
  WorkingDirectory : bytes;
  ConfigurationPath : bytes;
  Bootstrap : bool;
  j_ConfigurationSource : ConfigurationSource;
  CreatedAt : time;
  Files : list JournalFile;
}.

Definition maximumEditFiles : Z := 257.
Definition maximumStoreYear : Z := 9999.

Definition validTransactionID (value : bytes) : bool :=
  (blen value =? 32) && forallb is_hex value && forallb (fun c => negb (is_upper_ascii c)) value.

Definition validateStoreTime (t : time) : bool :=
  negb (is_zero t) && t_utc t && (1 <=? year_of t) && (year_of t <=? maximumStoreYear) && negb (t_mono t).

Definition stage_prefix (id : bytes) : bytes := to_bytes ".acmemux-edit-" ++ id ++ ["-"%char].

(** What the loop over the files has seen. *)
Record seen_files := mk_seen { seen_paths : list bytes; seen_stages : list bytes; configuration_count : Z }.

Definition validate_file (euid : Z) (j : Journal) (s : seen_files) (index : Z) (f : JournalFile) : result string seen_files :=
  _ ← reject_if (negb (Ordinal f =? index) || (negb (bool_decide (jf_Role f = RoleConfiguration)) && negb (bool_decide (jf_Role f = RoleDotenv))))
        "journal file order or role is invalid"%string;
  let configuration := bool_decide (jf_Role f = RoleConfiguration) in
  _ ← reject_if (configuration && negb (bool_decide (TargetPath f = ConfigurationPath j))) "journal configuration path changed"%string;
  _ ← reject_if (negb (validateCanonicalStorePath (TargetPath f)) || negb (bool_decide (Dir (TargetPath f) = ParentPath f)))
        "journal target path is invalid"%string;
  _ ← reject_if (negb (bool_decide (Base (StageBasename f) = StageBasename f))
                 || negb (bool_decide (stage_prefix (TransactionID j) `prefix_of` StageBasename f)))
        "journal staging name is invalid"%string;
  _ ← reject_if (bool_decide (TargetPath f ∈ seen_paths s)) "journal target path is duplicated"%string;
  let stage := Join (ParentPath f) (StageBasename f) in
  _ ← reject_if (bool_decide (stage ∈ seen_stages s)) "journal staging path is duplicated"%string;
  _ ← reject_if (negb (Exists (Parent f)) || (Device (Parent f) =? 0) || (Inode (Parent f) =? 0)) "journal parent identity is invalid"%string;
  _ ← reject_if (Exists (Original f) && negb (validOriginalIdentity (Original f))) "journal original identity is invalid"%string;
  _ ← reject_if (negb (Exists (Original f)) && negb (zeroMissingIdentity (Original f))) "journal missing identity is invalid"%string;
  _ ← reject_if (Bootstrap j && Exists (Original f)) "bootstrap journal target already existed"%string;
  _ ← reject_if (negb (Bool.eqb (CandidateReady f) (Exists (Candidate f))) || (CandidateReady f && negb (validCandidateIdentity euid (Candidate f))))
        "journal candidate identity is invalid"%string;
  _ ← reject_if ((negb (CandidateReady f) && negb (zeroMissingIdentity (Candidate f))) || (Applied f && negb (CandidateReady f)))
        "journal candidate state is invalid"%string;
  Ok (mk_seen (TargetPath f :: seen_paths s) (stage :: seen_stages s) (configuration_count s + if configuration then 1 else 0)).

Fixpoint validate_files (euid : Z) (j : Journal) (s : seen_files) (index : Z) (l : list JournalFile) : result string seen_files :=
  match l with
  | [] => Ok s
  | f :: l => s ← validate_file euid j s index f; validate_files euid j s (index + 1) l
  end.

Definition validateJournal (euid : Z) (j : Journal) : result string unit :=
  _ ← reject_if (negb (validTransactionID (TransactionID j))) "journal identity or phase is invalid"%string;
  _ ← reject_if (negb (validateCanonicalStorePath (WorkingDirectory j))) "journal working directory is invalid"%string;
  _ ← reject_if (negb (validateCanonicalStorePath (ConfigurationPath j))) "journal configuration path is invalid"%string;
  _ ← reject_if (Bootstrap j && bool_decide (j_ConfigurationSource j = NoSource)) "bootstrap journal configuration source is invalid"%string;
  _ ← reject_if (negb (validateStoreTime (CreatedAt j))) "journal creation time is invalid"%string;
  _ ← reject_if ((blen (Files j) =? 0) || (maximumEditFiles <? blen (Files j))) "journal file count is invalid"%string;
  s ← validate_files euid j (mk_seen [] [] 0) 0 (Files j);
  reject_if ((1 <? configuration_count s) || (Bootstrap j && negb (configuration_count s =? 1)))
    "journal contains multiple configuration targets"%string.

(** ** Recovery *)

Inductive RecoveryState := RecoveryUnapplied | RecoveryPartial | RecoveryApplied | RecoveryAmbiguous.
#[export] Instance RecoveryState_eq_dec : EqDecision RecoveryState.
Proof. solve_decision. Defined.
Inductive RecoveryFileState := RecoveryFileUnstaged | RecoveryFileUnapplied | RecoveryFileApplied | RecoveryFileAmbiguous.
#[export] Instance RecoveryFileState_eq_dec : EqDecision RecoveryFileState.
Proof. solve_decision. Defined.

Record RecoveryFile := mk_recovery_file { rf_Ordinal : Z; rf_Role : PathRole; rf_Path : bytes; rf_State : RecoveryFileState }.
Record Recovery := mk_recovery {
  r_TransactionID : bytes;
  r_WorkingDirectory : bytes;
  r_ConfigurationPath : bytes;
  r_Bootstrap : bool;
  r_Phase : JournalPhase;
  r_State : RecoveryState;
  r_Files : list RecoveryFile;
}.

Inductive RecoveryResolution := ResolutionDiscardUnapplied | ResolutionFinalizeApplied | ResolutionAdoptCurrent | ResolutionOther.
