(* ===== verification/WsJournal.v ===== *)
(** The durable journal of native edits: the tables of
    state/migrations/006_native_edits.sql and 007_workspace_bootstrap.sql and
    every method of [JournalStore] in internal/workspace/journal.go.  The
    reviewed selection shares the database; its rows belong to store.go and
    are one value here. *)
From S2P Require Import Prelude.
From S2P Require Import GoText.
From S2P Require Import GoTime.
From S2P Require Import GoDecode.
From S2P Require Import Effects.
From S2P Require Import WsTypes.

#[local] Open Scope Z_scope.

(** ** Tables *)

(** workspace_edit_journal; the singleton key is always 1 and is left out. *)
Record HeaderRow := mk_header {
  h_transaction_id : bytes;
  h_phase : JournalPhase;
  h_working_directory : bytes;
  h_configuration_path : bytes;
  h_created_at_utc : bytes;
  h_bootstrap : Z;
  h_configuration_source : ConfigurationSource;
}.

(** The columns of an identity in workspace_edit_journal_file. *)
Record IdentityColumns := mk_columns {
  c_device_decimal : bytes;
  c_inode_decimal : bytes;
  c_mode : Z;
  c_uid : Z;
  c_gid : Z;
  c_nlink_decimal : bytes;
  c_size_bytes : Z;
  c_modified_at_utc : bytes;
  c_changed_at_utc : bytes;
}.

(** workspace_edit_journal_file; the journal key is always 1. *)
Record FileRow := mk_file_row {
  c_file_ordinal : Z;
  c_role : PathRole;
  c_target_path : bytes;
  c_parent_path : bytes;
  c_stage_basename : bytes;
  c_target_existed : Z;
  c_parent_device_decimal : bytes;
  c_parent_inode_decimal : bytes;
  c_original : IdentityColumns;
  c_candidate_ready : Z;
  c_candidate : IdentityColumns;
  c_applied : Z;
}.

Definition decimal_check (l : bytes) : bool := (1 <=? blen l) && (blen l <=? 20) && forallb is_digit l.
Definition uint32_check (n : Z) : bool := (0 <=? n) && (n <=? 4294967295).
Definition bit_check (n : Z) : bool := (n =? 0) || (n =? 1).
Definition stamp_check (l : bytes) : bool := (blen l =? 0) || ((20 <=? blen l) && (blen l <=? 30)).
Definition path_check (l : bytes) : bool := (1 <=? blen l) && (blen l <=? 4095).

Definition columns_check (c : IdentityColumns) : bool :=
  decimal_check (c_device_decimal c) && decimal_check (c_inode_decimal c) && uint32_check (c_mode c) && uint32_check (c_uid c)
  && uint32_check (c_gid c) && decimal_check (c_nlink_decimal c) && (0 <=? c_size_bytes c)
  && stamp_check (c_modified_at_utc c) && stamp_check (c_changed_at_utc c).

(** [instr(stage_basename, '/') = 0] and the length bound count characters of
    a text without multi-byte ones. *)
Definition file_check (r : FileRow) : bool :=
  (0 <=? c_file_ordinal r) && (c_file_ordinal r <=? 256)
  && (bool_decide (c_role r = RoleConfiguration) || bool_decide (c_role r = RoleDotenv))
  && path_check (c_target_path r) && path_check (c_parent_path r)
  && (1 <=? rune_count (c_stage_basename r)) && (rune_count (c_stage_basename r) <=? 128)
  && negb (existsb (Ascii.eqb slash) (c_stage_basename r))
  && bit_check (c_target_existed r) && decimal_check (c_parent_device_decimal r) && decimal_check (c_parent_inode_decimal r)
  && columns_check (c_original r) && bit_check (c_candidate_ready r) && columns_check (c_candidate r) && bit_check (c_applied r).

Definition header_check (r : HeaderRow) : bool :=
  (rune_count (h_transaction_id r) =? 32) && forallb (fun c => is_digit c || in_range "a" "f" c) (h_transaction_id r)
  && path_check (h_working_directory r) && path_check (h_configuration_path r)
  && (20 <=? rune_count (h_created_at_utc r)) && (rune_count (h_created_at_utc r) <=? 30) && bit_check (h_bootstrap r).

Section Store.
Context {Selection : Type} (euid : Z).

Record Db := mk_db {
  edit_journal : option HeaderRow;
  edit_journal_file : list FileRow;
  selection : option Selection;
}.

Abbreviation JStore := (M (world Db) WsError).
Abbreviation JTx := (M (txn Db) WsError).
#[local] Instance ws_db_error : DbError WsError := Failure.

Definition set_journal (h : option HeaderRow) (files : list FileRow) (d : Db) : Db := mk_db h files (selection d).

(** ** Statements *)

Definition insert_header (r : HeaderRow) (d : Db) : option (unit * Db) :=
  match edit_journal d with
  | Some _ => None
  | None => if header_check r then Some (tt, set_journal (Some r) (edit_journal_file d) d) else None
  end.

(** The primary key and the two unique constraints; the row refers to the
    header. *)
Definition file_fresh (r : FileRow) (rows : list FileRow) : bool :=
  forallb (fun o => negb (c_file_ordinal o =? c_file_ordinal r) && negb (bool_decide (c_target_path o = c_target_path r))
                    && negb (bool_decide (c_parent_path o = c_parent_path r) && bool_decide (c_stage_basename o = c_stage_basename r))) rows.
Definition insert_file (r : FileRow) (d : Db) : option (unit * Db) :=
  match edit_journal d with
  | None => None
  | Some h => if file_check r && file_fresh r (edit_journal_file d)
              then Some (tt, set_journal (Some h) (edit_journal_file d ++ [r]) d) else None
  end.

Definition by_ordinal (a b : FileRow) : bool := c_file_ordinal a <=? c_file_ordinal b.
Definition select_files (d : Db) : list FileRow := sort_by by_ordinal (edit_journal_file d).

Definition update_header (where_ : HeaderRow -> bool) (set_ : HeaderRow -> HeaderRow) (d : Db) : option (Z * Db) :=
  match edit_journal d with
  | Some h => if where_ h then if header_check (set_ h) then Some (1, set_journal (Some (set_ h)) (edit_journal_file d) d) else None
              else Some (0, d)
  | None => Some (0, d)
  end.

(** [EXISTS (SELECT 1 FROM workspace_edit_journal WHERE transaction_id = ?)] *)
Definition journal_is (id : bytes) (d : Db) : bool :=
  match edit_journal d with Some h => bool_decide (h_transaction_id h = id) | None => false end.

Definition update_files (where_ : FileRow -> bool) (set_ : FileRow -> FileRow) (d : Db) : option (Z * Db) :=
  let rows := (fun r => if where_ r then set_ r else r) <$> edit_journal_file d in
  if forallb file_check rows
  then Some (blen (List.filter where_ (edit_journal_file d)), set_journal (edit_journal d) rows d)
  else None.

(** The files go with their journal. *)
Definition delete_journal (id : bytes) (d : Db) : option (Z * Db) :=
  if journal_is id d then Some (1, set_journal None [] d) else Some (0, d).

(** ** Rows *)

Definition boolInteger (b : bool) : Z := if b then 1 else 0.
Definition formatStoreTime (t : time) : bytes := format_rfc3339 t.
Definition formatOptionalTime (t : time) : bytes := if is_zero t then [] else formatStoreTime t.

Definition columns (format : time -> bytes) (i : FileIdentity) : IdentityColumns :=
  mk_columns (itoa (Device i)) (itoa (Inode i)) (Mode i) (UID i) (GID i) (itoa (NLink i)) (Size i)
    (format (ModifiedAt i)) (format (ChangedAt i)).
(** The defaults of the candidate columns. *)
Definition no_columns : IdentityColumns := mk_columns ["0"%char] ["0"%char] 0 0 0 ["0"%char] 0 [] [].

Definition header_row (j : Journal) : HeaderRow :=
  mk_header (TransactionID j) (Phase j) (WorkingDirectory j) (ConfigurationPath j) (formatStoreTime (CreatedAt j))
    (boolInteger (Bootstrap j)) (j_ConfigurationSource j).
Definition inserted_row (f : JournalFile) : FileRow :=
  mk_file_row (Ordinal f) (jf_Role f) (TargetPath f) (ParentPath f) (StageBasename f) (boolInteger (Exists (Original f)))
    (itoa (Device (Parent f))) (itoa (Inode (Parent f))) (columns formatOptionalTime (Original f)) 0 no_columns 0.

Definition parseStoreTime (value : bytes) : result WsError time :=
  match parse_rfc3339 value with
  | Some t => if t_utc t && bool_decide (format_rfc3339 t = value) && validateStoreTime t then Ok t
              else Err (Failure "timestamp is not canonical")
  | None => Err (Failure "timestamp is not canonical")
  end.
Definition canonicalUint64 (value : bytes) : result WsError Z :=
  match parse_uint 64 value with
  | Some n => if bool_decide (itoa n = value) then Ok n else Err (Failure "not canonical unsigned decimal")
  | None => Err (Failure "not canonical unsigned decimal")
  end.
Definition storedBoolean (value : Z) : result WsError bool :=
  if value =? 0 then Ok false else if value =? 1 then Ok true else Err (Failure "is not Boolean").

(** [uint32(value)] *)
Definition uint32 (n : Z) : Z := n mod 2 ^ 32.

Definition persistedIdentity (exists_ : bool) (c : IdentityColumns) : result WsError FileIdentity :=
  device ← canonicalUint64 (c_device_decimal c);
  inode ← canonicalUint64 (c_inode_decimal c);
  nlink ← canonicalUint64 (c_nlink_decimal c);
  let identity := mk_identity exists_ device inode (uint32 (c_mode c)) (uint32 (c_uid c)) (uint32 (c_gid c)) nlink (c_size_bytes c) in
  if negb exists_ then
    if negb (blen (c_modified_at_utc c) =? 0) || negb (blen (c_changed_at_utc c) =? 0)
    then Err (Failure "missing identity contains timestamps") else Ok (identity zero_time zero_time)
  else
    modified ← parseStoreTime (c_modified_at_utc c);
    changed ← parseStoreTime (c_changed_at_utc c);
    Ok (identity modified changed).

Definition persisted_file (r : FileRow) : result WsError JournalFile :=
  parentDevice ← canonicalUint64 (c_parent_device_decimal r);
  parentInode ← canonicalUint64 (c_parent_inode_decimal r);
  let parent := mk_identity true parentDevice parentInode 0 0 0 0 0 zero_time zero_time in
  existed ← storedBoolean (c_target_existed r);
  original ← persistedIdentity existed (c_original r);
  ready ← storedBoolean (c_candidate_ready r);
  candidate ← persistedIdentity ready (c_candidate r);
  applied ← storedBoolean (c_applied r);
  Ok (mk_journal_file (c_file_ordinal r) (c_role r) (c_target_path r) (c_parent_path r) (c_stage_basename r)
        original parent ready candidate applied).

(** ** The methods *)

Definition invalid_edit : WsError := ErrInvalidEdit.

Definition Create (j : Journal) : JStore unit :=
  _ ← lift (reject_if (is_err (validateJournal euid j)) invalid_edit);
  transaction "begin native edit journal" (
    _ ← statement "create native edit journal" (insert_header (header_row j));
    _ ← for_each_m (fun f => statement "create native edit journal file" (insert_file (inserted_row f))) (Files j);
    commit "commit native edit journal").

(** The rows in order, each with the next ordinal, at most
    [maximumEditFiles]. *)
Fixpoint load_files (index : Z) (rows : list FileRow) : result WsError (list JournalFile) :=
  match rows with
  | [] => Ok []
  | r :: rows =>
      _ ← reject_if (maximumEditFiles <=? index) (Failure "native edit journal contains too many files");
      _ ← reject_if (negb (c_file_ordinal r =? index)) (Failure "native edit journal file ordinals are invalid");
      f ← persisted_file r;
      rest ← load_files (index + 1) rows;
      Ok (f :: rest)
  end.

Definition Load : JStore Journal :=
  transaction "begin native edit journal load" (
    header ← query "load native edit journal" edit_journal;
    match header with
    | None => fail ErrNoEditJournal
    | Some h =>
        createdAt ← lift (parseStoreTime (h_created_at_utc h));
        bootstrap ← lift (storedBoolean (h_bootstrap h));
        rows ← query "query native edit journal files" select_files;
        files ← lift (load_files 0 rows);
        let j := mk_journal (h_transaction_id h) (h_phase h) (h_working_directory h) (h_configuration_path h) bootstrap
                   (h_configuration_source h) createdAt files in
        _ ← lift (reject_if (is_err (validateJournal euid j)) (Failure "invalid persisted native edit journal"));
        _ ← commit "finish native edit journal load";
        mret j
    end).

Definition requireOneRow (affected : Z) : result WsError unit :=
  reject_if (negb (affected =? 1)) (Failure "changed concurrently").

(** [store.exec]: one statement in a transaction of its own. *)
Definition exec (what : string) (f : Db -> option (Z * Db)) : JStore Z :=
  transaction what (affected ← statement what f; _ ← commit what; mret affected).

Definition set_phase (phase : JournalPhase) (h : HeaderRow) : HeaderRow :=
  mk_header (h_transaction_id h) phase (h_working_directory h) (h_configuration_path h) (h_created_at_utc h) (h_bootstrap h)
    (h_configuration_source h).

Definition SetPhase (id : bytes) (phase : JournalPhase) : JStore unit :=
  _ ← lift (reject_if (negb (validTransactionID id)) invalid_edit);
  j ← Load;
  _ ← lift (reject_if (negb (bool_decide (TransactionID j = id)) || (journalPhaseOrder phase <? journalPhaseOrder (Phase j))) ErrSourceChanged);
  affected ← exec "update native edit journal phase" (update_header (fun h => bool_decide (h_transaction_id h = id)) (set_phase phase));
  lift (requireOneRow affected).

Definition set_candidate (i : FileIdentity) (r : FileRow) : FileRow :=
  mk_file_row (c_file_ordinal r) (c_role r) (c_target_path r) (c_parent_path r) (c_stage_basename r) (c_target_existed r)
    (c_parent_device_decimal r) (c_parent_inode_decimal r) (c_original r) 1 (columns formatStoreTime i) (c_applied r).

(** An update of the file rows of the journal with the given identifier. *)
Definition update_journal_files (id : bytes) (where_ : FileRow -> bool) (set_ : FileRow -> FileRow) (d : Db) : option (Z * Db) :=
  update_files (fun r => where_ r && journal_is id d) set_ d.

Definition MarkCandidate (id : bytes) (ordinal : Z) (i : FileIdentity) : JStore unit :=
  _ ← lift (reject_if (negb (validTransactionID id) || (ordinal <? 0) || (maximumEditFiles <=? ordinal)
                       || negb (validCandidateIdentity euid i)) invalid_edit);
  affected ← exec "record staged native edit candidate"
    (update_journal_files id (fun r => c_file_ordinal r =? ordinal) (set_candidate i));
  lift (requireOneRow affected).

Definition set_placement (candidate original : FileIdentity) (applied : bool) (r : FileRow) : FileRow :=
  mk_file_row (c_file_ordinal r) (c_role r) (c_target_path r) (c_parent_path r) (c_stage_basename r) (c_target_existed r)
    (c_parent_device_decimal r) (c_parent_inode_decimal r) (columns formatOptionalTime original) (c_candidate_ready r)
    (columns formatStoreTime candidate) (boolInteger applied).

Definition recordPlacement (id : bytes) (ordinal : Z) (candidate original : FileIdentity) (applied : bool) : JStore unit :=
  _ ← lift (reject_if (negb (validTransactionID id) || (ordinal <? 0) || (maximumEditFiles <=? ordinal)) invalid_edit);
  _ ← lift (reject_if (negb (validCandidateIdentity euid candidate) || (Exists original && negb (validOriginalIdentity original))
                       || (negb (Exists original) && negb (zeroMissingIdentity original))) invalid_edit);
  affected ← exec "record native edit placement"
    (update_journal_files id (fun r => (c_file_ordinal r =? ordinal) && (c_candidate_ready r =? 1)) (set_placement candidate original applied));
  lift (requireOneRow affected).

Definition MarkPlacement (id : bytes) (ordinal : Z) (candidate original : FileIdentity) : JStore unit :=
  recordPlacement id ordinal candidate original false.
Definition MarkApplied (id : bytes) (ordinal : Z) (candidate original : FileIdentity) : JStore unit :=
  recordPlacement id ordinal candidate original true.

Definition Clear (id : bytes) : JStore unit :=
  _ ← lift (reject_if (negb (validTransactionID id)) invalid_edit);
  affected ← exec "clear native edit journal" (delete_journal id);
  lift (requireOneRow affected).
End Store.
Arguments Db : clear implicits.
