(* ===== verification/WsDisk.v ===== *)
(** The file system as the native edits see it, and computations on it that
    may be stopped at any call.

    A directory keeps its entries and every state of them since it was last
    synchronized; a file knows whether its bytes are synchronized.  A power
    loss leaves of each directory one of those states, and of an
    unsynchronized file arbitrary bytes ([power_loss]).  [X] is a computation
    of one process: before each system or database call other processes may
    act, and the schedule lets the call proceed, fail, or stops the process. *)
From stdpp Require Import gmap.
From S2P Require Import Prelude.
From S2P Require Import GoTime.
From S2P Require Import Effects.
From S2P Require Import WsTypes.
From S2P Require Import WsJournal.

#[local] Open Scope Z_scope.

(** ** The disk *)

Record inode := mk_inode {
  i_mode : Z; i_uid : Z; i_gid : Z; i_nlink : Z; i_mtime : Z; i_ctime : Z;
  i_content : bytes;
  i_synced : bool;
}.
Record directory := mk_directory {
  d_mode : Z; d_uid : Z; d_gid : Z; d_nlink : Z; d_size : Z; d_mtime : Z; d_ctime : Z;
  d_entries : gmap bytes Z;
  d_versions : list (gmap bytes Z);
}.
(** Inode numbers below [dk_next] were given out. *)
Record disk := mk_disk {
  dk_device : Z;
  dk_root : Z;
  dk_next : Z;
  dk_files : gmap Z inode;
  dk_dirs : gmap Z directory;
}.

Definition with_file (i : Z) (f : inode) (d : disk) : disk :=
  mk_disk (dk_device d) (dk_root d) (dk_next d) (<[i := f]> (dk_files d)) (dk_dirs d).
Definition with_dir (h : Z) (n : directory) (d : disk) : disk :=
  mk_disk (dk_device d) (dk_root d) (dk_next d) (dk_files d) (<[h := n]> (dk_dirs d)).

Definition file_identity (d : disk) (i : Z) (f : inode) : FileIdentity :=
  mk_identity true (dk_device d) i (i_mode f) (i_uid f) (i_gid f) (i_nlink f) (blen (i_content f))
    (unix_utc (i_mtime f)) (unix_utc (i_ctime f)).
Definition dir_identity (d : disk) (h : Z) (n : directory) : FileIdentity :=
  mk_identity true (dk_device d) h (d_mode n) (d_uid n) (d_gid n) (d_nlink n) (d_size n)
    (unix_utc (d_mtime n)) (unix_utc (d_ctime n)).
(** [fstat] *)
Definition stat_of (d : disk) (i : Z) : option FileIdentity :=
  match dk_files d !! i with
  | Some f => Some (file_identity d i f)
  | None => dir_identity d i <$> dk_dirs d !! i
  end.
Definition entry_of (d : disk) (h : Z) (name : bytes) : option Z := n ← dk_dirs d !! h; d_entries n !! name.

(** The bytes a name of a directory leads to. *)
Definition content_at (d : disk) (h : Z) (name : bytes) : option bytes := i ← entry_of d h name; i_content <$> dk_files d !! i.

(** The directory a canonical path leads to, not through symbolic links. *)
Fixpoint walk (d : disk) (h : Z) (parts : list bytes) : option Z :=
  match parts with
  | [] => Some h
  | [] :: parts => walk d h parts
  | name :: parts => next ← entry_of d h name; walk d next parts
  end.
Definition resolve (d : disk) (path : bytes) : option Z := walk d (dk_root d) (GoText.split_on slash path).

Definition power_loss (d d' : disk) : Prop :=
  dk_device d' = dk_device d /\ dk_root d' = dk_root d /\ dk_next d' = dk_next d /\
  (forall h n, dk_dirs d !! h = Some n ->
     exists n', dk_dirs d' !! h = Some n' /\ d_entries n' ∈ d_versions n) /\
  (forall i f, dk_files d !! i = Some f ->
     exists f', dk_files d' !! i = Some f' /\ (i_synced f = true -> i_content f' = i_content f)).

(** ** System calls

    Each takes the time and returns its result and the disk after it. *)

Definition errno {A} (d : disk) : result WsError A * disk := (Err (Failure "system call failed"), d).

Definition sys_fstatat (h : Z) (name : bytes) (d : disk) : result WsError (option FileIdentity) * disk :=
  match dk_dirs d !! h with
  | None => errno d
  | Some n =>
      match d_entries n !! name with
      | None => (Ok None, d)
      | Some i => match stat_of d i with Some s => (Ok (Some s), d) | None => errno d end
      end
  end.
Definition sys_fstat (i : Z) (d : disk) : result WsError FileIdentity * disk :=
  match stat_of d i with Some s => (Ok s, d) | None => errno d end.

(** [openat] without following a final symbolic link: the inode. *)
Definition sys_open (h : Z) (name : bytes) (d : disk) : result WsError Z * disk :=
  match entry_of d h name with
  | Some i => match dk_files d !! i with
              | Some f => if Z.land (i_mode f) S_IFMT =? S_IFLNK then errno d else (Ok i, d)
              | None => (Ok i, d)
              end
  | None => errno d
  end.
Definition sys_open_dir (path : bytes) (d : disk) : result WsError Z * disk :=
  match resolve d path with
  | Some h => match dk_dirs d !! h with Some _ => (Ok h, d) | None => errno d end
  | None => errno d
  end.
Definition sys_read (i limit : Z) (d : disk) : result WsError bytes * disk :=
  match dk_files d !! i with Some f => (Ok (take (Z.to_nat limit) (i_content f)), d) | None => errno d end.

(** The entries of a directory change: a new state that may or may not
    survive a power loss. *)
Definition set_entries (now h : Z) (n : directory) (e : gmap bytes Z) (d : disk) : disk :=
  with_dir h (mk_directory (d_mode n) (d_uid n) (d_gid n) (d_nlink n) (d_size n) now now e (d_versions n ++ [e])) d.

Definition touched (now : Z) (f : inode) : inode :=
  mk_inode (i_mode f) (i_uid f) (i_gid f) (i_nlink f) (i_mtime f) now (i_content f) (i_synced f).
Definition touch_inode (now i : Z) (d : disk) : disk :=
  match dk_files d !! i with Some f => with_file i (touched now f) d | None => d end.

(** [O_CREAT|O_EXCL], mode 0600. *)
Definition sys_create (uid gid : Z) (h : Z) (name : bytes) (now : Z) (d : disk) : result WsError Z * disk :=
  match dk_dirs d !! h with
  | None => errno d
  | Some n =>
      match d_entries n !! name with
      | Some _ => errno d
      | None =>
          let i := dk_next d in
          let d' := mk_disk (dk_device d) (dk_root d) (i + 1)
                      (<[i := mk_inode (S_IFREG + 384) uid gid 1 now now [] false]> (dk_files d)) (dk_dirs d) in
          (Ok i, set_entries now h n (<[name := i]> (d_entries n)) d')
      end
  end.

Definition update_inode {A} (a : A) (i : Z) (g : inode -> inode) (d : disk) : result WsError A * disk :=
  match dk_files d !! i with Some f => (Ok a, with_file i (g f) d) | None => errno d end.

Definition sys_fchmod (i permissions now : Z) (d : disk) : result WsError unit * disk :=
  update_inode tt i (fun f => mk_inode (Z.lor (Z.land (i_mode f) S_IFMT) permissions) (i_uid f) (i_gid f) (i_nlink f)
                                (i_mtime f) now (i_content f) (i_synced f)) d.
Definition sys_write (i : Z) (data : bytes) (now : Z) (d : disk) : result WsError unit * disk :=
  update_inode tt i (fun f => mk_inode (i_mode f) (i_uid f) (i_gid f) (i_nlink f) now now (i_content f ++ data) false) d.
Definition sys_ftruncate (i now : Z) (d : disk) : result WsError unit * disk :=
  update_inode tt i (fun f => mk_inode (i_mode f) (i_uid f) (i_gid f) (i_nlink f) now now [] false) d.
Definition sys_fsync (i : Z) (d : disk) : result WsError unit * disk :=
  update_inode tt i (fun f => mk_inode (i_mode f) (i_uid f) (i_gid f) (i_nlink f) (i_mtime f) (i_ctime f) (i_content f) true) d.
Definition sys_fsync_dir (h : Z) (d : disk) : result WsError unit * disk :=
  match dk_dirs d !! h with
  | None => errno d
  | Some n => (Ok tt, with_dir h (mk_directory (d_mode n) (d_uid n) (d_gid n) (d_nlink n) (d_size n) (d_mtime n) (d_ctime n)
                                    (d_entries n) [d_entries n]) d)
  end.

(** [renameat2] within a directory: [RENAME_EXCHANGE] and
    [RENAME_NOREPLACE].  A renamed file gets a new change time. *)
Definition sys_exchange (h : Z) (a b : bytes) (now : Z) (d : disk) : result WsError unit * disk :=
  match dk_dirs d !! h with
  | None => errno d
  | Some n =>
      match d_entries n !! a, d_entries n !! b with
      | Some i, Some j =>
          (Ok tt, touch_inode now i (touch_inode now j (set_entries now h n (<[a := j]> (<[b := i]> (d_entries n))) d)))
      | _, _ => errno d
      end
  end.
Definition sys_move (h : Z) (a b : bytes) (now : Z) (d : disk) : result WsError unit * disk :=
  match dk_dirs d !! h with
  | None => errno d
  | Some n =>
      match d_entries n !! a, d_entries n !! b with
      | Some i, None => (Ok tt, touch_inode now i (set_entries now h n (<[b := i]> (delete a (d_entries n))) d))
      | _, _ => errno d
      end
  end.
Definition unlinked (now : Z) (f : inode) : inode :=
  mk_inode (i_mode f) (i_uid f) (i_gid f) (i_nlink f - 1) (i_mtime f) now (i_content f) (i_synced f).
Definition sys_unlink (h : Z) (name : bytes) (now : Z) (d : disk) : result WsError unit * disk :=
  match dk_dirs d !! h with
  | None => errno d
  | Some n =>
      match d_entries n !! name with
      | None => errno d
      | Some i =>
          match dk_files d !! i with
          | None => errno d
          | Some f => (Ok tt, with_file i (unlinked now f) (set_entries now h n (delete name (d_entries n)) d))
          end
      end
  end.

(** ** Computations *)

(** What happens to a call: it proceeds, fails (a write after some bytes), or
    the process is stopped before it. *)
Inductive event := Proceed | Fault (written : nat) | Crash.

(** The outside of a computation. *)
Class Machine := {
  plan : nat -> event;
  others : nat -> disk -> disk;
  clock : nat -> Z;
  service_uid : Z;
  service_gid : Z;
  sha256 : bytes -> bytes;
}.

Section Computations.
Context {Selection : Type} `{Machine}.

Record sys := mk_sys { s_disk : disk; s_db : world (Db Selection); s_steps : nat }.

(** No result when the process was stopped. *)
Definition X (A : Type) : Type := sys -> option (result WsError A) * sys.
#[export] Instance X_ret : MRet X := fun A a s => (Some (Ok a), s).
#[export] Instance X_bind : MBind X := fun A B f m s =>
  match m s with
  | (Some (Ok a), s') => f a s'
  | (Some (Err e), s') => (Some (Err e), s')
  | (None, s') => (None, s')
  end.
Definition raise {A} (e : WsError) : X A := fun s => (Some (Err e), s).
Definition returning {A} (r : result WsError A) : X A := fun s => (Some r, s).
(** Run a call and hand its result to the code that follows. *)
Definition catch {A} (m : X A) : X (result WsError A) := fun s =>
  match m s with (Some r, s') => (Some (Ok r), s') | (None, s') => (None, s') end.
Definition guard_if (cond : bool) (e : WsError) : X unit := if cond then raise e else mret tt.
(** Rewrite the error of a call. *)
Definition mapping {A} (f : WsError -> WsError) (m : X A) : X A := fun s =>
  match m s with (Some (Err e), s') => (Some (Err (f e)), s') | o => o end.

Fixpoint for_each_x {A} (f : A -> X unit) (l : list A) : X unit :=
  match l with [] => mret tt | a :: l => _ ← f a; for_each_x f l end.

(** A call on the disk; [broken] is its effect when it fails. *)
Definition call {A} (broken : Z -> nat -> disk -> disk) (run : Z -> disk -> result WsError A * disk) : X A := fun s =>
  let d := others (s_steps s) (s_disk s) in
  let n := Datatypes.S (s_steps s) in
  match plan (s_steps s) with
  | Crash => (None, mk_sys d (s_db s) n)
  | Fault k => (Some (Err (Failure "system call failed")), mk_sys (broken (clock (s_steps s)) k d) (s_db s) n)
  | Proceed => let '(r, d') := run (clock (s_steps s)) d in (Some r, mk_sys d' (s_db s) n)
  end.
Definition syscall {A} (run : Z -> disk -> result WsError A * disk) : X A := call (fun _ _ d => d) run.
(** A call that only looks. *)
Definition look {A} (run : disk -> result WsError A * disk) : X A := syscall (fun _ => run).

(** A call on the database; its own faults are scheduled in the store. *)
Definition database {A} (m : M (world (Db Selection)) WsError A) : X A := fun s =>
  match plan (s_steps s) with
  | Crash => (None, mk_sys (s_disk s) (s_db s) (Datatypes.S (s_steps s)))
  | _ => let '(r, w) := m (s_db s) in (Some r, mk_sys (s_disk s) w (Datatypes.S (s_steps s)))
  end.

(** A point that can fail without doing anything: a cancelled context
    ([ctx.Err()]), a close, an injected failure. *)
Definition checkpoint : X unit := look (fun d => (Ok tt, d)).

Definition now_utc : X time := fun s => (Some (Ok (unix_utc (clock (s_steps s)))), mk_sys (s_disk s) (s_db s) (Datatypes.S (s_steps s))).

(** A write that fails may have written some of the bytes. *)
Definition write_all (i : Z) (data : bytes) : X unit :=
  call (fun now k d => (sys_write i (take k data) now d).2) (sys_write i data).
End Computations.
