(* ===== verification/WsAudit.v ===== *)
(** Path auditing: internal/workspace/types.go and audit_linux.go.  A path is
    walked from the root one component at a time without following symbolic
    links; the evidence records what was seen and the diagnostics say why it
    is not acceptable.  A [stat] result is a [FileIdentity]. *)
From stdpp Require Import gmap.
From S2P Require Import Prelude.
From S2P Require Import GoText.
From S2P Require Import GoTime.
From S2P Require Import WsTypes.
From S2P Require Import WsJournal.
From S2P Require Import WsDisk.

#[local] Open Scope Z_scope.

(** ** Types *)

Inductive ErrorCode :=
| CodeInvalidPolicy | CodeContextRequired | CodePathRequired | CodePathNotAbsolute | CodePathNotCanonical | CodePathTooLong
| CodePathTooDeep | CodePathMissing | CodePathUnavailable | CodeSymlinkNotAllowed | CodeComponentNotDirectory | CodePathTypeUnsafe
| CodePathOwnerUntrusted | CodePathPermissionsUnsafe | CodePathHardlinkUnsafe | CodePathNotReadable | CodePathReadOnly
| CodePathNotSearchable | CodeConfigurationMissing | CodeConfigurationPrecedence | CodeConfigurationTooLarge
| CodeConfigurationMalformed | CodeConfigurationDuplicateKey | CodeConfigurationTooComplex | CodeConfigurationReferenceInvalid
| CodeChangedDuringInspection | CodeInspectionCanceled | CodeReviewEvidenceChanged | CodeReviewEvidenceLimit.
#[export] Instance ErrorCode_eq_dec : EqDecision ErrorCode.
Proof. solve_decision. Defined.

Record Policy := mk_policy {
  EffectiveUID : Z;
  EffectiveGIDs : list Z;
  MaxConfigurationBytes : Z;
  MaxReferencedPaths : Z;
  trustedRootUID : Z;
}.

Inductive PathType := PathTypeUnknown | PathTypeMissing | PathTypeDirectory | PathTypeRegular | PathTypeSymlink | PathTypeOther.
#[export] Instance PathType_eq_dec : EqDecision PathType.
Proof. solve_decision. Defined.

Record AccessEvidence := mk_access { Readable : bool; Writable : bool; Searchable : bool }.
#[export] Instance AccessEvidence_eq_dec : EqDecision AccessEvidence.
Proof. solve_decision. Defined.
Definition no_access : AccessEvidence := mk_access false false false.

Record ComponentEvidence := mk_component {
  ce_Path : bytes;
  ce_Type : PathType;
  ce_Device : Z;
  ce_Inode : Z;
  ce_Mode : Z;
  ce_UID : Z;
  ce_GID : Z;
  ce_NLink : Z;
  ce_Access : AccessEvidence;
}.
#[export] Instance ComponentEvidence_eq_dec : EqDecision ComponentEvidence.
Proof. solve_decision. Defined.

(** The fields from [Exists] to [ChangedAt] are the identity. *)
Record PathEvidence := mk_evidence {
  pe_Role : PathRole;
  pe_Reference : bytes;
  pe_Path : bytes;
  pe_Type : PathType;
  pe_Identity : FileIdentity;
  pe_Access : AccessEvidence;
  pe_Components : list ComponentEvidence;
  pe_Safe : bool;
}.
Definition pe_Exists (e : PathEvidence) : bool := Exists (pe_Identity e).

Inductive DiagnosticSeverity := SeverityBlocking | SeverityNotice.
#[export] Instance DiagnosticSeverity_eq_dec : EqDecision DiagnosticSeverity.
Proof. solve_decision. Defined.

Record Diagnostic := mk_diagnostic {
  dg_Code : ErrorCode;
  dg_Severity : DiagnosticSeverity;
  dg_Role : PathRole;
  dg_Path : bytes;
  dg_Component : bytes;
  dg_Detail : string;
}.
#[export] Instance Diagnostic_eq_dec : EqDecision Diagnostic.
Proof. solve_decision. Defined.

Definition diagnostic (code : ErrorCode) (role : PathRole) (path component : bytes) (detail : string) : Diagnostic :=
  mk_diagnostic code SeverityBlocking role path component detail.
Definition notice (code : ErrorCode) (role : PathRole) (path component : bytes) (detail : string) : Diagnostic :=
  mk_diagnostic code SeverityNotice role path component detail.
Definition hasBlockingDiagnostics (l : list Diagnostic) : bool :=
  existsb (fun d => bool_decide (dg_Severity d = SeverityBlocking)) l.

Record pathRequirements := mk_requirements {
  expected : PathType;
  confidential : bool;
  requireRead : bool;
  requireWrite : bool;
  requireSearch : bool;
  requireParentSwap : bool;
  readHandle : bool;
}.

(** The evidence, the diagnostics and an open file. *)
Record auditedPath := mk_audited {
  evidence : PathEvidence;
  diagnostics : list Diagnostic;
  file : option Z;
}.

(** ** Judging one component *)

Definition maximumRecordedPathComponents : Z := 64.
Definition maximumComponentPathTextBytes : Z := Z.shiftl 32 10.

(** The loop over the components: its counters. *)
Fixpoint bounded_components (parts : list bytes) (count text prefix : Z) : bool :=
  match parts with
  | [] => true
  | part :: parts =>
      let count := count + 1 in
      let prefix := prefix + 1 + blen part in
      let text := text + prefix in
      if (maximumRecordedPathComponents <? count) || (maximumComponentPathTextBytes <? text) then false
      else bounded_components parts count text prefix
  end.

(** [strings.TrimPrefix(path, "/")], split at the slashes. *)
Definition trim_root (path : bytes) : bytes :=
  match path with c :: rest => if Ascii.eqb c slash then rest else path | [] => [] end.
Definition path_parts (path : bytes) : list bytes :=
  match trim_root path with [] => [] | trimmed => GoText.split_on slash trimmed end.
Definition boundedComponentEvidence (path : bytes) : bool := bounded_components (path_parts path) 1 1 0.

Definition statPathType (mode : Z) : PathType :=
  let kind := Z.land mode S_IFMT in
  if kind =? S_IFDIR then PathTypeDirectory
  else if kind =? S_IFREG then PathTypeRegular
  else if kind =? S_IFLNK then PathTypeSymlink
  else PathTypeOther.

(** [bits&mask != 0] *)
Definition has_bits (value mask : Z) : bool := negb (Z.land value mask =? 0).

Definition serviceAccess (stat : FileIdentity) (policy : Policy) : AccessEvidence :=
  let permissions := Z.land (Mode stat) 511 in
  let bits := if UID stat =? EffectiveUID policy then Z.land (Z.shiftr permissions 6) 7
              else if bool_decide (GID stat ∈ EffectiveGIDs policy) then Z.land (Z.shiftr permissions 3) 7
              else Z.land permissions 7 in
  mk_access (has_bits bits 4) (has_bits bits 2) ((Z.land (Mode stat) S_IFMT =? S_IFDIR) && has_bits bits 1).

Definition componentFromStat (path : bytes) (stat : FileIdentity) (policy : Policy) : ComponentEvidence :=
  mk_component path (statPathType (Mode stat)) (Device stat) (Inode stat) (Mode stat) (UID stat) (GID stat) (NLink stat)
    (serviceAccess stat policy).

Definition pathFromFinalStat (e : PathEvidence) (stat : FileIdentity) (policy : Policy) : PathEvidence :=
  mk_evidence (pe_Role e) (pe_Reference e) (pe_Path e) (statPathType (Mode stat)) stat (serviceAccess stat policy)
    (pe_Components e) (pe_Safe e).

(** [if cond { diagnostics = append(diagnostics, d) }] *)
Definition when (cond : bool) (d : Diagnostic) : list Diagnostic := if cond then [d] else [].

Definition auditTraversalComponent (c : ComponentEvidence) (final : bool) (role : PathRole) (selectedPath : bytes) (policy : Policy)
    : list Diagnostic :=
  let permissions := Z.land (ce_Mode c) 4095 in
  let unsafeWrite := has_bits permissions 18 in
  let rootStickyAncestor := negb final && (ce_UID c =? trustedRootUID policy) && has_bits permissions 512 in
  when (negb (ce_UID c =? trustedRootUID policy) && negb (ce_UID c =? EffectiveUID policy))
    (diagnostic CodePathOwnerUntrusted role selectedPath (ce_Path c) "owner is neither root nor the service identity")
  ++ when (unsafeWrite && negb rootStickyAncestor)
    (diagnostic CodePathPermissionsUnsafe role selectedPath (ce_Path c) "group or other write permission is set")
  ++ when (has_bits permissions 3072 || (has_bits permissions 512 && negb rootStickyAncestor))
    (diagnostic CodePathPermissionsUnsafe role selectedPath (ce_Path c) "special permission bits are set")
  ++ when (bool_decide (ce_Type c = PathTypeDirectory) && negb (Searchable (ce_Access c)))
    (diagnostic CodePathNotSearchable role selectedPath (ce_Path c) "service identity cannot search the directory").

Definition type_text (t : PathType) : string :=
  match t with
  | PathTypeUnknown => "unknown" | PathTypeMissing => "missing" | PathTypeDirectory => "directory"
  | PathTypeRegular => "regular" | PathTypeSymlink => "symlink" | PathTypeOther => "other"
  end.

Definition auditFinalPath (e : PathEvidence) (r : pathRequirements) : list Diagnostic :=
  let at_path code detail := diagnostic code (pe_Role e) (pe_Path e) (pe_Path e) detail in
  if negb (pe_Exists e) then []
  else
    when (negb (bool_decide (pe_Type e = expected r))) (at_path CodePathTypeUnsafe ("expected " +:+ type_text (expected r))%string)
    ++ when (confidential r && has_bits (Mode (pe_Identity e)) 63)
         (at_path CodePathPermissionsUnsafe "confidential file grants group or other permissions"%string)
    ++ when (confidential r && bool_decide (pe_Type e = PathTypeRegular) && negb (NLink (pe_Identity e) =? 1))
         (at_path CodePathHardlinkUnsafe "confidential file must have exactly one link"%string)
    ++ when (requireRead r && negb (Readable (pe_Access e))) (at_path CodePathNotReadable "service identity cannot read the path"%string)
    ++ when (requireWrite r && negb (Writable (pe_Access e))) (at_path CodePathReadOnly "service identity cannot write the path"%string)
    ++ when (requireSearch r && negb (Searchable (pe_Access e)))
         (at_path CodePathNotSearchable "service identity cannot search the path"%string).

(** [components[len-2]] *)
Definition second_last {A} (l : list A) : option A := match rev l with _ :: p :: _ => Some p | _ => None end.

Definition auditReplacementParent (e : PathEvidence) : list Diagnostic :=
  match second_last (pe_Components e) with
  | None => [diagnostic CodePathReadOnly (pe_Role e) (pe_Path e) [slash] "replacement parent is not writable"]
  | Some parent =>
      when (negb (Writable (ce_Access parent)))
        (diagnostic CodePathReadOnly (pe_Role e) (pe_Path e) (ce_Path parent) "parent directory is not writable for atomic replacement")
      ++ when (negb (Searchable (ce_Access parent)))
        (diagnostic CodePathNotSearchable (pe_Role e) (pe_Path e) (ce_Path parent) "parent directory is not searchable for atomic replacement")
  end.

Definition sameStableStat (left right : FileIdentity) : bool := sameFileIdentity left right true.

(** ** Walking a path *)

(** [openat(O_PATH|O_NOFOLLOW)]: [None] when there is no such entry. *)
Definition sys_open_path (h : Z) (name : bytes) (d : disk) : result WsError (option Z) * disk :=
  match dk_dirs d !! h with None => errno d | Some n => (Ok (d_entries n !! name), d) end.

Section Audit.
Context {Selection : Type} `{Machine}.
Abbreviation X := (X (Selection := Selection)).

(** The result so far with one more diagnostic: an early return. *)
Definition stopped (a : auditedPath) (code : ErrorCode) (component : bytes) (detail : string) : auditedPath :=
  mk_audited (evidence a) (diagnostics a ++ [diagnostic code (pe_Role (evidence a)) (pe_Path (evidence a)) component detail]) (file a).

Definition missing_evidence (e : PathEvidence) : PathEvidence :=
  mk_evidence (pe_Role e) (pe_Reference e) (pe_Path e) PathTypeMissing (pe_Identity e) (pe_Access e) (pe_Components e) (pe_Safe e).
Definition add_component (e : PathEvidence) (c : ComponentEvidence) : PathEvidence :=
  mk_evidence (pe_Role e) (pe_Reference e) (pe_Path e) (pe_Type e) (pe_Identity e) (pe_Access e) (pe_Components e ++ [c]) (pe_Safe e).
Definition set_safe (safe : bool) (e : PathEvidence) : PathEvidence :=
  mk_evidence (pe_Role e) (pe_Reference e) (pe_Path e) (pe_Type e) (pe_Identity e) (pe_Access e) (pe_Components e) safe.

(** The walk from directory [fd] at [prefix].  It returns the inode and
    metadata of the final object, or [None] when the audit ends early. *)
Fixpoint audit_components (policy : Policy) (parts : list bytes) (fd : Z) (prefix : bytes) (stat : FileIdentity) (a : auditedPath)
    : X (auditedPath * option (Z * FileIdentity)) :=
  match parts with
  | [] => mret (a, Some (fd, stat))
  | part :: rest =>
      cancelled ← catch checkpoint;
      if is_err cancelled then mret (stopped a CodeInspectionCanceled prefix "inspection was canceled", None)
      else
        let componentPath := Join prefix part in
        opened ← catch (look (sys_open_path fd part));
        match opened with
        | Err _ => mret (stopped a CodePathUnavailable componentPath "path component could not be inspected", None)
        | Ok None =>
            mret (stopped (mk_audited (missing_evidence (evidence a)) (diagnostics a) (file a)) CodePathMissing componentPath
                    "path component does not exist", None)
        | Ok (Some next) =>
            seen ← catch (look (sys_fstat next));
            match seen with
            | Err _ => mret (stopped a CodePathUnavailable componentPath "path component metadata could not be inspected", None)
            | Ok stat =>
                let component := componentFromStat componentPath stat policy in
                let final := match rest with [] => true | _ => false end in
                let e := add_component (evidence a) component in
                let a := mk_audited e (diagnostics a ++ auditTraversalComponent component final (pe_Role e) (pe_Path e) policy) (file a) in
                if bool_decide (ce_Type component = PathTypeSymlink) then
                  mret (stopped (mk_audited (pathFromFinalStat e stat policy) (diagnostics a) (file a)) CodeSymlinkNotAllowed
                          componentPath "symbolic links are not allowed", None)
                else if negb final && negb (bool_decide (ce_Type component = PathTypeDirectory)) then
                  mret (stopped a CodeComponentNotDirectory componentPath "traversal component is not a directory", None)
                else audit_components policy rest next componentPath stat a
            end
        end
  end.

(** The read handle of a regular file, and the failures that make it unsafe. *)
Definition open_read_handle (path : bytes) (fd : Z) (finalStat : FileIdentity) (a : auditedPath) : X auditedPath :=
  let unsafe code detail :=
    mk_audited (set_safe false (evidence a)) (diagnostics a ++ [diagnostic code (pe_Role (evidence a)) path path detail]) (file a) in
  opened ← catch checkpoint;
  if is_err opened then mret (unsafe CodePathNotReadable "file could not be opened for reading"%string)
  else
    reopened ← catch (look (sys_fstat fd));
    match reopened with
    | Ok stat =>
        if sameStableStat finalStat stat then mret (mk_audited (evidence a) (diagnostics a) (Some fd))
        else mret (unsafe CodeChangedDuringInspection "file identity changed while it was opened"%string)
    | Err _ => mret (unsafe CodeChangedDuringInspection "file identity changed while it was opened"%string)
    end.

Definition auditPath (path : bytes) (role : PathRole) (reference : bytes) (r : pathRequirements) (policy : Policy) : X auditedPath :=
  let e := mk_evidence role reference path PathTypeUnknown no_identity no_access [] false in
  let a := mk_audited e [] None in
  cancelled ← catch checkpoint;
  if is_err cancelled then mret (stopped a CodeInspectionCanceled [] "inspection was canceled")
  else if negb (boundedComponentEvidence path) then
    mret (stopped a CodePathTooDeep [] "path traversal evidence exceeds the bounded component limit")
  else
    opened ← catch (look (fun d => (Ok (dk_root d), d)));
    match opened with
    | Err _ => mret (stopped a CodePathUnavailable [slash] "filesystem root could not be inspected")
    | Ok root =>
        seen ← catch (look (sys_fstat root));
        match seen with
        | Err _ => mret (stopped a CodePathUnavailable [slash] "filesystem root metadata could not be inspected")
        | Ok rootStat =>
            let rootEvidence := componentFromStat [slash] rootStat policy in
            let a := mk_audited (add_component e rootEvidence) (auditTraversalComponent rootEvidence false role path policy) None in
            '(a, walked) ← audit_components policy (path_parts path) root [slash] rootStat a;
            match walked with
            | None => mret a
            | Some (fd, finalStat) =>
                let e := pathFromFinalStat (evidence a) finalStat policy in
                let diagnostics := diagnostics a ++ auditFinalPath e r
                                   ++ (if requireParentSwap r then auditReplacementParent e else []) in
                let a := mk_audited (set_safe (negb (hasBlockingDiagnostics diagnostics)) e) diagnostics None in
                if readHandle r && pe_Exists e && bool_decide (pe_Type e = PathTypeRegular)
                then open_read_handle path fd finalStat a else mret a
            end
        end
    end.
End Audit.
