(* ===== verification/WsYaml.v ===== *)
(** Native references of a configuration: internal/workspace/yaml.go.  The
    YAML decoder is a parameter; its nodes are the tree the code walks. *)
From S2P Require Import Prelude.
From S2P Require Import GoText.
From S2P Require Import WsTypes.
From S2P Require Import WsAudit.

#[local] Open Scope Z_scope.

Inductive Kind := DocumentNode | SequenceNode | MappingNode | ScalarNode | AliasNode | NoKind.
#[export] Instance Kind_eq_dec : EqDecision Kind.
Proof. solve_decision. Defined.

Inductive Node := mk_node { n_Kind : Kind; n_Tag : bytes; n_Value : bytes; n_Content : list Node }.

(** Decoding the first document ([None] on an error), and whether a second
    [Decode] reports the end of the text. *)
Class Yaml := { yaml_decode : bytes -> option (Node * bool) }.

Record pathReference := mk_reference { raw : bytes; resolved : bytes }.
Record nativeReferences := mk_references { storage : pathReference; dotenv : list pathReference; webroots : list pathReference }.
Definition no_reference : pathReference := mk_reference [] [].
Definition no_references : nativeReferences := mk_references no_reference [] [].

Definition maximumYAMLNodes : Z := 32768.
Definition maximumYAMLDepth : Z := 64.
Definition str_tag : bytes := to_bytes "!!str".
Definition null_tag : bytes := to_bytes "!!null".

(** Every other element of the content, from the first and from the second. *)
Fixpoint mapping_keys (content : list Node) : list Node :=
  match content with k :: rest => k :: match rest with _ :: rest => mapping_keys rest | [] => [] end | [] => [] end.

Definition valid_key_node (k : Node) : bool :=
  bool_decide (n_Kind k = ScalarNode) && bool_decide (n_Tag k = str_tag) && negb (bool_decide (n_Value k = to_bytes "<<")).

(** The keys of a mapping, in order: each valid, none twice. *)
Fixpoint validate_keys (seen : list bytes) (keys : list Node) : option ErrorCode :=
  match keys with
  | [] => None
  | k :: keys =>
      if negb (valid_key_node k) then Some CodeConfigurationMalformed
      else if bool_decide (n_Value k ∈ seen) then Some CodeConfigurationDuplicateKey
      else validate_keys (n_Value k :: seen) keys
  end.

Definition validate_mapping (node : Node) : option ErrorCode :=
  if bool_decide (n_Kind node = MappingNode) then
    if negb (Nat.even (List.length (n_Content node))) then Some CodeConfigurationMalformed
    else validate_keys [] (mapping_keys (n_Content node))
  else None.

(** The tree below a node with the count of the nodes seen so far. *)
Fixpoint validateYAMLTree (node : Node) (depth count : Z) : result ErrorCode Z :=
  let count := count + 1 in
  if (maximumYAMLNodes <? count) || (maximumYAMLDepth <? depth) then Err CodeConfigurationTooComplex
  else if bool_decide (n_Kind node = AliasNode) then Err CodeConfigurationMalformed
  else match validate_mapping node with
  | Some code => Err code
  | None =>
      (fix children (l : list Node) (count : Z) : result ErrorCode Z :=
         match l with
         | [] => Ok count
         | child :: l => match validateYAMLTree child (depth + 1) count with Ok count => children l count | Err e => Err e end
         end) (n_Content node) count
  end.

Fixpoint find_value (content : list Node) (key : bytes) : option Node :=
  match content with
  | k :: v :: rest =>
      if bool_decide (n_Kind k = ScalarNode) && bool_decide (n_Value k = key) then Some v else find_value rest key
  | _ => None
  end.
Definition mappingValue (mapping : Node) (key : bytes) : option Node :=
  if bool_decide (n_Kind mapping = MappingNode) then find_value (n_Content mapping) key else None.

Definition isNullNode (node : Node) : bool := bool_decide (n_Kind node = ScalarNode) && bool_decide (n_Tag node = null_tag).

(** The value, whether the key is present, and whether it is not a string. *)
Definition mappingScalar (mapping : Node) (key : bytes) : bytes * bool * bool :=
  match mappingValue mapping key with
  | None => ([], false, false)
  | Some value =>
      if isNullNode value then ([], true, false)
      else if negb (bool_decide (n_Kind value = ScalarNode)) || negb (bool_decide (n_Tag value = str_tag)) then ([], true, true)
      else (n_Value value, true, false)
  end.

(** [filepath.Join], which leaves out an empty directory, cleaned. *)
Definition resolveNativePath (workingDirectory reference : bytes) : option bytes :=
  if (blen reference =? 0) || (maximumPathBytes <? blen reference) || negb (utf8_valid reference)
     || existsb invalidPathRune (runes reference)
  then None
  else
    let joined := if is_abs reference || (blen workingDirectory =? 0) then reference else workingDirectory ++ slash :: reference in
    if negb (is_abs joined) then None
    else let resolved := clean_rooted joined in
         if maximumPathBytes <? blen resolved then None else Some resolved.

Definition reference_le (a b : pathReference) : bool :=
  if bool_decide (resolved a = resolved b) then text_le (raw a) (raw b) else text_le (resolved a) (resolved b).
Definition sortPathReferences (l : list pathReference) : list pathReference := sort_by reference_le l.

(** ** Walking the configuration *)

Section Parse.
Context (configurationPath workingDirectory : bytes) (policy : Policy).

Definition reject {A} (code : ErrorCode) (role : PathRole) (detail : string) : result Diagnostic A :=
  Err (diagnostic code role configurationPath configurationPath detail).

(** The path named by [key] in the mapping below [section], if any. *)
Definition challenge_reference (challenge : Node) (section key : bytes) (role : PathRole) (not_mapping not_string not_path : string)
    : result Diagnostic (list pathReference) :=
  match mappingValue challenge section with
  | None => Ok []
  | Some node =>
      if isNullNode node then Ok []
      else if negb (bool_decide (n_Kind node = MappingNode)) then reject CodeConfigurationReferenceInvalid role not_mapping
      else
        let '(value, present, invalid) := mappingScalar node key in
        if invalid then reject CodeConfigurationReferenceInvalid role not_string
        else if present && negb (blen value =? 0) then
          match resolveNativePath workingDirectory value with
          | None => reject CodeConfigurationReferenceInvalid role not_path
          | Some resolved => Ok [mk_reference value resolved]
          end
        else Ok []
  end.

Definition add_challenge (refs : nativeReferences) (challenge : Node) : result Diagnostic nativeReferences :=
  if isNullNode challenge then Ok refs
  else if negb (bool_decide (n_Kind challenge = MappingNode))
  then reject CodeConfigurationReferenceInvalid RoleConfiguration "challenge entries must be mappings"
  else
    dns ← challenge_reference challenge (to_bytes "dns") (to_bytes "envFile") RoleDotenv "DNS challenge must be a mapping"
            "dotenv reference must be a path string" "dotenv path is invalid";
    http ← challenge_reference challenge (to_bytes "http") (to_bytes "webroot") RoleWebroot "HTTP challenge must be a mapping"
             "webroot reference must be a path string" "webroot path is invalid";
    let refs := mk_references (storage refs) (dotenv refs ++ dns) (webroots refs ++ http) in
    if MaxReferencedPaths policy <? blen (dotenv refs) + blen (webroots refs)
    then reject CodeConfigurationTooComplex RoleConfiguration "configuration contains too many referenced paths" else Ok refs.

(** [challenges.Content[1]], [[3]] and so on. *)
Fixpoint add_challenges (refs : nativeReferences) (content : list Node) : result Diagnostic nativeReferences :=
  match content with
  | _ :: challenge :: rest => refs ← add_challenge refs challenge; add_challenges refs rest
  | _ => Ok refs
  end.

Definition tree_detail (code : ErrorCode) : string :=
  match code with
  | CodeConfigurationDuplicateKey => "configuration contains a duplicate mapping key"
  | CodeConfigurationMalformed => "configuration contains an unsupported YAML structure"
  | _ => "configuration structure is too complex"
  end.

Definition references_of (root : Node) : result Diagnostic nativeReferences :=
  let '(storageValue, found, bad) := mappingScalar root (to_bytes "storage") in
  if bad then reject CodeConfigurationReferenceInvalid RoleStorage "storage must be a path string"
  else
    let storageValue := if negb found || (blen storageValue =? 0) then to_bytes ".lego" else storageValue in
    match resolveNativePath workingDirectory storageValue with
    | None => reject CodeConfigurationReferenceInvalid RoleStorage "storage path is invalid"
    | Some resolved =>
        let refs := mk_references (mk_reference storageValue resolved) [] [] in
        match mappingValue root (to_bytes "challenges") with
        | None => Ok refs
        | Some challenges =>
            if isNullNode challenges then Ok refs
            else if negb (bool_decide (n_Kind challenges = MappingNode))
            then reject CodeConfigurationReferenceInvalid RoleConfiguration "challenges must be a mapping"
            else
              refs ← add_challenges refs (n_Content challenges);
              Ok (mk_references (storage refs) (sortPathReferences (dotenv refs)) (sortPathReferences (webroots refs)))
        end
    end.

Definition parse_references `{Yaml} (data : bytes) : result Diagnostic nativeReferences :=
  match yaml_decode data with
  | None => reject CodeConfigurationMalformed RoleConfiguration "configuration is not valid YAML"
  | Some (document, ended) =>
      if negb ended then reject CodeConfigurationMalformed RoleConfiguration "configuration must contain exactly one YAML document"
      else match n_Content document with
      | [root] =>
          if negb (bool_decide (n_Kind root = MappingNode))
          then reject CodeConfigurationMalformed RoleConfiguration "configuration root must be a mapping"
          else match validateYAMLTree root 0 0 with
          | Err code => reject code RoleConfiguration (tree_detail code)
          | Ok _ => references_of root
          end
      | _ => reject CodeConfigurationMalformed RoleConfiguration "configuration root must be a mapping"
      end
  end.

(** A rejected configuration has no references and one diagnostic. *)
Definition parseNativeReferences `{Yaml} (data : bytes) : nativeReferences * list Diagnostic :=
  match parse_references data with Ok refs => (refs, []) | Err d => (no_references, [d]) end.
End Parse.
