(* ===== verification/WsInspect.v ===== *)
(** The workspace inspection of internal/workspace/inspector.go: which paths a
    configuration names, the evidence on each, and whether the set may be
    adopted.  The digest of a review is the encoding of fingerprint.go. *)
From stdpp Require Import gmap.
From S2P Require Import Prelude.
From S2P Require Import GoText.
From S2P Require Import GoTime.
From S2P Require Import GoDecode.
From S2P Require Import Effects.
From S2P Require Import WsTypes.
From S2P Require Import WsJournal.
From S2P Require Import WsDisk.
From S2P Require Import WsAudit.
From S2P Require Import WsYaml.

#[local] Open Scope Z_scope.

#[export] Instance FileIdentity_eq_dec : EqDecision FileIdentity.
Proof. solve_decision. Defined.
#[export] Instance PathEvidence_eq_dec : EqDecision PathEvidence.
Proof. solve_decision. Defined.

Record Request := mk_request { rq_WorkingDirectory : bytes; rq_ConfigurationPath : bytes }.

Record Review := mk_review {
  rv_ConfigurationSource : ConfigurationSource;
  rv_WorkingDirectory : PathEvidence;
  rv_Configuration : PathEvidence;
  rv_Storage : PathEvidence;
  rv_DotenvFiles : list PathEvidence;
  rv_Webroots : list PathEvidence;
  rv_Diagnostics : list Diagnostic;
  rv_Adoptable : bool;
  rv_ReviewedEvidenceSHA256 : bytes;
  rv_ObservedAt : time;
}.
Definition AllPaths (r : Review) : list PathEvidence :=
  [rv_WorkingDirectory r; rv_Configuration r; rv_Storage r] ++ rv_DotenvFiles r ++ rv_Webroots r.

Definition maximumReviewDiagnostics : Z := 256.
Definition no_evidence : PathEvidence := mk_evidence RoleWorkspace [] [] PathTypeUnknown no_identity no_access [] false.

(** ** Fingerprints *)

(** The length in eight bytes, big end first, and the value. *)
Fixpoint big_endian (width : nat) (n : Z) : bytes :=
  match width with O => [] | Datatypes.S width => big_endian width (n / 256) ++ [z2b (n mod 256)] end.
Definition writeFingerprintValue (value : bytes) : bytes := big_endian 8 (blen value) ++ value.

Definition fingerprintTime (t : time) : bytes := if is_zero t then [] else format_rfc3339 (unix_utc (t_ns t)).
Definition format_bool (b : bool) : bytes := to_bytes (if b then "true" else "false").
(** [strconv.FormatInt] *)
Definition format_int (n : Z) : bytes := if n <? 0 then "-"%char :: itoa (- n) else itoa n.

Definition role_text (r : PathRole) : string :=
  match r with
  | RoleWorkingDirectory => "working_directory" | RoleConfiguration => "configuration" | RoleStorage => "storage"
  | RoleDotenv => "dotenv" | RoleWebroot => "webroot" | RoleWorkspace => "workspace"
  | RoleCloudCredential => "cloud_credential" | RoleCloudHelper => "cloud_helper" | RoleCloudDirectory => "cloud_directory"
  end.
Definition source_text (s : ConfigurationSource) : string :=
  match s with
  | ConfigurationExplicit => "explicit" | ConfigurationConventionalYML => "conventional_yml"
  | ConfigurationConventionalYAML => "conventional_yaml" | NoSource => ""
  end.
Definition severity_text (s : DiagnosticSeverity) : string :=
  match s with SeverityBlocking => "blocking" | SeverityNotice => "notice" end.
Definition code_text (c : ErrorCode) : string :=
  match c with
  | CodeInvalidPolicy => "invalid_policy" | CodeContextRequired => "context_required" | CodePathRequired => "path_required"
  | CodePathNotAbsolute => "path_not_absolute" | CodePathNotCanonical => "path_not_canonical" | CodePathTooLong => "path_too_long"
  | CodePathTooDeep => "path_too_deep" | CodePathMissing => "path_missing" | CodePathUnavailable => "path_unavailable"
  | CodeSymlinkNotAllowed => "symlink_not_allowed" | CodeComponentNotDirectory => "component_not_directory"
  | CodePathTypeUnsafe => "path_type_unsafe" | CodePathOwnerUntrusted => "path_owner_untrusted"
  | CodePathPermissionsUnsafe => "path_permissions_unsafe" | CodePathHardlinkUnsafe => "path_hardlink_unsafe"
  | CodePathNotReadable => "path_not_readable" | CodePathReadOnly => "path_read_only" | CodePathNotSearchable => "path_not_searchable"
  | CodeConfigurationMissing => "configuration_missing" | CodeConfigurationPrecedence => "configuration_precedence"
  | CodeConfigurationTooLarge => "configuration_too_large" | CodeConfigurationMalformed => "configuration_malformed"
  | CodeConfigurationDuplicateKey => "configuration_duplicate_key" | CodeConfigurationTooComplex => "configuration_too_complex"
  | CodeConfigurationReferenceInvalid => "configuration_reference_invalid" | CodeChangedDuringInspection => "changed_during_inspection"
  | CodeInspectionCanceled => "inspection_canceled" | CodeReviewEvidenceChanged => "review_evidence_changed"
  | CodeReviewEvidenceLimit => "review_evidence_limit"
  end.

(** A fingerprint is the values it writes, in order; each is written with its
    length. *)
Definition written (values : list bytes) : bytes := concat (writeFingerprintValue <$> values).

Definition writeAccessFingerprint (a : AccessEvidence) : list bytes :=
  [format_bool (Readable a); format_bool (Writable a); format_bool (Searchable a)].
Definition writePathFingerprintPrefix (e : PathEvidence) : list bytes :=
  let i := pe_Identity e in
  [to_bytes (role_text (pe_Role e)); pe_Reference e; pe_Path e; format_bool (pe_Exists e); to_bytes (type_text (pe_Type e));
   itoa (Device i); itoa (Inode i); itoa (Mode i); itoa (UID i); itoa (GID i); itoa (NLink i)].
Definition component_values (c : ComponentEvidence) : list bytes :=
  [ce_Path c; to_bytes (type_text (ce_Type c)); itoa (ce_Device c); itoa (ce_Inode c); itoa (ce_Mode c); itoa (ce_UID c); itoa (ce_GID c)]
  ++ writeAccessFingerprint (ce_Access c).
Definition writePathFingerprintSuffix (e : PathEvidence) : list bytes :=
  writeAccessFingerprint (pe_Access e) ++ [format_bool (pe_Safe e); itoa (blen (pe_Components e))]
  ++ (pe_Components e ≫= component_values).
Definition writePathFingerprint (e : PathEvidence) : list bytes :=
  writePathFingerprintPrefix e
  ++ (if bool_decide (pe_Type e = PathTypeDirectory) then [to_bytes "0"; []; []]
      else [format_int (Size (pe_Identity e)); fingerprintTime (ModifiedAt (pe_Identity e)); fingerprintTime (ChangedAt (pe_Identity e))])
  ++ writePathFingerprintSuffix e.
Definition writePathFingerprintV1 (e : PathEvidence) : list bytes :=
  writePathFingerprintPrefix e
  ++ [format_int (Size (pe_Identity e)); fingerprintTime (ModifiedAt (pe_Identity e)); fingerprintTime (ChangedAt (pe_Identity e))]
  ++ writePathFingerprintSuffix e.
Definition set_nlink (n : Z) (i : FileIdentity) : FileIdentity :=
  mk_identity (Exists i) (Device i) (Inode i) (Mode i) (UID i) (GID i) n (Size i) (ModifiedAt i) (ChangedAt i).
Definition set_identity (i : FileIdentity) (e : PathEvidence) : PathEvidence :=
  mk_evidence (pe_Role e) (pe_Reference e) (pe_Path e) (pe_Type e) i (pe_Access e) (pe_Components e) (pe_Safe e).
Definition writeExecutionPathFingerprint (e : PathEvidence) : list bytes :=
  writePathFingerprint (if bool_decide (pe_Type e = PathTypeDirectory) then set_identity (set_nlink 0 (pe_Identity e)) e else e).

Definition diagnostic_values (d : Diagnostic) : list bytes :=
  [to_bytes (code_text (dg_Code d)); to_bytes (severity_text (dg_Severity d)); to_bytes (role_text (dg_Role d)); dg_Path d;
   dg_Component d; to_bytes (dg_Detail d)].

Definition review_values (r : Review) (domain : string) (writePath : PathEvidence -> list bytes) : list bytes :=
  [to_bytes domain; to_bytes (source_text (rv_ConfigurationSource r)); format_bool (rv_Adoptable r); itoa (blen (AllPaths r))]
  ++ (AllPaths r ≫= writePath) ++ [itoa (blen (rv_Diagnostics r))] ++ (rv_Diagnostics r ≫= diagnostic_values).

Section Fingerprints.
Context `{Machine}.
(** [hex.EncodeToString] of the digest; [sha256] is the digest's hexadecimal
    text here as everywhere in this model. *)
Definition reviewFingerprint (r : Review) (domain : string) (writePath : PathEvidence -> list bytes) : bytes :=
  sha256 (written (review_values r domain writePath)).
Definition ReviewFingerprint (r : Review) : bytes := reviewFingerprint r "acmemux-workspace-review-v2" writePathFingerprint.
Definition ExecutionReviewFingerprint (r : Review) : bytes :=
  reviewFingerprint r "acmemux-workspace-execution-review-v1" writeExecutionPathFingerprint.
Definition legacyReviewFingerprintV1 (r : Review) : bytes := reviewFingerprint r "acmemux-workspace-review-v1" writePathFingerprintV1.
End Fingerprints.

(** ** Comparing evidence *)

Definition zero_component_nlink (c : ComponentEvidence) : ComponentEvidence :=
  mk_component (ce_Path c) (ce_Type c) (ce_Device c) (ce_Inode c) (ce_Mode c) (ce_UID c) (ce_GID c) 0 (ce_Access c).
Definition set_components (l : list ComponentEvidence) (e : PathEvidence) : PathEvidence :=
  mk_evidence (pe_Role e) (pe_Reference e) (pe_Path e) (pe_Type e) (pe_Identity e) (pe_Access e) l (pe_Safe e).
(** The fields of a directory that change with its entries. *)
Definition zero_volatile (nlink : bool) (e : PathEvidence) : PathEvidence :=
  let i := pe_Identity e in
  if bool_decide (pe_Type e = PathTypeDirectory)
  then set_identity (mk_identity (Exists i) (Device i) (Inode i) (Mode i) (UID i) (GID i) (if nlink then 0 else NLink i) 0 zero_time zero_time) e
  else e.
Definition stable_evidence (e : PathEvidence) : PathEvidence :=
  let e := zero_volatile true (set_safe false e) in
  set_components (zero_component_nlink <$> pe_Components e) e.
Definition samePathEvidence (left right : PathEvidence) : bool := bool_decide (stable_evidence left = stable_evidence right).

Fixpoint same_all (same : PathEvidence -> PathEvidence -> bool) (l k : list PathEvidence) : bool :=
  match l, k with
  | [], [] => true
  | x :: l, y :: k => same x y && same_all same l k
  | _, _ => false
  end.
Definition samePathEvidenceSlice (l k : list PathEvidence) : bool := same_all samePathEvidence l k.

Definition sameReviewEvidence (left right : Review) : bool :=
  bool_decide (rv_ConfigurationSource left = rv_ConfigurationSource right) && Bool.eqb (rv_Adoptable left) (rv_Adoptable right)
  && bool_decide (rv_Diagnostics left = rv_Diagnostics right)
  && samePathEvidence (rv_WorkingDirectory left) (rv_WorkingDirectory right)
  && samePathEvidence (rv_Configuration left) (rv_Configuration right)
  && samePathEvidence (rv_Storage left) (rv_Storage right)
  && samePathEvidenceSlice (rv_DotenvFiles left) (rv_DotenvFiles right)
  && samePathEvidenceSlice (rv_Webroots left) (rv_Webroots right).

Definition allSafe (l : list PathEvidence) : bool := forallb pe_Safe l.

Definition reviewEvidenceLimitDiagnostic : Diagnostic :=
  diagnostic CodeReviewEvidenceLimit RoleWorkspace [] [] "workspace diagnostics exceed the bounded review limit".

Definition appendReviewDiagnostics (target values : list Diagnostic) : list Diagnostic :=
  if blen values =? 0 then target
  else if match last target with Some d => bool_decide (dg_Code d = CodeReviewEvidenceLimit) | None => false end then target
  else
    let remaining := maximumReviewDiagnostics - blen target in
    if remaining <=? 0 then <[Z.to_nat (maximumReviewDiagnostics - 1) := reviewEvidenceLimitDiagnostic]> target
    else if blen values <=? remaining then target ++ values
    else target ++ take (Z.to_nat (remaining - 1)) values ++ [reviewEvidenceLimitDiagnostic].

Definition validateSelectedPath (path : bytes) : bool :=
  negb (blen path =? 0) && (blen path <=? maximumPathBytes) && utf8_valid path && negb (existsb invalidPathRune (runes path))
  && is_abs path && bool_decide (clean_rooted path = path).

(** ** Inspection *)

Definition workingRequirements : pathRequirements := mk_requirements PathTypeDirectory false true false true false false.
Definition configurationRequirements : pathRequirements := mk_requirements PathTypeRegular true true false false true true.
Definition storageRequirements : pathRequirements := mk_requirements PathTypeDirectory false true true true false false.
Definition dotenvRequirements : pathRequirements := mk_requirements PathTypeRegular true true false false true false.
Definition webrootRequirements : pathRequirements := mk_requirements PathTypeDirectory false false true true false false.
Definition without_handle (r : pathRequirements) : pathRequirements :=
  mk_requirements (expected r) (confidential r) (requireRead r) (requireWrite r) (requireSearch r) (requireParentSwap r) false.

Definition conventionalPathAbsent (e : PathEvidence) : bool :=
  bool_decide (pe_Type e = PathTypeMissing) || (pe_Exists e && bool_decide (pe_Type e = PathTypeDirectory)).

Section Inspect.
Context {Selection : Type} `{Machine} `{Yaml} (policy : Policy).
Abbreviation X := (X (Selection := Selection)).

(** The evidence, unsafe when a second audit of the path sees another one. *)
Definition confirmPath (e : PathEvidence) (r : pathRequirements) (ds : list Diagnostic) : X (PathEvidence * list Diagnostic) :=
  if (blen (pe_Path e) =? 0) || negb (pe_Exists e) then mret (e, ds)
  else
    confirmation ← auditPath (pe_Path e) (pe_Role e) (pe_Reference e) (without_handle r) policy;
    if samePathEvidence e (evidence confirmation) then mret (e, ds)
    else mret (set_safe false e, appendReviewDiagnostics ds [diagnostic CodeChangedDuringInspection (pe_Role e) (pe_Path e) (pe_Path e)
                                                              "path identity changed during inspection"]).

Definition finalConfirmation (e : PathEvidence) (r : pathRequirements) (ds : list Diagnostic) : X (PathEvidence * list Diagnostic) :=
  if (blen (pe_Path e) =? 0) || negb (pe_Exists e) then mret (e, ds)
  else
    '(confirmed, ds) ← confirmPath e r ds;
    mret (if pe_Safe confirmed then e else set_safe false e, ds).

Fixpoint final_confirmations (l : list PathEvidence) (r : pathRequirements) (ds : list Diagnostic)
    : X (list PathEvidence * list Diagnostic) :=
  match l with
  | [] => mret ([], ds)
  | e :: l =>
      '(e, ds) ← finalConfirmation e r ds;
      '(l, ds) ← final_confirmations l r ds;
      mret (e :: l, ds)
  end.

(** Read the native references of an opened configuration. *)
Definition readNativeReferences (opened : option Z) (e : PathEvidence) (workingDirectory : bytes) : X (nativeReferences * list Diagnostic) :=
  let bad code detail := (no_references, [diagnostic code RoleConfiguration (pe_Path e) (pe_Path e) detail]) in
  match opened with
  | None => mret (no_references, [])
  | Some fd =>
      if (Size (pe_Identity e) <? 0) || (MaxConfigurationBytes policy <? Size (pe_Identity e))
      then mret (bad CodeConfigurationTooLarge "configuration exceeds the inspection size limit"%string)
      else
        before ← catch (look (sys_fstat fd));
        match before with
        | Err _ => mret (bad CodePathUnavailable "configuration metadata could not be rechecked"%string)
        | Ok before =>
            cancelled ← catch checkpoint;
            if is_err cancelled then mret (bad CodeInspectionCanceled "inspection was canceled"%string)
            else
              data ← catch (look (sys_read fd (MaxConfigurationBytes policy + 1)));
              match data with
              | Err _ => mret (bad CodePathNotReadable "configuration could not be read"%string)
              | Ok data =>
                  if MaxConfigurationBytes policy <? blen data
                  then mret (bad CodeConfigurationTooLarge "configuration exceeds the inspection size limit"%string)
                  else
                    after ← catch (look (sys_fstat fd));
                    let stable := match after with Ok after => sameStableStat before after && (blen data =? Size before) | Err _ => false end in
                    if negb stable then mret (bad CodeChangedDuringInspection "configuration changed while it was read"%string)
                    else mret (parseNativeReferences (pe_Path e) workingDirectory policy data)
              end
        end
  end.

(** [discoverConventional]: the configuration a working directory has, its
    source, and the diagnostics so far. *)
Definition discoverConventional (workingDirectory : bytes) (r : pathRequirements) (ds : list Diagnostic)
    : X (auditedPath * ConfigurationSource * list Diagnostic) :=
  let ymlPath := Join workingDirectory (to_bytes ".lego.yml") in
  let yamlPath := Join workingDirectory (to_bytes ".lego.yaml") in
  yml ← auditPath ymlPath RoleConfiguration [] r policy;
  if negb (conventionalPathAbsent (evidence yml)) then
    yaml ← auditPath yamlPath RoleConfiguration [] (without_handle r) policy;
    let both := pe_Exists (evidence yaml) && negb (bool_decide (pe_Type (evidence yaml) = PathTypeDirectory)) in
    mret (yml, ConfigurationConventionalYML,
          if both then appendReviewDiagnostics ds [notice CodeConfigurationPrecedence RoleConfiguration ymlPath yamlPath
                                                     "both conventional names exist; .lego.yml takes precedence"] else ds)
  else
    yaml ← auditPath yamlPath RoleConfiguration [] r policy;
    if negb (conventionalPathAbsent (evidence yaml)) then mret (yaml, ConfigurationConventionalYAML, ds)
    else
      let missing detail l := mk_audited (evidence yml) (l ++ [diagnostic CodeConfigurationMissing RoleConfiguration ymlPath workingDirectory detail]) (file yml) in
      mret (if pe_Exists (evidence yml) && bool_decide (pe_Type (evidence yml) = PathTypeDirectory)
            then missing "neither .lego.yml nor .lego.yaml is a configuration file"%string (diagnostics yml)
            else missing "neither .lego.yml nor .lego.yaml exists"%string [],
            ConfigurationConventionalYML, ds).

(** Audit and confirm the referenced paths of one role. *)
Fixpoint inspect_references (l : list pathReference) (role : PathRole) (r : pathRequirements) (ds : list Diagnostic)
    : X (list PathEvidence * list Diagnostic) :=
  match l with
  | [] => mret ([], ds)
  | reference :: l =>
      audited ← auditPath (resolved reference) role (raw reference) r policy;
      '(e, ds) ← confirmPath (evidence audited) r ds;
      '(rest, ds) ← inspect_references l role r (appendReviewDiagnostics ds (diagnostics audited));
      mret (e :: rest, ds)
  end.

(** The configuration and what it refers to. *)
Definition inspect_configuration (request : Request) (ds : list Diagnostic)
    : X (PathEvidence * ConfigurationSource * nativeReferences * list Diagnostic) :=
  '(configuration, source, ds) ←
    (if negb (blen (rq_ConfigurationPath request) =? 0) then
       configuration ← auditPath (rq_ConfigurationPath request) RoleConfiguration [] configurationRequirements policy;
       mret (configuration, ConfigurationExplicit, ds)
     else discoverConventional (rq_WorkingDirectory request) configurationRequirements ds);
  let ds := appendReviewDiagnostics ds (diagnostics configuration) in
  let audited := evidence configuration in
  '(references, parsed) ← readNativeReferences (file configuration) audited (rq_WorkingDirectory request);
  let ds := appendReviewDiagnostics ds parsed in
  let e := if hasBlockingDiagnostics parsed then set_safe false audited else audited in
  if negb (blen (pe_Path audited) =? 0) && pe_Exists audited then
    '(confirmed, ds) ← confirmPath audited configurationRequirements ds;
    mret (if pe_Safe confirmed then e else set_safe false e, source, references, ds)
  else mret (e, source, references, ds).

Definition inspect_storage (reference : pathReference) (ds : list Diagnostic) : X (PathEvidence * list Diagnostic) :=
  if blen (resolved reference) =? 0 then mret (no_evidence, ds)
  else
    audited ← auditPath (resolved reference) RoleStorage (raw reference) storageRequirements policy;
    '(e, ds) ← confirmPath (evidence audited) storageRequirements ds;
    mret (e, appendReviewDiagnostics ds (diagnostics audited)).

Definition Inspect (request : Request) : X Review :=
  _ ← guard_if (negb (validateSelectedPath (rq_WorkingDirectory request))) (Failure "path is not acceptable");
  _ ← guard_if (negb (blen (rq_ConfigurationPath request) =? 0) && negb (validateSelectedPath (rq_ConfigurationPath request)))
        (Failure "path is not acceptable");
  _ ← checkpoint;
  observedAt ← now_utc;
  working ← auditPath (rq_WorkingDirectory request) RoleWorkingDirectory [] workingRequirements policy;
  '(workingDirectory, ds) ← confirmPath (evidence working) workingRequirements [];
  let ds := appendReviewDiagnostics ds (diagnostics working) in
  '(configuration, source, references, ds) ← inspect_configuration request ds;
  '(storage, ds) ← inspect_storage (storage references) ds;
  '(dotenv, ds) ← inspect_references (dotenv references) RoleDotenv dotenvRequirements ds;
  '(webroots, ds) ← inspect_references (webroots references) RoleWebroot webrootRequirements ds;
  '(workingDirectory, ds) ← finalConfirmation workingDirectory workingRequirements ds;
  '(configuration, ds) ← finalConfirmation configuration configurationRequirements ds;
  '(storage, ds) ← finalConfirmation storage storageRequirements ds;
  '(dotenv, ds) ← final_confirmations dotenv dotenvRequirements ds;
  '(webroots, ds) ← final_confirmations webroots webrootRequirements ds;
  let adoptable := pe_Safe workingDirectory && pe_Safe configuration && pe_Safe storage && allSafe dotenv && allSafe webroots
                   && negb (hasBlockingDiagnostics ds) in
  let review := mk_review source workingDirectory configuration storage dotenv webroots ds adoptable [] observedAt in
  mret (mk_review source workingDirectory configuration storage dotenv webroots ds adoptable (ReviewFingerprint review) observedAt).

(** The fresh review, when it shows what was reviewed. *)
Definition Verify (reviewed : Review) : X Review :=
  _ ← guard_if ((blen (pe_Path (rv_WorkingDirectory reviewed)) =? 0) || (blen (pe_Path (rv_Configuration reviewed)) =? 0))
        (Failure "review evidence is incomplete");
  let workingDirectory := pe_Path (rv_WorkingDirectory reviewed) in
  request ← (match rv_ConfigurationSource reviewed with
             | ConfigurationExplicit => mret (mk_request workingDirectory (pe_Path (rv_Configuration reviewed)))
             | ConfigurationConventionalYML | ConfigurationConventionalYAML => mret (mk_request workingDirectory [])
             | NoSource => raise (Failure "configuration source is invalid")
             end);
  current ← Inspect request;
  if bool_decide (rv_ReviewedEvidenceSHA256 reviewed = ReviewFingerprint reviewed)
     && bool_decide (rv_ReviewedEvidenceSHA256 current = ReviewFingerprint current)
     && (bool_decide (rv_ReviewedEvidenceSHA256 current = rv_ReviewedEvidenceSHA256 reviewed) || sameReviewEvidence reviewed current)
  then mret current
  else raise (Failure "review evidence changed").
End Inspect.
