(* ===== verification/WsEdit.v ===== *)
(** One native file edit: staging a candidate, activating it and removing what
    it displaced, as in internal/workspace/transaction_commit_linux.go.  A
    directory handle and an open file are inode numbers. *)
From stdpp Require Import gmap.
From S2P Require Import Prelude.
From S2P Require Import GoText.
From S2P Require Import GoTime.
From S2P Require Import GoDecode.
From S2P Require Import Effects.
From S2P Require Import WsTypes.
From S2P Require Import WsJournal.
From S2P Require Import WsDisk.
From S2P Require Import WsAudit.

#[local] Open Scope Z_scope.

Record Replacement := mk_replacement { rp_Role : PathRole; rp_Path : bytes; rp_Content : bytes }.

Record preparedReplacement := mk_prepared {
  replacement : Replacement;
  ordinal : Z;
  parent : option Z;
  parentID : FileIdentity;
  stage : bytes;
  original : SourceFingerprint;
  candidate : SourceFingerprint;
  existed : bool;
  activated : bool;
  cleanupUncertain : bool;
}.
Definition set_candidate_fp (c : SourceFingerprint) (p : preparedReplacement) : preparedReplacement :=
  mk_prepared (replacement p) (ordinal p) (parent p) (parentID p) (stage p) (original p) c (existed p) (activated p) (cleanupUncertain p).
Definition set_original_fp (o : SourceFingerprint) (p : preparedReplacement) : preparedReplacement :=
  mk_prepared (replacement p) (ordinal p) (parent p) (parentID p) (stage p) o (candidate p) (existed p) (activated p) (cleanupUncertain p).
Definition set_activated (b : bool) (p : preparedReplacement) : preparedReplacement :=
  mk_prepared (replacement p) (ordinal p) (parent p) (parentID p) (stage p) (original p) (candidate p) (existed p) b (cleanupUncertain p).
Definition set_uncertain (b : bool) (p : preparedReplacement) : preparedReplacement :=
  mk_prepared (replacement p) (ordinal p) (parent p) (parentID p) (stage p) (original p) (candidate p) (existed p) (activated p) b.
Definition with_identity (i : FileIdentity) (f : SourceFingerprint) : SourceFingerprint := mk_fingerprint (fp_Path f) i (fp_SHA256 f).

Definition maximumConfigurationBytes : Z := Z.shiftl 8 20.
Definition maximumDotenvBytes : Z := Z.shiftl 1 20.
Definition maximumFileLimit (role : PathRole) : Z :=
  if bool_decide (role = RoleConfiguration) then maximumConfigurationBytes else maximumDotenvBytes.

Definition remove_suffix : bytes := to_bytes ".remove".
Definition cleanupBasename (stage : bytes) : bytes := stage ++ remove_suffix.
(** [filepath.Ext(basename) == ".remove"]: the text from the last dot on.
*)
Definition is_cleanup_name (basename : bytes) : bool := bool_decide (remove_suffix `suffix_of` basename).

Section Edit.
Context {Selection : Type} `{Machine}.
Abbreviation X := (X (Selection := Selection)).

Definition inject : X unit := checkpoint.
Definition ctx_err : X unit := checkpoint.
Definition syncDirectory (h : Z) : X unit := syscall (fun _ => sys_fsync_dir h).
Definition renameat2_exchange (h : Z) (a b : bytes) : X unit := syscall (sys_exchange h a b).
Definition renameat2_noreplace (h : Z) (a b : bytes) : X unit := syscall (sys_move h a b).
Definition unlinkat (h : Z) (name : bytes) : X unit := syscall (sys_unlink h name).

Definition missingAt (h : Z) (basename : bytes) : X bool :=
  found ← look (sys_fstatat h basename);
  mret (bool_decide (found = None)).

(** [identityAt] of recovery_linux.go: [None] when there is no entry. *)
Definition identityAt (h : Z) (basename : bytes) : X (option FileIdentity) :=
  found ← look (sys_fstatat h basename);
  match found with
  | None => mret None
  | Some stat =>
      if negb (is_regular (Mode stat)) || negb (NLink stat =? 1)
      then raise (Failure "recovery path is not a single-link regular file") else mret (Some stat)
  end.

Definition openFingerprintAt (h : Z) (basename : bytes) (limit : Z) : X (Z * SourceFingerprint) :=
  _ ← ctx_err;
  fd ← look (sys_open h basename);
  before ← look (sys_fstat fd);
  _ ← guard_if (negb (is_regular (Mode before)) || negb (NLink before =? 1) || (Size before <? 0) || (limit <? Size before))
        (Failure "native source metadata is invalid");
  contents ← look (sys_read fd (limit + 1));
  _ ← guard_if (negb (blen contents =? Size before)) (Failure "native source could not be read consistently");
  after ← look (sys_fstat fd);
  _ ← guard_if (negb (sameStableStat before after)) ErrSourceChanged;
  mret (fd, mk_fingerprint [] before (sha256 contents)).

Definition fingerprintAt (h : Z) (basename : bytes) (limit : Z) : X SourceFingerprint :=
  '(_, fingerprint) ← openFingerprintAt h basename limit;
  _ ← checkpoint;
  mret fingerprint.

Definition ownedStageBasename (h : Z) (stage : bytes) : X (option bytes) :=
  stageMissing ← missingAt h stage;
  cleanupMissing ← missingAt h (cleanupBasename stage);
  if negb stageMissing && negb cleanupMissing then raise ErrSourceChanged
  else if negb stageMissing then mret (Some stage)
  else if negb cleanupMissing then mret (Some (cleanupBasename stage))
  else mret None.

Definition scrubOpenFile (fd : Z) : X FileIdentity :=
  _ ← syscall (sys_fchmod fd 384);
  writer ← look (fun d => (Ok fd, d));
  _ ← syscall (sys_ftruncate writer);
  _ ← syscall (fun _ => sys_fsync writer);
  look (sys_fstat writer).

(** The same inode, single-linked and regular, at the name. *)
Definition placed_as (found : result WsError (option FileIdentity)) (expected : FileIdentity) : option FileIdentity :=
  match found with
  | Ok (Some placed) => if (Device placed =? Device expected) && (Inode placed =? Inode expected) then Some placed else None
  | _ => None
  end.

Definition scrubAndRemoveOpen (h : Z) (basename : bytes) (fd : Z) (expected : FileIdentity) : X unit :=
  let quarantined := is_cleanup_name basename in
  let quarantine := if quarantined then basename else cleanupBasename basename in
  _ ← (if quarantined then mret tt else _ ← renameat2_noreplace h basename quarantine; inject);
  placed ← catch (identityAt h quarantine);
  match placed_as placed expected with
  | None =>
      _ ← (if quarantined then mret tt else _ ← catch (renameat2_noreplace h quarantine basename); mret tt);
      raise ErrSourceChanged
  | Some _ =>
      scrubbed ← scrubOpenFile fd;
      _ ← guard_if (negb (Device scrubbed =? Device expected) || negb (Inode scrubbed =? Inode expected)) ErrSourceChanged;
      _ ← inject;
      placed ← catch (identityAt h quarantine);
      match placed_as placed scrubbed with
      | None => raise ErrSourceChanged
      | Some now =>
          if negb (Size now =? 0) then raise ErrSourceChanged
          else
            _ ← unlinkat h quarantine;
            _ ← inject;
            syncDirectory h
      end
  end.

Definition removeOwnedFingerprintAt (h : Z) (basename : bytes) (expected : SourceFingerprint) (limit : Z) : X unit :=
  '(fd, current) ← openFingerprintAt h basename limit;
  if negb (sameFingerprintContent expected current false) then raise ErrSourceChanged
  else scrubAndRemoveOpen h basename fd (fp_Identity current).

Definition removeOwnedIdentityAt (h : Z) (basename : bytes) (expected : FileIdentity) : X unit :=
  fd ← look (sys_open h basename);
  stat ← catch (look (sys_fstat fd));
  match stat with
  | Err _ => raise (Failure "native cleanup source metadata is invalid")
  | Ok current =>
      if negb (is_regular (Mode current)) || negb (NLink current =? 1) then raise (Failure "native cleanup source metadata is invalid")
      else if negb (samePlacement expected current) then raise ErrSourceChanged
      else scrubAndRemoveOpen h basename fd current
  end.

(** The error a sequence of deferred calls joins: the first one, if any. *)
Definition join_errors (results : list (result WsError unit)) : result WsError unit :=
  fold_left (fun acc r =>
    match acc, r with
    | Err a, Err b => Err (Joined a b)
    | Err a, Ok _ => Err a
    | Ok _, r => r
    end) results (Ok tt).

(** The candidate before it is recorded: what is done through the descriptor.
    The fingerprint it leaves in the prepared entry is the second component of
    the state; it is set even when a later call fails. *)
Definition fill_candidate (id : bytes) (p : preparedReplacement) (h fd : Z)
    : X (result WsError unit * preparedReplacement) :=
  let content := rp_Content (replacement p) in
  staged ← catch (
    _ ← syscall (sys_fchmod fd 384);
    _ ← inject;
    _ ← write_all fd content;
    _ ← inject;
    _ ← syscall (fun _ => sys_fsync fd);
    identity ← look (sys_fstat fd);
    _ ← guard_if (negb (validCandidateIdentity service_uid identity) || negb (Size identity =? blen content))
          (Failure "staged native edit candidate evidence is invalid");
    mret identity);
  match staged with
  | Err e => mret (Err e, p)
  | Ok identity =>
      let p := set_candidate_fp (mk_fingerprint (rp_Path (replacement p)) identity (sha256 content)) p in
      recorded ← catch (
        _ ← inject;
        _ ← syncDirectory h;
        database (MarkCandidate service_uid id (ordinal p) identity));
      mret (recorded, p)
  end.

(** The deferred scrubbing of a candidate that could not be completed. *)
Definition scrub_failed (h fd : Z) (p : preparedReplacement) : X (list (result WsError unit) * preparedReplacement) :=
  scrubbed ← catch (scrubOpenFile fd);
  let p := match scrubbed with
           | Ok identity => set_candidate_fp (mk_fingerprint (rp_Path (replacement p)) identity (sha256 [])) p
           | Err _ => p
           end in
  synced ← catch (syncDirectory h);
  let p := if is_err scrubbed || is_err synced then set_uncertain true p else p in
  mret ([match scrubbed with Ok _ => Ok tt | Err e => Err e end; synced], p).

(** It changes its entry whether or not it fails. *)
Definition stageCandidate (id : bytes) (p : preparedReplacement) : X (result WsError unit * preparedReplacement) :=
  match parent p with
  | None => mret (Err (Failure "directory is unavailable"), p)
  | Some h =>
      created ← catch (_ ← ctx_err; syscall (sys_create service_uid service_gid h (stage p)));
      match created with
      | Err e => mret (Err e, p)
      | Ok fd =>
          '(r, p) ← fill_candidate id p h fd;
          '(cleanup, p) ← (if is_err r then scrub_failed h fd p else mret ([], p));
          closed ← catch checkpoint;
          mret (join_errors (r :: cleanup ++ [closed]), p)
      end
  end.

(** The displaced original does not match: exchange back while the active file
    is still the candidate. *)
Definition exchange_back (h : Z) (target : bytes) (p : preparedReplacement) : X preparedReplacement :=
  current ← catch (fingerprintAt h target (maximumFileLimit (rp_Role (replacement p))));
  match current with
  | Ok active =>
      if sameFingerprintContent (candidate p) active false then
        exchanged ← catch (renameat2_exchange h (stage p) target);
        if is_err exchanged then mret p
        else
          synced ← catch (syncDirectory h);
          mret (if is_err synced then p else set_activated false p)
      else mret p
  | Err _ => mret p
  end.

(** The displaced original, when the target existed. *)
Definition displaced_original (h : Z) (expected : SourceFingerprint) (p : preparedReplacement) : X (option SourceFingerprint) :=
  if existed p then
    displaced ← catch (fingerprintAt h (stage p) (maximumFileLimit (rp_Role (replacement p))));
    match displaced with
    | Ok d => mret (if sameFingerprintContent expected d false then Some d else None)
    | Err _ => mret None
    end
  else mret (Some no_fingerprint).

(** Synchronize the activated entry and record it as applied. *)
Definition settle_applied (id : bytes) (h : Z) (target : bytes) (p : preparedReplacement) : X unit :=
  let limit := maximumFileLimit (rp_Role (replacement p)) in
  _ ← inject;
  _ ← inject;
  _ ← syncDirectory h;
  _ ← inject;
  placed ← catch (fingerprintAt h target limit);
  match placed with
  | Err _ => raise ErrSourceChanged
  | Ok placedCandidate =>
      if negb (sameFingerprintContent (candidate p) placedCandidate false) then raise ErrSourceChanged
      else
        confirmed ← displaced_original h (original p) p;
        match confirmed with
        | None => raise ErrSourceChanged
        | Some confirmedOriginal =>
            _ ← database (MarkApplied service_uid id (ordinal p) (fp_Identity placedCandidate) (fp_Identity confirmedOriginal));
            inject
        end
  end.

(** Remove the displaced original. *)
Definition remove_displaced (h : Z) (p : preparedReplacement) : X unit :=
  if existed p then
    _ ← inject;
    _ ← mapping (Joined ErrSourceChanged)
          (removeOwnedFingerprintAt h (stage p) (original p) (maximumFileLimit (rp_Role (replacement p))));
    _ ← inject;
    syncDirectory h
  else mret tt.

Definition activateCandidate (id : bytes) (p : preparedReplacement) : X (result WsError unit * preparedReplacement) :=
  match parent p with
  | None => mret (Err (Failure "directory is unavailable"), p)
  | Some h =>
      let target := Base (rp_Path (replacement p)) in
      let limit := maximumFileLimit (rp_Role (replacement p)) in
      renamed ← catch (_ ← ctx_err; if existed p then renameat2_exchange h (stage p) target else renameat2_noreplace h (stage p) target);
      match renamed with
      | Err e => mret (Err e, p)
      | Ok _ =>
          let p := set_activated true p in
          injected ← catch inject;
          match injected with
          | Err e => mret (Err e, p)
          | Ok _ =>
              active ← catch (fingerprintAt h target limit);
              match active with
              | Ok active =>
                  if negb (sameFingerprintContent (candidate p) active false)
                  then mret (Err (Failure "active native edit candidate changed during replacement"), p)
                  else
                    placed ← displaced_original h (original p) p;
                    match placed with
                    | None => p ← exchange_back h target p; mret (Err ErrSourceChanged, p)
                    | Some placedOriginal =>
                        marked ← catch (database (MarkPlacement service_uid id (ordinal p) (fp_Identity active) (fp_Identity placedOriginal)));
                        match marked with
                        | Err e => mret (Err e, p)
                        | Ok _ =>
                            let p := set_original_fp (with_identity (fp_Identity placedOriginal) (original p))
                                       (set_candidate_fp (with_identity (fp_Identity active) (candidate p)) p) in
                            r ← catch (_ ← settle_applied id h target p; remove_displaced h p);
                            mret (r, p)
                        end
                    end
              | Err _ => mret (Err (Failure "active native edit candidate changed during replacement"), p)
              end
          end
      end
  end.

(** ** Abandoning an edit *)

Definition discard_entry (p : preparedReplacement) : X (option WsError) :=
  match parent p with
  | None => mret None
  | Some h =>
      if cleanupUncertain p then mret (Some (Failure "native edit staging cleanup durability is uncertain"))
      else
        owned ← catch (ownedStageBasename h (stage p));
        match owned with
        | Err e => mret (Some e)
        | Ok None => mret None
        | Ok (Some basename) =>
            if negb (Exists (fp_Identity (candidate p))) then mret (Some (Failure "native edit staging identity is unavailable"))
            else
              removed ← catch (removeOwnedFingerprintAt h basename (candidate p) (maximumFileLimit (rp_Role (replacement p))));
              mret match removed with Err e => Some e | Ok _ => None end
        end
  end.

(** The last error of the entries, if any. *)
Fixpoint discard_entries (last : option WsError) (l : list preparedReplacement) : X (option WsError) :=
  match l with
  | [] => mret last
  | p :: l => e ← discard_entry p; discard_entries (match e with Some e => Some e | None => last end) l
  end.

Definition discardPrepared (j : Journal) (l : list preparedReplacement) : X unit :=
  failed ← discard_entries None l;
  match failed with
  | Some e => raise e
  | None => database (Clear (TransactionID j))
  end.
End Edit.
