(* ===== verification/WsSelect.v ===== *)
(** The adopted workspace: what a stored selection must satisfy, the checks of
    internal/workspace/store.go on every path, component, reference and
    diagnostic of a review. *)
From stdpp Require Import gmap.
From S2P Require Import Prelude.
From S2P Require Import GoText.
From S2P Require Import GoTime.
From S2P Require Import WsTypes.
From S2P Require Import WsJournal.
From S2P Require Import WsDisk.
From S2P Require Import WsAudit.
From S2P Require Import WsYaml.
From S2P Require Import WsInspect.

#[local] Open Scope Z_scope.

Record Selection := mk_selection { sl_Review : Review; sl_ReviewedAt : time }.

Definition maximumReferencedPaths : Z := 256.
Definition maximumPersistedPaths : Z := 3 + maximumReferencedPaths.
Definition maximumPersistedComponents : Z := 65536.
Definition maximumPersistedDiagnostics : Z := 1024.
Definition maximumDiagnosticDetail : Z := 256.

Abbreviation check := (result string unit).
(** [if cond { return errors.New(text) }] *)
Definition refuse (cond : bool) (text : string) : check := reject_if cond text.

Definition canonicalDigest (value : bytes) : bool :=
  (blen value =? 64) && forallb (fun c => is_digit c || in_range "a" "f" c) value.
Definition validateStoredReference (value : bytes) : bool :=
  negb (blen value =? 0) && (blen value <=? maximumPathBytes) && utf8_valid value && negb (existsb invalidPathRune (runes value)).

Definition validateModeType (mode : Z) (pathType : PathType) : check :=
  match pathType with
  | PathTypeDirectory => refuse (negb (Z.land mode S_IFMT =? S_IFDIR)) "directory type disagrees with mode"
  | PathTypeRegular => refuse (negb (Z.land mode S_IFMT =? S_IFREG)) "regular-file type disagrees with mode"
  | _ => Err "path type is not persistable"%string
  end.

(** The access of a component of root: a permission granted must come from the
    group or the other bits, and one refused must not be granted to all. *)
Definition root_access (granted : bool) (group other mask : Z) (relevant : bool) : bool :=
  (granted && negb (has_bits group mask) && negb (has_bits other mask)) || (negb granted && relevant && has_bits other mask).

Definition validateComponent (c : ComponentEvidence) (final : bool) (rootUID serviceUID : Z) : check :=
  _ ← refuse (negb (validateCanonicalStorePath (ce_Path c))) "canonical path is invalid";
  _ ← refuse (negb (ce_UID c =? rootUID) && negb (ce_UID c =? serviceUID)) "component owner is outside the reviewed identity boundary";
  _ ← validateModeType (ce_Mode c) (ce_Type c);
  _ ← refuse (negb final && negb (bool_decide (ce_Type c = PathTypeDirectory))) "non-final component is not a directory";
  let permissions := Z.land (ce_Mode c) 4095 in
  let rootStickyAncestor := negb final && (ce_UID c =? rootUID) && has_bits permissions 512 in
  _ ← refuse (has_bits permissions 18 && negb rootStickyAncestor) "component permits group or other writes";
  _ ← refuse (has_bits permissions 3072 || (has_bits permissions 512 && negb rootStickyAncestor))
        "component contains unsafe special permission bits";
  _ ← refuse (bool_decide (ce_Type c = PathTypeDirectory) && negb (Searchable (ce_Access c))) "component is not searchable";
  _ ← refuse (bool_decide (ce_Type c = PathTypeRegular) && Searchable (ce_Access c)) "regular-file component is marked searchable";
  if ce_UID c =? serviceUID then
    let owner := Z.land (Z.shiftr (ce_Mode c) 6) 7 in
    let want := mk_access (has_bits owner 4) (has_bits owner 2) (bool_decide (ce_Type c = PathTypeDirectory) && has_bits owner 1) in
    refuse (negb (bool_decide (ce_Access c = want))) "service-owned component access disagrees with its mode"
  else
    let group := Z.land (Z.shiftr (ce_Mode c) 3) 7 in
    let other := Z.land (ce_Mode c) 7 in
    _ ← refuse (root_access (Readable (ce_Access c)) group other 4 true) "root-owned component read access disagrees with its mode";
    _ ← refuse (root_access (Writable (ce_Access c)) group other 2 true) "root-owned component write access disagrees with its mode";
    refuse (root_access (Searchable (ce_Access c)) group other 1 (bool_decide (ce_Type c = PathTypeDirectory)))
      "root-owned component search access disagrees with its mode".

(** The directories and the path itself, from the root. *)
Fixpoint joined_paths (prefix : bytes) (parts : list bytes) : list bytes :=
  match parts with [] => [] | part :: rest => Join prefix part :: joined_paths (Join prefix part) rest end.
Definition expectedComponentPaths (path : bytes) : list bytes :=
  if bool_decide (path = [slash]) then [[slash]] else [slash] :: joined_paths [slash] (GoText.split_on slash (trim_root path)).

Definition sameStableComponent (left right : ComponentEvidence) : bool :=
  bool_decide (zero_component_nlink left = zero_component_nlink right).

Definition validateConfidentialFile (e : PathEvidence) (serviceUID : Z) : check :=
  _ ← refuse (negb (bool_decide (pe_Type e = PathTypeRegular)) || negb (NLink (pe_Identity e) =? 1) || negb (UID (pe_Identity e) =? serviceUID))
        "confidential file type, owner, or link count is invalid";
  _ ← refuse (has_bits (Mode (pe_Identity e)) 63) "confidential file grants group or other permissions";
  refuse (negb (Readable (pe_Access e))) "confidential file is not service-readable".

Definition validateReplacementParent (e : PathEvidence) : check :=
  match second_last (pe_Components e) with
  | None => Err "replacement parent is missing"%string
  | Some parent =>
      refuse (negb (bool_decide (ce_Type parent = PathTypeDirectory)) || negb (Writable (ce_Access parent)) || negb (Searchable (ce_Access parent)))
        "replacement parent is not writable and searchable"
  end.

Definition validateNativeReference (e : PathEvidence) (workingDirectory : bytes) : check :=
  _ ← refuse (negb (validateStoredReference (pe_Reference e))) "native reference has invalid text or length";
  refuse (negb (bool_decide (resolveNativePath workingDirectory (pe_Reference e) = Some (pe_Path e))))
    "native reference disagrees with the resolved path".

Fixpoint validate_components (rootUID serviceUID : Z) (l : list ComponentEvidence) (expected : list bytes) : check :=
  match l, expected with
  | c :: l, p :: expected =>
      _ ← refuse (negb (bool_decide (ce_Path c = p))) "component path disagrees with the canonical path";
      _ ← validateComponent c (match l with [] => true | _ => false end) rootUID serviceUID;
      validate_components rootUID serviceUID l expected
  | _, _ => Ok tt
  end.

(** The last component is the path. *)
Definition final_agrees (e : PathEvidence) (final : ComponentEvidence) : bool :=
  let i := pe_Identity e in
  bool_decide (ce_Path final = pe_Path e) && bool_decide (ce_Type final = pe_Type e) && (ce_Device final =? Device i)
  && (ce_Inode final =? Inode i) && (ce_Mode final =? Mode i) && (ce_UID final =? UID i) && (ce_GID final =? GID i)
  && bool_decide (ce_Access final = pe_Access e).

Definition is_directory (e : PathEvidence) : bool := bool_decide (pe_Type e = PathTypeDirectory).

(** The checks of one role. *)
Definition validate_role (e : PathEvidence) (expectedRole : PathRole) (workingDirectory : bytes) (serviceUID : Z) : check :=
  let a := pe_Access e in
  match expectedRole with
  | RoleWorkingDirectory =>
      refuse (negb (blen (pe_Reference e) =? 0) || negb (is_directory e) || negb (Readable a) || negb (Searchable a))
        "working-directory evidence is inconsistent"
  | RoleConfiguration =>
      _ ← refuse (negb (blen (pe_Reference e) =? 0)) "configuration contains a native reference";
      _ ← validateConfidentialFile e serviceUID;
      validateReplacementParent e
  | RoleStorage =>
      _ ← validateNativeReference e workingDirectory;
      refuse (negb (is_directory e) || negb (Readable a) || negb (Writable a) || negb (Searchable a)) "storage access evidence is inconsistent"
  | RoleDotenv =>
      _ ← validateNativeReference e workingDirectory;
      _ ← validateConfidentialFile e serviceUID;
      validateReplacementParent e
  | RoleWebroot =>
      _ ← validateNativeReference e workingDirectory;
      refuse (negb (is_directory e) || negb (Writable a) || negb (Searchable a)) "webroot access evidence is inconsistent"
  | _ => Err "path role is unknown"%string
  end.

Definition validatePathEvidence (e : PathEvidence) (expectedRole : PathRole) (workingDirectory : bytes) (rootUID serviceUID : Z)
    (root : ComponentEvidence) : check :=
  let i := pe_Identity e in
  _ ← refuse (negb (bool_decide (pe_Role e = expectedRole))) "path role is out of order";
  _ ← refuse (negb (validateCanonicalStorePath (pe_Path e))) "canonical path is invalid";
  _ ← refuse (negb (pe_Exists e) || negb (pe_Safe e)) "path is not present and safe";
  _ ← refuse ((Size i <? 0) || (NLink i =? 0)) "path size or link count is invalid";
  _ ← refuse (negb (validateStoreTime (ModifiedAt i))) "modified time";
  _ ← refuse (negb (validateStoreTime (ChangedAt i))) "changed time";
  _ ← refuse ((blen (pe_Components e) =? 0) || (maximumRecordedPathComponents <? blen (pe_Components e))) "component count is invalid";
  _ ← refuse (negb (Nat.eqb (List.length (pe_Components e)) (List.length (expectedComponentPaths (pe_Path e)))))
        "component count disagrees with the canonical path";
  _ ← validate_components rootUID serviceUID (pe_Components e) (expectedComponentPaths (pe_Path e));
  match head (pe_Components e), last (pe_Components e) with
  | Some first, Some final =>
      _ ← refuse (negb (sameStableComponent root first)) "filesystem-root evidence is inconsistent";
      _ ← refuse (negb (final_agrees e final)) "final component disagrees with path evidence";
      _ ← validateModeType (Mode i) (pe_Type e);
      validate_role e expectedRole workingDirectory serviceUID
  | _, _ => Err "component count is invalid"%string
  end.

(** No path before its predecessor, and equal paths by their references. *)
Fixpoint validateReferenceOrder (paths : list PathEvidence) : check :=
  match paths with
  | earlier :: ((later :: _) as rest) =>
      _ ← refuse (negb (text_le (pe_Path earlier) (pe_Path later))
                  || (bool_decide (pe_Path earlier = pe_Path later) && negb (text_le (pe_Reference earlier) (pe_Reference later))))
            "referenced paths are not in canonical order";
      validateReferenceOrder rest
  | _ => Ok tt
  end.

Definition precedence_detail : string := "both conventional names exist; .lego.yml takes precedence".
Definition validate_diagnostic (r : Review) (d : Diagnostic) : check :=
  _ ← refuse ((slen (dg_Detail d) =? 0) || (maximumDiagnosticDetail <? slen (dg_Detail d))) "adoptable review diagnostic detail is not bounded";
  refuse (negb (bool_decide (dg_Code d = CodeConfigurationPrecedence)) || negb (bool_decide (dg_Severity d = SeverityNotice))
          || negb (bool_decide (dg_Role d = RoleConfiguration)) || negb (bool_decide (rv_ConfigurationSource r = ConfigurationConventionalYML))
          || negb (bool_decide (dg_Path d = pe_Path (rv_Configuration r)))
          || negb (bool_decide (dg_Component d = Join (pe_Path (rv_WorkingDirectory r)) (to_bytes ".lego.yaml")))
          || negb (bool_decide (dg_Detail d = precedence_detail)))
    "adoptable review contains an invalid diagnostic".
Definition validateDiagnostics (r : Review) : check :=
  _ ← refuse (1 <? blen (rv_Diagnostics r)) "adoptable review has unexpected diagnostics";
  for_each (validate_diagnostic r) (rv_Diagnostics r).

(** The role the path at an index must have. *)
Definition expected_role (r : Review) (index : Z) : PathRole :=
  if index =? 0 then RoleWorkingDirectory
  else if index =? 1 then RoleConfiguration
  else if index =? 2 then RoleStorage
  else if 3 + blen (rv_DotenvFiles r) <=? index then RoleWebroot
  else RoleDotenv.

(** The loop over the paths with its index and its count of components. *)
Fixpoint validate_paths (r : Review) (root : ComponentEvidence) (serviceUID : Z) (index components : Z) (l : list PathEvidence) : check :=
  match l with
  | [] => Ok tt
  | e :: l =>
      _ ← validatePathEvidence e (expected_role r index) (pe_Path (rv_WorkingDirectory r)) (ce_UID root) serviceUID root;
      let components := components + blen (pe_Components e) in
      _ ← refuse (maximumPersistedComponents <? components) "workspace component count exceeds the persistence limit";
      validate_paths r root serviceUID (index + 1) components l
  end.

Definition conventional_path (r : Review) (name : string) : bool :=
  bool_decide (pe_Path (rv_Configuration r) = Join (pe_Path (rv_WorkingDirectory r)) (to_bytes name)).
Definition validate_source (r : Review) : check :=
  match rv_ConfigurationSource r with
  | ConfigurationExplicit => Ok tt
  | ConfigurationConventionalYML => refuse (negb (conventional_path r ".lego.yml")) "conventional .lego.yml path disagrees with the working directory"
  | ConfigurationConventionalYAML => refuse (negb (conventional_path r ".lego.yaml")) "conventional .lego.yaml path disagrees with the working directory"
  | NoSource => Err "configuration source is unknown"%string
  end.

Definition validateSelection `{Machine} (s : Selection) : check :=
  let r := sl_Review s in
  _ ← refuse (negb (rv_Adoptable r)) "review is not adoptable";
  _ ← refuse (negb (validateStoreTime (rv_ObservedAt r))) "observation time";
  _ ← refuse (negb (validateStoreTime (sl_ReviewedAt s))) "review time";
  _ ← refuse (GoTime.before (sl_ReviewedAt s) (rv_ObservedAt r)) "review time precedes observation time";
  _ ← refuse (negb (canonicalDigest (rv_ReviewedEvidenceSHA256 r))) "review fingerprint is not canonical lowercase SHA-256";
  _ ← refuse (negb (bool_decide (ReviewFingerprint r = rv_ReviewedEvidenceSHA256 r))) "review fingerprint does not match the persisted evidence";
  _ ← refuse (maximumReferencedPaths <? blen (rv_DotenvFiles r) + blen (rv_Webroots r)) "referenced path count exceeds the persistence limit";
  _ ← refuse (maximumPersistedPaths <? blen (AllPaths r)) "workspace path count exceeds the persistence limit";
  _ ← refuse (maximumPersistedDiagnostics <? blen (rv_Diagnostics r)) "workspace diagnostic count exceeds the persistence limit";
  _ ← refuse (negb (validateCanonicalStorePath (pe_Path (rv_WorkingDirectory r)))) "working directory";
  _ ← refuse (negb (validateCanonicalStorePath (pe_Path (rv_Configuration r)))) "configuration";
  _ ← validate_source r;
  match head (pe_Components (rv_WorkingDirectory r)) with
  | None => Err "working-directory component evidence is missing"%string
  | Some root =>
      let serviceUID := UID (pe_Identity (rv_Configuration r)) in
      _ ← refuse (serviceUID =? ce_UID root) "configuration owner cannot be the trusted filesystem-root identity";
      _ ← validate_paths r root serviceUID 0 0 (AllPaths r);
      _ ← validateReferenceOrder (rv_DotenvFiles r);
      _ ← validateReferenceOrder (rv_Webroots r);
      validateDiagnostics r
  end.
