(* ===== verification/WsStore.v ===== *)
(** The selection store: the tables of state/migrations/005_workspace.sql and
    the methods of [Store] in internal/workspace/store.go.  A selection is one
    header row with the rows of its paths, their components and its
    diagnostics, which are deleted with it. *)
From stdpp Require Import gmap.
From S2P Require Import Prelude.
From S2P Require Import GoText.
From S2P Require Import GoTime.
From S2P Require Import GoDecode.
From S2P Require Import Effects.
From S2P Require Import WsTypes.
From S2P Require Import WsJournal.
From S2P Require Import WsDisk.
From S2P Require Import WsAudit.
From S2P Require Import WsInspect.
From S2P Require Import WsSelect.

#[local] Open Scope Z_scope.

(** ** Tables *)

Record SelectionRow := mk_selection_row {
  s_configuration_source : ConfigurationSource;
  s_adoptable : Z;
  s_reviewed_evidence_sha256 : bytes;
  s_observed_at_utc : bytes;
  s_reviewed_at_utc : bytes;
}.
Record PathRow := mk_path_row {
  p_path_ordinal : Z; p_role : PathRole; p_reference_text : bytes; p_canonical_path : bytes; p_exists_flag : Z; p_path_type : PathType;
  p_device_decimal : bytes; p_inode_decimal : bytes; p_mode : Z; p_uid : Z; p_gid : Z; p_nlink_decimal : bytes; p_size_bytes : Z;
  p_modified_at_utc : bytes; p_changed_at_utc : bytes; p_readable : Z; p_writable : Z; p_searchable : Z; p_safe_flag : Z;
}.
Record ComponentRow := mk_component_row {
  k_path_ordinal : Z; k_component_ordinal : Z; k_canonical_path : bytes; k_path_type : PathType; k_device_decimal : bytes;
  k_inode_decimal : bytes; k_mode : Z; k_uid : Z; k_gid : Z; k_readable : Z; k_writable : Z; k_searchable : Z;
}.
Record DiagnosticRow := mk_diagnostic_row {
  g_diagnostic_ordinal : Z; g_code : ErrorCode; g_severity : DiagnosticSeverity; g_role : PathRole; g_path_text : bytes;
  g_component_text : bytes; g_detail : string;
}.
Record SelectionRows := mk_selection_rows {
  sr_header : SelectionRow; sr_paths : list PathRow; sr_components : list ComponentRow; sr_diagnostics : list DiagnosticRow;
}.

Definition within (lo n hi : Z) : bool := (lo <=? n) && (n <=? hi).
Definition selection_check (r : SelectionRow) : bool :=
  negb (bool_decide (s_configuration_source r = NoSource)) && (s_adoptable r =? 1)
  && (rune_count (s_reviewed_evidence_sha256 r) =? 64)
  && forallb (fun c => is_digit c || in_range "a" "f" c) (s_reviewed_evidence_sha256 r)
  && within 20 (rune_count (s_observed_at_utc r)) 30 && within 20 (rune_count (s_reviewed_at_utc r)) 30.
Definition stored_role (r : PathRole) : bool :=
  match r with RoleWorkingDirectory | RoleConfiguration | RoleStorage | RoleDotenv | RoleWebroot => true | _ => false end.
Definition stored_type (t : PathType) : bool := match t with PathTypeDirectory | PathTypeRegular => true | _ => false end.
Definition path_row_check (r : PathRow) : bool :=
  within 0 (p_path_ordinal r) 258 && stored_role (p_role r) && (blen (p_reference_text r) <=? 4095) && path_check (p_canonical_path r)
  && (p_exists_flag r =? 1) && stored_type (p_path_type r) && decimal_check (p_device_decimal r) && decimal_check (p_inode_decimal r)
  && uint32_check (p_mode r) && uint32_check (p_uid r) && uint32_check (p_gid r) && decimal_check (p_nlink_decimal r)
  && (0 <=? p_size_bytes r) && within 20 (rune_count (p_modified_at_utc r)) 30 && within 20 (rune_count (p_changed_at_utc r)) 30
  && bit_check (p_readable r) && bit_check (p_writable r) && bit_check (p_searchable r) && (p_safe_flag r =? 1).
Definition component_row_check (r : ComponentRow) : bool :=
  within 0 (k_component_ordinal r) 63 && path_check (k_canonical_path r) && stored_type (k_path_type r)
  && decimal_check (k_device_decimal r) && decimal_check (k_inode_decimal r) && uint32_check (k_mode r) && uint32_check (k_uid r)
  && uint32_check (k_gid r) && bit_check (k_readable r) && bit_check (k_writable r) && bit_check (k_searchable r).
Definition diagnostic_row_check (r : DiagnosticRow) : bool :=
  within 0 (g_diagnostic_ordinal r) 1023 && within 1 (slen (code_text (g_code r))) 64 && bool_decide (g_severity r = SeverityNotice)
  && stored_role (g_role r) && path_check (g_path_text r) && (blen (g_component_text r) <=? 4095) && within 1 (slen (g_detail r)) 256.

(** ** Statements *)

Abbreviation SDb := (Db SelectionRows).
Abbreviation SStore := (M (world SDb) WsError).
Abbreviation STx := (M (txn SDb) WsError).
#[local] Existing Instance ws_db_error.

Definition set_selection (s : option SelectionRows) (d : SDb) : SDb := mk_db (edit_journal d) (edit_journal_file d) s.

(** The children go with the row. *)
Definition delete_selection (d : SDb) : option (unit * SDb) := Some (tt, set_selection None d).
Definition insert_selection (r : SelectionRow) (d : SDb) : option (unit * SDb) :=
  match selection d with
  | Some _ => None
  | None => if selection_check r then Some (tt, set_selection (Some (mk_selection_rows r [] [] [])) d) else None
  end.
Definition insert_path (r : PathRow) (d : SDb) : option (unit * SDb) :=
  match selection d with
  | Some t =>
      if path_row_check r && forallb (fun o => negb (p_path_ordinal o =? p_path_ordinal r)) (sr_paths t)
      then Some (tt, set_selection (Some (mk_selection_rows (sr_header t) (sr_paths t ++ [r]) (sr_components t) (sr_diagnostics t))) d)
      else None
  | None => None
  end.
Definition insert_component (r : ComponentRow) (d : SDb) : option (unit * SDb) :=
  match selection d with
  | Some t =>
      if component_row_check r && existsb (fun o => p_path_ordinal o =? k_path_ordinal r) (sr_paths t)
         && forallb (fun o => negb ((k_path_ordinal o =? k_path_ordinal r) && (k_component_ordinal o =? k_component_ordinal r))) (sr_components t)
      then Some (tt, set_selection (Some (mk_selection_rows (sr_header t) (sr_paths t) (sr_components t ++ [r]) (sr_diagnostics t))) d)
      else None
  | None => None
  end.
Definition insert_diagnostic (r : DiagnosticRow) (d : SDb) : option (unit * SDb) :=
  match selection d with
  | Some t =>
      if diagnostic_row_check r && forallb (fun o => negb (g_diagnostic_ordinal o =? g_diagnostic_ordinal r)) (sr_diagnostics t)
      then Some (tt, set_selection (Some (mk_selection_rows (sr_header t) (sr_paths t) (sr_components t) (sr_diagnostics t ++ [r]))) d)
      else None
  | None => None
  end.

Definition select_paths (d : SDb) : list PathRow :=
  match selection d with Some t => sort_by (fun a b => p_path_ordinal a <=? p_path_ordinal b) (sr_paths t) | None => [] end.
Definition component_le (a b : ComponentRow) : bool :=
  (k_path_ordinal a <? k_path_ordinal b)
  || ((k_path_ordinal a =? k_path_ordinal b) && (k_component_ordinal a <=? k_component_ordinal b)).
Definition select_components (d : SDb) : list ComponentRow :=
  match selection d with Some t => sort_by component_le (sr_components t) | None => [] end.
Definition select_diagnostics (d : SDb) : list DiagnosticRow :=
  match selection d with Some t => sort_by (fun a b => g_diagnostic_ordinal a <=? g_diagnostic_ordinal b) (sr_diagnostics t) | None => [] end.

(** [UPDATE workspace_selection SET reviewed_evidence_sha256 = ? WHERE ... = ?] *)
Definition upgrade_fingerprint (current legacy : bytes) (d : SDb) : option (Z * SDb) :=
  match selection d with
  | Some t =>
      let h := sr_header t in
      if bool_decide (s_reviewed_evidence_sha256 h = legacy) then
        let h := mk_selection_row (s_configuration_source h) (s_adoptable h) current (s_observed_at_utc h) (s_reviewed_at_utc h) in
        if selection_check h then Some (1, set_selection (Some (mk_selection_rows h (sr_paths t) (sr_components t) (sr_diagnostics t))) d)
        else None
      else Some (0, d)
  | None => Some (0, d)
  end.

(** ** Saving *)

Definition selection_row (s : Selection) : SelectionRow :=
  let r := sl_Review s in
  mk_selection_row (rv_ConfigurationSource r) (boolInteger (rv_Adoptable r)) (rv_ReviewedEvidenceSHA256 r) (formatStoreTime (rv_ObservedAt r))
    (formatStoreTime (sl_ReviewedAt s)).
Definition path_row (ordinal : Z) (e : PathEvidence) : PathRow :=
  let i := pe_Identity e in
  mk_path_row ordinal (pe_Role e) (pe_Reference e) (pe_Path e) (boolInteger (pe_Exists e)) (pe_Type e) (itoa (Device i)) (itoa (Inode i))
    (Mode i) (UID i) (GID i) (itoa (NLink i)) (Size i) (formatStoreTime (ModifiedAt i)) (formatStoreTime (ChangedAt i))
    (boolInteger (Readable (pe_Access e))) (boolInteger (Writable (pe_Access e))) (boolInteger (Searchable (pe_Access e)))
    (boolInteger (pe_Safe e)).
Definition component_row (path_ordinal ordinal : Z) (c : ComponentEvidence) : ComponentRow :=
  mk_component_row path_ordinal ordinal (ce_Path c) (ce_Type c) (itoa (ce_Device c)) (itoa (ce_Inode c)) (ce_Mode c) (ce_UID c) (ce_GID c)
    (boolInteger (Readable (ce_Access c))) (boolInteger (Writable (ce_Access c))) (boolInteger (Searchable (ce_Access c))).
Definition diagnostic_row (ordinal : Z) (d : Diagnostic) : DiagnosticRow :=
  mk_diagnostic_row ordinal (dg_Code d) (dg_Severity d) (dg_Role d) (dg_Path d) (dg_Component d) (dg_Detail d).

Definition save_path (indexed_path : Z * PathEvidence) : STx unit :=
  let '(ordinal, e) := indexed_path in
  _ ← statement "save workspace path" (insert_path (path_row ordinal e));
  for_each_m (fun '(k, c) => statement "save workspace component" (insert_component (component_row ordinal k c))) (indexed (pe_Components e)).

Definition saveSelectionInTransaction (s : Selection) : STx unit :=
  let r := sl_Review s in
  _ ← statement "replace workspace selection" delete_selection;
  _ ← statement "save workspace selection" (insert_selection (selection_row s));
  _ ← for_each_m save_path (indexed (AllPaths r));
  for_each_m (fun '(k, d) => statement "save workspace diagnostic" (insert_diagnostic (diagnostic_row k d))) (indexed (rv_Diagnostics r)).

(** ** Loading *)

Definition storedUint32 (value : Z) : result WsError Z :=
  if (value <? 0) || (4294967295 <? value) then Err (Failure "is outside unsigned 32-bit range") else Ok value.

Definition persisted_selection (r : SelectionRow) : result WsError Selection :=
  adoptable ← storedBoolean (s_adoptable r);
  observedAt ← parseStoreTime (s_observed_at_utc r);
  reviewedAt ← parseStoreTime (s_reviewed_at_utc r);
  Ok (mk_selection (mk_review (s_configuration_source r) no_evidence no_evidence no_evidence [] [] [] adoptable
                      (s_reviewed_evidence_sha256 r) observedAt) reviewedAt).

Definition persisted_path (r : PathRow) : result WsError PathEvidence :=
  device ← canonicalUint64 (p_device_decimal r);
  inode ← canonicalUint64 (p_inode_decimal r);
  nlink ← canonicalUint64 (p_nlink_decimal r);
  mode ← storedUint32 (p_mode r);
  uid ← storedUint32 (p_uid r);
  gid ← storedUint32 (p_gid r);
  modifiedAt ← parseStoreTime (p_modified_at_utc r);
  changedAt ← parseStoreTime (p_changed_at_utc r);
  exists_ ← storedBoolean (p_exists_flag r);
  readable ← storedBoolean (p_readable r);
  writable ← storedBoolean (p_writable r);
  searchable ← storedBoolean (p_searchable r);
  safe ← storedBoolean (p_safe_flag r);
  Ok (mk_evidence (p_role r) (p_reference_text r) (p_canonical_path r) (p_path_type r)
        (mk_identity exists_ device inode mode uid gid nlink (p_size_bytes r) modifiedAt changedAt)
        (mk_access readable writable searchable) [] safe).

Definition persisted_component (r : ComponentRow) : result WsError ComponentEvidence :=
  device ← canonicalUint64 (k_device_decimal r);
  inode ← canonicalUint64 (k_inode_decimal r);
  mode ← storedUint32 (k_mode r);
  uid ← storedUint32 (k_uid r);
  gid ← storedUint32 (k_gid r);
  readable ← storedBoolean (k_readable r);
  writable ← storedBoolean (k_writable r);
  searchable ← storedBoolean (k_searchable r);
  Ok (mk_component (k_canonical_path r) (k_path_type r) device inode mode uid gid 0 (mk_access readable writable searchable)).

Fixpoint loadPersistedPaths (index : Z) (rows : list PathRow) : result WsError (list PathEvidence) :=
  match rows with
  | [] => Ok []
  | r :: rows =>
      _ ← reject_if (maximumPersistedPaths <=? index) (Failure "workspace path count exceeds the persistence limit");
      _ ← reject_if (negb (p_path_ordinal r =? index)) (Failure "workspace path ordinals are not contiguous");
      e ← persisted_path r;
      rest ← loadPersistedPaths (index + 1) rows;
      Ok (e :: rest)
  end.

(** Each row appended to the path it names. *)
Fixpoint loadPersistedComponents (count : Z) (rows : list ComponentRow) (paths : list PathEvidence) : result WsError (list PathEvidence) :=
  match rows with
  | [] => Ok paths
  | r :: rows =>
      let count := count + 1 in
      _ ← reject_if (maximumPersistedComponents <? count) (Failure "workspace component count exceeds the persistence limit");
      _ ← reject_if ((k_path_ordinal r <? 0) || (blen paths <=? k_path_ordinal r)) (Failure "workspace component references an unknown path");
      match paths !! Z.to_nat (k_path_ordinal r) with
      | None => Err (Failure "workspace component references an unknown path")
      | Some e =>
          _ ← reject_if (negb (k_component_ordinal r =? blen (pe_Components e))) (Failure "workspace component ordinals are not contiguous");
          _ ← reject_if (maximumRecordedPathComponents <=? blen (pe_Components e)) (Failure "workspace path has too many components");
          c ← persisted_component r;
          loadPersistedComponents count rows (<[Z.to_nat (k_path_ordinal r) := add_component e c]> paths)
      end
  end.

Fixpoint loadPersistedDiagnostics (index : Z) (rows : list DiagnosticRow) : result WsError (list Diagnostic) :=
  match rows with
  | [] => Ok []
  | r :: rows =>
      _ ← reject_if (maximumPersistedDiagnostics <=? index) (Failure "workspace diagnostic count exceeds the persistence limit");
      _ ← reject_if (negb (g_diagnostic_ordinal r =? index)) (Failure "workspace diagnostic ordinals are not contiguous");
      rest ← loadPersistedDiagnostics (index + 1) rows;
      Ok (mk_diagnostic (g_code r) (g_severity r) (g_role r) (g_path_text r) (g_component_text r) (g_detail r) :: rest)
  end.

(** The dotenv paths, then the webroots. *)
Fixpoint split_roles (seenWebroot : bool) (l : list PathEvidence) : result WsError (list PathEvidence * list PathEvidence) :=
  match l with
  | [] => Ok ([], [])
  | e :: l =>
      match pe_Role e with
      | RoleDotenv =>
          _ ← reject_if seenWebroot (Failure "workspace path roles are out of order");
          '(dotenv, webroots) ← split_roles seenWebroot l;
          Ok (e :: dotenv, webroots)
      | RoleWebroot => '(dotenv, webroots) ← split_roles true l; Ok (dotenv, e :: webroots)
      | _ => Err (Failure "workspace path role is unexpected")
      end
  end.

(** The loaded parts put together. *)
Definition assembled (s : Selection) (paths : list PathEvidence) (ds : list Diagnostic) : result WsError Selection :=
  match paths with
  | working :: configuration :: storage :: rest =>
      '(dotenv, webroots) ← split_roles false rest;
      let r := sl_Review s in
      Ok (mk_selection (mk_review (rv_ConfigurationSource r) working configuration storage dotenv webroots ds (rv_Adoptable r)
                          (rv_ReviewedEvidenceSHA256 r) (rv_ObservedAt r)) (sl_ReviewedAt s))
  | _ => Err (Failure "required workspace paths are missing")
  end.

Definition set_digest (digest : bytes) (s : Selection) : Selection :=
  let r := sl_Review s in
  mk_selection (mk_review (rv_ConfigurationSource r) (rv_WorkingDirectory r) (rv_Configuration r) (rv_Storage r) (rv_DotenvFiles r)
                  (rv_Webroots r) (rv_Diagnostics r) (rv_Adoptable r) digest (rv_ObservedAt r)) (sl_ReviewedAt s).

Section Methods.
Context `{Machine}.

(** [persistedInvalid]: whatever fails is an invalid selection. *)
Definition persistedInvalid {A} (m : STx A) : STx A := r ← attempt m; lift (map_err (fun _ => ErrInvalidSelection) r).

(** The digest the evidence has now, and the stored one when it is of the
    first version. *)
Definition check_fingerprint (s : Selection) : result WsError (Selection * option bytes) :=
  let stored := rv_ReviewedEvidenceSHA256 (sl_Review s) in
  let current := ReviewFingerprint (sl_Review s) in
  if bool_decide (stored = current) then Ok (s, None)
  else if bool_decide (stored = legacyReviewFingerprintV1 (sl_Review s)) then Ok (set_digest current s, Some stored)
  else Err (Failure "review fingerprint does not match persisted evidence").

Definition Store_Load : SStore Selection :=
  transaction "begin workspace selection load" (
    header ← query "load workspace selection" (fun d : SDb => sr_header <$> selection d);
    match header with
    | None => fail ErrNoSelection
    | Some h =>
        s ← persistedInvalid (lift (persisted_selection h));
        paths ← persistedInvalid (rows ← query "query workspace paths" select_paths; lift (loadPersistedPaths 0 rows));
        paths ← persistedInvalid (rows ← query "query workspace components" select_components; lift (loadPersistedComponents 0 rows paths));
        ds ← persistedInvalid (rows ← query "query workspace diagnostics" select_diagnostics; lift (loadPersistedDiagnostics 0 rows));
        s ← persistedInvalid (lift (assembled s paths ds));
        '(s, legacy) ← persistedInvalid (lift (check_fingerprint s));
        _ ← persistedInvalid (lift (reject_if (is_err (validateSelection s)) (Failure "invalid")));
        _ ← (match legacy with
             | None => mret tt
             | Some digest =>
                 affected ← statement "upgrade workspace review fingerprint" (upgrade_fingerprint (rv_ReviewedEvidenceSHA256 (sl_Review s)) digest);
                 lift (requireOneRow affected)
             end);
        _ ← commit "finish workspace selection load";
        mret s
    end).

Definition Store_Save (s : Selection) : SStore unit :=
  _ ← lift (reject_if (is_err (validateSelection s)) ErrInvalidSelection);
  transaction "begin workspace selection save" (
    _ ← saveSelectionInTransaction s;
    commit "commit workspace selection").

Definition Store_Clear : SStore unit :=
  transaction "begin workspace selection clear" (
    _ ← statement "clear workspace selection" delete_selection;
    commit "commit workspace selection clear").

Definition FinalizeEdit (s : Selection) (id : bytes) : SStore unit :=
  _ ← lift (reject_if (negb (validTransactionID id)) (Failure "native edit transaction identifier is invalid"));
  _ ← lift (reject_if (is_err (validateSelection s)) ErrInvalidSelection);
  transaction "begin native edit finalization" (
    persisted ← query "load native edit journal for finalization" (fun d : SDb => h_transaction_id <$> edit_journal d);
    _ ← lift (match persisted with
              | None => Err (Failure "load native edit journal for finalization")
              | Some persistedID => reject_if (negb (bool_decide (persistedID = id))) (Failure "native edit journal changed before finalization")
              end);
    _ ← saveSelectionInTransaction s;
    affected ← statement "clear finalized native edit journal" (delete_journal id);
    _ ← lift (reject_if (negb (affected =? 1)) (Failure "native edit journal was not cleared during finalization"));
    commit "commit native edit finalization").
End Methods.
