(* ===== verification/WsCommit.v ===== *)
(** The native edit as a whole: reading the reviewed sources, auditing the
    candidate and the journaled replacement, as in
    internal/workspace/transaction_manager_linux.go and
    transaction_commit_linux.go. *)
From stdpp Require Import gmap.
From S2P Require Import Prelude.
From S2P Require Import GoText.
From S2P Require Import GoTime.
From S2P Require Import GoDecode.
From S2P Require Import Effects.
From S2P Require Import WsTypes.
From S2P Require Import WsJournal.
From S2P Require Import WsDisk.
From S2P Require Import WsAudit.
From S2P Require Import WsYaml.
From S2P Require Import WsInspect.
From S2P Require Import WsSelect.
From S2P Require Import WsStore.
From S2P Require Import WsEdit.

#[local] Open Scope Z_scope.

Record SourceFile := mk_source {
  sf_Role : PathRole; sf_Path : bytes; sf_Reference : bytes; sf_Content : bytes; sf_Fingerprint : SourceFingerprint;
}.
(** A set that is nil or closed is [None] where the code takes a pointer. *)
Record SourceSet := mk_sources { ss_Selection : Selection; ss_Configuration : SourceFile; ss_Dotenv : list SourceFile }.
Definition Files (s : SourceSet) : list SourceFile := ss_Configuration s :: ss_Dotenv s.

Record CandidatePath := mk_candidate_path {
  cp_Role : PathRole; cp_Reference : bytes; cp_Path : bytes; cp_Exists : bool; cp_WillCreate : bool; cp_Evidence : PathEvidence;
}.
Record CandidateAudit := mk_candidate_audit {
  ca_Storage : PathEvidence; ca_Dotenv : list CandidatePath; ca_Webroots : list PathEvidence;
}.
Record CommitPlan := mk_plan { pl_Sources : option SourceSet; pl_CandidateConfiguration : bytes; pl_Replacements : list Replacement }.

Definition sourceForPath (s : SourceSet) (path : bytes) : option SourceFile :=
  if bool_decide (sf_Path (ss_Configuration s) = path) then Some (ss_Configuration s)
  else List.find (fun f => bool_decide (sf_Path f = path)) (ss_Dotenv s).
Definition replacement_for (l : list Replacement) (path : bytes) : option Replacement :=
  List.find (fun r => bool_decide (rp_Path r = path)) l.
Definition pathEvidenceForPath (r : Review) (path : bytes) : PathEvidence :=
  default no_evidence (List.find (fun e => bool_decide (pe_Path e = path)) (AllPaths r)).

(** Dotenv files before the configuration, then by path. *)
Definition replacement_le (a b : Replacement) : bool :=
  if bool_decide (rp_Role a = rp_Role b) then text_le (rp_Path a) (rp_Path b) else bool_decide (rp_Role a = RoleDotenv).
Definition sortReplacements (l : list Replacement) : list Replacement := sort_by replacement_le l.

(** ** Comparing evidence *)

Definition samePathPlacementEvidence (left right : PathEvidence) : bool :=
  samePathEvidence (zero_volatile false left) (zero_volatile false right).
Definition samePathPlacementEvidenceSlice (l k : list PathEvidence) : bool := same_all samePathPlacementEvidence l k.
Definition ancestorComponents (e : PathEvidence) : list ComponentEvidence :=
  match last (pe_Components e) with
  | Some c => if bool_decide (ce_Path c = pe_Path e) then removelast (pe_Components e) else pe_Components e
  | None => pe_Components e
  end.
Definition samePathAncestorEvidence (left right : PathEvidence) : bool :=
  bool_decide (pe_Role left = pe_Role right) && bool_decide (pe_Reference left = pe_Reference right)
  && bool_decide (pe_Path left = pe_Path right)
  && bool_decide (zero_component_nlink <$> ancestorComponents left = zero_component_nlink <$> ancestorComponents right).
Definition same_candidate_path (left right : CandidatePath) : bool :=
  bool_decide (cp_Role left = cp_Role right) && bool_decide (cp_Reference left = cp_Reference right)
  && bool_decide (cp_Path left = cp_Path right) && Bool.eqb (cp_Exists left) (cp_Exists right)
  && Bool.eqb (cp_WillCreate left) (cp_WillCreate right) && samePathPlacementEvidence (cp_Evidence left) (cp_Evidence right).
Fixpoint same_candidate_paths (l k : list CandidatePath) : bool :=
  match l, k with
  | [], [] => true
  | x :: l, y :: k => same_candidate_path x y && same_candidate_paths l k
  | _, _ => false
  end.
Definition sameCandidateAudit (left right : CandidateAudit) : bool :=
  samePathPlacementEvidence (ca_Storage left) (ca_Storage right)
  && samePathPlacementEvidenceSlice (ca_Webroots left) (ca_Webroots right) && same_candidate_paths (ca_Dotenv left) (ca_Dotenv right).

(** ** The replacement set *)

(** One replacement after those already accepted. *)
Definition validate_replacement (s : SourceSet) (candidate : bytes) (accepted : list Replacement) (r : Replacement) : result WsError unit :=
  let configuration := bool_decide (rp_Role r = RoleConfiguration) in
  _ ← reject_if (negb configuration && negb (bool_decide (rp_Role r = RoleDotenv))) ErrInvalidEdit;
  _ ← reject_if (negb (validateSelectedPath (rp_Path r))) ErrInvalidEdit;
  _ ← reject_if (match sourceForPath s (rp_Path r) with Some f => negb (bool_decide (sf_Role f = rp_Role r)) | None => false end) ErrInvalidEdit;
  _ ← reject_if (configuration && (blen (rp_Content r) =? 0)) ErrInvalidEdit;
  _ ← reject_if (configuration && (negb (bool_decide (rp_Path r = sf_Path (ss_Configuration s))) || negb (bool_decide (rp_Content r = candidate))))
        ErrInvalidEdit;
  _ ← reject_if (maximumFileLimit (rp_Role r) <? blen (rp_Content r)) ErrInvalidEdit;
  reject_if (bool_decide (is_Some (replacement_for accepted (rp_Path r)))) ErrInvalidEdit.
Fixpoint validate_replacements (s : SourceSet) (candidate : bytes) (accepted l : list Replacement) : result WsError (list Replacement) :=
  match l with
  | [] => Ok accepted
  | r :: l => _ ← validate_replacement s candidate accepted r; validate_replacements s candidate (accepted ++ [r]) l
  end.
Definition validateReplacementSet (s : SourceSet) (candidate : bytes) (l : list Replacement) : result WsError (list Replacement) :=
  _ ← reject_if ((blen l =? 0) || (maximumEditFiles <? blen l)) ErrInvalidEdit;
  accepted ← validate_replacements s candidate [] l;
  let configurationSeen := existsb (fun r => bool_decide (rp_Role r = RoleConfiguration)) l in
  let configurationChanged := negb (bool_decide (candidate = sf_Content (ss_Configuration s))) in
  _ ← reject_if (negb (Bool.eqb configurationChanged configurationSeen)) ErrInvalidEdit;
  Ok accepted.

Section Commit.
Context `{Machine} `{Yaml} (policy : Policy).
Abbreviation X := (X (Selection := SelectionRows)).

(** A valid lease and a live context. *)
Definition ready : X unit := checkpoint.
Definition blocked (a : auditedPath) : bool := negb (pe_Safe (evidence a)) || hasBlockingDiagnostics (diagnostics a).

(** ** Reading the sources *)

Definition sourceRequirements : pathRequirements := mk_requirements PathTypeRegular true true false false true true.

Definition readSource (reviewed : PathEvidence) (limit : Z) : X SourceFile :=
  let audit := auditPath (pe_Path reviewed) (pe_Role reviewed) (pe_Reference reviewed) sourceRequirements policy in
  audited ← audit;
  match file audited with
  | None => raise ErrSourceChanged
  | Some fd =>
      _ ← guard_if (blocked audited || negb (samePathEvidence reviewed (evidence audited))) ErrSourceChanged;
      before ← look (sys_fstat fd);
      _ ← checkpoint;
      contents ← look (sys_read fd (limit + 1));
      _ ← guard_if (limit <? blen contents) ErrInvalidEdit;
      after ← catch (look (sys_fstat fd));
      let stable := match after with Ok after => sameStableStat before after && (blen contents =? Size before) | Err _ => false end in
      _ ← guard_if (negb stable) ErrSourceChanged;
      confirmation ← audit;
      _ ← guard_if (negb (samePathEvidence (evidence audited) (evidence confirmation))) ErrSourceChanged;
      mret (mk_source (pe_Role reviewed) (pe_Path reviewed) (pe_Reference reviewed) contents
              (mk_fingerprint (pe_Path reviewed) before (sha256 contents)))
  end.

Fixpoint read_sources (l : list PathEvidence) : X (list SourceFile) :=
  match l with
  | [] => mret []
  | e :: l => f ← readSource e maximumDotenvBytes; rest ← read_sources l; mret (f :: rest)
  end.

(** The later of the clock and the observation. *)
Definition review_time (r : Review) : X time :=
  t ← now_utc; mret (if GoTime.before t (rv_ObservedAt r) then rv_ObservedAt r else t).

Definition snapshotSelection (s : Selection) : X SourceSet :=
  current ← mapping (fun _ => ErrSourceChanged) (Verify policy (sl_Review s));
  configuration ← readSource (rv_Configuration current) (MaxConfigurationBytes policy);
  dotenv ← read_sources (rv_DotenvFiles current);
  confirmed ← mapping (fun _ => ErrSourceChanged) (Verify policy current);
  _ ← guard_if (negb (samePathEvidence (rv_Configuration current) (rv_Configuration confirmed))
                || negb (samePathEvidenceSlice (rv_DotenvFiles current) (rv_DotenvFiles confirmed))) ErrSourceChanged;
  reviewedAt ← review_time confirmed;
  mret (mk_sources (mk_selection confirmed reviewedAt) configuration dotenv).

(** No journal may be pending. *)
Definition no_pending : X unit :=
  pending ← catch (database (Load service_uid));
  match pending with
  | Ok _ => raise ErrRecoveryRequired
  | Err e => if is_error ErrNoEditJournal e then mret tt else raise e
  end.

Definition Snapshot : X SourceSet :=
  _ ← ready;
  _ ← no_pending;
  selection ← database Store_Load;
  snapshotSelection selection.

(** ** Auditing the candidate *)

Definition parentRequirements : pathRequirements := mk_requirements PathTypeDirectory false false true true false false.
Definition absentRequirements : pathRequirements := mk_requirements PathTypeRegular false false false false false false.

Definition auditCreatableTarget (target : bytes) : X unit :=
  _ ← guard_if (negb (validateSelectedPath target)) ErrInvalidEdit;
  parent ← auditPath (Dir target) RoleDotenv [] parentRequirements policy;
  _ ← checkpoint;
  _ ← guard_if (blocked parent) ErrInvalidEdit;
  final ← auditPath target RoleDotenv [] absentRequirements policy;
  _ ← checkpoint;
  guard_if (pe_Exists (evidence final) || negb (bool_decide (pe_Type (evidence final) = PathTypeMissing))) ErrSourceChanged.

(** One dotenv reference of the candidate. *)
Definition audit_dotenv (sources : SourceSet) (replacements : list Replacement) (r : pathReference) : X CandidatePath :=
  audited ← auditPath (resolved r) RoleDotenv (raw r) dotenvRequirements policy;
  _ ← checkpoint;
  let e := evidence audited in
  if pe_Exists e && negb (blocked audited) then
    _ ← guard_if (match sourceForPath sources (resolved r) with Some f => negb (bool_decide (sf_Role f = RoleDotenv)) | None => true end) ErrInvalidEdit;
    mret (mk_candidate_path RoleDotenv (raw r) (resolved r) true false e)
  else if negb (pe_Exists e) then
    _ ← guard_if (match replacement_for replacements (resolved r) with Some p => negb (bool_decide (rp_Role p = RoleDotenv)) | None => true end)
          ErrInvalidEdit;
    _ ← auditCreatableTarget (resolved r);
    mret (mk_candidate_path RoleDotenv (raw r) (resolved r) false true e)
  else raise ErrInvalidEdit.

Fixpoint audit_dotenvs (sources : SourceSet) (replacements : list Replacement) (l : list pathReference) : X (list CandidatePath) :=
  match l with
  | [] => mret []
  | r :: l => p ← audit_dotenv sources replacements r; rest ← audit_dotenvs sources replacements l; mret (p :: rest)
  end.
Fixpoint audit_webroots (l : list pathReference) : X (list PathEvidence) :=
  match l with
  | [] => mret []
  | r :: l =>
      audited ← auditPath (resolved r) RoleWebroot (raw r) webrootRequirements policy;
      _ ← checkpoint;
      _ ← guard_if (blocked audited) ErrInvalidEdit;
      rest ← audit_webroots l;
      mret (evidence audited :: rest)
  end.

Definition AuditCandidate (plan_sources : option SourceSet) (candidate : bytes) (replacements : list Replacement) : X CandidateAudit :=
  _ ← ready;
  match plan_sources with
  | None => raise ErrInvalidEdit
  | Some sources =>
      _ ← guard_if ((blen (sf_Path (ss_Configuration sources)) =? 0) || negb (Exists (fp_Identity (sf_Fingerprint (ss_Configuration sources)))))
            ErrInvalidEdit;
      _ ← guard_if ((blen candidate =? 0) || (MaxConfigurationBytes policy <? blen candidate)) ErrInvalidEdit;
      accepted ← returning (validateReplacementSet sources candidate replacements);
      let review := sl_Review (ss_Selection sources) in
      let '(references, ds) := parseNativeReferences (pe_Path (rv_Configuration review)) (pe_Path (rv_WorkingDirectory review)) policy candidate in
      _ ← guard_if (hasBlockingDiagnostics ds) ErrInvalidEdit;
      storage ← auditPath (resolved (storage references)) RoleStorage (raw (storage references)) storageRequirements policy;
      _ ← checkpoint;
      _ ← guard_if (blocked storage) ErrInvalidEdit;
      paths ← audit_dotenvs sources accepted (dotenv references);
      _ ← guard_if (existsb (fun r => bool_decide (rp_Role r = RoleDotenv)
                                      && negb (bool_decide (rp_Path r ∈ (resolved <$> dotenv references)))) accepted) ErrInvalidEdit;
      roots ← audit_webroots (webroots references);
      mret (mk_candidate_audit (evidence storage) paths roots)
  end.

(** ** Preparing the journal *)

(** [err == nil && missing] *)
Definition is_absent (r : result WsError bool) : bool := match r with Ok missing => missing | Err _ => false end.

Definition openReplacementParent (target : bytes) : X (Z * FileIdentity) :=
  audited ← auditPath (Dir target) RoleWorkspace [] parentRequirements policy;
  _ ← guard_if (blocked audited) ErrInvalidEdit;
  fd ← look (sys_open_dir (Dir target));
  stat ← catch (look (sys_fstat fd));
  match stat with
  | Err _ => raise ErrSourceChanged
  | Ok stat =>
      let seen := pe_Identity (evidence audited) in
      _ ← guard_if (negb (Device stat =? Device seen) || negb (Inode stat =? Inode seen) || negb (Mode stat =? Mode seen)
                    || negb (UID stat =? UID seen) || negb (GID stat =? GID seen)) ErrSourceChanged;
      mret (fd, stat)
  end.

(** [%03d] *)
Definition format_ordinal (n : Z) : bytes :=
  let l := itoa n in replicate (3 - List.length l) "0"%char ++ l.
Definition stage_basename (id : bytes) (ordinal : Z) : bytes := stage_prefix id ++ format_ordinal ordinal.

(** The handle, the entry and the journal record of one replacement. *)
Definition prepare_one (id : bytes) (sources : SourceSet) (index : Z) (r : Replacement) : X (preparedReplacement * JournalFile) :=
  '(h, parentID) ← openReplacementParent (rp_Path r);
  let stage := stage_basename id index in
  cleanupMissing ← catch (missingAt h (cleanupBasename stage));
  _ ← guard_if (negb (is_absent cleanupMissing)) ErrSourceChanged;
  let prepared existed original := mk_prepared r index (Some h) parentID stage original no_fingerprint existed false false in
  p ← (match sourceForPath sources (rp_Path r) with
       | Some source => mret (prepared true (sf_Fingerprint source))
       | None =>
           missing ← catch (missingAt h (Base (rp_Path r)));
           _ ← guard_if (negb (is_absent missing)) ErrInvalidEdit;
           mret (prepared false no_fingerprint)
       end);
  mret (p, mk_journal_file index (rp_Role r) (rp_Path r) (Dir (rp_Path r)) stage (fp_Identity (original p)) parentID false no_identity false).

Fixpoint prepare_all (id : bytes) (sources : SourceSet) (index : Z) (l : list Replacement) : X (list preparedReplacement * list JournalFile) :=
  match l with
  | [] => mret ([], [])
  | r :: l =>
      '(p, f) ← prepare_one id sources index r;
      '(ps, fs) ← prepare_all id sources (index + 1) l;
      mret (p :: ps, f :: fs)
  end.

Definition prepareJournal (id : bytes) (sources : SourceSet) (replacements : list Replacement) : X (list preparedReplacement * Journal) :=
  createdAt ← now_utc;
  '(ps, fs) ← prepare_all id sources 0 replacements;
  _ ← guard_if (is_zero createdAt) (Failure "native edit clock returned zero time");
  let review := sl_Review (ss_Selection sources) in
  mret (ps, mk_journal id JournalStaging (pe_Path (rv_WorkingDirectory review)) (pe_Path (rv_Configuration review)) false
              (rv_ConfigurationSource review) createdAt fs).

(** ** Rechecking before the replacement *)

Definition recheck_source (sources : SourceSet) (f : SourceFile) : X unit :=
  current ← readSource (pathEvidenceForPath (sl_Review (ss_Selection sources)) (sf_Path f)) (maximumFileLimit (sf_Role f));
  guard_if (negb (sameSourceFingerprint (sf_Fingerprint f) (sf_Fingerprint current))) ErrSourceChanged.

Definition recheck_entry (p : preparedReplacement) : X unit :=
  match parent p with
  | None => raise ErrSourceChanged
  | Some h =>
      stat ← catch (look (sys_fstat h));
      _ ← guard_if (match stat with Ok stat => negb (sameDirectoryIdentity (parentID p) stat) | Err _ => true end) ErrSourceChanged;
      _ ← (if existed p then mret tt
           else missing ← catch (missingAt h (Base (rp_Path (replacement p))));
                guard_if (negb (is_absent missing)) ErrSourceChanged);
      staged ← catch (fingerprintAt h (stage p) (maximumFileLimit (rp_Role (replacement p))));
      guard_if (match staged with Ok c => negb (sameFingerprintContent (candidate p) c true) | Err _ => true end) ErrSourceChanged
  end.

Definition recheckSources (sources : SourceSet) (l : list preparedReplacement) : X unit :=
  _ ← for_each_x (recheck_source sources) (Files sources);
  for_each_x recheck_entry l.

(** ** Staging and activating *)

(** The loop over the entries: what it has staged, and the error it aborts
    with.  An entry that fails keeps what it has become. *)
Fixpoint stage_all (id : bytes) (staged todo : list preparedReplacement) : X (result WsError unit * list preparedReplacement) :=
  match todo with
  | [] => mret (Ok tt, staged)
  | p :: todo =>
      '(r, p) ← stageCandidate id p;
      match r with
      | Err e => mret (Err e, staged ++ p :: todo)
      | Ok _ => _ ← mapping (fun _ => ErrRecoveryRequired) inject; stage_all id (staged ++ [p]) todo
      end
  end.

(** After the first replacement an error leaves the journal for recovery. *)
Fixpoint activate_all (id : bytes) (replaced todo : list preparedReplacement) : X (result WsError unit * list preparedReplacement) :=
  match todo with
  | [] => mret (Ok tt, replaced)
  | p :: todo =>
      _ ← mapping (fun _ => ErrRecoveryRequired) inject;
      '(r, p) ← activateCandidate id p;
      match r with
      | Err e =>
          if (blen replaced =? 0) && negb (activated p) then mret (Err e, replaced ++ p :: todo) else raise (Joined ErrRecoveryRequired e)
      | Ok _ => activate_all id (replaced ++ [p]) todo
      end
  end.

Definition abortBeforeReplacement {A} (j : Journal) (l : list preparedReplacement) (cause : WsError) : X A :=
  discarded ← catch (discardPrepared j l);
  match discarded with Err _ => raise (Joined ErrRecoveryRequired cause) | Ok _ => raise cause end.
(** [if err := m; err != nil { return abortBeforeReplacement(err) }] *)
Definition or_abort {A} (j : Journal) (l : list preparedReplacement) (m : X A) : X A :=
  r ← catch m;
  match r with Ok a => mret a | Err cause => abortBeforeReplacement j l cause end.

(** ** Inspecting what was committed *)

Definition remove_path (path : bytes) (l : list Replacement) : list Replacement :=
  List.filter (fun r => negb (bool_decide (rp_Path r = path))) l.
Definition content_is (f : SourceFile) (r : Replacement) : bool := bool_decide (fp_SHA256 (sf_Fingerprint f) = sha256 (rp_Content r)).

(** The configuration is its replacement, or as it was reviewed. *)
Definition check_configuration (prior current : SourceSet) (candidate : bytes) (replacements : list Replacement)
    : result WsError (list Replacement) :=
  match replacement_for replacements (sf_Path (ss_Configuration current)) with
  | Some r =>
      _ ← reject_if (negb (bool_decide (rp_Role r = RoleConfiguration)) || negb (bool_decide (rp_Content r = candidate))
                     || negb (content_is (ss_Configuration current) r)) (Failure "active configuration differs from the validated candidate");
      Ok (remove_path (sf_Path (ss_Configuration current)) replacements)
  | None =>
      _ ← reject_if (negb (sameSourceFingerprint (sf_Fingerprint (ss_Configuration prior)) (sf_Fingerprint (ss_Configuration current))))
            ErrSourceChanged;
      Ok replacements
  end.

(** The dotenv files in order: the replacements not yet met, those met, and
    the reviewed paths seen unchanged. *)
Fixpoint check_dotenvs (prior : SourceSet) (remaining validated : list Replacement) (seen : list bytes)
    (l : list SourceFile) (paths : list CandidatePath) (es : list PathEvidence) : result WsError (list Replacement * list bytes) :=
  match l, paths, es with
  | [], _, _ => Ok (remaining, seen)
  | f :: l, p :: paths, e :: es =>
      _ ← reject_if (negb (bool_decide (cp_Path p = sf_Path f)) || negb (bool_decide (cp_Path p = pe_Path e))
                     || negb (bool_decide (cp_Reference p = pe_Reference e)) || negb (samePathAncestorEvidence (cp_Evidence p) e)) ErrSourceChanged;
      match replacement_for remaining (sf_Path f), replacement_for validated (sf_Path f) with
      | Some r, _ =>
          _ ← reject_if (negb (bool_decide (rp_Role r = RoleDotenv)) || negb (content_is f r)) (Failure "edited dotenv differs from the validated candidate");
          check_dotenvs prior (remove_path (sf_Path f) remaining) (validated ++ [r]) seen l paths es
      | None, Some r =>
          _ ← reject_if (negb (bool_decide (rp_Role r = RoleDotenv)) || negb (content_is f r))
                (Failure "shared edited dotenv differs from the validated candidate");
          check_dotenvs prior remaining validated seen l paths es
      | None, None =>
          _ ← reject_if (match sourceForPath prior (sf_Path f) with
                         | Some s => negb (bool_decide (sf_Role s = RoleDotenv)) || negb (sameSourceFingerprint (sf_Fingerprint s) (sf_Fingerprint f))
                         | None => true
                         end) ErrSourceChanged;
          check_dotenvs prior remaining validated (sf_Path f :: seen) l paths es
      end
  | _, _, _ => Err (Failure "index out of range")
  end.

(** A reviewed dotenv file the candidate no longer names must be unchanged. *)
Definition check_unreferenced (prior : SourceSet) (replacements : list Replacement) (seen : list bytes) (f : SourceFile) : X unit :=
  if bool_decide (is_Some (replacement_for replacements (sf_Path f))) || bool_decide (sf_Path f ∈ seen) then mret tt
  else
    current ← mapping (fun _ => ErrSourceChanged)
                (readSource (pathEvidenceForPath (sl_Review (ss_Selection prior)) (sf_Path f)) (maximumFileLimit (sf_Role f)));
    guard_if (negb (sameSourceFingerprint (sf_Fingerprint f) (sf_Fingerprint current))) ErrSourceChanged.

Definition inspectCommitted (prior : SourceSet) (audit : CandidateAudit) (candidate : bytes) (replacements : list Replacement) : X Selection :=
  let reviewed := sl_Review (ss_Selection prior) in
  review ← mapping (fun _ => Failure "edited workspace did not pass fresh inspection")
             (Inspect policy (mk_request (pe_Path (rv_WorkingDirectory reviewed))
                                (if bool_decide (rv_ConfigurationSource reviewed = ConfigurationExplicit)
                                 then pe_Path (rv_Configuration reviewed) else [])));
  _ ← guard_if (negb (rv_Adoptable review)) (Failure "edited workspace did not pass fresh inspection");
  _ ← guard_if (negb (samePathPlacementEvidence (rv_WorkingDirectory reviewed) (rv_WorkingDirectory review))
                || negb (samePathPlacementEvidence (ca_Storage audit) (rv_Storage review))
                || negb (samePathPlacementEvidenceSlice (ca_Webroots audit) (rv_Webroots review))) ErrSourceChanged;
  _ ← guard_if (negb (blen (ca_Dotenv audit) =? blen (rv_DotenvFiles review))) ErrSourceChanged;
  reviewedAt ← review_time review;
  let selection := mk_selection review reviewedAt in
  current ← snapshotSelection selection;
  remaining ← returning (check_configuration prior current candidate replacements);
  '(remaining, seen) ← returning (check_dotenvs prior remaining [] [] (ss_Dotenv current) (ca_Dotenv audit) (rv_DotenvFiles review));
  _ ← for_each_x (check_unreferenced prior replacements seen) (ss_Dotenv prior);
  _ ← guard_if (negb (blen remaining =? 0)) (Failure "edited target is absent from fresh workspace evidence");
  mret selection.

(** ** Commit *)

(** The reviewed working directory, once more. *)
Definition recheck_working (sources : SourceSet) : X unit :=
  let reviewed := rv_WorkingDirectory (sl_Review (ss_Selection sources)) in
  working ← auditPath (pe_Path reviewed) RoleWorkingDirectory [] workingRequirements policy;
  guard_if (blocked working || negb (samePathPlacementEvidence reviewed (evidence working))) ErrSourceChanged.
(** The candidate's references, once more. *)
Definition recheck_candidate (sources : SourceSet) (candidate : bytes) (replacements : list Replacement) (audit : CandidateAudit) : X unit :=
  confirmed ← mapping (fun _ => ErrSourceChanged) (AuditCandidate (Some sources) candidate replacements);
  guard_if (negb (sameCandidateAudit audit confirmed)) ErrSourceChanged.

(** From the staged candidates to the authorization to replace. *)
Definition authorize (guard : X unit) (id : bytes) (j : Journal) (sources : SourceSet) (candidate : bytes) (replacements : list Replacement)
    (audit : CandidateAudit) (ps : list preparedReplacement) : X unit :=
  _ ← or_abort j ps (recheckSources sources ps);
  _ ← or_abort j ps (database (SetPhase service_uid id JournalPrepared));
  _ ← mapping (fun _ => ErrRecoveryRequired) inject;
  _ ← or_abort j ps (database (SetPhase service_uid id JournalReplacing));
  _ ← or_abort j ps guard;
  _ ← or_abort j ps (recheckSources sources ps);
  _ ← or_abort j ps (recheck_working sources);
  or_abort j ps (recheck_candidate sources candidate replacements audit).

(** From the replaced files to the new selection. *)
Definition finalize (id : bytes) (sources : SourceSet) (candidate : bytes) (replacements : list Replacement) (audit : CandidateAudit) : X Selection :=
  _ ← mapping (fun _ => ErrRecoveryRequired) (database (SetPhase service_uid id JournalFinalizing));
  _ ← mapping (fun _ => ErrRecoveryRequired) inject;
  selection ← mapping (Joined ErrRecoveryRequired) (inspectCommitted sources audit candidate replacements);
  _ ← mapping (fun _ => ErrRecoveryRequired) (database (FinalizeEdit selection id));
  mret selection.

(** [id] is what [NewTransactionID] draws. *)
Definition Commit (id : bytes) (plan : CommitPlan) (guard : X unit) : X Selection :=
  _ ← ready;
  _ ← no_pending;
  let candidate := pl_CandidateConfiguration plan in
  audit ← AuditCandidate (pl_Sources plan) candidate (pl_Replacements plan);
  match pl_Sources plan with
  | None => raise ErrInvalidEdit
  | Some sources =>
      let replacements := sortReplacements (pl_Replacements plan) in
      _ ← checkpoint;
      '(ps, j) ← prepareJournal id sources replacements;
      _ ← database (Create service_uid j);
      _ ← mapping (fun _ => ErrRecoveryRequired) inject;
      '(staged, ps) ← stage_all id [] ps;
      match staged with
      | Err cause => abortBeforeReplacement j ps cause
      | Ok _ =>
          _ ← authorize guard id j sources candidate replacements audit ps;
          '(replaced, ps) ← activate_all id [] ps;
          match replaced with
          | Err cause => abortBeforeReplacement j ps cause
          | Ok _ => finalize id sources candidate replacements audit
          end
      end
  end.
End Commit.
