(* ===== verification/WsBootstrap.v ===== *)
(** Creating a first configuration through the edit journal, as in
    internal/workspace/bootstrap_linux.go.  Staging, activation and abandoning
    are those of a native edit. *)
From stdpp Require Import gmap.
From S2P Require Import Prelude.
From S2P Require Import GoText.
From S2P Require Import GoTime.
From S2P Require Import GoDecode.
From S2P Require Import Effects.
From S2P Require Import WsTypes.
From S2P Require Import WsJournal.
From S2P Require Import WsDisk.
From S2P Require Import WsAudit.
From S2P Require Import WsYaml.
From S2P Require Import WsInspect.
From S2P Require Import WsSelect.
From S2P Require Import WsStore.
From S2P Require Import WsEdit.
From S2P Require Import WsCommit.

#[local] Open Scope Z_scope.

Record BootstrapRequest := mk_bootstrap_request { br_WorkingDirectory : bytes; br_ConfigurationPath : bytes }.
(** The alternate configuration is [None] for the zero [CandidatePath]. *)
Record BootstrapAudit := mk_bootstrap_audit {
  ba_ConfigurationSource : ConfigurationSource;
  ba_WorkingDirectory : PathEvidence;
  ba_Configuration : CandidatePath;
  ba_AlternateConfiguration : option CandidatePath;
  ba_ConfigurationParent : PathEvidence;
  ba_Storage : PathEvidence;
  ba_Dotenv : list CandidatePath;
  ba_Webroots : list PathEvidence;
}.
Record BootstrapPlan := mk_bootstrap_plan {
  bp_Request : BootstrapRequest; bp_CandidateConfiguration : bytes; bp_Replacements : list Replacement;
}.

(** ** The fingerprint of an audit *)

Definition candidate_path_values (p : CandidatePath) : list bytes :=
  [to_bytes (role_text (cp_Role p)); cp_Reference p; cp_Path p; format_bool (cp_Exists p); format_bool (cp_WillCreate p)]
  ++ writePathFingerprint (cp_Evidence p).

(** What the zero value writes. *)
Definition zero_candidate_values : list bytes :=
  let no := to_bytes "false" in let zero := to_bytes "0" in
  [[]; []; []; no; no] ++ [[]; []; []; no; []; zero; zero; zero; zero; zero; zero] ++ [zero; []; []] ++ [no; no; no; no; zero].
Definition bootstrap_values (a : BootstrapAudit) : list bytes :=
  [to_bytes "acmemux-workspace-bootstrap-v1"; to_bytes (source_text (ba_ConfigurationSource a))]
  ++ writePathFingerprint (ba_WorkingDirectory a) ++ candidate_path_values (ba_Configuration a)
  ++ match ba_AlternateConfiguration a with Some p => candidate_path_values p | None => zero_candidate_values end
  ++ writePathFingerprint (ba_ConfigurationParent a) ++ writePathFingerprint (ba_Storage a)
  ++ [itoa (blen (ba_Dotenv a))] ++ (ba_Dotenv a ≫= candidate_path_values)
  ++ [itoa (blen (ba_Webroots a))] ++ (ba_Webroots a ≫= writePathFingerprint).
Definition BootstrapFingerprint `{Machine} (a : BootstrapAudit) : bytes := sha256 (written (bootstrap_values a)).

(** ** The replacement set *)

Definition validate_bootstrap_replacement (configurationPath candidate : bytes) (accepted : list Replacement) (r : Replacement) : result WsError unit :=
  let configuration := bool_decide (rp_Role r = RoleConfiguration) in
  _ ← reject_if (negb configuration && negb (bool_decide (rp_Role r = RoleDotenv))) ErrInvalidEdit;
  _ ← reject_if (negb (validateSelectedPath (rp_Path r))) ErrInvalidEdit;
  _ ← reject_if (configuration && (negb (bool_decide (rp_Path r = configurationPath)) || negb (bool_decide (rp_Content r = candidate)))) ErrInvalidEdit;
  _ ← reject_if (maximumFileLimit (rp_Role r) <? blen (rp_Content r)) ErrInvalidEdit;
  reject_if (bool_decide (is_Some (replacement_for accepted (rp_Path r)))) ErrInvalidEdit.
Fixpoint validate_bootstrap_replacements (configurationPath candidate : bytes) (accepted l : list Replacement) : result WsError (list Replacement) :=
  match l with
  | [] => Ok accepted
  | r :: l =>
      _ ← validate_bootstrap_replacement configurationPath candidate accepted r;
      validate_bootstrap_replacements configurationPath candidate (accepted ++ [r]) l
  end.
Definition validateBootstrapReplacements (configurationPath candidate : bytes) (l : list Replacement) : result WsError (list Replacement) :=
  _ ← reject_if ((blen l =? 0) || (maximumEditFiles <? blen l)) ErrInvalidEdit;
  accepted ← validate_bootstrap_replacements configurationPath candidate [] l;
  let configurationCount := blen (List.filter (fun r => bool_decide (rp_Role r = RoleConfiguration)) l) in
  _ ← reject_if (negb (configurationCount =? 1)) ErrInvalidEdit;
  Ok accepted.

Section Bootstrap.
Context `{Machine} `{Yaml} (policy : Policy).
Abbreviation X := (X (Selection := SelectionRows)).

(** ** Auditing *)

(** [selections.Load] must report that nothing is selected. *)
Definition no_selection : X unit :=
  selected ← catch (database Store_Load);
  match selected with
  | Ok _ => raise ErrSourceChanged
  | Err e => if is_error ErrNoSelection e then mret tt else raise e
  end.

(** The journal is pending exactly when it is expected. *)
Definition journal_as_expected (journalExpected : bool) : X unit :=
  loaded ← catch (database (Load service_uid));
  match loaded with
  | Ok _ => if journalExpected then mret tt else raise ErrRecoveryRequired
  | Err e =>
      if negb (is_error ErrNoEditJournal e) then raise e
      else if journalExpected then raise ErrSourceChanged else mret tt
  end.

Definition is_missing (e : PathEvidence) : bool := negb (pe_Exists e) && bool_decide (pe_Type e = PathTypeMissing).

(** A safe parent directory without the target, seen twice. *)
Definition auditMissingTarget (target : bytes) (role : PathRole) (reference : bytes) : X (CandidatePath * PathEvidence) :=
  _ ← guard_if (negb (validateSelectedPath target)) ErrInvalidEdit;
  parent ← auditPath (Dir target) RoleWorkspace [] parentRequirements policy;
  _ ← guard_if (blocked parent) ErrInvalidEdit;
  missing ← auditPath target role reference absentRequirements policy;
  _ ← guard_if (negb (is_missing (evidence missing))) ErrSourceChanged;
  confirmedParent ← auditPath (Dir target) RoleWorkspace [] parentRequirements policy;
  confirmedMissing ← auditPath target role reference absentRequirements policy;
  _ ← guard_if (negb (pe_Safe (evidence confirmedParent)) || negb (samePathPlacementEvidence (evidence parent) (evidence confirmedParent))
                || negb (is_missing (evidence confirmedMissing))
                || negb (samePathAncestorEvidence (evidence missing) (evidence confirmedMissing))) ErrSourceChanged;
  mret (mk_candidate_path role reference target false true (evidence missing), evidence parent).

(** The dotenv references in order, each of which uses up its replacement. *)
Fixpoint audit_bootstrap_dotenvs (remaining : list Replacement) (l : list pathReference) : X (list CandidatePath * list Replacement) :=
  match l with
  | [] => mret ([], remaining)
  | r :: l =>
      _ ← guard_if (match replacement_for remaining (resolved r) with Some p => negb (bool_decide (rp_Role p = RoleDotenv)) | None => true end)
            ErrInvalidEdit;
      '(path, _) ← auditMissingTarget (resolved r) RoleDotenv (raw r);
      '(rest, remaining) ← audit_bootstrap_dotenvs (remove_path (resolved r) remaining) l;
      mret (path :: rest, remaining)
  end.
Fixpoint audit_bootstrap_webroots (l : list pathReference) : X (list PathEvidence) :=
  match l with
  | [] => mret []
  | r :: l =>
      audited ← auditPath (resolved r) RoleWebroot (raw r) webrootRequirements policy;
      _ ← guard_if (blocked audited) ErrInvalidEdit;
      rest ← audit_bootstrap_webroots l;
      mret (evidence audited :: rest)
  end.

(** The path of the new configuration, its source and the alternate name. *)
Definition bootstrap_target (request : BootstrapRequest) : X (bytes * ConfigurationSource * option CandidatePath) :=
  if blen (br_ConfigurationPath request) =? 0 then
    '(missing, _) ← mapping (fun _ => ErrSourceChanged)
                      (auditMissingTarget (Join (br_WorkingDirectory request) (to_bytes ".lego.yaml")) RoleConfiguration []);
    mret (Join (br_WorkingDirectory request) (to_bytes ".lego.yml"), ConfigurationConventionalYML, Some missing)
  else mret (br_ConfigurationPath request, ConfigurationExplicit, None).

Definition auditBootstrap (request : BootstrapRequest) (candidate : bytes) (replacements : list Replacement) (journalExpected : bool)
    : X BootstrapAudit :=
  _ ← no_selection;
  _ ← journal_as_expected journalExpected;
  _ ← guard_if (negb (validateSelectedPath (br_WorkingDirectory request))) (Failure "path is not acceptable");
  _ ← guard_if (negb (blen (br_ConfigurationPath request) =? 0) && negb (validateSelectedPath (br_ConfigurationPath request)))
        (Failure "path is not acceptable");
  _ ← guard_if ((blen candidate =? 0) || (MaxConfigurationBytes policy <? blen candidate)) ErrInvalidEdit;
  working ← auditPath (br_WorkingDirectory request) RoleWorkingDirectory [] workingRequirements policy;
  _ ← guard_if (blocked working) ErrInvalidEdit;
  workingConfirmation ← auditPath (br_WorkingDirectory request) RoleWorkingDirectory [] workingRequirements policy;
  _ ← guard_if (negb (pe_Safe (evidence workingConfirmation))
                || negb (samePathPlacementEvidence (evidence working) (evidence workingConfirmation))) ErrSourceChanged;
  '(configurationPath, source, alternate) ← bootstrap_target request;
  '(configuration, configurationParent) ← auditMissingTarget configurationPath RoleConfiguration [];
  accepted ← returning (validateBootstrapReplacements configurationPath candidate replacements);
  let '(references, ds) := parseNativeReferences configurationPath (br_WorkingDirectory request) policy candidate in
  _ ← guard_if (hasBlockingDiagnostics ds) ErrInvalidEdit;
  storage ← auditPath (resolved (storage references)) RoleStorage (raw (storage references)) storageRequirements policy;
  _ ← guard_if (blocked storage) ErrInvalidEdit;
  '(paths, remaining) ← audit_bootstrap_dotenvs accepted (dotenv references);
  _ ← guard_if (negb (blen (remove_path configurationPath remaining) =? 0)) ErrInvalidEdit;
  roots ← audit_bootstrap_webroots (webroots references);
  mret (mk_bootstrap_audit source (evidence working) configuration alternate configurationParent (evidence storage) paths roots).

Definition AuditBootstrap (request : BootstrapRequest) (candidate : bytes) (replacements : list Replacement) : X BootstrapAudit :=
  _ ← ready;
  auditBootstrap request candidate replacements false.

(** ** Preparing *)

Definition bootstrap_prepare_one (id : bytes) (index : Z) (r : Replacement) : X (preparedReplacement * JournalFile) :=
  '(h, parentID) ← openReplacementParent policy (rp_Path r);
  let stage := stage_basename id index in
  stageMissing ← catch (missingAt h stage);
  cleanupMissing ← catch (missingAt h (cleanupBasename stage));
  targetMissing ← catch (missingAt h (Base (rp_Path r)));
  _ ← guard_if (negb (is_absent stageMissing) || negb (is_absent cleanupMissing) || negb (is_absent targetMissing)) ErrSourceChanged;
  mret (mk_prepared r index (Some h) parentID stage no_fingerprint no_fingerprint false false false,
        mk_journal_file index (rp_Role r) (rp_Path r) (Dir (rp_Path r)) stage no_identity parentID false no_identity false).

Fixpoint bootstrap_prepare_all (id : bytes) (index : Z) (l : list Replacement) : X (list preparedReplacement * list JournalFile) :=
  match l with
  | [] => mret ([], [])
  | r :: l =>
      '(p, f) ← bootstrap_prepare_one id index r;
      '(ps, fs) ← bootstrap_prepare_all id (index + 1) l;
      mret (p :: ps, f :: fs)
  end.

Definition prepareBootstrapJournal (id : bytes) (audit : BootstrapAudit) (replacements : list Replacement) : X (list preparedReplacement * Journal) :=
  createdAt ← now_utc;
  '(ps, fs) ← bootstrap_prepare_all id 0 replacements;
  _ ← guard_if (is_zero createdAt) (Failure "native edit clock returned zero time");
  mret (ps, mk_journal id JournalStaging (pe_Path (ba_WorkingDirectory audit)) (cp_Path (ba_Configuration audit)) true
              (ba_ConfigurationSource audit) createdAt fs).

(** The second half of [recheck_entry] for a target that must be missing. *)
Definition recheck_bootstrap_entry (p : preparedReplacement) : X unit :=
  match parent p with
  | None => raise ErrSourceChanged
  | Some h =>
      stat ← catch (look (sys_fstat h));
      _ ← guard_if (match stat with Ok stat => negb (sameDirectoryIdentity (parentID p) stat) | Err _ => true end) ErrSourceChanged;
      missing ← catch (missingAt h (Base (rp_Path (replacement p))));
      _ ← guard_if (negb (is_absent missing)) ErrSourceChanged;
      staged ← catch (fingerprintAt h (stage p) (maximumFileLimit (rp_Role (replacement p))));
      guard_if (match staged with Ok c => negb (sameFingerprintContent (candidate p) c true) | Err _ => true end) ErrSourceChanged
  end.
Definition recheckBootstrap (request : BootstrapRequest) (candidate : bytes) (replacements : list Replacement) (reviewed : BootstrapAudit)
    (l : list preparedReplacement) : X unit :=
  current ← mapping (fun _ => ErrSourceChanged) (auditBootstrap request candidate replacements true);
  _ ← guard_if (negb (bool_decide (BootstrapFingerprint current = BootstrapFingerprint reviewed))) ErrSourceChanged;
  for_each_x recheck_bootstrap_entry l.

(** ** Inspecting what was created *)

Fixpoint check_bootstrap_dotenvs (remaining : list Replacement) (l : list SourceFile) (paths : list CandidatePath) (es : list PathEvidence)
    : result WsError (list Replacement) :=
  match l, paths, es with
  | [], _, _ => Ok remaining
  | f :: l, p :: paths, e :: es =>
      _ ← reject_if (negb (bool_decide (cp_Path p = sf_Path f)) || negb (samePathAncestorEvidence (cp_Evidence p) e)) ErrSourceChanged;
      match replacement_for remaining (sf_Path f) with
      | Some r =>
          _ ← reject_if (negb (bool_decide (rp_Role r = RoleDotenv)) || negb (content_is f r))
                (Failure "active bootstrap dotenv differs from candidate");
          check_bootstrap_dotenvs (remove_path (sf_Path f) remaining) l paths es
      | None => Err (Failure "active bootstrap dotenv differs from candidate")
      end
  | _, _, _ => Err ErrSourceChanged
  end.

Definition inspectBootstrapCommitted (request : BootstrapRequest) (audit : BootstrapAudit) (candidate : bytes) (replacements : list Replacement)
    : X Selection :=
  _ ← no_selection;
  _ ← (if bool_decide (ba_ConfigurationSource audit = ConfigurationConventionalYML) then
         '(alternate, _) ← mapping (fun _ => ErrSourceChanged)
                             (auditMissingTarget (Join (br_WorkingDirectory request) (to_bytes ".lego.yaml")) RoleConfiguration []);
         guard_if (match ba_AlternateConfiguration audit with
                   | Some reviewed => negb (samePathAncestorEvidence (cp_Evidence reviewed) (cp_Evidence alternate))
                   | None => true
                   end) ErrSourceChanged
       else mret tt);
  review ← mapping (fun _ => Failure "bootstrapped workspace did not pass fresh inspection")
             (Inspect policy (mk_request (br_WorkingDirectory request)
                                (if bool_decide (ba_ConfigurationSource audit = ConfigurationExplicit) then cp_Path (ba_Configuration audit) else [])));
  _ ← guard_if (negb (rv_Adoptable review) || negb (bool_decide (pe_Path (rv_Configuration review) = cp_Path (ba_Configuration audit))))
        (Failure "bootstrapped workspace did not pass fresh inspection");
  _ ← guard_if (negb (samePathPlacementEvidence (ba_WorkingDirectory audit) (rv_WorkingDirectory review))
                || negb (samePathAncestorEvidence (cp_Evidence (ba_Configuration audit)) (rv_Configuration review))
                || negb (samePathPlacementEvidence (ba_Storage audit) (rv_Storage review))
                || negb (samePathPlacementEvidenceSlice (ba_Webroots audit) (rv_Webroots review))
                || negb (blen (ba_Dotenv audit) =? blen (rv_DotenvFiles review))) ErrSourceChanged;
  reviewedAt ← review_time review;
  let selection := mk_selection review reviewedAt in
  sources ← snapshotSelection policy selection;
  let configuration := ss_Configuration sources in
  _ ← guard_if (match replacement_for replacements (sf_Path configuration) with
                | Some r => negb (bool_decide (rp_Role r = RoleConfiguration)) || negb (bool_decide (rp_Content r = candidate))
                            || negb (bool_decide (fp_SHA256 (sf_Fingerprint configuration) = sha256 candidate))
                | None => true
                end) (Failure "active bootstrap configuration differs from candidate");
  remaining ← returning (check_bootstrap_dotenvs (remove_path (sf_Path configuration) replacements) (ss_Dotenv sources) (ba_Dotenv audit)
                           (rv_DotenvFiles review));
  _ ← guard_if (negb (blen remaining =? 0)) (Failure "bootstrap replacement is absent from fresh workspace");
  mret selection.

(** ** Bootstrap *)

(** Every error of a replacement leaves the journal for recovery. *)
Fixpoint activate_bootstrap (id : bytes) (replaced todo : list preparedReplacement) : X (list preparedReplacement) :=
  match todo with
  | [] => mret replaced
  | p :: todo =>
      _ ← mapping (fun _ => ErrRecoveryRequired) inject;
      '(r, p) ← activateCandidate id p;
      match r with
      | Err e => raise (Joined ErrRecoveryRequired e)
      | Ok _ => activate_bootstrap id (replaced ++ [p]) todo
      end
  end.

Definition authorize_bootstrap (guard : X unit) (id : bytes) (j : Journal) (request : BootstrapRequest) (candidate : bytes)
    (replacements : list Replacement) (audit : BootstrapAudit) (ps : list preparedReplacement) : X unit :=
  _ ← or_abort j ps (recheckBootstrap request candidate replacements audit ps);
  _ ← or_abort j ps (database (SetPhase service_uid id JournalPrepared));
  _ ← mapping (fun _ => ErrRecoveryRequired) inject;
  _ ← or_abort j ps (database (SetPhase service_uid id JournalReplacing));
  _ ← or_abort j ps guard;
  or_abort j ps (recheckBootstrap request candidate replacements audit ps).

Definition finalize_bootstrap (id : bytes) (request : BootstrapRequest) (candidate : bytes) (replacements : list Replacement) (audit : BootstrapAudit)
    : X Selection :=
  _ ← mapping (fun _ => ErrRecoveryRequired) (database (SetPhase service_uid id JournalFinalizing));
  _ ← mapping (fun _ => ErrRecoveryRequired) inject;
  selection ← mapping (Joined ErrRecoveryRequired) (inspectBootstrapCommitted request audit candidate replacements);
  _ ← mapping (fun _ => ErrRecoveryRequired) (database (FinalizeEdit selection id));
  mret selection.

Definition Bootstrap (id : bytes) (plan : BootstrapPlan) (guard : X unit) : X Selection :=
  _ ← ready;
  let candidate := bp_CandidateConfiguration plan in
  let request := bp_Request plan in
  audit ← auditBootstrap request candidate (bp_Replacements plan) false;
  let replacements := sortReplacements (bp_Replacements plan) in
  '(ps, j) ← prepareBootstrapJournal id audit replacements;
  _ ← database (Create service_uid j);
  _ ← mapping (fun _ => ErrRecoveryRequired) inject;
  '(staged, ps) ← stage_all id [] ps;
  match staged with
  | Err cause => abortBeforeReplacement j ps cause
  | Ok _ =>
      _ ← authorize_bootstrap guard id j request candidate replacements audit ps;
      _ ← activate_bootstrap id [] ps;
      finalize_bootstrap id request candidate replacements audit
  end.
End Bootstrap.
