(* ===== verification/WsRecovery.v ===== *)
(** Resolving an interrupted edit, as in
    internal/workspace/recovery_linux.go: every target of the journal is
    classified, and an administrator discards the staged files, finalizes the
    applied ones or adopts what is there. *)
From stdpp Require Import gmap.
From S2P Require Import Prelude.
From S2P Require Import GoText.
From S2P Require Import GoTime.
From S2P Require Import Effects.
From S2P Require Import WsTypes.
From S2P Require Import WsJournal.
From S2P Require Import WsDisk.
From S2P Require Import WsAudit.
From S2P Require Import WsYaml.
From S2P Require Import WsInspect.
From S2P Require Import WsSelect.
From S2P Require Import WsStore.
From S2P Require Import WsEdit.
From S2P Require Import WsCommit.
From S2P Require Import WsBootstrap.

#[local] Open Scope Z_scope.

(** The selection, when one is present. *)
Record RecoveryResult := mk_recovery_result { rr_Selection : option Selection }.

(** ** Comparing the workspace with its review before the edit *)

Definition targeted (j : Journal) (path : bytes) : bool := existsb (fun f => bool_decide (TargetPath f = path)) (WsTypes.Files j).
Definition sameRecoveryPathUnlessTargeted (j : Journal) (prior current : PathEvidence) : bool :=
  bool_decide (pe_Path prior = pe_Path current)
  && (if targeted j (pe_Path prior) then samePathAncestorEvidence prior current else samePathPlacementEvidence prior current).

(** The entry a map from paths keeps: the last one inserted. *)
Definition by_path (l : list PathEvidence) (path : bytes) : option PathEvidence :=
  List.find (fun e => bool_decide (pe_Path e = path)) (rev l).
(** One entry of a map against the other map, [prior] before [current]. *)
Definition same_dotenv_boundary (j : Journal) (found : option PathEvidence) (path : bytes) (same : (PathEvidence -> PathEvidence -> bool) -> PathEvidence -> bool)
    : bool :=
  if targeted j path then match found with Some e => same samePathAncestorEvidence e | None => true end
  else match found with Some e => same samePathPlacementEvidence e | None => false end.
Definition samePreEditRecoveryBoundary (prior current : Review) (j : Journal) : bool :=
  let before := rv_DotenvFiles prior in
  let now := rv_DotenvFiles current in
  bool_decide (rv_ConfigurationSource prior = rv_ConfigurationSource current)
  && samePathPlacementEvidence (rv_WorkingDirectory prior) (rv_WorkingDirectory current)
  && samePathPlacementEvidence (rv_Storage prior) (rv_Storage current)
  && samePathPlacementEvidenceSlice (rv_Webroots prior) (rv_Webroots current)
  && sameRecoveryPathUnlessTargeted j (rv_Configuration prior) (rv_Configuration current)
  && forallb (fun path => match by_path before path with
                          | Some e => same_dotenv_boundary j (by_path now path) path (fun same c => same e c)
                          | None => true
                          end) (pe_Path <$> before)
  && forallb (fun path => match by_path now path with
                          | Some e => same_dotenv_boundary j (by_path before path) path (fun same p => same p e)
                          | None => true
                          end) (pe_Path <$> now).

Section Recovery.
Context `{Machine} `{Yaml} (policy : Policy).
Abbreviation X := (X (Selection := SelectionRows)).

Fixpoint same_dotenv_sources (l k : list SourceFile) : bool :=
  match l, k with
  | [], [] => true
  | f :: l, g :: k => sameSourceFingerprint (sf_Fingerprint f) (sf_Fingerprint g) && same_dotenv_sources l k
  | _, _ => false
  end.
Definition sameSourceSets (left right : SourceSet) : bool :=
  bool_decide (ReviewFingerprint (sl_Review (ss_Selection left)) = ReviewFingerprint (sl_Review (ss_Selection right)))
  && sameSourceFingerprint (sf_Fingerprint (ss_Configuration left)) (sf_Fingerprint (ss_Configuration right))
  && same_dotenv_sources (ss_Dotenv left) (ss_Dotenv right).

(** ** Classifying *)

(** The staging file of an entry: its name and identity, when one is there. *)
Definition owned_stage (h : Z) (stage : bytes) : X (option (bytes * FileIdentity)) :=
  owned ← ownedStageBasename h stage;
  match owned with
  | None => mret None
  | Some basename => found ← identityAt h basename; mret (i ← found; Some (basename, i))
  end.

Definition file_state (f : JournalFile) (target : option FileIdentity) (staged : option (bytes * FileIdentity)) : RecoveryFileState :=
  let targetExists := bool_decide (is_Some target) in
  let target := default no_identity target in
  let stageExists := bool_decide (is_Some staged) in
  let stage := default no_identity (snd <$> staged) in
  if match staged with Some (basename, _) => bool_decide (basename = cleanupBasename (StageBasename f)) | None => false end
  then RecoveryFileAmbiguous
  else if negb (CandidateReady f) then
    if negb stageExists && originalPlacement (Original f) target targetExists && negb (Applied f) then RecoveryFileUnstaged
    else RecoveryFileAmbiguous
  else
    let targetCandidate := targetExists && samePlacement (Candidate f) target in
    let stageCandidate := stageExists && samePlacement (Candidate f) stage in
    let targetOriginal := originalPlacement (Original f) target targetExists in
    let stageOriginal := Exists (Original f) && stageExists && samePlacement (Original f) stage in
    if targetOriginal && negb stageExists && negb (Applied f) then RecoveryFileUnstaged
    else if targetCandidate && negb stageCandidate && (negb stageExists || stageOriginal) then RecoveryFileApplied
    else if targetOriginal && stageCandidate && negb (Applied f) then RecoveryFileUnapplied
    else RecoveryFileAmbiguous.

Definition same_parent (f : JournalFile) (i : FileIdentity) : bool := (Device i =? Device (Parent f)) && (Inode i =? Inode (Parent f)).

Definition classifyRecoveryFile (f : JournalFile) : X RecoveryFileState :=
  seen ← catch (
    _ ← checkpoint;
    '(h, parentID) ← openReplacementParent policy (TargetPath f);
    _ ← guard_if (negb (same_parent f parentID)) ErrSourceChanged;
    mret h);
  match seen with
  | Err _ => mret RecoveryFileAmbiguous
  | Ok h =>
      target ← catch (identityAt h (Base (TargetPath f)));
      staged ← catch (owned_stage h (StageBasename f));
      mret match target, staged with Ok target, Ok staged => file_state f target staged | _, _ => RecoveryFileAmbiguous end
  end.

Fixpoint classify_all (l : list JournalFile) : X (list RecoveryFile) :=
  match l with
  | [] => mret []
  | f :: l =>
      state ← classifyRecoveryFile f;
      rest ← classify_all l;
      mret (mk_recovery_file (Ordinal f) (jf_Role f) (TargetPath f) state :: rest)
  end.

Definition count_state (p : RecoveryFileState -> bool) (l : list RecoveryFile) : Z := blen (List.filter (fun f => p (rf_State f)) l).
Definition recovery_state (l : list RecoveryFile) : RecoveryState :=
  let applied := count_state (fun s => bool_decide (s = RecoveryFileApplied)) l in
  let unapplied := count_state (fun s => bool_decide (s = RecoveryFileUnapplied) || bool_decide (s = RecoveryFileUnstaged)) l in
  let ambiguous := count_state (fun s => bool_decide (s = RecoveryFileAmbiguous)) l in
  if negb (ambiguous =? 0) then RecoveryAmbiguous
  else if applied =? blen l then RecoveryApplied
  else if unapplied =? blen l then RecoveryUnapplied
  else RecoveryPartial.

Definition InspectRecovery : X Recovery :=
  _ ← ready;
  j ← database (Load service_uid);
  files ← classify_all (WsTypes.Files j);
  mret (mk_recovery (TransactionID j) (WorkingDirectory j) (ConfigurationPath j) (WsTypes.Bootstrap j) (Phase j) (recovery_state files) files).

(** ** Reading what is there *)

Definition readRecoveryCurrent (j : Journal) : X (Selection * SourceSet) :=
  _ ← (if WsTypes.Bootstrap j then no_selection else mret tt);
  source ← (match j_ConfigurationSource j with
            | NoSource => prior ← database Store_Load; mret (rv_ConfigurationSource (sl_Review prior))
            | source => mret source
            end);
  _ ← (if negb (bool_decide (source = ConfigurationExplicit)) && WsTypes.Bootstrap j && bool_decide (source = ConfigurationConventionalYML) then
         _ ← mapping (fun _ => ErrRecoveryRequired)
               (auditMissingTarget policy (Join (WorkingDirectory j) (to_bytes ".lego.yaml")) RoleConfiguration []);
         mret tt
       else mret tt);
  review ← mapping (fun _ => ErrRecoveryRequired)
             (Inspect policy (mk_request (WorkingDirectory j) (if bool_decide (source = ConfigurationExplicit) then ConfigurationPath j else [])));
  _ ← guard_if (negb (rv_Adoptable review) || negb (bool_decide (pe_Path (rv_Configuration review) = ConfigurationPath j))) ErrRecoveryRequired;
  reviewedAt ← review_time review;
  let selection := mk_selection review reviewedAt in
  sources ← snapshotSelection policy selection;
  mret (selection, sources).

(** ** Removing what an edit staged *)

(** The identity the staging file must have to be removed. *)
Definition removable_identity (f : JournalFile) (allowOriginal : bool) (stage : FileIdentity) : option FileIdentity :=
  let candidate := CandidateReady f && samePlacement (Candidate f) stage in
  let original := allowOriginal && Exists (Original f) && samePlacement (Original f) stage in
  if negb candidate && negb original then None else Some (if original then Original f else Candidate f).

Definition remove_stage (allowOriginal : bool) (f : JournalFile) : X unit :=
  _ ← checkpoint;
  '(h, parentID) ← openReplacementParent policy (TargetPath f);
  _ ← guard_if (negb (same_parent f parentID)) ErrSourceChanged;
  staged ← owned_stage h (StageBasename f);
  _ ← (match staged with
       | None => mret tt
       | Some (basename, stage) =>
           match removable_identity f allowOriginal stage with
           | None => raise ErrSourceChanged
           | Some expected => removeOwnedIdentityAt h basename expected
           end
       end);
  _ ← syncDirectory h;
  checkpoint.
Definition removeRecoveryStages (j : Journal) (allowOriginal : bool) : X unit := for_each_x (remove_stage allowOriginal) (WsTypes.Files j).

(** ** Resolving *)

Definition discardBootstrapRecovery (j : Journal) (guard : X unit) : X RecoveryResult :=
  _ ← no_selection;
  _ ← guard;
  fresh ← mapping (fun _ => ErrSourceChanged) InspectRecovery;
  _ ← guard_if (negb (bool_decide (r_TransactionID fresh = TransactionID j)) || negb (r_Bootstrap fresh)
                || negb (bool_decide (r_State fresh = RecoveryUnapplied))) ErrSourceChanged;
  _ ← mapping (Joined ErrRecoveryRequired) (removeRecoveryStages j false);
  fresh ← mapping (fun _ => ErrSourceChanged) InspectRecovery;
  _ ← guard_if (negb (bool_decide (r_TransactionID fresh = TransactionID j)) || negb (bool_decide (r_State fresh = RecoveryUnapplied))) ErrSourceChanged;
  _ ← no_selection;
  _ ← mapping (fun _ => ErrRecoveryRequired) (database (Clear (TransactionID j)));
  mret (mk_recovery_result None).

Definition discard_unapplied (j : Journal) (guard : X unit) : X RecoveryResult :=
  selection ← database Store_Load;
  _ ← mapping (fun _ => ErrSourceChanged) (Verify policy (sl_Review selection));
  _ ← guard;
  _ ← mapping (Joined ErrRecoveryRequired) (removeRecoveryStages j false);
  _ ← mapping (fun _ => ErrSourceChanged) (Verify policy (sl_Review selection));
  _ ← mapping (fun _ => ErrRecoveryRequired) (database (Clear (TransactionID j)));
  mret (mk_recovery_result (Some selection)).

(** The review before the edit, when the current one must agree with it. *)
Definition boundary_holds (finalizing : bool) (prior : option Selection) (current : Selection) (j : Journal) : bool :=
  negb finalizing || match prior with
                     | Some prior => samePreEditRecoveryBoundary (sl_Review prior) (sl_Review current) j
                     | None => false
                     end.
(** The current files, again as [sources] found them. *)
Definition reread (j : Journal) (sources : SourceSet) : X Selection :=
  '(selection, current) ← readRecoveryCurrent j;
  _ ← guard_if (negb (sameSourceSets sources current)) ErrSourceChanged;
  mret selection.

Definition accept_current (finalizing : bool) (j : Journal) (guard : X unit) (validator : SourceSet -> X unit) : X RecoveryResult :=
  '(validated, sources) ← readRecoveryCurrent j;
  prior ← (if WsTypes.Bootstrap j then mret None else prior ← database Store_Load; mret (Some prior));
  _ ← guard_if (negb (boundary_holds finalizing prior validated j)) ErrSourceChanged;
  _ ← validator sources;
  _ ← reread j sources;
  _ ← guard;
  _ ← (if finalizing then
         fresh ← mapping (fun _ => ErrSourceChanged) InspectRecovery;
         guard_if (negb (bool_decide (r_TransactionID fresh = TransactionID j)) || negb (bool_decide (r_State fresh = RecoveryApplied))) ErrSourceChanged
       else mret tt);
  fresh ← mapping (fun _ => ErrSourceChanged) (database (Load service_uid));
  _ ← guard_if (negb (bool_decide (TransactionID fresh = TransactionID j))) ErrSourceChanged;
  guarded ← reread j sources;
  _ ← guard_if (negb (boundary_holds finalizing prior guarded j)) ErrSourceChanged;
  _ ← mapping (Joined ErrRecoveryRequired) (removeRecoveryStages j true);
  final ← reread j sources;
  _ ← guard_if (negb (boundary_holds finalizing prior final j)) ErrSourceChanged;
  _ ← mapping (fun _ => ErrRecoveryRequired) (database (FinalizeEdit final (TransactionID j)));
  mret (mk_recovery_result (Some final)).

Definition ResolveRecovery (resolution : RecoveryResolution) (guard : X unit) (validator : SourceSet -> X unit) : X RecoveryResult :=
  _ ← ready;
  recovery ← InspectRecovery;
  j ← mapping (fun _ => ErrSourceChanged) (database (Load service_uid));
  _ ← guard_if (negb (bool_decide (TransactionID j = r_TransactionID recovery))) ErrSourceChanged;
  match resolution with
  | ResolutionDiscardUnapplied =>
      _ ← guard_if (negb (bool_decide (r_State recovery = RecoveryUnapplied))) ErrInvalidEdit;
      if WsTypes.Bootstrap j then discardBootstrapRecovery j guard else discard_unapplied j guard
  | ResolutionFinalizeApplied =>
      _ ← guard_if (negb (bool_decide (r_State recovery = RecoveryApplied))) ErrInvalidEdit;
      _ ← guard_if (WsTypes.Bootstrap j) ErrInvalidEdit;
      accept_current true j guard validator
  | ResolutionAdoptCurrent =>
      _ ← guard_if (bool_decide (r_State recovery = RecoveryUnapplied)) ErrInvalidEdit;
      accept_current false j guard validator
  | ResolutionOther => raise ErrInvalidEdit
  end.
End Recovery.
