(* ===== verification/WsRun.v ===== *)
(** Reasoning about computations that may be stopped: a weakest precondition
    with a crash condition.  [wp m Q C s] says that from [s] the computation
    ends with a result in [Q], and that wherever it is stopped the disk and
    the database satisfy [C]. *)
From stdpp Require Import gmap.
From S2P Require Import Prelude.
From S2P Require Import Effects.
From S2P Require Import WsTypes.
From S2P Require Import WsJournal.
From S2P Require Import WsDisk.

#[local] Open Scope Z_scope.

Section Wp.
Context {Selection : Type} `{Machine}.
Abbreviation X := (X (Selection := Selection)).
Abbreviation sys := (sys (Selection := Selection)).
Abbreviation crash := (disk -> Db Selection -> Prop).
(** The durable tables. *)
Definition tables (s : sys) : Db Selection := w_db (s_db s).

Definition wp {A} (m : X A) (Q : result WsError A -> sys -> Prop) (C : crash) (s : sys) : Prop :=
  match m s with (Some r, s') => Q r s' | (None, s') => C (s_disk s') (tables s') end.

Lemma wp_mono {A} (m : X A) (Q Q' : result WsError A -> sys -> Prop) (C C' : crash) s :
  wp m Q C s -> (forall r s', Q r s' -> Q' r s') -> (forall d w, C d w -> C' d w) -> wp m Q' C' s.
Proof. unfold wp. destruct (m s) as [[r|] s']; eauto. Qed.

Lemma wp_bind {A B} (m : X A) (f : A -> X B) Q (C : crash) s :
  wp m (fun r s' => match r with Ok a => wp (f a) Q C s' | Err e => Q (Err e) s' end) C s -> wp (m ≫= f) Q C s.
Proof. unfold wp, mbind, X_bind. by destruct (m s) as [[[a|e]|] s']. Qed.
Lemma wp_ret {A} (a : A) Q (C : crash) s : Q (Ok a) s -> wp (mret a) Q C s.
Proof. done. Qed.
Lemma wp_raise {A} e (Q : result WsError A -> sys -> Prop) (C : crash) s : Q (Err e) s -> wp (raise e) Q C s.
Proof. done. Qed.
Lemma wp_returning {A} (r : result WsError A) Q (C : crash) s : Q r s -> wp (returning r) Q C s.
Proof. done. Qed.
Lemma wp_catch {A} (m : X A) Q (C : crash) s : wp m (fun r s' => Q (Ok r) s') C s -> wp (catch m) Q C s.
Proof. unfold wp, catch. by destruct (m s) as [[r|] s']. Qed.
Lemma wp_guard b e Q (C : crash) s : (b = true -> Q (Err e) s) -> (b = false -> Q (Ok tt) s) -> wp (guard_if b e) Q C s.
Proof. destruct b; cbn; unfold wp, raise; cbn; auto. Qed.
Lemma wp_mapping {A} g (m : X A) Q (C : crash) s :
  wp m (fun r s' => Q (match r with Err e => Err (g e) | Ok a => Ok a end) s') C s -> wp (mapping g m) Q C s.
Proof. unfold wp, mapping. by destruct (m s) as [[[a|e]|] s']. Qed.

(** What a call does at one step, to the disk [d] other processes left. *)
Lemma wp_call {A} broken (run : Z -> disk -> result WsError A * disk) Q (C : crash) s :
  (forall d now k n, d = others (s_steps s) (s_disk s) ->
     C d (tables s) /\ Q (Err (Failure "system call failed")) (mk_sys (broken now k d) (s_db s) n)
     /\ Q (run now d).1 (mk_sys (run now d).2 (s_db s) n)) ->
  wp (call broken run) Q C s.
Proof.
  intros Hc. unfold wp, call. destruct (plan (s_steps s)) as [|k|]; [| |].
  - destruct (Hc _ (clock (s_steps s)) O (Datatypes.S (s_steps s)) eq_refl) as (_ & _ & Hr). by destruct (run _ _).
  - by destruct (Hc _ (clock (s_steps s)) k (Datatypes.S (s_steps s)) eq_refl) as (_ & He & _).
  - by destruct (Hc _ (clock (s_steps s)) O (Datatypes.S (s_steps s)) eq_refl) as (Hn & _).
Qed.

Lemma wp_database {A} (m : M (world (Db Selection)) WsError A) Q (C : crash) s :
  C (s_disk s) (tables s) -> (forall n, Q (m (s_db s)).1 (mk_sys (s_disk s) (m (s_db s)).2 n)) -> wp (database m) Q C s.
Proof. intros HC HQ. unfold wp, database. destruct (plan _); [| |done]; destruct (m (s_db s)) eqn:E; apply HQ. Qed.

Lemma wp_now Q (C : crash) s : (forall t n, Q (Ok t) (mk_sys (s_disk s) (s_db s) n)) -> wp now_utc Q C s.
Proof. intros HQ. apply HQ. Qed.

(** ** Computations that only look

    Left alone by other processes, they change neither the disk nor the stored
    journal; loading a selection may renew its fingerprint. *)
Definition quiet : Prop := forall n d, others n d = d.

Definition same_journal (w w' : Db Selection) : Prop :=
  edit_journal w' = edit_journal w /\ edit_journal_file w' = edit_journal_file w.
#[export] Instance same_journal_equivalence : Equivalence same_journal.
Proof. split; [by split|by intros x y []|]. intros x y z [] []. split; congruence. Qed.

Definition unchanged (s s' : sys) : Prop := s_disk s' = s_disk s /\ same_journal (tables s) (tables s').
#[export] Instance unchanged_preorder : PreOrder unchanged.
Proof. split; [by split|]. intros x y z [] []. split; [congruence|by etransitivity]. Qed.

(** Crash conditions do not depend on the selection. *)
Class Journalled (C : crash) : Prop := journalled : Proper (eq ==> same_journal ==> impl) C.
Lemma journalled_true : Journalled (fun _ _ => True).
Proof. done. Qed.

Definition looking {A} (m : X A) : Prop := quiet -> forall s, unchanged s (m s).2.

Lemma wp_looking {A} (m : X A) Q (C : crash) s :
  looking m -> quiet -> C (s_disk s) (tables s) -> Journalled C -> (forall r s', m s = (Some r, s') -> unchanged s s' -> Q r s') -> wp m Q C s.
Proof.
  intros Hm Hq HC HJ HQ. specialize (Hm Hq s). unfold wp. destruct (m s) as [[r|] s'] eqn:E; cbn in *.
  - by apply HQ.
  - destruct Hm as [-> Ht]. by eapply journalled.
Qed.

Lemma looking_ret {A} (a : A) : looking (mret a).
Proof. intros _ s. reflexivity. Qed.
Lemma looking_raise {A} e : looking (A := A) (raise e).
Proof. intros _ s. reflexivity. Qed.
Lemma looking_returning {A} (r : result WsError A) : looking (returning r).
Proof. intros _ s. reflexivity. Qed.
Lemma looking_bind {A B} (m : X A) (f : A -> X B) : looking m -> (forall a, looking (f a)) -> looking (m ≫= f).
Proof.
  intros Hm Hf Hq s. unfold mbind, X_bind. specialize (Hm Hq s). destruct (m s) as [[[a|e]|] s']; cbn in *; [|done..].
  etransitivity; [done|by apply Hf].
Qed.
Lemma looking_catch {A} (m : X A) : looking m -> looking (catch m).
Proof. intros Hm Hq s. specialize (Hm Hq s). unfold catch. by destruct (m s) as [[r|] s']. Qed.
Lemma looking_mapping {A} g (m : X A) : looking m -> looking (mapping g m).
Proof. intros Hm Hq s. specialize (Hm Hq s). unfold mapping. by destruct (m s) as [[[a|e]|] s']. Qed.
Lemma looking_guard b e : looking (guard_if b e).
Proof. destruct b; [apply looking_raise|apply looking_ret]. Qed.
Lemma looking_if {A} (b : bool) (m n : X A) : looking m -> looking n -> looking (if b then m else n).
Proof. by destruct b. Qed.
Lemma looking_now : looking now_utc.
Proof. intros _ s. by split. Qed.
Lemma looking_look {A} (run : disk -> result WsError A * disk) : (forall d, (run d).2 = d) -> looking (look run).
Proof.
  intros Hr Hq s. unfold look, syscall, call. rewrite Hq. specialize (Hr (s_disk s)).
  destruct (plan _); cbn; [|by split..]. destruct (run _) as [r d']; cbn in *. by subst.
Qed.
Lemma looking_checkpoint : looking checkpoint.
Proof. by apply looking_look. Qed.
Lemma looking_database {A} (m : M (world (Db Selection)) WsError A) : (forall w, same_journal (w_db w) (w_db (m w).2)) -> looking (database m).
Proof.
  intros Hm _ s. unfold database. specialize (Hm (s_db s)).
  destruct (plan _); cbn; [| |by split]; destruct (m (s_db s)); by split.
Qed.
End Wp.

#[export] Hint Resolve journalled_true : core.
#[export] Hint Resolve looking_ret looking_raise looking_returning looking_bind looking_catch looking_mapping looking_guard
  looking_if looking_now looking_checkpoint : look.

(** Case analysis on the scrutinees of a computation that looks. *)
Ltac look_split :=
  lazymatch goal with
  | |- looking (match ?x with _ => _ end) => destruct x
  | |- looking (let '(_, _) := ?x in _) => destruct x
  end.
Ltac looks := repeat first
  [ progress intros | simple apply looking_bind | simple apply looking_catch | simple apply looking_mapping | simple apply looking_guard | simple apply looking_ret
  | simple apply looking_raise | simple apply looking_now | simple apply looking_checkpoint | simple apply looking_if | look_split | solve [eauto with look] ].
