(* ===== verification/WsFacts.v ===== *)
(** What the path audit accepts: the walk it took and the judgement of every
    component it passed. *)
From stdpp Require Import gmap.
From S2P Require Import Prelude.
From S2P Require Import GoText.
From S2P Require Import GoTime.
From S2P Require Import Effects.
From S2P Require Import WsTypes.
From S2P Require Import WsJournal.
From S2P Require Import WsDisk.
From S2P Require Import WsAudit.
From S2P Require Import WsEdit.
From S2P Require Import WsSelect.
From S2P Require Import WsStore.
From S2P Require Import WsRun.

#[local] Open Scope Z_scope.

(** ** Diagnostics *)

Lemma when_nil b d : when b d = [] <-> b = false.
Proof. by destruct b. Qed.
Lemma stopped_blames a code component detail : diagnostics (stopped a code component detail) <> [].
Proof. cbn. by destruct (diagnostics a). Qed.

(** Nothing an audit reports is a mere notice. *)
Definition all_blocking (l : list Diagnostic) : Prop := Forall (fun d => dg_Severity d = SeverityBlocking) l.
Lemma blocking_nil l : all_blocking l -> hasBlockingDiagnostics l = false <-> l = [].
Proof. intros [|d l' Hd]; [done|]. split; [|done]. unfold hasBlockingDiagnostics. cbn. by rewrite Hd. Qed.
Lemma all_blocking_app l k : all_blocking (l ++ k) <-> all_blocking l /\ all_blocking k.
Proof. apply Forall_app. Qed.
Lemma all_blocking_when b code role path component detail : all_blocking (when b (diagnostic code role path component detail)).
Proof. destruct b; repeat constructor. Qed.
Lemma all_blocking_diagnostic code role path component detail : all_blocking [diagnostic code role path component detail].
Proof. repeat constructor. Qed.
#[local] Hint Resolve all_blocking_when all_blocking_diagnostic : audit.
Ltac blocking := repeat (apply all_blocking_app; split); eauto with audit.

Lemma traversal_blocking c final role path policy : all_blocking (auditTraversalComponent c final role path policy).
Proof. unfold auditTraversalComponent. blocking. Qed.
Lemma final_blocking e r : all_blocking (auditFinalPath e r).
Proof. unfold auditFinalPath. destruct (negb _); [constructor|blocking]. Qed.
Lemma parent_blocking e : all_blocking (auditReplacementParent e).
Proof. unfold auditReplacementParent. destruct (second_last _); blocking. Qed.
#[local] Hint Resolve traversal_blocking final_blocking parent_blocking : audit.

(** ** One component *)

(** Nobody but root and the service can replace what is below it: they own
    it, others cannot write it unless it is a sticky directory of root on the
    way, and no other special bit is set. *)
Record trusted (policy : Policy) (final : bool) (c : ComponentEvidence) : Prop := mk_trusted {
  tr_owner : ce_UID c = trustedRootUID policy \/ ce_UID c = EffectiveUID policy;
  tr_write : has_bits (ce_Mode c) 18 = true -> final = false /\ ce_UID c = trustedRootUID policy /\ has_bits (ce_Mode c) 512 = true;
  tr_sticky : has_bits (ce_Mode c) 512 = true -> final = false /\ ce_UID c = trustedRootUID policy;
  tr_setid : has_bits (ce_Mode c) 3072 = false;
  tr_search : ce_Type c = PathTypeDirectory -> Searchable (ce_Access c) = true;
}.

Lemma has_bits_permissions mode mask : Z.land mask 4095 = mask -> has_bits (Z.land mode 4095) mask = has_bits mode mask.
Proof. intros Hm. unfold has_bits. by rewrite <- Z.land_assoc, (Z.land_comm 4095), Hm. Qed.

Lemma traversal_trusted c final role path policy : auditTraversalComponent c final role path policy = [] -> trusted policy final c.
Proof.
  unfold auditTraversalComponent. rewrite !has_bits_permissions by reflexivity. rewrite !app_nil, !when_nil.
  intros (Ho & Hw & Hs & Hd).
  assert (Hu : ce_UID c = trustedRootUID policy \/ ce_UID c = EffectiveUID policy).
  { destruct (Z.eqb_spec (ce_UID c) (trustedRootUID policy)), (Z.eqb_spec (ce_UID c) (EffectiveUID policy)); [auto..|done]. }
  constructor; [done|..].
  - intros E. rewrite E in Hw. destruct final, (Z.eqb_spec (ce_UID c) (trustedRootUID policy)), (has_bits (ce_Mode c) 512); done.
  - intros E. rewrite E in Hs. destruct final, (Z.eqb_spec (ce_UID c) (trustedRootUID policy)), (has_bits (ce_Mode c) 3072); done.
  - by destruct (has_bits (ce_Mode c) 3072).
  - intros E. rewrite bool_decide_true in Hd by done. by destruct (Searchable _).
Qed.

(** ** The walk *)

Section Walk.
Context {Selection : Type} `{Machine}.
Context (policy : Policy) (role : PathRole) (path : bytes).
Abbreviation sys := (sys (Selection := Selection)).

(** The components passed from directory [fd] at [prefix]; [d] is the disk
    when nobody else changes it. *)
Inductive walked (d : disk) : Z -> bytes -> FileIdentity -> list bytes -> list ComponentEvidence -> Z -> FileIdentity -> Prop :=
| walked_end fd prefix stat : walked d fd prefix stat [] [] fd stat
| walked_step fd prefix stat part rest next st comps fd' stat' :
    ce_Type (componentFromStat (Join prefix part) st policy) <> PathTypeSymlink ->
    (rest <> [] -> ce_Type (componentFromStat (Join prefix part) st policy) = PathTypeDirectory) ->
    auditTraversalComponent (componentFromStat (Join prefix part) st policy) (match rest with [] => true | _ => false end) role path policy = [] ->
    Exists st = true ->
    (quiet -> entry_of d fd part = Some next /\ stat_of d next = Some st) ->
    walked d next (Join prefix part) st rest comps fd' stat' ->
    walked d fd prefix stat (part :: rest) (componentFromStat (Join prefix part) st policy :: comps) fd' stat'.

Definition with_components (e : PathEvidence) (l : list ComponentEvidence) : PathEvidence :=
  mk_evidence (pe_Role e) (pe_Reference e) (pe_Path e) (pe_Type e) (pe_Identity e) (pe_Access e) (pe_Components e ++ l) (pe_Safe e).

(** A walk that reached its end without a diagnostic. *)
Definition walk_post (d : disk) (s : sys) (parts : list bytes) (fd : Z) (prefix : bytes) (stat : FileIdentity) (a : auditedPath)
    (r : result WsError (auditedPath * option (Z * FileIdentity))) (s' : sys) : Prop :=
  (quiet -> unchanged s s') /\
  match r with
  | Err _ => False
  | Ok (a', out) =>
      pe_Safe (evidence a') = pe_Safe (evidence a) /\ file a' = file a /\
      (all_blocking (diagnostics a) -> all_blocking (diagnostics a')) /\
      match out with
      | None => diagnostics a' <> []
      | Some (fd', stat') =>
          diagnostics a' = [] ->
          diagnostics a = [] /\ exists comps, walked d fd prefix stat parts comps fd' stat' /\ evidence a' = with_components (evidence a) comps
      end
  end.

Lemma wp_checkpoint_catch (Q : result WsError (result WsError unit) -> sys -> Prop) s :
  (forall r s', (quiet -> unchanged s s') -> Q (Ok r) s') -> wp (catch checkpoint) Q (fun _ _ => True) s.
Proof.
  intros HQ. apply wp_catch, wp_call. intros d now k n ->.
  split; [done|]; split; apply HQ; intros Hq; split; cbn; try done; apply Hq.
Qed.

Lemma wp_look_catch {A} (run : disk -> result WsError A * disk) (Q : result WsError (result WsError A) -> sys -> Prop) s :
  (forall d, (run d).2 = d) ->
  (forall r s' d, (quiet -> unchanged s s' /\ d = s_disk s) -> (forall a, r = Ok a -> (run d).1 = Ok a) -> Q (Ok r) s') ->
  wp (catch (look run)) Q (fun _ _ => True) s.
Proof.
  intros Hr HQ. apply wp_catch, wp_call. intros d now k n Ed.
  assert (Hd : quiet -> d = s_disk s) by (intros Hq; rewrite Ed; apply Hq).
  split; [done|]; split; apply (HQ _ _ d); try done; intros Hq; (split; [split; cbn; [rewrite ?Hr|done]|]); auto.
Qed.

Lemma fstat_looks i d : (sys_fstat i d).2 = d.
Proof. unfold sys_fstat. by destruct (stat_of d i). Qed.
Lemma fstat_ok i d st : (sys_fstat i d).1 = Ok st -> stat_of d i = Some st.
Proof. unfold sys_fstat. destruct (stat_of d i); cbn; congruence. Qed.
Lemma stat_exists d i st : stat_of d i = Some st -> Exists st = true.
Proof. unfold stat_of. destruct (dk_files d !! i); [naive_solver|]. destruct (dk_dirs d !! i); cbn; naive_solver. Qed.
Lemma open_path_looks h name d : (sys_open_path h name d).2 = d.
Proof. unfold sys_open_path. by destruct (dk_dirs d !! h). Qed.
Lemma open_path_ok h name d next : (sys_open_path h name d).1 = Ok (Some next) -> entry_of d h name = Some next.
Proof. unfold sys_open_path, entry_of. destruct (dk_dirs d !! h); cbn; congruence. Qed.

Lemma audit_components_walk d parts : forall fd prefix stat a s,
  (quiet -> s_disk s = d) -> pe_Role (evidence a) = role -> pe_Path (evidence a) = path ->
  wp (audit_components policy parts fd prefix stat a) (walk_post d s parts fd prefix stat a) (fun _ _ => True) s.
Proof.
  induction parts as [|part rest IH]; intros fd prefix stat a s Ed0 Er Ep; cbn [audit_components].
  { apply wp_ret. split; [done|]. split_and!; try done. intros Hd. split; [done|]. exists []. split; [constructor|].
    unfold with_components. rewrite app_nil_r. by destruct (evidence a). }
  apply wp_bind, wp_checkpoint_catch. intros cancelled s1 U1.
  destruct (is_err cancelled).
  { apply wp_ret. split; [done|]. split_and!; [done..| |apply stopped_blames]. intros Hb. cbn. blocking. }
  apply wp_bind, wp_look_catch; [apply open_path_looks|]. intros opened s2 d2 U2 Ho.
  assert (V2 : quiet -> unchanged s s2).
  { intros Hq. etransitivity; [by apply U1|by apply U2]. }
  destruct opened as [[next|]|e].
  2,3: apply wp_ret; (split; [done|]); (split_and!; [done..| |apply stopped_blames]); intros Hb; cbn; blocking.
  apply wp_bind, wp_look_catch; [apply fstat_looks|]. intros seen s3 d3 U3 Hs.
  assert (V3 : quiet -> unchanged s s3) by (intros Hq; etransitivity; [by apply V2|by apply U3]).
  destruct seen as [st|e].
  2: { apply wp_ret; (split; [done|]); (split_and!; [done..| |apply stopped_blames]); intros Hb; cbn; blocking. }
  cbn zeta. set (c := componentFromStat (Join prefix part) st policy).
  set (final := match rest with [] => true | _ => false end).
  destruct (decide (ce_Type c = PathTypeSymlink)) as [Es|Ns].
  { rewrite bool_decide_true by done. apply wp_ret. split; [done|]. split_and!; [done..| |apply stopped_blames].
    intros Hb. cbn. blocking. }
  rewrite bool_decide_false by done.
  destruct (negb final && negb (bool_decide (ce_Type c = PathTypeDirectory))) eqn:Ed.
  { apply wp_ret. split; [done|]. split_and!; [done..| |apply stopped_blames]. intros Hb. cbn. blocking. }
  eapply wp_mono; [apply IH; [|done..]; intros Hq; rewrite <- (Ed0 Hq); by apply V3| |done].
  intros r s' [Hu Hr]. split; [intros Hq; etransitivity; [by apply V3|by apply Hu]|].
  destruct r as [[a' out]|]; [|done]. destruct Hr as (Hsafe & Hf & Hb & Hout). split_and!; [done..| |].
  { intros Ha. apply Hb. cbn. blocking. }
  destruct out as [[fd' stat']|]; [|done]. intros Hn. destruct (Hout Hn) as (Hd & comps & Hw & He).
  cbn in Hd. apply app_eq_nil in Hd as [Ha Ht]. split; [done|]. exists (c :: comps). split.
  - subst c final. apply (walked_step d fd prefix stat part rest next st); [done| |by rewrite <- Er, <- Ep| | |].
    + intros Hne. destruct rest; [done|]. cbn in Ed. by apply negb_false_iff, bool_decide_eq_true in Ed.
    + apply (stat_exists d3 next), fstat_ok, Hs. done.
    + intros Hq. destruct (U2 Hq) as [[D2 _] ->]. destruct (U3 Hq) as [_ ->]. destruct (U1 Hq) as [D1 _].
      rewrite <- (Ed0 Hq), <- D1. split; [by apply open_path_ok, Ho|]. rewrite <- D2. by apply fstat_ok, Hs.
    + done.
  - rewrite He. unfold with_components, add_component. cbn. by rewrite <- app_assoc.
Qed.

(** ** The path *)

Fixpoint component_paths (prefix : bytes) (parts : list bytes) : list bytes :=
  match parts with [] => [] | part :: rest => Join prefix part :: component_paths (Join prefix part) rest end.
(** The inode the names lead to, entry by entry. *)
Fixpoint follow (d : disk) (h : Z) (parts : list bytes) : option Z :=
  match parts with [] => Some h | part :: rest => next ← entry_of d h part; follow d next rest end.

Record walk_facts (d : disk) (fd : Z) (prefix : bytes) (parts : list bytes) (comps : list ComponentEvidence) (fd' : Z) (stat' : FileIdentity)
    : Prop := mk_walk_facts {
  wf_paths : ce_Path <$> comps = component_paths prefix parts;
  wf_trusted : forall i c, comps !! i = Some c -> trusted policy (bool_decide (Datatypes.S i = List.length comps)) c;
  wf_no_link : Forall (fun c => ce_Type c <> PathTypeSymlink) comps;
  wf_way : forall i c, comps !! i = Some c -> (Datatypes.S i < List.length comps)%nat -> ce_Type c = PathTypeDirectory;
  wf_last : forall c, last comps = Some c -> c = componentFromStat (ce_Path c) stat' policy /\ Exists stat' = true;
  wf_here : quiet -> follow d fd parts = Some fd' /\ (parts <> [] -> stat_of d fd' = Some stat');
}.

Lemma walked_length d fd prefix stat parts comps fd' stat' :
  walked d fd prefix stat parts comps fd' stat' -> List.length comps = List.length parts.
Proof. induction 1; cbn; congruence. Qed.
Lemma walked_end_stat d fd prefix stat comps fd' stat' : walked d fd prefix stat [] comps fd' stat' -> stat' = stat /\ fd' = fd.
Proof. by inversion 1. Qed.

Lemma walked_facts d fd prefix stat parts comps fd' stat' :
  walked d fd prefix stat parts comps fd' stat' -> walk_facts d fd prefix parts comps fd' stat'.
Proof.
  induction 1 as [|fd prefix stat part rest next st comps fd' stat' Hl Hd Ht He Hq Hw IH]; [by constructor|].
  pose proof (walked_length _ _ _ _ _ _ _ _ Hw) as Hlen. destruct IH as [Ip It Il Iw Ic Ih].
  constructor.
  - cbn. by rewrite Ip.
  - intros [|i] c; cbn; [intros [= <-]|].
    + apply traversal_trusted in Ht. by destruct rest, comps.
    + intros Hc. specialize (It _ _ Hc). by rewrite (bool_decide_ext _ (Datatypes.S i = List.length comps)) by lia.
  - by constructor.
  - intros [|i] c; cbn; [intros [= <-]|]; intros.
    + apply Hd. by destruct rest, comps; cbn in *; try lia.
    + eapply Iw; [done|lia].
  - intros c. destruct comps as [|c' comps]; [|apply Ic]. cbn. intros [= <-].
    destruct rest; [|done]. apply walked_end_stat in Hw as [-> _]. done.
  - intros Q. destruct (Hq Q) as [E1 E2], (Ih Q) as [F1 F2]. cbn. rewrite E1. cbn. split; [done|]. intros _.
    destruct rest as [|part' rest]; [|by apply F2]. apply walked_end_stat in Hw as [-> ->]. done.
Qed.
End Walk.

(** ** Acceptance *)

Section Accept.
Context {Selection : Type} `{Machine}.
Abbreviation sys := (sys (Selection := Selection)).

(** What safe evidence says of the path and of every directory above it; [d]
    is the disk of a machine on which nobody else acts. *)
Record accepted (policy : Policy) (r : pathRequirements) (d : disk) (path : bytes) (e : PathEvidence) : Prop := mk_accepted {
  ac_path : pe_Path e = path;
  ac_components : ce_Path <$> pe_Components e = [slash] :: component_paths [slash] (path_parts path);
  ac_trusted : forall i c, pe_Components e !! i = Some c ->
    trusted policy (bool_decide (0 < i < List.length (pe_Components e) /\ Datatypes.S i = List.length (pe_Components e))%nat) c;
  ac_no_link : forall i c, pe_Components e !! Datatypes.S i = Some c -> ce_Type c <> PathTypeSymlink;
  ac_way : forall i c, pe_Components e !! Datatypes.S i = Some c -> (Datatypes.S (Datatypes.S i) < List.length (pe_Components e))%nat ->
    ce_Type c = PathTypeDirectory;
  ac_final : exists c, last (pe_Components e) = Some c /\ c = componentFromStat (ce_Path c) (pe_Identity e) policy;
  ac_type : pe_Exists e = true /\ pe_Type e = expected r /\ pe_Type e = statPathType (Mode (pe_Identity e));
  ac_confidential : confidential r = true ->
    has_bits (Mode (pe_Identity e)) 63 = false /\ (pe_Type e = PathTypeRegular -> NLink (pe_Identity e) = 1);
  ac_access : let granted := serviceAccess (pe_Identity e) policy in
    (requireRead r = true -> Readable granted = true) /\ (requireWrite r = true -> Writable granted = true)
    /\ (requireSearch r = true -> Searchable granted = true);
  ac_parent : requireParentSwap r = true ->
    exists parent, second_last (pe_Components e) = Some parent /\ Writable (ce_Access parent) = true /\ Searchable (ce_Access parent) = true;
  ac_here : quiet -> exists i, follow d (dk_root d) (path_parts path) = Some i /\ stat_of d i = Some (pe_Identity e);
}.

Lemma final_accepts e r : pe_Exists e = true -> auditFinalPath e r = [] ->
  pe_Type e = expected r
  /\ (confidential r = true -> has_bits (Mode (pe_Identity e)) 63 = false /\ (pe_Type e = PathTypeRegular -> NLink (pe_Identity e) = 1))
  /\ (requireRead r = true -> Readable (pe_Access e) = true) /\ (requireWrite r = true -> Writable (pe_Access e) = true)
  /\ (requireSearch r = true -> Searchable (pe_Access e) = true).
Proof.
  intros He. unfold auditFinalPath. rewrite He. cbn. rewrite !app_nil, !when_nil. intros (Ht & Hc & Hl & Hr & Hw & Hs).
  rewrite negb_false_iff, bool_decide_eq_true in Ht. split; [done|].
  split; [|by repeat split; intros E; rewrite E in *; cbn in *; apply negb_false_iff].
  intros E. rewrite E in *. cbn in *. split; [done|]. intros Er. rewrite bool_decide_true in Hl by done.
  by apply negb_false_iff, Z.eqb_eq in Hl.
Qed.

Lemma parent_accepts e : auditReplacementParent e = [] ->
  exists parent, second_last (pe_Components e) = Some parent /\ Writable (ce_Access parent) = true /\ Searchable (ce_Access parent) = true.
Proof.
  unfold auditReplacementParent. destruct (second_last _) as [parent|]; [|done]. rewrite app_nil, !when_nil, !negb_false_iff. eauto.
Qed.

(** The evidence of a walk whose diagnostics are empty. *)
Lemma walk_accepted policy role path reference r d root rootStat comps fd finalStat e :
  Exists rootStat = true ->
  auditTraversalComponent (componentFromStat [slash] rootStat policy) false role path policy = [] ->
  walked policy role path d root [slash] rootStat (path_parts path) comps fd finalStat ->
  (quiet -> root = dk_root d /\ stat_of d root = Some rootStat) ->
  e = pathFromFinalStat (mk_evidence role reference path PathTypeUnknown no_identity no_access (componentFromStat [slash] rootStat policy :: comps) false)
        finalStat policy ->
  auditFinalPath e r = [] -> (requireParentSwap r = true -> auditReplacementParent e = []) ->
  forall safe, accepted policy r d path (set_safe safe e).
Proof.
  intros Hex Ht Hw Hroot -> Hf Hp safe.
  pose proof (walked_length _ _ _ _ _ _ _ _ _ _ _ Hw) as Hlen.
  pose proof (walked_facts _ _ _ _ _ _ _ _ _ _ _ Hw) as [Ip It Il Iw Ic Ih].
  assert (Hfs : Exists finalStat = true /\ (comps = [] -> finalStat = rootStat /\ fd = root)).
  { destruct comps as [|c comps] using rev_ind.
    - destruct (path_parts path); [|done]. apply walked_end_stat in Hw as [-> ->]. done.
    - clear IHcomps. split; [|by destruct comps]. by destruct (Ic c) as [_ ?]; [apply last_snoc|]. }
  destruct Hfs as [Hfs Hroot'].
  apply final_accepts in Hf as (F1 & F2 & F3 & F4 & F5); [|done].
  constructor; cbn; try done.
  - by rewrite Ip.
  - intros [|i] c; cbn; [intros [= <-]|].
    + apply traversal_trusted in Ht. rewrite bool_decide_false by lia. done.
    + intros Hc. specialize (It _ _ Hc). apply lookup_lt_Some in Hc.
      by rewrite (bool_decide_ext _ (Datatypes.S i = List.length comps)) by lia.
  - intros i c Hc. rewrite Forall_lookup in Il. by eapply Il.
  - intros i c Hc Hlt. eapply Iw; [done|]. lia.
  - destruct comps as [|c comps] using rev_ind.
    + exists (componentFromStat [slash] rootStat policy). split; [done|]. destruct Hroot' as [-> _]; done.
    + exists c. rewrite app_comm_cons, last_snoc. split; [done|]. apply Ic, last_snoc.
  - intros E. by apply parent_accepts in Hp.
  - intros Q. destruct (Hroot Q) as [-> Hr], (Ih Q) as [H1 H2]. exists fd. split; [done|].
    destruct comps as [|c comps'].
    + destruct Hroot' as [-> ->]; done.
    + apply H2. by destruct (path_parts path).
Qed.

Lemma open_read_handle_safe path fd finalStat a s (Q : result WsError auditedPath -> sys -> Prop) :
  (pe_Safe (evidence a) = true <-> diagnostics a = []) ->
  (forall r s', (match r with
                 | Ok a' => (pe_Safe (evidence a') = true <-> diagnostics a' = [])
                            /\ (pe_Safe (evidence a') = true -> evidence a' = evidence a /\ diagnostics a = [] /\ file a' = Some fd)
                 | Err _ => False end) -> Q r s') ->
  wp (open_read_handle path fd finalStat a) Q (fun _ _ => True) s.
Proof.
  intros Ha HQ. unfold open_read_handle. apply wp_bind, wp_checkpoint_catch. intros opened s1 _.
  assert (Hbad : forall code detail s', Q (Ok (mk_audited (set_safe false (evidence a))
     (diagnostics a ++ [diagnostic code (pe_Role (evidence a)) path path detail]) (file a))) s').
  { intros code detail s'. apply HQ. cbn. split; [|done]. split; [done|]. by destruct (diagnostics a). }
  destruct (is_err opened); [apply wp_ret, Hbad|].
  apply wp_bind, wp_look_catch; [apply fstat_looks|]. intros re s2 d2 _ _. destruct re as [stat|e]; [|apply wp_ret, Hbad].
  destruct (sameStableStat _ _); apply wp_ret; [|apply Hbad]. apply HQ. cbn. naive_solver.
Qed.

Definition audit_post (policy : Policy) (r : pathRequirements) (d : disk) (path : bytes) (a : auditedPath) : Prop :=
  (pe_Safe (evidence a) = true <-> diagnostics a = []) /\
  (pe_Safe (evidence a) = true ->
     accepted policy r d path (evidence a) /\ (is_Some (file a) <-> readHandle r = true /\ pe_Type (evidence a) = PathTypeRegular)).

Lemma audit_post_stopped policy r d path a code component detail :
  pe_Safe (evidence a) = false -> audit_post policy r d path (stopped a code component detail).
Proof. intros Hs. split; cbn; rewrite Hs; [|done]. split; [done|]. by destruct (diagnostics a). Qed.

Lemma auditPath_post path role reference r policy (s : sys) :
  wp (auditPath path role reference r policy)
    (fun o _ => match o with Ok a => audit_post policy r (s_disk s) path a | Err _ => False end) (fun _ _ => True) s.
Proof.
  unfold auditPath. apply wp_bind, wp_checkpoint_catch. intros cancelled s1 U1.
  destruct (is_err cancelled); [by apply wp_ret, audit_post_stopped|].
  destruct (negb (boundedComponentEvidence path)); [by apply wp_ret, audit_post_stopped|].
  apply wp_bind, wp_look_catch; [done|]. intros opened s2 d2 U2 Ho. destruct opened as [root|]; [|by apply wp_ret, audit_post_stopped].
  apply wp_bind, wp_look_catch; [apply fstat_looks|]. intros seen s3 d3 U3 Hs.
  destruct seen as [rootStat|]; [|by apply wp_ret, audit_post_stopped].
  cbn zeta. apply wp_bind. eapply wp_mono; [apply (audit_components_walk policy role path (s_disk s)); [|done..]| |done].
  { intros Hq. destruct (U3 Hq) as [[D3 _] _], (U2 Hq) as [[D2 _] _], (U1 Hq) as [D1 _]. congruence. }
  intros o s4 [_ Ho4]. destruct o as [[a out]|]; [|done]. cbn in Ho4. destruct Ho4 as (Hsafe & Hf & Hb & Hout).
  specialize (Hb (traversal_blocking _ _ _ _ _)).
  destruct out as [[fd finalStat]|]; [|apply wp_ret; split; rewrite Hsafe; cbn; [by split|done]].
  set (e := pathFromFinalStat (evidence a) finalStat policy).
  set (ds := diagnostics a ++ auditFinalPath e r ++ (if requireParentSwap r then auditReplacementParent e else [])).
  assert (Hds : all_blocking ds).
  { subst ds. blocking. destruct (requireParentSwap r); [blocking|constructor]. }
  assert (Hiff : pe_Safe (set_safe (negb (hasBlockingDiagnostics ds)) e) = true <-> ds = []).
  { cbn. rewrite negb_true_iff. by apply blocking_nil. }
  assert (Hacc : ds = [] -> forall safe, accepted policy r (s_disk s) path (set_safe safe e)).
  { subst ds. intros Hn. apply app_nil in Hn as [Hn1 Hn2]. apply app_nil in Hn2 as [Hn2 Hn3].
    destruct (Hout Hn1) as (Ht & comps & Hw & He).
    eapply (walk_accepted policy role path reference r _ root rootStat comps fd finalStat); [|done|done| |by subst e; rewrite He|done|].
    - eapply stat_exists, fstat_ok, Hs. done.
    - intros Hq. destruct (U3 Hq) as [_ ->], (U2 Hq) as [[D2 _] ->], (U1 Hq) as [D1 _].
      specialize (Ho _ eq_refl). cbn in Ho. injection Ho as <-. rewrite <- D1. split; [done|].
      rewrite <- D2. apply fstat_ok. rewrite D2 at 1. by apply Hs.
    - intros E. by rewrite E in Hn3. }
  destruct (readHandle r && pe_Exists e && bool_decide (pe_Type e = PathTypeRegular)) eqn:Er.
  - apply open_read_handle_safe; [done|]. intros o s5 Ho5. destruct o as [a'|]; [|done]. destruct Ho5 as [H1 H2].
    split; [done|]. intros Hs'. destruct (H2 Hs') as (-> & Hd & Hfile). split; [by apply Hacc|].
    rewrite Hfile. cbn. rewrite !andb_true_iff, bool_decide_eq_true in Er. naive_solver.
  - apply wp_ret. split; [done|]. intros Hs'. apply Hiff in Hs'. split; [by apply Hacc|]. cbn.
    split; [by intros []|]. intros [Hr Ht]. destruct (Hacc Hs' true) as [_ _ _ _ _ _ [Hex _] _ _ _ _]. cbn in Hex.
    change (pe_Exists e = true) in Hex. rewrite Hr, Hex, bool_decide_true in Er by done. done.
Qed.
End Accept.

(** The disk around one edited file: which inodes its target may name after a
    power loss, where its candidate or its displaced original is, and how each
    system call changes that. *)

(** A file under edit: its directory, its names, what it held and what it is
    to hold. *)
Record target := mk_target { t_dir : Z; t_name : bytes; t_stage : bytes; t_old : option (Z * bytes); t_new : bytes }.
Definition t_quarantine (t : target) : bytes := cleanupBasename (t_stage t).
Definition own_names (t : target) : list bytes := [t_name t; t_stage t; t_quarantine t].

(** What is known of it: the inodes and contents its target may have in any
    surviving state of the directory, the inode at the staging name ([false])
    or the quarantine name ([true]), whether every state is free of both
    names, and a complete candidate. *)
Record ghost := mk_ghost {
  g_keep : list (option (Z * bytes));
  g_place : option (bool * Z);
  g_clean : bool;
  g_ready : option (Z * bytes);
}.

Definition holds (d : disk) (v : option (Z * bytes)) : Prop :=
  match v with
  | None => True
  | Some (i, content) => exists f, dk_files d !! i = Some f /\ i_synced f = true /\ i_content f = content
  end.

Definition at_stage (p : option (bool * Z)) : option Z := match p with Some (false, i) => Some i | _ => None end.
Definition at_quarantine (p : option (bool * Z)) : option Z := match p with Some (true, i) => Some i | _ => None end.
Definition inode_of (v : option (Z * bytes)) : option Z := fst <$> v.

Record dir_ok (n : directory) (t : target) (g : ghost) : Prop := mk_dir_ok {
  do_current : d_entries n ∈ d_versions n;
  do_target : forall e, e ∈ d_versions n -> e !! t_name t ∈ (inode_of <$> g_keep g);
  do_stage : d_entries n !! t_stage t = at_stage (g_place g);
  do_quarantine : d_entries n !! t_quarantine t = at_quarantine (g_place g);
  do_clean : g_clean g = true -> forall e, e ∈ d_versions n -> e !! t_stage t = None /\ e !! t_quarantine t = None;
}.
Record entry_ok (d : disk) (t : target) (g : ghost) : Prop := mk_entry_ok {
  eo_dir : exists n, dk_dirs d !! t_dir t = Some n /\ dir_ok n t g;
  eo_keep : Forall (holds d) (g_keep g);
  eo_ready : holds d (g_ready g);
}.

(** The inodes an entry depends on. *)
Definition inodes (g : ghost) (i : Z) : Prop :=
  (exists b, g_place g = Some (b, i)) \/ Some i ∈ (inode_of <$> g_keep g) \/ inode_of (g_ready g) = Some i.
Definition kept (g : ghost) (i : Z) : Prop := Some i ∈ (inode_of <$> g_keep g) \/ inode_of (g_ready g) = Some i.

(** Inode numbers not yet given out are free. *)
Definition fresh_above (d : disk) : Prop := forall i, dk_next d <= i -> dk_files d !! i = None.

(** ** Frames

    From [d] to [d'] only the names [names] of directory [h] and the contents
    of the inodes [own] may have changed. *)
Record frame (h : Z) (names : list bytes) (own : Z -> Prop) (d d' : disk) : Prop := mk_frame {
  fr_next : dk_next d <= dk_next d';
  fr_fresh : fresh_above d -> fresh_above d';
  fr_files : forall i f, dk_files d !! i = Some f -> ~ own i ->
    exists f', dk_files d' !! i = Some f' /\ i_content f' = i_content f /\ (i_synced f = true -> i_synced f' = true);
  fr_dirs : forall k n, dk_dirs d !! k = Some n -> d_entries n ∈ d_versions n ->
    exists n', dk_dirs d' !! k = Some n' /\ d_entries n' ∈ d_versions n' /\
      forall name, (k = h -> name ∉ names) ->
        d_entries n' !! name = d_entries n !! name /\ forall e', e' ∈ d_versions n' -> exists e, e ∈ d_versions n /\ e' !! name = e !! name;
}.

Lemma frame_refl h names own d : frame h names own d d.
Proof. constructor; [lia|done| |]; naive_solver. Qed.

Lemma frame_trans h names own d1 d2 d3 : frame h names own d1 d2 -> frame h names own d2 d3 -> frame h names own d1 d3.
Proof.
  intros [N1 F1 I1 D1] [N2 F2 I2 D2]. constructor; [lia|auto| |].
  - intros i f Hi Ho. destruct (I1 i f Hi Ho) as (f' & E1 & C1 & S1). destruct (I2 i f' E1 Ho) as (f'' & E2 & C2 & S2).
    exists f''. split_and!; [done|congruence|auto].
  - intros k n Hk Hv. destruct (D1 k n Hk Hv) as (n' & E1 & V1 & P1). destruct (D2 k n' E1 V1) as (n'' & E2 & V2 & P2).
    exists n''. split_and!; [done..|]. intros name Hn. destruct (P1 name Hn) as [Q1 R1], (P2 name Hn) as [Q2 R2].
    split; [congruence|]. intros e' He'. destruct (R2 e' He') as (e1 & H1 & L1), (R1 _ H1) as (e2 & H2 & L2).
    exists e2. split; [done|congruence].
Qed.

Lemma frame_weaken h names names' (own own' : Z -> Prop) d d' :
  frame h names own d d' -> (forall x, x ∈ names -> x ∈ names') -> (forall i, own i -> own' i) -> frame h names' own' d d'.
Proof.
  intros [N F I D] Hn Ho. constructor; [done..| |].
  - intros i f Hi Hni. apply I; [done|]. auto.
  - intros k n Hk Hv. destruct (D k n Hk Hv) as (n' & E & V & P). exists n'. split_and!; [done..|].
    intros name Hm. apply P. intros Ek Hin. by apply (Hm Ek), Hn.
Qed.

Lemma frame_holds h names own d d' v :
  frame h names own d d' -> holds d v -> (forall i, inode_of v = Some i -> ~ own i) -> holds d' v.
Proof.
  intros F. destruct v as [[i c]|]; [|done]. intros (f & Hf & Hs & <-) Ho.
  destruct (fr_files _ _ _ _ _ F i f Hf (Ho i eq_refl)) as (f' & Hf' & Hc & Hs'). exists f'. split_and!; auto.
Qed.

(** Work elsewhere leaves an entry as it is. *)
Lemma frame_entry h names own d d' t g :
  frame h names own d d' -> entry_ok d t g -> (t_dir t = h -> forall x, x ∈ own_names t -> x ∉ names) ->
  (forall i, kept g i -> ~ own i) -> entry_ok d' t g.
Proof.
  intros F [(n & Hn & [Dc Dt Ds Dq Dl]) Hk Hr] Hnames Hown.
  destruct (fr_dirs _ _ _ _ _ F _ n Hn Dc) as (n' & Hn' & V' & P').
  assert (P : forall x, x ∈ own_names t -> d_entries n' !! x = d_entries n !! x /\
    forall e', e' ∈ d_versions n' -> exists e, e ∈ d_versions n /\ e' !! x = e !! x).
  { intros x Hx. apply P'. intros E. by apply Hnames. }
  destruct (P (t_name t)) as [_ Pt]; [set_solver|].
  destruct (P (t_stage t)) as [Ps Pvs]; [set_solver|]. destruct (P (t_quarantine t)) as [Pq Pvq]; [set_solver|].
  constructor.
  - exists n'. split; [done|]. constructor; [done| | | |].
    + intros e' He'. destruct (Pt e' He') as (e & He & ->). by apply Dt.
    + by rewrite Ps.
    + by rewrite Pq.
    + intros Hc e' He'. destruct (Pvs e' He') as (e1 & He1 & ->), (Pvq e' He') as (e2 & He2 & ->).
      split; [by apply (Dl Hc)|]. by apply (Dl Hc).
  - rewrite Forall_forall in *. intros v Hv. eapply frame_holds; [done|by apply Hk|]. intros i Hi. apply Hown.
    left. rewrite <- Hi. by apply list_elem_of_fmap_2.
  - eapply frame_holds; [done..|]. intros i Hi. apply Hown. by right.
Qed.

(** ** Changes to files *)

(** Changing one inode, possibly its content. *)
Lemma with_file_frame h own i f f' d :
  dk_files d !! i = Some f -> (own i \/ (i_content f' = i_content f /\ (i_synced f = true -> i_synced f' = true))) ->
  frame h [] own d (with_file i f' d).
Proof.
  intros Hi Ho. constructor; cbn; [lia| | |].
  - intros Hf k Hk. cbn in *. rewrite lookup_insert_ne; [by apply Hf|]. intros <-. specialize (Hf i Hk). congruence.
  - intros k fk Hk Hnk. destruct (decide (i = k)) as [<-|Hne].
    + rewrite lookup_insert_eq. exists f'. replace fk with f by congruence. naive_solver.
    + rewrite lookup_insert_ne by done. by exists fk.
  - intros k n Hk Hv. exists n. naive_solver.
Qed.

Lemma update_inode_frame {A} h own (a : A) i g d r d' :
  update_inode a i g d = (Ok r, d') -> own i \/ (forall f, i_content (g f) = i_content f /\ (i_synced f = true -> i_synced (g f) = true)) ->
  frame h [] own d d' /\ exists f, dk_files d !! i = Some f /\ dk_files d' !! i = Some (g f).
Proof.
  unfold update_inode. destruct (dk_files d !! i) as [f|] eqn:Hi; [|done]. intros [= <- <-] Ho. split.
  - eapply with_file_frame; [done|]. destruct Ho as [Ho|Ho]; [by left|right; apply Ho].
  - exists f. split; [done|]. cbn. by rewrite lookup_insert_eq.
Qed.

Lemma touch_inode_frame h own now i d : frame h [] own d (touch_inode now i d).
Proof.
  unfold touch_inode. destruct (dk_files d !! i) as [f|] eqn:Hi; [|apply frame_refl]. eapply with_file_frame; [done|]. by right.
Qed.
Lemma touch_inode_dirs now i d : dk_dirs (touch_inode now i d) = dk_dirs d.
Proof. unfold touch_inode. by destruct (dk_files d !! i). Qed.

(** A frame without names or inodes keeps every entry. *)
Lemma harmless_entry h d d' t g : frame h [] (fun _ => False) d d' -> entry_ok d t g -> entry_ok d' t g.
Proof. intros F E. eapply frame_entry; [done..| |]; intros; set_solver. Qed.

(** ** Changes to the directory *)

Lemma set_entries_frame names own now h n e d :
  dk_dirs d !! h = Some n -> (forall x, x ∉ names -> e !! x = d_entries n !! x) -> frame h names own d (set_entries now h n e d).
Proof.
  intros Hn He. constructor; cbn; [lia|done| |].
  - intros i f Hi _. by exists f.
  - intros k m Hk Hv. destruct (decide (h = k)) as [<-|Hne].
    + rewrite lookup_insert_eq. eexists. split; [done|]. cbn. split; [apply elem_of_app; right; set_solver|].
      replace m with n in * by congruence. intros x Hx. specialize (Hx eq_refl). split; [by apply He|].
      intros e' [He'|He']%elem_of_app; [by exists e'|]. apply list_elem_of_singleton in He' as ->.
      exists (d_entries n). split; [done|by apply He].
    + rewrite lookup_insert_ne by done. exists m. naive_solver.
Qed.

Lemma set_entries_entry now n e d t g keep place ready :
  dk_dirs d !! t_dir t = Some n -> entry_ok d t g -> (forall v, v ∈ g_keep g -> v ∈ keep) -> Forall (holds d) keep -> holds d ready ->
  e !! t_name t ∈ (inode_of <$> keep) -> e !! t_stage t = at_stage place -> e !! t_quarantine t = at_quarantine place ->
  entry_ok (set_entries now (t_dir t) n e d) t (mk_ghost keep place false ready).
Proof.
  intros Hn [(n0 & Hn0 & [Dc Dt Ds Dq Dl]) _ _] Hsub Hk Hr He Hs Hq. replace n0 with n in * by congruence. clear n0 Hn0.
  constructor; [|done..]. eexists. split; [cbn; apply lookup_insert_eq|]. constructor; cbn; [|..|done].
  - apply elem_of_app. right. set_solver.
  - intros e' [He'|He']%elem_of_app; [|by apply list_elem_of_singleton in He' as ->].
    specialize (Dt e' He'). apply list_elem_of_fmap in Dt as (v & -> & Hv). apply list_elem_of_fmap_2. auto.
  - done.
  - done.
Qed.

(** Synchronizing the directory leaves its present state only. *)
Lemma fsync_dir_frame h k own d u d' : sys_fsync_dir k d = (Ok u, d') -> frame h [] own d d'.
Proof.
  unfold sys_fsync_dir. destruct (dk_dirs d !! k) as [n|] eqn:Hn; [|done]. intros [= _ <-]. constructor; cbn; [lia|done| |].
  - intros i f Hi _. by exists f.
  - intros j m Hj Hv. destruct (decide (k = j)) as [<-|Hne].
    + rewrite lookup_insert_eq. eexists. split; [done|]. cbn. replace m with n in * by congruence. split; [set_solver|].
      intros x _. split; [done|]. intros e' ->%list_elem_of_singleton. by exists (d_entries n).
    + rewrite lookup_insert_ne by done. exists m. naive_solver.
Qed.

(** What the target names now. *)
Lemma current_target d t g n : entry_ok d t g -> dk_dirs d !! t_dir t = Some n -> exists v, v ∈ g_keep g /\ d_entries n !! t_name t = inode_of v.
Proof.
  intros [(n0 & Hn0 & [Dc Dt _ _ _]) _ _] Hn. replace n0 with n in * by congruence.
  specialize (Dt _ Dc). apply list_elem_of_fmap in Dt as (v & E & Hv). eauto.
Qed.

Lemma fsync_dir_entry d t g u d' v n :
  sys_fsync_dir (t_dir t) d = (Ok u, d') -> entry_ok d t g -> dk_dirs d !! t_dir t = Some n -> v ∈ g_keep g ->
  d_entries n !! t_name t = inode_of v ->
  entry_ok d' t (mk_ghost [v] (g_place g) (match g_place g with None => true | Some _ => false end) (g_ready g)).
Proof.
  unfold sys_fsync_dir. intros Hf [(n0 & Hn0 & [Dc Dt Ds Dq Dl]) Hk Hr] Hn Hv Et. rewrite Hn in Hf. injection Hf as _ <-.
  replace n0 with n in * by congruence. constructor; cbn; [|by constructor; [rewrite Forall_forall in Hk; by apply Hk|]|done].
  eexists. split; [by rewrite lookup_insert_eq|]. constructor; cbn; [set_solver| |done..|].
  - intros e ->%list_elem_of_singleton. rewrite Et. set_solver.
  - intros Hp e ->%list_elem_of_singleton. rewrite Ds, Dq. by destruct (g_place g).
Qed.

(** ** The system calls of an edit *)

Definition apart (t : target) : Prop := NoDup (own_names t).

Lemma apart_names t : apart t -> t_name t <> t_stage t /\ t_name t <> t_quarantine t /\ t_stage t <> t_quarantine t.
Proof. unfold apart, own_names. rewrite !NoDup_cons, !not_elem_of_cons. naive_solver. Qed.

Definition replaced (g : ghost) (keep : list (option (Z * bytes))) (place : option (bool * Z)) : ghost := mk_ghost keep place false (g_ready g).

(** A new state of the directory in which only own names differ, and inodes
    that got a new change time. *)
Lemma entries_changed own now n e d d' t g keep place :
  dk_dirs d !! t_dir t = Some n -> entry_ok d t g -> frame (t_dir t) [] (fun _ => False) (set_entries now (t_dir t) n e d) d' ->
  (forall v, v ∈ g_keep g -> v ∈ keep) -> Forall (holds d) keep ->
  e !! t_name t ∈ (inode_of <$> keep) -> e !! t_stage t = at_stage place -> e !! t_quarantine t = at_quarantine place ->
  (forall x, x ∉ own_names t -> e !! x = d_entries n !! x) ->
  entry_ok d' t (replaced g keep place) /\ frame (t_dir t) (own_names t) own d d'.
Proof.
  intros Hn E F Hsub Hk He Hs Hq Hx. split.
  - eapply harmless_entry; [done|]. apply (set_entries_entry _ _ _ _ _ g); try done. apply E.
  - eapply frame_trans; [by apply set_entries_frame|]. eapply frame_weaken; [done|set_solver|done].
Qed.

Lemma create_entry uid gid now d i d' t g own :
  sys_create uid gid (t_dir t) (t_stage t) now d = (Ok i, d') -> entry_ok d t g -> g_place g = None -> fresh_above d -> apart t ->
  i = dk_next d /\ dk_next d' = i + 1 /\ entry_ok d' t (replaced g (g_keep g) (Some (false, i))) /\ frame (t_dir t) (own_names t) own d d'.
Proof.
  intros Hc E Hp Hf (A1 & A2 & A3)%apart_names. unfold sys_create in Hc.
  destruct (dk_dirs d !! t_dir t) as [n|] eqn:Hn; [|done]. destruct (d_entries n !! t_stage t) eqn:Es; [done|].
  injection Hc as <- <-. split; [done|]. split; [done|].
  set (d1 := mk_disk (dk_device d) (dk_root d) (dk_next d + 1) (<[dk_next d := _]> (dk_files d)) (dk_dirs d)).
  assert (F1 : frame (t_dir t) [] (fun _ => False) d d1).
  { constructor; cbn; [lia| | |].
    - intros _ k Hk. cbn in *. rewrite lookup_insert_ne by lia. apply Hf. lia.
    - intros k fk Hk _. exists fk. rewrite lookup_insert_ne; [done|]. intros <-. specialize (Hf (dk_next d)). rewrite Hf in Hk by lia. done.
    - intros k m Hk Hv. exists m. naive_solver. }
  pose proof (harmless_entry _ _ _ _ _ F1 E) as E1.
  destruct (eo_dir _ _ _ E) as (n' & Hn' & D). replace n' with n in * by congruence.
  destruct (entries_changed own now n (<[t_stage t := dk_next d]> (d_entries n)) d1
              (set_entries now (t_dir t) n (<[t_stage t := dk_next d]> (d_entries n)) d1) t g (g_keep g) (Some (false, dk_next d))) as [E2 F2];
    try done.
  - apply frame_refl.
  - apply E1.
  - rewrite lookup_insert_ne by done. apply (do_target _ _ _ D), (do_current _ _ _ D).
  - by rewrite lookup_insert_eq.
  - rewrite lookup_insert_ne by done. rewrite (do_quarantine _ _ _ D), Hp. done.
  - intros x Hx. rewrite lookup_insert_ne; [done|]. intros <-. set_solver.
  - split; [done|]. eapply frame_trans; [|done]. eapply frame_weaken; [done|set_solver|done].
Qed.

Lemma and_three (P Q R : Prop) : P /\ Q -> R -> P /\ Q /\ R.
Proof. tauto. Qed.

Lemma holds_incl d keep v : Forall (holds d) keep -> holds d v -> Forall (holds d) (keep ++ [v]).
Proof. intros Hk Hv. apply Forall_app. split; [done|by constructor]. Qed.

(** The complete candidate takes the place of the target, which goes to the
    staging name. *)
Lemma exchange_entry now d u d' t g c own :
  sys_exchange (t_dir t) (t_stage t) (t_name t) now d = (Ok u, d') -> entry_ok d t g -> apart t ->
  g_place g = Some (false, c) -> inode_of (g_ready g) = Some c ->
  exists o, Some o ∈ (inode_of <$> g_keep g)
    /\ entry_ok d' t (replaced g (g_keep g ++ [g_ready g]) (Some (false, o))) /\ frame (t_dir t) (own_names t) own d d'
    /\ (exists n', dk_dirs d' !! t_dir t = Some n' /\ d_entries n' !! t_name t = Some c).
Proof.
  intros Hx E (A1 & A2 & A3)%apart_names Hp Hr. unfold sys_exchange in Hx.
  destruct (dk_dirs d !! t_dir t) as [n|] eqn:Hn; [|done].
  destruct (eo_dir _ _ _ E) as (n' & Hn' & D). replace n' with n in * by congruence. clear n' Hn'.
  rewrite (do_stage _ _ _ D), Hp in Hx. cbn in Hx. destruct (d_entries n !! t_name t) as [o|] eqn:Eo; [|done].
  injection Hx as _ <-. exists o. split.
  { destruct (current_target _ _ _ _ E Hn) as (v & Hv & Ev). rewrite <- Eo, Ev. by apply list_elem_of_fmap_2. }
  apply and_three.
  - eapply entries_changed; [done|done|eapply frame_trans; apply touch_inode_frame|..].
    + set_solver.
    + apply holds_incl; apply E.
    + rewrite lookup_insert_ne, lookup_insert_eq by done. rewrite fmap_app. cbn. rewrite Hr. set_solver.
    + by rewrite lookup_insert_eq.
    + rewrite !lookup_insert_ne by done. by rewrite (do_quarantine _ _ _ D), Hp.
    + intros x Hxn. rewrite !lookup_insert_ne; [done|..]; intros <-; set_solver.
  - rewrite !touch_inode_dirs. cbn. rewrite lookup_insert_eq. eexists. split; [done|]. cbn. by rewrite lookup_insert_ne, lookup_insert_eq.
Qed.

(** The displaced original goes back while the candidate is at the target. *)
Lemma exchange_back_entry now d u d' t g o c own :
  sys_exchange (t_dir t) (t_stage t) (t_name t) now d = (Ok u, d') -> entry_ok d t g -> apart t ->
  g_place g = Some (false, o) -> Some o ∈ (inode_of <$> g_keep g) ->
  (exists n, dk_dirs d !! t_dir t = Some n /\ d_entries n !! t_name t = Some c) ->
  entry_ok d' t (replaced g (g_keep g) (Some (false, c))) /\ frame (t_dir t) (own_names t) own d d'
  /\ (exists n', dk_dirs d' !! t_dir t = Some n' /\ d_entries n' !! t_name t = Some o).
Proof.
  intros Hx E (A1 & A2 & A3)%apart_names Hp Ho (n & Hn & Hc). unfold sys_exchange in Hx. rewrite Hn in Hx.
  destruct (eo_dir _ _ _ E) as (n' & Hn' & D). replace n' with n in * by congruence. clear n' Hn'.
  rewrite (do_stage _ _ _ D), Hp, Hc in Hx. cbn in Hx. injection Hx as _ <-. apply and_three.
  - eapply entries_changed; [done|done|eapply frame_trans; apply touch_inode_frame|..].
    + done.
    + apply E.
    + by rewrite lookup_insert_ne, lookup_insert_eq by done.
    + by rewrite lookup_insert_eq.
    + rewrite !lookup_insert_ne by done. by rewrite (do_quarantine _ _ _ D), Hp.
    + intros x Hxn. rewrite !lookup_insert_ne; [done|..]; intros <-; set_solver.
  - rewrite !touch_inode_dirs. cbn. rewrite lookup_insert_eq. eexists. split; [done|]. cbn. by rewrite lookup_insert_ne, lookup_insert_eq.
Qed.

(** A new file appears: the candidate takes a free target name. *)
Lemma activate_entry now d u d' t g c own :
  sys_move (t_dir t) (t_stage t) (t_name t) now d = (Ok u, d') -> entry_ok d t g -> apart t ->
  g_place g = Some (false, c) -> inode_of (g_ready g) = Some c ->
  entry_ok d' t (replaced g (g_keep g ++ [g_ready g]) None) /\ frame (t_dir t) (own_names t) own d d'
  /\ (exists n', dk_dirs d' !! t_dir t = Some n' /\ d_entries n' !! t_name t = Some c).
Proof.
  intros Hx E (A1 & A2 & A3)%apart_names Hp Hr. unfold sys_move in Hx.
  destruct (dk_dirs d !! t_dir t) as [n|] eqn:Hn; [|done].
  destruct (eo_dir _ _ _ E) as (n' & Hn' & D). replace n' with n in * by congruence. clear n' Hn'.
  rewrite (do_stage _ _ _ D), Hp in Hx. cbn in Hx. destruct (d_entries n !! t_name t) as [o|] eqn:Eo; [done|].
  injection Hx as _ <-. apply and_three.
  - eapply entries_changed; [done|done|apply touch_inode_frame|..].
    + set_solver.
    + apply holds_incl; apply E.
    + rewrite lookup_insert_eq. rewrite fmap_app. cbn. rewrite Hr. set_solver.
    + by rewrite lookup_insert_ne, lookup_delete_eq.
    + rewrite lookup_insert_ne, lookup_delete_ne by done. by rewrite (do_quarantine _ _ _ D), Hp.
    + intros x Hxn. rewrite lookup_insert_ne, lookup_delete_ne; [done|..]; intros <-; set_solver.
  - rewrite touch_inode_dirs. cbn. rewrite lookup_insert_eq. eexists. split; [done|]. cbn. by rewrite lookup_insert_eq.
Qed.

(** Between the staging name and the quarantine name. *)
Definition place_name (t : target) (quarantined : bool) : bytes := if quarantined then t_quarantine t else t_stage t.
Lemma quarantine_entry now d u d' t g b i own :
  sys_move (t_dir t) (place_name t b) (place_name t (negb b)) now d = (Ok u, d') -> entry_ok d t g -> apart t ->
  g_place g = Some (b, i) ->
  entry_ok d' t (replaced g (g_keep g) (Some (negb b, i))) /\ frame (t_dir t) (own_names t) own d d'.
Proof.
  intros Hx E (A1 & A2 & A3)%apart_names Hp. unfold sys_move in Hx.
  destruct (dk_dirs d !! t_dir t) as [n|] eqn:Hn; [|done].
  destruct (eo_dir _ _ _ E) as (n' & Hn' & D). replace n' with n in * by congruence. clear n' Hn'.
  assert (Hb : d_entries n !! place_name t b = Some i).
  { destruct b; cbn; [rewrite (do_quarantine _ _ _ D)|rewrite (do_stage _ _ _ D)]; by rewrite Hp. }
  rewrite Hb in Hx. destruct (d_entries n !! place_name t (negb b)); [done|]. injection Hx as _ <-.
  assert (Hne : place_name t b <> t_name t /\ place_name t (negb b) <> t_name t) by (destruct b; cbn; auto).
  eapply entries_changed; [done|done|apply touch_inode_frame|..].
  - done.
  - apply E.
  - rewrite lookup_insert_ne, lookup_delete_ne by naive_solver. apply (do_target _ _ _ D), (do_current _ _ _ D).
  - destruct b; cbn; [by rewrite lookup_insert_eq|]. by rewrite lookup_insert_ne, lookup_delete_eq.
  - destruct b; cbn; [|by rewrite lookup_insert_eq]. by rewrite lookup_insert_ne, lookup_delete_eq.
  - intros x Hxn. rewrite lookup_insert_ne, lookup_delete_ne; [done|..]; intros <-; destruct b; set_solver.
Qed.

Lemma unlink_entry now d u d' t g i own :
  sys_unlink (t_dir t) (t_quarantine t) now d = (Ok u, d') -> entry_ok d t g -> apart t -> g_place g = Some (true, i) ->
  entry_ok d' t (replaced g (g_keep g) None) /\ frame (t_dir t) (own_names t) own d d'.
Proof.
  intros Hx E (A1 & A2 & A3)%apart_names Hp. unfold sys_unlink in Hx.
  destruct (dk_dirs d !! t_dir t) as [n|] eqn:Hn; [|done].
  destruct (eo_dir _ _ _ E) as (n' & Hn' & D). replace n' with n in * by congruence. clear n' Hn'.
  rewrite (do_quarantine _ _ _ D), Hp in Hx. cbn in Hx. destruct (dk_files d !! i) as [f|] eqn:Ef; [|done]. injection Hx as _ <-.
  eapply entries_changed; [done|done|eapply with_file_frame; [done|by right]|..].
  - done.
  - apply E.
  - rewrite lookup_delete_ne by done. apply (do_target _ _ _ D), (do_current _ _ _ D).
  - rewrite lookup_delete_ne by done. by rewrite (do_stage _ _ _ D), Hp.
  - by rewrite lookup_delete_eq.
  - intros x Hxn. rewrite lookup_delete_ne; [done|]. intros <-. set_solver.
Qed.

(** Free inode numbers, by looking at the files there are. *)
Lemma fresh_above_check d : forallb (fun p => p.1 <? dk_next d) (map_to_list (dk_files d)) = true -> fresh_above d.
Proof.
  intros Hc i Hi. destruct (dk_files d !! i) as [f|] eqn:E; [|done]. apply elem_of_map_to_list in E.
  rewrite forallb_forall in Hc. apply list_elem_of_In in E. specialize (Hc _ E). cbn in Hc. apply Z.ltb_lt in Hc. lia.
Qed.

(** A power loss that takes one directory back to an earlier state. *)
Definition revert (h : Z) (n : directory) (e : gmap bytes Z) (d : disk) : disk :=
  with_dir h (mk_directory (d_mode n) (d_uid n) (d_gid n) (d_nlink n) (d_size n) (d_mtime n) (d_ctime n) e [e]) d.
Lemma revert_power_loss h n e d :
  dk_dirs d !! h = Some n -> e ∈ d_versions n -> forallb (fun p => bool_decide (d_entries p.2 ∈ d_versions p.2)) (map_to_list (dk_dirs d)) = true ->
  power_loss d (revert h n e d).
Proof.
  intros Hn He Hc. rewrite forallb_forall in Hc. split_and!; [done..| |].
  - intros k m Hm. cbn. destruct (decide (h = k)) as [<-|Hne].
    + replace m with n by congruence. rewrite lookup_insert_eq. by eexists.
    + rewrite lookup_insert_ne by done. exists m. split; [done|]. apply elem_of_map_to_list, list_elem_of_In in Hm.
      by apply Hc, bool_decide_eq_true in Hm.
  - intros i f Hf. by exists f.
Qed.

(** What the journal methods do to the stored journal when database calls may
    fail: creating it, keeping it, clearing it. *)

#[local] Existing Instance ws_db_error.

(** ** Properties that transactions keep *)

Section Keeps.
Context {D : Type} (P : D -> Prop).

Definition tx_keeps (t t' : txn D) : Prop := P (tx_durable t) /\ P (tx_working t) -> P (tx_durable t') /\ P (tx_working t').
#[export] Instance tx_keeps_preorder : PreOrder tx_keeps.
Proof. split; unfold tx_keeps; [intros x; tauto|intros x y z; tauto]. Qed.

Lemma statement_keeps {E A} `{!DbError E} what (f : D -> option (A * D)) :
  (forall d a d', f d = Some (a, d') -> P d -> P d') -> preserves (E := E) tx_keeps (statement what f).
Proof.
  intros Hf t [H1 H2]. unfold statement. destruct (next_fault _) as [[] fl]; [done|].
  destruct (f (tx_working t)) as [[a d']|] eqn:Ef; [|done]. cbn. split; [done|]. by eapply Hf.
Qed.
Lemma query_keeps {E A} `{!DbError E} what (f : D -> A) : preserves (E := E) tx_keeps (query what f).
Proof. apply statement_keeps. by intros d a d' [= _ <-]. Qed.
Lemma commit_keeps {E} `{!DbError E} what : preserves (E := E) tx_keeps (commit what).
Proof. intros t [H1 H2]. unfold commit. by destruct (next_fault _) as [[] fl]. Qed.
Lemma transaction_keeps {E A} `{!DbError E} what (body : M (txn D) E A) w :
  preserves tx_keeps body -> P (w_db w) -> P (w_db (transaction what body w).2).
Proof.
  intros Hb Hp. unfold transaction. destruct (next_fault _) as [[] fl]; [done|].
  specialize (Hb (mk_txn (w_db w) (w_db w) fl) (conj Hp Hp)). destruct (body _) as [r t]. apply Hb.
Qed.
End Keeps.
(** The working copy after statements that succeeded. *)
Lemma working_for_each {D E A} `{!DbError E} (P : D -> Prop) what (f : A -> D -> option (unit * D)) l t u t' :
  for_each_m (E := E) (fun a => statement what (f a)) l t = (Ok u, t') -> P (tx_working t) ->
  (forall a d v d', f a d = Some (v, d') -> P d -> P d') -> P (tx_working t').
Proof.
  revert t. induction l as [|a l IH]; intros t E' Hp Hf; cbn in E'; [by injection E' as _ <-|].
  apply M_bind_Ok in E' as ([] & t1 & E1 & E2). apply statement_Ok in E1 as [E1 _]. by eapply IH; [|eapply Hf|].
Qed.
#[export] Hint Resolve query_keeps commit_keeps : keeps.
Ltac tx_keeping := repeat first
  [ progress intros | apply preserves_bind; [apply tx_keeps_preorder| |] | apply preserves_lift; apply tx_keeps_preorder
  | apply preserves_ret; apply tx_keeps_preorder | apply preserves_fail; apply tx_keeps_preorder
  | apply preserves_for_each; [apply tx_keeps_preorder|]
  | apply preserves_attempt | apply query_keeps | apply commit_keeps | case_match ].

(** ** The journal *)

Section Journal.
Context {Selection : Type} (euid : Z).
Abbreviation Db := (Db Selection).

(** A journal is stored. *)
Definition pending (d : Db) : Prop := is_Some (edit_journal d).
Definition keeps_pending {A} (m : M (world Db) WsError A) : Prop := forall w, pending (w_db w) -> pending (w_db (m w).2).

Lemma keeps_pending_bind {A B} (m : M (world Db) WsError A) (f : A -> M (world Db) WsError B) :
  keeps_pending m -> (forall a, keeps_pending (f a)) -> keeps_pending (m ≫= f).
Proof.
  intros Hm Hf w Hp. specialize (Hm w Hp). unfold mbind, M_bind. destruct (m w) as [[a|e] w']; [by apply Hf|done].
Qed.
Lemma keeps_pending_lift {A} (r : result WsError A) : keeps_pending (lift r).
Proof. by intros w. Qed.

(** Loading changes nothing. *)
Lemma Load_same w d : w_db w = d -> w_db (Load (Selection := Selection) euid w).2 = d.
Proof.
  intros Hw. pattern (w_db (Load (Selection := Selection) euid w).2). unfold Load.
  apply (transaction_keeps (fun d' => d' = d)); [|done]. tx_keeping.
Qed.
Lemma Load_keeps : keeps_pending (Load euid).
Proof. intros w Hp. by rewrite (Load_same w (w_db w)). Qed.

Lemma exec_keeps what (f : Db -> option (Z * Db)) : (forall d a d', f d = Some (a, d') -> pending d -> pending d') -> keeps_pending (exec what f).
Proof. intros Hf w Hp. unfold exec. apply transaction_keeps; [|done]. tx_keeping. by apply statement_keeps. Qed.

Lemma update_files_pending id where_ set_ (d d' : Db) a : update_journal_files id where_ set_ d = Some (a, d') -> pending d -> pending d'.
Proof. unfold update_journal_files, update_files. destruct (forallb _ _); [|done]. by intros [= _ <-]. Qed.

Lemma MarkCandidate_keeps id ordinal i : keeps_pending (MarkCandidate euid id ordinal i).
Proof.
  apply keeps_pending_bind; [apply keeps_pending_lift|]. intros _. apply keeps_pending_bind; [|intros; apply keeps_pending_lift].
  apply exec_keeps. intros d a d'. apply update_files_pending.
Qed.
Lemma recordPlacement_keeps id ordinal c o applied : keeps_pending (recordPlacement euid id ordinal c o applied).
Proof.
  do 2 (apply keeps_pending_bind; [apply keeps_pending_lift|]; intros _).
  apply keeps_pending_bind; [|intros; apply keeps_pending_lift]. apply exec_keeps. intros d a d'. apply update_files_pending.
Qed.
Lemma SetPhase_keeps id phase : keeps_pending (SetPhase euid id phase).
Proof.
  apply keeps_pending_bind; [apply keeps_pending_lift|]. intros _. apply keeps_pending_bind; [apply Load_keeps|]. intros j.
  apply keeps_pending_bind; [apply keeps_pending_lift|]. intros _. apply keeps_pending_bind; [|intros; apply keeps_pending_lift].
  apply exec_keeps. intros d a d'. unfold update_header. destruct (edit_journal d) eqn:Ej; [|intros [= _ <-] Hp; done].
  destruct (bool_decide _); [|by intros [= _ <-]]. destruct (header_check _); [|done]. intros [= _ <-] _. by eexists.
Qed.

(** A cleared journal is gone; otherwise nothing happened. *)
Lemma exec_outcome what (f : Db -> option (Z * Db)) (w : world Db) :
  match exec what f w with
  | (Ok a, w') => f (w_db w) = Some (a, w_db w')
  | (Err _, w') => w_db w' = w_db w
  end.
Proof.
  unfold exec, transaction. destruct (next_fault _) as [[] fl]; [done|]. unfold mbind, M_bind, statement. cbn.
  destruct (next_fault fl) as [[] fl2]; [done|]. destruct (f (w_db w)) as [[a d']|]; [|done].
  unfold commit. cbn. by destruct (next_fault fl2) as [[] fl3].
Qed.

Lemma Clear_outcome id (w : world Db) :
  match Clear id w with
  | (Ok _, w') => edit_journal (w_db w') = None
  | (Err _, w') => w_db w' = w_db w
  end.
Proof.
  unfold Clear, mbind, M_bind, lift. destruct (reject_if _ _); [|done].
  pose proof (exec_outcome "clear native edit journal" (delete_journal id) w) as He. destruct (exec _ _ w) as [[n|] w']; [|done].
  unfold delete_journal in He. destruct (journal_is id (w_db w)).
  - injection He as <- <-. done.
  - injection He as <- <-. done.
Qed.

(** Every statement of a creation succeeds, or nothing happened. *)
Lemma insert_file_pending f (d d' : Db) u : insert_file f d = Some (u, d') -> pending d -> pending d'.
Proof.
  unfold insert_file, pending. destruct (edit_journal d); [|done]. destruct (_ && _); [|done]. intros [= _ <-] _. by eexists.
Qed.
Lemma Create_outcome j (w : world Db) :
  match Create euid j w with
  | (Ok _, w') => pending (w_db w')
  | (Err _, w') => w_db w' = w_db w
  end.
Proof.
  unfold Create. unfold mbind at 1, M_bind at 1, lift. destruct (reject_if _ _); [|done].
  destruct (transaction _ _ w) as [[u|e] w'] eqn:Et.
  - apply transaction_Ok in Et as (t & t' & _ & _ & Eb & ->). apply M_bind_Ok in Eb as ([] & t1 & E1 & Eb).
    apply M_bind_Ok in Eb as ([] & t2 & E2 & Eb). apply commit_Ok in Eb as [_ ->].
    apply statement_Ok in E1 as [E1 _]. unfold insert_header in E1.
    destruct (edit_journal (tx_working t)); [done|]. destruct (header_check _); [|done]. injection E1 as E1.
    assert (P1 : pending (tx_working t1)) by (rewrite <- E1; by eexists).
    eapply working_for_each in E2; [done|done|]. intros f d v d'. apply insert_file_pending.
  - eapply transaction_atomic in Et; [by symmetry|]. apply on_error_bind; [apply _|apply statement_quiet|]. intros _.
    apply on_error_bind; [apply _|apply preserves_for_each; [apply _|]; intros; apply statement_quiet|]. intros _. apply commit_quiet_on_error.
Qed.
End Journal.

(** ** Finalizing *)

Lemma save_quiet s : preserves same_durable (saveSelectionInTransaction s).
Proof.
  unfold saveSelectionInTransaction, save_path.
  repeat first [apply statement_quiet | apply preserves_bind; [apply _| |intros] | apply preserves_for_each; [apply _|intros []]].
Qed.

(** Either the new selection is stored and the journal is gone, or nothing
    happened. *)
Lemma FinalizeEdit_outcome `{Machine} s id w :
  match FinalizeEdit s id w with
  | (Ok _, w') => edit_journal (w_db w') = None
  | (Err _, w') => w_db w' = w_db w
  end.
Proof.
  unfold FinalizeEdit. unfold mbind at 1, M_bind at 1, lift at 1. destruct (reject_if _ _) as [[]|]; [|done].
  unfold mbind at 1, M_bind at 1, lift at 1. destruct (reject_if _ _) as [[]|]; [|done].
  destruct (transaction _ _ w) as [[u|e] w'] eqn:Et.
  - apply transaction_Ok in Et as (t & t' & _ & _ & Eb & ->). do 3 apply M_bind_Ok in Eb as (? & ? & _ & Eb).
    apply M_bind_Ok in Eb as (n & t4 & E4 & Eb). apply M_bind_Ok in Eb as (? & t5 & E5 & Eb). apply commit_Ok in Eb as [_ ->].
    apply statement_Ok in E4 as [E4 _]. unfold lift in E5. injection E5 as E5 <-. apply reject_if_Ok in E5.
    unfold delete_journal in E4. destruct (journal_is id _); [by injection E4 as _ <-|by injection E4 as <- _].
  - eapply transaction_atomic in Et; [by symmetry|]. repeat (apply on_error_bind; [apply _| |intros]); [..|apply commit_quiet_on_error].
    all: try (apply query_quiet || apply statement_quiet || (apply preserves_lift; apply _)).
    apply save_quiet.
Qed.
