(* ===== verification/WsSafety.v ===== *)
(** What one entry of an edit can do to the disk, wherever its calls fail or
    the process is stopped: the weakest preconditions of staging, removing and
    activating, for the ghost state of the file they work on. *)
From stdpp Require Import gmap.
From S2P Require Import Prelude.
From S2P Require Import Effects.
From S2P Require Import WsTypes.
From S2P Require Import WsJournal.
From S2P Require Import WsDisk.
From S2P Require Import WsAudit.
From S2P Require Import WsRun.
From S2P Require Import WsFacts.
From S2P Require Import WsEdit.

#[local] Open Scope Z_scope.

(** Failing calls leave the disk as it was. *)
Definition fails_alone {A} (run : Z -> disk -> result WsError A * disk) : Prop :=
  forall now d e d', run now d = (Err e, d') -> d' = d.
Ltac alone := intros now d e d'; repeat case_match; unfold errno; congruence.
Lemma create_alone uid gid h name : fails_alone (sys_create uid gid h name).
Proof. unfold sys_create. alone. Qed.
Lemma exchange_alone h a b : fails_alone (sys_exchange h a b).
Proof. unfold sys_exchange. alone. Qed.
Lemma move_alone h a b : fails_alone (sys_move h a b).
Proof. unfold sys_move. alone. Qed.
Lemma unlink_alone h a : fails_alone (sys_unlink h a).
Proof. unfold sys_unlink. alone. Qed.
Lemma fsync_dir_alone h : fails_alone (fun _ => sys_fsync_dir h).
Proof. unfold sys_fsync_dir. alone. Qed.
Lemma update_inode_err {A} (a : A) i g d e d' : update_inode a i g d = (Err e, d') -> d' = d.
Proof. unfold update_inode. destruct (dk_files d !! i); unfold errno; congruence. Qed.
Lemma update_alone {A} (a : A) i g : fails_alone (fun now => update_inode a i (g now)).
Proof. unfold update_inode. alone. Qed.

(** Calls that look. *)
Lemma fstatat_looks h name d : (sys_fstatat h name d).2 = d.
Proof. unfold sys_fstatat. by repeat case_match. Qed.
Lemma open_looks h name d : (sys_open h name d).2 = d.
Proof. unfold sys_open. repeat case_match; done. Qed.
Lemma read_looks i limit d : (sys_read i limit d).2 = d.
Proof. unfold sys_read. by destruct (dk_files d !! i). Qed.
Lemma open_entry h name d i : (sys_open h name d).1 = Ok i -> entry_of d h name = Some i.
Proof. unfold sys_open. repeat case_match; cbn; congruence. Qed.

Section Looking.
Context {Selection : Type} `{Machine}.
Abbreviation X := (X (Selection := Selection)).
Lemma looking_fstatat h name : looking (look (sys_fstatat h name) : X _).
Proof. apply looking_look, fstatat_looks. Qed.
Lemma looking_fstat i : looking (look (sys_fstat i) : X _).
Proof. apply looking_look, fstat_looks. Qed.
Lemma looking_open h name : looking (look (sys_open h name) : X _).
Proof. apply looking_look, open_looks. Qed.
Lemma looking_read i limit : looking (look (sys_read i limit) : X _).
Proof. apply looking_look, read_looks. Qed.
Lemma looking_open_path h name : looking (look (sys_open_path h name) : X _).
Proof. apply looking_look, open_path_looks. Qed.
Hint Resolve looking_fstatat looking_fstat looking_open looking_read looking_open_path : look.

Lemma looking_missingAt h name : looking (missingAt h name : X _).
Proof. unfold missingAt. looks. Qed.
Lemma looking_identityAt h name : looking (identityAt h name : X _).
Proof. unfold identityAt. looks. Qed.
Lemma looking_openFingerprintAt h name limit : looking (openFingerprintAt h name limit : X _).
Proof. unfold openFingerprintAt, ctx_err. looks. Qed.
Lemma looking_fingerprintAt h name limit : looking (fingerprintAt h name limit : X _).
Proof. unfold fingerprintAt. looks; apply looking_openFingerprintAt. Qed.
Lemma looking_owned h stage : looking (ownedStageBasename h stage : X _).
Proof. unfold ownedStageBasename. looks; apply looking_missingAt. Qed.
End Looking.
#[export] Hint Resolve looking_fstatat looking_fstat looking_open looking_read looking_open_path looking_missingAt looking_identityAt
  looking_openFingerprintAt looking_fingerprintAt looking_owned : look.

Lemma cleanup_is_cleanup stage : is_cleanup_name (cleanupBasename stage) = true.
Proof. unfold is_cleanup_name, cleanupBasename. apply bool_decide_eq_true. by exists stage. Qed.

Section Entry.
Context {Selection : Type} `{Machine} (alone : quiet).
Context (d0 : disk) (own : Z -> Prop) (own_new : forall i, dk_next d0 <= i -> own i).
Context (t : target) (names : apart t) (not_cleanup : is_cleanup_name (t_stage t) = false).
Abbreviation X := (X (Selection := Selection)).
Abbreviation sys := (sys (Selection := Selection)).

(** The entry is in state [g], only its own names and inodes changed since
    [d0], and the journal is stored. *)
Record located (g : ghost) (d : disk) (w : Db Selection) : Prop := mk_located {
  at_entry : entry_ok d t g;
  at_frame : frame (t_dir t) (own_names t) own d0 d;
  at_fresh : fresh_above d;
  at_own : forall i, inodes g i -> own i /\ i < dk_next d;
  at_pending : pending w;
}.
Definition At (g : ghost) (s : sys) : Prop := located g (s_disk s) (tables s).
Definition stopped_in (K : list (option (Z * bytes)) -> Prop) (d : disk) (w : Db Selection) : Prop :=
  exists g, K (g_keep g) /\ located g d w.

Lemma located_journalled g : Journalled (located g).
Proof. intros d ? <- w w' [Hj _] [E F Hf Ho Hp]. constructor; [done..|]. unfold pending in *. by rewrite Hj. Qed.
Lemma stopped_in_journalled K : Journalled (stopped_in K).
Proof. intros d ? <- w w' Hj (g & Hk & HL). exists g. split; [done|]. by eapply located_journalled. Qed.
#[local] Hint Resolve stopped_in_journalled : core.

Lemma at_stopped (K : list (option (Z * bytes)) -> Prop) g s : K (g_keep g) -> At g s -> stopped_in K (s_disk s) (tables s).
Proof. intros HK HA. by exists g. Qed.

(** A step to another state of the entry. *)
Lemma at_step g g' d d' w :
  located g d w -> entry_ok d' t g' -> frame (t_dir t) (own_names t) own d d' ->
  (forall i, inodes g' i -> inodes g i \/ (own i /\ i < dk_next d')) -> located g' d' w.
Proof.
  intros [E F Hf Ho Hp] E' F' Hi. constructor; [done|by eapply frame_trans|by eapply fr_fresh| |done].
  intros i Hin. destruct (Hi i Hin) as [Hg|Hg]; [|done]. destruct (Ho i Hg) as [H1 H2]. split; [done|].
  pose proof (fr_next _ _ _ _ _ F'). lia.
Qed.

Lemma drop_ready g d w : located g d w -> located (mk_ghost (g_keep g) (g_place g) (g_clean g) None) d w.
Proof.
  intros [E F Hf Ho Hp]. constructor; [|done..| |done].
  - destruct E as [(n & Hn & D) Hk Hr]. constructor; [|done..]. exists n. split; [done|]. destruct D. by constructor.
  - intros i Hi. apply Ho. unfold inodes in *. cbn in Hi. naive_solver.
Qed.

Section Steps.
Context (K : list (option (Z * bytes)) -> Prop).

Lemma wp_look_at {A} (run : disk -> result WsError A * disk) g Q s :
  At g s -> K (g_keep g) -> (forall d, (run d).2 = d) ->
  (forall r s', At g s' -> s_disk s' = s_disk s -> (forall a, r = Ok a -> (run (s_disk s)).1 = Ok a) -> Q r s') ->
  wp (look run) Q (stopped_in K) s.
Proof.
  intros HA HK Hr HQ. apply wp_call. intros d now k n Ed. rewrite alone in Ed. subst d.
  split; [by exists g|]. split.
  - by apply HQ.
  - unfold look, syscall. apply HQ; cbn; [|by rewrite Hr|by intros a ->].
    unfold At. cbn. by rewrite Hr.
Qed.

Lemma wp_checkpoint_at g Q s :
  At g s -> K (g_keep g) -> (forall r s', At g s' -> s_disk s' = s_disk s -> Q r s') -> wp checkpoint Q (stopped_in K) s.
Proof. intros HA HK HQ. apply (wp_look_at _ g); [done..|]. intros r s' HA' Hd _. by apply HQ. Qed.

Lemma wp_sys_at {A} (run : Z -> disk -> result WsError A * disk) g Q s :
  At g s -> K (g_keep g) -> fails_alone run -> (forall e s', At g s' -> s_disk s' = s_disk s -> Q (Err e) s') ->
  (forall now a d', run now (s_disk s) = (Ok a, d') -> forall s', s_disk s' = d' -> tables s' = tables s -> Q (Ok a) s') ->
  wp (syscall run) Q (stopped_in K) s.
Proof.
  intros HA HK Hf He Ho. apply wp_call. intros d now k n Ed. rewrite alone in Ed. subst d.
  split; [by exists g|]. split; [by apply He|]. destruct (run now (s_disk s)) as [[a|e] d'] eqn:Er; cbn.
  - by eapply Ho.
  - specialize (Hf _ _ _ _ Er) as ->. by apply He.
Qed.

Lemma wp_database_at {A} (m : M (world (Db Selection)) WsError A) g Q s :
  At g s -> K (g_keep g) -> keeps_pending m -> (forall r s', At g s' -> s_disk s' = s_disk s -> Q r s') -> wp (database m) Q (stopped_in K) s.
Proof.
  intros HA HK Hm HQ. apply wp_database; [by exists g|]. intros n. apply HQ; [|done].
  destruct HA as [E F Hf Ho Hp]. constructor; [done..|]. by apply Hm.
Qed.

(** Work on an inode the entry does not depend on. *)
Lemma wp_inode_at {A} (a : A) i (f : Z -> inode -> inode) g Q s :
  At g s -> K (g_keep g) -> own i -> ~ kept g i ->
  (forall r s', At g s' -> (is_ok r = true -> exists now fi, dk_files (s_disk s) !! i = Some fi /\ dk_files (s_disk s') !! i = Some (f now fi)) -> Q r s') ->
  wp (syscall (fun now => update_inode a i (f now))) Q (stopped_in K) s.
Proof.
  intros HA HK Hi Hk HQ. apply (wp_sys_at _ g); [done..|apply update_alone| |].
  - intros e s' HA' _. by apply HQ.
  - intros now b d' Hu s' Hd Ht. destruct (update_inode_frame (t_dir t) (fun k => k = i) _ _ _ _ _ _ Hu) as [F (fi & H1 & H2)]; [by left|].
    apply HQ; [|by rewrite Hd; eauto]. unfold At. rewrite Hd, Ht. eapply at_step; [done| |by eapply frame_weaken; [done|set_solver|intros k ->]|by left].
    eapply frame_entry; [done|apply HA|set_solver|]. by intros k Hk' ->.
Qed.

(** Synchronizing the directory, with [v] at the target. *)
Definition synced_ghost (g : ghost) (v : option (Z * bytes)) : ghost :=
  mk_ghost [v] (g_place g) (match g_place g with None => true | Some _ => false end) (g_ready g).
Definition target_is (d : disk) (v : option (Z * bytes)) : Prop :=
  exists n, dk_dirs d !! t_dir t = Some n /\ d_entries n !! t_name t = inode_of v.

Lemma wp_sync_at g v Q s :
  At g s -> K (g_keep g) -> v ∈ g_keep g -> target_is (s_disk s) v -> (forall e s', At g s' -> Q (Err e) s') ->
  (forall s', At (synced_ghost g v) s' -> Q (Ok tt) s') -> wp (syncDirectory (t_dir t)) Q (stopped_in K) s.
Proof.
  intros HA HK Hv (n & Hn & Hv') He Ho. apply (wp_sys_at _ g); [done..|apply fsync_dir_alone|by intros; apply He|].
  intros now [] d' Hs s' Hd Ht. apply Ho. unfold At. rewrite Hd, Ht.
  eapply at_step; [done|by eapply fsync_dir_entry; [done|apply HA|..]| |].
  - eapply frame_weaken; [by eapply (fsync_dir_frame _ _ (fun _ => False))|set_solver|done].
  - intros i [[b Hb]|[Hk|Hk]]; cbn in *; left; unfold inodes; [naive_solver| |naive_solver].
    right; left. apply list_elem_of_singleton in Hk as ->. by apply list_elem_of_fmap_2.
Qed.

Lemma target_single g v d w : located g d w -> g_keep g = [v] -> target_is d v.
Proof.
  intros [E _ _ _ _] Hk. destruct (eo_dir _ _ _ E) as (n & Hn & _). destruct (current_target _ _ _ _ E Hn) as (v' & Hv & Ht).
  rewrite Hk in Hv. apply list_elem_of_singleton in Hv as ->. by exists n.
Qed.

(** ** Reading *)

Lemma wp_looking_at {A} (m : X A) g Q s :
  At g s -> K (g_keep g) -> looking m -> (forall r s', m s = (Some r, s') -> At g s' -> s_disk s' = s_disk s -> Q r s') -> wp m Q (stopped_in K) s.
Proof.
  intros HA HK Hm HQ. apply wp_looking; [done..|by exists g|done|]. intros r s' Hr [Hd Ht]. apply HQ; [done| |done].
  unfold At. rewrite Hd. exact (located_journalled g _ _ eq_refl _ _ Ht HA).
Qed.

(** ** Destroying and removing *)

Lemma wp_scrub_at fd g Q s :
  At g s -> K (g_keep g) -> own fd -> ~ kept g fd -> (forall r s', At g s' -> Q r s') -> wp (scrubOpenFile fd) Q (stopped_in K) s.
Proof.
  intros HA HK Ho Hk HQ. unfold scrubOpenFile. apply wp_bind.
  apply (wp_inode_at tt fd (fun now f => mk_inode (Z.lor (Z.land (i_mode f) S_IFMT) 384) (i_uid f) (i_gid f) (i_nlink f) (i_mtime f) now
    (i_content f) (i_synced f)) g); [done..|]. intros r s1 HA1 _. destruct r; [|by apply HQ].
  apply wp_bind, (wp_look_at _ g); [done..|]. intros r s2 HA2 _ Hr. destruct r as [writer|]; [|by apply HQ].
  specialize (Hr _ eq_refl). cbn in Hr. injection Hr as <-. apply wp_bind.
  apply (wp_inode_at tt fd (fun now f => mk_inode (i_mode f) (i_uid f) (i_gid f) (i_nlink f) now now [] false) g); [done..|].
  intros r s3 HA3 _. destruct r; [|by apply HQ]. apply wp_bind.
  apply (wp_inode_at tt fd (fun _ f => mk_inode (i_mode f) (i_uid f) (i_gid f) (i_nlink f) (i_mtime f) (i_ctime f) (i_content f) true) g);
    [done..|].
  intros r s4 HA4 _. destruct r; [|by apply HQ]. apply (wp_look_at _ g); [done..|apply fstat_looks|]. intros r s5 HA5 _ _. by apply HQ.
Qed.

(** The same target values; the staged file may be elsewhere or gone. *)
Definition moved (g g' : ghost) : Prop := g_keep g' = g_keep g /\ g_ready g' = g_ready g.

(** The file at the staging or the quarantine name, when no target value
    depends on it. *)
Definition loose (g : ghost) (b : bool) (i : Z) : Prop := g_place g = Some (b, i) /\ ~ kept g i.

Lemma moved_inodes g place i : inodes (replaced g (g_keep g) place) i -> inodes g i \/ (exists b, place = Some (b, i)).
Proof. unfold inodes, replaced. cbn. naive_solver. Qed.

Lemma wp_quarantine_at b i g Q s :
  At g s -> K (g_keep g) -> g_place g = Some (b, i) -> (forall e s', At g s' -> Q (Err e) s') ->
  (forall s', At (replaced g (g_keep g) (Some (negb b, i))) s' -> Q (Ok tt) s') ->
  wp (renameat2_noreplace (t_dir t) (place_name t b) (place_name t (negb b))) Q (stopped_in K) s.
Proof.
  intros HA HK Hp He Ho. apply (wp_sys_at _ g); [done..|apply move_alone|by intros; apply He|].
  intros now [] d' Hs s' Hd Ht. apply Ho. unfold At. rewrite Hd, Ht.
  destruct (quarantine_entry now _ _ _ t g b i own Hs (at_entry _ _ _ HA) names Hp) as [E F].
  eapply at_step; [done..|]. intros k Hk. left. apply moved_inodes in Hk as [Hk|[b' Hb]]; [done|]. injection Hb as _ <-. left. eauto.
Qed.

Lemma wp_unlink_at i g Q s :
  At g s -> K (g_keep g) -> g_place g = Some (true, i) -> (forall e s', At g s' -> Q (Err e) s') ->
  (forall s', At (replaced g (g_keep g) None) s' -> Q (Ok tt) s') -> wp (unlinkat (t_dir t) (t_quarantine t)) Q (stopped_in K) s.
Proof.
  intros HA HK Hp He Ho. apply (wp_sys_at _ g); [done..|apply unlink_alone|by intros; apply He|].
  intros now [] d' Hs s' Hd Ht. apply Ho. unfold At. rewrite Hd, Ht.
  destruct (unlink_entry now _ _ _ t g i own Hs (at_entry _ _ _ HA) names Hp) as [E F].
  eapply at_step; [done..|]. intros k Hk. left. apply moved_inodes in Hk as [Hk|[b' [=]]]; done.
Qed.

(** From the quarantine name: the bytes are destroyed, then the name goes. *)
Definition removal_post (g : ghost) (v : option (Z * bytes)) (Q : result WsError unit -> sys -> Prop) : Prop :=
  (forall e g' s', moved g g' -> At g' s' -> Q (Err e) s') /\
  (forall s', At (mk_ghost [v] None true (g_ready g)) s' -> Q (Ok tt) s').

Lemma removal_err g v Q e s : removal_post g v Q -> At g s -> Q (Err e) s.
Proof. intros [He _] HA. by eapply (He e g). Qed.

Lemma wp_remove_quarantined fd expected g v Q s :
  At g s -> K (g_keep g) -> g_keep g = [v] -> own fd -> loose g true fd -> removal_post g v Q ->
  wp (scrubbed ← scrubOpenFile fd;
      _ ← guard_if (negb (Device scrubbed =? Device expected) || negb (Inode scrubbed =? Inode expected)) ErrSourceChanged;
      _ ← inject;
      placed ← catch (identityAt (t_dir t) (t_quarantine t));
      match placed_as placed scrubbed with
      | None => raise ErrSourceChanged
      | Some now =>
          if negb (Size now =? 0) then raise ErrSourceChanged
          else _ ← unlinkat (t_dir t) (t_quarantine t); _ ← inject; syncDirectory (t_dir t)
      end) Q (stopped_in K) s.
Proof.
  intros HA HK Hv Ho [Hp Hk] HQ. pose proof (removal_err g v Q) as Herr.
  apply wp_bind, (wp_scrub_at fd g); [done..|]. intros r s1 HA1. destruct r as [scrubbed|]; [|by apply Herr].
  apply wp_bind, wp_guard; intros _; [by apply Herr|].
  apply wp_bind, (wp_checkpoint_at g); [done..|]. intros r s2 HA2 _. destruct r; [|by apply Herr].
  apply wp_bind, wp_catch, (wp_looking_at _ g); [done..|apply looking_identityAt|]. intros r s3 _ HA3 _.
  destruct (placed_as r scrubbed) as [now|]; [|by apply wp_raise, Herr].
  destruct (negb (Size now =? 0)); [by apply wp_raise, Herr|].
  apply wp_bind, (wp_unlink_at fd g); [done..| |].
  - intros e s4 HA4. by apply Herr.
  - intros s4 HA4. set (g4 := replaced g (g_keep g) None) in *. assert (Hm : moved g g4) by done.
    apply wp_bind, (wp_checkpoint_at g4); [done..|]. intros r5 s5 HA5 _. destruct r5; [|by apply (proj1 HQ _ g4)].
    apply (wp_sync_at g4 v); [done..| | | |].
    + cbn. rewrite Hv. set_solver.
    + by eapply target_single.
    + intros e s6 HA6. by apply (proj1 HQ _ g4).
    + intros s6 HA6. by apply HQ.
Qed.

Lemma cleanup_of_place b : is_cleanup_name (place_name t b) = b.
Proof. destruct b; [apply cleanup_is_cleanup|apply not_cleanup]. Qed.
Lemma cleanup_place (b : bool) : (if b then place_name t b else cleanupBasename (place_name t b)) = t_quarantine t.
Proof. by destruct b. Qed.

Lemma wp_scrub_and_remove b fd expected g v Q s :
  At g s -> K (g_keep g) -> g_keep g = [v] -> own fd -> loose g b fd -> removal_post g v Q ->
  wp (scrubAndRemoveOpen (t_dir t) (place_name t b) fd expected) Q (stopped_in K) s.
Proof.
  intros HA HK Hv Ho [Hp Hk] HQ. unfold scrubAndRemoveOpen. rewrite cleanup_of_place, cleanup_place.
  pose (gq := replaced g (g_keep g) (Some (true, fd))).
  assert (Hrest : forall g1 s1, moved g g1 -> g_place g1 = Some (true, fd) -> At g1 s1 ->
    wp (placed ← catch (identityAt (t_dir t) (t_quarantine t));
        match placed_as placed expected with
        | None =>
            _ ← (if b then mret tt else _ ← catch (renameat2_noreplace (t_dir t) (t_quarantine t) (place_name t b)); mret tt);
            raise ErrSourceChanged
        | Some _ =>
            scrubbed ← scrubOpenFile fd;
            _ ← guard_if (negb (Device scrubbed =? Device expected) || negb (Inode scrubbed =? Inode expected)) ErrSourceChanged;
            _ ← inject;
            placed ← catch (identityAt (t_dir t) (t_quarantine t));
            match placed_as placed scrubbed with
            | None => raise ErrSourceChanged
            | Some now =>
                if negb (Size now =? 0) then raise ErrSourceChanged
                else _ ← unlinkat (t_dir t) (t_quarantine t); _ ← inject; syncDirectory (t_dir t)
            end
        end) Q (stopped_in K) s1).
  { intros g1 s1 [M1 M2] Hp1 HA1. assert (HK1 : K (g_keep g1)) by by rewrite M1.
    apply wp_bind, wp_catch, (wp_looking_at _ g1); [done..|apply looking_identityAt|]. intros placed s2 _ HA2 _.
    destruct (placed_as placed expected).
    - apply (wp_remove_quarantined fd expected g1 v); [done..|by rewrite M1|done| |].
      + split; [done|]. unfold kept in *. by rewrite M1, M2.
      + destruct HQ as [He Hs]. split; [|by rewrite M2]. intros e g' s' [M3 M4]. apply He. split; congruence.
    - apply wp_bind. destruct b; [by apply wp_ret, wp_raise, (proj1 HQ _ g1)|].
      apply wp_bind, wp_catch, (wp_quarantine_at true fd g1); [done..| |].
      + intros e s3 HA3. by apply wp_ret, wp_raise, (proj1 HQ _ g1).
      + intros s3 HA3. by apply wp_ret, wp_raise, (proj1 HQ _ (replaced g1 (g_keep g1) (Some (false, fd)))). }
  apply wp_bind. destruct b.
  - apply wp_ret. by apply (Hrest g).
  - apply wp_bind, (wp_quarantine_at false fd g); [done..| |].
    + intros e s1 HA1. by apply (proj1 HQ _ g).
    + intros s1 HA1. apply (wp_checkpoint_at gq); [done..|]. intros r s2 HA2 _.
      destruct r; [by apply (Hrest gq)|by apply (proj1 HQ _ gq)].
Qed.

(** The entry at a name is what the place says. *)
Lemma entry_at_place g (s : sys) b i fd : At g s -> g_place g = Some (b, i) -> entry_of (s_disk s) (t_dir t) (place_name t b) = Some fd -> fd = i.
Proof.
  intros [E _ _ _ _] Hp. destruct (eo_dir _ _ _ E) as (n & Hn & D). unfold entry_of. rewrite Hn. cbn.
  destruct b; cbn; [rewrite (do_quarantine _ _ _ D)|rewrite (do_stage _ _ _ D)]; rewrite Hp; cbn; congruence.
Qed.

Lemma open_fingerprint_entry h name limit (s : sys) fd fp s' :
  openFingerprintAt h name limit s = (Some (Ok (fd, fp)), s') -> entry_of (s_disk s) h name = Some fd.
Proof.
  unfold openFingerprintAt, ctx_err. intros Hr.
  enough (Hw : wp (openFingerprintAt h name limit) (fun r _ => match r with Ok (i, _) => entry_of (s_disk s) h name = Some i | Err _ => True end)
                 (fun _ _ => True) s).
  { unfold wp, openFingerprintAt, ctx_err in Hw. by rewrite Hr in Hw. }
  clear Hr. unfold openFingerprintAt, ctx_err.
  apply wp_bind, wp_looking; [apply looking_checkpoint|done..|]. intros r s1 _ [D1 _]. destruct r; [|done].
  apply wp_bind. apply wp_call. intros d now k n Ed. rewrite alone in Ed. subst d. split; [done|]. split; [done|].
  destruct (sys_open h name (s_disk s1)) as [[i|] d'] eqn:Eo; cbn; [|done].
  assert (Hi : entry_of (s_disk s) h name = Some i) by (rewrite <- D1; apply open_entry; by rewrite Eo). clear Eo.
  apply wp_bind. eapply wp_looking; [apply looking_fstat|done..|]. intros r s2 _ _. destruct r; [|done].
  apply wp_bind, wp_guard; [done|]. intros _.
  apply wp_bind. eapply wp_looking; [apply looking_read|done..|]. intros r s3 _ _. destruct r; [|done].
  apply wp_bind, wp_guard; [done|]. intros _.
  apply wp_bind. eapply wp_looking; [apply looking_fstat|done..|]. intros r s4 _ _. destruct r; [|done].
  apply wp_bind, wp_guard; [done|]. intros _. by apply wp_ret.
Qed.

Lemma wp_remove_owned b i expected limit g v Q s :
  At g s -> K (g_keep g) -> g_keep g = [v] -> loose g b i -> removal_post g v Q ->
  wp (removeOwnedFingerprintAt (t_dir t) (place_name t b) expected limit) Q (stopped_in K) s.
Proof.
  intros HA HK Hv [Hp Hk] HQ. unfold removeOwnedFingerprintAt. apply wp_bind, (wp_looking_at _ g); [done..|apply looking_openFingerprintAt|].
  intros r s1 Hr HA1 Hd. destruct r as [[fd current]|]; [|by eapply removal_err].
  destruct (negb _); [by eapply wp_raise, removal_err|].
  apply open_fingerprint_entry in Hr. apply (entry_at_place g s b i fd HA Hp) in Hr as ->.
  apply (wp_scrub_and_remove b i _ g v); [done..| |by split|done]. apply (at_own _ _ _ HA). left. eauto.
Qed.

(** ** Staging *)

(** The prepared entry is about this file. *)
Definition about (p : preparedReplacement) : Prop :=
  parent p = Some (t_dir t) /\ Base (rp_Path (replacement p)) = t_name t /\ stage p = t_stage t /\ rp_Content (replacement p) = t_new t.

Definition staging (v : option (Z * bytes)) (fd : Z) (ready : option (Z * bytes)) : ghost := mk_ghost [v] (Some (false, fd)) false ready.
Definition file_holds (d : disk) (fd : Z) (content : bytes) : Prop := exists f, dk_files d !! fd = Some f /\ i_content f = content.

Lemma unkept v fd : inode_of v <> Some fd -> ~ kept (staging v fd None) fd.
Proof. intros Hne [Hk|Hk]; [|done]. cbn in Hk. apply list_elem_of_singleton in Hk. by rewrite <- Hk in Hne. Qed.

Lemma make_ready v fd d w f : located (staging v fd None) d w -> dk_files d !! fd = Some f -> i_synced f = true ->
  located (staging v fd (Some (fd, i_content f))) d w.
Proof.
  intros [E F Hf Ho Hp] Hi Hs. constructor; [|done..| |done].
  - destruct E as [(n & Hn & D) Hk Hr]. constructor; [|done|by exists f]. exists n. split; [done|]. destruct D. by constructor.
  - intros i Hin. apply Ho. unfold inodes in *. cbn in *. destruct Hin as [Hin|[Hin|[= ->]]]; [by left|by right; left|left; eauto].
Qed.

(** A write that fails leaves arbitrary bytes. *)
Lemma wp_write_at fd data content v Q s :
  At (staging v fd None) s -> K [v] -> inode_of v <> Some fd -> file_holds (s_disk s) fd content ->
  (forall r s', At (staging v fd None) s' -> (is_ok r = true -> file_holds (s_disk s') fd (content ++ data)) -> Q r s') ->
  wp (write_all fd data) Q (stopped_in K) s.
Proof.
  intros HA HK Hne (f & Hf & Hc) HQ. apply wp_call. intros d now k n Ed. rewrite alone in Ed. subst d.
  split; [by exists (staging v fd None)|].
  assert (Hown : own fd) by (apply (at_own _ _ _ HA); left; by exists false).
  assert (Hw : forall bytes_, located (staging v fd None) (sys_write fd bytes_ now (s_disk s)).2 (tables s)).
  { intros l. unfold sys_write. destruct (update_inode tt fd _ (s_disk s)) as [[u|e] d'] eqn:Eu.
    - destruct (update_inode_frame (t_dir t) (fun i => i = fd) _ _ _ _ _ _ Eu) as [F _]; [by left|]. cbn.
      eapply at_step; [done| |by eapply frame_weaken; [done|set_solver|intros i ->]|by left].
      eapply frame_entry; [done|apply HA|set_solver|]. intros i Hk ->. by eapply unkept.
    - apply update_inode_err in Eu as ->. done. }
  split.
  - apply HQ; [apply Hw|done].
  - apply HQ; [unfold At; cbn; apply Hw|]. intros _. cbn. unfold sys_write, update_inode. rewrite Hf. cbn.
    eexists. split; [cbn; apply lookup_insert_eq|]. cbn. by rewrite Hc.
Qed.

(** What a staging attempt leaves. *)
Record staged_as (v : option (Z * bytes)) (fd : Z) (r : result WsError unit) (p p' : preparedReplacement) (s : sys) : Prop := mk_staged_as {
  sa_at : At (staging v fd (match r with Ok _ => Some (fd, t_new t) | Err _ => None end)) s;
  sa_about : about p';
  sa_activated : activated p' = activated p;
}.

Lemma staged_err v fd e p p' ready s :
  At (staging v fd ready) s -> about p' -> activated p' = activated p -> staged_as v fd (Err e) p p' s.
Proof. intros HA. constructor; [|done..]. by apply drop_ready in HA. Qed.

Lemma wp_fill_candidate id p fd v Q s :
  At (staging v fd None) s -> K [v] -> inode_of v <> Some fd -> about p -> file_holds (s_disk s) fd [] ->
  (forall r p' s', staged_as v fd r p p' s' -> Q (Ok (r, p')) s') -> wp (fill_candidate id p (t_dir t) fd) Q (stopped_in K) s.
Proof.
  intros HA HK Hne Hp Hf HQ. set (g := staging v fd None) in *.
  assert (Hown : own fd) by (apply (at_own _ _ _ HA); left; by exists false).
  assert (Hk : ~ kept g fd) by by apply unkept.
  assert (Herr : forall e s', At g s' -> Q (Ok (Err e, p)) s') by (intros e s' HA'; by apply HQ, (staged_err v fd e p p None)).
  unfold fill_candidate. apply wp_bind, wp_catch.
  assert (Hlate : forall identity s', At (staging v fd (Some (fd, t_new t))) s' ->
    wp (let p := set_candidate_fp (mk_fingerprint (rp_Path (replacement p)) identity (sha256 (rp_Content (replacement p)))) p in
        recorded ← catch (_ ← inject; _ ← syncDirectory (t_dir t); database (MarkCandidate service_uid id (ordinal p) identity));
        mret (recorded, p)) Q (stopped_in K) s').
  { intros identity s' HA'. set (gr := staging v fd (Some (fd, t_new t))) in *. cbn zeta.
    set (p' := set_candidate_fp _ p). assert (Hp' : about p') by apply Hp.
    assert (Hend : forall r s2, At gr s2 -> wp (mret (r, p')) Q (stopped_in K) s2).
    { intros r s2 HA2. apply wp_ret, HQ. destruct r; [by constructor|by eapply staged_err]. }
    apply wp_bind, wp_catch, wp_bind, (wp_checkpoint_at gr); [done..|]. intros r s2 HA2 _. destruct r; [|by apply Hend].
    apply wp_bind, (wp_sync_at gr v); [done|done|by left|by eapply target_single|by intros; apply Hend|]. intros s3 HA3.
    apply (wp_database_at _ gr); [done|done|apply MarkCandidate_keeps|]. intros r s4 HA4 _. by apply Hend. }
  apply wp_bind, (wp_inode_at tt fd (fun now f => mk_inode (Z.lor (Z.land (i_mode f) S_IFMT) 384) (i_uid f) (i_gid f) (i_nlink f) (i_mtime f)
    now (i_content f) (i_synced f)) g); [done..|]. intros r s1 HA1 H1. destruct r; [|by apply wp_ret, Herr].
  destruct (H1 eq_refl) as (now1 & f0 & F0 & F1). destruct Hf as (f0' & F0' & C0). replace f0' with f0 in * by congruence.
  apply wp_bind, (wp_checkpoint_at g); [done..|]. intros r s2 HA2 D2. destruct r; [|by apply wp_ret, Herr].
  apply wp_bind, (wp_write_at fd _ [] v); [done..| |].
  { rewrite D2. eexists. split; [done|]. done. }
  intros r s3 HA3 H3. destruct r; [|by apply wp_ret, Herr]. destruct (H3 eq_refl) as (f3 & F3 & C3).
  apply wp_bind, (wp_checkpoint_at g); [done..|]. intros r s4 HA4 D4. destruct r; [|by apply wp_ret, Herr].
  apply wp_bind, (wp_inode_at tt fd (fun _ f => mk_inode (i_mode f) (i_uid f) (i_gid f) (i_nlink f) (i_mtime f) (i_ctime f) (i_content f) true) g);
    [done..|].
  intros r s5 HA5 H5. destruct r; [|by apply wp_ret, Herr]. destruct (H5 eq_refl) as (now5 & f4 & F4 & F5).
  rewrite D4, F3 in F4. injection F4 as <-. apply wp_bind, (wp_look_at _ g); [done..|apply fstat_looks|].
  intros r s6 HA6 D6 _. destruct r as [identity|]; [|by apply wp_ret, Herr].
  apply wp_bind, wp_guard; intros _; [by apply wp_ret, Herr|]. apply wp_ret, Hlate.
  destruct Hp as (_ & _ & _ & Hc). cbn in C3. rewrite <- Hc, <- C3. unfold At. rewrite D6.
  eapply (make_ready v fd _ _ (mk_inode _ _ _ _ _ _ (i_content f3) true)); [|exact F5|done]. by rewrite <- D6.
Qed.

(** An entry before its candidate is created. *)
Definition idle (v : option (Z * bytes)) : ghost := mk_ghost [v] None true None.

Lemma wp_create_at v Q s :
  At (idle v) s -> K [v] -> (forall e s', At (idle v) s' -> Q (Err e) s') ->
  (forall fd s', At (staging v fd None) s' -> inode_of v <> Some fd -> file_holds (s_disk s') fd [] -> Q (Ok fd) s') ->
  wp (syscall (sys_create service_uid service_gid (t_dir t) (t_stage t))) Q (stopped_in K) s.
Proof.
  intros HA HK He Ho. apply (wp_sys_at _ (idle v)); [done..|apply create_alone|by intros; apply He|].
  intros now fd d' Hs s' Hd Ht. pose proof HA as [E F Hf Hi Hp].
  destruct (create_entry _ _ now _ _ _ t (idle v) own Hs E eq_refl Hf names) as (-> & Hn & E' & F').
  apply Ho.
  - unfold At. rewrite Hd, Ht. eapply at_step; [done..|]. intros i [[b [= _ <-]]|Hk]; [right|by left; right].
    split; [apply own_new, F|rewrite Hn; lia].
  - intros Hv. assert (Hin : inodes (idle v) (dk_next (s_disk s))) by (right; left; cbn; rewrite <- Hv; set_solver).
    apply Hi in Hin. lia.
  - rewrite Hd. unfold sys_create in Hs. destruct (dk_dirs (s_disk s) !! t_dir t) as [n|]; [|done]. destruct (_ !! t_stage t); [done|].
    injection Hs as <-. eexists. cbn. by rewrite lookup_insert_eq.
Qed.

Lemma wp_scrub_failed fd p v Q s :
  At (staging v fd None) s -> K [v] -> inode_of v <> Some fd -> about p ->
  (forall l p' s', At (staging v fd None) s' -> about p' -> activated p' = activated p -> Q (Ok (l, p')) s') ->
  wp (scrub_failed (t_dir t) fd p) Q (stopped_in K) s.
Proof.
  intros HA HK Hne Hp HQ. set (g := staging v fd None) in *. unfold scrub_failed.
  assert (Hown : own fd) by (apply (at_own _ _ _ HA); left; by exists false).
  apply wp_bind, wp_catch, (wp_scrub_at fd g); [done..|by apply unkept|]. intros r s1 HA1.
  apply wp_bind, wp_catch, (wp_sync_at g v); [done|done|by left|by eapply target_single|..].
  - intros e s2 HA2. apply wp_ret, HQ; [done| |]; destruct r; cbn; done.
  - intros s2 HA2. apply wp_ret, HQ; [done| |]; destruct r; cbn; done.
Qed.

(** What a staging attempt leaves: nothing, an incomplete candidate or a
    complete one. *)
Definition staged_ghost (v : option (Z * bytes)) (g : ghost) : Prop :=
  exists fd, g = staging v fd (Some (fd, t_new t)) /\ inode_of v <> Some fd.
Definition abandoned (v : option (Z * bytes)) (g : ghost) : Prop :=
  g_keep g = [v] /\ g_ready g = None
  /\ match g_place g with None => g_clean g = true | Some (_, i) => inode_of v <> Some i end.
Record attempted (p : preparedReplacement) (r : result WsError unit) (p' : preparedReplacement) (v : option (Z * bytes)) (g : ghost) : Prop :=
  mk_attempted {
  at_about : about p';
  at_activated : activated p' = activated p;
  at_staged : match r with Ok _ => staged_ghost v g | Err _ => abandoned v g end;
}.

Lemma join_errors_Ok l u : join_errors l = Ok u -> Forall (fun r => is_ok r = true) l.
Proof.
  unfold join_errors. assert (He : forall l e, exists e', fold_left (fun acc r => match acc, r with
    | Err a, Err b => Err (Joined a b) | Err a, Ok _ => Err a | Ok _, r => r end) l (@Err WsError unit e) = Err e').
  { clear. induction l as [|[] l IH]; intros e0; cbn; eauto. }
  induction l as [|[a|e] l IH]; cbn; intros E; [done| |].
  - constructor; [done|]. destruct a. by apply IH.
  - destruct (He l e) as [e' E']. congruence.
Qed.

Lemma wp_stageCandidate id p v Q s :
  At (idle v) s -> K [v] -> about p ->
  (forall r p' g s', attempted p r p' v g -> At g s' -> Q (Ok (r, p')) s') -> wp (stageCandidate id p) Q (stopped_in K) s.
Proof.
  intros HA HK Hp HQ. unfold stageCandidate. rewrite (proj1 Hp).
  assert (Hidle : forall e s', At (idle v) s' -> Q (Ok (Err e, p)) s') by (intros e s' HA'; eapply HQ; [|done]; by constructor).
  apply wp_bind, wp_catch, wp_bind, (wp_checkpoint_at (idle v)); [done..|]. intros r s1 HA1 _.
  destruct r; [|by apply wp_ret, Hidle]. replace (stage p) with (t_stage t) by (symmetry; apply Hp).
  apply (wp_create_at v); [done|done|by intros; apply wp_ret, Hidle|]. intros fd s2 HA2 Hne Hf.
  apply wp_bind, (wp_fill_candidate id p fd v); [done..|]. intros r p2 s3 [HA3 Ha Hact].
  assert (Hbad : forall e l p' s', r = Err e -> At (staging v fd None) s' -> about p' -> activated p' = activated p ->
    wp (closed ← catch checkpoint; mret (join_errors (r :: l ++ [closed]), p')) Q (stopped_in K) s').
  { intros e l p' s' -> HA' Ha' Hact'. apply wp_bind, wp_catch, (wp_checkpoint_at (staging v fd None)); [done..|]. intros c s4 HA4 _.
    apply wp_ret. eapply HQ; [|done]. constructor; [done|congruence|].
    destruct (join_errors _) eqn:Ej; [|done]. apply join_errors_Ok in Ej. by apply Forall_cons in Ej as [? _]. }
  destruct r as [[]|e]; cbn [is_err].
  - apply wp_bind, wp_ret, wp_bind, wp_catch, (wp_checkpoint_at (staging v fd (Some (fd, t_new t)))); [done..|].
    intros c s4 HA4 _. apply wp_ret. cbn. destruct c; cbn.
    + eapply HQ; [|done]. constructor; [done..|by exists fd].
    + apply drop_ready in HA4. eapply HQ; [|done]. by constructor.
  - apply wp_bind, (wp_scrub_failed fd p2 v); [done..|]. intros l p3 s4 HA4 Ha4 Hact4. apply (Hbad e); [done..|congruence].
Qed.

(** ** Abandoning *)

Lemma wp_missing_at g name Q s :
  At g s -> K (g_keep g) -> (forall r s', At g s' -> s_disk s' = s_disk s -> (forall b, r = Ok b -> b = bool_decide (entry_of (s_disk s) (t_dir t) name = None)) -> Q r s') ->
  wp (missingAt (t_dir t) name) Q (stopped_in K) s.
Proof.
  intros HA HK HQ. unfold missingAt. apply wp_bind, (wp_look_at _ g); [done..|apply fstatat_looks|]. intros r s1 HA1 D1 Hr.
  destruct r as [found|]; [|by apply HQ]. apply wp_ret, HQ; [done..|]. intros b [= <-]. specialize (Hr _ eq_refl).
  unfold sys_fstatat in Hr. unfold entry_of. destruct (dk_dirs (s_disk s) !! t_dir t) as [n|]; [|done]. cbn in *.
  destruct (d_entries n !! name); [|by injection Hr as <-]. destruct (stat_of _ _); [|done]. by injection Hr as <-.
Qed.

Lemma place_entry g d w b : located g d w -> entry_of d (t_dir t) (place_name t b) = match g_place g with Some (b', i) => if Bool.eqb b b' then Some i else None | None => None end.
Proof.
  intros [E _ _ _ _]. destruct (eo_dir _ _ _ E) as (n & Hn & D). unfold entry_of. rewrite Hn. cbn.
  destruct b; cbn; [rewrite (do_quarantine _ _ _ D)|rewrite (do_stage _ _ _ D)]; by destruct (g_place g) as [[[] ?]|].
Qed.

Lemma wp_owned_at g Q s :
  At g s -> K (g_keep g) ->
  (forall r s', At g s' -> match r with
                           | Ok None => g_place g = None
                           | Ok (Some name) => exists b i, g_place g = Some (b, i) /\ name = place_name t b
                           | Err _ => True
                           end -> Q r s') -> wp (ownedStageBasename (t_dir t) (t_stage t)) Q (stopped_in K) s.
Proof.
  intros HA HK HQ. unfold ownedStageBasename.
  apply wp_bind, (wp_missing_at g); [done..|]. intros r1 s1 HA1 D1 R1. destruct r1 as [b1|]; [|by apply HQ].
  apply wp_bind, (wp_missing_at g); [done..|]. intros r2 s2 HA2 D2 R2. destruct r2 as [b2|]; [|by apply HQ].
  rewrite (R1 _ eq_refl), (R2 _ eq_refl). clear R1 R2. rewrite D1.
  pose proof (place_entry g _ _ false HA) as P1. pose proof (place_entry g _ _ true HA) as P2. cbn [place_name] in P1, P2.
  unfold t_quarantine in P2. rewrite P1, P2. destruct (g_place g) as [[[] i]|] eqn:Ep; cbn.
  - apply HQ; [done|]. by exists true, i.
  - apply HQ; [done|]. by exists false, i.
  - by apply HQ.
Qed.

Lemma abandoned_loose v g b i : abandoned v g -> g_place g = Some (b, i) -> loose g b i.
Proof.
  intros (Hk & Hr & Hp) Hg. rewrite Hg in Hp. split; [done|]. intros [Hi|Hi]; [|by rewrite Hr in Hi].
  rewrite Hk in Hi. apply list_elem_of_singleton in Hi. by rewrite <- Hi in Hp.
Qed.
Lemma abandoned_idle v g : abandoned v g -> g_place g = None -> g = idle v.
Proof. destruct g. unfold abandoned, idle. cbn. intros (-> & -> & Hc) ->. by rewrite Hc. Qed.

(** An entry is cleaned up, or an error says that it may not be. *)
Lemma wp_discard_entry p v g Q s :
  At g s -> K [v] -> abandoned v g -> about p -> (forall s', At (idle v) s' -> Q (Ok None) s') ->
  (forall r s' g', match r with Ok None => False | _ => True end -> g_keep g' = [v] -> At g' s' -> Q r s') ->
  wp (discard_entry p) Q (stopped_in K) s.
Proof.
  intros HA HK Hab Hp Hnone Hsome. assert (Hk : g_keep g = [v]) by apply Hab. unfold discard_entry. rewrite (proj1 Hp).
  destruct (cleanupUncertain p); [by apply wp_ret, (Hsome _ _ g)|].
  replace (stage p) with (t_stage t) by (symmetry; apply Hp).
  apply wp_bind, wp_catch, (wp_owned_at g); [done|by rewrite Hk|]. intros r s1 HA1 Hr.
  destruct r as [[name|]|]; [| |by apply wp_ret, (Hsome _ _ g)].
  - destruct Hr as (b & i & Hg & ->). destruct (negb _); [by apply wp_ret, (Hsome _ _ g)|].
    apply wp_bind, wp_catch, (wp_remove_owned b i _ _ g v); [done|by rewrite Hk|done|by eapply abandoned_loose|]. split.
    + intros e g' s2 [Hm _] HA2. apply wp_ret, (Hsome _ _ g'); [done|congruence|done].
    + intros s2 HA2. apply wp_ret, Hnone. destruct Hab as (_ & Hr & _). unfold idle. by rewrite Hr in HA2.
  - apply wp_ret, Hnone. by rewrite <- (abandoned_idle v g).
Qed.

(** ** Activating

    [v] is what the target held and [c] the complete candidate. *)
Section Activate.
Context (v : option (Z * bytes)) (c : Z) (c_new : inode_of v <> Some c).
Context (K_old : K [v]) (K_both : K [v; Some (c, t_new t)]) (K_new : K [Some (c, t_new t)]).
Abbreviation nw := (Some (c, t_new t)).

(** The candidate is at the target, what it displaced at the staging name. *)
Definition swapped (place : option (bool * Z)) : ghost := mk_ghost [v; nw] place false nw.
Definition displacement (p : preparedReplacement) (place : option (bool * Z)) : Prop :=
  if existed p then exists o, place = Some (false, o) /\ inode_of v = Some o else place = None.
Definition replaced_by_new : ghost := mk_ghost [nw] None true nw.

Lemma swapped_inodes place i :
  (forall b o, place = Some (b, o) -> inode_of v = Some o) -> inodes (swapped place) i -> inodes (staging v c nw) i.
Proof.
  intros Hp [[b Hb]|[Hk|Hr]].
  - right; left. cbn. apply Hp in Hb as ->. by left.
  - right. cbn in *. apply elem_of_cons in Hk as [->|Hk]; [left; by left|]. right. by apply list_elem_of_singleton in Hk as [= ->].
  - by right; right.
Qed.

Lemma wp_rename_at p Q s :
  At (staging v c nw) s -> (forall e s', At (staging v c nw) s' -> Q (Err e) s') ->
  (forall place s', displacement p place -> At (swapped place) s' -> target_is (s_disk s') nw -> Q (Ok tt) s') ->
  wp (if existed p then renameat2_exchange (t_dir t) (t_stage t) (t_name t) else renameat2_noreplace (t_dir t) (t_stage t) (t_name t))
     Q (stopped_in K) s.
Proof.
  intros HA He Ho. set (g := staging v c nw) in *.
  assert (Hend : forall place d' s', displacement p place -> (forall b o, place = Some (b, o) -> inode_of v = Some o) ->
    entry_ok d' t (swapped place) -> frame (t_dir t) (own_names t) own (s_disk s) d' -> target_is d' nw ->
    s_disk s' = d' -> tables s' = tables s -> Q (Ok tt) s').
  { intros place d' s' Hp Hi E F Ht Hd Hw. apply (Ho place); [done| |by rewrite Hd]. unfold At. rewrite Hd, Hw.
    eapply at_step; [done..|]. intros i Hin. left. by eapply swapped_inodes. }
  unfold displacement in Hend. destruct (existed p).
  - apply (wp_sys_at _ g); [done..|apply exchange_alone|by intros; apply He|]. intros now [] d' Hs s' Hd Ht.
    destruct (exchange_entry now _ _ _ t g c own Hs (at_entry _ _ _ HA) names eq_refl eq_refl) as (o & Hin & E & F & (n & Hn & Hc)).
    cbn in Hin. apply list_elem_of_singleton in Hin. eapply Hend; [by eauto| |done..|by exists n|done|done]. by intros b o' [= _ <-].
  - apply (wp_sys_at _ g); [done..|apply move_alone|by intros; apply He|]. intros now [] d' Hs s' Hd Ht.
    destruct (activate_entry now _ _ _ t g c own Hs (at_entry _ _ _ HA) names eq_refl eq_refl) as (E & F & (n & Hn & Hc)).
    eapply Hend; [done| |done..|by exists n|done|done]. done.
Qed.

(** A failed check: the entry goes back, or stays swapped. *)
Lemma wp_exchange_back p place Q s :
  about p -> activated p = true -> existed p = true -> displacement p place -> At (swapped place) s -> target_is (s_disk s) nw ->
  (forall s', At (staging v c nw) s' -> Q (Ok (set_activated false p)) s') ->
  (forall g s', K (g_keep g) -> At g s' -> Q (Ok p) s') ->
  wp (exchange_back (t_dir t) (t_name t) p) Q (stopped_in K) s.
Proof.
  intros Hp Ha Hx Hd HA Ht Hback Hstay. unfold exchange_back, displacement in *. rewrite Hx in Hd. destruct Hd as (o & -> & Ho).
  set (g := swapped (Some (false, o))) in *.
  apply wp_bind, wp_catch, (wp_looking_at _ g); [done..|apply looking_fingerprintAt|]. intros r s1 _ HA1 D1.
  destruct r as [active|]; [|by apply wp_ret, (Hstay g)]. destruct (sameFingerprintContent _ _ _); [|by apply wp_ret, (Hstay g)].
  replace (stage p) with (t_stage t) by (symmetry; apply Hp). rewrite <- D1 in Ht.
  apply wp_bind, wp_catch, (wp_sys_at _ g); [done..|apply exchange_alone|by intros e s2 HA2 _; apply wp_ret, (Hstay g)|].
  intros now [] d' Hs s2 Hd2 Ht2.
  destruct (exchange_back_entry now _ _ _ t g o c own Hs (at_entry _ _ _ HA1) names eq_refl) as (E & F & (n & Hn & Hnt)); [|done|].
  { cbn. rewrite Ho. by left. }
  set (g2 := replaced g (g_keep g) (Some (false, c))) in *.
  assert (HA2 : At g2 s2).
  { unfold At. rewrite Hd2, Ht2. eapply at_step; [done..|]. intros i Hi. left.
    apply moved_inodes in Hi as [Hi|[b [= _ <-]]]; [done|]. by right; right. }
  apply wp_bind, wp_catch, (wp_sync_at g2 v); [done|done|by left| | |].
  - rewrite Hd2. exists n. split; [done|]. by rewrite Ho.
  - intros e s3 HA3. by apply wp_ret, (Hstay g2).
  - intros s3 HA3. by apply wp_ret, Hback.
Qed.

Lemma looking_displaced h e p : looking (displaced_original (Selection := Selection) h e p).
Proof. unfold displaced_original. looks; apply looking_fingerprintAt. Qed.

Lemma displaced_answers h x p e (s s' : sys) : displaced_original h x p s <> (Some (Err e), s').
Proof.
  unfold displaced_original. destruct (existed p); [|done]. unfold mbind, X_bind, catch.
  by destruct (fingerprintAt _ _ _ s) as [[[d|e']|] s1].
Qed.

(** Synchronizing makes the candidate the only value of the target: from here
    the displaced original may be destroyed. *)
Definition settled (place : option (bool * Z)) : ghost := synced_ghost (swapped place) nw.

Lemma wp_settle_applied id p place Q s :
  At (swapped place) s -> target_is (s_disk s) nw -> (forall e g s', K (g_keep g) -> At g s' -> Q (Err e) s') ->
  (forall s', At (settled place) s' -> Q (Ok tt) s') -> wp (settle_applied id (t_dir t) (t_name t) p) Q (stopped_in K) s.
Proof.
  intros HA Ht He Ho. unfold settle_applied. set (g := swapped place) in *.
  apply wp_bind, (wp_checkpoint_at g); [done..|]. intros r s1 HA1 D1. destruct r; [|by apply (He _ g)].
  apply wp_bind, (wp_checkpoint_at g); [done..|]. intros r s2 HA2 D2. destruct r; [|by apply (He _ g)].
  rewrite <- D1, <- D2 in Ht. apply wp_bind, (wp_sync_at g nw); [done|done|by right; left|done|by intros; apply (He _ g)|].
  intros s3 HA3. change (synced_ghost g nw) with (settled place) in HA3. set (g3 := settled place) in *.
  apply wp_bind, (wp_checkpoint_at g3); [done..|]. intros r s4 HA4 _. destruct r; [|by apply (He _ g3)].
  apply wp_bind, wp_catch, (wp_looking_at _ g3); [done..|apply looking_fingerprintAt|]. intros r s5 _ HA5 _.
  destruct r; [|by apply wp_raise, (He _ g3)]. destruct (negb _); [by apply wp_raise, (He _ g3)|].
  apply wp_bind, (wp_looking_at _ g3); [done..|apply looking_displaced|]. intros r s6 _ HA6 _.
  destruct r as [[confirmed|]|]; [|by apply wp_raise, (He _ g3)|by apply (He _ g3)].
  apply wp_bind, (wp_database_at _ g3); [done..|apply recordPlacement_keeps|]. intros r s7 HA7 _. destruct r; [|by apply (He _ g3)].
  apply (wp_checkpoint_at g3); [done..|]. intros r s8 HA8 _. destruct r as [[]|]; [by apply Ho|by apply (He _ g3)].
Qed.

Lemma wp_remove_displaced p place Q s :
  about p -> displacement p place -> At (settled place) s -> (forall e g s', K (g_keep g) -> At g s' -> Q (Err e) s') ->
  (forall s', At replaced_by_new s' -> Q (Ok tt) s') -> wp (remove_displaced (t_dir t) p) Q (stopped_in K) s.
Proof.
  intros Hp Hd HA He Ho. unfold remove_displaced, displacement in *. destruct (existed p).
  - destruct Hd as (o & -> & Hv). set (g := settled (Some (false, o))) in *.
    apply wp_bind, (wp_checkpoint_at g); [done..|]. intros r s1 HA1 _. destruct r; [|by apply (He _ g)].
    replace (stage p) with (place_name t false) by (symmetry; apply Hp).
    apply wp_bind, wp_mapping, (wp_remove_owned false o _ _ g nw); [done..| |].
    + split; [done|]. intros [Hk|Hk]; cbn in Hk; [apply list_elem_of_singleton in Hk|]; injection Hk as ->; done.
    + split; [intros e g' s2 [Hm _] HA2; apply (He _ g'); [by rewrite Hm|done]|]. intros s2 HA2.
      apply wp_bind, (wp_checkpoint_at replaced_by_new); [done..|]. intros r' s3 HA3 _. destruct r'; [|by apply (He _ replaced_by_new)].
      apply (wp_sync_at replaced_by_new nw); [done|done|by left|by eapply target_single| |].
      * intros e s4 HA4. by apply (He _ replaced_by_new).
      * intros s4 HA4. by apply Ho.
  - rewrite Hd in HA. by apply wp_ret, Ho.
Qed.

(** What an activation leaves. *)
Definition activation (r : result WsError unit) (p' : preparedReplacement) (s : sys) : Prop :=
  match r with
  | Ok _ => At replaced_by_new s
  | Err _ => if activated p' then exists g, K (g_keep g) /\ At g s else about p' /\ At (staging v c nw) s
  end.

Lemma wp_activateCandidate id p Q s :
  about p -> activated p = false -> At (staging v c nw) s -> (forall r p' s', activation r p' s' -> Q (Ok (r, p')) s') ->
  wp (activateCandidate id p) Q (stopped_in K) s.
Proof.
  intros Hp Hact HA HQ. unfold activateCandidate. destruct Hp as (Hh & Hb & Hrest). rewrite Hh, Hb.
  assert (Hst : stage p = t_stage t) by apply Hrest. rewrite Hst.
  apply wp_bind, wp_catch, wp_bind, (wp_checkpoint_at (staging v c nw)); [done..|]. intros r s1 HA1 _.
  assert (Hfail : forall e s', At (staging v c nw) s' -> Q (Ok (Err e, p)) s').
  { intros e s' HA'. apply HQ. unfold activation. by rewrite Hact. }
  destruct r; [|by apply wp_ret, Hfail].
  apply (wp_rename_at p); [done|by intros; apply wp_ret, Hfail|]. intros place s2 Hd HA2 Ht2. cbn zeta.
  set (g := swapped place) in *. set (p1 := set_activated true p).
  assert (Hlate : forall p' e g' s', activated p' = true -> K (g_keep g') -> At g' s' -> Q (Ok (Err e, p')) s').
  { intros p' e g' s' Ha' HK' HA'. apply HQ. unfold activation. rewrite Ha'. by exists g'. }
  apply wp_bind, wp_catch, (wp_checkpoint_at g); [done..|]. intros r s3 HA3 D3. destruct r; [|by apply wp_ret, (Hlate _ _ g)].
  apply wp_bind, wp_catch, (wp_looking_at _ g); [done..|apply looking_fingerprintAt|]. intros r s4 _ HA4 D4.
  destruct r as [active|]; [|by apply wp_ret, (Hlate _ _ g)]. destruct (negb _); [by apply wp_ret, (Hlate _ _ g)|].
  apply wp_bind, (wp_looking_at _ g); [done..|apply looking_displaced|]. intros r s5 Hr HA5 D5.
  assert (Ht5 : target_is (s_disk s5) nw) by by rewrite D5, D4, D3. destruct r as [[placedOriginal|]|].
  - apply wp_bind, wp_catch, (wp_database_at _ g); [done..|apply recordPlacement_keeps|]. intros r s6 HA6 D6.
    destruct r; [|by apply wp_ret, (Hlate _ _ g)]. cbn zeta. set (p2 := set_original_fp _ _).
    assert (Hlate2 : forall e g' s', K (g_keep g') -> At g' s' -> wp (mret (Err e, p2)) Q (stopped_in K) s') by by intros; eapply wp_ret, Hlate.
    apply wp_bind, wp_catch, wp_bind, (wp_settle_applied id p2 place); [done|by rewrite D6|done|]. intros s7 HA7.
    apply (wp_remove_displaced p2 place); [by split|done..|]. intros s8 HA8. by apply wp_ret, HQ.
  - assert (Hx : existed p1 = true).
    { destruct (existed p1) eqn:Ex; [done|]. unfold displaced_original in Hr. rewrite Ex in Hr. by injection Hr. }
    apply wp_bind, (wp_exchange_back p1 place); [by split|done..| |].
    + intros s6 HA6. apply wp_ret, HQ. by split.
    + intros g' s6 HK6 HA6. by apply wp_ret, (Hlate _ _ g').
  - by apply displaced_answers in Hr.
Qed.
End Activate.
End Steps.
End Entry.
#[export] Hint Resolve stopped_in_journalled : core.
