(* ===== verification/WsLooking.v ===== *)
(** The parts of a native edit that only look: left alone by other processes,
    audits, inspections and rechecks change neither the disk nor the durable
    tables, whatever their calls return. *)
From stdpp Require Import gmap.
From S2P Require Import Prelude.
From S2P Require Import Effects.
From S2P Require Import WsTypes.
From S2P Require Import WsJournal.
From S2P Require Import WsDisk.
From S2P Require Import WsAudit.
From S2P Require Import WsYaml.
From S2P Require Import WsInspect.
From S2P Require Import WsEdit.
From S2P Require Import WsSelect.
From S2P Require Import WsStore.
From S2P Require Import WsCommit.
From S2P Require Import WsRun.
From S2P Require Import WsFacts.
From S2P Require Import WsSafety.

#[local] Open Scope Z_scope.

#[local] Existing Instance ws_db_error.

Section Looking.
Context `{Machine} `{Yaml} (policy : Policy).
Abbreviation X := (X (Selection := SelectionRows)).

Lemma looking_for_each {A} (f : A -> X unit) l : (forall a, looking (f a)) -> looking (for_each_x f l).
Proof. intros Hf. induction l as [|a l IH]; cbn; looks; done. Qed.

Lemma looking_audit_components parts fd prefix stat a : looking (audit_components policy parts fd prefix stat a : X _).
Proof. revert fd prefix stat a. induction parts as [|part parts IH]; intros; cbn; looks; apply IH. Qed.
Hint Resolve looking_audit_components : look.
Lemma looking_root : looking (look (fun d => (Ok (dk_root d), d)) : X Z).
Proof. by apply looking_look. Qed.
Lemma looking_same i : looking (look (fun d => (Ok i, d)) : X Z).
Proof. by apply looking_look. Qed.
Hint Resolve looking_root looking_same : look.
Lemma looking_open_read_handle path fd stat a : looking (open_read_handle path fd stat a : X _).
Proof. unfold open_read_handle. looks. Qed.
Hint Resolve looking_open_read_handle : look.
Lemma looking_auditPath path role reference r : looking (auditPath path role reference r policy : X _).
Proof. unfold auditPath. looks. Qed.
Hint Resolve looking_auditPath : look.

Lemma looking_confirmPath e r ds : looking (confirmPath policy e r ds : X _).
Proof. unfold confirmPath. looks. Qed.
Hint Resolve looking_confirmPath : look.
Lemma looking_finalConfirmation e r ds : looking (finalConfirmation policy e r ds : X _).
Proof. unfold finalConfirmation. looks. Qed.
Hint Resolve looking_finalConfirmation : look.
Lemma looking_final_confirmations l r ds : looking (final_confirmations policy l r ds : X _).
Proof. revert ds. induction l as [|e l IH]; intros ds; cbn; looks; apply IH. Qed.
Lemma looking_inspect_references l role r ds : looking (inspect_references policy l role r ds : X _).
Proof. revert ds. induction l as [|e l IH]; intros ds; cbn; looks; apply IH. Qed.
Lemma looking_readNativeReferences opened e w : looking (readNativeReferences policy opened e w : X _).
Proof. unfold readNativeReferences. looks. Qed.
Lemma looking_discover w r ds : looking (discoverConventional policy w r ds : X _).
Proof. unfold discoverConventional. looks. Qed.
Hint Resolve looking_final_confirmations looking_inspect_references looking_readNativeReferences looking_discover : look.
Lemma looking_inspect_configuration request ds : looking (inspect_configuration policy request ds : X _).
Proof. unfold inspect_configuration. looks. Qed.
Lemma looking_inspect_storage r ds : looking (inspect_storage policy r ds : X _).
Proof. unfold inspect_storage. looks. Qed.
Hint Resolve looking_inspect_configuration looking_inspect_storage : look.
Lemma looking_Inspect request : looking (Inspect policy request : X _).
Proof. unfold Inspect. looks. Qed.
Hint Resolve looking_Inspect : look.
Lemma looking_Verify reviewed : looking (Verify policy reviewed : X _).
Proof. unfold Verify. looks. Qed.
Hint Resolve looking_Verify : look.

Lemma looking_readSource e limit : looking (readSource policy e limit : X _).
Proof. unfold readSource. looks. Qed.
Hint Resolve looking_readSource : look.
Lemma looking_read_sources l : looking (read_sources policy l : X _).
Proof. induction l; cbn; looks; done. Qed.
Lemma looking_review_time r : looking (review_time r : X _).
Proof. unfold review_time. looks. Qed.
Hint Resolve looking_read_sources looking_review_time : look.
Lemma looking_snapshotSelection s : looking (snapshotSelection policy s : X _).
Proof. unfold snapshotSelection. looks. Qed.
Hint Resolve looking_snapshotSelection : look.

Lemma looking_auditCreatableTarget target : looking (auditCreatableTarget policy target : X _).
Proof. unfold auditCreatableTarget. looks. Qed.
Hint Resolve looking_auditCreatableTarget : look.
Lemma looking_audit_dotenv sources l r : looking (audit_dotenv policy sources l r : X _).
Proof. unfold audit_dotenv. looks. Qed.
Hint Resolve looking_audit_dotenv : look.
Lemma looking_audit_dotenvs sources l k : looking (audit_dotenvs policy sources l k : X _).
Proof. induction k; cbn; looks; done. Qed.
Lemma looking_audit_webroots l : looking (audit_webroots policy l : X _).
Proof. induction l; cbn; looks; done. Qed.
Lemma looking_returned {A} (r : result WsError A) : looking (returning r : X A).
Proof. apply looking_returning. Qed.
Hint Resolve looking_audit_dotenvs looking_audit_webroots looking_returned : look.
Lemma looking_AuditCandidate sources candidate l : looking (AuditCandidate policy sources candidate l : X _).
Proof. unfold AuditCandidate. looks. Qed.
Hint Resolve looking_AuditCandidate : look.

Lemma open_dir_looks path d : (sys_open_dir path d).2 = d.
Proof. unfold sys_open_dir. by repeat case_match. Qed.
Lemma looking_open_dir path : looking (look (sys_open_dir path) : X _).
Proof. apply looking_look, open_dir_looks. Qed.
Hint Resolve looking_open_dir : look.
Lemma looking_openReplacementParent target : looking (openReplacementParent policy target : X _).
Proof. unfold openReplacementParent. looks. Qed.
Hint Resolve looking_openReplacementParent : look.
Lemma looking_prepare_one id sources k r : looking (prepare_one policy id sources k r : X _).
Proof. unfold prepare_one. looks. Qed.

Lemma looking_recheck_source sources f : looking (recheck_source policy sources f : X _).
Proof. unfold recheck_source. looks. Qed.
Lemma looking_recheck_entry p : looking (recheck_entry p : X _).
Proof. unfold recheck_entry. looks. Qed.
Lemma looking_recheckSources sources l : looking (recheckSources policy sources l : X _).
Proof. unfold recheckSources. apply looking_bind; intros; apply looking_for_each; intros; [apply looking_recheck_source|apply looking_recheck_entry]. Qed.
Lemma looking_recheck_working sources : looking (recheck_working policy sources : X _).
Proof. unfold recheck_working. looks. Qed.
Lemma looking_recheck_candidate sources candidate l audit : looking (recheck_candidate policy sources candidate l audit : X _).
Proof. unfold recheck_candidate. looks. Qed.
Lemma looking_check_unreferenced prior l seen f : looking (check_unreferenced policy prior l seen f : X _).
Proof. unfold check_unreferenced. looks. Qed.
Hint Resolve looking_for_each looking_check_unreferenced : look.
Lemma looking_inspectCommitted prior audit candidate l : looking (inspectCommitted policy prior audit candidate l : X _).
Proof. unfold inspectCommitted. looks. Qed.
Lemma looking_Load euid : looking (database (Load euid) : X _).
Proof. apply looking_database. intros w. by rewrite (Load_same _ w (w_db w)). Qed.
Hint Resolve looking_Load : look.
Lemma looking_no_pending : looking (no_pending : X _).
Proof. unfold no_pending. looks. Qed.
End Looking.
#[export] Hint Resolve looking_recheckSources looking_recheck_working looking_recheck_candidate looking_inspectCommitted looking_no_pending looking_Load
  looking_AuditCandidate looking_prepare_one looking_auditPath looking_confirmPath looking_finalConfirmation looking_final_confirmations
  looking_inspect_references looking_readNativeReferences looking_discover looking_inspect_configuration looking_inspect_storage
  looking_Inspect looking_Verify looking_readSource looking_read_sources looking_review_time looking_snapshotSelection : look.

(** What an inspection that ends in an adoptable review has found out: every
    path of the review passed its audit, and again a second one. *)

Section Inspection.
Context `{Machine} `{Yaml} (policy : Policy) (d : disk).
Abbreviation X := (X (Selection := SelectionRows)).

(** On the disk [d], as long as nobody else changes it, a computation that
    looks returns values in [P]. *)
Definition gives {A} (m : X A) (P : A -> Prop) : Prop :=
  looking m /\ forall s a s', (quiet -> s_disk s = d) -> m s = (Some (Ok a), s') -> P a.

Lemma gives_bind {A B} (m : X A) (f : A -> X B) P Q :
  gives m P -> (forall a, looking (f a)) -> (forall a, P a -> gives (f a) Q) -> gives (m ≫= f) Q.
Proof.
  intros [Lm Hm] Lf Hf. split; [by apply looking_bind|]. intros s b s' Hs Hr. unfold mbind, X_bind in Hr. specialize (Hm s).
  pose proof (fun q => Lm q s) as Hl. destruct (m s) as [[[a|e]|] s1]; [|done..]. specialize (Hm a s1 Hs eq_refl).
  destruct (Hf a Hm) as [_ Hfa]. eapply Hfa; [|done]. intros q. destruct (Hl q) as [Hd _]. cbn in Hd. rewrite Hd. by apply Hs.
Qed.
Lemma gives_ret {A} (a : A) (P : A -> Prop) : P a -> gives (mret a) P.
Proof. intros Ha. split; [apply looking_ret|]. by intros s b s' _ [= <- _]. Qed.
Lemma gives_looking {A} (m : X A) : looking m -> gives m (fun _ => True).
Proof. by intros Hm. Qed.
Lemma gives_if {A} (b : bool) (m n : X A) P : (b = true -> gives m P) -> (b = false -> gives n P) -> gives (if b then m else n) P.
Proof. destruct b; auto. Qed.

(** Evidence that is safe only when its audit accepted it. *)
Definition vouched (r : pathRequirements) (path : bytes) (e : PathEvidence) : Prop :=
  pe_Safe e = true -> accepted policy r d path e.
(** The evidence or an unsafe copy of it. *)
Definition at_most (e e' : PathEvidence) : Prop := pe_Safe e' = true -> e' = e.

Lemma at_most_unsafe e e' : at_most e (set_safe false e').
Proof. by intros [=]. Qed.
Lemma at_most_refl e : at_most e e.
Proof. by intros _. Qed.
Lemma at_most_vouched r path e e' : vouched r path e -> at_most e e' -> vouched r path e'.
Proof. intros Hv Ha Hs. specialize (Ha Hs) as ->. by apply Hv. Qed.

Lemma gives_audit path role reference r : gives (auditPath path role reference r policy) (fun a => vouched r path (evidence a)).
Proof.
  split; [apply looking_auditPath|]. intros s a s' Hs Hr. pose proof (auditPath_post path role reference r policy s) as Hw.
  unfold wp in Hw. rewrite Hr in Hw. destruct Hw as [_ Hw]. intros Hsafe. destruct (Hw Hsafe) as [Ha _].
  destruct Ha. constructor; [done..|]. intros q. rewrite <- (Hs q). by apply ac_here.
Qed.
Lemma gives_confirm e r ds : gives (confirmPath policy e r ds) (fun o => at_most e o.1).
Proof.
  unfold confirmPath. apply gives_if; intros _; [by apply gives_ret|].
  eapply gives_bind; [apply gives_audit|intros; looks|]. intros a _. apply gives_if; intros _; apply gives_ret; [done|apply at_most_unsafe].
Qed.
Lemma gives_final e r ds : gives (finalConfirmation policy e r ds) (fun o => at_most e o.1).
Proof.
  unfold finalConfirmation. apply gives_if; intros _; [by apply gives_ret|].
  eapply gives_bind; [apply gives_confirm|intros; looks|]. intros [c ds'] _. apply gives_ret. cbn. destruct (pe_Safe c); [done|apply at_most_unsafe].
Qed.
Lemma gives_finals l r ds : gives (final_confirmations policy l r ds) (fun o => Forall2 at_most l o.1).
Proof.
  revert ds. induction l as [|e l IH]; intros ds; cbn; [by apply gives_ret|].
  eapply gives_bind; [apply gives_final|intros; looks|]. intros [e' ds'] He.
  eapply gives_bind; [apply IH|intros; looks|]. intros [l' ds2] Hl. apply gives_ret. by constructor.
Qed.
Lemma gives_references l role r ds :
  gives (inspect_references policy l role r ds) (fun o => Forall2 (vouched r) (resolved <$> l) o.1).
Proof.
  revert ds. induction l as [|x l IH]; intros ds; cbn; [by apply gives_ret|].
  eapply gives_bind; [apply gives_audit|intros; looks|]. intros a Ha.
  eapply gives_bind; [apply gives_confirm|intros; looks|]. intros [e ds'] He.
  eapply gives_bind; [apply IH|intros; looks|]. intros [rest ds2] Hr. apply gives_ret. cbn in *. constructor; [exact (at_most_vouched _ _ _ _ Ha He)|done].
Qed.

(** The configuration a request leads to. *)
Definition configuration_path (request : Request) (source : ConfigurationSource) : bytes :=
  match source with
  | ConfigurationConventionalYML => Join (rq_WorkingDirectory request) (to_bytes ".lego.yml")
  | ConfigurationConventionalYAML => Join (rq_WorkingDirectory request) (to_bytes ".lego.yaml")
  | _ => rq_ConfigurationPath request
  end.

Lemma gives_discover request r ds :
  gives (discoverConventional policy (rq_WorkingDirectory request) r ds) (fun o => vouched r (configuration_path request o.1.2) (evidence o.1.1)).
Proof.
  unfold discoverConventional. eapply gives_bind; [apply gives_audit|intros; looks|]. intros yml Hy.
  apply gives_if; intros _.
  - eapply gives_bind; [apply gives_looking, looking_auditPath|intros; looks|]. intros yaml _. by apply gives_ret.
  - eapply gives_bind; [apply gives_audit|intros; looks|]. intros yaml Hz. apply gives_if; intros _; [by apply gives_ret|].
    apply gives_ret. by destruct (_ && _).
Qed.

Lemma vouched_unsafe r path e : vouched r path (set_safe false e).
Proof. by intros [=]. Qed.
Lemma gives_inspect_configuration request ds :
  gives (inspect_configuration policy request ds) (fun o => vouched configurationRequirements (configuration_path request o.1.1.2) o.1.1.1).
Proof.
  unfold inspect_configuration.
  eapply gives_bind with (P := fun o => vouched configurationRequirements (configuration_path request o.1.2) (evidence o.1.1)); [|intros; looks|].
  { apply gives_if; intros _; [|apply gives_discover].
    eapply gives_bind; [apply gives_audit|intros; looks|]. intros a Ha. by apply gives_ret. }
  intros [[c source] ds1] Hc. cbn zeta. eapply gives_bind; [apply gives_looking, looking_readNativeReferences|intros; looks|].
  intros [references parsed] _. cbn zeta.
  assert (He : vouched configurationRequirements (configuration_path request source)
                 (if hasBlockingDiagnostics parsed then set_safe false (evidence c) else evidence c)).
  { destruct (hasBlockingDiagnostics parsed); [apply vouched_unsafe|done]. }
  apply gives_if; intros _; [|by apply gives_ret].
  eapply gives_bind; [apply gives_looking, looking_confirmPath|intros; looks|]. intros [confirmed ds2] _. apply gives_ret. cbn.
  destruct (pe_Safe confirmed); [done|apply vouched_unsafe].
Qed.
Lemma gives_inspect_storage reference ds :
  gives (inspect_storage policy reference ds) (fun o => vouched storageRequirements (resolved reference) o.1).
Proof.
  unfold inspect_storage. apply gives_if; intros _; [by apply gives_ret|].
  eapply gives_bind; [apply gives_audit|intros; looks|]. intros a Ha.
  eapply gives_bind; [apply gives_confirm|intros; looks|]. intros [e ds'] He. apply gives_ret. exact (at_most_vouched _ _ _ _ Ha He).
Qed.

(** Every path of the review is what its role requires. *)
Record trusted_review (request : Request) (review : Review) : Prop := mk_trusted_review {
  tr_working : accepted policy workingRequirements d (rq_WorkingDirectory request) (rv_WorkingDirectory review);
  tr_configuration : accepted policy configurationRequirements d (configuration_path request (rv_ConfigurationSource review)) (rv_Configuration review);
  tr_storage : accepted policy storageRequirements d (pe_Path (rv_Storage review)) (rv_Storage review);
  tr_dotenv : Forall (fun e => accepted policy dotenvRequirements d (pe_Path e) e) (rv_DotenvFiles review);
  tr_webroots : Forall (fun e => accepted policy webrootRequirements d (pe_Path e) e) (rv_Webroots review);
  tr_diagnostics : hasBlockingDiagnostics (rv_Diagnostics review) = false;
  tr_digest : rv_ReviewedEvidenceSHA256 review = ReviewFingerprint review;
}.

Lemma vouched_all r paths l : Forall2 (vouched r) paths l -> allSafe l = true -> Forall (fun e => accepted policy r d (pe_Path e) e) l.
Proof.
  unfold allSafe. induction 1 as [|path e paths l He Hl IH]; cbn; [by constructor|]. intros [Hs Ha]%andb_prop. constructor; [|by apply IH].
  specialize (He Hs). by rewrite (ac_path _ _ _ _ _ He).
Qed.
Lemma confirmed_all r paths l l' : Forall2 (vouched r) paths l -> Forall2 at_most l l' -> Forall2 (vouched r) paths l'.
Proof.
  intros HV. revert l'. induction HV as [|path e paths l He Hl IH]; intros l' HA; inversion HA; subst; constructor; [by eapply at_most_vouched|by apply IH].
Qed.

(** The fingerprint of a review does not cover the fingerprint itself. *)
Lemma fingerprint_of_itself source w c st dv wr ds a fp t :
  ReviewFingerprint (mk_review source w c st dv wr ds a fp t) = ReviewFingerprint (mk_review source w c st dv wr ds a [] t).
Proof. reflexivity. Qed.

Lemma gives_Inspect request : gives (Inspect policy request) (fun review => rv_Adoptable review = true -> trusted_review request review).
Proof.
  unfold Inspect. do 2 (eapply gives_bind; [apply gives_looking, looking_guard|intros; looks|]; intros _ _).
  eapply gives_bind; [apply gives_looking, looking_checkpoint|intros; looks|]. intros _ _.
  eapply gives_bind; [apply gives_looking, looking_now|intros; looks|]. intros observed _.
  eapply gives_bind; [apply gives_audit|intros; looks|]. intros working Hw.
  eapply gives_bind; [apply gives_confirm|intros; looks|]. intros [w1 ds1] Hw1. cbn zeta.
  eapply gives_bind; [apply gives_inspect_configuration|intros; looks|]. intros [[[c source] references] ds2] Hc.
  eapply gives_bind; [apply gives_inspect_storage|intros; looks|]. intros [st ds3] Hst.
  eapply gives_bind; [apply gives_references|intros; looks|]. intros [dv ds4] Hdv.
  eapply gives_bind; [apply gives_references|intros; looks|]. intros [wr ds5] Hwr.
  eapply gives_bind; [apply gives_final|intros; looks|]. intros [w2 ds6] Hw2.
  eapply gives_bind; [apply gives_final|intros; looks|]. intros [c2 ds7] Hc2.
  eapply gives_bind; [apply gives_final|intros; looks|]. intros [st2 ds8] Hst2.
  eapply gives_bind; [apply gives_finals|intros; looks|]. intros [dv2 ds9] Hdv2.
  eapply gives_bind; [apply gives_finals|intros; looks|]. intros [wr2 ds10] Hwr2.
  apply gives_ret. cbn [rv_Adoptable]. intros Ha. rewrite !andb_true_iff, negb_true_iff in Ha. destruct Ha as [[[[[S1 S2] S3] S4] S5] S6].
  constructor; cbn; [| | | | |done|by symmetry; apply fingerprint_of_itself].
  - exact (at_most_vouched _ _ _ _ (at_most_vouched _ _ _ _ Hw Hw1) Hw2 S1).
  - exact (at_most_vouched _ _ _ _ Hc Hc2 S2).
  - pose proof (at_most_vouched _ _ _ _ Hst Hst2 S3) as HA. cbn in HA. by rewrite (ac_path _ _ _ _ _ HA).
  - eapply vouched_all; [|done]. by eapply confirmed_all.
  - eapply vouched_all; [|done]. by eapply confirmed_all.
Qed.
End Inspection.
