(* ===== verification/WsCommitSafe.v ===== *)
(** A native edit of several files: the entries it works on stay apart, so
    what holds of one entry lifts to all of them; then staging, abandoning,
    activating and the whole commit. *)
From stdpp Require Import gmap.
From S2P Require Import Prelude.
From S2P Require Import Effects.
From S2P Require Import WsTypes.
From S2P Require Import WsJournal.
From S2P Require Import WsDisk.
From S2P Require Import WsAudit.
From S2P Require Import WsYaml.
From S2P Require Import WsInspect.
From S2P Require Import WsSelect.
From S2P Require Import WsStore.
From S2P Require Import WsEdit.
From S2P Require Import WsCommit.
From S2P Require Import WsRun.
From S2P Require Import WsFacts.
From S2P Require Import WsSafety.
From S2P Require Import WsLooking.

#[local] Open Scope Z_scope.

(** The ghost states of the entries, in order. *)
Record system (ts : list target) (gs : list ghost) (d : disk) : Prop := mk_system {
  sy_entries : Forall2 (entry_ok d) ts gs;
  sy_below : forall k g i, gs !! k = Some g -> inodes g i -> i < dk_next d;
  sy_apart : forall j k g g' i, j <> k -> gs !! j = Some g -> gs !! k = Some g' -> inodes g i -> inodes g' i -> False;
  sy_fresh : fresh_above d;
}.

(** Targets whose names do not clash. *)
Record separate (ts : list target) : Prop := mk_separate {
  se_names : forall k t, ts !! k = Some t -> apart t /\ is_cleanup_name (t_stage t) = false;
  se_apart : forall j k t t', j <> k -> ts !! j = Some t -> ts !! k = Some t' -> t_dir t = t_dir t' ->
    forall x, x ∈ own_names t -> x ∉ own_names t';
}.

Lemma NoDup_concat {A} (l : list (list A)) : NoDup (concat l) ->
  (forall k x, l !! k = Some x -> NoDup x) /\
  (forall j k x y, j <> k -> l !! j = Some x -> l !! k = Some y -> forall a, a ∈ x -> a ∉ y).
Proof.
  assert (Hin : forall (m : list (list A)) k y a, m !! k = Some y -> a ∈ y -> a ∈ concat m).
  { intros m k y a Hk Ha. apply list_elem_of_In, in_concat. exists y. split; [|by apply list_elem_of_In].
    by eapply list_elem_of_In, list_elem_of_lookup_2. }
  induction l as [|z l IH]; cbn; [by split|]. intros (Hz & Hd & Hl)%NoDup_app. destruct (IH Hl) as [I1 I2]. split.
  - intros [|k] x Hk; [by injection Hk as <-|by eapply I1].
  - intros [|j] [|k] x y Hjk Hx Hy a Ha Hb; cbn in *; [done|injection Hx as <-|injection Hy as <-|by apply (I2 j k x y (fun E => Hjk (f_equal S E)) Hx Hy a Ha)].
    + by apply (Hd a Ha), (Hin l k y).
    + by apply (Hd a Hb), (Hin l j x).
Qed.
(** Separation can be evaluated. *)
Lemma separate_check ts :
  bool_decide (NoDup (concat (own_names <$> ts))) && forallb (fun t => negb (is_cleanup_name (t_stage t))) ts = true -> separate ts.
Proof.
  intros [Hn%bool_decide_eq_true Hc]%andb_true_iff. apply NoDup_concat in Hn as [H1 H2]. rewrite forallb_forall in Hc. constructor.
  - intros k t Ht. split; [eapply (H1 k), list_lookup_fmap_Some; by eexists|].
    by eapply negb_true_iff, Hc, list_elem_of_In, list_elem_of_lookup_2.
  - intros j k t t' Hjk Hj Hk _. eapply (H2 j k); [done|..]; apply list_lookup_fmap_Some; by eexists.
Qed.

(** What the entry with ghost [g] may use from the disk [d] on. *)
Definition reach (g : ghost) (d : disk) (i : Z) : Prop := inodes g i \/ dk_next d <= i.

Section Lift.
Context {Selection : Type} (ts : list target) (sep : separate ts).

Lemma focus gs d (w : Db Selection) k t g :
  system ts gs d -> pending w -> ts !! k = Some t -> gs !! k = Some g -> located d (reach g d) t g d w.
Proof.
  intros [E B A F] Hp Ht Hg. constructor; [|apply frame_refl|done| |done].
  - by eapply (Forall2_lookup_lr _ _ _ _ _ _ E).
  - intros i Hi. split; [by left|by eapply B].
Qed.

Lemma unfocus gs d d' (w : Db Selection) k t g g' :
  system ts gs d -> ts !! k = Some t -> gs !! k = Some g -> located d (reach g d) t g' d' w -> system ts (<[k:=g']> gs) d'.
Proof.
  intros [E B A F] Ht Hg [E' F' Hf Ho Hp]. pose proof (fr_next _ _ _ _ _ F') as Hnext.
  assert (Hclash : forall j g2 i, j <> k -> gs !! j = Some g2 -> inodes g2 i -> ~ reach g d i).
  { intros j g2 i Hjk Hj Hi [Hi'|Hi']; [by eapply (A j k)|]. specialize (B _ _ _ Hj Hi). lia. }
  constructor; [| | |done].
  - apply Forall2_same_length_lookup. split; [rewrite length_insert; by eapply Forall2_length|].
    intros j t2 g2 Hj2 Hg2. destruct (decide (j = k)) as [->|Hjk].
    + rewrite list_lookup_insert_eq in Hg2 by by eapply lookup_lt_Some. by simplify_eq.
    + rewrite list_lookup_insert_ne in Hg2 by done. eapply (frame_entry _ _ _ d d'); [done|by eapply (Forall2_lookup_lr _ _ _ _ _ _ E)| |].
      * intros Hd x Hx. eapply (se_apart _ sep j k); [done..|by rewrite Hd|done].
      * intros i Hi. eapply Hclash; [done..|]. by right.
  - intros j g2 i Hg2 Hi. destruct (decide (j = k)) as [->|Hjk].
    + rewrite list_lookup_insert_eq in Hg2 by by eapply lookup_lt_Some. simplify_eq. by apply Ho.
    + rewrite list_lookup_insert_ne in Hg2 by done. specialize (B _ _ _ Hg2 Hi). lia.
  - assert (Hone : forall j g2 i, j <> k -> gs !! j = Some g2 -> inodes g' i -> inodes g2 i -> False).
    { intros j g2 i Hjk Hj Hi Hi2. by eapply Hclash, Ho. }
    intros j l g1 g2 i Hjl H1 H2 I1 I2. destruct (decide (j = k)) as [->|Hj], (decide (l = k)) as [->|Hl]; [done|..].
    + rewrite list_lookup_insert_eq in H1 by by eapply lookup_lt_Some. rewrite list_lookup_insert_ne in H2 by done. simplify_eq. eauto.
    + rewrite list_lookup_insert_eq in H2 by by eapply lookup_lt_Some. rewrite list_lookup_insert_ne in H1 by done. simplify_eq. eauto.
    + rewrite list_lookup_insert_ne in H1, H2 by done. eauto.
Qed.
End Lift.

(** Every value the target may have is its old or its new content, whole. *)
Definition good (t : target) (keep : list (option (Z * bytes))) : Prop :=
  forall v, v ∈ keep -> v = t_old t \/ exists c, v = Some (c, t_new t).
Definition whole (t : target) (g : ghost) : Prop := good t (g_keep g).

Definition idle_entry (t : target) (g : ghost) (p : preparedReplacement) : Prop := g = idle (t_old t) /\ about t p /\ activated p = false.
Definition staged_entry (t : target) (g : ghost) (p : preparedReplacement) : Prop :=
  staged_ghost t (t_old t) g /\ about t p /\ activated p = false.
Definition without_ready (g : ghost) : ghost := mk_ghost (g_keep g) (g_place g) (g_clean g) None.
Definition removable (t : target) (g : ghost) (p : preparedReplacement) : Prop := abandoned (t_old t) (without_ready g) /\ about t p.
Definition old_only (t : target) (g : ghost) : Prop := g_keep g = [t_old t].
Definition untouched (t : target) (g : ghost) : Prop := g = idle (t_old t).
Definition renewed (t : target) (g : ghost) : Prop := exists c, g = replaced_by_new t c.

Lemma good_old t : good t [t_old t].
Proof. intros v ->%list_elem_of_singleton. by left. Qed.
Lemma good_new t c : good t [Some (c, t_new t)].
Proof. intros v ->%list_elem_of_singleton. eauto. Qed.
Lemma good_both t c : good t [t_old t; Some (c, t_new t)].
Proof. intros v [->| ->%list_elem_of_singleton]%elem_of_cons; eauto. Qed.
Lemma old_whole t g : old_only t g -> whole t g.
Proof. unfold whole. intros ->. apply good_old. Qed.
Lemma idle_removable t g p : idle_entry t g p -> removable t g p.
Proof. by intros (-> & Hp & _). Qed.
Lemma staged_removable t g p : staged_entry t g p -> removable t g p.
Proof. intros ((c & -> & Hc) & Hp & _). by split; [split_and!|]. Qed.
Lemma removable_whole t g p : removable t g p -> whole t g.
Proof. intros ((Hk & _) & _). by apply old_whole. Qed.
Lemma renewed_whole t g : renewed t g -> whole t g.
Proof. intros (c & ->). apply good_new. Qed.

Lemma Forall3_by_lookup {A B C} (P : A -> B -> C -> Prop) l k m :
  length l = length k -> length l = length m -> (forall i x y z, l !! i = Some x -> k !! i = Some y -> m !! i = Some z -> P x y z) -> Forall3 P l k m.
Proof.
  revert k m. induction l as [|x l IH]; intros [|y k] [|z m] L1 L2 Hi; try done; constructor.
  - by apply (Hi 0%nat).
  - apply IH; [by injection L1|by injection L2|]. intros i. apply (Hi (S i)).
Qed.

(** One entry of several at work, with [K] telling the contents a target may
    have when the process stops. *)
Section Entries.
Context `{Machine} (alone : quiet) (ts : list target) (sep : separate ts).
Context (K : target -> list (option (Z * bytes)) -> Prop).
Abbreviation X := (X (Selection := SelectionRows)).
Abbreviation sys := (sys (Selection := SelectionRows)).
Abbreviation kept_whole := (fun t g => K t (g_keep g)).

Definition Within (gs : list ghost) (s : sys) : Prop := system ts gs (s_disk s) /\ pending (tables s).
Definition halted_in (d : disk) (w : Db SelectionRows) : Prop := exists gs, system ts gs d /\ pending w /\ Forall2 kept_whole ts gs.

Lemma pending_journalled (P : disk -> Prop) : Journalled (fun d (w : Db SelectionRows) => P d /\ pending w).
Proof. intros d ? <- w w' [Hj _] [HP Hp]. split; [done|]. unfold pending in *. by rewrite Hj. Qed.
Lemma halted_journalled : Journalled halted_in.
Proof.
  intros d ? <- w w' Hj (gs & HS & Hp & Hw). exists gs.
  by destruct (pending_journalled (system ts gs) _ _ eq_refl _ _ Hj (conj HS Hp)).
Qed.
Hint Resolve halted_journalled : core.

Lemma within_halted gs s : Within gs s -> Forall2 kept_whole ts gs -> halted_in (s_disk s) (tables s).
Proof. intros [] ?. by exists gs. Qed.

(** One entry at work. *)
Lemma wp_at_entry {A} (m : X A) Q gs s k t g :
  Within gs s -> ts !! k = Some t -> gs !! k = Some g -> Forall2 kept_whole ts gs ->
  wp m Q (stopped_in (s_disk s) (reach g (s_disk s)) t (K t)) s -> wp m Q halted_in s.
Proof.
  intros [HS Hp] Ht Hg Hw Hm. eapply wp_mono; [done|done|]. intros d w (g' & Hk & HL). exists (<[k:=g']> gs).
  split; [by eapply unfocus|]. split; [apply HL|].
  apply Forall2_same_length_lookup. split; [rewrite length_insert; by eapply Forall2_length|]. intros j t2 g2 Hj2 Hg2.
  destruct (decide (j = k)) as [->|Hjk].
  - rewrite list_lookup_insert_eq in Hg2 by by eapply lookup_lt_Some. by simplify_eq.
  - rewrite list_lookup_insert_ne in Hg2 by done. by eapply (Forall2_lookup_lr _ _ _ _ _ _ Hw).
Qed.

Lemma within_at gs s k t g : Within gs s -> ts !! k = Some t -> gs !! k = Some g -> At (s_disk s) (reach g (s_disk s)) t g s.
Proof. intros [HS Hp] Ht Hg. by eapply focus. Qed.
Lemma at_within gs (s s' : sys) k t g g' :
  Within gs s -> ts !! k = Some t -> gs !! k = Some g -> At (s_disk s) (reach g (s_disk s)) t g' s' -> Within (<[k:=g']> gs) s'.
Proof. intros [HS Hp] Ht Hg HA. split; [by eapply unfocus|apply HA]. Qed.

Lemma wp_look_within {A} (m : X A) gs Q s :
  Within gs s -> Forall2 kept_whole ts gs -> looking m -> (forall r s', Within gs s' -> Q r s') -> wp m Q halted_in s.
Proof.
  intros HW Hw Hm HQ. apply wp_looking; [done..|by eapply within_halted|done|]. intros r s' _ [Hd Ht]. apply HQ.
  unfold Within. rewrite Hd. exact (pending_journalled (system ts gs) _ _ eq_refl _ _ Ht HW).
Qed.

(** The entry between those before and those after it. *)
Lemma wp_middle {A} (m : X A) Q s ts1 t ts2 gs1 g gs2 :
  ts = ts1 ++ t :: ts2 -> length ts1 = length gs1 -> Within (gs1 ++ g :: gs2) s -> Forall2 kept_whole ts (gs1 ++ g :: gs2) ->
  let own := reach g (s_disk s) in let Here := At (s_disk s) own t in
  ((forall i, dk_next (s_disk s) <= i -> own i) -> apart t -> is_cleanup_name (t_stage t) = false ->
   Here g s -> (forall g' s', Here g' s' -> Within (gs1 ++ g' :: gs2) s') -> wp m Q (stopped_in (s_disk s) own t (K t)) s) ->
  wp m Q halted_in s.
Proof.
  intros Ets El HW Hw own Here Hm.
  assert (Ht : ts !! length gs1 = Some t) by (rewrite Ets, <- El; apply list_lookup_middle; done).
  assert (Hg : (gs1 ++ g :: gs2) !! length gs1 = Some g) by by apply list_lookup_middle.
  eapply wp_at_entry; [done..|]. destruct (se_names _ sep _ _ Ht). apply Hm; [by right|done|done|by eapply within_at|].
  intros g' s' HA. eapply at_within in HA; [|done..]. by rewrite insert_app_r_alt, Nat.sub_diag in HA.
Qed.

End Entries.
Lemma forall3_l {A B C} (P : A -> B -> C -> Prop) (R : A -> B -> Prop) l k m : (forall x y z, P x y z -> R x y) -> Forall3 P l k m -> Forall2 R l k.
Proof. intros HP. induction 1; constructor; eauto. Qed.

Lemma middle2 ts (R : target -> ghost -> Prop) ts1 t ts2 gs1 g gs2 :
  ts = ts1 ++ t :: ts2 -> Forall2 R ts1 gs1 -> R t g -> Forall2 R ts2 gs2 -> Forall2 R ts (gs1 ++ g :: gs2).
Proof. intros -> ? ? ?. apply Forall2_app; [done|by constructor]. Qed.
Lemma middle3 ts (R : target -> ghost -> preparedReplacement -> Prop) ts1 t ts2 gs1 g gs2 ps1 p ps2 :
  ts = ts1 ++ t :: ts2 -> Forall3 R ts1 gs1 ps1 -> R t g p -> Forall3 R ts2 gs2 ps2 -> Forall3 R ts (gs1 ++ g :: gs2) (ps1 ++ p :: ps2).
Proof. intros -> ? ? ?. apply Forall3_app; [done|by constructor]. Qed.

Section Loops.
Context `{Machine} `{Yaml} (alone : quiet) (ts : list target) (sep : separate ts).
Abbreviation X := (X (Selection := SelectionRows)).
Abbreviation sys := (sys (Selection := SelectionRows)).
Abbreviation Within := (Within ts).
Definition halted : disk -> Db SelectionRows -> Prop := halted_in ts good.

(** Staging ends with every candidate complete or with entries that can be
    cleaned up. *)
Lemma wp_stage_all id todo : forall ts1 gs1 staged ts2 gs2 Q s,
  ts = ts1 ++ ts2 -> Within (gs1 ++ gs2) s -> Forall3 staged_entry ts1 gs1 staged -> Forall3 idle_entry ts2 gs2 todo ->
  (forall r gs ps s', Within gs s' -> match r with Ok _ => Forall3 staged_entry ts gs ps | Err _ => Forall3 removable ts gs ps end -> Q (Ok (r, ps)) s') ->
  (forall e gs s', Within gs s' -> Forall2 whole ts gs -> Q (Err e) s') -> wp (stage_all id staged todo) Q halted s.
Proof.
  induction todo as [|p todo IH]; intros ts1 gs1 staged ts2 gs2 Q s Ets HW H1 H2 HQ He; inversion H2; subst.
  - rewrite !app_nil_r in *. rewrite <- Ets in H1. eapply wp_ret, HQ; [done|exact H1].
  - rename l into ts2, k into gs2, x into t, y into g. cbn. pose proof (Forall3_length_lm _ _ _ _ H1) as El.
    match goal with Hi : idle_entry t g p, Ht : Forall3 idle_entry ts2 gs2 todo |- _ => rename Hi into Hidle, Ht into Htodo end.
    assert (W1 : Forall2 whole ts1 gs1) by (eapply forall3_l, H1; intros; by eapply removable_whole, staged_removable).
    assert (W2 : Forall2 whole ts2 gs2) by (eapply forall3_l, Htodo; intros; by eapply removable_whole, idle_removable).
    assert (R1 : Forall3 removable ts1 gs1 staged) by (eapply Forall3_impl, staged_removable; done).
    assert (R2 : Forall3 removable ts2 gs2 todo) by (eapply Forall3_impl, idle_removable; done).
    assert (Hsw : forall g' p', staged_entry t g' p' -> Forall2 whole ts (gs1 ++ g' :: gs2)).
    { intros g' p' Hs. eapply middle2; [done..| |done]. by eapply removable_whole, staged_removable. }
    apply wp_bind. eapply (wp_middle ts sep good _ _ _ ts1 t ts2 gs1 g gs2); [done..| |].
    { eapply middle2; [done..| |done]. by eapply removable_whole, idle_removable. }
    intros own_new names ncl HA Hback. destruct Hidle as (-> & Hp & Hact).
    eapply (wp_stageCandidate alone _ _ own_new t names ncl); [done|apply good_old|done|].
    intros r p' g' s' [Ha Hact' Hst] HA'. apply Hback in HA'. destruct r as [[]|e].
    + assert (Hse : staged_entry t g' p') by (split_and!; [done..|congruence]).
      apply wp_bind, wp_mapping. eapply (wp_look_within alone ts good); [exact HA'|by eapply Hsw|apply looking_checkpoint|].
      intros r s2 HW2. destruct r; [|by eapply He, Hsw].
      eapply (IH (ts1 ++ [t]) (gs1 ++ [g']) _ ts2 gs2); [by rewrite <- app_assoc|by rewrite <- app_assoc| |done..].
      apply Forall3_app; [done|]. constructor; [done|constructor].
    + apply wp_ret. eapply HQ; [done|]. eapply middle3; [done..| |done].
      destruct Hst as (Hk & Hr & Hpl). by split.
Qed.

(** Abandoning an edit: when no entry reports an error, nothing of it is
    left. *)
Lemma untouched_old t g : untouched t g -> old_only t g.
Proof. by intros ->. Qed.
Lemma removable_old t g p : removable t g p -> old_only t g.
Proof. by intros ((Hk & _) & _). Qed.
Definition abandoning (last : option WsError) (ts : list target) (gs : list ghost) : Prop :=
  Forall2 old_only ts gs /\ (last = None -> Forall2 untouched ts gs).

Lemma wp_discard_entries l : forall last ts1 gs1 ts2 gs2 Q s,
  ts = ts1 ++ ts2 -> Within (gs1 ++ gs2) s -> abandoning last ts1 gs1 -> Forall3 removable ts2 gs2 l ->
  (forall e gs s', Within gs s' -> abandoning e ts gs -> Q (Ok e) s') ->
  (forall e gs s', Within gs s' -> Forall2 old_only ts gs -> Q (Err e) s') -> wp (discard_entries last l) Q halted s.
Proof.
  induction l as [|p l IH]; intros last ts1 gs1 ts2 gs2 Q s Ets HW [O1 U1] H2 HQ He; inversion H2; subst.
  - rewrite !app_nil_r in *. eapply wp_ret, HQ; [done|]. by rewrite Ets.
  - rename l0 into ts2, k into gs2, x into t, y into g. cbn. pose proof (Forall2_length _ _ _ O1) as El.
    match goal with Hi : removable t g p, Ht : Forall3 removable ts2 gs2 l |- _ => rename Hi into Hrem, Ht into Htodo end.
    assert (O2 : Forall2 old_only ts2 gs2) by (eapply forall3_l, Htodo; intros; by eapply removable_old).
    apply wp_bind. eapply (wp_middle ts sep good _ _ _ ts1 t ts2 gs1 g gs2); [done..| |].
    { eapply Forall2_impl; [|apply old_whole]. eapply middle2; [done..|by eapply removable_old|done]. }
    intros own_new names ncl HA Hback. destruct Hrem as (Hab & Hp). apply drop_ready in HA.
    assert (Hnext : forall last' g' s', At (s_disk s) (reach g (s_disk s)) t g' s' -> old_only t g' ->
      (last' = None -> last = None /\ untouched t g') -> wp (discard_entries last' l) Q halted s').
    { intros last' g' s' HA' Ho Hu. eapply (IH last' (ts1 ++ [t]) (gs1 ++ [g']) ts2 gs2); [by rewrite <- app_assoc|..].
      - rewrite <- app_assoc. by apply Hback.
      - split; [apply Forall2_app; [done|by constructor]|]. intros [-> Hu']%Hu. apply Forall2_app; [by apply U1|by constructor].
      - done.
      - done.
      - done. }
    eapply (wp_discard_entry alone _ _ own_new t names ncl _ _ (t_old t) (without_ready g)); [done|apply good_old|done|done| |].
    + intros s' HA'. by apply (Hnext last (idle (t_old t))).
    + intros r s' g' Hr Ho HA'. destruct r as [[e|]|e]; [by apply (Hnext (Some e) g')|done|].
      eapply He; [by apply Hback|]. by eapply middle2.
Qed.

(** A stored journal that was cleared. *)
Lemma wp_discardPrepared j l gs Q (C : disk -> Db SelectionRows -> Prop) s :
  Within gs s -> Forall3 removable ts gs l -> (forall d w, halted d w -> C d w) ->
  (forall e gs s', Within gs s' -> Forall2 whole ts gs -> Q (Err e) s') ->
  (forall gs s', system ts gs (s_disk s') -> Forall2 untouched ts gs -> Q (Ok tt) s') -> wp (discardPrepared j l) Q C s.
Proof.
  intros HW Hl HC He Ho. unfold discardPrepared. apply wp_bind.
  eapply wp_mono; [eapply (wp_discard_entries l None [] [] ts gs)| |exact HC].
  - done.
  - done.
  - by split.
  - done.
  - intros e gs' s' HW' [Hold Hun]. instantiate (1 := fun r s' => exists gs', Within gs' s' /\ Forall2 old_only ts gs'
      /\ match r with Ok None => Forall2 untouched ts gs' | _ => True end). exists gs'. split_and!; [done..|]. destruct e; [done|by apply Hun].
  - intros e gs' s' HW' Hold. by exists gs'.
  - intros r s' (gs' & HW' & Hold & Hr). assert (Hw : Forall2 whole ts gs') by (eapply Forall2_impl, old_whole; done).
    destruct r as [[e|]|e]; [by eapply wp_raise, He| |by eapply He].
    apply wp_database; [by eapply HC, (within_halted ts good)|]. intros n. pose proof (Clear_outcome (TransactionID j) (s_db s')) as Hc.
    destruct (Clear _ _) as [[[]|e] w']; cbn; [by eapply (Ho gs'); [apply HW'|]|].
    eapply (He e gs'); [|done]. destruct HW'. split; [done|]. unfold tables in *. cbn. by rewrite Hc.
Qed.

(** Activating: every target new, every entry still removable, or the journal
    stays for recovery with every target whole. *)
Lemma wp_activate_all id todo : forall ts1 gs1 replaced ts2 gs2 Q s,
  ts = ts1 ++ ts2 -> Within (gs1 ++ gs2) s -> Forall2 renewed ts1 gs1 -> length replaced = length ts1 -> Forall3 staged_entry ts2 gs2 todo ->
  (forall r gs ps s', Within gs s' -> match r with Ok _ => Forall2 renewed ts gs | Err _ => Forall3 removable ts gs ps end -> Q (Ok (r, ps)) s') ->
  (forall e gs s', Within gs s' -> Forall2 whole ts gs -> Q (Err e) s') -> wp (activate_all id replaced todo) Q halted s.
Proof.
  induction todo as [|p todo IH]; intros ts1 gs1 replaced ts2 gs2 Q s Ets HW H1 Hlen H2 HQ He; inversion H2; subst.
  - rewrite !app_nil_r in *. rewrite <- Ets in H1. by eapply wp_ret, HQ.
  - rename l into ts2, k into gs2, x into t, y into g. cbn. pose proof (Forall2_length _ _ _ H1) as El.
    match goal with Hi : staged_entry t g p, Ht : Forall3 staged_entry ts2 gs2 todo |- _ => rename Hi into Hst, Ht into Htodo end.
    assert (W1 : Forall2 whole ts1 gs1) by (eapply Forall2_impl, renewed_whole; done).
    assert (W2 : Forall2 whole ts2 gs2) by (eapply forall3_l, Htodo; intros; by eapply removable_whole, staged_removable).
    assert (Hw : forall g', whole t g' -> Forall2 whole ts (gs1 ++ g' :: gs2)) by by intros; eapply middle2.
    assert (Hg : Forall2 whole ts (gs1 ++ g :: gs2)) by by eapply Hw, removable_whole, staged_removable.
    apply wp_bind, wp_mapping. eapply (wp_look_within alone ts good); [exact HW|done|apply looking_checkpoint|]. clear s HW. intros r s HW.
    destruct r; [|by eapply He]. apply wp_bind. eapply (wp_middle ts sep good _ _ _ ts1 t ts2 gs1 g gs2); [done..|].
    intros own_new names ncl HA Hback. destruct Hst as ((c & -> & Hc) & Hp & Hact).
    eapply (wp_activateCandidate alone _ _ own_new t names ncl _ (t_old t) c Hc); [apply good_old|apply good_both|apply good_new|done..|].
    intros r p' s' Hr. destruct r as [[]|e]; unfold activation in Hr.
    + apply Hback in Hr. eapply (IH (ts1 ++ [t]) (gs1 ++ [_]) _ ts2 gs2);
        [by rewrite <- app_assoc|rewrite <- app_assoc; exact Hr| | |done..].
      * apply Forall2_app; [done|]. constructor; [by exists c|constructor].
      * rewrite !length_app. cbn. lia.
    + destruct (activated p') eqn:Ea.
      * destruct Hr as (g' & Hg' & HA'). apply Hback in HA'. rewrite andb_false_r. by eapply wp_raise, He, Hw.
      * destruct Hr as [Hp' HA']. apply Hback in HA'. destruct (blen replaced =? 0) eqn:El0; cbn [negb andb]; [|by eapply wp_raise, He].
        apply Z.eqb_eq in El0. destruct replaced; [|unfold blen in El0; cbn in El0; lia]. destruct ts1; [|done]. destruct gs1; [|done].
        cbn in Ets. apply wp_ret. eapply HQ; [done|]. cbn. rewrite Ets. constructor.
        -- apply staged_removable. by split; [exists c|].
        -- eapply Forall3_impl; [exact Htodo|apply staged_removable].
Qed.

(** ** The whole commit *)

(** With a journal every target is whole; without one all targets are as they
    were or all are new, and nothing else is left in their directories. *)
Definition consistent (d : disk) (w : Db SelectionRows) : Prop :=
  exists gs, system ts gs d /\ (Forall2 untouched ts gs \/ (pending w /\ Forall2 whole ts gs) \/ (~ pending w /\ Forall2 renewed ts gs)).
Definition committed (d : disk) (w : Db SelectionRows) : Prop := ~ pending w /\ exists gs, system ts gs d /\ Forall2 renewed ts gs.
Definition Idle (s : sys) : Prop := exists gs, system ts gs (s_disk s) /\ Forall2 untouched ts gs.

Lemma halted_consistent d w : halted d w -> consistent d w.
Proof. intros (gs & HS & Hp & Hw). exists gs. split; [done|]. by right; left. Qed.
Lemma within_consistent gs s : Within gs s -> Forall2 whole ts gs -> consistent (s_disk s) (tables s).
Proof. intros HW Hw. by eapply halted_consistent, (within_halted ts good). Qed.
Lemma idle_consistent s : Idle s -> consistent (s_disk s) (tables s).
Proof. intros (gs & HS & Hu). exists gs. split; [done|by left]. Qed.

Lemma consistent_journalled : Journalled consistent.
Proof. intros d ? <- w w' [Hj _] (gs & HS & Hc). exists gs. split; [done|]. unfold pending in *. by rewrite Hj. Qed.
Hint Resolve consistent_journalled : core.

Lemma wp_look_idle {A} (m : X A) Q s :
  Idle s -> looking m -> (forall r s', m s = (Some r, s') -> s_disk s' = s_disk s -> Idle s' -> Q r s') -> wp m Q consistent s.
Proof.
  intros HI Hm HQ. apply wp_looking; [done..|by apply idle_consistent|done|]. intros r s' Hr [Hd Ht]. apply HQ; [done..|].
  unfold Idle. by rewrite Hd.
Qed.
Lemma wp_within {A} (m : X A) Q s : wp m Q halted s -> wp m Q consistent s.
Proof. intros Hm. eapply wp_mono; [exact Hm|done|apply halted_consistent]. Qed.

(** Errors before the first replacement. *)
Lemma wp_abort {A} j ps cause gs (Q : result WsError A -> sys -> Prop) s :
  Within gs s -> Forall3 removable ts gs ps -> (forall e s', consistent (s_disk s') (tables s') -> Q (Err e) s') ->
  wp (abortBeforeReplacement j ps cause) Q consistent s.
Proof.
  intros HW Hr HQ. unfold abortBeforeReplacement. apply wp_bind, wp_catch.
  eapply wp_discardPrepared; [done|done|apply halted_consistent|..].
  - intros e gs' s' HW' Hw. by eapply wp_raise, HQ, within_consistent.
  - intros gs' s' HS Hu. apply wp_raise, HQ, idle_consistent. by exists gs'.
Qed.

Lemma wp_or_abort {A} j ps (m : X A) gs Q s :
  Within gs s -> Forall3 staged_entry ts gs ps -> looking m \/ (exists db, m = database db /\ keeps_pending db) ->
  (forall e s', consistent (s_disk s') (tables s') -> Q (Err e) s') -> (forall a s', Within gs s' -> Q (Ok a) s') ->
  wp (or_abort j ps m) Q consistent s.
Proof.
  intros HW Hst Hm He Ho. assert (Hr : Forall3 removable ts gs ps) by (eapply Forall3_impl, staged_removable; done).
  assert (Hw : Forall2 whole ts gs) by (eapply forall3_l, Hr; intros; by eapply removable_whole).
  assert (Hnext : forall r s', Within gs s' -> wp (match r with Ok a => mret a | Err cause => abortBeforeReplacement j ps cause end) Q consistent s').
  { intros [a|e] s' HW'; [by apply wp_ret, Ho|by eapply wp_abort]. }
  unfold or_abort. apply wp_bind, wp_catch. destruct Hm as [Hm|(db & -> & Hk)].
  - apply wp_within. by eapply (wp_look_within alone ts good).
  - apply wp_database; [by eapply within_consistent|]. intros n. apply Hnext. destruct HW. split; [done|]. by apply Hk.
Qed.

Lemma wp_authorize policy guard id j sources candidate replacements audit ps gs Q s :
  Within gs s -> Forall3 staged_entry ts gs ps -> looking guard ->
  (forall e s', consistent (s_disk s') (tables s') -> Q (Err e) s') -> (forall s', Within gs s' -> Q (Ok tt) s') ->
  wp (authorize policy guard id j sources candidate replacements audit ps) Q consistent s.
Proof.
  intros HW Hst Hguard He Ho. unfold authorize.
  assert (Hr : Forall3 removable ts gs ps) by (eapply Forall3_impl, staged_removable; done).
  assert (Hw : Forall2 whole ts gs) by (eapply forall3_l, Hr; intros; by eapply removable_whole).
  apply wp_bind. eapply wp_or_abort; [done..|left; apply looking_recheckSources|done|]. clear s HW. intros _ s HW.
  apply wp_bind. eapply wp_or_abort; [done..|right; eexists; split; [done|apply SetPhase_keeps]|done|]. clear s HW. intros _ s HW.
  apply wp_bind, wp_mapping, wp_within. eapply (wp_look_within alone ts good); [exact HW|done|apply looking_checkpoint|]. clear s HW. intros r s HW.
  destruct r; [|by eapply He, within_consistent].
  apply wp_bind. eapply wp_or_abort; [done..|right; eexists; split; [done|apply SetPhase_keeps]|done|]. clear s HW. intros _ s HW.
  apply wp_bind. eapply wp_or_abort; [done..|by left|done|]. clear s HW. intros _ s HW.
  apply wp_bind. eapply wp_or_abort; [done..|left; apply looking_recheckSources|done|]. clear s HW. intros _ s HW.
  apply wp_bind. eapply wp_or_abort; [done..|left; apply looking_recheck_working|done|]. clear s HW. intros _ s HW.
  eapply wp_or_abort; [done..|left; apply looking_recheck_candidate|done|]. clear s HW. intros [] s HW. by apply Ho.
Qed.

(** What follows the last activation, with any final inspection [m]. *)
Definition finalize_with (id : bytes) (m : X Selection) : X Selection :=
  _ ← mapping (fun _ => ErrRecoveryRequired) (database (SetPhase service_uid id JournalFinalizing));
  _ ← mapping (fun _ => ErrRecoveryRequired) inject;
  selection ← mapping (Joined ErrRecoveryRequired) m;
  _ ← mapping (fun _ => ErrRecoveryRequired) (database (FinalizeEdit selection id));
  mret selection.
Lemma wp_finalize_with id (m : X Selection) gs Q s :
  Within gs s -> Forall2 renewed ts gs -> looking m -> (forall e s', consistent (s_disk s') (tables s') -> Q (Err e) s') ->
  (forall sel s', committed (s_disk s') (tables s') -> Q (Ok sel) s') -> wp (finalize_with id m) Q consistent s.
Proof.
  intros HW Hn Hm He Ho. assert (Hw : Forall2 whole ts gs) by (eapply Forall2_impl, renewed_whole; done).
  apply wp_bind, wp_mapping, wp_database; [by eapply within_consistent|]. intros n.
  assert (HW' : Within gs (mk_sys (s_disk s) (SetPhase service_uid id JournalFinalizing (s_db s)).2 n)).
  { destruct HW. split; [done|]. by apply SetPhase_keeps. }
  destruct (SetPhase _ _ _ _) as [[u|e] w']; cbn in *; [|by eapply He, within_consistent].
  apply wp_bind, wp_mapping, wp_within. eapply (wp_look_within alone ts good); [exact HW'|done|apply looking_checkpoint|]. clear s HW HW'. intros r s HW.
  destruct r; [|by eapply He, within_consistent].
  apply wp_bind, wp_mapping, wp_within. eapply (wp_look_within alone ts good); [exact HW|done|exact Hm|]. clear s HW. intros r s HW.
  destruct r as [sel|]; [|by eapply He, within_consistent].
  apply wp_bind, wp_mapping, wp_database; [by eapply within_consistent|]. clear n. intros n.
  pose proof (FinalizeEdit_outcome sel id (s_db s)) as Hf. destruct (FinalizeEdit _ _ _) as [[u2|e] w2]; cbn.
  - apply Ho. split; [|exists gs; split; [apply HW|done]]. intros [h Hh]. unfold tables in Hh. cbn in Hh. congruence.
  - eapply He, (within_consistent gs); [|done]. destruct HW. split; [done|]. unfold tables in *. cbn. by rewrite Hf.
Qed.

(** The entries of a plan are about its targets. *)
Record planned (d : disk) (id : bytes) (rs : list Replacement) : Prop := mk_planned {
  pn_length : length rs = length ts;
  pn_entry : forall k r t, rs !! k = Some r -> ts !! k = Some t ->
    resolve d (Dir (rp_Path r)) = Some (t_dir t) /\ t_name t = Base (rp_Path r)
    /\ t_stage t = stage_basename id (Z.of_nat k) /\ t_new t = rp_Content r;
}.

Definition prepared_for (d : disk) (id : bytes) (k : nat) (r : Replacement) (p : preparedReplacement) : Prop :=
  replacement p = r /\ (exists h, resolve d (Dir (rp_Path r)) = Some h /\ parent p = Some h)
  /\ stage p = stage_basename id (Z.of_nat k) /\ activated p = false.

Lemma prepared_about d id rs k r t p :
  planned d id rs -> rs !! k = Some r -> ts !! k = Some t -> prepared_for d id k r p -> about t p /\ activated p = false.
Proof.
  intros HP Hr Ht (Er & (h & Hh & Hp) & Hs & Ha). destruct (pn_entry _ _ _ HP _ _ _ Hr Ht) as (E1 & E2 & E3 & E4).
  split; [|done]. unfold about. rewrite Er, Hp, Hs, E2, E3, E4. split_and!; congruence.
Qed.

Lemma open_dir_resolves path (s : sys) h s' : look (sys_open_dir path) s = (Some (Ok h), s') -> resolve (s_disk s) path = Some h.
Proof.
  unfold look, syscall, call. rewrite alone. unfold sys_open_dir. destruct (plan _); [|done..].
  destruct (resolve _ path) as [i|]; [|done]. destruct (dk_dirs _ !! i); [|done]. by intros [= -> _].
Qed.

Lemma open_parent_resolves policy path (s : sys) h i s' :
  openReplacementParent policy path s = (Some (Ok (h, i)), s') -> resolve (s_disk s) (Dir path) = Some h.
Proof.
  intros Hr. enough (Hw : wp (openReplacementParent policy path) (fun r _ => match r with Ok (j, _) => resolve (s_disk s) (Dir path) = Some j | Err _ => True end)
                 (fun _ _ => True) s) by (unfold wp in Hw; by rewrite Hr in Hw).
  clear Hr. unfold openReplacementParent. apply wp_bind, wp_looking; [apply looking_auditPath|done..|]. intros r s1 _ [D1 _].
  destruct r; [|done]. apply wp_bind, wp_guard; [done|]. intros _.
  apply wp_bind, wp_looking; [apply looking_open_dir|done..|]. intros r s2 Hr _. destruct r as [fd|]; [|done].
  apply open_dir_resolves in Hr. rewrite D1 in Hr.
  apply wp_bind, wp_catch, wp_looking; [apply looking_fstat|done..|]. intros r s3 _ _. destruct r; [|done].
  apply wp_bind, wp_guard; [done|]. intros _. by apply wp_ret.
Qed.

Lemma prepare_one_for policy id sources k r (s s' : sys) p f :
  prepare_one policy id sources (Z.of_nat k) r s = (Some (Ok (p, f)), s') -> prepared_for (s_disk s) id k r p.
Proof.
  intros Hr. enough (Hw : wp (prepare_one policy id sources (Z.of_nat k) r)
    (fun o _ => match o with Ok (q, _) => prepared_for (s_disk s) id k r q | Err _ => True end) (fun _ _ => True) s)
    by (unfold wp in Hw; by rewrite Hr in Hw).
  clear Hr. unfold prepare_one. apply wp_bind, wp_looking; [apply looking_openReplacementParent|done..|]. intros o s1 Ho _.
  destruct o as [[h parentID]|]; [|done]. apply open_parent_resolves in Ho.
  apply wp_bind, wp_catch, wp_looking; [apply looking_missingAt|done..|]. intros o s2 _ _. apply wp_bind, wp_guard; [done|]. intros _.
  apply wp_bind. destruct (sourceForPath _ _).
  - apply wp_ret, wp_ret. split_and!; [done|by exists h|done..].
  - apply wp_bind, wp_catch, wp_looking; [apply looking_missingAt|done..|]. intros o' s3 _ _. apply wp_bind, wp_guard; [done|]. intros _.
    apply wp_ret, wp_ret. split_and!; [done|by exists h|done..].
Qed.

Lemma looking_prepare_all policy id sources l : forall k, looking (prepare_all policy id sources k l : X _).
Proof. induction l as [|r l IH]; intros k; cbn; looks; done. Qed.
Lemma looking_prepareJournal policy id sources l : looking (prepareJournal policy id sources l : X _).
Proof. unfold prepareJournal. looks. apply looking_prepare_all. Qed.

Lemma X_bind_Ok {A B} (m : X A) (f : A -> X B) (s : sys) b s' :
  (m ≫= f) s = (Some (Ok b), s') -> exists a s1, m s = (Some (Ok a), s1) /\ f a s1 = (Some (Ok b), s').
Proof. unfold mbind, X_bind. destruct (m s) as [[[a|e]|] s1]; [|done..]. eauto. Qed.

Lemma prepare_all_for policy id sources l : forall k (s s' : sys) ps fs,
  prepare_all policy id sources (Z.of_nat k) l s = (Some (Ok (ps, fs)), s') ->
  length ps = length l /\ forall j r p, l !! j = Some r -> ps !! j = Some p -> prepared_for (s_disk s) id (k + j) r p.
Proof.
  induction l as [|r l IH]; intros k s s' ps fs Hr; cbn in Hr; [by injection Hr as <- <- <-|].
  apply X_bind_Ok in Hr as ([p f] & s1 & H1 & Hr). apply X_bind_Ok in Hr as ([ps' fs'] & s2 & H2 & Hr). injection Hr as <- <- <-.
  replace (Z.of_nat k + 1) with (Z.of_nat (S k)) in H2 by lia.
  pose proof (looking_prepare_one policy id sources (Z.of_nat k) r alone s) as [Hd _]. rewrite H1 in Hd. cbn in Hd.
  apply prepare_one_for in H1. apply IH in H2 as [Hl Hj]. rewrite Hd in Hj. split; [cbn; congruence|].
  intros [|j] r' p' E1 E2; cbn in *; [injection E1 as <-; injection E2 as <-; by rewrite Nat.add_0_r|].
  replace (k + S j)%nat with (S k + j)%nat by lia. by apply Hj.
Qed.

(** Prepared entries of a plan are idle entries of its targets. *)
Lemma prepared_idle d id rs gs ps :
  planned d id rs -> Forall2 untouched ts gs -> length ps = length rs ->
  (forall k r p, rs !! k = Some r -> ps !! k = Some p -> prepared_for d id k r p) -> Forall3 idle_entry ts gs ps.
Proof.
  intros HP Hu Hl Hj. apply Forall3_by_lookup; [by eapply Forall2_length|rewrite Hl; symmetry; by eapply pn_length|].
  intros k t' g p Ht Hg Hp. destruct (lookup_lt_is_Some_2 rs k) as [r Hrk].
  { rewrite <- Hl. by eapply lookup_lt_Some. }
  destruct (prepared_about _ _ _ k r t' p HP Hrk Ht (Hj _ _ _ Hrk Hp)) as [Ha Hact].
  split_and!; [|done..]. by eapply (Forall2_lookup_lr _ _ _ _ _ _ Hu).
Qed.

Lemma prepareJournal_for policy id sources rs gs (s s' : sys) ps j :
  prepareJournal policy id sources rs s = (Some (Ok (ps, j)), s') -> planned (s_disk s) id rs -> Forall2 untouched ts gs ->
  Forall3 idle_entry ts gs ps.
Proof.
  intros Hr HP Hu. unfold prepareJournal in Hr. apply X_bind_Ok in Hr as (t & s1 & H1 & Hr).
  apply X_bind_Ok in Hr as ([ps' fs] & s2 & H2 & Hr). apply X_bind_Ok in Hr as ([] & s3 & _ & Hr). injection Hr as <- _ _.
  assert (Hd : s_disk s1 = s_disk s) by by injection H1 as _ <-. apply (prepare_all_for _ _ _ _ 0) in H2 as [Hl Hj]. rewrite Hd in Hj.
  by eapply prepared_idle.
Qed.

Lemma wp_Commit policy id plan guard Q s :
  looking guard -> planned (s_disk s) id (sortReplacements (pl_Replacements plan)) -> Idle s ->
  (forall e s', consistent (s_disk s') (tables s') -> Q (Err e) s') -> (forall sel s', committed (s_disk s') (tables s') -> Q (Ok sel) s') ->
  wp (Commit policy id plan guard) Q consistent s.
Proof.
  intros Hguard HP HI He Ho. unfold Commit. assert (Hd0 : s_disk s = s_disk s) by done. revert Hd0. generalize (s_disk s) at 2.
  intros d0 Hd0. rewrite Hd0 in HP.
  apply wp_bind, wp_look_idle; [done|apply looking_checkpoint|]. intros r s1 _ D1 I1. destruct r; [|by apply He, idle_consistent].
  apply wp_bind, wp_look_idle; [done|apply looking_no_pending|]. intros r s2 _ D2 I2. destruct r; [|by apply He, idle_consistent].
  apply wp_bind, wp_look_idle; [done|apply looking_AuditCandidate|]. intros r s3 _ D3 I3. destruct r as [audit|]; [|by apply He, idle_consistent].
  destruct (pl_Sources plan) as [sources|]; [|by apply wp_raise, He, idle_consistent].
  apply wp_bind, wp_look_idle; [done|apply looking_checkpoint|]. intros r s4 _ D4 I4. destruct r; [|by apply He, idle_consistent].
  apply wp_bind, wp_look_idle; [done|apply looking_prepareJournal|]. intros r s5 Hprep D5 I5. destruct r as [[ps j]|]; [|by apply He, idle_consistent].
  replace d0 with (s_disk s4) in HP by congruence. destruct I5 as (gs & HS & Hu). pose proof (prepareJournal_for _ _ _ _ gs _ _ _ _ Hprep HP Hu) as Hidle.
  apply wp_bind, wp_database; [by apply idle_consistent; exists gs|]. intros n. pose proof (Create_outcome service_uid j (s_db s5)) as Hc.
  destruct (Create _ _ _) as [[u|e] w6]; cbn.
  2: { apply He, idle_consistent. by exists gs. }
  assert (W6 : Within gs (mk_sys (s_disk s5) w6 n)) by by split.
  assert (Hwi : Forall2 whole ts gs) by (eapply forall3_l, Hidle; intros; by eapply removable_whole, idle_removable).
  apply wp_bind, wp_mapping, wp_within. eapply (wp_look_within alone ts good); [exact W6|done|apply looking_checkpoint|]. intros r s7 W7.
  destruct r; [|by eapply He, within_consistent].
  apply wp_bind, wp_within. eapply (wp_stage_all id ps [] [] [] ts gs); [done..|constructor|done| |].
  2: { intros e gs' s' W' Hw. by eapply He, within_consistent. }
  clear gs HS Hu Hprep Hidle W6 Hwi W7. intros r gs ps' s8 W8 Hr. destruct r as [[]|cause]; [|by eapply wp_abort].
  apply wp_bind. eapply wp_authorize; [done..|]. clear s8 W8. intros s8 W8.
  apply wp_bind, wp_within. eapply (wp_activate_all id ps' [] [] [] ts gs); [done..| |].
  2: { intros e gs' s' W' Hw. by eapply He, within_consistent. }
  clear gs W8 Hr. intros r gs ps2 s9 W9 Hr. destruct r as [[]|cause]; [|by eapply wp_abort].
  eapply wp_finalize_with; [done|exact Hr|apply looking_inspectCommitted|done..].
Qed.
End Loops.

(** ** After a power loss *)

Lemma entry_survives d d' t g : entry_ok d t g -> power_loss d d' ->
  (exists v, v ∈ g_keep g /\ content_at d' (t_dir t) (t_name t) = snd <$> v)
  /\ (g_clean g = true -> entry_of d' (t_dir t) (t_stage t) = None /\ entry_of d' (t_dir t) (t_quarantine t) = None).
Proof.
  intros [(n & Hn & [Dc Dt _ _ Dl]) Hk _] (_ & _ & _ & Hdirs & Hfiles). destruct (Hdirs _ _ Hn) as (n' & Hn' & Hv).
  unfold content_at, entry_of. rewrite Hn'. cbn. split.
  - specialize (Dt _ Hv). apply list_elem_of_fmap in Dt as (v & -> & Hin). exists v. split; [done|].
    rewrite Forall_forall in Hk. specialize (Hk v Hin). destruct v as [[i c]|]; cbn in *; [|done].
    destruct Hk as (f & Hf & Hs & <-). destruct (Hfiles _ _ Hf) as (f' & Hf' & Hc). rewrite Hf'. cbn. by rewrite Hc.
  - intros Hcl. by apply Dl.
Qed.
