(* ===== verification/WsRecoverySafe.v ===== *)
(** The parts of a bootstrap and of a recovery that only look, and what the
    removal of staged files does to the disk. *)
From stdpp Require Import gmap.
From S2P Require Import Prelude.
From S2P Require Import Effects.
From S2P Require Import Refine.
From S2P Require Import WsTypes.
From S2P Require Import WsJournal.
From S2P Require Import WsDisk.
From S2P Require Import WsAudit.
From S2P Require Import WsYaml.
From S2P Require Import WsInspect.
From S2P Require Import WsEdit.
From S2P Require Import WsSelect.
From S2P Require Import WsStore.
From S2P Require Import WsCommit.
From S2P Require Import WsBootstrap.
From S2P Require Import WsRecovery.
From S2P Require Import WsRun.
From S2P Require Import WsFacts.
From S2P Require Import WsSafety.
From S2P Require Import WsLooking.
From S2P Require Import WsCommitSafe.

#[local] Open Scope Z_scope.

#[local] Existing Instance ws_db_error.

(** Loading the selection leaves the journal alone. *)
Section Looking.
Context `{Machine} `{Yaml} (policy : Policy).
Abbreviation X := (X (Selection := SelectionRows)).

Lemma upgrade_journal new old (d d' : SDb) n : upgrade_fingerprint new old d = Some (n, d') -> same_journal d d'.
Proof. unfold upgrade_fingerprint. repeat case_match; intros [= _ <-]; done. Qed.

Lemma Store_Load_same (w : world SDb) : same_journal (w_db w) (w_db (Store_Load w).2).
Proof.
  pattern (w_db (Store_Load w).2). unfold Store_Load. apply (transaction_keeps (same_journal (w_db w))); [|done].
  unfold persistedInvalid. tx_keeping. apply statement_keeps. intros d n d' Hu Hs. etransitivity; [exact Hs|by eapply upgrade_journal].
Qed.
Lemma looking_Store_Load : looking (database Store_Load : X _).
Proof. apply looking_database. intros w. apply Store_Load_same. Qed.
Hint Resolve looking_Store_Load looking_openReplacementParent : look.

Lemma looking_no_selection : looking (no_selection : X _).
Proof. unfold no_selection. looks. Qed.
Lemma looking_journal_as_expected b : looking (journal_as_expected b : X _).
Proof. unfold journal_as_expected. looks. Qed.
Lemma looking_auditMissingTarget target role reference : looking (auditMissingTarget policy target role reference : X _).
Proof. unfold auditMissingTarget. looks. Qed.
Hint Resolve looking_no_selection looking_journal_as_expected looking_auditMissingTarget : look.
Lemma looking_audit_bootstrap_dotenvs l : forall r, looking (audit_bootstrap_dotenvs policy r l : X _).
Proof. induction l; intros; cbn; looks; done. Qed.
Lemma looking_audit_bootstrap_webroots l : looking (audit_bootstrap_webroots policy l : X _).
Proof. induction l; cbn; looks; done. Qed.
Lemma looking_bootstrap_target request : looking (bootstrap_target policy request : X _).
Proof. unfold bootstrap_target. looks. Qed.
Lemma looking_returns {A} (r : result WsError A) : looking (returning r : X A).
Proof. apply looking_returning. Qed.
Hint Resolve looking_audit_bootstrap_dotenvs looking_audit_bootstrap_webroots looking_bootstrap_target looking_returns : look.
Lemma looking_auditBootstrap request candidate l b : looking (auditBootstrap policy request candidate l b : X _).
Proof. unfold auditBootstrap. looks. Qed.
Hint Resolve looking_auditBootstrap : look.
Lemma looking_recheck_bootstrap_entry p : looking (recheck_bootstrap_entry p : X _).
Proof. unfold recheck_bootstrap_entry. looks. Qed.
Lemma looking_recheckBootstrap request candidate l audit ps : looking (recheckBootstrap policy request candidate l audit ps : X _).
Proof. unfold recheckBootstrap. looks. apply looking_for_each, looking_recheck_bootstrap_entry. Qed.
Lemma looking_inspectBootstrapCommitted request audit candidate l : looking (inspectBootstrapCommitted policy request audit candidate l : X _).
Proof. unfold inspectBootstrapCommitted. looks. Qed.
Lemma looking_bootstrap_prepare_one id k r : looking (bootstrap_prepare_one policy id k r : X _).
Proof. unfold bootstrap_prepare_one. looks. Qed.

Lemma looking_owned_stage h stage : looking (owned_stage h stage : X _).
Proof. unfold owned_stage. looks. Qed.
Hint Resolve looking_owned_stage : look.
Lemma looking_classify f : looking (classifyRecoveryFile policy f : X _).
Proof. unfold classifyRecoveryFile. looks. Qed.
Lemma looking_classify_all l : looking (classify_all policy l : X _).
Proof. induction l; cbn; looks; solve [apply looking_classify | done]. Qed.
Hint Resolve looking_classify_all : look.
Lemma looking_InspectRecovery : looking (InspectRecovery policy : X _).
Proof. unfold InspectRecovery, ready. looks. Qed.
Lemma looking_readRecoveryCurrent j : looking (readRecoveryCurrent policy j : X _).
Proof. unfold readRecoveryCurrent. looks. Qed.
Hint Resolve looking_readRecoveryCurrent : look.
Lemma looking_reread j sources : looking (reread policy j sources : X _).
Proof. unfold reread. looks. Qed.
End Looking.
#[export] Hint Resolve looking_Store_Load looking_openReplacementParent looking_no_selection looking_auditMissingTarget looking_auditBootstrap
  looking_recheckBootstrap looking_inspectBootstrapCommitted looking_bootstrap_prepare_one looking_owned_stage looking_InspectRecovery
  looking_readRecoveryCurrent looking_reread : look.

(** ** Removing what an edit staged *)

(** Nothing but the name a file has now can be its content, and what is at its
    staging or quarantine name is another inode. *)
Definition leftover (v : option (Z * bytes)) (g : ghost) : Prop :=
  g_keep g = [v] /\ g_ready g = None /\ match g_place g with Some (_, i) => inode_of v <> Some i | None => True end.
Definition only (t : target) (keep : list (option (Z * bytes))) : Prop := keep = [t_old t].

Lemma leftover_loose v g b i : leftover v g -> g_place g = Some (b, i) -> loose g b i.
Proof.
  intros (Hk & Hr & Hp) Hg. rewrite Hg in Hp. split; [done|]. intros [Hi|Hi]; [|by rewrite Hr in Hi].
  rewrite Hk in Hi. apply list_elem_of_singleton in Hi. by rewrite <- Hi in Hp.
Qed.
Lemma idle_leftover v : leftover v (idle v).
Proof. done. Qed.

(** The journal entry is about this target. *)
Definition named (t : target) (f : JournalFile) : Prop :=
  Base (TargetPath f) = t_name t /\ StageBasename f = t_stage t /\ Inode (Parent f) = t_dir t.

Section Removing.
Context `{Machine} (alone : quiet).
Context (d0 : disk) (own : Z -> Prop) (own_new : forall i, dk_next d0 <= i -> own i).
Context (t : target) (names : apart t) (not_cleanup : is_cleanup_name (t_stage t) = false).
Context (K : list (option (Z * bytes)) -> Prop).
Abbreviation X := (X (Selection := SelectionRows)).
Abbreviation sys := (sys (Selection := SelectionRows)).
Abbreviation At := (At d0 own t).
Abbreviation stopped_in := (stopped_in d0 own t).

Lemma wp_remove_identity b i expected g v Q (s : sys) :
  At g s -> K (g_keep g) -> g_keep g = [v] -> loose g b i -> removal_post d0 own t g v Q ->
  wp (removeOwnedIdentityAt (t_dir t) (place_name t b) expected) Q (stopped_in K) s.
Proof.
  intros HA HK Hv [Hp Hk] HQ. pose proof (fun e s => removal_err d0 own t g v Q e s HQ) as Herr. unfold removeOwnedIdentityAt.
  apply wp_bind, (wp_look_at alone _ _ _ _ _ g); [done..|apply open_looks|]. intros r s1 HA1 D1 Hr. destruct r as [fd|]; [|by apply Herr].
  specialize (Hr _ eq_refl). apply open_entry, (entry_at_place _ _ _ g s b i fd HA Hp) in Hr as ->.
  apply wp_bind, wp_catch, (wp_look_at alone _ _ _ _ _ g); [done..|apply fstat_looks|]. intros r s2 HA2 D2 _.
  destruct r as [current|]; [|by apply wp_raise, Herr]. destruct (_ || _); [by apply wp_raise, Herr|].
  destruct (negb _); [by apply wp_raise, Herr|].
  apply (wp_scrub_and_remove alone _ _ own_new t names not_cleanup _ b i _ g v); [done..| |by split|done]. apply (at_own _ _ _ _ _ _ HA). left. eauto.
Qed.

Lemma absent_place g (s : sys) b i : At g s -> g_place g = Some (b, i) ->
  (sys_fstatat (t_dir t) (place_name t b) (s_disk s)).1 <> Ok None.
Proof.
  intros HA Hp Hr. pose proof (place_entry _ _ _ g _ _ b HA) as He. rewrite Hp, Bool.eqb_reflx in He.
  unfold entry_of in He. unfold sys_fstatat in Hr. destruct (dk_dirs _ !! t_dir t) as [n|]; [|done]. cbn in He. rewrite He in Hr.
  by destruct (stat_of _ i).
Qed.
Lemma wp_owned_stage g Q (s : sys) :
  At g s -> K (g_keep g) ->
  (forall r s', At g s' -> match r with
                           | Ok None => g_place g = None
                           | Ok (Some (name, _)) => exists b i, g_place g = Some (b, i) /\ name = place_name t b
                           | Err _ => True
                           end -> Q r s') -> wp (owned_stage (t_dir t) (t_stage t)) Q (stopped_in K) s.
Proof.
  intros HA HK HQ. unfold owned_stage. apply wp_bind, (wp_owned_at alone _ _ _ _ g); [done..|]. intros r s1 HA1 Hr.
  destruct r as [[name|]|]; [|by apply wp_ret, HQ|by apply HQ].
  destruct Hr as (b & i & Hp & ->). unfold identityAt.
  apply wp_bind, wp_bind, (wp_look_at alone _ _ _ _ _ g); [done..|apply fstatat_looks|]. intros r s2 HA2 _ Hr.
  destruct r as [[stat|]|]; [|by apply (absent_place g s1 b i) in Hr|by apply HQ].
  destruct (_ || _); [by apply wp_raise, HQ|]. apply wp_ret, wp_ret, HQ; [done|]. by exists b, i.
Qed.

(** The entry is cleaned up, or an error says that it may not be; what the
    target holds stays. *)
Definition removed (v : option (Z * bytes)) (r : result WsError unit) (s : sys) : Prop :=
  match r with Ok _ => At (idle v) s | Err _ => exists g, g_keep g = [v] /\ At g s end.

Lemma wp_removed v g Q (s : sys) e : g_keep g = [v] -> At g s -> (forall r s', removed v r s' -> Q r s') -> Q (Err e) s.
Proof. intros Hg HA HQ. apply HQ. by exists g. Qed.

Lemma wp_finish_removal v g Q (s : sys) :
  At g s -> K [v] -> leftover v g -> g_place g = None -> (forall r s', removed v r s' -> Q r s') ->
  wp (_ ← syncDirectory (t_dir t); checkpoint : X unit) Q (stopped_in K) s.
Proof.
  intros HA HK Hg Hp HQ. assert (Hk : g_keep g = [v]) by apply Hg. assert (HK' : K (g_keep g)) by by rewrite Hk.
  apply wp_bind, (wp_sync_at alone _ _ own_new t names not_cleanup _ g v); [done..| | | |].
  - rewrite Hk. by left.
  - by eapply target_single.
  - intros e s1 HA1. by eapply wp_removed.
  - intros s1 HA1. assert (Hi : synced_ghost g v = idle v) by (unfold synced_ghost, idle; destruct Hg as (_ & -> & _); by rewrite Hp).
    rewrite Hi in HA1. apply (wp_checkpoint_at alone _ _ _ _ (idle v)); [done..|]. intros r s2 HA2 _. apply HQ.
    destruct r; [done|]. by exists (idle v).
Qed.

Context (policy : Policy).

Lemma fstat_inode i d s d' : sys_fstat i d = (Ok s, d') -> Inode s = i.
Proof.
  unfold sys_fstat, stat_of. destruct (dk_files d !! i); [by intros [= <- _]|]. destruct (dk_dirs d !! i); [|done]. by intros [= <- _].
Qed.

(** The handle the parent's identity was read from. *)
Lemma wp_open_parent path g Q (s : sys) :
  At g s -> K (g_keep g) ->
  (forall r s', At g s' -> match r with Ok (h, i) => Inode i = h | Err _ => True end -> Q r s') ->
  wp (openReplacementParent policy path) Q (stopped_in K) s.
Proof.
  intros HA HK HQ. unfold openReplacementParent.
  apply wp_bind, (wp_looking_at alone _ _ _ _ _ g); [done..|apply looking_auditPath|]. intros r s1 _ HA1 _. destruct r; [|by apply HQ].
  apply wp_bind, wp_guard; intros _; [by apply HQ|].
  apply wp_bind, (wp_look_at alone _ _ _ _ _ g); [done..|apply open_dir_looks|]. intros r s2 HA2 _ _. destruct r as [fd|]; [|by apply HQ].
  apply wp_bind, wp_catch, (wp_look_at alone _ _ _ _ _ g); [done..|apply fstat_looks|]. intros r s3 HA3 _ Hr.
  destruct r as [stat|]; [|by apply wp_raise, HQ]. specialize (Hr _ eq_refl).
  apply wp_bind, wp_guard; intros _; [by apply HQ|]. apply wp_ret, HQ; [done|].
  destruct (sys_fstat fd (s_disk s2)) as [[i|] d'] eqn:Ef; [|done]. cbn in Hr. injection Hr as <-. by eapply fstat_inode.
Qed.

Lemma wp_remove_stage allowOriginal f v g Q (s : sys) :
  named t f -> At g s -> K [v] -> leftover v g -> (forall r s', removed v r s' -> Q r s') ->
  wp (remove_stage policy allowOriginal f) Q (stopped_in K) s.
Proof.
  intros (_ & Hs & Hi) HA HK Hg HQ. assert (HK' : K (g_keep g)) by by rewrite (proj1 Hg).
  assert (He : forall e s', At g s' -> Q (Err e) s') by (intros; eapply wp_removed; [apply Hg|done..]).
  unfold remove_stage. rewrite Hs. apply wp_bind, (wp_checkpoint_at alone _ _ _ _ g); [done..|]. intros r s1 HA1 _. destruct r; [|by apply He].
  apply wp_bind, (wp_open_parent _ g); [done..|]. intros r s2 HA2 Hr. destruct r as [[h parentID]|]; [|by apply He].
  apply wp_bind, wp_guard; intros Hg2; [by apply He|]. apply negb_false_iff, andb_true_iff in Hg2 as [_ Hg2]. apply Z.eqb_eq in Hg2.
  assert (h = t_dir t) as -> by congruence.
  apply wp_bind, (wp_owned_stage g); [done..|]. intros r s3 HA3 Hp. destruct r as [[[name stage]|]|]; [| |by apply He].
  - destruct Hp as (b & i & Hp & ->). apply wp_bind. destruct (removable_identity _ _ _); [|by apply wp_raise, He].
    apply (wp_remove_identity b i _ g v); [done..|apply Hg|by eapply leftover_loose|]. split.
    + intros e g' s4 [M1 M2] HA4. eapply wp_removed; [|done..]. rewrite M1. apply Hg.
    + intros s4 HA4. replace (g_ready g) with (None : option (Z * bytes)) in HA4 by (symmetry; apply Hg).
      by eapply (wp_finish_removal v (idle v)).
  - by eapply (wp_finish_removal v g).
Qed.
End Removing.

(** Creating a first configuration is as safe as an edit: staging, activation
    and abandoning are those of a native edit whose targets did not exist. *)

Section Bootstrap.
Context `{Machine} `{Yaml} (alone : quiet) (policy : Policy) (ts : list target) (sep : separate ts).
Abbreviation X := (X (Selection := SelectionRows)).
Abbreviation sys := (sys (Selection := SelectionRows)).
Abbreviation Within := (Within ts).
Abbreviation consistent := (consistent ts).
Abbreviation halted := (halted ts).
Hint Resolve consistent_journalled : core.

(** ** Preparing *)

Lemma bootstrap_prepare_one_for id k r (s s' : sys) p f :
  bootstrap_prepare_one policy id (Z.of_nat k) r s = (Some (Ok (p, f)), s') -> prepared_for (s_disk s) id k r p.
Proof.
  intros Hr. enough (Hw : wp (bootstrap_prepare_one policy id (Z.of_nat k) r)
    (fun o _ => match o with Ok (q, _) => prepared_for (s_disk s) id k r q | Err _ => True end) (fun _ _ => True) s)
    by (unfold wp in Hw; by rewrite Hr in Hw).
  clear Hr. unfold bootstrap_prepare_one. apply wp_bind, wp_looking; [apply looking_openReplacementParent|done..|]. intros o s1 Ho _.
  destruct o as [[h parentID]|]; [|done]. apply (open_parent_resolves alone) in Ho.
  do 3 (apply wp_bind, wp_catch, wp_looking; [apply looking_missingAt|done..|]; intros ? ? _ _).
  apply wp_bind, wp_guard; [done|]. intros _. apply wp_ret. split_and!; [done|by exists h|done..].
Qed.

Lemma bootstrap_prepare_all_for id l : forall k (s s' : sys) ps fs,
  bootstrap_prepare_all policy id (Z.of_nat k) l s = (Some (Ok (ps, fs)), s') ->
  length ps = length l /\ forall j r p, l !! j = Some r -> ps !! j = Some p -> prepared_for (s_disk s) id (k + j) r p.
Proof.
  induction l as [|r l IH]; intros k s s' ps fs Hr; cbn in Hr; [by injection Hr as <- <- <-|].
  apply X_bind_Ok in Hr as ([p f] & s1 & H1 & Hr). apply X_bind_Ok in Hr as ([ps' fs'] & s2 & H2 & Hr). injection Hr as <- <- <-.
  replace (Z.of_nat k + 1) with (Z.of_nat (S k)) in H2 by lia.
  pose proof (looking_bootstrap_prepare_one policy id (Z.of_nat k) r alone s) as [Hd _]. rewrite H1 in Hd. cbn in Hd.
  apply bootstrap_prepare_one_for in H1. apply IH in H2 as [Hl Hj]. rewrite Hd in Hj. split; [cbn; congruence|].
  intros [|j] r' p' E1 E2; cbn in *; [injection E1 as <-; injection E2 as <-; by rewrite Nat.add_0_r|].
  replace (k + S j)%nat with (S k + j)%nat by lia. by apply Hj.
Qed.
Lemma looking_bootstrap_prepare_all id l : forall k, looking (bootstrap_prepare_all policy id k l : X _).
Proof. induction l as [|r l IH]; intros k; cbn; looks; done. Qed.
Lemma looking_prepareBootstrapJournal id audit l : looking (prepareBootstrapJournal policy id audit l : X _).
Proof. unfold prepareBootstrapJournal. looks. apply looking_bootstrap_prepare_all. Qed.

Lemma prepareBootstrapJournal_for id audit rs gs (s s' : sys) ps j :
  prepareBootstrapJournal policy id audit rs s = (Some (Ok (ps, j)), s') -> planned ts (s_disk s) id rs -> Forall2 untouched ts gs ->
  Forall3 idle_entry ts gs ps.
Proof.
  intros Hr HP Hu. unfold prepareBootstrapJournal in Hr. apply X_bind_Ok in Hr as (t & s1 & H1 & Hr).
  apply X_bind_Ok in Hr as ([ps' fs] & s2 & H2 & Hr). apply X_bind_Ok in Hr as ([] & s3 & _ & Hr). injection Hr as <- _ _.
  assert (Hd : s_disk s1 = s_disk s) by by injection H1 as _ <-. apply (bootstrap_prepare_all_for _ _ 0) in H2 as [Hl Hj]. rewrite Hd in Hj.
  by eapply (prepared_idle ts).
Qed.

(** ** The whole bootstrap *)

(** Every target new, or the journal stays for recovery with every target
    whole. *)
Lemma wp_activate_bootstrap id todo : forall ts1 gs1 replaced ts2 gs2 Q s,
  ts = ts1 ++ ts2 -> Within (gs1 ++ gs2) s -> Forall2 renewed ts1 gs1 -> Forall3 staged_entry ts2 gs2 todo ->
  (forall gs ps s', Within gs s' -> Forall2 renewed ts gs -> Q (Ok ps) s') ->
  (forall e gs s', Within gs s' -> Forall2 whole ts gs -> Q (Err e) s') -> wp (activate_bootstrap id replaced todo) Q halted s.
Proof.
  induction todo as [|p todo IH]; intros ts1 gs1 replaced ts2 gs2 Q s Ets HW H1 H2 HQ He; inversion H2; subst.
  - rewrite !app_nil_r in *. by eapply wp_ret, HQ.
  - rename l into ts2, k into gs2, x into t, y into g. cbn. pose proof (Forall2_length _ _ _ H1) as El.
    match goal with Hi : staged_entry t g p, Ht : Forall3 staged_entry ts2 gs2 todo |- _ => rename Hi into Hst, Ht into Htodo end.
    assert (W1 : Forall2 whole ts1 gs1) by (eapply Forall2_impl, renewed_whole; done).
    assert (W2 : Forall2 whole ts2 gs2) by (eapply forall3_l, Htodo; intros; by eapply removable_whole, staged_removable).
    assert (Hw : forall g', whole t g' -> Forall2 whole (ts1 ++ t :: ts2) (gs1 ++ g' :: gs2)) by by intros; eapply middle2.
    assert (Hg : Forall2 whole (ts1 ++ t :: ts2) (gs1 ++ g :: gs2)) by by eapply Hw, removable_whole, staged_removable.
    apply wp_bind, wp_mapping. eapply (wp_look_within alone _ good); [exact HW|done|apply looking_checkpoint|]. clear s HW. intros r s HW.
    destruct r; [|by eapply He]. apply wp_bind. eapply (wp_middle _ sep good _ _ _ ts1 t ts2 gs1 g gs2); [done..|].
    intros own_new names ncl HA Hback. destruct Hst as ((c & -> & Hc) & Hp & Hact).
    eapply (wp_activateCandidate alone _ _ own_new t names ncl _ (t_old t) c Hc); [apply good_old|apply good_both|apply good_new|done..|].
    intros r p' s' Hr. destruct r as [[]|e]; unfold activation in Hr.
    + apply Hback in Hr. eapply (IH (ts1 ++ [t]) (gs1 ++ [_]) _ ts2 gs2);
        [by rewrite <- app_assoc|rewrite <- app_assoc; exact Hr| |done..].
      apply Forall2_app; [done|]. constructor; [by exists c|constructor].
    + apply wp_raise. destruct (activated p').
      * destruct Hr as (g' & Hg' & HA'). apply Hback in HA'. by eapply He, Hw.
      * destruct Hr as [_ HA']. apply Hback in HA'. by eapply He.
Qed.

Lemma wp_authorize_bootstrap guard id j request candidate l audit ps gs Q s :
  Within gs s -> Forall3 staged_entry ts gs ps -> looking guard ->
  (forall e s', consistent (s_disk s') (tables s') -> Q (Err e) s') -> (forall s', Within gs s' -> Q (Ok tt) s') ->
  wp (authorize_bootstrap policy guard id j request candidate l audit ps) Q consistent s.
Proof.
  intros HW Hst Hguard He Ho. unfold authorize_bootstrap.
  assert (Hr : Forall3 removable ts gs ps) by (eapply Forall3_impl, staged_removable; done).
  assert (Hw : Forall2 whole ts gs) by (eapply forall3_l, Hr; intros; by eapply removable_whole).
  apply wp_bind. eapply (wp_or_abort alone ts sep); [done..|left; apply looking_recheckBootstrap|done|]. clear s HW. intros _ s HW.
  apply wp_bind. eapply (wp_or_abort alone ts sep); [done..|right; eexists; split; [done|apply SetPhase_keeps]|done|]. clear s HW. intros _ s HW.
  apply wp_bind, wp_mapping, wp_within. eapply (wp_look_within alone ts good); [exact HW|done|apply looking_checkpoint|]. clear s HW. intros r s HW.
  destruct r; [|by eapply He, within_consistent].
  apply wp_bind. eapply (wp_or_abort alone ts sep); [done..|right; eexists; split; [done|apply SetPhase_keeps]|done|]. clear s HW. intros _ s HW.
  apply wp_bind. eapply (wp_or_abort alone ts sep); [done..|by left|done|]. clear s HW. intros _ s HW.
  eapply (wp_or_abort alone ts sep); [done..|left; apply looking_recheckBootstrap|done|]. clear s HW. intros [] s HW. by apply Ho.
Qed.

Lemma wp_Bootstrap id plan guard Q s :
  looking guard -> planned ts (s_disk s) id (sortReplacements (bp_Replacements plan)) -> Idle ts s ->
  (forall e s', consistent (s_disk s') (tables s') -> Q (Err e) s') -> (forall sel s', committed ts (s_disk s') (tables s') -> Q (Ok sel) s') ->
  wp (Bootstrap policy id plan guard) Q consistent s.
Proof.
  intros Hguard HP HI He Ho. unfold Bootstrap. assert (Hd0 : s_disk s = s_disk s) by done. revert Hd0. generalize (s_disk s) at 2.
  intros d0 Hd0. rewrite Hd0 in HP.
  apply wp_bind, (wp_look_idle alone ts); [done|apply looking_checkpoint|]. intros r s1 _ D1 I1. destruct r; [|by apply He, idle_consistent].
  apply wp_bind, (wp_look_idle alone ts); [done|apply looking_auditBootstrap|]. intros r s2 _ D2 I2.
  destruct r as [audit|]; [|by apply He, idle_consistent].
  apply wp_bind, (wp_look_idle alone ts); [done|apply looking_prepareBootstrapJournal|]. intros r s5 Hprep D5 I5.
  destruct r as [[ps j]|]; [|by apply He, idle_consistent].
  replace d0 with (s_disk s2) in HP by congruence. destruct I5 as (gs & HS & Hu).
  pose proof (prepareBootstrapJournal_for _ _ _ gs _ _ _ _ Hprep HP Hu) as Hidle.
  apply wp_bind, wp_database; [by apply idle_consistent; exists gs|]. intros n. pose proof (Create_outcome service_uid j (s_db s5)) as Hc.
  destruct (Create _ _ _) as [[u|e] w6]; cbn.
  2: { apply He, idle_consistent. by exists gs. }
  assert (W6 : Within gs (mk_sys (s_disk s5) w6 n)) by by split.
  assert (Hwi : Forall2 whole ts gs) by (eapply forall3_l, Hidle; intros; by eapply removable_whole, idle_removable).
  apply wp_bind, wp_mapping, wp_within. eapply (wp_look_within alone ts good); [exact W6|done|apply looking_checkpoint|]. intros r s7 W7.
  destruct r; [|by eapply He, within_consistent].
  apply wp_bind, wp_within. eapply (wp_stage_all alone ts sep id ps [] [] [] ts gs); [done..|constructor|done| |].
  2: { intros e gs' s' W' Hw. by eapply He, within_consistent. }
  clear gs HS Hu Hprep Hidle W6 Hwi W7. intros r gs ps' s8 W8 Hr. destruct r as [[]|cause]; [|by eapply (wp_abort alone ts sep)].
  apply wp_bind. eapply wp_authorize_bootstrap; [done..|]. clear s8 W8. intros s8 W8.
  apply wp_bind, wp_within. eapply (wp_activate_bootstrap id ps' [] [] [] ts gs); [done..| |].
  2: { intros e gs' s' W' Hw. by eapply He, within_consistent. }
  clear gs W8 Hr. intros gs ps2 s9 W9 Hr.
  eapply (wp_finalize_with alone ts); [done|exact Hr|apply looking_inspectBootstrapCommitted|done..].
Qed.
End Bootstrap.

(** Resolving an interrupted edit never changes what its targets hold: from a
    synchronized directory the removal of the staged files, the rechecks and
    the final database calls may fail or stop anywhere. *)

#[local] Existing Instance ws_db_error.

(** ** The stored journal *)

Section Stored.
Context {Selection : Type} (euid : Z).

(** What a load finds when no database call fails. *)
Definition journal_of (d : Db Selection) : result WsError Journal :=
  match edit_journal d with
  | None => Err ErrNoEditJournal
  | Some h =>
      createdAt ← parseStoreTime (h_created_at_utc h);
      bootstrap ← storedBoolean (h_bootstrap h);
      files ← load_files 0 (select_files d);
      let j := mk_journal (h_transaction_id h) (h_phase h) (h_working_directory h) (h_configuration_path h) bootstrap
                 (h_configuration_source h) createdAt files in
      _ ← reject_if (is_err (validateJournal euid j)) (Failure "invalid persisted native edit journal");
      Ok j
  end.

Lemma Load_run (d : Db Selection) : Load euid (mk_world d []) = (journal_of d, mk_world d []).
Proof.
  unfold Load. rewrite transaction_run. run_statement. unfold journal_of. destruct (edit_journal d) as [h|]; [|done].
  unfold mbind at 1, M_bind at 1, lift. destruct (parseStoreTime _); cbn; [|done].
  unfold mbind at 1, M_bind at 1, lift. destruct (storedBoolean _); cbn; [|done].
  run_statement. unfold mbind at 1, M_bind at 1, lift. destruct (load_files _ _); cbn; [|done].
  unfold mbind at 1, M_bind at 1, lift. destruct (reject_if _ _); cbn; [|done]. run_statement. done.
Qed.

Lemma Load_sound : fault_safe (Load (Selection := Selection) euid).
Proof.
  unfold Load. apply safe_transaction; [sound|].
  apply on_error_bind; [apply _|apply query_quiet|]. intros [h|]; [|by intros t e t' [= _ <-]].
  repeat (apply on_error_bind; [apply _|first [apply query_quiet | apply preserves_lift; apply _]|intros]).
  apply on_error_then; [apply commit_quiet_on_error|]. intros. apply never_fails_ret.
Qed.

Lemma Load_journal (w w' : world (Db Selection)) j : Load euid w = (Ok j, w') -> journal_of (w_db w) = Ok j.
Proof.
  destruct w as [d fl]. intros E. apply Load_sound in E as [[He _]|E]; [done|]. rewrite Load_run in E. by injection E.
Qed.
Lemma journal_of_same d d' : same_journal d d' -> journal_of d' = journal_of d.
Proof. intros [E1 E2]. unfold journal_of, select_files. by rewrite E1, E2. Qed.
Lemma journal_of_pending d j : journal_of d = Ok j -> pending d.
Proof. unfold journal_of, pending. by destruct (edit_journal d). Qed.
End Stored.

(** ** The staged files of every target *)

Definition left_over (t : target) (g : ghost) : Prop := leftover (t_old t) g.

Lemma leftover_old t g : left_over t g -> old_only t g.
Proof. by intros (Hk & _). Qed.
Lemma untouched_leftover t g : untouched t g -> left_over t g.
Proof. intros ->. apply idle_leftover. Qed.

Section Recovery.
Context `{Machine} `{Yaml} (alone : quiet) (policy : Policy) (ts : list target) (sep : separate ts).
Abbreviation X := (X (Selection := SelectionRows)).
Abbreviation sys := (sys (Selection := SelectionRows)).
Abbreviation Within := (Within ts).

(** With a journal no target lost what it held; without one nothing of the
    edit is left either. *)
Definition resolvable (d : disk) (w : Db SelectionRows) : Prop :=
  exists gs, system ts gs d /\ Forall2 old_only ts gs /\ (pending w \/ Forall2 untouched ts gs).
Definition concluded (d : disk) (w : Db SelectionRows) : Prop := ~ pending w /\ exists gs, system ts gs d /\ Forall2 untouched ts gs.

Lemma resolvable_journalled : Journalled resolvable.
Proof. intros d ? <- w w' [Hj _] (gs & HS & Ho & Hc). exists gs. split_and!; [done..|]. unfold pending in *. by rewrite Hj. Qed.
Hint Resolve resolvable_journalled : core.

Lemma within_resolvable gs s : Within gs s -> Forall2 old_only ts gs -> resolvable (s_disk s) (tables s).
Proof. intros [HS Hp] Ho. exists gs. split_and!; [done..|by left]. Qed.
Lemma concluded_resolvable d w : concluded d w -> resolvable d w.
Proof. intros [_ (gs & HS & Hu)]. exists gs. split_and!; [done| |by right]. eapply Forall2_impl, untouched_old. done. Qed.
Lemma halted_resolvable d w : halted_in ts only d w -> resolvable d w.
Proof. intros (gs & HS & Hp & Ho). exists gs. split_and!; [done..|by left]. Qed.

Lemma wp_remove_stages allowOriginal l : forall ts1 gs1 ts2 gs2 Q s,
  ts = ts1 ++ ts2 -> Within (gs1 ++ gs2) s -> Forall2 untouched ts1 gs1 -> Forall2 left_over ts2 gs2 -> Forall2 named ts2 l ->
  (forall gs s', Within gs s' -> Forall2 untouched ts gs -> Q (Ok tt) s') ->
  (forall e gs s', Within gs s' -> Forall2 old_only ts gs -> Q (Err e) s') ->
  wp (for_each_x (remove_stage policy allowOriginal) l) Q (halted_in ts only) s.
Proof.
  induction l as [|f l IH]; intros ts1 gs1 ts2 gs2 Q s Ets HW H1 H2 Hn HQ He; inversion Hn; subst; inversion H2; subst.
  - rewrite !app_nil_r in *. by eapply wp_ret, HQ.
  - rename l0 into ts2, l' into gs2, x into t, y into g. cbn. pose proof (Forall2_length _ _ _ H1) as El.
    match goal with Ho : left_over t g, Hr : Forall2 left_over ts2 gs2 |- _ => rename Ho into Hg, Hr into Hrest end.
    assert (O1 : Forall2 old_only ts1 gs1) by (eapply Forall2_impl, untouched_old; done).
    assert (O2 : Forall2 old_only ts2 gs2) by (eapply Forall2_impl, leftover_old; done).
    apply wp_bind. eapply (wp_middle _ sep only _ _ _ ts1 t ts2 gs1 g gs2); [done..| |].
    { eapply middle2; [done..|by apply leftover_old|done]. }
    intros own_new names ncl HA Hback. eapply (wp_remove_stage alone _ _ own_new t names ncl _ policy _ f (t_old t) g); [done..|].
    intros r s' Hr. destruct r as [[]|e].
    + apply Hback in Hr. eapply (IH (ts1 ++ [t]) (gs1 ++ [_]) ts2 gs2);
        [by rewrite <- app_assoc|rewrite <- app_assoc; exact Hr| |done..].
      apply Forall2_app; [done|]. constructor; [done|constructor].
    + destruct Hr as (g' & Hk & HA'). apply Hback in HA'. eapply He; [done|]. by eapply middle2.
Qed.

(** A look while the staged files are there, and while they are gone. *)
Lemma wp_look_old {A} (m : X A) gs Q s :
  Within gs s -> Forall2 old_only ts gs -> looking m -> (forall r s', Within gs s' -> Q r s') -> wp m Q resolvable s.
Proof.
  intros HW Ho Hm HQ. eapply (wp_mono _ Q Q); [|done|apply halted_resolvable]. by eapply (wp_look_within alone ts only).
Qed.

Lemma wp_removing j allowOriginal gs Q s :
  Within gs s -> Forall2 left_over ts gs -> Forall2 named ts (WsTypes.Files j) ->
  (forall e s', resolvable (s_disk s') (tables s') -> Q (Err e) s') -> (forall gs s', Within gs s' -> Forall2 untouched ts gs -> Q (Ok tt) s') ->
  wp (mapping (Joined ErrRecoveryRequired) (removeRecoveryStages policy j allowOriginal)) Q resolvable s.
Proof.
  intros HW Hl Hn He Ho. apply wp_mapping. eapply (wp_mono _ _ _ (halted_in ts only)); [|intros r s' Hr; exact Hr|apply halted_resolvable].
  eapply (wp_remove_stages allowOriginal (WsTypes.Files j) [] [] ts gs); [done..|constructor|done|done| |].
  - intros gs' s' HW' Hu. by eapply Ho.
  - intros e gs' s' HW' Hold. by eapply He, within_resolvable.
Qed.

(** A database call that settles the recovery or changes nothing. *)
Lemma wp_settling {A} (m : M (world SDb) WsError A) gs (Q : result WsError A -> sys -> Prop) s :
  Within gs s -> Forall2 untouched ts gs ->
  (forall w, match m w with (Ok _, w') => edit_journal (w_db w') = None | (Err _, w') => w_db w' = w_db w end) ->
  (forall e s', resolvable (s_disk s') (tables s') -> Q (Err e) s') -> (forall a s', concluded (s_disk s') (tables s') -> Q (Ok a) s') ->
  wp (mapping (fun _ => ErrRecoveryRequired) (database m)) Q resolvable s.
Proof.
  intros HW Hu Hm He Ho. assert (Hold : Forall2 old_only ts gs) by (eapply Forall2_impl, untouched_old; done).
  apply wp_mapping, wp_database; [by eapply within_resolvable|]. intros n. specialize (Hm (s_db s)).
  destruct (m (s_db s)) as [[a|e] w']; cbn.
  - apply Ho. split; [|exists gs; split; [apply HW|done]]. intros [h Hh]. unfold tables in Hh. cbn in Hh. congruence.
  - eapply He, (within_resolvable gs); [|done]. destruct HW. split; [done|]. unfold tables in *. cbn. by rewrite Hm.
Qed.

Definition settles {A} (m : X A) : Prop := forall gs s Q,
  Within gs s -> Forall2 left_over ts gs ->
  (forall e s', resolvable (s_disk s') (tables s') -> Q (Err e) s') -> (forall a s', concluded (s_disk s') (tables s') -> Q (Ok a) s') ->
  wp m Q resolvable s.

Ltac looking_step HW He :=
  apply wp_bind; try apply wp_mapping;
  eapply wp_look_old; [exact HW|eapply Forall2_impl, leftover_old; eassumption|solve [looks]|];
  clear HW; let r := fresh "r" in let s := fresh "s" in intros r s HW; destruct r as [r|]; [try (lazymatch type of r with prod _ _ => destruct r end)|by eapply He, within_resolvable; [|eapply Forall2_impl, leftover_old; eassumption]].

Lemma settles_discard j guard : looking guard -> Forall2 named ts (WsTypes.Files j) -> settles (discard_unapplied policy j guard).
Proof.
  intros Hg Hn gs s Q HW Hl He Ho. unfold discard_unapplied.
  looking_step HW He. looking_step HW He. looking_step HW He.
  apply wp_bind. eapply wp_removing; [done..|]. clear gs HW Hl. intros gs s' HW Hu.
  assert (Hl : Forall2 left_over ts gs) by (eapply Forall2_impl, untouched_leftover; done).
  looking_step HW He. apply wp_bind.
  eapply wp_settling; [done..|intros w; apply Clear_outcome|done|]. intros [] s9 Hr. by apply wp_ret, Ho.
Qed.

Lemma settles_bootstrap j guard : looking guard -> Forall2 named ts (WsTypes.Files j) -> settles (discardBootstrapRecovery policy j guard).
Proof.
  intros Hg Hn gs s Q HW Hl He Ho. unfold discardBootstrapRecovery. do 4 looking_step HW He.
  apply wp_bind. eapply wp_removing; [done..|]. clear gs HW Hl. intros gs s' HW Hu.
  assert (Hl : Forall2 left_over ts gs) by (eapply Forall2_impl, untouched_leftover; done).
  do 3 looking_step HW He. apply wp_bind.
  eapply wp_settling; [done..|intros w; apply Clear_outcome|done|]. intros [] s9 Hr. by apply wp_ret, Ho.
Qed.

Lemma settles_accept finalizing j guard validator : looking guard -> (forall sources, looking (validator sources)) ->
  Forall2 named ts (WsTypes.Files j) -> settles (accept_current policy finalizing j guard validator).
Proof.
  intros Hg Hv Hn gs s Q HW Hl He Ho. unfold accept_current.
  do 11 looking_step HW He. apply wp_bind. eapply wp_removing; [done..|]. clear gs HW Hl. intros gs s' HW Hu.
  assert (Hl : Forall2 left_over ts gs) by (eapply Forall2_impl, untouched_leftover; done).
  do 2 looking_step HW He. apply wp_bind.
  eapply wp_settling; [done..|intros w; apply FinalizeEdit_outcome|done|]. intros [] s99 Hr. by apply wp_ret, Ho.
Qed.

(** Whatever the resolution. *)
Lemma wp_ResolveRecovery resolution guard validator gs Q s :
  looking guard -> (forall sources, looking (validator sources)) ->
  (forall j, journal_of service_uid (tables s) = Ok j -> Forall2 named ts (WsTypes.Files j)) ->
  Within gs s -> Forall2 left_over ts gs ->
  (forall e s', resolvable (s_disk s') (tables s') -> Q (Err e) s') -> (forall a s', concluded (s_disk s') (tables s') -> Q (Ok a) s') ->
  wp (ResolveRecovery policy resolution guard validator) Q resolvable s.
Proof.
  intros Hg Hv Hn HW Hl He Ho. unfold ResolveRecovery.
  assert (Hold : Forall2 old_only ts gs) by (eapply Forall2_impl, leftover_old; done).
  assert (Hsame : forall s', unchanged s s' -> Within gs s').
  { intros s' [Hd Ht]. unfold Within. rewrite Hd. exact (pending_journalled (system ts gs) _ _ eq_refl _ _ Ht HW). }
  assert (Hstop : forall s', unchanged s s' -> resolvable (s_disk s') (tables s')) by (intros; eapply within_resolvable, Hold; auto).
  apply wp_bind, wp_looking; [apply looking_checkpoint|done|by apply Hstop|done|]. intros r s1 _ U1. destruct r; [|by apply He, Hstop].
  apply wp_bind, wp_looking; [apply looking_InspectRecovery|done|by apply Hstop|done|]. intros r s2 _ U2.
  assert (U : unchanged s s2) by by etransitivity. destruct r as [recovery|]; [|by apply He, Hstop].
  apply wp_bind, wp_mapping, wp_database; [by apply Hstop|]. intros n.
  pose proof (Load_same service_uid (s_db s2) _ eq_refl) as Hw.
  destruct (Load service_uid (s_db s2)) as [[j|e] w'] eqn:El; cbn in *.
  2: { apply He, Hstop. split; [apply U|]. unfold tables at 2. cbn. rewrite Hw. apply U. }
  assert (Hj : Forall2 named ts (WsTypes.Files j)) by (apply Hn; rewrite <- (journal_of_same _ _ _ (proj2 U)); by eapply Load_journal).
  assert (HW' : Within gs (mk_sys (s_disk s2) w' n)).
  { apply Hsame. split; [apply U|]. unfold tables at 2. cbn. rewrite Hw. apply U. }
  revert HW'. generalize (mk_sys (s_disk s2) w' n). clear - alone sep Hg Hv Hl Hold Hj He Ho. intros s HW.
  apply wp_bind, wp_guard; intros _; [by eapply He, within_resolvable|].
  assert (Hguard : forall b e k, settles k -> wp (_ ← guard_if b e; k) Q resolvable s).
  { intros b e k Hk. apply wp_bind, wp_guard; intros _; [by eapply He, within_resolvable|]. by eapply Hk. }
  destruct resolution; [apply Hguard|apply Hguard|apply Hguard|by eapply wp_raise, He, within_resolvable].
  - destruct (WsTypes.Bootstrap j); [by apply settles_bootstrap|by apply settles_discard].
  - intros gs' s' Q' HW' Hl' He' Ho'. apply wp_bind, wp_guard; intros _.
    + eapply He', within_resolvable; [done|]. eapply Forall2_impl, leftover_old; done.
    + by eapply settles_accept.
  - by apply settles_accept.
Qed.
End Recovery.
