(* ===== verification/WsExample.v ===== *)
(** A native edit on a small disk: the configuration "a" becomes "b", which
    names a dotenv file that is created.  The concrete machine, YAML decoder
    and digest are what the witnesses of the other files run on. *)
From stdpp Require Import gmap.
From S2P Require Import Prelude.
From S2P Require Import GoTime.
From S2P Require Import Effects.
From S2P Require Import WsTypes.
From S2P Require Import WsJournal.
From S2P Require Import WsDisk.
From S2P Require Import WsAudit.
From S2P Require Import WsYaml.
From S2P Require Import WsInspect.
From S2P Require Import WsSelect.
From S2P Require Import WsStore.
From S2P Require Import WsEdit.
From S2P Require Import WsCommit.
From S2P Require Import WsBootstrap.
From S2P Require Import WsRecovery.

#[local] Open Scope Z_scope.

(** A digest of 64 hexadecimal digits. *)
Definition checksum (data : bytes) : Z := fold_left (fun h c => Z.land (h * 33 + b2z c) 16777215) data 5381.
Definition hex_digit (n : Z) : Ascii.ascii := nth (Z.to_nat n) (to_bytes "0123456789abcdef") "0"%char.
Fixpoint hex_digits (width : nat) (n : Z) : bytes :=
  match width with O => [] | Datatypes.S width => hex_digits width (n / 16) ++ [hex_digit (n mod 16)] end.
Definition digest (data : bytes) : bytes := hex_digits 64 (checksum data).

(** The configuration "b" has a DNS challenge with a dotenv file. *)
Definition scalar (text : string) : Node := mk_node ScalarNode str_tag (to_bytes text) [].
Definition mapping_of (l : list (string * Node)) : Node := mk_node MappingNode [] [] (concat (map (fun '(k, v) => [scalar k; v]) l)).
Definition root_of (data : bytes) : Node :=
  if bool_decide (data = to_bytes "b")
  then mapping_of [("storage", scalar "data"); ("challenges", mapping_of [("main", mapping_of [("dns", mapping_of [("envFile", scalar ".env")])])])]%string
  else mapping_of [("storage", scalar "data")]%string.
#[export] Instance decoder : Yaml := {| yaml_decode data := Some (mk_node DocumentNode [] [] [root_of data], true) |}.

(** The service runs as user 1000. *)
Definition policy : Policy := mk_policy 1000 [1000] 65536 16 0.
#[export] Instance machine : Machine :=
  {| plan := fun _ => Proceed; others := fun _ d => d; clock := fun n => 1700000000000000000 + Z.of_nat n; service_uid := 1000; service_gid := 1000;
     sha256 := digest |}.

Definition dir_at (uid : Z) (mode : Z) (e : list (string * Z)) : directory :=
  let e := list_to_map ((fun '(k, v) => (to_bytes k, v)) <$> e) in
  mk_directory (S_IFDIR + mode) uid uid 2 4096 0 0 e [e].
Definition small_disk : disk :=
  mk_disk 7 1 10 {[ 4 := mk_inode (S_IFREG + 384) 1000 1000 1 0 0 (to_bytes "a") true ]}
    (list_to_map [(1, dir_at 0 493 [("w", 2)]); (2, dir_at 1000 448 [(".lego.yml", 4); ("data", 3)]); (3, dir_at 1000 448 [])])%string.

Definition no_rows : SDb := mk_db None [] None.
Definition start : sys (Selection := SelectionRows) := mk_sys small_disk (mk_world no_rows []) 0.

Definition request : Request := mk_request (to_bytes "/w") [].

(** Inspect, store the selection and read its sources. *)
Definition snapshot : X (Selection := SelectionRows) SourceSet :=
  review ← Inspect policy request;
  now ← now_utc;
  _ ← database (Store_Save (mk_selection review now));
  Snapshot policy.
Definition snapshot_run : option (result WsError SourceSet) * sys (Selection := SelectionRows) := snapshot start.
Definition reviewed : sys (Selection := SelectionRows) := snapshot_run.2.
Definition edit_plan : CommitPlan :=
  mk_plan (match snapshot_run.1 with Some (Ok sources) => Some sources | _ => None end) (to_bytes "b")
    [mk_replacement RoleConfiguration (to_bytes "/w/.lego.yml") (to_bytes "b"); mk_replacement RoleDotenv (to_bytes "/w/.env") (to_bytes "K=1")].
Definition edit_id : bytes := to_bytes "0123456789abcdef0123456789abcdef".
Definition edit : X (Selection := SelectionRows) Selection := Commit policy edit_id edit_plan (mret tt).

(** What an edit ends with: whether it succeeded, the two files, the names in
    the directory and whether a journal is stored. *)
Definition ending (r : option (result WsError Selection) * sys (Selection := SelectionRows)) : option bool * list (option bytes) * bool :=
  (match r.1 with Some o => Some (is_ok o) | None => None end,
   [content_at (s_disk r.2) 2 (to_bytes ".lego.yml"); content_at (s_disk r.2) 2 (to_bytes ".env")],
   bool_decide (edit_journal (w_db (s_db r.2)) = None)).

Example edit_succeeds : ending (edit reviewed) = (Some true, [Some (to_bytes "b"); Some (to_bytes "K=1")], true).
Proof. vm_compute. reflexivity. Qed.

(** ** A first configuration *)

Definition first_disk : disk :=
  mk_disk 7 1 10 ∅ (list_to_map [(1, dir_at 0 493 [("w", 2)]); (2, dir_at 1000 448 [("data", 3)]); (3, dir_at 1000 448 [])])%string.
Definition first_start : sys (Selection := SelectionRows) := mk_sys first_disk (mk_world no_rows []) 0.
Definition first_plan : BootstrapPlan :=
  mk_bootstrap_plan (mk_bootstrap_request (to_bytes "/w") []) (to_bytes "b") (pl_Replacements edit_plan).
Definition bootstrap : X (Selection := SelectionRows) Selection := Bootstrap policy edit_id first_plan (mret tt).

Example bootstrap_succeeds : ending (bootstrap first_start) = (Some true, [Some (to_bytes "b"); Some (to_bytes "K=1")], true).
Proof. vm_compute. reflexivity. Qed.

(** ** An interrupted edit *)

(** The machine that stops at call [n]. *)
Definition stopping (n : nat) : Machine :=
  {| plan := fun k => if Nat.leb n k then Crash else Proceed; others := fun _ d => d; clock := @clock machine;
     service_uid := 1000; service_gid := 1000; sha256 := digest |}.

(** The configuration "a" becomes "c"; the process stops before the directory
    with the exchanged files is synchronized. *)
Definition single_plan : CommitPlan :=
  mk_plan (pl_Sources edit_plan) (to_bytes "c") [mk_replacement RoleConfiguration (to_bytes "/w/.lego.yml") (to_bytes "c")].
Definition cut : sys (Selection := SelectionRows) := (@Commit (stopping 440) _ policy edit_id single_plan (mret tt) reviewed).2.

(** After a restart the directories and files are what the disk holds. *)
Definition restart_inode (f : inode) : inode :=
  mk_inode (i_mode f) (i_uid f) (i_gid f) (i_nlink f) (i_mtime f) (i_ctime f) (i_content f) true.
Definition restart_directory (n : directory) : directory :=
  mk_directory (d_mode n) (d_uid n) (d_gid n) (d_nlink n) (d_size n) (d_mtime n) (d_ctime n) (d_entries n) [d_entries n].
Definition restart (d : disk) : disk :=
  mk_disk (dk_device d) (dk_root d) (dk_next d) (restart_inode <$> dk_files d) (restart_directory <$> dk_dirs d).
Definition restarted : sys (Selection := SelectionRows) := mk_sys (restart (s_disk cut)) (s_db cut) (s_steps cut).

Definition finalizing : X (Selection := SelectionRows) RecoveryResult :=
  ResolveRecovery policy ResolutionFinalizeApplied (mret tt) (fun _ => mret tt).
