(* ===== verification/WsCorrect.v ===== *)
(** What the workspace component guarantees: the properties of the native
    edit, of the path audit and of the inspection. *)
From stdpp Require Import gmap.
From S2P Require Import Prelude.
From S2P Require Import Effects.
From S2P Require Import WsTypes.
From S2P Require Import WsJournal.
From S2P Require Import WsDisk.
From S2P Require Import WsAudit.
From S2P Require Import WsYaml.
From S2P Require Import WsInspect.
From S2P Require Import WsSelect.
From S2P Require Import WsStore.
From S2P Require Import WsEdit.
From S2P Require Import WsCommit.
From S2P Require Import WsRun.
From S2P Require Import WsFacts.
From S2P Require Import WsSafety.
From S2P Require Import WsLooking.
From S2P Require Import WsCommitSafe.
From S2P Require Import WsExample.

#[local] Open Scope Z_scope.

(** ** Crash safety of an edit *)

(** A target as it was before the edit, and as the edit wants it: the bytes
    under its name, with nothing under the two names the edit works with. *)
Definition clean_at (d : disk) (t : target) : Prop :=
  entry_of d (t_dir t) (t_stage t) = None /\ entry_of d (t_dir t) (t_quarantine t) = None.
Definition old_at (d : disk) (t : target) : Prop := content_at d (t_dir t) (t_name t) = snd <$> t_old t.
Definition new_at (d : disk) (t : target) : Prop := content_at d (t_dir t) (t_name t) = Some (t_new t).

Lemma whole_after d d' t g : entry_ok d t g -> power_loss d d' -> whole t g -> old_at d' t \/ new_at d' t.
Proof.
  intros E P W. destruct (entry_survives _ _ _ _ E P) as [(v & Hv & Hc) _]. unfold old_at, new_at. rewrite Hc.
  apply W in Hv as [->|(c & ->)]; [by left|by right].
Qed.
Lemma untouched_after d d' t g : entry_ok d t g -> power_loss d d' -> untouched t g -> old_at d' t /\ clean_at d' t.
Proof.
  intros E P ->. destruct (entry_survives _ _ _ _ E P) as [(v & ->%list_elem_of_singleton & Hc) Hcl]. by split; [|apply Hcl].
Qed.
Lemma renewed_after d d' t g : entry_ok d t g -> power_loss d d' -> renewed t g -> new_at d' t /\ clean_at d' t.
Proof.
  intros E P (c & ->). destruct (entry_survives _ _ _ _ E P) as [(v & ->%list_elem_of_singleton & Hc) Hcl]. by split; [|apply Hcl].
Qed.

(** From ghost states to targets. *)
Lemma all_targets (P : target -> ghost -> Prop) (Q : target -> Prop) ts gs d :
  system ts gs d -> Forall2 P ts gs -> (forall t g, entry_ok d t g -> P t g -> Q t) -> Forall Q ts.
Proof.
  intros [E _ _ _] HP HQ. apply Forall_lookup_2. intros k t Ht. destruct (Forall2_lookup_l _ _ _ _ _ HP Ht) as (g & Hg & HPg).
  eapply HQ; [|done]. by eapply (Forall2_lookup_lr _ _ _ _ _ _ E).
Qed.

(** What a power loss leaves of an edit of [ts]. *)
Record survives (ts : list target) (d : disk) (w : Db SelectionRows) : Prop := mk_survives {
  sv_whole : Forall (fun t => old_at d t \/ new_at d t) ts;
  sv_settled : edit_journal w = None ->
    Forall (fun t => old_at d t /\ clean_at d t) ts \/ Forall (fun t => new_at d t /\ clean_at d t) ts;
}.

Lemma consistent_survives ts d d' w : consistent ts d w -> power_loss d d' -> survives ts d' w.
Proof.
  intros (gs & HS & Hc) P. destruct Hc as [Hu|[(Hp & Hw)|(Hp & Hr)]]; constructor.
  - eapply all_targets; [done..|]. intros t g E Hg. eapply whole_after; [done..|]. by apply old_whole, untouched_old.
  - intros _. left. eapply all_targets; [done..|]. intros t g E Hg. by eapply untouched_after.
  - eapply all_targets; [done..|]. intros t g E Hg. by eapply whole_after.
  - intros Hn. destruct Hp. congruence.
  - eapply all_targets; [done..|]. intros t g E Hg. eapply whole_after; [done..|]. by apply renewed_whole.
  - intros _. right. eapply all_targets; [done..|]. intros t g E Hg. by eapply renewed_after.
Qed.

(** What the final state of an edit means after a power loss. *)
Lemma edit_survives `{Machine} {A} (m : X (Selection := SelectionRows) A) ts s :
  (forall Q : result WsError A -> sys (Selection := SelectionRows) -> Prop,
    (forall e s', consistent ts (s_disk s') (tables s') -> Q (Err e) s') ->
    (forall a s', committed ts (s_disk s') (tables s') -> Q (Ok a) s') -> wp m Q (consistent ts) s) ->
  let '(r, s') := m s in
  forall d, power_loss (s_disk s') d ->
    survives ts d (tables s')
    /\ (forall a, r = Some (Ok a) -> edit_journal (tables s') = None /\ Forall (fun t => new_at d t /\ clean_at d t) ts).
Proof.
  intros Hm. specialize (Hm (fun r s' => consistent ts (s_disk s') (tables s') /\ (forall a, r = Ok a -> committed ts (s_disk s') (tables s')))).
  assert (Hw := Hm). unfold wp in Hw. destruct (m s) as [[r|] s']; intros d P.
  - destruct Hw as [Hc Hok].
    + by intros e s2 Hc.
    + intros a s2 Hc. split; [|done]. destruct Hc as (Hn & gs & HS & Hr). exists gs. split; [done|]. by right; right.
    + split; [by eapply consistent_survives|]. intros a [= ->].
      destruct (Hok _ eq_refl) as (Hn & gs & HS & Hr). split.
      * destruct (edit_journal (tables s')) eqn:E; [|done]. destruct Hn. by eexists.
      * eapply all_targets; [done..|]. intros t g E Hg'. by eapply renewed_after.
  - split; [|done]. eapply consistent_survives, P. apply Hw.
    + by intros e s2 Hc.
    + intros a s2 Hc. split; [|done]. destruct Hc as (Hn & gs & HS & Hr). exists gs. split; [done|]. by right; right.
Qed.

(** C1: However the calls of a native edit fail and wherever it is stopped, a
    power loss afterwards leaves every edited file with its old or its new
    bytes, whole.  When no journal is stored the files are all old or all new,
    with no staging or quarantine name left in their directories; and when the
    edit reports success they are all new and no journal is stored. *)
Theorem Commit_survives_power_loss `{Machine} `{Yaml} policy id plan guard ts s :
  quiet -> looking guard -> separate ts -> planned ts (s_disk s) id (sortReplacements (pl_Replacements plan)) -> Idle ts s ->
  let '(r, s') := Commit policy id plan guard s in
  forall d, power_loss (s_disk s') d ->
    survives ts d (tables s')
    /\ (forall selection, r = Some (Ok selection) -> edit_journal (tables s') = None /\ Forall (fun t => new_at d t /\ clean_at d t) ts).
Proof.
  intros Hq Hg Hsep HP HI. apply edit_survives. intros Q He Ho. by eapply (wp_Commit Hq ts Hsep).
Qed.

(** In a synchronized directory a file is ready to be edited. *)
Lemma synchronized_entry d t n :
  dk_dirs d !! t_dir t = Some n -> d_versions n = [d_entries n] -> d_entries n !! t_name t = inode_of (t_old t) ->
  d_entries n !! t_stage t = None -> d_entries n !! t_quarantine t = None -> holds d (t_old t) -> entry_ok d t (idle (t_old t)).
Proof.
  intros Hn Hv Ht Hs Hq Ho. constructor; [|by constructor|done]. exists n. split; [done|].
  constructor; cbn; rewrite ?Hv; [by left| |done..|]; [intros e ->%list_elem_of_singleton; rewrite Ht; by left|].
  intros _ e ->%list_elem_of_singleton. done.
Qed.

(** The example edit. *)
Definition example_targets : list target :=
  [mk_target 2 (to_bytes ".env") (stage_basename edit_id 0) None (to_bytes "K=1");
   mk_target 2 (to_bytes ".lego.yml") (stage_basename edit_id 1) (Some (4, to_bytes "a")) (to_bytes "b")].

Lemma reviewed_disk : s_disk reviewed = small_disk.
Proof. vm_compute. reflexivity. Qed.

Lemma example_separate : separate example_targets.
Proof. apply separate_check. vm_compute. reflexivity. Qed.
Lemma example_planned : planned example_targets (s_disk reviewed) edit_id (sortReplacements (pl_Replacements edit_plan)).
Proof.
  rewrite reviewed_disk. constructor; [vm_compute; reflexivity|].
  intros [|[|k]] r t Hr [= <-]; vm_compute in Hr; injection Hr as <-; split_and!; vm_compute; reflexivity.
Qed.
Lemma example_idle : Idle example_targets reviewed.
Proof.
  exists [idle None; idle (Some (4, to_bytes "a"))]. rewrite reviewed_disk. split; [|by constructor; [|constructor; [|constructor]]].
  assert (Hin : forall k g i, [idle None; idle (Some (4, to_bytes "a"))] !! k = Some g -> inodes g i -> k = 1%nat /\ i = 4).
  { intros [|[|k]] g i [= <-] [[b [=]]|[Hi|[=]]]; cbn in Hi; apply list_elem_of_singleton in Hi; [done|by injection Hi as ->]. }
  constructor.
  - constructor; [|constructor; [|constructor]]; (eapply synchronized_entry; [vm_compute; reflexivity..|]); [exact I|].
    eexists. vm_compute. repeat split.
  - intros k g i Hg Hi. destruct (Hin _ _ _ Hg Hi) as [_ ->]. done.
  - intros j k g g' i Hjk Hj Hk Hi Hi'. destruct (Hin _ _ _ Hj Hi), (Hin _ _ _ Hk Hi'). congruence.
  - intros i Hi. cbn in *. apply lookup_singleton_ne. lia.
Qed.

Theorem Commit_survives_power_loss_witness :
  let '(r, s') := Commit policy edit_id edit_plan (mret tt) reviewed in
  forall d, power_loss (s_disk s') d ->
    survives example_targets d (tables s')
    /\ (forall selection, r = Some (Ok selection) -> edit_journal (tables s') = None /\ Forall (fun t => new_at d t /\ clean_at d t) example_targets).
Proof.
  apply (Commit_survives_power_loss policy edit_id edit_plan (mret tt) example_targets reviewed).
  - intros n d. reflexivity.
  - apply looking_ret.
  - apply example_separate.
  - apply example_planned.
  - apply example_idle.
Defined.

(** ** Trust in the paths *)

(** C18: A path audit always answers, and a path it calls safe has earned it:
    the audit has no diagnostic, every directory on the way was seen, is owned
    by root or the service and is not writable by others, no component is a
    symbolic link, the file has the expected type, permissions and access, and
    on an unchanging disk the metadata are those of the file the path leads to.
    The handle for reading is given exactly to safe regular files. *)
Theorem auditPath_safe_is_accepted `{Machine} path role reference r policy (s : sys (Selection := SelectionRows)) :
  match (auditPath path role reference r policy s).1 with
  | Some (Ok a) =>
      (pe_Safe (evidence a) = true <-> diagnostics a = [])
      /\ (pe_Safe (evidence a) = true ->
          accepted policy r (s_disk s) path (evidence a) /\ (is_Some (file a) <-> readHandle r = true /\ pe_Type (evidence a) = PathTypeRegular))
  | Some (Err _) => False
  | None => True
  end.
Proof.
  pose proof (auditPath_post path role reference r policy s) as Hw. unfold wp in Hw.
  destruct (auditPath path role reference r policy s) as [[[a|e]|] s']; [exact Hw|exact Hw|exact I].
Qed.

(** C17: A review that an inspection calls adoptable consists of accepted paths
    only: the working directory of the request, the configuration the request
    or the conventional names lead to, the storage, every dotenv file and
    every webroot passed the audit for its role, no blocking diagnostic is
    left, and the fingerprint is the digest of exactly this evidence. *)
Theorem Inspect_adoptable_is_trusted `{Machine} `{Yaml} policy request (s : sys (Selection := SelectionRows)) :
  match (Inspect policy request s).1 with
  | Some (Ok review) => rv_Adoptable review = true -> trusted_review policy (s_disk s) request review
  | _ => True
  end.
Proof.
  pose proof (gives_Inspect policy (s_disk s) request) as [_ Hg]. specialize (Hg s).
  destruct (Inspect policy request s) as [[[review|e]|] s']; [|exact I..]. exact (Hg review s' (fun _ => eq_refl) eq_refl).
Qed.
