(* ===== verification/WsRecoveryCorrect.v ===== *)
(** What bootstrapping and recovery guarantee, and where recovery depends on a
    directory that was never synchronized. *)
From stdpp Require Import gmap.
From S2P Require Import Prelude.
From S2P Require Import Effects.
From S2P Require Import WsTypes.
From S2P Require Import WsJournal.
From S2P Require Import WsDisk.
From S2P Require Import WsAudit.
From S2P Require Import WsYaml.
From S2P Require Import WsInspect.
From S2P Require Import WsSelect.
From S2P Require Import WsStore.
From S2P Require Import WsEdit.
From S2P Require Import WsCommit.
From S2P Require Import WsBootstrap.
From S2P Require Import WsRecovery.
From S2P Require Import WsRun.
From S2P Require Import WsFacts.
From S2P Require Import WsSafety.
From S2P Require Import WsCommitSafe.
From S2P Require Import WsRecoverySafe.
From S2P Require Import WsExample.
From S2P Require Import WsCorrect.

#[local] Open Scope Z_scope.

(** ** A disk an edit left behind *)

(** A synchronized directory: the target holds [t_old t], at most one of the
    two working names is in use, and not for the target's own file. *)
Definition name_inode (d : disk) (t : target) (name : bytes) : option Z := entry_of d (t_dir t) name.
Record settled_entry (d : disk) (t : target) : Prop := mk_settled_entry {
  sn_dir : exists n, dk_dirs d !! t_dir t = Some n /\ d_versions n = [d_entries n];
  sn_target : name_inode d t (t_name t) = inode_of (t_old t);
  sn_holds : holds d (t_old t);
  sn_one : name_inode d t (t_stage t) = None \/ name_inode d t (t_quarantine t) = None;
  sn_other : forall name i, name = t_stage t \/ name = t_quarantine t -> name_inode d t name = Some i -> inode_of (t_old t) <> Some i;
}.
Definition uses (d : disk) (t : target) (i : Z) : Prop := exists name, name ∈ own_names t /\ name_inode d t name = Some i.
Record interrupted (ts : list target) (d : disk) : Prop := mk_interrupted {
  in_entries : Forall (settled_entry d) ts;
  in_numbers : forall t i, t ∈ ts -> uses d t i -> i < dk_next d;
  in_apart : forall j k t t' i, j <> k -> ts !! j = Some t -> ts !! k = Some t' -> uses d t i -> uses d t' i -> False;
  in_fresh : fresh_above d;
}.

Definition left_place (d : disk) (t : target) : option (bool * Z) :=
  match name_inode d t (t_stage t) with
  | Some i => Some (false, i)
  | None => match name_inode d t (t_quarantine t) with Some i => Some (true, i) | None => None end
  end.
Definition left_ghost (d : disk) (t : target) : ghost := mk_ghost [t_old t] (left_place d t) false None.

Lemma left_ghost_leftover d t : settled_entry d t -> left_over t (left_ghost d t).
Proof.
  intros [_ _ _ _ Ho]. split_and!; [done..|]. cbn. unfold left_place.
  destruct (name_inode d t (t_stage t)) eqn:E1; [by eapply Ho; [left|]|].
  destruct (name_inode d t (t_quarantine t)) eqn:E2; [by eapply Ho; [right|]|done].
Qed.
Lemma left_ghost_ok d t : settled_entry d t -> entry_ok d t (left_ghost d t).
Proof.
  intros [(n & Hn & Hv) Ht Hh H1 _]. constructor; [|by constructor|done]. exists n. split; [done|].
  unfold name_inode, entry_of in *. rewrite Hn in *. cbn in *.
  assert (Hp : left_place d t = match d_entries n !! t_stage t with Some i => Some (false, i) | None =>
    match d_entries n !! t_quarantine t with Some i => Some (true, i) | None => None end end).
  { unfold left_place, name_inode, entry_of. by rewrite Hn. }
  constructor; cbn; rewrite ?Hv, ?Hp; [by left| | | |done].
  - intros e ->%list_elem_of_singleton. rewrite Ht. by left.
  - destruct (d_entries n !! t_stage t); [done|]. by destruct (d_entries n !! t_quarantine t).
  - destruct (d_entries n !! t_stage t) eqn:E1; [by destruct H1 as [ | -> ]|]. by destruct (d_entries n !! t_quarantine t).
Qed.
Lemma left_ghost_uses d t i : settled_entry d t -> inodes (left_ghost d t) i -> uses d t i.
Proof.
  intros [_ Ht _ _ _] [[b Hb]|[Hk|Hr]]; [| |done]; cbn in *.
  - unfold left_place in Hb. destruct (name_inode d t (t_stage t)) eqn:E1.
    + injection Hb as _ ->. exists (t_stage t). split; [set_solver|done].
    + destruct (name_inode d t (t_quarantine t)) eqn:E2; [|done]. injection Hb as _ ->. exists (t_quarantine t). split; [set_solver|done].
  - apply list_elem_of_singleton in Hk. exists (t_name t). split; [set_solver|congruence].
Qed.

Lemma interrupted_system ts d : interrupted ts d -> system ts (left_ghost d <$> ts) d /\ Forall2 left_over ts (left_ghost d <$> ts).
Proof.
  intros [E N A F]. rewrite Forall_lookup in E. split; [constructor|]; [..|done|].
  - apply Forall2_fmap_r, Forall_Forall2_diag, Forall_lookup. intros k t Ht. by eapply left_ghost_ok, E.
  - intros k g i (t & -> & Ht)%list_lookup_fmap_Some Hi. apply (N t i); [by eapply list_elem_of_lookup_2|]. by eapply left_ghost_uses, Hi; eapply E.
  - intros j k g g' i Hjk (t & -> & Ht)%list_lookup_fmap_Some (t' & -> & Ht')%list_lookup_fmap_Some Hi Hi'.
    eapply (A j k); [done..| |]; by eapply left_ghost_uses; [eapply E|].
  - apply Forall2_fmap_r, Forall_Forall2_diag, Forall_lookup. intros k t Ht. by eapply left_ghost_leftover, E.
Qed.

(** ** Recovery *)

Lemma old_only_after d d' t g : entry_ok d t g -> power_loss d d' -> old_only t g -> old_at d' t.
Proof.
  intros E P Hk. destruct (entry_survives _ _ _ _ E P) as [(v & Hv & Hc) _]. rewrite Hk in Hv.
  by apply list_elem_of_singleton in Hv as ->.
Qed.

(** C11: When the directories of an interrupted edit are synchronized, as they
    are after a restart of the machine, and no other process writes the disk,
    resolving the edit never changes one of its files.  However calls fail and
    wherever the process stops, a power loss afterwards leaves every target with
    exactly the bytes it had, when no journal is stored any more nothing is left
    at the staging and quarantine names, and a resolution that reports success
    has removed the journal.  Before the directories are synchronized this does
    not hold: see [recovery_can_empty_target]. *)
Theorem ResolveRecovery_keeps_targets `{Machine} `{Yaml} policy resolution guard validator ts s :
  quiet -> looking guard -> (forall sources, looking (validator sources)) -> separate ts -> interrupted ts (s_disk s) ->
  (exists j, journal_of service_uid (tables s) = Ok j /\ Forall2 named ts (WsTypes.Files j)) ->
  let '(r, s') := ResolveRecovery policy resolution guard validator s in
  forall d, power_loss (s_disk s') d ->
    Forall (old_at d) ts
    /\ (edit_journal (tables s') = None -> Forall (clean_at d) ts)
    /\ (forall result, r = Some (Ok result) -> edit_journal (tables s') = None).
Proof.
  intros Hq Hg Hv Hsep HI (j & Hj & Hn). apply interrupted_system in HI as [HS HL].
  assert (Hpost : wp (ResolveRecovery policy resolution guard validator)
    (fun r s' => resolvable ts (s_disk s') (tables s') /\ (forall a, r = Ok a -> ~ pending (tables s'))) (resolvable ts) s).
  { eapply (wp_ResolveRecovery Hq policy ts Hsep); [done..| |split; [exact HS|by eapply journal_of_pending]|exact HL| |].
    - intros j' Hj'. by replace j' with j by congruence.
    - by intros e s' Hr.
    - intros a s' Hr. split; [by apply concluded_resolvable|]. by intros _ _; apply Hr. }
  unfold wp in Hpost. destruct (ResolveRecovery _ _ _ _ s) as [r s']. intros d P.
  assert (Hr : resolvable ts (s_disk s') (tables s')) by (destruct r; [apply Hpost|done]).
  destruct Hr as (gs & HS' & Ho & Hc). split_and!.
  - eapply all_targets; [done..|]. intros t g E Hg'. by eapply old_only_after.
  - intros Hnone. destruct Hc as [Hp|Hu]; [destruct Hp; congruence|]. eapply all_targets; [done..|].
    intros t g E Hg'. by eapply untouched_after.
  - intros result ->. destruct Hpost as [_ Hok]. destruct (edit_journal (tables s')) eqn:Ej; [|done].
    exfalso. eapply Hok; [done|]. by eexists.
Qed.

(** The example: the edit of one file that stopped right after its files were
    exchanged, after a restart. *)
Definition cut_target : target := mk_target 2 (to_bytes ".lego.yml") (stage_basename edit_id 0) (Some (10, to_bytes "c")) (to_bytes "c").

Lemma cut_separate : separate [cut_target].
Proof. apply separate_check. vm_compute. reflexivity. Qed.
Definition restarted_disk : disk := Eval vm_compute in s_disk restarted.
Lemma restarted_is : s_disk restarted = restarted_disk.
Proof. vm_compute. reflexivity. Qed.
Lemma cut_names i name : name ∈ own_names cut_target -> name_inode restarted_disk cut_target name = Some i -> i = 10 \/ i = 4.
Proof.
  unfold own_names. rewrite !elem_of_cons. intros [-> | [-> | [-> | Hn]]]; [| | |by apply elem_of_nil in Hn]; vm_compute; intros [= <-]; auto.
Qed.
Lemma cut_interrupted : interrupted [cut_target] (s_disk restarted).
Proof.
  rewrite restarted_is. constructor.
  - constructor; [|constructor]. constructor.
    + eexists. split; vm_compute; reflexivity.
    + vm_compute. reflexivity.
    + eexists. split_and!; vm_compute; reflexivity.
    + right. vm_compute. reflexivity.
    + intros name i [-> | ->]; vm_compute; [|done]. intros [= <-]. done.
  - intros t i ->%list_elem_of_singleton (name & Hn & Hi). destruct (cut_names _ _ Hn Hi) as [-> | ->]; vm_compute; reflexivity.
  - intros [|j] [|k] t t' i Hjk; try done; cbn; rewrite ?lookup_nil; done.
  - apply fresh_above_check. vm_compute. reflexivity.
Qed.

Theorem ResolveRecovery_keeps_targets_witness :
  let '(r, s') := ResolveRecovery policy ResolutionFinalizeApplied (mret tt) (fun _ => mret tt) restarted in
  forall d, power_loss (s_disk s') d ->
    Forall (old_at d) [cut_target]
    /\ (edit_journal (tables s') = None -> Forall (clean_at d) [cut_target])
    /\ (forall result, r = Some (Ok result) -> edit_journal (tables s') = None).
Proof.
  apply (ResolveRecovery_keeps_targets policy ResolutionFinalizeApplied (mret tt) (fun _ => mret tt) [cut_target] restarted).
  - intros n d. reflexivity.
  - apply looking_ret.
  - intros sources. apply looking_ret.
  - apply cut_separate.
  - apply cut_interrupted.
  - eexists. split; [vm_compute; reflexivity|]. constructor; [|constructor]. split_and!; vm_compute; reflexivity.
Defined.

(** ** Recovery before the directory is synchronized *)

Definition cut_short : disk :=
  Eval vm_compute in s_disk (@ResolveRecovery (stopping 1373) _ policy ResolutionFinalizeApplied (mret tt) (fun _ => mret tt) cut).2.
Lemma cut_short_is :
  s_disk (@ResolveRecovery (stopping 1373) _ policy ResolutionFinalizeApplied (mret tt) (fun _ => mret tt) cut).2 = cut_short.
Proof. vm_compute. reflexivity. Qed.

(** Without the restart the promise fails.  The edit stopped between
    recording the placement and synchronizing the directory; recovery then
    calls the edit applied, and finalizing it destroys the displaced original
    before the directory was ever synchronized: a power loss can leave the
    configuration empty. *)
Theorem recovery_can_empty_target :
  let s := (@ResolveRecovery (stopping 1373) _ policy ResolutionFinalizeApplied (mret tt) (fun _ => mret tt) cut).2 in
  match (InspectRecovery policy cut).1 with Some (Ok r) => r_State r = RecoveryApplied | _ => False end
  /\ content_at (s_disk cut) 2 (to_bytes ".lego.yml") = Some (to_bytes "c")
  /\ exists d, power_loss (s_disk s) d /\ content_at d 2 (to_bytes ".lego.yml") = Some [].
Proof.
  cbv zeta. split; [vm_compute; reflexivity|]. split; [vm_compute; reflexivity|].
  rewrite cut_short_is. eexists. split; [eapply (revert_power_loss 2)|].
  - vm_compute. reflexivity.
  - cbn [d_versions]. apply list_elem_of_here.
  - vm_compute. reflexivity.
  - vm_compute. reflexivity.
Qed.

(** ** Bootstrapping *)

(** C12: However the calls of a bootstrap fail and wherever it is stopped, a
    power loss afterwards leaves every file of the new workspace absent as
    before or whole; without a stored journal all of them are absent or all are
    there, with no staging or quarantine name left, and when the bootstrap
    reports success they are all there. *)
Theorem Bootstrap_survives_power_loss `{Machine} `{Yaml} policy id plan guard ts s :
  quiet -> looking guard -> separate ts -> planned ts (s_disk s) id (sortReplacements (bp_Replacements plan)) -> Idle ts s ->
  let '(r, s') := Bootstrap policy id plan guard s in
  forall d, power_loss (s_disk s') d ->
    survives ts d (tables s')
    /\ (forall selection, r = Some (Ok selection) -> edit_journal (tables s') = None /\ Forall (fun t => new_at d t /\ clean_at d t) ts).
Proof.
  intros Hq Hg Hsep HP HI. apply edit_survives. intros Q He Ho. by eapply (wp_Bootstrap Hq policy ts Hsep).
Qed.

Definition first_targets : list target :=
  [mk_target 2 (to_bytes ".env") (stage_basename edit_id 0) None (to_bytes "K=1");
   mk_target 2 (to_bytes ".lego.yml") (stage_basename edit_id 1) None (to_bytes "b")].
Lemma first_separate : separate first_targets.
Proof. apply separate_check. vm_compute. reflexivity. Qed.
Lemma first_planned : planned first_targets (s_disk first_start) edit_id (sortReplacements (bp_Replacements first_plan)).
Proof.
  constructor; [vm_compute; reflexivity|].
  intros [|[|k]] r t Hr [= <-]; vm_compute in Hr; injection Hr as <-; split_and!; vm_compute; reflexivity.
Qed.
Lemma first_idle : Idle first_targets first_start.
Proof.
  exists [idle None; idle None]. split; [|by constructor; [|constructor; [|constructor]]].
  assert (Hin : forall k g i, [idle None; idle None] !! k = Some g -> ~ inodes g i).
  { intros [|[|k]] g i [= <-] [[b [=]]|[Hi|[=]]]; cbn in Hi; by apply list_elem_of_singleton in Hi. }
  constructor.
  - constructor; [|constructor; [|constructor]]; (eapply synchronized_entry; [vm_compute; reflexivity..|]); exact I.
  - intros k g i Hg Hi. by eapply Hin in Hi.
  - intros j k g g' i Hjk Hj Hk Hi Hi'. by eapply Hin in Hi.
  - apply fresh_above_check. vm_compute. reflexivity.
Qed.

Theorem Bootstrap_survives_power_loss_witness :
  let '(r, s') := Bootstrap policy edit_id first_plan (mret tt) first_start in
  forall d, power_loss (s_disk s') d ->
    survives first_targets d (tables s')
    /\ (forall selection, r = Some (Ok selection) -> edit_journal (tables s') = None /\ Forall (fun t => new_at d t /\ clean_at d t) first_targets).
Proof.
  apply (Bootstrap_survives_power_loss policy edit_id first_plan (mret tt) first_targets first_start).
  - intros n d. reflexivity.
  - apply looking_ret.
  - apply first_separate.
  - apply first_planned.
  - apply first_idle.
Defined.

(** ** Dotenv files that challenges share *)

(** A computation that never succeeds. *)
Definition never_ok {A} (m : X (Selection := SelectionRows) A) : Prop := forall s, match (m s).1 with Some (Ok _) => False | _ => True end.

Lemma never_raise {A} e : never_ok (A := A) (raise e).
Proof. done. Qed.
Lemma never_here {A B} (m : X A) (f : A -> X B) : never_ok m -> never_ok (m ≫= f).
Proof. intros Hm s. specialize (Hm s). unfold mbind, X_bind. by destruct (m s) as [[[a|e]|] s']. Qed.
Lemma never_later {A B} (m : X A) (f : A -> X B) : (forall a, never_ok (f a)) -> never_ok (m ≫= f).
Proof. intros Hf s. unfold mbind, X_bind. destruct (m s) as [[[a|e]|] s']; [apply Hf|done..]. Qed.

Lemma removed_stays path other l : replacement_for l path = None -> replacement_for (remove_path other l) path = None.
Proof.
  unfold replacement_for, remove_path. intros Hn. destruct (List.find _ (List.filter _ l)) as [r|] eqn:E; [|done].
  apply find_some in E as [Hin Hp]. apply filter_In in Hin as [Hin _]. by apply (find_none _ _ Hn) in Hin; rewrite Hin in Hp.
Qed.
Lemma removed_is_gone path l : replacement_for (remove_path path l) path = None.
Proof.
  unfold replacement_for, remove_path. destruct (List.find _ (List.filter _ l)) as [r|] eqn:E; [|done].
  apply find_some in E as [Hin Hp]. apply filter_In in Hin as [_ Hin]. by rewrite Hp in Hin.
Qed.

Section Shared.
Context `{Machine} `{Yaml} (policy : Policy).

Lemma missing_never l : forall remaining, List.Exists (fun r => replacement_for remaining (resolved r) = None) l ->
  never_ok (audit_bootstrap_dotenvs policy remaining l).
Proof.
  induction l as [|r l IH]; intros remaining He; [by apply Exists_nil in He|]. cbn. apply Exists_cons in He as [Hn|He].
  - rewrite Hn. apply never_here, never_raise.
  - do 2 (apply never_later; intros). destruct a0 as [path e0]. apply never_here, IH. eapply Exists_impl; [exact He|].
    intros r' Hr'. by apply removed_stays.
Qed.
Lemma shared_never l : forall remaining, ~ NoDup (resolved <$> l) -> never_ok (audit_bootstrap_dotenvs policy remaining l).
Proof.
  induction l as [|r l IH]; intros remaining Hd; [destruct Hd; constructor|]. cbn.
  do 2 (apply never_later; intros). destruct a0 as [path e0]. apply never_here.
  destruct (decide (resolved r ∈ resolved <$> l)) as [Hin|Hout].
  - apply missing_never, Exists_exists. apply list_elem_of_fmap in Hin as (r' & Hr & Hin). exists r'. split; [done|].
    rewrite <- Hr. apply removed_is_gone.
  - apply IH. intros Hn. apply Hd. by constructor.
Qed.
End Shared.

(** A bootstrap whose candidate names one dotenv file for two challenges
    never passes its audit, whatever its replacements are: the first reference
    uses up the only replacement the path may have. *)
Theorem bootstrap_rejects_shared_dotenv `{Machine} `{Yaml} policy request candidate replacements journalExpected (s : sys (Selection := SelectionRows)) :
  (forall path, let '(references, _) := parseNativeReferences path (br_WorkingDirectory request) policy candidate in
                ~ NoDup (resolved <$> dotenv references)) ->
  match (auditBootstrap policy request candidate replacements journalExpected s).1 with Some (Ok _) => False | _ => True end.
Proof.
  intros Hd. revert s. change (never_ok (auditBootstrap policy request candidate replacements journalExpected)). unfold auditBootstrap.
  do 9 (apply never_later; intros ?). apply never_later. intros [[configurationPath source] alternate].
  apply never_later. intros [configuration parent]. apply never_later. intros accepted. specialize (Hd configurationPath).
  destruct (parseNativeReferences _ _ _ _) as [references ds]. do 3 (apply never_later; intros ?).
  apply never_here, shared_never, Hd.
Qed.

(** Two DNS challenges that share a dotenv file. *)
Definition shared_root : Node :=
  let challenge := mapping_of [("dns", mapping_of [("envFile", scalar ".env")])]%string in
  mapping_of [("storage", scalar "data"); ("challenges", mapping_of [("main", challenge); ("other", challenge)])]%string.
Definition shared_decoder : Yaml := {| yaml_decode data := Some (mk_node DocumentNode [] [] [shared_root], true) |}.

Theorem bootstrap_rejects_shared_dotenv_witness :
  match (@auditBootstrap machine shared_decoder policy (bp_Request first_plan) (to_bytes "b") (bp_Replacements first_plan) false first_start).1
  with Some (Ok _) => False | _ => True end.
Proof.
  apply (@bootstrap_rejects_shared_dotenv machine shared_decoder). intros path. vm_compute. intros Hd.
  apply NoDup_cons in Hd as [Hd _]. apply Hd. by left.
Defined.
