(* ===== verification/WsExternal.v ===== *)
(** Credential sources outside the workspace
    (internal/workspace/external_linux.go): one bounded credential file, a
    directory and a helper executable, each audited like the files of the
    workspace. *)
From stdpp Require Import gmap.
From S2P Require Import Prelude.
From S2P Require Import GoText.
From S2P Require Import WsTypes.
From S2P Require Import WsDisk.
From S2P Require Import WsAudit.
From S2P Require Import WsInspect.
From S2P Require Import WsStore.
From S2P Require Import WsEdit.
From S2P Require Import WsCommit.
From S2P Require Import WsRun.
From S2P Require Import WsLooking.

#[local] Open Scope Z_scope.

Record ExternalFile := mk_external_file { ex_Evidence : PathEvidence; ex_Content : bytes; ex_Fingerprint : SourceFingerprint }.

Definition serviceCanExecute (policy : Policy) (e : PathEvidence) : bool :=
  let i := pe_Identity e in
  let permissions := Z.land (Mode i) 511 in
  let bits := if UID i =? EffectiveUID policy then Z.land (Z.shiftr permissions 6) 7
              else if bool_decide (GID i ∈ EffectiveGIDs policy) then Z.land (Z.shiftr permissions 3) 7
              else Z.land permissions 7 in
  negb (Z.land bits 1 =? 0).

Definition credentialRequirements : pathRequirements := mk_requirements PathTypeRegular true true false false false true.
Definition cacheRequirements : pathRequirements := mk_requirements PathTypeDirectory false true false true false false.
Definition helperRequirements : pathRequirements := mk_requirements PathTypeRegular false true false false false false.

Section External.
Context `{Machine} (policy : Policy).
Abbreviation X := (X (Selection := SelectionRows)).

Definition selected_path (path : bytes) : X unit := guard_if (negb (validateSelectedPath path)) (Failure "selected path").

Definition ReadExternalCredential (path : bytes) (limit : Z) : X ExternalFile :=
  _ ← guard_if ((limit <=? 0) || (maximumConfigurationBytes <? limit)) (Failure "external credential inspection is invalid");
  _ ← selected_path path;
  let audit := auditPath path RoleCloudCredential [] credentialRequirements policy in
  audited ← audit;
  match file audited with
  | None => raise ErrSourceChanged
  | Some fd =>
      let changed {A} : X A -> X A := mapping (fun _ => ErrSourceChanged) in
      _ ← guard_if (blocked audited) ErrSourceChanged;
      before ← changed (look (sys_fstat fd));
      _ ← changed checkpoint;
      contents ← changed (look (sys_read fd (limit + 1)));
      _ ← guard_if (limit <? blen contents) ErrSourceChanged;
      after ← changed (look (sys_fstat fd));
      _ ← guard_if (negb (sameStableStat before after) || negb (blen contents =? Size before)) ErrSourceChanged;
      confirmation ← audit;
      _ ← guard_if (negb (samePathEvidence (evidence audited) (evidence confirmation))) ErrSourceChanged;
      mret (mk_external_file (evidence audited) contents (mk_fingerprint path before (sha256 contents)))
  end.

Definition AuditExternalDirectory (path : bytes) : X PathEvidence :=
  _ ← selected_path path;
  audited ← auditPath path RoleCloudDirectory [] cacheRequirements policy;
  _ ← guard_if (blocked audited) ErrSourceChanged;
  '(confirmed, _) ← confirmPath policy (evidence audited) cacheRequirements [];
  _ ← guard_if (negb (pe_Safe confirmed)) ErrSourceChanged;
  mret confirmed.

Definition AuditExternalExecutable (path : bytes) : X PathEvidence :=
  _ ← selected_path path;
  _ ← guard_if (bool_decide (Base path = [slash])) (Failure "path required");
  audited ← auditPath path RoleCloudHelper [] helperRequirements policy;
  _ ← guard_if (blocked audited || negb (serviceCanExecute policy (evidence audited))) ErrSourceChanged;
  '(confirmed, _) ← confirmPath policy (evidence audited) helperRequirements [];
  _ ← guard_if (negb (pe_Safe confirmed) || negb (serviceCanExecute policy confirmed)) ErrSourceChanged;
  mret confirmed.
End External.
