(* ===== verification/WsLease.v ===== *)
(** Workspace leases (internal/workspace/coordinator_linux.go): the lock file
    every process of the service locks, the gate every goroutine of a process
    passes, and the lease a call gets.  Calls of any number of goroutines in any
    number of processes interleave between the points where they can wait or be
    overtaken; the answers of the operating system and of the contexts are
    arguments of the steps. *)
From stdpp Require Import gmap.
From S2P Require Import Prelude.
From S2P Require Import GoText.
From S2P Require Import WsTypes.
From S2P Require Import WsDisk.
From S2P Require Import WsAudit.
From S2P Require Import WsInspect.
From S2P Require Import WsStore.
From S2P Require Import WsEdit.
From S2P Require Import WsCommit.

#[local] Open Scope Z_scope.

(** ** Purposes and the lock file *)

Inductive Purpose :=
| PurposeRead | PurposePreview | PurposeSave | PurposeInventory | PurposeManualRun | PurposeScheduled | PurposeRecovery | PurposeBootstrap
| OtherPurpose (text : string).
Definition validPurpose (p : Purpose) : bool := match p with OtherPurpose _ => false | _ => true end.

(** What [openWorkspaceLock] asks of the file it opened. *)
Definition acceptable_lock (euid : Z) (stat : FileIdentity) : bool :=
  is_regular (Mode stat) && (UID stat =? euid) && (NLink stat =? 1) && (Z.land (Mode stat) 4095 =? 384).
(** The opened file, or an error of [open] and [fstat]. *)
Definition openWorkspaceLock (euid : Z) (opened : option FileIdentity) : result WsError FileIdentity :=
  match opened with
  | None => Err (Failure "open workspace lock")
  | Some stat => if acceptable_lock euid stat then Ok stat else Err (Failure "workspace lock must be private")
  end.

Definition lockParentRequirements : pathRequirements := mk_requirements PathTypeDirectory false true true false false false.
Section Coordinator.
Context `{Machine} (policy : Policy).
(** The identity a coordinator keeps.  [opened] and [confirmed] are the two
    [fstat] results of the lock file, if it could be opened. *)
Definition NewCoordinator (lockPath : bytes) (opened confirmed : option FileIdentity) : X (Selection := SelectionRows) FileIdentity :=
  _ ← guard_if (negb (validateSelectedPath lockPath)) (Failure "workspace lock path");
  _ ← guard_if (bool_decide (Base lockPath = ["."%char]) || bool_decide (Base lockPath = [slash])) (Failure "workspace lock path must name a file");
  parent ← auditPath (Dir lockPath) RoleWorkspace [] lockParentRequirements policy;
  _ ← guard_if (negb (pe_Safe (evidence parent)) || hasBlockingDiagnostics (diagnostics parent)) (Failure "workspace lock parent is unsafe");
  _ ← returning (openWorkspaceLock (EffectiveUID policy) opened);
  match confirmed with Some identity => mret identity | None => raise (Failure "inspect workspace lock") end.
End Coordinator.

(** ** The state of all processes *)

Abbreviation cid := Z.
Abbreviation aid := Z.
(** The inode of an open file: what [flock] locks. *)
Definition inode_key (i : FileIdentity) : Z * Z := (Device i, Inode i).

Inductive LeaseError := InvalidPurpose | Busy | Canceled | OpenFailed (e : WsError) | SourceChanged | LockFailed.
(** Where a call of [acquire] stands, and then its lease: before the gate,
    past it, with the lock file open, with the lock held, leased; in [Release]
    with the flag set, with the lock given back, with the file closed; over. *)
Inductive phase :=
| AtGate | AtOpen | AtLock (inode : Z * Z) | AtCheck (inode : Z * Z)
| Leased (inode : Z * Z) | Releasing (inode : Z * Z) | Unlocked (inode : Z * Z) | Closed
| Finished (e : option LeaseError).
Record attempt := mk_attempt { at_coordinator : cid; at_purpose : Purpose; at_nonblocking : bool; at_phase : phase }.
(** A coordinator: the identity of its lock file and whether its gate is taken. *)
Record Coordinator := mk_coordinator { co_identity : FileIdentity; co_gate : bool }.
(** The locks are the kernel's: which attempt's open file locks an inode. *)
Record world := mk_world { w_coordinators : gmap cid Coordinator; w_attempts : gmap aid attempt; w_locks : gmap (Z * Z) aid }.
Definition no_world : world := mk_world ∅ ∅ ∅.

Definition set_attempt (a : aid) (p : phase) (x : attempt) (w : world) : world :=
  mk_world (w_coordinators w) (<[a := mk_attempt (at_coordinator x) (at_purpose x) (at_nonblocking x) p]> (w_attempts w)) (w_locks w).
Definition set_gate (c : cid) (taken : bool) (w : world) : world :=
  mk_world (alter (fun k => mk_coordinator (co_identity k) taken) c (w_coordinators w)) (w_attempts w) (w_locks w).
Definition set_lock (inode : Z * Z) (a : aid) (w : world) : world := mk_world (w_coordinators w) (w_attempts w) (<[inode := a]> (w_locks w)).
(** The kernel's unlock, and what closing a file does to its own lock. *)
Definition drop_lock (inode : Z * Z) (a : aid) (w : world) : world :=
  if bool_decide (w_locks w !! inode = Some a) then mk_world (w_coordinators w) (w_attempts w) (delete inode (w_locks w)) else w.

(** ** [acquire] *)

(** What a call sees when it goes on: the context is done, or not; the lock
    file with both of its [fstat] results; a lock that fails for another reason
    than being held. *)
Inductive answer := Go | ContextDone | Opens (opened confirmed : option FileIdentity) | FlockFails.

(** A failing call closes the file, gives the gate back and returns. *)
Definition fail (a : aid) (x : attempt) (e : LeaseError) (w : world) : world := set_attempt a (Finished (Some e)) x (set_gate (at_coordinator x) false w).
Definition start (a : aid) (c : cid) (p : Purpose) (nonblocking : bool) (w : world) : world :=
  set_attempt a (if validPurpose p then AtGate else Finished (Some InvalidPurpose)) (mk_attempt c p nonblocking AtGate) w.
Definition pass_gate (a : aid) (x : attempt) (k : Coordinator) (ans : answer) (w : world) : option world :=
  match ans with
  | Go => Some (if co_gate k then if at_nonblocking x then set_attempt a (Finished (Some Busy)) x w else w
                else set_attempt a AtOpen x (set_gate (at_coordinator x) true w))
  | ContextDone => if at_nonblocking x then None else Some (set_attempt a (Finished (Some Canceled)) x w)
  | _ => None
  end.
Definition open_lock (euid : Z) (a : aid) (x : attempt) (k : Coordinator) (ans : answer) (w : world) : option world :=
  match ans with
  | Opens opened confirmed =>
      Some (match openWorkspaceLock euid opened with
            | Err e => fail a x (OpenFailed e) w
            | Ok _ =>
                match confirmed with
                | Some stat => if sameFileIdentity (co_identity k) stat true then set_attempt a (AtLock (inode_key stat)) x w else fail a x SourceChanged w
                | None => fail a x SourceChanged w
                end
            end)
  | _ => None
  end.
Definition take_lock (a : aid) (x : attempt) (inode : Z * Z) (ans : answer) (w : world) : option world :=
  match ans, w_locks w !! inode with
  | Go, None => Some (set_attempt a (AtCheck inode) x (set_lock inode a w))
  | Go, Some _ => Some (if at_nonblocking x then fail a x Busy w else w)
  | ContextDone, Some _ => if at_nonblocking x then None else Some (fail a x Canceled w)
  | FlockFails, _ => Some (fail a x LockFailed w)
  | _, _ => None
  end.
Definition final_check (a : aid) (x : attempt) (inode : Z * Z) (ans : answer) (w : world) : option world :=
  match ans with
  | Go => Some (set_attempt a (Leased inode) x w)
  | ContextDone => Some (fail a x Canceled (drop_lock inode a w))
  | _ => None
  end.

(** ** [Release]

    [once] lets one call through; the flag comes first, then the lock, the file
    and the gate.  An unlock that fails leaves the lock to the close. *)
Definition release_step (a : aid) (x : attempt) (unlocks : bool) (w : world) : option world :=
  match at_phase x with
  | Leased inode => Some (set_attempt a (Releasing inode) x w)
  | Releasing inode => Some (set_attempt a (Unlocked inode) x (if unlocks then drop_lock inode a w else w))
  | Unlocked inode => Some (set_attempt a Closed x (drop_lock inode a w))
  | Closed => Some (set_attempt a (Finished None) x (set_gate (at_coordinator x) false w))
  | _ => None
  end.

(** One step of a call of [acquire]. *)
Definition acquire_step (euid : Z) (a : aid) (ans : answer) (w : world) : option world :=
  x ← w_attempts w !! a;
  k ← w_coordinators w !! at_coordinator x;
  match at_phase x with
  | AtGate => pass_gate a x k ans w
  | AtOpen => open_lock euid a x k ans w
  | AtLock inode => take_lock a x inode ans w
  | AtCheck inode => final_check a x inode ans w
  | _ => None
  end.
Definition Release (a : aid) (unlocks : bool) (w : world) : option world := x ← w_attempts w !! a; release_step a x unlocks w.

(** [Coordinator.owns] *)
Definition owns (w : world) (c : cid) (a : aid) : bool :=
  match w_attempts w !! a with
  | Some x => (at_coordinator x =? c) && match at_phase x with Leased _ => true | _ => false end
  | None => false
  end.
(** [Lease.Purpose]: nothing once it is released. *)
Definition Lease_Purpose (w : world) (a : aid) : option Purpose :=
  match w_attempts w !! a with Some x => match at_phase x with Leased _ => Some (at_purpose x) | _ => None end | None => None end.

(** The end of a process: its goroutines are gone, the kernel closes its files. *)
Definition crash (c : cid) (w : world) : world :=
  let attempts := filter (fun e => at_coordinator e.2 <> c) (w_attempts w) in
  mk_world (delete c (w_coordinators w)) attempts (filter (fun e => is_Some (attempts !! e.2)) (w_locks w)).

(** ** All interleavings *)

Inductive step (euid : Z) (w : world) : world -> Prop :=
| step_coordinator c identity : w_coordinators w !! c = None ->
    step euid w (mk_world (<[c := mk_coordinator identity false]> (w_coordinators w)) (w_attempts w) (w_locks w))
| step_start a c p nonblocking : w_attempts w !! a = None -> is_Some (w_coordinators w !! c) -> step euid w (start a c p nonblocking w)
| step_acquire a ans w' : acquire_step euid a ans w = Some w' -> step euid w w'
| step_release a unlocks w' : Release a unlocks w = Some w' -> step euid w w'
| step_crash c : step euid w (crash c w).
Definition reachable (euid : Z) : world -> Prop := rtc (step euid) no_world.

(** ** The gate *)

(** Between the gate and its return. *)
Definition inside (p : phase) : bool := match p with AtGate | Finished _ => false | _ => true end.
Definition holder (w : world) (c : cid) (a : aid) : Prop :=
  exists x, w_attempts w !! a = Some x /\ at_coordinator x = c /\ inside (at_phase x) = true.
(** A gate is taken exactly while one attempt is past it. *)
Record gates_ok (w : world) : Prop := {
  go_taken : forall c k, w_coordinators w !! c = Some k -> co_gate k = true -> exists a, forall b, holder w c b <-> b = a;
  go_free : forall c k, w_coordinators w !! c = Some k -> co_gate k = false -> forall b, ~ holder w c b;
  go_exists : forall c a x, w_attempts w !! a = Some x -> at_coordinator x = c -> is_Some (w_coordinators w !! c);
}.

Lemma holder_set_attempt a p x w c b : holder (set_attempt a p x w) c b <-> if decide (b = a) then at_coordinator x = c /\ inside p = true else holder w c b.
Proof.
  unfold holder, set_attempt. cbn. destruct (decide (b = a)) as [->|Hne].
  - rewrite lookup_insert_eq. naive_solver.
  - by rewrite lookup_insert_ne.
Qed.
Lemma holder_set_gate g c' w c b : holder (set_gate c' g w) c b <-> holder w c b.
Proof. done. Qed.
Lemma holder_drop_lock inode a w c b : holder (drop_lock inode a w) c b <-> holder w c b.
Proof. unfold drop_lock. by case_bool_decide. Qed.
Lemma coordinators_drop_lock inode a w : w_coordinators (drop_lock inode a w) = w_coordinators w.
Proof. unfold drop_lock. by case_bool_decide. Qed.
Lemma attempts_drop_lock inode a w : w_attempts (drop_lock inode a w) = w_attempts w.
Proof. unfold drop_lock. by case_bool_decide. Qed.

Lemma gates_ok_locks w w' : w_coordinators w' = w_coordinators w -> w_attempts w' = w_attempts w -> gates_ok w -> gates_ok w'.
Proof. destruct w as [C A L], w' as [C' A' L']. cbn. intros -> -> [H1 H2 H3]. by constructor. Qed.
Lemma gates_ok_keep a x p w : w_attempts w !! a = Some x -> inside p = inside (at_phase x) -> gates_ok w -> gates_ok (set_attempt a p x w).
Proof.
  intros Ha Hp [H1 H2 H3].
  assert (Hh : forall c b, holder (set_attempt a p x w) c b <-> holder w c b).
  { intros c b. rewrite holder_set_attempt. destruct (decide (b = a)) as [->|]; [|done]. rewrite Hp. unfold holder. naive_solver. }
  constructor.
  - intros c k Hk Hg. destruct (H1 c k Hk Hg) as [b Hb]. exists b. intros d. by rewrite Hh.
  - intros c k Hk Hg b. rewrite Hh. by apply (H2 c k).
  - intros c b y Hy Hc. cbn in Hy. apply lookup_insert_Some in Hy as [[<- <-]|[Hne Hb]]; [|by eapply H3]. cbn in Hc. by eapply H3.
Qed.
Lemma gates_ok_take a x k p w : w_attempts w !! a = Some x -> w_coordinators w !! at_coordinator x = Some k -> co_gate k = false ->
  inside p = true -> gates_ok w -> gates_ok (set_attempt a p x (set_gate (at_coordinator x) true w)).
Proof.
  intros Ha Hk Hg Hp [H1 H2 H3]. constructor.
  - intros c k' Hk' Hg'. cbn in Hk'. destruct (decide (c = at_coordinator x)) as [->|Hne].
    + exists a. intros b. rewrite holder_set_attempt. destruct (decide (b = a)); [naive_solver|]. rewrite holder_set_gate.
      split; [intros Hb; by apply (H2 _ _ Hk Hg) in Hb|done].
    + rewrite lookup_alter_ne in Hk' by done. destruct (H1 c k' Hk' Hg') as [b Hb]. exists b. intros d. rewrite holder_set_attempt.
      destruct (decide (d = a)) as [->|]; [|apply Hb]. split; [intros [? _]; congruence|]. intros ->.
      assert (Hh : holder w c b) by by apply Hb. destruct Hh as (y & Hy & Hc & _). congruence.
  - intros c k' Hk' Hg' b. cbn in Hk'. destruct (decide (c = at_coordinator x)) as [->|Hne].
    + rewrite lookup_alter_eq, Hk in Hk'. injection Hk' as <-. done.
    + rewrite lookup_alter_ne in Hk' by done. rewrite holder_set_attempt. destruct (decide (b = a)); [naive_solver|]. rewrite holder_set_gate. by apply (H2 c k').
  - intros c b y Hy Hc. cbn in Hy |- *. assert (Hs : is_Some (w_coordinators w !! c)).
    { apply lookup_insert_Some in Hy as [[<- <-]|[Hne Hb]]; [cbn in Hc; by eapply H3|by eapply H3]. }
    destruct (decide (at_coordinator x = c)) as [->|]; [rewrite lookup_alter_eq; by apply fmap_is_Some|by rewrite lookup_alter_ne].
Qed.
Lemma gates_ok_give a x p w : w_attempts w !! a = Some x -> inside (at_phase x) = true -> inside p = false -> gates_ok w ->
  gates_ok (set_attempt a p x (set_gate (at_coordinator x) false w)).
Proof.
  intros Ha Hx Hp [H1 H2 H3]. assert (Hin : holder w (at_coordinator x) a) by (by exists x).
  destruct (H3 _ _ _ Ha eq_refl) as [k Hk]. constructor.
  - intros c k' Hk' Hg'. cbn in Hk'. destruct (decide (c = at_coordinator x)) as [->|Hne].
    + rewrite lookup_alter_eq, Hk in Hk'. injection Hk' as <-. done.
    + rewrite lookup_alter_ne in Hk' by done. destruct (H1 c k' Hk' Hg') as [b Hb]. exists b. intros d. rewrite holder_set_attempt.
      destruct (decide (d = a)) as [->|]; [|apply Hb]. split; [intros [? ?]; congruence|]. intros ->.
      assert (Hh : holder w c b) by by apply Hb. destruct Hh as (y & Hy & Hc & _). congruence.
  - intros c k' Hk' Hg' b. cbn in Hk'. rewrite holder_set_attempt. destruct (decide (b = a)) as [->|Hb]; [intros [_ ?]; congruence|]. rewrite holder_set_gate.
    destruct (decide (c = at_coordinator x)) as [->|Hne].
    + destruct (co_gate k) eqn:Hg; [|by apply (H2 _ k)]. destruct (H1 _ _ Hk Hg) as [d Hd]. apply Hd in Hin as ->. by intros ->%Hd.
    + rewrite lookup_alter_ne in Hk' by done. by apply (H2 c k').
  - intros c b y Hy Hc. cbn in Hy |- *. assert (Hs : is_Some (w_coordinators w !! c)).
    { apply lookup_insert_Some in Hy as [[<- <-]|[Hne Hb]]; [cbn in Hc; by eapply H3|by eapply H3]. }
    destruct (decide (at_coordinator x = c)) as [->|]; [rewrite lookup_alter_eq; by apply fmap_is_Some|by rewrite lookup_alter_ne].
Qed.

Lemma gates_ok_fail a x e w : w_attempts w !! a = Some x -> inside (at_phase x) = true -> gates_ok w -> gates_ok (fail a x e w).
Proof. intros. by apply gates_ok_give. Qed.
Lemma gates_ok_drop inode a w : gates_ok w -> gates_ok (drop_lock inode a w).
Proof. apply gates_ok_locks; [apply coordinators_drop_lock|apply attempts_drop_lock]. Qed.

Lemma acquire_step_gates euid a ans w w' : gates_ok w -> acquire_step euid a ans w = Some w' -> gates_ok w'.
Proof.
  intros Hw. unfold acquire_step. destruct (w_attempts w !! a) as [x|] eqn:Ha; [|done]. cbn.
  destruct (w_coordinators w !! at_coordinator x) as [k|] eqn:Hk; [|done]. cbn. destruct (at_phase x) as [| |inode|inode| | | | |] eqn:Hp; try done.
  - unfold pass_gate. destruct ans; [|destruct (at_nonblocking x); [done|]|done|done]; intros [= <-].
    + destruct (co_gate k) eqn:Hg; [destruct (at_nonblocking x); [|done]|by eapply gates_ok_take].
      apply gates_ok_keep; [done|by rewrite Hp|done].
    + apply gates_ok_keep; [done|by rewrite Hp|done].
  - unfold open_lock. destruct ans; try done. intros [= <-]. destruct (openWorkspaceLock _ _); [|by apply gates_ok_fail; [done|rewrite Hp|]].
    destruct confirmed as [stat|]; [|by apply gates_ok_fail; [done|rewrite Hp|]]. destruct (sameFileIdentity _ _ _).
    + apply gates_ok_keep; [done|by rewrite Hp|done].
    + by apply gates_ok_fail; [done|rewrite Hp|].
  - assert (Hf : forall e, gates_ok (fail a x e w)) by (intros e; by apply gates_ok_fail; [|rewrite Hp|]).
    unfold take_lock. destruct ans, (w_locks w !! inode), (at_nonblocking x); try done; intros [= <-]; try done.
    all: apply gates_ok_keep; [done|by rewrite Hp|]; by apply (gates_ok_locks w).
  - unfold final_check. destruct ans; try done; intros [= <-].
    + apply gates_ok_keep; [done|by rewrite Hp|done].
    + apply gates_ok_fail; [by rewrite attempts_drop_lock|by rewrite Hp|by apply gates_ok_drop].
Qed.
Lemma release_gates a unlocks w w' : gates_ok w -> Release a unlocks w = Some w' -> gates_ok w'.
Proof.
  intros Hw. unfold Release, release_step. destruct (w_attempts w !! a) as [x|] eqn:Ha; [|done]. cbn. destruct (at_phase x) eqn:Hp; try done; intros [= <-].
  - apply gates_ok_keep; [done|by rewrite Hp|done].
  - destruct unlocks; (apply gates_ok_keep; [by rewrite ?attempts_drop_lock|by rewrite Hp|by try apply gates_ok_drop]).
  - apply gates_ok_keep; [by rewrite attempts_drop_lock|by rewrite Hp|by apply gates_ok_drop].
  - apply gates_ok_give; [done|by rewrite Hp|done|done].
Qed.
Lemma step_gates euid w w' : gates_ok w -> step euid w w' -> gates_ok w'.
Proof.
  intros Hw [c identity Hc|a c p nonblocking Ha Hc|a ans w1 Hs|a unlocks w1 Hs|c]; [| |by eapply acquire_step_gates|by eapply release_gates|].
  - destruct Hw as [H1 H2 H3]. constructor; cbn.
    + intros c' k [[<- <-]|[Hne Hk]]%lookup_insert_Some Hg; [done|]. by apply (H1 c' k).
    + intros c' k [[<- <-]|[Hne Hk]]%lookup_insert_Some Hg b Hb; [|by apply (H2 c' k Hk Hg b)].
      destruct Hb as (x & Hx & Hx2 & Hi). apply (H3 _ _ _ Hx) in Hx2 as [? ?]. congruence.
    + intros c' a x Hx Hc'. destruct (decide (c = c')) as [->|]; [rewrite lookup_insert_eq; eauto|rewrite lookup_insert_ne by done; by eapply H3].
  - destruct Hw as [H1 H2 H3].
    assert (Hh : forall c' b, holder (start a c p nonblocking w) c' b <-> holder w c' b).
    { intros c' b. unfold start. rewrite holder_set_attempt. destruct (decide (b = a)) as [->|]; [|done].
      split; [by destruct (validPurpose p); intros [_ ?]|]. intros (x & Hx & _). congruence. }
    constructor.
    + intros c' k Hk Hg. destruct (H1 c' k Hk Hg) as [b Hb]. exists b. intros d. by rewrite Hh.
    + intros c' k Hk Hg b. rewrite Hh. by apply (H2 c' k).
    + intros c' b x Hx Hc'. cbn in Hx. apply lookup_insert_Some in Hx as [[<- <-]|[Hne Hx]]; [by subst c'|by eapply H3].
  - destruct Hw as [H1 H2 H3].
    assert (Hh : forall c' b, holder (crash c w) c' b <-> c' <> c /\ holder w c' b).
    { intros c' b. unfold holder, crash. cbn. setoid_rewrite map_lookup_filter_Some. cbn. naive_solver. }
    constructor; cbn.
    + intros c' k [Hne Hk]%lookup_delete_Some Hg. destruct (H1 c' k Hk Hg) as [b Hb]. exists b. intros d. rewrite Hh, Hb. naive_solver.
    + intros c' k [Hne Hk]%lookup_delete_Some Hg b. rewrite Hh. intros [_ Hb]. by apply (H2 c' k Hk Hg b).
    + intros c' b x [Hx Hn]%map_lookup_filter_Some Hc'. cbn in Hn. rewrite lookup_delete_ne by congruence. by eapply H3.
Qed.

(** ** The lock *)

(** The inode an attempt surely locks, may still lock, and has open. *)
Definition must_lock (p : phase) : option (Z * Z) := match p with AtCheck i | Leased i | Releasing i => Some i | _ => None end.
Definition may_lock (p : phase) : option (Z * Z) := match p with AtCheck i | Leased i | Releasing i | Unlocked i => Some i | _ => None end.
Definition has_open (p : phase) : option (Z * Z) := match p with AtLock i | AtCheck i | Leased i | Releasing i | Unlocked i => Some i | _ => None end.
Definition own_inode (w : world) (c : cid) (i : Z * Z) : Prop := exists k, w_coordinators w !! c = Some k /\ i = inode_key (co_identity k).
Record locks_ok (w : world) : Prop := {
  lo_held : forall a x i, w_attempts w !! a = Some x -> must_lock (at_phase x) = Some i -> w_locks w !! i = Some a;
  lo_owner : forall i a, w_locks w !! i = Some a -> exists x, w_attempts w !! a = Some x /\ may_lock (at_phase x) = Some i;
  lo_inode : forall a x i, w_attempts w !! a = Some x -> has_open (at_phase x) = Some i -> own_inode w (at_coordinator x) i;
}.

Lemma own_inode_gate c g w c' i : own_inode (set_gate c g w) c' i <-> own_inode w c' i.
Proof.
  unfold own_inode, set_gate. cbn. destruct (decide (c = c')) as [->|]; [|by rewrite lookup_alter_ne].
  rewrite lookup_alter_eq. destruct (w_coordinators w !! c') as [k|]; cbn; [|naive_solver]. naive_solver.
Qed.
Lemma locks_ok_gate c g w : locks_ok w -> locks_ok (set_gate c g w).
Proof. intros [H1 H2 H3]. constructor; [done|done|]. intros a x i Hx Hi. apply own_inode_gate. by eapply H3. Qed.
Lemma locks_ok_set a x p w : w_attempts w !! a = Some x -> (forall i, must_lock p = Some i -> w_locks w !! i = Some a) ->
  (forall i, w_locks w !! i = Some a -> may_lock p = Some i) -> (forall i, has_open p = Some i -> own_inode w (at_coordinator x) i) ->
  locks_ok w -> locks_ok (set_attempt a p x w).
Proof.
  intros Ha Hm Hy Ho [H1 H2 H3]. constructor; cbn.
  - intros b y i [[<- <-]|[Hne Hb]]%lookup_insert_Some Hi; [by apply Hm|by eapply H1].
  - intros i b Hb. destruct (decide (b = a)) as [->|Hne]; [rewrite lookup_insert_eq|rewrite lookup_insert_ne by done; by apply H2].
    eexists. split; [done|]. by apply Hy.
  - intros b y i [[<- <-]|[Hne Hb]]%lookup_insert_Some Hi; [by apply Ho|by eapply H3].
Qed.
(** No other attempt loses its lock when one gives its own back. *)
Lemma drop_lock_lookup inode a w i b : w_locks (drop_lock inode a w) !! i = Some b <-> w_locks w !! i = Some b /\ ~ (i = inode /\ b = a).
Proof.
  unfold drop_lock. case_bool_decide as Hb; cbn.
  - rewrite lookup_delete_Some. naive_solver.
  - naive_solver.
Qed.
Lemma locks_ok_drop a x p inode w : w_attempts w !! a = Some x -> may_lock (at_phase x) = Some inode -> must_lock p = None ->
  (forall i, has_open p = Some i -> own_inode w (at_coordinator x) i) -> locks_ok w -> locks_ok (set_attempt a p x (drop_lock inode a w)).
Proof.
  intros Ha Hy Hm Ho [H1 H2 H3].
  assert (Hown : forall c i, own_inode (drop_lock inode a w) c i <-> own_inode w c i) by (intros; unfold own_inode; by rewrite coordinators_drop_lock).
  constructor.
  - intros b y i Hy' Hi. cbn in Hy'. rewrite attempts_drop_lock in Hy'. apply lookup_insert_Some in Hy' as [[<- <-]|[Hne Hb]]; [cbn in Hi; congruence|].
    apply drop_lock_lookup. split; [by eapply H1|]. by intros [_ ->].
  - intros i b [Hb Hn]%drop_lock_lookup. cbn. rewrite attempts_drop_lock. destruct (H2 _ _ Hb) as (y & Hy' & Hi). destruct (decide (b = a)) as [->|Hne].
    + exfalso. apply Hn. split; [|done]. congruence.
    + rewrite lookup_insert_ne by done. by exists y.
  - intros b y i Hy' Hi. cbn in Hy'. rewrite attempts_drop_lock in Hy'. apply lookup_insert_Some in Hy' as [[<- <-]|[Hne Hb]].
    + apply Hown. by apply Ho.
    + apply Hown. by eapply H3.
Qed.
Lemma locks_ok_quiet a x p w : w_attempts w !! a = Some x -> must_lock p = None -> may_lock (at_phase x) = None ->
  (forall i, has_open p = Some i -> own_inode w (at_coordinator x) i) -> locks_ok w -> locks_ok (set_attempt a p x w).
Proof.
  intros Ha Hm Hy Ho Hw. apply locks_ok_set; [done| | |done|done].
  - intros i. by rewrite Hm.
  - intros i Hi. apply (lo_owner _ Hw) in Hi as (y & Hy' & Hi). congruence.
Qed.
Lemma sameFileIdentity_key a b : sameFileIdentity a b true = true -> inode_key a = inode_key b.
Proof.
  unfold sameFileIdentity, inode_key. destruct (_ || _) eqn:E; [done|]. intros _. bool_prop. congruence.
Qed.
Lemma locks_ok_fail a x e w : w_attempts w !! a = Some x -> may_lock (at_phase x) = None -> locks_ok w -> locks_ok (fail a x e w).
Proof.
  intros Ha Hy Hw. change (fail a x e w) with (set_gate (at_coordinator x) false (set_attempt a (Finished (Some e)) x w)).
  apply locks_ok_gate. by apply locks_ok_quiet.
Qed.
Lemma acquire_step_locks euid a ans w w' : locks_ok w -> acquire_step euid a ans w = Some w' -> locks_ok w'.
Proof.
  intros Hw. unfold acquire_step. destruct (w_attempts w !! a) as [x|] eqn:Ha; [|done]. cbn.
  destruct (w_coordinators w !! at_coordinator x) as [k|] eqn:Hk; [|done]. cbn. destruct (at_phase x) as [| |inode|inode| | | | |] eqn:Hp; try done.
  - unfold pass_gate. destruct ans; [|destruct (at_nonblocking x); [done|]|done|done]; intros [= <-].
    + destruct (co_gate k); [destruct (at_nonblocking x); [|done]|].
      * by apply locks_ok_quiet; [|done|rewrite Hp| |].
      * change (set_attempt a AtOpen x _) with (set_gate (at_coordinator x) true (set_attempt a AtOpen x w)). apply locks_ok_gate.
        by apply locks_ok_quiet; [|done|rewrite Hp| |].
    + by apply locks_ok_quiet; [|done|rewrite Hp| |].
  - assert (Hf : forall e, locks_ok (fail a x e w)) by (intros e; by apply locks_ok_fail; [|rewrite Hp|]).
    unfold open_lock. destruct ans; try done. intros [= <-]. destruct (openWorkspaceLock _ _); [|done].
    destruct confirmed as [stat|]; [|done]. destruct (sameFileIdentity _ _ _) eqn:Hs; [|done].
    apply locks_ok_quiet; [done|done|by rewrite Hp| |done]. intros i [= <-]. exists k. split; [done|]. by rewrite (sameFileIdentity_key _ _ Hs).
  - assert (Hf : forall e, locks_ok (fail a x e w)) by (intros e; by apply locks_ok_fail; [|rewrite Hp|]).
    unfold take_lock. destruct ans, (w_locks w !! inode) as [b|] eqn:Hl, (at_nonblocking x); try done; intros [= <-]; try done.
    all: assert (Ho : own_inode w (at_coordinator x) inode) by (eapply (lo_inode _ Hw); [done|by rewrite Hp]).
    all: destruct Hw as [H1 H2 H3]; constructor; cbn.
    1, 4: intros c y i [[<- <-]|[Hne Hb]]%lookup_insert_Some Hi; [injection Hi as <-; by rewrite lookup_insert_eq|].
    1, 2: rewrite lookup_insert_ne; [by eapply H1|]; intros <-; apply (H1 _ _ _ Hb) in Hi; congruence.
    1, 3: intros i c [[<- <-]|[Hne Hb]]%lookup_insert_Some; [rewrite lookup_insert_eq; eexists; by split|].
    1, 2: destruct (H2 _ _ Hb) as (y & Hy & Hi); rewrite lookup_insert_ne; [by exists y|]; intros <-; rewrite Ha in Hy; injection Hy as <-; by rewrite Hp in Hi.
    all: intros c y i [[<- <-]|[Hne Hb]]%lookup_insert_Some Hi; [injection Hi as <-; exact Ho|by eapply H3].
  - unfold final_check. destruct ans; try done; intros [= <-].
    + apply locks_ok_set; [done| | | |done].
      * intros i [= <-]. eapply (lo_held _ Hw); [done|by rewrite Hp].
      * intros i Hi. apply (lo_owner _ Hw) in Hi as (y & Hy & Hi). rewrite Ha in Hy. injection Hy as <-. by rewrite Hp in Hi.
      * intros i [= <-]. eapply (lo_inode _ Hw); [done|by rewrite Hp].
    + change (fail a x Canceled (drop_lock inode a w)) with (set_gate (at_coordinator x) false (set_attempt a (Finished (Some Canceled)) x (drop_lock inode a w))).
      apply locks_ok_gate. by apply locks_ok_drop; [|rewrite Hp| | |].
Qed.
Lemma release_locks a unlocks w w' : locks_ok w -> Release a unlocks w = Some w' -> locks_ok w'.
Proof.
  intros Hw. unfold Release, release_step. destruct (w_attempts w !! a) as [x|] eqn:Ha; [|done]. cbn.
  assert (Ho : forall i, has_open (at_phase x) = Some i -> own_inode w (at_coordinator x) i) by (intros i; by eapply (lo_inode _ Hw)).
  assert (Hy : forall i, w_locks w !! i = Some a -> may_lock (at_phase x) = Some i).
  { intros i Hi. apply (lo_owner _ Hw) in Hi as (y & Hy & Hi). congruence. }
  pose proof (fun i => lo_held _ Hw a x i Ha) as Hm.
  destruct (at_phase x) eqn:Hp; try done; intros [= <-].
  - by apply locks_ok_set.
  - destruct unlocks; [by apply locks_ok_drop; [|rewrite Hp| | |]|by apply locks_ok_set].
  - by apply locks_ok_drop; [|rewrite Hp| | |].
  - change (set_attempt a (Finished None) x _) with (set_gate (at_coordinator x) false (set_attempt a (Finished None) x w)). apply locks_ok_gate.
    by apply locks_ok_quiet; [|done|rewrite Hp| |].
Qed.
Lemma step_locks euid w w' : gates_ok w -> locks_ok w -> step euid w w' -> locks_ok w'.
Proof.
  intros Hg Hw [c identity Hc|a c p nonblocking Ha Hc|a ans w1 Hs|a unlocks w1 Hs|c]; [| |by eapply acquire_step_locks|by eapply release_locks|].
  - destruct Hw as [H1 H2 H3]. constructor; [done|done|]. cbn. intros a x i Hx Hi. destruct (H3 _ _ _ Hx Hi) as (k & Hk & ->). exists k. cbn.
    by rewrite lookup_insert_ne by congruence.
  - destruct Hw as [H1 H2 H3]. constructor; cbn.
    + intros b y i [[<- <-]|[Hne Hb]]%lookup_insert_Some Hi; [by destruct (validPurpose p)|by eapply H1].
    + intros i b Hb. destruct (H2 _ _ Hb) as (y & Hy & Hi). rewrite lookup_insert_ne by congruence. by exists y.
    + intros b y i [[<- <-]|[Hne Hb]]%lookup_insert_Some Hi; [by destruct (validPurpose p)|by eapply H3].
  - destruct Hw as [H1 H2 H3]. constructor; cbn.
    + intros a x i [Hx Hn]%map_lookup_filter_Some Hi. apply map_lookup_filter_Some. split; [by eapply H1|]. cbn. exists x. by apply map_lookup_filter_Some.
    + intros i a [Hl [x Hx]]%map_lookup_filter_Some. cbn in Hx. exists x. split; [done|]. apply map_lookup_filter_Some in Hx as [Hx _].
      destruct (H2 _ _ Hl) as (y & Hy & Hi). congruence.
    + intros a x i [Hx Hn]%map_lookup_filter_Some Hi. cbn in Hn. destruct (H3 _ _ _ Hx Hi) as (k & Hk & ->). exists k. cbn. by rewrite lookup_delete_ne.
Qed.

Lemma reachable_ok euid w : reachable euid w -> gates_ok w /\ locks_ok w.
Proof.
  unfold reachable. intros H. assert (Hi : gates_ok no_world /\ locks_ok no_world).
  { split; constructor; cbn; intros *; by rewrite ?lookup_empty. }
  revert Hi. induction H as [|x y z Hs _ IH]; [done|]. intros [Hg Hl]. apply IH. split; [by eapply step_gates|by eapply step_locks].
Qed.
Lemma owns_spec w c a : owns w c a = true <-> exists x i, w_attempts w !! a = Some x /\ at_coordinator x = c /\ at_phase x = Leased i.
Proof.
  unfold owns. destruct (w_attempts w !! a) as [x|]; [|naive_solver]. rewrite andb_true_iff, Z.eqb_eq.
  destruct (at_phase x) eqn:Hp; naive_solver congruence.
Qed.

(** C6: Leases exclude each other and nothing is leaked, in every state that any
    number of processes and goroutines can reach, however their calls interleave,
    fail, are canceled or die.  Two leases that their coordinators own are the same
    lease if the coordinators were made for the same lock file, in one process or
    in two, and the kernel's lock is held for it.  The gate of a process is taken
    exactly while one of its calls is past it and has not given it back: no failing
    call and no second release leaves it taken or gives it back twice.  The lock of
    a file is held only for a call that is acquiring, holding or releasing a
    lease. *)
Theorem leases_exclude_each_other euid w : reachable euid w ->
  (forall c1 c2 k1 k2 a1 a2, owns w c1 a1 = true -> owns w c2 a2 = true ->
     w_coordinators w !! c1 = Some k1 -> w_coordinators w !! c2 = Some k2 -> inode_key (co_identity k1) = inode_key (co_identity k2) ->
     a1 = a2 /\ w_locks w !! inode_key (co_identity k1) = Some a1)
  /\ (forall c k, w_coordinators w !! c = Some k -> co_gate k = true <-> exists a x, w_attempts w !! a = Some x /\ at_coordinator x = c /\ inside (at_phase x) = true)
  /\ (forall c a1 a2, holder w c a1 -> holder w c a2 -> a1 = a2)
  /\ (forall i a, w_locks w !! i = Some a -> exists x, w_attempts w !! a = Some x /\ inside (at_phase x) = true).
Proof.
  intros [[H1 H2 H3] [L1 L2 L3]]%reachable_ok. split_and!.
  - intros c1 c2 k1 k2 a1 a2 (x1 & i1 & Hx1 & <- & P1)%owns_spec (x2 & i2 & Hx2 & <- & P2)%owns_spec Hk1 Hk2 Hi.
    destruct (L3 _ _ i1 Hx1) as (k & Hk & ->); [by rewrite P1|]. rewrite Hk1 in Hk. injection Hk as <-.
    destruct (L3 _ _ i2 Hx2) as (k & Hk & ->); [by rewrite P2|]. rewrite Hk2 in Hk. injection Hk as <-.
    pose proof (L1 _ _ _ Hx1 ltac:(by rewrite P1)) as E1. pose proof (L1 _ _ _ Hx2 ltac:(by rewrite P2)) as E2. rewrite <- Hi in E2. split; [congruence|done].
  - intros c k Hk. destruct (co_gate k) eqn:Hg.
    + destruct (H1 c k Hk Hg) as [a Ha]. split; [|done]. intros _. exists a. by apply Ha.
    + split; [done|]. intros (a & Ha). by destruct (H2 c k Hk Hg a).
  - intros c a1 a2 A1 A2. assert (Hs : exists k, w_coordinators w !! c = Some k) by (destruct A1 as (x & Hx & Hc & _); by eapply H3).
    destruct Hs as [k Hk]. destruct (co_gate k) eqn:Hg; [|by destruct (H2 c k Hk Hg a1)]. destruct (H1 c k Hk Hg) as [a Ha].
    apply Ha in A1 as ->, A2 as ->. done.
  - intros i a (x & Hx & Hi)%L2. exists x. split; [done|]. by destruct (at_phase x).
Qed.

Lemma sameFileIdentity_same i : sameFileIdentity i i true = true.
Proof. unfold sameFileIdentity, time_equal. by rewrite eqb_reflx, !Z.eqb_refl. Qed.
(** A call that meets no obstacle, and the end of its lease. *)
Definition lease (euid : Z) (a : aid) (c : cid) (p : Purpose) (nonblocking : bool) (identity : FileIdentity) (w : world) : option world :=
  w ← acquire_step euid a Go (start a c p nonblocking w);
  w ← acquire_step euid a (Opens (Some identity) (Some identity)) w;
  w ← acquire_step euid a Go w;
  acquire_step euid a Go w.
Definition end_lease (a : aid) (unlocks : bool) (w : world) : option world :=
  w ← Release a unlocks w; w ← Release a unlocks w; w ← Release a unlocks w; Release a unlocks w.

(** C25: A free workspace can be leased again and again.  If nobody in any
    reachable state is past the gate of a coordinator or holds the lock of its
    file, and the file is still the one it was made for, then a call with a valid
    purpose gets the lease without waiting, whether it may wait or not; while it
    has it, every further call that may not wait is told that the workspace is
    busy; and four steps of [Release] give the gate and the lock back even if the
    unlocking fails, so that the workspace is free as before. *)
Theorem free_workspace_is_leased euid w c k a p nonblocking : reachable euid w -> w_coordinators w !! c = Some k -> w_attempts w !! a = None ->
  (forall b, ~ holder w c b) -> w_locks w !! inode_key (co_identity k) = None -> validPurpose p = true -> acceptable_lock euid (co_identity k) = true ->
  exists leased, lease euid a c p nonblocking (co_identity k) w = Some leased /\ owns leased c a = true /\ Lease_Purpose leased a = Some p
  /\ (forall b q, w_attempts leased !! b = None -> validPurpose q = true ->
        acquire_step euid b Go (start b c q true leased)
        = Some (set_attempt b (Finished (Some Busy)) (mk_attempt c q true AtGate) (start b c q true leased)))
  /\ forall unlocks, exists free, end_lease a unlocks leased = Some free /\ owns free c a = false /\ (forall b, ~ holder free c b)
     /\ w_locks free !! inode_key (co_identity k) = None.
Proof.
  intros [[H1 H2 H3] [L1 L2 L3]]%reachable_ok Hk Ha Hfree Hl Hp Hacc.
  assert (Hg : co_gate k = false) by (destruct (co_gate k) eqn:Hg; [destruct (H1 c k Hk Hg) as [b Hb]; destruct (Hfree b); by apply Hb|done]).
  set (x phase := mk_attempt c p nonblocking phase). set (inode := inode_key (co_identity k)) in *.
  set (taken := mk_coordinator (co_identity k) true).
  assert (Hlease : lease euid a c p nonblocking (co_identity k) w
    = Some (mk_world (<[c := taken]> (w_coordinators w)) (<[a := x (Leased inode)]> (w_attempts w)) (<[inode := a]> (w_locks w)))).
  { unfold lease, acquire_step, start. rewrite Hp. cbn. rewrite lookup_insert_eq. cbn. rewrite Hk. cbn. rewrite Hg. cbn.
    rewrite lookup_insert_eq. cbn. rewrite lookup_alter_eq, Hk. cbn. rewrite Hacc. cbn. rewrite sameFileIdentity_same. cbn.
    rewrite lookup_insert_eq. cbn. rewrite lookup_alter_eq, Hk. cbn. fold inode. unfold take_lock. cbn. rewrite Hl. cbn.
    rewrite lookup_insert_eq. cbn. rewrite lookup_alter_eq, Hk. cbn. unfold set_attempt, set_lock, set_gate. cbn.
    rewrite !insert_insert_eq. do 2 f_equal. apply map_eq. intros c'. destruct (decide (c = c')) as [->|].
    - by rewrite lookup_alter_eq, lookup_insert_eq, Hk.
    - by rewrite lookup_alter_ne, lookup_insert_ne. }
  eexists. split; [exact Hlease|]. split_and!.
  - unfold owns. cbn. rewrite lookup_insert_eq. cbn. by rewrite Z.eqb_refl.
  - unfold Lease_Purpose. cbn. by rewrite lookup_insert_eq.
  - intros b q Hb Hq. unfold acquire_step, start. rewrite Hq. cbn. rewrite lookup_insert_eq. cbn. rewrite lookup_insert_eq. done.
  - intros unlocks.
    assert (Hfirst : drop_lock inode a (mk_world (<[c := taken]> (w_coordinators w)) (<[a := x (Releasing inode)]> (w_attempts w)) (<[inode := a]> (w_locks w)))
      = mk_world (<[c := taken]> (w_coordinators w)) (<[a := x (Releasing inode)]> (w_attempts w)) (w_locks w)).
    { unfold drop_lock. cbn. rewrite lookup_insert_eq, bool_decide_true by done. by rewrite delete_insert_id. }
    assert (Hsecond : forall locks, locks = w_locks w \/ locks = <[inode := a]> (w_locks w) ->
      drop_lock inode a (mk_world (<[c := taken]> (w_coordinators w)) (<[a := x (Unlocked inode)]> (w_attempts w)) locks)
      = mk_world (<[c := taken]> (w_coordinators w)) (<[a := x (Unlocked inode)]> (w_attempts w)) (w_locks w)).
    { unfold drop_lock. cbn. intros locks [->| ->].
      - by rewrite bool_decide_false by congruence.
      - rewrite lookup_insert_eq, bool_decide_true by done. by rewrite delete_insert_id. }
    assert (Hend : end_lease a unlocks (mk_world (<[c := taken]> (w_coordinators w)) (<[a := x (Leased inode)]> (w_attempts w)) (<[inode := a]> (w_locks w)))
      = Some (mk_world (alter (fun k => mk_coordinator (co_identity k) false) c (<[c := taken]> (w_coordinators w)))
                (<[a := x (Finished None)]> (w_attempts w)) (w_locks w))).
    { assert (R : forall C ph L, Release a unlocks (mk_world C (<[a := x ph]> (w_attempts w)) L)
        = release_step a (x ph) unlocks (mk_world C (<[a := x ph]> (w_attempts w)) L)) by (intros; unfold Release; cbn; by rewrite lookup_insert_eq).
      assert (S : forall C ph ph' L, set_attempt a ph' (x ph) (mk_world C (<[a := x ph]> (w_attempts w)) L) = mk_world C (<[a := x ph']> (w_attempts w)) L)
        by (intros; unfold set_attempt; cbn; by rewrite insert_insert_eq).
      unfold end_lease. rewrite R. cbn [release_step at_phase x]. rewrite S. cbn [mbind option_bind]. rewrite R. cbn [release_step at_phase x].
      rewrite Hfirst. destruct unlocks; rewrite S; cbn [mbind option_bind]; rewrite R; cbn [release_step at_phase x]; rewrite Hsecond by auto; rewrite S;
        cbn [mbind option_bind]; rewrite R; cbn [release_step at_phase x]; unfold set_gate, set_attempt; cbn; by rewrite insert_insert_eq. }
    eexists. split; [exact Hend|]. split_and!.
    + unfold owns. cbn. rewrite lookup_insert_eq. cbn. by rewrite andb_false_r.
    + intros b (y & Hy & Hc & Hi). cbn in Hy. apply lookup_insert_Some in Hy as [[<- <-]|[Hne Hy]]; [done|]. apply (Hfree b). by exists y.
    + exact Hl.
Qed.

(** ** A sample: one process, one lease *)

Lemma reach euid w w' : reachable euid w -> step euid w w' -> reachable euid w'.
Proof. intros Hr Hs. eapply rtc_r; [exact Hr|exact Hs]. Qed.
Definition sample_lock : FileIdentity := mk_identity true 1 7 33152 1000 1000 1 0 GoTime.zero_time GoTime.zero_time.
Definition sample_process : world := mk_world {[1 := mk_coordinator sample_lock false]} ∅ ∅.
Lemma sample_process_reachable : reachable 1000 sample_process.
Proof. eapply rtc_l; [apply (step_coordinator _ _ 1 sample_lock)|apply rtc_refl]; done. Qed.
Lemma lease_reachable euid a c p nonblocking identity w w' : reachable euid w -> w_attempts w !! a = None -> is_Some (w_coordinators w !! c) ->
  lease euid a c p nonblocking identity w = Some w' -> reachable euid w'.
Proof.
  intros Hr Ha Hc. unfold lease. destruct (acquire_step _ _ _ _) as [w1|] eqn:E1; [|done]. cbn. destruct (acquire_step _ _ _ w1) as [w2|] eqn:E2; [|done]. cbn.
  destruct (acquire_step _ _ _ w2) as [w3|] eqn:E3; [|done]. cbn. intros E4.
  eapply reach, step_acquire, E4. eapply reach, step_acquire, E3. eapply reach, step_acquire, E2. eapply reach, step_acquire, E1.
  by eapply reach, step_start.
Qed.
Definition sample_leased : world := default no_world (lease 1000 5 1 PurposeSave true sample_lock sample_process).
Theorem leases_exclude_each_other_witness : owns sample_leased 1 5 = true /\ forall a, owns sample_leased 1 a = true -> a = 5.
Proof.
  assert (Hr : reachable 1000 sample_leased).
  { apply (lease_reachable 1000 5 1 PurposeSave true sample_lock sample_process); [exact sample_process_reachable|reflexivity|by exists (mk_coordinator sample_lock false)|].
    vm_compute. reflexivity. }
  assert (Ho : owns sample_leased 1 5 = true) by (vm_compute; reflexivity). split; [exact Ho|]. intros a Ha.
  destruct (leases_exclude_each_other 1000 sample_leased Hr) as [Hx _].
  exact (proj1 (Hx 1 1 (mk_coordinator sample_lock true) (mk_coordinator sample_lock true) a 5 Ha Ho eq_refl eq_refl eq_refl)).
Defined.
Theorem free_workspace_is_leased_witness : exists leased, lease 1000 5 1 PurposeSave true sample_lock sample_process = Some leased /\ owns leased 1 5 = true.
Proof.
  destruct (free_workspace_is_leased 1000 sample_process 1 (mk_coordinator sample_lock false) 5 PurposeSave true) as (leased & H1 & H2 & _).
  - exact sample_process_reachable.
  - reflexivity.
  - reflexivity.
  - intros b (x & Hx & _). unfold sample_process in Hx. cbn in Hx. by rewrite lookup_empty in Hx.
  - reflexivity.
  - reflexivity.
  - vm_compute. reflexivity.
  - exists leased. by split.
Defined.
