(* ===== verification/BrokerRun.v ===== *)
(** Native runs (internal/broker): the bounded output two pipes write to and
    the bytes that are safe to display (output.go), the requests, results and
    errors of a run (types.go, errors.go), and preparing and judging a run
    (runner_linux.go).  The process itself is a parameter. *)
From stdpp Require Import gmap.
From S2P Require Import Prelude.
From S2P Require Import GoText.
From S2P Require Import GoTime.
From S2P Require Import GoDecode.
From S2P Require Import RedactFilter.
From S2P Require RedactFilter.
From S2P Require Import RedactTrie.

#[local] Open Scope Z_scope.

Inductive outputStream := streamStdout | streamStderr.
#[export] Instance outputStream_eq_dec : EqDecision outputStream.
Proof. solve_decision. Defined.

(** The buffers behind the lock, and how often [onOverflow] was called. *)
Record outputCollector := mk_outputCollector {
  oc_stdout : bytes;
  oc_stderr : bytes;
  stdoutLimit : Z;
  stderrLimit : Z;
  aggregateLimit : Z;
  overflowed : bool;
  overflow_once : bool;
  overflow_calls : nat;
}.

Definition newOutputCollector (stdoutLimit stderrLimit aggregateLimit : Z) : outputCollector :=
  mk_outputCollector [] [] stdoutLimit stderrLimit aggregateLimit false false 0.

Definition stream_buffer (s : outputStream) (c : outputCollector) : bytes :=
  match s with streamStdout => oc_stdout c | streamStderr => oc_stderr c end.
Definition stream_limit (s : outputStream) (c : outputCollector) : Z :=
  match s with streamStdout => stdoutLimit c | streamStderr => stderrLimit c end.

(** How many bytes of a write are kept. *)
Definition accepted (s : outputStream) (value : bytes) (c : outputCollector) : Z :=
  let remainingStream := Z.max (stream_limit s c - blen (stream_buffer s c)) 0 in
  let remainingAggregate := Z.max (aggregateLimit c - blen (oc_stdout c) - blen (oc_stderr c)) 0 in
  Z.min (Z.min (blen value) remainingStream) remainingAggregate.

Definition append_stream (s : outputStream) (more : bytes) (c : outputCollector) : outputCollector :=
  match s with
  | streamStdout => mk_outputCollector (oc_stdout c ++ more) (oc_stderr c) (stdoutLimit c) (stderrLimit c)
                      (aggregateLimit c) (overflowed c) (overflow_once c) (overflow_calls c)
  | streamStderr => mk_outputCollector (oc_stdout c) (oc_stderr c ++ more) (stdoutLimit c) (stderrLimit c)
                      (aggregateLimit c) (overflowed c) (overflow_once c) (overflow_calls c)
  end.
Definition set_overflowed (c : outputCollector) : outputCollector :=
  mk_outputCollector (oc_stdout c) (oc_stderr c) (stdoutLimit c) (stderrLimit c) (aggregateLimit c) true (overflow_once c) (overflow_calls c).
(** [collector.overflowOnce.Do(onOverflow)] *)
Definition call_overflow (c : outputCollector) : outputCollector :=
  if overflow_once c then c
  else mk_outputCollector (oc_stdout c) (oc_stderr c) (stdoutLimit c) (stderrLimit c) (aggregateLimit c) (overflowed c) true (S (overflow_calls c)).

(** [streamWriter.Write]: always reports the whole length. *)
Definition Write (s : outputStream) (value : bytes) (c : outputCollector) : Z * outputCollector :=
  let n := accepted s value c in
  let written := if 0 <? n then append_stream s (take (Z.to_nat n) value) c else c in
  let newOverflow := negb (n =? blen value) && negb (overflowed c) in
  let marked := if negb (n =? blen value) then set_overflowed written else written in
  (blen value, if newOverflow then call_overflow marked else marked).

(** [collector.take]: both buffers, unless something was lost. *)
Definition take_output (c : outputCollector) : (bytes * bytes * bool) * outputCollector :=
  let emptied := mk_outputCollector [] [] (stdoutLimit c) (stderrLimit c) (aggregateLimit c) (overflowed c) (overflow_once c) (overflow_calls c) in
  (if overflowed c then ([], [], true) else (oc_stdout c, oc_stderr c, false), emptied).

(** The writes of a child, in the order the lock served them. *)
Definition write_output (writes : list (outputStream * bytes)) (c : outputCollector) : outputCollector :=
  fold_left (fun c w => (Write w.1 w.2 c).2) writes c.

(** Control and formatting characters become question marks. *)
Definition display_rune (r : Z) : Z :=
  if negb (r =? 10) && negb (r =? 9) && (is_control r || is_format r) then 63 else r.
(** One decoded rune; an invalid byte decodes as [RuneError] of width 1. *)
Definition sanitize_rune (p : Z * nat) : bytes :=
  if bad_rune p then ["?"%char] else append_rune [] (display_rune p.1).
Definition sanitizeOutput (value : bytes) : bytes := concat (sanitize_rune <$> scan value).

(** ** The collector *)

(** What a stream was sent. *)
Definition sent (s : outputStream) (writes : list (outputStream * bytes)) : bytes :=
  concat (snd <$> filter (fun w => w.1 = s) writes).

(** The three limits hold for what was sent. *)
Definition fits (stdout_limit stderr_limit aggregate : Z) (writes : list (outputStream * bytes)) : Prop :=
  blen (sent streamStdout writes) <= stdout_limit /\ blen (sent streamStderr writes) <= stderr_limit
  /\ blen (sent streamStdout writes) + blen (sent streamStderr writes) <= aggregate.

Lemma sent_snoc s writes w : sent s (writes ++ [w]) = sent s writes ++ (if decide (w.1 = s) then w.2 else []).
Proof.
  unfold sent. rewrite filter_app, fmap_app, concat_app. f_equal. rewrite filter_cons, filter_nil.
  destruct (decide (w.1 = s)); cbn; [by rewrite app_nil_r|done].
Qed.
Lemma blen_append {A} (l k : list A) : blen (l ++ k) = blen l + blen k.
Proof. unfold blen. rewrite length_app. lia. Qed.
Lemma blen_take {A} n (l : list A) : 0 <= n <= blen l -> blen (take (Z.to_nat n) l) = n.
Proof. unfold blen. rewrite length_take. lia. Qed.
Lemma blen_nil_inv {A} (l : list A) : blen l <= 0 -> l = [].
Proof. destruct l; [done|]. unfold blen. cbn [List.length]. lia. Qed.
Lemma take_all_bytes {A} n (l : list A) : n = blen l -> take (Z.to_nat n) l = l.
Proof. intros ->. apply take_ge. unfold blen. lia. Qed.
#[export] Hint Rewrite @blen_append : go_rw.

Lemma fits_prefix lo le la writes w : fits lo le la (writes ++ [w]) -> fits lo le la writes.
Proof.
  unfold fits. rewrite !sent_snoc, !blen_append. pose proof (Zle_0_nat (List.length w.2)).
  assert (0 <= blen w.2) by (unfold blen; lia). assert (blen (@nil ascii) = 0) by done.
  repeat case_decide; lia.
Qed.

Section Collector.
Context (lo le la : Z) (Hlo : 0 <= lo) (Hle : 0 <= le) (Hla : 0 <= la).

(** Between two writes. *)
Record collecting (writes : list (outputStream * bytes)) (c : outputCollector) : Prop := mk_collecting {
  co_limits : stdoutLimit c = lo /\ stderrLimit c = le /\ aggregateLimit c = la;
  co_bounds : blen (oc_stdout c) <= lo /\ blen (oc_stderr c) <= le /\ blen (oc_stdout c) + blen (oc_stderr c) <= la;
  co_kept : overflowed c = false -> oc_stdout c = sent streamStdout writes /\ oc_stderr c = sent streamStderr writes;
  co_lost : overflowed c = true -> ~ fits lo le la writes;
  co_calls : overflow_once c = overflowed c /\ overflow_calls c = (if overflowed c then 1 else 0)%nat;
}.

Lemma collecting_new : collecting [] (newOutputCollector lo le la).
Proof. constructor; cbn; done. Qed.

Lemma accepted_bounds s value c : 0 <= accepted s value c <= blen value.
Proof. unfold accepted. assert (0 <= blen value) by (unfold blen; lia). lia. Qed.

Lemma append_bounds s value c n : n = accepted s value c ->
  blen (oc_stdout c) <= lo -> blen (oc_stderr c) <= le -> blen (oc_stdout c) + blen (oc_stderr c) <= la ->
  stdoutLimit c = lo -> stderrLimit c = le -> aggregateLimit c = la ->
  let c' := append_stream s (take (Z.to_nat n) value) c in
  blen (oc_stdout c') <= lo /\ blen (oc_stderr c') <= le /\ blen (oc_stdout c') + blen (oc_stderr c') <= la.
Proof.
  intros -> H1 H2 H3 E1 E2 E3. pose proof (accepted_bounds s value c) as Hn. cbv zeta.
  pose proof (blen_take _ _ Hn) as Ht. unfold accepted in *. destruct s; cbn in *; rewrite blen_append, Ht; lia.
Qed.

Lemma collecting_write writes c w : collecting writes c -> collecting (writes ++ [w]) (Write w.1 w.2 c).2.
Proof.
  intros [(E1 & E2 & E3) (B1 & B2 & B3) Hk Hl [Ho Hc]]. destruct w as [s value]; cbn [fst snd].
  pose proof (accepted_bounds s value c) as Hn.
  pose proof (append_bounds s value c _ eq_refl B1 B2 B3 E1 E2 E3) as Hb.
  destruct (Z.eqb_spec (accepted s value c) (blen value)) as [Ef|Ef].
  - assert (Ew : (Write s value c).2 = append_stream s value c).
    { unfold Write. rewrite Ef, Z.eqb_refl. cbn. destruct (Z.ltb_spec 0 (blen value)); [by rewrite take_all_bytes|].
      apply blen_nil_inv in H as ->. destruct s, c; cbn; by rewrite app_nil_r. }
    rewrite Ew. rewrite take_all_bytes in Hb by done. constructor.
    + by destruct s.
    + exact Hb.
    + intros Hf. assert (Hc' : overflowed c = false) by by destruct s. destruct (Hk Hc') as [K1 K2].
      rewrite !sent_snoc. destruct s; cbn; rewrite K1, K2, ?app_nil_r; done.
    + intros Hf HF%fits_prefix. apply (Hl ltac:(by destruct s) HF).
    + by destruct s.
  - assert (Hnf : ~ fits lo le la (writes ++ [(s, value)])).
    { intros HF. destruct (overflowed c) eqn:Eo; [apply (Hl eq_refl), (fits_prefix _ _ _ _ _ HF)|].
      destruct (Hk eq_refl) as [K1 K2]. apply Ef. unfold fits in HF. rewrite !sent_snoc, <- K1, <- K2, !blen_append in HF.
      unfold accepted. assert (0 <= blen value) by (unfold blen; lia). assert (blen (@nil ascii) = 0) by done.
      destruct s; cbn [stream_limit stream_buffer fst snd decide outputStream_eq_dec] in *; repeat case_decide; try done; lia. }
    assert (Ew : exists m, (m = take (Z.to_nat (accepted s value c)) value \/ m = []) /\
      (Write s value c).2 = (if overflowed c then set_overflowed (append_stream s m c) else call_overflow (set_overflowed (append_stream s m c)))).
    { unfold Write. apply Z.eqb_neq in Ef. rewrite Ef. cbn [negb andb].
      destruct (Z.ltb_spec 0 (accepted s value c)).
      - exists (take (Z.to_nat (accepted s value c)) value). split; [by left|]. by destruct (overflowed c).
      - exists []. split; [by right|]. assert (append_stream s [] c = c) as -> by (destruct s, c; cbn; by rewrite app_nil_r).
        by destruct (overflowed c). }
    destruct Ew as (m & Hm & ->).
    assert (Hb' : blen (oc_stdout (append_stream s m c)) <= lo /\ blen (oc_stderr (append_stream s m c)) <= le /\
      blen (oc_stdout (append_stream s m c)) + blen (oc_stderr (append_stream s m c)) <= la).
    { destruct Hm as [-> | ->]; [exact Hb|]. destruct s; cbn; rewrite app_nil_r; done. }
    assert (Hone : overflow_once (append_stream s m c) = overflow_once c /\ overflow_calls (append_stream s m c) = overflow_calls c
      /\ stdoutLimit (append_stream s m c) = lo /\ stderrLimit (append_stream s m c) = le /\ aggregateLimit (append_stream s m c) = la) by by destruct s.
    destruct Hone as (O1 & O2 & O3 & O4 & O5).
    destruct (overflowed c) eqn:Eo; [|unfold call_overflow; cbn [overflow_once set_overflowed]; rewrite O1, Ho];
      (constructor; cbn; [done|exact Hb'|done|done|]).
    + by rewrite O1, O2, Ho, Hc.
    + by rewrite O2, Hc.
Qed.

Lemma collecting_output writes : collecting writes (write_output writes (newOutputCollector lo le la)).
Proof.
  induction writes as [|w writes IH] using rev_ind; [apply collecting_new|].
  unfold write_output in *. rewrite fold_left_app. cbn. by apply collecting_write.
Qed.
End Collector.

(** Redaction keeps text text: removing secrets that are valid UTF-8 from valid
    UTF-8 leaves valid UTF-8 with no new runes, although the filter works byte
    by byte. *)

(** ** Text as a list of runes *)

Definition utf8 (rs : list Z) : bytes := concat (encode_scalar <$> rs).
Abbreviation scalars := (Forall (fun r => scalar r = true)).

Lemma utf8_app rs ss : utf8 (rs ++ ss) = utf8 rs ++ utf8 ss.
Proof. unfold utf8. by rewrite fmap_app, concat_app. Qed.
Lemma utf8_snoc rs r : utf8 (rs ++ [r]) = utf8 rs ++ encode_scalar r.
Proof. rewrite utf8_app. unfold utf8 at 2. cbn. by rewrite app_nil_r. Qed.
Lemma valid_utf8 l : utf8_valid l = true <-> exists rs, scalars rs /\ l = utf8 rs.
Proof.
  split; [|intros (rs & H & ->); by apply utf8_valid_encode].
  intros H. apply utf8_valid_runes in H as [H E]. by exists (runes l).
Qed.

Lemma valid_app l k : utf8_valid l = true -> utf8_valid k = true -> utf8_valid (l ++ k) = true.
Proof.
  rewrite !valid_utf8. intros (rs & H & ->) (ss & G & ->). exists (rs ++ ss). split; [by apply Forall_app|by rewrite utf8_app].
Qed.
Lemma valid_concat ls : Forall (fun l => utf8_valid l = true) ls -> utf8_valid (concat ls) = true.
Proof. induction 1; [done|]. by apply valid_app. Qed.
Lemma valid_ascii l : forallb ascii_byte l = true -> utf8_valid l = true.
Proof.
  intros H. unfold utf8_valid. rewrite (scan_ascii _ H). apply forallb_forall. intros p Hp%list_elem_of_In%list_elem_of_fmap.
  destruct Hp as (c & -> & Hc). unfold bad_rune; cbn. rewrite forallb_forall in H.
  specialize (H c (proj1 (list_elem_of_In _ _) Hc)). unfold ascii_byte in H. bool_prop.
  destruct (Z.eqb_spec (b2z c) rune_error); [unfold rune_error in *; lia|done].
Qed.

(** ** The bytes of one rune *)

Lemma cont_z2b z : 128 <= z <= 191 -> cont (z2b z) = true.
Proof. intros. apply between_intro; lia. Qed.
Lemma not_cont_z2b z : 0 <= z < 256 -> z < 128 \/ 191 < z -> cont (z2b z) = false.
Proof. intros Hr H. unfold cont, between. rewrite b2z_z2b by done. destruct (Z.leb_spec 128 z), (Z.leb_spec z 191); cbn; done || lia. Qed.

Lemma encode_shape r : scalar r = true ->
  exists h t, encode_scalar r = h :: t /\ cont h = false /\ forallb cont t = true.
Proof.
  intros H%scalar_range. unfold encode_scalar. repeat case_match; bool_prop; eexists _, _; (split; [reflexivity|]); cbn [forallb];
    (split; [apply not_cont_z2b|rewrite ?cont_z2b]; try done; Z.to_euclidean_division_equations; lia).
Qed.
Lemma encode_prefix r r' m : scalar r = true -> scalar r' = true -> encode_scalar r ++ m = encode_scalar r' -> r = r' /\ m = [].
Proof.
  intros H H' E. pose proof (decode_encode r m H) as D. pose proof (decode_encode r' [] H') as D'.
  rewrite E in D. rewrite app_nil_r in D'. rewrite D in D'. injection D' as -> E'. split; [done|].
  apply (f_equal List.length) in E. rewrite length_app in E. by destruct m; [|cbn in E; lia].
Qed.
Lemma last_rune_unique x y h h' t t' : cont h = false -> cont h' = false -> forallb cont t = true -> forallb cont t' = true ->
  x ++ h :: t = y ++ h' :: t' -> x = y /\ h :: t = h' :: t'.
Proof.
  intros Hh Hh'. revert t'. induction t as [|c t IH] using rev_ind; intros t' Ht Ht' E.
  - destruct t' as [|c' t' _] using rev_ind; [by apply app_inj_tail in E as [-> ->]|].
    rewrite app_comm_cons, app_assoc in E. apply app_inj_tail in E as [_ ->]. rewrite forallb_app in Ht'. cbn in Ht'. bool_prop. congruence.
  - rewrite forallb_app in Ht. cbn in Ht. bool_prop. rewrite app_comm_cons, app_assoc in E.
    destruct t' as [|c' t' _] using rev_ind; [apply app_inj_tail in E as [_ <-]; congruence|].
    rewrite forallb_app in Ht'. cbn in Ht'. bool_prop. rewrite (app_comm_cons t' [c'] h'), (app_assoc y) in E.
    apply app_inj_tail in E as [E ->]. destruct (IH t') as [-> E']; [done..|]. split; [done|]. injection E' as -> ->. done.
Qed.
Lemma last_rune x y r h t : scalar r = true -> cont h = false -> forallb cont t = true -> x ++ encode_scalar r = y ++ h :: t ->
  x = y /\ encode_scalar r = h :: t.
Proof. intros Hr Hh Ht. destruct (encode_shape r Hr) as (h0 & t0 & -> & ? & ?). by apply last_rune_unique. Qed.

(** Text that ends a text ends it rune by rune. *)
Lemma utf8_suffix ps rs : scalars ps -> scalars rs -> utf8 ps `suffix_of` utf8 rs -> ps `suffix_of` rs.
Proof.
  intros Hp. revert rs. induction ps as [|r ps IH] using rev_ind; intros rs Hr [k E]; [apply suffix_nil|].
  apply Forall_app in Hp as [Hp [Hrr _]%Forall_cons]. rewrite utf8_snoc in E.
  destruct rs as [|r' rs _] using rev_ind.
  - exfalso. symmetry in E. cbn in E. apply app_nil in E as [_ E]. apply app_nil in E as [_ E]. by apply encode_scalar_nonempty in E.
  - apply Forall_app in Hr as [Hr [Hrr' _]%Forall_cons]. rewrite utf8_snoc, app_assoc in E. symmetry in E.
    destruct (encode_shape r' Hrr') as (h & t & E' & Hh & Ht). rewrite E' in E. apply last_rune in E as [E Er]; [|done..].
    rewrite <- E' in Er. assert (r = r') as ->. { apply (encode_prefix r r' []); [done..|by rewrite app_nil_r]. }
    destruct (IH Hp rs Hr) as [k' ->]; [by exists k|]. exists k'. by rewrite app_assoc.
Qed.
(** Text never ends in the middle of a rune. *)
Lemma utf8_not_suffix ps rs h t m r : scalars ps -> ps <> [] -> scalar r = true -> encode_scalar r = h :: t ++ m -> m <> [] ->
  ~ utf8 ps `suffix_of` utf8 rs ++ h :: t.
Proof.
  intros Hp Hn Hr E Hm [k Ek]. destruct ps as [|r' ps _] using rev_ind; [done|].
  apply Forall_app in Hp as [_ [Hr' _]%Forall_cons]. rewrite utf8_snoc, app_assoc in Ek. symmetry in Ek.
  destruct (encode_shape r Hr) as (h0 & t0 & E0 & Hh & Ht). rewrite E in E0. injection E0 as <- <-.
  rewrite forallb_app in Ht. bool_prop. apply last_rune in Ek as [_ Er]; [|done..].
  destruct (encode_prefix r' r m) as [_ Hmm]; [done..| |done]. rewrite Er, E. by rewrite <- app_comm_cons.
Qed.

(** ** Redaction of text *)

Section Patterns.
Context (patterns : list bytes) (Hne : forall p, p ∈ patterns -> p <> []) (Hval : forall p, p ∈ patterns -> utf8_valid p = true).

Lemma pattern_runes p : p ∈ patterns -> exists ps, p = utf8 ps /\ scalars ps /\ ps <> [].
Proof.
  intros Hp. destruct (proj1 (valid_utf8 p) (Hval p Hp)) as (ps & Hs & E). exists ps. split_and!; [done..|].
  intros ->. by apply (Hne p Hp).
Qed.

Lemma redact_byte_inside rs r h t m c : scalar r = true -> encode_scalar r = h :: (t ++ [c]) ++ m -> m <> [] ->
  redact_byte patterns (utf8 rs ++ h :: t) c = utf8 rs ++ h :: t ++ [c].
Proof.
  intros Hr E Hm. unfold redact_byte. cbv zeta.
  replace ((utf8 rs ++ h :: t) ++ [c]) with (utf8 rs ++ h :: t ++ [c]) by by rewrite <- app_assoc.
  rewrite (match_length_unique patterns _ 0); [by rewrite Nat.sub_0_r, firstn_all| |by left].
  intros p Hp Hs. destruct (pattern_runes p Hp) as (ps & -> & Hps & Hpn). exfalso.
  eapply (utf8_not_suffix ps rs h (t ++ [c]) m r); done.
Qed.
Lemma redact_first_byte rs r h m : scalar r = true -> encode_scalar r = h :: m -> m <> [] ->
  redact_byte patterns (utf8 rs) h = utf8 rs ++ [h].
Proof.
  intros Hr E Hm. unfold redact_byte. cbv zeta.
  rewrite (match_length_unique patterns _ 0); [by rewrite Nat.sub_0_r, firstn_all| |by left].
  intros p Hp Hs. destruct (pattern_runes p Hp) as (ps & -> & Hps & Hpn). exfalso. by eapply (utf8_not_suffix ps rs h [] m r).
Qed.
Lemma redact_last_byte rs r : scalars rs -> scalar r = true ->
  let w := utf8 (rs ++ [r]) in exists rs', rs' `prefix_of` rs ++ [r] /\ take (List.length w - match_length patterns w) w = utf8 rs'.
Proof.
  intros Hrs Hr w. destruct (match_length_spec patterns w) as [_ [-> | (p & Hp & Hs & <-)]].
  { exists (rs ++ [r]). split; [done|]. by rewrite Nat.sub_0_r, firstn_all. }
  destruct (pattern_runes p Hp) as (ps & -> & Hps & _). subst w.
  apply utf8_suffix in Hs as [k E]; [|done|by apply Forall_app; auto].
  exists k. rewrite E. split; [by exists ps|]. rewrite utf8_app, length_app.
  replace (_ + _ - _)%nat with (List.length (utf8 k)) by lia. by rewrite take_app_length.
Qed.

Lemma redact_rune rs r : scalars rs -> scalar r = true ->
  exists rs', rs' `prefix_of` rs ++ [r] /\ fold_left (redact_byte patterns) (encode_scalar r) (utf8 rs) = utf8 rs'.
Proof.
  intros Hrs Hr. destruct (encode_scalar r) as [|h t] eqn:E; [by apply encode_scalar_nonempty in E|].
  destruct t as [|c t _] using rev_ind.
  - destruct (redact_last_byte rs r Hrs Hr) as (rs' & Hp & Ht). rewrite utf8_snoc, E in Ht. exists rs'. by split.
  - assert (Hm : forall t1 t2, t = t1 ++ t2 -> fold_left (redact_byte patterns) (h :: t1) (utf8 rs) = utf8 rs ++ h :: t1).
    { induction t1 as [|d t1 IH] using rev_ind; intros t2 Et; cbn.
      - eapply redact_first_byte; [exact Hr|exact E|]. by destruct t.
      - rewrite fold_left_app. cbn in IH. rewrite (IH (d :: t2)) by by rewrite Et, <- app_assoc. cbn.
        eapply (redact_byte_inside rs r h t1 (t2 ++ [c])); [done| |by destruct t2]. by rewrite E, Et, <- !app_assoc. }
    specialize (Hm t [] ltac:(by rewrite app_nil_r)). cbn [fold_left] in *. rewrite fold_left_app, Hm. cbn.
    destruct (redact_last_byte rs r Hrs Hr) as (rs' & Hp & Ht). rewrite utf8_snoc, E in Ht. exists rs'. split; [done|].
    unfold redact_byte. cbv zeta. by rewrite <- app_assoc.
Qed.

Lemma redact_utf8_from ss : forall rs, scalars rs -> scalars ss ->
  exists rs', (forall r, r ∈ rs' -> r ∈ rs ++ ss) /\ fold_left (redact_byte patterns) (utf8 ss) (utf8 rs) = utf8 rs'.
Proof.
  induction ss as [|r ss IH]; intros rs Hrs Hss.
  - exists rs. split; [|done]. intros. by rewrite app_nil_r.
  - apply Forall_cons in Hss as [Hr Hss]. change (utf8 (r :: ss)) with (encode_scalar r ++ utf8 ss). rewrite fold_left_app.
    destruct (redact_rune rs r Hrs Hr) as (rs1 & [k Hk] & ->).
    assert (Hsub : forall x, x ∈ rs1 -> x ∈ rs ++ [r]) by (intros x Hx; rewrite Hk; set_solver).
    destruct (IH rs1) as (rs' & H1 & H2); [|done|].
    { apply Forall_forall. intros x Hx. apply Hsub in Hx. assert (scalars (rs ++ [r])) as Hf by (apply Forall_app; auto).
      rewrite Forall_forall in Hf. by apply Hf. }
    exists rs'. split; [|done]. intros x [Hx|Hx]%H1%elem_of_app; [apply Hsub in Hx; set_solver|set_solver].
Qed.
(** Redacted text consists of runes of the text. *)
Lemma redact_utf8 rs : scalars rs -> exists rs', (forall r, r ∈ rs' -> r ∈ rs) /\ redact patterns (utf8 rs) = utf8 rs'.
Proof. intros H. apply (redact_utf8_from rs []); [constructor|done]. Qed.
End Patterns.

Lemma redact_shorter patterns input : (List.length (redact patterns input) <= List.length input)%nat.
Proof.
  unfold redact. assert (H : forall acc, (List.length (fold_left (redact_byte patterns) input acc) <= List.length acc + List.length input)%nat).
  { induction input as [|c input IH]; intros acc; cbn; [lia|]. specialize (IH (redact_byte patterns acc c)).
    assert (List.length (redact_byte patterns acc c) <= S (List.length acc))%nat; [|lia].
    unfold redact_byte. rewrite length_take, length_app. cbn. lia. }
  apply (H []).
Qed.

(** ** The forms of a textual secret are text *)

Lemma escape_byte_ascii mode c : forallb ascii_byte (escape_byte mode c) = true.
Proof.
  assert (H : forall m, forallb (fun c => forallb ascii_byte (escape_byte m c)) all_bytes = true)
    by (intros []; vm_compute; reflexivity).
  specialize (H mode). rewrite forallb_forall in H. apply H, list_elem_of_In, elem_of_all_bytes.
Qed.
Lemma forallb_concat {A} (f : A -> bool) ls : Forall (fun l => forallb f l = true) ls -> forallb f (concat ls) = true.
Proof. induction 1; cbn; [done|]. rewrite forallb_app. by apply andb_true_iff. Qed.
Lemma join_concat {A} (ls : list (list A)) : mjoin ls = concat ls.
Proof. induction ls as [|l ls IH]; cbn; [done|]. by f_equal. Qed.
Lemma url_escape_ascii mode l : forallb ascii_byte (url_escape mode l) = true.
Proof.
  unfold url_escape. rewrite join_concat. apply forallb_concat, Forall_fmap, Forall_forall. intros c _. apply escape_byte_ascii.
Qed.

Definition ascii_alphabet (e : Base64) : Prop := ascii_byte (plus_char e) = true /\ ascii_byte (slash_char e) = true.
Lemma ascii_z2b z : 0 <= z < 128 -> ascii_byte (z2b z) = true.
Proof. intros. unfold ascii_byte. rewrite b2z_z2b by lia. apply Z.ltb_lt. lia. Qed.
Lemma sextet_ascii e n : ascii_alphabet e -> 0 <= n < 64 -> ascii_byte (sextet e n) = true.
Proof. intros [H1 H2] Hn. unfold sextet. repeat case_match; bool_prop; try done; apply ascii_z2b; lia. Qed.
Lemma base64_ascii e l : ascii_alphabet e -> forallb ascii_byte (base64_encode e l) = true.
Proof.
  intros He. induction l as [| |a b|a b c l IH] using bytes_ind3; [done|..]; cbn [base64_encode forallb]; byte_ranges;
    rewrite !sextet_ascii by (try done; euclid); cbn; try done; by destruct (padded e).
Qed.

Lemma json_ascii_valid r : 0 <= r < 128 -> forallb ascii_byte (json_escape_ascii r) = true.
Proof.
  intros Hr. assert (H : forallb (fun n => forallb ascii_byte (json_escape_ascii (Z.of_nat n))) (seq 0 128) = true) by (vm_compute; reflexivity).
  rewrite forallb_forall in H. specialize (H (Z.to_nat r)). rewrite Z2Nat.id in H by lia. apply H, in_seq. lia.
Qed.
Lemma json_rune_valid l : l <> [] -> utf8_valid (json_escape_rune (decode_rune l)) = true.
Proof.
  intros Hl. unfold json_escape_rune. destruct (decode_rune_spec l Hl) as [-> |(Hs & _)]; [done|].
  case_match; [done|]. destruct (Z.ltb_spec (decode_rune l).1 128).
  { apply valid_ascii, json_ascii_valid. apply scalar_range in Hs. lia. }
  case_match eqn:E; [apply orb_true_iff in E as [->%Z.eqb_eq| ->%Z.eqb_eq]; reflexivity|].
  apply valid_utf8. exists [(decode_rune l).1]. split; [by constructor|]. cbn. unfold utf8. cbn. by rewrite app_nil_r.
Qed.
Lemma json_body l : json_text l = mjoin (json_escape_rune <$> scan l).
Proof.
  unfold json_text, json_marshal_string. generalize (mjoin (json_escape_rune <$> scan l)). intros body.
  cbn [drop List.length]. rewrite length_app. cbn [List.length].
  replace (S (List.length body + 1) - 2)%nat with (List.length body) by lia. apply take_app_length.
Qed.
Lemma json_text_valid l : utf8_valid (json_text l) = true.
Proof.
  rewrite json_body, join_concat. apply valid_concat, Forall_fmap. induction l as [|l Hl IH] using scan_ind; [constructor|].
  rewrite scan_cons by done. constructor; [by apply json_rune_valid|done].
Qed.

Lemma replace_byte_app c k l m : replace_byte c k (l ++ m) = replace_byte c k l ++ replace_byte c k m.
Proof. unfold replace_byte. by rewrite fmap_app, join_app. Qed.
Lemma replace_other c k l : Forall (fun d => Ascii.eqb d c = false) l -> replace_byte c k l = l.
Proof. induction 1 as [|d l Hd _ IH]; [done|]. unfold replace_byte in *. rewrite fmap_cons, Hd. cbn. by f_equal. Qed.
Lemma encode_wide r : scalar r = true -> 128 <= r -> Forall (fun d => ascii_byte d = false) (encode_scalar r).
Proof.
  intros H%scalar_range Hr. unfold encode_scalar.
  assert (Hz : forall z, 128 <= z < 256 -> ascii_byte (z2b z) = false).
  { intros z Hz. unfold ascii_byte. rewrite b2z_z2b by lia. apply Z.ltb_ge. lia. }
  repeat case_match; bool_prop; [lia|..]; repeat constructor; apply Hz; Z.to_euclidean_division_equations; lia.
Qed.
Lemma replace_byte_valid c k l : ascii_byte c = true -> utf8_valid k = true -> utf8_valid l = true -> utf8_valid (replace_byte c k l) = true.
Proof.
  intros Hc Hk (rs & Hr & ->)%valid_utf8. induction Hr as [|r rs Hr _ IH]; [done|].
  change (utf8 (r :: rs)) with (encode_scalar r ++ utf8 rs). rewrite replace_byte_app. apply valid_app; [|done].
  assert (Hv : utf8_valid (encode_scalar r) = true).
  { apply valid_utf8. exists [r]. split; [by constructor|]. unfold utf8. cbn. by rewrite app_nil_r. }
  destruct (Z.lt_ge_cases r 128) as [Hlt|Hge].
  - unfold encode_scalar in *. apply Z.ltb_lt in Hlt. rewrite Hlt in *. unfold replace_byte. cbn. case_match; by rewrite app_nil_r.
  - rewrite replace_other; [done|]. eapply Forall_impl; [by apply encode_wide|]. cbn. intros d Hd.
    apply not_true_iff_false. intros ->%Ascii.eqb_eq. congruence.
Qed.

Lemma variant_valid v q : utf8_valid v = true -> q ∈ encodedVariants v -> utf8_valid q = true.
Proof.
  intros Hv. unfold encodedVariants. rewrite !elem_of_app, !elem_of_cons, !elem_of_nil.
  assert (Hu : forall m, utf8_valid (url_escape m v) = true) by (intros; apply valid_ascii, url_escape_ascii).
  assert (Hb : forall e, ascii_alphabet e -> utf8_valid (base64_encode e v) = true) by (intros; by apply valid_ascii, base64_ascii).
  intros [[-> | [-> | [-> | [-> | [-> | [-> | [-> | [-> | []]]]]]]]] | [Hj | [-> | []]]]; try done; try apply Hu;
    try (apply Hb; split; reflexivity); [apply json_text_valid| |].
  - case_match; [|by apply elem_of_nil in Hj]. apply elem_of_cons in Hj as [-> | []%elem_of_nil].
    apply replace_byte_valid; [done..|apply json_text_valid].
  - apply replace_byte_valid; [done..|apply Hu].
Qed.
Lemma secret_form_valid values q : Forall (fun v => utf8_valid v = true) values -> q ∈ secret_forms values -> utf8_valid q = true.
Proof.
  intros Hv (_ & v & Hin & _ & Hq)%elem_of_secret_forms. rewrite Forall_forall in Hv. eapply variant_valid; [by apply Hv|done].
Qed.

(** A run of the native executable (internal/broker/types.go, errors.go,
    runner_linux.go): the policy, the environment and secrets of a request, and
    [Run] around a child process.  What the operating system answers is in
    [Surroundings]; the process tree controller is represented by its three
    answers. *)

#[local] Open Scope string_scope.
#[local] Open Scope Z_scope.

Inductive ErrorCode :=
| CodeInvalidPolicy | CodeInvalidRequest | CodeInvalidPath | CodeInvalidEnvironment | CodeRedactionFailed
| CodeProcessBoundary | CodeStartFailed | CodePreparedCloseFailed.
Definition ErrorCode_text (c : ErrorCode) : string :=
  match c with
  | CodeInvalidPolicy => "invalid_policy"
  | CodeInvalidRequest => "invalid_request"
  | CodeInvalidPath => "invalid_path"
  | CodeInvalidEnvironment => "invalid_environment"
  | CodeRedactionFailed => "redaction_failed"
  | CodeProcessBoundary => "process_boundary_unavailable"
  | CodeStartFailed => "start_failed"
  | CodePreparedCloseFailed => "prepared_close_failed"
  end.

(** [Cause] is left out: [Error()] never renders it. *)
Record Error := mk_Error { err_Code : ErrorCode; err_Detail : string }.
#[export] Instance ErrorCode_eq_dec : EqDecision ErrorCode.
Proof. solve_decision. Defined.

(** [Error.Error] *)
Definition Error_text (e : Error) : string :=
  if String.eqb (err_Detail e) "" then ErrorCode_text (err_Code e) else ErrorCode_text (err_Code e) +:+ ": " +:+ err_Detail e.

(** ** Policy: durations in nanoseconds, sizes in bytes *)

Definition maximumTimeout : Z := hour_ns.
Definition maximumTerminationGrace : Z := second_ns 30.
Definition maximumStreamOutputLimit : Z := Z.shiftl 1 20.
Definition maximumAggregateOutputLimit : Z := Z.shiftl 2 20.
Definition maximumEnvironment : Z := 512.
Definition maximumEnvironmentByte : Z := Z.shiftl 1 20.
Definition maximumEnvironmentSum : Z := Z.shiftl 4 20.
Definition maximumSecrets : Z := 1024.
Definition maximumSecretByte : Z := Z.shiftl 1 20.
Definition maximumSecretSum : Z := Z.shiftl 4 20.
Definition maximumPathBytes : Z := 4095.

Record Policy := mk_Policy {
  Timeout : Z; TerminationGrace : Z;
  StdoutLimit : Z; StderrLimit : Z; AggregateLimit : Z;
  MaximumEnvironment : Z; MaximumEnvironmentBytes : Z; MaximumEnvironmentTotal : Z;
  MaximumSecrets : Z; MaximumSecretBytes : Z; MaximumSecretTotal : Z;
}.
Definition DefaultPolicy : Policy :=
  mk_Policy (30 * minute_ns) (second_ns 5) (Z.shiftl 192 10) (Z.shiftl 64 10) (Z.shiftl 256 10)
    128 (Z.shiftl 64 10) (Z.shiftl 1 20) 128 (Z.shiftl 64 10) (Z.shiftl 1 20).

(** [value <= 0 || value > maximum] *)
Definition outside (value maximum : Z) : bool := (value <=? 0) || (maximum <? value).

(** [NewRunner]; [subreaper]: the child-subreaper boundary can be enabled. *)
Definition NewRunner (subreaper : bool) (policy : Policy) : result Error Policy :=
  _ ← reject_if (outside (Timeout policy) maximumTimeout)
        (mk_Error CodeInvalidPolicy "timeout must be positive and no more than one hour");
  _ ← reject_if (outside (TerminationGrace policy) maximumTerminationGrace)
        (mk_Error CodeInvalidPolicy "termination grace must be positive and no more than 30 seconds");
  _ ← reject_if (outside (StdoutLimit policy) maximumStreamOutputLimit || outside (StderrLimit policy) maximumStreamOutputLimit
                 || outside (AggregateLimit policy) maximumAggregateOutputLimit
                 || (AggregateLimit policy <? StdoutLimit policy) || (AggregateLimit policy <? StderrLimit policy)
                 || (StdoutLimit policy + StderrLimit policy <? AggregateLimit policy))
        (mk_Error CodeInvalidPolicy "output limits are invalid");
  _ ← reject_if (outside (MaximumEnvironment policy) maximumEnvironment
                 || outside (MaximumEnvironmentBytes policy) maximumEnvironmentByte
                 || outside (MaximumEnvironmentTotal policy) maximumEnvironmentSum)
        (mk_Error CodeInvalidPolicy "environment limits are invalid");
  _ ← reject_if (outside (MaximumSecrets policy) maximumSecrets || outside (MaximumSecretBytes policy) maximumSecretByte
                 || outside (MaximumSecretTotal policy) maximumSecretSum)
        (mk_Error CodeInvalidPolicy "secret limits are invalid");
  _ ← reject_if (negb subreaper) (mk_Error CodeProcessBoundary "could not enable the Linux child-subreaper boundary");
  Ok policy.

(** ** Requests *)

Record Variable_ := mk_Variable { var_Name : bytes; var_Value : bytes; var_Sensitive : bool }.

(** [req_Prepared]: the handle is not nil. *)
Record Request := mk_Request {
  req_Prepared : bool;
  WorkingDirectory : bytes;
  req_ConfigurationPath : bytes;
  Environment : list Variable_;
  ObservedSecrets : list bytes;
}.

Definition validateCanonicalPath (value : bytes) (directory : bool) : result Error unit :=
  _ ← reject_if (bool_decide (value = []) || (maximumPathBytes <? blen value) || negb (utf8_valid value))
        (mk_Error CodeInvalidPath "native path has an invalid length or encoding");
  _ ← reject_if (existsb (fun r => (r <? 32) || (r =? 127)) (runes value))
        (mk_Error CodeInvalidPath "native path contains control text");
  _ ← reject_if (negb (is_abs value) || negb (bool_decide (clean_rooted value = value)))
        (mk_Error CodeInvalidPath "native path must be canonical and absolute");
  reject_if (negb directory && bool_decide (value = to_bytes "/"))
    (mk_Error CodeInvalidPath "configuration path must name a file").

(** [^[A-Z][A-Z0-9_]{0,127}$] *)
Definition environmentNamePattern (name : bytes) : bool :=
  match name with
  | [] => false
  | c :: rest => is_upper_ascii c && (blen rest <=? 127)
                 && forallb (fun c => is_upper_ascii c || is_digit c || Ascii.eqb c "_") rest
  end.
Definition fixedEnvironment : list bytes := to_bytes <$> ["LANG=C"; "LC_ALL=C"; "TZ=UTC"].
Definition reserved_name (name : bytes) : bool := existsb (fun r => bool_decide (name = to_bytes r)) ["LANG"; "LC_ALL"; "TZ"].

Definition bytesContainNUL (value : bytes) : bool := existsb (fun c => b2z c =? 0) value.

Definition bad_name : Error := mk_Error CodeInvalidEnvironment "environment name is invalid, duplicate, or reserved".

(** [ownedValues] and [sensitiveNames]: each name with its value and flag. *)
Abbreviation owned := (gmap bytes (bytes * bool)).

Fixpoint own_values (policy : Policy) (values : owned) (total : Z) (variables : list Variable_) : result Error owned :=
  match variables with
  | [] => Ok values
  | v :: variables =>
      _ ← reject_if (negb (environmentNamePattern (var_Name v)) || reserved_name (var_Name v)) bad_name;
      _ ← reject_if (bool_decide (is_Some (values !! var_Name v))) bad_name;
      _ ← reject_if ((MaximumEnvironmentBytes policy <? blen (var_Value v)) || bytesContainNUL (var_Value v) || negb (utf8_valid (var_Value v)))
            (mk_Error CodeInvalidEnvironment "environment value is outside the process contract");
      let total := total + (blen (var_Name v) + 1 + blen (var_Value v)) in
      _ ← reject_if (MaximumEnvironmentTotal policy <? total)
            (mk_Error CodeInvalidEnvironment "environment entries exceed the aggregate bound");
      own_values policy (<[var_Name v := (var_Value v, var_Sensitive v)]> values) total variables
  end.

Fixpoint observe_secrets (policy : Policy) (secrets : list bytes) (total : Z) (values : list bytes) : result Error (list bytes * Z) :=
  match values with
  | [] => Ok (secrets, total)
  | value :: values =>
      if bool_decide (value = []) then observe_secrets policy secrets total values
      else
        _ ← reject_if (MaximumSecretBytes policy <? blen value)
              (mk_Error CodeRedactionFailed "observed secret value exceeds the per-value bound");
        let total := total + blen value in
        _ ← reject_if (MaximumSecretTotal policy <? total)
              (mk_Error CodeRedactionFailed "observed secret values exceed the aggregate bound");
        observe_secrets policy (secrets ++ [value])%list total values
  end.

Fixpoint render_environment (policy : Policy) (environment secrets : list bytes) (total : Z) (entries : list (bytes * (bytes * bool)))
    : result Error (list bytes * list bytes) :=
  match entries with
  | [] => Ok (environment, secrets)
  | (name, (value, sensitive)) :: entries =>
      let environment := (environment ++ [name ++ "="%char :: value])%list in
      if sensitive && negb (bool_decide (value = [])) then
        _ ← reject_if ((MaximumSecrets policy <=? blen secrets) || (MaximumSecretBytes policy <? blen value)
                       || (MaximumSecretTotal policy <? total + blen value))
              (mk_Error CodeRedactionFailed "sensitive environment values exceed the redaction bound");
        render_environment policy environment (secrets ++ [value])%list (total + blen value) entries
      else render_environment policy environment secrets total entries
  end.

(** The names in order, each with its entry. *)
Definition sorted_entries (values : owned) : list (bytes * (bytes * bool)) :=
  sort_by (fun a b => text_le a.1 b.1) (map_to_list values).

Definition prepareEnvironmentAndSecrets (policy : Policy) (request : Request) : result Error (list bytes * list bytes) :=
  _ ← reject_if (MaximumEnvironment policy <? blen (Environment request))
        (mk_Error CodeInvalidEnvironment "too many environment entries");
  _ ← reject_if (MaximumSecrets policy <? blen (ObservedSecrets request))
        (mk_Error CodeRedactionFailed "too many observed secret values");
  values ← own_values policy ∅ 0 (Environment request);
  '(secrets, total) ← observe_secrets policy [] 0 (ObservedSecrets request);
  render_environment policy fixedEnvironment secrets total (sorted_entries values).

(** ** Results *)

(** [OutcomeNone] is the empty text of a result without an outcome. *)
Inductive Outcome :=
| OutcomeSucceeded | OutcomeFailed | OutcomeTimedOut | OutcomeInterrupted | OutcomeOutputLimit | OutcomeAmbiguous | OutcomeNone.
Inductive Termination := TerminationNone | TerminationGraceful | TerminationForced | TerminationUnset.
#[export] Instance Outcome_eq_dec : EqDecision Outcome.
Proof. solve_decision. Defined.

Record Result := mk_Result {
  r_Outcome : Outcome;
  Started : bool;
  r_StartedAt : time;
  r_FinishedAt : time;
  ExitCode : Z;
  ExitCodeKnown : bool;
  TermSignal : bytes;
  r_Termination : Termination;
  Stdout : bytes;
  Stderr : bytes;
  OutputDiscarded : bool;
  MayHaveChanged : bool;
}.
Definition zero_result : Result :=
  mk_Result OutcomeNone false zero_time zero_time 0 false [] TerminationUnset [] [] false false.

(** [os.ProcessState]: nil, exited, signaled, a wait status that is neither, or
    a state without a wait status, with its exit code. *)
Inductive ProcessState := NoState | Exited (status : Z) | Signaled (signal : Z) | OtherStatus | NotWaitStatus (code : Z).

Definition signalName (signal : Z) : bytes :=
  if signal =? 15 then to_bytes "SIGTERM"
  else if signal =? 9 then to_bytes "SIGKILL"
  else if signal =? 2 then to_bytes "SIGINT"
  else if signal =? 1 then to_bytes "SIGHUP"
  else if signal =? 3 then to_bytes "SIGQUIT"
  else (to_bytes "SIG" ++ itoa signal)%list.

Definition processExit (state : ProcessState) : Z * bool * bytes :=
  match state with
  | NoState | OtherStatus => (0, false, [])
  | NotWaitStatus code => if 0 <=? code then (code, true, []) else (0, false, [])
  | Exited status => (status, true, [])
  | Signaled signal => (0, false, signalName signal)
  end.
Definition process_success (state : ProcessState) : bool :=
  match state with Exited code | NotWaitStatus code => code =? 0 | _ => false end.

(** [context.Cause] of the run: the three causes the code tells apart. *)
Inductive Cause := HardTimeout | OutputLimit | OtherCause.
Inductive WaitError := ErrWaitDelay | OtherWaitError.
#[export] Instance Cause_eq_dec : EqDecision Cause.
Proof. solve_decision. Defined.
#[export] Instance WaitError_eq_dec : EqDecision WaitError.
Proof. solve_decision. Defined.

(** What is observed of a child. *)
Record Child := mk_Child {
  ch_writes : list (outputStream * bytes);
  ch_wait : option WaitError;
  ch_cause : option Cause;
  ch_state : ProcessState;
  ch_cleanup_uncertain : bool;
  ch_cancel_requested : bool;
}.
(** What the calls of a run answer. *)
Record Surroundings := mk_Surroundings {
  su_context : bool;                     (* ctx is not nil *)
  su_guard : option bytes;               (* newProcessGuard *)
  su_cancelled : bool;                   (* ctx.Err() before the start *)
  su_controller : bool;                  (* newProcessController succeeds *)
  su_start : bool;                       (* StartContext succeeds *)
  su_child : Child;
  su_termination : Termination;
  su_close : bool;                       (* prepared.Close succeeds *)
  su_attempted : time;
  su_finished : time;
}.

Section Run.
Context (digest_of : bytes -> bytes).

(** The bytes of a stream as they leave the broker: redacted, made safe to
    display, and redacted again. *)
Definition publish (filter : RedactFilter.Filter) (raw : bytes) : result RedactFilter.RedactError bytes :=
  redacted ← RedactFilter.Filter_Bytes (Some filter) raw;
  RedactFilter.Filter_Bytes (Some filter) (sanitizeOutput redacted).

Definition run_outcome (child : Child) (overflowed : bool) : Outcome :=
  if ch_cleanup_uncertain child then OutcomeAmbiguous
  else if bool_decide (ch_wait child = Some ErrWaitDelay) then OutcomeAmbiguous
  else if overflowed || bool_decide (ch_cause child = Some OutputLimit) then OutcomeOutputLimit
  else if ch_cancel_requested child && bool_decide (ch_cause child = Some HardTimeout) then OutcomeTimedOut
  else if ch_cancel_requested child && bool_decide (is_Some (ch_cause child)) then OutcomeInterrupted
  else if bool_decide (ch_wait child = None) && process_success (ch_state child) then OutcomeSucceeded
  else OutcomeFailed.

(** From [command.Wait] on. *)
Definition finish_child (policy : Policy) (filter : RedactFilter.Filter) (su : Surroundings) : result RedactFilter.RedactError Result :=
  let child := su_child su in
  let '(stdout, stderr, over, _) := take_output (write_output (ch_writes child)
      (newOutputCollector (StdoutLimit policy) (StderrLimit policy) (AggregateLimit policy))) in
  let '(code, known, signal) := processExit (ch_state child) in
  let ended out err := mk_Result (run_outcome child over) true (su_attempted su) (su_finished su) code known signal
                         (su_termination su) out err over true in
  if over then Ok (ended [] [])
  else out ← publish filter stdout; err ← publish filter stderr; Ok (ended out err).

Definition redaction_policy (policy : Policy) : RedactFilter.Policy :=
  {| RedactFilter.MaximumValues := MaximumSecrets policy; RedactFilter.MaximumValueBytes := MaximumSecretBytes policy;
     RedactFilter.MaximumAggregateBytes := MaximumSecretTotal policy |}.

Definition failed_run (code : ErrorCode) (detail : string) : Result * option Error := (zero_result, Some (mk_Error code detail)).

(** Everything before the child: its environment and its output filter. *)
Definition prepare_run (runner : option Policy) (request : Request) (su : Surroundings)
    : result Error (Policy * list bytes * RedactFilter.Filter) :=
  match runner with
  | None => Err (mk_Error CodeInvalidPolicy "broker runner is nil")
  | Some policy =>
      _ ← reject_if (negb (su_context su)) (mk_Error CodeInvalidRequest "operation context is required");
      _ ← validateCanonicalPath (WorkingDirectory request) true;
      _ ← validateCanonicalPath (req_ConfigurationPath request) false;
      '(environment, secretValues) ← prepareEnvironmentAndSecrets policy request;
      match su_guard su with
      | None => Err (mk_Error CodeProcessBoundary "could not create the operation process guard")
      | Some processGuard =>
          filter ← map_err (fun _ => mk_Error CodeRedactionFailed "could not construct bounded output redaction")
                     (RedactFilter.New digest_of secretValues (redaction_policy policy));
          _ ← reject_if (su_cancelled su) (mk_Error CodeStartFailed "operation was canceled before process start");
          _ ← reject_if (negb (su_controller su)) (mk_Error CodeProcessBoundary "could not initialize guarded descendant tracking");
          Ok (policy, environment ++ [processGuard], filter)%list
      end
  end.

(** A start that reports an error may still have run the child. *)
Definition uncertain_start (su : Surroundings) : Result :=
  mk_Result OutcomeAmbiguous true (su_attempted su) (su_finished su) 0 false [] (su_termination su) [] [] true true.

(** The body, before the deferred [prepared.Close]. *)
Definition run_body (runner : option Policy) (request : Request) (su : Surroundings) : result RedactFilter.RedactError (Result * option Error) :=
  match prepare_run runner request su with
  | Err e => Ok (zero_result, Some e)
  | Ok (policy, environment, filter) =>
      if negb (su_start su)
      then Ok (uncertain_start su, Some (mk_Error CodeStartFailed "constrained lego start has uncertain completion"))
      else r ← finish_child policy filter su; Ok (r, None)
  end.

Definition Run (runner : option Policy) (request : Request) (su : Surroundings) : result RedactFilter.RedactError (Result * option Error) :=
  if negb (req_Prepared request) then Ok (failed_run CodeInvalidRequest "prepared executable is required")
  else
    '(r, e) ← run_body runner request su;
    Ok (r, match e with
           | Some e => Some e
           | None => if su_close su then None else Some (mk_Error CodePreparedCloseFailed "could not close prepared executable")
           end).

(** The environment of the child, when one is started. *)
Definition child_environment (runner : option Policy) (request : Request) (su : Surroundings) : option (list bytes) :=
  match prepare_run runner request su with Ok (_, environment, _) => Some environment | Err _ => None end.
End Run.
