(* ===== verification/BrokerCorrect.v ===== *)
(** What a run of the native executable guarantees: its output is bounded,
    safe to display and free of secrets, its environment is exactly the
    requested one, and its outcome claims no more than was observed. *)
From stdpp Require Import gmap.
From S2P Require Import Prelude.
From S2P Require Import GoText.
From S2P Require Import GoTime.
From S2P Require Import RedactFilter.
From S2P Require RedactFilter.
From S2P Require Import RedactTrie.
From S2P Require Import RedactCorrect.
From S2P Require Import BrokerRun.

#[local] Open Scope Z_scope.

(** ** Displayable bytes *)

(** A rune a terminal shows as itself. *)
Definition displayable (r : Z) : Prop := scalar r = true /\ (r = 10 \/ r = 9 \/ (is_control r = false /\ is_format r = false)).
Definition displayable_text (l : bytes) : Prop := exists rs, Forall displayable rs /\ l = utf8 rs.

Lemma displayable_valid l : displayable_text l -> utf8_valid l = true.
Proof. intros (rs & H & ->). apply valid_utf8. exists rs. split; [|done]. eapply Forall_impl; [exact H|]. by intros r []. Qed.
Lemma displayable_nil : displayable_text [].
Proof. by exists []. Qed.

Lemma display_rune_displayable r : scalar r = true -> displayable (display_rune r).
Proof.
  intros H. unfold display_rune. destruct (Z.eqb_spec r 10) as [->|]; [by split; [|left]|].
  destruct (Z.eqb_spec r 9) as [->|]; [by split; [|right; left]|]. cbn [negb andb].
  destruct (is_control r || is_format r) eqn:E; [split; [reflexivity|right; right; by vm_compute]|].
  apply orb_false_iff in E. split; [done|]. by right; right.
Qed.

Lemma sanitize_rune_spec l : l <> [] ->
  exists r, displayable r /\ sanitize_rune (decode_rune l) = encode_scalar r /\ (List.length (encode_scalar r) <= (decode_rune l).2)%nat.
Proof.
  intros Hl. unfold sanitize_rune. destruct (decode_rune_spec l Hl) as [-> |(Hs & Ht & Hw)].
  { exists 63. split; [|done]. split; [done|]. right; right. done. }
  destruct (bad_rune (decode_rune l)) eqn:Eb.
  { exists 63. split; [split; [done|right; right; done]|]. split; [done|]. rewrite <- Hw.
    pose proof (encode_scalar_nonempty (decode_rune l).1). destruct (encode_scalar (decode_rune l).1); cbn in *; [done|lia]. }
  exists (display_rune (decode_rune l).1). pose proof (display_rune_displayable _ Hs) as [Hd Hd'].
  split; [done|]. unfold append_rune. rewrite Hd. split; [done|].
  unfold display_rune. case_match; [|lia]. rewrite <- Hw. pose proof (encode_scalar_nonempty (decode_rune l).1).
  destruct (encode_scalar (decode_rune l).1); cbn in *; [done|lia].
Qed.

Lemma sanitize_displayable value : displayable_text (sanitizeOutput value) /\ blen (sanitizeOutput value) <= blen value.
Proof.
  induction value as [|l Hl (Hd & Hb)] using scan_ind; [by split; [exists []|]|].
  unfold sanitizeOutput at 1 2. rewrite scan_cons by done. cbn [fmap list_fmap concat]. fold (sanitizeOutput (drop (decode_rune l).2 l)).
  destruct (sanitize_rune_spec l Hl) as (r & Hr & -> & Hw). destruct Hd as (rs & Hrs & E).
  change (concat _) with (sanitizeOutput (drop (decode_rune l).2 l)). rewrite E in Hb |- *. split.
  - exists (r :: rs). split; [by constructor|done].
  - rewrite blen_append. unfold blen in *. rewrite length_drop in Hb. pose proof (decode_rune_width l Hl). lia.
Qed.

Lemma redact_displayable patterns l : (forall p, p ∈ patterns -> p <> []) -> (forall p, p ∈ patterns -> utf8_valid p = true) ->
  displayable_text l -> displayable_text (redact patterns l).
Proof.
  intros Hn Hv (rs & Hd & ->). destruct (redact_utf8 patterns Hn Hv rs) as (rs' & Hin & ->).
  { eapply Forall_impl; [exact Hd|]. by intros r []. }
  exists rs'. split; [|done]. rewrite Forall_forall in *. auto.
Qed.

(** ** The environment and the secrets *)

Definition entry (v : Variable_) : bytes * (bytes * bool) := (var_Name v, (var_Value v, var_Sensitive v)).
Definition acceptable (v : Variable_) : Prop :=
  environmentNamePattern (var_Name v) = true /\ reserved_name (var_Name v) = false
  /\ bytesContainNUL (var_Value v) = false /\ utf8_valid (var_Value v) = true.

Lemma own_values_Ok policy vars : forall values total out, own_values policy values total vars = Ok out ->
  map_to_list out ≡ₚ (entry <$> vars) ++ map_to_list values /\ Forall acceptable vars.
Proof.
  induction vars as [|v vars IH]; intros values total out H; cbn in H; [by injection H as ->; split|].
  apply bind_Ok in H as (_ & H1%reject_if_Ok & H). apply bind_Ok in H as (_ & H2%reject_if_Ok & H).
  apply bind_Ok in H as (_ & H3%reject_if_Ok & H). apply bind_Ok in H as (_ & _ & H).
  apply orb_false_iff in H1 as [H1%negb_false_iff Hr]. apply bool_decide_eq_false in H2. apply orb_false_iff in H3 as [[_ H3]%orb_false_iff H4%negb_false_iff].
  destruct (IH _ _ _ H) as [Hp Ha]. split; [|by constructor].
  rewrite Hp, map_to_list_insert by (by apply eq_None_not_Some). by rewrite <- Permutation_middle.
Qed.

Definition visible (values : list bytes) : list bytes := filter (fun v => v <> []) values.
Lemma observe_secrets_Ok policy values : forall secrets total out t, observe_secrets policy secrets total values = Ok (out, t) ->
  out = secrets ++ visible values.
Proof.
  unfold visible. induction values as [|v values IH]; intros secrets total out t H; cbn in H; [injection H as <- _; by rewrite app_nil_r|].
  rewrite filter_cons. case_bool_decide; [rewrite decide_False by naive_solver; by eapply IH|]. rewrite decide_True by done.
  apply bind_Ok in H as (_ & _ & H). apply bind_Ok in H as (_ & _ & H). apply IH in H as ->. by rewrite <- app_assoc.
Qed.

Definition render (e : bytes * (bytes * bool)) : bytes := e.1 ++ "="%char :: e.2.1.
Lemma render_environment_Ok policy entries : forall environment secrets total env sec,
  render_environment policy environment secrets total entries = Ok (env, sec) ->
  env = environment ++ (render <$> entries)
  /\ (forall s, s ∈ secrets -> s ∈ sec) /\ (forall e, e ∈ entries -> e.2.2 = true -> e.2.1 <> [] -> e.2.1 ∈ sec)
  /\ (forall s, s ∈ sec -> s ∈ secrets \/ exists e, e ∈ entries /\ e.2.1 = s).
Proof.
  induction entries as [|[name [value sensitive]] entries IH]; intros environment secrets total env sec H; cbn in H.
  { injection H as <- <-. rewrite app_nil_r. split_and!; [done..| |auto]. intros e He. by apply elem_of_nil in He. }
  destruct (sensitive && negb (bool_decide (value = []))) eqn:Es.
  - apply bind_Ok in H as (_ & _ & H). apply IH in H as (-> & H1 & H2 & H3). rewrite <- app_assoc. split_and!; [done| | |].
    + intros s Hs. apply H1. set_solver.
    + intros e [-> |He]%elem_of_cons Hsens Hv; cbn in *; [apply H1; set_solver|by apply H2].
    + intros s [[Hs| ->%list_elem_of_singleton]%elem_of_app|(e & He & Hs)]%H3; [by left| |].
      * right. exists (name, (value, sensitive)). split; [by left|done].
      * right. exists e. split; [by right|done].
  - apply IH in H as (-> & H1 & H2 & H3). rewrite <- app_assoc. split_and!; [done..| |].
    + intros e [-> |He]%elem_of_cons Hsens Hv; cbn in *; [|by apply H2]. by rewrite Hsens, bool_decide_false in Es.
    + intros s [Hs|(e & He & Hs)]%H3; [by left|]. right. exists e. split; [by right|done].
Qed.

(** What the broker must keep out of its output. *)
Definition confidential (request : Request) (v : bytes) : Prop :=
  v <> [] /\ (v ∈ ObservedSecrets request \/ exists x, x ∈ Environment request /\ var_Sensitive x = true /\ var_Value x = v).

Lemma prepare_Ok policy request env sec : prepareEnvironmentAndSecrets policy request = Ok (env, sec) ->
  exists entries, env = fixedEnvironment ++ (render <$> entries) /\ entries ≡ₚ (entry <$> Environment request)
  /\ StronglySorted (fun a b => text_le a.1 b.1 = true) entries /\ NoDup entries.*1 /\ Forall acceptable (Environment request)
  /\ (forall v, confidential request v -> v ∈ sec)
  /\ (forall v, v ∈ sec -> v ∈ ObservedSecrets request \/ utf8_valid v = true).
Proof.
  intros H. unfold prepareEnvironmentAndSecrets in H. apply bind_Ok in H as (_ & _ & H). apply bind_Ok in H as (_ & _ & H).
  apply bind_Ok in H as (values & Ho & H). apply bind_Ok in H as ([secrets total] & Hs & H).
  apply own_values_Ok in Ho as [Hp Ha]. rewrite map_to_list_empty, app_nil_r in Hp.
  apply observe_secrets_Ok in Hs as ->. apply render_environment_Ok in H as (-> & H1 & H2 & H3).
  assert (Hperm : sorted_entries values ≡ₚ map_to_list values) by apply sort_by_perm.
  exists (sorted_entries values). split_and!; [done|by rewrite Hperm| | |done| |].
  - apply (sort_by_ordered (fun a b : bytes * (bytes * bool) => text_le a.1 b.1)); [intros a b; apply text_le_total|intros a b c; apply text_le_trans].
  - rewrite Hperm. apply NoDup_fst_map_to_list.
  - intros v (Hv & [Hin|(x & Hx & Hsens & <-)]).
    + apply H1. apply elem_of_app. right. by apply list_elem_of_filter.
    + apply (H2 (entry x)); [|done..]. rewrite Hperm, Hp. by apply list_elem_of_fmap_2.
  - intros v [[[]%elem_of_nil|[_ Hv]%list_elem_of_filter]%elem_of_app|(e & He & <-)]%H3; [by left|right].
    rewrite Hperm, Hp in He. apply list_elem_of_fmap in He as (x & -> & Hx). rewrite Forall_forall in Ha. by apply Ha.
Qed.

(** ** The outcomes of a run *)

Section Run.
Context (digest_of : bytes -> bytes).

Definition fits_policy (policy : Policy) (child : Child) : Prop :=
  fits (StdoutLimit policy) (StderrLimit policy) (AggregateLimit policy) (ch_writes child).

Lemma accepted_limits subreaper policy runner : NewRunner subreaper policy = Ok runner ->
  runner = policy /\ 0 <= StdoutLimit policy /\ 0 <= StderrLimit policy /\ 0 <= AggregateLimit policy.
Proof.
  intros H. unfold NewRunner in H. do 2 apply bind_Ok in H as (_ & _ & H). apply bind_Ok in H as (_ & Hl%reject_if_Ok & H).
  do 3 apply bind_Ok in H as (_ & _ & H). injection H as ->. unfold outside in Hl. bool_prop. split; [done|lia].
Qed.

(** What reached the end of a started child. *)
Lemma taken policy writes stdout stderr over c : 0 <= StdoutLimit policy -> 0 <= StderrLimit policy -> 0 <= AggregateLimit policy ->
  take_output (write_output writes (newOutputCollector (StdoutLimit policy) (StderrLimit policy) (AggregateLimit policy)))
    = (stdout, stderr, over, c) ->
  blen stdout <= StdoutLimit policy /\ blen stderr <= StderrLimit policy /\ blen stdout + blen stderr <= AggregateLimit policy
  /\ (over = true <-> ~ fits (StdoutLimit policy) (StderrLimit policy) (AggregateLimit policy) writes)
  /\ (over = false -> stdout = sent streamStdout writes /\ stderr = sent streamStderr writes).
Proof.
  intros H1 H2 H3. destruct (collecting_output _ _ _ H1 H2 H3 writes) as [_ B K L _]. unfold take_output. intros E.
  destruct (overflowed _) eqn:Eo; injection E as <- <- <- _.
  - split_and!; [done..| |done]. split; [intros _; by apply L|done].
  - split_and!; [apply B..| |by apply K]. split; [done|]. intros Hn. destruct Hn. destruct (K eq_refl) as [K1 K2].
    unfold fits. rewrite <- K1, <- K2. done.
Qed.

Lemma publish_Ok sec policy filter raw : RedactFilter.New digest_of sec (redaction_policy policy) = Ok filter ->
  publish filter raw = Ok (redact (secret_forms sec) (sanitizeOutput (redact (secret_forms sec) raw))).
Proof. intros H. unfold publish, mbind, result_bind. by rewrite !(New_redacts _ _ _ _ H). Qed.

(** A stream as it is published: text within the bound of what was sent, and
    without the secrets. *)
Lemma published_safe sec raw : (forall v, v ∈ sec -> utf8_valid v = true) ->
  let out := redact (secret_forms sec) (sanitizeOutput (redact (secret_forms sec) raw)) in
  displayable_text out /\ blen out <= blen raw /\ forall q, q ∈ secret_forms sec -> ~ occurs q out.
Proof.
  intros Hv out. assert (Hn := secret_forms_nonempty sec). destruct (sanitize_displayable (redact (secret_forms sec) raw)) as [Hd Hl].
  split_and!.
  - apply redact_displayable; [apply Hn| |done]. intros p. apply secret_form_valid, Forall_forall. done.
  - pose proof (redact_shorter (secret_forms sec) raw). pose proof (redact_shorter (secret_forms sec) (sanitizeOutput (redact (secret_forms sec) raw))).
    unfold out, blen in *. lia.
  - intros q. by apply redact_clean.
Qed.

(** The three ways a run of a prepared executable ends. *)
Inductive run_case (policy : Policy) (request : Request) (su : Surroundings) : Result -> option Error -> Prop :=
| not_started e : child_environment digest_of (Some policy) request su = None -> run_case policy request su zero_result (Some e)
| start_uncertain e : su_start su = false -> run_case policy request su (uncertain_start su) (Some e)
| finished sec filter r e environment : su_start su = true -> RedactFilter.New digest_of sec (redaction_policy policy) = Ok filter ->
    prepareEnvironmentAndSecrets policy request = Ok (environment, sec) -> finish_child policy filter su = Ok r ->
    (e <> None -> su_close su = false) -> run_case policy request su r e.

Lemma prepare_run_Ok policy request su policy' env filter : prepare_run digest_of (Some policy) request su = Ok (policy', env, filter) ->
  policy' = policy /\ exists environment sec guard, su_guard su = Some guard /\ env = environment ++ [guard]
  /\ prepareEnvironmentAndSecrets policy request = Ok (environment, sec) /\ RedactFilter.New digest_of sec (redaction_policy policy) = Ok filter.
Proof.
  intros H. unfold prepare_run in H. do 3 apply bind_Ok in H as (_ & _ & H). apply bind_Ok in H as ([environment sec] & Hp & H).
  destruct (su_guard su) as [guard|]; [|done]. apply bind_Ok in H as (f & Hf%map_err_Ok & H).
  do 2 apply bind_Ok in H as (_ & _ & H). injection H as -> <- ->. split; [done|]. by exists environment, sec, guard.
Qed.

Lemma Run_cases policy request su r e : req_Prepared request = true -> Run digest_of (Some policy) request su = Ok (r, e) ->
  run_case policy request su r e.
Proof.
  intros Hp H. unfold Run in H. rewrite Hp in H. cbn [negb] in H. apply bind_Ok in H as ([r0 e0] & Hb & H). injection H as -> <-.
  unfold run_body in Hb. destruct (prepare_run _ _ _ _) as [[[policy' env] filter]|e1] eqn:Ep.
  - apply prepare_run_Ok in Ep as (-> & environment & sec & guard & _ & _ & Hs & Hf).
    destruct (su_start su) eqn:Es; cbn [negb] in Hb; [|injection Hb as <- <-; by apply start_uncertain].
    apply bind_Ok in Hb as (r1 & Hr & Hb). injection Hb as -> <-. eapply finished; [done..|]. by destruct (su_close su).
  - injection Hb as <- <-. apply not_started. unfold child_environment. by rewrite Ep.
Qed.

Lemma finish_total policy sec filter su : RedactFilter.New digest_of sec (redaction_policy policy) = Ok filter ->
  exists r, finish_child policy filter su = Ok r.
Proof.
  intros Hf. unfold finish_child. destruct (take_output _) as [[[stdout stderr] over] c].
  destruct (processExit _) as [[code known] signal]. destruct over; [by eexists|]. rewrite !(publish_Ok _ _ _ _ Hf). by eexists.
Qed.
Lemma Run_total runner request su : exists r e, Run digest_of runner request su = Ok (r, e).
Proof.
  unfold Run. destruct (req_Prepared request); cbn [negb]; [|by eexists _, _]. unfold run_body.
  destruct (prepare_run _ _ _ _) as [[[policy env] filter]|e] eqn:Ep; [|by eexists _, _].
  destruct (su_start su); cbn [negb]; [|by eexists _, _].
  destruct runner as [policy'|]; [|done]. apply prepare_run_Ok in Ep as (-> & _ & sec & _ & _ & _ & _ & Hf).
  destruct (finish_total _ _ _ su Hf) as [r ->]. by eexists _, _.
Qed.
End Run.

Lemma occurs_nil q : q <> [] -> ~ occurs q [].
Proof. intros Hq (l & r & E). symmetry in E. by apply app_nil in E as [_ [E _]%app_nil]. Qed.
(** A published stream is safe, also when nothing of it was published. *)
Lemma stream_safe sec raw out : (forall v, v ∈ sec -> utf8_valid v = true) ->
  out = [] \/ out = redact (secret_forms sec) (sanitizeOutput (redact (secret_forms sec) raw)) ->
  displayable_text out /\ blen out <= blen raw /\ forall q, q ∈ secret_forms sec -> ~ occurs q out.
Proof.
  intros Hv [-> | ->]; [|by apply published_safe]. split_and!; [apply displayable_nil|unfold blen; cbn; lia|].
  intros q Hq%secret_forms_nonempty. by apply occurs_nil.
Qed.

Lemma finish_inv digest_of policy sec filter su r :
  0 <= StdoutLimit policy -> 0 <= StderrLimit policy -> 0 <= AggregateLimit policy ->
  RedactFilter.New digest_of sec (redaction_policy policy) = Ok filter -> finish_child policy filter su = Ok r ->
  exists stdout stderr over,
    blen stdout <= StdoutLimit policy /\ blen stderr <= StderrLimit policy /\ blen stdout + blen stderr <= AggregateLimit policy
    /\ (over = true <-> ~ fits_policy policy (su_child su))
    /\ r_Outcome r = run_outcome (su_child su) over /\ Started r = true /\ MayHaveChanged r = true /\ OutputDiscarded r = over
    /\ (Stdout r = [] \/ Stdout r = redact (secret_forms sec) (sanitizeOutput (redact (secret_forms sec) stdout)))
    /\ (Stderr r = [] \/ Stderr r = redact (secret_forms sec) (sanitizeOutput (redact (secret_forms sec) stderr))).
Proof.
  intros H1 H2 H3 Hf Hr. unfold finish_child in Hr. destruct (take_output _) as [[[stdout stderr] over] c] eqn:Et.
  apply taken in Et as (B1 & B2 & B3 & Ho & _); [|done..]. exists stdout, stderr, over.
  destruct (processExit _) as [[code known] signal]. destruct over.
  - injection Hr as <-. split_and!; try done; try apply Ho; auto.
  - rewrite !(publish_Ok _ _ _ _ _ Hf) in Hr. injection Hr as <-. split_and!; try done; try apply Ho; auto.
Qed.

(** The collector keeps every write within its limits, in whatever order
    the two pipes deliver: it holds exactly what was sent when that fits the three
    limits, and otherwise releases nothing and stops the child exactly once. *)
Theorem collector_keeps_limits lo le la writes : 0 <= lo -> 0 <= le -> 0 <= la ->
  let c := write_output writes (newOutputCollector lo le la) in
  blen (oc_stdout c) <= lo /\ blen (oc_stderr c) <= le /\ blen (oc_stdout c) + blen (oc_stderr c) <= la
  /\ (fits lo le la writes -> (take_output c).1 = (sent streamStdout writes, sent streamStderr writes, false) /\ overflow_calls c = 0%nat)
  /\ (~ fits lo le la writes -> (take_output c).1 = ([], [], true) /\ overflow_calls c = 1%nat).
Proof.
  intros H1 H2 H3 c. destruct (collecting_output _ _ _ H1 H2 H3 writes) as [_ B K L [_ C]]. fold c in B, K, L, C.
  split_and!; [apply B..| |]; unfold take_output; intros Hf; rewrite C.
  - destruct (overflowed c); [by destruct (L eq_refl)|]. destruct (K eq_refl) as [-> ->]. done.
  - destruct (overflowed c); [done|]. destruct Hf. destruct (K eq_refl) as [K1 K2]. unfold fits. rewrite <- K1, <- K2. apply B.
Qed.

(** C14: Whatever a child writes and however the run ends, the broker answers
    with output that is valid UTF-8 without control or formatting characters
    other than line feeds and tabs, stays within the limits of its policy, and
    holds neither a secret of the request nor one of its URL, base64 or JSON
    forms; sanitizing cannot bring a redacted secret back. *)
Theorem Run_output_is_safe digest_of subreaper policy runner request su :
  NewRunner subreaper policy = Ok runner -> Forall (fun v => utf8_valid v = true) (ObservedSecrets request) ->
  exists r e, Run digest_of (Some runner) request su = Ok (r, e)
    /\ displayable_text (Stdout r) /\ displayable_text (Stderr r)
    /\ blen (Stdout r) <= StdoutLimit policy /\ blen (Stderr r) <= StderrLimit policy
    /\ blen (Stdout r) + blen (Stderr r) <= AggregateLimit policy
    /\ forall v q, confidential request v -> q ∈ RedactFilter.encodedVariants v -> q <> [] ->
         ~ occurs q (Stdout r) /\ ~ occurs q (Stderr r).
Proof.
  intros (-> & L1 & L2 & L3)%accepted_limits Hv. destruct (Run_total digest_of (Some policy) request su) as (r & e & Hr).
  exists r, e. split; [done|].
  assert (Hempty : Stdout r = [] -> Stderr r = [] -> displayable_text (Stdout r) /\ displayable_text (Stderr r)
    /\ blen (Stdout r) <= StdoutLimit policy /\ blen (Stderr r) <= StderrLimit policy
    /\ blen (Stdout r) + blen (Stderr r) <= AggregateLimit policy
    /\ forall v q, confidential request v -> q ∈ RedactFilter.encodedVariants v -> q <> [] -> ~ occurs q (Stdout r) /\ ~ occurs q (Stderr r)).
  { intros -> ->. split_and!; try apply displayable_nil; try done. intros v q _ _ Hq.
    split; by apply occurs_nil. }
  destruct (req_Prepared request) eqn:Ep; [|unfold Run in Hr; rewrite Ep in Hr; injection Hr as <- _; by apply Hempty].
  destruct (Run_cases _ _ _ _ _ _ Ep Hr) as [e' _|e' _|sec filter r e' env _ Hf Hs Hc _]; [by apply Hempty..|].
  destruct (finish_inv _ _ _ _ _ _ L1 L2 L3 Hf Hc) as (stdout & stderr & over & B1 & B2 & B3 & _ & _ & _ & _ & _ & Ho & He).
  apply prepare_Ok in Hs as (_ & _ & _ & _ & _ & _ & Hsec & Hin).
  assert (Hval : forall v, v ∈ sec -> utf8_valid v = true).
  { intros v [Hv'|Hv']%Hin; [|done]. rewrite Forall_forall in Hv. by apply Hv. }
  destruct (stream_safe sec stdout _ Hval Ho) as (? & ? & ?), (stream_safe sec stderr _ Hval He) as (? & ? & ?).
  split_and!; [done..|lia|lia|lia|].
  intros v q [Hne Hc'] Hq Hqn. assert (q ∈ secret_forms sec); [|by split; auto].
  apply elem_of_secret_forms. split; [done|]. exists v. split; [|done]. by apply Hsec.
Qed.

Lemma process_success_zero state : process_success state = true -> state = Exited 0 \/ state = NotWaitStatus 0.
Proof. destruct state; try done; cbn; intros ->%Z.eqb_eq; auto. Qed.

(** An outcome claims no more than was observed.  The broker reports
    success only for a child it waited for without error that exited with status
    zero, whose descendants are gone, whose whole output fitted the limits and
    which was not cancelled; it reports a change exactly when a child may have
    run; output is withheld exactly when some was lost; and a child that never
    ran comes with an error. *)
Theorem Run_claims_what_it_saw digest_of subreaper policy runner request su r e :
  NewRunner subreaper policy = Ok runner -> Run digest_of (Some runner) request su = Ok (r, e) ->
  Started r = MayHaveChanged r
  /\ (Started r = false -> e <> None /\ (req_Prepared request = false \/ child_environment digest_of (Some policy) request su = None))
  /\ (su_start su = true -> Started r = true -> (OutputDiscarded r = true <-> ~ fits_policy policy (su_child su)))
  /\ (r_Outcome r = OutcomeSucceeded -> su_start su = true /\ Started r = true /\ OutputDiscarded r = false
      /\ ch_wait (su_child su) = None /\ (ch_state (su_child su) = Exited 0 \/ ch_state (su_child su) = NotWaitStatus 0) /\ ch_cleanup_uncertain (su_child su) = false
      /\ ch_cause (su_child su) <> Some OutputLimit /\ (ch_cancel_requested (su_child su) = true -> ch_cause (su_child su) = None)).
Proof.
  intros (-> & L1 & L2 & L3)%accepted_limits Hr. destruct (req_Prepared request) eqn:Ep.
  2: { unfold Run in Hr. rewrite Ep in Hr. injection Hr as <- <-. by split_and!; auto. }
  destruct (Run_cases _ _ _ _ _ _ Ep Hr) as [e' Hn|e' Hs|sec filter r e' env Hs Hf _ Hc _].
  - by split_and!; auto.
  - split_and!; try done. by rewrite Hs.
  - destruct (finish_inv _ _ _ _ _ _ L1 L2 L3 Hf Hc) as (stdout & stderr & over & _ & _ & _ & Ho & Eo & -> & -> & -> & _).
    split_and!; [done..|]. rewrite Eo. unfold run_outcome.
    destruct (ch_cleanup_uncertain _) eqn:E1; [done|]. case_bool_decide as E2; [done|]. destruct over; [done|]. cbn [orb].
    case_bool_decide as E3; [done|]. destruct (ch_cancel_requested _) eqn:E4; cbn [andb].
    + case_bool_decide as E5; [done|]. case_bool_decide as E6; [done|]. case_bool_decide as E7; [|done].
      destruct (process_success _) eqn:E8; [|done]. apply process_success_zero in E8. intros _. split_and!; try done.
      intros _. destruct (ch_cause _); [|done]. destruct E6. by eexists.
    + case_bool_decide as E7; [|done]. destruct (process_success _) eqn:E8; [|done]. apply process_success_zero in E8.
      intros _. by split_and!.
Qed.

(** A child's environment is the three fixed settings, the requested
    variables in the order of their names and the process guard: every requested
    variable appears once with exactly its value, no name is set twice, and none
    replaces a fixed setting. *)
Theorem child_environment_is_exact digest_of policy request su environment :
  child_environment digest_of (Some policy) request su = Some environment ->
  exists entries guard, environment = fixedEnvironment ++ (render <$> entries) ++ [guard] /\ su_guard su = Some guard
    /\ entries ≡ₚ (entry <$> Environment request) /\ StronglySorted (fun a b => text_le a.1 b.1 = true) entries
    /\ NoDup (var_Name <$> Environment request)
    /\ Forall (fun v => environmentNamePattern (var_Name v) = true /\ var_Name v ∉ to_bytes <$> ["LANG"; "LC_ALL"; "TZ"]%string
                        /\ bytesContainNUL (var_Value v) = false) (Environment request).
Proof.
  unfold child_environment. destruct (prepare_run _ _ _ _) as [[[policy' env] filter]|] eqn:Ep; [|done]. intros [= <-].
  apply prepare_run_Ok in Ep as (_ & env' & sec & guard & Hg & -> & Hs & _).
  apply prepare_Ok in Hs as (entries & -> & Hp & Hsort & Hnd & Ha & _). exists entries, guard.
  split_and!; [by rewrite <- app_assoc|done..| |].
  - rewrite Hp in Hnd. rewrite <- list_fmap_compose in Hnd. exact Hnd.
  - eapply Forall_impl; [exact Ha|]. intros v (H1 & H2 & H3 & _). split_and!; [done| |done].
    intros (t & Ht & Hin)%list_elem_of_fmap. unfold reserved_name in H2.
    pose proof (proj1 (existsb_false _ _) H2 t Hin) as Hr. by apply bool_decide_eq_false in Hr.
Qed.

(** ** An example run: a secret arrives with a control character in its middle *)

Definition sample_request : Request :=
  mk_Request true (to_bytes "/srv/lego") (to_bytes "/srv/lego/.lego.yml")
    [mk_Variable (to_bytes "TOKEN") (to_bytes "a?b") true; mk_Variable (to_bytes "MODE") (to_bytes "x") false] [to_bytes "k/"].
Definition sample_child : Child :=
  mk_Child [(streamStdout, to_bytes "say a" ++ z2b 1 :: to_bytes "b k/ end"); (streamStderr, to_bytes "ok")] None None (Exited 0) false false.
Definition sample_surroundings : Surroundings :=
  mk_Surroundings true (Some (to_bytes "GUARD_0=1")) false true true sample_child TerminationNone true (canonical zero_time) (canonical zero_time).
Definition no_digest (b : bytes) : bytes := take 1 b.

Example sample_run_output :
  match Run no_digest (Some DefaultPolicy) sample_request sample_surroundings with
  | Ok (r, e) => (Stdout r, Stderr r, r_Outcome r, e) = (to_bytes "say   end", to_bytes "ok", OutcomeSucceeded, None)
  | Err _ => False
  end.
Proof. vm_compute. reflexivity. Qed.

Theorem collector_keeps_limits_witness :
  let c := write_output [(streamStdout, to_bytes "abc"); (streamStderr, to_bytes "de")] (newOutputCollector 4 4 4) in
  blen (oc_stdout c) <= 4 /\ blen (oc_stderr c) <= 4 /\ blen (oc_stdout c) + blen (oc_stderr c) <= 4
  /\ (fits 4 4 4 [(streamStdout, to_bytes "abc"); (streamStderr, to_bytes "de")] ->
       (take_output c).1 = (sent streamStdout [(streamStdout, to_bytes "abc"); (streamStderr, to_bytes "de")],
                            sent streamStderr [(streamStdout, to_bytes "abc"); (streamStderr, to_bytes "de")], false) /\ overflow_calls c = 0%nat)
  /\ (~ fits 4 4 4 [(streamStdout, to_bytes "abc"); (streamStderr, to_bytes "de")] ->
       (take_output c).1 = ([], [], true) /\ overflow_calls c = 1%nat).
Proof. apply collector_keeps_limits; lia. Defined.

Theorem Run_output_is_safe_witness :
  exists r e, Run no_digest (Some DefaultPolicy) sample_request sample_surroundings = Ok (r, e)
    /\ displayable_text (Stdout r) /\ displayable_text (Stderr r)
    /\ blen (Stdout r) <= StdoutLimit DefaultPolicy /\ blen (Stderr r) <= StderrLimit DefaultPolicy
    /\ blen (Stdout r) + blen (Stderr r) <= AggregateLimit DefaultPolicy
    /\ forall v q, confidential sample_request v -> q ∈ RedactFilter.encodedVariants v -> q <> [] ->
         ~ occurs q (Stdout r) /\ ~ occurs q (Stderr r).
Proof.
  apply (Run_output_is_safe no_digest true DefaultPolicy DefaultPolicy sample_request sample_surroundings).
  - vm_compute. reflexivity.
  - repeat constructor.
Defined.

Definition sample_result : Result :=
  mk_Result OutcomeSucceeded true (canonical zero_time) (canonical zero_time) 0 true [] TerminationNone (to_bytes "say   end") (to_bytes "ok") false true.
Theorem Run_claims_what_it_saw_witness :
  Started sample_result = MayHaveChanged sample_result
  /\ (Started sample_result = false -> (None : option Error) <> None /\
       (req_Prepared sample_request = false \/ child_environment no_digest (Some DefaultPolicy) sample_request sample_surroundings = None))
  /\ (su_start sample_surroundings = true -> Started sample_result = true ->
       (OutputDiscarded sample_result = true <-> ~ fits_policy DefaultPolicy (su_child sample_surroundings)))
  /\ (r_Outcome sample_result = OutcomeSucceeded -> su_start sample_surroundings = true /\ Started sample_result = true /\ OutputDiscarded sample_result = false
      /\ ch_wait (su_child sample_surroundings) = None
      /\ (ch_state (su_child sample_surroundings) = Exited 0 \/ ch_state (su_child sample_surroundings) = NotWaitStatus 0)
      /\ ch_cleanup_uncertain (su_child sample_surroundings) = false /\ ch_cause (su_child sample_surroundings) <> Some OutputLimit
      /\ (ch_cancel_requested (su_child sample_surroundings) = true -> ch_cause (su_child sample_surroundings) = None)).
Proof.
  apply (Run_claims_what_it_saw no_digest true DefaultPolicy DefaultPolicy sample_request sample_surroundings sample_result None).
  - vm_compute. reflexivity.
  - vm_compute. reflexivity.
Defined.

Definition sample_environment : list bytes :=
  to_bytes <$> ["LANG=C"; "LC_ALL=C"; "TZ=UTC"; "MODE=x"; "TOKEN=a?b"; "GUARD_0=1"]%string.
Theorem child_environment_is_exact_witness :
  exists entries guard, sample_environment = fixedEnvironment ++ (render <$> entries) ++ [guard] /\ su_guard sample_surroundings = Some guard
    /\ entries ≡ₚ (entry <$> Environment sample_request) /\ StronglySorted (fun a b => text_le a.1 b.1 = true) entries
    /\ NoDup (var_Name <$> Environment sample_request)
    /\ Forall (fun v => environmentNamePattern (var_Name v) = true /\ var_Name v ∉ to_bytes <$> ["LANG"; "LC_ALL"; "TZ"]%string
                        /\ bytesContainNUL (var_Value v) = false) (Environment sample_request).
Proof.
  apply (child_environment_is_exact no_digest DefaultPolicy sample_request sample_surroundings sample_environment).
  vm_compute. reflexivity.
Defined.
