(* ===== verification/OpTypes.v ===== *)
(** The data a native operation works with: the errors its dependencies
    return, execution plans (internal/configuration/execution.go) and the
    certificates of an inventory (internal/inventory/types.go, errors.go). *)
From stdpp Require Import gmap.
From S2P Require Import Prelude.
From S2P Require Import GoText.
From S2P Require Import GoTime.
From S2P Require Import JobsTypes.
From S2P Require BrokerRun.

#[local] Open Scope string_scope.
#[local] Open Scope Z_scope.

(** ** Errors *)

(** The sentinels a caller distinguishes with [errors.Is]; an error is the list
    of sentinels it wraps. *)
Inductive Sentinel :=
| ConfigurationBusy | ConfigurationChanged | ConfigurationRuntimeChanged | ConfigurationInvalid | ConfigurationUnavailable
| WorkspaceBusy | WorkspaceRecoveryRequired | WorkspaceSourceChanged | WorkspaceNoSelection.
#[export] Instance Sentinel_eq_dec : EqDecision Sentinel.
Proof. solve_decision. Defined.

Abbreviation failure := (list Sentinel).
Definition errors_is (e : failure) (target : Sentinel) : bool := bool_decide (target ∈ e).

(** [inventory.ErrorCode]; [CodeOf] gives the empty code for other errors. *)
Inductive InventoryCode :=
| CodeInvalidPolicy | CodePathRequired | CodePathNotAbsolute | CodePathNotCanonical | CodePathTooLong | CodePathUnavailable
| CodeSymlink | CodeNotDirectory | CodeNotRegular | CodeUntrustedOwner | CodeUnsafePermissions | CodeNotReadable | CodeHardLink
| CodeArtifactSize | CodeNeutralNotPrivate | CodeConfigurationPresent | CodeTreeEntryLimit | CodeTreeDepthLimit
| CodeCertificateLimit | CodeExecutionBusy | CodeExecutionTimeout | CodeExecutionCanceled | CodeOutputLimit
| CodeExecutionFailed | CodeMalformedOutput | CodeDuplicate | CodePathOutsideStorage | CodeArtifactsChanged
| CodePreparedCloseFailed.
Definition InventoryCode_text (c : InventoryCode) : string :=
  match c with
  | CodeInvalidPolicy => "invalid_policy"
  | CodePathRequired => "path_required"
  | CodePathNotAbsolute => "path_not_absolute"
  | CodePathNotCanonical => "path_not_canonical"
  | CodePathTooLong => "path_too_long"
  | CodePathUnavailable => "path_unavailable"
  | CodeSymlink => "symlink_not_allowed"
  | CodeNotDirectory => "not_directory"
  | CodeNotRegular => "not_regular"
  | CodeUntrustedOwner => "untrusted_owner"
  | CodeUnsafePermissions => "unsafe_permissions"
  | CodeNotReadable => "not_readable"
  | CodeHardLink => "hard_link_not_allowed"
  | CodeArtifactSize => "artifact_size_invalid"
  | CodeNeutralNotPrivate => "neutral_directory_not_private"
  | CodeConfigurationPresent => "neutral_configuration_present"
  | CodeTreeEntryLimit => "tree_entry_limit"
  | CodeTreeDepthLimit => "tree_depth_limit"
  | CodeCertificateLimit => "certificate_limit"
  | CodeExecutionBusy => "inventory_busy"
  | CodeExecutionTimeout => "inventory_timeout"
  | CodeExecutionCanceled => "inventory_canceled"
  | CodeOutputLimit => "inventory_output_limit"
  | CodeExecutionFailed => "inventory_command_failed"
  | CodeMalformedOutput => "malformed_inventory_output"
  | CodeDuplicate => "duplicate_inventory_entry"
  | CodePathOutsideStorage => "certificate_path_outside_storage"
  | CodeArtifactsChanged => "inventory_artifacts_changed"
  | CodePreparedCloseFailed => "prepared_executable_close_failed"
  end.
(** [inventory.CodeOf] of an error with or without a code in its chain. *)
Definition inventory_code_of (e : option InventoryCode) : string :=
  match e with Some c => InventoryCode_text c | None => "" end.

(** ** Plans *)

Record ExecutionCertificate := mk_certificate {
  ec_Name : string;
  ec_Domains : list string;
  ec_Account : string;
  ec_CA : string;
  ec_ChallengeName : string;
  ec_ChallengeKind : string;
  ec_ChallengeMode : string;
}.
Record ExecutionCloudAccess := mk_cloud_access {
  ca_ChallengeName : string;
  ca_Provider : string;
  ca_AuthMode : string;
  ca_Files : list string;
  ca_Helper : string;
  ca_Metadata : string;
}.
Record ExecutionIntent := mk_intent {
  ei_WorkingDirectory : string;
  ei_ConfigurationPath : string;
  ei_StoragePath : string;
  ei_RuntimeIdentity : string;
  ei_RuntimeManifestID : string;
  ei_Certificates : list ExecutionCertificate;
  ei_CloudAccess : list ExecutionCloudAccess;
}.
Record ExecutionEnvironment := mk_environment {
  ee_Name : string;
  ee_Value : bytes;
  ee_Sensitive : bool;
}.
(** [ep_handle] tells plans apart: the code passes pointers. *)
Record ExecutionPlan := mk_plan {
  ep_handle : Z;
  ep_Intent : ExecutionIntent;
  ep_Revision : string;
  ep_ReviewedEvidenceSHA256 : string;
  ep_ObservedSecrets : list bytes;
  ep_Environment : list ExecutionEnvironment;
}.
#[export] Instance ExecutionCertificate_eq_dec : EqDecision ExecutionCertificate.
Proof. solve_decision. Defined.
#[export] Instance ExecutionCloudAccess_eq_dec : EqDecision ExecutionCloudAccess.
Proof. solve_decision. Defined.
#[export] Instance ExecutionIntent_eq_dec : EqDecision ExecutionIntent.
Proof. solve_decision. Defined.
#[export] Instance ExecutionEnvironment_eq_dec : EqDecision ExecutionEnvironment.
Proof. solve_decision. Defined.
#[export] Instance ExecutionPlan_eq_dec : EqDecision ExecutionPlan.
Proof. solve_decision. Defined.

(** ** Inventories *)

Record FileMetadata := mk_metadata {
  md_Device : Z; md_Inode : Z; md_Mode : Z; md_UID : Z; md_GID : Z; md_LinkCount : Z; md_Size : Z;
  md_ModifiedAt : time; md_ChangedAt : time;
}.
Record Certificate := mk_inventory_certificate {
  ic_Name : string;
  ic_DNSNames : list string;
  ic_Issuer : string;
  ic_ExpiresAt : time;
  ic_NativePath : string;
  ic_Artifact : FileMetadata;
}.
#[export] Instance FileMetadata_eq_dec : EqDecision FileMetadata.
Proof. solve_decision. Defined.
#[export] Instance Certificate_eq_dec : EqDecision Certificate.
Proof. solve_decision. Defined.

(** What a finished run means (internal/operation/executor.go): which
    certificates changed, which renewal failed, the state and code of the
    operation and of each reviewed certificate, and the text that is kept. *)

#[local] Existing Instance BrokerRun.Outcome_eq_dec.

Definition maximumPersistedOutput : Z := Z.shiftl 256 10.

Definition requestedCertificates (request : Request) : list ExecutionCertificate :=
  (fun name => mk_certificate name [] "" "" "" "" "") <$> req_Items request.

Definition itemResults (certificates : list ExecutionCertificate) (state : ItemState) (code : string) : list ItemResult :=
  (fun c => mk_ItemResult (ec_Name c) state code) <$> certificates.

Definition unavailableInventory (code : string) : InventoryResult := mk_InventoryResult InventoryUnavailable code None.

Definition executionPreparationCode (e : failure) : string :=
  if errors_is e ConfigurationRuntimeChanged then "runtime_incompatible"
  else if errors_is e WorkspaceRecoveryRequired then "recovery_required"
  else if errors_is e WorkspaceNoSelection then "workspace_unselected"
  else if errors_is e WorkspaceSourceChanged || errors_is e ConfigurationChanged then "workspace_changed"
  else if errors_is e ConfigurationInvalid then "configuration_incompatible"
  else "preflight_unavailable".

(** [broker.CodeOf] gives the empty code for an error without one. *)
Definition brokerFailureCode (e : option BrokerRun.ErrorCode) : string :=
  match e with None => "broker_unavailable" | Some c => "broker_" +:+ BrokerRun.ErrorCode_text c end.

(** ** Which certificates changed *)

Definition sameCertificate (left right : Certificate) : bool :=
  String.eqb (ic_Name left) (ic_Name right) && bool_decide (ic_DNSNames left = ic_DNSNames right)
  && String.eqb (ic_Issuer left) (ic_Issuer right) && (t_ns (ic_ExpiresAt left) =? t_ns (ic_ExpiresAt right))
  && String.eqb (ic_NativePath left) (ic_NativePath right) && bool_decide (ic_Artifact left = ic_Artifact right).

(** The map [previous]: the last certificate of a name wins. *)
Definition previous_certificates (before : list Certificate) : gmap string Certificate :=
  fold_left (fun m c => <[ic_Name c := c]> m) before ∅.
Definition changedCertificateNames (before after : list Certificate) : gset string :=
  fold_left (fun changed c =>
    match previous_certificates before !! ic_Name c with
    | Some prior => if sameCertificate prior c then changed else {[ic_Name c]} ∪ changed
    | None => {[ic_Name c]} ∪ changed
    end) after ∅.

(** ** Which renewal failed *)

Definition trim_prefix (prefix l : bytes) : option bytes :=
  if bool_decide (take (List.length prefix) l = prefix) then Some (drop (List.length prefix) l) else None.

Definition parseRenewalAttempt (line : bytes) : option bytes :=
  match Fields line with
  | [stamp; level; trying; renewal; cert; remaining] =>
      if bool_decide (level = to_bytes "INF") && bool_decide (trying = to_bytes "Trying") && bool_decide (renewal = to_bytes "renewal.") then
        name ← trim_prefix (to_bytes "cert-name=") cert;
        left_ ← trim_prefix (to_bytes "time-remaining=") remaining;
        if negb (accepts_rfc3339_nano stamp) then None
        else
          _ ← ParseDuration left_;
          if bool_decide (name = []) then None else Some name
      else None
  | _ => None
  end.

Definition newline : ascii := z2b 10.

Fixpoint last_known (known : gset string) (failed : string) (lines : list bytes) : string :=
  match lines with
  | [] => failed
  | line :: lines =>
      match parseRenewalAttempt line with
      | Some name => last_known known (if bool_decide (of_bytes name ∈ known) then of_bytes name else failed) lines
      | None => last_known known failed lines
      end
  end.
Definition unchanged_names (certificates : list ExecutionCertificate) (changed : gset string) : gset string :=
  list_to_set (filter (fun name => name ∉ changed) (ec_Name <$> certificates)).

Definition is_refreshed (r : InventoryResult) : bool := match inv_State r with InventoryRefreshed => true | _ => false end.

Definition failedRenewalCertificate (result : BrokerRun.Result) (certificates : list ExecutionCertificate) (changed : gset string)
    (inventoryResult : InventoryResult) : string :=
  if negb (bool_decide (BrokerRun.r_Outcome result = BrokerRun.OutcomeFailed)) || BrokerRun.OutputDiscarded result || negb (is_refreshed inventoryResult)
  then ""
  else last_known (unchanged_names certificates changed) ""
         (split_on newline (BrokerRun.Stdout result ++ newline :: BrokerRun.Stderr result)%list).

(** ** The text that is kept *)

Definition ends_in_newline (l : bytes) : bool := match last l with Some c => Ascii.eqb c newline | None => false end.

Definition joined_output (result : BrokerRun.Result) : bytes :=
  let out := if bool_decide (BrokerRun.Stdout result = []) then [] else (to_bytes "[stdout]" ++ newline :: BrokerRun.Stdout result)%list in
  if bool_decide (BrokerRun.Stderr result = []) then out
  else (out ++ (if negb (bool_decide (out = [])) && negb (ends_in_newline out) then [newline] else [])
        ++ to_bytes "[stderr]" ++ newline :: BrokerRun.Stderr result)%list.

(** [for !utf8.ValidString(value) { value = value[:len(value)-1] }], from the
    longest prefix down. *)
Fixpoint valid_prefix (n : nat) (l : bytes) : bytes :=
  if utf8_valid (take n l) then take n l else match n with O => [] | S n => valid_prefix n l end.

Definition operationOutput (result : BrokerRun.Result) : string * bool :=
  if BrokerRun.OutputDiscarded result then ("", true)
  else
    let value := joined_output result in
    if blen value <=? maximumPersistedOutput then (of_bytes value, false)
    else (of_bytes (valid_prefix (Z.to_nat maximumPersistedOutput) value), true).

(** ** Classification *)

(** The result of one certificate of a run that ended without error. *)
Definition classify_item (outcome : BrokerRun.Outcome) (changed : gset string) (failedRenewal : string) (c : ExecutionCertificate) : ItemResult :=
  if bool_decide (outcome = BrokerRun.OutcomeSucceeded) then mk_ItemResult (ec_Name c) ItemCompleted "evaluated"
  else if bool_decide (ec_Name c ∈ changed) then mk_ItemResult (ec_Name c) ItemCompleted "native_artifact_changed"
  else if String.eqb (ec_Name c) failedRenewal then mk_ItemResult (ec_Name c) ItemFailed "upstream_renewal_failed"
  else mk_ItemResult (ec_Name c) ItemAmbiguous "execution_outcome_ambiguous".

Definition item_completed (i : ItemResult) : bool := match item_State i with ItemCompleted => true | _ => false end.

Definition run_state (outcome : BrokerRun.Outcome) (completed total : Z) : State * string :=
  match outcome with
  | BrokerRun.OutcomeSucceeded => (StateSucceeded, "execution_succeeded")
  | BrokerRun.OutcomeFailed =>
      if (0 <? completed) && (completed <? total) then (StatePartial, "execution_partial") else (StateFailed, "execution_failed")
  | BrokerRun.OutcomeTimedOut => (StateTimedOut, "execution_timed_out")
  | BrokerRun.OutcomeInterrupted => (StateInterrupted, "execution_interrupted")
  | BrokerRun.OutcomeOutputLimit => (StateAmbiguous, "execution_output_limit")
  | BrokerRun.OutcomeAmbiguous => (StateAmbiguous, "execution_ambiguous")
  | BrokerRun.OutcomeNone => (StateFailed, "execution_failed")
  end.

(** Items that are not completed become ambiguous with the code. *)
Definition make_ambiguous (code : string) (i : ItemResult) : ItemResult :=
  if item_completed i then i else mk_ItemResult (item_Name i) ItemAmbiguous code.

(** A run that ended with an error. *)
Definition classify_error (result : BrokerRun.Result) (code : option BrokerRun.ErrorCode) (certificates : list ExecutionCertificate)
    (changed : gset string) (inventoryResult : InventoryResult) (output : string) (truncated : bool) : Result :=
  let mayHaveChanged := BrokerRun.Started result || BrokerRun.MayHaveChanged result in
  let items := itemResults certificates (if mayHaveChanged then ItemAmbiguous else ItemNotAttempted) (brokerFailureCode code) in
  mk_Result (if mayHaveChanged then StateAmbiguous else StateNotAttempted) (brokerFailureCode code) mayHaveChanged inventoryResult output truncated
    (if mayHaveChanged && is_refreshed inventoryResult
     then (fun i => if bool_decide (item_Name i ∈ changed) then mk_ItemResult (item_Name i) ItemCompleted "native_artifact_changed" else i) <$> items
     else items).

(** [runErr]: no error, or an error with or without a broker code. *)
Definition classifyExecution (result : BrokerRun.Result) (runErr : option (option BrokerRun.ErrorCode)) (certificates : list ExecutionCertificate)
    (before after : list Certificate) (inventoryResult : InventoryResult) (postChangeCode : string) : Result :=
  let '(output, truncated) := operationOutput result in
  let changed := changedCertificateNames before after in
  match runErr with
  | Some code => classify_error result code certificates changed inventoryResult output truncated
  | None =>
      let failedRenewal := failedRenewalCertificate result certificates changed inventoryResult in
      let items := classify_item (BrokerRun.r_Outcome result) changed failedRenewal <$> certificates in
      let completed := blen (List.filter item_completed items) in
      let '(state, code) := run_state (BrokerRun.r_Outcome result) completed (blen items) in
      if String.eqb postChangeCode ""
      then mk_Result state code (BrokerRun.MayHaveChanged result) inventoryResult output truncated items
      else mk_Result StateAmbiguous postChangeCode (BrokerRun.MayHaveChanged result) inventoryResult output truncated
             (make_ambiguous postChangeCode <$> items)
  end.
