(* ===== verification/Tokens.v ===== *)
(** Keyed review tokens: the values a token writes, each after its length in
    eight bytes, the keyed digest and its text (the token writers of
    internal/configuration/token.go and internal/operation/service.go), with
    the class of writings that can be told apart. *)
From S2P Require Import Prelude.
From S2P Require Import GoText.
From S2P Require Import GoDecode.
From S2P Require Import WsInspect.

#[local] Open Scope Z_scope.

(** ** Values *)

(** [binary.BigEndian.PutUint64] *)
Definition uint64_bytes (n : Z) : bytes := big_endian 8 n.
Definition writeTokenBytes (value : bytes) : bytes := uint64_bytes (blen value) ++ value.

(** A token is the values it writes, in order, until the digest is taken. *)
Definition write_bytes (value : bytes) : list bytes := [value].
Definition write_text (value : string) : list bytes := [to_bytes value].
Definition write_integer (n : Z) : list bytes := [uint64_bytes n].
Definition write_boolean (b : bool) : list bytes := write_integer (if b then 1 else 0).
(** A count and the elements. *)
Definition write_list {A} (write : A -> list bytes) (l : list A) : list bytes := write_integer (blen l) ++ (l ≫= write).
Definition write_pair {A B} (w1 : A -> list bytes) (w2 : B -> list bytes) (p : A * B) : list bytes := w1 p.1 ++ w2 p.2.

(** [uint64] of a Go integer. *)
Definition uint64 (n : Z) : Z := n mod 2 ^ 64.

(** ** Digests *)

(** HMAC-SHA-256 and SHA-256 of the standard library: digests of 32 bytes. *)
Class Digests := {
  hmac : bytes -> bytes -> bytes;
  digest : bytes -> bytes;
  hmac_length : forall key message, blen (hmac key message) = 32;
  digest_length : forall message, blen (digest message) = 32;
}.

Section Tokens.
Context `{Digests}.

Definition message (values : list bytes) : bytes := concat (writeTokenBytes <$> values).
(** [base64.RawURLEncoding.EncodeToString(mac.Sum(nil))] *)
Definition token (key : bytes) (values : list bytes) : string :=
  of_bytes (base64_encode raw_url_encoding (hmac key (message values))).

(** Two different messages with the same keyed digest. *)
Definition clash (f : bytes -> bytes) (values values' : list bytes) : Prop :=
  message values <> message values' /\ f (message values) = f (message values').
End Tokens.

(** [base64.RawURLEncoding.DecodeString]: line breaks are skipped and the
    unused bits of the last character are ignored. *)
Fixpoint lax_pack (l : list Z) : option bytes :=
  match l with
  | [] => Some []
  | [_] => None
  | [a; b] => Some [z2b (a * 4 + b / 16)]
  | [a; b; c] => Some [z2b (a * 4 + b / 16); z2b ((b mod 16) * 16 + c / 4)]
  | a :: b :: c :: d :: rest =>
      match lax_pack rest with
      | Some out => Some (z2b (a * 4 + b / 16) :: z2b ((b mod 16) * 16 + c / 4) :: z2b ((c mod 4) * 64 + d) :: out)
      | None => None
      end
  end.
Definition DecodeString (l : bytes) : option bytes :=
  values ← mapM (base64_value raw_url_encoding) (List.filter (fun c => negb (GoDecode.newline c)) l); lax_pack values.

Definition validReviewToken (value : string) : bool :=
  (slen value =? 43) && match DecodeString (to_bytes value) with Some decoded => blen decoded =? 32 | None => false end.

Definition tokenMatches (expected supplied : string) : bool :=
  (slen supplied =? 43)
  && match DecodeString (to_bytes expected), DecodeString (to_bytes supplied) with
     | Some e, Some s => (blen e =? 32) && (blen s =? 32) && bool_decide (e = s)
     | _, _ => false
     end.

(** ** Writings that can be told apart *)

Definition short (value : bytes) : Prop := blen value < 2 ^ 64.

(** What is written for one value never runs into what follows it. *)
Class Delimited {A} (ok : A -> Prop) (write : A -> list bytes) := {
  delimited_short a : ok a -> Forall short (write a);
  delimited a a' l l' : ok a -> ok a' -> write a ++ l = write a' ++ l' -> a = a' /\ l = l';
}.

Definition short_text (s : string) : Prop := slen s < 2 ^ 64.
Definition in_uint64 (n : Z) : Prop := 0 <= n < 2 ^ 64.
Definition any {A} (_ : A) : Prop := True.
Definition short_list {A} (ok : A -> Prop) (l : list A) : Prop := blen l < 2 ^ 64 /\ Forall ok l.
Definition both {A B} (ok1 : A -> Prop) (ok2 : B -> Prop) (p : A * B) : Prop := ok1 p.1 /\ ok2 p.2.

Lemma big_endian_length width n : List.length (big_endian width n) = width.
Proof. revert n. induction width as [|w IH]; intros n; cbn; [done|]. rewrite length_app, IH. cbn. lia. Qed.
Lemma big_endian_inj width : forall n m, 0 <= n < 256 ^ Z.of_nat width -> 0 <= m < 256 ^ Z.of_nat width ->
  big_endian width n = big_endian width m -> n = m.
Proof.
  induction width as [|w IH]; intros n m Hn Hm E; [cbn in *; lia|]. cbn [big_endian] in E.
  apply app_inj_tail in E as [E1 E2]. apply (f_equal b2z) in E2. rewrite !b2z_z2b in E2 by (apply Z.mod_pos_bound; lia).
  rewrite Nat2Z.inj_succ, Z.pow_succ_r in Hn, Hm by lia.
  apply IH in E1; [|split; [apply Z.div_pos; lia|apply Z.div_lt_upper_bound; lia]..].
  rewrite (Z.div_mod n 256), (Z.div_mod m 256) by lia. congruence.
Qed.
Lemma uint64_bytes_length n : List.length (uint64_bytes n) = 8%nat.
Proof. apply big_endian_length. Qed.
Lemma uint64_bytes_inj n m : in_uint64 n -> in_uint64 m -> uint64_bytes n = uint64_bytes m -> n = m.
Proof. intros Hn Hm. apply big_endian_inj; [exact Hn|exact Hm]. Qed.
Lemma uint64_bytes_short n : short (uint64_bytes n).
Proof. unfold short, blen. rewrite uint64_bytes_length. done. Qed.
Lemma uint64_range n : in_uint64 (uint64 n).
Proof. apply Z.mod_pos_bound. done. Qed.

Lemma message_cons v l : message (v :: l) = uint64_bytes (blen v) ++ v ++ message l.
Proof. unfold message. rewrite fmap_cons. cbn [concat]. unfold writeTokenBytes at 1. by rewrite <- app_assoc. Qed.
Lemma message_cons_nonempty v l : message (v :: l) <> [].
Proof. intros E. rewrite message_cons in E. apply app_eq_nil in E as [E _]. apply (f_equal List.length) in E. by rewrite uint64_bytes_length in E. Qed.
Lemma message_inj l l' : Forall short l -> Forall short l' -> message l = message l' -> l = l'.
Proof.
  intros Hl. revert l'. induction Hl as [|v l Hv _ IH]; intros l' Hl' E; destruct Hl' as [|v' l' Hv' Hl']; [done| | |].
  - by destruct (message_cons_nonempty v' l').
  - by destruct (message_cons_nonempty v l).
  - rewrite !message_cons in E. apply app_inj_1 in E as [E1 E]; [|by rewrite !uint64_bytes_length].
    apply uint64_bytes_inj in E1; [|unfold short, in_uint64, blen in *; lia..].
    apply app_inj_1 in E as [-> E]; [|unfold blen in E1; lia]. f_equal. by apply IH.
Qed.

Section Instances.
Context {A B : Type}.

#[export] Instance write_bytes_delimited : Delimited short write_bytes.
Proof. split; [by constructor|]. by intros a a' l l' _ _ [= -> ->]. Qed.
#[export] Instance write_text_delimited : Delimited short_text write_text.
Proof.
  split; [intros s Hs; constructor; [|done]; unfold short, short_text, blen, slen in *; by rewrite to_bytes_length|].
  intros a a' l l' _ _ [= E ->]. split; [|done]. by rewrite <- (string_of_list_ascii_of_string a), <- (string_of_list_ascii_of_string a'), E.
Qed.
#[export] Instance write_integer_delimited : Delimited in_uint64 write_integer.
Proof.
  split; [intros n _; constructor; [apply uint64_bytes_short|done]|].
  intros n m l l' Hn Hm (E & ->)%app_inj_1; [|done]. split; [|done]. apply uint64_bytes_inj; [done..|]. exact (f_equal (default [] ∘ head) E).
Qed.
Lemma boolean_range (b : bool) : in_uint64 (if b then 1 else 0).
Proof. unfold in_uint64. destruct b; lia. Qed.
#[export] Instance write_boolean_delimited : Delimited any write_boolean.
Proof.
  split.
  - intros b _. constructor; [apply uint64_bytes_short|done].
  - intros a a' l l' _ _ E. unfold write_boolean in E.
    apply (delimited (ok := in_uint64) (write := write_integer)) in E as [E ->]; [|apply boolean_range..].
    split; [|done]. destruct a, a'; done.
Qed.
#[export] Instance write_pair_delimited (ok1 : A -> Prop) (ok2 : B -> Prop) w1 w2 :
  Delimited ok1 w1 -> Delimited ok2 w2 -> Delimited (both ok1 ok2) (write_pair w1 w2).
Proof.
  intros H1 H2. split; [intros p []; by apply Forall_app; split; apply delimited_short|].
  intros [a b] [a' b'] l l' [] [] E. unfold write_pair in E. cbn in *. rewrite <- !app_assoc in E.
  apply delimited in E as [-> E]; [|done..]. apply delimited in E as [-> E]; done.
Qed.
#[export] Instance write_list_delimited (ok : A -> Prop) w : Delimited ok w -> Delimited (short_list ok) (write_list w).
Proof.
  intros Hw. split.
  - intros l [_ Hl]. constructor; [apply uint64_bytes_short|]. cbn. induction Hl as [|a l Ha _ IH]; [constructor|].
    cbn. apply Forall_app. split; [by apply delimited_short|done].
  - intros xs ys l l' [Hn Hxs] [Hm Hys] E. unfold write_list in E. rewrite <- !app_assoc in E.
    apply (delimited (ok := in_uint64) (write := write_integer)) in E as [En E]; [|unfold in_uint64, blen in *; lia..].
    revert ys Hm Hys En E. clear Hn. induction Hxs as [|x xs Hx _ IH]; intros ys Hm Hys En E.
    + destruct ys; [by split|]. unfold blen in En. cbn in En. lia.
    + destruct Hys as [|y ys Hy Hys]; [unfold blen in En; cbn in En; lia|].
      cbn in E. rewrite <- !app_assoc in E. apply delimited in E as [-> E]; [|done..].
      apply IH in E as [-> ->]; [done|unfold blen in *; cbn in *; lia|done|unfold blen in *; cbn in *; lia].
Qed.
End Instances.

(** Equal messages come from equal values. *)
Lemma delimited_message {A} (ok : A -> Prop) write `{!Delimited ok write} a a' :
  ok a -> ok a' -> message (write a) = message (write a') -> a = a'.
Proof.
  intros Ha Ha' E. apply message_inj in E; [|by apply delimited_short..].
  apply (delimited a a' [] []); [done..|]. by rewrite E.
Qed.

Section Laws.
Context `{Digests}.

Lemma of_bytes_inj l l' : of_bytes l = of_bytes l' -> l = l'.
Proof. intros E. rewrite <- (list_ascii_of_string_of_list_ascii l), <- (list_ascii_of_string_of_list_ascii l'). by f_equal. Qed.
Lemma token_inj key v v' : token key v = token key v' -> hmac key (message v) = hmac key (message v').
Proof.
  intros E%of_bytes_inj. apply (f_equal (base64_decode raw_url_encoding)) in E.
  rewrite !decode_encode_base64 in E by (by left + by right). congruence.
Qed.

(** Equal tokens bind what they were made of, short of a clash of the keyed
    digest on exactly these two messages. *)
Lemma token_binds {A} (ok : A -> Prop) write `{!Delimited ok write} key a a' :
  ok a -> ok a' -> token key (write a) = token key (write a') -> a = a' \/ clash (hmac key) (write a) (write a').
Proof.
  intros Ha Ha' E%token_inj. destruct (decide (message (write a) = message (write a'))) as [Em|]; [left|by right].
  by eapply delimited_message.
Qed.
Lemma digest_binds {A} (ok : A -> Prop) write `{!Delimited ok write} a a' :
  ok a -> ok a' -> digest (message (write a)) = digest (message (write a')) -> a = a' \/ clash digest (write a) (write a').
Proof.
  intros Ha Ha' E. destruct (decide (message (write a) = message (write a'))) as [Em|]; [left|by right].
  by eapply delimited_message.
Qed.

(** Strict decoding is a case of lax decoding. *)
Lemma lax_of_strict values out : base64_pack values = Some out -> lax_pack values = Some out.
Proof.
  revert out. induction values as [|a|a b|a b c|a b c d l IH] using values_ind4; intros out; cbn; [done..| | |].
  - by destruct (Z.land b 15 =? 0).
  - by destruct (Z.land c 3 =? 0).
  - destruct (base64_pack l) as [o|]; [|done]. by rewrite (IH o).
Qed.
Lemma DecodeString_encode l : DecodeString (base64_encode raw_url_encoding l) = Some l.
Proof.
  pose proof (decode_encode_base64 raw_url_encoding l ltac:(by left + by right)) as E. unfold base64_decode in E. unfold DecodeString.
  destruct (mapM _ _) as [values|]; [|done]. cbn in *. by apply lax_of_strict.
Qed.
Lemma token_length key v : slen (token key v) = 43.
Proof.
  unfold token. unfold slen. rewrite <- to_bytes_length, list_ascii_of_string_of_list_ascii.
  change (blen (base64_encode raw_url_encoding (hmac key (message v))) = 43). rewrite raw_base64_length by (by left + by right).
  by rewrite hmac_length.
Qed.
(** Every token the service makes has the form it accepts. *)
Lemma token_valid key v : validReviewToken (token key v) = true.
Proof.
  unfold validReviewToken. rewrite token_length. unfold token at 1. rewrite list_ascii_of_string_of_list_ascii, DecodeString_encode.
  by rewrite hmac_length.
Qed.
Lemma token_matches key v : tokenMatches (token key v) (token key v) = true.
Proof.
  unfold tokenMatches. rewrite token_length. unfold token. rewrite list_ascii_of_string_of_list_ascii, DecodeString_encode, hmac_length.
  by rewrite bool_decide_true.
Qed.
(** A supplied token matches only a token with the same digest. *)
Lemma matching_token key v supplied : tokenMatches (token key v) supplied = true ->
  DecodeString (to_bytes supplied) = Some (hmac key (message v)).
Proof.
  unfold tokenMatches, token. rewrite list_ascii_of_string_of_list_ascii, DecodeString_encode. intros [_ E]%andb_true_iff.
  destruct (DecodeString (to_bytes supplied)) as [s|]; [|done]. apply andb_true_iff in E as [_ E]. apply bool_decide_eq_true in E. congruence.
Qed.
End Laws.
