(* ===== verification/OpExecutor.v ===== *)
(** The executor of a native operation (internal/operation/executor.go) as a
    process: the calls it makes on the coordinator, the configuration service,
    the workspace, the runtime, the broker and the inventory, and its phase
    reports, with a continuation for every answer. *)
From stdpp Require Import gmap.
From S2P Require Import Prelude.
From S2P Require Import GoText.
From S2P Require Import WsTypes.
From S2P Require Import WsAudit.
From S2P Require Import WsInspect.
From S2P Require Import WsSelect.
From S2P Require Import JobsTypes.
From S2P Require BrokerRun.
From S2P Require Import OpTypes.

#[local] Open Scope string_scope.
#[local] Open Scope Z_scope.

(** ** Processes *)

(** [PurposeManualRun] and the other purposes of a lease. *)
Inductive Purpose :=
| PurposeRead | PurposePreview | PurposeSave | PurposeInventory | PurposeManualRun | PurposeScheduled | PurposeRecovery | PurposeBootstrap.

(** A call and the type of its answer.  Handles stand for pointers to prepared
    executables; [PrepareRuntime] answers [None] for an error and for nil.
    [Authorize] is the guard of an administrator's request and [Submit] the
    enqueue of the durable jobs; only the service makes these two. *)
Inductive Call : Type -> Type :=
| TryAcquire (p : Purpose) : Call (result failure unit)
| Acquire (p : Purpose) : Call (result failure unit)
| Release : Call (result unit unit)
| PrepareExecution : Call (result failure ExecutionPlan)
| ClosePlan (handle : Z) : Call unit
| LoadSelection : Call (result unit Selection)
| Verify (r : Review) : Call (result unit Review)
| PrepareRuntime : Call (option Z)
| ClosePrepared (handle : Z) : Call unit
| RunBroker (handle : Z) (request : BrokerRun.Request) : Call (BrokerRun.Result * option (option BrokerRun.ErrorCode))
| ReadInventory (handle : Z) (storagePath : string) : Call (result (option InventoryCode) (list Certificate))
| Authorize : Call (result string unit)
| Submit (kind : Kind) (request : Request) : Call (result JobsTypes.Error Operation).

Inductive proc (A : Type) : Type :=
| Ret (a : A)
| Report (phase : JobsTypes.Phase) (k : result JobsTypes.Error unit -> proc A)
| Do (B : Type) (c : Call B) (k : B -> proc A).
Arguments Ret {A} a.
Arguments Report {A} phase k.
Arguments Do {A B} c k.

Fixpoint proc_bind_ {A B} (f : A -> proc B) (t : proc A) : proc B :=
  match t with
  | Ret a => f a
  | Report p k => Report p (fun r => proc_bind_ f (k r))
  | Do c k => Do c (fun b => proc_bind_ f (k b))
  end.
#[export] Instance proc_ret : MRet proc := fun A a => Ret a.
#[export] Instance proc_bind : MBind proc := fun A B f t => proc_bind_ f t.
Definition call {B} (c : Call B) : proc B := Do c Ret.
Definition report (p : JobsTypes.Phase) : proc (result JobsTypes.Error unit) := Report p Ret.

(** ** [refreshInventory] *)

Definition inventory_failure_code (e : option InventoryCode) : string :=
  let code := inventory_code_of e in
  if String.eqb code "" || (54 <? slen code) then "inventory_unavailable" else "inventory_" +:+ code.

Definition refreshInventory (storagePath : string) : proc (list Certificate * InventoryResult) :=
  selection ← call LoadSelection;
  match selection with
  | Err _ => mret ([], unavailableInventory "workspace_selection_unavailable")
  | Ok selection =>
      current ← call (Verify (sl_Review selection));
      match current with
      | Err _ => mret ([], unavailableInventory "workspace_changed")
      | Ok current =>
          let storage := of_bytes (pe_Path (rv_Storage current)) in
          if negb (String.eqb storagePath "") && negb (String.eqb storage storagePath)
          then mret ([], unavailableInventory "workspace_changed")
          else
            prepared ← call PrepareRuntime;
            match prepared with
            | None => mret ([], unavailableInventory "runtime_incompatible")
            | Some prepared =>
                certificates ← call (ReadInventory prepared storage);
                match certificates with
                | Err e => mret ([], unavailableInventory (inventory_failure_code e))
                | Ok certificates =>
                    again ← call (Verify current);
                    match again with
                    | Err _ => mret ([], unavailableInventory "workspace_changed")
                    | Ok _ => mret (certificates, mk_InventoryResult InventoryRefreshed "inventory_refreshed" (Some (blen certificates)))
                    end
                end
            end
      end
  end.

Definition finishWithoutRun (storagePath : string) (certificates : list ExecutionCertificate) (code : string) : proc Result :=
  reported ← report PhaseRefreshingInventory;
  let code := if is_err reported then "phase_persistence_failed" else code in
  '(_, inventory) ← refreshInventory storagePath;
  mret (mk_Result (if String.eqb code "runtime_incompatible" || String.eqb code "configuration_incompatible" then StateIncompatible else StateNotAttempted)
          code false inventory "" false (itemResults certificates ItemNotAttempted code)).

(** ** [Execute] *)

Definition broker_variable (e : ExecutionEnvironment) : BrokerRun.Variable_ :=
  BrokerRun.mk_Variable (to_bytes (ee_Name e)) (ee_Value e) (ee_Sensitive e).
Definition broker_request (plan : ExecutionPlan) : BrokerRun.Request :=
  BrokerRun.mk_Request true (to_bytes (ei_WorkingDirectory (ep_Intent plan))) (to_bytes (ei_ConfigurationPath (ep_Intent plan)))
    (broker_variable <$> ep_Environment plan) (ep_ObservedSecrets plan).

Definition close_plan (plan : ExecutionPlan) : proc unit := call (ClosePlan (ep_handle plan)).

(** What a preparation after the run says about it. *)
Definition post_change_code (request : Request) (post : result failure ExecutionPlan) : string :=
  match post with
  | Err e => if errors_is e ConfigurationRuntimeChanged then "runtime_changed_after_run"
             else if errors_is e ConfigurationInvalid then "configuration_changed_after_run"
             else "workspace_changed_after_run"
  | Ok plan => if String.eqb (ep_ReviewedEvidenceSHA256 plan) (ReviewedEvidenceSHA256 request) then "" else "workspace_changed_after_run"
  end.

(** The phase change after the run was not recorded. *)
Definition phase_not_recorded (result : BrokerRun.Result) (classified : Result) : Result :=
  mk_Result StateAmbiguous "phase_persistence_failed" (BrokerRun.Started result || BrokerRun.MayHaveChanged result) (res_Inventory classified)
    (res_Output classified) (res_OutputTruncated classified) (make_ambiguous "phase_persistence_failed" <$> res_Items classified).

(** From the broker run on; the broker owns the prepared executable. *)
Definition run_confirmed (request : Request) (plan : ExecutionPlan) (prepared : Z) (storagePath : string)
    (certificates : list ExecutionCertificate) (beforeInventory : list Certificate) : proc Result :=
  '(brokerResult, brokerErr) ← call (RunBroker prepared (broker_request plan));
  _ ← close_plan plan;
  phaseErr ← report PhaseRefreshingInventory;
  '(afterInventory, inventoryResult) ← refreshInventory storagePath;
  post ← call PrepareExecution;
  let postChangeCode := post_change_code request post in
  _ ← (match post with Ok plan => close_plan plan | Err _ => mret tt end);
  let classified := classifyExecution brokerResult brokerErr certificates beforeInventory afterInventory inventoryResult postChangeCode in
  mret (if is_err phaseErr then phase_not_recorded brokerResult classified else classified).

Definition executing_not_recorded (certificates : list ExecutionCertificate) : Result :=
  mk_Result StateAmbiguous "phase_persistence_failed" false (unavailableInventory "phase_persistence_failed") "" false
    (itemResults certificates ItemNotAttempted "phase_persistence_failed").

(** With a confirmed plan: the executable is prepared and the phase recorded. *)
Definition start_confirmed (request : Request) (plan : ExecutionPlan) (storagePath : string) (certificates : list ExecutionCertificate)
    (beforeInventory : list Certificate) : proc Result :=
  prepared ← call PrepareRuntime;
  match prepared with
  | None => _ ← close_plan plan; finishWithoutRun storagePath certificates "runtime_incompatible"
  | Some prepared =>
      executing ← report PhaseExecuting;
      if is_err executing
      then _ ← close_plan plan; _ ← call (ClosePrepared prepared); mret (executing_not_recorded certificates)
      else run_confirmed request plan prepared storagePath certificates beforeInventory
  end.

(** With a first plan.  The deferred [plan.Close] closes the plan the variable
    holds at the end: the second component of the answer. *)
Definition run_reviewed (request : Request) (plan : ExecutionPlan) : proc (Result * ExecutionPlan) :=
  let certificates := ei_Certificates (ep_Intent plan) in
  let storagePath := ei_StoragePath (ep_Intent plan) in
  if negb (String.eqb (ReviewedEvidenceSHA256 request) (ep_ReviewedEvidenceSHA256 plan))
  then _ ← close_plan plan; r ← finishWithoutRun storagePath (requestedCertificates request) "reviewed_source_changed"; mret (r, plan)
  else
    '(beforeInventory, beforeResult) ← refreshInventory storagePath;
    if negb (is_refreshed beforeResult)
    then
      _ ← close_plan plan;
      let code := if String.eqb (inv_Code beforeResult) "" then "inventory_preflight_failed" else inv_Code beforeResult in
      r ← finishWithoutRun storagePath certificates code; mret (r, plan)
    else
      confirmation ← call PrepareExecution;
      match confirmation with
      | Err e => _ ← close_plan plan; r ← finishWithoutRun storagePath certificates (executionPreparationCode e); mret (r, plan)
      | Ok confirmation =>
          if negb (String.eqb (ep_ReviewedEvidenceSHA256 confirmation) (ep_ReviewedEvidenceSHA256 plan))
          then
            _ ← close_plan confirmation; _ ← close_plan plan;
            r ← finishWithoutRun storagePath certificates "reviewed_source_changed"; mret (r, plan)
          else
            _ ← close_plan plan;
            r ← start_confirmed request confirmation storagePath certificates beforeInventory; mret (r, confirmation)
      end.

Definition lease_code (e : failure) : string := if errors_is e WorkspaceBusy then "workspace_busy" else "workspace_unavailable".

Definition Execute (request : Request) : proc Result :=
  lease ← call (TryAcquire PurposeManualRun);
  match lease with
  | Err e =>
      _ ← report PhaseRefreshingInventory;
      let code := lease_code e in
      mret (mk_Result StateNotAttempted code false (unavailableInventory code) "" false
              (itemResults (requestedCertificates request) ItemNotAttempted code))
  | Ok _ =>
      plan ← call PrepareExecution;
      r ← (match plan with
           | Err e => finishWithoutRun "" (requestedCertificates request) (executionPreparationCode e)
           | Ok plan => '(r, plan) ← run_reviewed request plan; _ ← close_plan plan; mret r
           end);
      _ ← call Release;
      mret r
  end.

Definition Reconcile : proc InventoryResult :=
  lease ← call (Acquire PurposeManualRun);
  match lease with
  | Err e => mret (unavailableInventory (lease_code e))
  | Ok _ => '(_, result) ← refreshInventory ""; _ ← call Release; mret result
  end.
