(* ===== verification/OpSafe.v ===== *)
(** Runs of the executor: the history of its calls, what must hold at each
    call and at the end whatever the answers are, and the executor as the
    worker of durable operations sees it. *)
From stdpp Require Import gmap.
From S2P Require Import Prelude.
From S2P Require Import GoText.
From S2P Require Import JobsTypes.
From S2P Require Import JobsFacts.
From S2P Require Import JobsRefine.
From S2P Require Import JobsWorker.
From S2P Require BrokerRun.
From S2P Require Import BrokerCorrect.
From S2P Require Import OpTypes.
From S2P Require Import OpExecutor.

#[local] Open Scope Z_scope.

(** ** Histories *)

Inductive event :=
| Leased (ok : bool) | Returned
| Planned (plan : option ExecutionPlan) | PlanClosed (handle : Z)
| Looked
| Took (handle : option Z) | GaveBack (handle : Z) | Listed (handle : Z)
| Ran (handle : Z) (request : BrokerRun.Request) (answer : BrokerRun.Result * option (option BrokerRun.ErrorCode))
| Authorized (ok : bool) | Submitted (kind : Kind) (request : JobsTypes.Request) (accepted : option Operation)
| Reported (phase : JobsTypes.Phase) (ok : bool).

Definition to_option {E A} (r : result E A) : option A := match r with Ok a => Some a | Err _ => None end.
Definition note {B} (c : Call B) : B -> event :=
  match c in Call B return B -> event with
  | TryAcquire _ | Acquire _ => fun r => Leased (is_ok r)
  | Release => fun _ => Returned
  | PrepareExecution => fun r => Planned (to_option r)
  | ClosePlan handle => fun _ => PlanClosed handle
  | LoadSelection | OpExecutor.Verify _ => fun _ => Looked
  | PrepareRuntime => Took
  | ClosePrepared handle => fun _ => GaveBack handle
  | RunBroker handle request => Ran handle request
  | ReadInventory handle _ => fun _ => Listed handle
  | Authorize => fun r => Authorized (is_ok r)
  | Submit kind request => fun r => Submitted kind request (to_option r)
  end.

(** How many leases are held. *)
Definition lease_change (e : event) : Z := match e with Leased true => 1 | Returned => -1 | _ => 0 end.
Definition leases (h : list event) : Z := foldr (fun e n => lease_change e + n) 0 h.
Definition plans (h : list event) : list ExecutionPlan := omap (fun e => match e with Planned p => p | _ => None end) h.
Definition runs (h : list event) : list (BrokerRun.Result * option (option BrokerRun.ErrorCode)) :=
  omap (fun e => match e with Ran _ _ a => Some a | _ => None end) h.
Definition reports (h : list event) : list (JobsTypes.Phase * bool) :=
  omap (fun e => match e with Reported p ok => Some (p, ok) | _ => None end) h.
(** The plans that were answered and not closed since. *)
Definition plan_change (open_ : list Z) (e : event) : list Z :=
  match e with
  | Planned (Some p) => ep_handle p :: open_
  | PlanClosed handle => filter (fun x => x <> handle) open_
  | _ => open_
  end.
Definition open_plans (h : list event) : list Z := fold_left plan_change h [].
Fixpoint remove_one (x : Z) (l : list Z) : list Z :=
  match l with y :: l => if bool_decide (x = y) then l else y :: remove_one x l | [] => [] end.
(** The prepared executables no one consumed or closed yet. *)
Definition handle_change (open_ : list Z) (e : event) : list Z :=
  match e with
  | Took (Some x) => x :: open_
  | GaveBack x | Listed x | Ran x _ _ => remove_one x open_
  | _ => open_
  end.
Definition open_handles (h : list event) : list Z := fold_left handle_change h [].

(** The phase the operation is in while every report was accepted. *)
Fixpoint phase_after (p : JobsTypes.Phase) (l : list (JobsTypes.Phase * bool)) : option JobsTypes.Phase :=
  match l with
  | [] => Some p
  | (q, true) :: l => phase_after q l
  | (_, false) :: _ => None
  end.
Definition phase_of (h : list event) : option JobsTypes.Phase := phase_after PhaseRevalidating (reports h).

(** ** What holds along every run *)

Section Always.
Context (law : list event -> forall B, Call B -> B -> Prop).
Context (may_call : list event -> forall B, Call B -> Prop) (may_report : list event -> JobsTypes.Phase -> Prop).

(** Whatever the answers are, the permissions hold at each step and [post] at
    the end. *)
Fixpoint always {A} (post : list event -> A -> Prop) (h : list event) (t : proc A) : Prop :=
  match t with
  | Ret a => post h a
  | Report p k => may_report h p /\ forall reply, always post (h ++ [Reported p (is_ok reply)]) (k reply)
  | Do c k => may_call h _ c /\ forall b, law h _ c b -> always post (h ++ [note c b]) (k b)
  end.

Lemma always_impl {A} (post post' : list event -> A -> Prop) h t :
  (forall h a, post h a -> post' h a) -> always post h t -> always post' h t.
Proof.
  intros Hp. revert h. induction t as [a|p k IH|B c k IH]; intros h; cbn; [apply Hp| |];
    (intros [Hq H]; split; [done|]); eauto.
Qed.
Lemma always_bind {A B} (f : A -> proc B) post h t :
  always (fun h a => always post h (f a)) h t -> always post h (t ≫= f).
Proof.
  revert h. induction t as [a|p k IH|C c k IH]; intros h; cbn; [done| |]; (intros [Hq H]; split; [done|]);
    [intros reply; by apply IH|intros b Hb; apply IH; auto].
Qed.
Lemma always_call {B} (c : Call B) (post : list event -> B -> Prop) h :
  may_call h _ c -> (forall b, law h _ c b -> post (h ++ [note c b]) b) -> always post h (call c).
Proof. intros Hp H. by split. Qed.
Lemma always_report p (post : list event -> result JobsTypes.Error unit -> Prop) h :
  may_report h p -> (forall reply, post (h ++ [Reported p (is_ok reply)]) reply) -> always post h (report p).
Proof. intros Hp H. by split. Qed.
End Always.

(** ** The executor behind the worker *)

(** What answers the calls: a state and an answer to each call. *)
Record Answerer := mk_Answerer { aw_state : Type; aw_answer : forall B, Call B -> aw_state -> B * aw_state }.

Section Interpret.
Context (aw : Answerer).

Fixpoint interpret (t : proc Result) (w : aw_state aw) : execution :=
  match t with
  | Ret r => Returns (Some r)
  | Report p k => Reports p (fun reply => interpret (k reply) w)
  | Do c k => let '(b, w) := aw_answer aw _ c w in interpret (k b) w
  end.
(** An inventory is refreshed without phase reports. *)
Fixpoint interpret_inventory (t : proc InventoryResult) (w : aw_state aw) : option InventoryResult :=
  match t with
  | Ret r => Some r
  | Report _ _ => None
  | Do c k => let '(b, w) := aw_answer aw _ c w in interpret_inventory (k b) w
  end.

Definition operation_executor (w : aw_state aw) : Executor :=
  {| JobsWorker.Execute := fun _ request => interpret (Execute request) w;
     JobsWorker.Reconcile := fun _ => interpret_inventory Reconcile w |}.
End Interpret.

(** An executor serves a request: while its phase reports are accepted it
    follows the phases of an operation and ends, refreshing the inventory, with
    a result the store accepts and that names the reviewed items; after a
    refused report it still ends with a result that names them. *)
Fixpoint serves (request : Request) (p : JobsTypes.Phase) (e : execution) : Prop :=
  match e with
  | Returns (Some r) => p = PhaseRefreshingInventory /\ validateExecutorResult r = Ok tt /\ item_Name <$> res_Items r = req_Items request
  | Returns None => False
  | Reports next k => validPhaseTransition p next = true /\ serves request next (k (Ok tt)) /\ forall e, covers request (k (Err e))
  end.

Lemma serves_covers request e : forall p, serves request p e -> covers request e.
Proof.
  induction e as [r|next k IH]; intros p; cbn; [destruct r; [by intros (_ & _ & ?)|done]|].
  intros (_ & Hs & Hc) [[]|e]; [by eapply IH|apply Hc].
Qed.

(** Facts about the executor: the codes, items and texts it produces are the
    ones the operation store accepts, and its building blocks run quietly. *)

(** ** Codes *)

Abbreviation good_code := (fun code => validateCode code true = Ok tt).

Lemma brokerFailureCode_good e : good_code (brokerFailureCode e).
Proof. by destruct e as [[]|]. Qed.
Lemma inventory_failure_code_good e : good_code (inventory_failure_code e).
Proof. by destruct e as [[]|]. Qed.
Lemma executionPreparationCode_good e : good_code (executionPreparationCode e).
Proof. unfold executionPreparationCode. repeat case_match; reflexivity. Qed.
Lemma lease_code_good e : good_code (lease_code e).
Proof. unfold lease_code. by case_match. Qed.
Lemma post_change_code_good request post : post_change_code request post = "" \/ good_code (post_change_code request post).
Proof. unfold post_change_code. repeat case_match; auto. Qed.

(** ** Items *)

(** Items that name the reviewed certificates, each with a known state and a
    stable code. *)
Definition good_item (i : ItemResult) : Prop := known_item_state (item_State i) = true /\ good_code (item_Code i).
Definition good_items (request : Request) (items : list ItemResult) : Prop :=
  item_Name <$> items = req_Items request /\ Forall good_item items.

Lemma good_items_valid request items : validateRequest request = Ok tt -> good_items request items -> validateItems items = Ok tt.
Proof.
  intros [_ Hc Hn Hd _ _]%validateRequest_facts [Hnames Hg]. unfold validateItems.
  rewrite (proj2 (reject_if_Ok _ _ tt)).
  - cbn. apply validate_items_loop_intro.
    + rewrite <- Hnames in Hn. rewrite Forall_fmap in Hn. apply Forall_and. split; [exact Hn|]. exact Hg.
    + by rewrite Hnames.
    + apply Forall_forall. intros it _. apply not_elem_of_nil.
  - assert (List.length items = List.length (req_Items request)) by (rewrite <- Hnames; by rewrite length_fmap).
    unfold maximumItemResults, blen in *. lia.
Qed.

Definition names_of (certificates : list ExecutionCertificate) : list string := ec_Name <$> certificates.
Lemma itemResults_good request certificates state code : names_of certificates = req_Items request ->
  known_item_state state = true -> good_code code -> good_items request (itemResults certificates state code).
Proof.
  intros Hn Hs Hc. split; [unfold itemResults; by rewrite <- list_fmap_compose|].
  apply Forall_fmap, Forall_forall. by split.
Qed.
Lemma requested_names request : names_of (requestedCertificates request) = req_Items request.
Proof. unfold names_of, requestedCertificates. rewrite <- list_fmap_compose. apply list_fmap_id. Qed.

Lemma good_items_map request items f : good_items request items -> (forall i, item_Name (f i) = item_Name i) ->
  (forall i, good_item i -> good_item (f i)) -> good_items request (f <$> items).
Proof.
  intros [Hn Hg] Hf Hgf. split.
  - rewrite <- Hn, <- list_fmap_compose. by apply list_fmap_ext; intros; cbn.
  - apply Forall_fmap. eapply Forall_impl; [exact Hg|apply Hgf].
Qed.
Lemma make_ambiguous_good request items code : good_code code -> good_items request items -> good_items request (make_ambiguous code <$> items).
Proof. intros Hc Hi. apply good_items_map; [done| |]; intros i; unfold make_ambiguous; by case_match. Qed.

(** ** Kept output *)

Lemma newline_text : utf8_valid [newline] = true.
Proof. reflexivity. Qed.

(** Text the operation store accepts, apart from its length. *)
Definition plain (l : bytes) : Prop := exists rs, Forall (fun r => scalar r = true /\ (r = 10 \/ r = 13 \/ r = 9 \/ is_control r = false)) rs /\ l = BrokerRun.utf8 rs.

Lemma plain_app l k : plain l -> plain k -> plain (l ++ k).
Proof. intros (rs & H & ->) (ss & G & ->). exists (rs ++ ss). split; [by apply Forall_app|by rewrite BrokerRun.utf8_app]. Qed.
Lemma plain_nil : plain [].
Proof. by exists []. Qed.
Lemma displayable_plain l : displayable_text l -> plain l.
Proof.
  intros (rs & H & ->). exists rs. split; [|done]. eapply Forall_impl; [exact H|]. intros r (? & [?|[?|[? ?]]]); auto.
Qed.
(** Printable ASCII and line feeds. *)
Definition plain_byte (c : ascii) : bool := (b2z c =? 10) || ((32 <=? b2z c) && (b2z c <? 127)).
Lemma ascii_text l : forallb plain_byte l = true -> Forall (fun r => r = 10 \/ 32 <= r < 127) (b2z <$> l) /\ l = BrokerRun.utf8 (b2z <$> l).
Proof.
  induction l as [|c l IH]; [done|]. intros H. cbn in H. apply andb_true_iff in H as [Hc H]. destruct (IH H) as [Hf E].
  assert (Hr : b2z c = 10 \/ 32 <= b2z c < 127) by (apply orb_true_iff in Hc as [Hc|Hc]; bool_prop; lia).
  split; [by constructor|]. change (BrokerRun.utf8 (b2z <$> c :: l)) with (encode_scalar (b2z c) ++ BrokerRun.utf8 (b2z <$> l)). rewrite <- E.
  unfold encode_scalar. destruct (Z.ltb_spec (b2z c) 128); [by rewrite z2b_b2z|lia].
Qed.
Lemma ascii_format r : r < 173 -> is_format r = false.
Proof.
  intros Hr. unfold is_format. apply existsb_false. intros [lo hi] Hin.
  assert (Hall : forallb (fun p => 173 <=? p.1) cf_ranges = true) by (vm_compute; reflexivity).
  rewrite forallb_elem_of in Hall. specialize (Hall _ Hin). cbn in Hall. bool_prop. apply andb_false_iff. left. apply Z.leb_gt. lia.
Qed.
Lemma ascii_displayable l : forallb plain_byte l = true -> displayable_text l.
Proof.
  intros (Hf & E)%ascii_text. exists (b2z <$> l). split; [|done]. eapply Forall_impl; [exact Hf|]. intros r Hr. cbv beta in Hr. split.
  - unfold scalar. apply orb_true_iff. left. apply andb_true_iff. rewrite Z.leb_le, Z.ltb_lt. lia.
  - destruct Hr as [->|Hr]; [by left|]. right; right. split; [|apply ascii_format; lia].
    unfold is_control. apply orb_false_iff. rewrite !andb_false_iff, !Z.leb_gt. lia.
Qed.
Lemma ascii_plain l : forallb plain_byte l = true -> plain l.
Proof. intros H. by apply displayable_plain, ascii_displayable. Qed.
Lemma header_plain s : s = "[stdout]"%string \/ s = "[stderr]"%string -> plain (to_bytes s ++ [newline]).
Proof. intros [-> | ->]; by apply ascii_plain. Qed.
Lemma plain_newline : plain [newline].
Proof. by apply ascii_plain. Qed.

Lemma joined_plain result : displayable_text (BrokerRun.Stdout result) -> displayable_text (BrokerRun.Stderr result) -> plain (joined_output result).
Proof.
  intros Ho%displayable_plain He%displayable_plain. unfold joined_output.
  assert (Hout : plain (if bool_decide (BrokerRun.Stdout result = []) then [] else to_bytes "[stdout]" ++ newline :: BrokerRun.Stdout result)).
  { case_bool_decide; [apply plain_nil|]. change (to_bytes "[stdout]" ++ newline :: BrokerRun.Stdout result)
      with (to_bytes "[stdout]" ++ [newline] ++ BrokerRun.Stdout result). rewrite app_assoc. apply plain_app; [apply header_plain; auto|done]. }
  revert Hout. generalize (if bool_decide (BrokerRun.Stdout result = []) then [] else to_bytes "[stdout]" ++ newline :: BrokerRun.Stdout result).
  intros out Hout. case_bool_decide; [done|]. apply plain_app; [done|]. apply plain_app; [case_match; [apply plain_newline|apply plain_nil]|].
  change (to_bytes "[stderr]" ++ newline :: BrokerRun.Stderr result) with (to_bytes "[stderr]" ++ [newline] ++ BrokerRun.Stderr result).
  rewrite app_assoc. apply plain_app; [apply header_plain; auto|done].
Qed.

(** The longest prefix within the limit that is text is text of the whole. *)
Lemma valid_prefix_spec n l : exists m, (m <= n)%nat /\ valid_prefix n l = take m l /\ utf8_valid (take m l) = true.
Proof.
  induction n as [|n (m & Hm & E & V)]; cbn; [by exists 0%nat|].
  destruct (utf8_valid (take (S n) l)) eqn:Ev; [by exists (S n)|]. exists m. split; [lia|done].
Qed.
Lemma utf8_prefix rs ps : BrokerRun.scalars rs -> BrokerRun.scalars ps -> BrokerRun.utf8 ps `prefix_of` BrokerRun.utf8 rs -> ps `prefix_of` rs.
Proof.
  intros Hr Hp. revert rs Hr. induction Hp as [|p ps Hp _ IH]; intros rs Hr [k E]; [apply prefix_nil|].
  change (BrokerRun.utf8 (p :: ps)) with (encode_scalar p ++ BrokerRun.utf8 ps) in E. destruct Hr as [|r rs Hrs Hr].
  { cbn in E. symmetry in E. apply app_nil in E as [[E _]%app_nil _]. by apply encode_scalar_nonempty in E. }
  change (BrokerRun.utf8 (r :: rs)) with (encode_scalar r ++ BrokerRun.utf8 rs) in E. rewrite <- app_assoc in E.
  pose proof (decode_encode r (BrokerRun.utf8 rs) Hrs) as D. rewrite E, (decode_encode p _ Hp) in D. injection D as -> _.
  apply app_inv_head in E. apply prefix_cons, IH; [done|]. by exists k.
Qed.
Lemma plain_prefix n l : plain l -> utf8_valid (take n l) = true -> plain (take n l).
Proof.
  intros (rs & H & ->) (ps & Hp & E)%BrokerRun.valid_utf8. rewrite E. exists ps. split; [|done].
  destruct (utf8_prefix rs ps) as [k ->]; [|done| |by apply Forall_app in H as [H _]].
  - eapply Forall_impl; [exact H|]. by intros r [].
  - rewrite <- E. apply prefix_take.
Qed.

Lemma plain_output l : plain l -> blen l <= maximumPersistedOutput -> validateOutput (of_bytes l) = Ok tt.
Proof.
  intros (rs & H & ->) Hl. unfold validateOutput. rewrite !list_ascii_of_string_of_list_ascii.
  assert (Hs : BrokerRun.scalars rs) by (eapply Forall_impl; [exact H|]; by intros r []).
  destruct (utf8_valid_encode rs Hs) as [Hv Hr]. fold (BrokerRun.utf8 rs) in Hv, Hr. rewrite Hv, Hr.
  apply bind_Ok. exists tt. split; apply reject_if_Ok.
  - unfold slen. rewrite <- to_bytes_length, list_ascii_of_string_of_list_ascii.
    unfold maximumPersistedOutput, maximumOutputBytes, blen in *. apply orb_false_iff. split; [|done]. apply Z.ltb_ge.
    etransitivity; [exact Hl|done].
  - apply negb_false_iff, forallb_forall. intros r Hin%list_elem_of_In. rewrite Forall_forall in H.
    destruct (H r Hin) as [_ [-> | [-> | [-> | ->]]]]; try reflexivity. by rewrite orb_true_r.
Qed.
Lemma operationOutput_valid result : displayable_text (BrokerRun.Stdout result) -> displayable_text (BrokerRun.Stderr result) ->
  validateOutput (operationOutput result).1 = Ok tt.
Proof.
  intros Ho He. unfold operationOutput. destruct (BrokerRun.OutputDiscarded result); [done|].
  pose proof (joined_plain result Ho He) as Hp. destruct (Z.leb_spec (blen (joined_output result)) maximumPersistedOutput).
  - by apply plain_output.
  - destruct (valid_prefix_spec (Z.to_nat maximumPersistedOutput) (joined_output result)) as (m & Hm & E & V).
    cbn [fst]. rewrite E. apply plain_output; [by apply plain_prefix|]. unfold blen. rewrite length_take.
    assert (0 <= maximumPersistedOutput) by done. lia.
Qed.

(** ** Results *)

Record good_result (request : Request) (r : Result) : Prop := mk_good_result {
  gr_state : State_terminal (res_State r) = true;
  gr_code : good_code (res_Code r);
  gr_inventory : validateInventory (res_Inventory r) false = Ok tt;
  gr_output : validateOutput (res_Output r) = Ok tt;
  gr_items : good_items request (res_Items r);
}.
Lemma good_result_valid request r : validateRequest request = Ok tt -> good_result request r ->
  validateExecutorResult r = Ok tt /\ item_Name <$> res_Items r = req_Items request.
Proof.
  intros Hv [Hs Hc Hi Ho Hit]. split; [|apply Hit]. unfold validateExecutorResult. rewrite Hs, Hc, Hi, Ho. cbn.
  by apply (good_items_valid request).
Qed.

Lemma unavailable_good code : good_code code -> validateInventory (unavailableInventory code) false = Ok tt.
Proof. intros H. unfold validateInventory. cbn. by rewrite H. Qed.

Lemma classify_item_good outcome changed failed c : good_item (classify_item outcome changed failed c) /\ item_Name (classify_item outcome changed failed c) = ec_Name c.
Proof. unfold classify_item. repeat case_match; by repeat split. Qed.
Lemma run_state_good outcome n m : State_terminal (run_state outcome n m).1 = true /\ good_code (run_state outcome n m).2.
Proof. unfold run_state. repeat case_match; done. Qed.

Lemma classified_items_good request outcome changed failed certificates : names_of certificates = req_Items request ->
  good_items request (classify_item outcome changed failed <$> certificates).
Proof.
  intros Hn. split.
  - rewrite <- Hn, <- list_fmap_compose. apply list_fmap_ext. intros i c _. apply classify_item_good.
  - apply Forall_fmap, Forall_forall. intros c _. apply classify_item_good.
Qed.

Lemma classifyExecution_good request result runErr certificates before after inventoryResult post :
  names_of certificates = req_Items request -> validateInventory inventoryResult false = Ok tt -> post = "" \/ good_code post ->
  displayable_text (BrokerRun.Stdout result) -> displayable_text (BrokerRun.Stderr result) ->
  good_result request (classifyExecution result runErr certificates before after inventoryResult post).
Proof.
  intros Hn Hi Hp Ho He. pose proof (operationOutput_valid result Ho He) as Hout. unfold classifyExecution.
  destruct (operationOutput result) as [output truncated]. cbn [fst] in Hout. destruct runErr as [code|].
  - pose proof (brokerFailureCode_good code) as Hc. unfold classify_error.
    assert (Hb : good_items request (itemResults certificates
      (if BrokerRun.Started result || BrokerRun.MayHaveChanged result then ItemAmbiguous else ItemNotAttempted) (brokerFailureCode code))).
    { apply itemResults_good; [done|by case_match|done]. }
    constructor; cbn; try done; [by case_match|]. destruct (_ && is_refreshed _); [|done].
    apply good_items_map; [done| |]; intros i; case_bool_decide; try done; by split.
  - set (failed := failedRenewalCertificate _ _ _ _). set (changed := changedCertificateNames _ _).
    pose proof (classified_items_good request (BrokerRun.r_Outcome result) changed failed _ Hn) as Hitems.
    destruct (run_state _ _ _) as [state code] eqn:Es.
    pose proof (run_state_good (BrokerRun.r_Outcome result) (blen (List.filter item_completed (classify_item (BrokerRun.r_Outcome result) changed failed <$> certificates)))
      (blen (classify_item (BrokerRun.r_Outcome result) changed failed <$> certificates))) as [G1 G2]. rewrite Es in G1, G2.
    destruct (String.eqb_spec post "") as [->|Hne]; [by constructor|].
    destruct Hp as [->|Hp]; [done|]. constructor; cbn; try done. by apply make_ambiguous_good.
Qed.
Lemma phase_not_recorded_good request result r : good_result request r -> good_result request (phase_not_recorded result r).
Proof. intros [? ? ? ? ?]. constructor; cbn; try done. by apply make_ambiguous_good. Qed.
Lemma unattempted_good request certificates code state inventory : names_of certificates = req_Items request -> good_code code ->
  State_terminal state = true -> validateInventory inventory false = Ok tt ->
  good_result request (mk_Result state code false inventory "" false (itemResults certificates ItemNotAttempted code)).
Proof. intros Hn Hc Hs Hi. constructor; cbn; try done. by apply itemResults_good. Qed.

(** The executor step by step: what it holds, what it has reported and what it
    may return, after every call and whatever the answers are. *)

(** ** Summaries of histories *)

Record summary := mk_summary {
  sm_leases : Z;
  sm_plans : list ExecutionPlan;
  sm_runs : list (BrokerRun.Result * option (option BrokerRun.ErrorCode));
  sm_reports : list (JobsTypes.Phase * bool);
  sm_open_plans : list Z;
  sm_open_handles : list Z;
}.
Definition summarize (h : list event) : summary :=
  mk_summary (leases h) (plans h) (runs h) (reports h) (open_plans h) (open_handles h).
Definition after (s : summary) (e : event) : summary :=
  mk_summary (sm_leases s + lease_change e) (sm_plans s ++ plans [e]) (sm_runs s ++ runs [e]) (sm_reports s ++ reports [e])
    (plan_change (sm_open_plans s) e) (handle_change (sm_open_handles s) e).

Lemma leases_app h k : leases (h ++ k) = leases h + leases k.
Proof. induction h as [|e h IH]; cbn; [done|]. unfold leases in *. lia. Qed.
Lemma summarize_snoc h e : summarize (h ++ [e]) = after (summarize h) e.
Proof.
  unfold summarize, after. cbn [sm_leases sm_plans sm_runs sm_reports sm_open_plans sm_open_handles]. f_equal.
  - rewrite leases_app. unfold leases at 2. cbn. lia.
  - unfold plans. by rewrite omap_app.
  - unfold runs. by rewrite omap_app.
  - unfold reports. by rewrite omap_app.
  - unfold open_plans. by rewrite fold_left_app.
  - unfold open_handles. by rewrite fold_left_app.
Qed.

(** ** What the answers satisfy *)

Definition lawful (request : Request) (h : list event) (B : Type) (c : Call B) : B -> Prop :=
  match c in Call B return B -> Prop with
  | PrepareExecution => fun r => forall p, r = Ok p ->
      ep_handle p ∉ ep_handle <$> plans h
      /\ (ep_ReviewedEvidenceSHA256 p = ReviewedEvidenceSHA256 request -> names_of (ei_Certificates (ep_Intent p)) = req_Items request)
  | ReadInventory _ _ => fun r => forall l, r = Ok l -> blen l <= maximumCertificateCount
  | RunBroker _ _ => fun a =>
      displayable_text (BrokerRun.Stdout a.1) /\ displayable_text (BrokerRun.Stderr a.1) /\ BrokerRun.Started a.1 = BrokerRun.MayHaveChanged a.1
  | _ => fun _ => True
  end.

(** When the broker may run, and which phase may be reported. *)
Definition may_start (request : Request) (h : list event) (handle : Z) (r : BrokerRun.Request) : Prop :=
  leases h = 1 /\ runs h = [] /\ reports h = [(PhaseExecuting, true)] /\ open_handles h = [handle]
  /\ exists first confirmed, plans h = [first; confirmed] /\ open_plans h = [ep_handle confirmed]
     /\ ep_ReviewedEvidenceSHA256 first = ReviewedEvidenceSHA256 request /\ ep_ReviewedEvidenceSHA256 confirmed = ReviewedEvidenceSHA256 request
     /\ r = broker_request confirmed.
Definition may_run (request : Request) (h : list event) (B : Type) (c : Call B) : Prop :=
  match c with RunBroker handle r => may_start request h handle r | Authorize | Submit _ _ => False | _ => True end.
Definition may_report (h : list event) (p : JobsTypes.Phase) : Prop :=
  forall q, phase_of h = Some q -> validPhaseTransition q p = true.

(** A result of an operation that never ran: it changed nothing and says so. *)
Definition not_run (r : Result) : Prop :=
  res_MayHaveChanged r = false
  /\ (res_State r = StateNotAttempted \/ res_State r = StateIncompatible
      \/ (res_State r = StateAmbiguous /\ res_Code r = "phase_persistence_failed"%string)).
(** A result of an operation whose run answered [b]: it reports every possible
    change, and only a child that never started is not attempted. *)
Definition has_run (b : BrokerRun.Result) (r : Result) : Prop :=
  res_MayHaveChanged r = BrokerRun.MayHaveChanged b
  /\ (res_State r = StateNotAttempted \/ res_State r = StateIncompatible -> BrokerRun.Started b = false).
Definition ended (runs : list (BrokerRun.Result * option (option BrokerRun.ErrorCode))) (r : Result) : Prop :=
  match runs with
  | [] => not_run r
  | [(b, _)] => has_run b r
  | _ => False
  end.

Section Steps.
Context (request : Request).
Abbreviation run_of t := (always (lawful request) (may_run request) may_report t).

(** ** Refreshing the inventory *)

Definition checked_inventory (r : InventoryResult) : Prop :=
  validateInventory r false = Ok tt /\ (is_refreshed r = false -> good_code (inv_Code r)).

Lemma unavailable_checked code : good_code code -> checked_inventory (unavailableInventory code).
Proof. intros H. split; [by apply unavailable_good|done]. Qed.
Lemma refreshed_checked {A} (l : list A) : blen l <= maximumCertificateCount ->
  checked_inventory (mk_InventoryResult InventoryRefreshed "inventory_refreshed" (Some (blen l))).
Proof.
  intros H. split; [|done]. unfold validateInventory. cbn. apply reject_if_Ok, orb_false_iff. split; [apply Z.ltb_ge; unfold blen; lia|by apply Z.ltb_ge].
Qed.

Lemma remove_one_head x l : remove_one x (x :: l) = l.
Proof. cbn. by rewrite bool_decide_true. Qed.

Lemma refresh_runs sp s h post : summarize h = s ->
  (forall h' certificates r, summarize h' = s -> checked_inventory r -> post h' (certificates, r)) ->
  run_of post h (refreshInventory sp).
Proof.
  intros Hs Hp. unfold refreshInventory.
  assert (Hlook : forall k, summarize (k ++ [Looked]) = summarize k).
  { intros k. rewrite summarize_snoc. unfold after. cbn. rewrite Z.add_0_r, !app_nil_r. done. }
  assert (Htake : forall k x, summarize ((k ++ [Took (Some x)]) ++ [Listed x]) = summarize k).
  { intros k x. rewrite !summarize_snoc. unfold after. cbn [sm_leases sm_plans sm_runs sm_reports sm_open_plans sm_open_handles handle_change plan_change lease_change].
    rewrite remove_one_head. cbn. by rewrite !Z.add_0_r, !app_nil_r. }
  assert (Hnone : forall k, summarize (k ++ [Took None]) = summarize k).
  { intros k. rewrite summarize_snoc. unfold after. cbn. rewrite Z.add_0_r, !app_nil_r. done. }
  apply always_bind, always_call; [done|]. intros [selection|] _; [|apply Hp; [by rewrite Hlook|by apply unavailable_checked]].
  apply always_bind, always_call; [done|]. intros [current|] _; [|apply Hp; [by rewrite !Hlook|by apply unavailable_checked]].
  cbv zeta. case_match; [apply Hp; [by rewrite !Hlook|by apply unavailable_checked]|].
  apply always_bind, always_call; [done|]. intros [x|] _; cbn [note]; [|apply Hp; [by rewrite Hnone, !Hlook|by apply unavailable_checked]].
  apply always_bind, always_call; [done|]. intros [l|e] Hl; cbn [note].
  - apply always_bind, always_call; [done|]. intros [again|] _; cbn [note].
    + apply Hp; [by rewrite Hlook, Htake, !Hlook|]. by apply refreshed_checked, Hl.
    + apply Hp; [by rewrite Hlook, Htake, !Hlook|]. by apply unavailable_checked.
  - apply Hp; [by rewrite Htake, !Hlook|]. apply unavailable_checked, inventory_failure_code_good.
Qed.

(** ** Ending without a run *)

Definition reported (p : JobsTypes.Phase) (ok : bool) (s : summary) : summary := after s (Reported p ok).

Lemma finish_runs sp certificates code s h post : summarize h = s ->
  (forall q, phase_after PhaseRevalidating (sm_reports s) = Some q -> validPhaseTransition q PhaseRefreshingInventory = true) ->
  names_of certificates = req_Items request -> good_code code ->
  (forall h' ok r, summarize h' = reported PhaseRefreshingInventory ok s -> good_result request r -> not_run r -> post h' r) ->
  run_of post h (finishWithoutRun sp certificates code).
Proof.
  intros Hs Hq Hn Hc Hp. unfold finishWithoutRun. apply always_bind, always_report.
  { intros q Hr. apply Hq. rewrite <- Hs. exact Hr. }
  intros reply. cbv zeta. apply always_bind. eapply refresh_runs; [done|]. intros h' cs r Hh [Hi _].
  eapply (Hp h' (is_ok reply)); [rewrite Hh, summarize_snoc, Hs; done| |].
  - apply unattempted_good; [done|by destruct (is_err reply)|by case_match|done].
  - split; [done|]. cbn. case_match; auto.
Qed.

(** ** With a confirmed plan *)

(** Everything but the lease is given back and the last accepted report is the
    inventory's. *)
Definition settled_up (s : summary) : Prop :=
  sm_leases s = 1 /\ sm_open_plans s = [] /\ sm_open_handles s = []
  /\ (phase_after PhaseRevalidating (sm_reports s) = Some PhaseRefreshingInventory \/ phase_after PhaseRevalidating (sm_reports s) = None).
Definition concludes (post : list event -> Result -> Prop) : Prop :=
  forall h r, settled_up (summarize h) -> good_result request r -> ended (sm_runs (summarize h)) r -> post h r.

(** The plan is confirmed and the executable prepared. *)
Definition confirmed (s : summary) (handle : Z) (plan : ExecutionPlan) : Prop :=
  exists first, s = mk_summary 1 [first; plan] [] [] [ep_handle plan] [handle]
    /\ ep_ReviewedEvidenceSHA256 first = ReviewedEvidenceSHA256 request /\ ep_ReviewedEvidenceSHA256 plan = ReviewedEvidenceSHA256 request.

Lemma filter_self (x : Z) : filter (fun y => y <> x) [x] = [].
Proof. rewrite filter_cons, decide_False by naive_solver. reflexivity. Qed.

Ltac summary_step := rewrite summarize_snoc; unfold after;
  cbn [sm_leases sm_plans sm_runs sm_reports sm_open_plans sm_open_handles handle_change plan_change lease_change note to_option is_ok
       plans runs reports omap list_omap app Z.add].

Lemma classified_has_run result runErr certificates before after_ inventoryResult post :
  BrokerRun.Started result = BrokerRun.MayHaveChanged result ->
  has_run result (classifyExecution result runErr certificates before after_ inventoryResult post).
Proof.
  intros He. unfold classifyExecution, has_run. destruct (operationOutput result) as [output truncated]. destruct runErr as [code|].
  - unfold classify_error. rewrite <- He, orb_diag. cbn. split; [done|]. by destruct (BrokerRun.Started result) eqn:E; intros [|].
  - destruct (run_state _ _ _) as [state code] eqn:Es. unfold run_state in Es.
    destruct (String.eqb post ""); cbn; (split; [done|]); [|by intros [|]].
    repeat case_match; simplify_eq; by intros [|].
Qed.
Lemma phase_not_recorded_has_run result r : BrokerRun.Started result = BrokerRun.MayHaveChanged result ->
  has_run result (phase_not_recorded result r).
Proof. intros He. split; cbn; [by rewrite He, orb_diag|by intros [|]]. Qed.

Lemma run_confirmed_runs plan prepared sp certificates before h post :
  confirmed (summarize h) prepared plan -> reports h = [] -> names_of certificates = req_Items request -> concludes post ->
  run_of post (h ++ [Reported PhaseExecuting true]) (run_confirmed request plan prepared sp certificates before).
Proof.
  intros (first & Hs & Ef & Ep) Hrep Hn Hp. unfold run_confirmed.
  assert (S0 : summarize (h ++ [Reported PhaseExecuting true])
    = mk_summary 1 [first; plan] [] [(PhaseExecuting, true)] [ep_handle plan] [prepared]) by (summary_step; by rewrite Hs).
  apply always_bind, always_call.
  { pose proof S0 as E. unfold summarize in E. injection E as E1 E2 E3 E4 E5 E6. split_and!; [done..|]. exists first, plan. by split_and!. }
  intros [b e] (Ho & He & Hb). cbn [fst snd] in *. cbv beta iota.
  apply always_bind, always_call; [done|]. intros [] _.
  set (h2 := (_ ++ _) ++ _).
  assert (S2 : summarize h2 = mk_summary 1 [first; plan] [(b, e)] [(PhaseExecuting, true)] [] []).
  { unfold h2. summary_step. summary_step. rewrite S0. cbn [sm_leases sm_plans sm_runs sm_reports sm_open_plans sm_open_handles].
    by rewrite remove_one_head, filter_self. }
  clearbody h2. apply always_bind, always_report.
  { intros q Hq. unfold phase_of in Hq. change (reports h2) with (sm_reports (summarize h2)) in Hq. rewrite S2 in Hq. by injection Hq as <-. }
  intros reply. set (h3 := h2 ++ _).
  assert (S3 : summarize h3 = mk_summary 1 [first; plan] [(b, e)] [(PhaseExecuting, true); (PhaseRefreshingInventory, is_ok reply)] [] []).
  { unfold h3. summary_step. by rewrite S2. }
  clearbody h3. apply always_bind. eapply refresh_runs; [exact S3|]. intros h4 cs inventory S4 [Hi _]. cbv beta iota.
  assert (Hend : forall h5 x, summarize h5 = mk_summary 1 x [(b, e)] [(PhaseExecuting, true); (PhaseRefreshingInventory, is_ok reply)] [] [] ->
    forall r, good_result request r -> has_run b r -> post h5 r).
  { intros h5 x S5 r Hg Hr. apply Hp; [rewrite S5|done|by rewrite S5]. split_and!; try done. cbn. destruct reply; auto. }
  apply always_bind, always_call; [done|]. intros answer Hl. cbv zeta.
  set (code := post_change_code request answer).
  assert (Hc : code = ""%string \/ good_code code) by apply post_change_code_good.
  assert (Hg : good_result request (classifyExecution b e certificates before cs inventory code)) by by apply classifyExecution_good.
  assert (Hr : has_run b (classifyExecution b e certificates before cs inventory code)) by by apply classified_has_run.
  assert (Hfin : forall h5 x, summarize h5 = mk_summary 1 x [(b, e)] [(PhaseExecuting, true); (PhaseRefreshingInventory, is_ok reply)] [] [] ->
    post h5 (if is_err reply then phase_not_recorded b (classifyExecution b e certificates before cs inventory code)
             else classifyExecution b e certificates before cs inventory code)).
  { intros h5 x S5. eapply Hend; [exact S5|by case_match; [apply phase_not_recorded_good|]|].
    case_match; [by apply phase_not_recorded_has_run|done]. }
  destruct answer as [p|]; cbn [note to_option].
  - apply always_bind, always_call; [done|]. intros [] _. eapply Hfin. summary_step. summary_step. rewrite S4.
    cbn [sm_leases sm_plans sm_runs sm_reports sm_open_plans sm_open_handles app]. by rewrite filter_self.
  - eapply Hfin. summary_step. by rewrite S4.
Qed.

Lemma not_started_result certificates : names_of certificates = req_Items request ->
  good_result request (executing_not_recorded certificates) /\ not_run (executing_not_recorded certificates).
Proof.
  intros Hn. split; [|split; [done|by right; right]].
  by apply (unattempted_good request certificates "phase_persistence_failed" StateAmbiguous (unavailableInventory "phase_persistence_failed")).
Qed.

(** Ending without a run when only the plans were still open. *)
Lemma finish_settles sp certificates code pl h post : summarize h = mk_summary 1 pl [] [] [] [] ->
  names_of certificates = req_Items request -> good_code code -> concludes post ->
  run_of post h (finishWithoutRun sp certificates code).
Proof.
  intros Hs Hn Hc Hp. eapply finish_runs; [exact Hs| |done..|].
  - by intros q [= <-].
  - intros h' ok r Hh Hg Hr. apply Hp; rewrite ?Hh; try done. split_and!; try done. cbn. destruct ok; auto.
Qed.

Lemma start_confirmed_runs first plan sp certificates before h post :
  summarize h = mk_summary 1 [first; plan] [] [] [ep_handle plan] [] ->
  ep_ReviewedEvidenceSHA256 first = ReviewedEvidenceSHA256 request -> ep_ReviewedEvidenceSHA256 plan = ReviewedEvidenceSHA256 request ->
  names_of certificates = req_Items request -> concludes post ->
  run_of post h (start_confirmed request plan sp certificates before).
Proof.
  intros Hs Ef Ep Hn Hp. unfold start_confirmed. apply always_bind, always_call; [done|]. intros [x|] _; cbn [note].
  - set (h1 := h ++ _). assert (S1 : summarize h1 = mk_summary 1 [first; plan] [] [] [ep_handle plan] [x]).
    { unfold h1. summary_step. by rewrite Hs. }
    clearbody h1. assert (Hrep : reports h1 = []) by (change (reports h1) with (sm_reports (summarize h1)); by rewrite S1).
    apply always_bind, always_report; [intros q Hq; unfold phase_of in Hq; rewrite Hrep in Hq; by injection Hq as <-|].
    intros [[]|e]; cbn [is_err is_ok negb].
    + apply run_confirmed_runs; [by exists first|done..].
    + apply always_bind, always_call; [done|]. intros [] _. apply always_bind, always_call; [done|]. intros [] _.
      destruct (not_started_result certificates Hn) as [Hg Hr]. cbn [always mret proc_ret note].
      assert (S2 : summarize (((h1 ++ [Reported PhaseExecuting false]) ++ [PlanClosed (ep_handle plan)]) ++ [GaveBack x])
        = mk_summary 1 [first; plan] [] [(PhaseExecuting, false)] [] []).
      { summary_step. summary_step. summary_step. rewrite S1. cbn [sm_leases sm_plans sm_runs sm_reports sm_open_plans sm_open_handles app].
        by rewrite remove_one_head, filter_self. }
      apply Hp; rewrite ?S2; try done. split_and!; try done. by right.
  - apply always_bind, always_call; [done|]. intros [] _. eapply finish_settles; [|done..].
    summary_step. summary_step. rewrite Hs. cbn [sm_leases sm_plans sm_runs sm_reports sm_open_plans sm_open_handles app].
    by rewrite filter_self.
Qed.

Lemma inventory_code_kept r : checked_inventory r -> is_refreshed r = false ->
  good_code (if String.eqb (inv_Code r) "" then "inventory_preflight_failed"%string else inv_Code r).
Proof. intros [_ H] Hr. case_match; [done|by apply H]. Qed.

Lemma run_reviewed_runs plan h post :
  summarize h = mk_summary 1 [plan] [] [] [ep_handle plan] [] ->
  (ep_ReviewedEvidenceSHA256 plan = ReviewedEvidenceSHA256 request -> names_of (ei_Certificates (ep_Intent plan)) = req_Items request) ->
  (forall h r p, settled_up (summarize h) -> good_result request r -> ended (sm_runs (summarize h)) r -> post h (r, p)) ->
  run_of post h (run_reviewed request plan).
Proof.
  intros Hs Hn Hp. unfold run_reviewed. cbv zeta.
  assert (Hclose : forall k pl, summarize k = mk_summary 1 pl [] [] [ep_handle plan] [] ->
    summarize (k ++ [PlanClosed (ep_handle plan)]) = mk_summary 1 pl [] [] [] []).
  { intros k pl Hk. summary_step. rewrite Hk. cbn [sm_leases sm_plans sm_runs sm_reports sm_open_plans sm_open_handles app]. by rewrite filter_self, app_nil_r. }
  assert (Hend : forall k pl sp certificates code (p : ExecutionPlan), summarize k = mk_summary 1 pl [] [] [] [] ->
    names_of certificates = req_Items request -> good_code code ->
    run_of post k (r ← finishWithoutRun sp certificates code; mret (r, p))).
  { intros k pl sp certificates code p Hk Hc Hcode. apply always_bind. eapply finish_settles; [exact Hk|done..|].
    intros h' r S' Hg Hr. by apply Hp. }
  destruct (String.eqb_spec (ReviewedEvidenceSHA256 request) (ep_ReviewedEvidenceSHA256 plan)) as [Ee|Ee]; cbn [negb].
  2: { apply always_bind, always_call; [done|]. intros [] _. eapply Hend; [by apply Hclose|apply requested_names|done]. }
  specialize (Hn (eq_sym Ee)). apply always_bind. eapply refresh_runs; [exact Hs|]. intros h1 cs inventory S1 Hi.
  destruct (is_refreshed inventory) eqn:Er; cbn [negb].
  2: { apply always_bind, always_call; [done|]. intros [] _. eapply Hend; [by apply Hclose|done|by apply inventory_code_kept]. }
  apply always_bind, always_call; [done|]. intros [p2|e] Hl; cbn [note to_option].
  2: { apply always_bind, always_call; [done|]. intros [] _. eapply Hend; [|done|apply executionPreparationCode_good].
       apply (Hclose _ [plan]). summary_step. rewrite S1. done. }
  destruct (Hl p2 eq_refl) as [Hfresh Hn2]. assert (Hplans : plans h1 = [plan]) by (change (plans h1) with (sm_plans (summarize h1)); by rewrite S1).
  rewrite Hplans in Hfresh. assert (Hne : ep_handle p2 <> ep_handle plan) by (intros E; apply Hfresh; rewrite E; by left).
  assert (S2 : summarize (h1 ++ [Planned (Some p2)]) = mk_summary 1 [plan; p2] [] [] [ep_handle p2; ep_handle plan] []).
  { summary_step. by rewrite S1. }
  destruct (String.eqb_spec (ep_ReviewedEvidenceSHA256 p2) (ep_ReviewedEvidenceSHA256 plan)) as [E2|E2]; cbn [negb].
  - apply always_bind, always_call; [done|]. intros [] _. apply always_bind.
    eapply (start_confirmed_runs plan p2); [|congruence..|done|].
    + summary_step. rewrite S2. cbn [sm_leases sm_plans sm_runs sm_reports sm_open_plans sm_open_handles app].
      rewrite filter_cons_True, filter_self by done. done.
    + intros h' r S' Hg Hr. by apply Hp.
  - apply always_bind, always_call; [done|]. intros [] _. apply always_bind, always_call; [done|]. intros [] _.
    eapply Hend; [|done..]. summary_step. summary_step. rewrite S2.
    cbn [sm_leases sm_plans sm_runs sm_reports sm_open_plans sm_open_handles app].
    rewrite (filter_cons_False _ (ep_handle p2)), filter_cons_True, filter_nil by naive_solver. by rewrite filter_self.
Qed.

(** ** The whole execution *)

(** Everything was given back. *)
Definition given_back (h : list event) : Prop := leases h = 0 /\ open_plans h = [] /\ open_handles h = [].
Definition reported_all (h : list event) : Prop := phase_of h = Some PhaseRefreshingInventory \/ phase_of h = None.

Lemma Execute_runs :
  run_of (fun h r => given_back h /\ reported_all h /\ good_result request r /\ ended (runs h) r) [] (Execute request).
Proof.
  unfold Execute. apply always_bind, always_call; [done|]. intros [[]|e] _; cbn [note is_ok app].
  2: { apply always_bind, always_report; [by intros q [= <-]|]. intros reply. cbv zeta. split_and!; try done.
       - unfold reported_all, phase_of. cbn. destruct reply; auto.
       - by apply unattempted_good; [apply requested_names|apply lease_code_good| |apply unavailable_good, lease_code_good].
       - split; [done|by left]. }
  set (final := fun (h : list event) (r : Result) => _).
  assert (Hrel : forall h r, settled_up (summarize h) -> good_result request r -> ended (sm_runs (summarize h)) r ->
    run_of final h (_ ← call Release; mret r)).
  { intros h r (E1 & E2 & E3 & E4) Hg Hr. apply always_bind, always_call; [done|]. intros b _. cbn [always mret proc_ret note].
    pose proof (summarize_snoc h Returned) as Hs. unfold after in Hs.
    cbn [lease_change plan_change handle_change plans runs reports omap list_omap] in Hs. rewrite E1, E2, E3, !app_nil_r in Hs.
    injection Hs as H1 H2 H3 H4 H5 H6. unfold final, reported_all, phase_of. rewrite H3, H4. by split_and!. }
  apply always_bind, always_call; [done|]. intros [plan|e] Hl; cbn [note to_option app]; apply always_bind.
  - apply always_bind. eapply run_reviewed_runs; [done|apply (Hl plan eq_refl)|]. intros h r p Hs Hg Hr.
    apply always_bind, always_call; [done|]. intros [] _. apply Hrel; [|done|].
    + destruct Hs as (E1 & E2 & E3 & E4). rewrite summarize_snoc. unfold after. cbn [note].
      cbn [lease_change plan_change handle_change plans runs reports omap list_omap]. unfold settled_up.
      cbn [sm_leases sm_plans sm_runs sm_reports sm_open_plans sm_open_handles]. by rewrite E1, E2, E3, app_nil_r.
    + rewrite summarize_snoc. cbn. by rewrite app_nil_r.
  - eapply finish_settles; [done|apply requested_names|apply executionPreparationCode_good|]. intros h r Hs Hg Hr. by apply Hrel.
Qed.

Lemma Reconcile_runs : run_of (fun h r => given_back h /\ runs h = [] /\ plans h = [] /\ validateInventory r false = Ok tt) [] Reconcile.
Proof.
  unfold Reconcile. apply always_bind, always_call; [done|]. intros [[]|e] _; cbn [note is_ok app].
  - apply always_bind. eapply refresh_runs; [done|]. intros h cs r Hs [Hi _]. apply always_bind, always_call; [done|]. intros b _.
    cbn [always mret proc_ret note]. pose proof (summarize_snoc h Returned) as E. rewrite Hs in E.
    injection E as H1 H2 H3 H4 H5 H6. unfold given_back. rewrite H1, H2, H3, H5, H6. by split_and!.
  - split_and!; try done. apply unavailable_good, lease_code_good.
Qed.
End Steps.
