(* ===== verification/OpCorrect.v ===== *)
(** What the executor of native operations guarantees: it runs only what was
    reviewed, gives everything back, serves the worker of durable operations,
    and tells certificates apart no further than its evidence goes. *)
From stdpp Require Import gmap.
From S2P Require Import Prelude.
From S2P Require Import GoText.
From S2P Require Import GoTime.
From S2P Require Import WsTypes.
From S2P Require Import WsInspect.
From S2P Require Import WsSelect.
From S2P Require Import Effects.
From S2P Require Import JobsTypes.
From S2P Require Import JobsFacts.
From S2P Require Import JobsStore.
From S2P Require Import JobsRefine.
From S2P Require Import JobsCorrect.
From S2P Require Import JobsWorker.
From S2P Require BrokerRun.
From S2P Require Import BrokerCorrect.
From S2P Require Import OpTypes.
From S2P Require Import OpExecutor.
From S2P Require Import OpSafe.

#[local] Open Scope Z_scope.

(** C4: The broker runs at most once in an execution, and only when the lease is
    held, the runtime was prepared and the executing phase recorded, with the
    working directory, configuration, environment and secrets of a plan that is
    still open, was prepared after the inventory was read, and carries exactly
    the reviewed evidence, as the plan before it did.  The result reports every
    change the run may have made, and an operation is called not attempted or
    incompatible only if no child was started. *)
Theorem Execute_runs_only_what_was_reviewed request :
  always (lawful request) (may_run request) may_report (fun h r => ended (runs h) r) [] (OpExecutor.Execute request).
Proof. eapply always_impl; [|apply Execute_runs]. by intros h r (_ & _ & _ & H). Qed.

(** C24: However the calls are answered, an execution gives back what it took: the
    lease is released as often as it was acquired, every plan with its secrets
    is closed and every prepared executable is consumed or closed; so does a
    reconciliation, which never runs the broker and prepares no plan. *)
Theorem Execute_gives_everything_back request :
  always (lawful request) (may_run request) may_report (fun h _ => given_back h) [] (OpExecutor.Execute request)
  /\ always (lawful request) (may_run request) may_report (fun h _ => given_back h /\ runs h = [] /\ plans h = []) [] OpExecutor.Reconcile.
Proof.
  split; (eapply always_impl; [|apply Execute_runs || apply Reconcile_runs]); cbn; naive_solver.
Qed.

(** ** The worker's executor *)

(** An answerer whose answers satisfy the law along every history. *)
Record answers_lawfully (request : JobsTypes.Request) (aw : Answerer) (w : aw_state aw) : Prop := mk_answers {
  al_state : list event -> aw_state aw -> Prop;
  al_start : al_state [] w;
  al_answer : forall h w B (c : Call B), al_state h w ->
    lawful request h B c (aw_answer aw B c w).1 /\ al_state (h ++ [note c (aw_answer aw B c w).1]) (aw_answer aw B c w).2;
  al_report : forall h w p ok, al_state h w -> al_state (h ++ [Reported p ok]) w;
}.

Lemma phase_after_snoc p l x : phase_after p (l ++ [x]) =
  match phase_after p l with Some _ => if x.2 then Some x.1 else None | None => None end.
Proof. revert p. induction l as [|[q []] l IH]; intros p; cbn; [by destruct x as [q []]|apply IH|done]. Qed.
Lemma phase_of_report h p ok : phase_of (h ++ [Reported p ok]) =
  match phase_of h with Some _ => if ok then Some p else None | None => None end.
Proof. unfold phase_of, reports. rewrite omap_app. cbn. apply phase_after_snoc. Qed.
Lemma phase_of_note {B} h (c : Call B) b : phase_of (h ++ [note c b]) = phase_of h.
Proof. unfold phase_of, reports. rewrite omap_app. destruct c; cbn; by rewrite app_nil_r. Qed.

Section Worker.
Context (request : JobsTypes.Request) (aw : Answerer) (R : list event -> aw_state aw -> Prop).
Context (Hvalid : validateRequest request = Ok tt).
Context (answered : forall h w B (c : Call B), R h w ->
  lawful request h B c (aw_answer aw B c w).1 /\ R (h ++ [note c (aw_answer aw B c w).1]) (aw_answer aw B c w).2).
Context (unchanged : forall h w p ok, R h w -> R (h ++ [Reported p ok]) w).

Definition acceptable_end (h : list event) (r : JobsTypes.Result) : Prop := reported_all h /\ good_result request r.
Abbreviation serving h t := (always (lawful request) (may_run request) may_report acceptable_end h t).

Lemma serving_covers t : forall h w, serving h t -> R h w -> covers request (interpret aw t w).
Proof.
  induction t as [r|p k IH|B c k IH]; intros h w; cbn.
  - intros [_ Hg] _ _. by apply good_result_valid in Hg as [_ ?].
  - intros [_ H] HR reply. eapply (IH reply); [apply H|by apply unchanged].
  - intros [_ H] HR. destruct (answered h w B c HR) as [Hl HR']. destruct (aw_answer aw B c w) as [b w'].
    eapply (IH b); [by apply H|done].
Qed.
Lemma serving_serves t : forall h w p, serving h t -> R h w -> phase_of h = Some p -> serves request p (interpret aw t w).
Proof.
  induction t as [r|q k IH|B c k IH]; intros h w p; cbn.
  - intros [Ha Hg] _ Hp. unfold reported_all in Ha. rewrite Hp in Ha. destruct Ha as [[= ->]|]; [|congruence].
    apply good_result_valid in Hg as [? ?]; done.
  - intros [Hq H] HR Hp. split; [by apply Hq|]. split.
    + eapply IH; [apply (H (Ok tt))|by apply unchanged|]. by rewrite phase_of_report, Hp.
    + intros e. eapply serving_covers; [apply (H (Err e))|by apply unchanged].
  - intros [_ H] HR Hp. destruct (answered h w B c HR) as [Hl HR']. destruct (aw_answer aw B c w) as [b w'].
    eapply (IH b); [by apply H|done|]. by rewrite phase_of_note.
Qed.
End Worker.

Lemma executor_serves request aw w : validateRequest request = Ok tt -> answers_lawfully request aw w ->
  serves request PhaseRevalidating (interpret aw (OpExecutor.Execute request) w).
Proof.
  intros Hv [R Hs Ha Hr]. eapply (serving_serves request aw R Hv Ha Hr _ []); [|done..].
  eapply always_impl; [|apply Execute_runs]. by intros h r (_ & ? & ? & _).
Qed.

(** While the clock can be stored, a served request ends with a valid result of
    which no report was refused, refreshing the inventory. *)
Lemma served_run clock request n o x m o' failure outcome : clock_ok clock -> JobsWorker.runs clock n o x m o' failure outcome ->
  serves request (op_Phase o) x ->
  failure = None /\ op_Phase o' = PhaseRefreshingInventory /\ exists r, outcome = Some r /\ validateExecutorResult r = Ok tt.
Proof.
  intros C. induction 1 as [n o r|n o next k m o' failure r Hv Ht _ IH|n o next k Hv|n o next k e Hv Ht]; cbn.
  - destruct r as [r|]; [|done]. intros (Hp & Hr & _). by eauto.
  - intros (_ & Hs & _). by apply IH.
  - intros [Hn _]. congruence.
  - destruct (C n) as [Hn _]. by rewrite Hn in Ht.
Qed.

(** C19: The executor fits the worker: for a running operation of a valid
    request, with a clock that does not run backwards, executing it with the
    native executor ends without error, and what is stored then is the operation
    finished with exactly the result its run returned.  No phase report of the
    run is refused and its result is never found invalid.  The dependencies
    answer lawfully: plans are new objects, equal evidence digests mean equal
    certificate lists, inventories are bounded and broker output is displayable. *)
Theorem worker_records_native_result {S : Type} `{OperationStoreLaws S} (clock : nat -> time) (others : nat -> list Submission) aw w o s :
  clock_ok clock -> denotes (sv_store s) (Some o) -> op_State o = StateRunning -> op_Phase o = PhaseRevalidating ->
  sound_state (Some o) -> t_ns (UpdatedAt o) <= t_ns (clock (sv_calls s)) -> answers_lawfully (op_Request o) aw w ->
  exists s' m o1 r, execute (operation_executor aw w) clock others o s = (Ok tt, s')
    /\ JobsWorker.runs clock (sv_calls s) o (interpret aw (OpExecutor.Execute (op_Request o)) w) m o1 None (Some r)
    /\ denotes (sv_store s') (Some (JobsFacts.finished r (res_Items r) (instant clock m) o1)).
Proof.
  intros C D Hs Hp Hso Hu Ha. assert (Hv : validateRequest (op_Request o) = Ok tt).
  { destruct Hso as [[Hsh _] _]. apply validate_shape_iff in Hsh as [[_ _ Hr _ _] _]. exact Hr. }
  pose proof (executor_serves _ _ _ Hv Ha) as Hserves. rewrite <- Hp in Hserves.
  pose proof (execute_completes (operation_executor aw w) clock others o s C D Hs Hp (conj Hso Hu) (serves_covers _ _ _ Hserves)) as He.
  destruct (execute _ _ _ _ _) as [x s'] eqn:E. cbn in He. subst x.
  destruct (execute_spec _ _ _ _ _ _ _ D Hs Hp E) as (o' & D' & _ & R & _). specialize (R eq_refl).
  destruct R as [r m o1 R _ _|outcome failure code inventory m o1 R Hd _].
  - by exists s', m, o1, r.
  - destruct (served_run _ _ _ _ _ _ _ _ _ C R Hserves) as (-> & Hph & r & -> & Hr).
    rewrite Hph in Hd. inversion Hd as [| |? ? [?|Hbad]]; [done|]. by rewrite Hr in Hbad.
Qed.

(** ** What the evidence says about each certificate *)

(** The last certificate of a name, as the map [previous] keeps it. *)
Definition last_named (name : string) (l : list Certificate) : option Certificate :=
  last (filter (fun c => ic_Name c = name) l).

Lemma previous_lookup l name : previous_certificates l !! name = last_named name l.
Proof.
  unfold previous_certificates, last_named. induction l as [|c l IH] using rev_ind; [done|].
  rewrite fold_left_app, filter_app, filter_cons, filter_nil. cbn [fold_left]. destruct (decide (ic_Name c = name)) as [<-|Hn].
  - by rewrite lookup_insert_eq, last_snoc.
  - by rewrite lookup_insert_ne, app_nil_r by done.
Qed.
(** A certificate is new or differs from what it was. *)
Definition differs (before : list Certificate) (c : Certificate) : Prop :=
  match last_named (ic_Name c) before with Some prior => sameCertificate prior c = false | None => True end.
Lemma changed_names before after_ name :
  name ∈ changedCertificateNames before after_ <-> exists c, c ∈ after_ /\ ic_Name c = name /\ differs before c.
Proof.
  unfold changedCertificateNames, differs.
  induction after_ as [|c l IH] using rev_ind; [cbn; set_solver|]. rewrite fold_left_app. cbn. rewrite previous_lookup.
  destruct (last_named (ic_Name c) before) as [prior|] eqn:El; [destruct (sameCertificate prior c) eqn:Es|];
    rewrite ?elem_of_union, ?IH; split.
  - intros (x & Hx & Hn & Hd). exists x. split; [set_solver|done].
  - intros (x & [Hx|Hx%list_elem_of_singleton]%elem_of_app & Hn & Hd); [by exists x|]. subst x. rewrite El in Hd. congruence.
  - intros [Hc%elem_of_singleton|(x & Hx & Hn & Hd)]; [exists c; split_and!; [set_solver|done|by rewrite El]|exists x; split; [set_solver|done]].
  - intros (x & [Hx|Hx%list_elem_of_singleton]%elem_of_app & Hn & Hd); [right; by exists x|left]. set_solver.
  - intros [Hc%elem_of_singleton|(x & Hx & Hn & Hd)]; [exists c; split_and!; [set_solver|done|by rewrite El]|exists x; split; [set_solver|done]].
  - intros (x & [Hx|Hx%list_elem_of_singleton]%elem_of_app & Hn & Hd); [right; by exists x|left]. set_solver.
Qed.

(** The last line that attempts the renewal of a known certificate names it. *)
Definition attempts (known : gset string) (line : bytes) (name : string) : Prop :=
  exists raw, parseRenewalAttempt line = Some raw /\ of_bytes raw = name /\ name ∈ known.
Lemma last_known_quiet known lines failed : (forall line name, line ∈ lines -> ~ attempts known line name) -> last_known known failed lines = failed.
Proof.
  induction lines as [|line lines IH]; intros Hq; cbn; [done|].
  assert (Hl : last_known known failed lines = failed) by (apply IH; intros l name Hl; apply Hq; by right).
  destruct (parseRenewalAttempt line) as [raw|] eqn:E; [|done]. case_bool_decide as Hk; [|done].
  destruct (Hq line (of_bytes raw)); [by left|]. by exists raw.
Qed.
Lemma last_known_names known above line below name : forall failed, attempts known line name ->
  (forall l n, l ∈ below -> ~ attempts known l n) -> last_known known failed (above ++ line :: below) = name.
Proof.
  intros failed (raw & Hp & <- & Hk) Hq. revert failed. induction above as [|l above IH]; intros failed; cbn.
  - rewrite Hp, bool_decide_true by done. by apply last_known_quiet.
  - destruct (parseRenewalAttempt l); apply IH.
Qed.
Lemma last_known_spec known lines : forall failed,
  (last_known known failed lines = failed /\ forall line name, line ∈ lines -> ~ attempts known line name)
  \/ exists above line below, lines = above ++ line :: below /\ attempts known line (last_known known failed lines)
     /\ forall l name, l ∈ below -> ~ attempts known l name.
Proof.
  induction lines as [|line lines IH]; intros failed; cbn; [left; split; [done|]; intros line name Hl; by apply elem_of_nil in Hl|].
  assert (Hskip : (forall name, ~ attempts known line name) ->
    (last_known known failed lines = failed /\ (forall l name, l ∈ line :: lines -> ~ attempts known l name)) \/
    exists above l below, line :: lines = above ++ l :: below /\ attempts known l (last_known known failed lines)
     /\ forall l' name, l' ∈ below -> ~ attempts known l' name).
  { intros Hno. destruct (IH failed) as [[He Hl]|(above & l & below & -> & Ha & Hb)].
    - left. split; [done|]. intros l name [-> |Hin]%elem_of_cons; [apply Hno|by apply Hl].
    - right. exists (line :: above), l, below. done. }
  destruct (parseRenewalAttempt line) as [raw|] eqn:Ep; [|apply Hskip; intros name (r & E & _); congruence].
  case_bool_decide as Hk; [|apply Hskip; intros name (r & E & <- & Hn); congruence].
  right. destruct (IH (of_bytes raw)) as [[He Hl]|(above & l & below & -> & Ha & Hb)].
  - exists [], line, lines. split_and!; [done| |done]. rewrite He. by exists raw.
  - exists (line :: above), l, below. done.
Qed.

Lemma some_counted {A} (f : A -> bool) l : 0 < blen (List.filter f l) <-> exists x, x ∈ l /\ f x = true.
Proof.
  induction l as [|a l IH]; cbn; [split; [done|intros (x & Hx & _); by apply elem_of_nil in Hx]|]. destruct (f a) eqn:E.
  - split; [intros _; exists a; split; [by left|done]|intros _; unfold blen; cbn; lia].
  - rewrite IH. split; intros (x & Hx & Hf); [exists x; split; [by right|done]|].
    apply elem_of_cons in Hx as [->|Hx]; [congruence|by exists x].
Qed.
Lemma some_left_out {A} (f : A -> bool) l : blen (List.filter f l) < blen l <-> exists x, x ∈ l /\ f x = false.
Proof.
  induction l as [|a l IH]; cbn; [split; [done|intros (x & Hx & _); by apply elem_of_nil in Hx]|].
  pose proof (List.filter_length_le f l) as Hle. destruct (f a) eqn:E.
  - transitivity (blen (List.filter f l) < blen l); [unfold blen; cbn; lia|]. rewrite IH.
    split; intros (x & Hx & Hf); [exists x; split; [by right|done]|]. apply elem_of_cons in Hx as [->|Hx]; [congruence|by exists x].
  - split; [intros _; exists a; split; [by left|done]|intros _; unfold blen; cbn; lia].
Qed.
Lemma item_completed_iff i : item_completed i = true <-> item_State i = ItemCompleted.
Proof. unfold item_completed. by destruct (item_State i). Qed.

(** What the evidence of a run is: the certificate's artifact is new or different
    after it; a reviewed certificate is unchanged; a line of the output attempts
    the renewal of a reviewed unchanged certificate, and is the last to do so. *)
Section Evidence.
Context (result : BrokerRun.Result) (certificates : list ExecutionCertificate) (before after_ : list Certificate) (inventoryResult : InventoryResult).

Definition artifact_changed (name : string) : Prop := exists x, x ∈ after_ /\ ic_Name x = name /\ differs before x.
Definition reviewed_unchanged (name : string) : Prop := name ∈ ec_Name <$> certificates /\ ~ artifact_changed name.
Definition renewal_attempt (line : bytes) (name : string) : Prop :=
  exists raw, parseRenewalAttempt line = Some raw /\ of_bytes raw = name /\ reviewed_unchanged name.
Definition renewal_failed (name : string) : Prop :=
  BrokerRun.r_Outcome result = BrokerRun.OutcomeFailed /\ BrokerRun.OutputDiscarded result = false /\ inv_State inventoryResult = InventoryRefreshed
  /\ exists above line below, split_on newline (BrokerRun.Stdout result ++ newline :: BrokerRun.Stderr result) = above ++ line :: below
       /\ renewal_attempt line name /\ forall l n, l ∈ below -> ~ renewal_attempt l n.
(** A run that ended with an error counts its artifacts only when it may have
    changed something and the inventory was read. *)
Definition completed_evidence (runErr : option (option BrokerRun.ErrorCode)) (name : string) : Prop :=
  match runErr with
  | None => BrokerRun.r_Outcome result = BrokerRun.OutcomeSucceeded \/ artifact_changed name
  | Some _ => (BrokerRun.Started result || BrokerRun.MayHaveChanged result) = true /\ inv_State inventoryResult = InventoryRefreshed /\ artifact_changed name
  end.

Abbreviation changed := (changedCertificateNames before after_).

Lemma is_refreshed_iff : is_refreshed inventoryResult = true <-> inv_State inventoryResult = InventoryRefreshed.
Proof. unfold is_refreshed. by destruct (inv_State inventoryResult). Qed.
Lemma attempts_iff line name : attempts (unchanged_names certificates changed) line name <-> renewal_attempt line name.
Proof.
  unfold attempts, renewal_attempt, unchanged_names, reviewed_unchanged. setoid_rewrite elem_of_list_to_set.
  setoid_rewrite list_elem_of_filter. setoid_rewrite changed_names. naive_solver.
Qed.
Lemma failed_renewal_iff name : name <> ""%string ->
  failedRenewalCertificate result certificates changed inventoryResult = name <-> renewal_failed name.
Proof.
  intros Hne. unfold failedRenewalCertificate, renewal_failed. rewrite <- is_refreshed_iff. setoid_rewrite <- attempts_iff.
  case_bool_decide as Ho; cbn [negb orb]; [|split; [by intros <-|by intros []]].
  destruct (BrokerRun.OutputDiscarded result), (is_refreshed inventoryResult); cbn [negb orb]; try (split; [by intros <-|naive_solver]).
  split.
  - intros <-. destruct (last_known_spec (unchanged_names certificates changed) (split_on newline (BrokerRun.Stdout result ++ newline :: BrokerRun.Stderr result)) "")
      as [[He _]|Hl]; [by rewrite He in Hne|done].
  - intros (_ & _ & _ & above & line & below & -> & Ha & Hb). by apply last_known_names.
Qed.
Lemma unchanged_not_failed name : renewal_failed name -> ~ artifact_changed name.
Proof. intros (_ & _ & _ & above & line & below & _ & (raw & _ & _ & _ & H) & _). exact H. Qed.
End Evidence.

Lemma classify_item_state result certificates before after_ inventoryResult c : ec_Name c <> ""%string ->
  let changed := changedCertificateNames before after_ in
  let i := classify_item (BrokerRun.r_Outcome result) changed (failedRenewalCertificate result certificates changed inventoryResult) c in
  (item_State i = ItemCompleted <-> completed_evidence result before after_ inventoryResult None (ec_Name c))
  /\ (item_State i = ItemFailed <-> renewal_failed result certificates before after_ inventoryResult (ec_Name c))
  /\ (item_State i = ItemCompleted \/ item_State i = ItemFailed \/ item_State i = ItemAmbiguous).
Proof.
  intros Hne changed. cbn zeta. pose proof (failed_renewal_iff result certificates before after_ inventoryResult (ec_Name c) Hne) as Hf.
  fold changed in Hf. pose proof (unchanged_not_failed result certificates before after_ inventoryResult (ec_Name c)) as Hu.
  pose proof (changed_names before after_ (ec_Name c)) as Hc. fold changed in Hc. unfold classify_item, completed_evidence, artifact_changed in *.
  case_bool_decide as Ho; [cbn; split_and!; [tauto| |auto]; split; [done|]; intros [Hx _]; congruence|].
  case_bool_decide as Hin; [cbn; split_and!; [tauto| |auto]; split; [done|]; intros Hx; by destruct (Hu Hx); apply Hc|].
  destruct (String.eqb_spec (ec_Name c) (failedRenewalCertificate result certificates changed inventoryResult)) as [Ee|Ee];
    cbn; (split_and!; [split; [done|intros [?|?]; [done|by destruct Hin; apply Hc]]| |auto]).
  - split; [intros _; by apply Hf|done].
  - split; [done|]. intros Hx. by apply Hf in Hx.
Qed.

Lemma completed_mix items : (0 <? blen (List.filter item_completed items)) && (blen (List.filter item_completed items) <? blen items) = true <->
  (exists i, i ∈ items /\ item_State i = ItemCompleted) /\ exists i, i ∈ items /\ item_State i <> ItemCompleted.
Proof.
  rewrite andb_true_iff, !Z.ltb_lt, some_counted, some_left_out. setoid_rewrite <- item_completed_iff.
  by setoid_rewrite not_true_iff_false.
Qed.

(** The item at the place of a certificate. *)
Lemma classified_item result runErr certificates before after_ inventoryResult postChangeCode k c :
  certificates !! k = Some c ->
  let changed := changedCertificateNames before after_ in
  let item := classify_item (BrokerRun.r_Outcome result) changed (failedRenewalCertificate result certificates changed inventoryResult) c in
  let mayHaveChanged := BrokerRun.Started result || BrokerRun.MayHaveChanged result in
  res_Items (classifyExecution result runErr certificates before after_ inventoryResult postChangeCode) !! k = Some
    match runErr with
    | None => if String.eqb postChangeCode "" then item else make_ambiguous postChangeCode item
    | Some code =>
        if mayHaveChanged && is_refreshed inventoryResult && bool_decide (ec_Name c ∈ changed)
        then mk_ItemResult (ec_Name c) ItemCompleted "native_artifact_changed"
        else mk_ItemResult (ec_Name c) (if mayHaveChanged then ItemAmbiguous else ItemNotAttempted) (brokerFailureCode code)
    end.
Proof.
  intros Hk. cbn zeta. unfold classifyExecution, classify_error, itemResults. destruct (operationOutput result) as [output truncated].
  destruct runErr as [code|].
  - cbn. destruct (_ && is_refreshed inventoryResult); rewrite ?list_lookup_fmap, Hk; cbn; [|done]. by case_bool_decide.
  - destruct (run_state _ _ _) as [state code]. destruct (String.eqb postChangeCode ""); cbn; by rewrite !list_lookup_fmap, Hk.
Qed.

Lemma make_ambiguous_state code i :
  (item_State (make_ambiguous code i) = ItemCompleted <-> item_State i = ItemCompleted)
  /\ (item_State (make_ambiguous code i) = ItemCompleted \/ item_State (make_ambiguous code i) = ItemAmbiguous).
Proof. unfold make_ambiguous, item_completed. destruct (item_State i) eqn:E; cbn; rewrite ?E; tauto || (split; [done|auto]). Qed.

Lemma partial_state outcome items state code : run_state outcome (blen (List.filter item_completed items)) (blen items) = (state, code) ->
  (state = StatePartial <-> outcome = BrokerRun.OutcomeFailed
     /\ (exists i, i ∈ items /\ item_State i = ItemCompleted) /\ exists i, i ∈ items /\ item_State i <> ItemCompleted)
  /\ (state = StateSucceeded <-> outcome = BrokerRun.OutcomeSucceeded).
Proof.
  rewrite <- completed_mix. unfold run_state.
  destruct outcome, (_ && _); cbn; intros [= <- _]; split; split; try done; by intros [? ?].
Qed.

(** C23: What an execution is classified as is exactly what the evidence supports.
    A certificate is completed iff the run succeeded or its artifact is new or
    different - after a run error, iff the run may have changed something, the
    inventory was read and the artifact is new or different.  It is failed iff the
    run ended without error and left the configuration as it was, it failed, the
    complete output was kept, the inventory was read, and the last exact renewal
    record of a reviewed certificate whose artifact is unchanged names it.  It is
    not attempted iff a run error came before any effect, and ambiguous in every
    other case.  The operation is partial iff the run failed, without a run error
    or a changed configuration, and some but not all certificates are completed,
    and succeeded iff the run succeeded without either. *)
Theorem classification_follows_evidence result runErr certificates before after_ inventoryResult postChangeCode :
  let r := classifyExecution result runErr certificates before after_ inventoryResult postChangeCode in
  List.length (res_Items r) = List.length certificates
  /\ (forall k c i, certificates !! k = Some c -> res_Items r !! k = Some i -> item_Name i = ec_Name c
       /\ (ec_Name c <> ""%string ->
            (item_State i = ItemCompleted <-> completed_evidence result before after_ inventoryResult runErr (ec_Name c))
         /\ (item_State i = ItemFailed <-> runErr = None /\ postChangeCode = ""%string /\ renewal_failed result certificates before after_ inventoryResult (ec_Name c))
         /\ (item_State i = ItemNotAttempted <-> is_Some runErr /\ (BrokerRun.Started result || BrokerRun.MayHaveChanged result) = false)
         /\ (item_State i = ItemCompleted \/ item_State i = ItemFailed \/ item_State i = ItemNotAttempted \/ item_State i = ItemAmbiguous)))
  /\ (res_State r = StatePartial <-> runErr = None /\ postChangeCode = ""%string /\ BrokerRun.r_Outcome result = BrokerRun.OutcomeFailed
       /\ (exists i, i ∈ res_Items r /\ item_State i = ItemCompleted) /\ exists i, i ∈ res_Items r /\ item_State i <> ItemCompleted)
  /\ (res_State r = StateSucceeded <-> runErr = None /\ postChangeCode = ""%string /\ BrokerRun.r_Outcome result = BrokerRun.OutcomeSucceeded).
Proof.
  cbv zeta. split_and!.
  - unfold classifyExecution, classify_error, itemResults. destruct (operationOutput result), runErr; cbn; [case_match; by rewrite !length_fmap|].
    destruct (run_state _ _ _). case_match; cbn; by rewrite !length_fmap.
  - intros k c i Hk Hi. rewrite (classified_item _ _ _ _ _ _ _ _ _ Hk) in Hi. injection Hi as <-. split.
    { destruct runErr; [by case_match|]. case_match; unfold make_ambiguous; [|case_match]; apply classify_item_good. }
    intros Hne. destruct runErr as [code|]; cbn [completed_evidence].
    + rewrite <- is_refreshed_iff, <- (changed_names before after_ (ec_Name c)).
      destruct (_ || _), (is_refreshed inventoryResult); cbn [andb]; try case_bool_decide; cbn; split_and!; try done; naive_solver.
    + destruct (classify_item_state result certificates before after_ inventoryResult c Hne) as (H1 & H2 & H3). cbn [completed_evidence] in H1.
      destruct (String.eqb_spec postChangeCode "") as [->|Hp].
      * split_and!; [exact H1|rewrite H2; naive_solver| |naive_solver]. split; [naive_solver congruence|by intros [[] _]].
      * match goal with |- context [make_ambiguous postChangeCode ?i] => destruct (make_ambiguous_state postChangeCode i) as [M1 M2] end.
        rewrite <- H1, <- M1. split_and!; [done|split; [naive_solver congruence|by intros (_ & ? & _)]|split; [naive_solver congruence|by intros [[] _]]|naive_solver].
  - unfold classifyExecution, classify_error. destruct (operationOutput result) as [output truncated], runErr as [code|]; cbn.
    { split; [by case_match|by intros []]. }
    destruct (run_state _ _ _) as [state code] eqn:Es. destruct (partial_state _ _ _ _ Es) as [Hp _].
    destruct (String.eqb_spec postChangeCode "") as [->|Hn]; cbn; [rewrite Hp; naive_solver|split; [done|by intros (_ & ? & _)]].
  - unfold classifyExecution, classify_error. destruct (operationOutput result) as [output truncated], runErr as [code|]; cbn.
    { split; [by case_match|by intros []]. }
    destruct (run_state _ _ _) as [state code] eqn:Es. destruct (partial_state _ _ _ _ Es) as [_ Hp].
    destruct (String.eqb_spec postChangeCode "") as [->|Hn]; cbn; [rewrite Hp; naive_solver|split; [done|by intros (_ & ? & _)]].
Qed.

(** ** The kept output *)

Lemma encode_length r : (List.length (encode_scalar r) <= 4)%nat.
Proof. unfold encode_scalar. repeat case_match; cbn; lia. Qed.
Lemma text_boundary rs : BrokerRun.scalars rs -> forall n, (n <= List.length (BrokerRun.utf8 rs))%nat ->
  exists m, (m <= n < m + 4)%nat /\ utf8_valid (take m (BrokerRun.utf8 rs)) = true.
Proof.
  induction 1 as [|r rs Hr _ IH]; intros n Hn; [exists 0%nat; cbn in Hn; split; [lia|done]|].
  change (BrokerRun.utf8 (r :: rs)) with (encode_scalar r ++ BrokerRun.utf8 rs) in *. pose proof (encode_length r).
  destruct (decide (n < List.length (encode_scalar r))%nat) as [Hlt|Hge]; [exists 0%nat; split; [lia|done]|].
  rewrite length_app in Hn. destruct (IH (n - List.length (encode_scalar r))%nat) as (m & Hm & Hv); [lia|].
  exists (List.length (encode_scalar r) + m)%nat. split; [lia|]. rewrite take_app_add. apply BrokerRun.valid_app; [|done].
  apply BrokerRun.valid_utf8. exists [r]. split; [by constructor|]. unfold BrokerRun.utf8. cbn. by rewrite app_nil_r.
Qed.
Lemma valid_prefix_largest l n m : (m <= n <= List.length l)%nat -> utf8_valid (take m l) = true -> (m <= List.length (valid_prefix n l))%nat.
Proof.
  intros Hm Hv. induction n as [|n IH]; cbn; [lia|].
  destruct (utf8_valid (take (S n) l)) eqn:E; [rewrite firstn_length_le; lia|]. apply IH.
  destruct (decide (m = S n)) as [->|]; [congruence|lia].
Qed.

(** The output kept with an operation is the run's two streams under their
    headings.  Up to 256 KiB it is complete; beyond that it is a prefix that ends
    on a character boundary, loses fewer than four bytes of the limit, and is
    marked as truncated.  Discarded output is never shown. *)
Theorem kept_output_is_longest_text result :
  displayable_text (BrokerRun.Stdout result) -> displayable_text (BrokerRun.Stderr result) ->
  let '(text, truncated) := operationOutput result in
  if BrokerRun.OutputDiscarded result then text = ""%string /\ truncated = true
  else to_bytes text `prefix_of` joined_output result /\ utf8_valid (to_bytes text) = true
       /\ blen (to_bytes text) <= maximumPersistedOutput
       /\ (truncated = false <-> blen (joined_output result) <= maximumPersistedOutput)
       /\ (truncated = false -> to_bytes text = joined_output result)
       /\ (truncated = true -> maximumPersistedOutput - 4 < blen (to_bytes text)).
Proof.
  intros Ho He. unfold operationOutput. destruct (BrokerRun.OutputDiscarded result); [done|].
  pose proof (joined_plain result Ho He) as (rs & Hrs & El). assert (Hs : BrokerRun.scalars rs) by (eapply Forall_impl; [exact Hrs|]; by intros r []).
  generalize dependent (joined_output result). intros l ->. assert (Hmax : 0 <= maximumPersistedOutput) by done.
  destruct (Z.leb_spec (blen (BrokerRun.utf8 rs)) maximumPersistedOutput) as [Hle|Hgt]; rewrite list_ascii_of_string_of_list_ascii.
  - split_and!; try done. apply BrokerRun.valid_utf8. by exists rs.
  - destruct (valid_prefix_spec (Z.to_nat maximumPersistedOutput) (BrokerRun.utf8 rs)) as (m & Hm & E & V).
    destruct (text_boundary rs Hs (Z.to_nat maximumPersistedOutput)) as (k & Hk & Vk); [unfold blen in Hgt; lia|].
    pose proof (valid_prefix_largest (BrokerRun.utf8 rs) (Z.to_nat maximumPersistedOutput) k) as Hlong. rewrite E in *. unfold blen in *. split_and!.
    + apply prefix_take.
    + exact V.
    + rewrite length_take. lia.
    + split; [done|lia].
    + done.
    + intros _. specialize (Hlong ltac:(lia) Vk). lia.
Qed.

(** ** An example *)

Definition sample_review : Review :=
  mk_review NoSource no_evidence no_evidence no_evidence [] [] [] false [] zero_time.
Definition sample_certificate (name : string) : ExecutionCertificate := mk_certificate name [name] "account" "ca" "http" "http-01" "listener".
Definition sample_plan (handle : Z) : ExecutionPlan :=
  mk_plan handle (mk_intent "/srv/lego" "/srv/lego/.lego.yml" "" "5.2.0" "lego-5" [sample_certificate "cert.example"; sample_certificate "second"] [])
    "revision" "0123456789abcdef0123456789abcdef0123456789abcdef0123456789abcdef" [] [].
Definition sample_broker_result : BrokerRun.Result :=
  BrokerRun.mk_Result BrokerRun.OutcomeFailed true zero_time zero_time 1 true [] BrokerRun.TerminationNone
    (to_bytes "2025-02-28T09:08:07Z INF Trying renewal. cert-name=second time-remaining=12h") [] false true.
(** Every call succeeds and each plan is a new object. *)
Definition sample_answer (B : Type) (c : Call B) : nat -> B * nat :=
  match c in Call B return nat -> B * nat with
  | TryAcquire _ | Acquire _ => fun n => (Ok tt, n)
  | Release => fun n => (Ok tt, n)
  | PrepareExecution => fun n => (Ok (sample_plan (Z.of_nat n)), S n)
  | ClosePlan _ | ClosePrepared _ => fun n => (tt, n)
  | LoadSelection => fun n => (Ok (mk_selection sample_review zero_time), n)
  | OpExecutor.Verify r => fun n => (Ok r, n)
  | PrepareRuntime => fun n => (Some 0, n)
  | RunBroker _ _ => fun n => (sample_broker_result, None, n)
  | ReadInventory _ _ => fun n => (Ok [], n)
  | Authorize => fun n => (Ok tt, n)
  | Submit _ _ => fun n => (Err ErrActive, n)
  end.
Definition sample_answerer : Answerer := {| aw_state := nat; aw_answer := sample_answer |}.

Example sample_execution :
  let fix follow (e : execution) := match e with Returns r => r | Reports _ k => follow (k (Ok tt)) end in
  match follow (interpret sample_answerer (OpExecutor.Execute JobsCorrect.sample_request) 0%nat) with
  | Some r => (res_State r, item_State <$> res_Items r) = (StateFailed, [ItemAmbiguous; ItemFailed])
  | None => False
  end.
Proof. vm_compute. reflexivity. Qed.

Lemma plans_snoc h e : plans (h ++ [e]) = plans h ++ plans [e].
Proof. unfold plans. apply omap_app. Qed.
Lemma sample_displayable : displayable_text (BrokerRun.Stdout sample_broker_result).
Proof. by apply ascii_displayable. Qed.

Lemma sample_answers : answers_lawfully JobsCorrect.sample_request sample_answerer 0%nat.
Proof.
  apply (mk_answers JobsCorrect.sample_request sample_answerer 0%nat (fun h (n : nat) => forall p, p ∈ plans h -> ep_handle p < Z.of_nat n)).
  - intros p Hp. by apply elem_of_nil in Hp.
  - intros h n B c HR. split.
    + destruct c; try done; cbn.
      * intros p [= <-]. split; [|done]. intros (q & Eq & Hq)%list_elem_of_fmap. apply HR in Hq. cbn in Eq. lia.
      * split_and!; [apply sample_displayable|apply displayable_nil|done].
      * intros l [= <-]. done.
    + intros p. rewrite plans_snoc, elem_of_app. intros [Hp|Hp].
      * apply HR in Hp. destruct c; cbn; lia.
      * destruct c; cbn in Hp; try by apply elem_of_nil in Hp. apply list_elem_of_singleton in Hp as ->. cbn. lia.
  - intros h n p ok HR q. rewrite plans_snoc. cbn. rewrite app_nil_r. apply HR.
Qed.

Theorem worker_records_native_result_witness :
  exists s' m o1 r, execute (operation_executor sample_answerer 0%nat) bounded_clock nobody sample_running running_service = (Ok tt, s')
    /\ JobsWorker.runs bounded_clock (sv_calls running_service) sample_running
         (interpret sample_answerer (OpExecutor.Execute (op_Request sample_running)) 0%nat) m o1 None (Some r)
    /\ denotes (sv_store s') (Some (JobsFacts.finished r (res_Items r) (instant bounded_clock m) o1)).
Proof.
  apply (worker_records_native_result bounded_clock nobody sample_answerer 0%nat sample_running running_service).
  - apply bounded_clock_ok.
  - apply sample_running_denoted.
  - reflexivity.
  - reflexivity.
  - split; [apply sample_running_shaped|]. unfold in_order; cbn; split_and!; intros; try lia; done.
  - cbn. lia.
  - apply sample_answers.
Defined.

Theorem kept_output_is_longest_text_witness :
  let '(text, truncated) := operationOutput sample_broker_result in
  if BrokerRun.OutputDiscarded sample_broker_result then text = ""%string /\ truncated = true
  else to_bytes text `prefix_of` joined_output sample_broker_result /\ utf8_valid (to_bytes text) = true
       /\ blen (to_bytes text) <= maximumPersistedOutput
       /\ (truncated = false <-> blen (joined_output sample_broker_result) <= maximumPersistedOutput)
       /\ (truncated = false -> to_bytes text = joined_output sample_broker_result)
       /\ (truncated = true -> maximumPersistedOutput - 4 < blen (to_bytes text)).
Proof. apply (kept_output_is_longest_text sample_broker_result); [apply sample_displayable|apply displayable_nil]. Defined.
