(* ===== verification/OpService.v ===== *)
(** The operation service (internal/operation/service.go): the review token of
    a preview, the manual and the scheduled enqueue under the workspace lease,
    and the errors a caller sees. *)
From stdpp Require Import gmap.
From S2P Require Import Prelude.
From S2P Require Import GoText.
From S2P Require Import JobsTypes.
From S2P Require Import Tokens.
From S2P Require Import OpTypes.
From S2P Require Import OpExecutor.

#[local] Open Scope string_scope.
#[local] Open Scope Z_scope.

(** ** The service *)

(** The errors of the package; a guard's own error is passed on by its text. *)
Inductive OpError :=
| ErrBusy | ErrActive | ErrChanged | ErrInvalid | ErrRecovery | ErrWorkspace | ErrConfiguration | ErrUnavailable
| Guarded (text : string)
| NewFailed (text : string).
#[export] Instance OpError_eq_dec : EqDecision OpError.
Proof. solve_decision. Defined.

Definition second : Z := 1000000000.
Definition defaultOperationTimeout : Z := 30 * 60 * second.
Definition maximumOperationTimeout : Z := 3600 * second.

Record Policy := mk_policy { Timeout : Z }.
Definition DefaultPolicy : Policy := mk_policy defaultOperationTimeout.

(** The components behind the interfaces answer the calls; what is left of the
    service is its policy and its key. *)
Record Service := mk_service { sv_policy : Policy; sv_tokenKey : bytes }.
Record Preview := mk_preview { ReviewedPreviewToken : string; pv_Intent : ExecutionIntent; pv_Policy : Policy }.

(** [complete]: every dependency was given.  [random]: what reading 32 bytes
    yields.  [jobs]: what [jobs.New] answers. *)
Definition New (complete : bool) (policy : Policy) (random : option bytes) (jobs : result string unit) : result OpError Service :=
  _ ← reject_if (negb complete) (NewFailed "native operation dependencies are required");
  _ ← reject_if ((Timeout policy <=? 0) || (maximumOperationTimeout <? Timeout policy)) (NewFailed "native operation policy is invalid");
  match random with
  | None => Err (NewFailed "initialize native operation review tokens")
  | Some key =>
      match jobs with
      | Err text => Err (NewFailed text)
      | Ok _ => Ok (mk_service policy key)
      end
  end.

Definition operationAcquireError (e : failure) : OpError := if errors_is e WorkspaceBusy then ErrBusy else ErrUnavailable.

Definition operationPreparationError (e : failure) : OpError :=
  if errors_is e ConfigurationBusy || errors_is e WorkspaceBusy then ErrBusy
  else if errors_is e ConfigurationChanged || errors_is e WorkspaceSourceChanged then ErrChanged
  else if errors_is e ConfigurationInvalid || errors_is e WorkspaceRecoveryRequired || errors_is e WorkspaceNoSelection then
    if errors_is e WorkspaceRecoveryRequired then ErrRecovery
    else if errors_is e WorkspaceNoSelection then ErrWorkspace
    else ErrConfiguration
  else ErrUnavailable.

(** ** Review tokens *)

(** What the token of a review binds, in the order it is written. *)
Definition certificate_values (c : ExecutionCertificate) : list bytes :=
  write_text (ec_Name c) ++ write_list write_text (ec_Domains c) ++ write_text (ec_Account c) ++ write_text (ec_CA c)
  ++ write_text (ec_ChallengeName c) ++ write_text (ec_ChallengeMode c).
Definition access_values (a : ExecutionCloudAccess) : list bytes :=
  write_text (ca_ChallengeName a) ++ write_text (ca_Provider a) ++ write_text (ca_AuthMode a) ++ write_list write_text (ca_Files a)
  ++ write_text (ca_Helper a) ++ write_text (ca_Metadata a).
Definition review_values (policy : Policy) (revision evidence : string) (intent : ExecutionIntent) : list bytes :=
  write_text "acmemux-manual-operation-preview-v2" ++ write_text revision ++ write_text evidence
  ++ write_text (ei_WorkingDirectory intent) ++ write_text (ei_ConfigurationPath intent) ++ write_text (ei_StoragePath intent)
  ++ write_text (ei_RuntimeIdentity intent) ++ write_text (ei_RuntimeManifestID intent)
  ++ write_list certificate_values (ei_Certificates intent) ++ write_list access_values (ei_CloudAccess intent)
  ++ write_integer (uint64 (Z.quot (Timeout policy) second)).

Section Service.
Context `{Digests}.

Definition reviewToken (service : Service) (revision evidence : string) (intent : ExecutionIntent) : string :=
  token (sv_tokenKey service) (review_values (sv_policy service) revision evidence intent).
Definition plan_token (service : Service) (plan : ExecutionPlan) : string :=
  reviewToken service (ep_Revision plan) (ep_ReviewedEvidenceSHA256 plan) (ep_Intent plan).

(** ** Operations *)

Definition request_detail (c : ExecutionCertificate) : RequestItem :=
  mk_RequestItem (ec_Name c) (ec_Account c) (ec_CA c) (ec_ChallengeKind c) (ec_ChallengeMode c).
Definition requestFromPlan (plan : ExecutionPlan) : Request :=
  let intent := ep_Intent plan in
  mk_Request (ep_ReviewedEvidenceSHA256 plan) (ec_Name <$> ei_Certificates intent)
    (mk_RequestContext (ei_RuntimeIdentity intent) (ei_RuntimeManifestID intent) (ei_ConfigurationPath intent) (ei_StoragePath intent))
    (request_detail <$> ei_Certificates intent).

Definition ServicePreview (service : option Service) : proc (result OpError Preview) :=
  match service with
  | None => mret (Err ErrUnavailable)
  | Some service =>
      lease ← call (TryAcquire PurposeManualRun);
      match lease with
      | Err e => mret (Err (operationAcquireError e))
      | Ok _ =>
          plan ← call PrepareExecution;
          released ← call Release;
          match plan with
          | Err e => mret (Err (operationPreparationError e))
          | Ok plan =>
              if is_err released then _ ← close_plan plan; mret (Err ErrUnavailable)
              else _ ← close_plan plan; mret (Ok (mk_preview (plan_token service plan) (ep_Intent plan) (sv_policy service)))
          end
      end
  end.

(** The error of an enqueue of the jobs. *)
Definition submit_error (e : JobsTypes.Error) : OpError := match e with JobsTypes.ErrActive => ErrActive | _ => ErrUnavailable end.
Definition submit (kind : Kind) (request : Request) : proc (result OpError Operation) :=
  operation ← call (Submit kind request);
  mret (map_err submit_error operation).

(** With the enqueue mutex held.  [guard]: whether a guard was given. *)
Definition Enqueue (service : option Service) (guard : bool) (reviewedPreviewToken : string) : proc (result OpError Operation) :=
  match service with
  | None => mret (Err ErrInvalid)
  | Some service =>
      if negb guard || negb (validReviewToken reviewedPreviewToken) then mret (Err ErrInvalid)
      else
        lease ← call (TryAcquire PurposeManualRun);
        match lease with
        | Err e => mret (Err (operationAcquireError e))
        | Ok _ =>
            plan ← call PrepareExecution;
            match plan with
            | Err e => _ ← call Release; mret (Err (operationPreparationError e))
            | Ok plan =>
                if negb (String.eqb (plan_token service plan) reviewedPreviewToken)
                then _ ← close_plan plan; _ ← call Release; mret (Err ErrChanged)
                else
                  _ ← close_plan plan;
                  released ← call Release;
                  if is_err released then mret (Err ErrUnavailable)
                  else
                    allowed ← call Authorize;
                    match allowed with
                    | Err text => mret (Err (Guarded text))
                    | Ok _ => submit KindManual (requestFromPlan plan)
                    end
            end
        end
  end.

Definition EnqueueScheduled (service : option Service) : proc (result OpError Operation) :=
  match service with
  | None => mret (Err ErrUnavailable)
  | Some service =>
      lease ← call (TryAcquire PurposeScheduled);
      match lease with
      | Err e => mret (Err (operationAcquireError e))
      | Ok _ =>
          plan ← call PrepareExecution;
          match plan with
          | Err e => _ ← call Release; mret (Err (operationPreparationError e))
          | Ok plan =>
              _ ← close_plan plan;
              released ← call Release;
              if is_err released then mret (Err ErrUnavailable) else submit KindScheduled (requestFromPlan plan)
          end
      end
  end.
End Service.
