(* ===== verification/OpReview.v ===== *)
(** What the operation service guarantees: it enqueues only what was reviewed,
    under the token of the review, and gives back what it took. *)
From stdpp Require Import gmap.
From S2P Require Import Prelude.
From S2P Require Import GoText.
From S2P Require Import JobsTypes.
From S2P Require Import Tokens.
From S2P Require Import OpTypes.
From S2P Require Import OpExecutor.
From S2P Require Import OpSafe.
From S2P Require Import OpService.

#[local] Open Scope Z_scope.

(** ** What a token binds *)

(** The part of a certificate, of a cloud access and of a review the token is
    made of: all of it but the kind of a challenge, which the evidence binds. *)
Definition shown_certificate (c : ExecutionCertificate) :=
  (ec_Name c, (ec_Domains c, (ec_Account c, (ec_CA c, (ec_ChallengeName c, ec_ChallengeMode c))))).
Definition shown_access (a : ExecutionCloudAccess) :=
  (ca_ChallengeName a, (ca_Provider a, (ca_AuthMode a, (ca_Files a, (ca_Helper a, ca_Metadata a))))).
Definition shown (policy : Policy) (revision evidence : string) (i : ExecutionIntent) :=
  (revision, (evidence, (ei_WorkingDirectory i, (ei_ConfigurationPath i, (ei_StoragePath i, (ei_RuntimeIdentity i, (ei_RuntimeManifestID i,
   (shown_certificate <$> ei_Certificates i, (shown_access <$> ei_CloudAccess i, uint64 (Z.quot (Timeout policy) second)))))))))).

Abbreviation write_certificate := (write_pair write_text (write_pair (write_list write_text) (write_pair write_text (write_pair write_text
  (write_pair write_text write_text))))).
Abbreviation write_access := (write_pair write_text (write_pair write_text (write_pair write_text (write_pair (write_list write_text)
  (write_pair write_text write_text))))).
Abbreviation write_shown := (write_pair write_text (write_pair write_text (write_pair write_text (write_pair write_text (write_pair write_text
  (write_pair write_text (write_pair write_text (write_pair (write_list write_certificate) (write_pair (write_list write_access) write_integer))))))))).

(** Strings and lists have a length below 2^64, as they have in Go. *)
Abbreviation short_certificate := (both short_text (both (short_list short_text) (both short_text (both short_text (both short_text short_text))))).
Abbreviation short_access := (both short_text (both short_text (both short_text (both (short_list short_text) (both short_text short_text))))).
Abbreviation short_shown := (both short_text (both short_text (both short_text (both short_text (both short_text (both short_text (both short_text
  (both (short_list short_certificate) (both (short_list short_access) in_uint64))))))))).

Definition shown_plan (policy : Policy) (p : ExecutionPlan) := shown policy (ep_Revision p) (ep_ReviewedEvidenceSHA256 p) (ep_Intent p).
Definition representable (p : ExecutionPlan) : Prop := short_shown (shown_plan DefaultPolicy p).

Lemma write_list_fmap {A B} (f : A -> B) w l : write_list w (f <$> l) = write_list (fun a => w (f a)) l.
Proof. unfold write_list, blen. rewrite length_fmap. f_equal. induction l as [|a l IH]; cbn; [done|]. by rewrite IH. Qed.
Lemma review_values_shown policy revision evidence intent :
  review_values policy revision evidence intent
  = write_pair write_text write_shown ("acmemux-manual-operation-preview-v2"%string, shown policy revision evidence intent).
Proof. unfold write_pair, shown. cbn [fst snd]. by rewrite !write_list_fmap. Qed.
Lemma representable_shown policy p : representable p -> short_shown (shown_plan policy p).
Proof. unfold representable, shown_plan, shown, both. cbn [fst snd]. intros H. split_and!; try apply H. apply uint64_range. Qed.

Section Reviewed.
Context `{Digests}.

(** Two plans under one token show the same, or the keyed digest clashes on
    what was written for exactly these two. *)
Definition same_review (service : Service) (p p' : ExecutionPlan) : Prop :=
  shown_plan (sv_policy service) p = shown_plan (sv_policy service) p'
  \/ clash (hmac (sv_tokenKey service))
       (review_values (sv_policy service) (ep_Revision p) (ep_ReviewedEvidenceSHA256 p) (ep_Intent p))
       (review_values (sv_policy service) (ep_Revision p') (ep_ReviewedEvidenceSHA256 p') (ep_Intent p')).

Lemma plan_token_binds service p p' : representable p -> representable p' -> plan_token service p = plan_token service p' -> same_review service p p'.
Proof.
  intros Hp Hp' E. unfold same_review. unfold plan_token, reviewToken in E. rewrite !review_values_shown in *.
  assert (Hs : short_text "acmemux-manual-operation-preview-v2") by reflexivity.
  destruct (token_binds (both short_text short_shown) _ _
    ("acmemux-manual-operation-preview-v2"%string, shown_plan (sv_policy service) p) ("acmemux-manual-operation-preview-v2"%string, shown_plan (sv_policy service) p')
    (conj Hs (representable_shown (sv_policy service) p Hp)) (conj Hs (representable_shown (sv_policy service) p' Hp')) E) as [[= ?]|?]; [left|by right].
  unfold shown_plan, shown. congruence.
Qed.

(** ** Enqueueing *)

Definition submissions (h : list event) : list (Kind * Request * option Operation) :=
  omap (fun e => match e with Submitted k r o => Some (k, r, o) | _ => None end) h.
Definition accepted (h : list event) : list Operation := omap snd (submissions h).

(** A request is handed to the jobs once, with nothing held any more, for the
    last plan that was prepared. *)
Definition handed_over (kind : Kind) (h : list event) (k : Kind) (r : Request) : Prop :=
  k = kind /\ submissions h = [] /\ leases h = 0 /\ open_plans h = []
  /\ exists p, last (plans h) = Some p /\ r = requestFromPlan p.
Definition only_plans {B} (c : Call B) : Prop :=
  match c with TryAcquire _ | Release | PrepareExecution | ClosePlan _ => True | _ => False end.

(** Plans are representable. *)
Definition plans_fit (h : list event) (B : Type) (c : Call B) : B -> Prop :=
  match c in Call B return B -> Prop with PrepareExecution => fun r => forall p, r = Ok p -> representable p | _ => fun _ => True end.

(** A manual request under a token: the administrator was authorized last, and
    the plan carries the token. *)
Definition may_enqueue (service : Service) (reviewed : string) (h : list event) (B : Type) (c : Call B) : Prop :=
  match c with
  | Authorize => leases h = 0 /\ exists p, last (plans h) = Some p /\ plan_token service p = reviewed
  | Submit k r => handed_over KindManual h k r /\ last h = Some (Authorized true)
                  /\ exists p, last (plans h) = Some p /\ plan_token service p = reviewed
  | _ => only_plans c
  end.
Definition may_schedule (h : list event) (B : Type) (c : Call B) : Prop :=
  match c with Submit k r => handed_over KindScheduled h k r | _ => only_plans c end.

Definition outcome (h : list event) (r : result OpError Operation) : Prop :=
  leases h = 0 /\ open_plans h = [] /\ accepted h = match r with Ok o => [o] | Err _ => [] end.

(** An administrator who previews and then enqueues under the preview's token:
    the preview that is displayed, and what the enqueue answers. *)
Definition preview_and_enqueue (service : Service) (guard : bool) : proc (result OpError Preview * option (result OpError Operation)) :=
  preview ← ServicePreview (Some service);
  match preview with
  | Err e => mret (Err e, None)
  | Ok preview => answer ← Enqueue (Some service) guard (ReviewedPreviewToken preview); mret (Ok preview, Some answer)
  end.
Definition may_follow (h : list event) (B : Type) (c : Call B) : Prop :=
  match c with
  | Authorize => leases h = 0
  | Submit k r => handed_over KindManual h k r /\ last h = Some (Authorized true)
  | _ => only_plans c
  end.
(** Plans are representable, and equal evidence means equal kinds of challenge:
    the evidence digest covers them, the review token does not.  The configuration
    service keeps this short of a clash of SHA-256
    ([ConfCorrect.plans_cover_kinds]). *)
Definition challenge_kinds (p : ExecutionPlan) : list string := ec_ChallengeKind <$> ei_Certificates (ep_Intent p).
Definition evidence_covers_kinds (h : list event) (B : Type) (c : Call B) : B -> Prop :=
  match c in Call B return B -> Prop with
  | PrepareExecution => fun r => forall p, r = Ok p -> representable p
      /\ forall q, q ∈ plans h -> ep_ReviewedEvidenceSHA256 q = ep_ReviewedEvidenceSHA256 p -> challenge_kinds q = challenge_kinds p
  | _ => fun _ => True
  end.

(** A request that is for exactly the displayed intent, with an evidence. *)
Definition request_is (i : ExecutionIntent) (evidence : string) (r : Request) : Prop :=
  ReviewedEvidenceSHA256 r = evidence /\ req_Items r = ec_Name <$> ei_Certificates i
  /\ RuntimeIdentity (req_Context r) = ei_RuntimeIdentity i /\ RuntimeManifestID (req_Context r) = ei_RuntimeManifestID i
  /\ ConfigurationPath (req_Context r) = ei_ConfigurationPath i /\ StoragePath (req_Context r) = ei_StoragePath i
  /\ Forall2 (fun c d => ri_Name d = ec_Name c /\ ri_Account d = ec_Account c /\ ri_CA d = ec_CA c
                         /\ ri_ChallengeKind d = ec_ChallengeKind c /\ ri_ChallengeMode d = ec_ChallengeMode c)
       (ei_Certificates i) (req_Details r).
(** The plan behind a preview and the plan of the enqueue: the displayed intent is
    that of both, with one revision and evidence, and the request is for it - or
    the keyed digest gives one value for what was written for the two. *)
Definition enqueued_as_shown (service : Service) (preview : Preview) (before now : ExecutionPlan) (r : Request) : Prop :=
  (ep_Intent now = pv_Intent preview /\ ep_Revision now = ep_Revision before
     /\ request_is (pv_Intent preview) (ep_ReviewedEvidenceSHA256 before) r)
  \/ clash (hmac (sv_tokenKey service))
       (review_values (sv_policy service) (ep_Revision before) (ep_ReviewedEvidenceSHA256 before) (ep_Intent before))
       (review_values (sv_policy service) (ep_Revision now) (ep_ReviewedEvidenceSHA256 now) (ep_Intent now)).
Definition submitted_as_shown (service : Service) (h : list event) (x : result OpError Preview * option (result OpError Operation)) : Prop :=
  leases h = 0 /\ open_plans h = []
  /\ match x with
     | (Err _, None) => submissions h = []
     | (Ok preview, Some answer) =>
         pv_Policy preview = sv_policy service /\ accepted h = match answer with Ok o => [o] | Err _ => [] end
         /\ exists before rest, plans h = before :: rest /\ pv_Intent preview = ep_Intent before
         /\ forall kind request operation, (kind, request, operation) ∈ submissions h ->
              kind = KindManual /\ exists now, rest = [now] /\ enqueued_as_shown service preview before now request
     | _ => False
     end.

Lemma same_certificates (l : list ExecutionCertificate) : forall l', shown_certificate <$> l = shown_certificate <$> l' -> ec_ChallengeKind <$> l = ec_ChallengeKind <$> l' -> l = l'.
Proof.
  induction l as [|[] l IH]; intros [|[] l']; cbn; try done. unfold shown_certificate. cbn. intros [= -> -> -> -> -> -> Hs] [= -> Hk]. f_equal. by apply IH.
Qed.
Lemma same_accesses (l : list ExecutionCloudAccess) : forall l', shown_access <$> l = shown_access <$> l' -> l = l'.
Proof. induction l as [|[] l IH]; intros [|[] l']; cbn; try done. unfold shown_access. cbn. intros [= -> -> -> -> -> -> Hs]. f_equal. by apply IH. Qed.
Lemma request_of_plan p : request_is (ep_Intent p) (ep_ReviewedEvidenceSHA256 p) (requestFromPlan p).
Proof. unfold request_is, requestFromPlan. cbn. split_and!; try done. apply Forall2_fmap_r, Forall_Forall2_diag, Forall_forall. by intros. Qed.

Lemma token_shows_plan service before now : representable before -> representable now ->
  (ep_ReviewedEvidenceSHA256 before = ep_ReviewedEvidenceSHA256 now -> challenge_kinds before = challenge_kinds now) ->
  plan_token service now = plan_token service before ->
  enqueued_as_shown service (mk_preview (plan_token service before) (ep_Intent before) (sv_policy service)) before now (requestFromPlan now).
Proof.
  intros Hb Hn Hk Ht. destruct (plan_token_binds service before now Hb Hn (eq_sym Ht)) as [E|E]; [left|by right].
  unfold shown_plan, shown, challenge_kinds in *. destruct before as [hb ib rb eb ob nb], now as [hn inow rn en on nn]. cbn in *.
  injection E as -> -> Hw Hc Hp Hr Hm Hcs Hca. specialize (Hk eq_refl).
  assert (Hi : inow = ib).
  { destruct ib, inow. cbn in *. f_equal; try done; [by apply same_certificates|by apply same_accesses]. }
  subst inow. split_and!; [done..|]. apply (request_of_plan (mk_plan hn ib rn en on nn)).
Qed.

(** Step through a process: every branch of every answer. *)
Ltac step := first
  [ match goal with |- _ /\ forall _, _ => split; [|intros ? ?] end
  | match goal with r : result _ _ |- context [match ?r with Ok _ => _ | Err _ => _ end] => destruct r end
  | match goal with |- context [if ?b then _ else _] => destruct b eqn:? end ].
Ltac walk := repeat (cbn; step).
Lemma shut {A} (x : Z) (a b : A) : (if decide (x <> x) then a else b) = b.
Proof. by rewrite decide_False by auto. Qed.
Ltac close := unfold outcome, handed_over, accepted, submissions, leases, open_plans, plans; cbn; rewrite ?shut; cbn;
  repeat match goal with
  | H : _ || _ = false |- _ => apply orb_false_iff in H as []
  | H : negb (String.eqb _ _) = false |- _ => apply negb_false_iff, String.eqb_eq in H
  | r : result _ Operation |- _ => destruct r
  end; repeat match goal with |- _ /\ _ => split end; eauto.

(** Whatever the calls answer, a manual enqueue hands a request to the jobs at
    most once, and only after the workspace lease was given back and the plan
    closed, for a plan that was prepared under the lease and carries the token of
    the review, with the administrator's authorization checked last; a scheduled
    enqueue does the same for the plan it prepared.  Neither runs anything, and
    they answer an operation exactly when the jobs accepted it. *)
Theorem enqueue_submits_only_reviewed service guard reviewed :
  always plans_fit (may_enqueue service reviewed) (fun _ _ => False) outcome [] (Enqueue (Some service) guard reviewed)
  /\ always plans_fit may_schedule (fun _ _ => False) outcome [] (EnqueueScheduled (Some service)).
Proof. split; [unfold Enqueue, submit; walk; close|unfold EnqueueScheduled, submit; walk; close]. Qed.

(** C5: An operation enqueued under the token of a preview is the one that was
    shown.  The preview displays the intent of the plan behind it.  The request
    that is handed to the jobs, at most one and under a passed authorization,
    comes from a plan whose intent is exactly the displayed one, with the revision
    and the evidence of the plan behind the preview; the request names that
    evidence, the displayed runtime and paths, and each displayed certificate with
    its account, authority, challenge kind and mode.  Otherwise the keyed digest
    gives one value for what was written for exactly these two plans.  The kinds of
    challenge are not in the token: that plans of equal evidence have equal ones is
    a law of the answers. *)
Theorem preview_enqueues_what_was_shown service guard :
  always evidence_covers_kinds may_follow (fun _ _ => False) (submitted_as_shown service) [] (preview_and_enqueue service guard).
Proof.
  unfold preview_and_enqueue, ServicePreview, Enqueue, submit. walk; close.
  all: unfold submitted_as_shown, accepted, submissions, leases, open_plans, plans; cbn; rewrite ?shut; cbn; split_and!; try done.
  all: exists a0; eexists; split; [done|]; split; [done|]; intros kind request operation Hin; try by apply elem_of_nil in Hin.
  all: apply list_elem_of_singleton in Hin as [= -> -> ->]; split; [done|]; exists a2; split; [done|].
  all: repeat match goal with
    | H : forall p, Ok ?q = Ok p -> _ |- _ => specialize (H q eq_refl) as [? ?]
    | H : negb (String.eqb _ _) = false |- _ => apply negb_false_iff, String.eqb_eq in H
    end.
  all: apply token_shows_plan; auto. all: intros; match goal with H : forall q, q ∈ [_] -> _ |- _ => apply H; [by left|done] end.
Qed.

(** Every call succeeds and each plan shows the same. *)
Definition unchanged (plan : ExecutionPlan) (h : list event) (B : Type) (c : Call B) : B -> Prop :=
  match c in Call B return B -> Prop with
  | TryAcquire _ => fun r => r = Ok tt
  | Release => fun r => r = Ok tt
  | Authorize => fun r => r = Ok tt
  | PrepareExecution => fun r => exists p, r = Ok p /\ ep_Revision p = ep_Revision plan
                                   /\ ep_ReviewedEvidenceSHA256 p = ep_ReviewedEvidenceSHA256 plan /\ ep_Intent p = ep_Intent plan
  | Submit _ _ => fun r => is_ok r = true
  | _ => fun _ => True
  end.

(** A preview whose plan does not change is accepted: when every call
    succeeds and the plan is prepared anew with the same content, the token of the
    preview enqueues the operation. *)
Theorem unchanged_review_is_accepted service plan :
  always (unchanged plan) (fun _ _ _ => True) (fun _ _ => False) (fun h r => exists o, r.2 = Some (Ok o) /\ accepted h = [o]) []
    (preview_and_enqueue service true).
Proof.
  unfold preview_and_enqueue, ServicePreview, Enqueue, submit. walk; auto; cbn in *; repeat match goal with
  | H : exists _, _ |- _ => destruct H as (? & ? & ? & ? & ?)
  | H : _ = Ok _ |- _ => first [discriminate H | injection H as ->]
  end; subst; try done.
  - match goal with H : negb (validReviewToken _) = true |- _ => unfold plan_token, reviewToken in H; by rewrite token_valid in H end.
  - match goal with H : negb (String.eqb _ _) = true |- _ => apply negb_true_iff, String.eqb_neq in H; destruct H end.
    unfold plan_token. congruence.
  - destruct b3; [eauto|done].
Qed.
End Reviewed.
