(* ===== verification/IntegTypes.v ===== *)
(** Curated integrations, data (internal/integrations/types.go, manifest.go):
    typed field values, the rules of a field, logical fields with their native
    selectors, and the manifests that collect them. *)
From stdpp Require Import gmap.
From S2P Require Import Prelude.
From S2P Require Import GoText.
From S2P Require Import DotenvScan.

#[local] Open Scope string_scope.
#[local] Open Scope Z_scope.

Abbreviation FieldID := string.
Abbreviation BindingID := string.
Abbreviation check := (result string unit).

(** Texts other than the four kinds can be written in the source, and are
    refused. *)
Inductive FieldKind := FieldString | FieldBoolean | FieldInteger | FieldStringList | OtherKind (text : string).
Inductive FieldTarget := TargetYAML | TargetDotenv | OtherTarget (text : string).
Inductive Sensitivity := SensitivityPublic | SensitivitySecret | OtherSensitivity (text : string).
Inductive Disposition := DispositionManaged | DispositionPreservedSafe | OtherDisposition (text : string).
#[export] Instance FieldKind_eq_dec : EqDecision FieldKind.
Proof. solve_decision. Defined.
#[export] Instance FieldTarget_eq_dec : EqDecision FieldTarget.
Proof. solve_decision. Defined.
#[export] Instance Sensitivity_eq_dec : EqDecision Sensitivity.
Proof. solve_decision. Defined.
#[export] Instance Disposition_eq_dec : EqDecision Disposition.
Proof. solve_decision. Defined.

Definition FieldKind_text (k : FieldKind) : string :=
  match k with
  | FieldString => "string" | FieldBoolean => "boolean" | FieldInteger => "integer" | FieldStringList => "string_list" | OtherKind text => text
  end.
Definition maximumSafeInteger : Z := Z.shiftl 1 53 - 1.

(** ** Values *)

(** The zero value of the type has no kind. *)
Inductive Value :=
| StringValue (text : string) | BooleanValue (b : bool) | IntegerValue (n : Z) | StringListValue (l : list string) | NoValue.
#[export] Instance Value_eq_dec : EqDecision Value.
Proof. solve_decision. Defined.
Definition Kind (v : Value) : FieldKind :=
  match v with
  | StringValue _ => FieldString | BooleanValue _ => FieldBoolean | IntegerValue _ => FieldInteger
  | StringListValue _ => FieldStringList | NoValue => OtherKind ""
  end.
Definition value_String (v : Value) : option string := match v with StringValue text => Some text | _ => None end.
Definition value_Boolean (v : Value) : option bool := match v with BooleanValue b => Some b | _ => None end.
Definition value_Integer (v : Value) : option Z := match v with IntegerValue n => Some n | _ => None end.
Definition value_StringList (v : Value) : option (list string) := match v with StringListValue l => Some l | _ => None end.

(** ** Texts *)

(** [character < 0x20 || character == 0x7f] on every rune. *)
Definition printable (l : bytes) : bool := forallb (fun r => negb ((r <? 32) || (r =? 127))) (runes l).
Definition managed_text (l : bytes) : bool := utf8_valid l && printable l.
Definition validManagedText (value : string) (allowEmpty : bool) : bool :=
  if String.eqb value "" then allowEmpty else managed_text (to_bytes value).

Definition lower_or (more : ascii -> bool) (l : bytes) : bool :=
  match l with c :: l => is_lower_ascii c && forallb (fun c => is_lower_ascii c || more c) l | [] => false end.
Definition digit_or_underscore (c : ascii) : bool := is_digit c || Ascii.eqb c "_".
(** [[a-z][a-z0-9_]*] *)
Definition word (l : bytes) : bool := lower_or digit_or_underscore l.
Definition validFieldID (value : FieldID) : bool :=
  (slen value <=? 128) && let parts := split_on "." (to_bytes value) in (1 <? blen parts) && forallb word parts.
Definition validBindingID (value : BindingID) : bool := (slen value <=? 64) && word (to_bytes value).
Definition is_letter (c : ascii) : bool := is_lower_ascii c || is_upper_ascii c.
Definition binding_char (c : ascii) : bool :=
  is_letter c || is_digit c || existsb (Ascii.eqb c) (to_bytes "._@-").
Definition validBindingValue (value : string) : bool :=
  (slen value <=? 64)
  && match to_bytes value with c :: l => (is_letter c || is_digit c) && forallb binding_char l | [] => false end.
Definition environment_key (value : string) : bool :=
  match to_bytes value with
  | c :: l => is_upper_ascii c && forallb (fun c => is_upper_ascii c || digit_or_underscore c) l
  | [] => false
  end.
Definition trimmed (l : bytes) : bool := bool_decide (TrimSpace l = l).
Definition validYAMLKey (value : string) : bool :=
  negb (String.eqb value "") && (slen value <=? 256) && utf8_valid (to_bytes value) && trimmed (to_bytes value) && printable (to_bytes value).

(** ** Rules *)

Record Rules := mk_rules {
  AllowEmpty : bool; MinBytes : Z; MaxBytes : Z; MinItems : Z; MaxItems : Z;
  Minimum : option Z; Maximum : option Z; Enum : list string;
}.
Definition no_rules : Rules := mk_rules false 0 0 0 0 None None [].

Fixpoint sorted_texts (l : list string) : bool :=
  match l with x :: (y :: _) as l => text_le (to_bytes x) (to_bytes y) && sorted_texts l | _ => true end.
Fixpoint enum_items (whole seen l : list string) : check :=
  match l with
  | [] => Ok tt
  | x :: l =>
      _ ← reject_if (String.eqb x "" || negb (sorted_texts whole)) "enum is empty or unsorted";
      _ ← reject_if (bool_decide (x ∈ seen)) "enum contains a duplicate";
      enum_items whole (x :: seen) l
  end.
Definition inverted (low high : option Z) : bool := match low, high with Some low, Some high => high <? low | _, _ => false end.
Definition rules_validate (r : Rules) (kind : FieldKind) : check :=
  _ ← reject_if ((MinBytes r <? 0) || (MaxBytes r <? 0) || (MinItems r <? 0) || (MaxItems r <? 0)) "negative rule bound";
  _ ← reject_if ((0 <? MaxBytes r) && (MaxBytes r <? MinBytes r)) "string bounds are inverted";
  _ ← reject_if ((0 <? MaxItems r) && (MaxItems r <? MinItems r)) "list bounds are inverted";
  _ ← reject_if (inverted (Minimum r) (Maximum r)) "integer bounds are inverted";
  _ ← reject_if ((0 <? blen (Enum r)) && negb (bool_decide (kind = FieldString))) "enum requires a string field";
  enum_items (Enum r) [] (Enum r).

(** ** Fields *)

(** [YAMLKey] and [YAMLBinding]; one of the two texts of a segment. *)
Inductive SelectorSegment := YAMLKey (key : string) | YAMLBinding (binding : BindingID).
#[export] Instance SelectorSegment_eq_dec : EqDecision SelectorSegment.
Proof. solve_decision. Defined.

Record FieldDefinition := mk_definition {
  fd_ID : FieldID; fd_Label : string; fd_Kind : FieldKind; fd_Target : FieldTarget; fd_Sensitivity : Sensitivity;
  fd_Disposition : Disposition; fd_Selector : list SelectorSegment; fd_EnvironmentKey : string; fd_PruneEmptyParents : bool;
  fd_Default : option Value; fd_Rules : Rules;
}.
Record FieldSpec := mk_spec {
  fs_id : FieldID; fs_label : string; fs_kind : FieldKind; fs_target : FieldTarget; fs_sensitivity : Sensitivity;
  fs_disposition : Disposition; fs_selector : list SelectorSegment; fs_environmentKey : string; fs_pruneEmpty : bool;
  fs_bindings : list BindingID; fs_default : option Value; fs_rules : Rules;
}.

Definition outside_bytes (r : Rules) (n : Z) : bool := (n <? MinBytes r) || ((0 <? MaxBytes r) && (MaxBytes r <? n)).
Fixpoint validate_list_items (r : Rules) (l : list string) : check :=
  match l with
  | [] => Ok tt
  | item :: l =>
      _ ← reject_if (negb (AllowEmpty r) && String.eqb item "") "list item must not be empty";
      _ ← reject_if (outside_bytes r (slen item)) "list item length is outside field bounds";
      _ ← reject_if (negb (validManagedText item (AllowEmpty r))) "list item contains unsupported text";
      validate_list_items r l
  end.
Definition below (n : Z) (bound : option Z) : bool := match bound with Some b => n <? b | None => false end.
Definition above (n : Z) (bound : option Z) : bool := match bound with Some b => b <? n | None => false end.

Definition validate_value (kind : FieldKind) (r : Rules) (v : Value) : check :=
  _ ← reject_if (negb (bool_decide (Kind v = kind))) "value kind does not match field";
  match v with
  | StringValue text =>
      _ ← reject_if (negb (AllowEmpty r) && String.eqb text "") "value must not be empty";
      _ ← reject_if (negb (validManagedText text (AllowEmpty r))) "value contains unsupported text";
      _ ← reject_if (outside_bytes r (slen text)) "value length is outside field bounds";
      reject_if ((0 <? blen (Enum r)) && negb (bool_decide (text ∈ Enum r))) "value is outside the field enum"
  | StringListValue l =>
      _ ← reject_if (negb (AllowEmpty r) && (blen l =? 0)) "value must not be empty";
      _ ← reject_if ((blen l <? MinItems r) || ((0 <? MaxItems r) && (MaxItems r <? blen l))) "list length is outside field bounds";
      validate_list_items r l
  | IntegerValue n => reject_if (below n (Minimum r) || above n (Maximum r)) "integer is outside field bounds"
  | BooleanValue _ => Ok tt
  | NoValue => Err "field kind is invalid"
  end.
Definition ValidateValue (s : FieldSpec) (v : Value) : check := validate_value (fs_kind s) (fs_rules s) v.

Definition ValidateDotenvBytes (s : FieldSpec) (value : bytes) : check :=
  let r := fs_rules s in
  _ ← reject_if (negb (bool_decide (fs_target s = TargetDotenv)) || negb (bool_decide (fs_kind s = FieldString))) "field is not a managed dotenv value";
  _ ← reject_if (negb (AllowEmpty r) && (blen value =? 0)) "value must not be empty";
  _ ← reject_if (negb (utf8_valid value) || negb (printable value)) "value contains unsupported text";
  _ ← reject_if (outside_bytes r (blen value)) "value length is outside field bounds";
  reject_if (negb (blen (Enum r) =? 0) && negb (bool_decide (value ∈ (to_bytes <$> Enum r)))) "value is outside the field enum".
Definition ValidateSecretBytes (s : FieldSpec) (value : bytes) : check :=
  _ ← reject_if (negb (bool_decide (fs_sensitivity s = SensitivitySecret))) "field is not a managed dotenv secret";
  ValidateDotenvBytes s value.

Definition is_known_kind (k : FieldKind) : bool := match k with OtherKind _ => false | _ => true end.

Fixpoint selector_bindings (bindings : list BindingID) (l : list SelectorSegment) : result string (list BindingID) :=
  match l with
  | [] => Ok bindings
  | YAMLKey key :: l =>
      _ ← reject_if (String.eqb key "") "selector segment must name one key or binding";
      _ ← reject_if (negb (validYAMLKey key)) "invalid YAML selector key";
      selector_bindings bindings l
  | YAMLBinding b :: l =>
      _ ← reject_if (String.eqb b "") "selector segment must name one key or binding";
      _ ← reject_if (negb (validBindingID b) || bool_decide (b ∈ bindings)) "invalid or duplicate selector binding";
      selector_bindings (bindings ++ [b])%list l
  end.

Definition validateWireRules (d : FieldDefinition) : check :=
  let r := fd_Rules d in
  _ ← (match fd_Kind d with
       | FieldString =>
           let maximum := if bool_decide (fd_Sensitivity d = SensitivitySecret) then Z.shiftl 64 10 else 4096 in
           reject_if ((MaxBytes r <=? 0) || (maximum <? MaxBytes r)) "string field exceeds the shared wire bound"
       | FieldStringList =>
           reject_if ((MaxItems r <=? 0) || (256 <? MaxItems r) || (MaxBytes r <=? 0) || (4096 <? MaxBytes r)) "list field exceeds the shared wire bound"
       | FieldInteger =>
           match Minimum r, Maximum r with
           | Some low, Some high => reject_if ((low <? - maximumSafeInteger) || (maximumSafeInteger <? high)) "integer field exceeds the shared wire bound"
           | _, _ => Err "integer field exceeds the shared wire bound"
           end
       | _ => Ok tt
       end);
  for_each (fun item => reject_if (negb (validManagedText item false) || (4096 <? slen item)) "field enum is not safe for the shared wire contract") (Enum r).

Definition validate_target (d : FieldDefinition) : check :=
  match fd_Target d with
  | TargetYAML => reject_if (negb (String.eqb (fd_EnvironmentKey d) "")) "YAML field has an environment key"
  | TargetDotenv =>
      _ ← reject_if ((128 <? slen (fd_EnvironmentKey d)) || negb (environment_key (fd_EnvironmentKey d))) "dotenv field has an invalid environment key";
      reject_if (negb (bool_decide (fd_Kind d = FieldString))) "dotenv field must be a string"
  | OtherTarget _ => Err "invalid field target"
  end.
Definition validate_sensitivity (d : FieldDefinition) : check :=
  match fd_Sensitivity d with
  | SensitivityPublic => Ok tt
  | SensitivitySecret => reject_if (negb (bool_decide (fd_Kind d = FieldString))) "secret field must be a string"
  | OtherSensitivity _ => Err "invalid field sensitivity"
  end.
Definition validate_default (d : FieldDefinition) : check :=
  match fd_Default d with
  | None => Ok tt
  | Some v =>
      _ ← reject_if (bool_decide (fd_Sensitivity d = SensitivitySecret)) "secret field has a default";
      map_err (fun e => "invalid field default: " +:+ e) (validate_value (fd_Kind d) (fd_Rules d) v)
  end.

Definition NewFieldSpec (d : FieldDefinition) : result string FieldSpec :=
  let label := to_bytes (fd_Label d) in
  _ ← reject_if (negb (validFieldID (fd_ID d))) "invalid field ID";
  _ ← reject_if ((blen label =? 0) || (128 <? blen label) || negb (utf8_valid label) || negb (trimmed label) || negb (printable label)) "invalid field label";
  _ ← reject_if (negb (is_known_kind (fd_Kind d))) "invalid field kind";
  _ ← validate_target d;
  _ ← validate_sensitivity d;
  _ ← reject_if (match fd_Disposition d with OtherDisposition _ => true | _ => false end) "invalid field disposition";
  _ ← reject_if ((blen (fd_Selector d) =? 0) || (16 <? blen (fd_Selector d))) "invalid selector length";
  bindings ← selector_bindings [] (fd_Selector d);
  _ ← map_err (fun e => "invalid field rules: " +:+ e) (rules_validate (fd_Rules d) (fd_Kind d));
  _ ← validateWireRules d;
  _ ← validate_default d;
  Ok (mk_spec (fd_ID d) (fd_Label d) (fd_Kind d) (fd_Target d) (fd_Sensitivity d) (fd_Disposition d) (fd_Selector d) (fd_EnvironmentKey d)
        (fd_PruneEmptyParents d) bindings (fd_Default d) (fd_Rules d)).

Definition Editable (s : FieldSpec) : bool := bool_decide (fs_disposition s = DispositionManaged).

(** ** Paths *)

(** The bindings of a native path, if the selector matches it. *)
Fixpoint match_segments (selector : list SelectorSegment) (path : list string) (bindings : gmap BindingID string) : option (gmap BindingID string) :=
  match selector, path with
  | YAMLKey key :: selector, x :: path => if String.eqb x key then match_segments selector path bindings else None
  | YAMLBinding b :: selector, x :: path => if validBindingValue x then match_segments selector path (<[b := x]> bindings) else None
  | _, _ => Some bindings
  end.
Definition Match (s : FieldSpec) (path : list string) : option (gmap BindingID string) :=
  if blen path =? blen (fs_selector s) then match_segments (fs_selector s) path ∅ else None.

Fixpoint prefix_segments (selector : list SelectorSegment) (path : list string) : bool :=
  match path, selector with
  | [], _ => true
  | x :: path, YAMLKey key :: selector => String.eqb x key && prefix_segments selector path
  | x :: path, YAMLBinding _ :: selector => validBindingValue x && prefix_segments selector path
  | _ :: _, [] => false
  end.
Definition HasPathPrefix (s : FieldSpec) (path : list string) : bool := prefix_segments (fs_selector s) path.

Fixpoint resolve_segments (bindings : gmap BindingID string) (selector : list SelectorSegment) : result string (list string) :=
  match selector with
  | [] => Ok []
  | YAMLKey key :: selector => path ← resolve_segments bindings selector; Ok (key :: path)
  | YAMLBinding b :: selector =>
      match bindings !! b with
      | Some value =>
          _ ← reject_if (negb (validBindingValue value)) "field binding is missing or invalid";
          path ← resolve_segments bindings selector; Ok (value :: path)
      | None => Err "field binding is missing or invalid"
      end
  end.
Definition Resolve (s : FieldSpec) (bindings : gmap BindingID string) : result string (list string) :=
  _ ← reject_if (negb (bool_decide (size bindings = List.length (fs_bindings s)))) "field bindings are incomplete";
  path ← resolve_segments bindings (fs_selector s);
  _ ← reject_if (negb (bool_decide (dom bindings ⊆ list_to_set (fs_bindings s)))) "field binding is not declared";
  Ok path.

(** ** Manifests *)

Record Manifest := mk_manifest { mf_id : string; mf_runtimeIDs : list string; mf_fields : gmap FieldID FieldSpec }.

Definition sameNativeTarget (left right : FieldSpec) : bool :=
  bool_decide (fs_target left = fs_target right) && bool_decide (fs_selector left = fs_selector right)
  && (bool_decide (fs_target left = TargetYAML) || String.eqb (fs_environmentKey left) (fs_environmentKey right)).

Fixpoint add_fields (m : gmap FieldID FieldSpec) (l : list FieldSpec) : result string (gmap FieldID FieldSpec) :=
  match l with
  | [] => Ok m
  | f :: l =>
      _ ← reject_if (negb (validFieldID (fs_id f)) || (blen (fs_selector f) =? 0)) "manifest contains an invalid field";
      _ ← reject_if (bool_decide (is_Some (m !! fs_id f))) "manifest contains duplicate field ID";
      _ ← reject_if (existsb (fun p => sameNativeTarget p.2 f) (map_to_list m)) "manifest maps two fields to one selector";
      add_fields (<[fs_id f := f]> m) l
  end.
Definition id_le (a b : string) : bool := text_le (to_bytes a) (to_bytes b).
Fixpoint repeated (l : list string) : bool :=
  match l with x :: (y :: _) as l => String.eqb x y || repeated l | _ => false end.

Definition NewManifest (id : string) (runtimeIDs : list string) (fields : list FieldSpec) : result string Manifest :=
  _ ← reject_if ((slen id =? 0) || (128 <? slen id) || negb (trimmed (to_bytes id))) "invalid manifest ID";
  _ ← reject_if (blen runtimeIDs =? 0) "manifest has no runtime identities";
  let runtimeIDs := sort_by id_le runtimeIDs in
  _ ← reject_if (existsb (String.eqb "") runtimeIDs || repeated runtimeIDs) "runtime identities are empty or duplicate";
  m ← add_fields ∅ fields;
  Ok (mk_manifest id runtimeIDs m).

Definition SupportsRuntime (m : Manifest) (id : string) : bool := bool_decide (id ∈ mf_runtimeIDs m).
Definition spec_le (a b : FieldSpec) : bool := id_le (fs_id a) (fs_id b).
Definition Fields (m : Manifest) : list FieldSpec := sort_by spec_le (snd <$> map_to_list (mf_fields m)).
Definition Extend (m : Manifest) (id : string) (fields : list FieldSpec) : result string Manifest :=
  NewManifest id (mf_runtimeIDs m) (Fields m ++ fields).

Fixpoint first_match (target : FieldTarget) (path : list string) (l : list FieldSpec) : option (FieldSpec * gmap BindingID string) :=
  match l with
  | [] => None
  | f :: l =>
      if bool_decide (fs_target f = target) then
        match Match f path with Some bindings => Some (f, bindings) | None => first_match target path l end
      else first_match target path l
  end.
Definition MatchTarget (m : Manifest) (path : list string) (target : FieldTarget) : option (FieldSpec * gmap BindingID string) :=
  first_match target path (Fields m).
Definition Manifest_Match (m : Manifest) (path : list string) : option (FieldSpec * gmap BindingID string) := MatchTarget m path TargetYAML.
Definition HasPathPrefixForTarget (m : Manifest) (path : list string) (target : FieldTarget) : bool :=
  existsb (fun f => bool_decide (fs_target f = target) && HasPathPrefix f path) (Fields m).
