(* ===== verification/IntegFields.v ===== *)
(** The curated manifests (internal/integrations/base.go, core.go,
    core_dns.go, cloud_dns.go): every field identifier and the four builders,
    each an extension of the one before. *)
From stdpp Require Import gmap.
From S2P Require Import Prelude.
From S2P Require Import GoText.
From S2P Require Import GoTime.
From S2P Require Import GoDecode.
From S2P Require Import WsInspect.
From S2P Require Import IntegTypes.

#[local] Open Scope string_scope.
#[local] Open Scope Z_scope.

(** ** Identifiers *)

Definition BaseManifestID : string := "native-base-v1".
Definition FieldWorkspaceStorage : string := "workspace.storage".
Definition CoreManifestID : string := "native-ca-certificate-http-v1".
Definition FieldAccountServer : string := "account.server".
Definition FieldAccountEmail : string := "account.email".
Definition FieldAccountKeyType : string := "account.key_type".
Definition FieldAccountAcceptsTerms : string := "account.accepts_terms_of_service".
Definition FieldAccountEABKID : string := "account.eab.kid".
Definition FieldAccountEABHMACKey : string := "account.eab.hmac_key".
Definition FieldCertificateDomains : string := "certificate.domains".
Definition FieldCertificateKeyType : string := "certificate.key_type".
Definition FieldCertificateAccount : string := "certificate.account".
Definition FieldCertificateChallenge : string := "certificate.challenge".
Definition FieldCertificateRenewDays : string := "certificate.renew.days".
Definition FieldCertificateRenewReuseKey : string := "certificate.renew.reuse_key".
Definition FieldCertificateRenewRandomSleep : string := "certificate.renew.disable_random_sleep".
Definition FieldCertificateRenewARIDisable : string := "certificate.renew.ari.disable".
Definition FieldCertificateRenewARIWait : string := "certificate.renew.ari.wait_to_renew_duration".
Definition FieldChallengeHTTPAddress : string := "challenge.http.address".
Definition FieldChallengeHTTPDelay : string := "challenge.http.delay".
Definition FieldChallengeHTTPProxyHeader : string := "challenge.http.proxy_header".
Definition FieldChallengeHTTPWebroot : string := "challenge.http.webroot".
Definition BindingAccount : string := "account".
Definition BindingCertificate : string := "certificate".
Definition BindingChallenge : string := "challenge".
Definition CoreDNSManifestID : string := "native-core-dns-providers-v1".
Definition FieldChallengeDNSProvider : string := "challenge.dns.provider".
Definition FieldChallengeDNSTimeout : string := "challenge.dns.dns_timeout".
Definition FieldChallengeDNSResolvers : string := "challenge.dns.resolvers".
Definition FieldChallengeDNSEnvFile : string := "challenge.dns.env_file".
Definition FieldChallengeDNSDisableAuthoritativeNameservers : string := "challenge.dns.propagation.disable_authoritative_nameservers".
Definition FieldChallengeDNSDisableRecursiveNameservers : string := "challenge.dns.propagation.disable_recursive_nameservers".
Definition FieldChallengeDNSPropagationWait : string := "challenge.dns.propagation.wait".
Definition FieldCloudflareEmail : string := "provider.cloudflare.email".
Definition FieldCloudflareAPIKey : string := "provider.cloudflare.api_key".
Definition FieldCloudflareDNSAPIToken : string := "provider.cloudflare.dns_api_token".
Definition FieldCloudflareZoneAPIToken : string := "provider.cloudflare.zone_api_token".
Definition FieldCloudflareEmailAlias : string := "provider.cloudflare.email_alias".
Definition FieldCloudflareAPIKeyAlias : string := "provider.cloudflare.api_key_alias".
Definition FieldCloudflareDNSAPITokenAlias : string := "provider.cloudflare.dns_api_token_alias".
Definition FieldCloudflareZoneAPITokenAlias : string := "provider.cloudflare.zone_api_token_alias".
Definition FieldCloudflareBaseURL : string := "provider.cloudflare.base_url".
Definition FieldCloudflareTTL : string := "provider.cloudflare.ttl".
Definition FieldCloudflarePropagationTimeout : string := "provider.cloudflare.propagation_timeout".
Definition FieldCloudflarePollingInterval : string := "provider.cloudflare.polling_interval".
Definition FieldCloudflareHTTPTimeout : string := "provider.cloudflare.http_timeout".
Definition FieldDigitalOceanAuthToken : string := "provider.digitalocean.auth_token".
Definition FieldDigitalOceanAPIURL : string := "provider.digitalocean.api_url".
Definition FieldDigitalOceanTTL : string := "provider.digitalocean.ttl".
Definition FieldDigitalOceanPropagationTimeout : string := "provider.digitalocean.propagation_timeout".
Definition FieldDigitalOceanPollingInterval : string := "provider.digitalocean.polling_interval".
Definition FieldDigitalOceanHTTPTimeout : string := "provider.digitalocean.http_timeout".
Definition FieldDuckDNSToken : string := "provider.duckdns.token".
Definition FieldDuckDNSPropagationTimeout : string := "provider.duckdns.propagation_timeout".
Definition FieldDuckDNSPollingInterval : string := "provider.duckdns.polling_interval".
Definition FieldDuckDNSHTTPTimeout : string := "provider.duckdns.http_timeout".
Definition FieldDuckDNSSequenceInterval : string := "provider.duckdns.sequence_interval".
Definition CloudDNSManifestID : string := "native-cloud-dns-providers-v1".
Definition FieldAzureEnvironment : string := "provider.azuredns.environment".
Definition FieldAzureSubscriptionID : string := "provider.azuredns.subscription_id".
Definition FieldAzureResourceGroup : string := "provider.azuredns.resource_group".
Definition FieldAzureZoneName : string := "provider.azuredns.zone_name".
Definition FieldAzurePrivateZone : string := "provider.azuredns.private_zone".
Definition FieldAzureAuthMethod : string := "provider.azuredns.auth_method".
Definition FieldAzureTenantID : string := "provider.azuredns.tenant_id".
Definition FieldAzureClientID : string := "provider.azuredns.client_id".
Definition FieldAzureClientSecret : string := "provider.azuredns.client_secret".
Definition FieldAzureClientCertificatePath : string := "provider.azuredns.client_certificate_path".
Definition FieldAzureClientCertificatePassword : string := "provider.azuredns.client_certificate_password".
Definition FieldAzureFederatedTokenFile : string := "provider.azuredns.federated_token_file".
Definition FieldAzureMSITimeout : string := "provider.azuredns.msi_timeout".
Definition FieldAzureOIDCToken : string := "provider.azuredns.oidc_token".
Definition FieldAzureOIDCTokenFile : string := "provider.azuredns.oidc_token_file".
Definition FieldAzureOIDCRequestURL : string := "provider.azuredns.oidc_request_url".
Definition FieldAzureOIDCRequestToken : string := "provider.azuredns.oidc_request_token".
Definition FieldAzureServiceConnectionID : string := "provider.azuredns.service_connection_id".
Definition FieldAzureSystemAccessToken : string := "provider.azuredns.system_access_token".
Definition FieldAzureSystemOIDCRequestURI : string := "provider.azuredns.system_oidc_request_uri".
Definition FieldAzureCLIPath : string := "provider.azuredns.cli_path".
Definition FieldAzureCLIConfigDirectory : string := "provider.azuredns.cli_config_directory".
Definition FieldAzureIMDSEndpoint : string := "provider.azuredns.imds_endpoint".
Definition FieldAzureIdentityEndpoint : string := "provider.azuredns.identity_endpoint".
Definition FieldAzureTTL : string := "provider.azuredns.ttl".
Definition FieldAzurePropagationTimeout : string := "provider.azuredns.propagation_timeout".
Definition FieldAzurePollingInterval : string := "provider.azuredns.polling_interval".
Definition FieldAWSAccessKeyID : string := "provider.route53.access_key_id".
Definition FieldAWSSecretAccessKey : string := "provider.route53.secret_access_key".
Definition FieldAWSSessionToken : string := "provider.route53.session_token".
Definition FieldAWSRegion : string := "provider.route53.region".
Definition FieldAWSHostedZoneID : string := "provider.route53.hosted_zone_id".
Definition FieldAWSProfile : string := "provider.route53.profile".
Definition FieldAWSSharedCredentialsFile : string := "provider.route53.shared_credentials_file".
Definition FieldAWSSDKLoadConfig : string := "provider.route53.sdk_load_config".
Definition FieldAWSEC2MetadataDisabled : string := "provider.route53.ec2_metadata_disabled".
Definition FieldAWSAssumeRoleARN : string := "provider.route53.assume_role_arn".
Definition FieldAWSExternalID : string := "provider.route53.external_id".
Definition FieldAWSPrivateZone : string := "provider.route53.private_zone".
Definition FieldAWSMaxRetries : string := "provider.route53.max_retries".
Definition FieldAWSWaitForRecordSetsChanged : string := "provider.route53.wait_for_record_sets_changed".
Definition FieldAWSTTL : string := "provider.route53.ttl".
Definition FieldAWSPropagationTimeout : string := "provider.route53.propagation_timeout".
Definition FieldAWSPollingInterval : string := "provider.route53.polling_interval".

(** The runtimes of internal/compatibility the manifests are written for. *)
Definition ManifestLegoV531 : string := "lego-v5.3.1".
Definition ManifestLegoRevision2A58 : string := "lego-revision-2a58c3522708".

(** ** Builders *)

(** [mustField] stops the program where this answers an error. *)
Definition mustFields (l : list FieldDefinition) : result string (list FieldSpec) := mapM NewFieldSpec l.
Definition appendSelector (prefix : list SelectorSegment) (keys : list string) : list SelectorSegment := (prefix ++ (YAMLKey <$> keys))%list.
Definition yaml_field (id : FieldID) (label : string) (kind : FieldKind) (sensitivity : Sensitivity) (selector : list SelectorSegment) (prune : bool)
    (default : option Value) (rules : Rules) : FieldDefinition :=
  mk_definition id label kind TargetYAML sensitivity DispositionManaged selector "" prune default rules.
Definition dotenvField (id : FieldID) (label : string) (sensitivity : Sensitivity) (selector : list SelectorSegment) (key : string) (maximum : Z)
    : FieldDefinition :=
  mk_definition id label FieldString TargetDotenv sensitivity DispositionManaged selector key false None
    (mk_rules false 0 maximum 0 0 None None []).

Definition AcceptedCAServerValues : list string :=
  sort_by id_le [
    "googletrust";
    "googletrust-staging";
    "https://acme-staging-v02.api.letsencrypt.org/directory";
    "https://acme.godaddy.com/v1/acme/directory";
    "https://acme.ssl.com/sslcom-dv-ecc";
    "https://acme.ssl.com/sslcom-dv-rsa";
    "https://acme.zerossl.com/v2/DV90";
    "https://acme-v02.api.letsencrypt.org/directory";
    "https://dv.acme-v02.api.pki.goog/directory";
    "https://dv.acme-v02.test-api.pki.goog/directory";
    "letsencrypt";
    "letsencrypt-staging";
    "sslcomecc";
    "sslcomrsa";
    "zerossl"].

Definition SupportedCoreDNSProviders : list string := ["cloudflare"; "digitalocean"; "duckdns"].
Definition SupportedDNSProviders : list string := ["azuredns"; "cloudflare"; "digitalocean"; "duckdns"; "route53"].
Definition SupportsCoreDNSProvider (code : string) : bool := existsb (String.eqb code) SupportedDNSProviders.
Definition keyTypes : list string := ["EC256"; "EC384"; "RSA2048"; "RSA4096"; "RSA8192"].

Definition buildBaseManifest : result string Manifest :=
  storage ← mustFields [yaml_field FieldWorkspaceStorage "Workspace storage" FieldString SensitivityPublic [YAMLKey "storage"] false
                          (Some (StringValue ".lego")) (mk_rules false 0 4095 0 0 None None [])];
  NewManifest BaseManifestID [ManifestLegoRevision2A58; ManifestLegoV531] storage.

Definition account : list SelectorSegment := [YAMLKey "accounts"; YAMLBinding BindingAccount].
Definition certificate : list SelectorSegment := [YAMLKey "certificates"; YAMLBinding BindingCertificate].
Definition challenge : list SelectorSegment := [YAMLKey "challenges"; YAMLBinding BindingChallenge; YAMLKey "http"].
Definition core_fields : list FieldDefinition := [
   yaml_field FieldAccountServer "ACME server" FieldString SensitivityPublic (appendSelector account ["server"]) false
     None (mk_rules false 0 2048 0 0 None None AcceptedCAServerValues);
   yaml_field FieldAccountEmail "Account email" FieldString SensitivityPublic (appendSelector account ["email"]) false
     None (mk_rules false 0 254 0 0 None None []);
   yaml_field FieldAccountKeyType "Account key type" FieldString SensitivityPublic (appendSelector account ["keyType"]) false
     (Some (StringValue "EC256")) (mk_rules false 0 16 0 0 None None keyTypes);
   yaml_field FieldAccountAcceptsTerms "Terms of service accepted" FieldBoolean SensitivityPublic (appendSelector account ["acceptsTermsOfService"]) false
     (Some (BooleanValue false)) no_rules;
   yaml_field FieldAccountEABKID "External Account Binding key ID" FieldString SensitivityPublic (appendSelector account ["eab"; "kid"]) true
     None (mk_rules false 0 4096 0 0 None None []);
   yaml_field FieldAccountEABHMACKey "External Account Binding HMAC key" FieldString SensitivitySecret (appendSelector account ["eab"; "hmacKey"]) true
     None (mk_rules false 0 8192 0 0 None None []);
   yaml_field FieldCertificateDomains "Certificate DNS names" FieldStringList SensitivityPublic (appendSelector certificate ["domains"]) false
     None (mk_rules false 0 253 1 100 None None []);
   yaml_field FieldCertificateKeyType "Certificate key type" FieldString SensitivityPublic (appendSelector certificate ["keyType"]) false
     None (mk_rules false 0 16 0 0 None None keyTypes);
   yaml_field FieldCertificateAccount "Certificate account" FieldString SensitivityPublic (appendSelector certificate ["account"]) false
     None (mk_rules false 0 128 0 0 None None []);
   yaml_field FieldCertificateChallenge "Certificate challenge" FieldString SensitivityPublic (appendSelector certificate ["challenge"]) false
     None (mk_rules false 0 128 0 0 None None []);
   yaml_field FieldCertificateRenewDays "Renew with days remaining" FieldInteger SensitivityPublic (appendSelector certificate ["renew"; "days"]) false
     None (mk_rules false 0 0 0 0 (Some 0) (Some 365) []);
   yaml_field FieldCertificateRenewReuseKey "Reuse certificate key" FieldBoolean SensitivityPublic (appendSelector certificate ["renew"; "reuseKey"]) false
     (Some (BooleanValue false)) no_rules;
   yaml_field FieldCertificateRenewRandomSleep "Disable renewal random sleep" FieldBoolean SensitivityPublic (appendSelector certificate ["renew"; "disableRandomSleep"]) false
     (Some (BooleanValue false)) no_rules;
   yaml_field FieldCertificateRenewARIDisable "Disable ACME Renewal Information" FieldBoolean SensitivityPublic (appendSelector certificate ["renew"; "ari"; "disable"]) false
     (Some (BooleanValue false)) no_rules;
   yaml_field FieldCertificateRenewARIWait "Maximum ARI wait" FieldString SensitivityPublic (appendSelector certificate ["renew"; "ari"; "waitToRenewDuration"]) false
     (Some (StringValue "0s")) (mk_rules false 0 64 0 0 None None []);
   yaml_field FieldChallengeHTTPAddress "HTTP-01 listener address" FieldString SensitivityPublic (appendSelector challenge ["address"]) false
     (Some (StringValue ":80")) (mk_rules false 0 256 0 0 None None []);
   yaml_field FieldChallengeHTTPDelay "HTTP-01 validation delay" FieldString SensitivityPublic (appendSelector challenge ["delay"]) false
     (Some (StringValue "0s")) (mk_rules false 0 64 0 0 None None []);
   yaml_field FieldChallengeHTTPProxyHeader "HTTP-01 proxy domain header" FieldString SensitivityPublic (appendSelector challenge ["proxyHeader"]) false
     None (mk_rules false 0 64 0 0 None None []);
   yaml_field FieldChallengeHTTPWebroot "HTTP-01 webroot" FieldString SensitivityPublic (appendSelector challenge ["webroot"]) false
     None (mk_rules false 0 4095 0 0 None None [])].
Definition buildCoreManifest : result string Manifest :=
  base ← buildBaseManifest;
  fields ← mustFields core_fields;
  Extend base CoreManifestID fields.

Definition dns : list SelectorSegment := [YAMLKey "challenges"; YAMLBinding BindingChallenge; YAMLKey "dns"].
Definition envFile : list SelectorSegment := appendSelector dns ["envFile"].
Definition dns_fields (providers : list string) : list FieldDefinition := [
   yaml_field FieldChallengeDNSProvider "DNS provider" FieldString SensitivityPublic (appendSelector dns ["provider"]) false
     None (mk_rules false 0 32 0 0 None None providers);
   yaml_field FieldChallengeDNSTimeout "DNS resolver timeout" FieldInteger SensitivityPublic (appendSelector dns ["dnsTimeout"]) false
     (Some (IntegerValue 0)) (mk_rules false 0 0 0 0 (Some 0) (Some 600) []);
   yaml_field FieldChallengeDNSResolvers "Recursive DNS resolvers" FieldStringList SensitivityPublic (appendSelector dns ["resolvers"]) false
     None (mk_rules true 0 256 0 8 None None []);
   yaml_field FieldChallengeDNSEnvFile "Provider credential file" FieldString SensitivityPublic envFile false
     None (mk_rules false 0 4095 0 0 None None []);
   yaml_field FieldChallengeDNSDisableAuthoritativeNameservers "Disable authoritative nameserver checks" FieldBoolean SensitivityPublic (appendSelector dns ["propagation"; "disableAuthoritativeNameservers"]) false
     (Some (BooleanValue false)) no_rules;
   yaml_field FieldChallengeDNSDisableRecursiveNameservers "Disable recursive nameserver checks" FieldBoolean SensitivityPublic (appendSelector dns ["propagation"; "disableRecursiveNameservers"]) false
     (Some (BooleanValue false)) no_rules;
   yaml_field FieldChallengeDNSPropagationWait "Fixed propagation wait" FieldString SensitivityPublic (appendSelector dns ["propagation"; "wait"]) false
     (Some (StringValue "0s")) (mk_rules false 0 64 0 0 None None [])].
Definition provider_fields : list FieldDefinition := [
   dotenvField FieldCloudflareEmail "Cloudflare legacy account email" SensitivityPublic envFile "CLOUDFLARE_EMAIL" 254;
   dotenvField FieldCloudflareAPIKey "Cloudflare legacy global API key" SensitivitySecret envFile "CLOUDFLARE_API_KEY" 4096;
   dotenvField FieldCloudflareDNSAPIToken "Cloudflare DNS API token" SensitivitySecret envFile "CLOUDFLARE_DNS_API_TOKEN" 4096;
   dotenvField FieldCloudflareZoneAPIToken "Cloudflare zone API token" SensitivitySecret envFile "CLOUDFLARE_ZONE_API_TOKEN" 4096;
   dotenvField FieldCloudflareEmailAlias "Cloudflare legacy CF account email" SensitivityPublic envFile "CF_API_EMAIL" 254;
   dotenvField FieldCloudflareAPIKeyAlias "Cloudflare legacy CF global API key" SensitivitySecret envFile "CF_API_KEY" 4096;
   dotenvField FieldCloudflareDNSAPITokenAlias "Cloudflare CF DNS API token" SensitivitySecret envFile "CF_DNS_API_TOKEN" 4096;
   dotenvField FieldCloudflareZoneAPITokenAlias "Cloudflare CF zone API token" SensitivitySecret envFile "CF_ZONE_API_TOKEN" 4096;
   dotenvField FieldCloudflareBaseURL "Cloudflare API base URL" SensitivityPublic envFile "CLOUDFLARE_BASE_URL" 2048;
   dotenvField FieldCloudflareTTL "Cloudflare TXT TTL" SensitivityPublic envFile "CLOUDFLARE_TTL" 10;
   dotenvField FieldCloudflarePropagationTimeout "Cloudflare propagation timeout" SensitivityPublic envFile "CLOUDFLARE_PROPAGATION_TIMEOUT" 10;
   dotenvField FieldCloudflarePollingInterval "Cloudflare polling interval" SensitivityPublic envFile "CLOUDFLARE_POLLING_INTERVAL" 10;
   dotenvField FieldCloudflareHTTPTimeout "Cloudflare HTTP timeout" SensitivityPublic envFile "CLOUDFLARE_HTTP_TIMEOUT" 10;
   dotenvField FieldDigitalOceanAuthToken "DigitalOcean API token" SensitivitySecret envFile "DO_AUTH_TOKEN" 4096;
   dotenvField FieldDigitalOceanAPIURL "DigitalOcean API URL" SensitivityPublic envFile "DO_API_URL" 2048;
   dotenvField FieldDigitalOceanTTL "DigitalOcean TXT TTL" SensitivityPublic envFile "DO_TTL" 10;
   dotenvField FieldDigitalOceanPropagationTimeout "DigitalOcean propagation timeout" SensitivityPublic envFile "DO_PROPAGATION_TIMEOUT" 10;
   dotenvField FieldDigitalOceanPollingInterval "DigitalOcean polling interval" SensitivityPublic envFile "DO_POLLING_INTERVAL" 10;
   dotenvField FieldDigitalOceanHTTPTimeout "DigitalOcean HTTP timeout" SensitivityPublic envFile "DO_HTTP_TIMEOUT" 10;
   dotenvField FieldDuckDNSToken "DuckDNS account token" SensitivitySecret envFile "DUCKDNS_TOKEN" 4096;
   dotenvField FieldDuckDNSPropagationTimeout "DuckDNS propagation timeout" SensitivityPublic envFile "DUCKDNS_PROPAGATION_TIMEOUT" 10;
   dotenvField FieldDuckDNSPollingInterval "DuckDNS polling interval" SensitivityPublic envFile "DUCKDNS_POLLING_INTERVAL" 10;
   dotenvField FieldDuckDNSHTTPTimeout "DuckDNS HTTP timeout" SensitivityPublic envFile "DUCKDNS_HTTP_TIMEOUT" 10;
   dotenvField FieldDuckDNSSequenceInterval "DuckDNS sequential request interval" SensitivityPublic envFile "DUCKDNS_SEQUENCE_INTERVAL" 10].
Definition buildCoreDNSManifestForProviders (providers : list string) : result string Manifest :=
  core ← buildCoreManifest;
  fields ← mustFields (dns_fields providers ++ provider_fields)%list;
  Extend core CoreDNSManifestID fields.
Definition buildCoreDNSManifest : result string Manifest := buildCoreDNSManifestForProviders SupportedCoreDNSProviders.

Definition cloud_fields : list FieldDefinition := [
   dotenvField FieldAzureEnvironment "Azure cloud" SensitivityPublic envFile "AZURE_ENVIRONMENT" 32;
   dotenvField FieldAzureSubscriptionID "Azure subscription ID" SensitivityPublic envFile "AZURE_SUBSCRIPTION_ID" 128;
   dotenvField FieldAzureResourceGroup "Azure resource group" SensitivityPublic envFile "AZURE_RESOURCE_GROUP" 256;
   dotenvField FieldAzureZoneName "Azure DNS zone" SensitivityPublic envFile "AZURE_ZONE_NAME" 253;
   dotenvField FieldAzurePrivateZone "Azure private zone" SensitivityPublic envFile "AZURE_PRIVATE_ZONE" 5;
   dotenvField FieldAzureAuthMethod "Azure authentication method" SensitivityPublic envFile "AZURE_AUTH_METHOD" 16;
   dotenvField FieldAzureTenantID "Azure tenant ID" SensitivityPublic envFile "AZURE_TENANT_ID" 128;
   dotenvField FieldAzureClientID "Azure client ID" SensitivityPublic envFile "AZURE_CLIENT_ID" 128;
   dotenvField FieldAzureClientSecret "Azure client secret" SensitivitySecret envFile "AZURE_CLIENT_SECRET" 8192;
   dotenvField FieldAzureClientCertificatePath "Azure client certificate" SensitivityPublic envFile "AZURE_CLIENT_CERTIFICATE_PATH" 4095;
   dotenvField FieldAzureClientCertificatePassword "Azure client certificate password" SensitivitySecret envFile "AZURE_CLIENT_CERTIFICATE_PASSWORD" 4096;
   dotenvField FieldAzureFederatedTokenFile "Azure workload token file" SensitivityPublic envFile "AZURE_FEDERATED_TOKEN_FILE" 4095;
   dotenvField FieldAzureMSITimeout "Azure managed identity timeout" SensitivityPublic envFile "AZURE_AUTH_MSI_TIMEOUT" 10;
   dotenvField FieldAzureOIDCToken "Azure OIDC assertion" SensitivitySecret envFile "AZURE_OIDC_TOKEN" 65536;
   dotenvField FieldAzureOIDCTokenFile "Azure OIDC assertion file" SensitivityPublic envFile "AZURE_OIDC_TOKEN_FILE_PATH" 4095;
   dotenvField FieldAzureOIDCRequestURL "Azure OIDC request URL" SensitivityPublic envFile "AZURE_OIDC_REQUEST_URL" 2048;
   dotenvField FieldAzureOIDCRequestToken "Azure OIDC request token" SensitivitySecret envFile "AZURE_OIDC_REQUEST_TOKEN" 8192;
   dotenvField FieldAzureServiceConnectionID "Azure service connection ID" SensitivityPublic envFile "AZURE_SERVICE_CONNECTION_ID" 256;
   dotenvField FieldAzureSystemAccessToken "Azure pipeline system token" SensitivitySecret envFile "AZURE_SYSTEM_ACCESS_TOKEN" 8192;
   dotenvField FieldAzureSystemOIDCRequestURI "Azure pipeline OIDC endpoint" SensitivityPublic envFile "SYSTEM_OIDCREQUESTURI" 2048;
   dotenvField FieldAzureCLIPath "Azure CLI helper directory" SensitivityPublic envFile "PATH" 4095;
   dotenvField FieldAzureCLIConfigDirectory "Azure CLI configuration directory" SensitivityPublic envFile "AZURE_CONFIG_DIR" 4095;
   dotenvField FieldAzureIMDSEndpoint "Azure Arc IMDS endpoint" SensitivityPublic envFile "IMDS_ENDPOINT" 2048;
   dotenvField FieldAzureIdentityEndpoint "Azure Arc identity endpoint" SensitivityPublic envFile "IDENTITY_ENDPOINT" 2048;
   dotenvField FieldAzureTTL "Azure TXT TTL" SensitivityPublic envFile "AZURE_TTL" 10;
   dotenvField FieldAzurePropagationTimeout "Azure propagation timeout" SensitivityPublic envFile "AZURE_PROPAGATION_TIMEOUT" 10;
   dotenvField FieldAzurePollingInterval "Azure polling interval" SensitivityPublic envFile "AZURE_POLLING_INTERVAL" 10;
   dotenvField FieldAWSAccessKeyID "AWS access key ID" SensitivitySecret envFile "AWS_ACCESS_KEY_ID" 4096;
   dotenvField FieldAWSSecretAccessKey "AWS secret access key" SensitivitySecret envFile "AWS_SECRET_ACCESS_KEY" 4096;
   dotenvField FieldAWSSessionToken "AWS session token" SensitivitySecret envFile "AWS_SESSION_TOKEN" 16384;
   dotenvField FieldAWSRegion "AWS region" SensitivityPublic envFile "AWS_REGION" 64;
   dotenvField FieldAWSHostedZoneID "Route 53 hosted zone ID" SensitivityPublic envFile "AWS_HOSTED_ZONE_ID" 128;
   dotenvField FieldAWSProfile "AWS shared profile" SensitivityPublic envFile "AWS_PROFILE" 128;
   dotenvField FieldAWSSharedCredentialsFile "AWS shared credentials file" SensitivityPublic envFile "AWS_SHARED_CREDENTIALS_FILE" 4095;
   dotenvField FieldAWSSDKLoadConfig "AWS shared configuration loading" SensitivityPublic envFile "AWS_SDK_LOAD_CONFIG" 5;
   dotenvField FieldAWSEC2MetadataDisabled "AWS instance metadata disabled" SensitivityPublic envFile "AWS_EC2_METADATA_DISABLED" 5;
   dotenvField FieldAWSAssumeRoleARN "AWS assume-role ARN" SensitivityPublic envFile "AWS_ASSUME_ROLE_ARN" 2048;
   dotenvField FieldAWSExternalID "AWS assume-role external ID" SensitivitySecret envFile "AWS_EXTERNAL_ID" 4096;
   dotenvField FieldAWSPrivateZone "Route 53 private zone" SensitivityPublic envFile "AWS_PRIVATE_ZONE" 5;
   dotenvField FieldAWSMaxRetries "AWS maximum retries" SensitivityPublic envFile "AWS_MAX_RETRIES" 3;
   dotenvField FieldAWSWaitForRecordSetsChanged "Wait for Route 53 INSYNC" SensitivityPublic envFile "AWS_WAIT_FOR_RECORD_SETS_CHANGED" 5;
   dotenvField FieldAWSTTL "Route 53 TXT TTL" SensitivityPublic envFile "AWS_TTL" 10;
   dotenvField FieldAWSPropagationTimeout "Route 53 propagation timeout" SensitivityPublic envFile "AWS_PROPAGATION_TIMEOUT" 10;
   dotenvField FieldAWSPollingInterval "Route 53 polling interval" SensitivityPublic envFile "AWS_POLLING_INTERVAL" 10].
Definition buildCloudDNSManifest : result string Manifest :=
  core ← buildCoreDNSManifestForProviders SupportedDNSProviders;
  fields ← mustFields cloud_fields;
  Extend core CloudDNSManifestID fields.

(** The manifest of a runtime, where it is supported. *)
Definition manifest_for (built : result string Manifest) (runtimeID : string) : option Manifest :=
  match built with Ok m => if SupportsRuntime m runtimeID then Some m else None | Err _ => None end.
Definition BaseManifest : string -> option Manifest := manifest_for buildBaseManifest.
Definition CoreManifest : string -> option Manifest := manifest_for buildCoreManifest.
Definition CoreDNSManifest : string -> option Manifest := manifest_for buildCoreDNSManifest.
Definition CloudDNSManifest : string -> option Manifest := manifest_for buildCloudDNSManifest.

(** ** Providers *)

(** The provider of a dotenv field ([providerFieldCodes] with what [init] adds). *)
Definition provider_codes : list (FieldID * string) := [
   (FieldCloudflareEmail, "cloudflare");
   (FieldCloudflareAPIKey, "cloudflare");
   (FieldCloudflareDNSAPIToken, "cloudflare");
   (FieldCloudflareZoneAPIToken, "cloudflare");
   (FieldCloudflareEmailAlias, "cloudflare");
   (FieldCloudflareAPIKeyAlias, "cloudflare");
   (FieldCloudflareDNSAPITokenAlias, "cloudflare");
   (FieldCloudflareZoneAPITokenAlias, "cloudflare");
   (FieldCloudflareBaseURL, "cloudflare");
   (FieldCloudflareTTL, "cloudflare");
   (FieldCloudflarePropagationTimeout, "cloudflare");
   (FieldCloudflarePollingInterval, "cloudflare");
   (FieldCloudflareHTTPTimeout, "cloudflare");
   (FieldDigitalOceanAuthToken, "digitalocean");
   (FieldDigitalOceanAPIURL, "digitalocean");
   (FieldDigitalOceanTTL, "digitalocean");
   (FieldDigitalOceanPropagationTimeout, "digitalocean");
   (FieldDigitalOceanPollingInterval, "digitalocean");
   (FieldDigitalOceanHTTPTimeout, "digitalocean");
   (FieldDuckDNSToken, "duckdns");
   (FieldDuckDNSPropagationTimeout, "duckdns");
   (FieldDuckDNSPollingInterval, "duckdns");
   (FieldDuckDNSHTTPTimeout, "duckdns");
   (FieldDuckDNSSequenceInterval, "duckdns");
   (FieldAzureEnvironment, "azuredns");
   (FieldAzureSubscriptionID, "azuredns");
   (FieldAzureResourceGroup, "azuredns");
   (FieldAzureZoneName, "azuredns");
   (FieldAzurePrivateZone, "azuredns");
   (FieldAzureAuthMethod, "azuredns");
   (FieldAzureTenantID, "azuredns");
   (FieldAzureClientID, "azuredns");
   (FieldAzureClientSecret, "azuredns");
   (FieldAzureClientCertificatePath, "azuredns");
   (FieldAzureClientCertificatePassword, "azuredns");
   (FieldAzureFederatedTokenFile, "azuredns");
   (FieldAzureMSITimeout, "azuredns");
   (FieldAzureOIDCToken, "azuredns");
   (FieldAzureOIDCTokenFile, "azuredns");
   (FieldAzureOIDCRequestURL, "azuredns");
   (FieldAzureOIDCRequestToken, "azuredns");
   (FieldAzureServiceConnectionID, "azuredns");
   (FieldAzureSystemAccessToken, "azuredns");
   (FieldAzureSystemOIDCRequestURI, "azuredns");
   (FieldAzureCLIPath, "azuredns");
   (FieldAzureCLIConfigDirectory, "azuredns");
   (FieldAzureIMDSEndpoint, "azuredns");
   (FieldAzureIdentityEndpoint, "azuredns");
   (FieldAzureTTL, "azuredns");
   (FieldAzurePropagationTimeout, "azuredns");
   (FieldAzurePollingInterval, "azuredns");
   (FieldAWSAccessKeyID, "route53");
   (FieldAWSSecretAccessKey, "route53");
   (FieldAWSSessionToken, "route53");
   (FieldAWSRegion, "route53");
   (FieldAWSHostedZoneID, "route53");
   (FieldAWSProfile, "route53");
   (FieldAWSSharedCredentialsFile, "route53");
   (FieldAWSSDKLoadConfig, "route53");
   (FieldAWSEC2MetadataDisabled, "route53");
   (FieldAWSAssumeRoleARN, "route53");
   (FieldAWSExternalID, "route53");
   (FieldAWSPrivateZone, "route53");
   (FieldAWSMaxRetries, "route53");
   (FieldAWSWaitForRecordSetsChanged, "route53");
   (FieldAWSTTL, "route53");
   (FieldAWSPropagationTimeout, "route53");
   (FieldAWSPollingInterval, "route53")].
Definition ProviderCodeForField (id : FieldID) : option string :=
  snd <$> List.find (fun p => String.eqb p.1 id) provider_codes.

(** DNS providers (internal/integrations/core_dns.go, cloud_dns.go): which
    dotenv values a provider accepts and which authentication modes are
    complete. *)

(** Parsers of net/url, net/mail and net. *)
Record Url := mk_url { u_Scheme : string; u_Host : bytes; u_Hostname : bytes; u_User : bool; u_RawQuery : bytes; u_Fragment : bytes }.
Class NetParsers := {
  url_Parse : bytes -> option Url;
  (** address and name *)
  mail_ParseAddress : bytes -> option (bytes * bytes);
  (** [IsLoopback] of an address *)
  net_ParseIP : bytes -> option bool;
}.

Fixpoint contains (part l : bytes) : bool :=
  bool_decide (take (List.length part) l = part) || match l with [] => false | _ :: l => contains part l end.
Definition has_prefix (part l : bytes) : bool := bool_decide (take (List.length part) l = part).

(** ** Numbers and names *)

(** [strconv.ParseInt(value, 10, 64)] *)
Definition ParseInt (l : bytes) : option Z :=
  let '(negative, digits) := match l with
    | "-"%char :: l => (true, l)
    | "+"%char :: l => (false, l)
    | _ => (false, l)
    end in
  if bool_decide (digits = []) then None
  else
    n ← undigits digits;
    if negative then if n <=? 2 ^ 63 then Some (- n) else None else if n <? 2 ^ 63 then Some n else None.
Definition validateDecimalRange (value : bytes) (minimum maximum : Z) : check :=
  match ParseInt value with
  | Some parsed =>
      reject_if (negb (bool_decide (format_int parsed = value)) || (parsed <? minimum) || (maximum <? parsed))
        "provider numeric setting is outside its curated range"
  | None => Err "provider numeric setting is outside its curated range"
  end.

(** [^[A-Za-z0-9][A-Za-z0-9_.@-]{0,127}$] *)
Definition awsProfilePattern (l : bytes) : bool :=
  match l with
  | c :: rest => (is_letter c || is_digit c) && forallb binding_char rest && (blen rest <=? 127)
  | [] => false
  end.
Definition region_number (l : bytes) : bool :=
  match l with
  | [a] => is_digit a && negb (Ascii.eqb a "0")
  | [a; b] => is_digit a && negb (Ascii.eqb a "0") && is_digit b
  | _ => false
  end.
Definition lower_word (l : bytes) : bool := negb (blen l =? 0) && forallb is_lower_ascii l.
(** [^[a-z]{2}(?:-gov)?-[a-z]+-[1-9][0-9]?$] *)
Definition awsRegionPattern (l : bytes) : bool :=
  match split_on "-" l with
  | [country; area; number] => (blen country =? 2) && lower_word country && lower_word area && region_number number
  | [country; gov; area; number] =>
      (blen country =? 2) && lower_word country && bool_decide (gov = to_bytes "gov") && lower_word area && region_number number
  | _ => false
  end.

(** ** Dotenv values *)

Section Values.
Context `{NetParsers}.

Definition is_loopback (host : bytes) : bool := default false (net_ParseIP host).

Definition validateCloudEndpoint (text : bytes) (loopbackOnly : bool) : check :=
  match url_Parse text with
  | None => Err "cloud endpoint is invalid"
  | Some parsed =>
      _ ← reject_if (bool_decide (u_Hostname parsed = []) || u_User parsed || negb (bool_decide (u_Fragment parsed = []))) "cloud endpoint is invalid";
      let loopback := is_loopback (u_Hostname parsed) in
      if loopbackOnly then
        reject_if (negb (String.eqb (u_Scheme parsed) "http") || negb loopback) "metadata endpoint must use loopback HTTP"
      else
        reject_if (negb (String.eqb (u_Scheme parsed) "https") && negb (String.eqb (u_Scheme parsed) "http" && loopback))
          "cloud endpoint must use HTTPS or loopback HTTP"
  end.

Definition is_in (id : FieldID) (l : list FieldID) : bool := existsb (String.eqb id) l.
Definition one_text (l : list string) (value : bytes) : bool := existsb (fun s => bool_decide (to_bytes s = value)) l.

Definition ValidateCloudDNSDotenvValue (id : FieldID) (value : bytes) : check :=
  if String.eqb id FieldAzureEnvironment then reject_if (negb (one_text ["public"; "usgovernment"; "china"] value)) "azure cloud is not supported"
  else if String.eqb id FieldAzureAuthMethod then
    reject_if (negb (one_text ["env"; "wli"; "msi"; "cli"; "oidc"; "pipeline"] value)) "azure authentication method is not supported"
  else if is_in id [FieldAzurePrivateZone; FieldAWSPrivateZone; FieldAWSWaitForRecordSetsChanged; FieldAWSSDKLoadConfig; FieldAWSEC2MetadataDisabled] then
    reject_if (negb (one_text ["true"; "false"] value)) "cloud boolean must be true or false"
  else if is_in id [FieldAzureClientCertificatePath; FieldAzureFederatedTokenFile; FieldAzureOIDCTokenFile; FieldAzureCLIPath;
                    FieldAzureCLIConfigDirectory; FieldAWSSharedCredentialsFile] then
    reject_if (negb (is_abs value) || negb (bool_decide (clean_rooted value = value))) "cloud path must be canonical and absolute"
  else if is_in id [FieldAzureOIDCRequestURL; FieldAzureSystemOIDCRequestURI] then validateCloudEndpoint value false
  else if is_in id [FieldAzureIMDSEndpoint; FieldAzureIdentityEndpoint] then validateCloudEndpoint value true
  else if String.eqb id FieldAWSProfile then reject_if (negb (awsProfilePattern value)) "AWS profile name is invalid"
  else if String.eqb id FieldAWSRegion then reject_if (negb (awsRegionPattern value)) "AWS region is invalid"
  else if String.eqb id FieldAWSAssumeRoleARN then
    reject_if (negb (has_prefix (to_bytes "arn:") value) || negb (contains (to_bytes ":iam::") value) || negb (contains (to_bytes ":role/") value))
      "AWS role ARN is invalid"
  else if is_in id [FieldAzureTTL; FieldAzurePropagationTimeout; FieldAzurePollingInterval; FieldAzureMSITimeout;
                    FieldAWSTTL; FieldAWSPropagationTimeout; FieldAWSPollingInterval] then validateDecimalRange value 1 86400
  else if String.eqb id FieldAWSMaxRetries then validateDecimalRange value 0 20
  else Ok tt.

Definition ValidateCoreDNSDotenvValue (id : FieldID) (value : bytes) : check :=
  if is_in id [FieldCloudflareEmail; FieldCloudflareEmailAlias] then
    match mail_ParseAddress value with
    | Some (address, name) =>
        _ ← reject_if (negb (bool_decide (address = value)) || negb (bool_decide (name = [])) || negb (contains (to_bytes "@") value))
              "provider account email is invalid";
        ValidateCloudDNSDotenvValue id value
    | None => Err "provider account email is invalid"
    end
  else if is_in id [FieldCloudflareBaseURL; FieldDigitalOceanAPIURL] then
    match url_Parse value with
    | None => Err "provider endpoint is invalid"
    | Some parsed =>
        _ ← reject_if (bool_decide (u_Hostname parsed = []) || u_User parsed || negb (bool_decide (u_RawQuery parsed = []))
                       || negb (bool_decide (u_Fragment parsed = []))) "provider endpoint is invalid";
        _ ← reject_if (negb (String.eqb (u_Scheme parsed) "https") && negb (String.eqb (u_Scheme parsed) "http" && is_loopback (u_Hostname parsed)))
              "provider endpoint must use HTTPS or loopback HTTP";
        ValidateCloudDNSDotenvValue id value
    end
  else if String.eqb id FieldCloudflareTTL then validateDecimalRange value 120 86400
  else if String.eqb id FieldDigitalOceanTTL then validateDecimalRange value 1 86400
  else if is_in id [FieldCloudflarePropagationTimeout; FieldCloudflarePollingInterval; FieldCloudflareHTTPTimeout;
                    FieldDigitalOceanPropagationTimeout; FieldDigitalOceanPollingInterval; FieldDigitalOceanHTTPTimeout;
                    FieldDuckDNSPropagationTimeout; FieldDuckDNSPollingInterval; FieldDuckDNSHTTPTimeout; FieldDuckDNSSequenceInterval]
  then validateDecimalRange value 1 3600
  else ValidateCloudDNSDotenvValue id value.
End Values.

(** ** Complete authentication *)

(** The maps of present fields and of their public values; a field that is not
    in a map is absent, with the empty text. *)
Definition is_present (present : gmap FieldID bool) (id : FieldID) : bool := default false (present !! id).
Definition value_of (values : gmap FieldID string) (id : FieldID) : string := default "" (values !! id).
Definition count (l : list bool) : Z := blen (List.filter (fun b => b) l).

(** The empty list is a complete accepted mode. *)
Definition CoreDNSCredentialIssues (provider : string) (present : gmap FieldID bool) : list FieldID :=
  let has := is_present present in
  if String.eqb provider "cloudflare" then
    let email := count [has FieldCloudflareEmail; has FieldCloudflareEmailAlias] in
    let key := count [has FieldCloudflareAPIKey; has FieldCloudflareAPIKeyAlias] in
    let dnsToken := count [has FieldCloudflareDNSAPIToken; has FieldCloudflareDNSAPITokenAlias] in
    let zoneToken := count [has FieldCloudflareZoneAPIToken; has FieldCloudflareZoneAPITokenAlias] in
    let legacyValid := (email =? 1) && (key =? 1) && (dnsToken =? 0) && (zoneToken =? 0) in
    let tokenValid := (email =? 0) && (key =? 0) && (dnsToken =? 1) && (zoneToken <=? 1) in
    if legacyValid || tokenValid then []
    else [FieldCloudflareEmail; FieldCloudflareAPIKey; FieldCloudflareDNSAPIToken; FieldCloudflareZoneAPIToken]
  else if String.eqb provider "digitalocean" then if has FieldDigitalOceanAuthToken then [] else [FieldDigitalOceanAuthToken]
  else if String.eqb provider "duckdns" then if has FieldDuckDNSToken then [] else [FieldDuckDNSToken]
  else if String.eqb provider "azuredns" || String.eqb provider "route53" then []
  else [FieldChallengeDNSProvider].

Section Cloud.
Context (present : gmap FieldID bool) (values : gmap FieldID string).
Definition need (l : list FieldID) : bool := forallb (is_present present) l.
Definition absent (l : list FieldID) : bool := forallb (fun id => negb (is_present present id)) l.

(** Whether the fields of the Azure method are there. *)
Definition azure_valid (method : string) : bool :=
  let has := is_present present in
  if String.eqb method "env" then
    let secret := need [FieldAzureTenantID; FieldAzureClientID; FieldAzureClientSecret] && absent [FieldAzureClientCertificatePath; FieldAzureFederatedTokenFile] in
    let certificate := need [FieldAzureTenantID; FieldAzureClientID; FieldAzureClientCertificatePath] && absent [FieldAzureClientSecret; FieldAzureFederatedTokenFile] in
    secret || certificate
  else if String.eqb method "wli" then
    need [FieldAzureTenantID; FieldAzureClientID; FieldAzureFederatedTokenFile] && absent [FieldAzureClientSecret; FieldAzureClientCertificatePath]
  else if String.eqb method "msi" then
    Bool.eqb (has FieldAzureIMDSEndpoint) (has FieldAzureIdentityEndpoint)
    && absent [FieldAzureClientSecret; FieldAzureClientCertificatePath; FieldAzureFederatedTokenFile;
               FieldAzureOIDCToken; FieldAzureOIDCTokenFile; FieldAzureOIDCRequestURL; FieldAzureOIDCRequestToken]
  else if String.eqb method "cli" then
    need [FieldAzureCLIPath; FieldAzureCLIConfigDirectory]
    && absent [FieldAzureClientSecret; FieldAzureClientCertificatePath;
               FieldAzureFederatedTokenFile; FieldAzureOIDCToken; FieldAzureOIDCTokenFile; FieldAzureOIDCRequestURL; FieldAzureOIDCRequestToken]
  else if String.eqb method "oidc" then
    need [FieldAzureTenantID; FieldAzureClientID]
    && (count [has FieldAzureOIDCToken; has FieldAzureOIDCTokenFile; has FieldAzureOIDCRequestURL && has FieldAzureOIDCRequestToken] =? 1)
  else if String.eqb method "pipeline" then
    need [FieldAzureTenantID; FieldAzureClientID; FieldAzureServiceConnectionID; FieldAzureSystemAccessToken; FieldAzureSystemOIDCRequestURI]
  else false.

(** The three modes of Route 53. *)
Definition route53_static : bool :=
  need [FieldAWSAccessKeyID; FieldAWSSecretAccessKey] && absent [FieldAWSProfile; FieldAWSSharedCredentialsFile]
  && String.eqb (value_of values FieldAWSEC2MetadataDisabled) "true".
Definition route53_shared : bool :=
  need [FieldAWSProfile; FieldAWSSharedCredentialsFile] && absent [FieldAWSAccessKeyID; FieldAWSSecretAccessKey; FieldAWSSessionToken]
  && String.eqb (value_of values FieldAWSEC2MetadataDisabled) "true" && String.eqb (value_of values FieldAWSSDKLoadConfig) "false".
Definition route53_instance : bool :=
  absent [FieldAWSAccessKeyID; FieldAWSSecretAccessKey; FieldAWSSessionToken; FieldAWSProfile; FieldAWSSharedCredentialsFile]
  && String.eqb (value_of values FieldAWSEC2MetadataDisabled) "false" && String.eqb (value_of values FieldAWSSDKLoadConfig) "false".

Definition CloudDNSCredentialIssues (provider : string) : list FieldID :=
  if String.eqb provider "azuredns" then
    let base := need [FieldAzureAuthMethod; FieldAzureSubscriptionID; FieldAzureResourceGroup; FieldAzureEnvironment; FieldAzurePrivateZone] in
    if base && azure_valid (value_of values FieldAzureAuthMethod) then []
    else [FieldAzureAuthMethod; FieldAzureSubscriptionID; FieldAzureResourceGroup]
  else if String.eqb provider "route53" then
    if negb (need [FieldAWSRegion; FieldAWSEC2MetadataDisabled; FieldAWSSDKLoadConfig]) then [FieldAWSRegion; FieldAWSEC2MetadataDisabled]
    else if negb (count [route53_static; route53_shared; route53_instance] =? 1)
            || (is_present present FieldAWSExternalID && negb (is_present present FieldAWSAssumeRoleARN))
    then [FieldAWSAccessKeyID; FieldAWSProfile; FieldAWSEC2MetadataDisabled]
    else []
  else [].
End Cloud.
