(* ===== verification/RunIdentity.v ===== *)
(** Runtime executables (internal/runtime/types.go, version.go, review.go):
    what an observation of an executable holds, the strict reading of its
    version line, and the fingerprint of a review. *)
From S2P Require Import Prelude.
From S2P Require Import GoText.
From S2P Require Import GoTime.
From S2P Require Import GoDecode.
From S2P Require Import WsInspect.
From S2P Require Import Tokens.

#[local] Open Scope string_scope.
#[local] Open Scope Z_scope.

(** ** Observations *)

Record FileIdentity := mk_file_identity {
  xf_CanonicalPath : string; xf_Device : Z; xf_Inode : Z; xf_Mode : Z; xf_Capabilities : string; xf_UID : Z; xf_GID : Z; xf_Size : Z;
  xf_ModifiedAt : time; xf_ChangedAt : time; xf_SHA256 : string;
}.

(** The zero value of a kind is the empty text. *)
Inductive VersionKind := VersionRelease | VersionRevision | NoVersionKind.
#[export] Instance VersionKind_eq_dec : EqDecision VersionKind.
Proof. solve_decision. Defined.
Definition VersionKind_text (k : VersionKind) : string :=
  match k with VersionRelease => "release" | VersionRevision => "revision" | NoVersionKind => "" end.
Record VersionIdentity := mk_version { vi_Kind : VersionKind; vi_Value : string }.
#[export] Instance VersionIdentity_eq_dec : EqDecision VersionIdentity.
Proof. solve_decision. Defined.
Record Platform := mk_platform { pl_OS : string; pl_Arch : string }.
#[export] Instance Platform_eq_dec : EqDecision Platform.
Proof. solve_decision. Defined.
Definition Supported (p : Platform) : bool := String.eqb (pl_OS p) "linux" && (String.eqb (pl_Arch p) "amd64" || String.eqb (pl_Arch p) "arm64").

Record BuildEvidence := mk_build {
  be_Available : bool; be_ProvenanceComplete : bool; be_GoVersion : string; be_CommandPath : string; be_MainPath : string;
  be_MainVersion : string; be_DependencyGraphSHA256 : string; be_GOOS : string; be_GOARCH : string; be_VCSRevision : string;
  be_VCSModifiedKnown : bool; be_VCSModifiedValid : bool; be_VCSModified : bool;
}.
Record Observation := mk_observation {
  ob_File : FileIdentity; ob_Version : VersionIdentity; ob_Platform : Platform; ob_Build : BuildEvidence; ob_VersionOutput : string;
  ob_ObservedAt : time;
}.

(** ** Version lines *)

Definition maximumVersionOutput : Z := 256.
Definition line_feed : ascii := z2b 10.

Definition number (l : bytes) : bool := negb (blen l =? 0) && forallb is_digit l.
(** [^(?:v)?([0-9]+)\.([0-9]+)\.([0-9]+)$]: the three components. *)
Definition releasePattern (l : bytes) : option (bytes * bytes * bytes) :=
  match split_on "." (match l with "v"%char :: l => l | _ => l end) with
  | [major; minor; patch] => if number major && number minor && number patch then Some (major, minor, patch) else None
  | _ => None
  end.
Definition lower_hex_digit (c : ascii) : bool := is_digit c || in_range "a" "f" c.
(** [^[0-9a-f]{40}$] *)
Definition revisionPattern (l : bytes) : bool := (blen l =? 40) && forallb lower_hex_digit l.
(** [^[a-z0-9]+$] *)
Definition platformPattern (l : bytes) : bool := negb (blen l =? 0) && forallb (fun c => is_lower_ascii c || is_digit c) l.

Definition leading_zero (l : bytes) : bool := match l with "0"%char :: _ :: _ => true | _ => false end.
Definition release_value (major minor patch : bytes) : bytes := "v"%char :: (major ++ "."%char :: minor ++ "."%char :: patch)%list.
Definition parse_identity (field : bytes) : result string VersionIdentity :=
  match releasePattern field with
  | Some (major, minor, patch) =>
      _ ← reject_if (leading_zero major || leading_zero minor || leading_zero patch) "release identity is not canonical semantic version text";
      Ok (mk_version VersionRelease (of_bytes (release_value major minor patch)))
  | None =>
      if revisionPattern field then Ok (mk_version VersionRevision (of_bytes field))
      else Err "version identity is neither an official release nor an exact source revision"
  end.
Definition parse_platform (field : bytes) : result string Platform :=
  match split_on "/" field with
  | [os; arch] => if platformPattern os && platformPattern arch then Ok (mk_platform (of_bytes os) (of_bytes arch))
                  else Err "version output has an invalid platform"
  | _ => Err "version output has an invalid platform"
  end.

Definition version_prefix : bytes := to_bytes "lego version ".
Definition unprintable (c : ascii) : bool := negb (Ascii.eqb c line_feed) && ((b2z c <? 32) || (126 <? b2z c)).
Definition ends_line (l : bytes) : bool := match last l with Some c => Ascii.eqb c line_feed | None => false end.
Definition count_lines (l : bytes) : Z := blen (List.filter (Ascii.eqb line_feed) l).

(** Every error has the code of a malformed version. *)
Definition ParseVersionOutput (output : bytes) : result string (VersionIdentity * Platform * string) :=
  _ ← reject_if ((blen output =? 0) || (maximumVersionOutput <? blen output)) "version output has an invalid length";
  _ ← reject_if (existsb unprintable output) "version output contains non-ASCII or control data";
  _ ← reject_if (negb (ends_line output) || negb (count_lines output =? 1)) "version output must be exactly one newline-terminated line";
  let line := take (List.length output - 1) output in
  _ ← reject_if (negb (bool_decide (version_prefix `prefix_of` line))) "version output has an unexpected prefix";
  match split_on " " (drop (List.length version_prefix) line) with
  | [identity; platform] =>
      _ ← reject_if (bool_decide (identity = []) || bool_decide (platform = [])) "version output has an unexpected field count";
      platform ← parse_platform platform;
      identity ← parse_identity identity;
      Ok (identity, platform, of_bytes line)
  | _ => Err "version output has an unexpected field count"
  end.

(** ** Review fingerprints *)

Definition fingerprintTime (t : time) : bytes := format_rfc3339 (unix_utc (t_ns t)).
(** Names and values, in order. *)
Definition fingerprint_fields (o : Observation) (manifestID : string) : list (string * bytes) :=
  let f := ob_File o in
  let b := ob_Build o in
  [("manifest_id", to_bytes manifestID);
   ("file.canonical_path", to_bytes (xf_CanonicalPath f));
   ("file.device", itoa (xf_Device f));
   ("file.inode", itoa (xf_Inode f));
   ("file.mode", itoa (xf_Mode f));
   ("file.capabilities", to_bytes (xf_Capabilities f));
   ("file.uid", itoa (xf_UID f));
   ("file.gid", itoa (xf_GID f));
   ("file.size", format_int (xf_Size f));
   ("file.modified_at", fingerprintTime (xf_ModifiedAt f));
   ("file.changed_at", fingerprintTime (xf_ChangedAt f));
   ("file.sha256", to_bytes (xf_SHA256 f));
   ("version.kind", to_bytes (VersionKind_text (vi_Kind (ob_Version o))));
   ("version.value", to_bytes (vi_Value (ob_Version o)));
   ("platform.os", to_bytes (pl_OS (ob_Platform o)));
   ("platform.arch", to_bytes (pl_Arch (ob_Platform o)));
   ("build.available", format_bool (be_Available b));
   ("build.provenance_complete", format_bool (be_ProvenanceComplete b));
   ("build.go_version", to_bytes (be_GoVersion b));
   ("build.command_path", to_bytes (be_CommandPath b));
   ("build.main_path", to_bytes (be_MainPath b));
   ("build.main_version", to_bytes (be_MainVersion b));
   ("build.dependency_graph_sha256", to_bytes (be_DependencyGraphSHA256 b));
   ("build.goos", to_bytes (be_GOOS b));
   ("build.goarch", to_bytes (be_GOARCH b));
   ("build.vcs_revision", to_bytes (be_VCSRevision b));
   ("build.vcs_modified_known", format_bool (be_VCSModifiedKnown b));
   ("build.vcs_modified_valid", format_bool (be_VCSModifiedValid b));
   ("build.vcs_modified", format_bool (be_VCSModified b));
   ("version_output", to_bytes (ob_VersionOutput o))].
Definition fingerprint_values (o : Observation) (manifestID : string) : list bytes :=
  to_bytes "acmemux-runtime-review-v1" :: (fingerprint_fields o manifestID ≫= fun p => [to_bytes p.1; p.2]).

(** [hex.EncodeToString] *)
Definition hex (l : bytes) : string := of_bytes (l ≫= fun c => [GoText.lower_hex (b2z c / 16); GoText.lower_hex (b2z c mod 16)]).
Definition ReviewFingerprint `{Digests} (o : Observation) (manifestID : string) : string :=
  hex (digest (message (fingerprint_values o manifestID))).
