(* ===== verification/Compat.v ===== *)
(** Exact compatibility manifests (internal/compatibility/types.go,
    manifests.go, validate.go, classify.go, api.go): the executables that may be
    run, the checks every manifest passes at start, and the classification of an
    observed executable.  The bundled schema and license and SHA-1 are
    parameters; the catalogs are the files under
    internal/compatibility/assets/evidence. *)
From stdpp Require Import gmap.
From S2P Require Import Prelude.
From S2P Require Import GoText.
From S2P Require Import GoDecode.
From S2P Require Import WsInspect.
From S2P Require Import Tokens.
From S2P Require Import RunIdentity.
From S2P Require Import IntegTypes.
From S2P Require Import IntegFields.

#[local] Open Scope string_scope.
#[local] Open Scope Z_scope.

(** ** Data *)

Record AssetIdentity := mk_asset { as_UpstreamPath : string; as_GitBlob : string; as_SHA256 : string }.
Record SourceIdentity := mk_source_identity { so_Repository : string; so_Tag : string; so_TagObject : string; so_Commit : string }.
Record RuntimeIdentity := mk_runtime_identity {
  ru_Version : VersionIdentity; ru_VersionTokens : list string; ru_CommandPath : string; ru_ModulePath : string; ru_ModuleVersion : string;
  ru_DependencyGraphSHA256 : string; ru_VCSRevision : string; ru_RequireClean : bool;
}.
Record CertificateAuthority := mk_authority {
  au_ID : string; au_UpstreamCode : string; au_DirectoryURL : string; au_Environment : string; au_Origin : string;
}.
#[export] Instance CertificateAuthority_eq_dec : EqDecision CertificateAuthority.
Proof. solve_decision. Defined.
Definition CAOriginBuiltIn : string := "upstream_built_in".
Definition CAOriginFixedCustom : string := "acmemux_fixed_custom".
Record ChallengeMode := mk_mode { cm_ID : string; cm_Upstream : string }.
#[export] Instance ChallengeMode_eq_dec : EqDecision ChallengeMode.
Proof. solve_decision. Defined.
Record CatalogIdentity := mk_catalog { ci_Count : Z; ci_SHA256 : string }.
Record CompiledCatalog := mk_compiled {
  cc_CertificateAuthorities : list CertificateAuthority; cc_ChallengeModes : list ChallengeMode; cc_DNSProviderCodes : list string;
  cc_DNSProviders : CatalogIdentity;
}.
Record SupportedCatalog := mk_supported {
  sc_CertificateAuthorities : list CertificateAuthority; sc_ChallengeModes : list ChallengeMode; sc_DNSProviderCodes : list string;
}.
Record ProviderEvidence := mk_provider_evidence { pv_Code : string; pv_DirectoryTree : string; pv_DirectorySHA256 : string; pv_DescriptorSHA256 : string }.
Record ExecutableEvidence := mk_executable {
  ex_Platform : Platform; ex_SHA256 : string; ex_VersionOutput : string; ex_GoVersion : string; ex_ModuleVersion : string; ex_VCSRevision : string;
  ex_VCSModified : bool; ex_OfficialBinary : bool; ex_Executed : bool; ex_ArchiveName : string; ex_ArchiveSHA256 : string;
  ex_PublishedChecksumsSHA256 : string;
}.
Record Evidence := mk_evidence_set {
  ev_ProviderCatalogBundleSHA256 : string; ev_CACatalogSHA256 : string; ev_CASourceBundleSHA256 : string; ev_ChallengeBundleSHA256 : string;
  ev_SupportedProviders : list ProviderEvidence; ev_Executables : list ExecutableEvidence;
}.
Record Manifest := mk_compatibility {
  cp_ID : string; cp_Source : SourceIdentity; cp_Runtime : RuntimeIdentity; cp_Platforms : list Platform; cp_Schema : AssetIdentity;
  cp_License : AssetIdentity; cp_Compiled : CompiledCatalog; cp_Supported : SupportedCatalog; cp_Evidence : Evidence;
}.

(** ** Catalogs *)

Definition providerCatalogV531 : bytes := to_bytes "abion
acmedns
active24
alidns
aliesa
allinkl
alwaysdata
anexia
artfiles
arvancloud
auroradns
autodns
axelname
azion
azuredns
baiducloud
beget
binarylane
bindman
bluecat
bluecatv2
bookmyname
bunny
checkdomain
civo
clouddns
cloudflare
cloudns
cloudru
com35
connbyte
conoha
conohav3
constellix
corenetworks
cpanel
curanet
czechia
dandomain
ddnss
derak
desec
designate
digitalocean
dinahosting
directadmin
dns51
dnscale
dnsexit
dnshomede
dnsimple
dnsla
dnsmadeeasy
dnsservices
dnsupdate
dode
domeneshop
dreamhost
duckdns
dyn
dynadot
dyndnsfree
dynu
easydns
edgecenter
edgedns
edgeone
efficientip
epik
eurodns
euserv
excedo
exec
exoscale
f5xc
fornex
freemyip
gandi
gandiv5
gcloud
gcore
gehirn
gigahostno
glesys
gname
godaddy
gravity
hetzner
hostingde
hostinger
hostingnl
hosttech
hostup
httpnet
httpreq
huaweicloud
hurricane
hyperone
ibmcloud
iijdpf
infoblox
infomaniak
internetbs
inwx
ionos
ionoscloud
ipv64
ispconfig
ispconfigddns
jdcloud
joker
katapult
keyhelp
leaseweb
liara
lightsail
limacity
linode
liquidweb
loopia
luadns
mailinabox
manageengine
manual
metaname
metaregistrar
mijnhost
mittwald
myaddr
mydnsjp
mythicbeasts
namecheap
namedotcom
namesilo
namesurfer
nearlyfreespeech
nederhost
neodigit
netcup
netlify
netnod
ngenix
nicmanager
nicru
nifcloud
njalla
nodion
ns1
octenium
omglol
onecloudru
onlinenet
openprovider
opusdns
oraclecloud
otc
ovh
pdns
plesk
pointdns
porkbun
poweradmin
rackspace
rage4
rainyun
rcodezero
regfish
regru
rimuhosting
route53
safedns
sakuracloud
scaleway
scannet
selectel
selectelv2
selfhostde
servercow
shellrent
simply
sonic
spaceship
stackpath
syse
technitium
tele3
tencentcloud
timewebcloud
todaynic
transip
ucloud
ultradns
uniteddomains
variomedia
veesp
vegadns
vercel
versio
vinyldns
virtualname
vkcloud
volcengine
vscale
vultr
wannafind
webnamesca
webnamesru
websupport
wedos
westcn
xinnet
yandex
yandex360
yandexcloud
zilore
zoneedit
zoneee
zonomi
".
Definition providerCatalogRevision2A58 : bytes := to_bytes "abion
acmedns
active24
alidns
aliesa
allinkl
alwaysdata
anexia
artfiles
arvancloud
auroradns
autodns
axelname
azion
azuredns
baiducloud
beget
binarylane
bindman
bluecat
bluecatv2
bookmyname
bunny
checkdomain
civo
clouddns
cloudflare
cloudns
cloudru
com35
connbyte
conoha
conohav3
constellix
corenetworks
cpanel
curanet
czechia
dandomain
ddnss
derak
desec
designate
digitalocean
dinahosting
directadmin
dns51
dnscale
dnsexit
dnshomede
dnsimple
dnsla
dnsmadeeasy
dnsservices
dnsupdate
dode
domeneshop
dreamhost
duckdns
dyn
dynadot
dyndnsfree
dynu
easydns
edgecenter
edgedns
edgeone
efficientip
epik
eurodns
euserv
excedo
exec
exoscale
f5xc
fornex
freemyip
gandi
gandiv5
gcloud
gcore
gehirn
gigahostno
glesys
gname
godaddy
gravity
hetzner
hostingde
hostinger
hostingnl
hosttech
hostup
httpnet
httpreq
huaweicloud
hurricane
hyperone
ibmcloud
iijdpf
infoblox
infomaniak
internetbs
inwx
ionos
ionoscloud
ipv64
ispconfig
ispconfigddns
jdcloud
joker
katapult
keyhelp
leaseweb
liara
lightsail
limacity
linode
liquidweb
loopia
luadns
mailinabox
manageengine
manual
metaname
metaregistrar
mijnhost
mittwald
myaddr
mydnsjp
mythicbeasts
namecheap
namedotcom
namesilo
namesurfer
nearlyfreespeech
nederhost
neodigit
netcup
netlify
netnod
nexdns
ngenix
nicmanager
nicru
nifcloud
njalla
nodion
ns1
octenium
omglol
onecloudru
onlinenet
openprovider
opusdns
oraclecloud
otc
ovh
pdns
plesk
pointdns
porkbun
poweradmin
rackspace
rage4
rainyun
rcodezero
regfish
regru
rimuhosting
route53
safedns
sakuracloud
scaleway
scannet
selectel
selectelv2
selfhostde
servercow
shellrent
simply
sonic
spaceship
stackpath
syse
technitium
tele3
tencentcloud
timewebcloud
todaynic
transip
ucloud
ultradns
uniteddomains
variomedia
veesp
vegadns
vercel
versio
vinyldns
virtualname
vkcloud
volcengine
vscale
vultr
wannafind
webnamesca
webnamesru
websupport
wedos
westcn
xinnet
yandex
yandex360
yandexcloud
zilore
zoneedit
zoneee
zonomi
".
Definition caCatalogV531 : bytes := to_bytes "actalis	https://acme-api.actalis.com/acme/directory	production
digicert	https://one.digicert.com/mpki/api/v1/acme/v2/directory	production
freessl	https://acmepro.freessl.cn/v2/DV	production
globalsign	https://emea.acme.atlas.globalsign.com/directory	production
googletrust	https://dv.acme-v02.api.pki.goog/directory	production
googletrust-staging	https://dv.acme-v02.test-api.pki.goog/directory	staging
letsencrypt	https://acme-v02.api.letsencrypt.org/directory	production
letsencrypt-staging	https://acme-staging-v02.api.letsencrypt.org/directory	staging
litessl	https://acme.litessl.com/acme/v2/directory	production
peeringhub	https://stica.peeringhub.io/acme	production
sectigo	https://acme.sectigo.com/v2/DV	production
sectigoev	https://acme.sectigo.com/v2/EV	production
sectigoov	https://acme.sectigo.com/v2/OV	production
sslcomecc	https://acme.ssl.com/sslcom-dv-ecc	production
sslcomrsa	https://acme.ssl.com/sslcom-dv-rsa	production
zerossl	https://acme.zerossl.com/v2/DV90	production
".

Definition upstreamRepository : string := "https://github.com/go-acme/lego".
Definition upstreamModule : string := "github.com/go-acme/lego/v5".
Definition dependencyGraphSHA256 : string := "91e0f94c6d9c66addce234a1f9a4c98fdef8f6fc8ca6efbd441fa665569a550b".
Definition schemaSHA256 : string := "0264c4d7e0f3f95b91ed5235db8270cc4f284e2e096e4425e4e207a88978373d".
Definition licenseSHA256 : string := "bf12923e71046c564f4163c00c3aa6b3581b51858f099a035f5baf2216addf6e".
Definition caCatalogSHA256 : string := "85731f354853b1faf1d6b6b2aa808f737e490c5b7bc5c96fd28c3ab438525b51".

(** An empty catalog or a malformed line stops the program. *)
Definition trim_line_feed (l : bytes) : bytes :=
  match last l with Some c => if Ascii.eqb c line_feed then take (List.length l - 1) l else l | None => l end.
Definition mustParseCodeCatalog (data : bytes) : result string (list string) :=
  let text := trim_line_feed data in
  if bool_decide (text = []) then Err "empty embedded provider catalog" else Ok (of_bytes <$> split_on line_feed text).
Definition parse_authority (line : string) : result string CertificateAuthority :=
  match split_on (z2b 9) (to_bytes line) with
  | [id; url; environment] =>
      Ok (mk_authority (of_bytes id) (of_bytes id) (of_bytes url) (of_bytes environment) CAOriginBuiltIn)
  | _ => Err "malformed embedded CA catalog"
  end.
Definition mustParseCACatalog (data : bytes) : result string (list CertificateAuthority) :=
  lines ← mustParseCodeCatalog data;
  mapM parse_authority lines.

Definition supported_ids : list string :=
  ["googletrust"; "googletrust-staging"; "letsencrypt"; "letsencrypt-staging"; "sslcomecc"; "sslcomrsa"; "zerossl"].
Definition godaddy : CertificateAuthority :=
  mk_authority "godaddy-ca" "" "https://acme.godaddy.com/v1/acme/directory" "production" CAOriginFixedCustom.
Definition authority_le (a b : CertificateAuthority) : bool := id_le (au_ID a) (au_ID b).
Definition supportedCAs (compiled : list CertificateAuthority) : result string (list CertificateAuthority) :=
  l ← mapM (fun id => match List.find (fun a => String.eqb (au_ID a) id) compiled with
                      | Some a => Ok a
                      | None => Err ("supported CA absent from compiled catalog: " +:+ id)
                      end) supported_ids;
  Ok (sort_by authority_le (l ++ [godaddy])%list).

(** ** The manifests *)

Definition linux_amd64 : Platform := mk_platform "linux" "amd64".
Definition platforms : list Platform := [linux_amd64].
Definition commonSchema : AssetIdentity := mk_asset "docs/static/lego.jsonschema.json" "6a32008a1520bc54ee8c580f53cf27f813fe2df8" schemaSHA256.
Definition commonLicense : AssetIdentity := mk_asset "LICENSE" "d8eaf915df73777f2207abe11d9373373fe72b95" licenseSHA256.
Definition compiledChallenges : list ChallengeMode := [
  mk_mode "dns-01" "challenge.dns"; mk_mode "dns-persist-01" "challenge.dnsPersist"; mk_mode "http-01-listener" "challenge.http.address";
  mk_mode "http-01-memcached" "challenge.http.memcachedHosts"; mk_mode "http-01-s3" "challenge.http.s3Bucket";
  mk_mode "http-01-webroot" "challenge.http.webroot"; mk_mode "tls-alpn-01" "challenge.tls"].
Definition supportedChallenges : list ChallengeMode :=
  [mk_mode "dns-01" "challenge.dns"; mk_mode "http-01-listener" "challenge.http.address"; mk_mode "http-01-webroot" "challenge.http.webroot"].
Definition providerEvidence : list ProviderEvidence := [
  mk_provider_evidence "azuredns" "4cf31d7d46680adafc65576ecb6abc955e9f80b7" "06fee4cdc2e208bf2f2835ceb919e060e8f17941d25227c7551294b9802d0f0f" "f81cbab8b3f43f4b80195421db2adb80ef6b7dea8d061704f7167db2519fe3b9";
  mk_provider_evidence "cloudflare" "b98ef5882a343ae653f31de74c97226a74d30d39" "5f797823d4ce37dcd30f009e4c95ad61be0058a7424fd139b15de9cf5b6378ce" "960d3d97eef576ba96aaf88962d1a0d9419e2f3fdace475eff7c157235d83bef";
  mk_provider_evidence "digitalocean" "11d3e866924f30dc2713ce5df08d7301d4e63132" "9bb05c1c17b4ea3a0c8bc1edb1d69f3ff593ff67624ff9ecea7c0b25edd8c1b5" "c68151b15f5e4bb7096fd24bb634e81a109b34041106fac387a74f88c16bad1a";
  mk_provider_evidence "duckdns" "d88a9deb9dd83456de9677dbcee5c198d2f5918c" "c8b5abeea89f05570d442a6b79b169a33397f130861052bf13e347c759992821" "e4b3dfefd5c6901dd6f4f3dd4658465f499e9ebea8119d26e1b4aef0f7527d16";
  mk_provider_evidence "route53" "59a277f6a71b9bc9a0b9ccaab599b139ed2f0346" "a8019f3bbb2252959118c47a8e95a81582c0f91d01ba0d22eaa875c16ae58256" "5ce9e2de5090c8a2439124df7fa165c65927d40a85b8de430bc9c0f7fe46c40e"].
Definition releaseExecutables : list ExecutableEvidence := [
  mk_executable (mk_platform "linux" "amd64") "e55089f626ffe1725de10b71bac366a6f6ee8d88cddc7fbff8fdb1cd3ad4897f" "lego version v5.3.1 linux/amd64" "go1.26.6" "v5.3.1"
    "589c84af4f26629fbdaa7fbca712f806632ccb7e" false false true "" ""
    "";
  mk_executable (mk_platform "linux" "amd64") "36c97b1ed369c2c46d7a4dde0d635d8e742b080c27c36d58933a8029f7811624" "lego version 5.3.1 linux/amd64" "go1.26.5" "v5.3.1"
    "589c84af4f26629fbdaa7fbca712f806632ccb7e" false true true "lego_v5.3.1_linux_amd64.tar.gz" "b3c71b122ee1947eacfe0b809b955647f6377239fe4bfc49f73b1a091ae1252a"
    "d069acad0ad28bcfc03a9a94ea127ae78c84e6ba5f3387886033abfb1cd88527";
  mk_executable (mk_platform "linux" "arm64") "24cf7a3b11e4c262937fc15c6f31d4f31501a1abe20142327822771113426a1b" "lego version 5.3.1 linux/arm64" "go1.26.5" "v5.3.1"
    "589c84af4f26629fbdaa7fbca712f806632ccb7e" false true false "lego_v5.3.1_linux_arm64.tar.gz" "58db563a2b97c2259516fa9910b4a9e1634a0737723d0381a65af1bf93a4b433"
    "d069acad0ad28bcfc03a9a94ea127ae78c84e6ba5f3387886033abfb1cd88527"].
Definition revisionExecutables : list ExecutableEvidence := [
  mk_executable (mk_platform "linux" "amd64") "ef3819a069a79e8b79306665cac076b9ce53e31f63c60b953d62740f8f4b59b4" "lego version 2a58c3522708e4c7393a67be691bd0c3a16d8441 linux/amd64" "go1.26.6" "v5.3.2-0.20260803101616-2a58c3522708"
    "2a58c3522708e4c7393a67be691bd0c3a16d8441" false false true "" ""
    ""].
Definition releaseSource : SourceIdentity :=
  mk_source_identity upstreamRepository "v5.3.1" "78840cf9121240982d4b43f81b24c28253d61585" "589c84af4f26629fbdaa7fbca712f806632ccb7e".
Definition releaseRuntime : RuntimeIdentity :=
  mk_runtime_identity (mk_version VersionRelease "v5.3.1") ["5.3.1"; "v5.3.1"] upstreamModule upstreamModule "v5.3.1" dependencyGraphSHA256
    "589c84af4f26629fbdaa7fbca712f806632ccb7e" true.
Definition revisionSource : SourceIdentity := mk_source_identity upstreamRepository "" "" "2a58c3522708e4c7393a67be691bd0c3a16d8441".
Definition revisionRuntime : RuntimeIdentity :=
  mk_runtime_identity (mk_version VersionRevision "2a58c3522708e4c7393a67be691bd0c3a16d8441") ["2a58c3522708e4c7393a67be691bd0c3a16d8441"]
    upstreamModule upstreamModule "v5.3.2-0.20260803101616-2a58c3522708" dependencyGraphSHA256 "2a58c3522708e4c7393a67be691bd0c3a16d8441" true.

Definition buildManifests : result string (list Manifest) :=
  compiledCAs ← mustParseCACatalog caCatalogV531;
  supportedAuthorities ← supportedCAs compiledCAs;
  let supported := mk_supported supportedAuthorities supportedChallenges ["azuredns"; "cloudflare"; "digitalocean"; "duckdns"; "route53"] in
  v531Providers ← mustParseCodeCatalog providerCatalogV531;
  revisionProviders ← mustParseCodeCatalog providerCatalogRevision2A58;
  Ok [mk_compatibility ManifestLegoV531 releaseSource releaseRuntime platforms commonSchema commonLicense
        (mk_compiled compiledCAs compiledChallenges v531Providers
           (mk_catalog 218 "3493fa79904f5e38d8a17ffe6c82f7790a9de2039a631571c7cc7b770d16769f")) supported
        (mk_evidence_set "5bf8ac787faaf34fa17a9087fcc5dc26a2b92c5ab659904b4a4431f9a79930c5" caCatalogSHA256
           "9b1f0f6aec9de0d0bd99626850eadd7a70ae370f262be4c28852f204f9d9c229"
           "7cf54dfc8f026bb115d41df0e8e2121bf068895d7ac54913616ffdb0926ca45f" providerEvidence releaseExecutables);
      mk_compatibility ManifestLegoRevision2A58 revisionSource revisionRuntime platforms commonSchema commonLicense
        (mk_compiled compiledCAs compiledChallenges revisionProviders
           (mk_catalog 219 "c4e2b0f480508d2e6c16df14417672e410dd3d88ce84b466b2d1d60c0cf09edd")) supported
        (mk_evidence_set "973a42980e9e07d2f943ab94872b2ca3add5ce348d9167b01c44a7d338c0c9fe" caCatalogSHA256
           "9b1f0f6aec9de0d0bd99626850eadd7a70ae370f262be4c28852f204f9d9c229"
           "7cf54dfc8f026bb115d41df0e8e2121bf068895d7ac54913616ffdb0926ca45f" providerEvidence revisionExecutables)].

(** ** Validation *)

(** [^[a-z0-9][a-z0-9.-]*$] *)
Definition identifierPattern (value : string) : bool :=
  match to_bytes value with
  | c :: l => (is_lower_ascii c || is_digit c) && forallb (fun c => is_lower_ascii c || is_digit c || Ascii.eqb c "." || Ascii.eqb c "-") l
  | [] => false
  end.
Definition hexPattern (n : Z) (value : string) : bool := (slen value =? n) && forallb lower_hex_digit (to_bytes value).
Definition hex40Pattern : string -> bool := hexPattern 40.
Definition hex64Pattern : string -> bool := hexPattern 64.
Definition empty (value : string) : bool := String.eqb value "".

(** [previous != "" && strings.Compare(previous, value) >= 0] *)
Definition out_of_order (previous value : string) : bool := negb (empty previous) && id_le value previous.

Fixpoint validate_platforms (seen : list Platform) (previous : string) (l : list Platform) : check :=
  match l with
  | [] => Ok tt
  | p :: l =>
      let key := pl_OS p +:+ "/" +:+ pl_Arch p in
      _ ← reject_if (negb (Supported p)) ("unsupported manifest platform " +:+ key);
      _ ← reject_if (bool_decide (p ∈ seen) || out_of_order previous key) "platforms are duplicate or unsorted";
      validate_platforms (p :: seen) key l
  end.
Definition validatePlatforms (l : list Platform) : check :=
  _ ← reject_if (blen l =? 0) "no platforms";
  validate_platforms [] "" l.

Definition validateAsset (a : AssetIdentity) : check :=
  reject_if (empty (as_UpstreamPath a) || negb (hex40Pattern (as_GitBlob a)) || negb (hex64Pattern (as_SHA256 a))) "incomplete provenance".

Fixpoint validate_sorted (requireIdentifier : bool) (previous : string) (l : list string) : check :=
  match l with
  | [] => Ok tt
  | value :: l =>
      _ ← reject_if (empty value || (requireIdentifier && negb (identifierPattern value)) || out_of_order previous value)
            "entries are invalid, duplicate, or unsorted";
      validate_sorted requireIdentifier value l
  end.
Definition validateSortedUnique (values : list string) (requireIdentifier : bool) : check :=
  _ ← reject_if (blen values =? 0) "empty catalog";
  validate_sorted requireIdentifier "" values.

Fixpoint validate_challenges (previous : string) (l : list ChallengeMode) : check :=
  match l with
  | [] => Ok tt
  | c :: l =>
      _ ← reject_if (negb (identifierPattern (cm_ID c)) || empty (cm_Upstream c) || out_of_order previous (cm_ID c))
            "entries are invalid, duplicate, or unsorted";
      validate_challenges (cm_ID c) l
  end.
Definition validateChallenges (l : list ChallengeMode) : check :=
  _ ← reject_if (blen l =? 0) "empty catalog";
  validate_challenges "" l.

(** What is embedded, and SHA-1. *)
Class Assets := { bundledSchema : bytes; bundledLicense : bytes; sha1 : bytes -> bytes }.

Section Validation.
Context `{Digests} `{NetParsers} `{Assets}.

Definition hex_digest (data : bytes) : string := hex (digest data).

Definition authority_url_ok (url : string) : bool :=
  match url_Parse (to_bytes url) with
  | Some u => String.eqb (u_Scheme u) "https" && negb (bool_decide (u_Host u = [])) && negb (u_User u) && bool_decide (u_Fragment u = [])
  | None => false
  end.
Definition one_of_two (value a b : string) : bool := String.eqb value a || String.eqb value b.
Fixpoint validate_CAs (previous : string) (l : list CertificateAuthority) : check :=
  match l with
  | [] => Ok tt
  | a :: l =>
      _ ← reject_if (negb (identifierPattern (au_ID a)) || out_of_order previous (au_ID a)) "identifiers are invalid, duplicate, or unsorted";
      _ ← reject_if (negb (authority_url_ok (au_DirectoryURL a))) ("invalid directory URL for " +:+ au_ID a);
      _ ← reject_if (negb (one_of_two (au_Environment a) "production" "staging")) ("invalid environment for " +:+ au_ID a);
      _ ← reject_if (negb (one_of_two (au_Origin a) CAOriginBuiltIn CAOriginFixedCustom)) ("invalid origin for " +:+ au_ID a);
      _ ← reject_if (String.eqb (au_Origin a) CAOriginBuiltIn && negb (String.eqb (au_UpstreamCode a) (au_ID a))) ("built-in code mismatch for " +:+ au_ID a);
      validate_CAs (au_ID a) l
  end.
Definition validateCAs (l : list CertificateAuthority) : check :=
  _ ← reject_if (blen l =? 0) "empty catalog";
  validate_CAs "" l.

Definition canonical_line (a : CertificateAuthority) : bytes :=
  to_bytes (au_ID a) ++ z2b 9 :: to_bytes (au_DirectoryURL a) ++ z2b 9 :: to_bytes (au_Environment a) ++ [line_feed].
Definition canonicalCADigest (l : list CertificateAuthority) : string := hex_digest (l ≫= canonical_line).

Definition validateCompiledCatalog (c : CompiledCatalog) (e : Evidence) : check :=
  _ ← map_err (fun t => "compiled CA catalog: " +:+ t) (validateCAs (cc_CertificateAuthorities c));
  _ ← reject_if (negb (String.eqb (canonicalCADigest (cc_CertificateAuthorities c)) (ev_CACatalogSHA256 e))) "compiled CA catalog digest mismatch";
  _ ← map_err (fun t => "compiled challenge catalog: " +:+ t) (validateChallenges (cc_ChallengeModes c));
  _ ← map_err (fun t => "compiled DNS provider catalog: " +:+ t) (validateSortedUnique (cc_DNSProviderCodes c) true);
  _ ← reject_if (negb (ci_Count (cc_DNSProviders c) =? blen (cc_DNSProviderCodes c)) || negb (hex64Pattern (ci_SHA256 (cc_DNSProviders c))))
        "compiled DNS provider identity mismatch";
  reject_if (negb (String.eqb (hex_digest (join_with line_feed (to_bytes <$> cc_DNSProviderCodes c) ++ [line_feed])) (ci_SHA256 (cc_DNSProviders c))))
    "compiled DNS provider digest mismatch".

Definition validate_supported_authority (compiled : CompiledCatalog) (a : CertificateAuthority) : check :=
  if String.eqb (au_Origin a) CAOriginFixedCustom then reject_if (negb (empty (au_UpstreamCode a))) ("fixed custom CA has an upstream code " +:+ au_ID a)
  else reject_if (negb (bool_decide (a ∈ cc_CertificateAuthorities compiled))) ("supported CA is not in compiled catalog " +:+ au_ID a).
Definition validateSupportedCatalog (compiled : CompiledCatalog) (s : SupportedCatalog) : check :=
  _ ← map_err (fun t => "supported CA catalog: " +:+ t) (validateCAs (sc_CertificateAuthorities s));
  _ ← for_each (validate_supported_authority compiled) (sc_CertificateAuthorities s);
  _ ← map_err (fun t => "supported challenge catalog: " +:+ t) (validateChallenges (sc_ChallengeModes s));
  _ ← for_each (fun c => reject_if (negb (bool_decide (c ∈ cc_ChallengeModes compiled))) ("supported challenge is not compiled " +:+ cm_ID c)) (sc_ChallengeModes s);
  _ ← map_err (fun t => "supported DNS provider catalog: " +:+ t) (validateSortedUnique (sc_DNSProviderCodes s) true);
  for_each (fun p => reject_if (negb (bool_decide (p ∈ cc_DNSProviderCodes compiled))) ("supported DNS provider is not compiled " +:+ p)) (sc_DNSProviderCodes s).

Fixpoint validate_providers (l : list ProviderEvidence) (codes : list string) : check :=
  match l, codes with
  | p :: l, code :: codes =>
      _ ← reject_if (negb (String.eqb (pv_Code p) code) || negb (hex40Pattern (pv_DirectoryTree p)) || negb (hex64Pattern (pv_DirectorySHA256 p))
                     || negb (hex64Pattern (pv_DescriptorSHA256 p))) ("invalid supported provider evidence for " +:+ pv_Code p);
      validate_providers l codes
  | _, _ => Ok tt
  end.

Definition version_fixture_ok (m : Manifest) (e : ExecutableEvidence) : bool :=
  match ParseVersionOutput (to_bytes (ex_VersionOutput e) ++ [line_feed]) with
  | Ok (version, platform, line) =>
      bool_decide (version = ru_Version (cp_Runtime m)) && bool_decide (platform = ex_Platform e) && String.eqb line (ex_VersionOutput e)
  | Err _ => false
  end.
Definition executable_key (e : ExecutableEvidence) : string := pl_OS (ex_Platform e) +:+ "/" +:+ pl_Arch (ex_Platform e) +:+ "/" +:+ ex_SHA256 e.
Definition validate_executable (m : Manifest) (e : ExecutableEvidence) : check :=
  _ ← reject_if (negb (version_fixture_ok m e)) "executable version fixture mismatch";
  _ ← reject_if (empty (ex_GoVersion e) || negb (String.eqb (ex_ModuleVersion e) (ru_ModuleVersion (cp_Runtime m)))
                 || negb (String.eqb (ex_VCSRevision e) (ru_VCSRevision (cp_Runtime m))) || ex_VCSModified e) "executable build fixture mismatch";
  if ex_OfficialBinary e then
    reject_if (empty (ex_ArchiveName e) || negb (hex64Pattern (ex_ArchiveSHA256 e)) || negb (hex64Pattern (ex_PublishedChecksumsSHA256 e)))
      "official executable provenance is incomplete"
  else reject_if (negb (empty (ex_ArchiveName e)) || negb (empty (ex_ArchiveSHA256 e)) || negb (empty (ex_PublishedChecksumsSHA256 e)))
         "local source fixture claims release archive provenance".
Fixpoint validate_executables (m : Manifest) (seen : list string) (l : list ExecutableEvidence) : check :=
  match l with
  | [] => Ok tt
  | e :: l =>
      _ ← reject_if (negb (Supported (ex_Platform e)) || negb (hex64Pattern (ex_SHA256 e))
                     || (ex_Executed e && negb (bool_decide (ex_Platform e ∈ cp_Platforms m)))) "invalid executable evidence platform or digest";
      _ ← reject_if (bool_decide (executable_key e ∈ seen)) "duplicate executable evidence";
      _ ← validate_executable m e;
      validate_executables m (executable_key e :: seen) l
  end.

(** The first loop ranges over a Go map: which of several invalid digests is
    named varies. *)
Definition validateEvidence (m : Manifest) : check :=
  let e := cp_Evidence m in
  _ ← for_each (fun p => reject_if (negb (hex64Pattern p.2)) ("invalid " +:+ p.1 +:+ " digest"))
        [("provider catalog bundle", ev_ProviderCatalogBundleSHA256 e); ("CA catalog", ev_CACatalogSHA256 e);
         ("CA source bundle", ev_CASourceBundleSHA256 e); ("challenge bundle", ev_ChallengeBundleSHA256 e)];
  _ ← reject_if (negb (blen (ev_SupportedProviders e) =? blen (sc_DNSProviderCodes (cp_Supported m)))) "supported provider evidence count mismatch";
  _ ← validate_providers (ev_SupportedProviders e) (sc_DNSProviderCodes (cp_Supported m));
  _ ← reject_if (blen (ev_Executables e) =? 0) "no executable evidence fixture";
  validate_executables m [] (ev_Executables e).

Definition is_kind (k : VersionKind) (m : Manifest) : bool := bool_decide (vi_Kind (ru_Version (cp_Runtime m)) = k).
(** The identities a manifest is about. *)
Definition validate_identity (m : Manifest) : check :=
  let r := cp_Runtime m in
  let s := cp_Source m in
  _ ← reject_if (negb (identifierPattern (cp_ID m))) "invalid ID";
  _ ← reject_if (negb (String.eqb (so_Repository s) upstreamRepository) || negb (hex40Pattern (so_Commit s))) "invalid source identity";
  _ ← reject_if (negb (String.eqb (ru_VCSRevision r) (so_Commit s)) || negb (ru_RequireClean r)) "runtime must require the clean source commit";
  _ ← reject_if (negb (String.eqb (ru_CommandPath r) upstreamModule) || negb (String.eqb (ru_ModulePath r) upstreamModule)
                 || empty (ru_ModuleVersion r) || negb (hex64Pattern (ru_DependencyGraphSHA256 r))) "invalid Go module identity";
  _ ← reject_if (negb (is_kind VersionRelease m) && negb (is_kind VersionRevision m)) "invalid version kind";
  _ ← reject_if (empty (vi_Value (ru_Version r)) || (blen (ru_VersionTokens r) =? 0)) "missing exact version identity";
  _ ← map_err (fun t => "version tokens: " +:+ t) (validateSortedUnique (ru_VersionTokens r) false);
  _ ← reject_if (is_kind VersionRevision m && negb (String.eqb (vi_Value (ru_Version r)) (so_Commit s))) "source revision does not equal source commit";
  _ ← reject_if (is_kind VersionRelease m && empty (so_Tag s)) "release manifest has no tag";
  reject_if (negb (empty (so_TagObject s)) && negb (hex40Pattern (so_TagObject s))) "invalid tag object".
Definition validateManifest (m : Manifest) : check :=
  _ ← validate_identity m;
  _ ← validatePlatforms (cp_Platforms m);
  _ ← map_err (fun t => "schema: " +:+ t) (validateAsset (cp_Schema m));
  _ ← map_err (fun t => "license: " +:+ t) (validateAsset (cp_License m));
  _ ← validateCompiledCatalog (cp_Compiled m) (cp_Evidence m);
  _ ← validateSupportedCatalog (cp_Compiled m) (cp_Supported m);
  validateEvidence m.

Definition gitBlobObjectID (content : bytes) : string := hex (sha1 (to_bytes "blob " ++ itoa (blen content) ++ z2b 0 :: content)).
Definition check_asset (id label : string) (a : AssetIdentity) (content : bytes) : check :=
  _ ← reject_if (negb (String.eqb (hex_digest content) (as_SHA256 a))) ("manifest " +:+ id +:+ ": bundled " +:+ label +:+ " SHA-256 mismatch");
  reject_if (negb (String.eqb (gitBlobObjectID content) (as_GitBlob a))) ("manifest " +:+ id +:+ ": bundled " +:+ label +:+ " Git blob mismatch").
Definition validateBundledAssetProvenance (l : list Manifest) : check :=
  for_each (fun m => _ ← check_asset (cp_ID m) "schema" (cp_Schema m) bundledSchema; check_asset (cp_ID m) "license" (cp_License m) bundledLicense) l.

Fixpoint validate_manifests (ids : list string) (identities : list VersionIdentity) (l : list Manifest) : check :=
  match l with
  | [] => Ok tt
  | m :: l =>
      _ ← reject_if (bool_decide (cp_ID m ∈ ids)) ("duplicate manifest ID " +:+ cp_ID m);
      _ ← reject_if (bool_decide (ru_Version (cp_Runtime m) ∈ identities)) "duplicate runtime identity";
      _ ← map_err (fun t => "manifest " +:+ cp_ID m +:+ ": " +:+ t) (validateManifest m);
      validate_manifests (cp_ID m :: ids) (ru_Version (cp_Runtime m) :: identities) l
  end.
Definition validateManifests (l : list Manifest) : check :=
  _ ← reject_if (blen l =? 0) "no manifests";
  _ ← validate_manifests [] [] l;
  validateBundledAssetProvenance l.

(** An error stops the program. *)
Definition mustBuildManifests : result string (list Manifest) :=
  l ← buildManifests;
  _ ← map_err (fun t => "invalid embedded compatibility manifests: " +:+ t) (validateManifests l);
  Ok l.
End Validation.

(** ** Classification *)

Inductive Code :=
| CodeCompatible | CodeUnknownIdentity | CodeUnsupportedPlatform | CodeExecutableDigestMismatch | CodeVersionOutputMismatch | CodeBuildEvidenceMissing
| CodeBuildEvidenceIncomplete | CodeBuildModuleMismatch | CodeBuildVersionMismatch | CodeBuildToolchainMismatch | CodeBuildDependencyMismatch
| CodeBuildPlatformMismatch | CodeBuildRevisionMismatch | CodeBuildModified | CodeObservationInvalid.
#[export] Instance Code_eq_dec : EqDecision Code.
Proof. solve_decision. Defined.
Record Result := mk_result { rs_Code : Code; rs_ManifestID : string; rs_Detail : string }.
Definition Compatible (r : Result) : bool := bool_decide (rs_Code r = CodeCompatible).

Definition manifestForVersion (l : list Manifest) (v : VersionIdentity) : option Manifest :=
  List.find (fun m => bool_decide (ru_Version (cp_Runtime m) = v)) l.
Definition qualifiedExecutable (m : Manifest) (p : Platform) (digest : string) : option ExecutableEvidence :=
  List.find (fun e => ex_Executed e && bool_decide (ex_Platform e = p) && String.eqb (ex_SHA256 e) digest) (ev_Executables (cp_Evidence m)).

Definition build_incomplete (b : BuildEvidence) : bool :=
  negb (be_ProvenanceComplete b) || empty (be_GoVersion b) || empty (be_CommandPath b) || empty (be_MainPath b) || empty (be_MainVersion b)
  || empty (be_DependencyGraphSHA256 b) || empty (be_GOOS b) || empty (be_GOARCH b) || empty (be_VCSRevision b)
  || negb (be_VCSModifiedKnown b) || negb (be_VCSModifiedValid b).
(** The code and the detail of the build evidence against a manifest and its
    qualified executable. *)
Definition classify_build (m : Manifest) (e : ExecutableEvidence) (o : Observation) : Code * string :=
  let b := ob_Build o in
  let r := cp_Runtime m in
  if negb (be_Available b) then (CodeBuildEvidenceMissing, "embedded Go build evidence is required")
  else if build_incomplete b then (CodeBuildEvidenceIncomplete, "embedded Go build evidence is incomplete")
  else if negb (String.eqb (be_CommandPath b) (ru_CommandPath r)) || negb (String.eqb (be_MainPath b) (ru_ModulePath r))
  then (CodeBuildModuleMismatch, "embedded main module does not match upstream lego")
  else if negb (String.eqb (be_GoVersion b) (ex_GoVersion e))
  then (CodeBuildToolchainMismatch, "embedded Go toolchain does not match the qualified artifact")
  else if negb (String.eqb (be_MainVersion b) (ru_ModuleVersion r))
  then (CodeBuildVersionMismatch, "embedded main module version does not match the exact manifest")
  else if negb (String.eqb (be_DependencyGraphSHA256 b) (ru_DependencyGraphSHA256 r))
  then (CodeBuildDependencyMismatch, "embedded dependency graph does not match the exact manifest")
  else if negb (String.eqb (be_GOOS b) (pl_OS (ob_Platform o))) || negb (String.eqb (be_GOARCH b) (pl_Arch (ob_Platform o)))
  then (CodeBuildPlatformMismatch, "embedded build platform disagrees with version output")
  else if negb (String.eqb (be_VCSRevision b) (ru_VCSRevision r))
  then (CodeBuildRevisionMismatch, "embedded VCS revision does not match the exact manifest")
  else if ru_RequireClean r && be_VCSModified b then (CodeBuildModified, "modified source builds are not compatible")
  else (CodeCompatible, "the audited executable matches the exact source-backed manifest").

Definition Classify (manifests : list Manifest) (o : Observation) : Result :=
  match manifestForVersion manifests (ob_Version o) with
  | None => mk_result CodeUnknownIdentity "" "no exact compatibility manifest matches the reported identity"
  | Some m =>
      let result code detail := mk_result code (cp_ID m) detail in
      if negb (hex64Pattern (xf_SHA256 (ob_File o)))
      then result CodeObservationInvalid "the audited executable fingerprint is missing or malformed"
      else if negb (bool_decide (ob_Platform o ∈ cp_Platforms m))
      then result CodeUnsupportedPlatform
             ("platform " +:+ pl_OS (ob_Platform o) +:+ "/" +:+ pl_Arch (ob_Platform o) +:+ " is not admitted by the exact manifest")
      else
        match qualifiedExecutable m (ob_Platform o) (xf_SHA256 (ob_File o)) with
        | None => result CodeExecutableDigestMismatch
                    "the executable bytes are not an independently qualified artifact for this manifest and platform"
        | Some e =>
            if negb (String.eqb (ob_VersionOutput o) (ex_VersionOutput e))
            then result CodeVersionOutputMismatch "version output is not an exact reviewed form for the manifest and platform"
            else let '(code, detail) := classify_build m e o in result code detail
        end
  end.

(** ** Lookups *)

Definition Lookup (l : list Manifest) (id : string) : option Manifest := List.find (fun m => String.eqb (cp_ID m) id) l.
Definition QualifiedExecutableSHA256s (l : list Manifest) : list string :=
  let executed := List.filter ex_Executed (l ≫= fun m => ev_Executables (cp_Evidence m)) in
  sort_by id_le (elements (list_to_set (C := gset string) (ex_SHA256 <$> executed))).
Definition Schema `{Digests} `{Assets} (l : list Manifest) (id : string) : result string bytes :=
  match Lookup l id with
  | None => Err "unknown manifest"
  | Some m => if String.eqb (hex_digest bundledSchema) (as_SHA256 (cp_Schema m)) then Ok bundledSchema else Err "schema digest mismatch"
  end.

(** What [mustBuildManifests] leaves when it does not stop the program. *)
Definition exactManifests : list Manifest := match buildManifests with Ok l => l | Err _ => [] end.
