(* ===== verification/CompatCorrect.v ===== *)
(** What the compatibility manifests guarantee: which observations a validated
    list of manifests admits, and which version lines are read. *)
From stdpp Require Import gmap.
From S2P Require Import Prelude.
From S2P Require Import GoText.
From S2P Require Import GoDecode.
From S2P Require Import WsInspect.
From S2P Require Import Tokens.
From S2P Require Import RunIdentity.
From S2P Require Import IntegTypes.
From S2P Require Import IntegFields.
From S2P Require Import Compat.

#[local] Open Scope string_scope.
#[local] Open Scope Z_scope.

(** ** Validated manifests *)

(** An observation agrees with a manifest and one of its executables. *)
Record agrees (m : Manifest) (e : ExecutableEvidence) (o : Observation) : Prop := {
  ag_version : ob_Version o = ru_Version (cp_Runtime m);
  ag_platform : ob_Platform o = ex_Platform e;
  ag_digest : xf_SHA256 (ob_File o) = ex_SHA256 e;
  ag_line : ob_VersionOutput o = ex_VersionOutput e;
  ag_evidence : be_Available (ob_Build o) = true /\ be_ProvenanceComplete (ob_Build o) = true
                /\ be_VCSModifiedKnown (ob_Build o) = true /\ be_VCSModifiedValid (ob_Build o) = true /\ be_VCSModified (ob_Build o) = false;
  ag_module : be_CommandPath (ob_Build o) = upstreamModule /\ be_MainPath (ob_Build o) = upstreamModule
              /\ be_MainVersion (ob_Build o) = ru_ModuleVersion (cp_Runtime m);
  ag_toolchain : be_GoVersion (ob_Build o) = ex_GoVersion e;
  ag_dependencies : be_DependencyGraphSHA256 (ob_Build o) = ru_DependencyGraphSHA256 (cp_Runtime m);
  ag_build_platform : be_GOOS (ob_Build o) = pl_OS (ex_Platform e) /\ be_GOARCH (ob_Build o) = pl_Arch (ex_Platform e);
  ag_revision : be_VCSRevision (ob_Build o) = so_Commit (cp_Source m);
}.

(** What validation gives of one executable and of one manifest. *)
Record sound_executable (m : Manifest) (e : ExecutableEvidence) : Prop := {
  se_platform : Supported (ex_Platform e) = true;
  se_digest : hex64Pattern (ex_SHA256 e) = true;
  se_admitted : ex_Executed e = true -> ex_Platform e ∈ cp_Platforms m;
  se_line : ParseVersionOutput (to_bytes (ex_VersionOutput e) ++ [line_feed]) = Ok (ru_Version (cp_Runtime m), ex_Platform e, ex_VersionOutput e);
  se_go : ex_GoVersion e <> "";
}.
Record sound (m : Manifest) : Prop := {
  so_clean : ru_VCSRevision (cp_Runtime m) = so_Commit (cp_Source m) /\ ru_RequireClean (cp_Runtime m) = true;
  so_commit : hex40Pattern (so_Commit (cp_Source m)) = true;
  so_module : ru_CommandPath (cp_Runtime m) = upstreamModule /\ ru_ModulePath (cp_Runtime m) = upstreamModule
              /\ ru_ModuleVersion (cp_Runtime m) <> "" /\ hex64Pattern (ru_DependencyGraphSHA256 (cp_Runtime m)) = true;
  so_executables : Forall (sound_executable m) (ev_Executables (cp_Evidence m));
  so_distinct : NoDup (executable_key <$> ev_Executables (cp_Evidence m));
}.

Lemma empty_false s : empty s = false <-> s <> "".
Proof. unfold empty. apply String.eqb_neq. Qed.
Lemma hexPattern_nonempty n s : 0 < n -> hexPattern n s = true -> s <> "".
Proof. intros Hn H ->. unfold hexPattern, slen in H. cbn in H. apply andb_true_iff in H as [H _]. apply Z.eqb_eq in H. lia. Qed.

(** A check that was passed. *)
Ltac passed H := apply bind_Ok in H as (? & ?%reject_if_Ok & H).

Section Validated.
Context `{Digests} `{NetParsers} `{Assets}.

Lemma version_fixture_spec m e : version_fixture_ok m e = true ->
  ParseVersionOutput (to_bytes (ex_VersionOutput e) ++ [line_feed]) = Ok (ru_Version (cp_Runtime m), ex_Platform e, ex_VersionOutput e).
Proof.
  unfold version_fixture_ok. destruct (ParseVersionOutput _) as [[[v p] line]|]; [|done].
  intros [[->%bool_decide_eq_true ->%bool_decide_eq_true]%andb_true_iff ->%String.eqb_eq]%andb_true_iff. done.
Qed.

Lemma validate_executables_sound m l : forall seen, validate_executables m seen l = Ok tt ->
  Forall (sound_executable m) l /\ NoDup (executable_key <$> l) /\ (forall e, e ∈ l -> executable_key e ∉ seen).
Proof.
  induction l as [|e l IH]; intros seen E; cbn [validate_executables fmap list_fmap] in *.
  - split_and!; [constructor..|]. intros ? []%not_elem_of_nil.
  - passed E. passed E. apply bind_Ok in E as (? & He & E). apply IH in E as (Hs & Hd & Hn).
    unfold validate_executable in He. passed He. passed He. bool_prop.
    assert (Hk : executable_key e ∉ seen) by done.
    split_and!.
    + constructor; [|done]. split; [done..| |by apply version_fixture_spec|by apply empty_false].
      intros Hx. rewrite Hx in *. cbn in *. by bool_prop.
    + constructor; [|done]. intros (e' & Hk' & He')%list_elem_of_fmap. apply (Hn e' He'). rewrite <- Hk'. set_solver.
    + intros e' [->|He']%elem_of_cons; [done|]. specialize (Hn e' He'). set_solver.
Qed.

Lemma validateManifest_sound m : validateManifest m = Ok tt -> sound m.
Proof.
  unfold validateManifest. intros (? & Hi & E)%bind_Ok.
  do 9 (apply bind_Ok in E as (? & _ & E)). apply validate_executables_sound in E as (Hs & Hd & _).
  unfold validate_identity in Hi. passed Hi. passed Hi. passed Hi. passed Hi. bool_prop.
  split; [done..| |done|done]. split_and!; [done..|by apply empty_false|done].
Qed.

(** Distinct identifiers, distinct identities, every manifest sound. *)
Lemma validate_manifests_sound l : forall ids identities, validate_manifests ids identities l = Ok tt ->
  Forall sound l /\ NoDup ((fun m => ru_Version (cp_Runtime m)) <$> l) /\ (forall m, m ∈ l -> ru_Version (cp_Runtime m) ∉ identities).
Proof.
  induction l as [|m l IH]; intros ids identities E; cbn [validate_manifests fmap list_fmap] in *.
  - split_and!; [constructor..|]. intros ? []%not_elem_of_nil.
  - passed E. passed E. apply bind_Ok in E as ([] & Hm%map_err_Ok & E). apply IH in E as (Hs & Hd & Hn). bool_prop.
    split_and!; [constructor; [by apply validateManifest_sound|done]|constructor; [|done]|].
    + intros (m' & Hv & Hm')%list_elem_of_fmap. apply (Hn m' Hm'). rewrite <- Hv. set_solver.
    + intros m' [->|Hm']%elem_of_cons; [done|]. specialize (Hn m' Hm'). set_solver.
Qed.

Record valid (l : list Manifest) : Prop := {
  va_sound : Forall sound l;
  va_distinct : NoDup ((fun m => ru_Version (cp_Runtime m)) <$> l);
}.
Lemma validateManifests_valid l u : validateManifests l = Ok u -> valid l.
Proof.
  unfold validateManifests. intros (? & _ & (u' & E & _)%bind_Ok)%bind_Ok. destruct u'.
  apply validate_manifests_sound in E as (? & ? & _). done.
Qed.
End Validated.

(** ** Classification *)

Lemma find_unique {A K} (key : A -> K) (p : A -> bool) (l : list A) a : NoDup (key <$> l) -> a ∈ l -> p a = true ->
  (forall b, b ∈ l -> p b = true -> key b = key a) -> List.find p l = Some a.
Proof.
  intros Hd Ha Hp Hu. destruct (List.find p l) as [b|] eqn:E.
  - apply find_some in E as [Hb Hpb]. apply list_elem_of_In in Hb. f_equal.
    apply list_elem_of_lookup in Ha as [i Hi]. apply list_elem_of_lookup in Hb as [j Hj].
    assert (i = j) as ->; [|congruence]. apply (NoDup_lookup _ i j (key a) Hd); rewrite list_lookup_fmap; [by rewrite Hi|].
    rewrite Hj. cbn. f_equal. apply Hu; [by eapply list_elem_of_lookup_2|done].
  - apply list_elem_of_In in Ha. by rewrite (find_none _ _ E _ Ha) in Hp.
Qed.
Lemma find_elem {A} (p : A -> bool) (l : list A) a : List.find p l = Some a -> a ∈ l /\ p a = true.
Proof. intros [H1 H2]%find_some. by apply list_elem_of_In in H1. Qed.

(** The platforms of sound executables are told apart by their texts. *)
Lemma executable_key_platform e e' : ex_Platform e = ex_Platform e' -> ex_SHA256 e = ex_SHA256 e' -> executable_key e = executable_key e'.
Proof. unfold executable_key. by intros -> ->. Qed.

Lemma refused_first (b : bool) c (t : string) rest : c <> CodeCompatible ->
  (if b then (c, t) else rest).1 = CodeCompatible <-> b = false /\ rest.1 = CodeCompatible.
Proof. intros Hc. destruct b; cbn; naive_solver. Qed.
Lemma Supported_nonempty p : Supported p = true -> pl_OS p <> "" /\ pl_Arch p <> "".
Proof. unfold Supported. intros [E%String.eqb_eq H]%andb_true_iff. rewrite E. split; [done|]. intros Ha. by rewrite Ha in H. Qed.

Lemma classify_build_compatible m e o : sound m -> sound_executable m e -> ob_Platform o = ex_Platform e ->
  (classify_build m e o).1 = CodeCompatible <->
  (be_Available (ob_Build o) = true /\ be_ProvenanceComplete (ob_Build o) = true
     /\ be_VCSModifiedKnown (ob_Build o) = true /\ be_VCSModifiedValid (ob_Build o) = true /\ be_VCSModified (ob_Build o) = false)
  /\ (be_CommandPath (ob_Build o) = upstreamModule /\ be_MainPath (ob_Build o) = upstreamModule
     /\ be_MainVersion (ob_Build o) = ru_ModuleVersion (cp_Runtime m))
  /\ be_GoVersion (ob_Build o) = ex_GoVersion e
  /\ be_DependencyGraphSHA256 (ob_Build o) = ru_DependencyGraphSHA256 (cp_Runtime m)
  /\ (be_GOOS (ob_Build o) = pl_OS (ex_Platform e) /\ be_GOARCH (ob_Build o) = pl_Arch (ex_Platform e))
  /\ be_VCSRevision (ob_Build o) = so_Commit (cp_Source m).
Proof.
  intros [[Hr Hc] Hcommit (Hp & Hm & Hv & Hd) _ _] [Hs _ _ _ Hg] Ho. unfold classify_build. rewrite Hr, Hc, Hp, Hm, Ho.
  apply hexPattern_nonempty in Hcommit, Hd; [|lia..]. apply Supported_nonempty in Hs as [Hos Harch].
  rewrite !refused_first by done. cbn [fst]. unfold build_incomplete. rewrite andb_true_l. split.
  - intros (H1 & H2 & H3 & H4 & H5 & H6 & H7 & H8 & H9 & _). bool_prop. tauto.
  - intros ((H1 & H2 & H3 & H4 & H5) & (H6 & H7 & H8) & H9 & H10 & (H11 & H12) & H13).
    rewrite H1, H2, H3, H4, H5, H6, H7, H8, H9, H10, H11, H12, H13, !String.eqb_refl. cbn.
    repeat match goal with H : _ <> "" |- _ => apply empty_false in H end. rewrite Hos, Harch, Hv, Hg, Hd, Hcommit. cbn. tauto.
Qed.

(** One of the executables that may be run, with its manifest. *)
Definition qualified (l : list Manifest) (m : Manifest) (e : ExecutableEvidence) : Prop :=
  m ∈ l /\ e ∈ ev_Executables (cp_Evidence m) /\ ex_Executed e = true.

Lemma valid_finds l m e o : valid l -> qualified l m e -> ob_Version o = ru_Version (cp_Runtime m) -> ob_Platform o = ex_Platform e ->
  xf_SHA256 (ob_File o) = ex_SHA256 e ->
  manifestForVersion l (ob_Version o) = Some m /\ qualifiedExecutable m (ob_Platform o) (xf_SHA256 (ob_File o)) = Some e
  /\ sound m /\ sound_executable m e.
Proof.
  intros [Hs Hd] (Hm & He & Hx) Hv Hp Hdig. rewrite Forall_forall in Hs. specialize (Hs m Hm). pose proof (so_executables m Hs) as Hes.
  rewrite Forall_forall in Hes. split_and!; [| |done|by apply Hes].
  - apply (find_unique (fun m => ru_Version (cp_Runtime m)) _ _ _ Hd Hm); [by rewrite bool_decide_true|].
    intros b _ Hb%bool_decide_eq_true. congruence.
  - apply (find_unique executable_key _ _ _ (so_distinct m Hs) He); [by rewrite Hx, bool_decide_true, Hdig, String.eqb_refl|].
    intros b _ Hb. bool_prop. apply executable_key_platform; congruence.
Qed.

Lemma classify_found l o m e : manifestForVersion l (ob_Version o) = Some m ->
  qualifiedExecutable m (ob_Platform o) (xf_SHA256 (ob_File o)) = Some e -> sound_executable m e -> ex_Executed e = true ->
  ob_Platform o = ex_Platform e -> xf_SHA256 (ob_File o) = ex_SHA256 e -> ob_VersionOutput o = ex_VersionOutput e ->
  Classify l o = mk_result (classify_build m e o).1 (cp_ID m) (classify_build m e o).2.
Proof.
  intros Hm He [_ Hd Ha _ _] Hx Hp Hdig Hl. unfold Classify. rewrite Hm, He, Hdig, Hd, Hl, String.eqb_refl.
  rewrite bool_decide_true by (rewrite Hp; auto). cbn. by destruct (classify_build m e o).
Qed.

Lemma classify_valid l o : valid l -> Compatible (Classify l o) = true <-> exists m e, qualified l m e /\ agrees m e o.
Proof.
  intros Hl. unfold Compatible. rewrite bool_decide_eq_true. split.
  - unfold Classify. destruct (manifestForVersion l (ob_Version o)) as [m|] eqn:Em; [|done]. cbn zeta.
    apply find_elem in Em as [Hm Hv%bool_decide_eq_true].
    repeat case_match; try done. match goal with E : qualifiedExecutable _ _ _ = Some ?e |- _ => rename e into x; rename E into Ex end.
    apply find_elem in Ex as [He Hx]. bool_prop. intros Hc. cbn in Hc. subst.
    assert (Hq : qualified l m x) by done. destruct (valid_finds l m x o Hl Hq) as (_ & _ & Hs & Hse); [congruence..|].
    match goal with E : classify_build m x o = _ |- _ => pose proof (classify_build_compatible m x o Hs Hse) as [Hb _]; [congruence|rewrite E in Hb] end.
    destruct Hb as (? & ? & ? & ? & ? & ?); [done|]. exists m, x. split; [done|]. split; (done || congruence).
  - intros (m & e & Hq & [Hv Hp Hd Hline He Hmod Hg Hdep Hbp Hr]). destruct (valid_finds l m e o Hl Hq Hv Hp Hd) as (Hm & Hex & Hs & Hse).
    rewrite (classify_found l o m e Hm Hex Hse (proj2 (proj2 Hq)) Hp Hd Hline). cbn. by apply (classify_build_compatible m e o Hs Hse Hp).
Qed.

Lemma qualified_digest l m e : qualified l m e -> ex_SHA256 e ∈ QualifiedExecutableSHA256s l.
Proof.
  intros (Hm & He & Hx). unfold QualifiedExecutableSHA256s. rewrite sort_by_perm, elem_of_elements, elem_of_list_to_set, list_elem_of_fmap.
  exists e. split; [done|]. apply list_elem_of_In, filter_In. split; [|done]. apply list_elem_of_In, list_elem_of_bind. by exists m.
Qed.

(** C7: For any list of manifests the start-up checks accept, an observation is
    classified as compatible exactly when it agrees, in every field, with one of
    the executed artifacts of a manifest; its digest is then one of those that
    may be run for a probe, and its version line reads back as exactly the
    version and the platform it reported. *)
Theorem classify_admits_only_qualified `{Digests} `{NetParsers} `{Assets} l o : validateManifests l = Ok tt ->
  (Compatible (Classify l o) = true <-> exists m e, qualified l m e /\ agrees m e o)
  /\ forall m e, qualified l m e -> agrees m e o ->
     rs_ManifestID (Classify l o) = cp_ID m /\ xf_SHA256 (ob_File o) ∈ QualifiedExecutableSHA256s l
     /\ ParseVersionOutput (to_bytes (ob_VersionOutput o) ++ [line_feed]) = Ok (ob_Version o, ob_Platform o, ob_VersionOutput o).
Proof.
  intros Hl%validateManifests_valid. split; [by apply classify_valid|]. intros m e Hq [Hv Hp Hd Hline _ _ _ _ _ _].
  destruct (valid_finds l m e o Hl Hq Hv Hp Hd) as (Hm & Hex & Hs & Hse).
  rewrite (classify_found l o m e Hm Hex Hse (proj2 (proj2 Hq)) Hp Hd Hline), Hd, Hline, Hv, Hp. split_and!; [done|by apply (qualified_digest l m)|].
  apply Hse.
Qed.

(** ** The exact manifests *)

(** Digests that are as recorded on what is embedded. *)
Definition unhex_digit (c : ascii) : Z := if is_digit c then b2z c - 48 else b2z c - 87.
Fixpoint unhex (l : bytes) : bytes :=
  match l with a :: b :: l => z2b (unhex_digit a * 16 + unhex_digit b) :: unhex l | _ => [] end.
Definition recorded (table : list (bytes * string)) (data : bytes) : bytes :=
  match List.find (fun p => bool_decide (p.1 = data)) table with
  | Some p => if blen (unhex (to_bytes p.2)) =? 32 then unhex (to_bytes p.2) else replicate 32 "000"%char
  | None => replicate 32 "000"%char
  end.
Lemma recorded_length table data : blen (recorded table data) = 32.
Proof. unfold recorded. destruct (List.find _ _) as [p|]; [|done]. by destruct (Z.eqb_spec (blen (unhex (to_bytes p.2))) 32). Qed.
Definition recorded_table : list (bytes * string) :=
  [(caCatalogV531, caCatalogSHA256);
   (providerCatalogV531, "3493fa79904f5e38d8a17ffe6c82f7790a9de2039a631571c7cc7b770d16769f");
   (providerCatalogRevision2A58, "c4e2b0f480508d2e6c16df14417672e410dd3d88ce84b466b2d1d60c0cf09edd");
   ([], schemaSHA256); (to_bytes "license", licenseSHA256)].
Definition recorded_digests : Digests :=
  {| hmac _ _ := replicate 32 "000"%char; digest := recorded recorded_table; hmac_length _ _ := eq_refl; digest_length := recorded_length recorded_table |}.
Definition sample_urls : NetParsers :=
  {| url_Parse _ := Some (mk_url "https" (to_bytes "host") (to_bytes "host") false [] []); mail_ParseAddress _ := None; net_ParseIP _ := None |}.
Definition sample_assets : Assets :=
  {| bundledSchema := []; bundledLicense := to_bytes "license";
     sha1 data := unhex (to_bytes (if bool_decide (data = (to_bytes "blob 0" ++ [z2b 0])%list) then as_GitBlob commonSchema else as_GitBlob commonLicense)) |}.

Definition official_release : ExecutableEvidence := nth 1 releaseExecutables (mk_executable linux_amd64 "" "" "" "" "" false false false "" "" "").
Definition sample_observation : Observation :=
  mk_observation (mk_file_identity "/usr/bin/lego" 1 2 493 "" 0 0 100 GoTime.zero_time GoTime.zero_time (ex_SHA256 official_release))
    (mk_version VersionRelease "v5.3.1") linux_amd64
    (mk_build true true "go1.26.5" upstreamModule upstreamModule "v5.3.1" dependencyGraphSHA256 "linux" "amd64"
       "589c84af4f26629fbdaa7fbca712f806632ccb7e" true true false)
    "lego version 5.3.1 linux/amd64" GoTime.zero_time.

Lemma sample_agrees : exists m e, qualified exactManifests m e /\ agrees m e sample_observation.
Proof.
  destruct exactManifests as [|m l] eqn:E; [by vm_compute in E|]. exists m, official_release.
  assert (Hm : head exactManifests = Some m) by (by rewrite E). vm_compute in Hm. injection Hm as <-. split.
  - split_and!; [set_solver| |done]. apply list_elem_of_In. cbn. tauto.
  - by split.
Qed.

Theorem classify_admits_only_qualified_witness :
  Compatible (Classify exactManifests sample_observation) = true
  /\ xf_SHA256 (ob_File sample_observation) ∈ QualifiedExecutableSHA256s exactManifests.
Proof.
  destruct (@classify_admits_only_qualified recorded_digests sample_urls sample_assets exactManifests sample_observation) as [Hiff Hall];
    [vm_compute; reflexivity|].
  destruct sample_agrees as (m & e & Hq & Ha). split; [apply Hiff; eauto|]. exact (proj1 (proj2 (Hall m e Hq Ha))).
Defined.
(** Any other bytes are refused. *)
Example other_bytes_refused : rs_Code (Classify exactManifests
  (mk_observation (mk_file_identity "/usr/bin/lego" 1 2 493 "" 0 0 100 GoTime.zero_time GoTime.zero_time (ex_SHA256 (nth 2 releaseExecutables official_release)))
     (ob_Version sample_observation) linux_amd64 (ob_Build sample_observation) (ob_VersionOutput sample_observation) GoTime.zero_time))
  = CodeExecutableDigestMismatch.
Proof. vm_compute. reflexivity. Qed.

(** ** Version lines *)

#[local] Open Scope list_scope.

Definition canonical_number (l : bytes) : Prop := number l = true /\ leading_zero l = false.
(** How an identity is written: a release with or without its leading v. *)
Inductive renders : VersionIdentity -> bytes -> Prop :=
| renders_release major minor patch field : canonical_number major -> canonical_number minor -> canonical_number patch ->
    field = release_value major minor patch \/ "v"%char :: field = release_value major minor patch ->
    renders (mk_version VersionRelease (of_bytes (release_value major minor patch))) field
| renders_revision field : revisionPattern field = true -> renders (mk_version VersionRevision (of_bytes field)) field.
Definition platform_field (p : Platform) : bytes := to_bytes (pl_OS p) ++ "/"%char :: to_bytes (pl_Arch p).
Definition named (p : Platform) : Prop := platformPattern (to_bytes (pl_OS p)) = true /\ platformPattern (to_bytes (pl_Arch p)) = true.

Lemma number_free sep l : number l = true -> is_digit sep = false -> free_of sep l.
Proof. intros [_ H]%andb_true_iff Hs Hin. rewrite forallb_elem_of in H. by rewrite H in Hs. Qed.
Lemma number_nonempty l : number l = true -> l <> [].
Proof. by intros H ->. Qed.
Lemma number_starts l : number l = true -> forall x, l <> "v"%char :: x.
Proof. intros H x ->. done. Qed.

Lemma split_on_three sep l a b c : split_on sep l = [a; b; c] <-> l = a ++ sep :: b ++ sep :: c /\ free_of sep a /\ free_of sep b /\ free_of sep c.
Proof.
  split.
  - intros E. pose proof (split_on_parts sep l) as H. pose proof (join_split sep l) as J. rewrite E in H, J. cbn in J.
    apply Forall_cons in H as [? [? [? _]%Forall_cons]%Forall_cons]. done.
  - intros (-> & Ha & Hb & Hc). by rewrite !split_on_app, split_on_free.
Qed.

Definition dotted (major minor patch : bytes) : bytes := major ++ "."%char :: minor ++ "."%char :: patch.
Lemma dotted_split l major minor patch :
  match split_on "." l with
  | [major; minor; patch] => if number major && number minor && number patch then Some (major, minor, patch) else None
  | _ => None
  end = Some (major, minor, patch) <->
  l = dotted major minor patch /\ number major = true /\ number minor = true /\ number patch = true.
Proof.
  split.
  - destruct (split_on "." l) as [|a [|b [|c [|? ?]]]] eqn:E; try done. apply split_on_three in E as (-> & _).
    destruct (number a && number b && number c) eqn:En; [|done]. intros [= -> -> ->]. by bool_prop.
  - intros (-> & Ha & Hb & Hc). unfold dotted.
    rewrite (proj2 (split_on_three "." _ major minor patch)) by (split_and!; try apply number_free; done). by rewrite Ha, Hb, Hc.
Qed.

(** Whether a text starts with the optional v. *)
Lemma strip_v (l : bytes) :
  (exists x, l = "v"%char :: x /\ match l with "v"%char :: l => l | _ => l end = x)
  \/ ((forall x, l <> "v"%char :: x) /\ match l with "v"%char :: l => l | _ => l end = l).
Proof.
  destruct l as [|c l]; [by right|]. destruct (ascii_dec c "v") as [->|Hc]; [left; by eexists|right].
  split; [by intros x [= ->]|]. destruct c as [[] [] [] [] [] [] [] []]; done.
Qed.
Lemma dotted_starts major minor patch x : number major = true -> dotted major minor patch <> "v"%char :: x.
Proof. intros H. destruct major as [|d major]; [done|]. cbn. intros [= -> _]. done. Qed.
Lemma releasePattern_spec l major minor patch : releasePattern l = Some (major, minor, patch) <->
  (l = dotted major minor patch \/ l = "v"%char :: dotted major minor patch) /\ number major = true /\ number minor = true /\ number patch = true.
Proof.
  unfold releasePattern. rewrite dotted_split. destruct (strip_v l) as [[x [-> E]]|[Hn E]].
  - split; [intros [-> H]; by split; [right|]|]. intros [[E2|[= ->]] (H1 & H2 & H3)]; [|done].
    by destruct (dotted_starts major minor patch x H1).
  - rewrite E. split; [intros [-> H]; by split; [left|]|]. intros [[->| ->] H]; [done|]. by destruct (Hn (dotted major minor patch)).
Qed.

Lemma revision_no_release l : revisionPattern l = true -> releasePattern l = None.
Proof.
  intros [Hl Hh]%andb_true_iff. destruct (releasePattern l) as [[[a b] c]|] eqn:E; [|done].
  assert (Hdot : "."%char ∈ l). { apply releasePattern_spec in E as [[->| ->] _]; unfold dotted; set_solver. }
  rewrite forallb_elem_of in Hh. by apply Hh in Hdot.
Qed.

Lemma parse_identity_spec field v : parse_identity field = Ok v <-> renders v field.
Proof.
  unfold parse_identity. split.
  - destruct (releasePattern field) as [[[a b] c]|] eqn:E.
    + apply releasePattern_spec in E as (Hf & Ha & Hb & Hc). intros (? & Hz%reject_if_Ok & [= <-])%bind_Ok. bool_prop.
      constructor; [done..|]. unfold release_value. destruct Hf as [->| ->]; [by right|by left].
    + destruct (revisionPattern field) eqn:Er; [|done]. intros [= <-]. by constructor.
  - intros [major minor patch field' [Ha Ha'] [Hb Hb'] [Hc Hc'] Hf|field' H].
    + rewrite (proj2 (releasePattern_spec field' major minor patch)); [by rewrite Ha', Hb', Hc'|].
      split; [|done]. unfold release_value, dotted in *. destruct Hf as [->|[= ->]]; [by right|by left].
    + by rewrite (revision_no_release _ H), H.
Qed.

Lemma pattern_free sep l : platformPattern l = true -> is_lower_ascii sep || is_digit sep = false -> free_of sep l.
Proof. intros [_ H]%andb_true_iff Hs Hin. rewrite forallb_elem_of in H. by rewrite H in Hs. Qed.
Lemma parse_platform_spec field p : parse_platform field = Ok p <-> field = platform_field p /\ named p.
Proof.
  unfold parse_platform. split.
  - destruct (split_on "/" field) as [|a [|b [|? ?]]] eqn:E; try done. apply split_on_two in E as (-> & _).
    destruct (platformPattern a && platformPattern b) eqn:Ep; [|done]. intros [= <-]. bool_prop.
    unfold platform_field, named. cbn. by rewrite !to_of_bytes.
  - intros (-> & Ha & Hb). unfold platform_field.
    rewrite (proj2 (split_on_two "/" _ (to_bytes (pl_OS p)) (to_bytes (pl_Arch p)))) by (split_and!; try apply pattern_free; done).
    rewrite Ha, Hb. cbn. rewrite !of_to_bytes. by destruct p.
Qed.

(** Printable characters other than the space. *)
Definition plain (c : ascii) : bool := (33 <=? b2z c) && (b2z c <=? 126).
Lemma plain_all (f : ascii -> bool) l : (forall c, f c = true -> plain c = true) -> forallb f l = true -> forallb plain l = true.
Proof. intros Hf. rewrite !forallb_elem_of. auto. Qed.
Ltac char_plain := intros [[] [] [] [] [] [] [] []]; vm_compute; intuition congruence.
Lemma digit_plain c : is_digit c = true -> plain c = true.
Proof. revert c. char_plain. Qed.
Lemma hex_plain c : lower_hex_digit c = true -> plain c = true.
Proof. revert c. char_plain. Qed.
Lemma name_plain c : is_lower_ascii c || is_digit c = true -> plain c = true.
Proof. revert c. char_plain. Qed.
Lemma number_plain l : number l = true -> forallb plain l = true.
Proof. intros [_ H]%andb_true_iff. by apply (plain_all is_digit l digit_plain). Qed.
Lemma renders_plain v field : renders v field -> forallb plain field = true.
Proof.
  intros [a b c f [Ha _] [Hb _] [Hc _] Hf|f [_ H]%andb_true_iff].
  - apply number_plain in Ha, Hb, Hc. assert (Hd : forallb plain (dotted a b c) = true).
    { unfold dotted. rewrite !forallb_app. cbn. rewrite !forallb_app. cbn. by rewrite Ha, Hb, Hc. }
    unfold release_value in Hf. by destruct Hf as [->|[= ->]].
  - by apply (plain_all _ f hex_plain).
Qed.
Lemma platform_plain p : named p -> forallb plain (platform_field p) = true.
Proof.
  intros [[_ Ha]%andb_true_iff [_ Hb]%andb_true_iff]. unfold platform_field. rewrite forallb_app. cbn.
  by rewrite !(plain_all _ _ name_plain).
Qed.
Lemma plain_free c l : plain c = false -> forallb plain l = true -> free_of c l.
Proof. intros Hc H Hin. rewrite forallb_elem_of in H. by rewrite H in Hc. Qed.
Lemma plain_nonempty (l : bytes) : l <> [] -> bool_decide (l = []) = false.
Proof. by intros; apply bool_decide_eq_false. Qed.

Lemma ends_line_spec l : ends_line l = true -> l = take (List.length l - 1) l ++ [line_feed].
Proof.
  unfold ends_line. intros H. destruct (last l) as [c|] eqn:E; [|done]. apply Ascii.eqb_eq in H as ->.
  apply last_Some in E as [x ->]. rewrite length_app. cbn. rewrite Nat.add_sub, take_app_length. done.
Qed.

(** The line an identity and a platform are written on. *)
Definition version_line (field : bytes) (p : Platform) : bytes := version_prefix ++ field ++ " "%char :: platform_field p.
Lemma printable_line field p : forallb plain field = true -> named p ->
  existsb unprintable (version_line field p ++ [line_feed]) = false /\ count_lines (version_line field p ++ [line_feed]) = 1.
Proof.
  intros Hf Hp%platform_plain.
  assert (Hplain : forall l, forallb plain l = true -> existsb unprintable l = false /\ List.filter (Ascii.eqb line_feed) l = []).
  { induction l as [|c l IH]; [done|]. cbn [forallb existsb List.filter]. intros [Hc [-> ->]%IH]%andb_true_iff. revert c Hc. char_plain. }
  apply Hplain in Hf as [F1 F2], Hp as [P1 P2]. unfold version_line, count_lines.
  rewrite <- !app_assoc, !existsb_app, !List.filter_app. cbn [app existsb List.filter].
  rewrite F1, F2, P1, P2. by vm_compute.
Qed.
Lemma renders_nonempty v field : renders v field -> field <> [].
Proof.
  intros [a b c f [Ha _] _ _ Hf|f H] ->; [|done]. unfold release_value in Hf. destruct Hf as [|[= E]]; [done|]. by destruct a.
Qed.
Lemma line_fields rest field pf : plain " " = false -> forallb plain field = true -> forallb plain pf = true ->
  rest = field ++ " "%char :: pf -> split_on " " rest = [field; pf].
Proof. intros Hs Hf Hp ->. apply split_on_two. split_and!; [done| |]; by apply plain_free. Qed.

(** C27: the version line of the executable is read exactly: reading succeeds with an identity, a platform and a line just
    when the output is that line and one newline, the line is [lego version], one space, an official release (with or without
    its v, no leading zeros) or an exact 40-digit revision, one space and a platform, and no longer than the limit; the
    identity returned for a release always carries the v. *)
Theorem ParseVersionOutput_reads_exactly output v p line :
  ParseVersionOutput output = Ok (v, p, line) <->
  exists field, renders v field /\ named p /\ line = of_bytes (version_line field p)
    /\ output = version_line field p ++ [line_feed] /\ blen output <= maximumVersionOutput.
Proof.
  unfold ParseVersionOutput. split.
  - intros (? & H1%reject_if_Ok & (? & _ & (? & H2%reject_if_Ok & (? & H3%reject_if_Ok & H)%bind_Ok)%bind_Ok)%bind_Ok)%bind_Ok.
    bool_prop. match goal with E : ends_line _ = true |- _ => apply ends_line_spec in E end.
    match goal with E : _ `prefix_of` _ |- _ => destruct E as [rest Er] end. rewrite Er, drop_app_length in H.
    destruct (split_on " " rest) as [|field [|pf [|? ?]]] eqn:Es; try done. apply split_on_two in Es as (-> & _).
    apply bind_Ok in H as (? & _ & (q & [-> Hq]%parse_platform_spec & (w & Hv%parse_identity_spec & [= <- <- <-])%bind_Ok)%bind_Ok).
    exists field. split_and!; [done|done|done| |done]. unfold version_line. by rewrite <- Er.
  - intros (field & Hv & Hp & -> & -> & Hl). pose proof (renders_plain _ _ Hv) as Hf. pose proof (platform_plain _ Hp) as Hpf.
    destruct (printable_line field p Hf Hp) as [H2 H3]. rewrite H2, H3.
    assert (Hb : blen (version_line field p ++ [line_feed]) =? 0 = false) by (apply Z.eqb_neq; unfold blen; rewrite length_app; cbn; lia).
    assert (He : ends_line (version_line field p ++ [line_feed]) = true) by (unfold ends_line; by rewrite last_snoc).
    assert (Hn : bool_decide (field = []) = false /\ bool_decide (platform_field p = []) = false).
    { split; apply bool_decide_eq_false; [intros ->; by apply renders_nonempty in Hv|]. unfold platform_field. by destruct (to_bytes (pl_OS p)). }
    apply Z.ltb_ge in Hl. rewrite Hb, Hl, He, length_app, Nat.add_sub, take_app_length. cbn [reject_if orb negb mbind result_bind].
    unfold version_line at 1 2. rewrite bool_decide_eq_true_2 by by exists (field ++ " "%char :: platform_field p).
    unfold version_line at 1. rewrite drop_app_length, (line_fields _ field (platform_field p)), (proj1 Hn), (proj2 Hn) by done. cbn [reject_if orb mbind result_bind].
    rewrite (proj2 (parse_platform_spec _ p)) by done. cbn [mbind result_bind]. by rewrite (proj2 (parse_identity_spec _ v)).
Qed.
