(* ===== verification/IntegCorrect.v ===== *)
(** What the curated integrations guarantee: every field that is built is well
    formed, native paths and bindings translate back and forth, and no native
    path of a curated manifest means two fields. *)
From stdpp Require Import gmap.
From S2P Require Import Prelude.
From S2P Require Import GoText.
From S2P Require Import IntegTypes.
From S2P Require Import IntegFields.

#[local] Open Scope Z_scope.

(** ** Well-formed fields *)

Fixpoint segment_bindings (l : list SelectorSegment) : list BindingID :=
  match l with [] => [] | YAMLKey _ :: l => segment_bindings l | YAMLBinding b :: l => b :: segment_bindings l end.

Record well_formed (s : FieldSpec) : Prop := {
  wf_id : validFieldID (fs_id s) = true;
  wf_kind : is_known_kind (fs_kind s) = true;
  wf_selector : 0 < blen (fs_selector s) <= 16;
  wf_bindings : fs_bindings s = segment_bindings (fs_selector s) /\ NoDup (fs_bindings s);
  wf_target : match fs_target s with
              | TargetYAML => fs_environmentKey s = ""%string
              | TargetDotenv => environment_key (fs_environmentKey s) = true /\ fs_kind s = FieldString
              | OtherTarget _ => False
              end;
  wf_secret : fs_sensitivity s = SensitivitySecret -> fs_kind s = FieldString /\ fs_default s = None;
  wf_default : forall v, fs_default s = Some v -> ValidateValue s v = Ok tt;
  wf_string : fs_kind s = FieldString -> 0 < MaxBytes (fs_rules s) <= Z.shiftl 64 10;
}.

Lemma selector_bindings_spec l : forall seen out, selector_bindings seen l = Ok out ->
  NoDup seen -> out = seen ++ segment_bindings l /\ NoDup out.
Proof.
  induction l as [|[key|b] l IH]; intros seen out; cbn [selector_bindings segment_bindings].
  - intros [= <-] Hn. by rewrite app_nil_r.
  - intros (? & _ & (? & _ & E)%bind_Ok)%bind_Ok Hn. by apply IH.
  - intros (? & _ & (? & H & E)%bind_Ok)%bind_Ok Hn. apply reject_if_Ok, orb_false_iff in H as [_ H]. apply bool_decide_eq_false in H.
    apply IH in E as [-> Hd].
    + split; [by rewrite <- app_assoc|done].
    + apply NoDup_app. split_and!; [done| |apply NoDup_singleton]. by intros y Hy ->%list_elem_of_singleton.
Qed.

Lemma validate_target_spec d u : validate_target d = Ok u ->
  match fd_Target d with
  | TargetYAML => fd_EnvironmentKey d = ""%string
  | TargetDotenv => environment_key (fd_EnvironmentKey d) = true /\ fd_Kind d = FieldString
  | OtherTarget _ => False
  end.
Proof.
  unfold validate_target. destruct (fd_Target d); [|intros (? & H & H2)%bind_Ok|done].
  - intros H%reject_if_Ok. by apply negb_false_iff, String.eqb_eq in H.
  - apply reject_if_Ok, orb_false_iff in H as [_ H%negb_false_iff]. apply reject_if_Ok, negb_false_iff, bool_decide_eq_true in H2. done.
Qed.

(** Every field the constructor accepts is well formed. *)
Lemma NewFieldSpec_well_formed d s : NewFieldSpec d = Ok s -> well_formed s.
Proof.
  unfold NewFieldSpec. intros (? & Hid%reject_if_Ok & E)%bind_Ok.
  apply bind_Ok in E as (? & _ & E). apply bind_Ok in E as (? & Hk%reject_if_Ok & E). apply bind_Ok in E as (? & Ht%validate_target_spec & E).
  apply bind_Ok in E as (? & Hs & E). apply bind_Ok in E as (? & _ & E). apply bind_Ok in E as (? & Hl%reject_if_Ok & E).
  apply bind_Ok in E as (bindings & Hb & E). apply bind_Ok in E as (? & _ & E). apply bind_Ok in E as (? & Hw & E).
  apply bind_Ok in E as ([] & Hd & E). injection E as <-.
  apply negb_false_iff in Hid, Hk. apply orb_false_iff in Hl as [Hl0%Z.eqb_neq Hl1%Z.ltb_ge].
  unfold validateWireRules in Hw. apply bind_Ok in Hw as (? & Hw & _).
  constructor; cbn; [done|done|unfold blen in *; lia| |done| | |].
  - apply selector_bindings_spec in Hb as [-> ?]; [done|constructor].
  - intros Hsec. unfold validate_sensitivity in Hs. rewrite Hsec in Hs. apply reject_if_Ok, negb_false_iff, bool_decide_eq_true in Hs.
    split; [done|]. unfold validate_default in Hd. destruct (fd_Default d); [|done]. rewrite Hsec in Hd. by rewrite bool_decide_true in Hd.
  - intros v Hv. unfold validate_default in Hd. rewrite Hv in Hd. apply bind_Ok in Hd as ([] & _ & Hd). by apply map_err_Ok in Hd.
  - intros Hstr. rewrite Hstr in Hw. apply reject_if_Ok, orb_false_iff in Hw as [H1%Z.leb_gt H2%Z.ltb_ge]. split; [lia|].
    etransitivity; [exact H2|]. by case_bool_decide.
Qed.

(** ** Paths and bindings *)

Lemma match_segments_resolves selector : forall path acc b,
  List.length path = List.length selector -> NoDup (segment_bindings selector) -> (forall x, x ∈ segment_bindings selector -> acc !! x = None) ->
  match_segments selector path acc = Some b ->
  resolve_segments b selector = Ok path /\ acc ⊆ b /\ dom b = dom acc ∪ list_to_set (segment_bindings selector)
  /\ size b = (size acc + List.length (segment_bindings selector))%nat.
Proof.
  induction selector as [|[key|x] selector IH]; intros [|v path] acc b Hl Hn Hd E; try discriminate Hl; cbn in *.
  - injection E as <-. split_and!; [done..|set_solver|lia].
  - destruct (String.eqb_spec v key) as [->|]; [|done]. apply IH in E as (Hr & Hs & Hdom & Hz); [|lia|done..]. rewrite Hr. by split_and!.
  - destruct (validBindingValue v) eqn:Hv; [|done]. apply NoDup_cons in Hn as [Hx Hn].
    apply IH in E as (Hr & Hs & Hdom & Hz); [|lia|done|].
    + assert (Hb : b !! x = Some v) by (eapply lookup_weaken, Hs; apply lookup_insert_eq). rewrite Hb, Hr. cbn. rewrite Hv. split_and!; [done| | |].
      * etransitivity; [|exact Hs]. apply insert_subseteq, Hd. set_solver.
      * rewrite Hdom, dom_insert_L. set_solver.
      * rewrite Hz, map_size_insert_None by (apply Hd; set_solver). lia.
    + intros y Hy. rewrite lookup_insert_ne by (by intros ->). apply Hd. set_solver.
Qed.

Lemma resolve_segments_matches selector : forall path acc b,
  NoDup (segment_bindings selector) -> (forall x, x ∈ segment_bindings selector -> acc !! x = None) -> resolve_segments b selector = Ok path ->
  List.length path = List.length selector
  /\ match_segments selector path acc = Some (filter (fun p => p.1 ∈ segment_bindings selector) b ∪ acc).
Proof.
  induction selector as [|[key|x] selector IH]; intros path acc b Hn Hd E; cbn in *.
  - injection E as <-. split; [done|]. f_equal. apply map_eq. intros i. rewrite lookup_union, map_lookup_filter. destruct (b !! i); cbn; [|by destruct (acc !! i)].
    case_guard as Hi; [by inversion Hi|]. cbn. by destruct (acc !! i).
  - apply bind_Ok in E as (p & E & [= <-]). apply (IH p acc) in E as [Hl E]; [|done..]. rewrite String.eqb_refl, E. cbn. by rewrite Hl.
  - destruct (b !! x) as [v|] eqn:Hb; [|done]. apply bind_Ok in E as ([] & Hv%reject_if_Ok%negb_false_iff & E).
    apply bind_Ok in E as (p & E & [= <-]). apply NoDup_cons in Hn as [Hx Hn]. apply (IH p (<[x:=v]> acc)) in E as [Hl E]; [|done|].
    + cbn. rewrite Hv, E. split; [by rewrite Hl|]. f_equal. apply map_eq. intros y.
      destruct (decide (y = x)) as [->|Hy].
      * rewrite lookup_union_r by (apply map_lookup_filter_None; right; intros w _; cbn; done). rewrite lookup_insert_eq.
        symmetry. apply lookup_union_Some_l, map_lookup_filter_Some. split; [done|]. cbn. set_solver.
      * rewrite !lookup_union, lookup_insert_ne by done. f_equal. rewrite !map_lookup_filter. destruct (b !! y); [|done]. cbn.
        case_guard; case_guard; try done; set_solver.
    + intros y Hy. rewrite lookup_insert_ne by (by intros ->). apply Hd. set_solver.
Qed.

(** Bindings that resolve are the ones the path matches with. *)
Lemma Resolve_Match s path bindings : well_formed s -> Resolve s bindings = Ok path -> Match s path = Some bindings.
Proof.
  intros [_ _ _ [Hb Hn] _ _ _ _]. unfold Match, Resolve. rewrite Hb in *.
  intros (? & Hz%reject_if_Ok & E)%bind_Ok. apply bind_Ok in E as (p & E & E2). apply bind_Ok in E2 as (? & Hd%reject_if_Ok & [= <-]).
  apply negb_false_iff, bool_decide_eq_true in Hd. apply (resolve_segments_matches _ _ ∅) in E as [Hl E]; [|done..].
  unfold blen. rewrite Hl, Z.eqb_refl, E. f_equal. rewrite right_id_L by apply _. apply map_filter_id. intros i v Hi. cbn.
  apply (elem_of_list_to_set (C := gset string)). apply Hd. by apply elem_of_dom_2 in Hi.
Qed.

(** C26: A native path and the bindings of a well-formed field translate back and
    forth: matching a path gives the bindings that resolve to exactly this path,
    and bindings that resolve give a path that matches with exactly them. *)
Theorem Match_Resolve_round_trip s path bindings : well_formed s -> Match s path = Some bindings <-> Resolve s bindings = Ok path.
Proof.
  intros Hw. split; [|by apply Resolve_Match]. pose proof Hw as [_ _ _ [Hb Hn] _ _ _ _]. unfold Match, Resolve. rewrite Hb in *.
  destruct (Z.eqb_spec (blen path) (blen (fs_selector s))) as [Hl|]; [|done]. intros E.
  apply match_segments_resolves in E as (Hr & _ & Hdom & Hz); [|unfold blen in Hl; lia|done|done].
  rewrite (bool_decide_true (size bindings = _)) by exact Hz. cbn. rewrite Hr. cbn.
  rewrite bool_decide_true by (rewrite Hdom; set_solver). done.
Qed.

(** ** Manifests *)

(** The fields are well formed and stored under their own identifiers. *)
Definition manifest_ok (fields : gmap FieldID FieldSpec) : Prop := forall id f, fields !! id = Some f -> fs_id f = id /\ well_formed f.

Lemma add_fields_ok l : forall m m', add_fields m l = Ok m' -> manifest_ok m -> Forall well_formed l -> manifest_ok m'.
Proof.
  induction l as [|f l IH]; intros m m'; cbn; [by intros [= <-]|]. intros (? & _ & E)%bind_Ok Hm Hl. inversion Hl as [|? ? Hf Hl']; subst.
  apply bind_Ok in E as (? & _ & E). apply bind_Ok in E as (? & _ & E). eapply IH; [exact E| |done].
  intros id g [[<- <-]|[_ ?]]%lookup_insert_Some; [done|by apply Hm].
Qed.
Lemma NewManifest_ok id runtimes l m : NewManifest id runtimes l = Ok m -> Forall well_formed l -> manifest_ok (mf_fields m).
Proof.
  unfold NewManifest. intros (? & _ & E)%bind_Ok Hl. apply bind_Ok in E as (? & _ & E). apply bind_Ok in E as (? & _ & E).
  apply bind_Ok in E as (fields & E & [= <-]). eapply add_fields_ok; [exact E| |done]. intros i f. by rewrite lookup_empty.
Qed.
Lemma elem_of_Fields m f : f ∈ Fields m <-> exists id, mf_fields m !! id = Some f.
Proof.
  unfold Fields. rewrite sort_by_perm, list_elem_of_fmap. split.
  - intros ([id g] & -> & Hin%elem_of_map_to_list). by exists id.
  - intros (id & Hf). exists (id, f). split; [done|]. by apply elem_of_map_to_list.
Qed.
Lemma Fields_well_formed m : manifest_ok (mf_fields m) -> Forall well_formed (Fields m).
Proof. intros Hm. apply Forall_forall. intros f (id & Hf)%elem_of_Fields. by apply Hm in Hf as [_ ?]. Qed.
Lemma mustFields_well_formed l fields : mustFields l = Ok fields -> Forall well_formed fields.
Proof.
  revert fields. induction l as [|d l IH]; intros fields; cbn; [intros [= <-]; constructor|].
  intros (f & Hf & E)%bind_Ok. apply bind_Ok in E as (rest & E & [= <-]). constructor; [by eapply NewFieldSpec_well_formed|by apply IH].
Qed.
Lemma Extend_ok m id fields m' : Extend m id fields = Ok m' -> manifest_ok (mf_fields m) -> Forall well_formed fields -> manifest_ok (mf_fields m').
Proof. intros E Hm Hf. eapply NewManifest_ok; [exact E|]. apply Forall_app. split; [by apply Fields_well_formed|done]. Qed.

Lemma base_ok m : buildBaseManifest = Ok m -> manifest_ok (mf_fields m).
Proof. intros (fields & Hf%mustFields_well_formed & E)%bind_Ok. by eapply NewManifest_ok. Qed.
Lemma core_ok m : buildCoreManifest = Ok m -> manifest_ok (mf_fields m).
Proof. intros (base & Hb%base_ok & E)%bind_Ok. apply bind_Ok in E as (fields & Hf%mustFields_well_formed & E). by eapply Extend_ok. Qed.
Lemma core_dns_ok providers m : buildCoreDNSManifestForProviders providers = Ok m -> manifest_ok (mf_fields m).
Proof. intros (base & Hb%core_ok & E)%bind_Ok. apply bind_Ok in E as (fields & Hf%mustFields_well_formed & E). by eapply Extend_ok. Qed.
Lemma cloud_ok m : buildCloudDNSManifest = Ok m -> manifest_ok (mf_fields m).
Proof. intros (base & Hb%core_dns_ok & E)%bind_Ok. apply bind_Ok in E as (fields & Hf%mustFields_well_formed & E). by eapply Extend_ok. Qed.

(** *** No path means two fields *)

(** Selectors of different lengths, or with different keys somewhere. *)
Fixpoint apart (a b : list SelectorSegment) : bool :=
  match a, b with
  | [], [] => false
  | YAMLKey x :: a, YAMLKey y :: b => negb (String.eqb x y) || apart a b
  | _ :: a, _ :: b => apart a b
  | _, _ => true
  end.
Lemma apart_never_match a : forall b path m1 m2 r1 r2, apart a b = true -> List.length path = List.length a -> List.length path = List.length b ->
  match_segments a path m1 = Some r1 -> match_segments b path m2 = Some r2 -> False.
Proof.
  induction a as [|[x|x] a IH]; intros [|[y|y] b] [|v path] m1 m2 r1 r2 Ha H1 H2 E1 E2; try discriminate; cbn in *; try (injection H1 as H1; injection H2 as H2).
  - destruct (String.eqb_spec v x) as [->|]; [|done]. destruct (String.eqb_spec x y) as [->|]; [|done]. cbn in Ha. by eapply IH.
  - destruct (String.eqb_spec v x); [|done]. destruct (validBindingValue v); [|done]. by eapply IH.
  - destruct (String.eqb_spec v y); [|done]. destruct (validBindingValue v); [|done]. by eapply IH.
  - destruct (validBindingValue v); [|done]. by eapply IH.
Qed.
Definition same_or_apart (f g : FieldSpec) : bool :=
  String.eqb (fs_id f) (fs_id g) || negb (bool_decide (fs_target f = TargetYAML)) || negb (bool_decide (fs_target g = TargetYAML))
  || apart (fs_selector f) (fs_selector g).
Definition unambiguous (m : Manifest) : bool := forallb (fun f => forallb (same_or_apart f) (Fields m)) (Fields m).

Lemma unambiguous_match m path f g b c : manifest_ok (mf_fields m) -> unambiguous m = true ->
  f ∈ Fields m -> g ∈ Fields m -> fs_target f = TargetYAML -> fs_target g = TargetYAML -> Match f path = Some b -> Match g path = Some c -> f = g.
Proof.
  intros Hok Hu Hf Hg Tf Tg Mf Mg. unfold unambiguous in Hu. rewrite forallb_elem_of in Hu. specialize (Hu f Hf). cbn in Hu.
  rewrite forallb_elem_of in Hu. specialize (Hu g Hg). unfold same_or_apart in Hu. rewrite Tf, Tg in Hu. cbn in Hu. rewrite !orb_false_r in Hu.
  apply orb_true_iff in Hu as [He|Ha].
  - apply String.eqb_eq in He. apply elem_of_Fields in Hf as (i & Hi), Hg as (j & Hj).
    destruct (Hok _ _ Hi) as [<- _], (Hok _ _ Hj) as [<- _]. congruence.
  - unfold Match in Mf, Mg. destruct (Z.eqb_spec (blen path) (blen (fs_selector f))) as [Lf|], (Z.eqb_spec (blen path) (blen (fs_selector g))) as [Lg|]; try done.
    exfalso. eapply apart_never_match; [exact Ha| | |exact Mf|exact Mg]; unfold blen in *; lia.
Qed.
Lemma first_match_some target path l f b : first_match target path l = Some (f, b) -> f ∈ l /\ fs_target f = target /\ Match f path = Some b.
Proof.
  induction l as [|g l IH]; cbn; [done|]. case_bool_decide as Ht; [destruct (Match g path) eqn:E|].
  - intros [= <- <-]. split_and!; [by left|done..].
  - intros (? & ? & ?)%IH. split_and!; [by right|done..].
  - intros (? & ? & ?)%IH. split_and!; [by right|done..].
Qed.
Lemma first_match_none target path l f : first_match target path l = None -> f ∈ l -> fs_target f = target -> Match f path = None.
Proof.
  induction l as [|g l IH]; cbn; [intros _ Hf; by inversion Hf|]. case_bool_decide as Ht; [destruct (Match g path) eqn:E; [done|]|];
    intros H [->|Hf]%elem_of_cons ?; try done; by apply IH.
Qed.

Definition supported_unambiguous (built : result string Manifest) : bool :=
  match built with
  | Ok m => SupportsRuntime m ManifestLegoV531 && SupportsRuntime m ManifestLegoRevision2A58 && unambiguous m
  | Err _ => false
  end.
(** The four contracts, each an extension of the one before. *)
Inductive contract := Base | Core | CoreDNS | CloudDNS.
Definition build (c : contract) : result string Manifest :=
  match c with
  | Base => buildBaseManifest | Core => buildCoreManifest | CoreDNS => buildCoreDNSManifest | CloudDNS => buildCloudDNSManifest
  end.
Lemma build_checked c : supported_unambiguous (build c) = true.
Proof. destruct c; vm_compute; reflexivity. Qed.
Lemma build_ok c m : build c = Ok m -> manifest_ok (mf_fields m).
Proof. destruct c; [apply base_ok|apply core_ok|apply core_dns_ok|apply cloud_ok]. Qed.

(** C21: The four curated manifests can be built, so that no constructor stops the
    program; each supports both admitted runtimes, every field is well formed
    (valid identifier and selector, bindings those of the selector, secrets without
    defaults, valid defaults, bounded strings), and a native YAML path belongs to
    at most one field: matching finds a field exactly if that field matches. *)
Theorem curated_manifests_are_sound c : exists m, build c = Ok m
  /\ SupportsRuntime m ManifestLegoV531 = true /\ SupportsRuntime m ManifestLegoRevision2A58 = true
  /\ Forall well_formed (Fields m)
  /\ forall path f bindings, Manifest_Match m path = Some (f, bindings)
       <-> f ∈ Fields m /\ fs_target f = TargetYAML /\ Match f path = Some bindings.
Proof.
  pose proof (build_checked c) as Hcheck. pose proof (build_ok c) as Hok. destruct (build c) as [m|]; [|done]. exists m.
  apply andb_true_iff in Hcheck as [[H1 H2]%andb_true_iff Hu]. specialize (Hok m eq_refl).
  split_and!; [done..|by apply Fields_well_formed|]. intros path f b. split; [apply first_match_some|]. intros (Hf & Ht & Hm).
  unfold Manifest_Match, MatchTarget. destruct (first_match TargetYAML path (Fields m)) as [[g d]|] eqn:E.
  - apply first_match_some in E as (Hg & Tg & Mg). assert (g = f) as -> by (by eapply unambiguous_match). congruence.
  - by rewrite (first_match_none _ _ _ _ E Hf Ht) in Hm.
Qed.

Definition sample_definition : FieldDefinition :=
  yaml_field FieldAccountServer "ACME server" FieldString SensitivityPublic (appendSelector account ["server"%string]) false None
    (mk_rules false 0 2048 0 0 None None AcceptedCAServerValues).
Definition sample_field : FieldSpec :=
  mk_spec FieldAccountServer "ACME server" FieldString TargetYAML SensitivityPublic DispositionManaged (appendSelector account ["server"%string]) ""
    false [BindingAccount] None (mk_rules false 0 2048 0 0 None None AcceptedCAServerValues).
Theorem Match_Resolve_round_trip_witness :
  Match sample_field ["accounts"; "main"; "server"]%string = Some {[BindingAccount := "main"%string]}
  <-> Resolve sample_field {[BindingAccount := "main"%string]} = Ok ["accounts"; "main"; "server"]%string.
Proof. apply (Match_Resolve_round_trip sample_field). apply (NewFieldSpec_well_formed sample_definition). vm_compute. reflexivity. Defined.
Example sample_path_resolves : Resolve sample_field {[BindingAccount := "main"%string]} = Ok ["accounts"; "main"; "server"]%string.
Proof. vm_compute. reflexivity. Qed.
