(* ===== verification/ConfTypes.v ===== *)
(** Native configuration, data shared by the service and its engine: the
    logical fields of a projection, issues, edits and summaries
    (internal/nativeconfig/api.go), what an inspection knows about dotenv
    values (internal/nativeconfig/core_dns.go), and the review tokens of the
    service (internal/configuration/token.go). *)
From stdpp Require Import gmap.
From S2P Require Import Prelude.
From S2P Require Import GoText.
From S2P Require Import GoTime.
From S2P Require Import GoDecode.
From S2P Require Import WsTypes.
From S2P Require Import WsAudit.
From S2P Require Import WsInspect.
From S2P Require Import WsEdit.
From S2P Require Import WsSelect.
From S2P Require Import WsCommit.
From S2P Require Import Tokens.
From S2P Require Import IntegTypes.
From S2P Require Import IntegFields.

#[local] Open Scope string_scope.
#[local] Open Scope Z_scope.

(** ** Logical fields *)

Record Binding := mk_binding { bd_ID : BindingID; bd_Value : string }.
#[export] Instance Binding_eq_dec : EqDecision Binding.
Proof. solve_decision. Defined.

Inductive IssueClass := IssueSchema | IssueSemantic | IssueConstraint | IssueUnsupported | IssueUnknown.
#[export] Instance IssueClass_eq_dec : EqDecision IssueClass.
Proof. solve_decision. Defined.
Record Issue := mk_issue {
  is_Class : IssueClass; is_Path : string; is_Line : Z; is_Column : Z; is_Summary : string; is_BlocksReplacement : bool; is_BlocksExecution : bool;
}.

(** [pf_value]: the value kept, if any. *)
Record ProjectedField := mk_field {
  pf_FieldID : FieldID; pf_Bindings : list Binding; pf_Label : string; pf_Kind : FieldKind; pf_Present : bool; pf_Defaulted : bool;
  pf_Configured : bool; pf_PresenceKnown : bool; pf_Secret : bool; pf_value : option Value;
}.
Definition field_Value (f : ProjectedField) : option Value := if pf_Secret f then None else pf_value f.
(** [value.String()] of the value of a field. *)
Definition field_text (f : ProjectedField) : option string := v ← field_Value f; value_String v.

Record DotenvPresence := mk_dotenv_presence {
  dp_FieldID : FieldID; dp_Bindings : list Binding; dp_Present : bool; dp_Valid : bool; dp_Value : option Value;
}.

Record DotenvRoute := mk_route {
  rt_fieldID : FieldID; rt_bindings : list Binding; rt_reference : string; rt_environmentKey : string; rt_secret : bool; rt_spec : FieldSpec;
}.
Definition ValidValue `{NetParsers} (r : DotenvRoute) (value : bytes) : bool :=
  is_ok (ValidateDotenvBytes (rt_spec r) value) && is_ok (ValidateCoreDNSDotenvValue (rt_fieldID r) value).

Record Inspection := mk_inspection {
  in_SourceSHA256 : string; in_Projection : list ProjectedField; in_Issues : list Issue; in_SchemaValid : bool; in_SemanticValid : bool;
  in_Replaceable : bool; in_Executable : bool; in_routes : list DotenvRoute; in_maxIssues : Z;
}.
Definition no_inspection : Inspection := mk_inspection "" [] [] false false false false [] 0.

Definition appendIssue (issues : list Issue) (limit : Z) (i : Issue) : list Issue := if limit <=? blen issues then issues else (issues ++ [i])%list.
Definition add_issue (i : Issue) (n : Inspection) : Inspection :=
  mk_inspection (in_SourceSHA256 n) (in_Projection n) (appendIssue (in_Issues n) (in_maxIssues n) i) (in_SchemaValid n) (in_SemanticValid n)
    (in_Replaceable n) false (in_routes n) (in_maxIssues n).

(** ** Dotenv presence *)

(** One field with what is known about its dotenv value. *)
Definition apply_presence (item : DotenvPresence) (f : ProjectedField) : ProjectedField :=
  let configured := dp_Present item && dp_Valid item in
  mk_field (pf_FieldID f) (pf_Bindings f) (pf_Label f) (pf_Kind f) (dp_Present item) (pf_Defaulted f) configured true (pf_Secret f)
    (match dp_Value item with
     | Some v => if negb (pf_Secret f) && configured then Some v else if negb configured then None else pf_value f
     | None => if negb configured then None else pf_value f
     end).
Definition concerns (item : DotenvPresence) (f : ProjectedField) : bool :=
  String.eqb (pf_FieldID f) (dp_FieldID item) && bool_decide (pf_Bindings f = dp_Bindings item).
Definition outside_contract : Issue :=
  mk_issue IssueUnsupported "" 0 0 "Credential value is outside the curated integration contract." false true.

Fixpoint presence_fields (item : DotenvPresence) (n : Inspection) (before after : list ProjectedField) : Inspection :=
  match after with
  | [] => mk_inspection (in_SourceSHA256 n) before (in_Issues n) (in_SchemaValid n) (in_SemanticValid n) (in_Replaceable n) (in_Executable n)
            (in_routes n) (in_maxIssues n)
  | f :: after =>
      if concerns item f then
        presence_fields item (if dp_Present item && negb (dp_Valid item) then add_issue outside_contract n else n)
          (before ++ [apply_presence item f])%list after
      else presence_fields item n (before ++ [f])%list after
  end.
Definition WithDotenvPresence (n : Inspection) (presence : list DotenvPresence) : Inspection :=
  fold_left (fun n item => presence_fields item n [] (in_Projection n)) presence n.

(** ** Authentication of the DNS challenges *)

Definition bindingFor (bindings : list Binding) (id : BindingID) : string :=
  match List.find (fun b => String.eqb (bd_ID b) id) bindings with Some b => bd_Value b | None => "" end.

(** What the projection says about the challenges: the provider of each, which
    of its fields are present, and their public values. *)
Record challenge_facts := mk_facts {
  cf_providers : gmap string string;
  cf_presence : gmap string (gmap FieldID bool);
  cf_values : gmap string (gmap FieldID string);
}.
Definition field_fact (facts : challenge_facts) (f : ProjectedField) : challenge_facts :=
  let challenge := bindingFor (pf_Bindings f) BindingChallenge in
  if String.eqb challenge "" then facts
  else if String.eqb (pf_FieldID f) FieldChallengeDNSProvider then
    match field_text f with
    | Some provider => mk_facts (<[challenge := provider]> (cf_providers facts)) (cf_presence facts) (cf_values facts)
    | None => facts
    end
  else
    match ProviderCodeForField (pf_FieldID f) with
    | None => facts
    | Some _ =>
        let presence := default ∅ (cf_presence facts !! challenge) in
        let values := default ∅ (cf_values facts !! challenge) in
        mk_facts (cf_providers facts)
          (<[challenge := <[pf_FieldID f := pf_PresenceKnown f && pf_Present f && pf_Configured f]> presence]> (cf_presence facts))
          (<[challenge := match field_text f with Some text => <[pf_FieldID f := text]> values | None => values end]> (cf_values facts))
    end.
Definition facts_of (projection : list ProjectedField) : challenge_facts := fold_left field_fact projection (mk_facts ∅ ∅ ∅).

Definition credential_issues (facts : challenge_facts) (challenge provider : string) : list FieldID :=
  let presence := default ∅ (cf_presence facts !! challenge) in
  if String.eqb provider "azuredns" || String.eqb provider "route53"
  then CloudDNSCredentialIssues presence (default ∅ (cf_values facts !! challenge)) provider
  else CoreDNSCredentialIssues provider presence.
Definition incomplete_authentication (strict : bool) (challenge : string) : Issue :=
  mk_issue (if strict then IssueConstraint else IssueUnsupported) ("/challenges/" +:+ challenge +:+ "/dns/envFile") 0 0
    "Provider authentication is incomplete, duplicated, or mixes mutually exclusive alternatives." false true.

Definition WithCoreDNSCredentialValidation (n : Inspection) (strict : bool) : Inspection :=
  let facts := facts_of (in_Projection n) in
  fold_left (fun n challenge =>
    let provider := default "" (cf_providers facts !! challenge) in
    if negb (bool_decide (provider ∈ SupportedDNSProviders)) || (blen (credential_issues facts challenge provider) =? 0) then n
    else add_issue (incomplete_authentication strict challenge) n)
    (sort_by id_le (fst <$> map_to_list (cf_providers facts))) n.

(** ** Edits *)

Inductive Operation := OperationSet | OperationRemove | OtherOperation (text : string).
#[export] Instance Operation_eq_dec : EqDecision Operation.
Proof. solve_decision. Defined.
Definition Operation_text (o : Operation) : string := match o with OperationSet => "set" | OperationRemove => "remove" | OtherOperation text => text end.
Record Change := mk_native_change { ch_FieldID : FieldID; ch_Bindings : list Binding; ch_Operation : Operation; ch_Value : Value }.

Inductive SummaryAction := SummarySet | SummaryRemove.
Record ChangeSummary := mk_change_summary {
  cs_FieldID : FieldID; cs_Bindings : list Binding; cs_Label : string; cs_Target : FieldTarget; cs_Action : SummaryAction; cs_Secret : bool;
  cs_before : option Value; cs_after : option Value;
}.
Definition Before (s : ChangeSummary) : option Value := if cs_Secret s then None else cs_before s.
Definition After (s : ChangeSummary) : option Value := if cs_Secret s then None else cs_after s.

Record ExternalChange := mk_external {
  ec_fieldID : FieldID; ec_bindings : list Binding; ec_operation : Operation; ec_reference : string; ec_environmentKey : string;
  ec_secret : bool; ec_value : Value;
}.
Definition external_Value (c : ExternalChange) : option Value := if bool_decide (ec_operation c = OperationSet) then Some (ec_value c) else None.

Record Candidate := mk_candidate {
  cd_yaml : bytes; cd_SourceSHA256 : string; cd_CandidateSHA256 : string; cd_Changed : bool; cd_Inspection : Inspection;
  cd_Summary : list ChangeSummary; cd_external : list ExternalChange;
}.

(** The errors of the engine. *)
Inductive NativeCode :=
| ErrorInvalidLimits | ErrorRuntimeMismatch | ErrorManifestInvalid | ErrorSchemaInvalid | ErrorSourceEmpty | ErrorSourceTooLarge | ErrorInvalidUTF8
| ErrorMalformedYAML | ErrorMultipleDocuments | ErrorRootNotMapping | ErrorStructureComplex | ErrorAliasUnsupported | ErrorMergeUnsupported
| ErrorTagUnsupported | ErrorDuplicateKey | ErrorInvalidChange.

(** What the service asks of an engine: to read a configuration, to read one
    that is about to be created, to apply edits, and to find the secrets. *)
Record Engine := mk_engine {
  en_Inspect : bytes -> result NativeCode Inspection;
  en_InspectCreation : bytes -> result NativeCode Inspection;
  en_Preview : bytes -> list Change -> result NativeCode Candidate;
  en_ObservedSecrets : bytes -> result NativeCode (list bytes);
}.

(** Review tokens of the configuration service (internal/configuration/token.go):
    source, recovery, creation and preview tokens, and what each of them
    binds. *)

(** The part of the runtime context the tokens and the service use. *)
Record runtimeContext := mk_runtime {
  rc_manifestID : string;
  rc_fingerprint : string;
  rc_identity : string;
  rc_selectedID : string;
  rc_engine : Engine;
}.
Record CreationRequest := mk_creation { cr_WorkingDirectory : bytes; cr_ConfigurationPath : bytes; cr_Changes : list Change }.

Definition journal_phase_text (p : JournalPhase) : string :=
  match p with JournalStaging => "staging" | JournalPrepared => "prepared" | JournalReplacing => "replacing" | JournalFinalizing => "finalizing" end.
Definition recovery_state_text (s : RecoveryState) : string :=
  match s with RecoveryUnapplied => "unapplied" | RecoveryPartial => "partial" | RecoveryApplied => "applied" | RecoveryAmbiguous => "ambiguous" end.
Definition recovery_file_text (s : RecoveryFileState) : string :=
  match s with
  | RecoveryFileUnstaged => "unstaged" | RecoveryFileUnapplied => "unapplied" | RecoveryFileApplied => "applied" | RecoveryFileAmbiguous => "ambiguous"
  end.

(** ** What is written *)

Definition canonicalTime (t : time) : bytes := fingerprintTime t.
Definition identity_values (size : Z -> list bytes) (i : FileIdentity) : list bytes :=
  write_boolean (Exists i) ++ write_integer (Device i) ++ write_integer (Inode i) ++ write_integer (Mode i) ++ write_integer (UID i)
  ++ write_integer (GID i) ++ write_integer (NLink i) ++ size (Size i)
  ++ write_bytes (canonicalTime (ModifiedAt i)) ++ write_bytes (canonicalTime (ChangedAt i)).
(** [strconv.FormatInt] *)
Definition write_decimal (n : Z) : list bytes := write_bytes (format_int n).
Definition writeSourceFingerprint (f : SourceFile) : list bytes :=
  write_text (role_text (sf_Role f)) ++ write_bytes (sf_Path f) ++ write_bytes (sf_Reference f)
  ++ identity_values write_decimal (fp_Identity (sf_Fingerprint f)) ++ write_bytes (fp_SHA256 (sf_Fingerprint f)).

Definition writeIntegrationValue (v : Value) : list bytes :=
  write_text (FieldKind_text (Kind v))
  ++ match v with
     | StringValue text => write_text text
     | BooleanValue b => write_boolean b
     | IntegerValue n => write_decimal n
     | StringListValue l => write_list write_text l
     | NoValue => []
     end.
Definition binding_values (b : Binding) : list bytes := write_text (bd_ID b) ++ write_text (bd_Value b).
Definition change_values (c : Change) : list bytes :=
  write_text (ch_FieldID c) ++ write_text (Operation_text (ch_Operation c)) ++ write_list binding_values (ch_Bindings c)
  ++ writeIntegrationValue (ch_Value c).
Definition replacement_values (r : Replacement) : list bytes :=
  write_text (role_text (rp_Role r)) ++ write_bytes (rp_Path r) ++ write_bytes (rp_Content r).
Definition recovery_file_values (f : RecoveryFile) : list bytes :=
  write_integer (rf_Ordinal f) ++ write_text (role_text (rf_Role f)) ++ write_bytes (rf_Path f) ++ write_text (recovery_file_text (rf_State f)).

Definition source_values (manifestID fingerprint : string) (review : bytes) (files : list SourceFile) : list bytes :=
  write_text "acmemux-native-source-v1" ++ write_text manifestID ++ write_text fingerprint ++ write_bytes review
  ++ write_list writeSourceFingerprint files.
Definition recovery_values (fingerprint : string) (r : Recovery) : list bytes :=
  write_text "acmemux-native-recovery-v1" ++ write_text fingerprint ++ write_bytes (r_TransactionID r) ++ write_bytes (r_WorkingDirectory r)
  ++ write_bytes (r_ConfigurationPath r) ++ write_boolean (r_Bootstrap r) ++ write_text (journal_phase_text (r_Phase r))
  ++ write_text (recovery_state_text (r_State r)) ++ write_list recovery_file_values (r_Files r).
Definition creation_base_values (manifestID fingerprint : string) : list bytes :=
  write_text "acmemux-native-creation-base-v1" ++ write_text manifestID ++ write_text fingerprint.
Definition preview_values (base : string) (changes : list Change) (candidate : bytes) (replacements : list Replacement) : list bytes :=
  write_text "acmemux-native-preview-v1" ++ write_text base ++ write_list change_values changes ++ write_bytes candidate
  ++ write_list replacement_values replacements.
(** [preview]: the token of the edits; [audit]: the fingerprint of the audit. *)
Definition creation_preview_values (base : string) (directory path : bytes) (preview : string) (audit : bytes) : list bytes :=
  write_text "acmemux-native-creation-preview-v1" ++ write_text base ++ write_bytes directory ++ write_bytes path ++ write_text preview
  ++ write_bytes audit.

(** ** The tokens *)

Section Tokens.
Context `{Digests} (key : bytes).

(** [review]: [workspace.ReviewFingerprint] of the reviewed selection. *)
Definition sourceToken (runtime : runtimeContext) (review : bytes) (sources : SourceSet) : string :=
  token key (source_values (rc_manifestID runtime) (rc_fingerprint runtime) review (Files sources)).
Definition recoveryToken (runtimeFingerprint : string) (recovery : Recovery) : string := token key (recovery_values runtimeFingerprint recovery).
Definition creationBaseToken (runtime : runtimeContext) : string := token key (creation_base_values (rc_manifestID runtime) (rc_fingerprint runtime)).
Definition previewToken (baseToken : string) (changes : list Change) (candidate : bytes) (replacements : list Replacement) : string :=
  token key (preview_values baseToken changes candidate replacements).
Definition creationPreviewToken (baseToken : string) (request : CreationRequest) (candidate : bytes) (replacements : list Replacement) (audit : bytes)
    : string :=
  token key (creation_preview_values baseToken (cr_WorkingDirectory request) (cr_ConfigurationPath request)
               (previewToken baseToken (cr_Changes request) candidate replacements) audit).
End Tokens.

(** ** What they bind *)

(** A writing that depends on a value only through an injective view of it. *)
Lemma delimited_view {A B} (ok : B -> Prop) (w : B -> list bytes) (f : A -> B) (good : A -> Prop) :
  Delimited ok w -> (forall a, good a -> ok (f a)) -> (forall a b, good a -> good b -> f a = f b -> a = b) -> Delimited good (fun a => w (f a)).
Proof.
  intros Hw Hok Hf. split; [intros a Ha; by apply delimited_short, Hok|].
  intros a b l l' Ha Hb E. apply delimited in E as [E ->]; [|by apply Hok..]. split; [by apply Hf|done].
Qed.

Definition in_int64 (n : Z) : Prop := - 2 ^ 63 <= n < 2 ^ 63.
Lemma format_int_inj n m : in_int64 n -> in_int64 m -> format_int n = format_int m -> n = m.
Proof.
  unfold in_int64, format_int. intros Hn Hm.
  assert (Hsign : forall k, 0 <= k < 2 ^ 64 -> head (itoa k) <> Some "-"%char).
  { intros k Hk Hh. destruct (itoa_spec k Hk) as (_ & _ & Hd & _). destruct (itoa k) as [|c l]; [done|]. injection Hh as ->. done. }
  assert (Hinj : forall a b, 0 <= a < 2 ^ 64 -> 0 <= b < 2 ^ 64 -> itoa a = itoa b -> a = b).
  { intros a b Ha Hb E. destruct (itoa_spec a Ha) as (E1 & _), (itoa_spec b Hb) as (E2 & _). rewrite E in E1. congruence. }
  destruct (Z.ltb_spec n 0), (Z.ltb_spec m 0); intros E.
  - injection E as E. apply Hinj in E; lia.
  - destruct (Hsign m); [lia|]. by rewrite <- E.
  - destruct (Hsign n); [lia|]. by rewrite E.
  - apply Hinj in E; lia.
Qed.
Lemma format_int_short n : in_int64 n -> short (format_int n).
Proof.
  unfold in_int64, format_int, short. intros Hn.
  assert (Hl : forall k, 0 <= k < 2 ^ 64 -> blen (itoa k) <= 20) by (intros k Hk; by apply itoa_spec in Hk as (_ & _ & _ & [] & _)).
  destruct (Z.ltb_spec n 0); [|specialize (Hl n); lia]. specialize (Hl (- n)). unfold blen in *. cbn [List.length]. lia.
Qed.
#[export] Instance write_decimal_delimited : Delimited in_int64 write_decimal.
Proof. apply (delimited_view short write_bytes format_int); [apply _|apply format_int_short|apply format_int_inj]. Qed.

(** Values of a representable size. *)
Definition short_value (v : Value) : Prop :=
  match v with StringValue text => short_text text | IntegerValue n => in_int64 n | StringListValue l => short_list short_text l | _ => True end.
#[export] Instance writeIntegrationValue_delimited : Delimited short_value writeIntegrationValue.
Proof.
  assert (Hkind : forall v, short_text (FieldKind_text (Kind v))) by (intros []; reflexivity).
  split.
  - intros v Hv. apply Forall_app. split; [apply (delimited_short (ok := short_text) (write := write_text)), Hkind|].
    destruct v; [by apply (delimited_short (ok := short_text) (write := write_text))
      |by apply (delimited_short (ok := any) (write := write_boolean))|by apply (delimited_short (ok := in_int64) (write := write_decimal))
      |by apply (delimited_short (ok := short_list short_text) (write := write_list write_text))|constructor].
  - intros v v' l l' Hv Hv' E. unfold writeIntegrationValue in E. rewrite <- !app_assoc in E.
    apply (delimited (ok := short_text) (write := write_text)) in E as [Ek E]; [|apply Hkind..].
    destruct v, v'; try discriminate Ek; [apply (delimited (ok := short_text) (write := write_text)) in E as [-> ->]
      |apply (delimited (ok := any) (write := write_boolean)) in E as [-> ->]
      |apply (delimited (ok := in_int64) (write := write_decimal)) in E as [-> ->]
      |apply (delimited (ok := short_list short_text) (write := write_list write_text)) in E as [-> ->]|]; done.
Qed.

Definition short_binding (b : Binding) : Prop := short_text (bd_ID b) /\ short_text (bd_Value b).
#[export] Instance binding_delimited : Delimited short_binding binding_values.
Proof.
  apply (delimited_view (both short_text short_text) (write_pair write_text write_text) (fun b => (bd_ID b, bd_Value b))); [apply _|done|].
  by intros [] [] _ _ [= -> ->].
Qed.

(** An operation is written as one of the two known ones only if it is. *)
Definition plain_operation (o : Operation) : Prop :=
  match o with OtherOperation text => short_text text /\ text <> "set" /\ text <> "remove" | _ => True end.
Lemma Operation_text_inj o o' : plain_operation o -> plain_operation o' -> Operation_text o = Operation_text o' -> o = o'.
Proof. destruct o, o'; cbn; intros; subst; naive_solver. Qed.
Definition short_change (c : Change) : Prop :=
  short_text (ch_FieldID c) /\ plain_operation (ch_Operation c) /\ short_list short_binding (ch_Bindings c) /\ short_value (ch_Value c).
#[export] Instance change_delimited : Delimited short_change change_values.
Proof.
  apply (delimited_view (both short_text (both short_text (both (short_list short_binding) short_value)))
    (write_pair write_text (write_pair write_text (write_pair (write_list binding_values) writeIntegrationValue)))
    (fun c => (ch_FieldID c, (Operation_text (ch_Operation c), (ch_Bindings c, ch_Value c))))); [apply _| |].
  - intros c (H1 & H2 & H3 & H4). refine (conj H1 (conj _ (conj H3 H4))). cbn. destruct (ch_Operation c); [reflexivity..|apply H2].
  - intros [] [] (_ & H & _) (_ & H' & _) [= -> E -> ->]. by apply Operation_text_inj in E as ->.
Qed.

Lemma role_text_inj r r' : role_text r = role_text r' -> r = r'.
Proof. by destruct r, r'. Qed.
Lemma role_text_short r : short_text (role_text r).
Proof. by destruct r. Qed.
Definition short_replacement (r : Replacement) : Prop := short (rp_Path r) /\ short (rp_Content r).
#[export] Instance replacement_delimited : Delimited short_replacement replacement_values.
Proof.
  apply (delimited_view (both short_text (both short short)) (write_pair write_text (write_pair write_bytes write_bytes))
    (fun r => (role_text (rp_Role r), (rp_Path r, rp_Content r)))); [apply _| |].
  - intros r [H1 H2]. exact (conj (role_text_short _) (conj H1 H2)).
  - by intros [] [] _ _ [= ->%role_text_inj -> ->].
Qed.

(** A domain and what follows it. *)
Lemma domain_binds `{Digests} {A} (ok : A -> Prop) write `{!Delimited ok write} key domain a a' :
  short_text domain -> ok a -> ok a' -> token key (write_text domain ++ write a) = token key (write_text domain ++ write a') ->
  a = a' \/ clash (hmac key) (write_text domain ++ write a) (write_text domain ++ write a').
Proof.
  intros Hd Ha Ha' E. change (write_text domain ++ ?x)%list with (write_pair write_text (fun _ : A => x) (domain, a)) in E.
  destruct (token_binds (both short_text ok) (write_pair write_text write) key (domain, a) (domain, a') (conj Hd Ha) (conj Hd Ha') E) as [[= ?]|?]; [by left|by right].
Qed.

Section Bound.
Context `{Digests} (key : bytes).

Definition short_preview (base : string) (changes : list Change) (candidate : bytes) (replacements : list Replacement) : Prop :=
  short_text base /\ short_list short_change changes /\ short candidate /\ short_list short_replacement replacements.

(** A preview token binds the base revision, the edits, the candidate and the
    files that will be replaced. *)
Lemma previewToken_binds b c y r b' c' y' r' : short_preview b c y r -> short_preview b' c' y' r' ->
  previewToken key b c y r = previewToken key b' c' y' r' ->
  (b = b' /\ c = c' /\ y = y' /\ r = r') \/ clash (hmac key) (preview_values b c y r) (preview_values b' c' y' r').
Proof.
  intros (H1 & H2 & H3 & H4) (H1' & H2' & H3' & H4') E.
  destruct (domain_binds (both short_text (both (short_list short_change) (both short (short_list short_replacement))))
    (write_pair write_text (write_pair (write_list change_values) (write_pair write_bytes (write_list replacement_values))))
    key "acmemux-native-preview-v1" (b, (c, (y, r))) (b', (c', (y', r'))) eq_refl
    (conj H1 (conj H2 (conj H3 H4))) (conj H1' (conj H2' (conj H3' H4'))) E) as [[= -> -> -> ->]|Hc]; [by left|by right].
Qed.

(** A creation token binds the request as well, and the audit. *)
Lemma creationPreviewToken_binds b q y r a b' q' y' r' a' :
  short_preview b (cr_Changes q) y r -> short_preview b' (cr_Changes q') y' r' ->
  short (cr_WorkingDirectory q) -> short (cr_ConfigurationPath q) -> short a -> short (cr_WorkingDirectory q') -> short (cr_ConfigurationPath q') -> short a' ->
  creationPreviewToken key b q y r a = creationPreviewToken key b' q' y' r' a' ->
  (b = b' /\ q = q' /\ y = y' /\ r = r' /\ a = a')
  \/ clash (hmac key) (preview_values b (cr_Changes q) y r) (preview_values b' (cr_Changes q') y' r')
  \/ clash (hmac key) (creation_preview_values b (cr_WorkingDirectory q) (cr_ConfigurationPath q) (previewToken key b (cr_Changes q) y r) a)
       (creation_preview_values b' (cr_WorkingDirectory q') (cr_ConfigurationPath q') (previewToken key b' (cr_Changes q') y' r') a').
Proof.
  intros Hp Hp' H1 H2 H3 H1' H2' H3' E.
  assert (Ht : forall b c y r, short_text (previewToken key b c y r)) by (intros; unfold short_text, previewToken; rewrite token_length; lia).
  destruct (domain_binds (both short_text (both short (both short (both short_text short))))
    (write_pair write_text (write_pair write_bytes (write_pair write_bytes (write_pair write_text write_bytes))))
    key "acmemux-native-creation-preview-v1"
    (b, (cr_WorkingDirectory q, (cr_ConfigurationPath q, (previewToken key b (cr_Changes q) y r, a))))
    (b', (cr_WorkingDirectory q', (cr_ConfigurationPath q', (previewToken key b' (cr_Changes q') y' r', a')))) eq_refl
    (conj (proj1 Hp) (conj H1 (conj H2 (conj (Ht _ _ _ _) H3)))) (conj (proj1 Hp') (conj H1' (conj H2' (conj (Ht _ _ _ _) H3')))) E)
    as [[= _ Hd Hc Htok ->]|Hclash]; [|by right; right].
  destruct (previewToken_binds _ _ _ _ _ _ _ _ Hp Hp' Htok) as [(-> & Hch & -> & ->)|Hclash]; [left|by right; left].
  split_and!; try done. destruct q, q'; cbn in *. congruence.
Qed.

Definition short_recovery (r : Recovery) : Prop :=
  short (r_TransactionID r) /\ short (r_WorkingDirectory r) /\ short (r_ConfigurationPath r)
  /\ short_list (fun f => in_uint64 (rf_Ordinal f) /\ short (rf_Path f)) (r_Files r).
#[local] Instance recovery_file_delimited : Delimited (fun f => in_uint64 (rf_Ordinal f) /\ short (rf_Path f)) recovery_file_values.
Proof.
  apply (delimited_view (both in_uint64 (both short_text (both short short_text)))
    (write_pair write_integer (write_pair write_text (write_pair write_bytes write_text)))
    (fun f => (rf_Ordinal f, (role_text (rf_Role f), (rf_Path f, recovery_file_text (rf_State f)))))); [apply _| |].
  - intros f [H1 H2]. refine (conj H1 (conj (role_text_short _) (conj H2 _))). cbn. by destruct (rf_State f).
  - intros [? ? ? s] [? ? ? s'] _ _ [= -> ->%role_text_inj -> Hs]. f_equal. by destruct s, s'.
Qed.

(** A recovery token binds the runtime and everything that was classified. *)
Lemma recoveryToken_binds f r f' r' : short_text f -> short_text f' -> short_recovery r -> short_recovery r' ->
  recoveryToken key f r = recoveryToken key f' r' -> (f = f' /\ r = r') \/ clash (hmac key) (recovery_values f r) (recovery_values f' r').
Proof.
  intros Hf Hf' (H1 & H2 & H3 & H4) (H1' & H2' & H3' & H4') E.
  assert (Hp : forall p, short_text (journal_phase_text p)) by (by intros []). assert (Hs : forall s, short_text (recovery_state_text s)) by (by intros []).
  destruct (domain_binds (both short_text (both short (both short (both short (both any (both short_text (both short_text
      (short_list (fun f => in_uint64 (rf_Ordinal f) /\ short (rf_Path f))))))))))
    (write_pair write_text (write_pair write_bytes (write_pair write_bytes (write_pair write_bytes (write_pair write_boolean
      (write_pair write_text (write_pair write_text (write_list recovery_file_values))))))))
    key "acmemux-native-recovery-v1"
    (f, (r_TransactionID r, (r_WorkingDirectory r, (r_ConfigurationPath r, (r_Bootstrap r, (journal_phase_text (r_Phase r), (recovery_state_text (r_State r), r_Files r)))))))
    (f', (r_TransactionID r', (r_WorkingDirectory r', (r_ConfigurationPath r', (r_Bootstrap r', (journal_phase_text (r_Phase r'), (recovery_state_text (r_State r'), r_Files r')))))))
    eq_refl (conj Hf (conj H1 (conj H2 (conj H3 (conj I (conj (Hp _) (conj (Hs _) H4)))))))
    (conj Hf' (conj H1' (conj H2' (conj H3' (conj I (conj (Hp _) (conj (Hs _) H4'))))))) E) as [E2|Hc]; [left|by right].
  destruct r as [? ? ? ? p s ?], r' as [? ? ? ? p' s' ?]. cbn in *. injection E2 as -> -> -> -> -> Hpp Hss ->. split; [done|].
  f_equal; [by destruct p, p'|by destruct s, s'].
Qed.
End Bound.
