(* ===== verification/ConfDotenv.v ===== *)
(** The dotenv files of a configuration (internal/configuration/dotenv.go) and
    the diagnostics and the state shown for a configuration
    (internal/configuration/service.go, operations.go).  Go visits maps in no
    particular order: the order is a parameter. *)
From stdpp Require Import gmap.
From S2P Require Import Prelude.
From S2P Require Import GoText.
From S2P Require Import GoDecode.
From S2P Require DotenvScan.
From S2P Require DotenvEdit.
From S2P Require Import WsTypes.
From S2P Require Import WsAudit.
From S2P Require Import WsInspect.
From S2P Require Import WsSelect.
From S2P Require Import WsEdit.
From S2P Require Import WsCommit.
From S2P Require Import IntegTypes.
From S2P Require Import IntegFields.
From S2P Require Import ConfTypes.

#[local] Open Scope string_scope.
#[local] Open Scope Z_scope.

(** ** Diagnostics *)

Inductive State := StateReady | StateUnsupported | StateInvalid | StateRecoveryRequired | StateCreationRequired.
#[export] Instance State_eq_dec : EqDecision State.
Proof. solve_decision. Defined.
Inductive Severity := SeverityBlocking | SeverityNotice.
#[export] Instance Severity_eq_dec : EqDecision Severity.
Proof. solve_decision. Defined.
(** These roles hide the roles of paths: those are written with their file. *)
Inductive DiagnosticRole := RoleConfiguration | RoleDotenv | RoleSchema | RoleSemantic | RoleFilesystem | RoleRecovery.
#[export] Instance DiagnosticRole_eq_dec : EqDecision DiagnosticRole.
Proof. solve_decision. Defined.
Inductive DiagnosticCode :=
| CodeUnsupportedCA | CodeUnsupportedProvider | CodeUnsupportedChallenge | CodeUnsupportedHooks | CodeUnsupportedOutput | CodeUnsupportedContent
| CodeUnknownField | CodeYAMLAliasUnsupported | CodeYAMLMergeUnsupported | CodeYAMLTagUnsupported | CodeMultipleDocuments | CodeDuplicateKey
| CodeInvalidUTF8 | CodeDocumentEmpty | CodeDocumentMalformed | CodeDocumentTooLarge | CodeDocumentTooComplex | CodeDotenvMalformed
| CodeDotenvDuplicateKey | CodeDotenvKeyNotAllowed | CodeDotenvExpansionNotAllowed | CodeSchemaValidationFailed | CodeSemanticValidationFailed
| CodeRuntimeManifestChanged | CodeSourceChanged | CodeUnsafePath | CodeSynchronizationFailed | CodeReplacementInterrupted | CodeRecoveryRequired.
#[export] Instance DiagnosticCode_eq_dec : EqDecision DiagnosticCode.
Proof. solve_decision. Defined.
Record Diagnostic := mk_diagnostic {
  di_Code : DiagnosticCode; di_Severity : Severity; di_Role : DiagnosticRole; di_FieldID : FieldID; di_Bindings : list Binding; di_Path : bytes;
  di_Line : Z; di_Column : Z;
}.
#[export] Instance Diagnostic_eq_dec : EqDecision Diagnostic.
Proof. solve_decision. Defined.
(** A blocking diagnostic without a field or a line. *)
Definition blocking (code : DiagnosticCode) (role : DiagnosticRole) (path : bytes) : Diagnostic :=
  mk_diagnostic code SeverityBlocking role "" [] path 0 0.

Definition appendBoundedDiagnostic (l : list Diagnostic) (d : Diagnostic) : list Diagnostic := if 256 <=? blen l then l else (l ++ [d])%list.
Definition appendDiagnostics (destination source : list Diagnostic) : list Diagnostic := fold_left appendBoundedDiagnostic source destination.

Definition unsupportedDiagnosticCode (path : string) : DiagnosticCode :=
  let p := to_bytes path in
  let under section := String.eqb path section || has_prefix (to_bytes section ++ ["/"%char])%list p in
  if under "/servers" then CodeUnsupportedCA
  else if under "/hooks" then CodeUnsupportedHooks
  else if under "/log" || contains (to_bytes "/pfx") p then CodeUnsupportedOutput
  else if contains (to_bytes "/provider") p then CodeUnsupportedProvider
  else if under "/challenges" then CodeUnsupportedChallenge
  else CodeUnsupportedContent.
Definition issue_diagnostic (i : Issue) : Diagnostic :=
  let '(code, role) := match is_Class i with
                       | IssueSchema => (CodeSchemaValidationFailed, RoleSchema)
                       | IssueSemantic | IssueConstraint => (CodeSemanticValidationFailed, RoleSemantic)
                       | IssueUnknown => (CodeUnknownField, RoleConfiguration)
                       | IssueUnsupported => (unsupportedDiagnosticCode (is_Path i), RoleConfiguration)
                       end in
  mk_diagnostic code SeverityBlocking role "" [] [] (is_Line i) (is_Column i).
Definition diagnosticsForInspection (n : Inspection) : list Diagnostic := appendDiagnostics [] (issue_diagnostic <$> in_Issues n).

Definition diagnosticForNativeError (e : NativeCode) : Diagnostic :=
  let code := match e with
              | ErrorSourceEmpty => CodeDocumentEmpty
              | ErrorSourceTooLarge => CodeDocumentTooLarge
              | ErrorInvalidUTF8 => CodeInvalidUTF8
              | ErrorMultipleDocuments => CodeMultipleDocuments
              | ErrorStructureComplex => CodeDocumentTooComplex
              | ErrorAliasUnsupported => CodeYAMLAliasUnsupported
              | ErrorMergeUnsupported => CodeYAMLMergeUnsupported
              | ErrorTagUnsupported => CodeYAMLTagUnsupported
              | ErrorDuplicateKey => CodeDuplicateKey
              | _ => CodeDocumentMalformed
              end in
  blocking code RoleConfiguration [].

Definition dotenvDiagnosticCode (e : DotenvScan.Error) : DiagnosticCode :=
  match DotenvScan.e_code e with
  | DotenvScan.CodeInvalidUTF8 => CodeInvalidUTF8
  | DotenvScan.CodeTooLarge | DotenvScan.CodeTooManyLines | DotenvScan.CodeValueTooLarge => CodeDocumentTooLarge
  | DotenvScan.CodeDuplicateKey => CodeDotenvDuplicateKey
  | DotenvScan.CodeKeyNotAllowed => CodeDotenvKeyNotAllowed
  | DotenvScan.CodeExpansionNotAllowed => CodeDotenvExpansionNotAllowed
  | _ => CodeDotenvMalformed
  end.

(** ** The files the routes name *)

Record dotenvDocument := mk_managed {
  dd_path : bytes; dd_routes : list DotenvRoute; dd_allowed : list bytes; dd_original : bytes; dd_document : option DotenvEdit.Document;
}.
Record dotenvDocuments := mk_documents {
  ds_byPath : gmap bytes dotenvDocument; ds_diagnostics : list Diagnostic; ds_invalid : bool; ds_unsupported : bool;
}.
Definition set_managed (m : dotenvDocument) (ds : dotenvDocuments) : dotenvDocuments :=
  mk_documents (<[dd_path m := m]> (ds_byPath ds)) (ds_diagnostics ds) (ds_invalid ds) (ds_unsupported ds).
Definition report_invalid (d : Diagnostic) (ds : dotenvDocuments) : dotenvDocuments :=
  mk_documents (ds_byPath ds) (appendBoundedDiagnostic (ds_diagnostics ds) d) true (ds_unsupported ds).
Definition report_unsupported (d : Diagnostic) (ds : dotenvDocuments) : dotenvDocuments :=
  mk_documents (ds_byPath ds) (appendBoundedDiagnostic (ds_diagnostics ds) d) (ds_invalid ds) true.

Definition resolveNativeReference (workingDirectory reference : bytes) : option bytes :=
  if (blen reference =? 0) || existsb (Ascii.eqb zero) reference then None
  else
    let joined := if is_abs reference || (blen workingDirectory =? 0) then reference else (workingDirectory ++ slash :: reference)%list in
    if negb (is_abs joined) then None
    else let path := clean_rooted joined in if 4096 <=? blen path then None else Some path.

(** [slices.Compact] *)
Fixpoint Compact (l : list bytes) : list bytes :=
  match l with
  | a :: (b :: _) as rest => if bool_decide (a = b) then Compact rest else a :: Compact rest
  | l => l
  end.

Definition add_route (workingDirectory : bytes) (ds : dotenvDocuments) (r : DotenvRoute) : dotenvDocuments :=
  match resolveNativeReference workingDirectory (to_bytes (rt_reference r)) with
  | None => report_invalid (mk_diagnostic CodeUnsafePath SeverityBlocking RoleFilesystem (rt_fieldID r) (rt_bindings r) [] 0 0) ds
  | Some path =>
      let m := default (mk_managed path [] [] [] None) (ds_byPath ds !! path) in
      set_managed (mk_managed path (dd_routes m ++ [r])%list (dd_allowed m ++ [to_bytes (rt_environmentKey r)])%list (dd_original m) (dd_document m)) ds
  end.
(** More than one provider keeps its values in the file. *)
Definition shared_file (routes : list DotenvRoute) : bool :=
  (1 <? Z.of_nat (size (list_to_set (C := gset string) (omap (fun r => ProviderCodeForField (rt_fieldID r)) routes)))).

(** The order in which a map is visited. *)
Class MapOrder := {
  iterate : forall {A}, list A -> list A;
  iterate_perm : forall A (l : list A), iterate l ≡ₚ l;
}.

Section Dotenv.
Context `{DotenvEdit.DotenvEnv} `{NetParsers} `{MapOrder}.

Definition load_document (sources : gmap bytes SourceFile) (allowMissing : bool) (ds : dotenvDocuments) (m : dotenvDocument) : dotenvDocuments :=
  let path := dd_path m in
  let ds := if shared_file (dd_routes m) then report_unsupported (blocking CodeSemanticValidationFailed RoleDotenv path) ds else ds in
  let allowed := Compact (sort_by text_le (dd_allowed m)) in
  let m := mk_managed path (dd_routes m) allowed (dd_original m) (dd_document m) in
  match sources !! path, allowMissing with
  | None, false => report_invalid (blocking CodeSourceChanged RoleFilesystem path) (set_managed m ds)
  | source, _ =>
      let original := match source with Some f => sf_Content f | None => dd_original m end in
      let m := mk_managed path (dd_routes m) allowed original (dd_document m) in
      match DotenvEdit.Parse original allowed DotenvScan.DefaultPolicy with
      | Err e => report_invalid (blocking (dotenvDiagnosticCode e) RoleDotenv path) (set_managed m ds)
      | Ok d =>
          let ds := set_managed (mk_managed path (dd_routes m) allowed original (Some d)) ds in
          if bool_decide (DotenvEdit.UnsupportedKeys (Some d) = []) then ds
          else report_unsupported (blocking CodeDotenvKeyNotAllowed RoleDotenv path) ds
      end
  end.

Definition working_directory (s : SourceSet) : bytes := pe_Path (rv_WorkingDirectory (sl_Review (ss_Selection s))).
Definition sources_by_path (l : list SourceFile) : gmap bytes SourceFile := fold_left (fun m s => <[sf_Path s := s]> m) l ∅.
Definition visited (ds : dotenvDocuments) : list dotenvDocument := iterate (snd <$> map_to_list (ds_byPath ds)).

Definition loadDotenvDocuments (n : Inspection) (sources : option SourceSet) (allowMissing : bool) : dotenvDocuments :=
  match sources with
  | None => mk_documents ∅ [] true false
  | Some s =>
      let ds := fold_left (add_route (working_directory s)) (in_routes n) (mk_documents ∅ [] false false) in
      fold_left (load_document (sources_by_path (ss_Dotenv s)) allowMissing) (visited ds) ds
  end.

(** ** What a projection learns from them *)

Definition route_presence (d : DotenvEdit.Document) (r : DotenvRoute) : DotenvPresence :=
  let key := to_bytes (rt_environmentKey r) in
  let '(present, valid) := DotenvEdit.ValidatePresence (Some d) key (Some (ValidValue r)) in
  mk_dotenv_presence (rt_fieldID r) (rt_bindings r) present valid
    (if present && valid && negb (rt_secret r) then (fun v => StringValue (of_bytes v)) <$> DotenvEdit.ValueCopy (Some d) key else None).
Definition managed_presence (m : dotenvDocument) : list DotenvPresence :=
  match dd_document m with Some d => route_presence d <$> dd_routes m | None => [] end.
Definition applyDotenvPresence (n : Inspection) (documents : option dotenvDocuments) (strict : bool) : Inspection :=
  match documents with
  | None => n
  | Some ds => WithCoreDNSCredentialValidation (WithDotenvPresence n (visited ds ≫= managed_presence)) strict
  end.

(** ** The state of a configuration: whether it can be edited and run *)

Definition has_class (n : Inspection) (p : IssueClass -> bool) : bool := existsb (fun i => p (is_Class i)) (in_Issues n).
Definition configurationState (n : Inspection) (documents : option dotenvDocuments) : State * bool * bool :=
  match documents with
  | None => (StateInvalid, false, false)
  | Some ds =>
      if negb (in_SchemaValid n) || negb (in_SemanticValid n) || ds_invalid ds then (StateInvalid, false, false)
      else
        let unsupported := ds_unsupported ds || has_class n (fun c => match c with IssueUnsupported | IssueUnknown => true | _ => false end) in
        let constraint := has_class n (fun c => match c with IssueConstraint => true | _ => false end) in
        (if constraint then StateInvalid else if unsupported then StateUnsupported else StateReady,
         in_Replaceable n && negb (ds_invalid ds), in_Executable n && negb (ds_invalid ds) && negb (ds_unsupported ds))
  end.

(** ** Edits of the dotenv files *)

(** The edit an external change asks of its file; an error names what is wrong. *)
Definition routed_change (workingDirectory : bytes) (ds : dotenvDocuments) (c : ExternalChange) : result string (bytes * DotenvEdit.Change) :=
  match resolveNativeReference workingDirectory (to_bytes (ec_reference c)) with
  | None => Err "candidate dotenv path"
  | Some path =>
      match ds_byPath ds !! path ≫= dd_document with
      | None => Err "candidate dotenv route"
      | Some _ =>
          let key := to_bytes (ec_environmentKey c) in
          if bool_decide (ec_operation c = OperationSet) then
            match v ← external_Value c; value_String v with
            | Some text => Ok (path, DotenvEdit.mk_change key DotenvEdit.ActionReplace (to_bytes text))
            | None => Err "candidate dotenv value"
            end
          else Ok (path, DotenvEdit.mk_change key DotenvEdit.ActionRemove [])
      end
  end.
Definition group_changes (l : list (bytes * DotenvEdit.Change)) : gmap bytes (list DotenvEdit.Change) :=
  fold_left (fun m c => <[c.1 := (default [] (m !! c.1) ++ [c.2])%list]> m) l ∅.

Definition identity_part (value : string) : bytes := (itoa (slen value) ++ ":"%char :: to_bytes value ++ [";"%char])%list.
Definition externalIdentity (fieldID : FieldID) (bindings : list Binding) : bytes :=
  (identity_part fieldID ++ (bindings ≫= fun b => identity_part (bd_ID b) ++ identity_part (bd_Value b)))%list.

Definition route_summary (r : DotenvRoute) (s : DotenvEdit.Summary) : ChangeSummary :=
  mk_change_summary (rt_fieldID r) (rt_bindings r) (fs_label (rt_spec r)) TargetDotenv
    (match DotenvEdit.s_action s with DotenvEdit.ActionRemove => SummaryRemove | _ => SummarySet end) true None None.
Definition impacts_of (m : dotenvDocument) (summaries : list DotenvEdit.Summary) (impacts : gmap bytes ChangeSummary) : gmap bytes ChangeSummary :=
  fold_left (fun impacts s =>
    fold_left (fun impacts r =>
      if bool_decide (to_bytes (rt_environmentKey r) = DotenvEdit.s_key s)
      then <[externalIdentity (rt_fieldID r) (rt_bindings r) := route_summary r s]> impacts else impacts) (dd_routes m) impacts) summaries impacts.

Record external_edits := mk_edits { ee_documents : dotenvDocuments; ee_replacements : list Replacement; ee_impacts : gmap bytes ChangeSummary }.
(** Whether a change sets a value: then the file is replaced even if its text
    stays the same. *)
Definition sets_value (l : list DotenvEdit.Change) : bool :=
  existsb (fun c => match DotenvEdit.c_action c with DotenvEdit.ActionReplace => true | _ => false end) l.
Definition edit_document (e : external_edits) (path : bytes) (m : dotenvDocument) (changes : list DotenvEdit.Change) : result string external_edits :=
  '(candidate, summaries) ← map_err (fun _ => "candidate dotenv edit") (DotenvEdit.Apply (dd_document m) changes);
  if negb (sets_value changes) && bool_decide (candidate = dd_original m) then Ok e
  else
    d ← map_err (fun _ => "validate candidate dotenv") (DotenvEdit.Parse candidate (dd_allowed m) DotenvScan.DefaultPolicy);
    Ok (mk_edits (set_managed (mk_managed (dd_path m) (dd_routes m) (dd_allowed m) candidate (Some d)) (ee_documents e))
          (ee_replacements e ++ [mk_replacement WsTypes.RoleDotenv path candidate])%list (impacts_of m summaries (ee_impacts e))).
Fixpoint edit_documents (changes : gmap bytes (list DotenvEdit.Change)) (e : external_edits) (paths : list bytes) : external_edits * result string unit :=
  match paths with
  | [] => (e, Ok tt)
  | path :: paths =>
      match ds_byPath (ee_documents e) !! path with
      | None => edit_documents changes e paths
      | Some m =>
          match edit_document e path m (default [] (changes !! path)) with
          | Ok e => edit_documents changes e paths
          | Err t => (e, Err t)
          end
      end
  end.

(** The documents are returned with an error too: their diagnostics are shown. *)
Definition applyExternalChanges (n : Inspection) (sources : SourceSet) (external : list ExternalChange)
    : dotenvDocuments * result string (list Replacement * list ChangeSummary) :=
  let ds := loadDotenvDocuments n (Some sources) true in
  if ds_invalid ds then (ds, Err "candidate dotenv source")
  else
    match mapM (routed_change (working_directory sources) ds) external with
    | Err t => (ds, Err t)
    | Ok routed =>
        let changes := group_changes routed in
        let '(e, r) := edit_documents changes (mk_edits ds [] ∅) (sort_by text_le (fst <$> map_to_list changes)) in
        (ee_documents e,
         _ ← r;
         Ok (ee_replacements e, omap (fun id => ee_impacts e !! id) (sort_by text_le (fst <$> map_to_list (ee_impacts e)))))
    end.
End Dotenv.
