(* ===== verification/ConfService.v ===== *)
(** The configuration service (internal/configuration/service.go,
    operations.go, creation.go): reading, previewing, saving, recovering and
    creating the native configuration.  Its errors are errors of the workspace
    computations: an error that wraps a sentinel with more text is the
    sentinel. *)
From stdpp Require Import gmap.
From S2P Require Import Prelude.
From S2P Require Import GoText.
From S2P Require DotenvEdit.
From S2P Require Import WsTypes.
From S2P Require Import WsDisk.
From S2P Require Import WsAudit.
From S2P Require Import WsYaml.
From S2P Require Import WsInspect.
From S2P Require Import WsSelect.
From S2P Require Import WsStore.
From S2P Require Import WsEdit.
From S2P Require Import WsCommit.
From S2P Require Import WsBootstrap.
From S2P Require Import WsRecovery.
From S2P Require Import Tokens.
From S2P Require OpExecutor.
From S2P Require Import IntegTypes.
From S2P Require Import IntegFields.
From S2P Require RunIdentity.
From S2P Require Compat.
From S2P Require Import ConfTypes.
From S2P Require Import ConfDotenv.

#[local] Open Scope string_scope.
#[local] Open Scope Z_scope.

Definition ErrBusy : WsError := Failure "native configuration service is busy".
Definition ErrChanged : WsError := Failure "native configuration changed after review".
Definition ErrRuntimeChanged : WsError := Failure "selected runtime changed".
Definition ErrInvalid : WsError := Failure "native configuration request is invalid".
Definition ErrUnavailable : WsError := Failure "native configuration service is unavailable".

(** ** Data *)

Inductive PreviewState := PreviewUnchanged | PreviewInvalid | PreviewReviewRequired.
#[export] Instance PreviewState_eq_dec : EqDecision PreviewState.
Proof. solve_decision. Defined.
Record Source := mk_view_source { so_BaseRevisionToken : string; so_ConfigurationPath : bytes; so_DotenvPaths : list bytes; so_RuntimeManifestID : string }.
Record View := mk_view {
  vw_State : State; vw_Source : Source; vw_Inspection : Inspection; vw_Diagnostics : list Diagnostic; vw_Editing : bool; vw_Execution : bool;
  vw_Recovery : option Recovery;
}.
Record Preview := mk_preview {
  pr_State : PreviewState; pr_BaseRevisionToken : string; pr_ReviewedPreviewToken : string; pr_ResultingState : State; pr_BaseInspection : Inspection;
  pr_Inspection : Inspection; pr_Summary : list ChangeSummary; pr_Diagnostics : list Diagnostic; pr_Execution : bool;
}.
(** [acmeruntime.Selection] *)
Record RuntimeSelection := mk_runtime_selection { sel_Observation : RunIdentity.Observation; sel_ManifestID : string }.

(** What the service calls: each answer may differ from call to call, so it
    depends on the step it is given at.  The inspector of cloud credentials may
    be missing. *)
Record Service := mk_service {
  sv_runtimeSelections : nat -> result WsError RuntimeSelection;
  sv_runtimeInspector : RunIdentity.Observation -> nat -> result WsError RunIdentity.Observation;
  sv_classify : RunIdentity.Observation -> Compat.Result;
  sv_TryAcquire : OpExecutor.Purpose -> nat -> result WsError unit;
  sv_Release : nat -> result WsError unit;
  sv_engineFactory : string -> result WsError Engine;
  sv_cloudAccess : bool;
  sv_tokenKey : bytes;
}.
(** A missing engine factory or source of randomness is replaced by the one of
    production.  [random] is what the reader gives for the key. *)
Record Dependencies := mk_dependencies {
  de_runtimeSelections : option (nat -> result WsError RuntimeSelection);
  de_runtimeInspector : option (RunIdentity.Observation -> nat -> result WsError RunIdentity.Observation);
  de_classify : option (RunIdentity.Observation -> Compat.Result);
  de_coordinator : option ((OpExecutor.Purpose -> nat -> result WsError unit) * (nat -> result WsError unit));
  de_transactions : bool;
  de_engineFactory : option (string -> result WsError Engine);
  de_cloudAccess : bool;
  de_random : option (option bytes);
}.
(** [nativeconfig.NewEngine] with the default limits, and [rand.Reader]. *)
Class Production := {
  NewEngine : string -> bytes -> Manifest -> result NativeCode Engine;
  rand_Reader : option bytes;
}.
Definition productionEngine `{Production} `{Digests} `{Compat.Assets} (runtimeID : string) : result WsError Engine :=
  match CloudDNSManifest runtimeID with
  | None => Err ErrUnavailable
  | Some manifest =>
      schema ← map_err (fun _ => ErrUnavailable) (Compat.Schema Compat.exactManifests runtimeID);
      map_err (fun _ => ErrUnavailable) (NewEngine runtimeID schema manifest)
  end.
Definition New `{Production} `{Digests} `{Compat.Assets} (d : Dependencies) : result string Service :=
  match de_runtimeSelections d, de_runtimeInspector d, de_classify d, de_coordinator d, de_transactions d with
  | Some selections, Some inspector, Some classify, Some (acquire, release), true =>
      match default rand_Reader (de_random d) with
      | None => Err "initialize native configuration review tokens"
      | Some key => Ok (mk_service selections inspector classify acquire release (default productionEngine (de_engineFactory d)) (de_cloudAccess d) key)
      end
  | _, _, _, _, _ => Err "native configuration dependencies are required"
  end.

(** What is known once the sources are read. *)
Record evaluation := mk_evaluation { ev_view : View; ev_runtime : runtimeContext; ev_sources : SourceSet; ev_documents : option dotenvDocuments }.
Record preparedCandidate := mk_prepared_candidate {
  pc_state : PreviewState; pc_resultState : State; pc_inspection : Inspection; pc_diagnostics : list Diagnostic; pc_summary : list ChangeSummary;
  pc_yaml : bytes; pc_replacements : list Replacement; pc_token : string; pc_execution : bool;
}.
Record preparedCreation := mk_prepared_creation { pn_candidate : preparedCandidate; pn_baseInspection : Inspection }.

Definition emptyCreationYAML : bytes := to_bytes "{}
".
(** A candidate that cannot be applied. *)
Definition invalid_candidate (state : State) (n : Inspection) (ds : list Diagnostic) (summary : list ChangeSummary) (yaml : bytes)
    (replacements : list Replacement) (execution : bool) : preparedCandidate :=
  mk_prepared_candidate PreviewInvalid state n ds summary yaml replacements "" execution.
Definition unsafe_path : Diagnostic := blocking CodeUnsafePath RoleFilesystem [].
(** What the candidate itself changes, and what its dotenv files change. *)
Definition candidate_summary (summary impacts : list ChangeSummary) : list ChangeSummary :=
  (List.filter (fun s => negb (bool_decide (cs_Target s = TargetDotenv))) summary ++ impacts)%list.
Definition sorted_paths (l : list bytes) : list bytes := Compact (sort_by text_le l).

Section Operations.
Context `{Machine} `{Yaml} (policy : Policy) `{Digests} `{DotenvEdit.DotenvEnv} `{NetParsers} `{MapOrder} (service : Service).
Abbreviation X := (X (Selection := SelectionRows)).

(** ** Leases and the runtime *)

(** A question to the outside, answered at the current step. *)
Definition ask {A} (f : nat -> result WsError A) : X A :=
  fun s => (Some (f (s_steps s)), mk_sys (s_disk s) (s_db s) (Datatypes.S (s_steps s))).

Definition acquire (purpose : OpExecutor.Purpose) : X unit :=
  mapping (fun e => if is_error ErrWorkspaceBusy e then ErrBusy else ErrUnavailable) (ask (sv_TryAcquire service purpose)).
(** The lease is given back on every path; failing to is an error only of an
    operation that succeeded. *)
Definition leased {A} (purpose : OpExecutor.Purpose) (body : X A) : X A :=
  _ ← acquire purpose;
  r ← catch body;
  released ← catch (ask (sv_Release service));
  match r with
  | Err e => raise e
  | Ok a => match released with Ok _ => mret a | Err _ => raise ErrUnavailable end
  end.

Definition loadRuntime : X runtimeContext :=
  let changed := Joined ErrChanged ErrRuntimeChanged in
  selection ← mapping (fun _ => ErrUnavailable) (ask (sv_runtimeSelections service));
  observation ← mapping (fun _ => changed) (ask (sv_runtimeInspector service (sel_Observation selection)));
  let decision := sv_classify service observation in
  _ ← guard_if (negb (Compat.Compatible decision) || negb (String.eqb (Compat.rs_ManifestID decision) (sel_ManifestID selection))) changed;
  engine ← returning (sv_engineFactory service (Compat.rs_ManifestID decision));
  mret (mk_runtime (Compat.rs_ManifestID decision) (RunIdentity.ReviewFingerprint observation (sel_ManifestID selection))
          (RunIdentity.vi_Value (RunIdentity.ob_Version observation)) (sel_ManifestID selection) engine).

(** The guard of a change: that of the caller, then the same runtime. *)
Definition commit_guard (guard : X unit) (expectedRuntime : string) : X unit :=
  _ ← guard;
  current ← catch loadRuntime;
  match current with
  | Ok current => guard_if (negb (String.eqb (rc_fingerprint current) expectedRuntime)) ErrChanged
  | Err _ => raise ErrChanged
  end.

(** ** Reading *)

Definition source_token (runtime : runtimeContext) (sources : SourceSet) : string :=
  sourceToken (sv_tokenKey service) runtime (ReviewFingerprint (sl_Review (ss_Selection sources))) sources.

Definition evaluate (runtime : runtimeContext) (sources : SourceSet) : evaluation :=
  let source := mk_view_source (source_token runtime sources) (sf_Path (ss_Configuration sources)) (sorted_paths (sf_Path <$> ss_Dotenv sources))
                  (rc_manifestID runtime) in
  match en_Inspect (rc_engine runtime) (sf_Content (ss_Configuration sources)) with
  | Err e => mk_evaluation (mk_view StateInvalid source no_inspection [diagnosticForNativeError e] false false None) runtime sources None
  | Ok n =>
      let documents := loadDotenvDocuments n (Some sources) false in
      let n := applyDotenvPresence n (Some documents) false in
      let diagnostics := appendDiagnostics (diagnosticsForInspection n) (ds_diagnostics documents) in
      let '(state, editing, execution) := configurationState n (Some documents) in
      mk_evaluation (mk_view state source n diagnostics editing execution None) runtime sources (Some documents)
  end.
Definition snapshot_error (e : WsError) : WsError :=
  if is_error ErrRecoveryRequired e || is_error ErrNoSelection e then e
  else if is_error ErrSourceChanged e then ErrChanged else ErrUnavailable.
Definition evaluateLocked : X evaluation :=
  sources ← mapping snapshot_error (WsCommit.Snapshot policy);
  runtime ← loadRuntime;
  mret (evaluate runtime sources).

Definition recovery_view (runtime : runtimeContext) (r : Recovery) : View :=
  mk_view StateRecoveryRequired
    (mk_view_source (recoveryToken (sv_tokenKey service) (rc_fingerprint runtime) r) (r_ConfigurationPath r)
       (sorted_paths (rf_Path <$> List.filter (fun f => bool_decide (rf_Role f = WsTypes.RoleDotenv)) (r_Files r))) (rc_selectedID runtime))
    no_inspection [blocking CodeRecoveryRequired RoleRecovery []] false false (Some r).
Definition creation_view (runtime : runtimeContext) : View :=
  mk_view StateCreationRequired (mk_view_source (creationBaseToken (sv_tokenKey service) runtime) [] [] (rc_manifestID runtime)) no_inspection [] false false None.
Definition snapshotLocked : X View :=
  evaluated ← catch evaluateLocked;
  match evaluated with
  | Ok e => mret (ev_view e)
  | Err e =>
      if is_error ErrNoSelection e then runtime ← loadRuntime; mret (creation_view runtime)
      else if negb (is_error ErrRecoveryRequired e) then raise e
      else
        recovery ← mapping (fun _ => ErrUnavailable) (InspectRecovery policy);
        runtime ← loadRuntime;
        mret (recovery_view runtime recovery)
  end.
Definition Snapshot : X View := leased OpExecutor.PurposeRead snapshotLocked.

(** ** Previews *)

(** What the edits make of the configuration, before the candidate is audited:
    an outcome that needs no audit, or one that does. *)
Definition synthesize (e : evaluation) (changes : list Change) : result WsError (preparedCandidate + preparedCandidate) :=
  let current := sf_Content (ss_Configuration (ev_sources e)) in
  candidate ← map_err (fun _ => ErrInvalid) (en_Preview (rc_engine (ev_runtime e)) current changes);
  let yaml := cd_yaml candidate in
  let '(documents, edits) := applyExternalChanges (cd_Inspection candidate) (ev_sources e) (cd_external candidate) in
  match edits with
  | Err _ =>
      let diagnostics := if bool_decide (ds_diagnostics documents = []) then [blocking CodeDotenvMalformed RoleDotenv []] else ds_diagnostics documents in
      Ok (inl (invalid_candidate StateInvalid no_inspection diagnostics (cd_Summary candidate) yaml [] false))
  | Ok (external, impacts) =>
      let replacements := if bool_decide (yaml = current) then external
                          else mk_replacement WsTypes.RoleConfiguration (sf_Path (ss_Configuration (ev_sources e))) yaml :: external in
      if bool_decide (replacements = []) then
        let v := ev_view e in
        Ok (inl (mk_prepared_candidate PreviewUnchanged (vw_State v) (vw_Inspection v) (vw_Diagnostics v) [] yaml [] "" false))
      else
        let n := applyDotenvPresence (cd_Inspection candidate) (Some documents) true in
        let diagnostics := appendDiagnostics (diagnosticsForInspection n) (ds_diagnostics documents) in
        let summary := candidate_summary (cd_Summary candidate) impacts in
        let '(state, editing, execution) := configurationState n (Some documents) in
        if negb editing || bool_decide (state = StateInvalid)
        then Ok (inl (invalid_candidate state n diagnostics summary yaml replacements execution))
        else
          let token := previewToken (sv_tokenKey service) (so_BaseRevisionToken (vw_Source (ev_view e))) changes yaml replacements in
          Ok (inr (mk_prepared_candidate PreviewReviewRequired state n diagnostics summary yaml replacements token execution))
  end.
Definition refused_by_audit (c : preparedCandidate) : preparedCandidate :=
  invalid_candidate StateInvalid (pc_inspection c) (appendBoundedDiagnostic (pc_diagnostics c) unsafe_path) (pc_summary c) (pc_yaml c)
    (pc_replacements c) false.
Definition prepareCandidate (e : evaluation) (changes : list Change) : X preparedCandidate :=
  outcome ← returning (synthesize e changes);
  match outcome with
  | inl done => mret done
  | inr c =>
      audit ← catch (AuditCandidate policy (Some (ev_sources e)) (pc_yaml c) (pc_replacements c));
      mret (match audit with Ok _ => c | Err _ => refused_by_audit c end)
  end.

Definition preview_of (base : string) (before : Inspection) (c : preparedCandidate) : Preview :=
  mk_preview (pc_state c) base (pc_token c) (pc_resultState c) before (pc_inspection c) (pc_summary c) (pc_diagnostics c) (pc_execution c).
Definition PreviewChanges (baseToken : string) (changes : list Change) : X Preview :=
  leased OpExecutor.PurposePreview (
    e ← evaluateLocked;
    let v := ev_view e in
    let base := so_BaseRevisionToken (vw_Source v) in
    _ ← guard_if (negb (tokenMatches base baseToken)) ErrChanged;
    if negb (vw_Editing v) then
      mret (mk_preview PreviewInvalid base "" (vw_State v) (vw_Inspection v) (vw_Inspection v) [] (vw_Diagnostics v) false)
    else
      c ← prepareCandidate e changes;
      mret (preview_of base (vw_Inspection v) c)).

(** ** Saving.  [id] is what the workspace draws for the edit. *)

Definition Save (id : bytes) (baseToken : string) (changes : list Change) (reviewedPreviewToken : string) (guard : option (X unit)) : X View :=
  match guard with
  | None => raise ErrInvalid
  | Some guard =>
      leased OpExecutor.PurposeSave (
        e ← evaluateLocked;
        _ ← guard_if (negb (tokenMatches (so_BaseRevisionToken (vw_Source (ev_view e))) baseToken) || negb (vw_Editing (ev_view e))) ErrChanged;
        c ← prepareCandidate e changes;
        _ ← guard_if (negb (bool_decide (pc_state c = PreviewReviewRequired)) || negb (tokenMatches (pc_token c) reviewedPreviewToken)) ErrChanged;
        _ ← Commit policy id (mk_plan (Some (ev_sources e)) (pc_yaml c) (pc_replacements c)) (commit_guard guard (rc_fingerprint (ev_runtime e)));
        snapshotLocked)
  end.

(** ** Recovery *)

(** How the error of a change is reported. *)
Definition change_error (e : WsError) : WsError :=
  if is_error ErrSourceChanged e || is_error ErrInvalidEdit e then ErrChanged
  else if is_error ErrChanged e || is_error ErrInvalid e then e
  else ErrUnavailable.
Definition recovery_validator (runtime : runtimeContext) (recovery : Recovery) (sources : SourceSet) : X unit :=
  let inspect := if r_Bootstrap recovery then en_InspectCreation else en_Inspect in
  n ← returning (map_err (fun _ => ErrInvalid) (inspect (rc_engine runtime) (sf_Content (ss_Configuration sources))));
  let documents := loadDotenvDocuments n (Some sources) false in
  let '(state, editing, _) := configurationState (applyDotenvPresence n (Some documents) false) (Some documents) in
  guard_if (negb editing || bool_decide (state = StateInvalid)) ErrInvalid.
Definition ResolveRecovery (baseToken : string) (resolution : RecoveryResolution) (guard : option (X unit)) : X View :=
  match guard, resolution with
  | None, _ | _, ResolutionOther => raise ErrInvalid
  | Some guard, _ =>
      leased OpExecutor.PurposeRecovery (
        recovery ← mapping (fun _ => ErrUnavailable) (InspectRecovery policy);
        runtime ← loadRuntime;
        _ ← guard_if (negb (tokenMatches (recoveryToken (sv_tokenKey service) (rc_fingerprint runtime) recovery) baseToken)) ErrChanged;
        _ ← mapping change_error
              (WsRecovery.ResolveRecovery policy resolution (commit_guard guard (rc_fingerprint runtime)) (recovery_validator runtime recovery));
        snapshotLocked)
  end.

(** ** Creation *)

Definition creationRuntimeLocked : X (runtimeContext * string) :=
  sources ← catch (WsCommit.Snapshot policy);
  match sources with
  | Ok _ => raise ErrChanged
  | Err e =>
      if negb (is_error ErrNoSelection e) then
        raise (if is_error ErrRecoveryRequired e || is_error ErrSourceChanged e then ErrChanged else ErrUnavailable)
      else runtime ← loadRuntime; mret (runtime, creationBaseToken (sv_tokenKey service) runtime)
  end.

(** The sources a creation starts from: nothing but its directory. *)
Definition no_time : GoTime.time := GoTime.zero_time.
Definition syntheticSources (directory : bytes) : SourceSet :=
  let working := mk_evidence WsTypes.RoleWorkingDirectory [] directory PathTypeUnknown no_identity no_access [] false in
  mk_sources (mk_selection (mk_review NoSource working no_evidence no_evidence [] [] [] false [] no_time) no_time)
    (mk_source WsTypes.RoleConfiguration [] [] [] no_fingerprint) [].
(** A directory that is not canonical is refused before the path is used. *)
Definition creation_path (request : CreationRequest) : bytes :=
  if blen (cr_ConfigurationPath request) =? 0 then Join (cr_WorkingDirectory request) (to_bytes ".lego.yml") else cr_ConfigurationPath request.
Definition bootstrap_request (request : CreationRequest) : BootstrapRequest :=
  mk_bootstrap_request (cr_WorkingDirectory request) (cr_ConfigurationPath request).

Definition synthesize_creation (runtime : runtimeContext) (request : CreationRequest) : result WsError (Inspection * (preparedCandidate + preparedCandidate)) :=
  before ← map_err (fun _ => ErrUnavailable) (en_Inspect (rc_engine runtime) emptyCreationYAML);
  candidate ← map_err (fun _ => ErrInvalid) (en_Preview (rc_engine runtime) emptyCreationYAML (cr_Changes request));
  let yaml := cd_yaml candidate in
  n ← map_err (fun _ => ErrInvalid) (en_InspectCreation (rc_engine runtime) yaml);
  let '(documents, edits) := applyExternalChanges n (syntheticSources (cr_WorkingDirectory request)) (cd_external candidate) in
  '(external, impacts) ← map_err (fun _ => ErrInvalid) edits;
  let summary := candidate_summary (cd_Summary candidate) impacts in
  let n := applyDotenvPresence n (Some documents) true in
  let '(state, editing, execution) := configurationState n (Some documents) in
  let diagnostics := diagnosticsForInspection n in
  if negb editing || bool_decide (state = StateInvalid) then Ok (before, inl (invalid_candidate state n diagnostics summary yaml [] execution))
  else
    let replacements := mk_replacement WsTypes.RoleConfiguration (creation_path request) yaml :: external in
    Ok (before, inr (mk_prepared_candidate PreviewReviewRequired state n diagnostics summary yaml replacements "" execution)).
(** An empty configuration is never created. *)
Definition audited_creation (baseToken : string) (request : CreationRequest) (c : preparedCandidate) (audit : BootstrapAudit) : preparedCandidate :=
  let empty := bool_decide (pc_yaml c = emptyCreationYAML) in
  mk_prepared_candidate (if empty then PreviewInvalid else pc_state c) (pc_resultState c) (pc_inspection c) (pc_diagnostics c) (pc_summary c) (pc_yaml c)
    (pc_replacements c)
    (if empty then "" else creationPreviewToken (sv_tokenKey service) baseToken request (pc_yaml c) (pc_replacements c) (BootstrapFingerprint audit))
    (pc_execution c).
Definition prepareCreation (runtime : runtimeContext) (baseToken : string) (request : CreationRequest) : X preparedCreation :=
  '(before, outcome) ← returning (synthesize_creation runtime request);
  match outcome with
  | inl done => mret (mk_prepared_creation done before)
  | inr c =>
      audit ← catch (AuditBootstrap policy (bootstrap_request request) (pc_yaml c) (pc_replacements c));
      mret (mk_prepared_creation (match audit with Ok a => audited_creation baseToken request c a | Err _ => refused_by_audit c end) before)
  end.

Definition PreviewCreation (baseToken : string) (request : CreationRequest) : X Preview :=
  leased OpExecutor.PurposePreview (
    '(runtime, current) ← creationRuntimeLocked;
    _ ← guard_if (negb (tokenMatches current baseToken)) ErrChanged;
    prepared ← prepareCreation runtime current request;
    mret (preview_of current (pn_baseInspection prepared) (pn_candidate prepared))).

Definition Create (id : bytes) (baseToken : string) (request : CreationRequest) (reviewedPreviewToken : string) (guard : option (X unit)) : X View :=
  match guard with
  | None => raise ErrInvalid
  | Some guard =>
      leased OpExecutor.PurposeBootstrap (
        '(runtime, current) ← creationRuntimeLocked;
        _ ← guard_if (negb (tokenMatches current baseToken)) ErrChanged;
        prepared ← prepareCreation runtime current request;
        let c := pn_candidate prepared in
        _ ← guard_if (negb (bool_decide (pc_state c = PreviewReviewRequired)) || negb (tokenMatches (pc_token c) reviewedPreviewToken)) ErrChanged;
        _ ← mapping change_error
              (Bootstrap policy id (mk_bootstrap_plan (bootstrap_request request) (pc_yaml c) (pc_replacements c))
                 (commit_guard guard (rc_fingerprint runtime)));
        snapshotLocked)
  end.
End Operations.
