(* ===== verification/ConfExecution.v ===== *)
(** Execution plans (internal/configuration/execution.go) and the ambient
    access of cloud challenges (internal/configuration/cloud_access.go): what a
    native run will do, the evidence it was reviewed under, and the variables
    and the secrets it needs. *)
From stdpp Require Import gmap.
From S2P Require Import Prelude.
From S2P Require Import GoText.
From S2P Require DotenvScan.
From S2P Require DotenvEdit.
From S2P Require Import WsTypes.
From S2P Require Import WsDisk.
From S2P Require Import WsAudit.
From S2P Require Import WsYaml.
From S2P Require Import WsInspect.
From S2P Require Import WsSelect.
From S2P Require Import WsStore.
From S2P Require Import WsCommit.
From S2P Require Import WsExternal.
From S2P Require Import Tokens.
From S2P Require Import OpTypes.
From S2P Require Import IntegTypes.
From S2P Require Import IntegFields.
From S2P Require RunIdentity.
From S2P Require Import ConfTypes.
From S2P Require Import ConfDotenv.
From S2P Require Import ConfService.

#[local] Open Scope string_scope.
#[local] Open Scope Z_scope.

(** ** The intent *)

Definition maximumExecutionCertificates : Z := 64.

Definition binding_le (a b : Binding) : bool :=
  if String.eqb (bd_ID a) (bd_ID b) then id_le (bd_Value a) (bd_Value b) else id_le (bd_ID a) (bd_ID b).
Definition executionProjectionKey (fieldID : FieldID) (bindings : list Binding) : bytes :=
  (to_bytes fieldID ++ (sort_by binding_le bindings ≫= fun b => zero :: to_bytes (bd_ID b) ++ "="%char :: to_bytes (bd_Value b)))%list.

(** The values and the presence of the fields of a projection. *)
Definition projected_values (l : list ProjectedField) : gmap bytes Value :=
  fold_left (fun m f => match field_Value f with Some v => <[executionProjectionKey (pf_FieldID f) (pf_Bindings f) := v]> m | None => m end) l ∅.
Definition projected_presence (l : list ProjectedField) : gmap bytes bool :=
  fold_left (fun m f => <[executionProjectionKey (pf_FieldID f) (pf_Bindings f) := pf_Present f && pf_Configured f]> m) l ∅.
Definition bindingValues (l : list ProjectedField) (id : BindingID) : list string :=
  sort_by id_le (elements (list_to_set (C := gset string)
    (l ≫= fun f => bd_Value <$> List.filter (fun b => String.eqb (bd_ID b) id && negb (String.eqb (bd_Value b) "")) (pf_Bindings f)))).
Definition projectedString (values : gmap bytes Value) (fieldID : FieldID) (b : Binding) : option string :=
  v ← values !! executionProjectionKey fieldID [b]; value_String v.
Definition projectedStrings (values : gmap bytes Value) (fieldID : FieldID) (b : Binding) : option (list string) :=
  v ← values !! executionProjectionKey fieldID [b]; value_StringList v.

Definition account_servers (values : gmap bytes Value) (accounts : list string) : gmap string string :=
  fold_left (fun m a => match projectedString values FieldAccountServer (mk_binding BindingAccount a) with Some server => <[a := server]> m | None => m end)
    accounts ∅.
Definition challenge_kind (values : gmap bytes Value) (presence : gmap bytes bool) (challenge : string) : string * string :=
  let b := mk_binding BindingChallenge challenge in
  match projectedString values FieldChallengeDNSProvider b with
  | Some provider => ("dns-01", provider)
  | None => ("http-01", if default false (presence !! executionProjectionKey FieldChallengeHTTPWebroot [b]) then "webroot" else "listener")
  end.
Definition execution_certificate (values : gmap bytes Value) (presence : gmap bytes bool) (servers : gmap string string) (name : string)
    : result WsError ExecutionCertificate :=
  let b := mk_binding BindingCertificate name in
  match projectedStrings values FieldCertificateDomains b, projectedString values FieldCertificateAccount b,
        projectedString values FieldCertificateChallenge b with
  | Some ((_ :: _) as domains), Some account, Some challenge =>
      match servers !! account with
      | Some server => let '(kind, mode) := challenge_kind values presence challenge in Ok (mk_certificate name domains account server challenge kind mode)
      | None => Err ErrInvalid
      end
  | _, _, _ => Err ErrInvalid
  end.
Definition executionIntent (e : evaluation) : result WsError ExecutionIntent :=
  let projection := in_Projection (vw_Inspection (ev_view e)) in
  let values := projected_values projection in
  let names := bindingValues projection BindingCertificate in
  _ ← reject_if ((blen names =? 0) || (maximumExecutionCertificates <? blen names)) ErrInvalid;
  certificates ← mapM (execution_certificate values (projected_presence projection) (account_servers values (bindingValues projection BindingAccount))) names;
  let review := sl_Review (ss_Selection (ev_sources e)) in
  Ok (mk_intent (of_bytes (pe_Path (rv_WorkingDirectory review))) (of_bytes (sf_Path (ss_Configuration (ev_sources e))))
        (of_bytes (pe_Path (rv_Storage review))) (rc_identity (ev_runtime e)) (rc_manifestID (ev_runtime e)) certificates []).

(** ** Cloud access *)

Definition maximumCloudCredentialBytes : Z := Z.shiftl 64 10.

Record cloudProjection := mk_projection { cl_present : gmap FieldID bool; cl_values : gmap FieldID string }.
Definition project_field (challenge : string) (p : cloudProjection) (f : ProjectedField) : cloudProjection :=
  if negb (String.eqb (bindingFor (pf_Bindings f) BindingChallenge) challenge) || negb (bool_decide (is_Some (ProviderCodeForField (pf_FieldID f)))) then p
  else mk_projection (<[pf_FieldID f := pf_PresenceKnown f && pf_Present f && pf_Configured f]> (cl_present p))
         (match field_text f with Some text => <[pf_FieldID f := text]> (cl_values p) | None => cl_values p end).
Definition cloudProjectionFor (l : list ProjectedField) (challenge : string) : cloudProjection := fold_left (project_field challenge) l (mk_projection ∅ ∅).
Definition has_field (p : cloudProjection) (id : FieldID) : bool := default false (cl_present p !! id).
Definition value_at (p : cloudProjection) (id : FieldID) : string := default "" (cl_values p !! id).

(** [strings.ToLower] of a rune, as far as it meets ASCII: besides the capital
    letters only two runes have an ASCII lower case. *)
Definition lower_rune (r : Z) : Z := if (65 <=? r) && (r <=? 90) then r + 32 else if r =? 304 then 105 else if r =? 8490 then 107 else r.
Definition ToLower (l : bytes) : bytes := runes l ≫= fun r => encode_scalar (lower_rune r).
(** [strings.Cut] *)
Fixpoint Cut (sep : ascii) (l : bytes) : option (bytes * bytes) :=
  match l with
  | [] => None
  | c :: l => if Ascii.eqb c sep then Some ([], l) else '(before, after) ← Cut sep l; Some (c :: before, after)
  end.
Definition profile_keys : list bytes := [to_bytes "aws_access_key_id"; to_bytes "aws_secret_access_key"; to_bytes "aws_session_token"].
Record profile_scan := mk_scan { ps_result : gmap bytes bytes; ps_selected : bool; ps_found : bool }.
(** [[name]] *)
Definition section_name (line : bytes) : option bytes :=
  match line with
  | "["%char :: rest => match last rest with
                        | Some c => if Ascii.eqb c "]" then Some (DotenvScan.TrimSpace (take (List.length rest - 1) rest)) else None
                        | None => None
                        end
  | _ => None
  end.
Definition ignored_line (line : bytes) : bool := match line with [] => true | c :: _ => Ascii.eqb c "#" || Ascii.eqb c ";" end.
Definition profile_line (profile : bytes) (s : profile_scan) (line : bytes) : result string profile_scan :=
  if ignored_line line then Ok s
  else
    match section_name line with
    | Some name =>
        let selected := bool_decide (name = profile) in
        if selected && ps_found s then Err "duplicate profile" else Ok (mk_scan (ps_result s) selected (ps_found s || selected))
    | None =>
        if negb (ps_selected s) then Ok s
        else
          match Cut "=" line with
          | None => Err "unsupported shared profile entry"
          | Some (key, value) =>
              let key := DotenvScan.TrimSpace (ToLower key) in
              let value := DotenvScan.TrimSpace value in
              if bool_decide (value = []) || negb (bool_decide (key ∈ profile_keys)) then Err "unsupported shared profile entry"
              else if bool_decide (is_Some (ps_result s !! key)) then Err "duplicate shared profile entry"
              else Ok (mk_scan (<[key := value]> (ps_result s)) (ps_selected s) (ps_found s))
          end
    end.
Fixpoint profile_lines (profile : bytes) (s : profile_scan) (lines : list bytes) : result string profile_scan :=
  match lines with [] => Ok s | line :: lines => s ← profile_line profile s (DotenvScan.TrimSpace line); profile_lines profile s lines end.
Definition carriage_return : ascii := z2b 13.
Definition parseAWSSharedProfile (content profile : bytes) : result string (gmap bytes bytes) :=
  _ ← reject_if (contains [carriage_return; newline] content || existsb (Ascii.eqb zero) content) "noncanonical credentials file";
  s ← profile_lines profile (mk_scan ∅ false false) (split_on newline content);
  let missing key := bool_decide (default [] (ps_result s !! to_bytes key) = []) in
  _ ← reject_if (negb (ps_found s) || missing "aws_access_key_id" || missing "aws_secret_access_key") "incomplete shared profile";
  Ok (ps_result s).

Definition duplicateEnvironmentName (l : list ExecutionEnvironment) : bool := negb (bool_decide (NoDup (ee_Name <$> l))).

(** What a challenge needs: how it is shown, its variables, its secrets and the
    evidence of its files. *)
Definition access_parts : Type := ExecutionCloudAccess * list ExecutionEnvironment * list bytes * list PathEvidence.
Definition clean_join (directory name : bytes) : bytes :=
  if is_abs directory then clean_rooted (directory ++ slash :: name)%list else Join directory name.

Section Execution.
Context `{Machine} `{Yaml} (policy : Policy) `{Digests} `{DotenvEdit.DotenvEnv} `{NetParsers} `{MapOrder} (service : Service).
Abbreviation X := (X (Selection := SelectionRows)).

Definition read_credential (path : string) : X ExternalFile :=
  mapping (fun _ => ErrChanged) (ReadExternalCredential policy (to_bytes path) maximumCloudCredentialBytes).
(** A token file must hold more than space. *)
Definition token_of (f : ExternalFile) : X bytes :=
  let token := DotenvScan.TrimSpace (ex_Content f) in
  _ ← guard_if (bool_decide (token = [])) ErrInvalid; mret token.

Definition prepareAzureAccess (challenge : string) (p : cloudProjection) : X access_parts :=
  let method := value_at p FieldAzureAuthMethod in
  let access files helper metadata := mk_cloud_access challenge "azuredns" method files helper metadata in
  let plain metadata : X access_parts := mret (access [] "" metadata, [], [], []) in
  if String.eqb method "env" then
    let path := value_at p FieldAzureClientCertificatePath in
    if String.eqb path "" then plain ""
    else file ← read_credential path; mret (access [path] "" "", [], [], [ex_Evidence file])
  else if String.eqb method "wli" then
    let path := value_at p FieldAzureFederatedTokenFile in
    file ← read_credential path;
    token ← token_of file;
    mret (access [path] "" "", [], [token], [ex_Evidence file])
  else if String.eqb method "msi" then
    plain (if has_field p FieldAzureIMDSEndpoint then "Azure Arc loopback managed-identity endpoint" else "Azure managed-identity metadata service")
  else if String.eqb method "cli" then
    let helper := clean_join (to_bytes (value_at p FieldAzureCLIPath)) (to_bytes "az") in
    helperEvidence ← mapping (fun _ => ErrChanged) (AuditExternalExecutable policy helper);
    configEvidence ← mapping (fun _ => ErrChanged) (AuditExternalDirectory policy (to_bytes (value_at p FieldAzureCLIConfigDirectory)));
    mret (access [of_bytes (pe_Path configEvidence)] (of_bytes helper) "", [], [], [helperEvidence; configEvidence])
  else if String.eqb method "oidc" then
    let path := value_at p FieldAzureOIDCTokenFile in
    if negb (String.eqb path "") then
      file ← read_credential path;
      token ← token_of file;
      mret (access [path] "" "", [mk_environment "AZURE_OIDC_TOKEN" token true], [token], [ex_Evidence file])
    else plain (if has_field p FieldAzureOIDCRequestURL then "explicit OIDC assertion endpoint" else "")
  else if String.eqb method "pipeline" then plain "explicit Azure Pipelines OIDC endpoint"
  else raise ErrInvalid.

(** The variables of a shared profile, those that have a value. *)
Definition profile_variables (credentials : gmap bytes bytes) : list (string * bytes) :=
  List.filter (fun nv => negb (bool_decide (nv.2 = [])))
    [("AWS_ACCESS_KEY_ID", default [] (credentials !! to_bytes "aws_access_key_id"));
     ("AWS_SECRET_ACCESS_KEY", default [] (credentials !! to_bytes "aws_secret_access_key"));
     ("AWS_SESSION_TOKEN", default [] (credentials !! to_bytes "aws_session_token"))].
Definition prepareRoute53Access (challenge : string) (p : cloudProjection) : X access_parts :=
  let mode name := name +:+ (if has_field p FieldAWSAssumeRoleARN then "+assume_role" else "") in
  let access name files metadata := mk_cloud_access challenge "route53" (mode name) files "" metadata in
  if has_field p FieldAWSAccessKeyID then mret (access "static" [] "", [], [], [])
  else if has_field p FieldAWSProfile then
    let path := value_at p FieldAWSSharedCredentialsFile in
    file ← read_credential path;
    credentials ← returning (map_err (fun _ => ErrInvalid) (parseAWSSharedProfile (ex_Content file) (to_bytes (value_at p FieldAWSProfile))));
    let variables := profile_variables credentials in
    mret (access "shared_profile" [path] "", (fun nv => mk_environment nv.1 nv.2 true) <$> variables, snd <$> variables, [ex_Evidence file])
  else mret (access "instance_role" [] "AWS EC2 instance-role metadata service", [], [], []).

Definition is_cloud (c : ExecutionCertificate) : bool :=
  String.eqb (ec_ChallengeKind c) "dns-01" && (String.eqb (ec_ChallengeMode c) "azuredns" || String.eqb (ec_ChallengeMode c) "route53").
Definition cloud_challenges (certificates : list ExecutionCertificate) : gmap string string :=
  fold_left (fun m c => if is_cloud c then <[ec_ChallengeName c := ec_ChallengeMode c]> m else m) certificates ∅.
Fixpoint prepare_accesses (projection : list ProjectedField) (providers : gmap string string) (names : list string)
    : X (list ExecutionCloudAccess * list ExecutionEnvironment * list bytes * list PathEvidence) :=
  match names with
  | [] => mret ([], [], [], [])
  | name :: names =>
      let p := cloudProjectionFor projection name in
      '(access, variables, observed, paths) ← (if String.eqb (default "" (providers !! name)) "azuredns" then prepareAzureAccess name p
                                               else prepareRoute53Access name p);
      '(accesses, environment, secrets, evidence) ← prepare_accesses projection providers names;
      mret (access :: accesses, variables ++ environment, observed ++ secrets, paths ++ evidence)%list
  end.
Definition prepareCloudAccess (e : evaluation) (intent : ExecutionIntent)
    : X (list ExecutionCloudAccess * list ExecutionEnvironment * list bytes * list PathEvidence) :=
  let providers := cloud_challenges (ei_Certificates intent) in
  if bool_decide (providers = ∅) then mret ([], [], [], [])
  else
    _ ← guard_if (negb (sv_cloudAccess service)) ErrUnavailable;
    '(accesses, environment, secrets, evidence) ←
      prepare_accesses (in_Projection (vw_Inspection (ev_view e))) providers (sort_by id_le (fst <$> map_to_list providers));
    _ ← guard_if (duplicateEnvironmentName environment) ErrInvalid;
    mret (accesses, environment, secrets, evidence).

(** ** The evidence and the plan *)

Definition certificate_values (c : ExecutionCertificate) : list bytes :=
  (write_text (ec_Name c) ++ write_list write_text (ec_Domains c) ++ write_text (ec_Account c) ++ write_text (ec_CA c)
   ++ write_text (ec_ChallengeName c) ++ write_text (ec_ChallengeKind c) ++ write_text (ec_ChallengeMode c))%list.
Definition access_values (a : ExecutionCloudAccess) : list bytes :=
  (write_text (ca_ChallengeName a) ++ write_text (ca_Provider a) ++ write_text (ca_AuthMode a) ++ write_list write_text (ca_Files a)
   ++ write_text (ca_Helper a) ++ write_text (ca_Metadata a))%list.
Definition size_values (n : Z) : list bytes := write_integer (uint64 n).
Definition file_evidence_values (f : SourceFile) : list bytes :=
  (write_text (role_text (sf_Role f)) ++ write_bytes (sf_Path f) ++ write_bytes (sf_Reference f)
   ++ identity_values size_values (fp_Identity (sf_Fingerprint f)))%list.
Definition path_evidence_values (e : PathEvidence) : list bytes :=
  (write_text (role_text (pe_Role e)) ++ write_bytes (pe_Path e) ++ identity_values size_values (pe_Identity e))%list.
Definition intent_values (i : ExecutionIntent) : list bytes :=
  (write_text (ei_WorkingDirectory i) ++ write_text (ei_ConfigurationPath i) ++ write_text (ei_StoragePath i) ++ write_text (ei_RuntimeIdentity i)
   ++ write_text (ei_RuntimeManifestID i) ++ write_list certificate_values (ei_Certificates i) ++ write_list access_values (ei_CloudAccess i))%list.
Definition evidence_values (runtime : runtimeContext) (sources : SourceSet) (intent : ExecutionIntent) (cloud : list PathEvidence) : list bytes :=
  (write_text "acmemux-manual-operation-evidence-v2" ++ write_text (rc_manifestID runtime) ++ write_text (rc_fingerprint runtime)
   ++ write_bytes (ExecutionReviewFingerprint (sl_Review (ss_Selection sources))) ++ write_list file_evidence_values (Files sources)
   ++ intent_values intent ++ write_list path_evidence_values cloud)%list.
Definition executionEvidenceDigest (e : evaluation) (intent : ExecutionIntent) (cloud : list PathEvidence) : string :=
  RunIdentity.hex (digest (message (evidence_values (ev_runtime e) (ev_sources e) intent cloud))).

Definition add_secret (secrets : list bytes) (value : bytes) : list bytes := if bool_decide (value ∈ secrets) then secrets else (secrets ++ [value])%list.
(** The secrets of the dotenv files, in the order the files are visited. *)
Definition dotenv_secrets (documents : option dotenvDocuments) : list bytes :=
  match documents with
  | None => []
  | Some ds => visited ds ≫= fun m => omap (fun r => if rt_secret r then
                                                       value ← DotenvEdit.ValueCopy (dd_document m) (to_bytes (rt_environmentKey r));
                                                       if bool_decide (value = []) then None else Some value
                                                     else None) (dd_routes m)
  end.
Definition with_access (i : ExecutionIntent) (accesses : list ExecutionCloudAccess) : ExecutionIntent :=
  mk_intent (ei_WorkingDirectory i) (ei_ConfigurationPath i) (ei_StoragePath i) (ei_RuntimeIdentity i) (ei_RuntimeManifestID i) (ei_Certificates i) accesses.

(** [handle] is the pointer the plan is returned under. *)
Definition PrepareExecution (handle : Z) : X ExecutionPlan :=
  e ← evaluateLocked policy service;
  _ ← guard_if (negb (bool_decide (vw_State (ev_view e) = StateReady)) || negb (vw_Execution (ev_view e))) ErrInvalid;
  intent ← returning (executionIntent e);
  '(accesses, environment, cloudSecrets, cloudEvidence) ← prepareCloudAccess e intent;
  let intent := with_access intent accesses in
  secrets ← returning (map_err (fun _ => ErrUnavailable) (en_ObservedSecrets (rc_engine (ev_runtime e)) (sf_Content (ss_Configuration (ev_sources e)))));
  mret (OpTypes.mk_plan handle intent (so_BaseRevisionToken (vw_Source (ev_view e))) (executionEvidenceDigest e intent cloudEvidence)
          (fold_left add_secret (dotenv_secrets (ev_documents e) ++ cloudSecrets)%list secrets) environment).
End Execution.
