(* ===== verification/ConfCorrect.v ===== *)
(** What the configuration service guarantees: reading and previewing change
    nothing, only what was reviewed is written, and what an execution plan
    binds. *)
From stdpp Require Import gmap.
From S2P Require Import Prelude.
From S2P Require Import GoText.
From S2P Require DotenvScan.
From S2P Require DotenvEdit.
From S2P Require Import WsTypes.
From S2P Require Import WsDisk.
From S2P Require Import WsAudit.
From S2P Require Import WsYaml.
From S2P Require Import WsInspect.
From S2P Require Import WsSelect.
From S2P Require Import WsStore.
From S2P Require Import WsEdit.
From S2P Require Import WsCommit.
From S2P Require Import WsBootstrap.
From S2P Require Import WsRecovery.
From S2P Require Import WsRun.
From S2P Require Import WsSafety.
From S2P Require Import WsLooking.
From S2P Require Import WsRecoverySafe.
From S2P Require Import WsExternal.
From S2P Require WsCommitSafe.
From S2P Require WsExample.
From S2P Require DotenvCorrect.
From S2P Require Import Tokens.
From S2P Require Import OpTypes.
From S2P Require OpExecutor.
From S2P Require OpReview.
From S2P Require Import IntegTypes.
From S2P Require Import IntegFields.
From S2P Require RunIdentity.
From S2P Require Compat.
From S2P Require Import ConfTypes.
From S2P Require Import ConfDotenv.
From S2P Require Import ConfService.
From S2P Require Import ConfExecution.

#[local] Open Scope string_scope.
#[local] Open Scope Z_scope.

(** ** What only looks *)

Section Looking.
Context `{Machine} `{Yaml} (policy : Policy) `{Digests} `{DotenvEdit.DotenvEnv} `{NetParsers} `{MapOrder} (service : Service).
Abbreviation X := (X (Selection := SelectionRows)).

Lemma looking_ask {A} (f : nat -> result WsError A) : looking (ask f : X A).
Proof. intros _ s. by split. Qed.
Hint Resolve looking_ask looking_Store_Load looking_no_selection looking_no_pending looking_snapshotSelection looking_AuditCandidate looking_InspectRecovery
  looking_returns looking_auditPath looking_confirmPath looking_auditBootstrap : look.
Lemma looking_Snapshot : looking (WsCommit.Snapshot policy : X _).
Proof. unfold WsCommit.Snapshot. looks. Qed.
Lemma looking_AuditBootstrap request candidate l : looking (AuditBootstrap policy request candidate l : X _).
Proof. unfold AuditBootstrap. looks. Qed.
Lemma looking_acquire p : looking (acquire service p : X _).
Proof. unfold acquire. looks. Qed.
Hint Resolve looking_Snapshot looking_AuditBootstrap looking_acquire : look.
Lemma looking_leased {A} p (body : X A) : looking body -> looking (leased service p body).
Proof. intros Hb. unfold leased. looks; done. Qed.
Lemma looking_loadRuntime : looking (loadRuntime service : X _).
Proof. unfold loadRuntime. looks. Qed.
Hint Resolve looking_loadRuntime : look.
Lemma looking_commit_guard guard f : looking guard -> looking (commit_guard service guard f : X _).
Proof. intros Hg. unfold commit_guard. looks; done. Qed.
Lemma looking_evaluateLocked : looking (evaluateLocked policy service : X _).
Proof. unfold evaluateLocked. looks. Qed.
Hint Resolve looking_evaluateLocked : look.
Lemma looking_snapshotLocked : looking (snapshotLocked policy service : X _).
Proof. unfold snapshotLocked. looks. Qed.
Lemma looking_prepareCandidate e changes : looking (prepareCandidate policy service e changes : X _).
Proof. unfold prepareCandidate. looks. Qed.
Lemma looking_creationRuntimeLocked : looking (creationRuntimeLocked policy service : X _).
Proof. unfold creationRuntimeLocked. looks. Qed.
Lemma looking_prepareCreation runtime base request : looking (prepareCreation policy service runtime base request : X _).
Proof. unfold prepareCreation. looks. Qed.
Hint Resolve looking_snapshotLocked looking_prepareCandidate looking_creationRuntimeLocked looking_prepareCreation : look.

Lemma looking_preview_body base request : looking (
  '(runtime, current) ← creationRuntimeLocked policy service;
  _ ← guard_if (negb (tokenMatches current base)) ErrChanged;
  prepared ← prepareCreation policy service runtime current request;
  mret (preview_of current (pn_baseInspection prepared) (pn_candidate prepared)) : X _).
Proof. looks. Qed.

Lemma looking_ReadExternalCredential path limit : looking (ReadExternalCredential policy path limit : X _).
Proof. unfold ReadExternalCredential, selected_path. looks. Qed.
Lemma looking_AuditExternalDirectory path : looking (AuditExternalDirectory policy path : X _).
Proof. unfold AuditExternalDirectory, selected_path. looks. Qed.
Lemma looking_AuditExternalExecutable path : looking (AuditExternalExecutable policy path : X _).
Proof. unfold AuditExternalExecutable, selected_path. looks. Qed.
Hint Resolve looking_ReadExternalCredential looking_AuditExternalDirectory looking_AuditExternalExecutable : look.
Lemma looking_prepareAzureAccess challenge p : looking (prepareAzureAccess policy challenge p : X _).
Proof. unfold prepareAzureAccess, read_credential, token_of. looks. Qed.
Lemma looking_prepareRoute53Access challenge p : looking (prepareRoute53Access policy challenge p : X _).
Proof. unfold prepareRoute53Access, read_credential. looks. Qed.
Hint Resolve looking_prepareAzureAccess looking_prepareRoute53Access : look.
Lemma looking_prepare_accesses projection providers names : looking (prepare_accesses policy projection providers names : X _).
Proof. induction names as [|name names IH]; cbn; looks; done. Qed.
Hint Resolve looking_prepare_accesses : look.
Lemma looking_prepareCloudAccess e intent : looking (prepareCloudAccess policy service e intent : X _).
Proof. unfold prepareCloudAccess. looks. Qed.
Hint Resolve looking_prepareCloudAccess : look.

(** Left alone by other processes, taking a snapshot of the configuration,
    previewing an edit, previewing a creation and preparing an execution leave
    every file, every directory and the pending edit journal as they were,
    whatever their calls return and wherever they are stopped. *)
Theorem reading_changes_nothing base changes request handle s : quiet ->
  unchanged s (Snapshot policy service s).2 /\ unchanged s (PreviewChanges policy service base changes s).2
  /\ unchanged s (PreviewCreation policy service base request s).2 /\ unchanged s (PrepareExecution policy service handle s).2.
Proof.
  intros Hq. split_and!; revert s; apply (fun m (Hm : looking m) => Hm Hq).
  - unfold Snapshot. apply looking_leased. eauto with look.
  - unfold PreviewChanges. apply looking_leased. looks.
  - unfold PreviewCreation. apply looking_leased. looks.
  - unfold PrepareExecution. looks.
Qed.
End Looking.

(** ** What writes *)

Section Writing.
Context `{Machine} `{Yaml} (policy : Policy) `{Digests} `{DotenvEdit.DotenvEnv} `{NetParsers} `{MapOrder} (service : Service).
Context (Hquiet : quiet).
Abbreviation X := (X (Selection := SelectionRows)).
Abbreviation sys := (sys (Selection := SelectionRows)).

(** Values a computation can return, whatever its calls do. *)
Definition yields {A} (m : X A) (P : A -> Prop) : Prop := forall s a s', m s = (Some (Ok a), s') -> P a.
Lemma yields_bind {A B} (m : X A) (f : A -> X B) P Q : yields m P -> (forall a, P a -> yields (f a) Q) -> yields (m ≫= f) Q.
Proof.
  intros Hm Hf s b s' Hr. unfold mbind, X_bind in Hr. specialize (Hm s). destruct (m s) as [[[a|e]|] s1]; [|done..].
  eapply Hf; [by eapply Hm|done].
Qed.
Lemma yields_any {A} (m : X A) : yields m (fun _ => True).
Proof. done. Qed.
Lemma yields_ret {A} (a : A) (P : A -> Prop) : P a -> yields (mret a) P.
Proof. by intros Ha s b s' [= <- _]. Qed.
Lemma yields_raise {A} e (P : A -> Prop) : yields (raise e) P.
Proof. by intros s a s' Hr. Qed.
Lemma yields_guard b e : yields (guard_if b e) (fun _ => b = false).
Proof. destruct b; [apply yields_raise|by apply yields_ret]. Qed.
Lemma yields_returning {A} (r : result WsError A) : yields (returning r) (fun a => r = Ok a).
Proof. by intros s a s' [= -> _]. Qed.
Lemma yields_mapping {A} g (m : X A) P : yields m P -> yields (mapping g m) P.
Proof. intros Hm s a s' Hr. unfold mapping in Hr. specialize (Hm s). destruct (m s) as [[[b|e]|] s1]; [|done..]. injection Hr as -> ->. by eapply Hm. Qed.

Lemma yields_catch {A} (m : X A) P : yields m P -> yields (catch m) (fun r => forall a, r = Ok a -> P a).
Proof. intros Hm s r s' Hr a ->. unfold catch in Hr. specialize (Hm s). destruct (m s) as [[[b|e]|] s1]; [|done..]. injection Hr as -> ->. by eapply Hm. Qed.

(** From a state on which the disk and the journal are still those of [s0]:
    values a computation can return then, and computations that change the disk or
    the journal only through a step in [P], if at all. *)
Section From.
Context (s0 : sys).
Definition seen {A} (m : X A) (P : A -> Prop) : Prop := forall s a s', unchanged s0 s -> m s = (Some (Ok a), s') -> P a.
Lemma seen_yields {A} (m : X A) P : yields m P -> seen m P.
Proof using Type. intros Hm s a s' _. apply Hm. Qed.
Lemma seen_bind {A B} (m : X A) (f : A -> X B) P Q : looking m -> seen m P -> (forall a, P a -> seen (f a) Q) -> seen (m ≫= f) Q.
Proof using Hquiet.
  intros Lm Hm Hf s b s' U Hr. unfold mbind, X_bind in Hr. specialize (Lm Hquiet s). specialize (Hm s). destruct (m s) as [[[a|e]|] s1]; [|done..].
  eapply Hf; [by eapply Hm| |exact Hr]. by etransitivity.
Qed.
Lemma seen_catch {A} (m : X A) P : seen m P -> seen (catch m) (fun r => forall a, r = Ok a -> P a).
Proof using Type.
  intros Hm s r s' U Hr a ->. unfold catch in Hr. specialize (Hm s). destruct (m s) as [[[b|e]|] s1]; [|done..]. injection Hr as -> ->. by eapply Hm.
Qed.
Lemma seen_leased {A} p (body : X A) P : looking body -> seen body P -> seen (leased service p body) P.
Proof using Hquiet.
  intros Lb Hb. unfold leased. eapply seen_bind; [by apply looking_acquire|apply seen_yields, yields_any|]. intros _ _.
  eapply seen_bind; [by apply looking_catch|by apply seen_catch|]. intros r Hr.
  eapply seen_bind; [apply looking_catch, looking_ask|apply seen_yields, yields_any|]. intros released _.
  apply seen_yields. destruct r; [|apply yields_raise]. destruct released; [|apply yields_raise]. apply yields_ret. by apply Hr.
Qed.

Definition through {A} (m : X A) (P : sys -> sys -> Prop) : Prop :=
  forall s, unchanged s0 s -> unchanged s (m s).2 \/ exists s1 s2, unchanged s s1 /\ P s1 s2 /\ unchanged s2 (m s).2.
Lemma through_step {A} (m : X A) (P : sys -> sys -> Prop) : (forall s, P s (m s).2) -> through m P.
Proof using Type. intros Hm s _. right. exists s, (m s).2. split_and!; [done|apply Hm|done]. Qed.
Lemma through_bind {A B} (m : X A) (f : A -> X B) P Q :
  looking m -> seen m Q -> (forall a, Q a -> through (f a) P) -> through (m ≫= f) P.
Proof using Hquiet.
  intros Lm Hm Hf s U0. specialize (Lm Hquiet s). unfold mbind, X_bind. specialize (Hm s). destruct (m s) as [[[a|e]|] s']; cbn in *; [|by left..].
  destruct (Hf a (Hm _ _ U0 eq_refl) s') as [U|(s1 & s2 & U & HP & U2)]; [by etransitivity|left; by etransitivity|right; exists s1, s2; split_and!; [by etransitivity|done..]].
Qed.
Lemma through_then {A B} (m : X A) (f : A -> X B) P : through m P -> (forall a, looking (f a)) -> through (m ≫= f) P.
Proof using Hquiet.
  intros Hm Lf s U0. unfold mbind, X_bind. specialize (Hm s U0). destruct (m s) as [[[a|e]|] s']; [|done..]. pose proof (Lf a Hquiet s') as U.
  destruct Hm as [U1|(s1 & s2 & U1 & HP & U2)]; [left; by etransitivity|right; exists s1, s2; split_and!; [done..|by etransitivity]].
Qed.
Lemma through_catch {A} (m : X A) P : through m P -> through (catch m) P.
Proof using Type. intros Hm s U0. specialize (Hm s U0). unfold catch. by destruct (m s) as [[r|] s']. Qed.
Lemma through_mapping {A} g (m : X A) P : through m P -> through (mapping g m) P.
Proof using Type. intros Hm s U0. specialize (Hm s U0). unfold mapping. by destruct (m s) as [[[a|e]|] s']. Qed.
Lemma through_leased {A} p (body : X A) P : through body P -> through (leased service p body) P.
Proof using Hquiet.
  intros Hb. unfold leased. eapply through_bind; [by apply looking_acquire|apply seen_yields, yields_any|]. intros _ _.
  apply through_then; [by apply through_catch|]. intros r. pose proof (@looking_ask). looks.
Qed.
End From.

(** ** Saving *)

(** What an accepted edit is: the revision read is the one the caller named, it
    can be edited, and the candidate carries the token of the review. *)
Record reviewed_edit (base reviewed : string) (changes : list Change) (e : evaluation) (c : preparedCandidate) : Prop := mk_reviewed_edit {
  re_evaluated : exists runtime sources, e = evaluate service runtime sources;
  re_base : tokenMatches (so_BaseRevisionToken (vw_Source (ev_view e))) base = true;
  re_editing : vw_Editing (ev_view e) = true;
  re_candidate : synthesize service e changes = Ok (inr c);
  re_token : tokenMatches (pc_token c) reviewed = true;
}.
Definition commit_plan (e : evaluation) (c : preparedCandidate) : CommitPlan := WsCommit.mk_plan (Some (ev_sources e)) (pc_yaml c) (pc_replacements c).

Lemma evaluateLocked_yields : yields (evaluateLocked policy service) (fun e => exists runtime sources, e = evaluate service runtime sources).
Proof.
  unfold evaluateLocked. eapply yields_bind; [apply yields_any|]. intros sources _. eapply yields_bind; [apply yields_any|]. intros runtime _.
  apply yields_ret. eauto.
Qed.
Lemma refused_state c : pc_state (refused_by_audit c) = PreviewInvalid.
Proof. done. Qed.
Lemma synthesize_done e changes c : synthesize service e changes = Ok (inl c) -> pc_state c <> PreviewReviewRequired.
Proof.
  unfold synthesize. intros (candidate & _ & Hc)%bind_Ok. revert Hc. cbn zeta.
  destruct (applyExternalChanges _ _ _) as [ds [[external impacts]|t]]; [|by intros [= <-]].
  case_bool_decide as Hr; [by intros [= <-]|]. destruct (configurationState _ _) as [[state editing] execution].
  destruct (negb editing || _); by intros [= <-].
Qed.
Lemma prepareCandidate_yields e changes :
  yields (prepareCandidate policy service e changes) (fun c => pc_state c = PreviewReviewRequired -> synthesize service e changes = Ok (inr c)).
Proof.
  unfold prepareCandidate. eapply yields_bind; [apply yields_returning|]. intros [c|c] Hc.
  - apply yields_ret. intros Hs. by apply synthesize_done in Hc.
  - eapply yields_bind; [apply yields_any|]. intros [a|e'] _; by apply yields_ret.
Qed.

Lemma Save_through s0 id base changes reviewed guard :
  through s0 (Save policy service id base changes reviewed (Some guard))
    (fun s1 s2 => exists e c, reviewed_edit base reviewed changes e c
       /\ s2 = (Commit policy id (commit_plan e c) (commit_guard service guard (rc_fingerprint (ev_runtime e))) s1).2).
Proof using Hquiet.
  unfold Save. apply through_leased. eapply through_bind; [by apply looking_evaluateLocked|apply seen_yields, evaluateLocked_yields|]. intros e He.
  eapply through_bind; [looks|apply seen_yields, yields_guard|]. intros _ [Hb Hed]%orb_false_iff.
  eapply through_bind; [by apply looking_prepareCandidate|apply seen_yields, prepareCandidate_yields|]. intros c Hc.
  eapply through_bind; [looks|apply seen_yields, yields_guard|]. intros _ [Hs Ht]%orb_false_iff. bool_prop.
  apply through_then; [|intros; by apply looking_snapshotLocked].
  apply through_step. intros s. exists e, c. split; [constructor; auto|done].
Qed.

Lemma matching_tokens key v v' : tokenMatches (token key v) (token key v') = true -> token key v = token key v'.
Proof.
  intros E%matching_token. unfold token in E at 1. rewrite list_ascii_of_string_of_list_ascii, DecodeString_encode in E.
  unfold token. congruence.
Qed.
Lemma synthesize_token e changes c : synthesize service e changes = Ok (inr c) ->
  pc_token c = previewToken (sv_tokenKey service) (so_BaseRevisionToken (vw_Source (ev_view e))) changes (pc_yaml c) (pc_replacements c).
Proof.
  unfold synthesize. intros (candidate & _ & Hc)%bind_Ok. revert Hc. cbn zeta.
  destruct (applyExternalChanges _ _ _) as [ds [[external impacts]|t]]; [|done].
  case_bool_decide as Hr; [done|]. destruct (configurationState _ _) as [[state editing] execution].
  destruct (negb editing || _); [done|]. by intros [= <-].
Qed.
Lemma yields_leased {A} p (body : X A) P : yields body P -> yields (leased service p body) P.
Proof.
  intros Hb. unfold leased. eapply yields_bind; [apply yields_any|]. intros _ _. eapply yields_bind; [by apply yields_catch|]. intros r Hr.
  eapply yields_bind; [apply yields_any|]. intros released _. destruct r; [|apply yields_raise]. destruct released; [|apply yields_raise].
  apply yields_ret. by apply Hr.
Qed.
Lemma PreviewChanges_yields base changes :
  yields (PreviewChanges policy service base changes) (fun p => pr_State p = PreviewReviewRequired ->
    exists e c, synthesize service e changes = Ok (inr c) /\ p = preview_of (so_BaseRevisionToken (vw_Source (ev_view e))) (vw_Inspection (ev_view e)) c).
Proof.
  unfold PreviewChanges. apply yields_leased. eapply yields_bind; [apply yields_any|]. intros e _. eapply yields_bind; [apply yields_any|]. intros _ _.
  destruct (negb (vw_Editing (ev_view e))); [by apply yields_ret|]. eapply yields_bind; [apply prepareCandidate_yields|]. intros c Hc.
  apply yields_ret. intros Hs. exists e, c. split; [by apply Hc|done].
Qed.

(** An edit whose parts have a representable size, and two edits that write the
    same, short of a clash of the keyed digest. *)
Definition fits (e : evaluation) (changes : list Change) (c : preparedCandidate) : Prop :=
  short_preview (so_BaseRevisionToken (vw_Source (ev_view e))) changes (pc_yaml c) (pc_replacements c).
Definition edit_values (e : evaluation) (changes : list Change) (c : preparedCandidate) : list bytes :=
  preview_values (so_BaseRevisionToken (vw_Source (ev_view e))) changes (pc_yaml c) (pc_replacements c).
Definition same_edit (e e' : evaluation) (changes changes' : list Change) (c c' : preparedCandidate) : Prop :=
  so_BaseRevisionToken (vw_Source (ev_view e)) = so_BaseRevisionToken (vw_Source (ev_view e')) /\ changes = changes'
  /\ pc_yaml c = pc_yaml c' /\ pc_replacements c = pc_replacements c'.

(** C8: Once a preview asked for review, a save under its token either leaves
    every file and the pending journal as they were, or hands the journaled edit
    exactly one plan: made of freshly read sources at the revision the caller
    named, for the very changes, the configuration text and the files that were
    previewed, or two different edits have the same keyed digest.  Nothing else
    the save does writes, whatever its calls return and wherever it stops. *)
Theorem Save_writes_what_was_previewed base0 changes0 s0 s0' p :
  PreviewChanges policy service base0 changes0 s0 = (Some (Ok p), s0') -> pr_State p = PreviewReviewRequired ->
  exists e0 c0, p = preview_of (so_BaseRevisionToken (vw_Source (ev_view e0))) (vw_Inspection (ev_view e0)) c0 /\
  forall id base changes guard s,
    let s' := (Save policy service id base changes (pr_ReviewedPreviewToken p) (Some guard) s).2 in
    unchanged s s' \/
    exists s1 e c, unchanged s s1 /\ reviewed_edit base (pr_ReviewedPreviewToken p) changes e c
      /\ unchanged (Commit policy id (commit_plan e c) (commit_guard service guard (rc_fingerprint (ev_runtime e))) s1).2 s'
      /\ (fits e0 changes0 c0 -> fits e changes c ->
           same_edit e e0 changes changes0 c c0 \/ clash (hmac (sv_tokenKey service)) (edit_values e changes c) (edit_values e0 changes0 c0)).
Proof using Hquiet.
  intros Hp Hs. destruct (PreviewChanges_yields _ _ _ _ _ Hp Hs) as (e0 & c0 & Hc0%synthesize_token & ->). exists e0, c0. split; [done|].
  intros id base changes guard s. destruct (Save_through s id base changes (pc_token c0) guard s (reflexivity s)) as [U|(s1 & s2 & U & (e & c & Hr & ->) & U2)]; [by left|right].
  exists s1, e, c. split_and!; [done..|]. intros F0 F. destruct Hr as [_ _ _ Hc%synthesize_token Ht].
  rewrite Hc, Hc0 in Ht. apply matching_tokens in Ht. apply previewToken_binds in Ht; done.
Qed.

(** ** Creating *)

(** A creation that was prepared from a state with the disk of [s]: the runtime
    that was read then, the candidate made for it, the audit that was made of the
    directory for this candidate then, and the token over all of it. *)
Record audited (s : sys) (base : string) (request : CreationRequest) (runtime : runtimeContext) (audit : BootstrapAudit) (c : preparedCandidate) : Prop := mk_audited {
  au_runtime : exists s1 s1', unchanged s s1 /\ loadRuntime service s1 = (Some (Ok runtime), s1');
  au_base : base = creationBaseToken (sv_tokenKey service) runtime;
  au_candidate : exists before plain, synthesize_creation runtime request = Ok (before, inr plain)
    /\ pc_yaml c = pc_yaml plain /\ pc_replacements c = pc_replacements plain;
  au_filled : pc_yaml c <> emptyCreationYAML;
  au_audit : exists s1 s1', unchanged s s1
    /\ AuditBootstrap policy (bootstrap_request request) (pc_yaml c) (pc_replacements c) s1 = (Some (Ok audit), s1');
  au_token : pc_token c = creationPreviewToken (sv_tokenKey service) base request (pc_yaml c) (pc_replacements c) (BootstrapFingerprint audit);
}.
Definition creation_plan (request : CreationRequest) (c : preparedCandidate) : BootstrapPlan :=
  mk_bootstrap_plan (bootstrap_request request) (pc_yaml c) (pc_replacements c).

Lemma creationRuntimeLocked_seen s0 :
  seen s0 (creationRuntimeLocked policy service) (fun rt => rt.2 = creationBaseToken (sv_tokenKey service) rt.1
    /\ exists s1 s1', unchanged s0 s1 /\ loadRuntime service s1 = (Some (Ok rt.1), s1')).
Proof using Hquiet.
  unfold creationRuntimeLocked. eapply seen_bind; [apply looking_catch, looking_Snapshot|apply seen_yields, yields_any|].
  intros [a|e] _; [apply seen_yields, yields_raise|]. destruct (negb _); [apply seen_yields, yields_raise|].
  eapply (seen_bind _ _ _ (fun runtime => exists s1 s1', unchanged s0 s1 /\ loadRuntime service s1 = (Some (Ok runtime), s1')));
    [apply looking_loadRuntime|intros s a s' U Hr; by exists s, s'|].
  intros runtime Hr. apply seen_yields. by apply yields_ret.
Qed.
Lemma synthesize_creation_done runtime request before c : synthesize_creation runtime request = Ok (before, inl c) -> pc_state c <> PreviewReviewRequired.
Proof.
  unfold synthesize_creation. intros (b & _ & (candidate & _ & (n & _ & Hc)%bind_Ok)%bind_Ok)%bind_Ok. revert Hc. cbn zeta.
  destruct (applyExternalChanges _ _ _) as [ds edits]. intros ([external impacts] & _ & Hc)%bind_Ok. revert Hc.
  destruct (configurationState _ _) as [[state editing] execution]. destruct (negb editing || _); [|done]. by intros [= _ <-].
Qed.
Lemma prepareCreation_seen s0 runtime request :
  (exists s1 s1', unchanged s0 s1 /\ loadRuntime service s1 = (Some (Ok runtime), s1')) ->
  let base := creationBaseToken (sv_tokenKey service) runtime in
  seen s0 (prepareCreation policy service runtime base request) (fun prepared => pc_state (pn_candidate prepared) = PreviewReviewRequired ->
    exists audit, audited s0 base request runtime audit (pn_candidate prepared)).
Proof using Hquiet.
  intros Hrt base. unfold prepareCreation. eapply seen_bind; [apply looking_returning|apply seen_yields, yields_returning|]. intros [before [c|c]] Hc.
  - apply seen_yields, yields_ret. intros Hs. by apply synthesize_creation_done in Hc.
  - eapply seen_bind; [apply looking_catch, looking_AuditBootstrap| |].
    { apply seen_catch. intros s a s' U Hr. exact (ex_intro (fun s1 => exists s1', unchanged s0 s1 /\ _ s1 = (Some (Ok a), s1')) s (ex_intro _ s' (conj U Hr))). }
    intros [a|e'] Ha; apply seen_yields, yields_ret; [|done]. cbn [pn_candidate]. unfold audited_creation at 1. cbn [pc_state].
    case_bool_decide as Hy; [done|]. intros _. exists a. specialize (Ha a eq_refl). unfold audited_creation.
    constructor; cbn; [done|done|by exists before, c|done|done|by rewrite bool_decide_false].
Qed.

Lemma PreviewCreation_seen s0 base request :
  seen s0 (PreviewCreation policy service base request) (fun p => pr_State p = PreviewReviewRequired ->
    exists runtime audit c before, audited s0 (pr_BaseRevisionToken p) request runtime audit c /\ p = preview_of (pr_BaseRevisionToken p) before c).
Proof using Hquiet.
  unfold PreviewCreation. apply seen_leased; [apply looking_preview_body|]. eapply seen_bind; [apply looking_creationRuntimeLocked|apply creationRuntimeLocked_seen|].
  intros [runtime current] [Hc Hrt]. cbn [fst snd] in Hc, Hrt. subst current.
  eapply seen_bind; [looks|apply seen_yields, yields_any|]. intros _ _.
  eapply seen_bind; [apply looking_prepareCreation|by apply prepareCreation_seen|]. intros prepared Hp.
  apply seen_yields, yields_ret. intros Hs. destruct (Hp Hs) as [audit Ha]. exists runtime, audit, (pn_candidate prepared), (pn_baseInspection prepared). by split.
Qed.
Lemma Create_through s0 id base request reviewed guard :
  through s0 (Create policy service id base request reviewed (Some guard))
    (fun s1 s2 => exists runtime audit c, audited s0 (creationBaseToken (sv_tokenKey service) runtime) request runtime audit c
       /\ tokenMatches (creationBaseToken (sv_tokenKey service) runtime) base = true /\ tokenMatches (pc_token c) reviewed = true
       /\ s2 = (Bootstrap policy id (creation_plan request c) (commit_guard service guard (rc_fingerprint runtime)) s1).2).
Proof using Hquiet.
  unfold Create. apply through_leased. eapply through_bind; [by apply looking_creationRuntimeLocked|apply creationRuntimeLocked_seen|].
  intros [runtime current] [Hc Hrt]. cbn in Hc, Hrt. subst current.
  eapply through_bind; [looks|apply seen_yields, yields_guard|]. intros ? Hb%negb_false_iff.
  eapply through_bind; [by apply looking_prepareCreation|by apply prepareCreation_seen|]. intros prepared Hp.
  eapply through_bind; [looks|apply seen_yields, yields_guard|]. intros _ [Hs Ht]%orb_false_iff. bool_prop.
  apply through_then; [|intros; by apply looking_snapshotLocked]. apply through_mapping.
  apply through_step. intros s. destruct (Hp) as [audit Ha]; [done|]. exists runtime, audit, (pn_candidate prepared). done.
Qed.

Definition creation_fits (base : string) (request : CreationRequest) (audit : BootstrapAudit) (c : preparedCandidate) : Prop :=
  short_preview base (cr_Changes request) (pc_yaml c) (pc_replacements c) /\ short (cr_WorkingDirectory request) /\ short (cr_ConfigurationPath request)
  /\ short (BootstrapFingerprint audit).
Definition same_creation (base base' : string) (request request' : CreationRequest) (audit audit' : BootstrapAudit) (c c' : preparedCandidate) : Prop :=
  base = base' /\ request = request' /\ pc_yaml c = pc_yaml c' /\ pc_replacements c = pc_replacements c'
  /\ BootstrapFingerprint audit = BootstrapFingerprint audit'.
(** The two writings a creation token is the keyed digest of. *)
Definition creation_clash (base base' : string) (request request' : CreationRequest) (audit audit' : BootstrapAudit) (c c' : preparedCandidate) : Prop :=
  let key := sv_tokenKey service in
  clash (hmac key) (preview_values base (cr_Changes request) (pc_yaml c) (pc_replacements c))
    (preview_values base' (cr_Changes request') (pc_yaml c') (pc_replacements c'))
  \/ clash (hmac key)
       (creation_preview_values base (cr_WorkingDirectory request) (cr_ConfigurationPath request)
          (previewToken key base (cr_Changes request) (pc_yaml c) (pc_replacements c)) (BootstrapFingerprint audit))
       (creation_preview_values base' (cr_WorkingDirectory request') (cr_ConfigurationPath request')
          (previewToken key base' (cr_Changes request') (pc_yaml c') (pc_replacements c')) (BootstrapFingerprint audit')).

(** C9: Once a preview of a creation asked for review, it shows a candidate that
    was made for the runtime read during the preview and audited against the
    directory as it was then.  A creation under its token either leaves every file
    and the pending journal as they were, or hands the journaled bootstrap exactly
    one plan, whose candidate is made for the runtime read now, is not empty and
    was audited against the directory as it is now: it is for the very request,
    configuration text and files that were previewed, and the audit made during
    the creation has the fingerprint of the audit made during the preview; or two
    different creations have the same keyed digest. *)
Theorem Create_writes_what_was_previewed base0 request0 s0 s0' p :
  PreviewCreation policy service base0 request0 s0 = (Some (Ok p), s0') -> pr_State p = PreviewReviewRequired ->
  exists runtime0 audit0 c0 before, p = preview_of (pr_BaseRevisionToken p) before c0
    /\ audited s0 (pr_BaseRevisionToken p) request0 runtime0 audit0 c0 /\
  forall id base request guard s,
    let s' := (Create policy service id base request (pr_ReviewedPreviewToken p) (Some guard) s).2 in
    unchanged s s' \/
    exists s1 runtime audit c, unchanged s s1
      /\ let current := creationBaseToken (sv_tokenKey service) runtime in
         audited s current request runtime audit c /\ tokenMatches current base = true
      /\ unchanged (Bootstrap policy id (creation_plan request c) (commit_guard service guard (rc_fingerprint runtime)) s1).2 s'
      /\ (creation_fits (pr_BaseRevisionToken p) request0 audit0 c0 -> creation_fits current request audit c ->
          same_creation current (pr_BaseRevisionToken p) request request0 audit audit0 c c0
          \/ creation_clash current (pr_BaseRevisionToken p) request request0 audit audit0 c c0).
Proof using Hquiet.
  intros Hp Hs. destruct (PreviewCreation_seen s0 _ _ _ _ _ (reflexivity s0) Hp Hs) as (runtime0 & audit0 & c0 & before & Ha0 & Hp0).
  assert (Htok : pr_ReviewedPreviewToken p = pc_token c0) by by rewrite Hp0. rewrite Htok. exists runtime0, audit0, c0, before. split_and!; [done..|].
  intros id base request guard s. destruct (Create_through s id base request (pc_token c0) guard s (reflexivity s))
    as [U|(s1 & s2 & U & (runtime & audit & c & Ha & Hb & Hm & ->) & U2)]; [by left|right].
  exists s1, runtime, audit, c. split; [done|]. intros current. split_and!; [done..|]. intros (F0 & F1 & F2 & F3) (G0 & G1 & G2 & G3).
  rewrite (au_token _ _ _ _ _ _ Ha), (au_token _ _ _ _ _ _ Ha0) in Hm. apply matching_tokens in Hm. by apply creationPreviewToken_binds in Hm.
Qed.
End Writing.

(** ** What the evidence of a plan binds *)

Abbreviation write_certificate := (write_pair write_text (write_pair (write_list write_text) (write_pair write_text (write_pair write_text
  (write_pair write_text (write_pair write_text write_text)))))).
Abbreviation write_access := (write_pair write_text (write_pair write_text (write_pair write_text (write_pair (write_list write_text)
  (write_pair write_text write_text))))).
Abbreviation write_identity := (write_pair write_boolean (write_pair write_integer (write_pair write_integer (write_pair write_integer
  (write_pair write_integer (write_pair write_integer (write_pair write_integer (write_pair write_integer (write_pair write_bytes write_bytes))))))))).
Abbreviation both_text := (both short_text).
Abbreviation both_number := (both in_uint64).

(** Texts and lists are shorter than 2^64, as they are in Go. *)
Definition short_certificate (c : ExecutionCertificate) : Prop :=
  both_text (both (short_list short_text) (both_text (both_text (both_text (both_text short_text)))))
    (ec_Name c, (ec_Domains c, (ec_Account c, (ec_CA c, (ec_ChallengeName c, (ec_ChallengeKind c, ec_ChallengeMode c)))))).
#[export] Instance certificate_delimited : Delimited short_certificate certificate_values.
Proof.
  apply (delimited_view _ write_certificate
    (fun c => (ec_Name c, (ec_Domains c, (ec_Account c, (ec_CA c, (ec_ChallengeName c, (ec_ChallengeKind c, ec_ChallengeMode c)))))))
    short_certificate _ (fun c Hc => Hc)).
  by intros [] [] _ _ [= -> -> -> -> -> -> ->].
Qed.
Definition short_access (a : ExecutionCloudAccess) : Prop :=
  both_text (both_text (both_text (both (short_list short_text) (both_text short_text))))
    (ca_ChallengeName a, (ca_Provider a, (ca_AuthMode a, (ca_Files a, (ca_Helper a, ca_Metadata a))))).
#[export] Instance access_delimited : Delimited short_access access_values.
Proof.
  apply (delimited_view _ write_access (fun a => (ca_ChallengeName a, (ca_Provider a, (ca_AuthMode a, (ca_Files a, (ca_Helper a, ca_Metadata a))))))
    short_access _ (fun a Ha => Ha)).
  by intros [] [] _ _ [= -> -> -> -> -> ->].
Qed.
Definition short_intent (i : ExecutionIntent) : Prop :=
  both_text (both_text (both_text (both_text (both_text (both (short_list short_certificate) (short_list short_access))))))
    (ei_WorkingDirectory i, (ei_ConfigurationPath i, (ei_StoragePath i, (ei_RuntimeIdentity i, (ei_RuntimeManifestID i, (ei_Certificates i, ei_CloudAccess i)))))).
#[export] Instance intent_delimited : Delimited short_intent intent_values.
Proof.
  apply (delimited_view _ (write_pair write_text (write_pair write_text (write_pair write_text (write_pair write_text (write_pair write_text
      (write_pair (write_list certificate_values) (write_list access_values)))))))
    (fun i => (ei_WorkingDirectory i, (ei_ConfigurationPath i, (ei_StoragePath i, (ei_RuntimeIdentity i, (ei_RuntimeManifestID i,
      (ei_Certificates i, ei_CloudAccess i)))))))
    short_intent _ (fun i Hi => Hi)).
  by intros [] [] _ _ [= -> -> -> -> -> -> ->].
Qed.

(** What is written of a file: all of its identity, its times as they are
    formatted. *)
Definition shown_identity (i : FileIdentity) :=
  (Exists i, (Device i, (Inode i, (Mode i, (UID i, (GID i, (NLink i, (uint64 (Size i), (canonicalTime (ModifiedAt i), canonicalTime (ChangedAt i)))))))))).
Definition shown_file (f : SourceFile) := (role_text (sf_Role f), (sf_Path f, (sf_Reference f, shown_identity (fp_Identity (sf_Fingerprint f))))).
Definition shown_path (e : PathEvidence) := (role_text (pe_Role e), (pe_Path e, shown_identity (pe_Identity e))).
Abbreviation short_identity := (both any (both_number (both_number (both_number (both_number (both_number (both_number (both_number (both short short))))))))).
Abbreviation write_file := (write_pair write_text (write_pair write_bytes (write_pair write_bytes write_identity))).
Abbreviation write_path := (write_pair write_text (write_pair write_bytes write_identity)).
Abbreviation short_file := (both_text (both short (both short short_identity))).
Abbreviation short_path := (both_text (both short short_identity)).

(** The runtime, the review, the files, the intent and the cloud sources. *)
Definition evidence_shown `{Machine} (e : evaluation) (i : ExecutionIntent) (cloud : list PathEvidence) :=
  (rc_manifestID (ev_runtime e), (rc_fingerprint (ev_runtime e), (ExecutionReviewFingerprint (sl_Review (ss_Selection (ev_sources e))),
   (shown_file <$> Files (ev_sources e), (i, shown_path <$> cloud))))).
Definition evidence_fits `{Machine} (e : evaluation) (i : ExecutionIntent) (cloud : list PathEvidence) : Prop :=
  both_text (both_text (both short (both (short_list short_file) (both short_intent (short_list short_path))))) (evidence_shown e i cloud).
Definition written_evidence `{Machine} (e : evaluation) (i : ExecutionIntent) (cloud : list PathEvidence) : list bytes :=
  evidence_values (ev_runtime e) (ev_sources e) i cloud.

Lemma written_evidence_shown `{Machine} e i cloud : written_evidence e i cloud =
  write_pair write_text (write_pair write_text (write_pair write_text (write_pair write_bytes (write_pair (write_list write_file)
    (write_pair intent_values (write_list write_path)))))) ("acmemux-manual-operation-evidence-v2", evidence_shown e i cloud).
Proof. unfold write_pair, evidence_shown. cbn [fst snd]. by rewrite !OpReview.write_list_fmap. Qed.

Lemma lower_hex_inj n m : 0 <= n < 16 -> 0 <= m < 16 -> GoText.lower_hex n = GoText.lower_hex m -> n = m.
Proof.
  unfold GoText.lower_hex. intros Hn Hm E%(f_equal b2z). destruct (Z.ltb_spec n 10), (Z.ltb_spec m 10); rewrite !b2z_z2b in E by lia; lia.
Qed.
Lemma hex_inj l l' : RunIdentity.hex l = RunIdentity.hex l' -> l = l'.
Proof.
  intros E%of_bytes_inj. revert l' E. induction l as [|c l IH]; intros [|c' l']; [done..|]. rewrite !bind_cons. cbn [app].
  intros [= E1 E2 E]. pose proof (b2z_range c). pose proof (b2z_range c').
  apply lower_hex_inj in E1; [|split; [apply Z.div_pos; lia|apply Z.div_lt_upper_bound; lia]..].
  apply lower_hex_inj in E2; [|apply Z.mod_pos_bound; lia..].
  assert (Eb : b2z c = b2z c') by (rewrite (Z.div_mod (b2z c) 16), (Z.div_mod (b2z c') 16) by lia; congruence).
  apply (f_equal z2b) in Eb. rewrite !z2b_b2z in Eb. by rewrite Eb, (IH _ E).
Qed.

Section Evidence.
Context `{Machine} `{Yaml} (policy : Policy) `{Digests} `{DotenvEdit.DotenvEnv} `{NetParsers} `{MapOrder} (service : Service).
Abbreviation X := (X (Selection := SelectionRows)).
Abbreviation sys := (sys (Selection := SelectionRows)).

Lemma guard_if_Ok b e (s : sys) u s' : guard_if b e s = (Some (Ok u), s') -> s' = s.
Proof. unfold guard_if. destruct b; [done|]. by intros [= _ <-]. Qed.

(** What a plan was prepared from in [s]: the configuration evaluated first, the
    intent read from it, and the credential sources that were audited next. *)
Definition prepared_from (s : sys) (p : ExecutionPlan) (e : evaluation) (cloud : list PathEvidence) : Prop :=
  exists s1 s2 i accesses environment secrets, evaluateLocked policy service s = (Some (Ok e), s1) /\ executionIntent e = Ok i
    /\ prepareCloudAccess policy service e i s1 = (Some (Ok (accesses, environment, secrets, cloud)), s2)
    /\ ep_Intent p = with_access i accesses.
Lemma PrepareExecution_from handle s p s' : PrepareExecution policy service handle s = (Some (Ok p), s') ->
  exists e cloud, prepared_from s p e cloud /\ ep_ReviewedEvidenceSHA256 p = executionEvidenceDigest e (ep_Intent p) cloud.
Proof.
  unfold PrepareExecution. intros (e & s1 & He & E)%WsCommitSafe.X_bind_Ok. apply WsCommitSafe.X_bind_Ok in E as (u & s2 & ->%guard_if_Ok & E).
  apply WsCommitSafe.X_bind_Ok in E as (i & s3 & [= Hi <-] & E). apply WsCommitSafe.X_bind_Ok in E as ([[[accesses environment] secrets] cloud] & s4 & Hc & E).
  apply WsCommitSafe.X_bind_Ok in E as (observed & s5 & _ & E). injection E as <- _.
  exists e, cloud. split; [|done]. by exists s1, s4, i, accesses, environment, secrets.
Qed.

(** Two preparations under the same runtime and review, from files and credential
    sources that have the same identities. *)
Definition same_sources (e e' : evaluation) (cloud cloud' : list PathEvidence) : Prop :=
  rc_manifestID (ev_runtime e) = rc_manifestID (ev_runtime e') /\ rc_fingerprint (ev_runtime e) = rc_fingerprint (ev_runtime e')
  /\ ExecutionReviewFingerprint (sl_Review (ss_Selection (ev_sources e))) = ExecutionReviewFingerprint (sl_Review (ss_Selection (ev_sources e')))
  /\ shown_file <$> Files (ev_sources e) = shown_file <$> Files (ev_sources e') /\ shown_path <$> cloud = shown_path <$> cloud'.

(** What equal evidence says of the evaluations it was computed from. *)
Lemma evidence_binds e e' i i' cloud cloud' : executionEvidenceDigest e i cloud = executionEvidenceDigest e' i' cloud' ->
  evidence_fits e i cloud -> evidence_fits e' i' cloud' ->
  (i = i' /\ same_sources e e' cloud cloud') \/ clash digest (written_evidence e i cloud) (written_evidence e' i' cloud').
Proof.
  intros E F F'. apply hex_inj in E.
  change (digest (message (written_evidence e i cloud)) = digest (message (written_evidence e' i' cloud'))) in E.
  rewrite !written_evidence_shown in *. apply digest_binds with (ok := both short_text (both_text (both_text (both short (both (short_list short_file)
    (both short_intent (short_list short_path))))))) in E; [|apply _|by split..].
  destruct E as [E|Hc]; [left|by right]. apply (f_equal snd) in E. cbn [snd] in E. unfold evidence_shown in E.
  unfold same_sources.
  split_and!; [exact (f_equal (fun x => x.2.2.2.2.1) E)|exact (f_equal (fun x => x.1) E)|exact (f_equal (fun x => x.2.1) E)|exact (f_equal (fun x => x.2.2.1) E)
    |exact (f_equal (fun x => x.2.2.2.1) E)|exact (f_equal (fun x => x.2.2.2.2.2) E)].
Qed.

(** The law of the plans that the operation service is proved against
    ([OpReview.evidence_covers_kinds]): plans of equal evidence have equal kinds
    of challenge, short of a clash of the digest. *)
Lemma plans_cover_kinds handle handle' s s' s1 s1' p p' :
  PrepareExecution policy service handle s = (Some (Ok p), s1) -> PrepareExecution policy service handle' s' = (Some (Ok p'), s1') ->
  ep_ReviewedEvidenceSHA256 p = ep_ReviewedEvidenceSHA256 p' ->
  exists e e' cloud cloud', prepared_from s p e cloud /\ prepared_from s' p' e' cloud' /\
    (evidence_fits e (ep_Intent p) cloud -> evidence_fits e' (ep_Intent p') cloud' ->
     OpReview.challenge_kinds p = OpReview.challenge_kinds p'
     \/ clash digest (written_evidence e (ep_Intent p) cloud) (written_evidence e' (ep_Intent p') cloud')).
Proof.
  intros (e & cloud & Hf & Hp)%PrepareExecution_from (e' & cloud' & Hf' & Hp')%PrepareExecution_from E. rewrite Hp, Hp' in E.
  exists e, e', cloud, cloud'. split_and!; [done..|]. intros F F'.
  destruct (evidence_binds _ _ _ _ _ _ E F F') as [[Ei _]|Hc]; [left|by right]. unfold OpReview.challenge_kinds. by rewrite Ei.
Qed.

(** C10: Two execution plans with the same evidence digest have the same intent:
    directory, configuration, storage, runtime, every certificate with its
    domains, account, authority and challenge, and the access of every cloud
    challenge.  And the configurations they were evaluated from and the credential
    sources that were audited for them agree: the same runtime and review, and
    files and sources with the same paths and identities; or two different
    writings have the same SHA-256 digest. *)
Theorem same_evidence_same_intent handle handle' s s' s1 s1' p p' :
  PrepareExecution policy service handle s = (Some (Ok p), s1) -> PrepareExecution policy service handle' s' = (Some (Ok p'), s1') ->
  ep_ReviewedEvidenceSHA256 p = ep_ReviewedEvidenceSHA256 p' ->
  exists e e' cloud cloud', prepared_from s p e cloud /\ prepared_from s' p' e' cloud' /\
    (evidence_fits e (ep_Intent p) cloud -> evidence_fits e' (ep_Intent p') cloud' ->
     (ep_Intent p = ep_Intent p' /\ same_sources e e' cloud cloud')
     \/ clash digest (written_evidence e (ep_Intent p) cloud) (written_evidence e' (ep_Intent p') cloud')).
Proof.
  intros (e & cloud & Hf & Hp)%PrepareExecution_from (e' & cloud' & Hf' & Hp')%PrepareExecution_from E. rewrite Hp, Hp' in E.
  exists e, e', cloud, cloud'. split_and!; [done..|]. intros F F'. exact (evidence_binds _ _ _ _ _ _ E F F').
Qed.
End Evidence.

(** ** Validated challenges can be prepared *)

(** What the validation collected about a challenge is what the preparation
    collects again. *)
Definition agree (challenge : string) (facts : challenge_facts) (p : cloudProjection) : Prop :=
  cl_present p = default ∅ (cf_presence facts !! challenge) /\ cl_values p = default ∅ (cf_values facts !! challenge).
Lemma agree_step challenge facts p f : challenge <> "" -> agree challenge facts p -> agree challenge (field_fact facts f) (project_field challenge p f).
Proof.
  intros Hc [Hp Hv]. unfold field_fact, project_field. set (name := bindingFor (pf_Bindings f) BindingChallenge).
  destruct (String.eqb_spec (pf_FieldID f) FieldChallengeDNSProvider) as [E|Hid].
  - rewrite E. replace (ProviderCodeForField FieldChallengeDNSProvider) with (None (A := string)) by (by vm_compute).
    rewrite (bool_decide_false (is_Some (None (A := string)))) by (by intros [? ?]). rewrite orb_true_r.
    destruct (String.eqb name ""); [done|]. by destruct (field_text f).
  - destruct (ProviderCodeForField (pf_FieldID f)) as [code|].
    2:{ rewrite (bool_decide_false (is_Some (None (A := string)))) by (by intros [? ?]). rewrite orb_true_r. by destruct (String.eqb name ""). }
    rewrite (bool_decide_true (is_Some (Some code))) by eauto. rewrite orb_false_r.
    destruct (String.eqb_spec name challenge) as [->|Hn]; cbn [negb].
    + destruct (String.eqb_spec challenge ""); [done|]. unfold agree. cbn. rewrite !lookup_insert_eq. cbn. rewrite Hp, Hv. by destruct (field_text f).
    + destruct (String.eqb name ""); [done|]. unfold agree. cbn. by rewrite !lookup_insert_ne by done.
Qed.
Lemma projection_agrees challenge l : challenge <> "" -> agree challenge (facts_of l) (cloudProjectionFor l challenge).
Proof.
  intros Hc. unfold facts_of, cloudProjectionFor.
  assert (Hfold : forall facts p, agree challenge facts p -> agree challenge (fold_left field_fact l facts) (fold_left (project_field challenge) l p)).
  { induction l as [|f l IH]; intros facts p Ha; [done|]. cbn. by apply IH, agree_step. }
  by apply Hfold.
Qed.

(** An inspection stays executable only if no challenge had an issue. *)
Lemma add_issue_executable i n : in_Executable (add_issue i n) = false.
Proof. done. Qed.
Lemma validation_projection n strict : in_Projection (WithCoreDNSCredentialValidation n strict) = in_Projection n.
Proof.
  unfold WithCoreDNSCredentialValidation. generalize (sort_by id_le (fst <$> map_to_list (cf_providers (facts_of (in_Projection n))))). intros l.
  generalize (facts_of (in_Projection n)). intros facts. revert n. induction l as [|c l IH]; intros n; [done|]. cbn. rewrite IH. by destruct (_ || _).
Qed.
Lemma executable_fold (step : Inspection -> string -> Inspection) l c0 (P : Prop) :
  (forall m c, step m c = m \/ in_Executable (step m c) = false) ->
  (forall m, in_Executable (step m c0) = true -> P) -> forall n, in_Executable (fold_left step l n) = true -> c0 ∈ l -> P.
Proof.
  intros Hstep Hc. assert (Hfalse : forall l m, in_Executable m = false -> in_Executable (fold_left step l m) = false).
  { clear l. induction l as [|c l IH]; intros m Hm; [done|]. cbn. apply IH. by destruct (Hstep m c) as [->|]. }
  induction l as [|c l IH]; intros n Hx; [set_solver|]. cbn in Hx. rewrite elem_of_cons. intros [->|Hin]; [|by eapply IH].
  apply (Hc n). destruct (in_Executable (step n c)) eqn:E; [done|]. by rewrite Hfalse in Hx.
Qed.
Lemma executable_no_issues n strict challenge provider : in_Executable (WithCoreDNSCredentialValidation n strict) = true ->
  cf_providers (facts_of (in_Projection n)) !! challenge = Some provider -> provider ∈ SupportedDNSProviders ->
  credential_issues (facts_of (in_Projection n)) challenge provider = [].
Proof.
  intros Hx Hp Hs.
  assert (Hin : challenge ∈ sort_by id_le (fst <$> map_to_list (cf_providers (facts_of (in_Projection n))))).
  { rewrite sort_by_perm. apply list_elem_of_fmap. exists (challenge, provider). split; [done|]. by apply elem_of_map_to_list. }
  revert Hx Hin. unfold WithCoreDNSCredentialValidation. generalize (sort_by id_le (fst <$> map_to_list (cf_providers (facts_of (in_Projection n))))).
  revert Hp. generalize (facts_of (in_Projection n)). intros facts Hp l.
  apply executable_fold; [intros m c; cbn zeta; destruct (negb _ || (_ =? 0)); [by left|by right]|].
  intros m. cbn zeta. rewrite Hp. cbn [default]. unfold id. rewrite (bool_decide_true (provider ∈ SupportedDNSProviders)) by done. cbn [negb orb].
  destruct (Z.eqb_spec (blen (credential_issues facts challenge provider)) 0) as [E|]; [|done]. intros _. unfold blen in E.
  by apply nil_length_inv, Nat2Z.inj.
Qed.

Section Challenges.
Context `{Machine} `{Yaml} (policy : Policy) `{Digests} `{DotenvEdit.DotenvEnv} `{NetParsers} `{MapOrder} (service : Service).
Abbreviation X := (X (Selection := SelectionRows)).
Abbreviation sys := (sys (Selection := SelectionRows)).

Lemma evaluated_inspection runtime sources : let v := ev_view (evaluate service runtime sources) in vw_Execution v = true ->
  exists n, vw_Inspection v = WithCoreDNSCredentialValidation n false /\ in_Executable (WithCoreDNSCredentialValidation n false) = true.
Proof.
  unfold evaluate. destruct (en_Inspect _ _) as [n|e]; [|done]. unfold applyDotenvPresence. set (n' := WithDotenvPresence _ _).
  set (ds := loadDotenvDocuments _ _ _). destruct (configurationState _ _) as [[st ed] ex] eqn:E. cbn. intros ->. exists n'. split; [done|].
  unfold configurationState in E. destruct (_ || ds_invalid ds); [by simplify_eq|]. injection E as _ _ E. by bool_prop.
Qed.
Lemma executable_issues runtime sources challenge provider : let v := ev_view (evaluate service runtime sources) in
  let facts := facts_of (in_Projection (vw_Inspection v)) in
  vw_Execution v = true -> cf_providers facts !! challenge = Some provider -> provider ∈ SupportedDNSProviders -> credential_issues facts challenge provider = [].
Proof.
  cbn zeta. intros (n & -> & Hn)%evaluated_inspection. rewrite validation_projection. by apply (executable_no_issues n false).
Qed.

(** The file an Azure method reads first, and whether it is a token. *)
Inductive azure_reads (p : cloudProjection) : bool -> string -> Prop :=
| reads_certificate : value_at p FieldAzureAuthMethod = "env" -> value_at p FieldAzureClientCertificatePath <> "" ->
    azure_reads p false (value_at p FieldAzureClientCertificatePath)
| reads_federated_token : value_at p FieldAzureAuthMethod = "wli" -> azure_reads p true (value_at p FieldAzureFederatedTokenFile)
| reads_oidc_token : value_at p FieldAzureAuthMethod = "oidc" -> value_at p FieldAzureOIDCTokenFile <> "" ->
    azure_reads p true (value_at p FieldAzureOIDCTokenFile).
(** Why an Azure challenge cannot be prepared in the state [s]: its file, its
    tool or the tool's directory is refused by the audit, or its token file holds
    nothing but space. *)
Inductive azure_fails (p : cloudProjection) (s : sys) : WsError -> Prop :=
| fails_file token path e s1 : azure_reads p token path ->
    ReadExternalCredential policy (to_bytes path) maximumCloudCredentialBytes s = (Some (Err e), s1) -> azure_fails p s ErrChanged
| fails_token path file s1 : azure_reads p true path ->
    ReadExternalCredential policy (to_bytes path) maximumCloudCredentialBytes s = (Some (Ok file), s1) ->
    DotenvScan.TrimSpace (ex_Content file) = [] -> azure_fails p s ErrInvalid
| fails_tool e s1 : value_at p FieldAzureAuthMethod = "cli" ->
    AuditExternalExecutable policy (clean_join (to_bytes (value_at p FieldAzureCLIPath)) (to_bytes "az")) s = (Some (Err e), s1) -> azure_fails p s ErrChanged
| fails_directory tool s1 e s2 : value_at p FieldAzureAuthMethod = "cli" ->
    AuditExternalExecutable policy (clean_join (to_bytes (value_at p FieldAzureCLIPath)) (to_bytes "az")) s = (Some (Ok tool), s1) ->
    AuditExternalDirectory policy (to_bytes (value_at p FieldAzureCLIConfigDirectory)) s1 = (Some (Err e), s2) -> azure_fails p s ErrChanged.

Lemma read_credential_cases {B} path (f : ExternalFile -> X B) s e : (exists s', (read_credential policy path ≫= f) s = (Some (Err e), s')) <->
  (e = ErrChanged /\ exists e1 s1, ReadExternalCredential policy (to_bytes path) maximumCloudCredentialBytes s = (Some (Err e1), s1))
  \/ exists file s1, ReadExternalCredential policy (to_bytes path) maximumCloudCredentialBytes s = (Some (Ok file), s1) /\ exists s', f file s1 = (Some (Err e), s').
Proof.
  unfold read_credential, mapping, mbind, X_bind. destruct (ReadExternalCredential _ _ _ s) as [[[file|e1]|] s1]; naive_solver.
Qed.
Lemma token_of_cases {B} file (f : bytes -> B) s e : (exists s', (token ← token_of file; mret (f token)) s = (Some (Err e), s')) <->
  e = ErrInvalid /\ DotenvScan.TrimSpace (ex_Content file) = [].
Proof.
  unfold token_of, guard_if, mbind, X_bind, mret, X_ret. case_bool_decide; cbn; naive_solver.
Qed.
Lemma never_fails_X {B} (b : B) (s : sys) e : ~ exists s', (mret b : X B) s = (Some (Err e), s').
Proof. by intros (s' & [=]). Qed.

(** With a method the validation accepts, these are exactly the failures. *)
Ltac methods := repeat match goal with
  | H : azure_fails _ _ _ |- _ => destruct H
  | H : azure_reads _ _ _ |- _ => inversion H; subst; clear H
  | H : value_at ?p ?f = ?a, H' : value_at ?p ?f = ?b |- _ => rewrite H in H'; discriminate H'
  | H : value_at ?p ?f = ?a, H' : value_at ?p ?f = ?b |- _ => clear H'
  end.
Lemma file_only {B} p s e path (f : ExternalFile -> B) : azure_reads p false path ->
  (exists s', (file ← read_credential policy path; mret (f file)) s = (Some (Err e), s')) <-> azure_fails p s e.
Proof.
  intros Hr. rewrite read_credential_cases. split.
  - intros [(-> & e1 & s1 & E)|(file & s1 & _ & E)]; [by eapply fails_file|by apply never_fails_X in E].
  - inversion Hr; subst. intros Hf. methods; try done; left; eauto.
Qed.
Lemma token_file {B} p s e path (f : ExternalFile -> bytes -> B) : azure_reads p true path ->
  (exists s', (file ← read_credential policy path; token ← token_of file; mret (f file token)) s = (Some (Err e), s')) <-> azure_fails p s e.
Proof.
  intros Hr. rewrite read_credential_cases. setoid_rewrite token_of_cases. split.
  - intros [(-> & e1 & s1 & E)|(file & s1 & E & -> & Ht)]; [by eapply fails_file|by eapply fails_token].
  - inversion Hr; subst; intros Hf; methods; try done; first [left; by eauto|right; by eauto].
Qed.
Lemma no_file {B} p s e (b : B) : (forall token path, ~ azure_reads p token path) -> value_at p FieldAzureAuthMethod <> "cli" ->
  (exists s', (mret b : X B) s = (Some (Err e), s')) <-> azure_fails p s e.
Proof. intros Hr Hm. split; [by intros []%never_fails_X|]. intros [token path e1 s1 Hp _|path file s1 Hp _ _|e1 s1 Hc _|tool s1 e1 s2 Hc _ _]; [by apply Hr in Hp|by apply Hr in Hp|done|done]. Qed.

Lemma azure_prepares challenge p : azure_valid (cl_present p) (value_at p FieldAzureAuthMethod) = true ->
  forall s e, (exists s', prepareAzureAccess policy challenge p s = (Some (Err e), s')) <-> azure_fails p s e.
Proof.
  intros Hv s e. unfold prepareAzureAccess. cbn zeta. unfold azure_valid in Hv.
  destruct (String.eqb_spec (value_at p FieldAzureAuthMethod) "env") as [Hm|N1].
  { destruct (String.eqb_spec (value_at p FieldAzureClientCertificatePath) ""); [apply no_file|apply file_only; by constructor]; [|congruence].
    intros token path Hr. methods; done. }
  destruct (String.eqb_spec (value_at p FieldAzureAuthMethod) "wli") as [Hm|N2]; [apply token_file; by constructor|].
  destruct (String.eqb_spec (value_at p FieldAzureAuthMethod) "msi") as [Hm|N3]; [apply no_file; [|congruence]; intros token path Hr; by methods|].
  destruct (String.eqb_spec (value_at p FieldAzureAuthMethod) "cli") as [Hm|N4].
  { unfold mapping, mbind, X_bind. split.
    - intros (s' & E). destruct (AuditExternalExecutable _ _ s) as [[[tool|e1]|] s1] eqn:E1; [|injection E as <- _; by eapply fails_tool|done].
      destruct (AuditExternalDirectory _ _ s1) as [[[directory|e2]|] s2] eqn:E2; [done|injection E as <- _; by eapply fails_directory|done].
    - intros Hf. methods; repeat match goal with H : _ = (Some _, _) |- _ => rewrite H; clear H end; eauto. }
  destruct (String.eqb_spec (value_at p FieldAzureAuthMethod) "oidc") as [Hm|N5].
  { destruct (String.eqb_spec (value_at p FieldAzureOIDCTokenFile) ""); cbn [negb]; [apply no_file; [|congruence]|apply token_file; by constructor].
    intros token path Hr. methods; done. }
  destruct (String.eqb_spec (value_at p FieldAzureAuthMethod) "pipeline") as [Hm|N6]; [|done].
  apply no_file; [|congruence]. intros token path Hr. by methods.
Qed.

(** The mode of a route53 challenge, with the role it assumes. *)
Definition route53_mode (p : cloudProjection) (name : string) : string := name +:+ (if has_field p FieldAWSAssumeRoleARN then "+assume_role" else "").
(** The access was prepared in the mode whose requirements the fields meet. *)
Definition validated_mode (p : cloudProjection) (parts : access_parts) : Prop :=
  let '(access, environment, secrets, paths) := parts in
  let mode name := ca_AuthMode access = route53_mode p name in
  (mode "static" /\ route53_static (cl_present p) (cl_values p) = true /\ environment = [] /\ paths = [])
  \/ (mode "shared_profile" /\ route53_shared (cl_present p) (cl_values p) = true
      /\ ca_Files access = [value_at p FieldAWSSharedCredentialsFile] /\ (forall e, e ∈ environment -> ee_Sensitive e = true))
  \/ (mode "instance_role" /\ route53_instance (cl_present p) (cl_values p) = true /\ environment = [] /\ paths = []).

Lemma need_spec present l id : id ∈ l -> need present l = true -> is_present present id = true.
Proof. unfold need. rewrite forallb_forall. intros Hi Hl. by apply Hl, list_elem_of_In. Qed.
Lemma absent_spec present l id : id ∈ l -> absent present l = true -> is_present present id = false.
Proof. unfold absent. rewrite forallb_forall. intros Hi Hl. apply negb_true_iff, Hl. by apply list_elem_of_In. Qed.
Lemma one_mode a b c : count [a; b; c] = 1 -> a || b || c = true.
Proof. by destruct a, b, c. Qed.

Lemma route53_prepares challenge p : CloudDNSCredentialIssues (cl_present p) (cl_values p) "route53" = [] ->
  yields (prepareRoute53Access policy challenge p) (validated_mode p).
Proof.
  unfold CloudDNSCredentialIssues. cbn [String.eqb Ascii.eqb Bool.eqb]. destruct (negb _); [done|].
  destruct (negb (_ =? 1) || _) eqn:E; [done|]. apply orb_false_iff in E as [Hone _]. bool_prop. apply one_mode in Hone. intros _.
  assert (Hs : route53_static (cl_present p) (cl_values p) = true -> has_field p FieldAWSAccessKeyID = true).
  { intros [[Hn _]%andb_true_iff _]%andb_true_iff. apply (need_spec _ _ FieldAWSAccessKeyID) in Hn; [done|set_solver]. }
  assert (Hsh : route53_shared (cl_present p) (cl_values p) = true -> has_field p FieldAWSAccessKeyID = false /\ has_field p FieldAWSProfile = true).
  { intros [[[Hn Ha]%andb_true_iff _]%andb_true_iff _]%andb_true_iff. apply (need_spec _ _ FieldAWSProfile) in Hn; [|set_solver].
    by apply (absent_spec _ _ FieldAWSAccessKeyID) in Ha; [|set_solver]. }
  assert (Hin : route53_instance (cl_present p) (cl_values p) = true -> has_field p FieldAWSAccessKeyID = false /\ has_field p FieldAWSProfile = false).
  { intros [[Ha _]%andb_true_iff _]%andb_true_iff. split; [apply (absent_spec _ _ FieldAWSAccessKeyID) in Ha|apply (absent_spec _ _ FieldAWSProfile) in Ha]; set_solver. }
  unfold prepareRoute53Access, validated_mode. cbn zeta.
  destruct (has_field p FieldAWSAccessKeyID); [|destruct (has_field p FieldAWSProfile)].
  - apply yields_ret. left. split_and!; [done| |done..].
    destruct (route53_static _ _); [done|]. destruct (route53_shared _ _); [by destruct Hsh|]. destruct (route53_instance _ _); [by destruct Hin|done].
  - eapply yields_bind; [apply yields_any|]. intros file _. eapply yields_bind; [apply yields_any|]. intros credentials _.
    apply yields_ret. right; left. split_and!; [done| |done|].
    + destruct (route53_shared _ _); [done|]. destruct (route53_static _ _); [by specialize (Hs eq_refl)|]. destruct (route53_instance _ _); [by destruct Hin|done].
    + by intros e ([n v] & -> & _)%list_elem_of_fmap.
  - apply yields_ret. right; right. split_and!; [done| |done..].
    destruct (route53_instance _ _); [done|]. destruct (route53_static _ _); [by specialize (Hs eq_refl)|]. destruct (route53_shared _ _); [by destruct Hsh|done].
Qed.
Lemma azure_issues_none present values : CloudDNSCredentialIssues present values "azuredns" = [] -> azure_valid present (value_of values FieldAzureAuthMethod) = true.
Proof. unfold CloudDNSCredentialIssues. cbn [String.eqb Ascii.eqb Bool.eqb]. destruct (_ && _) eqn:E; [|done]. by apply andb_true_iff in E as [_ E]. Qed.
Lemma agreed_issues challenge facts p provider : agree challenge facts p -> provider = "azuredns" \/ provider = "route53" ->
  credential_issues facts challenge provider = CloudDNSCredentialIssues (cl_present p) (cl_values p) provider.
Proof. intros [-> ->] Hp. unfold credential_issues. by destruct Hp as [->| ->]. Qed.

(** C22: In a configuration that is reported executable, every cloud challenge
    can be prepared with the access its validation accepted.  Preparing an Azure
    challenge fails exactly when the audit refuses the credential file of its
    method, the command-line tool or the tool's directory - then as changed - or
    when the token file of its workload identity or OIDC method was read and holds
    nothing but space - then as invalid.  A Route 53 challenge that is prepared
    gets exactly the mode whose fields were validated: the static keys and no file,
    the shared credentials file with every variable it gives private, or the
    instance role and no secret. *)
Theorem executable_challenges_can_be_prepared runtime sources challenge :
  let v := ev_view (evaluate service runtime sources) in
  let projection := in_Projection (vw_Inspection v) in
  let p := cloudProjectionFor projection challenge in
  vw_Execution v = true -> challenge <> "" ->
  (cf_providers (facts_of projection) !! challenge = Some "azuredns" ->
     forall s e, (exists s', prepareAzureAccess policy challenge p s = (Some (Err e), s')) <-> azure_fails p s e)
  /\ (cf_providers (facts_of projection) !! challenge = Some "route53" ->
        yields (prepareRoute53Access policy challenge p) (validated_mode p)).
Proof.
  intros v projection p Hx Hc. pose proof (projection_agrees challenge projection Hc) as Ha.
  pose proof (executable_issues runtime sources challenge) as Hi. cbn zeta in Hi. fold v projection in Hi.
  split; intros Hp; (eapply Hi in Hp; [|done|set_solver]); erewrite agreed_issues in Hp; [|done|tauto| |done|tauto].
  - by apply azure_prepares, azure_issues_none.
  - by apply route53_prepares.
Qed.
End Challenges.

(** ** A small configuration *)

(** The configuration has one certificate, whose challenge uses Route 53 with
    the instance role; it can be edited to "c". *)
Section Sample.
Definition at_challenge (field text : string) : ProjectedField :=
  mk_field field [mk_binding BindingChallenge "main"] "" FieldString true false true true false (Some (StringValue text)).
Definition of_certificate (field : string) (v : Value) : ProjectedField :=
  mk_field field [mk_binding BindingCertificate "site"] "" FieldString true false true true false (Some v).
Definition sample_projection : list ProjectedField :=
  [of_certificate FieldCertificateDomains (StringListValue ["example.test"]); of_certificate FieldCertificateAccount (StringValue "owner");
   of_certificate FieldCertificateChallenge (StringValue "main");
   mk_field FieldAccountServer [mk_binding BindingAccount "owner"] "" FieldString true false true true false (Some (StringValue "https://ca.test"));
   at_challenge FieldChallengeDNSProvider "route53"; at_challenge FieldAWSRegion "eu-west-1"; at_challenge FieldAWSEC2MetadataDisabled "false";
   at_challenge FieldAWSSDKLoadConfig "false"].
Definition sample_inspection : Inspection := mk_inspection "" sample_projection [] true true true true [] 16.
Definition sample_engine : Engine :=
  mk_engine (fun _ => Ok sample_inspection) (fun _ => Ok sample_inspection)
    (fun _ _ => Ok (mk_candidate (to_bytes "c") "" "" true sample_inspection [] []))
    (fun _ => Ok [to_bytes "secret"]).
Definition sample_observation : RunIdentity.Observation :=
  RunIdentity.mk_observation (RunIdentity.mk_file_identity "/usr/bin/lego" 1 2 493 "" 0 0 100 GoTime.zero_time GoTime.zero_time "")
    (RunIdentity.mk_version RunIdentity.VersionRelease "v5.3.1") (RunIdentity.mk_platform "linux" "amd64")
    (RunIdentity.mk_build true true "" "" "" "" "" "" "" "" true true false) "" GoTime.zero_time.
Definition sample_service : Service :=
  mk_service (fun _ => Ok (mk_runtime_selection sample_observation "m")) (fun o _ => Ok o) (fun _ => Compat.mk_result Compat.CodeCompatible "m" "")
    (fun _ _ => Ok tt) (fun _ => Ok tt) (fun _ => Ok sample_engine) true [].

(** A digest of 32 digits. *)
Definition digest32 (data : bytes) : bytes := WsExample.hex_digits 32 (WsExample.checksum data).
Lemma digest32_length data : blen (digest32 data) = 32.
Proof.
  unfold digest32, blen. generalize (WsExample.checksum data). change 32 with (Z.of_nat 32). generalize 32%nat. intros width n. f_equal. revert n.
  induction width as [|width IH]; intros n; [done|]. cbn [WsExample.hex_digits]. rewrite length_app, IH. cbn. lia.
Qed.
#[local] Instance sample_digests : Digests :=
  {| hmac _ := digest32; digest := digest32; hmac_length _ := digest32_length; digest_length := digest32_length |}.
#[local] Instance sample_parsers : NetParsers := {| url_Parse _ := None; mail_ParseAddress _ := None; net_ParseIP _ := None |}.
#[local] Instance sample_order : MapOrder := {| iterate _ l := l; iterate_perm _ l := reflexivity l |}.
#[local] Existing Instance WsExample.machine.
#[local] Existing Instance WsExample.decoder.
#[local] Existing Instance DotenvCorrect.sample_env.

Definition sample_start : sys (Selection := SelectionRows) := WsExample.reviewed.
Definition shown : option (result WsError View) * sys (Selection := SelectionRows) := Snapshot WsExample.policy sample_service sample_start.
Definition sample_base : string := match shown.1 with Some (Ok v) => so_BaseRevisionToken (vw_Source v) | _ => "" end.
Definition previewed : option (result WsError Preview) * sys (Selection := SelectionRows) := PreviewChanges WsExample.policy sample_service sample_base [] shown.2.
Definition prepared (handle : Z) : option (result WsError ExecutionPlan) * sys (Selection := SelectionRows) := PrepareExecution WsExample.policy sample_service handle sample_start.


Theorem reading_changes_nothing_witness : let s := sample_start in
  unchanged s (Snapshot WsExample.policy sample_service s).2 /\ unchanged s (PreviewChanges WsExample.policy sample_service sample_base [] s).2
  /\ unchanged s (PreviewCreation WsExample.policy sample_service sample_base (mk_creation (to_bytes "/w") [] []) s).2
  /\ unchanged s (PrepareExecution WsExample.policy sample_service 1 s).2.
Proof.
  apply (reading_changes_nothing WsExample.policy sample_service sample_base [] (mk_creation (to_bytes "/w") [] []) 1 sample_start). by intros n d.
Defined.

(** A preview asks for review, and a save under its token writes "c". *)
Definition asks_review {S} (r : option (result WsError Preview) * S) : bool :=
  match r.1 with Some (Ok p) => bool_decide (pr_State p = PreviewReviewRequired) | _ => false end.
Definition token_in {S} (r : option (result WsError Preview) * S) : string := match r.1 with Some (Ok p) => pr_ReviewedPreviewToken p | _ => "" end.
Lemma asks_review_spec {S} (r : option (result WsError Preview) * S) : asks_review r = true ->
  exists p, r = (Some (Ok p), r.2) /\ pr_State p = PreviewReviewRequired /\ token_in r = pr_ReviewedPreviewToken p.
Proof. destruct r as [[[p|e]|] s]; [|done..]. intros Hp%bool_decide_eq_true. by exists p. Qed.
Lemma previewed_asks : asks_review previewed = true.
Proof. vm_compute. done. Qed.

Definition saved : option (result WsError View) * sys (Selection := SelectionRows) :=
  Save WsExample.policy sample_service WsExample.edit_id sample_base [] (token_in previewed) (Some (mret tt)) previewed.2.
Example saved_content : match saved.1 with Some r => is_ok r | None => false end = true
  /\ content_at (s_disk saved.2) 2 (to_bytes ".lego.yml") = Some (to_bytes "c").
Proof. vm_compute. done. Qed.
Theorem Save_writes_what_was_previewed_witness : exists e0 c0,
  unchanged previewed.2 saved.2 \/
  exists s1 e c, unchanged previewed.2 s1 /\ reviewed_edit sample_service sample_base (token_in previewed) [] e c
    /\ unchanged (Commit WsExample.policy WsExample.edit_id (commit_plan e c)
         (commit_guard sample_service (mret tt) (rc_fingerprint (ev_runtime e))) s1).2 saved.2
    /\ (fits e0 [] c0 -> fits e [] c ->
         same_edit e e0 [] [] c c0 \/ clash (hmac (sv_tokenKey sample_service)) (edit_values e [] c) (edit_values e0 [] c0)).
Proof.
  destruct (asks_review_spec previewed previewed_asks) as (p & E & Hs & Ht).
  assert (Hq : quiet) by by intros n d.
  destruct (Save_writes_what_was_previewed WsExample.policy sample_service Hq sample_base [] _ _ p E Hs) as (e0 & c0 & _ & Hsave).
  exists e0, c0. unfold saved. rewrite Ht. exact (Hsave WsExample.edit_id sample_base [] (mret tt) previewed.2).
Defined.

(** A creation of "c" in an empty directory. *)
Definition creation_request : CreationRequest := mk_creation (to_bytes "/w") [] [].
Definition creation_base : string :=
  match (Snapshot WsExample.policy sample_service WsExample.first_start).1 with Some (Ok v) => so_BaseRevisionToken (vw_Source v) | _ => "" end.
Definition creation_previewed : option (result WsError Preview) * sys (Selection := SelectionRows) :=
  PreviewCreation WsExample.policy sample_service creation_base creation_request WsExample.first_start.
Lemma creation_asks : asks_review creation_previewed = true.
Proof. vm_compute. done. Qed.
Definition created : option (result WsError View) * sys (Selection := SelectionRows) :=
  Create WsExample.policy sample_service WsExample.edit_id creation_base creation_request (token_in creation_previewed) (Some (mret tt)) creation_previewed.2.
Example created_content : match created.1 with Some r => is_ok r | None => false end = true
  /\ content_at (s_disk created.2) 2 (to_bytes ".lego.yml") = Some (to_bytes "c").
Proof. vm_compute. done. Qed.
Theorem Create_writes_what_was_previewed_witness : exists base runtime0 audit0 c0,
  audited WsExample.policy sample_service WsExample.first_start base creation_request runtime0 audit0 c0 /\
  (unchanged creation_previewed.2 created.2 \/
   exists s1 runtime audit c, unchanged creation_previewed.2 s1
     /\ let current := creationBaseToken (sv_tokenKey sample_service) runtime in
        audited WsExample.policy sample_service creation_previewed.2 current creation_request runtime audit c
     /\ tokenMatches current creation_base = true
     /\ unchanged (Bootstrap WsExample.policy WsExample.edit_id (creation_plan creation_request c)
          (commit_guard sample_service (mret tt) (rc_fingerprint runtime)) s1).2 created.2
     /\ (creation_fits base creation_request audit0 c0 -> creation_fits current creation_request audit c ->
         same_creation current base creation_request creation_request audit audit0 c c0
         \/ creation_clash sample_service current base creation_request creation_request audit audit0 c c0)).
Proof.
  destruct (asks_review_spec creation_previewed creation_asks) as (p & E & Hs & Ht).
  assert (Hq : quiet) by by intros n d.
  destruct (Create_writes_what_was_previewed WsExample.policy sample_service Hq creation_base creation_request _ _ p E Hs)
    as (runtime0 & audit0 & c0 & before & _ & Ha & Hcreate).
  exists (pr_BaseRevisionToken p), runtime0, audit0, c0. split; [exact Ha|]. unfold created. rewrite Ht.
  exact (Hcreate WsExample.edit_id creation_base creation_request (mret tt) creation_previewed.2).
Defined.

(** Two preparations of the same configuration. *)
Definition evidence_in {S} (r : option (result WsError ExecutionPlan) * S) : string := match r.1 with Some (Ok p) => ep_ReviewedEvidenceSHA256 p | _ => "" end.
Lemma is_plan_spec {S} (r : option (result WsError ExecutionPlan) * S) : negb (String.eqb (evidence_in r) "") = true ->
  exists p, r = (Some (Ok p), r.2) /\ evidence_in r = ep_ReviewedEvidenceSHA256 p.
Proof. destruct r as [[[p|e]|] s]; [|done..]. intros _. by exists p. Qed.
Definition again : option (result WsError ExecutionPlan) * sys (Selection := SelectionRows) := PrepareExecution WsExample.policy sample_service 2 (prepared 1).2.
Lemma same_evidence : negb (String.eqb (evidence_in (prepared 1)) "") = true /\ negb (String.eqb (evidence_in again) "") = true
  /\ evidence_in (prepared 1) = evidence_in again.
Proof. vm_compute. done. Qed.
Theorem same_evidence_same_intent_witness : exists p p' e e' cloud cloud',
  (prepared 1).1 = Some (Ok p) /\ again.1 = Some (Ok p') /\
  prepared_from WsExample.policy sample_service sample_start p e cloud /\ prepared_from WsExample.policy sample_service (prepared 1).2 p' e' cloud' /\
  (evidence_fits e (ep_Intent p) cloud -> evidence_fits e' (ep_Intent p') cloud' ->
     (ep_Intent p = ep_Intent p' /\ same_sources e e' cloud cloud')
     \/ clash digest (written_evidence e (ep_Intent p) cloud) (written_evidence e' (ep_Intent p') cloud')).
Proof.
  destruct same_evidence as (H1 & H2 & Heq). destruct (is_plan_spec _ H1) as (p & E & Ep), (is_plan_spec _ H2) as (p' & E' & Ep').
  destruct (same_evidence_same_intent WsExample.policy sample_service 1 2 sample_start (prepared 1).2 _ _ p p' E E') as (e & e' & cloud & cloud' & Hf & Hf' & Hsame);
    [rewrite <- Ep, <- Ep'; exact Heq|].
  exists p, p', e, e', cloud, cloud'. split; [by rewrite E|]. split; [by rewrite E'|]. split_and!; [exact Hf|exact Hf'|exact Hsame].
Defined.

(** The Route 53 challenge of an evaluated configuration. *)
Definition sample_runtime : runtimeContext := mk_runtime "m" "fingerprint" "v5.3.1" "m" sample_engine.
Definition sample_view (sources : SourceSet) : View := ev_view (evaluate sample_service sample_runtime sources).
Definition main_projection (sources : SourceSet) : cloudProjection := cloudProjectionFor (in_Projection (vw_Inspection (sample_view sources))) "main".
Lemma sample_executable : match pl_Sources WsExample.edit_plan with
  | Some sources => vw_Execution (sample_view sources)
      && bool_decide (cf_providers (facts_of (in_Projection (vw_Inspection (sample_view sources)))) !! "main" = Some "route53")
  | None => false
  end = true.
Proof. vm_compute. done. Qed.
Theorem executable_challenges_can_be_prepared_witness : exists sources, pl_Sources WsExample.edit_plan = Some sources /\
  yields (prepareRoute53Access WsExample.policy "main" (main_projection sources)) (validated_mode (main_projection sources)).
Proof.
  pose proof sample_executable as Hx. destruct (pl_Sources WsExample.edit_plan) as [sources|]; [|done]. exists sources. split; [done|].
  apply andb_true_iff in Hx as [Hx Hp%bool_decide_eq_true].
  apply (executable_challenges_can_be_prepared WsExample.policy sample_service sample_runtime sources "main"); done.
Defined.
End Sample.
