(* ===== verification/NativeYaml.v ===== *)
(** YAML documents as the native configuration engine keeps them
    (internal/nativeconfig/yaml.go): parsing with bounds, lookup by path, edits
    that keep the rest of the document, and JSON pointers.  The YAML package
    itself is a parameter; its nodes are the tree the code walks. *)
From stdpp Require Import gmap strings.
From S2P Require Import Prelude.
From S2P Require Import GoText.
From S2P Require Import WsYaml.
From S2P Require Import IntegTypes.
From S2P Require Import ConfTypes.

#[local] Open Scope string_scope.
#[local] Open Scope Z_scope.

(** ** Nodes *)

(** [yaml.Node]; [n_Alias] tells whether the pointer is set. *)
Inductive Node := mk_node {
  n_Kind : WsYaml.Kind; n_Style : Z; n_Tag : string; n_Value : string; n_Anchor : string; n_Alias : bool;
  n_HeadComment : string; n_LineComment : string; n_FootComment : string; n_Line : Z; n_Column : Z; n_Content : list Node;
}.
Definition with_content (n : Node) (content : list Node) : Node :=
  mk_node (n_Kind n) (n_Style n) (n_Tag n) (n_Value n) (n_Anchor n) (n_Alias n) (n_HeadComment n) (n_LineComment n) (n_FootComment n)
    (n_Line n) (n_Column n) content.
Definition DoubleQuotedStyle : Z := 2.
Definition SingleQuotedStyle : Z := 4.
(** A node of the code's own making. *)
Definition plain_node (kind : WsYaml.Kind) (tag value : string) : Node := mk_node kind 0 tag value "" false "" "" "" 0 0 [].
Definition key_node (key : string) : Node := plain_node ScalarNode "!!str" key.
Definition empty_mapping : Node := plain_node MappingNode "!!map" "".

(** What [Decode] reports: the end of the text, an error or a node. *)
Inductive decoded := EndOfText | MalformedText | Decoded (n : Node).
(** The YAML package: the first two calls of a decoder on a text, the encoder,
    the node of a value, and the scalars a node decodes to (a [float64] by its
    bits). *)
Class YamlCodec := {
  decode_twice : bytes -> decoded * decoded;
  encode_node : Node -> option bytes;
  encode_value : Value -> Node;
  decode_bool : Node -> option bool;
  decode_int64 : Node -> option Z;
  decode_uint64 : Node -> option Z;
  decode_float64 : Node -> option Z;
}.

Fixpoint node_count (n : Node) : nat :=
  Datatypes.S ((fix total (l : list Node) : nat := match l with [] => O | c :: l => (node_count c + total l)%nat end) (n_Content n)).

(** ** Bounds *)

Record Limits := mk_limits {
  MaxBytes : Z; MaxNodes : Z; MaxDepth : Z; MaxIssues : Z; MaxProjectionFields : Z; MaxChanges : Z;
}.
Definition DefaultLimits : Limits := mk_limits (Z.shiftl 1 20) 50000 64 256 1024 256.

Definition standardTags : list string := [""; "!!map"; "!!seq"; "!!str"; "!!bool"; "!!int"; "!!float"; "!!null"; "!!timestamp"].
Fixpoint check_keys (seen : list string) (content : list Node) : result NativeCode unit :=
  match content with
  | key :: rest =>
      _ ← reject_if (String.eqb (n_Value key) "<<" || String.eqb (n_Tag key) "!!merge") ErrorMergeUnsupported;
      _ ← reject_if (negb (bool_decide (n_Kind key = ScalarNode)) || negb (String.eqb (n_Tag key) "!!str")) ErrorMalformedYAML;
      _ ← reject_if (bool_decide (n_Value key ∈ seen)) ErrorDuplicateKey;
      match rest with _ :: rest => check_keys (n_Value key :: seen) rest | [] => Ok tt end
  | [] => Ok tt
  end.
(** The checks of one node. *)
Definition check_node (n : Node) : result NativeCode unit :=
  _ ← reject_if (bool_decide (n_Kind n = AliasNode) || n_Alias n) ErrorAliasUnsupported;
  _ ← reject_if (negb (bool_decide (n_Tag n ∈ standardTags))) ErrorTagUnsupported;
  if bool_decide (n_Kind n = MappingNode) then
    _ ← reject_if (negb (Nat.even (List.length (n_Content n)))) ErrorMalformedYAML;
    check_keys [] (n_Content n)
  else Ok tt.
(** The loop over the nodes still to visit, the next one first. *)
Fixpoint validate_stack (fuel : nat) (limits : Limits) (stack : list (Node * Z)) (count : Z) : option (result NativeCode unit) :=
  match fuel with
  | O => None
  | Datatypes.S fuel =>
      match stack with
      | [] => Some (Ok tt)
      | (n, depth) :: stack =>
          let count := count + 1 in
          if (MaxNodes limits <? count) || (MaxDepth limits <? depth) then Some (Err ErrorStructureComplex)
          else match check_node n with
               | Err e => Some (Err e)
               | Ok _ => validate_stack fuel limits (((fun c => (c, depth + 1)) <$> n_Content n) ++ stack)%list count
               end
      end
  end.
(** The loop visits every node once, so its fuel is never used up. *)
Definition validateNode (document : Node) (limits : Limits) : result NativeCode unit :=
  default (Err ErrorStructureComplex) (validate_stack (Datatypes.S (node_count document)) limits [(document, 0)] 0).

Definition parseDocument `{YamlCodec} (source : bytes) (limits : Limits) : result NativeCode Node :=
  _ ← reject_if (blen source =? 0) ErrorSourceEmpty;
  _ ← reject_if (MaxBytes limits <? blen source) ErrorSourceTooLarge;
  _ ← reject_if (negb (utf8_valid source)) ErrorInvalidUTF8;
  match decode_twice source with
  | (EndOfText, _) => Err ErrorSourceEmpty
  | (MalformedText, _) | (Decoded _, MalformedText) => Err ErrorMalformedYAML
  | (Decoded _, Decoded _) => Err ErrorMultipleDocuments
  | (Decoded document, EndOfText) =>
      match n_Kind document, n_Content document with
      | DocumentNode, [root] =>
          _ ← reject_if (negb (bool_decide (n_Kind root = MappingNode))) ErrorRootNotMapping;
          _ ← validateNode document limits;
          Ok document
      | _, _ => Err ErrorRootNotMapping
      end
  end.
(** [document.Content[0]] of a parsed document. *)
Definition root_of (document : Node) : Node := match n_Content document with root :: _ => root | [] => document end.

(** ** Lookup *)

Fixpoint lookup_key (content : list Node) (key : string) : option Node :=
  match content with k :: v :: rest => if String.eqb (n_Value k) key then Some v else lookup_key rest key | _ => None end.
Definition mappingValue (mapping : Node) (key : string) : option Node :=
  if bool_decide (n_Kind mapping = MappingNode) then lookup_key (n_Content mapping) key else None.
Fixpoint node_at (current : Node) (path : list string) : option Node :=
  match path with [] => Some current | key :: path => value ← mappingValue current key; node_at value path end.
Definition nodeAtPath (document : Node) (path : list string) : option Node :=
  node_at (match n_Kind document, n_Content document with DocumentNode, [root] => root | _, _ => document end) path.

Fixpoint equalNodeValue (left right : Node) : bool :=
  bool_decide (n_Kind left = n_Kind right) && String.eqb (n_Tag left) (n_Tag right) && String.eqb (n_Value left) (n_Value right)
  && (fix equal (l r : list Node) : bool :=
        match l, r with [], [] => true | a :: l, b :: r => equalNodeValue a b && equal l r | _, _ => false end) (n_Content left) (n_Content right).

(** ** Edits *)

Fixpoint replace_key (content : list Node) (key : string) (value : Node) : list Node :=
  match content with
  | k :: v :: rest => if String.eqb (n_Value k) key then k :: value :: rest else k :: v :: replace_key rest key value
  | content => content
  end.
Fixpoint delete_key (content : list Node) (key : string) : list Node :=
  match content with
  | k :: v :: rest => if String.eqb (n_Value k) key then rest else k :: v :: delete_key rest key
  | content => content
  end.
Definition append_key (content : list Node) (key : string) (value : Node) : list Node := (content ++ [key_node key; value])%list.

(** The new node keeps the comments, the anchor and the style of the old one.
    A confidential text toggles its quotes, so that its bytes change even when
    it stays the same. *)
Definition dressed (forceReplacement : bool) (existing value : Node) : Node :=
  mk_node (n_Kind value)
    (if forceReplacement && bool_decide (n_Kind value = ScalarNode) && String.eqb (n_Tag value) "!!str"
     then if n_Style existing =? SingleQuotedStyle then DoubleQuotedStyle else SingleQuotedStyle
     else if bool_decide (n_Kind value = n_Kind existing) then n_Style existing else n_Style value)
    (n_Tag value) (n_Value value) (n_Anchor existing) (n_Alias value) (n_HeadComment existing) (n_LineComment existing) (n_FootComment existing)
    (n_Line value) (n_Column value) (n_Content value).

(** The new node, the value that was there and whether anything changed. *)
Definition edit : Type := Node * option Node * bool.
Fixpoint set_at (current : Node) (path : list string) (value : Node) (forceReplacement : bool) : result NativeCode edit :=
  match path with
  | [] => Err ErrorInvalidChange
  | [key] =>
      match mappingValue current key with
      | Some existing =>
          if negb forceReplacement && equalNodeValue existing value then Ok (current, Some existing, false)
          else Ok (with_content current (replace_key (n_Content current) key (dressed forceReplacement existing value)), Some existing, true)
      | None => Ok (with_content current (append_key (n_Content current) key value), None, true)
      end
  | key :: path =>
      match mappingValue current key with
      | Some next =>
          _ ← reject_if (negb (bool_decide (n_Kind next = MappingNode))) ErrorInvalidChange;
          '(next, before, changed) ← set_at next path value forceReplacement;
          Ok (with_content current (replace_key (n_Content current) key next), before, changed)
      | None =>
          '(next, before, changed) ← set_at empty_mapping path value forceReplacement;
          Ok (with_content current (append_key (n_Content current) key next), before, changed)
      end
  end.
(** Below [depth] a mapping that is left empty is removed with its key, down to
    [preserveDepth]. *)
Fixpoint remove_at (current : Node) (depth : Z) (path : list string) (preserveDepth : Z) : result NativeCode edit :=
  match path with
  | [] => Err ErrorInvalidChange
  | [key] =>
      match mappingValue current key with
      | Some existing => Ok (with_content current (delete_key (n_Content current) key), Some existing, true)
      | None => Ok (current, None, false)
      end
  | key :: path =>
      match mappingValue current key with
      | None => Ok (current, None, false)
      | Some next =>
          _ ← reject_if (negb (bool_decide (n_Kind next = MappingNode))) ErrorInvalidChange;
          '(next, before, changed) ← remove_at next (depth + 1) path preserveDepth;
          if changed && bool_decide (n_Content next = []) && (preserveDepth <? depth + 1)
          then Ok (with_content current (delete_key (n_Content current) key), before, changed)
          else Ok (with_content current (replace_key (n_Content current) key next), before, changed)
      end
  end.
(** The edit of the root of a document. *)
Definition in_document (document : Node) (f : Node -> result NativeCode edit) : result NativeCode edit :=
  match n_Content document with
  | [root] => '(root, before, changed) ← f root; Ok (with_content document [root], before, changed)
  | _ => Err ErrorInvalidChange
  end.
Definition setNodeAtPath (document : Node) (path : list string) (value : Node) (forceReplacement : bool) : result NativeCode edit :=
  in_document document (fun root => set_at root path value forceReplacement).
Definition removeNodeAtPath (document : Node) (path : list string) (preserveDepth : Z) : result NativeCode edit :=
  _ ← reject_if ((blen path =? 0) || (preserveDepth <? 0) || (blen path - 1 <? preserveDepth)) ErrorInvalidChange;
  in_document document (fun root => remove_at root 0 path preserveDepth).

(** ** Values *)

(** The values a schema is checked on. *)
Inductive any := AnyMap (l : list (string * any)) | AnyList (l : list any) | AnyString (text : string) | AnyNil | AnyBool (b : bool) | AnyInt (n : Z) | AnyFloat (bits : Z).

Fixpoint nodeToAny `{YamlCodec} (n : Node) : option any :=
  match n_Kind n with
  | MappingNode =>
      AnyMap <$> (fix fields (l : list Node) : option (list (string * any)) :=
        match l with k :: v :: rest => value ← nodeToAny v; rest ← fields rest; Some ((n_Value k, value) :: rest) | _ => Some [] end) (n_Content n)
  | SequenceNode =>
      AnyList <$> (fix items (l : list Node) : option (list any) :=
        match l with v :: rest => value ← nodeToAny v; rest ← items rest; Some (value :: rest) | [] => Some [] end) (n_Content n)
  | ScalarNode =>
      let tag := n_Tag n in
      if String.eqb tag "!!str" || String.eqb tag "!!timestamp" then Some (AnyString (n_Value n))
      else if String.eqb tag "!!null" then Some AnyNil
      else if String.eqb tag "!!bool" then AnyBool <$> decode_bool n
      else if String.eqb tag "!!int" then AnyInt <$> match decode_int64 n with Some i => Some i | None => decode_uint64 n end
      else if String.eqb tag "!!float" then AnyFloat <$> decode_float64 n
      else None
  | _ => None
  end.

(** ** Pointers *)

Definition pointer_part (part : string) : bytes := replace_byte "/" (to_bytes "~1") (replace_byte "~" (to_bytes "~0") (to_bytes part)).
Definition pointer (path : list string) : string :=
  if bool_decide (path = []) then "/" else of_bytes ("/"%char :: join_with "/" (pointer_part <$> path)).
Definition position (document : Node) (path : list string) : Z * Z :=
  match nodeAtPath document path with Some n => (n_Line n, n_Column n) | None => (0, 0) end.

(** ** Trees *)

Lemma Node_tree_ind (P : Node -> Prop) :
  (forall n, Forall P (n_Content n) -> P n) -> forall n, P n.
Proof.
  intros HP. fix IH 1. intros n. apply HP. destruct n as [? ? ? ? ? ? ? ? ? ? ? l]. cbn.
  induction l as [|c l IHl]; constructor; [apply IH|exact IHl].
Qed.

Definition nodes_count (l : list Node) : nat := sum_list (node_count <$> l).
Lemma node_count_unfold n : node_count n = Datatypes.S (nodes_count (n_Content n)).
Proof. destruct n as [? ? ? ? ? ? ? ? ? ? ? l]. cbn. f_equal. induction l as [|c l IH]; [done|]. cbn. by rewrite IH. Qed.

(** ** Acceptance

    What the loop over the pending nodes decides, as a recursion over the tree. *)
Fixpoint plain (limits : Limits) (depth : Z) (n : Node) : bool :=
  (depth <=? MaxDepth limits) && is_ok (check_node n) && forallb (plain limits (depth + 1)) (n_Content n).
Definition pending_plain (limits : Limits) (item : Node * Z) : Prop := plain limits item.2 item.1 = true.

Lemma plain_unfold limits depth n :
  plain limits depth n = (depth <=? MaxDepth limits) && is_ok (check_node n) && forallb (plain limits (depth + 1)) (n_Content n).
Proof. by destruct n. Qed.
Lemma pending_children limits depth l :
  Forall (pending_plain limits) ((fun c => (c, depth)) <$> l) <-> forallb (plain limits depth) l = true.
Proof. rewrite Forall_fmap, forallb_forall, Forall_forall. unfold compose, pending_plain. cbn. by setoid_rewrite list_elem_of_In. Qed.

Definition pending_count (stack : list (Node * Z)) : nat := nodes_count stack.*1.
Lemma pending_count_children l depth stack :
  pending_count (((fun c : Node => (c, depth)) <$> l) ++ stack) = (nodes_count l + pending_count stack)%nat.
Proof. unfold pending_count, nodes_count. rewrite fmap_app. induction l as [|c l IH]; [done|]. cbn in *. lia. Qed.

Lemma validate_stack_spec limits : forall fuel stack count, (pending_count stack < fuel)%nat ->
  exists r, validate_stack fuel limits stack count = Some r
    /\ (r = Ok tt <-> (stack = [] \/ count + Z.of_nat (pending_count stack) <= MaxNodes limits) /\ Forall (pending_plain limits) stack).
Proof.
  induction fuel as [|fuel IH]; intros stack count Hf; [lia|]. cbn [validate_stack].
  destruct stack as [|[n depth] stack]; [exists (Ok tt); split; [done|]; split; [split; [by left|constructor]|done]|].
  assert (Hc : pending_count ((n, depth) :: stack) = Datatypes.S (nodes_count (n_Content n) + pending_count stack)).
  { unfold pending_count. cbn. by rewrite node_count_unfold. }
  rewrite Hc in Hf |- *. destruct (_ || _) eqn:Hb.
  - eexists. split; [done|]. split; [done|]. intros [[?|Hn] Hp%Forall_cons]; [done|]. destruct Hp as [Hp _]. exfalso.
    unfold pending_plain in Hp. cbn [fst snd] in Hp. rewrite plain_unfold in Hp. apply orb_true_iff in Hb. bool_prop. destruct Hb; bool_prop; lia.
  - bool_prop. destruct (check_node n) as [[]|] eqn:Hk.
    + destruct (IH (((fun c => (c, depth + 1)) <$> n_Content n) ++ stack)%list (count + 1)) as (r & Hr & Hs).
      { rewrite pending_count_children. lia. }
      exists r. split; [done|]. rewrite Hs, Forall_cons, Forall_app, pending_children, pending_count_children.
      unfold pending_plain at 2. cbn [fst snd]. rewrite (plain_unfold _ depth), Hk. cbn [is_ok].
      assert (Hd : (depth <=? MaxDepth limits) = true) by (apply Z.leb_le; lia). rewrite Hd. cbn [andb].
      assert (He : (((fun c : Node => (c, depth + 1)) <$> n_Content n) ++ stack)%list = [] -> nodes_count (n_Content n) = O /\ pending_count stack = O).
      { destruct (n_Content n), stack; done. }
      split.
      * intros [Hn Hp]. split; [|tauto]. right. destruct Hn as [[-> ->]%He|]; lia.
      * intros [[?|] Hp]; [done|]. split; [|tauto]. right. lia.
    + eexists. split; [done|]. split; [done|]. intros [_ [Hp _]%Forall_cons]. unfold pending_plain in Hp. cbn [fst snd] in Hp.
      rewrite plain_unfold, Hk in Hp. by rewrite andb_false_r in Hp.
Qed.

Lemma validateNode_spec document limits :
  validateNode document limits = Ok tt <-> Z.of_nat (node_count document) <= MaxNodes limits /\ plain limits 0 document = true.
Proof.
  unfold validateNode. destruct (validate_stack_spec limits (Datatypes.S (node_count document)) [(document, 0)] 0) as (r & -> & Hs).
  { unfold pending_count, nodes_count. cbn. lia. }
  cbn. rewrite Hs. unfold pending_count, nodes_count. cbn. rewrite Forall_singleton. unfold pending_plain. cbn. rewrite Nat.add_0_r. naive_solver.
Qed.

(** ** Mappings *)

Lemma pairs_ind (P : list Node -> Prop) :
  P [] -> (forall k, P [k]) -> (forall k v rest, P rest -> P (k :: v :: rest)) -> forall l, P l.
Proof. intros H0 H1 H2. fix IH 1. intros [|k [|v rest]]; [exact H0|apply H1|apply H2, IH]. Qed.

Fixpoint keys_of (content : list Node) : list string :=
  match content with k :: _ :: rest => n_Value k :: keys_of rest | _ => [] end.
Definition even_list (content : list Node) : Prop := Nat.even (List.length content) = true.

Lemma lookup_key_None l key : lookup_key l key = None <-> key ∉ keys_of l.
Proof.
  induction l as [| |k v rest IH] using pairs_ind; cbn; [set_solver|set_solver|].
  rewrite not_elem_of_cons. destruct (String.eqb_spec (n_Value k) key); [naive_solver|]. rewrite IH. intuition congruence.
Qed.
Lemma lookup_replace_key l key v : is_Some (lookup_key l key) -> lookup_key (replace_key l key v) key = Some v.
Proof.
  induction l as [| |k w rest IH] using pairs_ind; cbn; [by intros []|by intros []|].
  destruct (String.eqb (n_Value k) key) eqn:E; cbn; by rewrite E.
Qed.
Lemma lookup_replace_key_ne l key key' v : key' <> key -> lookup_key (replace_key l key v) key' = lookup_key l key'.
Proof.
  intros Hne. induction l as [| |k w rest IH] using pairs_ind; cbn; [done|done|].
  destruct (String.eqb_spec (n_Value k) key) as [<-|]; cbn; [|by rewrite IH].
  destruct (String.eqb_spec (n_Value k) key'); [congruence|done].
Qed.
Lemma lookup_append_key l key v : even_list l -> lookup_key l key = None -> lookup_key (append_key l key v) key = Some v.
Proof.
  unfold append_key, even_list. induction l as [| |k w rest IH] using pairs_ind; cbn; [by rewrite String.eqb_refl|done|].
  intros He. by destruct (String.eqb (n_Value k) key); [|apply IH].
Qed.
Lemma lookup_append_key_ne l key key' v : even_list l -> key' <> key -> lookup_key (append_key l key v) key' = lookup_key l key'.
Proof.
  unfold append_key, even_list. intros He Hne. induction l as [| |k w rest IH] using pairs_ind; cbn in *; [|done|by rewrite IH].
  destruct (String.eqb_spec key key'); congruence.
Qed.
Lemma lookup_delete_key l key : NoDup (keys_of l) -> lookup_key (delete_key l key) key = None.
Proof.
  induction l as [| |k w rest IH] using pairs_ind; cbn; [done|done|]. intros [Hn Hd]%NoDup_cons.
  destruct (String.eqb (n_Value k) key) eqn:E; [|cbn; rewrite E; by apply IH].
  apply String.eqb_eq in E as <-. by apply lookup_key_None.
Qed.
Lemma lookup_delete_key_ne l key key' : key' <> key -> lookup_key (delete_key l key) key' = lookup_key l key'.
Proof.
  intros Hne. induction l as [| |k w rest IH] using pairs_ind; cbn; [done|done|].
  destruct (String.eqb_spec (n_Value k) key) as [<-|]; cbn; [|by rewrite IH].
  apply not_eq_sym, String.eqb_neq in Hne. by rewrite Hne.
Qed.

(** A tree whose mappings hold pairs with distinct keys. *)
Fixpoint tidy (n : Node) : bool :=
  if bool_decide (n_Kind n = MappingNode)
  then Nat.even (List.length (n_Content n)) && bool_decide (NoDup (keys_of (n_Content n)))
       && (fix all (l : list Node) : bool := match l with _ :: v :: rest => tidy v && all rest | _ => true end) (n_Content n)
  else true.
Fixpoint tidy_values (l : list Node) : bool := match l with _ :: v :: rest => tidy v && tidy_values rest | _ => true end.
(** A mapping of that kind, from the inside. *)
Record tidy_mapping (content : list Node) : Prop := {
  tm_even : even_list content; tm_keys : NoDup (keys_of content); tm_values : tidy_values content = true;
}.
Lemma tidy_unfold n : tidy n = true <-> (n_Kind n = MappingNode -> tidy_mapping (n_Content n)).
Proof.
  destruct n as [kind ? ? ? ? ? ? ? ? ? ? l]. cbn. case_bool_decide as Hk; [|naive_solver].
  change ((fix all (l : list Node) : bool := match l with _ :: v :: rest => tidy v && all rest | _ => true end) l) with (tidy_values l).
  rewrite !andb_true_iff, bool_decide_eq_true. split; [intros [[? ?] ?] _; by constructor|]. intros H. by destruct (H Hk).
Qed.
Lemma tidy_lookup l key v : tidy_values l = true -> lookup_key l key = Some v -> tidy v = true.
Proof.
  induction l as [| |k w rest IH] using pairs_ind; cbn; [done|done|]. intros [Hw Hr]%andb_true_iff.
  destruct (String.eqb (n_Value k) key); [naive_solver|by apply IH].
Qed.
Lemma tidy_replace l key v : tidy v = true -> tidy_mapping l -> tidy_mapping (replace_key l key v).
Proof.
  intros Hv [He Hk Hw].
  assert (Hs : keys_of (replace_key l key v) = keys_of l /\ List.length (replace_key l key v) = List.length l /\ tidy_values (replace_key l key v) = true).
  { clear He Hk. revert Hw. induction l as [| |k w rest IH] using pairs_ind; cbn; [done|done|]. intros [Hw Hr]%andb_true_iff.
    destruct (String.eqb (n_Value k) key); cbn; [by rewrite Hv, Hr|]. destruct (IH Hr) as (-> & -> & ->). by rewrite Hw. }
  destruct Hs as (Hs & Hl & Ht). constructor; [unfold even_list; by rewrite Hl|by rewrite Hs|done].
Qed.
Lemma tidy_append l key v : tidy v = true -> lookup_key l key = None -> tidy_mapping l -> tidy_mapping (append_key l key v).
Proof.
  intros Hv Hn%lookup_key_None [He Hk Hw]. unfold append_key.
  assert (Hs : keys_of (l ++ [key_node key; v])%list = (keys_of l ++ [key])%list /\ Nat.even (List.length (l ++ [key_node key; v])%list) = true
    /\ tidy_values (l ++ [key_node key; v])%list = true).
  { clear Hn Hk. revert He Hw. unfold even_list. induction l as [| |k w rest IH] using pairs_ind; cbn; [by rewrite Hv|done|].
    intros He [Hw Hr]%andb_true_iff. destruct (IH He Hr) as (-> & ? & ->). by rewrite Hw. }
  destruct Hs as (Hs & Hl & Ht). constructor; [done| |done]. rewrite Hs. apply NoDup_app.
  split_and!; [done| |apply NoDup_singleton]. by intros x Hx ->%list_elem_of_singleton.
Qed.
Lemma tidy_delete l key : tidy_mapping l -> tidy_mapping (delete_key l key).
Proof.
  intros [He Hk Hw].
  assert (Hs : keys_of (delete_key l key) `sublist_of` keys_of l /\ (even_list l -> even_list (delete_key l key)) /\ tidy_values (delete_key l key) = true).
  { clear He Hk. revert Hw. unfold even_list. induction l as [| |k w rest IH] using pairs_ind; cbn; [done|done|]. intros [Hw Hr]%andb_true_iff.
    destruct (IH Hr) as (? & ? & Ht). destruct (String.eqb (n_Value k) key); cbn; [split_and!; [by constructor|done|done]|].
    rewrite Hw, Ht. split_and!; [by constructor|done|done]. }
  destruct Hs as (Hs & Hl & Ht). constructor; [by apply Hl|by eapply sublist_NoDup|done].
Qed.

(** ** Paths *)

Definition independent (p q : list string) : Prop := ~ p `prefix_of` q /\ ~ q `prefix_of` p.
Lemma independent_cons k p q : independent (k :: p) (k :: q) <-> independent p q.
Proof.
  assert (Hp : forall a b : list string, (k :: a) `prefix_of` (k :: b) <-> a `prefix_of` b).
  { intros a b. split; [apply prefix_cons_inv_2|apply prefix_cons]. }
  unfold independent. by rewrite !Hp.
Qed.
Lemma independent_nil_l q : ~ independent [] q.
Proof. intros [H _]. apply H, prefix_nil. Qed.
Lemma independent_nil_r p : ~ independent p [].
Proof. intros [_ H]. apply H, prefix_nil. Qed.
Lemma independent_sym p q : independent p q -> independent q p.
Proof. unfold independent. tauto. Qed.

Lemma mappingValue_content n content key : n_Kind n = MappingNode -> mappingValue (with_content n content) key = lookup_key content key.
Proof. intros Hk. unfold mappingValue. cbn. by rewrite bool_decide_true. Qed.
Lemma mappingValue_mapping n key : n_Kind n = MappingNode -> mappingValue n key = lookup_key (n_Content n) key.
Proof. intros Hk. unfold mappingValue. by rewrite bool_decide_true. Qed.
Lemma tidy_child n key v : tidy n = true -> mappingValue n key = Some v -> tidy v = true.
Proof. unfold mappingValue. case_bool_decide as Hk; [|done]. intros H%tidy_unfold; [|done]. apply tidy_lookup, H. Qed.

(** What is below other keys does not change, what is below [key] is what is
    below the new value. *)
Lemma node_at_with n content key q : n_Kind n = MappingNode ->
  (forall key', key' <> key -> lookup_key content key' = lookup_key (n_Content n) key') ->
  (forall q', q = key :: q' -> (v ← lookup_key content key; node_at v q') = (v ← mappingValue n key; node_at v q')) -> q <> [] ->
  node_at (with_content n content) q = node_at n q.
Proof.
  intros Hk Hne Hq Hn. destruct q as [|k q]; [done|]. cbn [node_at]. rewrite mappingValue_content by done.
  destruct (decide (k = key)) as [->|]; [by apply Hq|]. by rewrite Hne, mappingValue_mapping.
Qed.

(** What an edit of [n] at [path] gives. *)
Record edited (n : Node) (path : list string) (result : option Node -> Prop) (n' : Node) (before : option Node) : Prop := {
  ed_tidy : tidy n' = true;
  ed_before : before = node_at n path;
  ed_result : result (node_at n' path);
  ed_frame : forall q, independent path q -> node_at n' q = node_at n q;
}.

Lemma edited_replace n key next path result next' before : n_Kind n = MappingNode -> tidy n = true -> mappingValue n key = Some next ->
  edited next path result next' before ->
  edited n (key :: path) result (with_content n (replace_key (n_Content n) key next')) before.
Proof.
  intros Hk Ht Hn [Ht' Hb Hr Hf]. rewrite mappingValue_mapping in Hn by done.
  assert (Hl : lookup_key (replace_key (n_Content n) key next') key = Some next') by (apply lookup_replace_key; by rewrite Hn).
  constructor.
  - apply tidy_unfold. intros _. by apply tidy_replace, tidy_unfold.
  - cbn. by rewrite mappingValue_mapping, Hn.
  - cbn. by rewrite mappingValue_content, Hl.
  - intros q Hq. apply (node_at_with _ _ key); [done| | |].
    + intros key' Hne. by apply lookup_replace_key_ne.
    + intros q' ->. rewrite Hl, mappingValue_mapping, Hn by done. cbn. apply Hf. by apply independent_cons in Hq.
    + intros ->. by apply independent_nil_r in Hq.
Qed.
Lemma node_at_empty q : q <> [] -> node_at empty_mapping q = None.
Proof. by destruct q. Qed.
Lemma edited_append n key path result next' : n_Kind n = MappingNode -> tidy n = true -> mappingValue n key = None ->
  edited empty_mapping path result next' None \/ path = [] /\ tidy next' = true /\ result (Some next') ->
  edited n (key :: path) result (with_content n (append_key (n_Content n) key next')) None.
Proof.
  intros Hk Ht Hn He. rewrite mappingValue_mapping in Hn by done. pose proof (proj1 (tidy_unfold n) Ht Hk) as Hm.
  assert (tidy next' = true /\ result (node_at next' path) /\ forall q, independent path q -> node_at next' q = node_at empty_mapping q) as (Ht' & Hr & Hf).
  { destruct He as [[? ? ? ?]|(-> & ? & ?)]; split_and!; try done. intros q Hq. by apply independent_nil_l in Hq. }
  assert (Hl : lookup_key (append_key (n_Content n) key next') key = Some next') by (apply lookup_append_key; [apply Hm|done]).
  constructor.
  - apply tidy_unfold. intros _. by apply tidy_append.
  - cbn. by rewrite mappingValue_mapping, Hn.
  - cbn. by rewrite mappingValue_content, Hl.
  - intros q Hq. apply (node_at_with _ _ key); [done| | |].
    + intros key' Hne. apply lookup_append_key_ne; [apply Hm|done].
    + intros q' ->. apply independent_cons in Hq. rewrite Hl, mappingValue_mapping, Hn by done. cbn. rewrite Hf by done.
      apply node_at_empty. intros ->. by apply independent_nil_r in Hq.
    + intros ->. by apply independent_nil_r in Hq.
Qed.

Lemma edited_leaf n result value : tidy value = true -> result (Some value) -> edited n [] result value (Some n).
Proof. intros Ht Hr. constructor; [done|done|done|]. intros q Hq. by apply independent_nil_l in Hq. Qed.
Lemma edited_same n path result before : tidy n = true -> before = node_at n path -> result before -> edited n path result n before.
Proof. intros Ht -> Hr. by constructor. Qed.

Lemma equalNodeValue_refl n : equalNodeValue n n = true.
Proof.
  induction n as [n IH] using Node_tree_ind. destruct n as [? ? ? ? ? ? ? ? ? ? ? l]. cbn in *. rewrite bool_decide_true, !String.eqb_refl by done. cbn.
  induction IH as [|c l Hc _ IH]; [done|]. by rewrite Hc.
Qed.
Lemma equalNodeValue_dressed force existing value : equalNodeValue (dressed force existing value) value = true.
Proof.
  pose proof (equalNodeValue_refl value) as H. destruct value as [? ? ? ? ? ? ? ? ? ? ? l]. exact H.
Qed.
Lemma tidy_other n : n_Kind n <> MappingNode -> tidy n = true.
Proof. intros Hk. by apply tidy_unfold. Qed.

(** A set reads back, and keeps what is beside its path. *)
Definition holds_value (value : Node) (o : option Node) : Prop := exists n, o = Some n /\ equalNodeValue n value = true.
Lemma set_at_edited value force : n_Kind value <> MappingNode -> forall path n n' before changed,
  n_Kind n = MappingNode -> tidy n = true -> set_at n path value force = Ok (n', before, changed) ->
  n_Kind n' = MappingNode /\ edited n path (holds_value value) n' before.
Proof.
  intros Hv. induction path as [|key path IH]; intros n n' before changed Hk Ht; [done|]. cbn [set_at].
  destruct path as [|key' path]; destruct (mappingValue n key) as [next|] eqn:Hn.
  - destruct (_ && _) eqn:E; intros [= <- <- <-].
    + split; [done|]. apply edited_same; [done|cbn; by rewrite Hn|]. exists next. bool_prop. done.
    + split; [done|]. apply edited_replace with next; try done. apply edited_leaf; [by apply tidy_other|].
      eexists. split; [done|]. apply equalNodeValue_dressed.
  - intros [= <- <- <-]. split; [done|]. apply edited_append; try done. right. split_and!; [done|by apply tidy_other|].
    eexists. split; [done|]. apply equalNodeValue_refl.
  - intros (u & Hm%reject_if_Ok & ([[next' before'] changed'] & E & [= <- <- <-])%bind_Ok)%bind_Ok. bool_prop.
    split; [done|]. apply edited_replace with next; try done. apply IH in E; [apply E|done|by eapply tidy_child].
  - intros ([[next' before'] changed'] & E & [= <- <- <-])%bind_Ok. split; [done|].
    apply IH in E as [_ E]; [|done|done]. pose proof (ed_before _ _ _ _ _ E) as ->. apply edited_append; try done. by left.
Qed.

Lemma edited_delete n key path next next' before : n_Kind n = MappingNode -> tidy n = true -> mappingValue n key = Some next ->
  before = node_at next path -> (path = [] \/ edited next path (fun o => o = None) next' before /\ n_Content next' = []) ->
  edited n (key :: path) (fun o => o = None) (with_content n (delete_key (n_Content n) key)) before.
Proof.
  intros Hk Ht Hn Hb He. rewrite mappingValue_mapping in Hn by done. pose proof (proj1 (tidy_unfold n) Ht Hk) as Hm.
  assert (Hl : lookup_key (delete_key (n_Content n) key) key = None) by apply lookup_delete_key, Hm.
  constructor.
  - apply tidy_unfold. intros _. by apply tidy_delete.
  - cbn. by rewrite mappingValue_mapping, Hn.
  - cbn. by rewrite mappingValue_content, Hl.
  - intros q Hq. apply (node_at_with _ _ key); [done| | |].
    + intros key' Hne. by apply lookup_delete_key_ne.
    + intros q' ->. apply independent_cons in Hq. rewrite Hl, mappingValue_mapping, Hn by done. cbn.
      destruct He as [->|[He Hc]]; [by apply independent_nil_l in Hq|]. rewrite <- (ed_frame _ _ _ _ _ He _ Hq).
      destruct q' as [|k q']; [by apply independent_nil_r in Hq|]. cbn. unfold mappingValue. rewrite Hc. by case_bool_decide.
    + intros ->. by apply independent_nil_r in Hq.
Qed.

(** A removal leaves nothing at its path, and keeps what is beside it. *)
Lemma remove_at_edited preserve : forall path depth n n' before changed,
  n_Kind n = MappingNode -> tidy n = true -> remove_at n depth path preserve = Ok (n', before, changed) ->
  n_Kind n' = MappingNode /\ edited n path (fun o => o = None) n' before.
Proof.
  induction path as [|key path IH]; intros depth n n' before changed Hk Ht; [done|]. cbn [remove_at].
  destruct (mappingValue n key) as [next|] eqn:Hn.
  2:{ destruct path; intros [= <- <- <-]; (split; [done|apply edited_same; [done|cbn; by rewrite Hn|done]]). }
  destruct path as [|key' path].
  - intros [= <- <- <-]. split; [done|]. apply edited_delete with next next; [done..|by left].
  - intros (u & Hm%reject_if_Ok & ([[next' before'] changed'] & E & H)%bind_Ok)%bind_Ok. bool_prop.
    apply IH in E as [_ E]; [|done|by eapply tidy_child]. destruct (_ && _) eqn:Hp; injection H as <- <- <-; (split; [done|]).
    + bool_prop. apply edited_delete with next next'; try done; [apply E|by right].
    + by apply edited_replace with next.
Qed.

(** ** Documents *)

(** A document whose root is a tidy mapping. *)
Record wf_document (document : Node) : Prop := {
  wf_kind : n_Kind document = DocumentNode;
  wf_root : exists root, n_Content document = [root] /\ n_Kind root = MappingNode /\ tidy root = true;
}.
Lemma nodeAtPath_document document root path : n_Kind document = DocumentNode -> n_Content document = [root] -> nodeAtPath document path = node_at root path.
Proof. intros Hk Hc. unfold nodeAtPath. by rewrite Hk, Hc. Qed.

Record document_edited (document : Node) (path : list string) (result : option Node -> Prop) (document' : Node) (before : option Node) : Prop := {
  de_wf : wf_document document';
  de_before : before = nodeAtPath document path;
  de_result : result (nodeAtPath document' path);
  de_frame : forall q, independent path q -> nodeAtPath document' q = nodeAtPath document q;
}.
Lemma in_document_edited document path result f document' before changed : wf_document document ->
  (forall root root', n_Kind root = MappingNode -> tidy root = true -> f root = Ok (root', before, changed) ->
     n_Kind root' = MappingNode /\ edited root path result root' before) ->
  in_document document f = Ok (document', before, changed) -> document_edited document path result document' before.
Proof.
  intros [Hk (root & Hc & Hm & Ht)] Hf. unfold in_document. rewrite Hc.
  intros ([[root' before'] changed'] & E & [= <- <- <-])%bind_Ok. apply Hf in E as [Hm' [Ht' Hb Hr Hq]]; [|done|done].
  assert (Hk' : n_Kind (with_content document [root']) = DocumentNode) by done.
  assert (Hc' : n_Content (with_content document [root']) = [root']) by done.
  constructor; [constructor; [done|eauto]| | |]; intros; rewrite ?(nodeAtPath_document _ _ _ Hk Hc), ?(nodeAtPath_document _ _ _ Hk' Hc'); auto.
Qed.
Lemma setNodeAtPath_edited document path value force document' before changed : wf_document document -> n_Kind value <> MappingNode ->
  setNodeAtPath document path value force = Ok (document', before, changed) -> document_edited document path (holds_value value) document' before.
Proof. intros Hw Hv. apply in_document_edited; [done|]. intros root root' Hm Ht E. by apply set_at_edited in E. Qed.
Lemma removeNodeAtPath_edited document path preserve document' before changed : wf_document document ->
  removeNodeAtPath document path preserve = Ok (document', before, changed) -> document_edited document path (fun o => o = None) document' before.
Proof.
  intros Hw. unfold removeNodeAtPath. intros (u & _ & E)%bind_Ok. revert E. apply in_document_edited; [done|].
  intros root root' Hm Ht E. by apply remove_at_edited in E.
Qed.

(** What validation accepts is tidy. *)
Lemma check_keys_distinct : forall l seen, even_list l -> check_keys seen l = Ok tt ->
  NoDup (keys_of l) /\ forall k, k ∈ keys_of l -> k ∉ seen.
Proof.
  unfold even_list. induction l as [| |k v rest IH] using pairs_ind; intros seen He; cbn; [split; [constructor|set_solver]|done|].
  intros (u1 & _ & (u2 & _ & (u3 & Hs%reject_if_Ok & E)%bind_Ok)%bind_Ok)%bind_Ok. apply bool_decide_eq_false in Hs.
  destruct (IH _ He E) as [Hd Hk]. split; [constructor; [|done]; intros Hin; by apply Hk in Hin; set_solver|set_solver].
Qed.
Lemma plain_tidy limits : forall n depth, plain limits depth n = true -> tidy n = true.
Proof.
  induction n as [n IH] using Node_tree_ind. intros depth. rewrite plain_unfold. intros H. bool_prop.
  apply tidy_unfold. intros Hk. revert H1. unfold check_node. intros ([] & (u & _ & (u2 & _ & E)%bind_Ok)%bind_Ok)%is_ok_true.
  rewrite bool_decide_true in E by done. apply bind_Ok in E as (u3 & He%reject_if_Ok & E). apply negb_false_iff in He.
  constructor; [done|by eapply check_keys_distinct|]. clear He E Hk. revert IH H0. generalize (n_Content n).
  intros l. induction l as [| |k v rest IHl] using pairs_ind; [done|done|].
  rewrite !Forall_cons. intros (_ & Hv & Hr). cbn. intros Hall. bool_prop. by erewrite Hv, IHl.
Qed.

Lemma parseDocument_Ok `{YamlCodec} source limits document : parseDocument source limits = Ok document ->
  wf_document document /\ validateNode document limits = Ok tt.
Proof.
  unfold parseDocument. intros (u & _ & (u2 & _ & (u3 & _ & E)%bind_Ok)%bind_Ok)%bind_Ok.
  destruct (decode_twice source) as [[| |d] [| |d2]]; try done. destruct (n_Kind d) eqn:Hk, (n_Content d) as [|root [|]] eqn:Hc; try done.
  apply bind_Ok in E as (u4 & Hm%reject_if_Ok & E). apply bind_Ok in E as ([] & Hv & [= <-]). bool_prop. split; [|done].
  constructor; [done|]. exists root. split_and!; [done..|]. apply validateNode_spec in Hv as [_ Hp]. rewrite plain_unfold, Hc in Hp.
  cbn in Hp. bool_prop. by eapply plain_tidy.
Qed.
Lemma parseDocument_plain `{YamlCodec} source limits document : parseDocument source limits = Ok document -> plain limits 0 document = true.
Proof. intros [_ [_ Hv]%validateNode_spec]%parseDocument_Ok. exact Hv. Qed.

(** *** Edits that change nothing *)

Lemma with_content_id n : with_content n (n_Content n) = n.
Proof. by destruct n. Qed.
Lemma replace_key_id l key v : lookup_key l key = Some v -> replace_key l key v = l.
Proof.
  induction l as [| |k w rest IH] using pairs_ind; cbn; [done|done|]. destruct (String.eqb (n_Value k) key); [by intros [= ->]|]. intros E. by rewrite IH.
Qed.
Lemma replace_same n key v : mappingValue n key = Some v -> with_content n (replace_key (n_Content n) key v) = n.
Proof. unfold mappingValue. case_bool_decide; [|done]. intros E. by rewrite (replace_key_id _ _ _ E), with_content_id. Qed.
Lemma set_at_unchanged value force path : forall n n' before, set_at n path value force = Ok (n', before, false) -> n' = n /\ is_Some (node_at n path).
Proof.
  induction path as [|key path IH]; intros n n' before; [done|]. cbn [set_at node_at].
  destruct path as [|key' path], (mappingValue n key) as [next|] eqn:Hn; cbn [mbind option_bind].
  - destruct (_ && _); [|done]. intros [= <- <-]. by split.
  - done.
  - intros (u & _ & ([[next' before'] changed'] & E & [= <- <- ->])%bind_Ok)%bind_Ok. apply IH in E as [-> ?]. split; [by apply replace_same|done].
  - intros ([[next' before'] changed'] & E & [= <- <- ->])%bind_Ok. apply IH in E as [_ [? Hs]]. done.
Qed.
Lemma remove_at_unchanged preserve path : forall depth n n' before, remove_at n depth path preserve = Ok (n', before, false) -> n' = n.
Proof.
  induction path as [|key path IH]; intros depth n n' before; [done|]. cbn [remove_at].
  destruct path as [|key' path], (mappingValue n key) as [next|] eqn:Hn; [done|by intros [= <- <-]| |by intros [= <- <-]].
  intros (u & _ & ([[next' before'] changed'] & E & H)%bind_Ok)%bind_Ok. destruct (_ && _) eqn:Hc; injection H as <- <- ->; [done|].
  apply IH in E as ->. by apply replace_same.
Qed.
Lemma in_document_unchanged document f document' before :
  (forall root root', f root = Ok (root', before, false) -> root' = root) -> in_document document f = Ok (document', before, false) -> document' = document.
Proof.
  intros Hf. unfold in_document. destruct (n_Content document) as [|root [|]] eqn:Hc; try done.
  intros ([[root' before'] changed'] & E & [= <- <- ->])%bind_Ok. apply Hf in E as ->. rewrite <- Hc. apply with_content_id.
Qed.

(** *** One value in place of another *)

Fixpoint put_at (n : Node) (path : list string) (v : Node) : Node :=
  match path with
  | [] => v
  | key :: path =>
      match mappingValue n key with Some next => with_content n (replace_key (n_Content n) key (put_at next path v)) | None => n end
  end.
Definition put (document : Node) (path : list string) (v : Node) : Node := with_content document [put_at (root_of document) path v].

Lemma put_at_same path : forall n old, node_at n path = Some old -> put_at n path old = n.
Proof.
  induction path as [|key path IH]; intros n old; cbn; [by intros [= ->]|]. destruct (mappingValue n key) as [next|] eqn:Hn; [|done].
  intros Ho. rewrite (IH _ _ Ho). by apply replace_same.
Qed.
Lemma replace_replace l key v w : replace_key (replace_key l key v) key w = replace_key l key w.
Proof. induction l as [| |k x rest IH] using pairs_ind; cbn; [done..|]. destruct (String.eqb (n_Value k) key) eqn:E; cbn; by rewrite E, ?IH. Qed.
Lemma mappingValue_replaced n key v next : mappingValue n key = Some next ->
  n_Kind n = MappingNode /\ mappingValue (with_content n (replace_key (n_Content n) key v)) key = Some v.
Proof.
  unfold mappingValue. cbn. case_bool_decide as Hk; [|done]. intros Hl. split; [done|]. apply lookup_replace_key. by rewrite Hl.
Qed.
(** A forced replacement sees the old value, and does not keep any of it. *)
Lemma set_at_put value path : forall n old a, path <> [] -> node_at n path = Some old ->
  set_at (put_at n path a) path value true = Ok (put_at n path (dressed true a value), Some a, true).
Proof.
  induction path as [|key path IH]; intros n old a; [done|]. intros _. cbn. destruct (mappingValue n key) as [next|] eqn:Hn; [|done]. cbn.
  destruct (mappingValue_replaced n key (put_at next path a) next Hn) as [Hk ->].
  destruct path as [|key' path]; cbn [negb andb]; intros Ho; [by rewrite replace_replace|].
  assert (Hm : n_Kind (put_at next (key' :: path) a) = MappingNode).
  { revert Ho. cbn. unfold mappingValue. case_bool_decide as Hk'; [|done]. by destruct (lookup_key _ _). }
  rewrite Hm, bool_decide_true by done. cbn [reject_if mbind result_bind negb]. rewrite (IH next old) by done. cbn. by rewrite replace_replace.
Qed.
Lemma node_at_put path : forall n old v, node_at n path = Some old -> node_at (put_at n path v) path = Some v.
Proof.
  induction path as [|key path IH]; intros n old v; cbn; [done|]. destruct (mappingValue n key) as [next|] eqn:Hn; [|done]. cbn. intros Ho.
  destruct (mappingValue_replaced n key (put_at next path v) next Hn) as [_ ->]. cbn. by eapply IH.
Qed.
Lemma setNodeAtPath_put document path value old a : wf_document document -> path <> [] -> nodeAtPath document path = Some old ->
  setNodeAtPath (put document path a) path value true = Ok (put document path (dressed true a value), Some a, true).
Proof.
  intros [Hk (root & Hc & _)] Hp Ho. rewrite (nodeAtPath_document _ _ _ Hk Hc) in Ho. unfold setNodeAtPath, in_document, put, root_of. cbn. rewrite Hc.
  by rewrite (set_at_put value path root old a Hp Ho).
Qed.
Lemma put_same document path old : wf_document document -> nodeAtPath document path = Some old -> put document path old = document.
Proof.
  intros [Hk (root & Hc & _)] Ho. rewrite (nodeAtPath_document _ _ _ Hk Hc) in Ho. unfold put, root_of. rewrite Hc.
  rewrite (put_at_same _ _ _ Ho), <- Hc. apply with_content_id.
Qed.
Lemma nodeAtPath_put document path old v : wf_document document -> nodeAtPath document path = Some old -> nodeAtPath (put document path v) path = Some v.
Proof.
  intros [Hk (root & Hc & _)] Ho. rewrite (nodeAtPath_document _ _ _ Hk Hc) in Ho. unfold put, root_of, nodeAtPath. cbn. rewrite Hk, Hc.
  by eapply node_at_put.
Qed.
