(* ===== verification/NativeClassify.v ===== *)
(** What a native configuration holds (internal/nativeconfig/classify.go,
    secrets.go): every key is recognized or reported, managed fields are
    projected with their public values, dotenv fields are routed to the file
    that holds them, and absent fields are listed with their defaults. *)
From stdpp Require Import gmap strings.
From S2P Require Import Prelude.
From S2P Require Import GoText.
From S2P Require Import WsYaml.
From S2P Require Import IntegTypes.
From S2P Require Import IntegFields.
From S2P Require Import ConfTypes.
From S2P Require Import NativeYaml.

#[local] Open Scope string_scope.
#[local] Open Scope Z_scope.

(** ** What lego knows *)

Definition knownLeafPatterns : list (list string) :=
  [["storage"]; ["networkStack"]; ["userAgent"];
   ["servers"; "*"; "url"]; ["servers"; "*"; "tlsSkipVerify"];
   ["servers"; "*"; "overallRequestLimit"]; ["servers"; "*"; "httpTimeout"]; ["servers"; "*"; "certTimeout"];
   ["accounts"; "*"; "server"]; ["accounts"; "*"; "email"]; ["accounts"; "*"; "keyType"];
   ["accounts"; "*"; "acceptsTermsOfService"]; ["accounts"; "*"; "eab"; "kid"]; ["accounts"; "*"; "eab"; "hmacKey"];
   ["challenges"; "*"; "http"; "address"]; ["challenges"; "*"; "http"; "delay"];
   ["challenges"; "*"; "http"; "proxyHeader"]; ["challenges"; "*"; "http"; "webroot"];
   ["challenges"; "*"; "http"; "memcachedHosts"]; ["challenges"; "*"; "http"; "s3Bucket"];
   ["challenges"; "*"; "tls"; "address"]; ["challenges"; "*"; "tls"; "delay"];
   ["challenges"; "*"; "dns"; "provider"]; ["challenges"; "*"; "dns"; "dnsTimeout"];
   ["challenges"; "*"; "dns"; "resolvers"]; ["challenges"; "*"; "dns"; "envFile"];
   ["challenges"; "*"; "dns"; "propagation"; "disableAuthoritativeNameservers"];
   ["challenges"; "*"; "dns"; "propagation"; "disableRecursiveNameservers"];
   ["challenges"; "*"; "dns"; "propagation"; "wait"];
   ["challenges"; "*"; "dnsPersist"; "issuerDomainName"]; ["challenges"; "*"; "dnsPersist"; "persistUntil"];
   ["challenges"; "*"; "dnsPersist"; "dnsTimeout"]; ["challenges"; "*"; "dnsPersist"; "resolvers"];
   ["challenges"; "*"; "dnsPersist"; "propagation"; "disableAuthoritativeNameservers"];
   ["challenges"; "*"; "dnsPersist"; "propagation"; "disableRecursiveNameservers"];
   ["challenges"; "*"; "dnsPersist"; "propagation"; "wait"];
   ["certificates"; "*"; "domains"]; ["certificates"; "*"; "csr"]; ["certificates"; "*"; "keyType"];
   ["certificates"; "*"; "challenge"]; ["certificates"; "*"; "account"]; ["certificates"; "*"; "enableCommonName"];
   ["certificates"; "*"; "preferredChain"]; ["certificates"; "*"; "profile"];
   ["certificates"; "*"; "notBefore"]; ["certificates"; "*"; "notAfter"]; ["certificates"; "*"; "noBundle"];
   ["certificates"; "*"; "mustStaple"]; ["certificates"; "*"; "alwaysDeactivateAuthorizations"];
   ["certificates"; "*"; "renew"; "days"]; ["certificates"; "*"; "renew"; "reuseKey"];
   ["certificates"; "*"; "renew"; "disableRandomSleep"];
   ["certificates"; "*"; "renew"; "ari"; "disable"]; ["certificates"; "*"; "renew"; "ari"; "waitToRenewDuration"];
   ["certificates"; "*"; "pfx"; "password"]; ["certificates"; "*"; "pfx"; "format"];
   ["hooks"; "pre"; "command"]; ["hooks"; "pre"; "timeout"];
   ["hooks"; "deploy"; "command"]; ["hooks"; "deploy"; "timeout"];
   ["hooks"; "post"; "command"]; ["hooks"; "post"; "timeout"];
   ["log"; "level"]; ["log"; "format"]].
(** A path no longer than the pattern that agrees with it. *)
Fixpoint matches_pattern (pattern path : list string) : bool :=
  match path, pattern with
  | [], _ => true
  | x :: path, p :: pattern => (String.eqb p "*" || String.eqb p x) && matches_pattern pattern path
  | _ :: _, [] => false
  end.
Definition knownPrefix (path : list string) : bool := existsb (fun pattern => matches_pattern pattern path) knownLeafPatterns || bool_decide (path = []).
Definition knownLeaf (path : list string) : bool :=
  existsb (fun pattern => (blen path =? blen pattern) && matches_pattern pattern path) knownLeafPatterns.

Definition segment_pattern (s : SelectorSegment) : string := match s with YAMLKey key => key | YAMLBinding _ => "*" end.
Definition expected_kind (last : string) : FieldKind :=
  if bool_decide (last ∈ ["domains"; "memcachedHosts"; "resolvers"]) then FieldStringList
  else if bool_decide (last ∈ ["overallRequestLimit"; "httpTimeout"; "certTimeout"; "dnsTimeout"; "days"]) then FieldInteger
  else if bool_decide (last ∈ ["tlsSkipVerify"; "acceptsTermsOfService"; "disableAuthoritativeNameservers"; "disableRecursiveNameservers";
                               "enableCommonName"; "noBundle"; "mustStaple"; "alwaysDeactivateAuthorizations"; "reuseKey"; "disableRandomSleep"; "disable"])
  then FieldBoolean
  else FieldString.
Definition compatibleManifestField (s : FieldSpec) : bool :=
  let pattern := segment_pattern <$> fs_selector s in
  let last := default "" (last pattern) in
  knownLeaf pattern
  && (if bool_decide (fs_target s = TargetDotenv) then String.eqb last "envFile" && bool_decide (fs_kind s = FieldString)
      else bool_decide (fs_kind s = expected_kind last)).

(** ** Shapes *)

Definition mapping_entries (n : Node) : list (Node * Node) :=
  (fix pairs (l : list Node) : list (Node * Node) := match l with k :: v :: rest => (k, v) :: pairs rest | _ => [] end) (n_Content n).
(** The entries below a key of the root that holds a mapping. *)
Definition section (root : Node) (key : string) : option Node :=
  match mappingValue root key with Some n => if bool_decide (n_Kind n = MappingNode) then Some n else None | None => None end.
Definition has_key (n : Node) (key : string) : bool := bool_decide (is_Some (mappingValue n key)).

Definition unsupported_challenge (allowCoreDNS : bool) (challenge : Node) : bool :=
  has_key challenge "tls" || has_key challenge "dnsPersist"
  || match mappingValue challenge "dns" with
     | Some dns =>
         negb allowCoreDNS
         || match mappingValue dns "provider" with
            | Some provider => negb (bool_decide (n_Kind provider = ScalarNode)) || negb (SupportsCoreDNSProvider (n_Value provider))
            | None => true
            end
     | None => false
     end
  || match mappingValue challenge "http" with Some http => has_key http "memcachedHosts" || has_key http "s3Bucket" | None => false end.
(** The names of the entries of a section that satisfy a test. *)
Definition named_mappings (test : Node -> bool) (section : option Node) : gset string :=
  match section with
  | None => ∅
  | Some n => list_to_set ((fun e => n_Value e.1) <$> List.filter (fun e => bool_decide (n_Kind e.2 = MappingNode) && test e.2) (mapping_entries n))
  end.
Definition unsupportedChallengeBindings (root : Node) (allowCoreDNS : bool) : gset string :=
  named_mappings (unsupported_challenge allowCoreDNS) (section root "challenges").
Definition unsupportedCertificateBindings (root : Node) : gset string :=
  named_mappings (fun certificate => has_key certificate "csr" || has_key certificate "pfx") (section root "certificates").

Definition challenge_at (root : Node) (name : string) : option Node := challenges ← section root "challenges"; section challenges name.
Definition dnsProviderForChallenge (root : Node) (name : string) : string :=
  default "" (
    challenge ← challenge_at root name;
    dns ← section challenge "dns";
    provider ← mappingValue dns "provider";
    if bool_decide (n_Kind provider = ScalarNode) && String.eqb (n_Tag provider) "!!str" then Some (n_Value provider) else None).
Definition nativeChallengeKind (root : Node) (name : string) : string :=
  match challenge_at root name with
  | Some challenge => if has_key challenge "http" then "http" else if has_key challenge "dns" then "dns" else ""
  | None => ""
  end.

Definition implicitHTTPChallengeBindings (root : Node) : list string :=
  if match mappingValue root "challenges" with Some challenges => has_key challenges "http-01" | None => false end then []
  else
    match section root "certificates" with
    | None => []
    | Some certificates =>
        let unsupported := unsupportedCertificateBindings root in
        let selects e := negb (bool_decide (n_Value e.1 ∈ unsupported))
                         && match mappingValue e.2 "challenge" with
                            | Some challenge => bool_decide (n_Kind challenge = ScalarNode) && String.eqb (n_Value challenge) "http-01"
                            | None => false
                            end in
        if existsb selects (mapping_entries certificates) then ["http-01"] else []
    end.
(** The certificates that get the only challenge, which is unsupported. *)
Definition implicitUnsupportedCertificateChallenges (root : Node) (unsupported : gset string) : gmap string string :=
  match section root "challenges", section root "certificates" with
  | Some challenges, Some certificates =>
      match mapping_entries challenges with
      | [(name, _)] =>
          if negb (bool_decide (n_Value name ∈ unsupported)) then ∅
          else
            let skipped := unsupportedCertificateBindings root in
            list_to_map ((fun e => (n_Value e.1, n_Value name)) <$>
              List.filter (fun e => bool_decide (n_Kind e.2 = MappingNode) && negb (bool_decide (n_Value e.1 ∈ skipped)) && negb (has_key e.2 "challenge"))
                (mapping_entries certificates))
      | _ => ∅
      end
  | _, _ => ∅
  end.

(** ** Fields and their bindings *)

Definition projectionKey (id : FieldID) (bindings : list Binding) : bytes :=
  (to_bytes id ++ (bindings ≫= fun b => zero :: to_bytes (bd_ID b) ++ "="%char :: to_bytes (bd_Value b)))%list.
Definition orderedBindings (s : FieldSpec) (values : gmap BindingID string) : list Binding :=
  (fun id => mk_binding id (default "" (values !! id))) <$> fs_bindings s.
Definition challenge_part (s : FieldSpec) (part : string) : bool :=
  match fs_selector s with
  | YAMLKey first :: YAMLBinding binding :: YAMLKey third :: _ => String.eqb first "challenges" && String.eqb binding BindingChallenge && String.eqb third part
  | _ => false
  end.
Definition isHTTPChallengeSpec (s : FieldSpec) : bool := challenge_part s "http".
Definition isDNSChallengeSpec (s : FieldSpec) : bool := challenge_part s "dns".
Definition suppressUnsupportedHTTPProjection (s : FieldSpec) (bindings : gmap BindingID string) (unsupported : gset string) : bool :=
  match bindings !! BindingChallenge with Some challenge => bool_decide (challenge ∈ unsupported) && isHTTPChallengeSpec s | None => false end.
Definition suppressUnsupportedCertificateProjection (s : FieldSpec) (bindings : gmap BindingID string) (unsupported : gset string) : bool :=
  match bindings !! BindingCertificate with
  | Some certificate =>
      bool_decide (certificate ∈ unsupported)
      && match fs_selector s with
         | YAMLKey first :: YAMLBinding binding :: _ => String.eqb first "certificates" && String.eqb binding BindingCertificate
         | _ => false
         end
  | None => false
  end.

Section Classify.
Context `{YamlCodec}.

Definition integrationValue (kind : FieldKind) (n : Node) : option Value :=
  let scalar tag := bool_decide (n_Kind n = ScalarNode) && String.eqb (n_Tag n) tag in
  match kind with
  | FieldString => if scalar "!!str" then Some (StringValue (n_Value n)) else None
  | FieldBoolean => if scalar "!!bool" then BooleanValue <$> decode_bool n else None
  | FieldInteger => if scalar "!!int" then IntegerValue <$> decode_int64 n else None
  | FieldStringList =>
      if bool_decide (n_Kind n = SequenceNode) && forallb (fun c => bool_decide (n_Kind c = ScalarNode) && String.eqb (n_Tag c) "!!str") (n_Content n)
      then Some (StringListValue (n_Value <$> n_Content n)) else None
  | OtherKind _ => None
  end.
Definition is_secret (s : FieldSpec) : bool := bool_decide (fs_sensitivity s = SensitivitySecret).
(** The field a node is read as, and whether its value keeps the contract. *)
Definition projectedFromNode (s : FieldSpec) (bindings : gmap BindingID string) (n : Node) : option (ProjectedField * bool) :=
  v ← integrationValue (fs_kind s) n;
  Some (mk_field (fs_id s) (orderedBindings s bindings) (fs_label s) (fs_kind s) true false true true (is_secret s) (if is_secret s then None else Some v),
        is_ok (ValidateValue s v)).

(** ** The engine, as far as classification sees it *)

Context (manifest : Manifest) (limits : Limits).
Definition usesCoreSemantics : bool := bool_decide (mf_id manifest ∈ [CoreManifestID; CoreDNSManifestID; CloudDNSManifestID]).
Definition supportsCoreDNS : bool := bool_decide (mf_id manifest ∈ [CoreDNSManifestID; CloudDNSManifestID]).

Record fieldMatch := mk_match { fm_spec : FieldSpec; fm_bindings : gmap BindingID string }.
Definition matchingFields (path : list string) (target : FieldTarget) : list fieldMatch :=
  omap (fun s => if bool_decide (fs_target s = target) then mk_match s <$> Match s path else None) (Fields manifest).
Definition filterProviderFields (root : Node) (matches : list fieldMatch) : list fieldMatch :=
  List.filter (fun m => match ProviderCodeForField (fs_id (fm_spec m)) with
                        | Some code => String.eqb (dnsProviderForChallenge root (default "" (fm_bindings m !! BindingChallenge))) code
                        | None => true
                        end) matches.

(** What the walk has collected. *)
Record collected := mk_collected {
  co_projection : list ProjectedField; co_routes : list DotenvRoute; co_issues : list Issue; co_seen : gset bytes; co_overflow : bool;
}.
Definition report (i : Issue) (c : collected) : collected :=
  mk_collected (co_projection c) (co_routes c) (appendIssue (co_issues c) (MaxIssues limits) i) (co_seen c) (co_overflow c).
Definition overflow (c : collected) : collected := mk_collected (co_projection c) (co_routes c) (co_issues c) (co_seen c) true.
Definition mark (key : bytes) (c : collected) : collected :=
  mk_collected (co_projection c) (co_routes c) (co_issues c) ({[key]} ∪ co_seen c) (co_overflow c).
Definition project (f : ProjectedField) (c : collected) : collected :=
  mk_collected (co_projection c ++ [f]) (co_routes c) (co_issues c) (co_seen c) (co_overflow c).
Definition route (r : DotenvRoute) (c : collected) : collected :=
  mk_collected (co_projection c) (co_routes c ++ [r]) (co_issues c) (co_seen c) (co_overflow c).
Definition full (c : collected) : bool := MaxProjectionFields limits <=? blen (co_projection c).
(** A field that is not there yet, if there is room. *)
Definition project_new (key : bytes) (f : ProjectedField) (c : collected) : collected :=
  if bool_decide (key ∈ co_seen c) then c else if full c then overflow c else mark key (project f c).

Definition issue_at (class : IssueClass) (path : list string) (key : Node) (summary : string) (blocksReplacement : bool) : Issue :=
  mk_issue class (pointer path) (n_Line key) (n_Column key) summary blocksReplacement true.
Definition not_recognized : string := "Field is not recognized by the admitted lego configuration model.".
Definition not_managed : string := "Field is recognized by lego but is not managed by this integration.".
Definition outside_value : string := "Field value is outside the curated integration contract.".

(** What is known of the whole document before the walk. *)
Record surroundings := mk_surroundings {
  su_root : Node; su_unsupportedHTTP : gset string; su_unsupportedCertificates : gset string; su_implicitUnsupported : gmap string string;
  su_implicitHTTP : list string;
}.
Definition surroundings_of (root : Node) : surroundings :=
  let unsupported := unsupportedChallengeBindings root supportsCoreDNS in
  mk_surroundings root unsupported (unsupportedCertificateBindings root) (implicitUnsupportedCertificateChallenges root unsupported)
    (implicitHTTPChallengeBindings root).
Definition suppressed (su : surroundings) (s : FieldSpec) (bindings : gmap BindingID string) : bool :=
  suppressUnsupportedHTTPProjection s bindings (su_unsupportedHTTP su)
  || suppressUnsupportedCertificateProjection s bindings (su_unsupportedCertificates su).

Definition project_yaml (su : surroundings) (s : FieldSpec) (bindings : gmap BindingID string) (path : list string) (key value : Node) (c : collected)
    : collected :=
  match projectedFromNode s bindings value with
  | Some (f, supported) =>
      if suppressed su s bindings then c
      else
        let identity := projectionKey (pf_FieldID f) (pf_Bindings f) in
        if supported then project_new identity f c
        else
          let f := mk_field (pf_FieldID f) (pf_Bindings f) (pf_Label f) (pf_Kind f) (pf_Present f) (pf_Defaulted f) false (pf_PresenceKnown f) (pf_Secret f) None in
          let c := report (issue_at IssueUnsupported path key outside_value false) (mark identity c) in
          if full c then overflow c else project f c
  | None => c
  end.
Definition project_dotenv (value : Node) (c : collected) (m : fieldMatch) : collected :=
  let s := fm_spec m in
  let bindings := orderedBindings s (fm_bindings m) in
  let f := mk_field (fs_id s) bindings (fs_label s) (fs_kind s) false false false false (is_secret s) None in
  let key := projectionKey (fs_id s) bindings in
  if bool_decide (key ∈ co_seen c) then c
  else if full c then overflow c
  else
    let c := mark key (project f c) in
    if bool_decide (n_Kind value = ScalarNode) && String.eqb (n_Tag value) "!!str" && negb (String.eqb (n_Value value) "")
    then route (mk_route (fs_id s) bindings (n_Value value) (fs_environmentKey s) (is_secret s) s) c else c.

Definition notableUnsupportedPath (path : list string) : bool :=
  match last path with
  | None => false
  | Some x => String.eqb x "provider" || match path with first :: _ :: third :: _ => String.eqb first "certificates" && String.eqb third "pfx" | _ => false end
  end.
(** One entry of a mapping: what it adds, and whether the walk goes on below it
    (under an unsupported ancestor or not). *)
Definition classify_entry (su : surroundings) (key value : Node) (path : list string) (unsupportedAncestor : bool) (c : collected) : collected * option bool :=
  if negb (knownPrefix path) then (report (issue_at IssueUnknown path key not_recognized true) c, None)
  else
    let yaml := MatchTarget manifest path TargetYAML in
    let dotenv := matchingFields path TargetDotenv in
    let c := match yaml with Some (s, bindings) => project_yaml su s bindings path key value c | None => c end in
    if bool_decide (is_Some yaml) && (blen dotenv =? 0) then (c, None)
    else if negb (blen dotenv =? 0) then (fold_left (project_dotenv value) (filterProviderFields (su_root su) dotenv) c, None)
    else
      let managedBelow := HasPathPrefixForTarget manifest path TargetYAML || HasPathPrefixForTarget manifest path TargetDotenv in
      let isContainer := bool_decide (n_Kind value = MappingNode) && negb (knownLeaf path) in
      let recognized := isContainer || knownLeaf path in
      let unsupported := issue_at IssueUnsupported path key not_managed false in
      let c := if unsupportedAncestor && notableUnsupportedPath path && recognized then report unsupported c else c in
      let begins := negb unsupportedAncestor && negb managedBelow && recognized in
      let c := if begins then report unsupported c else c in
      (c, if isContainer then Some (unsupportedAncestor || begins) else None).
Fixpoint walk (su : surroundings) (n : Node) (path : list string) (unsupportedAncestor : bool) (c : collected) : collected :=
  if (MaxIssues limits <=? blen (co_issues c)) || negb (bool_decide (n_Kind n = MappingNode)) then c
  else
    (fix entries (l : list Node) (c : collected) : collected :=
       match l with
       | key :: value :: rest =>
           let childPath := (path ++ [n_Value key])%list in
           let '(c, below) := classify_entry su key value childPath unsupportedAncestor c in
           entries rest (match below with Some childUnsupported => walk su value childPath childUnsupported c | None => c end)
       | _ => c
       end) (n_Content n) c.

(** ** Absent fields *)

Fixpoint bound_prefix (l : list SelectorSegment) : list SelectorSegment :=
  match l with
  | [] => []
  | s :: l => match s, bound_prefix l with YAMLKey _, [] => [] | _, l => s :: l end
  end.
Fixpoint binding_sets (s : FieldSpec) (selector : list SelectorSegment) (n : Node) (values : gmap BindingID string) : list (list Binding) :=
  match selector with
  | [] => if is_ok (Resolve s values) then [orderedBindings s values] else []
  | segment :: selector =>
      if negb (bool_decide (n_Kind n = MappingNode)) then []
      else
        match segment with
        | YAMLKey key => match mappingValue n key with Some child => binding_sets s selector child values | None => [] end
        | YAMLBinding b =>
            mapping_entries n ≫= fun e =>
              if bool_decide (n_Kind e.1 = ScalarNode) then binding_sets s selector e.2 (<[b := n_Value e.1]> values) else []
        end
  end.
Definition bindingSetsForSpec (root : Node) (s : FieldSpec) : list (list Binding) :=
  match bound_prefix (fs_selector s) with [] => [] | selector => binding_sets s selector root ∅ end.

Definition with_implicit (su : surroundings) (s : FieldSpec) (sets : list (list Binding)) : list (list Binding) :=
  if isHTTPChallengeSpec s
  then fold_left (fun sets challenge => let b := [mk_binding BindingChallenge challenge] in if bool_decide (b ∈ sets) then sets else sets ++ [b])%list
         (su_implicitHTTP su) sets
  else sets.
Definition absent_field (su : surroundings) (s : FieldSpec) (bindings : list Binding) (values : gmap BindingID string) : ProjectedField :=
  let f := mk_field (fs_id s) bindings (fs_label s) (fs_kind s) false false false (bool_decide (fs_target s = TargetYAML)) (is_secret s) None in
  let defaulted f value := mk_field (pf_FieldID f) (pf_Bindings f) (pf_Label f) (pf_Kind f) (pf_Present f) true true (pf_PresenceKnown f) (pf_Secret f) value in
  let f := if String.eqb (fs_id s) FieldCertificateChallenge then
             match su_implicitUnsupported su !! default "" (values !! BindingCertificate) with
             | Some challenge => defaulted f (Some (StringValue challenge))
             | None => f
             end
           else f in
  match fs_default s with Some v => defaulted f (if pf_Secret f then pf_value f else Some v) | None => f end.
Definition add_absent (su : surroundings) (s : FieldSpec) (c : collected) (bindings : list Binding) : collected :=
  let values := fold_left (fun m b => <[bd_ID b := bd_Value b]> m) bindings ∅ in
  let challenge := default "" (values !! BindingChallenge) in
  let kind := nativeChallengeKind (su_root su) challenge in
  let kind := if String.eqb kind "" && bool_decide (challenge ∈ su_implicitHTTP su) then "http" else kind in
  if (isHTTPChallengeSpec s && negb (String.eqb kind "http")) || (isDNSChallengeSpec s && negb (String.eqb kind "dns")) then c
  else if match ProviderCodeForField (fs_id s) with Some code => negb (String.eqb (dnsProviderForChallenge (su_root su) challenge) code) | None => false end then c
  else if suppressed su s values then c
  else project_new (projectionKey (fs_id s) bindings) (absent_field su s bindings values) c.
Definition add_absent_fields (su : surroundings) (c : collected) (s : FieldSpec) : collected :=
  let sets := if blen (fs_bindings s) =? 0 then [[]] else with_implicit su s (bindingSetsForSpec (su_root su) s) in
  fold_left (add_absent su s) sets c.

Definition field_le (a b : ProjectedField) : bool := text_le (projectionKey (pf_FieldID a) (pf_Bindings a)) (projectionKey (pf_FieldID b) (pf_Bindings b)).
Definition route_le (a b : DotenvRoute) : bool := text_le (projectionKey (rt_fieldID a) (rt_bindings a)) (projectionKey (rt_fieldID b) (rt_bindings b)).
(** The projection, the routes, the issues and whether a field found no room. *)
Definition projectAndClassify (document : Node) : list ProjectedField * list DotenvRoute * list Issue * bool :=
  let root := root_of document in
  let su := surroundings_of root in
  let c := walk su root [] false (mk_collected [] [] [] ∅ false) in
  let c := fold_left (add_absent_fields su) (Fields manifest) c in
  (sort_by field_le (co_projection c), sort_by route_le (co_routes c), co_issues c, co_overflow c).

(** ** Secrets *)

Definition add_distinct (l : list bytes) (value : bytes) : list bytes := if bool_decide (value ∈ l) then l else (l ++ [value])%list.
Definition entry_secrets (path : list string) (value : Node) (found : list bytes) : list bytes :=
  fold_left (fun found m =>
    if is_secret (fm_spec m) && bool_decide (n_Kind value = ScalarNode) && String.eqb (n_Tag value) "!!str" && negb (String.eqb (n_Value value) "")
    then add_distinct found (to_bytes (n_Value value)) else found) (matchingFields path TargetYAML) found.
Fixpoint secrets_below (n : Node) (path : list string) (found : list bytes) : list bytes :=
  if bool_decide (n_Kind n = MappingNode) then
    (fix entries (l : list Node) (found : list bytes) : list bytes :=
       match l with
       | key :: value :: rest =>
           entries rest (if bool_decide (n_Kind key = ScalarNode) && String.eqb (n_Tag key) "!!str"
                         then secrets_below value (path ++ [n_Value key])%list (entry_secrets (path ++ [n_Value key])%list value found) else found)
       | _ => found
       end) (n_Content n) found
  else
    (fix children (l : list Node) (found : list bytes) : list bytes :=
       match l with child :: rest => children rest (secrets_below child path found) | [] => found end) (n_Content n) found.
Definition ObservedSecrets (source : bytes) : result NativeCode (list bytes) :=
  document ← parseDocument source limits;
  Ok (secrets_below (root_of document) [] []).
End Classify.
