(* ===== verification/NativeSemantic.v ===== *)
(** The semantics of a native configuration (internal/nativeconfig/semantic.go,
    core_semantic.go): lego's own defaults and checks, and the curated contract
    of a managed workspace.  Decoding the document into the structures is the
    YAML package's work and is a parameter. *)
From stdpp Require Import gmap strings.
From S2P Require Import Prelude.
From S2P Require Import GoText.
From S2P Require Import GoTime.
From S2P Require Import GoDecode.
From S2P Require DotenvScan.
From S2P Require Import WsYaml.
From S2P Require Import Tokens.
From S2P Require Import IntegTypes.
From S2P Require Import IntegFields.
From S2P Require Import ConfTypes.
From S2P Require Import ConfDotenv.
From S2P Require Import ConfExecution.
From S2P Require Import NativeYaml.
From S2P Require Import NativeClassify.

#[local] Open Scope string_scope.
#[local] Open Scope Z_scope.

(** ** The structures *)

Record nativeServer := mk_server { ns_URL : string; ns_TLSSkipVerify : bool; ns_OverallRequestLimit : Z; ns_HTTPTimeout : Z; ns_CertTimeout : Z }.
Record nativeExternalBinding := mk_external_binding { eb_KID : string; eb_HMACKey : string }.
Record nativeAccount := mk_account {
  na_ID : string; na_Server : string; na_Email : string; na_KeyType : string; na_AcceptsTermsOfService : bool;
  na_ExternalAccountBinding : option nativeExternalBinding;
}.
Record nativeHTTPChallenge := mk_http {
  nh_Address : string; nh_Delay : Z; nh_ProxyHeader : string; nh_Webroot : string; nh_MemcachedHosts : list string; nh_S3Bucket : string;
}.
Record nativeTLSChallenge := mk_tls { nt_Address : string; nt_Delay : Z }.
Record nativePropagation := mk_propagation {
  np_DisableAuthoritativeNameservers : bool; np_DisableRecursiveNameservers : bool; np_Wait : Z;
}.
Record nativeDNSChallenge := mk_dns {
  nd_Provider : string; nd_Propagation : option nativePropagation; nd_DNSTimeout : Z; nd_Resolvers : list string; nd_EnvFile : string;
}.
Record nativeDNSPersistChallenge := mk_dns_persist {
  nq_IssuerDomainName : string; nq_PersistUntil : time; nq_Propagation : option nativePropagation; nq_DNSTimeout : Z; nq_Resolvers : list string;
}.
Record nativeChallenge := mk_challenge {
  nc_ID : string; nc_HTTP : option nativeHTTPChallenge; nc_TLS : option nativeTLSChallenge; nc_DNS : option nativeDNSChallenge;
  nc_DNSPersist : option nativeDNSPersistChallenge;
}.
Record nativeARI := mk_ari { ar_Disable : bool; ar_WaitToRenewDuration : Z }.
Record nativeRenew := mk_renew { rn_ARI : option nativeARI; rn_Days : Z; rn_ReuseKey : bool; rn_DisableRandomSleep : bool }.
Record nativePFX := mk_pfx { px_Password : string; px_Format : string }.
Record nativeCertificate := mk_native_certificate {
  nx_ID : string; nx_Domains : list string; nx_CSR : string; nx_KeyType : string; nx_Challenge : string; nx_Account : string;
  nx_EnableCommonName : bool; nx_PreferredChain : string; nx_Profile : string; nx_NotBefore : time; nx_NotAfter : time; nx_NoBundle : bool;
  nx_MustStaple : bool; nx_AlwaysDeactivateAuthorizations : bool; nx_Renew : option nativeRenew; nx_PFX : option nativePFX;
}.
Record nativeHook := mk_hook { hk_Command : string; hk_Timeout : Z }.
Record nativeHooks := mk_hooks { hs_Pre : option nativeHook; hs_Deploy : option nativeHook; hs_Post : option nativeHook }.
Record nativeLog := mk_log { lg_Level : string; lg_Format : string }.
(** The entries of the maps are pointers: an entry can be nil. *)
Record nativeConfiguration := mk_configuration {
  cg_Storage : string; cg_NetworkStack : string; cg_UserAgent : string; cg_Servers : gmap string (option nativeServer);
  cg_Accounts : gmap string (option nativeAccount); cg_Challenges : gmap string (option nativeChallenge);
  cg_Certificates : gmap string (option nativeCertificate); cg_Hooks : option nativeHooks; cg_Log : option nativeLog;
}.
(** [Decode] of the root of a document. *)
Class ConfigurationDecoder := { decode_configuration : Node -> option nativeConfiguration }.

(** ** Defaults *)

Definition defaultAccountID : string := "noemail@example.com".
Definition defaultDirectory : string := "https://acme-v02.api.letsencrypt.org/directory".
Definition or_default (text fallback : string) : string := if String.eqb text "" then fallback else text.

Definition default_server (s : nativeServer) : nativeServer :=
  mk_server (ns_URL s) (ns_TLSSkipVerify s) (if ns_OverallRequestLimit s <=? 0 then 18 else ns_OverallRequestLimit s) (ns_HTTPTimeout s) (ns_CertTimeout s).
Definition default_account (id : string) (a : nativeAccount) : nativeAccount :=
  mk_account id (or_default (na_Server a) defaultDirectory) (na_Email a) (or_default (na_KeyType a) "EC256") (na_AcceptsTermsOfService a)
    (na_ExternalAccountBinding a).
Definition default_challenge (id : string) (c : nativeChallenge) : nativeChallenge :=
  mk_challenge id
    ((fun h => mk_http (or_default (nh_Address h) ":80") (nh_Delay h) (nh_ProxyHeader h) (nh_Webroot h) (nh_MemcachedHosts h) (nh_S3Bucket h)) <$> nc_HTTP c)
    ((fun t => mk_tls (or_default (nt_Address t) ":443") (nt_Delay t)) <$> nc_TLS c) (nc_DNS c) (nc_DNSPersist c).
Definition nativeDefaultAccount (accounts : gmap string (option nativeAccount)) : string :=
  match map_to_list accounts with [] => defaultAccountID | [(account, _)] => account | _ => "" end.

(** The built-in challenges a certificate can name. *)
Definition builtin_challenge (name : string) : option nativeChallenge :=
  if String.eqb name "http-01" then Some (mk_challenge "" (Some (mk_http ":80" 0 "" "" [] "")) None None None)
  else if String.eqb name "tls-alpn-01" then Some (mk_challenge "" None (Some (mk_tls ":443" 0)) None None)
  else if String.eqb name "dns-persist-01" then Some (mk_challenge "" None None None (Some (mk_dns_persist "" zero_time None 0 [])))
  else None.
Definition maps : Type := gmap string (option nativeAccount) * gmap string (option nativeChallenge) * gmap string (option nativeCertificate).
(** The defaults of one certificate; its account and its challenge may be added
    to the configuration. *)
Definition default_certificate (defaultAccount : string) (m : maps) (id : string) (c : nativeCertificate) : maps :=
  let '(accounts, challenges, certificates) := m in
  let account := or_default (nx_Account c) defaultAccount in
  let accounts := if String.eqb account defaultAccountID && bool_decide (accounts !! defaultAccountID = None)
                  then <[defaultAccountID := Some (mk_account "" defaultDirectory "" "EC256" false None)]> accounts else accounts in
  let keyType := if String.eqb (nx_KeyType c) "" then
                   match accounts !! account with Some (Some a) => or_default (na_KeyType a) "EC256" | _ => "EC256" end
                 else nx_KeyType c in
  let renew := default (mk_renew None 0 false false) (nx_Renew c) in
  let renew := mk_renew (Some (default (mk_ari false 0) (rn_ARI renew))) (rn_Days renew) (rn_ReuseKey renew) (rn_DisableRandomSleep renew) in
  let '(challenges, challenge) :=
    match builtin_challenge (nx_Challenge c) with
    | Some builtin => (if bool_decide (challenges !! nx_Challenge c = None) then <[nx_Challenge c := Some builtin]> challenges else challenges, nx_Challenge c)
    | None =>
        (challenges, if String.eqb (nx_Challenge c) "" then match map_to_list challenges with [(challenge, _)] => challenge | _ => "" end
                     else nx_Challenge c)
    end in
  (accounts, challenges,
   <[id := Some (mk_native_certificate id (nx_Domains c) (nx_CSR c) keyType challenge account (nx_EnableCommonName c) (nx_PreferredChain c) (nx_Profile c)
                   (nx_NotBefore c) (nx_NotAfter c) (nx_NoBundle c) (nx_MustStaple c) (nx_AlwaysDeactivateAuthorizations c) (Some renew) (nx_PFX c))]> certificates).
Definition default_hook (h : nativeHook) : nativeHook :=
  mk_hook (hk_Command h) (if negb (String.eqb (hk_Command h) "") && (hk_Timeout h =? 0) then 120000000000 else hk_Timeout h).
(** The certificates are visited in the order of the map. *)
Definition applyNativeDefaults `{MapOrder} (c : nativeConfiguration) : nativeConfiguration :=
  let accounts := map_imap (fun id a => Some (option_map (default_account id) a)) (cg_Accounts c) in
  let challenges := map_imap (fun id a => Some (option_map (default_challenge id) a)) (cg_Challenges c) in
  let '(accounts, challenges, certificates) :=
    fold_left (fun m entry => match entry.2 with Some certificate => default_certificate (nativeDefaultAccount accounts) m entry.1 certificate | None => m end)
      (iterate (map_to_list (cg_Certificates c))) (accounts, challenges, cg_Certificates c) in
  mk_configuration (or_default (cg_Storage c) ".lego") (cg_NetworkStack c) (cg_UserAgent c) (option_map default_server <$> cg_Servers c)
    accounts challenges certificates
    (option_map (fun h => mk_hooks (option_map default_hook (hs_Pre h)) (option_map default_hook (hs_Deploy h)) (option_map default_hook (hs_Post h))) (cg_Hooks c)) (cg_Log c).

(** ** The checks of the source model *)

(** A finding: where it is and what it says; at most [limit] become issues. *)
Definition finding : Type := list string * string.
Definition when (b : bool) (path : list string) (summary : string) : list finding := if b then [(path, summary)] else [].
Definition issues_of (document : Node) (limit : Z) (blocksReplacement : bool) (l : list (IssueClass * finding)) : list Issue :=
  (fun '(class, (path, summary)) => let '(line, column) := position document path in mk_issue class (pointer path) line column summary blocksReplacement true)
  <$> take (Z.to_nat limit) l.
Definition sortedKeys {A} (m : gmap string A) : list string := sort_by id_le (fst <$> map_to_list m).
(** The findings of every entry of a map, in the order of the keys. *)
Definition over {A} (m : gmap string A) (f : string -> A -> list finding) : list finding :=
  sortedKeys m ≫= fun name => match m !! name with Some a => f name a | None => [] end.
Definition blank (name : string) : bool := bool_decide (DotenvScan.TrimSpace (to_bytes name) = []).

Definition supportedKeyType (value : string) : bool := bool_decide (value ∈ ["EC256"; "EC384"; "RSA2048"; "RSA3072"; "RSA4096"; "RSA8192"]).
Definition supportedPFX (value : string) : bool := bool_decide (value ∈ ["DES"; "RC2"; "SHA256"; "PBMAC1"]).
Definition validatePropagation (path : list string) (p : option nativePropagation) : list finding :=
  match p with
  | None => []
  | Some p =>
      if np_Wait p =? 0 then []
      else
        when (np_Wait p <? 0) (path ++ ["wait"]) "Propagation wait must be positive."
        ++ when (np_DisableAuthoritativeNameservers p) path "Propagation wait and authoritative-nameserver disabling are mutually exclusive."
        ++ when (np_DisableRecursiveNameservers p) path "Propagation wait and recursive-nameserver disabling are mutually exclusive."
  end%list.
Definition is_none {A} (o : option A) : bool := match o with None => true | Some _ => false end.
Definition challenge_findings (name : string) (c : option nativeChallenge) : list finding :=
  let base := ["challenges"; name] in
  (when (blank name) base "Challenge name must not be empty."
   ++ match c with
      | None => when true base "Challenge configuration must be an object."
      | Some c =>
          when (is_none (nc_HTTP c) && is_none (nc_TLS c) && is_none (nc_DNS c) && is_none (nc_DNSPersist c)) base "At least one challenge type must be defined."
          ++ match nc_DNS c with
             | None => []
             | Some d =>
                 when (String.eqb (nd_Provider d) "") (base ++ ["dns"]) "DNS challenge provider is required."
                 ++ validatePropagation (base ++ ["dns"; "propagation"]) (nd_Propagation d)
             end
          ++ match nc_DNSPersist c with None => [] | Some d => validatePropagation (base ++ ["dnsPersist"; "propagation"]) (nq_Propagation d) end
      end)%list.
Definition certificate_findings (g : nativeConfiguration) (name : string) (c : option nativeCertificate) : list finding :=
  let base := ["certificates"; name] in
  (when (blank name) base "Certificate name must not be empty."
   ++ match c with
      | None => when true base "Certificate configuration must be an object."
      | Some c =>
          when ((blen (nx_Domains c) =? 0) && String.eqb (nx_CSR c) "") base "Certificate requires at least one domain or a CSR."
          ++ when ((0 <? blen (nx_Domains c)) && negb (String.eqb (nx_CSR c) "")) base "Certificate domains and CSR are mutually exclusive."
          ++ (if String.eqb (nx_Account c) "" then when true (base ++ ["account"]) "Certificate account is required."
              else when (is_none (cg_Accounts g !! nx_Account c)) (base ++ ["account"]) "Certificate references an account that is not configured.")
          ++ (if String.eqb (nx_Challenge c) "" then when true (base ++ ["challenge"]) "Certificate challenge is required."
              else when (is_none (cg_Challenges g !! nx_Challenge c)) (base ++ ["challenge"]) "Certificate references a challenge that is not configured.")
          ++ when (negb (supportedKeyType (nx_KeyType c))) (base ++ ["keyType"]) "Certificate key type is not supported by the admitted lego source model."
          ++ when (match nx_PFX c with Some p => negb (supportedPFX (px_Format p)) | None => false end) (base ++ ["pfx"; "format"])
               "Certificate PFX format is not supported by the admitted lego source model."
      end)%list.
Definition account_findings (name : string) (a : option nativeAccount) : list finding :=
  let base := ["accounts"; name] in
  (when (blank name) base "Account name must not be empty."
   ++ match a with
      | None => when true base "Account configuration must be an object."
      | Some a =>
          when (negb (supportedKeyType (na_KeyType a))) (base ++ ["keyType"]) "Account key type is not supported by the admitted lego source model."
          ++ when (match na_ExternalAccountBinding a with Some b => String.eqb (eb_KID b) "" || String.eqb (eb_HMACKey b) "" | None => false end)
               (base ++ ["eab"]) "External Account Binding requires both KID and HMAC key."
      end)%list.
Definition semantic_findings (g : nativeConfiguration) : list finding :=
  (when (match cg_Log g with
         | Some l => negb (bool_decide (lg_Format l ∈ [""; "text"; "json"; "colored"]))
         | None => false
         end) ["log"; "format"] "Log format is not supported by the admitted lego source model."
   ++ when (bool_decide (cg_Challenges g = ∅)) ["challenges"] "At least one challenge configuration is required."
   ++ over (cg_Challenges g) challenge_findings
   ++ when (bool_decide (cg_Certificates g = ∅)) ["certificates"] "At least one certificate configuration is required."
   ++ over (cg_Certificates g) (certificate_findings g)
   ++ over (cg_Servers g) (fun name _ => when (blank name) ["servers"; name] "Server name must not be empty.")
   ++ when (bool_decide (cg_Accounts g = ∅)) ["accounts"] "At least one account configuration is required."
   ++ over (cg_Accounts g) account_findings)%list.
Definition validateSemantics `{MapOrder} `{ConfigurationDecoder} (document : Node) (limit : Z) : list Issue :=
  match decode_configuration (root_of document) with
  | None => [mk_issue IssueSemantic "/" 0 0 "Configuration cannot be decoded by the admitted lego source model." true true]
  | Some g => issues_of document limit true (pair IssueSemantic <$> semantic_findings (applyNativeDefaults g))
  end.

(** ** Texts of the curated contract *)

Definition maximumHTTPDelay : Z := 600000000000.
Definition maximumARIWait : Z := 600000000000.
Definition maximumDNSWait : Z := 600000000000.

Inductive caKind := caLetsEncrypt | caZeroSSL | caGoogleTrust | caSSLCom | caGoDaddy.
#[export] Instance caKind_eq_dec : EqDecision caKind.
Proof. solve_decision. Defined.
Definition GoDaddyDirectoryURL : string := "https://acme.godaddy.com/v1/acme/directory".
(** The accepted servers, each with its authority. *)
Definition acceptedCAServers : list (string * caKind) :=
  [("letsencrypt", caLetsEncrypt);
   ("letsencrypt-staging", caLetsEncrypt);
   ("https://acme-v02.api.letsencrypt.org/directory", caLetsEncrypt);
   ("https://acme-staging-v02.api.letsencrypt.org/directory", caLetsEncrypt);
   ("zerossl", caZeroSSL);
   ("https://acme.zerossl.com/v2/DV90", caZeroSSL);
   ("googletrust", caGoogleTrust);
   ("googletrust-staging", caGoogleTrust);
   ("https://dv.acme-v02.api.pki.goog/directory", caGoogleTrust);
   ("https://dv.acme-v02.test-api.pki.goog/directory", caGoogleTrust);
   ("sslcomrsa", caSSLCom);
   ("sslcomecc", caSSLCom);
   ("https://acme.ssl.com/sslcom-dv-rsa", caSSLCom);
   ("https://acme.ssl.com/sslcom-dv-ecc", caSSLCom);
   (GoDaddyDirectoryURL, caGoDaddy)].
Definition canonicalCAServerURLs : list (string * string) :=
  [("letsencrypt", "https://acme-v02.api.letsencrypt.org/directory");
   ("letsencrypt-staging", "https://acme-staging-v02.api.letsencrypt.org/directory");
   ("https://acme-v02.api.letsencrypt.org/directory", "https://acme-v02.api.letsencrypt.org/directory");
   ("https://acme-staging-v02.api.letsencrypt.org/directory", "https://acme-staging-v02.api.letsencrypt.org/directory");
   ("zerossl", "https://acme.zerossl.com/v2/DV90");
   ("https://acme.zerossl.com/v2/DV90", "https://acme.zerossl.com/v2/DV90");
   ("googletrust", "https://dv.acme-v02.api.pki.goog/directory");
   ("googletrust-staging", "https://dv.acme-v02.test-api.pki.goog/directory");
   ("https://dv.acme-v02.api.pki.goog/directory", "https://dv.acme-v02.api.pki.goog/directory");
   ("https://dv.acme-v02.test-api.pki.goog/directory", "https://dv.acme-v02.test-api.pki.goog/directory");
   ("sslcomrsa", "https://acme.ssl.com/sslcom-dv-rsa");
   ("sslcomecc", "https://acme.ssl.com/sslcom-dv-ecc");
   ("https://acme.ssl.com/sslcom-dv-rsa", "https://acme.ssl.com/sslcom-dv-rsa");
   ("https://acme.ssl.com/sslcom-dv-ecc", "https://acme.ssl.com/sslcom-dv-ecc");
   (GoDaddyDirectoryURL, GoDaddyDirectoryURL)].
Definition entry_of {A} (l : list (string * A)) (key : string) : option A := snd <$> List.find (fun p => String.eqb p.1 key) l.

Definition asciiAlphaNumeric (r : Z) : bool :=
  ((97 <=? r) && (r <=? 122)) || ((65 <=? r) && (r <=? 90)) || ((48 <=? r) && (r <=? 57)).
Definition validManagedEntityName (value : string) : bool :=
  let l := runes (to_bytes value) in
  negb (String.eqb value "") && (slen value <=? 64)
  && match l with first :: _ => asciiAlphaNumeric first | [] => true end
  && forallb (fun r => asciiAlphaNumeric r || (r =? 46) || (r =? 95) || (r =? 64) || (r =? 45)) l.

(** [base64.URLEncoding.DecodeString]: like the raw decoding, with the padding
    of the last group. *)
Definition pad : ascii := "="%char.
Definition DecodePadded (l : bytes) : option bytes :=
  let l := List.filter (fun c => negb (GoDecode.newline c)) l in
  let n := List.length l in
  if negb (Nat.eqb (n mod 4) 0) then None
  else
    let body := if bool_decide (drop (n - 2) l = [pad; pad]) then take (n - 2) l
                else if bool_decide (drop (n - 1) l = [pad]) then take (n - 1) l else l in
    values ← mapM (base64_value raw_url_encoding) body; lax_pack values.
Definition validEABHMAC (value : string) : bool :=
  match DecodeString (to_bytes value) with
  | Some decoded => negb (blen decoded =? 0)
  | None => match DecodePadded (to_bytes value) with Some decoded => negb (blen decoded =? 0) | None => false end
  end.

(** [net.SplitHostPort] *)
Fixpoint index_byte (c : ascii) (l : bytes) : option nat :=
  match l with [] => None | d :: l => if Ascii.eqb c d then Some O else Datatypes.S <$> index_byte c l end.
Definition last_index_byte (c : ascii) (l : bytes) : option nat :=
  match index_byte c (rev l) with Some i => Some (List.length l - 1 - i)%nat | None => None end.
Definition has_byte (c : ascii) (l : bytes) : bool := existsb (Ascii.eqb c) l.
Definition SplitHostPort (l : bytes) : option (bytes * bytes) :=
  i ← last_index_byte ":" l;
  '(host, after_host) ← match l with
    | "["%char :: _ =>
        close ← index_byte "]" l;
        if Nat.eqb (Datatypes.S close) i then Some (take (close - 1) (drop 1 l), (1%nat, Datatypes.S close)) else None
    | _ => if has_byte ":" (take i l) then None else Some (take i l, (O, O))
    end;
  if has_byte "[" (drop after_host.1 l) || has_byte "]" (drop after_host.2 l) then None
  else Some (host, drop (Datatypes.S i) l).
(** [strings.Trim] with two brackets. *)
Definition bracket (c : ascii) : bool := Ascii.eqb c "[" || Ascii.eqb c "]".
Fixpoint drop_brackets (l : bytes) : bytes := match l with c :: rest => if bracket c then drop_brackets rest else l | [] => [] end.
Definition trim_brackets (l : bytes) : bytes := rev (drop_brackets (rev (drop_brackets l))).
(** [strconv.Atoi] of a port, in its range. *)
Definition valid_port (l : bytes) : bool := match ParseInt l with Some port => (1 <=? port) && (port <=? 65535) | None => false end.

(** [textproto.CanonicalMIMEHeaderKey] *)
Definition token_char (c : ascii) : bool := is_alnum c || one_of "!#$%&'*+-.^_`|~" c.
Fixpoint canonical_key (upper : bool) (l : bytes) : bytes :=
  match l with
  | [] => []
  | c :: l =>
      let c := if upper && is_lower_ascii c then z2b (b2z c - 32) else if negb upper && is_upper_ascii c then z2b (b2z c + 32) else c in
      c :: canonical_key (Ascii.eqb c "-") l
  end.
Definition CanonicalMIMEHeaderKey (l : bytes) : bytes := if forallb token_char l then canonical_key true l else l.
Definition validProxyHeader (value : string) : bool :=
  let l := to_bytes value in
  negb (String.eqb value "") && (slen value <=? 64) && bool_decide (CanonicalMIMEHeaderKey l = l)
  && forallb (fun r => asciiAlphaNumeric r || existsb (fun c => b2z c =? r) (to_bytes "!#$%&'*+-.^_`|~")) (runes l).

Section Texts.
Context `{NetParsers}.

Definition sameDirectoryHost (left right : string) : bool :=
  match url_Parse (to_bytes left), url_Parse (to_bytes right) with
  | Some l, Some r => negb (bool_decide (u_Hostname l = [])) && bool_decide (u_Hostname l = u_Hostname r)
  | _, _ => false
  end.
Definition validAccountEmail (value : string) : bool :=
  let l := to_bytes value in
  negb (String.eqb value "") && (slen value <=? 254) && trimmed l
  && match mail_ParseAddress l with
     | Some (address, name) => bool_decide (address = l) && bool_decide (name = []) && has_byte "@" l
     | None => false
     end.
Definition is_address (l : bytes) : bool := bool_decide (is_Some (net_ParseIP l)).
Definition validHTTPAddress (value : string) : bool :=
  match SplitHostPort (to_bytes value) with
  | Some (host, port) => valid_port port && (bool_decide (host = []) || is_address host)
  | None => false
  end.
Definition hyphen_ended (label : bytes) : bool :=
  match label with c :: _ => Ascii.eqb c "-" | [] => false end || match last label with Some c => Ascii.eqb c "-" | None => false end.
Definition valid_label (label : bytes) : bool :=
  negb (blen label =? 0) && (blen label <=? 63) && negb (hyphen_ended label)
  && forallb (fun r => (r =? 45) || ((97 <=? r) && (r <=? 122)) || ((48 <=? r) && (r <=? 57))) (runes label).
(** Whether the name is canonical, and whether it starts with a wildcard. *)
Definition canonicalDNSName (value : bytes) : option bool :=
  if bool_decide (value = []) || negb (bool_decide (value = ToLower value)) || negb (trimmed value) || (253 <? blen value) then None
  else
    let wildcard := has_prefix (to_bytes "*.") value in
    let name := if wildcard then drop 2 value else value in
    if bool_decide (name = []) || has_byte "*" name || is_address name || match last name with Some c => Ascii.eqb c "." | None => false end then None
    else let labels := split_on "." name in if (blen labels <? 2) || negb (forallb valid_label labels) then None else Some wildcard.
Definition validDNSResolver (value : string) : bool :=
  let l := to_bytes value in
  if String.eqb value "" || (256 <? slen value) || negb (trimmed l) || has_byte "/" l then false
  else
    match SplitHostPort l with
    | Some (host, port) => valid_port port && (is_address host || bool_decide (is_Some (canonicalDNSName (ToLower host))))
    | None =>
        let host := if 1 <? blen (List.filter (Ascii.eqb ":") l) then trim_brackets l else l in
        is_address host || bool_decide (is_Some (canonicalDNSName (ToLower host)))
    end.
End Texts.

(** ** The curated contract *)

Section Constraints.
Context `{NetParsers} (document : Node).

Definition present (path : list string) : bool := bool_decide (is_Some (nodeAtPath document path)).
Definition missing (paths : list (list string)) (summary : string) : list finding := paths ≫= fun path => when (negb (present path)) path summary.
Definition anyNativePathPresent (prefix keys : list string) : bool := existsb (fun key => present (prefix ++ [key])%list) keys.

Definition validateCoreDNSChallenge (name : string) (d : nativeDNSChallenge) (creation : bool) : list finding :=
  let base := ["challenges"; name; "dns"] in
  (missing [base ++ ["provider"]] "Managed DNS-01 requires an explicit supported provider code."
   ++ when (negb (present (base ++ ["envFile"])) || String.eqb (nd_EnvFile d) "") (base ++ ["envFile"])
        "Managed DNS-01 requires one explicit provider credential file."
   ++ (if creation then
         missing [base ++ ["dnsTimeout"]] "New managed DNS-01 challenges require an explicit resolver timeout."
         ++ missing ((fun key => base ++ ["propagation"; key]) <$> ["disableAuthoritativeNameservers"; "disableRecursiveNameservers"; "wait"])
              "New managed DNS-01 challenges require explicit propagation behavior."
       else [])
   ++ when ((nd_DNSTimeout d <? 0) || (600 <? nd_DNSTimeout d)) (base ++ ["dnsTimeout"]) "DNS resolver timeout must be zero through 600 seconds."
   ++ when (existsb (fun resolver => negb (validDNSResolver resolver)) (nd_Resolvers d)) (base ++ ["resolvers"])
        "Recursive resolvers must be canonical DNS names or IP addresses with an optional port."
   ++ match nd_Propagation d with
      | None => []
      | Some p =>
          when ((np_Wait p <? 0) || (maximumDNSWait <? np_Wait p)) (base ++ ["propagation"; "wait"])
            "Fixed DNS propagation wait is outside the supported zero-to-ten-minute range."
          ++ when ((0 <? np_Wait p) && (np_DisableAuthoritativeNameservers p || np_DisableRecursiveNameservers p)) (base ++ ["propagation"])
               "A fixed propagation wait cannot be mixed with nameserver-check overrides."
      end)%list.

Definition requires_eab (kind : caKind) : bool := match kind with caGoogleTrust | caSSLCom | caGoDaddy => true | _ => false end.
Definition managed_account (creation : bool) (name : string) (account : option nativeAccount) : list finding :=
  match account with
  | None => []
  | Some a =>
      let base := ["accounts"; name] in
      (when (negb (validManagedEntityName name)) base "Account name is outside the collision- and traversal-safe managed identifier grammar."
       ++ missing [base ++ ["server"]] "Managed accounts must select an explicit supported ACME server."
       ++ (if creation then
             missing [base ++ ["keyType"]] "New managed accounts require an explicit account key type."
             ++ missing [base ++ ["acceptsTermsOfService"]] "New managed accounts require explicit terms acknowledgement."
           else [])
       ++ match entry_of acceptedCAServers (na_Server a) with
          | None => []
          | Some kind =>
              let eab := na_ExternalAccountBinding a in
              when (creation && negb (na_AcceptsTermsOfService a)) (base ++ ["acceptsTermsOfService"])
                "Managed accounts must explicitly accept the selected CA terms of service."
              ++ when (negb (String.eqb (na_Email a) "") && negb (validAccountEmail (na_Email a))) (base ++ ["email"])
                   "Account email must be one canonical mailbox address."
              ++ when (match eab with Some b => negb (validEABHMAC (eb_HMACKey b)) | None => false end) (base ++ ["eab"; "hmacKey"])
                   "External Account Binding HMAC must be URL-safe base64."
              ++ when (bool_decide (kind = caLetsEncrypt) && negb (is_none eab)) (base ++ ["eab"])
                   "Let's Encrypt managed presets do not accept retained External Account Binding credentials."
              ++ when (creation && bool_decide (kind = caLetsEncrypt) && negb (validAccountEmail (na_Email a))) (base ++ ["email"])
                   "Let's Encrypt account registration requires an account email."
              ++ when (creation && requires_eab kind && is_none eab) (base ++ ["eab"]) "The selected CA requires External Account Binding credentials."
              ++ when (creation && bool_decide (kind = caZeroSSL) && is_none eab && negb (validAccountEmail (na_Email a))) (base ++ ["email"])
                   "ZeroSSL email-assisted registration requires an account email when explicit EAB is absent."
          end)%list
  end.

Definition http_findings (name : string) (h : nativeHTTPChallenge) (creation : bool) : list finding :=
  let base := ["challenges"; name; "http"] in
  (when (negb (present (base ++ ["address"])) && negb (present (base ++ ["webroot"]) && negb (String.eqb (nh_Webroot h) ""))) base
     "Managed HTTP-01 must explicitly select a built-in listener address or a webroot."
   ++ (if creation then missing [base ++ ["delay"]] "New managed HTTP-01 challenges require an explicit validation delay." else [])
   ++ when (negb (validHTTPAddress (nh_Address h))) (base ++ ["address"])
        "HTTP-01 listener address must contain a literal IPv4 or bracketed IPv6 host and a nonzero port."
   ++ when ((nh_Delay h <? 0) || (maximumHTTPDelay <? nh_Delay h)) (base ++ ["delay"])
        "HTTP-01 validation delay is outside the supported zero-to-ten-minute range."
   ++ when (negb (String.eqb (nh_ProxyHeader h) "") && negb (validProxyHeader (nh_ProxyHeader h))) (base ++ ["proxyHeader"])
        "HTTP-01 proxy header must be Host, Forwarded, or one canonical HTTP header name."
   ++ when (negb (String.eqb (nh_Webroot h) "") && anyNativePathPresent base ["address"; "proxyHeader"]) base
        "HTTP-01 webroot mode cannot retain built-in listener address or proxy-header settings.")%list.
Definition managed_challenge (creation allowCoreDNS : bool) (unsupported referenced : gset string) (name : string) (challenge : option nativeChallenge)
    : list finding :=
  (when (negb (validManagedEntityName name)) ["challenges"; name]
     "Challenge name is outside the collision- and traversal-safe managed identifier grammar."
   ++ (if bool_decide (name ∈ unsupported) then
         when creation ["challenges"; name] "New managed challenges must use a supported HTTP-01 or curated DNS-01 integration."
       else if negb (present ["challenges"; name]) && negb (bool_decide (name ∈ referenced)) then []
       else
         match challenge with
         | None => []
         | Some c =>
             match nc_DNS c, nc_HTTP c with
             | Some d, h =>
                 if allowCoreDNS && SupportsCoreDNSProvider (nd_Provider d) then validateCoreDNSChallenge name d creation
                 else match h with
                      | Some h => http_findings name h creation
                      | None => when creation ["challenges"; name] "New managed challenges require an HTTP-01 or curated DNS-01 configuration."
                      end
             | None, Some h => http_findings name h creation
             | None, None => when creation ["challenges"; name] "New managed challenges require an HTTP-01 or curated DNS-01 configuration."
             end
         end))%list.

(** The findings on the names of a certificate, and whether one is a wildcard. *)
Fixpoint domain_findings (base : list string) (seen duplicates : gset string) (wildcard : bool) (domains : list string) : list finding * bool :=
  match domains with
  | [] => ([], wildcard)
  | domain :: domains =>
      match canonicalDNSName (to_bytes domain) with
      | None =>
          let '(l, w) := domain_findings base seen duplicates wildcard domains in
          ((base ++ ["domains"], "Certificate DNS names must be canonical ASCII host names with an optional leftmost wildcard.") :: l, w)%list
      | Some isWildcard =>
          let repeated := bool_decide (domain ∈ seen) && negb (bool_decide (domain ∈ duplicates)) in
          let '(l, w) := domain_findings base ({[domain]} ∪ seen) (if repeated then {[domain]} ∪ duplicates else duplicates) (wildcard || isWildcard) domains in
          (when repeated (base ++ ["domains"]) "Certificate DNS names must not contain duplicates." ++ l, w)%list
      end
  end.
Definition renewal_paths (base : list string) : list (list string) :=
  (fun path => base ++ "renew" :: path)%list <$> [["days"]; ["reuseKey"]; ["disableRandomSleep"]; ["ari"; "disable"]; ["ari"; "waitToRenewDuration"]].
Definition managed_certificate (g : nativeConfiguration) (creation allowCoreDNS : bool) (unsupportedChallenges implicitUnsupported unsupportedCertificates : gset string)
    (name : string) (certificate : option nativeCertificate) : list finding :=
  match certificate with
  | None => []
  | Some c =>
      let base := ["certificates"; name] in
      (when (negb (validManagedEntityName name)) base "Certificate name is outside the collision-safe managed identifier grammar."
       ++ (if bool_decide (name ∈ unsupportedCertificates) then []
           else
             missing [base ++ ["domains"]] "Managed certificates require explicit DNS names."
             ++ missing [base ++ ["account"]] "Managed certificates require an explicit account reference."
             ++ when (negb (present (base ++ ["challenge"])) && negb (bool_decide (nx_Challenge c ∈ unsupportedChallenges))) (base ++ ["challenge"])
                  "Managed certificates require an explicit challenge reference."
             ++ (if creation then
                   missing [base ++ ["keyType"]] "New managed certificates require an explicit certificate key type."
                   ++ missing (renewal_paths base) "New managed certificates require explicit renewal behavior."
                 else [])
             ++ (let selected := match cg_Challenges g !! nx_Challenge c with Some (Some s) => Some s | _ => None end in
                 when (match selected with
                       | Some s =>
                           let explicit := negb (is_none (nc_TLS s)) || negb (is_none (nc_DNSPersist s))
                                           || match nc_DNS s with Some d => negb allowCoreDNS || negb (SupportsCoreDNSProvider (nd_Provider d)) | None => false end in
                           is_none (nc_HTTP s) && negb (bool_decide (nx_Challenge c ∈ implicitUnsupported)) && negb explicit && is_none (nc_DNS s)
                       | None => false
                       end) (base ++ ["challenge"]) "Managed certificates must reference a supported HTTP-01 or DNS-01 challenge."
                 ++ let '(l, wildcard) := domain_findings base ∅ ∅ false (nx_Domains c) in
                    l ++ when (wildcard && match selected with Some s => negb (is_none (nc_HTTP s)) | None => false end) (base ++ ["challenge"])
                           "Wildcard certificates require DNS-01 and cannot use the HTTP-01 integration.")
             ++ match nx_Renew c with
                | None => []
                | Some r =>
                    when ((rn_Days r <? 0) || (365 <? rn_Days r)) (base ++ ["renew"; "days"]) "Renewal days must be between zero and 365."
                    ++ when (match rn_ARI r with
                             | Some a => (ar_WaitToRenewDuration a <? 0) || (maximumARIWait <? ar_WaitToRenewDuration a)
                             | None => false
                             end) (base ++ ["renew"; "ari"; "waitToRenewDuration"]) "Maximum ARI wait is outside the supported zero-to-ten-minute range."
                end))%list
  end.

Definition constraint (l : list finding) : list (IssueClass * finding) := pair IssueConstraint <$> l.
(** The built-in challenges outside the contract that the document leaves to
    the defaults. *)
Definition implicit_unsupported (challenges : gmap string (option nativeChallenge)) : list string :=
  List.filter (fun name =>
    negb (present ["challenges"; name])
    && match challenges !! name with
       | Some (Some c) => (String.eqb name "tls-alpn-01" && negb (is_none (nc_TLS c))) || (String.eqb name "dns-persist-01" && negb (is_none (nc_DNSPersist c)))
       | _ => false
       end) (sortedKeys challenges).
Definition referenced_challenges (certificates : gmap string (option nativeCertificate)) (unsupportedCertificates : gset string) : gset string :=
  list_to_set (omap (fun e => match e.2 with
                              | Some c => if bool_decide (e.1 ∈ unsupportedCertificates) || String.eqb (nx_Challenge c) "" then None else Some (nx_Challenge c)
                              | None => None
                              end) (map_to_list certificates)).
Definition core_findings (g : nativeConfiguration) (creation allowCoreDNS : bool) : list (IssueClass * finding) :=
  let root := root_of document in
  let unsupportedChallenges := unsupportedChallengeBindings root allowCoreDNS in
  let unsupportedCertificates := unsupportedCertificateBindings root in
  let implicit := implicit_unsupported (cg_Challenges g) in
  (constraint (
     (if creation then
        missing [["storage"]] "New managed workspaces require an explicit storage directory."
        ++ when (bool_decide (cg_Accounts g = ∅)) ["accounts"] "New managed workspaces require at least one ACME account."
        ++ when (bool_decide (cg_Challenges g = ∅)) ["challenges"] "New managed workspaces require at least one supported challenge."
        ++ when (bool_decide (cg_Certificates g = ∅)) ["certificates"] "New managed workspaces require at least one certificate."
      else []))
   ++ ((fun name => (IssueUnsupported, (["challenges"; name], "This implicit lego challenge is preserved but is outside the managed HTTP-01 integration."))) <$> implicit)
   ++ constraint (
        over (cg_Accounts g) (managed_account creation)
        ++ over (cg_Challenges g) (managed_challenge creation allowCoreDNS unsupportedChallenges (referenced_challenges (cg_Certificates g) unsupportedCertificates))
        ++ over (cg_Certificates g) (managed_certificate g creation allowCoreDNS unsupportedChallenges (list_to_set implicit) unsupportedCertificates)))%list.
Definition validateCoreConstraints `{MapOrder} `{ConfigurationDecoder} (limit : Z) (creation allowCoreDNS : bool) : list Issue :=
  match decode_configuration (root_of document) with
  | None => []
  | Some g => issues_of document limit false (core_findings (applyNativeDefaults g) creation allowCoreDNS)
  end.
End Constraints.

(** ** Transitions: what a new account, or a new server of an account, needs *)

Definition canonical_url (server : string) : string := default "" (entry_of canonicalCAServerURLs server).
Definition transition_findings `{NetParsers} (base : gmap string (option nativeAccount)) (eabReplacements : gmap string bool) (name : string)
    (account : option nativeAccount) : list finding :=
  match account with
  | None => []
  | Some a =>
      let existed := bool_decide (is_Some (base !! name)) in
      let priorURL := match base !! name with Some (Some prior) => canonical_url (na_Server prior) | _ => "" end in
      let currentURL := canonical_url (na_Server a) in
      if String.eqb currentURL "" || (existed && String.eqb priorURL currentURL) then []
      else
        let path := ["accounts"; name] in
        let kind := entry_of acceptedCAServers (na_Server a) in
        let served_by k := bool_decide (kind = Some k) in
        let eab := na_ExternalAccountBinding a in
        let requiresEAB := match kind with Some k => requires_eab k | None => false end in
        (when (negb (na_AcceptsTermsOfService a)) (path ++ ["acceptsTermsOfService"])
           "A new ACME account or server transition must explicitly accept the selected CA terms of service."
         ++ when (served_by caLetsEncrypt && negb (validAccountEmail (na_Email a))) (path ++ ["email"]) "A new Let's Encrypt account requires an account email."
         ++ when (requiresEAB && is_none eab) (path ++ ["eab"]) "A new account for the selected CA requires External Account Binding credentials."
         ++ when ((requiresEAB || negb (is_none eab)) && negb (default false (eabReplacements !! name))) (path ++ ["eab"])
              "A new account or server transition using EAB requires current KID and write-only HMAC inputs in this reviewed request."
         ++ when (served_by caZeroSSL && is_none eab && negb (validAccountEmail (na_Email a))) (path ++ ["email"])
              "A new ZeroSSL account requires an email when explicit EAB is absent."
         ++ when (existed && negb (String.eqb priorURL "") && negb (String.eqb priorURL currentURL) && sameDirectoryHost priorURL currentURL) (path ++ ["server"])
              "This server transition shares native account storage with the prior endpoint; create a distinct account name instead.")%list
  end.
Definition validateCoreTransition `{NetParsers} `{MapOrder} `{ConfigurationDecoder} (base candidate : Node) (eabReplacements : gmap string bool) (limit : Z)
    : list Issue :=
  match decode_configuration (root_of base), decode_configuration (root_of candidate) with
  | Some b, Some c =>
      let b := applyNativeDefaults b in
      let c := applyNativeDefaults c in
      issues_of candidate limit false (constraint (over (cg_Accounts c) (transition_findings (cg_Accounts b) eabReplacements)))
  | _, _ => []
  end.
