(* ===== verification/NativeEngine.v ===== *)
(** The native configuration engine (internal/nativeconfig/engine.go, api.go):
    it binds a schema and a manifest to a runtime, inspects a configuration and
    makes the candidate of an edit.  The compiler and the validator of JSON
    schemas are parameters. *)
From stdpp Require Import gmap strings.
From S2P Require Import Prelude.
From S2P Require Import GoText.
From S2P Require Import WsYaml.
From S2P Require Import Tokens.
From S2P Require Import IntegTypes.
From S2P Require Import IntegFields.
From S2P Require Compat.
From S2P Require Import ConfTypes.
From S2P Require Import ConfDotenv.
From S2P Require Import NativeYaml.
From S2P Require Import NativeClassify.
From S2P Require Import NativeSemantic.

#[local] Open Scope string_scope.
#[local] Open Scope Z_scope.

(** ** Schemas *)

(** A validation error: where, under which keyword, and its causes. *)
Inductive ValidationError := mk_validation_error { ve_InstanceLocation : list string; ve_KeywordPath : list string; ve_Causes : list ValidationError }.
Inductive validation := Valid | Violations (e : ValidationError) | OtherFailure.
(** [jsonschema]: reading JSON ([None] if it is malformed, otherwise the value
    of [$schema] in its root object), compiling without external resources
    ([None] on any error) with the draft that was found, and validating. *)
Class SchemaPackage := {
  json_root_schema : bytes -> option (option string);
  schema_compile : bytes -> option Z;
  schema_validate : bytes -> any -> validation;
}.

Record engine := mk_native_engine { eg_runtimeID : string; eg_manifest : Manifest; eg_schema : bytes; eg_limits : Limits }.

Definition normalize (value fallback : Z) : Z := if value =? 0 then fallback else value.
Definition normalizeLimits (l : Limits) : result NativeCode Limits :=
  let d := DefaultLimits in
  _ ← reject_if (existsb (fun n => n <? 0) [MaxBytes l; MaxNodes l; MaxDepth l; MaxIssues l; MaxProjectionFields l; MaxChanges l]) ErrorInvalidLimits;
  let l := mk_limits (normalize (MaxBytes l) (MaxBytes d)) (normalize (MaxNodes l) (MaxNodes d)) (normalize (MaxDepth l) (MaxDepth d))
             (normalize (MaxIssues l) (MaxIssues d)) (normalize (MaxProjectionFields l) (MaxProjectionFields d)) (normalize (MaxChanges l) (MaxChanges d)) in
  _ ← reject_if ((MaxNodes l <? MaxDepth l) || (MaxNodes l <? MaxIssues l) || (MaxNodes l <? MaxProjectionFields l)) ErrorInvalidLimits;
  Ok l.
Definition draft7 : string := "http://json-schema.org/draft-07/schema#".
Definition compileSchema `{SchemaPackage} (exactSchema : bytes) : result NativeCode bytes :=
  match json_root_schema exactSchema with
  | Some (Some schema) =>
      _ ← reject_if (negb (String.eqb schema draft7)) ErrorSchemaInvalid;
      match schema_compile exactSchema with
      | Some draft => _ ← reject_if (negb (draft =? 7)) ErrorSchemaInvalid; Ok exactSchema
      | None => Err ErrorSchemaInvalid
      end
  | _ => Err ErrorSchemaInvalid
  end.
Definition NewEngine `{SchemaPackage} `{Digests} (runtimeID : string) (exactSchema : bytes) (m : Manifest) (l : Limits)
    : result NativeCode engine :=
  limits ← normalizeLimits l;
  _ ← reject_if (String.eqb runtimeID "" || negb (SupportsRuntime m runtimeID)) ErrorRuntimeMismatch;
  _ ← reject_if (negb (forallb compatibleManifestField (Fields m))) ErrorManifestInvalid;
  _ ← reject_if ((blen exactSchema =? 0) || (Z.shiftl 8 20 <? blen exactSchema)) ErrorSchemaInvalid;
  match Compat.Lookup Compat.exactManifests runtimeID with
  | None => Err ErrorSchemaInvalid
  | Some runtimeManifest =>
      _ ← reject_if (negb (String.eqb (Compat.hex_digest exactSchema) (Compat.as_SHA256 (Compat.cp_Schema runtimeManifest)))) ErrorSchemaInvalid;
      schema ← compileSchema exactSchema;
      Ok (mk_native_engine runtimeID m schema limits)
  end.

(** ** Inspection *)

Section Engine.
Context `{YamlCodec} `{SchemaPackage} `{ConfigurationDecoder} `{Digests} `{NetParsers} `{MapOrder} (e : engine).
Abbreviation limits := (eg_limits e).
Abbreviation manifest := (eg_manifest e).

Definition violation (document : Node) (path : list string) (summary : string) : Issue :=
  let '(line, column) := position document path in mk_issue IssueSchema (pointer path) line column summary true true.
Definition keyword_of (v : ValidationError) : string := match last (ve_KeywordPath v) with Some k => or_default k "constraint" | None => "constraint" end.
(** The issues of the innermost causes, one for each place and keyword. *)
Fixpoint collect (document : Node) (v : ValidationError) (found : list Issue * gset bytes) : list Issue * gset bytes :=
  if MaxIssues limits <=? blen found.1 then found
  else
    match ve_Causes v with
    | [] =>
        let identity := (to_bytes (pointer (ve_InstanceLocation v)) ++ zero :: to_bytes (keyword_of v))%list in
        if bool_decide (identity ∈ found.2) then found
        else (found.1 ++ [violation document (ve_InstanceLocation v) ("Configuration violates the exact upstream schema (" +:+ keyword_of v +:+ ").")],
              {[identity]} ∪ found.2)%list
    | causes =>
        (fix all (l : list ValidationError) (found : list Issue * gset bytes) : list Issue * gset bytes :=
           match l with [] => found | cause :: l => all l (collect document cause found) end) causes found
    end.
Definition validateSchema (document : Node) (instance : any) : list Issue :=
  match schema_validate (eg_schema e) instance with
  | Valid => []
  | OtherFailure => [mk_issue IssueSchema "/" 0 0 "Configuration violates the exact upstream schema." true true]
  | Violations v => (collect document v ([], ∅)).1
  end.

Definition inspect (source : bytes) (creation : bool) : result NativeCode Inspection :=
  document ← parseDocument source limits;
  instance ← match nodeToAny (root_of document) with Some i => Ok i | None => Err ErrorMalformedYAML end;
  let schemaIssues := validateSchema document instance in
  let schemaValid := blen schemaIssues =? 0 in
  let semanticIssues := if schemaValid then validateSemantics document (MaxIssues limits) else [] in
  let semanticValid := schemaValid && (blen semanticIssues =? 0) in
  let constraintIssues := if semanticValid && usesCoreSemantics manifest
                          then validateCoreConstraints document (MaxIssues limits) creation (supportsCoreDNS manifest) else [] in
  let '(projection, routes, classification, projectionOverflow) := projectAndClassify manifest limits document in
  _ ← reject_if projectionOverflow ErrorStructureComplex;
  let issues := take (Z.to_nat (MaxIssues limits)) (schemaIssues ++ semanticIssues ++ constraintIssues ++ classification)%list in
  let replaceable := schemaValid && semanticValid in
  Ok (mk_inspection (Compat.hex_digest source) projection issues schemaValid semanticValid
        (replaceable && negb (existsb is_BlocksReplacement issues)) (replaceable && negb (existsb is_BlocksExecution issues)) routes (MaxIssues limits)).
Definition Inspect (source : bytes) : result NativeCode Inspection := inspect source false.
Definition InspectCreation (source : bytes) : result NativeCode Inspection := inspect source true.

(** ** Edits *)

Record preparedChange := mk_prepared_change {
  pg_spec : FieldSpec; pg_bindings : list Binding; pg_values : gmap BindingID string; pg_path : list string; pg_op : Operation; pg_value : Value;
}.
Definition invalid {A} : result NativeCode A := Err ErrorInvalidChange.
Fixpoint binding_values (values : gmap BindingID string) (l : list Binding) : result NativeCode (gmap BindingID string) :=
  match l with
  | [] => Ok values
  | b :: l =>
      _ ← reject_if (String.eqb (bd_ID b) "" || String.eqb (bd_Value b) "") ErrorInvalidChange;
      _ ← reject_if (bool_decide (is_Some (values !! bd_ID b))) ErrorInvalidChange;
      binding_values (<[bd_ID b := bd_Value b]> values) l
  end.
Definition normalizeBindings (s : FieldSpec) (supplied : list Binding) : result NativeCode (gmap BindingID string * list Binding) :=
  values ← binding_values ∅ supplied;
  match Resolve s values with
  | Ok (_ :: _) => Ok (values, orderedBindings s values)
  | _ => invalid
  end.
(** The checks of a value that is set. *)
Definition valid_set (s : FieldSpec) (v : Value) : bool :=
  is_ok (ValidateValue s v)
  && (if bool_decide (fs_target s = TargetDotenv) then
        match value_String v with Some text => is_ok (ValidateCoreDNSDotenvValue (fs_id s) (to_bytes text)) | None => false end
      else true).
Definition prepare_change (seen : gset bytes) (c : Change) : result NativeCode (preparedChange * gset bytes) :=
  match mf_fields manifest !! ch_FieldID c with
  | None => invalid
  | Some s =>
      _ ← reject_if (negb (Editable s)) ErrorInvalidChange;
      _ ← reject_if (match ch_Operation c with OtherOperation _ => true | _ => false end) ErrorInvalidChange;
      _ ← reject_if (bool_decide (ch_Operation c = OperationSet) && negb (valid_set s (ch_Value c))) ErrorInvalidChange;
      '(values, bindings) ← normalizeBindings s (ch_Bindings c);
      let identity := projectionKey (fs_id s) bindings in
      _ ← reject_if (bool_decide (identity ∈ seen)) ErrorInvalidChange;
      path ← map_err (fun _ => ErrorInvalidChange) (Resolve s values);
      Ok (mk_prepared_change s bindings values path (ch_Operation c) (ch_Value c), {[identity]} ∪ seen)
  end.
Fixpoint prepare_changes (seen : gset bytes) (l : list Change) : result NativeCode (list preparedChange) :=
  match l with
  | [] => Ok []
  | c :: l => '(p, seen) ← prepare_change seen c; rest ← prepare_changes seen l; Ok (p :: rest)
  end.

Definition coreEABReplacements (l : list preparedChange) : gmap string bool :=
  let sets := fold_left (fun m p =>
    let account := default "" (pg_values p !! BindingAccount) in
    if negb (bool_decide (pg_op p = OperationSet)) || String.eqb account "" then m
    else
      let '(kid, hmac) := default (false, false) (m !! account) in
      if String.eqb (fs_id (pg_spec p)) FieldAccountEABKID then <[account := (true, hmac)]> m
      else if String.eqb (fs_id (pg_spec p)) FieldAccountEABHMACKey then <[account := (kid, true)]> m
      else m) l (∅ : gmap string (bool * bool)) in
  (fun kh : bool * bool => kh.1 && kh.2) <$> sets.

Definition nodeFromIntegrationValue (v : Value) : result NativeCode Node := match v with NoValue => invalid | _ => Ok (encode_value v) end.
Definition preserve_depth (p : preparedChange) : Z :=
  if fs_pruneEmpty (pg_spec p) then blen (bound_prefix (fs_selector (pg_spec p))) else blen (pg_path p) - 1.
Definition applyYAMLChange (document : Node) (p : preparedChange) : result NativeCode edit :=
  match pg_op p with
  | OperationSet => node ← nodeFromIntegrationValue (pg_value p); setNodeAtPath document (pg_path p) node (is_secret (pg_spec p))
  | OperationRemove => removeNodeAtPath document (pg_path p) (preserve_depth p)
  | OtherOperation _ => invalid
  end.
Definition summarizeYAML (p : preparedChange) (before : option Node) : ChangeSummary :=
  let s := pg_spec p in
  let secret := is_secret s in
  let removes := bool_decide (pg_op p = OperationRemove) in
  mk_change_summary (fs_id s) (pg_bindings p) (fs_label s) (fs_target s) (if removes then SummaryRemove else SummarySet) secret
    (if secret then None else n ← before; v ← integrationValue (fs_kind s) n; if is_ok (ValidateValue s v) then Some v else None)
    (if secret then None else if removes then fs_default s else if bool_decide (pg_op p = OperationSet) then Some (pg_value p) else None).
Definition summarizeExternal (p : preparedChange) : ChangeSummary :=
  let s := pg_spec p in
  let removes := bool_decide (pg_op p = OperationRemove) in
  mk_change_summary (fs_id s) (pg_bindings p) (fs_label s) (fs_target s) (if removes then SummaryRemove else SummarySet) (is_secret s) None
    (if removes || is_secret s then None else Some (pg_value p)).

(** The document after the YAML changes, their summaries and whether it changed. *)
Fixpoint apply_yaml (document : Node) (l : list preparedChange) : result NativeCode (Node * list ChangeSummary * bool) :=
  match l with
  | [] => Ok (document, [], false)
  | p :: l =>
      if negb (bool_decide (fs_target (pg_spec p) = TargetYAML)) then apply_yaml document l
      else
        '(document, before, changed) ← applyYAMLChange document p;
        '(document, summaries, later) ← apply_yaml document l;
        Ok (document, if (changed : bool) then summarizeYAML p before :: summaries else summaries, changed || later)
  end.
Definition external_change (document : Node) (p : preparedChange) : result NativeCode ExternalChange :=
  match nodeAtPath document (pg_path p) with
  | Some n =>
      _ ← reject_if (negb (bool_decide (n_Kind n = ScalarNode)) || negb (String.eqb (n_Tag n) "!!str") || String.eqb (n_Value n) "") ErrorInvalidChange;
      Ok (mk_external (fs_id (pg_spec p)) (pg_bindings p) (pg_op p) (n_Value n) (fs_environmentKey (pg_spec p)) (is_secret (pg_spec p)) (pg_value p))
  | None => invalid
  end.
Definition encodeDocument (document : Node) : result NativeCode bytes :=
  match encode_node document with
  | None => Err ErrorMalformedYAML
  | Some yaml => _ ← reject_if (MaxBytes limits <? blen yaml) ErrorSourceTooLarge; Ok yaml
  end.
(** The candidate is inspected again with what the transition needs. *)
Definition with_transition (source yaml : bytes) (prepared : list preparedChange) (n : Inspection) : result NativeCode Inspection :=
  if negb (usesCoreSemantics manifest) then Ok n
  else
    match parseDocument source limits, parseDocument yaml limits with
    | Ok base, Ok candidate =>
        let more := validateCoreTransition base candidate (coreEABReplacements prepared) (MaxIssues limits - blen (in_Issues n)) in
        Ok (mk_inspection (in_SourceSHA256 n) (in_Projection n) (in_Issues n ++ more)%list (in_SchemaValid n) (in_SemanticValid n) (in_Replaceable n)
              (in_Executable n && negb (existsb is_BlocksExecution more)) (in_routes n) (in_maxIssues n))
    | _, _ => Err ErrorMalformedYAML
    end.
Definition external_presence (c : ExternalChange) : DotenvPresence :=
  mk_dotenv_presence (ec_fieldID c) (ec_bindings c) (bool_decide (ec_operation c = OperationSet)) true None.

Definition Preview (source : bytes) (changes : list Change) : result NativeCode Candidate :=
  document ← parseDocument source limits;
  _ ← reject_if (MaxChanges limits <? blen changes) ErrorInvalidChange;
  prepared ← prepare_changes ∅ changes;
  '(candidateDocument, summary, yamlChanged) ← apply_yaml document prepared;
  let dotenv := List.filter (fun p => bool_decide (fs_target (pg_spec p) = TargetDotenv)) prepared in
  external ← mapM (external_change candidateDocument) dotenv;
  yaml ← (if yamlChanged then encodeDocument candidateDocument else Ok source);
  inspection ← Inspect yaml;
  inspection ← with_transition source yaml prepared inspection;
  let inspection := if blen external =? 0 then inspection else WithDotenvPresence inspection (external_presence <$> external) in
  Ok (mk_candidate yaml (Compat.hex_digest source) (Compat.hex_digest yaml) (yamlChanged || negb (blen external =? 0)) inspection
        (summary ++ (summarizeExternal <$> dotenv))%list external).

(** What the configuration service uses. *)
Definition service_engine : Engine := mk_engine Inspect InspectCreation Preview (ObservedSecrets manifest limits).
End Engine.
