(* ===== verification/NativeCorrect.v ===== *)
(** What the native configuration engine guarantees: validation decides exactly
    the bounded plain trees, a preview edits the named fields and nothing else,
    an executable configuration holds no field that is not managed, every
    confidential value is found, and a written secret does not show whether it
    was the same. *)
From stdpp Require Import gmap strings.
From S2P Require Import Prelude.
From S2P Require Import GoText.
From S2P Require Import WsYaml.
From S2P Require Import Tokens.
From S2P Require Import IntegTypes.
From S2P Require Import IntegFields.
From S2P Require Import IntegCorrect.
From S2P Require Import ConfTypes.
From S2P Require Import ConfDotenv.
From S2P Require Import NativeYaml.
From S2P Require Import NativeClassify.
From S2P Require Import NativeSemantic.
From S2P Require Import NativeEngine.

#[local] Open Scope Z_scope.

(** C29: Validation of a parsed document always ends, within one step for each
    node, and accepts exactly the trees that have at most the permitted number of
    nodes, whose every node lies within the permitted depth and passes the checks
    of one node: no alias, no custom tag, and in a mapping pairs with distinct text
    keys none of which is a merge key. *)
Theorem validation_accepts_bounded_plain_trees document limits :
  validate_stack (Datatypes.S (node_count document)) limits [(document, 0)] 0 = Some (validateNode document limits)
  /\ (validateNode document limits = Ok tt <-> Z.of_nat (node_count document) <= MaxNodes limits /\ plain limits 0 document = true).
Proof.
  split; [|apply validateNode_spec]. unfold validateNode.
  destruct (validate_stack_spec limits (Datatypes.S (node_count document)) [(document, 0)] 0) as (r & -> & _); [|done].
  unfold pending_count, nodes_count. cbn. lia.
Qed.

(** ** Leaves *)

Lemma knownLeaf_spec path : knownLeaf path = true <->
  exists pattern, pattern ∈ knownLeafPatterns /\ List.length path = List.length pattern /\ matches_pattern pattern path = true.
Proof.
  unfold knownLeaf. rewrite existsb_exists. setoid_rewrite <- list_elem_of_In. setoid_rewrite andb_true_iff. setoid_rewrite Z.eqb_eq.
  unfold blen. by setoid_rewrite Nat2Z.inj_iff.
Qed.

(** Two patterns that agree as far as the first goes. *)
Fixpoint overlap (p q : list string) : bool :=
  match p, q with
  | [], _ => true
  | x :: p, y :: q => (String.eqb x "*" || String.eqb y "*" || String.eqb x y) && overlap p q
  | _ :: _, [] => false
  end.
Lemma overlap_matches path : forall p q rest, matches_pattern p path = true -> List.length path = List.length p ->
  matches_pattern q (path ++ rest) = true -> overlap p q = true.
Proof.
  induction path as [|x path IH]; intros [|y p] [|z q] rest; cbn; try done. intros Hp [= Hl] Hq. bool_prop.
  apply andb_true_iff. split; [|by eapply IH]. rewrite !orb_true_iff in *. rewrite !String.eqb_eq in *. naive_solver congruence.
Qed.
Lemma leaf_patterns_apart :
  forallb (fun p => forallb (fun q => negb (Nat.ltb (List.length p) (List.length q) && overlap p q)) knownLeafPatterns) knownLeafPatterns = true.
Proof. vm_compute. reflexivity. Qed.
(** No known leaf lies below another. *)
Lemma knownLeaf_not_below path rest : knownLeaf path = true -> knownLeaf (path ++ rest) = true -> rest = [].
Proof.
  intros (p & Hp & Lp & Mp)%knownLeaf_spec (q & Hq & Lq & Mq)%knownLeaf_spec. destruct rest as [|x rest]; [done|]. exfalso.
  pose proof leaf_patterns_apart as Ha. rewrite forallb_elem_of in Ha. specialize (Ha p Hp). cbv beta in Ha. rewrite forallb_elem_of in Ha. specialize (Ha q Hq). cbv beta in Ha.
  rewrite (overlap_matches _ _ _ _ Mp Lp Mq), andb_true_r in Ha. apply negb_true_iff, Nat.ltb_ge in Ha. rewrite length_app in Lq. cbn in Lq. lia.
Qed.

Lemma matches_pattern_segments selector : forall pattern path acc b, matches_pattern pattern (segment_pattern <$> selector) = true ->
  List.length path = List.length selector -> match_segments selector path acc = Some b -> matches_pattern pattern path = true.
Proof.
  induction selector as [|[key|x] selector IH]; intros pattern [|v path] acc b; try done; destruct pattern as [|p pattern]; try done;
    cbn; intros Hm [= Hl] E; bool_prop.
  - destruct (String.eqb_spec v key) as [->|]; [|done]. apply andb_true_iff. split; [done|by eapply IH].
  - destruct (validBindingValue v); [|done]. apply andb_true_iff. split; [|by eapply IH].
    rewrite orb_true_iff in *. rewrite !String.eqb_eq in *. naive_solver.
Qed.
(** The paths of a field the engine admits are known leaves. *)
Lemma Match_knownLeaf s path b : compatibleManifestField s = true -> Match s path = Some b -> knownLeaf path = true.
Proof.
  unfold compatibleManifestField. intros [(p & Hp & Lp & Mp)%knownLeaf_spec _]%andb_true_iff. unfold Match.
  destruct (Z.eqb_spec (blen path) (blen (fs_selector s))) as [Hl|]; [|done]. intros E. unfold blen in Hl.
  apply knownLeaf_spec. exists p. rewrite length_fmap in Lp. split_and!; [done|lia|]. eapply matches_pattern_segments; [done|lia|done].
Qed.

(** ** Edits *)

Section Edits.
Context `{YamlCodec} `{SchemaPackage} `{ConfigurationDecoder} `{Digests} `{NetParsers} `{MapOrder}.
(** What the engine asks of the integration, as [NewEngine] and the curated
    contracts give it. *)
Context (m : Manifest) (Hok : manifest_ok (mf_fields m)) (Hu : unambiguous m = true) (Hc : forallb compatibleManifestField (Fields m) = true).
Context (Hscalar : forall v, n_Kind (encode_value v) <> MappingNode).

Lemma leaf_of_field id s path b : mf_fields m !! id = Some s -> Match s path = Some b -> knownLeaf path = true.
Proof using Hc.
  intros Hs. rewrite forallb_elem_of in Hc. apply Match_knownLeaf. apply Hc, elem_of_Fields. by exists id.
Qed.

(** The field, the bindings and the path of a prepared change. *)
Record prepared_ok (c : Change) (p : preparedChange) : Prop := {
  po_field : mf_fields m !! ch_FieldID c = Some (pg_spec p);
  po_values : binding_values ∅ (ch_Bindings c) = Ok (pg_values p);
  po_bindings : pg_bindings p = orderedBindings (pg_spec p) (pg_values p);
  po_path : Resolve (pg_spec p) (pg_values p) = Ok (pg_path p);
  po_op : pg_op p = ch_Operation c;
  po_value : pg_value p = ch_Value c;
}.
Definition identity (p : preparedChange) : bytes := projectionKey (fs_id (pg_spec p)) (pg_bindings p).
Lemma prepare_change_ok e seen c p seen' : eg_manifest e = m -> prepare_change e seen c = Ok (p, seen') ->
  prepared_ok c p /\ identity p ∉ seen /\ seen' = {[identity p]} ∪ seen.
Proof using Type.
  intros He. unfold prepare_change. rewrite He. destruct (mf_fields m !! ch_FieldID c) as [s|] eqn:Hs; [|done].
  intros (u & _ & (u2 & _ & (u3 & _ & ([values bindings] & Hn & E)%bind_Ok)%bind_Ok)%bind_Ok)%bind_Ok.
  apply bind_Ok in E as (u4 & Hd%reject_if_Ok & E). apply bind_Ok in E as (path & Hp%map_err_Ok & [= <- <-]).
  apply bool_decide_eq_false in Hd. unfold normalizeBindings in Hn. apply bind_Ok in Hn as (vs & Hv & Hn).
  destruct (Resolve s vs) as [[|]|]; try done. injection Hn as <- <-. split; [|done]. by constructor.
Qed.
Lemma prepare_changes_ok e : eg_manifest e = m -> forall l seen ps, prepare_changes e seen l = Ok ps ->
  Forall2 prepared_ok l ps /\ NoDup (identity <$> ps) /\ Forall (fun p => identity p ∉ seen) ps.
Proof using Type.
  intros He. induction l as [|c l IH]; intros seen ps; cbn [prepare_changes]; [intros [= <-]; split_and!; constructor|].
  intros ([p seen'] & Hp & (rest & E & [= <-])%bind_Ok)%bind_Ok. apply prepare_change_ok in Hp as (Hp & Hn & ->); [|done].
  apply IH in E as (Hf & Hd & Hs). split_and!; [by constructor| |].
  - cbn. apply NoDup_cons. split; [|done]. intros (q & Hq & Hin)%list_elem_of_fmap. rewrite Forall_forall in Hs. apply (Hs q Hin). rewrite <- Hq. by apply elem_of_union_l, elem_of_singleton.
  - constructor; [done|]. eapply Forall_impl; [exact Hs|]. cbn. intros q Hq ?. by apply Hq, elem_of_union_r.
Qed.

Definition is_yaml (p : preparedChange) : Prop := fs_target (pg_spec p) = TargetYAML.
(** Two changes with one native path would be one change. *)
Lemma prepared_independent c1 c2 p1 p2 : prepared_ok c1 p1 -> prepared_ok c2 p2 -> is_yaml p1 -> is_yaml p2 -> identity p1 <> identity p2 ->
  independent (pg_path p1) (pg_path p2).
Proof using Hok Hu Hc.
  assert (Hp : forall c1 c2 p1 p2, prepared_ok c1 p1 -> prepared_ok c2 p2 -> is_yaml p1 -> is_yaml p2 -> pg_path p1 `prefix_of` pg_path p2 ->
    identity p1 = identity p2).
  { clear c1 c2 p1 p2. intros c1 c2 p1 p2 [F1 _ B1 P1 _ _] [F2 _ B2 P2 _ _] Y1 Y2 [rest Hr].
    apply Resolve_Match in P1; [|by eapply Hok]. apply Resolve_Match in P2; [|by eapply Hok].
    assert (rest = []) as ->.
    { apply (knownLeaf_not_below (pg_path p1)); [exact (leaf_of_field _ _ _ _ F1 P1)|]. rewrite <- Hr. exact (leaf_of_field _ _ _ _ F2 P2). }
    rewrite app_nil_r in Hr. rewrite Hr in P2. assert (pg_spec p1 = pg_spec p2) as Hs.
    { eapply (unambiguous_match m); [done|done| | |done|done|exact P1|exact P2]; apply elem_of_Fields; eauto. }
    unfold identity. rewrite B1, B2, Hs. rewrite Hs in P1. congruence. }
  intros Q1 Q2 Y1 Y2 Hne. split; intros Hpre; [|apply not_eq_sym in Hne]; apply Hne; by eapply Hp.
Qed.

(** What a change leaves at its path. *)
Definition takes_effect (op : Operation) (value : Value) (o : option Node) : Prop :=
  match op with OperationSet => holds_value (encode_value value) o | OperationRemove => o = None | OtherOperation _ => False end.
Lemma applyYAMLChange_edited document p document' before changed : wf_document document ->
  applyYAMLChange document p = Ok (document', before, changed) ->
  document_edited document (pg_path p) (takes_effect (pg_op p) (pg_value p)) document' before.
Proof using Hscalar.
  intros Hw. unfold applyYAMLChange. destruct (pg_op p) eqn:Ho; [|by apply removeNodeAtPath_edited|done].
  intros (node & Hn & E)%bind_Ok. unfold nodeFromIntegrationValue in Hn. destruct (pg_value p) eqn:Hv; try done; injection Hn as <-;
    (eapply setNodeAtPath_edited; [done|apply Hscalar|done]).
Qed.
Lemma applyYAMLChange_unchanged document p document' before : applyYAMLChange document p = Ok (document', before, false) -> document' = document.
Proof.
  unfold applyYAMLChange. destruct (pg_op p); [| |done].
  - intros (node & _ & E)%bind_Ok. eapply in_document_unchanged; [|exact E]. intros root root' Hs. by apply set_at_unchanged in Hs as [-> _].
  - unfold removeNodeAtPath. intros (u & _ & E)%bind_Ok. eapply in_document_unchanged; [|exact E]. intros root root'. apply remove_at_unchanged.
Qed.

Lemma apply_yaml_edits : forall ps document document' summaries changed, wf_document document ->
  ForallOrdPairs (fun p q => is_yaml p -> is_yaml q -> independent (pg_path p) (pg_path q)) ps ->
  apply_yaml document ps = Ok (document', summaries, changed) ->
  (changed = false -> document' = document)
  /\ Forall (fun p => is_yaml p -> takes_effect (pg_op p) (pg_value p) (nodeAtPath document' (pg_path p))) ps
  /\ forall q, Forall (fun p => is_yaml p -> independent (pg_path p) q) ps -> nodeAtPath document' q = nodeAtPath document q.
Proof using Hscalar.
  induction ps as [|p ps IH]; intros document document' summaries changed Hw Hi; cbn [apply_yaml].
  { intros [= <- <- <-]. split_and!; [done|constructor|done]. }
  inversion Hi as [|? ? Hp Hps]; subst. case_bool_decide as Hy; cbn [negb].
  - intros ([[document1 before] changed1] & E & ([[document2 summaries2] later] & E2 & [= <- <- <-])%bind_Ok)%bind_Ok.
    pose proof (applyYAMLChange_edited _ _ _ _ _ Hw E) as [Hw1 _ Hr1 Hf1].
    destruct (IH _ _ _ _ Hw1 Hps E2) as (Hn & He & Hf). split_and!.
    + intros [-> ->]%orb_false_iff. rewrite Hn by done. by eapply applyYAMLChange_unchanged.
    + constructor; [|done]. intros _. rewrite Hf; [done|]. eapply Forall_impl; [exact Hp|]. cbn. intros q Hq ?. by apply independent_sym, Hq.
    + intros q [Hq Hqs]%Forall_cons. rewrite Hf by done. by apply Hf1, Hq.
  - intros E. destruct (IH _ _ _ _ Hw Hps E) as (Hn & He & Hf). split_and!; [done|by constructor|].
    intros q [_ Hqs]%Forall_cons. by apply Hf.
Qed.

Lemma prepared_pairwise e l ps : eg_manifest e = m -> prepare_changes e ∅ l = Ok ps ->
  ForallOrdPairs (fun p q => is_yaml p -> is_yaml q -> independent (pg_path p) (pg_path q)) ps.
Proof using Hok Hu Hc.
  intros He (Hf & Hd & _)%prepare_changes_ok; [|done]. revert l Hf Hd. induction ps as [|p ps IH]; intros l Hf; cbn; [constructor|].
  apply Forall2_cons_inv_r in Hf as (c & l' & Hp & Hf & ->). intros [Hn Hd]%NoDup_cons. constructor; [|by eapply IH].
  apply Forall_forall. intros q Hq Yp Yq. apply list_elem_of_lookup in Hq as [i Hq].
  destruct (Forall2_lookup_r _ _ _ _ _ Hf Hq) as (c' & _ & Hq'). eapply prepared_independent; [done|done|done|done|].
  intros Hi. apply Hn. rewrite Hi. apply list_elem_of_fmap. exists q. split; [done|]. by eapply list_elem_of_lookup_2.
Qed.
End Edits.

(** *** The engine of a curated contract *)

(** What [NewEngine] has checked. *)
Record engine_ok (m : Manifest) (e : engine) : Prop := {
  eo_manifest : eg_manifest e = m;
  eo_fields : forallb compatibleManifestField (Fields m) = true;
  eo_issues : 0 < MaxIssues (eg_limits e);
}.
Lemma normalizeLimits_positive l l' : normalizeLimits l = Ok l' -> 0 < MaxIssues l'.
Proof.
  unfold normalizeLimits, normalize. intros (u & Hn%reject_if_Ok & (u2 & _ & [= <-])%bind_Ok)%bind_Ok. cbn in *. bool_prop.
  destruct (Z.eqb_spec (MaxIssues l) 0); lia.
Qed.
Lemma NewEngine_ok `{SchemaPackage} `{Digests} runtime schema m l e : NewEngine runtime schema m l = Ok e -> engine_ok m e.
Proof.
  unfold NewEngine. intros (limits & Hl%normalizeLimits_positive & (u & _ & (u2 & Hf%reject_if_Ok & (u3 & _ & E)%bind_Ok)%bind_Ok)%bind_Ok)%bind_Ok.
  apply negb_false_iff in Hf. destruct (Compat.Lookup _ _); [|done]. apply bind_Ok in E as (u4 & _ & (compiled & _ & [= <-])%bind_Ok). by constructor.
Qed.
Lemma build_unambiguous c m : build c = Ok m -> unambiguous m = true.
Proof. intros Hb. pose proof (build_checked c) as Hs. rewrite Hb in Hs. cbn in Hs. by bool_prop. Qed.

(** The native path of a change of the YAML file. *)
Definition addresses (m : Manifest) (ch : Change) (path : list string) : Prop :=
  exists s values, mf_fields m !! ch_FieldID ch = Some s /\ fs_target s = TargetYAML
    /\ binding_values ∅ (ch_Bindings ch) = Ok values /\ Resolve s values = Ok path.

(** Executably. *)
Definition addressed (m : Manifest) (ch : Change) : option (list string) :=
  match mf_fields m !! ch_FieldID ch, binding_values ∅ (ch_Bindings ch) with
  | Some s, Ok values =>
      if bool_decide (fs_target s = TargetYAML) then match Resolve s values with Ok path => Some path | Err _ => None end else None
  | _, _ => None
  end.
Lemma addressed_spec m ch path : addressed m ch = Some path -> addresses m ch path.
Proof.
  unfold addressed, addresses. destruct (_ !! _) as [s|]; [|done]. destruct (binding_values _ _) as [values|] eqn:Hv; [|done]. case_bool_decide; [|done].
  destruct (Resolve s values) as [p|] eqn:Hr; [|done]. intros [= <-]. by exists s, values.
Qed.

(** C2: A preview edits the named fields and nothing else.  With an engine of a
    curated contract, a preview that succeeds read the source as a document and
    made another from it: the candidate is the source itself if no change changed
    anything, and otherwise the new document's encoding.  In the new document every
    field that a change sets holds the value of the change, every field that a
    change removes is absent, and at every path that lies neither above nor below
    the path of a changed field there is what was there before. *)
Theorem Preview_edits_exactly_the_named_fields `{YamlCodec} `{SchemaPackage} `{ConfigurationDecoder} `{Digests} `{NetParsers} `{MapOrder}
    (c : contract) (m : Manifest) (runtime : string) (schema source : bytes) (l : Limits) (e : engine) (changes : list Change) (candidate : Candidate) :
  build c = Ok m -> NewEngine runtime schema m l = Ok e -> (forall v, n_Kind (encode_value v) <> MappingNode) ->
  Preview e source changes = Ok candidate ->
  exists document document', parseDocument source (eg_limits e) = Ok document
    /\ (cd_yaml candidate = source /\ document' = document \/ encode_node document' = Some (cd_yaml candidate))
    /\ (forall ch path, ch ∈ changes -> addresses m ch path -> takes_effect (ch_Operation ch) (ch_Value ch) (nodeAtPath document' path))
    /\ (forall q, (forall ch path, ch ∈ changes -> addresses m ch path -> independent path q) -> nodeAtPath document' q = nodeAtPath document q).
Proof.
  intros Hb [He Hf _]%NewEngine_ok Hs. unfold Preview. intros (document & Hd & E)%bind_Ok. apply bind_Ok in E as (u & _ & E).
  apply bind_Ok in E as (prepared & Hp & E). apply bind_Ok in E as ([[document' summaries] changed] & Ha & E).
  apply bind_Ok in E as (external & _ & (yaml & Hy & E)%bind_Ok).
  assert (Hyaml : cd_yaml candidate = yaml) by (revert E; intros (i & _ & (i2 & _ & [= <-])%bind_Ok)%bind_Ok; done).
  pose proof (prepared_pairwise m (build_ok _ _ Hb) (build_unambiguous _ _ Hb) Hf e changes prepared He Hp) as Hi.
  apply parseDocument_Ok in Hd as Hw. destruct Hw as [Hw _]. destruct (apply_yaml_edits Hs prepared document document' summaries changed Hw Hi Ha) as (Hn & Ht & Hq).
  destruct (prepare_changes_ok m e He _ _ _ Hp) as (Hl & _ & _).
  exists document, document'. split_and!; [done| | |].
  - destruct changed; [right|left; split; [congruence|by apply Hn]]. unfold encodeDocument in Hy. destruct (encode_node document') as [text|]; [|done].
    apply bind_Ok in Hy as (u2 & _ & [= ->]). by rewrite Hyaml.
  - intros ch path (i & Hch)%list_elem_of_lookup (s & values & Hfield & Hyt & Hv & Hr). destruct (Forall2_lookup_l _ _ _ _ _ Hl Hch) as (p & Hpi & [F V _ P O U]).
    rewrite F in Hfield. injection Hfield as <-. rewrite V in Hv. injection Hv as <-. rewrite P in Hr. injection Hr as <-.
    rewrite <- O, <- U. rewrite Forall_forall in Ht. by apply Ht; [eapply list_elem_of_lookup_2|].
  - intros q Hq'. apply Hq, Forall_forall. intros p (i & Hpi)%list_elem_of_lookup Hyp. destruct (Forall2_lookup_r _ _ _ _ _ Hl Hpi) as (ch & Hch & [F V _ P _ _]).
    eapply Hq'; [by eapply list_elem_of_lookup_2|]. exists (pg_spec p), (pg_values p). by split_and!.
Qed.

(** ** Classification *)

Lemma overlap_segments selector : forall p q path, matches_pattern p path = true -> List.length path = List.length p ->
  matches_pattern q (segment_pattern <$> selector) = true -> List.length selector = List.length q -> prefix_segments selector path = true -> overlap p q = true.
Proof.
  induction selector as [|[key|x] selector IH]; intros [|y p] [|z q] [|v path]; try done; cbn; intros Hp [= Hl] Hq [= Hl'] Hs; bool_prop.
  - subst v. apply andb_true_iff. split; [|by eapply IH]. rewrite !orb_true_iff in *. rewrite !String.eqb_eq in *. naive_solver congruence.
  - apply andb_true_iff. split; [|by eapply IH]. rewrite !orb_true_iff in *. rewrite !String.eqb_eq in *. naive_solver congruence.
Qed.
Lemma prefix_segments_match selector : forall path acc, prefix_segments selector path = true -> List.length path = List.length selector ->
  is_Some (match_segments selector path acc).
Proof.
  induction selector as [|[key|x] selector IH]; intros [|v path] acc; try done; cbn; intros Hp [= Hl]; bool_prop.
  - subst v. rewrite String.eqb_refl. by apply IH.
  - rewrite H. by apply IH.
Qed.
(** A leaf at the beginning of the paths of a field is one of its paths. *)
Lemma HasPathPrefix_leaf s path : compatibleManifestField s = true -> knownLeaf path = true -> HasPathPrefix s path = true -> is_Some (Match s path).
Proof.
  unfold compatibleManifestField. intros [(q & Hq & Lq & Mq)%knownLeaf_spec _]%andb_true_iff (p & Hp & Lp & Mp)%knownLeaf_spec Hs.
  rewrite length_fmap in Lq. pose proof leaf_patterns_apart as Ha. rewrite forallb_elem_of in Ha. specialize (Ha p Hp). cbv beta in Ha.
  rewrite forallb_elem_of in Ha. specialize (Ha q Hq). cbv beta in Ha. rewrite (overlap_segments _ _ _ _ Mp Lp Mq Lq Hs), andb_true_r in Ha.
  apply negb_true_iff, Nat.ltb_ge in Ha.
  assert (Hle : (List.length path <= List.length (fs_selector s))%nat).
  { clear -Hs. unfold HasPathPrefix in Hs. revert path Hs. generalize (fs_selector s) as selector. induction selector as [|[key|x] selector IH]; intros [|v path] Hs;
      cbn in *; try done; try lia; apply andb_true_iff in Hs as [_ Hs]; specialize (IH _ Hs); lia. }
  assert (Hl : List.length path = List.length (fs_selector s)) by lia. unfold Match, blen. rewrite Hl, Z.eqb_refl. by apply prefix_segments_match.
Qed.

(** What a value of a field's type is, and what it is read as. *)
Inductive reads `{YamlCodec} : FieldKind -> Node -> Value -> Prop :=
| reads_string n : n_Kind n = ScalarNode -> n_Tag n = "!!str" -> reads FieldString n (StringValue (n_Value n))
| reads_boolean n b : n_Kind n = ScalarNode -> n_Tag n = "!!bool" -> decode_bool n = Some b -> reads FieldBoolean n (BooleanValue b)
| reads_integer n i : n_Kind n = ScalarNode -> n_Tag n = "!!int" -> decode_int64 n = Some i -> reads FieldInteger n (IntegerValue i)
| reads_list n : n_Kind n = SequenceNode -> (forall c, c ∈ n_Content n -> n_Kind c = ScalarNode /\ n_Tag c = "!!str") ->
    reads FieldStringList n (StringListValue (n_Value <$> n_Content n)).

Lemma integrationValue_reads `{YamlCodec} kind n v : reads kind n v <-> integrationValue kind n = Some v.
Proof.
  split.
  - destruct 1 as [n Hk Ht|n b Hk Ht Hd|n i Hk Ht Hd|n Hk Hc]; cbn; rewrite Hk, ?Ht; cbn; rewrite ?Hd; try done.
    rewrite (proj2 (forallb_forall _ _)); [done|]. intros c Hin%list_elem_of_In. destruct (Hc c Hin) as [-> ->]. done.
  - destruct kind; cbn; try done.
    + destruct (_ && _) eqn:E; [|done]. bool_prop. intros [= <-]. by constructor.
    + destruct (_ && _) eqn:E; [|done]. bool_prop. destruct (decode_bool n) eqn:Hd; [|done]. intros [= <-]. by constructor.
    + destruct (_ && _) eqn:E; [|done]. bool_prop. destruct (decode_int64 n) eqn:Hd; [|done]. intros [= <-]. by constructor.
    + destruct (_ && _) eqn:E; [|done]. apply andb_true_iff in E as [Hk Hc]. bool_prop. intros [= <-]. constructor; [done|].
      intros c Hin%list_elem_of_In. rewrite forallb_forall in Hc. specialize (Hc c Hin). by bool_prop.
Qed.

(** A challenge outside the HTTP listener, HTTP webroot and curated DNS forms;
    a certificate made from a signing request or exported as a PFX file. *)
Definition challenge_outside (dns : bool) (challenge : Node) : Prop :=
  (exists key v, key ∈ ["tls"; "dnsPersist"] /\ mappingValue challenge key = Some v)
  \/ (exists settings, mappingValue challenge "dns" = Some settings
       /\ ~ (dns = true /\ exists p, mappingValue settings "provider" = Some p /\ n_Kind p = ScalarNode /\ SupportsCoreDNSProvider (n_Value p) = true))
  \/ (exists http key v, mappingValue challenge "http" = Some http /\ key ∈ ["memcachedHosts"; "s3Bucket"] /\ mappingValue http key = Some v).
Definition certificate_outside (certificate : Node) : Prop := exists key v, key ∈ ["csr"; "pfx"] /\ mappingValue certificate key = Some v.
(** The entry [name] of a section of the document is a mapping with a property. *)
Definition entry_of (root : Node) (section name : string) (P : Node -> Prop) : Prop :=
  exists entries key value, mappingValue root section = Some entries /\ (key, value) ∈ mapping_entries entries
    /\ n_Value key = name /\ n_Kind value = MappingNode /\ P value.
(** What an inspection leaves out: the HTTP settings of a challenge outside the
    managed forms and the settings of a certificate outside them. *)
Definition left_out (m : Manifest) (root : Node) (path : list string) : Prop :=
  (exists name rest, path = "challenges" :: name :: "http" :: rest /\ entry_of root "challenges" name (challenge_outside (supportsCoreDNS m)))
  \/ (exists name rest, path = "certificates" :: name :: rest /\ entry_of root "certificates" name certificate_outside).

Lemma has_key_spec n key : has_key n key = true <-> exists v, mappingValue n key = Some v.
Proof. unfold has_key. rewrite bool_decide_eq_true. done. Qed.
Lemma unsupported_challenge_spec dns n : unsupported_challenge dns n = true -> challenge_outside dns n.
Proof.
  unfold unsupported_challenge, challenge_outside. rewrite !orb_true_iff. intros [[[H|H]|H]|H].
  - left. apply has_key_spec in H as [v Hv]. exists "tls", v. split; [set_solver|done].
  - left. apply has_key_spec in H as [v Hv]. exists "dnsPersist", v. split; [set_solver|done].
  - right. left. destruct (mappingValue n "dns") as [settings|]; [|done]. exists settings. split; [done|]. intros (-> & p & Hp & Hk & Hs).
    by rewrite Hp, bool_decide_true, Hs in H.
  - right. right. destruct (mappingValue n "http") as [http|]; [|done].
    apply orb_true_iff in H as [H|H]; apply has_key_spec in H as [v Hv]; eexists http, _, v; (split; [done|split; [|exact Hv]]); set_solver.
Qed.
Lemma certificate_outside_spec n : has_key n "csr" || has_key n "pfx" = true -> certificate_outside n.
Proof. intros [E|E]%orb_true_iff; apply has_key_spec in E as [v Hv]; eexists _, v; (split; [|exact Hv]); set_solver. Qed.
Lemma named_mappings_spec test root key name : name ∈ named_mappings test (section root key) -> entry_of root key name (fun n => test n = true).
Proof.
  unfold named_mappings, section. destruct (mappingValue root key) as [n|] eqn:E; [|set_solver]. case_bool_decide; [|set_solver].
  rewrite elem_of_list_to_set, list_elem_of_fmap. intros ([k v] & -> & Hin). apply list_elem_of_In, filter_In in Hin as [Hin Ht].
  apply andb_true_iff in Ht as [Hk%bool_decide_eq_true Ht]. exists n, k, v. split_and!; [done|by apply list_elem_of_In|done..].
Qed.
Lemma entry_of_impl root key name (P Q : Node -> Prop) : (forall n, P n -> Q n) -> entry_of root key name P -> entry_of root key name Q.
Proof. intros HPQ (n & k & v & H1 & H2 & H3 & H4 & H5). exists n, k, v. split_and!; auto. Qed.

(** Native paths have at most one name, in the second place. *)
Lemma late_segments_are_keys : forallb (fun p => forallb (fun x => negb (String.eqb x "*")) (drop 2 p)) knownLeafPatterns = true.
Proof. vm_compute. reflexivity. Qed.
Lemma match_keys selector : forall pattern path acc b, matches_pattern pattern (segment_pattern <$> selector) = true ->
  List.length selector = List.length pattern -> forallb (fun x => negb (String.eqb x "*")) pattern = true ->
  match_segments selector path acc = Some b -> b = acc.
Proof.
  induction selector as [|[key|x] selector IH]; intros [|y pattern] path acc b; cbn; try done; [by destruct path; intros _ _ _ [= ->]|..];
    intros Hm [= Hl] Hs Hb; apply andb_true_iff in Hm as [Hy Hm]; apply andb_true_iff in Hs as [Hn Hs].
  - destruct path as [|z path]; [by injection Hb|]. destruct (String.eqb z key); [|done]. by eapply IH.
  - apply orb_true_iff in Hy as [Hy|Hy]; rewrite ?Hy in Hn; [done|]. apply String.eqb_eq in Hy as ->. done.
Qed.
Lemma bound_name s first x rest path b : compatibleManifestField s = true -> fs_selector s = YAMLKey first :: YAMLBinding x :: rest ->
  Match s path = Some b -> exists name path', path = first :: name :: path' /\ b !! x = Some name
    /\ match_segments rest path' {[x := name]} = Some b /\ List.length path' = List.length rest.
Proof.
  unfold compatibleManifestField, Match. intros [(p & Hp & Lp & Mp)%knownLeaf_spec _]%andb_true_iff Hs. rewrite Hs in *. rewrite length_fmap in Lp.
  destruct (Z.eqb_spec (blen path) (blen (YAMLKey first :: YAMLBinding x :: rest))) as [Hl|]; [|done].
  destruct path as [|k [|name path]]; [unfold blen in Hl; cbn in Hl; lia..|]. cbn. destruct (String.eqb_spec k first) as [->|]; [|done].
  destruct (validBindingValue name); [|done]. intros Hb. exists name, path.
  destruct p as [|p1 [|p2 p]]; [done..|]. cbn in Lp, Mp. injection Lp as Lp. apply andb_true_iff in Mp as [_ [_ Mp]%andb_true_iff].
  pose proof late_segments_are_keys as Hk. rewrite forallb_elem_of in Hk. specialize (Hk _ Hp). cbn in Hk. rewrite drop_0 in Hk.
  pose proof (match_keys rest p path _ _ Mp Lp Hk Hb) as ->. split_and!; [done|by rewrite lookup_insert_eq|done|].
  unfold blen in Hl. cbn in Hl. lia.
Qed.

Section Classification.
Context `{YamlCodec} (m : Manifest) (limits : Limits) (root : Node).
Abbreviation su := (surroundings_of m root).
Context (Hc : forallb compatibleManifestField (Fields m) = true) (Hi : 0 < MaxIssues limits).

Lemma compatible_field s : s ∈ Fields m -> compatibleManifestField s = true.
Proof using Hc. rewrite forallb_elem_of in Hc. apply Hc. Qed.

Lemma suppressed_left_out s path b : compatibleManifestField s = true -> Match s path = Some b -> suppressed su s b = true -> left_out m root path.
Proof using Type.
  intros Hs Hm [Hh|Hh]%orb_true_iff; [left|right].
  - unfold suppressUnsupportedHTTPProjection, isHTTPChallengeSpec, challenge_part in Hh. destruct (b !! BindingChallenge) as [c|] eqn:Hb; [|done].
    apply andb_true_iff in Hh as [Hin%bool_decide_eq_true Hh].
    destruct (fs_selector s) as [|[first|] [|[|x] [|[third|] rest]]] eqn:Hsel; try done. bool_prop. subst.
    destruct (bound_name _ _ _ _ _ _ Hs Hsel Hm) as (name & path' & -> & Hn & Hr & Hl). rewrite Hb in Hn. injection Hn as ->.
    destruct path' as [|y path']; [done|]. cbn in Hr. destruct (String.eqb_spec y "http") as [->|]; [|done].
    exists name, path'. split; [done|]. by apply (entry_of_impl _ _ _ _ _ (unsupported_challenge_spec (supportsCoreDNS m))), named_mappings_spec.
  - unfold suppressUnsupportedCertificateProjection in Hh. destruct (b !! BindingCertificate) as [c|] eqn:Hb; [|done].
    apply andb_true_iff in Hh as [Hin%bool_decide_eq_true Hh].
    destruct (fs_selector s) as [|[first|] [|[|x] rest]] eqn:Hsel; try done. bool_prop. subst.
    destruct (bound_name _ _ _ _ _ _ Hs Hsel Hm) as (name & path' & -> & Hn & _). rewrite Hb in Hn. injection Hn as ->.
    exists name, path'. split; [done|]. by apply (entry_of_impl _ _ _ _ _ certificate_outside_spec), named_mappings_spec.
Qed.

(** A leaf that the integration manages: a credential file, or a field of the
    configuration whose value, when it is of the field's type, keeps the field's
    contract or is left out. *)
Definition managed (path : list string) (value : Node) : Prop :=
  (exists s b, MatchTarget m path TargetYAML = Some (s, b)
     /\ forall v, reads (fs_kind s) value v -> ValidateValue s v = Ok tt \/ left_out m root path)
  \/ matchingFields m path TargetDotenv <> [].
Definition acceptable (path : list string) (value : Node) : Prop := knownPrefix path = true /\ (knownLeaf path = true -> managed path value).

Lemma report_silent i c : co_issues (report limits i c) <> [].
Proof using Hi.
  unfold report, appendIssue. cbn. destruct (Z.leb_spec (MaxIssues limits) (blen (co_issues c))) as [Hl|]; [|by destruct (co_issues c)].
  destruct (co_issues c); [unfold blen in Hl; cbn in Hl; lia|done].
Qed.
Lemma project_new_issues key f c : co_issues (project_new limits key f c) = co_issues c.
Proof. unfold project_new. by repeat case_match. Qed.
Lemma project_dotenv_issues value c x : co_issues (project_dotenv limits value c x) = co_issues c.
Proof. unfold project_dotenv. by repeat case_match. Qed.
Lemma project_yaml_silent s b path key value c : co_issues (project_yaml limits su s b path key value c) = [] ->
  co_issues c = [] /\ forall v, integrationValue (fs_kind s) value = Some v -> suppressed su s b = true \/ ValidateValue s v = Ok tt.
Proof using Hi.
  unfold project_yaml, projectedFromNode. destruct (integrationValue (fs_kind s) value) as [v|]; cbn; [|by intros].
  destruct (suppressed su s b); [intros ->; split; [done|]; intros; by left|].
  destruct (ValidateValue s v) as [[]|] eqn:Hv; cbn.
  - rewrite project_new_issues. intros ->. split; [done|]. intros v' [= <-]. by right.
  - intros Hr. exfalso. destruct (full _ _); cbn in Hr; by apply report_silent in Hr.
Qed.

Lemma dotenvs_issues value l c : co_issues (fold_left (project_dotenv limits value) l c) = co_issues c.
Proof. revert c. induction l as [|x l IH]; intros c; [done|]. cbn. by rewrite IH, project_dotenv_issues. Qed.
Lemma elem_of_matchingFields x path target : x ∈ matchingFields m path target ->
  fm_spec x ∈ Fields m /\ fs_target (fm_spec x) = target /\ Match (fm_spec x) path = Some (fm_bindings x).
Proof.
  intros (s & Hs & E)%list_elem_of_omap. case_bool_decide as Ht; [|done]. destruct (Match s path) as [b|] eqn:Hm; [|done]. by injection E as <-.
Qed.
Lemma matchingFields_nil path target s : matchingFields m path target = [] -> s ∈ Fields m -> fs_target s = target -> Match s path = None.
Proof.
  intros Hn Hs Ht. destruct (Match s path) as [b|] eqn:Hm; [|done]. exfalso.
  assert (Hin : mk_match s b ∈ matchingFields m path target).
  { apply list_elem_of_omap. exists s. split; [done|]. by rewrite bool_decide_true, Hm. }
  rewrite Hn in Hin. by apply elem_of_nil in Hin.
Qed.
Lemma dotenv_leaf path target : matchingFields m path target <> [] -> knownLeaf path = true.
Proof using Hc.
  destruct (matchingFields m path target) as [|x l] eqn:E; [done|]. intros _. assert (Hx : x ∈ matchingFields m path target) by (rewrite E; by left).
  apply elem_of_matchingFields in Hx as (Hs & _ & Hm). eapply Match_knownLeaf; [by apply compatible_field|exact Hm].
Qed.
Lemma no_items {A} (l : list A) : blen l = 0 <-> l = [].
Proof. destruct l; [done|]. unfold blen. cbn. split; [lia|done]. Qed.
(** A leaf below which a field is managed is managed itself. *)
Lemma managed_leaf path : knownLeaf path = true -> MatchTarget m path TargetYAML = None -> matchingFields m path TargetDotenv = [] ->
  HasPathPrefixForTarget m path TargetYAML || HasPathPrefixForTarget m path TargetDotenv = false.
Proof using Hc.
  intros Hl Hy Hd.
  assert (Hn : forall target, (forall s, s ∈ Fields m -> fs_target s = target -> Match s path = None) -> HasPathPrefixForTarget m path target = false).
  { intros target Hm. apply not_true_iff_false. unfold HasPathPrefixForTarget. rewrite existsb_exists. intros (s & Hs & Hp).
    apply list_elem_of_In in Hs. apply andb_true_iff in Hp as [Ht%bool_decide_eq_true Hp]. apply HasPathPrefix_leaf in Hp as [b Hb]; [|by apply compatible_field|done]. by rewrite (Hm s Hs Ht) in Hb. }
  rewrite !Hn; [done| |]; intros s Hs Ht; [by eapply matchingFields_nil|by eapply first_match_none].
Qed.

Lemma classify_entry_silent key value path c c' below : classify_entry m limits su key value path false c = (c', below) -> co_issues c' = [] ->
  co_issues c = [] /\ acceptable path value /\ below <> Some true /\ (below = None -> n_Kind value = MappingNode -> knownLeaf path = true).
Proof using Hc Hi.
  unfold classify_entry. destruct (knownPrefix path) eqn:Hk; cbn [negb]; [|intros [= <- <-] Hr; by apply report_silent in Hr].
  unfold acceptable, managed. rewrite Hk.
  destruct (MatchTarget m path TargetYAML) as [[s b]|] eqn:Hy.
  - assert (Hl : knownLeaf path = true).
    { apply first_match_some in Hy as (Hs & _ & Hm). eapply Match_knownLeaf; [by apply compatible_field|exact Hm]. }
    rewrite bool_decide_true by done. cbn [andb].
    intros Hres Hsilent. assert (Hp : co_issues (project_yaml limits su s b path key value c) = [] /\ below = None).
    { destruct (_ =? _); cbn [negb] in Hres; injection Hres as <- <-; rewrite ?dotenvs_issues in Hsilent; done. }
    destruct Hp as [[Hcc Hv]%project_yaml_silent ->]. split_and!; try done. intros _. left. exists s, b. split; [done|].
    intros v Hr%integrationValue_reads. destruct (Hv v Hr) as [Hsup|]; [right|by left].
    apply first_match_some in Hy as (Hs & _ & Hm). eapply suppressed_left_out; [by apply compatible_field|done..].
  - rewrite bool_decide_false by (by intros []). cbn [andb]. destruct (Z.eqb_spec (blen (matchingFields m path TargetDotenv)) 0) as [Hd|Hd]; cbn [negb].
    + apply no_items in Hd. destruct (knownLeaf path) eqn:Hl.
      * rewrite (managed_leaf path Hl Hy Hd), orb_true_r, andb_false_r. cbn [negb andb]. intros [= <- <-] Hr. by apply report_silent in Hr.
      * rewrite orb_false_r, andb_true_r. cbn [negb andb]. intros [= <- <-].
        destruct (negb _ && _) eqn:Hb; [intros Hr; by apply report_silent in Hr|]. intros ->. split_and!; [done..| |].
        -- by destruct (bool_decide _).
        -- intros Hn Hm. by rewrite bool_decide_true in Hn.
    + intros [= <- <-]. rewrite dotenvs_issues. intros ->. assert (Hne : matchingFields m path TargetDotenv <> []) by (by intros E%no_items).
      split_and!; [done|done|by right|done|]. intros _ _. by eapply dotenv_leaf.
Qed.

(** The loop over the entries of one mapping. *)
Fixpoint walk_entries (path : list string) (unsupportedAncestor : bool) (l : list Node) (c : collected) : collected :=
  match l with
  | key :: value :: rest =>
      let childPath := (path ++ [n_Value key])%list in
      let '(c, below) := classify_entry m limits su key value childPath unsupportedAncestor c in
      walk_entries path unsupportedAncestor rest (match below with Some childUnsupported => walk m limits su value childPath childUnsupported c | None => c end)
  | _ => c
  end.
Lemma walk_unfold n path unsupportedAncestor c : walk m limits su n path unsupportedAncestor c =
  if (MaxIssues limits <=? blen (co_issues c)) || negb (bool_decide (n_Kind n = MappingNode)) then c
  else walk_entries path unsupportedAncestor (n_Content n) c.
Proof.
  destruct n as [? ? ? ? ? ? ? ? ? ? ? l]. cbn -[classify_entry Z.leb]. destruct (_ || _); [done|]. revert c.
  induction l as [|k|key value rest IH] using pairs_ind; intros c; [done..|]. cbn -[classify_entry]. destruct (classify_entry _ _ _ _ _ _ _ _) as [c' below]. apply IH.
Qed.

Lemma walk_preserves (P : collected -> Prop) : (forall key value path ua c, P c -> P (classify_entry m limits su key value path ua c).1) ->
  forall n path ua c, P c -> P (walk m limits su n path ua c).
Proof using Type.
  intros HP. induction n as [n IH] using Node_tree_ind. intros path ua c. rewrite walk_unfold. destruct (_ || _); [done|]. revert c.
  induction (n_Content n) as [|k|key value rest IHl] using pairs_ind; intros c; cbn [walk_entries]; [done..|].
  apply Forall_cons in IH as [_ [IHv IHr]%Forall_cons]. intros Hc'. apply (HP key value (path ++ [n_Value key])%list ua) in Hc'.
  destruct (classify_entry _ _ _ _ _ _ _ _) as [c' below]. apply (IHl IHr). destruct below; [by apply IHv|done].
Qed.
(** What holds of the issues is kept by everything that is reported. *)
Lemma classify_entry_preserves (P : list Issue -> Prop) : (forall class path key summary b c,
    P (co_issues c) -> P (co_issues (report limits (issue_at class path key summary b) c))) ->
  forall key value path ua c, P (co_issues c) -> P (co_issues (classify_entry m limits su key value path ua c).1).
Proof using Type.
  intros HP key value path ua c Hp. unfold classify_entry. destruct (negb (knownPrefix path)); [by apply HP|].
  assert (Hy : P (co_issues (match MatchTarget m path TargetYAML with Some (s, b) => project_yaml limits su s b path key value c | None => c end))).
  { destruct (MatchTarget m path TargetYAML) as [[s b]|]; [|done]. unfold project_yaml.
    destruct (projectedFromNode s b value) as [[f supported]|]; [|done]. destruct (suppressed su s b); [done|].
    destruct supported; [by rewrite project_new_issues|]. destruct (full _ _); by apply HP. }
  revert Hy. generalize (match MatchTarget m path TargetYAML with Some (s, b) => project_yaml limits su s b path key value c | None => c end). intros c1 Hy.
  destruct (_ && _); [done|]. destruct (negb _); cbn [fst]; [by rewrite dotenvs_issues|].
  destruct (negb ua && _ && _), (ua && _ && _); auto.
Qed.
Lemma walk_mono n path ua c : co_issues (walk m limits su n path ua c) = [] -> co_issues c = [].
Proof using Hi.
  destruct (decide (co_issues c = [])) as [|Hne]; [done|]. intros Hw. exfalso. revert Hw.
  apply (walk_preserves (fun c => co_issues c <> [])); [|done]. apply (classify_entry_preserves (fun l => l <> [])). intros. apply report_silent.
Qed.
Lemma walk_blocks n path ua c : Forall (fun i => is_BlocksExecution i = true) (co_issues c) ->
  Forall (fun i => is_BlocksExecution i = true) (co_issues (walk m limits su n path ua c)).
Proof using Type.
  apply (walk_preserves (fun c => Forall (fun i => is_BlocksExecution i = true) (co_issues c))).
  apply (classify_entry_preserves (Forall (fun i => is_BlocksExecution i = true))). intros class p key summary b c' Hc'. unfold report, appendIssue. cbn.
  destruct (_ <=? _); [done|]. apply Forall_app. by split; [|repeat constructor].
Qed.

(** Everything below [n] that does not lie below a leaf. *)
Definition acceptable_below (n : Node) (path : list string) : Prop := forall q v, q <> [] -> node_at n q = Some v ->
  (forall q1 q2, q = (q1 ++ q2)%list -> q1 <> [] -> q2 <> [] -> knownLeaf (path ++ q1) = false) -> acceptable (path ++ q) v.
Definition acceptable_entries (l : list Node) (path : list string) : Prop := forall k q v, (value ← lookup_key l k; node_at value q) = Some v ->
  (forall q1 q2, (k :: q) = (q1 ++ q2)%list -> q1 <> [] -> q2 <> [] -> knownLeaf (path ++ q1) = false) -> acceptable (path ++ k :: q) v.

Lemma acceptable_entry key value rest path : acceptable (path ++ [n_Value key]) value ->
  (knownLeaf (path ++ [n_Value key]) = true \/ n_Kind value <> MappingNode \/ acceptable_below value (path ++ [n_Value key])) ->
  acceptable_entries rest path -> acceptable_entries (key :: value :: rest) path.
Proof.
  intros Ha Hb Hr k q v. cbn [lookup_key]. destruct (String.eqb_spec (n_Value key) k) as [<-|]; [|apply Hr]. cbn. intros Hv Hq.
  destruct q as [|k' q]; [injection Hv as <-; exact Ha|].
  assert (Hl : knownLeaf (path ++ [n_Value key]) = false) by (by apply (Hq [n_Value key] (k' :: q))).
  destruct Hb as [Hb|[Hb|Hb]]; [congruence| |].
  - cbn in Hv. unfold mappingValue in Hv. by rewrite bool_decide_false in Hv.
  - change (path ++ n_Value key :: k' :: q)%list with (path ++ [n_Value key] ++ k' :: q)%list. rewrite app_assoc. apply Hb; [done|done|].
    intros q1 q2 E H1 H2. rewrite <- app_assoc. apply (Hq (n_Value key :: q1) q2); [by rewrite E|done|done].
Qed.

Lemma walk_silent : forall n path c, co_issues (walk m limits su n path false c) = [] -> co_issues c = [] /\ acceptable_below n path.
Proof using Hc Hi.
  induction n as [n IH] using Node_tree_ind. intros path c. rewrite walk_unfold.
  destruct (MaxIssues limits <=? blen (co_issues c)) eqn:Hm; cbn [orb].
  { intros Hn. rewrite Hn in Hm. bool_prop. cbn in Hm. unfold blen in Hm. cbn in Hm. lia. }
  clear Hm. case_bool_decide as Hk; cbn [negb].
  2:{ intros ->. split; [done|]. intros [|k q] v; [done|]. cbn. unfold mappingValue. by rewrite bool_decide_false. }
  intros Hw. assert (He : co_issues c = [] /\ acceptable_entries (n_Content n) path).
  { clear Hk. revert c Hw. induction (n_Content n) as [|k|key value rest IHl] using pairs_ind; intros c; cbn [walk_entries]; [done..|].
    apply Forall_cons in IH as [_ [IHv IHr]%Forall_cons]. destruct (classify_entry _ _ _ _ _ _ _ _) as [c' below] eqn:Hce. intros Hw.
    apply (IHl IHr) in Hw as [Hb Hr].
    assert (Hs : co_issues c' = [] /\ (below = Some false -> acceptable_below value (path ++ [n_Value key]))).
    { destruct below as [[|]|]; [by apply walk_mono in Hb|by apply IHv in Hb as [? ?]|by split]. }
    destruct Hs as [Hs Hbelow]. apply classify_entry_silent in Hce as (Hcc & Ha & Hn & Hl); [|done]. split; [done|].
    apply acceptable_entry; [done| |done]. destruct below as [[|]|]; [done|right; right; by apply Hbelow|].
    destruct (decide (n_Kind value = MappingNode)) as [Hk|Hk]; [left; by apply Hl|right; by left]. }
  destruct He as [Hcc He]. split; [done|]. intros [|k q] v; [done|]. cbn [node_at]. rewrite mappingValue_mapping by done. intros _. apply He.
Qed.
End Classification.

Lemma add_absent_fields_issues `{YamlCodec} (limits : Limits) (su : surroundings) (l : list FieldSpec) (c : collected) :
  co_issues (fold_left (add_absent_fields limits su) l c) = co_issues c.
Proof.
  assert (Ha : forall s c bindings, co_issues (add_absent limits su s c bindings) = co_issues c).
  { intros s c' bindings. unfold add_absent. repeat case_match; by rewrite ?project_new_issues. }
  assert (Hs : forall sets s c, co_issues (fold_left (add_absent limits su s) sets c) = co_issues c).
  { induction sets as [|b sets IH]; intros s c'; [done|]. cbn [fold_left]. by rewrite IH, Ha. }
  revert c. induction l as [|s l IH]; intros c; [done|]. cbn [fold_left]. rewrite IH. apply Hs.
Qed.
Lemma issues_of_block (document : Node) limit b l : Forall (fun i => is_BlocksExecution i = true) (issues_of document limit b l).
Proof. apply Forall_fmap, Forall_forall. intros [class [path summary]] _. cbn. by destruct (position document path). Qed.
Lemma no_blocking n l : 0 < n -> Forall (fun i => is_BlocksExecution i = true) l -> forall rest,
  existsb is_BlocksExecution (take (Z.to_nat n) (l ++ rest)) = false -> l = [].
Proof.
  intros Hn [|i l' Hi _] rest; [done|]. destruct (Z.to_nat n) eqn:E; [lia|]. cbn. by rewrite Hi.
Qed.

(** C3: An executable configuration holds nothing that is not managed.  If an
    engine inspects a source and calls it executable, the inspection reports no
    issue at all, and every entry of the parsed document that does not lie below a
    leaf is at the beginning of a path lego knows.  If it is a leaf itself, it
    belongs to a field of the integration: either to one of a credential file, or
    to one of the configuration file, and then its value, if it is of the field's
    type, keeps the field's contract, unless the entry is an HTTP setting of a
    challenge with a form that is not managed or belongs to a certificate with a
    signing request or a PFX export.  Values of another type are left to the
    schema.  This holds for the inspection of an adopted and of a new configuration. *)
Theorem executable_means_managed `{YamlCodec} `{SchemaPackage} `{ConfigurationDecoder} `{Digests} `{NetParsers} `{MapOrder}
    (m : Manifest) (runtime : string) (schema source : bytes) (l : Limits) (e : engine) (creation : bool) (n : Inspection) :
  NewEngine runtime schema m l = Ok e -> inspect e source creation = Ok n -> in_Executable n = true ->
  in_Issues n = [] /\ exists document, parseDocument source (eg_limits e) = Ok document
  /\ forall path value, path <> [] -> nodeAtPath document path = Some value ->
     (forall above below, path = (above ++ below)%list -> above <> [] -> below <> [] -> knownLeaf above = false) ->
     acceptable m (root_of document) path value.
Proof.
  intros [<- Hf Hi]%NewEngine_ok. unfold inspect. intros (document & Hd & (any & _ & E)%bind_Ok)%bind_Ok.
  destruct (projectAndClassify _ _ _) as [[[projection routes] classification] o] eqn:Hp. apply bind_Ok in E as (u & _ & [= <-]).
  cbn. match goal with |- context [if ?b then validateCoreConstraints ?d ?k ?x ?y else []] => set (constraints := if b then validateCoreConstraints d k x y else []) end.
  assert (Hb : Forall (fun i => is_BlocksExecution i = true) constraints).
  { unfold constraints, validateCoreConstraints. repeat case_match; first [apply issues_of_block|constructor]. }
  clearbody constraints. destruct (validateSchema e document any) as [|x xs] eqn:Hs; [|done]. cbn.
  destruct (validateSemantics document _) as [|x xs]; [|done]. cbn. intros Hx%negb_true_iff.
  pose proof (no_blocking _ _ Hi Hb _ Hx) as ->. cbn in *.
  assert (Hsilent : classification = []).
  { apply (no_blocking (MaxIssues (eg_limits e)) _ Hi) with (@nil Issue); [|by rewrite app_nil_r]. unfold projectAndClassify in Hp. injection Hp as _ _ <- _.
    rewrite add_absent_fields_issues. apply walk_blocks. constructor. }
  split; [rewrite Hsilent; by destruct (Z.to_nat _)|]. exists document. split; [done|]. intros path value Hne Hv Hl.
  unfold projectAndClassify in Hp. injection Hp as _ _ Hw _. rewrite Hsilent, add_absent_fields_issues in Hw.
  apply walk_silent in Hw as [_ Hw]; [|done|done]. apply parseDocument_Ok in Hd as [[Hk (root & Hc & _)] _].
  rewrite (nodeAtPath_document _ _ _ Hk Hc) in Hv. unfold root_of in Hw |- *. rewrite Hc in Hw |- *. by apply (Hw path).
Qed.

(** ** Secrets *)

(** The values below a node, each with the keys that lead to it; the items of a
    sequence have the path of the sequence. *)
Inductive below : Node -> list string -> Node -> Prop :=
| below_value n key value : n_Kind n = MappingNode -> (key, value) ∈ mapping_entries n -> below n [n_Value key] value
| below_entry n key value path v : n_Kind n = MappingNode -> (key, value) ∈ mapping_entries n -> below value path v -> below n (n_Value key :: path) v
| below_item n child path v : n_Kind n <> MappingNode -> child ∈ n_Content n -> below child path v -> below n path v.

Fixpoint pairs_of (l : list Node) : list (Node * Node) := match l with k :: v :: rest => (k, v) :: pairs_of rest | _ => [] end.
Lemma mapping_entries_pairs n : mapping_entries n = pairs_of (n_Content n).
Proof. reflexivity. Qed.
Lemma below_mapping n q v : n_Kind n = MappingNode ->
  below n q v <-> exists key value, (key, value) ∈ pairs_of (n_Content n) /\ (q = [n_Value key] /\ v = value \/ exists q', q = n_Value key :: q' /\ below value q' v).
Proof.
  intros Hk. rewrite <- mapping_entries_pairs. split.
  - inversion 1; subst; [|naive_solver|done]. eexists _, _. split; [done|by left].
  - intros (key & value & Hin & [[-> ->]|(q' & -> & Hb)]); [by constructor|by econstructor].
Qed.
Lemma below_other n q v : n_Kind n <> MappingNode -> below n q v <-> exists child, child ∈ n_Content n /\ below child q v.
Proof. intros Hk. split; [inversion 1; subst; by eauto|]. intros (child & Hin & Hb). by econstructor. Qed.
Lemma lookup_key_pairs l k v : lookup_key l k = Some v -> exists key, (key, v) ∈ pairs_of l /\ n_Value key = k.
Proof.
  induction l as [|x|key value rest IH] using pairs_ind; cbn; [done..|]. destruct (String.eqb_spec (n_Value key) k) as [He|]; [intros [= ->]|intros (key' & ? & ?)%IH].
  - exists key. split; [by left|done].
  - exists key'. split; [by right|done].
Qed.
Lemma node_at_below : forall q n v, q <> [] -> node_at n q = Some v -> below n q v.
Proof.
  induction q as [|k q IH]; intros n v; [done|]. intros _. cbn. unfold mappingValue. case_bool_decide as Hk; [|done].
  destruct (lookup_key (n_Content n) k) as [value|] eqn:Hl; [|done]. apply lookup_key_pairs in Hl as (key & Hin & <-). cbn. intros Hv.
  destruct q as [|k' q]; [injection Hv as ->; by constructor|]. econstructor; [done|done|by apply IH].
Qed.

Section Secrets.
Context `{YamlCodec} (m : Manifest).
(** A text that a secret field of the YAML file has at this path. *)
Definition secret_at (path : list string) (v : Node) (text : bytes) : Prop :=
  (exists s, s ∈ Fields m /\ fs_target s = TargetYAML /\ is_secret s = true /\ is_Some (Match s path))
  /\ n_Kind v = ScalarNode /\ n_Tag v = "!!str"%string /\ n_Value v <> ""%string /\ text = to_bytes (n_Value v).

Lemma elem_of_add_distinct l text t : t ∈ add_distinct l text <-> t ∈ l \/ t = text.
Proof. unfold add_distinct. case_bool_decide; [naive_solver|]. rewrite elem_of_app, list_elem_of_singleton. done. Qed.
Lemma NoDup_add_distinct l text : NoDup l -> NoDup (add_distinct l text).
Proof. unfold add_distinct. case_bool_decide; [done|]. intros Hd. apply NoDup_app. split_and!; [done| |apply NoDup_singleton]. by intros x Hx ->%list_elem_of_singleton. Qed.

Lemma entry_secrets_spec path v found text : text ∈ entry_secrets m path v found <-> text ∈ found \/ secret_at path v text.
Proof.
  unfold entry_secrets, secret_at.
  assert (Hm : (exists s, s ∈ Fields m /\ fs_target s = TargetYAML /\ is_secret s = true /\ is_Some (Match s path))
               <-> exists x, x ∈ matchingFields m path TargetYAML /\ is_secret (fm_spec x) = true).
  { split.
    - intros (s & Hs & Ht & He & [b Hb]). exists (mk_match s b). split; [|done]. apply list_elem_of_omap. exists s. by rewrite bool_decide_true, Hb.
    - intros (x & (Hs & Ht & Hb)%elem_of_matchingFields & He). eauto 10. }
  rewrite Hm. clear Hm. revert found. induction (matchingFields m path TargetYAML) as [|x l IH]; intros found; cbn [fold_left].
  { split; [by left|]. intros [|[(x & Hx & _) _]]; [done|by apply elem_of_nil in Hx]. }
  rewrite IH. setoid_rewrite elem_of_cons. destruct (_ && _) eqn:E.
  - rewrite elem_of_add_distinct. bool_prop. naive_solver.
  - split; [naive_solver|]. intros [|[(x' & [->|] & Hs) (Hk & Ht & Hv & ->)]]; [by left| |naive_solver]. exfalso.
    rewrite Hs, Hk, Ht, bool_decide_true, String.eqb_refl in E by done. cbn in E. apply negb_false_iff, String.eqb_eq in E. done.
Qed.
Lemma entry_secrets_NoDup path v found : NoDup found -> NoDup (entry_secrets m path v found).
Proof.
  unfold entry_secrets. revert found. induction (matchingFields m path TargetYAML) as [|x l IH]; intros found Hd; cbn [fold_left]; [done|].
  apply IH. destruct (_ && _); [by apply NoDup_add_distinct|done].
Qed.

(** Every key of a mapping is a text. *)
Fixpoint text_keys (l : list Node) : bool :=
  match l with k :: _ :: rest => bool_decide (n_Kind k = ScalarNode) && String.eqb (n_Tag k) "!!str" && text_keys rest | _ => true end.
Lemma check_keys_text : forall l seen, check_keys seen l = Ok tt -> text_keys l = true.
Proof.
  induction l as [|x|key value rest IH] using pairs_ind; intros seen; cbn [check_keys text_keys]; [done..|].
  intros (u1 & _ & (u2 & Ht%reject_if_Ok & (u3 & _ & E)%bind_Ok)%bind_Ok)%bind_Ok. apply orb_false_iff in Ht as [H1%negb_false_iff H2%negb_false_iff].
  rewrite H1, H2. by eapply IH.
Qed.
Lemma plain_mapping limits depth n : plain limits depth n = true -> n_Kind n = MappingNode ->
  text_keys (n_Content n) = true.
Proof.
  rewrite plain_unfold. intros Hp Hk. bool_prop. destruct (check_node n) as [[]|] eqn:Hn; [|done].
  unfold check_node in Hn. rewrite (bool_decide_true (n_Kind n = MappingNode)) in Hn by done.
  apply bind_Ok in Hn as (u & _ & (u2 & _ & (u3 & _ & E)%bind_Ok)%bind_Ok). by eapply check_keys_text.
Qed.
Lemma plain_children limits depth n : plain limits depth n = true -> Forall (fun c => plain limits (depth + 1) c = true) (n_Content n).
Proof. rewrite plain_unfold. intros Hp. bool_prop. apply Forall_forall. by apply forallb_elem_of. Qed.

(** What a walk adds: every secret below a node, once. *)
Definition secrets_added (path : list string) (reach : list string -> Node -> Prop) (found result : list bytes) : Prop :=
  (NoDup found -> NoDup result)
  /\ forall text, text ∈ result <-> text ∈ found \/ exists q v, reach q v /\ secret_at (path ++ q) v text.
Lemma secrets_added_none path reach found : (forall q v, ~ reach q v) -> secrets_added path reach found found.
Proof. intros Hr. split; [done|]. intros text. split; [by left|]. intros [|(q & v & Hq & _)]; [done|by apply Hr in Hq]. Qed.
Lemma secrets_added_trans path reach1 reach2 reach found middle result : secrets_added path reach1 found middle -> secrets_added path reach2 middle result ->
  (forall q v, reach q v <-> reach1 q v \/ reach2 q v) -> secrets_added path reach found result.
Proof.
  intros [D1 H1] [D2 H2] Hr. split; [auto|]. intros text. rewrite H2, H1. setoid_rewrite Hr. naive_solver.
Qed.
Lemma secrets_added_equiv path reach reach' found result : secrets_added path reach found result -> (forall q v, reach q v <-> reach' q v) ->
  secrets_added path reach' found result.
Proof. intros [D1 H1] Hr. split; [done|]. intros text. rewrite H1. by setoid_rewrite Hr. Qed.

Lemma secrets_added_entry path k value found :
  secrets_added path (fun q v => q = [k] /\ v = value) found (entry_secrets m (path ++ [k]) value found).
Proof. split; [apply entry_secrets_NoDup|]. intros text. rewrite entry_secrets_spec. naive_solver. Qed.
Lemma secrets_added_under path k reach found result : secrets_added (path ++ [k]) reach found result ->
  secrets_added path (fun q v => exists q', q = k :: q' /\ reach q' v) found result.
Proof.
  intros [D1 H1]. split; [done|]. intros text. rewrite H1.
  assert (Hq : forall q, (path ++ [k]) ++ q = path ++ k :: q) by (intros q; by rewrite <- app_assoc). setoid_rewrite Hq. naive_solver.
Qed.

(** The two loops of the walk. *)
Fixpoint secrets_entries (l : list Node) (path : list string) (found : list bytes) : list bytes :=
  match l with
  | key :: value :: rest =>
      secrets_entries rest path (if bool_decide (n_Kind key = ScalarNode) && String.eqb (n_Tag key) "!!str"
                         then secrets_below m value (path ++ [n_Value key])%list (entry_secrets m (path ++ [n_Value key])%list value found) else found)
  | _ => found
  end.
Lemma secrets_below_unfold n path found : secrets_below m n path found =
  if bool_decide (n_Kind n = MappingNode) then secrets_entries (n_Content n) path found
  else fold_left (fun found child => secrets_below m child path found) (n_Content n) found.
Proof.
  destruct n as [kind ? ? ? ? ? ? ? ? ? ? l]. cbn -[entry_secrets]. destruct (bool_decide (kind = MappingNode)).
  - revert found. induction l as [|k|key value rest IH] using pairs_ind; intros found; [done..|]. cbn -[entry_secrets]. apply IH.
  - revert found. induction l as [|child rest IH]; intros found; [done|]. cbn -[entry_secrets]. apply IH.
Qed.

Lemma secrets_below_spec limits : forall n path depth found, plain limits depth n = true ->
  secrets_added path (below n) found (secrets_below m n path found).
Proof.
  induction n as [n IH] using Node_tree_ind. intros path depth found Hp. rewrite secrets_below_unfold.
  pose proof (plain_children _ _ _ Hp) as Hpc. case_bool_decide as Hk.
  - pose proof (plain_mapping _ _ _ Hp Hk) as Ht. eapply secrets_added_equiv; [|intros q v; symmetry; by apply below_mapping].
    clear Hp Hk. revert found. induction (n_Content n) as [|x|key value rest IHl] using pairs_ind; intros found; cbn [secrets_entries pairs_of].
    1, 2: apply secrets_added_none; intros q v (key & value & Hin & _); by apply elem_of_nil in Hin.
    apply Forall_cons in IH as [_ [IHv IHr]%Forall_cons], Hpc as [_ [Hv Hr]%Forall_cons]. cbn [text_keys] in Ht. bool_prop.
    match goal with Hs : n_Kind key = ScalarNode, Ht : n_Tag key = _ |- _ => rewrite Hs, Ht, bool_decide_true, String.eqb_refl by done end. cbn [andb].
    eapply (secrets_added_trans _ (fun q v => (q = [n_Value key] /\ v = value) \/ exists q', q = n_Value key :: q' /\ below value q' v)); [|by apply IHl|].
    { eapply secrets_added_trans; [apply secrets_added_entry|eapply secrets_added_under, IHv, Hv|]. intros q v. reflexivity. }
    intros q v. cbn. setoid_rewrite elem_of_cons. naive_solver.
  - eapply secrets_added_equiv; [|intros q v; symmetry; by apply below_other].
    clear Hp Hk. revert found. induction (n_Content n) as [|child rest IHl]; intros found; cbn [fold_left].
    { apply secrets_added_none. intros q v (child & Hin & _). by apply elem_of_nil in Hin. }
    apply Forall_cons in IH as [IHc IHr], Hpc as [Hc Hr]. eapply secrets_added_trans; [by eapply IHc|by apply IHl|].
    intros q v. setoid_rewrite elem_of_cons. naive_solver.
Qed.
End Secrets.

(** C13: The confidential values that are kept out of every output are exactly the
    secrets of the document.  If they can be listed at all, the source parses, no
    value is listed twice, and a value is listed exactly if it is a non-empty text
    somewhere in the document under keys that the selector of a confidential field
    of the YAML file matches; whatever can be looked up by its path counts as being
    in the document. *)
Theorem ObservedSecrets_lists_every_secret `{YamlCodec} (m : Manifest) (limits : Limits) (source : bytes) (secrets : list bytes) :
  ObservedSecrets m limits source = Ok secrets ->
  NoDup secrets /\ exists document, parseDocument source limits = Ok document
  /\ (forall text, text ∈ secrets <-> exists path v, below (root_of document) path v /\ secret_at m path v text)
  /\ (forall path v, path <> [] -> nodeAtPath document path = Some v -> below (root_of document) path v).
Proof.
  unfold ObservedSecrets. intros (document & Hd & [= <-])%bind_Ok. pose proof (parseDocument_plain _ _ _ Hd) as Hp.
  apply parseDocument_Ok in Hd as Hw. destruct Hw as [[Hk (root & Hc & _)] _].
  rewrite plain_unfold, Hc in Hp. bool_prop. cbn in H1. apply andb_true_iff in H1 as [Hr _].
  unfold root_of. rewrite Hc. destruct (secrets_below_spec m limits root [] 1 [] Hr) as [Hn Hs]. split; [apply Hn; constructor|].
  exists document. split_and!; [done| |].
  - intros text. rewrite Hs, Hc. split; [intros [Hin|]; [by apply elem_of_nil in Hin|done]|by right].
  - intros path v Hne Hv. rewrite Hc. rewrite (nodeAtPath_document _ _ _ Hk Hc) in Hv. by apply node_at_below.
Qed.

(** ** Confidential writes *)

(** Two nodes that are presented alike. *)
Definition same_presentation (a b : Node) : Prop :=
  n_Style a = n_Style b /\ n_Anchor a = n_Anchor b /\ n_HeadComment a = n_HeadComment b /\ n_LineComment a = n_LineComment b /\ n_FootComment a = n_FootComment b
  /\ n_Kind a = n_Kind b.

(** C20: Setting a confidential field does not tell what the field held.  Take a
    document whose field holds one value, and the document that differs from it
    only in holding another value, presented alike: the write succeeds on both,
    always counts as a change, gives one and the same new document, and is
    summarized in the same way.  The new document has the new value at the path,
    and a new text has another quoting style than the old one, so that even the
    same text is rewritten. *)
Theorem secret_write_hides_the_old_value `{YamlCodec} `{NetParsers} (document old other : _) (p : preparedChange) :
  wf_document document -> pg_path p <> [] -> nodeAtPath document (pg_path p) = Some old -> same_presentation old other ->
  is_secret (pg_spec p) = true -> pg_op p = OperationSet -> pg_value p <> NoValue ->
  exists document', applyYAMLChange document p = Ok (document', Some old, true)
    /\ applyYAMLChange (put document (pg_path p) other) p = Ok (document', Some other, true)
    /\ summarizeYAML p (Some old) = summarizeYAML p (Some other)
    /\ exists n, nodeAtPath document' (pg_path p) = Some n /\ equalNodeValue n (encode_value (pg_value p)) = true
       /\ (n_Kind n = ScalarNode -> n_Tag n = "!!str"%string -> n_Style n <> n_Style old).
Proof.
  intros Hw Hp Ho (Hstyle & Hanchor & Hhead & Hline & Hfoot & Hkind) Hs Hset Hv. set (value := encode_value (pg_value p)).
  assert (Ha : forall d, applyYAMLChange d p = setNodeAtPath d (pg_path p) value true).
  { intros d. unfold applyYAMLChange. rewrite Hset, Hs. by destruct (pg_value p). }
  assert (Hd : dressed true old value = dressed true other value) by (unfold dressed; by rewrite Hstyle, Hanchor, Hhead, Hline, Hfoot, Hkind).
  exists (put document (pg_path p) (dressed true old value)). split_and!.
  - rewrite Ha. rewrite <- (put_same document (pg_path p) old Hw Ho) at 1. by eapply setNodeAtPath_put.
  - rewrite Ha, Hd. by eapply setNodeAtPath_put.
  - unfold summarizeYAML. by rewrite Hs.
  - exists (dressed true old value). split_and!; [by eapply nodeAtPath_put|apply equalNodeValue_dressed|]. cbn.
    intros Hk Ht. rewrite Hk, Ht, bool_decide_true by done. cbn. unfold SingleQuotedStyle, DoubleQuotedStyle.
    destruct (Z.eqb_spec (n_Style old) 4); congruence.
Qed.

(** ** A sample *)

Section Sample.
Fixpoint unhex (l : bytes) : bytes :=
  match l with
  | a :: b :: rest =>
      let digit c := if is_digit c then b2z c - 48 else b2z c - 87 in
      z2b (16 * digit a + digit b) :: unhex rest
  | _ => []
  end.
(** The digest of the bundled schema. *)
Definition schema_digest : bytes :=
  match Compat.Lookup Compat.exactManifests ManifestLegoV531 with Some r => unhex (to_bytes (Compat.as_SHA256 (Compat.cp_Schema r))) | None => [] end.
Lemma schema_digest_length : blen schema_digest = 32.
Proof. vm_compute. reflexivity. Qed.
#[local] Instance sample_digests : Digests :=
  {| hmac _ _ := schema_digest; digest _ := schema_digest; hmac_length _ _ := schema_digest_length; digest_length _ := schema_digest_length |}.
#[local] Instance sample_parsers : NetParsers := {| url_Parse _ := None; mail_ParseAddress a := Some (a, []); net_ParseIP _ := None |}.
#[local] Instance sample_order : MapOrder := {| iterate _ l := l; iterate_perm _ l := reflexivity l |}.
#[local] Instance sample_schema : SchemaPackage := {| json_root_schema _ := Some (Some draft7); schema_compile _ := Some 7; schema_validate _ _ := Valid |}.

Definition text (value : string) : Node := plain_node ScalarNode "!!str" value.
Definition mapping (l : list (string * Node)) : Node := with_content empty_mapping (l ≫= fun e => [key_node e.1; e.2]).
Definition texts (l : list string) : Node := with_content (plain_node SequenceNode "!!seq" "") (text <$> l).
Definition document_of (root : Node) : Node := with_content (plain_node DocumentNode "" "") [root].
Definition document_with (account : list (string * Node)) : Node := document_of (mapping
  [("accounts", mapping [("main", mapping account)]);
   ("challenges", mapping [("web", mapping [("http", mapping [("address", text ":80")])])]);
   ("certificates", mapping [("site", mapping [("domains", texts ["example.test"]); ("challenge", text "web"); ("account", text "main")])])])%string.
Definition plain_account : list (string * Node) := [("server", text "letsencrypt"); ("email", text "a@example.test")]%string.
Definition eab_account : list (string * Node) := [("server", text "zerossl"); ("eab", mapping [("kid", text "k"); ("hmacKey", text "c2VjcmV0")])]%string.
Definition staged_account : list (string * Node) := [("server", text "letsencrypt-staging")]%string.
(** The texts "p", "e" and "s" are these three documents. *)
#[local] Instance sample_codec : YamlCodec := {|
  decode_twice l := (if bool_decide (l = to_bytes "e") then Decoded (document_with eab_account)
                     else if bool_decide (l = to_bytes "s") then Decoded (document_with staged_account) else Decoded (document_with plain_account), EndOfText);
  encode_node n := Some (to_bytes "s");
  encode_value v := match v with
                    | StringValue t => text t | BooleanValue b => plain_node ScalarNode "!!bool" (if b then "true" else "false")
                    | IntegerValue _ => plain_node ScalarNode "!!int" "0" | StringListValue l => texts l | NoValue => plain_node ScalarNode "!!null" "" end;
  decode_bool _ := None; decode_int64 _ := None; decode_uint64 _ := None; decode_float64 _ := None;
|}.
Definition sample_challenge : nativeChallenge := mk_challenge "" (Some (mk_http ":80" 0 "" "" [] "")) None None None.
Definition sample_certificate (challenge : string) : nativeCertificate :=
  mk_native_certificate "" ["example.test"]%string "" "" challenge "main" false "" "" GoTime.zero_time GoTime.zero_time false false false None None.
Definition sample_configuration (certificates : list (string * string)) : nativeConfiguration :=
  mk_configuration "" "" "" ∅ {["main"%string := Some (mk_account "" "letsencrypt" "a@example.test" "" true None)]}
    {["web"%string := Some sample_challenge]} (list_to_map ((fun e => (e.1, Some (sample_certificate e.2))) <$> certificates)) None None.
#[local] Instance sample_decoder : ConfigurationDecoder := {| decode_configuration _ := Some (sample_configuration [("site", "web")]%string) |}.

Definition sample_manifest : Manifest := match build Core with Ok m => m | Err _ => mk_manifest "" [] ∅ end.
Definition sample_engine : engine := mk_native_engine ManifestLegoV531 sample_manifest (to_bytes "{}") DefaultLimits.
Lemma sample_engine_built : NewEngine ManifestLegoV531 (to_bytes "{}") sample_manifest (mk_limits 0 0 0 0 0 0) = Ok sample_engine.
Proof. vm_compute. reflexivity. Qed.
Definition of_main (field : string) (op : Operation) (v : Value) : Change := mk_native_change field [mk_binding BindingAccount "main"] op v.
Definition sample_changes : list Change :=
  [of_main FieldAccountServer OperationSet (StringValue "letsencrypt-staging"); of_main FieldAccountEmail OperationRemove NoValue].
Lemma sample_manifest_built : build Core = Ok sample_manifest.
Proof. vm_compute. reflexivity. Qed.
Lemma sample_scalar v : n_Kind (encode_value v) <> MappingNode.
Proof. by destruct v. Qed.

Lemma sample_candidate_ok : exists c, Preview sample_engine (to_bytes "p") sample_changes = Ok c.
Proof. apply is_ok_true. vm_compute. reflexivity. Qed.
Theorem Preview_edits_exactly_the_named_fields_witness : exists candidate document',
  takes_effect OperationSet (StringValue "letsencrypt-staging") (nodeAtPath document' ["accounts"; "main"; "server"]%string)
  /\ takes_effect OperationRemove NoValue (nodeAtPath document' ["accounts"; "main"; "email"]%string)
  /\ (cd_yaml candidate = to_bytes "p" \/ encode_node document' = Some (cd_yaml candidate)).
Proof.
  destruct sample_candidate_ok as [candidate Hc]. exists candidate.
  destruct (@Preview_edits_exactly_the_named_fields sample_codec sample_schema sample_decoder sample_digests sample_parsers sample_order
              Core sample_manifest ManifestLegoV531 (to_bytes "{}") (to_bytes "p") (mk_limits 0 0 0 0 0 0) sample_engine
              sample_changes candidate sample_manifest_built sample_engine_built sample_scalar Hc) as (document & document' & _ & Hy & He & _).
  exists document'. split_and!.
  - apply (He (of_main FieldAccountServer OperationSet (StringValue "letsencrypt-staging"))); [by left|]. apply addressed_spec. vm_compute. reflexivity.
  - apply (He (of_main FieldAccountEmail OperationRemove NoValue)); [by right; left|]. apply addressed_spec. vm_compute. reflexivity.
  - destruct Hy as [[Hy _]|Hy]; [by left|by right].
Defined.

Definition executable (r : result NativeCode Inspection) : bool := match r with Ok n => in_Executable n | Err _ => false end.
Lemma executable_spec r : executable r = true -> exists n, r = Ok n /\ in_Executable n = true.
Proof. destruct r as [n|]; [by exists n|done]. Qed.
Lemma sample_is_executable : exists n, inspect sample_engine (to_bytes "p") false = Ok n /\ in_Executable n = true.
Proof. apply executable_spec. vm_compute. reflexivity. Qed.
Theorem executable_means_managed_witness : exists document, parseDocument (to_bytes "p") (eg_limits sample_engine) = Ok document
  /\ forall path value, path <> [] -> nodeAtPath document path = Some value ->
     (forall above below, path = (above ++ below)%list -> above <> [] -> below <> [] -> knownLeaf above = false) ->
     acceptable sample_manifest (root_of document) path value.
Proof.
  destruct sample_is_executable as (n & Hn & He).
  exact (proj2 (@executable_means_managed sample_codec sample_schema sample_decoder sample_digests sample_parsers sample_order
                  sample_manifest ManifestLegoV531 (to_bytes "{}") (to_bytes "p") (mk_limits 0 0 0 0 0 0) sample_engine false n sample_engine_built Hn He)).
Defined.

Theorem ObservedSecrets_lists_every_secret_witness : exists document, parseDocument (to_bytes "e") DefaultLimits = Ok document
  /\ exists path v, below (root_of document) path v /\ secret_at sample_manifest path v (to_bytes "c2VjcmV0").
Proof.
  assert (Hs : ObservedSecrets sample_manifest DefaultLimits (to_bytes "e") = Ok [to_bytes "c2VjcmV0"]) by (vm_compute; reflexivity).
  destruct (ObservedSecrets_lists_every_secret sample_manifest DefaultLimits (to_bytes "e") [to_bytes "c2VjcmV0"] Hs) as (_ & document & Hd & Hl & _).
  exists document. split; [exact Hd|]. apply Hl. by left.
Defined.

Definition hmac_spec : FieldSpec := default (mk_spec "" "" FieldString TargetYAML SensitivityPublic DispositionManaged [] "" false [] None no_rules)
  (mf_fields sample_manifest !! FieldAccountEABHMACKey).
Definition hmac_change : preparedChange :=
  mk_prepared_change hmac_spec [mk_binding BindingAccount "main"] {[BindingAccount := "main"%string]} ["accounts"; "main"; "eab"; "hmacKey"]%string
    OperationSet (StringValue "bmV3").
Theorem secret_write_hides_the_old_value_witness : let document := document_with eab_account in
  exists document', applyYAMLChange document hmac_change = Ok (document', Some (text "c2VjcmV0"), true)
    /\ applyYAMLChange (put document (pg_path hmac_change) (text "bmV3")) hmac_change = Ok (document', Some (text "bmV3"), true).
Proof.
  destruct (secret_write_hides_the_old_value (document_with eab_account) (text "c2VjcmV0") (text "bmV3") hmac_change) as (document' & H1 & H2 & _).
  - constructor; [reflexivity|]. eexists. split_and!; [reflexivity|reflexivity|vm_compute; reflexivity].
  - done.
  - vm_compute. reflexivity.
  - repeat split.
  - vm_compute. reflexivity.
  - reflexivity.
  - done.
  - exists document'. split; [exact H1|exact H2].
Defined.
End Sample.

(** ** The order of the certificates *)

Definition forwards : MapOrder := {| iterate _ l := l; iterate_perm _ l := reflexivity l |}.
Definition backwards : MapOrder := {| iterate _ l := rev l; iterate_perm _ l := Permutation_sym (Permutation_rev l) |}.

(** The source model's checks depend on the order in which a map is visited.  A
    certificate without a challenge gets the only configured one as long as no
    certificate that names a built-in challenge was visited before it; afterwards
    there are two, and it gets none, which is an error.  The visit follows the
    order of a Go map, which changes from one inspection to the next. *)
Theorem defaults_follow_the_map_order : exists g,
  semantic_findings (@applyNativeDefaults forwards g) = [] /\ semantic_findings (@applyNativeDefaults backwards g) <> [].
Proof.
  exists (sample_configuration [("a", ""); ("b", "http-01")]%string). split; [vm_compute; reflexivity|]. intros E.
  apply (f_equal List.length) in E. vm_compute in E. done.
Qed.
